(* ===== verification/_CoqProject ===== *)
-Q . S2P
Prelude.v
GoStrings.v
ConfSyntax.v
ConfLexer.v
ConfParser.v
ConfEmit.v
ConfRoundtrip.v
ConfHelpers.v
Utils.v
Kv.v
KvFacts.v
Rollout.v
Versions.v
Manifest.v
DeploySeq.v
Semaphore.v
Ports.v
AllocState.v
AllocStateFacts.v
RuntimeAPI.v
RuntimeAPIFacts.v
PathMatch.v
GoFloat.v
UpdatePolicy.v
Deploy.v
DeployFacts.v
Parallel.v
Calendar.v
Schedule.v
ScheduleFacts.v
ConfLower.v
ScheduleConf.v
JobConf.v
JobConfFacts.v
KiveConf.v
KiveConfFacts.v
WorkersConf.v
Catalog.v
Resources.v
Placement.v
PlacementFacts.v
HashTree.v
JobTree.v
JobSign.v
Reconcile.v
DeployRun.v
DeployRunFacts.v
BucketConf.v
BuildVars.v
BuildVarsFacts.v
HealthSpec.v
HealthStatus.v
HealthErrors.v
HealthCheck.v
HealthFacts.v
HealthRecordFacts.v
Rows.v
BuildWorkers.v
BuildJobs.v
BuildJobsFacts.v
PromConfig.v
BuildCerts.v
BuildCertsFacts.v
BuildStore.v
History.v
SourceRevision.v
Durable.v
DurableFacts.v
Snapshot.v
SnapshotFacts.v
SnapshotBackup.v
SnapshotExamples.v
JobControl.v
JobControlFacts.v
LogLine.v
LogLineFacts.v
