(* ===== verification/Prelude.v ===== *)
(** * Kive: a verification library for the workload orchestrator (root file)

    Kive compiles a workspace of jobs into a SQLite catalog ([kive build]) and
    rolls the catalog out to workers over SSH and rsync ([kive deploy]). This
    library models the program's own logic in the order in which a run uses
    it, and proves what each part promises to the next. Paths are those of the
    repository, under src/. A component is one file, its definitions first and
    its facts after them; where it is large, the facts of [X] are in [XFacts].

    ** The parts of the program and the files that model them

    - Text of the configuration. [ConfSyntax] (conf/ast.go, conf/limits.go),
      [ConfLexer] (conf/lexer.go), [ConfParser] (conf/parser.go), [ConfEmit]
      (conf/emit.go), [ConfHelpers] (conf/helpers.go, conf/error.go). A Go
      function on the shared parser becomes a function on the parser record;
      an error is a diagnostic, without the English of its hint. That parsing
      undoes emission is in [ConfRoundtrip].
    - Configuration files over that text. [ConfLower] is the shared frame: a
      loop over the statements of a body, and what it means that it reads what
      an emitter wrote. [ScheduleConf] (schedule/conf.go), [JobConf]
      (workspace/job_conf.go, workspace/types.go), [KiveConf]
      (bucket/kive_conf_block.go and the settings it fills in), [WorkersConf]
      (workspace/workers_conf.go, workspace/disabled_conf.go, and the workers
      of workspace/workspace.go that come from them), [BucketConf]
      (bucket.conf, bucket.jobs.conf, vars.conf and observe.conf of bucket/),
      [HealthSpec] the health_check section of a job
      (workspace/health_check.go).
    - Data shared by all commands. [GoStrings] (the strings, runes and numbers
      of Go's library), [GoFloat] (its floating-point numbers, as far as they
      are read), [Utils] (utils/sets.go, utils/batch.go, hooks/batch.go,
      deploy/filters.go), [PathMatch] (utils/pathmatch), [Versions]
      (workspace/version.go, workspace/version_specifier.go, data/version.go),
      [Resources] (utils/units.go: quantities of memory and processor),
      [Calendar] (the dates of Go's time package) and [Schedule]
      (schedule/schedule.go).
    - Build. [Manifest] (workspace/manifest.go, workspace/demands.go and the
      validations of build/), [JobTree] (the files of a job and its templates:
      workspace/paths.go, workspace/templates.go, build/), [JobSign]
      (jobsign/signing.go: signatures of the files of a job), [Rows] (tables
      keyed by a column), [BuildWorkers] (build/build_workers.go), [BuildJobs]
      (build/build_jobs.go), [DeploySeq] (build/build_deployment_sequence.go,
      build/build_deployment_order.go), [Ports] (build/build_ports.go),
      [Placement] (build/build_allocations.go: which job is allocated to which
      worker; with the garbage collection of allocations in gc/ and the purge
      of deploy/job_kv.go), [BuildVars] (build/build_variables.go,
      build/build_allocation_variables.go: the variables that a build leaves
      in the key-value store), [BuildCerts] (build/build_certs.go: which
      certificates are kept and which are issued), [PromConfig]
      (promconfig/catalog.go with the checks of alerts.go and scrape.go: the
      catalog of Prometheus), [BuildStore] (the steps of build/execute.go on
      the store, composed).
    - Catalog. [Catalog] is the tables of workers, jobs and ports with the
      queries of data/; [AllocState] is the three tables of allocations that build
      plans and deploy promotes (data/hash_allocation.go, data/hash_read.go,
      data/file_manifest.go, data/allocation_version.go); [HashTree] the
      hashes of a staged tree and the plan made of them (utils/hash.go,
      deploy/hashes.go); [Kv] is the key-value
      store of secrets and variables with its persistence (kv/); [History]
      the deploys and promotions that were made (data/deploy_history.go);
      [SourceRevision] the revisions of the source and their collection
      (sourcerevision/, gc/history.go).
    - Deploy. [Rollout] (rollout/order.go, deploy/rollout.go: which
      allocations go, in which order, in which batches), [UpdatePolicy]
      (deploy/rollout_policy.go, workspace/restart_policy.go,
      deploy/dry_run.go: what is done to an allocation), [Deploy]
      (deploy/job_deploy.go, deploy/allocations.go, deploy/hashes.go: the
      rollout of one job over the tables), [Reconcile] (the allocations that
      were removed or disabled), [DeployRun] (deploy/execute.go: a whole run,
      from the selection of jobs to the generation of the bucket) and
      [Parallel] (deploy/parallel.go), whose goroutines are a transition
      system.
    - Operation. [JobControl] (jobcontrol/: start, stop and other targets of
      jobs that are deployed, with the goroutines of a batch in any order),
      [LogLine] (bucket/log_format.go and logs/: the lines of the run log, how
      they are read back, filtered and grouped).
    - Health. [HealthStatus] (data/health_status.go, data/worker_health.go:
      the recorded results and the colour of a job), [HealthErrors]
      (healthcheck/errors.go) and [HealthCheck] (healthcheck/: probes, hooks,
      retries), with [HealthFacts], and [HealthRecordFacts] for what is
      recorded and a concrete run.
    - Hooks. [RuntimeAPI] is the HTTP interface that a running hook calls
      (hooks/runtime_*.go), over the store of [Kv] and the semaphores of
      [Semaphore] (hooks/runtime_semaphore.go), a transition system.
    - Files. [Durable] (internal/durablefs/: files that survive an
      interruption; a routine is the sequence of its system calls, each of
      which works, fails or is the last one), [Snapshot]
      (snapshot/restore.go) and [SnapshotBackup] (snapshot/backup.go,
      snapshot/list.go) over it, with concrete runs in [SnapshotExamples].

    ** How they are composed

    [Deploy.deployJob] calls [Rollout.rolloutBatches] and
    [UpdatePolicy.resolveUpdateAction] on the tables of [AllocState]; the
    commands, hooks and health checks that it runs on a worker are operations
    of a world [W], arguments of the model. [JobControl.controlJob] shares the
    tables, [Rollout.ResolveOrder] and [Utils.RunHookInBatches] with it.
    [BuildJobs] calls [JobConf], [JobTree], [JobSign], [Resources] and
    [Ports]; [BuildStore] is the composition of [BuildVars], [BuildCerts] and
    [PromConfig] over the allocations of [Placement]; the purge of old
    versions and the save that follow it in build/execute.go are
    [Kv.PurgeStaleVersions] and [Kv.PersistToTransaction]. [JobConf] and [KiveConf] read what
    [ConfParser.Parse] returns, with [ScheduleConf], [Ports] and [Schedule]
    for their parts. Functions of packages outside of src/, and what a process
    asks of the system, are arguments: the Unicode tables ([Unicode]), the
    text of floating-point numbers ([FloatText]), the zone database
    ([Calendar]), the cipher of [Kv], the hashes and signatures of Go's
    crypto packages, the random order of [Rollout], YAML, JSON and the engine
    of text/template for [PromConfig].

    ** What is shown

    - Round trips: emitted files are parsed to what was emitted
      ([ConfRoundtrip.Parse_Emit], [JobConfFacts.ParseJobConf_EmitJobConf],
      [KiveConfFacts.load_EmitKiveConf]), versions, a persisted store, a
      signature that was written ([JobSign.Verify_Sign]), a line of the run
      log ([LogLineFacts.ParseLine_formatKVLine]).
    - Termination and bounds: parsing needs no more than its fuel and respects
      its limits; every rollout makes progress; ports are found if there are
      any; the loops over days of a schedule find the first opening.
    - The build's checks mean what they say: demands, rollback, backward
      compatibility; demanded jobs deploy before those that demand them; a
      signature fixes the files of its job ([JobSign.signature_fixes_files]).
    - Build: what the tables hold after the workers
      ([BuildWorkers.BuildWorkers_spec]) and the jobs
      ([BuildJobsFacts.BuildJobs_spec]) were built, which allocations exist
      and which are disabled ([PlacementFacts.BuildAllocations_placement]),
      what the store holds ([BuildVarsFacts.BuildVariables_spec], and after
      all steps of the build [BuildStore.buildStore_spec]); certificates that were built are kept by
      the next build ([BuildCertsFacts]).
    - Rollout: [DeployFacts.deployJob_correct] gives the state of the tables
      after success and after every kind of failure, a failing gate marking
      exactly the batch it failed for; [UpdatePolicy.promoteThenHealth_retry]
      what the next deploy does with that mark, under each policy; with them
      the convergence of promoted jobs and the agreement of the dry run with
      the run.
    - A whole deploy: [DeployRunFacts.execute_clean] says what a run without
      errors leaves, [DeployRunFacts.execute_generation] when the generation
      of the bucket moves on, [DeployRunFacts.execute_keeps_unselected] what a
      run over some jobs does not touch.
    - Job control: a run that forgets clears deployed state only of
      allocations that it selected and whose command succeeded, a job whole or
      not at all, and reports the jobs that kept theirs
      ([JobControlFacts.ExecuteRequest_forgets]).
    - Health: a check that passes has run every probe and hook
      ([HealthFacts.HealthCheck_sound]); what it records determines the colour
      of the job ([HealthRecordFacts.recorded_colour]).
    - Confinement: through the runtime API a hook reads and writes its own
      job's data only ([RuntimeAPIFacts.serve_writes_confined],
      [RuntimeAPIFacts.serve_reads_confined]), and its HTTP proxy speaks to
      its own worker ([RuntimeAPIFacts.serveHTTPProxy_confined]).
    - Concurrency: a semaphore's outstanding grants are its holders and never
      exceed its capacity, and no waiter is lost
      ([Semaphore.semaphore_invariant]); the parallel workers' results and
      their bounded number.
    - Interruption: a file that is replaced, and the output of a restore, are
      the old or the new ones whichever system call fails or is the last
      ([DurableFacts.Replace_atomic], [SnapshotFacts.Restore_atomic]).
    - History: the tables of deploys stay consistent
      ([History.history_stays_ok]); a collection keeps exactly the revisions
      that are pinned ([SourceRevision.gc_keeps_pinned]); a backup, whatever
      fails, never removes one of the newest backups
      ([SnapshotBackup.Backup_keeps]).

    ** Fuel

    Recursion that is not structural has a fuel whose sufficiency is proved.
    The parser: [parse_fuel] = 2 * length + 2 ([ConfParser.Parse_total]).
    The depth-first search: one more than the number of rows. The rounds of
    the deployment sequence: the number of jobs. Ports: the size of the range.
    Glob patterns: the lengths of pattern and name. The schedule: the days of
    a week (7), of a month (31), scanDays (400), and the 11,520 steps of the
    source's own bound on an opening. A batch of job control: twice its
    workers.

    ** Not modelled

    Processes, SSH, rsync and HTTP (worker/, snapshot/transfer.go, collect/,
    runcommand/, the network side of healthcheck/probes.go, the transfers of
    deploy/), the printing of reports and logs (cat/, cmd/), the authority's own
    keys and the certificates on workers (certs/), what a deploy makes of the
    catalog of Prometheus on workers and the dashboards (the other files of
    promconfig/), the generation of firewall rules (iptables/) and of worker
    scripts, the migration of old schemas, and the text of JSON. The
    file system is modelled where durability matters ([Durable]); elsewhere it
    is a map of files whose errors are left out. SQL is modelled by its
    meaning on lists of rows, not as text; a transaction that fails leaves the
    tables as they were. *)

From stdpp Require Export base list gmap strings sorting.
From Stdlib Require Export ZArith Lia.
From Stdlib Require Export Ascii.

(** ** Results

    A Go function with result [(T, error)] becomes a function into
    [result E T]; the error type is the component's own. *)

Inductive result (E A : Type) : Type :=
| Ok (a : A)
| Err (e : E).
Arguments Ok {E A} a.
Arguments Err {E A} e.

Definition rbind {E A B} (r : result E A) (k : A -> result E B) : result E B :=
  match r with
  | Ok a => k a
  | Err e => Err e
  end.

(** [for _, x := range l] with an error return. *)
Fixpoint foldR {E A B} (f : A -> B -> result E A) (a : A) (l : list B) : result E A :=
  match l with
  | [] => Ok a
  | x :: l => rbind (f a x) (fun a => foldR f a l)
  end.
Lemma foldR_app {E A B} (f : A -> B -> result E A) a l1 l2 : foldR f a (l1 ++ l2) = rbind (foldR f a l1) (fun a => foldR f a l2).
Proof. revert a. induction l1 as [|x l1 IH]; intros a; cbn; [done|]. destruct (f a x); cbn; [apply IH|done]. Qed.

Definition is_ok {E A} (r : result E A) : bool :=
  match r with Ok _ => true | Err _ => false end.

Declare Scope kive_scope.
Delimit Scope kive_scope with kive.
Notation "'let?' x ':=' m 'in' k" := (rbind m (fun x => k))
  (at level 10, x pattern, m at level 100, k at level 200) : kive_scope.
Open Scope kive_scope.

Lemma rbind_ok {E A B} (r : result E A) (k : A -> result E B) b :
  rbind r k = Ok b -> exists a, r = Ok a /\ k a = Ok b.
Proof. destruct r; simpl; [eauto | discriminate]. Qed.

(** ** 64-bit signed integers

    A Go [int] or [int64] is a [Z]; [wrap64] is the two's-complement wrap
    applied where the source's arithmetic can overflow. *)

Definition min_int64 : Z := -9223372036854775808.
Definition max_int64 : Z := 9223372036854775807.
Definition wrap64 (z : Z) : Z :=
  (z + 9223372036854775808) `mod` 18446744073709551616 - 9223372036854775808.
Definition in_int64 (z : Z) : bool := (min_int64 <=? z)%Z && (z <=? max_int64)%Z.

Lemma wrap64_id z : in_int64 z = true -> wrap64 z = z.
Proof.
  unfold in_int64, wrap64, min_int64, max_int64. intros H.
  apply andb_true_iff in H as [H1%Z.leb_le H2%Z.leb_le].
  rewrite Z.mod_small; lia.
Qed.

Lemma wrap64_range z : in_int64 (wrap64 z) = true.
Proof.
  unfold in_int64, wrap64, min_int64, max_int64.
  pose proof (Z.mod_pos_bound (z + 9223372036854775808) 18446744073709551616 eq_refl).
  apply andb_true_iff; split; apply Z.leb_le; lia.
Qed.

(** ** Membership tests

    Go's [map[string]struct{}] membership test and the [seen] sets are
    written with [mem], a boolean list or set membership. *)

Definition mem {A} `{EqDecision A} (x : A) (l : list A) : bool := bool_decide (x ∈ l).

Lemma mem_true {A} `{EqDecision A} (x : A) l : mem x l = true <-> x ∈ l.
Proof. apply bool_decide_eq_true. Qed.
Lemma mem_false {A} `{EqDecision A} (x : A) l : mem x l = false <-> x ∉ l.
Proof. apply bool_decide_eq_false. Qed.

(** ** Tactics *)

(** Case analysis on the innermost scrutinee of the goal, or of a hypothesis. *)
Ltac case_goal :=
  match goal with
  | |- context [match ?x with _ => _ end] => destruct x eqn:?
  end.
Ltac case_in H :=
  match type of H with
  | context [match ?x with _ => _ end] => destruct x eqn:?
  end.

(** Turns boolean hypotheses into propositions and closes linear goals. *)
Ltac bool_to_prop :=
  repeat match goal with
  | H : _ && _ = true |- _ => apply andb_true_iff in H; destruct H
  | H : _ && _ = false |- _ => apply andb_false_iff in H
  | H : _ || _ = true |- _ => apply orb_true_iff in H
  | H : _ || _ = false |- _ => apply orb_false_iff in H; destruct H
  | H : negb _ = true |- _ => apply negb_true_iff in H
  | H : negb _ = false |- _ => apply negb_false_iff in H
  | H : (_ <=? _)%Z = true |- _ => apply Z.leb_le in H
  | H : (_ <=? _)%Z = false |- _ => apply Z.leb_gt in H
  | H : (_ <? _)%Z = true |- _ => apply Z.ltb_lt in H
  | H : (_ <? _)%Z = false |- _ => apply Z.ltb_ge in H
  | H : (_ =? _)%Z = true |- _ => apply Z.eqb_eq in H
  | H : (_ =? _)%Z = false |- _ => apply Z.eqb_neq in H
  | H : (_ <=? _)%nat = true |- _ => apply Nat.leb_le in H
  | H : (_ <=? _)%nat = false |- _ => apply Nat.leb_gt in H
  | H : (_ <? _)%nat = true |- _ => apply Nat.ltb_lt in H
  | H : (_ <? _)%nat = false |- _ => apply Nat.ltb_ge in H
  | H : (_ =? _)%nat = true |- _ => apply Nat.eqb_eq in H
  | H : (_ =? _)%nat = false |- _ => apply Nat.eqb_neq in H
  | H : bool_decide _ = true |- _ => apply bool_decide_eq_true in H
  | H : bool_decide _ = false |- _ => apply bool_decide_eq_false in H
  | H : mem _ _ = true |- _ => apply mem_true in H
  | H : mem _ _ = false |- _ => apply mem_false in H
  end.
Ltac blia := bool_to_prop; lia.

#[global] Arguments String.append !_ _ : simpl nomatch.

Create HintDb kive.
Create Rewrite HintDb kive.
