(* ===== verification/GoStrings.v ===== *)
(** * Go's strings, runes and decimal numbers

    The part of [strings], [unicode/utf8], [unicode] and [strconv] that the
    modelled code uses, over byte strings. *)

From S2P Require Import Prelude.
Open Scope Z_scope.

(** ** Bytes *)

Definition byte_val (c : ascii) : Z := Z.of_N (N_of_ascii c).
Definition byte_of (z : Z) : ascii := ascii_of_N (Z.to_N z).

Lemma byte_val_range c : 0 <= byte_val c < 256.
Proof.
  unfold byte_val. pose proof (N_ascii_bounded c). lia.
Qed.
Lemma byte_of_val c : byte_of (byte_val c) = c.
Proof. unfold byte_of, byte_val. rewrite N2Z.id. apply ascii_N_embedding. Qed.
Lemma byte_val_of z : 0 <= z < 256 -> byte_val (byte_of z) = z.
Proof.
  intros H. unfold byte_of, byte_val.
  rewrite N_ascii_embedding; lia.
Qed.

(** ** Strings *)

Lemma sapp_nil_r s : s +:+ "" = s.
Proof. induction s; simpl; congruence. Qed.
Lemma sapp_assoc s t u : (s +:+ t) +:+ u = s +:+ (t +:+ u).
Proof. induction s; simpl; congruence. Qed.
Lemma sapp_cancel_l s t u : s +:+ t = s +:+ u -> t = u.
Proof. induction s as [|c s IH]; cbn; [done|]. intros [= E]. by apply IH. Qed.
Lemma slen_app s t : String.length (s +:+ t) = (String.length s + String.length t)%nat.
Proof. induction s; simpl; congruence. Qed.

(** [s[n:]] for [n <= len(s)]. *)
Fixpoint sdrop (n : nat) (s : string) : string :=
  match n, s with
  | O, _ => s
  | S n, String _ s => sdrop n s
  | S _, "" => ""
  end.

(** [strings.HasPrefix(s, p)] and [strings.TrimPrefix(s, p)]. *)
Fixpoint HasPrefix (s p : string) {struct p} : bool :=
  match p, s with
  | "", _ => true
  | String a p, String b s => bool_decide (a = b) && HasPrefix s p
  | String _ _, "" => false
  end.
Definition TrimPrefix (s p : string) : string :=
  if HasPrefix s p then sdrop (String.length p) s else s.

(** [s[:n]]. *)
Fixpoint stake (n : nat) (s : string) : string :=
  match n, s with
  | S n, String c s => String c (stake n s)
  | _, _ => ""
  end.

(** [strings.HasSuffix(s, p)] and [strings.TrimSuffix(s, p)]. *)
Definition HasSuffix (s p : string) : bool :=
  (String.length p <=? String.length s)%nat
  && bool_decide (sdrop (String.length s - String.length p) s = p).
Definition TrimSuffix (s p : string) : string :=
  if HasSuffix s p then stake (String.length s - String.length p) s else s.

(** [s != ""]. *)
Definition nonempty_string (s : string) : bool := negb (bool_decide (s = "")).

(** [strings.Contains(s, p)]. *)
Fixpoint Contains (s p : string) : bool :=
  HasPrefix s p || match s with "" => false | String _ s => Contains s p end.

(** [strings.Join(l, sep)]. *)
Fixpoint Join (l : list string) (sep : string) : string :=
  match l with
  | [] => ""
  | [x] => x
  | x :: l => x +:+ sep +:+ Join l sep
  end.

(** [strings.Split(s, sep)] for a separator of one byte. *)
Fixpoint Split (s : string) (sep : ascii) : list string :=
  match s with
  | "" => [""]
  | String c s =>
      if bool_decide (c = sep) then "" :: Split s sep
      else match Split s sep with
           | [] => [String c ""]
           | x :: l => String c x :: l
           end
  end.

(** [strings.Repeat(s, n)]. *)
Fixpoint Repeat (s : string) (n : nat) : string :=
  match n with O => "" | S n => s +:+ Repeat s n end.

Lemma HasPrefix_app p s : HasPrefix (p +:+ s) p = true.
Proof. induction p; simpl; [done|]. by rewrite bool_decide_eq_true_2. Qed.
Lemma sdrop_app p s : sdrop (String.length p) (p +:+ s) = s.
Proof. induction p; simpl; auto. Qed.
Lemma TrimPrefix_app p s : TrimPrefix (p +:+ s) p = s.
Proof. unfold TrimPrefix. by rewrite HasPrefix_app, sdrop_app. Qed.
Lemma HasPrefix_inv s p : HasPrefix s p = true -> s = p +:+ sdrop (String.length p) s.
Proof.
  revert s. induction p as [|a p IH]; intros [|b s]; simpl; try done.
  intros H. bool_to_prop. subst. f_equal. by apply IH.
Qed.
Lemma slen_drop n s : String.length (sdrop n s) = (String.length s - n)%nat.
Proof. revert s; induction n; intros [|c s]; simpl; auto. Qed.

(** Splitting never loses text: joining on the separator gives it back. *)
Lemma Split_nonempty s sep : Split s sep <> [].
Proof. induction s; simpl; [done|]. case_bool_decide; [done|]. by destruct (Split s sep). Qed.
Lemma Join_Split s sep : Join (Split s sep) (String sep "") = s.
Proof.
  induction s as [|c s IH]; simpl; [done|].
  pose proof (Split_nonempty s sep). case_bool_decide; simplify_eq.
  - destruct (Split s sep) eqn:E; [done|]. simpl. f_equal. exact IH.
  - destruct (Split s sep) as [|x [|y l]] eqn:E; [done| |]; simpl in *; congruence.
Qed.

(** No byte of [s] is [c]. *)
Fixpoint no_byte (c : ascii) (s : string) : bool :=
  match s with "" => true | String d s => negb (bool_decide (d = c)) && no_byte c s end.
Lemma no_byte_app c s t : no_byte c (s +:+ t) = no_byte c s && no_byte c t.
Proof. induction s; simpl; [done|]. by rewrite IHs, andb_assoc. Qed.
Lemma Split_no_byte s sep : no_byte sep s = true -> Split s sep = [s].
Proof.
  induction s as [|c s IH]; simpl; [done|]. intros H. bool_to_prop.
  rewrite bool_decide_eq_false_2 by done. by rewrite IH.
Qed.
Lemma Split_app_sep s t sep :
  no_byte sep s = true -> Split (s +:+ String sep t) sep = s :: Split t sep.
Proof.
  induction s as [|c s IH]; simpl.
  - intros _. by rewrite bool_decide_eq_true_2.
  - intros H. bool_to_prop. rewrite bool_decide_eq_false_2 by done. by rewrite IH.
Qed.
Lemma Split_elem_no_byte s sep x : x ∈ Split s sep -> no_byte sep x = true.
Proof.
  revert x. induction s as [|c s IH]; simpl; intros x.
  - intros ->%list_elem_of_singleton. done.
  - case_bool_decide.
    + intros [->|Hx]%elem_of_cons; [done | auto].
    + destruct (Split s sep) as [|y l] eqn:E.
      * intros ->%list_elem_of_singleton. simpl. by rewrite bool_decide_eq_false_2.
      * intros [->|Hx]%elem_of_cons.
        -- simpl. rewrite bool_decide_eq_false_2 by done. simpl. apply IH. left.
        -- apply IH. by right.
Qed.
Lemma Split_Join l sep :
  l <> [] -> Forall (fun x => no_byte sep x = true) l -> Split (Join l (String sep "")) sep = l.
Proof.
  induction l as [|x l IH]; [done|]. intros _ HF. inversion_clear HF as [|? ? Hx Hl].
  destruct l as [|y l]; simpl.
  - by apply Split_no_byte.
  - rewrite Split_app_sep by done. f_equal. by apply IH.
Qed.

(** ** UTF-8 *)

Abbreviation rune := Z (only parsing).
Definition RuneError : rune := 65533.

Definition in_range (lo hi z : Z) : bool := (lo <=? z) && (z <=? hi).
Definition cont_byte (c : ascii) : bool := in_range 128 191 (byte_val c).

(** [utf8.DecodeRuneInString(s)]: the first rune and its width in bytes; an
    ill-formed sequence gives [(RuneError, 1)] and the empty string [(RuneError, 0)]. *)
Definition DecodeRune (s : string) : rune * nat :=
  match s with
  | "" => (RuneError, 0%nat)
  | String c0 s1 =>
      let b0 := byte_val c0 in
      if b0 <? 128 then (b0, 1%nat)
      else if in_range 194 223 b0 then
        match s1 with
        | String c1 _ =>
            if cont_byte c1 then ((b0 - 192) * 64 + (byte_val c1 - 128), 2%nat) else (RuneError, 1%nat)
        | _ => (RuneError, 1%nat)
        end
      else if in_range 224 239 b0 then
        match s1 with
        | String c1 (String c2 _) =>
            let lo := if b0 =? 224 then 160 else 128 in
            let hi := if b0 =? 237 then 159 else 191 in
            if in_range lo hi (byte_val c1) && cont_byte c2
            then ((b0 - 224) * 4096 + (byte_val c1 - 128) * 64 + (byte_val c2 - 128), 3%nat)
            else (RuneError, 1%nat)
        | _ => (RuneError, 1%nat)
        end
      else if in_range 240 244 b0 then
        match s1 with
        | String c1 (String c2 (String c3 _)) =>
            let lo := if b0 =? 240 then 144 else 128 in
            let hi := if b0 =? 244 then 143 else 191 in
            if in_range lo hi (byte_val c1) && cont_byte c2 && cont_byte c3
            then ((b0 - 240) * 262144 + (byte_val c1 - 128) * 4096
                  + (byte_val c2 - 128) * 64 + (byte_val c3 - 128), 4%nat)
            else (RuneError, 1%nat)
        | _ => (RuneError, 1%nat)
        end
      else (RuneError, 1%nat)
  end.

(** A Unicode scalar value. *)
Definition ValidRune (r : rune) : bool :=
  in_range 0 55295 r || in_range 57344 1114111 r.

(** [strings.Builder.WriteRune(r)] appends this encoding. *)
Definition EncodeRune (r : rune) : string :=
  let r := if ValidRune r then r else RuneError in
  if r <? 128 then String (byte_of r) ""
  else if r <? 2048 then
    String (byte_of (192 + r / 64)) (String (byte_of (128 + r mod 64)) "")
  else if r <? 65536 then
    String (byte_of (224 + r / 4096))
      (String (byte_of (128 + (r / 64) mod 64)) (String (byte_of (128 + r mod 64)) ""))
  else
    String (byte_of (240 + r / 262144))
      (String (byte_of (128 + (r / 4096) mod 64))
        (String (byte_of (128 + (r / 64) mod 64)) (String (byte_of (128 + r mod 64)) ""))).

(** [utf8.RuneLen(r)]. *)
Definition RuneLen (r : rune) : Z :=
  if r <? 0 then -1
  else if r <? 128 then 1
  else if r <? 2048 then 2
  else if in_range 55296 57343 r then -1
  else if r <? 65536 then 3
  else if r <=? 1114111 then 4
  else -1.

(** The runes of a string with their source bytes, as a [for range] loop and
    repeated [DecodeRuneInString(s[i:])] calls see them. *)
Fixpoint chunks_fuel (n : nat) (s : string) : list (rune * string) :=
  match n with
  | O => []
  | S n =>
      match s with
      | "" => []
      | _ => let '(r, w) := DecodeRune s in (r, stake w s) :: chunks_fuel n (sdrop w s)
      end
  end.
Definition chunks (s : string) : list (rune * string) := chunks_fuel (String.length s) s.
Definition runes (s : string) : list rune := (chunks s).*1.
Definition string_of_runes (rs : list rune) : string := foldr (fun r s => EncodeRune r +:+ s) "" rs.

Lemma DecodeRune_width s : s <> "" -> (1 <= snd (DecodeRune s))%nat.
Proof. destruct s as [|c s]; [done|]. intros _. unfold DecodeRune. repeat case_goal; simpl; lia. Qed.

Lemma chunks_fuel_enough n m s :
  (String.length s <= n)%nat -> (String.length s <= m)%nat -> chunks_fuel n s = chunks_fuel m s.
Proof.
  revert m s. induction n as [|n IH]; intros m s Hn Hm.
  - destruct s; [|simpl in Hn; lia]. by destruct m.
  - destruct m as [|m]; [destruct s; [done | simpl in Hm; lia]|].
    simpl. destruct s as [|c s]; [done|].
    pose proof (DecodeRune_width (String c s) ltac:(done)) as Hw.
    destruct (DecodeRune (String c s)) as [r w]. simpl in Hw. f_equal.
    apply IH; rewrite slen_drop; simpl in *; lia.
Qed.

Lemma chunks_cons s :
  s <> "" ->
  chunks s = (fst (DecodeRune s), stake (snd (DecodeRune s)) s) :: chunks (sdrop (snd (DecodeRune s)) s).
Proof.
  intros Hs. unfold chunks at 1.
  destruct s as [|c s]; [done|]. cbn [String.length chunks_fuel].
  pose proof (DecodeRune_width (String c s) ltac:(done)) as Hw.
  destruct (DecodeRune (String c s)) as [r w]. simpl fst in *. simpl snd in *. f_equal.
  apply chunks_fuel_enough; rewrite slen_drop; simpl; lia.
Qed.

Lemma runes_cons s :
  s <> "" -> runes s = fst (DecodeRune s) :: runes (sdrop (snd (DecodeRune s)) s).
Proof. intros Hs. unfold runes. by rewrite chunks_cons. Qed.

(** Decoding an encoded scalar value gives it back, whatever follows. *)
Lemma Decode_Encode r s :
  ValidRune r = true ->
  DecodeRune (EncodeRune r +:+ s) = (r, String.length (EncodeRune r)).
Proof.
  intros Hv. unfold EncodeRune. rewrite Hv. unfold ValidRune, in_range in Hv.
  assert (0 <= r <= 1114111 /\ ~ (55295 < r < 57344)) as [Hr Hs].
  { apply orb_true_iff in Hv as [?|?]; bool_to_prop; lia. }
  clear Hv.
  assert (forall a, 0 <= (r / a) mod 64 < 64) as Hm by (intros; apply Z.mod_pos_bound; lia).
  assert (0 <= r mod 64 < 64) as Hm0 by (apply Z.mod_pos_bound; lia).
  pose proof (Z.div_mod r 64 ltac:(discriminate)) as E0.
  assert (r / 64 = 64 * (r / 4096) + (r / 64) mod 64) as E1.
  { change 4096 with (64 * 64). rewrite <- Z.div_div by lia. apply Z.div_mod. lia. }
  assert (r / 4096 = 64 * (r / 262144) + (r / 4096) mod 64) as E2.
  { change 262144 with (4096 * 64). rewrite <- Z.div_div by lia. apply Z.div_mod. lia. }
  pose proof (Hm 64). pose proof (Hm 4096).
  assert (forall c, in_range 128 191 (128 + c) = true <-> 0 <= c < 64) as Hc.
  { intros c. unfold in_range. rewrite andb_true_iff, !Z.leb_le. lia. }
  destruct (r <? 128) eqn:L1; [|destruct (r <? 2048) eqn:L2; [|destruct (r <? 65536) eqn:L3]];
    bool_to_prop; cbn [String.append DecodeRune String.length]; unfold cont_byte;
    rewrite ?byte_val_of by lia.
  - replace (r <? 128) with true by (symmetry; apply Z.ltb_lt; lia). done.
  - replace (192 + r / 64 <? 128) with false by (symmetry; apply Z.ltb_ge; lia).
    replace (in_range 194 223 (192 + r / 64)) with true
      by (symmetry; unfold in_range; rewrite andb_true_iff, !Z.leb_le; lia).
    rewrite (proj2 (Hc _)) by lia. f_equal. lia.
  - replace (224 + r / 4096 <? 128) with false by (symmetry; apply Z.ltb_ge; lia).
    replace (in_range 194 223 (224 + r / 4096)) with false
      by (symmetry; unfold in_range; rewrite andb_false_iff, !Z.leb_gt; lia).
    replace (in_range 224 239 (224 + r / 4096)) with true
      by (symmetry; unfold in_range; rewrite andb_true_iff, !Z.leb_le; lia).
    rewrite (proj2 (Hc (r mod 64))) by lia. rewrite andb_true_r.
    match goal with |- (if ?b then _ else _) = _ => replace b with true end; [f_equal; lia|].
    symmetry. unfold in_range. rewrite andb_true_iff, !Z.leb_le.
    destruct (224 + r / 4096 =? 224) eqn:?, (224 + r / 4096 =? 237) eqn:?; bool_to_prop; lia.
  - replace (240 + r / 262144 <? 128) with false by (symmetry; apply Z.ltb_ge; lia).
    replace (in_range 194 223 (240 + r / 262144)) with false
      by (symmetry; unfold in_range; rewrite andb_false_iff, !Z.leb_gt; lia).
    replace (in_range 224 239 (240 + r / 262144)) with false
      by (symmetry; unfold in_range; rewrite andb_false_iff, !Z.leb_gt; lia).
    replace (in_range 240 244 (240 + r / 262144)) with true
      by (symmetry; unfold in_range; rewrite andb_true_iff, !Z.leb_le; lia).
    rewrite (proj2 (Hc (r mod 64))), (proj2 (Hc ((r / 64) mod 64))) by lia. rewrite !andb_true_r.
    match goal with |- (if ?b then _ else _) = _ => replace b with true end; [f_equal; lia|].
    symmetry. unfold in_range. rewrite andb_true_iff, !Z.leb_le.
    destruct (240 + r / 262144 =? 240) eqn:?, (240 + r / 262144 =? 244) eqn:?; bool_to_prop; lia.
Qed.

Lemma sdrop_cat s t : sdrop (String.length s) (s +:+ t) = t.
Proof. apply sdrop_app. Qed.
Lemma stake_cat s t : stake (String.length s) (s +:+ t) = s.
Proof. induction s; simpl; [by destruct t | congruence]. Qed.
Lemma EncodeRune_nonempty r : EncodeRune r <> "".
Proof. unfold EncodeRune. repeat case_goal; done. Qed.
Lemma sapp_nonempty s t : s <> "" -> s +:+ t <> "".
Proof. by destruct s. Qed.

Lemma chunks_Encode r s :
  ValidRune r = true -> chunks (EncodeRune r +:+ s) = (r, EncodeRune r) :: chunks s.
Proof.
  intros Hv. rewrite chunks_cons by apply sapp_nonempty, EncodeRune_nonempty.
  rewrite Decode_Encode by done. cbn [fst snd]. by rewrite stake_cat, sdrop_cat.
Qed.
Lemma runes_Encode r s : ValidRune r = true -> runes (EncodeRune r +:+ s) = r :: runes s.
Proof. intros. unfold runes. by rewrite chunks_Encode. Qed.

(** A string is well-formed text when it is the encoding of scalar values. *)
Definition valid_runes (rs : list rune) : bool := forallb ValidRune rs.

Lemma runes_string_of_runes rs s :
  valid_runes rs = true -> runes (string_of_runes rs +:+ s) = (rs ++ runes s)%list.
Proof.
  induction rs as [|r rs IH]; simpl; [done|]. intros H. bool_to_prop.
  rewrite sapp_assoc, runes_Encode by done. by rewrite IH.
Qed.

Lemma RuneLen_Encode r : ValidRune r = true -> RuneLen r = Z.of_nat (String.length (EncodeRune r)).
Proof.
  intros H. unfold RuneLen, EncodeRune. rewrite H. unfold ValidRune, in_range in *.
  apply orb_true_iff in H as [H|H]; repeat case_match; simpl; try done; blia.
Qed.

(** One ASCII byte is one rune. *)
Lemma EncodeRune_ascii c : byte_val c < 128 -> EncodeRune (byte_val c) = String c "".
Proof.
  intros H. pose proof (byte_val_range c). unfold EncodeRune, ValidRune, in_range.
  replace (byte_val c <=? 55295) with true by (symmetry; apply Z.leb_le; lia).
  replace (0 <=? byte_val c) with true by (symmetry; apply Z.leb_le; lia). simpl.
  replace (byte_val c <? 128) with true by (symmetry; apply Z.ltb_lt; lia).
  by rewrite byte_of_val.
Qed.
Lemma ValidRune_ascii z : 0 <= z < 128 -> ValidRune z = true.
Proof.
  intros H. unfold ValidRune, in_range. apply orb_true_iff. left.
  rewrite andb_true_iff, !Z.leb_le. lia.
Qed.
Lemma chunks_ascii c s :
  byte_val c < 128 -> chunks (String c s) = (byte_val c, String c "") :: chunks s.
Proof.
  intros H. pose proof (byte_val_range c).
  pose proof (chunks_Encode (byte_val c) s ltac:(apply ValidRune_ascii; lia)) as E.
  by rewrite EncodeRune_ascii in E.
Qed.
Lemma runes_ascii c s : byte_val c < 128 -> runes (String c s) = byte_val c :: runes s.
Proof. intros. unfold runes. by rewrite chunks_ascii. Qed.

Fixpoint ascii_only (s : string) : bool :=
  match s with "" => true | String c s => (byte_val c <? 128) && ascii_only s end.
Fixpoint bytes (s : string) : list Z :=
  match s with "" => [] | String c s => byte_val c :: bytes s end.

Lemma runes_ascii_app s t : ascii_only s = true -> runes (s +:+ t) = (bytes s ++ runes t)%list.
Proof.
  induction s as [|c s IH]; simpl; [done|]. intros H. bool_to_prop.
  rewrite runes_ascii by done. by rewrite IH.
Qed.
Lemma runes_ascii_only s : ascii_only s = true -> runes s = bytes s.
Proof. intros H. pose proof (runes_ascii_app s "" H) as E. by rewrite sapp_nil_r, app_nil_r in E. Qed.
Lemma ascii_only_app s t : ascii_only (s +:+ t) = ascii_only s && ascii_only t.
Proof. induction s; simpl; [done|]. by rewrite IHs, andb_assoc. Qed.
Lemma string_of_bytes s : ascii_only s = true -> string_of_runes (bytes s) = s.
Proof.
  induction s as [|c s IH]; simpl; [done|]. intros H. bool_to_prop.
  rewrite EncodeRune_ascii by done. simpl. by rewrite IH.
Qed.
Lemma ascii_valid s : ascii_only s = true -> valid_runes (bytes s) = true.
Proof.
  induction s as [|c s IH]; simpl; [done|]. intros H. bool_to_prop. apply andb_true_iff. split.
  - apply ValidRune_ascii. pose proof (byte_val_range c). lia.
  - by apply IH.
Qed.

(** ** Character classes

    The tables of package [unicode] above ASCII are parameters; the ASCII part
    of each class is written out. *)

Class Unicode := {
  u_letter : rune -> bool;   (** [unicode.IsLetter], runes above 127 *)
  u_digit : rune -> bool;    (** [unicode.IsDigit], runes above 127 *)
  u_lower : rune -> rune;    (** [unicode.ToLower], runes above 127 *)
  u_fold : rune -> rune;     (** least rune of the [SimpleFold] orbit, lower-cased, above 127 *)
}.

Definition is_upper_ascii (r : rune) : bool := in_range 65 90 r.
Definition is_lower_ascii (r : rune) : bool := in_range 97 122 r.
Definition is_digit_ascii (r : rune) : bool := in_range 48 57 r.

(** [unicode.IsSpace], the full table. *)
Definition IsSpace (r : rune) : bool :=
  in_range 9 13 r || (r =? 32) || (r =? 133) || (r =? 160) || (r =? 5760)
  || in_range 8192 8202 r || (r =? 8232) || (r =? 8233) || (r =? 8239) || (r =? 8287) || (r =? 12288).

Section classes.
Context `{U : Unicode}.
Definition IsLetter (r : rune) : bool :=
  if r <? 128 then is_upper_ascii r || is_lower_ascii r else u_letter r.
Definition IsDigit (r : rune) : bool :=
  if r <? 128 then is_digit_ascii r else u_digit r.
Definition ToLowerRune (r : rune) : rune :=
  if r <? 128 then (if is_upper_ascii r then r + 32 else r) else u_lower r.
Definition FoldRune (r : rune) : rune :=
  if r <? 128 then (if is_upper_ascii r then r + 32 else r) else u_fold r.
(** [strings.ToLower]. *)
Definition ToLower (s : string) : string := string_of_runes (map ToLowerRune (runes s)).
(** [strings.EqualFold]. *)
Definition EqualFold (s t : string) : bool :=
  bool_decide (map FoldRune (runes s) = map FoldRune (runes t)).
End classes.

(** The tables restricted to ASCII: no letter, digit or case above 127. *)
Definition ascii_unicode : Unicode :=
  {| u_letter _ := false; u_digit _ := false; u_lower r := r; u_fold r := r |}.

(** [strings.TrimSpace]. *)
Fixpoint drop_spaces (l : list (rune * string)) : list (rune * string) :=
  match l with
  | (r, b) :: l' => if IsSpace r then drop_spaces l' else l
  | [] => []
  end.
Definition TrimSpace (s : string) : string :=
  foldr (fun p acc => snd p +:+ acc) "" (rev (drop_spaces (rev (drop_spaces (chunks s))))).

(** ** Decimal numbers *)

Definition digit_char (d : Z) : ascii := byte_of (48 + d).
(** [strconv.Atoi(s)] and [strconv.ParseInt(s, 10, 64)]: [None] is the error. *)
Fixpoint digits_value (acc : Z) (s : string) : option Z :=
  match s with
  | "" => Some acc
  | String c s =>
      if is_digit_ascii (byte_val c) then digits_value (acc * 10 + (byte_val c - 48)) s else None
  end.
Definition Atoi (s : string) : option Z :=
  let '(neg, ds) :=
    match s with
    | String "-" s => (true, s)
    | String "+" s => (false, s)
    | _ => (false, s)
    end%char in
  match ds with
  | "" => None
  | _ =>
      match digits_value 0 ds with
      | Some v => let v := if neg : bool then - v else v in if in_int64 v then Some v else None
      | None => None
      end
  end.

(** [strconv.Itoa(n)]; the fuel is the number of binary digits, which is more
    than the number of decimal ones. *)
Fixpoint itoa_fuel (n : nat) (z : Z) (acc : string) : string :=
  match n with
  | O => acc
  | S n =>
      let acc := String (digit_char (z mod 10)) acc in
      if z <? 10 then acc else itoa_fuel n (z / 10) acc
  end.
Definition itoa_pos (z : Z) : string := itoa_fuel (S (Z.to_nat (Z.log2 z))) z "".
Definition Itoa (z : Z) : string :=
  if z <? 0 then String "-"%char (itoa_pos (- z)) else itoa_pos z.

Lemma digit_char_val d : 0 <= d < 10 -> byte_val (digit_char d) = 48 + d.
Proof. intros. unfold digit_char. apply byte_val_of. lia. Qed.

Fixpoint all_digits (s : string) : bool :=
  match s with "" => true | String c s => is_digit_ascii (byte_val c) && all_digits s end.

Lemma digit_char_ascii d : 0 <= d < 10 -> is_digit_ascii (byte_val (digit_char d)) = true.
Proof.
  intros. rewrite digit_char_val by done. unfold is_digit_ascii, in_range.
  rewrite andb_true_iff, !Z.leb_le. lia.
Qed.

Lemma digits_value_itoa n z acc a :
  0 <= z < 2 ^ Z.of_nat n ->
  exists k, digits_value a (itoa_fuel n z acc) = digits_value (a * 10 ^ Z.of_nat k + z) acc.
Proof.
  revert z acc. induction n as [|n IH]; intros z acc Hz.
  - exists 0%nat. simpl in *. f_equal. lia.
  - cbn [itoa_fuel]. pose proof (Z.mod_pos_bound z 10 eq_refl) as Hm.
    destruct (z <? 10) eqn:E; bool_to_prop.
    + exists 1%nat. cbn [digits_value]. rewrite digit_char_ascii, digit_char_val by lia.
      rewrite Z.mod_small by lia. f_equal. lia.
    + destruct (IH (z / 10) (String (digit_char (z mod 10)) acc)) as [k ->].
      { split; [apply Z.div_pos; lia|]. apply Z.div_lt_upper_bound; [lia|].
        rewrite Nat2Z.inj_succ, Z.pow_succ_r in Hz by lia. lia. }
      exists (S k). cbn [digits_value]. rewrite digit_char_ascii, digit_char_val by lia.
      f_equal. rewrite Nat2Z.inj_succ, Z.pow_succ_r by lia.
      pose proof (Z.div_mod z 10 ltac:(lia)). lia.
Qed.

Lemma log2_fuel z : 0 <= z -> 0 <= z < 2 ^ Z.of_nat (S (Z.to_nat (Z.log2 z))).
Proof.
  intros H. split; [done|]. pose proof (Z.log2_nonneg z).
  rewrite Nat2Z.inj_succ, Z2Nat.id by done.
  destruct (Z.eq_dec z 0) as [->|]; [done|]. apply Z.log2_spec. lia.
Qed.

Lemma digits_value_itoa_pos z : 0 <= z -> digits_value 0 (itoa_pos z) = Some z.
Proof.
  intros H. unfold itoa_pos.
  destruct (digits_value_itoa _ z "" 0 (log2_fuel z H)) as [k ->]. simpl. f_equal; lia.
Qed.

Lemma itoa_fuel_digits n z acc :
  0 <= z -> all_digits acc = true -> all_digits (itoa_fuel n z acc) = true.
Proof.
  revert z acc. induction n as [|n IH]; intros z acc Hz Ha; cbn [itoa_fuel]; [done|].
  pose proof (Z.mod_pos_bound z 10 eq_refl).
  destruct (z <? 10); [|apply IH; [apply Z.div_pos; lia|]];
    cbn [all_digits]; by rewrite digit_char_ascii.
Qed.
Lemma itoa_fuel_nonempty n z acc : (acc <> "" \/ n <> 0%nat) -> itoa_fuel n z acc <> "".
Proof.
  revert z acc. induction n as [|n IH]; intros z acc [Ha|Hn]; cbn [itoa_fuel]; try done.
  - destruct (z <? 10); [done|]. apply IH. by left.
  - destruct (z <? 10); [done|]. apply IH. by left.
Qed.
Lemma itoa_pos_digits z : 0 <= z -> all_digits (itoa_pos z) = true.
Proof. intros. by apply itoa_fuel_digits. Qed.
Lemma itoa_pos_nonempty z : itoa_pos z <> "".
Proof. apply itoa_fuel_nonempty. by right. Qed.

(** A digit string does not start with a sign. *)
Lemma Atoi_digits s :
  s <> "" -> all_digits s = true ->
  Atoi s = match digits_value 0 s with Some v => if in_int64 v then Some v else None | None => None end.
Proof.
  destruct s as [|c s]; [done|]. intros _ H. unfold Atoi.
  destruct (bool_decide (c = "-"%char)) eqn:E1; [bool_to_prop; subst; done|].
  destruct (bool_decide (c = "+"%char)) eqn:E2; [bool_to_prop; subst; done|].
  bool_to_prop. destruct c as [[] [] [] [] [] [] [] []]; try done.
Qed.

Lemma Atoi_Itoa z : in_int64 z = true -> Atoi (Itoa z) = Some z.
Proof.
  intros H. unfold Itoa. destruct (z <? 0) eqn:E; bool_to_prop.
  - unfold Atoi. destruct (itoa_pos (- z)) eqn:Ei; [by destruct (itoa_pos_nonempty (- z))|].
    rewrite <- Ei, digits_value_itoa_pos by lia. rewrite Z.opp_involutive. by rewrite H.
  - rewrite Atoi_digits by (apply itoa_pos_nonempty || (apply itoa_pos_digits; lia)).
    rewrite digits_value_itoa_pos by lia. by rewrite H.
Qed.

Lemma all_digits_ascii s : all_digits s = true -> ascii_only s = true.
Proof.
  induction s as [|c s IH]; cbn [all_digits ascii_only]; [done|]. intros H. bool_to_prop.
  rewrite IH by done. unfold is_digit_ascii, in_range in *. bool_to_prop.
  rewrite andb_true_r. apply Z.ltb_lt. lia.
Qed.
Lemma Itoa_ascii z : ascii_only (Itoa z) = true.
Proof.
  unfold Itoa. destruct (z <? 0) eqn:E; bool_to_prop.
  - cbn [ascii_only]. apply all_digits_ascii, itoa_pos_digits. lia.
  - apply all_digits_ascii, itoa_pos_digits. lia.
Qed.

(** ** Trimming *)

Lemma chunks_concat s : foldr (fun p acc => snd p +:+ acc) "" (chunks s) = s.
Proof.
  unfold chunks. remember (String.length s) as n eqn:Hn.
  assert (String.length s <= n)%nat as Hle by lia. clear Hn. revert s Hle.
  induction n as [|n IH]; intros s Hle; [by destruct s; [|simpl in Hle; lia]|].
  cbn [chunks_fuel]. destruct s as [|c s]; [done|].
  pose proof (DecodeRune_width (String c s) ltac:(done)) as Hw.
  destruct (DecodeRune (String c s)) as [r w]. cbn [foldr snd] in *. rewrite IH.
  - clear. generalize (String c s). induction w; intros [|d t]; simpl; try done. by rewrite IHw.
  - rewrite slen_drop. simpl in *. lia.
Qed.

(** First and last runes are not spaces. *)
Definition trimmed (s : string) : bool :=
  match runes s with
  | [] => true
  | r :: _ => negb (IsSpace r) && match rev (runes s) with r :: _ => negb (IsSpace r) | [] => true end
  end.

Lemma drop_spaces_head l :
  match l.*1 with r :: _ => IsSpace r = false | [] => True end -> drop_spaces l = l.
Proof. destruct l as [|[r b] l]; simpl; [done|]. by intros ->. Qed.

Lemma TrimSpace_trimmed s : trimmed s = true -> TrimSpace s = s.
Proof.
  intros H. unfold TrimSpace, trimmed, runes in *.
  assert (drop_spaces (chunks s) = chunks s) as ->.
  { apply drop_spaces_head. destruct (chunks s).*1; [done|]. by bool_to_prop. }
  assert (drop_spaces (rev (chunks s)) = rev (chunks s)) as ->.
  { apply drop_spaces_head.
    replace ((rev (chunks s)).*1) with (rev (chunks s).*1) by (symmetry; apply map_rev).
    destruct (chunks s).*1 eqn:E; [done|]. bool_to_prop.
    by destruct (rev (z :: l)); bool_to_prop. }
  rewrite rev_involutive. apply chunks_concat.
Qed.
Lemma trimmed_all s : (forall r, r ∈ runes s -> IsSpace r = false) -> trimmed s = true.
Proof.
  intros H. unfold trimmed. destruct (runes s) as [|r l] eqn:E; [done|]. rewrite H by set_solver. simpl.
  destruct (rev l ++ [r]) as [|r' l'] eqn:E'; [done|]. rewrite H; [done|].
  assert (r' ∈ rev l ++ [r]) as Hin by (rewrite E'; set_solver).
  apply elem_of_app in Hin as [Hx|Hx]; [|set_solver]. apply list_elem_of_In, in_rev, list_elem_of_In in Hx. set_solver.
Qed.

Lemma IsSpace_above r : 33 <= r < 128 -> IsSpace r = false.
Proof. intros H. unfold IsSpace, in_range. repeat (apply orb_false_iff; split); lia. Qed.

Lemma all_digits_bytes s r : all_digits s = true -> r ∈ bytes s -> 48 <= r <= 57.
Proof.
  induction s as [|c s IH]; cbn [all_digits bytes]; [set_solver|]. intros H Hr. bool_to_prop.
  apply elem_of_cons in Hr as [->|Hr]; [|auto]. unfold is_digit_ascii, in_range in *. blia.
Qed.

Lemma Itoa_trimmed z : trimmed (Itoa z) = true.
Proof.
  apply trimmed_all. rewrite runes_ascii_only by apply Itoa_ascii. intros r Hr. apply IsSpace_above.
  unfold Itoa in Hr. destruct (z <? 0) eqn:E; bool_to_prop.
  - cbn [bytes] in Hr. apply elem_of_cons in Hr as [->|Hr]; [by vm_compute|].
    eapply all_digits_bytes in Hr; [lia|apply itoa_pos_digits; lia].
  - eapply all_digits_bytes in Hr; [lia|apply itoa_pos_digits; lia].
Qed.

#[export] Hint Rewrite TrimSpace_trimmed using done : kive.

(** ** Spaces around a text *)

Lemma DecodeRune_prefix s t : s <> "" -> (snd (DecodeRune (s +:+ t)) <= String.length s)%nat -> DecodeRune s = DecodeRune (s +:+ t).
Proof.
  destruct s as [|c0 [|c1 [|c2 [|c3 s]]]]; [done|..]; intros _; cbn [String.append String.length];
    unfold DecodeRune; repeat case_goal; cbn [snd]; try done; lia.
Qed.
Lemma DecodeRune_length s : (snd (DecodeRune s) <= String.length s)%nat.
Proof. destruct s as [|c0 [|c1 [|c2 [|c3 s]]]]; unfold DecodeRune; repeat case_goal; cbn; lia. Qed.
Lemma slen_stake_full n s : (n <= String.length s)%nat -> String.length (stake n s) = n.
Proof. revert n. induction s as [|c s IH]; intros [|n] H; cbn in *; try lia. rewrite IH; lia. Qed.
Lemma stake_sdrop n s : stake n s +:+ sdrop n s = s.
Proof. revert n. induction s as [|c s IH]; intros [|n]; cbn; try done. by rewrite IH. Qed.

Definition text_of (l : list (rune * string)) : string := foldr (fun p acc => snd p +:+ acc) "" l.
Lemma text_of_app l k : text_of (l ++ k) = text_of l +:+ text_of k.
Proof.
  induction l as [|p l IH]; [done|]. change (snd p +:+ text_of (l ++ k) = (snd p +:+ text_of l) +:+ text_of k). by rewrite sapp_assoc, IH.
Qed.
(** The runes of a text that ends between two runes of a longer one. *)
Lemma chunks_prefix l : forall rest s, chunks s = (l ++ rest)%list -> chunks (text_of l) = l.
Proof.
  induction l as [|p l IH]; intros rest s E; [done|].
  destruct (decide (s = "")) as [->|Hs]; [done|]. pose proof (chunks_concat s) as Hc. rewrite E in Hc. fold (text_of ((p :: l) ++ rest)) in Hc.
  rewrite text_of_app in Hc. cbn [text_of foldr] in Hc. fold (text_of l) in Hc.
  rewrite chunks_cons in E by done. cbn [app] in E. injection E as <- El. cbn [snd] in Hc.
  pose proof (DecodeRune_width s Hs) as Hw. pose proof (DecodeRune_length s) as Hl. set (w := snd (DecodeRune s)) in *.
  pose proof (slen_stake_full w s Hl) as Hlen.
  cbn [text_of foldr snd]. fold (text_of l). assert (Hne : stake w s +:+ text_of l <> "").
  { intros E. apply (f_equal String.length) in E. rewrite slen_app, Hlen in E. cbn in E. lia. }
  rewrite chunks_cons by done.
  rewrite (DecodeRune_prefix _ (text_of rest) Hne) by (rewrite Hc, slen_app; fold w; lia). rewrite Hc. fold w.
  rewrite <- Hlen at 1 3. rewrite stake_cat, sdrop_cat. f_equal. exact (IH rest (sdrop w s) El).
Qed.
Lemma chunks_suffix a d : forall s, chunks s = (a ++ d)%list -> chunks (text_of d) = d.
Proof.
  induction a as [|p a IH]; intros s Ha.
  - pose proof (chunks_concat s) as Hc. rewrite Ha in Hc. cbn [app] in *. change (text_of d = s) in Hc. by rewrite Hc.
  - destruct (decide (s = "")) as [->|Hs]; [done|]. rewrite chunks_cons in Ha by done. injection Ha as <- Ha. exact (IH _ Ha).
Qed.
Lemma drop_spaces_suffix l : exists k, l = (k ++ drop_spaces l)%list.
Proof. induction l as [|[r b] l [k IH]]; cbn; [by exists []|]. destruct (IsSpace r); [exists ((r, b) :: k); cbn; congruence|by exists []]. Qed.
Lemma drop_spaces_idem l : drop_spaces (drop_spaces l) = drop_spaces l.
Proof. induction l as [|[r b] l IH]; cbn; [done|]. destruct (IsSpace r) eqn:E; [done|]. cbn. by rewrite E. Qed.
Lemma drop_spaces_prefix k l : drop_spaces (k ++ l) = (k ++ l)%list -> drop_spaces k = k.
Proof. destruct k as [|[r b] k]; cbn; [done|]. destruct (IsSpace r) eqn:E; [|done]. intros H. destruct (drop_spaces_suffix (k ++ l)) as [j Hj].
  apply (f_equal length) in Hj. rewrite H, !length_app in Hj. cbn in Hj. rewrite length_app in Hj. lia. Qed.
Lemma TrimSpace_idem s : TrimSpace (TrimSpace s) = TrimSpace s.
Proof.
  unfold TrimSpace at 2 3. fold (text_of (rev (drop_spaces (rev (drop_spaces (chunks s)))))).
  destruct (drop_spaces_suffix (chunks s)) as [a Ha]. set (d := drop_spaces (chunks s)) in *.
  destruct (drop_spaces_suffix (rev d)) as [b Hb]. set (e := drop_spaces (rev d)) in *.
  apply (f_equal (@rev _)) in Hb. rewrite rev_involutive, rev_app_distr in Hb.
  pose proof (chunks_suffix _ _ _ Ha) as Hd.
  assert (He : chunks (text_of (rev e)) = rev e) by (apply (chunks_prefix _ (rev b) (text_of d)); by rewrite Hd).
  unfold TrimSpace. rewrite He.
  rewrite (drop_spaces_prefix (rev e) (rev b)) by (rewrite <- Hb; apply drop_spaces_idem).
  rewrite rev_involutive. subst e. by rewrite drop_spaces_idem.
Qed.
