(* ===== verification/ConfSyntax.v ===== *)
(** * conf: syntax trees, limits and diagnostics

    Models [src/conf/ast.go], [src/conf/limits.go] and the error value of
    [src/conf/error.go]. *)

From S2P Require Import Prelude GoStrings.
Open Scope Z_scope.

(** ** Limits (limits.go) *)

Definition MaxSourceBytes : Z := 1048576.
Definition MaxNestingDepth : Z := 32.
Definition MaxStatements : Z := 100000.
Definition MaxArgs : Z := 4096.
Definition MaxStringBytes : Z := 65536.
Definition MaxIdentBytes : Z := 256.

(** ** Positions and diagnostics *)

Record Pos := mkPos { Line : Z; Column : Z }.
Definition noPos : Pos := mkPos 0 0.

(** The diagnostic messages. A message that the source formats with a value
    carries the value; the hint and the snippet of a diagnostic are functions
    of its message and of the source line and are not repeated here. *)
Inductive message :=
| SourceTooLarge
| NullByteInSource
| NullByteInString
| UnexpectedCharacter (r : rune)
| IdentifierTooLong
| UnknownDirective (name : string)
| ExpectedNumber
| ExpectedFraction
| UnclosedString
| NewlineInString
| UnterminatedEscape
| InvalidEscape (r : rune)
| StringTooLong
| NestingTooDeep
| TooManyStatements
| TooManyArgs
| ExpectedColonAfterVersion
| ExpectedVersionNumber
| InvalidVersionNumber
| ExpectedStatementName
| ExpectedBlockAfterId (name id : string)
| ExpectedParenOrBrace (name : string)
| ExpectedLBrace
| UnclosedBrace
| ExpectedLParen
| TrailingComma
| UnclosedParen
| ExpectedRParenOrComma
| InvalidNumber (text : string)
| ExpectedValue
| ExpectedString
| ExpectedBool
| ExpectedInteger
| ExpectedIntegerGotFloat
| IntegerOutOfRange
| ExpectedIntegerGotString (s : string)
| ExpectsOneString (name : string) (n : nat)
| ExpectsOneBool (name : string) (n : nat)
| ExpectsOneInteger (name : string) (n : nat)
| ExpectedNestedCall
| UnknownSettingNamed (name : string)
| SchemaError (msg : string)
(* of the packages that lower a file *)
| UnexpectedBlock (name where_ : string)
| BodyOnlyAllows (where_ : string)
| NoIdentifierIn (where_ : string)
| UnexpectedIdentifier (id where_ : string)
| UseBlockForm (name : string)
| NoJobWrapper
| SpecifiedTwice (what : string)
| ProbesNeedKind
| PortRejected (name : string)
| ProtocolRejected (raw : string)
| ExposureRejected (raw : string)
| ExternalCombined (cert : string)
| HookNameRequired
| ConfigOneValue (key : string)
| BadMonthdayEntry
| LegacySetting (name : string)
| SetTwice (key : string)
| DuplicateBlock (name : string)
| PortRangeTwoIntegers
| PortRangeInteger (which : string)
| ProfileRejected (profile : string)
| ExpectedBlocks (what : string)
| DuplicateName (what name : string)
| MissingSetting (what name : string)
| InvalidName (what name : string)
| JobNameRequired
| ExpectsOneValue (name : string).

(** [conf.Error]; [limit] is [errors.Is(e, ErrLimitExceeded)], the only cause
    the package attaches. *)
Record Error := mkError {
  Path : string;
  ErrPos : Pos;
  Message : message;
  limit : bool;
}.

Definition Err_at (path : string) (p : Pos) (m : message) : Error := mkError path p m false.
Definition WithLimit (e : Error) : Error := mkError (Path e) (ErrPos e) (Message e) true.

(** ** Syntax trees (ast.go)

    [NumberLit.Float] is a function of [Text] that neither the parser, nor the
    emitter, nor the helpers read, so the model leaves it out. *)

Inductive Value :=
| StringLit (v : string) (at_ : Pos)
| NumberLit (text : string) (int : Z) (is_float : bool) (at_ : Pos)
| BoolLit (v : bool) (at_ : Pos)
| IdentLit (name : string) (at_ : Pos)
| CallValue (c : Call)
with Call :=
| mkCall (name : string) (args : list Value) (name_pos : Pos) (trailing_sem : bool).

Inductive Stmt :=
| SBlock (name id : string) (body : list Stmt) (name_pos : Pos)
| SCall (c : Call).

Record File := mkFile { FilePath : string; Version : Z; Stmts : list Stmt }.

Definition CallName (c : Call) : string := let 'mkCall n _ _ _ := c in n.
Definition CallArgs (c : Call) : list Value := let 'mkCall _ a _ _ := c in a.
Definition CallPos (c : Call) : Pos := let 'mkCall _ _ p _ := c in p.
Definition ValuePos (v : Value) : Pos :=
  match v with
  | StringLit _ p | NumberLit _ _ _ p | BoolLit _ p | IdentLit _ p => p
  | CallValue c => CallPos c
  end.
Definition StmtPos (s : Stmt) : Pos :=
  match s with SBlock _ _ _ p => p | SCall c => CallPos c end.

(** *** Induction over the nested syntax *)

Section value_ind.
Variable P : Value -> Prop.
Hypothesis HStr : forall v p, P (StringLit v p).
Hypothesis HNum : forall t i f p, P (NumberLit t i f p).
Hypothesis HBool : forall b p, P (BoolLit b p).
Hypothesis HIdent : forall n p, P (IdentLit n p).
Hypothesis HCall : forall n args p t, Forall P args -> P (CallValue (mkCall n args p t)).
Fixpoint value_nested_ind (v : Value) : P v :=
  match v with
  | StringLit v p => HStr v p
  | NumberLit t i f p => HNum t i f p
  | BoolLit b p => HBool b p
  | IdentLit n p => HIdent n p
  | CallValue (mkCall n args p t) =>
      HCall n args p t
        ((fix go (l : list Value) : Forall P l :=
            match l with
            | [] => Forall_nil_2 P
            | v :: l => Forall_cons_2 P v l (value_nested_ind v) (go l)
            end) args)
  end.
End value_ind.

Section stmt_ind.
Variable P : Stmt -> Prop.
Hypothesis HCall : forall c, P (SCall c).
Hypothesis HBlock : forall n id body p, Forall P body -> P (SBlock n id body p).
Fixpoint stmt_nested_ind (s : Stmt) : P s :=
  match s with
  | SCall c => HCall c
  | SBlock n id body p =>
      HBlock n id body p
        ((fix go (l : list Stmt) : Forall P l :=
            match l with
            | [] => Forall_nil_2 P
            | v :: l => Forall_cons_2 P v l (stmt_nested_ind v) (go l)
            end) body)
  end.
End stmt_ind.

(** *** Measures *)

(** Nesting depth as the parser counts it: a block or a call is one level. *)
Fixpoint value_depth (v : Value) : Z :=
  match v with
  | CallValue (mkCall _ args _ _) => 1 + foldr (fun v d => Z.max (value_depth v) d) 0 args
  | _ => 0
  end.
Definition call_depth (c : Call) : Z := value_depth (CallValue c).
Fixpoint stmt_depth (s : Stmt) : Z :=
  match s with
  | SCall c => call_depth c
  | SBlock _ _ body _ => 1 + foldr (fun s d => Z.max (stmt_depth s) d) 0 body
  end.

(** Number of statements, nested ones included. *)
Fixpoint stmt_count (s : Stmt) : Z :=
  match s with
  | SCall _ => 1
  | SBlock _ _ body _ => 1 + foldr (fun s n => stmt_count s + n) 0 body
  end.
Definition stmts_count (l : list Stmt) : Z := foldr (fun s n => stmt_count s + n) 0 l.
Definition stmts_depth (l : list Stmt) : Z := foldr (fun s d => Z.max (stmt_depth s) d) 0 l.
Definition values_depth (l : list Value) : Z := foldr (fun v d => Z.max (value_depth v) d) 0 l.

(** Every call of a statement has at most [MaxArgs] arguments. *)
Fixpoint value_args_ok (v : Value) : bool :=
  match v with
  | CallValue (mkCall _ args _ _) => (Z.of_nat (length args) <=? MaxArgs) && forallb value_args_ok args
  | _ => true
  end.
Fixpoint stmt_args_ok (s : Stmt) : bool :=
  match s with
  | SCall c => value_args_ok (CallValue c)
  | SBlock _ _ body _ => forallb stmt_args_ok body
  end.
