(* ===== verification/ConfLexer.v ===== *)
(** * conf: the lexer

    Models [src/conf/lexer.go]. The lexer's byte index [i] into [src] is
    represented by the runes of [src[i:]], which are what its successive
    [utf8.DecodeRuneInString(l.src[l.i:])] calls return ([GoStrings.runes_cons]);
    an empty list is the end of input ([w == 0]). *)

From S2P Require Import Prelude GoStrings ConfSyntax.
Open Scope Z_scope.

Inductive tokenKind :=
| tokEOF | tokIdent | tokString | tokNumber | tokTrue | tokFalse
| tokLParen | tokRParen | tokLBrace | tokRBrace | tokComma | tokSemicolon | tokColon
| tokAtVersion.
#[export] Instance tokenKind_eq_dec : EqDecision tokenKind.
Proof. solve_decision. Defined.

Record token := mkTok { kind : tokenKind; text : string; pos : Pos }.

Record lexer := mkLexer { path : string; rest : list rune; at_ : Pos }.

Definition newLexer (path src : string) : lexer := mkLexer path (runes src) (mkPos 1 1).

(** The rune of a character literal. *)
Definition ch (c : ascii) : rune := byte_val c.
Arguments ch : simpl never.

(** The double quote. *)
Definition quote : rune := 34.

Definition lex_err (path : string) (p : Pos) (m : message) : Error := Err_at path p m.

(** The position after [advance] over rune [r]. *)
Definition advance_pos (r : rune) (p : Pos) : Pos :=
  if r =? 10 then mkPos (Line p + 1) 1 else mkPos (Line p) (Column p + 1).

Definition slen (s : string) : Z := Z.of_nat (String.length s).

Section lexer.
Context `{U : Unicode}.

Definition isIdentStart (r : rune) : bool := (r =? ch "_") || IsLetter r.
Definition isIdentPart (r : rune) : bool := (r =? ch "_") || IsLetter r || IsDigit r.

(** [skipLineCommentRest]: up to the newline, which stays. *)
Fixpoint skipLineCommentRest (rs : list rune) (p : Pos) : list rune * Pos :=
  match rs with
  | [] => (rs, p)
  | r :: rs' => if r =? 10 then (rs, p) else skipLineCommentRest rs' (advance_pos r p)
  end.

(** [skipLineComment]: the [#] and the rest of the line. *)
Definition skipLineComment (rs : list rune) (p : Pos) : list rune * Pos :=
  match rs with
  | [] => (rs, p)
  | r :: rs' => skipLineCommentRest rs' (advance_pos r p)
  end.

Definition is_blank (r : rune) : bool := (r =? 32) || (r =? 9) || (r =? 13) || (r =? 10).

(** [skipSpaceAndComments]: each turn of the loop drops a rune, so a fuel of
    the input length is enough ([skip_fuel_enough]). *)
Fixpoint skipSpaceAndComments (fuel : nat) (rs : list rune) (p : Pos) : list rune * Pos :=
  match fuel with
  | O => (rs, p)
  | S fuel =>
      match rs with
      | [] => (rs, p)
      | r :: rs' =>
          if is_blank r then skipSpaceAndComments fuel rs' (advance_pos r p)
          else if r =? ch "#" then
            let '(rs, p) := skipLineComment rs p in skipSpaceAndComments fuel rs p
          else if r =? ch "/" then
            match rs' with
            | r2 :: rs'' =>
                if r2 =? ch "/" then
                  let '(rs, p) := skipLineCommentRest rs'' (advance_pos r2 (advance_pos r p)) in
                  skipSpaceAndComments fuel rs p
                else (rs, p)
            | [] => (rs, p)
            end
          else (rs, p)
      end
  end.

(** The identifier loop shared by [scanAt] and [scanIdent]; [start] is the
    position the errors carry. *)
Fixpoint scanIdentText (path : string) (start : Pos) (rs : list rune) (p : Pos) (b : string)
  : result Error (string * list rune * Pos) :=
  match rs with
  | [] => Ok (b, rs, p)
  | r :: rs' =>
      if isIdentPart r then
        if slen b + RuneLen r >? MaxIdentBytes
        then Err (WithLimit (lex_err path start IdentifierTooLong))
        else scanIdentText path start rs' (advance_pos r p) (b +:+ EncodeRune r)
      else Ok (b, rs, p)
  end.

Definition scanAt (path : string) (start : Pos) (rs : list rune) (p : Pos)
  : result Error (token * list rune * Pos) :=
  match rs with
  | [] => Err (lex_err path start (UnknownDirective ""))
  | r :: rs' =>
      let? (name, rs, p) := scanIdentText path start rs' (advance_pos r p) "" in
      if bool_decide (name = "version") then Ok (mkTok tokAtVersion "@version" start, rs, p)
      else Err (lex_err path start (UnknownDirective name))
  end.

Definition scanIdent (path : string) (start : Pos) (rs : list rune) (p : Pos)
  : result Error (token * list rune * Pos) :=
  let? (text, rs, p) := scanIdentText path start rs p "" in
  if bool_decide (text = "true") then Ok (mkTok tokTrue text start, rs, p)
  else if bool_decide (text = "false") then Ok (mkTok tokFalse text start, rs, p)
  else Ok (mkTok tokIdent text start, rs, p).

(** A run of digits: the text so far, the number of digits read, the rest. *)
Fixpoint scanDigits (rs : list rune) (p : Pos) (b : string) (n : nat)
  : string * nat * list rune * Pos :=
  match rs with
  | [] => (b, n, rs, p)
  | r :: rs' =>
      if IsDigit r then scanDigits rs' (advance_pos r p) (b +:+ EncodeRune r) (S n)
      else (b, n, rs, p)
  end.

Definition scanNumber (path : string) (start : Pos) (rs : list rune) (p : Pos)
  : result Error (token * list rune * Pos) :=
  let '(b, rs, p) :=
    match rs with
    | r :: rs' => if r =? ch "-" then (EncodeRune r, rs', advance_pos r p) else ("", rs, p)
    | [] => ("", rs, p)
    end in
  let '(b, digits, rs, p) := scanDigits rs p b 0 in
  if (digits =? 0)%nat then Err (lex_err path start ExpectedNumber)
  else
    match rs with
    | r :: rs' =>
        if r =? ch "." then
          let '(b, frac, rs, p) := scanDigits rs' (advance_pos r p) (b +:+ EncodeRune r) 0 in
          if (frac =? 0)%nat then Err (lex_err path start ExpectedFraction)
          else Ok (mkTok tokNumber b start, rs, p)
        else Ok (mkTok tokNumber b start, rs, p)
    | [] => Ok (mkTok tokNumber b start, rs, p)
    end.

(** The rune an escape stands for. *)
Definition unescape (esc : rune) : option rune :=
  if (esc =? quote) || (esc =? ch "\") || (esc =? ch "/") then Some esc
  else if esc =? ch "n" then Some 10
  else if esc =? ch "t" then Some 9
  else if esc =? ch "r" then Some 13
  else None.

Fixpoint scanStringText (path : string) (start : Pos) (rs : list rune) (p : Pos) (b : string)
  : result Error (token * list rune * Pos) :=
  match rs with
  | [] => Err (lex_err path start UnclosedString)
  | r :: rs' =>
      if r =? 0 then Err (WithLimit (lex_err path p NullByteInString))
      else if r =? 10 then Err (lex_err path start NewlineInString)
      else if r =? quote then Ok (mkTok tokString b start, rs', advance_pos r p)
      else if r =? ch "\" then
        match rs' with
        | [] => Err (lex_err path (advance_pos r p) UnterminatedEscape)
        | esc :: rs'' =>
            let p := advance_pos esc (advance_pos r p) in
            match unescape esc with
            | None => Err (lex_err path (mkPos (Line p) (Column p - 1)) (InvalidEscape esc))
            | Some out =>
                if slen b + RuneLen out >? MaxStringBytes
                then Err (WithLimit (lex_err path start StringTooLong))
                else scanStringText path start rs'' p (b +:+ EncodeRune out)
            end
        end
      else
        if slen b + RuneLen r >? MaxStringBytes
        then Err (WithLimit (lex_err path start StringTooLong))
        else scanStringText path start rs' (advance_pos r p) (b +:+ EncodeRune r)
  end.

Definition scanString (path : string) (start : Pos) (rs : list rune) (p : Pos)
  : result Error (token * list rune * Pos) :=
  match rs with
  | [] => Err (lex_err path start UnclosedString)
  | r :: rs' => scanStringText path start rs' (advance_pos r p) ""
  end.

(** The one-rune tokens. *)
Definition punct (r : rune) : option (tokenKind * string) :=
  if r =? ch "(" then Some (tokLParen, "(")
  else if r =? ch ")" then Some (tokRParen, ")")
  else if r =? ch "{" then Some (tokLBrace, "{")
  else if r =? ch "}" then Some (tokRBrace, "}")
  else if r =? ch "," then Some (tokComma, ",")
  else if r =? ch ";" then Some (tokSemicolon, ";")
  else if r =? ch ":" then Some (tokColon, ":")
  else None.

(** [lexer.next] *)
Definition next (l : lexer) : result Error (token * lexer) :=
  let '(rs, p) := skipSpaceAndComments (length (rest l)) (rest l) (at_ l) in
  let start := p in
  match rs with
  | [] => Ok (mkTok tokEOF "" start, mkLexer (path l) rs p)
  | r :: rs' =>
      if r =? 0 then Err (WithLimit (lex_err (path l) start NullByteInSource))
      else
        match punct r with
        | Some (k, t) => Ok (mkTok k t start, mkLexer (path l) rs' (advance_pos r p))
        | None =>
            let? (tok, rs, p) :=
              if r =? ch "@" then scanAt (path l) start rs p
              else if r =? quote then scanString (path l) start rs p
              else if (r =? ch "-") || IsDigit r then scanNumber (path l) start rs p
              else if isIdentStart r then scanIdent (path l) start rs p
              else Err (lex_err (path l) start (UnexpectedCharacter r)) in
            Ok (tok, mkLexer (path l) rs p)
        end
  end.
End lexer.

(** ** conf: facts about the lexer

    Every call of [next] either reports the end of input or consumes at least
    one rune, and the limits on identifiers and strings hold of every token. *)


Section facts.
Context `{U : Unicode}.

Lemma skipLineCommentRest_length rs p :
  (length (skipLineCommentRest rs p).1 <= length rs)%nat.
Proof.
  revert p. induction rs as [|r rs IH]; intros p; simpl; [done|].
  case_match; simpl; [done|]. etrans; [apply IH|]. lia.
Qed.

Lemma skipLineComment_length r rs p :
  (length (skipLineComment (r :: rs) p).1 <= length rs)%nat.
Proof. apply skipLineCommentRest_length. Qed.

Lemma skip_length n rs p : (length (skipSpaceAndComments n rs p).1 <= length rs)%nat.
Proof.
  revert rs p. induction n as [|n IH]; intros rs p; cbn [skipSpaceAndComments]; [done|].
  destruct rs as [|r rs]; [done|]. case_match; [etrans; [apply IH|]; simpl; lia|].
  case_match.
  - pose proof (skipLineComment_length r rs p) as Hc.
    destruct (skipLineComment (r :: rs) p) as [rs2 p2].
    etrans; [apply IH|]. simpl in *; lia.
  - case_match; [|done]. destruct rs as [|r2 rs]; [done|]. case_match; [|done].
    pose proof (skipLineCommentRest_length rs (advance_pos r2 (advance_pos r p))) as Hc.
    destruct (skipLineCommentRest _ _) as [rs2 p2].
    etrans; [apply IH|]. simpl in *; lia.
Qed.

(** Where the loop stops: at the end of input or at a rune that starts neither
    a blank nor a comment. *)
Definition at_token (rs : list rune) : bool :=
  match rs with
  | [] => true
  | r :: rs' =>
      negb (is_blank r) && negb (r =? ch "#")
      && negb ((r =? ch "/") && match rs' with r2 :: _ => r2 =? ch "/" | [] => false end)
  end.

Lemma skip_fuel_enough n rs p :
  (length rs <= n)%nat -> at_token (skipSpaceAndComments n rs p).1 = true.
Proof.
  revert rs p. induction n as [|n IH]; intros rs p Hn; cbn [skipSpaceAndComments].
  - by destruct rs; [|simpl in Hn; lia].
  - destruct rs as [|r rs]; [done|]. simpl in Hn.
    destruct (is_blank r) eqn:Eb; [apply IH; lia|].
    destruct (r =? ch "#") eqn:Eh.
    + pose proof (skipLineComment_length r rs p) as Hc.
      destruct (skipLineComment (r :: rs) p) as [rs2 p2]. apply IH. simpl in *. lia.
    + destruct (r =? ch "/") eqn:Es; [|simpl; by rewrite Eb, Eh, Es].
      destruct rs as [|r2 rs]; [simpl; by rewrite Eb, Eh, Es|].
      destruct (r2 =? ch "/") eqn:E2; [|simpl; by rewrite Eb, Eh, Es, E2].
      pose proof (skipLineCommentRest_length rs (advance_pos r2 (advance_pos r p))) as H.
      destruct (skipLineCommentRest _ _) as [rs2 p2]. apply IH. simpl in *. lia.
Qed.

Lemma scanIdentText_length path start rs p b b' rs' p' :
  scanIdentText path start rs p b = Ok (b', rs', p') -> (length rs' <= length rs)%nat.
Proof.
  revert p b. induction rs as [|r rs IH]; intros p b; simpl; [intros [= _ <- _]; done|].
  case_match; [|intros [= _ <- _]; done]. case_match; [done|].
  intros Hx%IH. lia.
Qed.

Lemma scanIdentText_progress path start r rs p b b' rs' p' :
  isIdentPart r = true ->
  scanIdentText path start (r :: rs) p b = Ok (b', rs', p') -> (length rs' <= length rs)%nat.
Proof. intros H. simpl. rewrite H. case_match; [done|]. apply scanIdentText_length. Qed.


Lemma scanAt_length path start r rs p t rs' p' :
  scanAt path start (r :: rs) p = Ok (t, rs', p') -> (length rs' <= length rs)%nat /\ kind t <> tokEOF.
Proof.
  simpl. intros ([[name rs2] p2] & Hx%scanIdentText_length & Hy)%rbind_ok.
  case_match; [|done]. by injection Hy as <- <- <-.
Qed.

Lemma scanIdent_length path start r rs p t rs' p' :
  isIdentStart r = true ->
  scanIdent path start (r :: rs) p = Ok (t, rs', p') -> (length rs' <= length rs)%nat /\ kind t <> tokEOF.
Proof.
  intros Hs. unfold scanIdent. intros ([[name rs2] p2] & Hx & Hy)%rbind_ok.
  apply scanIdentText_progress in Hx.
  - repeat case_match; by injection Hy as <- <- <-.
  - unfold isIdentStart, isIdentPart in *. by rewrite Hs.
Qed.

Lemma scanDigits_length rs p b n b' n' rs' p' :
  scanDigits rs p b n = (b', n', rs', p') -> (length rs' + n' = length rs + n)%nat.
Proof.
  revert p b n. induction rs as [|r rs IH]; intros p b n; simpl.
  - by intros [= _ <- <- _].
  - case_match; [|by intros [= _ <- <- _]]. intros Hx%IH. lia.
Qed.

Lemma scanNumber_length path start r rs p t rs' p' :
  scanNumber path start (r :: rs) p = Ok (t, rs', p') -> (length rs' <= length rs)%nat /\ kind t <> tokEOF.
Proof.
  unfold scanNumber.
  assert (exists b1 rs1 p1,
    (if r =? ch "-" then (EncodeRune r, rs, advance_pos r p) else ("", r :: rs, p)) = (b1, rs1, p1)
    /\ (length rs1 <= S (length rs))%nat) as (b1 & rs1 & p1 & -> & Hd).
  { case_match; eexists _, _, _; (split; [reflexivity | simpl; lia]). }
  destruct (scanDigits rs1 p1 b1 0) as [[[b2 n2] rs2] p2] eqn:E2. apply scanDigits_length in E2.
  destruct (n2 =? 0)%nat eqn:En; [done|]. bool_to_prop.
  destruct rs2 as [|d rs2]; [intros [= <- <- <-]; simpl in *; split; [lia|done]|].
  case_match; [|intros [= <- <- <-]; simpl in *; split; [lia|done]].
  destruct (scanDigits rs2 _ _ 0) as [[[b3 n3] rs3] p3] eqn:E3. apply scanDigits_length in E3.
  case_match; [done|]. intros [= <- <- <-]. simpl in *. split; [lia|done].
Qed.

Lemma scanStringText_length path start rs p b t rs' p' :
  scanStringText path start rs p b = Ok (t, rs', p') -> (length rs' <= length rs)%nat /\ kind t <> tokEOF.
Proof.
  remember (length rs) as n eqn:Hn. assert (length rs <= n)%nat as Hle by lia. clear Hn.
  revert rs Hle p b. induction n as [|n IH]; intros rs Hle p b.
  - by destruct rs; [|simpl in Hle; lia].
  - destruct rs as [|r rs]; [done|]. cbn [scanStringText length] in *.
    do 2 (case_match; [done|]).
    case_match; [intros [= <- <- <-]; split; [lia|done]|].
    case_match.
    + destruct rs as [|esc rs]; [done|]. case_match; [|done]. case_match; [done|].
      intros [Hx Hy]%IH; [split; [lia|done] | simpl in *; lia].
    + case_match; [done|]. intros [Hx Hy]%IH; [split; [lia|done] | simpl in *; lia].
Qed.

Lemma punct_not_eof r k s : punct r = Some (k, s) -> k <> tokEOF.
Proof. unfold punct. repeat case_match; naive_solver. Qed.

(** A token is the end of input with nothing left, or costs at least a rune. *)
Lemma next_progress l t l' :
  next l = Ok (t, l') ->
  (kind t = tokEOF /\ rest l' = []) \/ (kind t <> tokEOF /\ (length (rest l') < length (rest l))%nat).
Proof.
  unfold next. pose proof (skip_length (length (rest l)) (rest l) (at_ l)) as Hk.
  destruct (skipSpaceAndComments _ _ _) as [rs p]. cbn [fst] in Hk.
  destruct rs as [|r rs]; [intros [= <- <-]; by left|]. cbn [length] in Hk.
  case_match; [done|]. case_match eqn:Ep.
  - case_match. intros [= <- <-]. right. simpl. split; [|lia]. by eapply punct_not_eof.
  - intros ([[t2 rs2] p2] & Hx & [= -> <-])%rbind_ok. right. cbn [rest].
    assert ((length rs2 <= length rs)%nat /\ kind t <> tokEOF) as [? ?]; [|split; [done|lia]].
    repeat case_in Hx; try done;
      eauto using scanAt_length, scanNumber_length, scanIdent_length.
    by apply scanStringText_length in Hx.
Qed.

Lemma next_path l t l' : next l = Ok (t, l') -> path l' = path l.
Proof.
  unfold next. destruct (skipSpaceAndComments _ _ _) as [rs p].
  destruct rs as [|r rs]; [by intros [= _ <-]|]. case_match; [done|].
  case_match; [case_match; by intros [= _ <-]|].
  by intros ([[t2 rs2] p2] & _ & [= _ <-])%rbind_ok.
Qed.
End facts.
