(* ===== verification/ConfParser.v ===== *)
(** * conf: the parser

    Models [src/conf/parser.go]. The recursive-descent functions thread the
    parser record and recurse on a fuel; [ConfParser.parseFile_total] shows that the
    fuel [Parse] uses is never exhausted. *)

From S2P Require Import Prelude GoStrings ConfSyntax ConfLexer.
Open Scope Z_scope.

(** [strconv.ParseFloat(text, 64)] followed by the conversion to [int64];
    [None] is ParseFloat's error. *)
Class FloatText := float_text : string -> option Z.

Record parser := mkParser {
  lex : lexer;
  cur : token;
  peek : token;
  depth : Z;
  stmts : Z;
}.

(** Why a parse stops without a tree: a diagnostic of the source, or the
    model's fuel. *)
Inductive failure :=
| Diag (e : Error)
| OutOfFuel.

Definition presult (A : Type) := result failure (A * parser).

Definition set_depth (p : parser) (d : Z) : parser := mkParser (lex p) (cur p) (peek p) d (stmts p).
Definition set_stmts (p : parser) (n : Z) : parser := mkParser (lex p) (cur p) (peek p) (depth p) n.

Definition fail {A} (p : parser) (at_ : Pos) (m : message) : result failure A :=
  Err (Diag (Err_at (path (lex p)) at_ m)).
Definition limitErr {A} (p : parser) (at_ : Pos) (m : message) : result failure A :=
  Err (Diag (WithLimit (Err_at (path (lex p)) at_ m))).

Definition zero_token : token := mkTok tokEOF "" noPos.

Definition stringsContainsDot (s : string) : bool := Contains s ".".

Definition is_kind (k : tokenKind) (t : token) : bool := bool_decide (kind t = k).

Section parser.
Context `{U : Unicode} `{F : FloatText}.

Definition advance (p : parser) : result failure parser :=
  match next (lex p) with
  | Ok (tok, l) => Ok (mkParser l (peek p) tok (depth p) (stmts p))
  | Err e => Err (Diag e)
  end.

Definition enterDepth (p : parser) (at_ : Pos) : result failure parser :=
  let p := set_depth p (depth p + 1) in
  if depth p >? MaxNestingDepth then limitErr p at_ NestingTooDeep else Ok p.
Definition leaveDepth (p : parser) : parser := set_depth p (depth p - 1).

Definition countStmt (p : parser) (at_ : Pos) : result failure parser :=
  let p := set_stmts p (stmts p + 1) in
  if stmts p >? MaxStatements then limitErr p at_ TooManyStatements else Ok p.

Definition parseNumberLit (tok : token) : option Value :=
  if stringsContainsDot (text tok) then
    match float_text (text tok) with
    | Some i => Some (NumberLit (text tok) i true (pos tok))
    | None => None
    end
  else
    match Atoi (text tok) with
    | Some i => Some (NumberLit (text tok) i false (pos tok))
    | None => None
    end.

Definition parseVersion (p : parser) : presult Z :=
  let? p := advance p in
  if negb (is_kind tokColon (cur p)) then fail p (pos (cur p)) ExpectedColonAfterVersion
  else
    let? p := advance p in
    if negb (is_kind tokNumber (cur p)) then fail p (pos (cur p)) ExpectedVersionNumber
    else
      match Atoi (text (cur p)) with
      | Some n =>
          if n <? 1 then fail p (pos (cur p)) InvalidVersionNumber
          else
            let? p := advance p in
            if is_kind tokSemicolon (cur p) then let? p := advance p in Ok (n, p)
            else Ok (n, p)
      | None => fail p (pos (cur p)) InvalidVersionNumber
      end.

Fixpoint parseCallTail (fuel : nat) (name : string) (namePos : Pos) (asStmt : bool) (p : parser)
  : presult Call :=
  match fuel with
  | O => Err OutOfFuel
  | S fuel =>
      if negb (is_kind tokLParen (cur p)) then fail p (pos (cur p)) ExpectedLParen
      else
        let openPos := pos (cur p) in
        let? p := enterDepth p openPos in
        let? p := advance p in
        let? (args, p) :=
          (if is_kind tokRParen (cur p) then Ok ([], p) else parseArgs fuel 0 p) in
        if negb (is_kind tokRParen (cur p)) then
          if is_kind tokEOF (cur p) then fail p openPos UnclosedParen
          else fail p (pos (cur p)) ExpectedRParenOrComma
        else
          let? p := advance p in
          if asStmt && is_kind tokSemicolon (cur p) then
            let? p := advance p in Ok (mkCall name args namePos true, leaveDepth p)
          else Ok (mkCall name args namePos false, leaveDepth p)
  end
(** The argument loop of [parseCallTail]; [n] is [len(c.Args)]. *)
with parseArgs (fuel : nat) (n : Z) (p : parser) : presult (list Value) :=
  match fuel with
  | O => Err OutOfFuel
  | S fuel =>
      if n >=? MaxArgs then limitErr p (pos (cur p)) TooManyArgs
      else
        let? (val, p) := parseValue fuel p in
        if is_kind tokComma (cur p) then
          let? p := advance p in
          if is_kind tokRParen (cur p) then fail p (pos (cur p)) TrailingComma
          else let? (vals, p) := parseArgs fuel (n + 1) p in Ok (val :: vals, p)
        else Ok ([val], p)
  end
with parseValue (fuel : nat) (p : parser) : presult Value :=
  match fuel with
  | O => Err OutOfFuel
  | S fuel =>
      match kind (cur p) with
      | tokString =>
          let v := StringLit (text (cur p)) (pos (cur p)) in
          let? p := advance p in Ok (v, p)
      | tokNumber =>
          match parseNumberLit (cur p) with
          | None => fail p (pos (cur p)) (InvalidNumber (text (cur p)))
          | Some n => let? p := advance p in Ok (n, p)
          end
      | tokTrue | tokFalse =>
          let v := BoolLit (is_kind tokTrue (cur p)) (pos (cur p)) in
          let? p := advance p in Ok (v, p)
      | tokIdent =>
          let name := text (cur p) in
          let namePos := pos (cur p) in
          let? p := advance p in
          if is_kind tokLParen (cur p) then
            let? (call, p) := parseCallTail fuel name namePos false p in Ok (CallValue call, p)
          else Ok (IdentLit name namePos, p)
      | _ => fail p (pos (cur p)) ExpectedValue
      end
  end.

Fixpoint parseStmt (fuel : nat) (p : parser) : presult Stmt :=
  match fuel with
  | O => Err OutOfFuel
  | S fuel =>
      if negb (is_kind tokIdent (cur p)) then fail p (pos (cur p)) ExpectedStatementName
      else
        let? p := countStmt p (pos (cur p)) in
        let name := text (cur p) in
        let namePos := pos (cur p) in
        let? p := advance p in
        match kind (cur p) with
        | tokLBrace => parseBlock fuel name "" namePos p
        | tokIdent =>
            let id := text (cur p) in
            let? p := advance p in
            if negb (is_kind tokLBrace (cur p)) then fail p (pos (cur p)) (ExpectedBlockAfterId name id)
            else parseBlock fuel name id namePos p
        | tokLParen =>
            let? (call, p) := parseCallTail fuel name namePos true p in Ok (SCall call, p)
        | _ => fail p (pos (cur p)) (ExpectedParenOrBrace name)
        end
  end
with parseBlock (fuel : nat) (name id : string) (namePos : Pos) (p : parser) : presult Stmt :=
  match fuel with
  | O => Err OutOfFuel
  | S fuel =>
      if negb (is_kind tokLBrace (cur p)) then fail p (pos (cur p)) ExpectedLBrace
      else
        let openPos := pos (cur p) in
        let? p := enterDepth p openPos in
        let? p := advance p in
        let? (body, p) := parseBody fuel openPos p in
        let? p := advance p in
        let? p := (if is_kind tokSemicolon (cur p) then advance p else Ok p) in
        Ok (SBlock name id body namePos, leaveDepth p)
  end
(** The [for p.cur.kind != tokRBrace] loop of [parseBlock]. *)
with parseBody (fuel : nat) (openPos : Pos) (p : parser) : presult (list Stmt) :=
  match fuel with
  | O => Err OutOfFuel
  | S fuel =>
      if is_kind tokRBrace (cur p) then Ok ([], p)
      else if is_kind tokEOF (cur p) then fail p openPos UnclosedBrace
      else
        let? (stmt, p) := parseStmt fuel p in
        let? (body, p) := parseBody fuel openPos p in
        Ok (stmt :: body, p)
  end.

(** The statement loop of [parseFile]. *)
Fixpoint parseStmts (fuel : nat) (p : parser) : presult (list Stmt) :=
  match fuel with
  | O => Err OutOfFuel
  | S fuel =>
      if is_kind tokEOF (cur p) then Ok ([], p)
      else
        let? (stmt, p) := parseStmt fuel p in
        let? (l, p) := parseStmts fuel p in
        Ok (stmt :: l, p)
  end.

Definition parseFile (fuel : nat) (p : parser) : result failure File :=
  let? (ver, p) := (if is_kind tokAtVersion (cur p) then parseVersion p else Ok (0, p)) in
  let? (l, _) := parseStmts fuel p in
  Ok (mkFile (path (lex p)) ver l).

(** The scan of [Parse] for a NUL byte, with the line and column it reports. *)
Fixpoint find_nul (src : string) (line col : Z) : option Pos :=
  match src with
  | "" => None
  | String b src =>
      if byte_val b =? 0 then Some (mkPos line col)
      else if byte_val b =? 10 then find_nul src (line + 1) 1
      else find_nul src line (col + 1)
  end.

Definition parse_fuel (src : string) : nat := (2 * String.length src + 2)%nat.

Definition Parse (path src : string) : result failure File :=
  if slen src >? MaxSourceBytes
  then Err (Diag (WithLimit (Err_at path noPos SourceTooLarge)))
  else
    match find_nul src 1 1 with
    | Some p => Err (Diag (WithLimit (Err_at path p NullByteInSource)))
    | None =>
        let p := mkParser (newLexer path src) zero_token zero_token 0 0 in
        let? p := advance p in
        let? p := advance p in
        parseFile (parse_fuel src) p
    end.
End parser.

(** ** conf: the parser terminates and enforces its limits

    One induction on the fuel gives, for every parsing function, that a fuel of
    twice the remaining input is never exhausted, that input is consumed, that
    the nesting depth is restored, and that every accepted tree respects the
    nesting, statement and argument limits. *)


Section facts.
Context `{U : Unicode} `{F : FloatText}.

(** Upper bound on the tokens still to be consumed. *)
Definition live (t : token) : nat := if is_kind tokEOF t then 0%nat else 1%nat.
Definition meas (p : parser) : nat := (live (cur p) + live (peek p) + length (rest (lex p)))%nat.

Definition parser_inv (p : parser) : Prop :=
  0 <= depth p <= MaxNestingDepth /\ 0 <= stmts p <= MaxStatements.

(** [holds Q r]: [r] did not run out of fuel, and satisfies [Q] if it succeeded. *)
Definition holds {A} (Q : A -> Prop) (r : result failure A) : Prop :=
  match r with
  | Ok a => Q a
  | Err (Diag _) => True
  | Err OutOfFuel => False
  end.

Lemma holds_bind {A B} (P : A -> Prop) (Q : B -> Prop) r (k : A -> result failure B) :
  holds P r -> (forall a, P a -> holds Q (k a)) -> holds Q (rbind r k).
Proof. destruct r as [a|[]]; simpl; auto. Qed.

Lemma holds_impl {A} (P Q : A -> Prop) r :
  holds P r -> (forall a, P a -> Q a) -> holds Q r.
Proof. destruct r as [a|[]]; simpl; auto. Qed.

Lemma live_kind k t : is_kind k t = true -> k <> tokEOF -> live t = 1%nat.
Proof. unfold live, is_kind. intros H Hk. bool_to_prop. by rewrite bool_decide_eq_false_2 by congruence. Qed.

(** What [advance] does to the state, besides reading a token. *)
Definition stepped (p p' : parser) : Prop :=
  (meas p' + live (cur p) <= meas p)%nat
  /\ depth p' = depth p /\ stmts p' = stmts p /\ path (lex p') = path (lex p).

Lemma advance_holds p : holds (stepped p) (advance p).
Proof.
  unfold advance. destruct (next (lex p)) as [[t l]|e] eqn:E; [|done].
  apply next_path in E as Hp. apply next_progress in E. unfold stepped, meas. simpl.
  split_and!; try done. unfold live at 2, is_kind.
  destruct E as [[-> ->]|[Hk Hl]]; [simpl; lia|].
  rewrite bool_decide_eq_false_2 by done. lia.
Qed.

(** The shared part of every postcondition. *)
Definition same_depth (p p' : parser) : Prop :=
  depth p' = depth p /\ path (lex p') = path (lex p) /\ stmts p <= stmts p' <= MaxStatements.

Definition stmt_post (p : parser) (r : Stmt * parser) : Prop :=
  let '(s, p') := r in
  (meas p' < meas p)%nat /\ same_depth p p' /\ depth p + stmt_depth s <= MaxNestingDepth
  /\ stmts p' = stmts p + stmt_count s /\ stmt_args_ok s = true.
Definition block_post (p : parser) (r : Stmt * parser) : Prop :=
  let '(s, p') := r in
  (meas p' < meas p)%nat /\ same_depth p p' /\ depth p + stmt_depth s <= MaxNestingDepth
  /\ stmts p' + 1 = stmts p + stmt_count s /\ stmt_args_ok s = true.
Definition body_post (p : parser) (r : list Stmt * parser) : Prop :=
  let '(l, p') := r in
  (meas p' <= meas p)%nat /\ same_depth p p' /\ depth p + stmts_depth l <= MaxNestingDepth
  /\ stmts p' = stmts p + stmts_count l /\ forallb stmt_args_ok l = true
  /\ is_kind tokRBrace (cur p') = true.
Definition call_post (p : parser) (r : Call * parser) : Prop :=
  let '(c, p') := r in
  (meas p' < meas p)%nat /\ same_depth p p' /\ stmts p' = stmts p
  /\ depth p + call_depth c <= MaxNestingDepth /\ value_args_ok (CallValue c) = true.
Definition args_post (n : Z) (p : parser) (r : list Value * parser) : Prop :=
  let '(l, p') := r in
  (meas p' <= meas p)%nat /\ same_depth p p' /\ stmts p' = stmts p
  /\ depth p + values_depth l <= MaxNestingDepth
  /\ n + Z.of_nat (length l) <= MaxArgs /\ forallb value_args_ok l = true.
Definition value_post (p : parser) (r : Value * parser) : Prop :=
  let '(v, p') := r in
  (meas p' < meas p)%nat /\ same_depth p p' /\ stmts p' = stmts p
  /\ depth p + value_depth v <= MaxNestingDepth /\ value_args_ok v = true.

Lemma enterDepth_holds p at_ :
  parser_inv p ->
  holds (fun p' => parser_inv p' /\ meas p' = meas p /\ depth p' = depth p + 1 /\ stmts p' = stmts p
                   /\ path (lex p') = path (lex p) /\ cur p' = cur p) (enterDepth p at_).
Proof.
  intros Hi. unfold enterDepth, parser_inv in *. simpl. case_match; [done|]. simpl. bool_to_prop.
  rewrite Z.gtb_ltb in *. bool_to_prop. split_and!; try done; lia.
Qed.

Lemma countStmt_holds p at_ :
  parser_inv p ->
  holds (fun p' => parser_inv p' /\ meas p' = meas p /\ depth p' = depth p /\ stmts p' = stmts p + 1
                   /\ path (lex p') = path (lex p) /\ cur p' = cur p) (countStmt p at_).
Proof.
  intros Hi. unfold countStmt, parser_inv in *. simpl. case_match; [done|]. simpl.
  rewrite Z.gtb_ltb in *. bool_to_prop. split_and!; try done; lia.
Qed.

Lemma step_inv p p' : parser_inv p -> stepped p p' -> parser_inv p'.
Proof. unfold parser_inv, stepped. intros ? (? & -> & -> & ?). done. Qed.

(** [take H]: advance, keeping what [advance_holds] says in [H]. *)
Ltac take p' H := eapply holds_bind; [apply advance_holds|]; intros p' H.
Ltac live_cur H := apply live_kind in H as ?Hlive; [|done].
Ltac fin := unfold stepped, same_depth, parser_inv, set_depth, leaveDepth, MaxStatements, MaxNestingDepth in *;
            cbn [stmt_post block_post body_post call_post args_post value_post depth stmts lex meas cur peek] in *;
            split_and!; try done; try lia.

Lemma kind_is p k : kind (cur p) = k -> is_kind k (cur p) = true.
Proof. intros. by apply bool_decide_eq_true_2. Qed.

Lemma step_spend p p' k :
  is_kind k (cur p) = true -> k <> tokEOF -> stepped p p' -> (S (meas p') <= meas p)%nat.
Proof. intros H1 H2 (Hm & _). pose proof (live_kind _ _ H1 H2). lia. Qed.

(** *** Calls, arguments, values *)

Definition call_fuel_ok (fuel : nat) : Prop :=
  (forall p n at_ b, parser_inv p -> (2 * meas p + 1 <= fuel)%nat ->
        holds (call_post p) (parseCallTail fuel n at_ b p))
  /\ (forall p n, parser_inv p -> (2 * meas p + 2 <= fuel)%nat ->
        holds (args_post n p) (parseArgs fuel n p))
  /\ (forall p, parser_inv p -> (2 * meas p + 1 <= fuel)%nat -> holds (value_post p) (parseValue fuel p)).

Lemma parseCallTail_step fuel p n at_ b :
  call_fuel_ok fuel -> parser_inv p -> (2 * meas p + 1 <= S fuel)%nat ->
  holds (call_post p) (parseCallTail (S fuel) n at_ b p).
Proof.
  intros (_ & IHa & _) Hi Hf. cbn [parseCallTail].
  destruct (is_kind tokLParen (cur p)) eqn:Ek; [cbn [negb]|done].
  eapply holds_bind; [by apply enterDepth_holds|]. intros p1 (Hi1 & Hm1 & Hd1 & Hs1 & Hp1 & Hc1).
  rewrite <- Hc1 in Ek. take p2 H2. pose proof (step_inv _ _ Hi1 H2) as Hi2.
  pose proof (step_spend _ _ _ Ek ltac:(done) H2) as Hm2.
  apply holds_bind with (P := args_post 0 p2).
  { case_match; [cbn; fin|]. apply IHa; [done|lia]. }
  intros [args p3] (Hm3 & (Hd3 & Hp3 & Hs3) & Hst3 & Hdp & Hn & Ha).
  destruct (is_kind tokRParen (cur p3)) eqn:Er; cbn [negb]; [|by case_match].
  take p4 H4. pose proof (step_spend _ _ _ Er ltac:(done) H4) as Hm4.
  assert (forall p5 t, stepped p4 p5 \/ p5 = p4 -> call_post p (mkCall n args at_ t, leaveDepth p5)) as Hfin.
  { intros p5 t Hp5.
    assert ((meas p5 <= meas p4)%nat /\ depth p5 = depth p4 /\ stmts p5 = stmts p4 /\ path (lex p5) = path (lex p4))
      as (? & ? & ? & ?).
    { destruct Hp5 as [(? & ? & ? & ?)| ->]; [split_and!; try done; lia | done]. }
    destruct H2 as (_ & ? & ? & ?), H4 as (_ & ? & ? & ?).
    unfold stepped, parser_inv in *. unfold call_post, same_depth, leaveDepth, set_depth, meas, call_depth in *.
    cbn [cur peek lex depth stmts value_depth value_args_ok] in *.
    fold (values_depth args). rewrite Ha, andb_true_r.
    split_and!; try lia; try congruence; apply Z.leb_le; lia. }
  case_match; [take p5 H5; apply Hfin; by left | apply Hfin; by right].
Qed.

Lemma parseArgs_step fuel p n :
  call_fuel_ok fuel -> parser_inv p -> (2 * meas p + 2 <= S fuel)%nat ->
  holds (args_post n p) (parseArgs (S fuel) n p).
Proof.
  intros (_ & IHa & IHv) Hi Hf. cbn [parseArgs].
  destruct (n >=? MaxArgs) eqn:En; [done|]. rewrite Z.geb_leb in En. bool_to_prop.
  eapply holds_bind; [apply IHv; [done|lia]|].
  intros [v p1] (Hm1 & (Hd1 & Hp1 & Hs1) & Hst1 & Hv1 & Ha1).
  assert (parser_inv p1) as Hi1 by (unfold parser_inv in *; lia).
  destruct (is_kind tokComma (cur p1)) eqn:Ec.
  - take p2 H2. pose proof (step_inv _ _ Hi1 H2) as Hi2.
    pose proof (step_spend _ _ _ Ec ltac:(done) H2) as Hm2. destruct H2 as (_ & Hd2 & Hs2 & Hp2).
    case_match; [done|].
    eapply holds_bind; [apply (IHa p2 (n + 1)); [done|lia]|].
    intros [l p3] (Hm3 & (Hd3 & Hp3 & Hs3) & Hst3 & Hdp & Hn & Ha).
    cbn [holds args_post]. unfold same_depth, values_depth in *. cbn [foldr length forallb]. rewrite Ha1, Ha.
    split_and!; try lia; congruence.
  - cbn [holds args_post]. unfold same_depth, values_depth. cbn [foldr length forallb]. rewrite Ha1.
    unfold parser_inv in *. split_and!; try lia; congruence.
Qed.

Lemma parseValue_step fuel p :
  call_fuel_ok fuel -> parser_inv p -> (2 * meas p + 1 <= S fuel)%nat ->
  holds (value_post p) (parseValue (S fuel) p).
Proof.
  intros (IHc & _ & _) Hi Hf. cbn [parseValue].
  assert (forall k v, is_kind k (cur p) = true -> k <> tokEOF -> value_depth v = 0 -> value_args_ok v = true ->
            holds (value_post p) (let? p' := advance p in Ok (v, p'))) as Hlit.
  { intros k v Hk Hne Hv Ha. take p1 H1. pose proof (step_spend _ _ _ Hk Hne H1).
    destruct H1 as (_ & ? & ? & ?). cbn [holds value_post]. unfold same_depth, parser_inv in *. rewrite Hv.
    split_and!; try done; lia. }
  destruct (kind (cur p)) eqn:Ek; try done; pose proof (kind_is _ _ Ek) as Hk; try (by eapply Hlit).
  - take p1 H1. pose proof (step_inv _ _ Hi H1) as Hi1.
    pose proof (step_spend _ _ _ Hk ltac:(done) H1) as Hm1. destruct H1 as (_ & Hd1 & Hs1 & Hp1).
    case_match.
    + eapply holds_bind; [apply IHc; [done|lia]|].
      intros [c p2] (Hm2 & (Hd2 & Hp2 & Hs2) & Hst2 & Hdp & Ha).
      cbn [holds value_post]. unfold same_depth, call_depth in *. split_and!; try done; try lia; congruence.
    + cbn [holds value_post value_depth value_args_ok]. unfold same_depth, parser_inv in *.
      split_and!; try done; lia.
  - unfold parseNumberLit. repeat case_match; try done; simplify_eq; by eapply Hlit.
Qed.

Lemma call_fuel_ok_all fuel : call_fuel_ok fuel.
Proof.
  induction fuel as [|fuel IH]; [unfold call_fuel_ok; split_and!; intros; lia|].
  split_and!; intros; [by apply parseCallTail_step | by apply parseArgs_step | by apply parseValue_step].
Qed.

(** *** Statements and blocks *)

Definition stmt_fuel_ok (fuel : nat) : Prop :=
  (forall p, parser_inv p -> (2 * meas p + 1 <= fuel)%nat -> holds (stmt_post p) (parseStmt fuel p))
  /\ (forall p n id at_, parser_inv p -> (2 * meas p + 1 <= fuel)%nat ->
        holds (block_post p) (parseBlock fuel n id at_ p))
  /\ (forall p at_, parser_inv p -> (2 * meas p + 2 <= fuel)%nat ->
        holds (body_post p) (parseBody fuel at_ p)).

Lemma parseBody_step fuel p at_ :
  stmt_fuel_ok fuel -> parser_inv p -> (2 * meas p + 2 <= S fuel)%nat ->
  holds (body_post p) (parseBody (S fuel) at_ p).
Proof.
  intros (IHs & _ & IHb) Hi Hf. cbn [parseBody].
  destruct (is_kind tokRBrace (cur p)) eqn:Er.
  { cbn [holds body_post stmts_depth stmts_count foldr forallb]. unfold same_depth, parser_inv in *.
    split_and!; try done; lia. }
  case_match; [done|].
  eapply holds_bind; [apply IHs; [done|lia]|].
  intros [s p1] (Hm1 & (Hd1 & Hp1 & Hs1) & Hdp1 & Hc1 & Ha1).
  assert (parser_inv p1) as Hi1 by (unfold parser_inv in *; lia).
  eapply holds_bind; [apply IHb; [done|lia]|].
  intros [l p2] (Hm2 & (Hd2 & Hp2 & Hs2) & Hdp2 & Hc2 & Ha2 & Hr2).
  cbn [holds body_post]. unfold same_depth, stmts_depth, stmts_count in *. cbn [foldr forallb].
  rewrite Ha1, Ha2. split_and!; try done; try lia; congruence.
Qed.

Lemma parseBlock_step fuel p n id at_ :
  stmt_fuel_ok fuel -> parser_inv p -> (2 * meas p + 1 <= S fuel)%nat ->
  holds (block_post p) (parseBlock (S fuel) n id at_ p).
Proof.
  intros (_ & _ & IHb) Hi Hf. cbn [parseBlock].
  destruct (is_kind tokLBrace (cur p)) eqn:Ek; [cbn [negb]|done].
  eapply holds_bind; [by apply enterDepth_holds|]. intros p1 (Hi1 & Hm1 & Hd1 & Hs1 & Hp1 & Hc1).
  rewrite <- Hc1 in Ek. take p2 H2. pose proof (step_inv _ _ Hi1 H2) as Hi2.
  pose proof (step_spend _ _ _ Ek ltac:(done) H2) as Hm2. destruct H2 as (_ & Hd2 & Hs2 & Hp2).
  eapply holds_bind; [apply (IHb p2); [done|lia]|].
  intros [l p3] (Hm3 & (Hd3 & Hp3 & Hs3) & Hdp3 & Hc3 & Ha3 & Hr3).
  take p4 H4. pose proof (step_spend _ _ _ Hr3 ltac:(done) H4) as Hm4. destruct H4 as (_ & Hd4 & Hs4 & Hp4).
  apply holds_bind with (P := fun p5 => (meas p5 <= meas p4)%nat /\ depth p5 = depth p4
      /\ stmts p5 = stmts p4 /\ path (lex p5) = path (lex p4)).
  { case_match; [|cbn [holds]; auto].
    eapply holds_impl; [apply advance_holds|]. intros p5 (? & ? & ? & ?). split_and!; try done; lia. }
  intros p5 (Hm5 & Hd5 & Hs5 & Hp5).
  cbn [holds block_post stmt_depth stmt_count stmt_args_ok].
  unfold same_depth, leaveDepth, set_depth, meas, stmts_depth, stmts_count, parser_inv in *.
  cbn [cur peek lex depth stmts]. split_and!; try done; try lia; congruence.
Qed.

Lemma parseStmt_step fuel p :
  stmt_fuel_ok fuel -> parser_inv p -> (2 * meas p + 1 <= S fuel)%nat ->
  holds (stmt_post p) (parseStmt (S fuel) p).
Proof.
  intros (_ & IHb & _) Hi Hf. cbn [parseStmt].
  destruct (is_kind tokIdent (cur p)) eqn:Ek; [cbn [negb]|done].
  eapply holds_bind; [by apply countStmt_holds|]. intros p1 (Hi1 & Hm1 & Hd1 & Hs1 & Hp1 & Hc1).
  rewrite <- Hc1 in Ek. take p2 H2. pose proof (step_inv _ _ Hi1 H2) as Hi2.
  pose proof (step_spend _ _ _ Ek ltac:(done) H2) as Hm2. destruct H2 as (_ & Hd2 & Hs2 & Hp2).
  assert (forall q n id at_, parser_inv q -> (meas q <= meas p2)%nat -> depth q = depth p2 -> stmts q = stmts p2 ->
      path (lex q) = path (lex p2) -> holds (stmt_post p) (parseBlock fuel n id at_ q)) as Hblock.
  { intros q n id at_ Hiq Hmq Hdq Hsq Hpq. eapply holds_impl; [apply IHb; [done|lia]|].
    intros [s p3] (Hm3 & (Hd3 & Hp3 & Hs3) & Hdp3 & Hc3 & Ha3). unfold stmt_post, same_depth.
    split_and!; try done; try lia; congruence. }
  destruct (kind (cur p2)) eqn:E2; try done.
  - pose proof (kind_is _ _ E2) as Ek2. take p3 H3. pose proof (step_inv _ _ Hi2 H3) as Hi3.
    case_match; [done|]. destruct H3 as (? & ? & ? & ?). apply Hblock; try done; lia.
  - eapply holds_bind; [apply (call_fuel_ok_all fuel); [done|lia]|].
    intros [c p3] (Hm3 & (Hd3 & Hp3 & Hs3) & Hst3 & Hdp & Ha).
    cbn [holds stmt_post stmt_depth stmt_count stmt_args_ok]. unfold same_depth in *.
    split_and!; try done; try lia; congruence.
  - by apply Hblock.
Qed.

Lemma stmt_fuel_ok_all fuel : stmt_fuel_ok fuel.
Proof.
  induction fuel as [|fuel IH]; [unfold stmt_fuel_ok; split_and!; intros; lia|].
  split_and!; intros; [by apply parseStmt_step | by apply parseBlock_step | by apply parseBody_step].
Qed.

(** *** Files *)

Definition stmts_post (p : parser) (r : list Stmt * parser) : Prop :=
  let '(l, p') := r in
  depth p + stmts_depth l <= MaxNestingDepth /\ stmts p + stmts_count l <= MaxStatements
  /\ forallb stmt_args_ok l = true /\ path (lex p') = path (lex p).

Lemma parseStmts_holds fuel p :
  parser_inv p -> (2 * meas p + 2 <= fuel)%nat -> holds (stmts_post p) (parseStmts fuel p).
Proof.
  revert p. induction fuel as [|fuel IH]; intros p Hi Hf; [lia|]. cbn [parseStmts]. case_match.
  { cbn [holds stmts_post stmts_depth stmts_count foldr forallb]. unfold parser_inv in *.
    split_and!; try done; lia. }
  eapply holds_bind; [apply (stmt_fuel_ok_all fuel); [done|lia]|].
  intros [s p1] (Hm1 & (Hd1 & Hp1 & Hs1) & Hdp1 & Hc1 & Ha1).
  eapply holds_bind; [apply IH; [unfold parser_inv in *; lia|lia]|].
  intros [l p2] (Hdp2 & Hc2 & Ha2 & Hp2). cbn [holds stmts_post].
  unfold stmts_depth, stmts_count in *. cbn [foldr forallb]. rewrite Ha1, Ha2.
  split_and!; try done; try lia; congruence.
Qed.

Lemma parseVersion_holds p :
  parser_inv p ->
  holds (fun r => 1 <= r.1 /\ parser_inv r.2 /\ (meas r.2 <= meas p)%nat /\ depth r.2 = depth p
                  /\ stmts r.2 = stmts p /\ path (lex r.2) = path (lex p)) (parseVersion p).
Proof.
  intros Hi. unfold parseVersion.
  take p1 Ht1. pose proof (step_inv _ _ Hi Ht1) as Hi1. case_match; [done|].
  take p2 Ht2. pose proof (step_inv _ _ Hi1 Ht2) as Hi2. case_match; [done|].
  destruct (Atoi _) as [n|]; [|done]. case_match; [done|]. bool_to_prop.
  take p3 Ht3. pose proof (step_inv _ _ Hi2 Ht3) as Hi3. unfold stepped in *. case_match.
  - take p4 Ht4. pose proof (step_inv _ _ Hi3 Ht4) as Hi4. unfold stepped in *. cbn [holds fst snd].
    split_and!; try done; try lia. intuition congruence.
  - cbn [holds fst snd]. split_and!; try done; try lia. intuition congruence.
Qed.

(** What every accepted file satisfies. *)
Definition file_within_limits (f : File) : Prop :=
  0 <= Version f
  /\ stmts_depth (Stmts f) <= MaxNestingDepth
  /\ stmts_count (Stmts f) <= MaxStatements
  /\ forallb stmt_args_ok (Stmts f) = true.

Lemma parseFile_holds fuel p :
  depth p = 0 -> stmts p = 0 -> (2 * meas p + 2 <= fuel)%nat ->
  holds (fun f => FilePath f = path (lex p) /\ file_within_limits f) (parseFile fuel p).
Proof.
  intros Hd Hs Hf. unfold parseFile.
  assert (parser_inv p) as Hi by (unfold parser_inv, MaxNestingDepth, MaxStatements; lia).
  apply holds_bind with (P := fun r => 0 <= r.1 /\ parser_inv r.2 /\ (meas r.2 <= meas p)%nat
      /\ depth r.2 = depth p /\ stmts r.2 = stmts p /\ path (lex r.2) = path (lex p)).
  { case_match; [|cbn [holds fst snd]; split_and!; try done; lia].
    eapply holds_impl; [by apply parseVersion_holds|]. intros r (? & ? & ? & ? & ? & ?).
    split_and!; try done; lia. }
  intros [ver p1] (Hv & Hi1 & Hm1 & Hd1 & Hs1 & Hp1). cbn [fst snd] in *.
  eapply holds_bind; [apply parseStmts_holds; [done|lia]|].
  intros [l p2] (Hdp & Hc & Ha & Hp2). cbn [holds FilePath]. unfold file_within_limits. cbn [Version Stmts].
  rewrite Hd1, Hs1, Hd, Hs in *. split_and!; try done; lia.
Qed.

Lemma runes_length s : (length (runes s) <= String.length s)%nat.
Proof.
  remember (String.length s) as n eqn:Hn. assert (String.length s <= n)%nat as Hle by lia. clear Hn.
  revert s Hle. induction n as [|n IH]; intros s Hle; [by destruct s; [|simpl in Hle; lia]|].
  destruct s as [|c s]; [simpl; lia|].
  pose proof (DecodeRune_width (String c s) ltac:(done)) as Hw.
  rewrite runes_cons by done. cbn [length]. apply le_n_S, IH. rewrite slen_drop. lia.
Qed.

Definition start (path src : string) : parser := mkParser (newLexer path src) zero_token zero_token 0 0.

Lemma Parse_holds path src :
  holds (fun f => slen src <= MaxSourceBytes /\ find_nul src 1 1 = None
                  /\ FilePath f = path /\ file_within_limits f) (Parse path src).
Proof.
  unfold Parse. case_match eqn:Es; [done|]. rewrite Z.gtb_ltb in Es. bool_to_prop.
  case_match; [done|]. fold (start path src).
  assert (parser_inv (start path src)) as Hi
    by (unfold parser_inv, start, MaxNestingDepth, MaxStatements; simpl; lia).
  assert (meas (start path src) <= String.length src)%nat as Hm by (apply runes_length).
  take p1 Ht1. take p2 Ht2. destruct Ht1 as (? & ? & ? & ?), Ht2 as (? & ? & ? & ?).
  eapply holds_impl; [apply parseFile_holds|].
  - by simplify_eq/=; congruence.
  - by simplify_eq/=; congruence.
  - unfold parse_fuel. lia.
  - intros f [Hp Hl]. split_and!; try done. rewrite Hp. simplify_eq/=. congruence.
Qed.

(** C39: Parsing always returns a tree or a diagnostic: the fuel is enough for
    every source text. *)
Theorem Parse_total path src : Parse path src <> Err OutOfFuel.
Proof. pose proof (Parse_holds path src) as H. by destruct (Parse path src) as [|[]]. Qed.

(** C40: An accepted source respects every limit of [limits.go]. *)
Theorem Parse_limits path src f :
  Parse path src = Ok f ->
  slen src <= MaxSourceBytes /\ find_nul src 1 1 = None /\ FilePath f = path /\ file_within_limits f.
Proof. intros E. pose proof (Parse_holds path src) as H. by rewrite E in H. Qed.
End facts.

Lemma Parse_limits_witness :
  let f := mkFile "p" 0 [SCall (mkCall "a"
             [CallValue (mkCall "b" [NumberLit "1" 1 false (mkPos 1 5)] (mkPos 1 3) false)] (mkPos 1 1) true)] in
  slen "a(b(1));" <= MaxSourceBytes /\ find_nul "a(b(1));" 1 1 = None /\ FilePath f = "p" /\ file_within_limits f.
Proof.
  intros f. apply (@Parse_limits ascii_unicode (fun _ => None) "p" "a(b(1));" f). vm_compute. reflexivity.
Defined.
