(* ===== verification/ConfEmit.v ===== *)
(** * conf: the emitter

    Models [src/conf/emit.go]. A function that writes to the shared
    [strings.Builder] returns the text it appends. *)

From S2P Require Import Prelude GoStrings ConfSyntax ConfLexer.
Open Scope Z_scope.

Record EmitOptions := mkEmitOptions { Indent : string }.

Definition nl : string := String "010"%char "".
Definition dquote : string := String "034"%char "".
Definition backslash : string := String "092"%char "".

Definition indent (o : EmitOptions) : string :=
  if bool_decide (Indent o = "") then "  " else Indent o.

Definition escapeRune (r : rune) : string :=
  if r =? quote then backslash +:+ dquote
  else if r =? ch "\" then backslash +:+ backslash
  else if r =? 10 then backslash +:+ "n"
  else if r =? 9 then backslash +:+ "t"
  else if r =? 13 then backslash +:+ "r"
  else EncodeRune r.

Definition escapeString (s : string) : string :=
  foldr (fun r acc => escapeRune r +:+ acc) "" (runes s).

Fixpoint emitValue (v : Value) : string :=
  match v with
  | StringLit s _ => dquote +:+ escapeString s +:+ dquote
  | NumberLit t _ _ _ => t
  | BoolLit b _ => if b then "true" else "false"
  | IdentLit n _ => n
  | CallValue (mkCall n args _ _) => n +:+ "(" +:+ Join (map emitValue args) ", " +:+ ")"
  end.
Definition emitCall (c : Call) : string := emitValue (CallValue c).

Fixpoint emitStmt (stmt : Stmt) (depth : nat) (opts : EmitOptions) : string :=
  let ind := Repeat (indent opts) depth in
  match stmt with
  | SBlock name id body _ =>
      ind +:+ name +:+ (if bool_decide (id = "") then "" else " " +:+ id) +:+ " {" +:+ nl
      +:+ foldr (fun s acc => emitStmt s (S depth) opts +:+ acc) "" body
      +:+ ind +:+ "}" +:+ nl
  | SCall c => ind +:+ emitCall c +:+ nl
  end.

Definition is_block (s : Stmt) : bool := match s with SBlock _ _ _ _ => true | SCall _ => false end.

(** The statement loop of [Emit], with the blank line between two blocks. *)
Fixpoint emitStmts (l : list Stmt) (opts : EmitOptions) : string :=
  match l with
  | [] => ""
  | s :: l' =>
      emitStmt s 0 opts
      +:+ match l' with
          | s' :: _ => if is_block s && is_block s' then nl else ""
          | [] => ""
          end
      +:+ emitStmts l' opts
  end.

Definition Emit (f : File) (opts : EmitOptions) : string :=
  let b := (if Version f >? 0 then "@version: " +:+ Itoa (Version f) +:+ nl +:+ nl else "")
           +:+ emitStmts (Stmts f) opts in
  if (slen b >? 0) && negb (HasSuffix b nl) then b +:+ nl else b.

(** The builders the lowering code uses. *)
Definition CallStmt (name : string) (args : list string) : Call :=
  mkCall name (map (fun a => StringLit a noPos) args) noPos false.
Definition CallStmtBool (name : string) (v : bool) : Call :=
  mkCall name [BoolLit v noPos] noPos false.
Definition Int (n : Z) : Value := NumberLit (Itoa n) n false noPos.
Definition CallStmtInt (name : string) (v : Z) : Call := mkCall name [Int v] noPos false.
Definition Nested (name : string) (args : list Value) : Value := CallValue (mkCall name args noPos false).
Definition Str (s : string) : Value := StringLit s noPos.
Definition Bool_ (v : bool) : Value := BoolLit v noPos.
