(* ===== verification/ConfRoundtrip.v ===== *)
(** * conf: printing then parsing

    The token stream of emitted text, the tree the parser builds from that
    stream, and the round trip [Parse (Emit f) = f] up to positions. *)

From S2P Require Import Prelude GoStrings ConfSyntax ConfLexer ConfParser ConfEmit.
Open Scope Z_scope.

(** ** Printable trees *)

(** The encoding of scalar values, none of them NUL. *)
Definition text_ok (s : string) : bool :=
  bool_decide (string_of_runes (runes s) = s) && valid_runes (runes s)
  && forallb (fun r => negb (r =? 0)) (runes s).

Section wf.
Context `{U : Unicode} `{F : FloatText}.

Definition ident_ok (n : string) : bool :=
  text_ok n && forallb isIdentPart (runes n) && (slen n <=? MaxIdentBytes)
  && match runes n with r :: _ => isIdentStart r && negb (IsDigit r) | [] => false end.
(** A name that is not read back as a boolean. *)
Definition name_ok (n : string) : bool :=
  ident_ok n && negb (bool_decide (n = "true")) && negb (bool_decide (n = "false")).
Definition string_ok (s : string) : bool := text_ok s && (slen s <=? MaxStringBytes).

(** The text of a number: what the lexer scans as one number token, whose
    value is the one the literal holds. *)
Definition num_ok (t : string) (i : Z) (is_float : bool) : bool :=
  text_ok t
  && match runes t with r :: _ => (r =? ch "-") || IsDigit r | [] => false end
  && match scanNumber "" noPos (runes t) noPos with
     | Ok (tok, [], _) => bool_decide (text tok = t)
     | _ => false
     end
  && (if stringsContainsDot t then is_float && bool_decide (float_text t = Some i)
      else negb is_float && bool_decide (Atoi t = Some i)).

Fixpoint value_ok (v : Value) : bool :=
  match v with
  | StringLit s _ => string_ok s
  | NumberLit t i f _ => num_ok t i f
  | BoolLit _ _ => true
  | IdentLit n _ => name_ok n
  | CallValue (mkCall n args _ _) => name_ok n && forallb value_ok args
  end.
Fixpoint stmt_ok (s : Stmt) : bool :=
  match s with
  | SCall c => value_ok (CallValue c)
  | SBlock n id body _ => name_ok n && (bool_decide (id = "") || name_ok id) && forallb stmt_ok body
  end.
End wf.

(** Trees without positions and without the optional-semicolon mark. *)
Fixpoint erase_value (v : Value) : Value :=
  match v with
  | StringLit s _ => StringLit s noPos
  | NumberLit t i f _ => NumberLit t i f noPos
  | BoolLit b _ => BoolLit b noPos
  | IdentLit n _ => IdentLit n noPos
  | CallValue (mkCall n args _ _) => CallValue (mkCall n (map erase_value args) noPos false)
  end.
Fixpoint erase_stmt (s : Stmt) : Stmt :=
  match s with
  | SCall (mkCall n args _ _) => SCall (mkCall n (map erase_value args) noPos false)
  | SBlock n id body _ => SBlock n id (map erase_stmt body) noPos
  end.

Lemma erase_stmt_count s : stmt_count (erase_stmt s) = stmt_count s.
Proof.
  induction s as [[n args p t]|n id body p HF] using stmt_nested_ind; [done|].
  cbn [erase_stmt stmt_count]. f_equal. induction HF as [|s l Hs HF IH]; simpl; [done|]. by rewrite Hs, IH.
Qed.

(** ** Token streams *)

Definition tok := (tokenKind * string)%type.
Definition tok_of (t : token) : tok := (kind t, text t).

Fixpoint value_toks (v : Value) : list tok :=
  match v with
  | StringLit s _ => [(tokString, s)]
  | NumberLit t _ _ _ => [(tokNumber, t)]
  | BoolLit b _ => [if b then (tokTrue, "true") else (tokFalse, "false")]
  | IdentLit n _ => [(tokIdent, n)]
  | CallValue (mkCall n args _ _) =>
      (tokIdent, n) :: (tokLParen, "(")
      :: (fix go (l : list Value) : list tok :=
            match l with
            | [] => []
            | [v] => value_toks v
            | v :: l => value_toks v ++ (tokComma, ",") :: go l
            end) args ++ [(tokRParen, ")")]
  end.
Fixpoint args_toks (l : list Value) : list tok :=
  match l with
  | [] => []
  | [v] => value_toks v
  | v :: l => value_toks v ++ (tokComma, ",") :: args_toks l
  end.
Fixpoint stmt_toks (s : Stmt) : list tok :=
  match s with
  | SCall c => value_toks (CallValue c)
  | SBlock n id body _ =>
      (tokIdent, n) :: (if bool_decide (id = "") then [] else [(tokIdent, id)])
      ++ (tokLBrace, "{") :: foldr (fun s acc => stmt_toks s ++ acc) [] body ++ [(tokRBrace, "}")]
  end.
Definition stmts_toks (l : list Stmt) : list tok := foldr (fun s acc => stmt_toks s ++ acc) [] l.

Lemma call_toks_eq n args p t :
  value_toks (CallValue (mkCall n args p t))
  = (tokIdent, n) :: (tokLParen, "(") :: args_toks args ++ [(tokRParen, ")")].
Proof. reflexivity. Qed.

Section streams.
Context `{U : Unicode}.

(** [toks l ts]: the tokens of the lexer are [ts], then the end of input. *)
Inductive toks : lexer -> list tok -> Prop :=
| toks_eof l t l' : next l = Ok (t, l') -> tok_of t = (tokEOF, "") -> rest l' = [] -> toks l []
| toks_cons l t l' k s ts :
    next l = Ok (t, l') -> tok_of t = (k, s) -> k <> tokEOF -> toks l' ts -> toks l ((k, s) :: ts).

(** The same, of a text at any position of any file. *)
Definition Toks (s : string) (ts : list tok) : Prop :=
  forall fp p, toks (mkLexer fp (runes s) p) ts.

Lemma toks_next_eq l l' ts : next l = next l' -> toks l' ts -> toks l ts.
Proof. intros E H. inversion H; subst; [eapply toks_eof | eapply toks_cons]; eauto; by rewrite E. Qed.

Lemma next_at_token fp r rs p :
  at_token (r :: rs) = true ->
  next (mkLexer fp (r :: rs) p) =
    (if r =? 0 then Err (WithLimit (lex_err fp p NullByteInSource))
     else match punct r with
          | Some (k, t) => Ok (mkTok k t p, mkLexer fp rs (advance_pos r p))
          | None =>
              let? (tok, rs, p) :=
                if r =? ch "@" then scanAt fp p (r :: rs) p
                else if r =? quote then scanString fp p (r :: rs) p
                else if (r =? ch "-") || IsDigit r then scanNumber fp p (r :: rs) p
                else if isIdentStart r then scanIdent fp p (r :: rs) p
                else Err (lex_err fp p (UnexpectedCharacter r)) in
              Ok (tok, mkLexer fp rs p)
          end).
Proof.
  intros H. unfold next. cbn [rest at_ path length skipSpaceAndComments].
  unfold at_token in H. rewrite !andb_true_iff, !negb_true_iff in H.
  destruct H as [[-> ->] H]. destruct (r =? ch "/") eqn:E; [|done]. simpl in H.
  by destruct rs as [|r2 rs]; [|rewrite H].
Qed.

Lemma Toks_nil : Toks "" [].
Proof. intros fp p. by eapply toks_eof. Qed.

Lemma Toks_blank c s ts :
  is_blank (byte_val c) = true -> byte_val c < 128 -> Toks s ts -> Toks (String c s) ts.
Proof.
  intros Hb Hc H fp p. rewrite runes_ascii by done.
  eapply toks_next_eq; [|apply H]. unfold next. cbn [rest at_ length skipSpaceAndComments]. by rewrite Hb.
Qed.

Lemma Toks_punct c k t s ts :
  punct (byte_val c) = Some (k, t) -> at_token [byte_val c] = true -> (byte_val c =? 0) = false ->
  byte_val c < 128 -> (byte_val c =? ch "/") = false ->
  Toks s ts -> Toks (String c s) ((k, t) :: ts).
Proof.
  intros Hp Ha Hz Hc Hs H fp p. rewrite runes_ascii by done.
  eapply toks_cons; [rewrite next_at_token| | |apply H].
  - by rewrite Hz, Hp.
  - unfold at_token in *. rewrite Hs in *. done.
  - done.
  - by eapply punct_not_eof.
Qed.

Definition starts_ident (s : string) : bool :=
  match runes s with r :: _ => isIdentPart r | [] => false end.

Lemma text_ok_runes a b : text_ok a = true -> runes (a +:+ b) = (runes a ++ runes b)%list.
Proof.
  unfold text_ok. intros H. bool_to_prop. rewrite <- H at 1. by apply runes_string_of_runes.
Qed.

Lemma scanIdentText_app fp start rs k p b :
  valid_runes rs = true -> forallb isIdentPart rs = true ->
  match k with r :: _ => isIdentPart r = false | [] => True end ->
  slen (b +:+ string_of_runes rs) <= MaxIdentBytes ->
  exists p', scanIdentText fp start (rs ++ k) p b = Ok (b +:+ string_of_runes rs, k, p').
Proof.
  revert p b. induction rs as [|r rs IH]; intros p b Hv Hi Hk Hl.
  - exists p. cbn [app string_of_runes foldr]. rewrite sapp_nil_r.
    destruct k as [|r k]; [done|]. simpl. case_match; congruence.
  - cbn [forallb valid_runes app scanIdentText string_of_runes foldr] in *.
    fold (string_of_runes rs) in *.
    apply andb_true_iff in Hv as [Hr Hv]. apply andb_true_iff in Hi as [Hir Hi]. rewrite Hir.
    unfold slen in *. rewrite <- sapp_assoc, !slen_app in Hl.
    pose proof (RuneLen_Encode r Hr) as HR.
    replace (Z.of_nat (String.length b) + RuneLen r >? MaxIdentBytes) with false
      by (symmetry; rewrite Z.gtb_ltb; apply Z.ltb_ge; lia).
    destruct (IH (advance_pos r p) (b +:+ EncodeRune r)) as [p' ->]; try done.
    { unfold slen. rewrite !slen_app. lia. }
    exists p'. by rewrite sapp_assoc.
Qed.

(** A rune that may start a name, a number or a string is none of the runes
    [next] tests for before those. *)
Ltac not_rune H := match goal with
  | |- context [?r =? ?c] => destruct (Z.eqb_spec r c) as [->|]; [by vm_compute in H|]
  end.

Definition plain_start (r : rune) : Prop :=
  is_blank r = false /\ (r =? ch "#") = false /\ (r =? ch "/") = false /\ (r =? 0) = false
  /\ punct r = None /\ (r =? ch "@") = false.

Lemma ident_start_plain r :
  isIdentStart r = true ->
  plain_start r /\ (r =? quote) = false /\ (r =? ch "-") = false.
Proof. intros H. unfold plain_start, punct, is_blank. repeat not_rune H. done. Qed.
Lemma digit_plain r : IsDigit r = true -> plain_start r /\ (r =? quote) = false.
Proof. intros H. unfold plain_start, punct, is_blank. repeat not_rune H. done. Qed.

Lemma plain_at_token r rs : plain_start r -> at_token (r :: rs) = true.
Proof. intros (H1 & H2 & H3 & _). simpl. by rewrite H1, H2, H3. Qed.

Lemma ident_ok_inv n :
  ident_ok n = true ->
  exists r rs, runes n = r :: rs /\ text_ok n = true /\ string_of_runes (runes n) = n
    /\ valid_runes (runes n) = true /\ forallb isIdentPart (runes n) = true
    /\ slen n <= MaxIdentBytes /\ isIdentStart r = true /\ IsDigit r = false.
Proof.
  unfold ident_ok. rewrite !andb_true_iff. intros (((Ht & Hi) & Hl) & Hs).
  destruct (runes n) as [|r rs] eqn:E; [done|]. exists r, rs. rewrite <- E in *.
  apply andb_true_iff in Hs as [Hs1 Hs2%negb_true_iff]. apply Z.leb_le in Hl.
  pose proof Ht as Ht'. unfold text_ok in Ht'. rewrite !andb_true_iff, bool_decide_eq_true in Ht'.
  intuition.
Qed.

(** The head of the following text does not continue a name or a number. *)
Definition delimited (s : string) : Prop :=
  match runes s with
  | r :: _ => isIdentPart r = false /\ (r =? ch ".") = false
  | [] => True
  end.

Lemma Toks_ident n s ts :
  name_ok n = true -> delimited s -> Toks s ts -> Toks (n +:+ s) ((tokIdent, n) :: ts).
Proof.
  unfold name_ok. rewrite !andb_true_iff, !negb_true_iff, !bool_decide_eq_false.
  intros ((Hn & Ht) & Hf) Hd H fp p.
  destruct (ident_ok_inv n Hn) as (r & rs & Er & Htx & Hs & Hv & Hi & Hl & Hst & Hdg).
  rewrite text_ok_runes by done.
  destruct (scanIdentText_app fp p (runes n) (runes s) p "") as [p' Ep]; try done.
  { unfold delimited in Hd. destruct (runes s); tauto. }
  { by rewrite Hs. }
  destruct (ident_start_plain r Hst) as (Hpl & Hq & Hm).
  rewrite Er in *. cbn [app] in *. eapply toks_cons; [| | |apply H].
  - rewrite next_at_token by by apply plain_at_token.
    destruct Hpl as (_ & _ & _ & -> & -> & ->). rewrite Hq, Hm, Hdg, Hst. cbn [orb].
    unfold scanIdent. rewrite Ep, Hs. cbn [String.append rbind].
    rewrite !bool_decide_eq_false_2 by done. reflexivity.
  - done.
  - done.
Qed.

Lemma Toks_bool (b : bool) s ts :
  delimited s -> Toks s ts ->
  Toks ((if b then "true" else "false") +:+ s) ((if b then (tokTrue, "true") else (tokFalse, "false")) :: ts).
Proof.
  intros Hd H fp p. unfold delimited in Hd.
  assert (forall b0 q, scanIdentText fp p (runes s) q b0 = Ok (b0, runes s, q)) as Hstop.
  { intros b0 q. destruct (runes s) as [|r k]; [done|]. simpl. by destruct Hd as [-> _]. }
  assert (exists q, scanIdentText fp p (runes ((if b then "true" else "false") +:+ s)) p ""
            = Ok (if b then "true" else "false", runes s, q)) as [q Hq].
  { destruct b; rewrite runes_ascii_app by done; simpl; rewrite Hstop; by eexists. }
  assert (exists r k, runes ((if b then "true" else "false") +:+ s) = r :: k
            /\ isIdentStart r = true /\ IsDigit r = false) as (r & k & Er & Hst & Hdg).
  { destruct b; rewrite runes_ascii_app by done; by eexists _, _. }
  destruct (ident_start_plain r Hst) as (Hpl & Hqt & Hm).
  rewrite Er in *.
  assert (next (mkLexer fp (r :: k) p)
    = Ok (mkTok (if b then tokTrue else tokFalse) (if b then "true" else "false") p, mkLexer fp (runes s) q)) as Hn.
  { rewrite next_at_token by (by apply plain_at_token).
    destruct Hpl as (_ & _ & _ & -> & -> & ->). rewrite Hqt, Hm, Hdg, Hst. cbn [orb].
    unfold scanIdent. rewrite Hq. by destruct b. }
  destruct b; (eapply toks_cons; [exact Hn|done|done|apply H]).
Qed.

(** *** Strings *)

Lemma scanString_escape fp start r t p b :
  ValidRune r = true -> r <> 0 -> slen (b +:+ EncodeRune r) <= MaxStringBytes ->
  exists p', scanStringText fp start (runes (escapeRune r +:+ t)) p b
             = scanStringText fp start (runes t) p' (b +:+ EncodeRune r).
Proof.
  intros Hv Hz Hl. unfold slen in Hl. rewrite slen_app, Nat2Z.inj_add, <- RuneLen_Encode in Hl by done.
  assert ((slen b + RuneLen r >? MaxStringBytes) = false) as Hb
    by (unfold slen; rewrite Z.gtb_ltb; apply Z.ltb_ge; lia).
  unfold escapeRune.
  repeat match goal with
  | |- context [if ?r =? ?c then _ else _] =>
      destruct (Z.eqb_spec r c) as [Hr|?];
        [change c with (byte_val (byte_of c)) in Hr; vm_compute in Hr; subst r;
         eexists; rewrite ?sapp_assoc, !runes_ascii_app by done; simpl;
         match type of Hb with ?x = _ =>
           match goal with |- (if ?y then _ else _) = _ => change y with x end end;
         rewrite Hb; reflexivity|]
  end.
  rewrite runes_Encode by done. eexists. cbn [scanStringText].
  do 4 (match goal with |- context [if r =? ?c then _ else _] => destruct (Z.eqb_spec r c); [done|] end).
  by rewrite Hb.
Qed.

Lemma scanString_escaped fp start rs t p b :
  valid_runes rs = true -> forallb (fun r => negb (r =? 0)) rs = true ->
  slen (b +:+ string_of_runes rs) <= MaxStringBytes ->
  exists p', scanStringText fp start (runes (foldr (fun r acc => escapeRune r +:+ acc) "" rs +:+ t)) p b
             = scanStringText fp start (runes t) p' (b +:+ string_of_runes rs).
Proof.
  revert p b. induction rs as [|r rs IH]; intros p b Hv Hz Hl.
  { exists p. simpl. by rewrite sapp_nil_r. }
  cbn [forallb valid_runes string_of_runes foldr] in *. fold (string_of_runes rs) in *.
  apply andb_true_iff in Hv as [Hr Hv]. apply andb_true_iff in Hz as [Hrz Hz].
  apply negb_true_iff, Z.eqb_neq in Hrz. rewrite <- sapp_assoc in Hl.
  rewrite sapp_assoc.
  destruct (scanString_escape fp start r (foldr (fun r acc => escapeRune r +:+ acc) "" rs +:+ t) p b)
    as [p1 ->]; try done.
  { unfold slen in *. rewrite !slen_app in *. lia. }
  destruct (IH p1 (b +:+ EncodeRune r)) as [p2 ->]; try done.
  exists p2. by rewrite sapp_assoc.
Qed.

Lemma Toks_string v s ts :
  string_ok v = true -> Toks s ts ->
  Toks (dquote +:+ escapeString v +:+ dquote +:+ s) ((tokString, v) :: ts).
Proof.
  unfold string_ok, text_ok. rewrite !andb_true_iff, bool_decide_eq_true.
  intros (((Hs & Hv) & Hz) & Hl) H fp p. apply Z.leb_le in Hl.
  destruct (scanString_escaped fp p (runes v) (dquote +:+ s) (advance_pos quote p) "") as [p1 E1]; try done.
  { by rewrite Hs. }
  change (dquote +:+ escapeString v +:+ dquote +:+ s)
    with (String "034"%char (escapeString v +:+ dquote +:+ s)).
  rewrite runes_ascii by done.
  change (dquote +:+ s) with (String "034"%char s) in *. rewrite (runes_ascii "034"%char s) in E1 by done.
  eapply (toks_cons _ (mkTok tokString v p)); [|reflexivity|done|apply (H fp (advance_pos quote p1))].
  rewrite next_at_token by done. cbn -[scanStringText runes byte_val].
  change (byte_val "034") with quote in *. cbn -[scanStringText runes quote].
  unfold scanString, escapeString. rewrite E1, Hs. reflexivity.
Qed.

(** *** Numbers *)

Lemma scanDigits_app rs k p q b n b' n' rs' p' :
  scanDigits rs p b n = (b', n', rs', p') ->
  match rs' ++ k with r :: _ => IsDigit r = false | [] => True end ->
  exists q', scanDigits (rs ++ k) q b n = (b', n', rs' ++ k, q').
Proof.
  revert p q b n. induction rs as [|r rs IH]; intros p q b n; simpl.
  - intros [= <- <- <- <-]. simpl. destruct k as [|r k]; simpl; intros Hk; [by eexists|].
    rewrite Hk. by eexists.
  - destruct (IsDigit r) eqn:Ed.
    + intros E Hk. exact (IH _ (advance_pos r q) _ _ E Hk).
    + intros [= <- <- <- <-]. by eexists.
Qed.

Lemma scanNumber_app fp0 st0 p0 t p1 fp start rs k q :
  scanNumber fp0 st0 rs p0 = Ok (t, [], p1) -> rs <> [] ->
  match k with r :: _ => IsDigit r = false /\ (r =? ch ".") = false | [] => True end ->
  exists q', scanNumber fp start (rs ++ k) q = Ok (mkTok tokNumber (text t) start, k, q').
Proof.
  intros E Hne Hk. unfold scanNumber in *.
  destruct rs as [|r rs]; [done|]. cbn [app].
  assert (exists b1 rs1 pa qa,
    (if r =? ch "-" then (EncodeRune r, rs, advance_pos r p0) else ("", r :: rs, p0)) = (b1, rs1, pa)
    /\ (if r =? ch "-" then (EncodeRune r, rs ++ k, advance_pos r q) else ("", r :: rs ++ k, q))
       = (b1, rs1 ++ k, qa)) as (b1 & rs1 & pa & qa & Ea & Eb).
  { destruct (r =? ch "-"); by eexists _, _, _, _. }
  rewrite Eb. rewrite Ea in E. clear Ea Eb.
  destruct (scanDigits rs1 pa b1 0) as [[[b2 n2] rs2] pb] eqn:E2.
  destruct (n2 =? 0)%nat eqn:En; [done|].
  assert (match rs2 ++ k with r :: _ => IsDigit r = false | [] => True end) as Hrk.
  { destruct rs2 as [|d rs2]; [destruct k; tauto|]. simpl. clear -E2.
    revert pa b1 E2. generalize 0%nat. induction rs1 as [|x rs1 IH]; intros m pa b1; simpl; [done|].
    destruct (IsDigit x) eqn:Ex; [apply IH | by intros [= _ _ <- _ _]]. }
  destruct (scanDigits_app _ k _ qa _ _ _ _ _ _ E2 Hrk) as [qb ->]. rewrite En.
  destruct rs2 as [|d rs2]; cbn [app] in *.
  - injection E as <- <-. simpl. destruct k as [|r2 k]; [by eexists|].
    destruct Hk as [_ ->]. by eexists.
  - destruct (d =? ch "."); [|done].
    destruct (scanDigits rs2 _ _ 0) as [[[b3 n3] rs3] pc] eqn:E3.
    destruct (n3 =? 0)%nat eqn:En3; [done|]. injection E as <- -> <-.
    destruct (scanDigits_app _ k _ (advance_pos d qb) _ _ _ _ _ _ E3) as [qc ->].
    { simpl. destruct k; tauto. }
    rewrite En3. by eexists.
Qed.

Lemma ident_part_digit r : isIdentPart r = false -> IsDigit r = false.
Proof. unfold isIdentPart. rewrite orb_false_iff. tauto. Qed.

Lemma Toks_number `{F : FloatText} t i f s ts :
  num_ok t i f = true -> delimited s -> Toks s ts -> Toks (t +:+ s) ((tokNumber, t) :: ts).
Proof.
  unfold num_ok. rewrite !andb_true_iff. intros (((Ht & Hh) & Hn) & _) Hd H fp p.
  rewrite text_ok_runes by done.
  destruct (scanNumber "" noPos (runes t) noPos) as [[[tk rs] p1]|] eqn:E; [|done].
  destruct rs; [|done]. apply bool_decide_eq_true in Hn.
  destruct (runes t) as [|r rs] eqn:Er; [done|].
  destruct (scanNumber_app _ _ _ _ _ fp p _ (runes s) p E ltac:(done)) as [q Eq].
  { unfold delimited in Hd. destruct (runes s); [done|]. destruct Hd as [Hd ?].
    split; [by apply ident_part_digit | done]. }
  cbn [app] in *.
  assert (plain_start r /\ (r =? quote) = false) as (Hpl & Hq).
  { apply orb_true_iff in Hh as [->%Z.eqb_eq|Hh]; [done | by apply digit_plain]. }
  eapply (toks_cons _ (mkTok tokNumber t p)); [|reflexivity|done|apply H].
  rewrite next_at_token by (by apply plain_at_token).
  destruct Hpl as (_ & _ & _ & -> & -> & ->). rewrite Hq, Hh, Eq. cbn [rbind]. by rewrite Hn.
Qed.
End streams.

(** ** The tokens of emitted text *)

(** Indentation made of blanks. *)
Fixpoint blank_text (s : string) : bool :=
  match s with "" => true | String c s => is_blank (byte_val c) && blank_text s end.

Section emit.
Context `{U : Unicode} `{F : FloatText}.

Lemma is_blank_ascii r : is_blank r = true -> r < 128.
Proof. unfold is_blank. intros H. repeat (apply orb_true_iff in H as [H|H]); blia. Qed.

Lemma Toks_blanks i s ts : blank_text i = true -> Toks s ts -> Toks (i +:+ s) ts.
Proof.
  induction i as [|c i IH]; simpl; [done|]. rewrite andb_true_iff. intros [Hc Hi] H.
  apply Toks_blank; [done | by apply is_blank_ascii | by apply IH].
Qed.
Lemma Toks_indent i n s ts : blank_text i = true -> Toks s ts -> Toks (Repeat i n +:+ s) ts.
Proof.
  intros Hi H. induction n as [|n IH]; simpl; [done|]. rewrite sapp_assoc. by apply Toks_blanks.
Qed.

Lemma delimited_ascii c s :
  byte_val c < 128 -> isIdentPart (byte_val c) = false -> (byte_val c =? ch ".") = false ->
  delimited (String c s).
Proof. intros. unfold delimited. by rewrite runes_ascii. Qed.

Ltac delim := apply delimited_ascii; done.

Lemma Toks_lparen s ts : Toks s ts -> Toks ("(" +:+ s) ((tokLParen, "(") :: ts).
Proof. by apply Toks_punct. Qed.
Lemma Toks_rparen s ts : Toks s ts -> Toks (")" +:+ s) ((tokRParen, ")") :: ts).
Proof. by apply Toks_punct. Qed.
Lemma Toks_comma s ts : Toks s ts -> Toks (", " +:+ s) ((tokComma, ",") :: ts).
Proof. intros H. apply Toks_punct; try done. by apply Toks_blank. Qed.
Lemma Toks_open s ts : Toks s ts -> Toks (" {" +:+ nl +:+ s) ((tokLBrace, "{") :: ts).
Proof. intros H. apply Toks_blank; [done..|]. apply Toks_punct; try done. by apply Toks_blank. Qed.
Lemma Toks_close s ts : Toks s ts -> Toks ("}" +:+ nl +:+ s) ((tokRBrace, "}") :: ts).
Proof. intros H. apply Toks_punct; try done. by apply Toks_blank. Qed.
Lemma Toks_nl s ts : Toks s ts -> Toks (nl +:+ s) ts.
Proof. by apply Toks_blank. Qed.

Definition emits_value (v : Value) : Prop :=
  value_ok v = true -> forall s ts, delimited s -> Toks s ts ->
  Toks (emitValue v +:+ s) (value_toks v ++ ts).

Lemma Toks_args args s ts :
  Forall emits_value args -> forallb value_ok args = true -> delimited s -> Toks s ts ->
  Toks (Join (map emitValue args) ", " +:+ s) (args_toks args ++ ts).
Proof.
  intros HF. revert s ts. induction HF as [|v args Hv HF IH]; intros s ts Ho Hd H; [done|].
  cbn [forallb] in Ho. apply andb_true_iff in Ho as [Hvo Ho].
  destruct args as [|v2 args]; [by apply Hv|].
  cbn [map Join args_toks]. cbn [map Join args_toks] in IH.
  rewrite !sapp_assoc, <- app_assoc. apply Hv; [done|delim|].
  cbn [app]. apply Toks_comma. apply IH; auto.
Qed.

Lemma Toks_call n args p t s ts :
  Forall emits_value args -> value_ok (CallValue (mkCall n args p t)) = true -> Toks s ts ->
  Toks (emitValue (CallValue (mkCall n args p t)) +:+ s) (value_toks (CallValue (mkCall n args p t)) ++ ts).
Proof.
  intros HF Ho H. cbn [value_ok] in Ho. apply andb_true_iff in Ho as [Hn Ho].
  rewrite call_toks_eq. cbn [emitValue]. rewrite !sapp_assoc. cbn [app]. rewrite <- app_assoc.
  apply Toks_ident; [done|delim|]. apply Toks_lparen.
  apply Toks_args; [done..|delim|]. by apply Toks_rparen.
Qed.

Lemma Toks_value v : emits_value v.
Proof.
  induction v as [v p|t i f p|b p|n p|n args p t HF] using value_nested_ind; intros Ho s ts Hd H;
    cbn [value_ok] in Ho.
  - cbn [emitValue value_toks app]. rewrite !sapp_assoc. by apply Toks_string.
  - by eapply Toks_number.
  - cbn [emitValue value_toks]. by apply Toks_bool.
  - by apply Toks_ident.
  - by apply Toks_call.
Qed.

Definition emits_stmt (o : EmitOptions) (x : Stmt) : Prop :=
  stmt_ok x = true -> forall d s ts, Toks s ts -> Toks (emitStmt x d o +:+ s) (stmt_toks x ++ ts).

Lemma Toks_body o body d s ts :
  Forall (emits_stmt o) body -> forallb stmt_ok body = true -> Toks s ts ->
  Toks (foldr (fun s acc => emitStmt s d o +:+ acc) "" body +:+ s) (stmts_toks body ++ ts).
Proof.
  intros HF. revert s ts. induction HF as [|x body Hx HF IH]; intros s ts Ho H; [done|].
  cbn [forallb] in Ho. apply andb_true_iff in Ho as [Hxo Ho].
  unfold stmts_toks. cbn [foldr]. rewrite sapp_assoc, <- app_assoc. apply Hx; [done|]. by apply IH.
Qed.

Lemma Toks_stmt o x : blank_text (indent o) = true -> emits_stmt o x.
Proof.
  intros Hi. induction x as [c|n id body p HF] using stmt_nested_ind; intros Ho d s ts H.
  - cbn [emitStmt stmt_toks]. rewrite !sapp_assoc. apply Toks_indent; [done|].
    destruct c as [n args p t]. apply Toks_call; [|done|by apply Toks_nl].
    apply Forall_forall. intros v _. apply Toks_value.
  - cbn [stmt_ok] in Ho. rewrite !andb_true_iff in Ho. destruct Ho as [[Hn Hid] Hb].
    cbn [emitStmt stmt_toks]. rewrite !sapp_assoc. apply Toks_indent; [done|].
    assert (forall u us, Toks u us -> Toks (foldr (fun s acc => emitStmt s (S d) o +:+ acc) "" body
        +:+ Repeat (indent o) d +:+ "}" +:+ nl +:+ u) (stmts_toks body ++ (tokRBrace, "}") :: us)) as Hbody.
    { intros u us Hu. apply Toks_body; [done..|]. apply Toks_indent; [done|]. by apply Toks_close. }
    cbn [app]. apply Toks_ident; [done|destruct (bool_decide (id = "")); delim|].
    case_bool_decide as Hide; cbn [app].
    + simpl (_ +:+ _) at 1. cbn [String.append]. apply Toks_open. rewrite <- app_assoc. by apply Hbody.
    + cbn [orb] in Hid. rewrite sapp_assoc. apply Toks_blank; [done..|]. cbn [String.append].
      apply Toks_ident; [done|delim|]. apply Toks_open. rewrite <- app_assoc. by apply Hbody.
Qed.

Lemma Toks_stmts o l s ts :
  blank_text (indent o) = true -> forallb stmt_ok l = true -> Toks s ts ->
  Toks (emitStmts l o +:+ s) (stmts_toks l ++ ts).
Proof.
  intros Hi. revert s ts. induction l as [|x l IH]; intros s ts Ho H; [done|].
  cbn [forallb] in Ho. apply andb_true_iff in Ho as [Hx Ho].
  unfold stmts_toks. cbn [foldr emitStmts]. rewrite !sapp_assoc, <- app_assoc.
  apply Toks_stmt; [done..|]. fold (stmts_toks l).
  destruct l as [|y l]; [by apply IH|]. destruct (is_block x && is_block y); [apply Toks_nl|]; by apply IH.
Qed.
End emit.

(** ** The tree parsed from a token stream *)

Definition hd_tok (ts : list tok) : tok := match ts with t :: _ => t | [] => (tokEOF, "") end.

Section parse.
Context `{U : Unicode} `{F : FloatText}.

(** The parser's two-token window in front of the stream [ts]. *)
Definition pstream (p : parser) (ts : list tok) : Prop :=
  tok_of (cur p) = hd_tok ts /\ tok_of (peek p) = hd_tok (tail ts) /\ toks (lex p) (tail (tail ts)).

Lemma toks_end l : rest l = [] -> toks l [].
Proof.
  destruct l as [fp rs p]. cbn [rest]. intros ->. by eapply (toks_eof _ (mkTok tokEOF "" p)).
Qed.

Lemma advance_ok p ts :
  pstream p ts -> exists p', advance p = Ok p' /\ pstream p' (tail ts) /\ stepped p p'.
Proof.
  intros (Hc & Hp & Ht). pose proof (advance_holds p) as Hs. unfold advance in *.
  inversion Ht as [l t l' En Et Er E1 E2|l t l' k s ts' En Et Hk Ht' E1 E2].
  - rewrite En in *. eexists. split; [done|]. split; [|exact Hs].
    unfold pstream. cbn [cur peek lex]. rewrite <- E2. simpl. split_and!; try done. by apply toks_end.
  - rewrite En in *. eexists. split; [done|]. split; [|exact Hs].
    unfold pstream. cbn [cur peek lex]. rewrite <- E2. simpl. done.
Qed.

Lemma pstream_kind p ts k : pstream p ts -> (is_kind k (cur p) = true <-> (hd_tok ts).1 = k).
Proof. intros (Hc & _). unfold is_kind, tok_of in *. rewrite bool_decide_eq_true, <- Hc. done. Qed.
Lemma pstream_is p k s ts : pstream p ((k, s) :: ts) -> is_kind k (cur p) = true.
Proof. intros H. by apply (pstream_kind _ _ _ H). Qed.
Lemma pstream_not p ts k : pstream p ts -> (hd_tok ts).1 <> k -> is_kind k (cur p) = false.
Proof. intros H Hk. apply not_true_iff_false. by rewrite (pstream_kind _ _ _ H). Qed.
Lemma pstream_cur p t ts : pstream p (t :: ts) -> kind (cur p) = t.1 /\ text (cur p) = t.2.
Proof. intros (Hc & _). unfold tok_of in Hc. simpl in Hc. by subst t. Qed.

(** One [advance], with the stream and the measure it leaves. *)
Ltac adv H p' Hs :=
  let E := fresh "E" in let Hst := fresh "Hst" in
  destruct (advance_ok _ _ H) as (p' & E & Hs & Hst); rewrite E; cbn [rbind tail] in *; clear E.

Lemma value_toks_head v ts :
  (hd_tok (value_toks v ++ ts)).1 ∈ [tokString; tokNumber; tokTrue; tokFalse; tokIdent].
Proof. destruct v as [| |[]| |[n args p t]]; simpl; set_solver. Qed.
Lemma value_head_ne v ts k :
  k ∉ [tokString; tokNumber; tokTrue; tokFalse; tokIdent] -> (hd_tok (value_toks v ++ ts)).1 <> k.
Proof. intros Hk <-. by pose proof (value_toks_head v ts). Qed.

Lemma args_head_rparen v args ts : (hd_tok (args_toks (v :: args) ++ ts)).1 <> tokRParen.
Proof.
  destruct args; cbn [args_toks]; rewrite <- ?app_assoc; apply value_head_ne;
    rewrite list_elem_of_In; simpl; intuition discriminate.
Qed.

Definition parses_value (v : Value) : Prop :=
  forall fuel p ts,
    value_ok v = true -> value_args_ok v = true ->
    pstream p (value_toks v ++ ts) -> (hd_tok ts).1 <> tokLParen ->
    parser_inv p -> depth p + value_depth v <= MaxNestingDepth -> (2 * meas p + 1 <= fuel)%nat ->
    exists v' p', parseValue fuel p = Ok (v', p') /\ pstream p' ts /\ erase_value v' = erase_value v.

Lemma parses_literal v k t (mk : Pos -> Value) :
  value_toks v = [(k, t)] -> k <> tokEOF ->
  (forall q, erase_value (mk q) = erase_value v) ->
  (forall fuel p, kind (cur p) = k -> text (cur p) = t ->
     parseValue (S fuel) p = (let? p' := advance p in Ok (mk (pos (cur p)), p'))) ->
  parses_value v.
Proof.
  intros Ht Hk He Hp fuel p ts _ _ Hs _ Hi _ Hf. rewrite Ht in Hs. cbn [app] in Hs.
  destruct (pstream_cur _ _ _ Hs) as [Hck Hct].
  destruct fuel as [|fuel]; [lia|]. rewrite Hp by done. adv Hs p1 Hs1. by eexists _, _.
Qed.

Lemma parses_args args n fuel p ts :
  Forall parses_value args -> args <> [] -> forallb value_ok args = true -> forallb value_args_ok args = true ->
  pstream p (args_toks args ++ (tokRParen, ")") :: ts) ->
  n + Z.of_nat (length args) <= MaxArgs ->
  parser_inv p -> depth p + values_depth args <= MaxNestingDepth -> (2 * meas p + 2 <= fuel)%nat ->
  exists l p', parseArgs fuel n p = Ok (l, p') /\ pstream p' ((tokRParen, ")") :: ts)
               /\ map erase_value l = map erase_value args.
Proof.
  intros HF. revert n fuel p. induction HF as [|v args Hv HF IH]; intros n fuel p Hne Ho Ha Hs Hn Hi Hd Hf; [done|].
  destruct fuel as [|fuel]; [lia|]. simpl (parseArgs _ _ _). cbn [forallb length] in *.
  apply andb_true_iff in Ho as [Hvo Ho]. apply andb_true_iff in Ha as [Hva Ha].
  unfold values_depth in Hd. cbn [foldr] in Hd. fold (values_depth args) in Hd.
  replace (n >=? MaxArgs) with false by (symmetry; rewrite Z.geb_leb; apply Z.leb_gt; lia).
  assert (exists us, args_toks (v :: args) ++ (tokRParen, ")") :: ts = value_toks v ++ us
            /\ us = match args with [] => (tokRParen, ")") :: ts
                    | _ => (tokComma, ",") :: args_toks args ++ (tokRParen, ")") :: ts end) as (us & Eus & Hus).
  { destruct args; cbn [args_toks]; rewrite <- ?app_assoc; by eexists. }
  rewrite Eus in Hs.
  destruct (Hv fuel p us) as (v' & p1 & E1 & Hs1 & Hv'); try done; [by subst us; destruct args|lia|lia|].
  pose proof (proj2 (proj2 (call_fuel_ok_all fuel)) p Hi ltac:(lia)) as Hpost.
  rewrite E1 in Hpost. rewrite E1. cbn [rbind holds value_post] in *. destruct Hpost as (Hm1 & (Hd1 & _ & _) & Hst1 & _).
  destruct args as [|v2 args].
  - subst us. rewrite (pstream_not _ _ tokComma Hs1) by done. eexists _, _. split; [done|].
    split; [done|]. simpl. by rewrite Hv'.
  - subst us. rewrite (pstream_is _ _ _ _ Hs1). adv Hs1 p2 Hs2.
    destruct Hst as (Hm2 & Hd2 & Hst2 & _).
    rewrite (pstream_not _ _ tokRParen Hs2) by apply args_head_rparen.
    destruct (IH (n + 1) fuel p2) as (l & p3 & E3 & Hs3 & Hl); try done.
    { cbn [length] in *. lia. }
    { unfold parser_inv in *. rewrite Hd2, Hst2, Hd1, Hst1. done. }
    { rewrite Hd2, Hd1. lia. }
    { lia. }
    rewrite E3. cbn [rbind]. eexists _, _. split; [done|]. split; [done|]. simpl. rewrite Hv'. f_equal. exact Hl.
Qed.

Lemma parses_call n args q t fuel p ts at_ b :
  Forall parses_value args ->
  value_ok (CallValue (mkCall n args q t)) = true -> value_args_ok (CallValue (mkCall n args q t)) = true ->
  pstream p ((tokLParen, "(") :: args_toks args ++ (tokRParen, ")") :: ts) ->
  (b = true -> (hd_tok ts).1 <> tokSemicolon) ->
  parser_inv p -> depth p + call_depth (mkCall n args q t) <= MaxNestingDepth -> (2 * meas p + 1 <= fuel)%nat ->
  exists args' p', parseCallTail fuel n at_ b p = Ok (mkCall n args' at_ false, p') /\ pstream p' ts
                   /\ map erase_value args' = map erase_value args.
Proof.
  intros HF Ho Ha Hs Hsem Hi Hd Hf. cbn [value_ok value_args_ok] in Ho, Ha.
  apply andb_true_iff in Ho as [_ Ho]. apply andb_true_iff in Ha as [Hc Ha]. apply Z.leb_le in Hc.
  unfold call_depth in Hd. cbn [value_depth] in Hd. fold (values_depth args) in Hd.
  destruct fuel as [|fuel]; [lia|]. simpl (parseCallTail _ _ _ _ _). rewrite (pstream_is _ _ _ _ Hs). cbn [negb].
  assert (0 <= values_depth args) as Hvd by (clear; unfold values_depth; induction args; simpl; lia).
  unfold enterDepth. cbn [set_depth depth].
  replace (depth p + 1 >? MaxNestingDepth) with false by (symmetry; rewrite Z.gtb_ltb; apply Z.ltb_ge; lia).
  cbn [rbind]. assert (pstream (set_depth p (depth p + 1)) ((tokLParen, "(") :: args_toks args ++ (tokRParen, ")") :: ts)) as Hs0 by exact Hs.
  pose proof (pstream_is _ _ _ _ Hs) as Hk. apply live_kind in Hk; [|done].
  adv Hs0 p1 Hs1. destruct Hst as (Hm1 & Hd1 & Hst1 & _).
  unfold meas in Hm1 at 2. cbn [cur peek lex set_depth depth stmts] in Hm1, Hd1, Hst1. fold (meas p) in Hm1.
  assert (parser_inv p1) as Hi1 by (unfold parser_inv in *; lia).
  assert (exists l p2, (if is_kind tokRParen (cur p1) then Ok ([], p1) else parseArgs fuel 0 p1) = Ok (l, p2)
    /\ pstream p2 ((tokRParen, ")") :: ts) /\ map erase_value l = map erase_value args) as (l & p2 & E2 & Hs2 & Hl).
  { destruct args as [|v args].
    - rewrite (pstream_is _ _ _ _ Hs1). by eexists _, _.
    - rewrite (pstream_not _ _ tokRParen Hs1) by apply args_head_rparen.
      apply parses_args; try done; lia. }
  rewrite E2. cbn [rbind]. rewrite (pstream_is _ _ _ _ Hs2). cbn [negb].
  adv Hs2 p3 Hs3. destruct b; [rewrite (pstream_not _ _ tokSemicolon Hs3) by auto|];
    by eexists _, _.
Qed.

Lemma parses_value_all v : parses_value v.
Proof.
  induction v as [v q|t i f q|b q|n q|n args q t HF] using value_nested_ind.
  - apply (parses_literal _ tokString v (StringLit v)); try done.
    intros fuel p Hk Ht. simpl (parseValue _ _). by rewrite Hk, Ht.
  - intros fuel p ts Ho Ha Hs _ Hi _ Hf. cbn [value_toks app] in Hs.
    destruct (pstream_cur _ _ _ Hs) as [Hck Hct]. destruct fuel as [|fuel]; [lia|].
    cbn [value_ok] in Ho. unfold num_ok in Ho. rewrite !andb_true_iff in Ho. destruct Ho as [_ Ho].
    simpl (parseValue _ _). rewrite Hck. cbn [fst]. unfold parseNumberLit. cbn [snd] in Hct. rewrite Hct.
    destruct (stringsContainsDot t); apply andb_true_iff in Ho as [Hfl Hv%bool_decide_eq_true]; rewrite Hv;
      adv Hs p1 Hs1; eexists _, _; (split; [done|]); (split; [done|]); destruct f; done.
  - apply (parses_literal _ (if b then tokTrue else tokFalse) (if b then "true" else "false") (BoolLit b));
      try (by destruct b). intros fuel p Hk Ht. simpl (parseValue _ _). unfold is_kind.
    rewrite Hk. by destruct b.
  - intros fuel p ts Ho Ha Hs Hlp Hi _ Hf. cbn [value_toks app] in Hs.
    destruct (pstream_cur _ _ _ Hs) as [Hck Hct]. destruct fuel as [|fuel]; [lia|].
    simpl (parseValue _ _). rewrite Hck, Hct. cbn [fst snd]. adv Hs p1 Hs1.
    rewrite (pstream_not _ _ tokLParen Hs1) by done. by eexists _, _.
  - intros fuel p ts Ho Ha Hs _ Hi Hd Hf. rewrite call_toks_eq in Hs.
    cbn [app] in Hs. rewrite <- app_assoc in Hs. cbn [app] in Hs.
    destruct (pstream_cur _ _ _ Hs) as [Hck Hct]. destruct fuel as [|fuel]; [lia|].
    simpl (parseValue _ _). rewrite Hck, Hct. cbn [fst snd].
    pose proof (pstream_is _ _ _ _ Hs) as Hk. apply live_kind in Hk; [|done].
    adv Hs p1 Hs1. destruct Hst as (Hm1 & Hd1 & Hst1 & _).
    rewrite (pstream_is _ _ _ _ Hs1).
    destruct (parses_call n args q t fuel p1 ts (pos (cur p)) false) as (args' & p2 & E & Hs2 & Hl); try done.
    { unfold parser_inv in *. by rewrite Hd1, Hst1. }
    { rewrite Hd1. exact Hd. }
    { lia. }
    rewrite E. cbn [rbind]. eexists _, _. split; [done|]. split; [done|].
    cbn [erase_value]. by rewrite Hl.
Qed.

(** *** Statements *)

Lemma stmt_toks_head s ts : (hd_tok (stmt_toks s ++ ts)).1 = tokIdent.
Proof. by destruct s as [|[n args p t]]. Qed.

Definition parses_stmt (s : Stmt) : Prop :=
  forall fuel p ts,
    stmt_ok s = true -> stmt_args_ok s = true ->
    pstream p (stmt_toks s ++ ts) -> (hd_tok ts).1 <> tokSemicolon ->
    parser_inv p -> depth p + stmt_depth s <= MaxNestingDepth -> stmts p + stmt_count s <= MaxStatements ->
    (2 * meas p + 1 <= fuel)%nat ->
    exists s' p', parseStmt fuel p = Ok (s', p') /\ pstream p' ts /\ erase_stmt s' = erase_stmt s.

Lemma stmt_count_pos s : 1 <= stmt_count s.
Proof.
  induction s as [c|n id body p HF] using stmt_nested_ind; [done|]. cbn [stmt_count].
  enough (0 <= foldr (fun s n => stmt_count s + n) 0 body) by lia.
  induction HF; simpl; lia.
Qed.
Lemma stmts_count_nonneg l : 0 <= stmts_count l.
Proof. unfold stmts_count. induction l as [|s l IH]; simpl; [lia|]. pose proof (stmt_count_pos s). lia. Qed.
Lemma stmts_depth_nonneg l : 0 <= stmts_depth l.
Proof. unfold stmts_depth. induction l as [|s l IH]; simpl; lia. Qed.

Lemma stmts_toks_no_semicolon l ts :
  (hd_tok ts).1 <> tokSemicolon -> (hd_tok (stmts_toks l ++ ts)).1 <> tokSemicolon.
Proof.
  destruct l as [|s l]; [done|]. unfold stmts_toks. cbn [foldr]. rewrite <- app_assoc.
  by rewrite stmt_toks_head.
Qed.

(** One statement of a list: what the loops of [parseBlock] and [parseFile] share. *)
Lemma parses_next s l fuel p ts :
  parses_stmt s -> forallb stmt_ok (s :: l) = true -> forallb stmt_args_ok (s :: l) = true ->
  pstream p (stmts_toks (s :: l) ++ ts) -> (hd_tok ts).1 <> tokSemicolon ->
  parser_inv p -> depth p + stmts_depth (s :: l) <= MaxNestingDepth ->
  stmts p + stmts_count (s :: l) <= MaxStatements -> (2 * meas p + 1 <= fuel)%nat ->
  exists s' p1, parseStmt fuel p = Ok (s', p1) /\ pstream p1 (stmts_toks l ++ ts)
    /\ erase_stmt s' = erase_stmt s /\ parser_inv p1 /\ (meas p1 < meas p)%nat
    /\ depth p1 + stmts_depth l <= MaxNestingDepth /\ stmts p1 + stmts_count l <= MaxStatements
    /\ is_kind tokIdent (cur p) = true.
Proof.
  intros Hp Ho Ha Hs Hsem Hi Hd Hc Hf. cbn [forallb] in Ho, Ha.
  apply andb_true_iff in Ho as [Hso Ho]. apply andb_true_iff in Ha as [Hsa Ha].
  unfold stmts_toks in Hs. cbn [foldr] in Hs. fold (stmts_toks l) in Hs. rewrite <- app_assoc in Hs.
  unfold stmts_depth, stmts_count in Hd, Hc. cbn [foldr] in Hd, Hc.
  fold (stmts_depth l) in Hd. fold (stmts_count l) in Hc. pose proof (stmts_count_nonneg l) as Hcl.
  assert (is_kind tokIdent (cur p) = true) as Hk by (apply (pstream_kind _ _ _ Hs), stmt_toks_head).
  destruct (Hp fuel p (stmts_toks l ++ ts)) as (s' & p1 & E & Hs1 & He); try done;
    [by apply stmts_toks_no_semicolon|lia|lia|].
  pose proof (proj1 (stmt_fuel_ok_all fuel) p Hi Hf) as Hpost. rewrite E in Hpost.
  cbn [holds stmt_post] in Hpost. destruct Hpost as (Hm & (Hd1 & _ & Hs1') & _ & Hc1 & _).
  assert (stmt_count s' = stmt_count s) as Hcs.
  { rewrite <- (erase_stmt_count s'), <- (erase_stmt_count s). by rewrite He. }
  exists s', p1. split_and!; try done; unfold parser_inv in *; lia.
Qed.

Lemma parses_body body fuel p ts at_ :
  Forall parses_stmt body -> forallb stmt_ok body = true -> forallb stmt_args_ok body = true ->
  pstream p (stmts_toks body ++ (tokRBrace, "}") :: ts) ->
  parser_inv p -> depth p + stmts_depth body <= MaxNestingDepth ->
  stmts p + stmts_count body <= MaxStatements -> (2 * meas p + 2 <= fuel)%nat ->
  exists l p', parseBody fuel at_ p = Ok (l, p') /\ pstream p' ((tokRBrace, "}") :: ts)
               /\ map erase_stmt l = map erase_stmt body.
Proof.
  intros HF. revert fuel p. induction HF as [|s body Hp HF IH]; intros fuel p Ho Ha Hs Hi Hd Hc Hf;
    (destruct fuel as [|fuel]; [lia|]); simpl (parseBody _ _ _).
  - rewrite (pstream_is _ _ _ _ Hs). by eexists _, _.
  - destruct (parses_next s body fuel p _ Hp Ho Ha Hs) as (s' & p1 & E & Hs1 & He & Hi1 & Hm1 & Hd1 & Hc1 & Hk);
      try done; [lia|].
    unfold is_kind in *. apply bool_decide_eq_true in Hk. rewrite Hk. cbn.
    rewrite E. cbn [rbind].
    apply andb_true_iff in Ho as [_ Ho]. apply andb_true_iff in Ha as [_ Ha].
    destruct (IH fuel p1) as (l & p2 & E2 & Hs2 & Hl); try done; [lia|].
    rewrite E2. cbn [rbind]. eexists _, _. split; [done|]. split; [done|].
    simpl. rewrite He. f_equal. exact Hl.
Qed.

Lemma parses_block n id body fuel p ts at_ :
  Forall parses_stmt body -> forallb stmt_ok body = true -> forallb stmt_args_ok body = true ->
  pstream p ((tokLBrace, "{") :: stmts_toks body ++ (tokRBrace, "}") :: ts) ->
  (hd_tok ts).1 <> tokSemicolon ->
  parser_inv p -> depth p + 1 + stmts_depth body <= MaxNestingDepth ->
  stmts p + stmts_count body <= MaxStatements -> (2 * meas p + 1 <= fuel)%nat ->
  exists l p', parseBlock fuel n id at_ p = Ok (SBlock n id l at_, p') /\ pstream p' ts
               /\ map erase_stmt l = map erase_stmt body.
Proof.
  intros HF Ho Ha Hs Hsem Hi Hd Hc Hf. destruct fuel as [|fuel]; [lia|]. simpl (parseBlock _ _ _ _ _).
  rewrite (pstream_is _ _ _ _ Hs). cbn [negb]. pose proof (stmts_depth_nonneg body) as Hn.
  unfold enterDepth. cbn [set_depth depth].
  replace (depth p + 1 >? MaxNestingDepth) with false by (symmetry; rewrite Z.gtb_ltb; apply Z.ltb_ge; lia).
  cbn [rbind].
  assert (pstream (set_depth p (depth p + 1)) ((tokLBrace, "{") :: stmts_toks body ++ (tokRBrace, "}") :: ts))
    as Hs0 by exact Hs.
  pose proof (pstream_is _ _ _ _ Hs) as Hk. apply live_kind in Hk; [|done].
  adv Hs0 p1 Hs1. destruct Hst as (Hm1 & Hd1 & Hst1 & _).
  unfold meas in Hm1 at 2. cbn [cur peek lex set_depth depth stmts] in Hm1, Hd1, Hst1. fold (meas p) in Hm1.
  destruct (parses_body body fuel p1 ts (pos (cur p))) as (l & p2 & E2 & Hs2 & Hl); try done;
    [unfold parser_inv in *; lia|lia|lia|lia|].
  rewrite E2. cbn [rbind]. adv Hs2 p3 Hs3. rewrite (pstream_not _ _ tokSemicolon Hs3) by done. cbn [rbind].
  by eexists _, _.
Qed.

Lemma parses_stmt_all s : parses_stmt s.
Proof.
  induction s as [[n args q t]|n id body q HF] using stmt_nested_ind;
    intros fuel p ts Ho Ha Hs Hsem Hi Hd Hc Hf; cbn [stmt_ok stmt_args_ok stmt_depth stmt_count stmt_toks] in *;
    (destruct fuel as [|fuel]; [lia|]); simpl (parseStmt _ _).
  - rewrite call_toks_eq in Hs. cbn [app] in Hs. rewrite <- app_assoc in Hs. cbn [app] in Hs.
    rewrite (pstream_is _ _ _ _ Hs). cbn [negb]. unfold countStmt. cbn [set_stmts stmts].
    replace (stmts p + 1 >? MaxStatements) with false by (symmetry; rewrite Z.gtb_ltb; apply Z.ltb_ge; lia).
    cbn [rbind]. change (cur (set_stmts p (stmts p + 1))) with (cur p). destruct (pstream_cur _ _ _ Hs) as [_ ->].
    pose proof (pstream_is _ _ _ _ Hs) as Hk. apply live_kind in Hk; [|done].
    change (pstream (set_stmts p (stmts p + 1))
      ((tokIdent, n) :: (tokLParen, "(") :: args_toks args ++ (tokRParen, ")") :: ts)) in Hs.
    adv Hs p1 Hs1. destruct Hst as (Hm1 & Hd1 & Hst1 & _).
    unfold meas in Hm1 at 2. cbn [cur peek lex set_stmts depth stmts] in Hm1, Hd1, Hst1. fold (meas p) in Hm1.
    destruct (pstream_cur _ _ _ Hs1) as [-> _]. cbn [fst snd].
    destruct (parses_call n args q t fuel p1 ts (pos (cur p)) true) as (args' & p2 & E & Hs2 & Hl); try done.
    { apply Forall_forall. intros v _. apply parses_value_all. }
    { unfold parser_inv in *. lia. }
    { by rewrite Hd1. }
    { lia. }
    rewrite E. cbn [rbind]. eexists _, _. split; [done|]. split; [done|]. cbn [erase_stmt]. by rewrite Hl.
  - rewrite !andb_true_iff in Ho. destruct Ho as [_ Ho].
    fold (stmts_depth body) in Hd. fold (stmts_count body) in Hc. fold (stmts_toks body) in Hs.
    pose proof (stmts_count_nonneg body) as Hcn. cbn [app] in Hs.
    rewrite (pstream_is _ _ _ _ Hs). cbn [negb]. unfold countStmt. cbn [set_stmts stmts].
    replace (stmts p + 1 >? MaxStatements) with false by (symmetry; rewrite Z.gtb_ltb; apply Z.ltb_ge; lia).
    cbn [rbind]. change (cur (set_stmts p (stmts p + 1))) with (cur p). destruct (pstream_cur _ _ _ Hs) as [_ ->].
    pose proof (pstream_is _ _ _ _ Hs) as Hk. apply live_kind in Hk; [|done].
    match type of Hs with pstream p ?l => change (pstream (set_stmts p (stmts p + 1)) l) in Hs end.
    adv Hs p1 Hs1. destruct Hst as (Hm1 & Hd1 & Hst1 & _).
    unfold meas in Hm1 at 2. cbn [cur peek lex set_stmts depth stmts] in Hm1, Hd1, Hst1. fold (meas p) in Hm1.
    assert (forall p2, pstream p2 ((tokLBrace, "{") :: stmts_toks body ++ (tokRBrace, "}") :: ts) ->
      (meas p2 <= meas p1)%nat -> depth p2 = depth p1 -> stmts p2 = stmts p1 ->
      exists s' p', parseBlock fuel n id (pos (cur p)) p2 = Ok (s', p') /\ pstream p' ts
                    /\ erase_stmt s' = erase_stmt (SBlock n id body q)) as Hblock.
    { intros p2 Hs2 Hm2 Hd2 Hst2.
      destruct (parses_block n id body fuel p2 ts (pos (cur p))) as (l & p3 & E & Hs3 & Hl); try done;
        [unfold parser_inv in *; lia|lia|lia|lia|].
      eexists _, _. split; [exact E|]. split; [done|]. cbn [erase_stmt]. by rewrite Hl. }
    case_bool_decide as Hid; cbn [app] in Hs1; rewrite <- ?app_assoc in Hs1; cbn [app] in Hs1;
      destruct (pstream_cur _ _ _ Hs1) as [-> Hct]; cbn [fst snd] in *.
    + subst id. by apply Hblock.
    + rewrite Hct. adv Hs1 p2 Hs2.
      rewrite (pstream_is _ _ _ _ Hs2). cbn [negb]. destruct Hst as (Hm2 & Hd2 & Hst2 & _).
      apply Hblock; try done. lia.
Qed.

(** *** Files *)

Lemma parses_stmts l fuel p :
  forallb stmt_ok l = true -> forallb stmt_args_ok l = true -> pstream p (stmts_toks l) ->
  parser_inv p -> depth p + stmts_depth l <= MaxNestingDepth ->
  stmts p + stmts_count l <= MaxStatements -> (2 * meas p + 2 <= fuel)%nat ->
  exists l' p', parseStmts fuel p = Ok (l', p') /\ map erase_stmt l' = map erase_stmt l.
Proof.
  revert fuel p. induction l as [|s l IH]; intros fuel p Ho Ha Hs Hi Hd Hc Hf;
    (destruct fuel as [|fuel]; [lia|]); cbn [parseStmts].
  - rewrite (proj2 (pstream_kind _ _ tokEOF Hs) eq_refl). by eexists _, _.
  - rewrite <- (app_nil_r (stmts_toks (s :: l))) in Hs.
    destruct (parses_next s l fuel p [] (parses_stmt_all s) Ho Ha Hs)
      as (s' & p1 & E & Hs1 & He & Hi1 & Hm1 & Hd1 & Hc1 & Hk); try done; [lia|].
    unfold is_kind in *. apply bool_decide_eq_true in Hk. rewrite Hk. cbn. rewrite E. cbn [rbind].
    rewrite app_nil_r in Hs1. apply andb_true_iff in Ho as [_ Ho]. apply andb_true_iff in Ha as [_ Ha].
    destruct (IH fuel p1) as (l' & p2 & E2 & Hl); try done; [lia|].
    rewrite E2. cbn [rbind]. eexists _, _. split; [done|]. simpl. rewrite He. f_equal. exact Hl.
Qed.
End parse.

(** ** Decimal numbers and NUL bytes in emitted text *)

Section numbers.
Context `{U : Unicode} `{F : FloatText}.

Lemma scanDigits_all ds p b n :
  all_digits ds = true ->
  exists q, scanDigits (bytes ds) p b n = (b +:+ ds, (n + String.length ds)%nat, [], q).
Proof.
  revert p b n. induction ds as [|c ds IH]; intros p b n H.
  - simpl. rewrite sapp_nil_r, Nat.add_0_r. by eexists.
  - cbn [all_digits bytes scanDigits] in *. apply andb_true_iff in H as [Hc H].
    assert (byte_val c < 128) as Hlt by (unfold is_digit_ascii, in_range in Hc; blia).
    assert (IsDigit (byte_val c) = true) as ->.
    { unfold IsDigit. apply Z.ltb_lt in Hlt. by rewrite Hlt. }
    destruct (IH (advance_pos (byte_val c) p) (b +:+ EncodeRune (byte_val c)) (S n) H) as [q ->].
    exists q. rewrite EncodeRune_ascii, sapp_assoc by done. simpl. repeat f_equal. lia.
Qed.

Lemma scanNumber_digits ds p :
  all_digits ds = true -> ds <> "" ->
  exists q, scanNumber "" p (bytes ds) p = Ok (mkTok tokNumber ds p, [], q).
Proof.
  intros H Hne. destruct ds as [|c ds]; [done|]. destruct (scanDigits_all (String c ds) p "" 0 H) as [q Eq].
  unfold scanNumber. cbn [bytes all_digits] in *. apply andb_true_iff in H as [Hc _].
  destruct (Z.eqb_spec (byte_val c) (ch "-")) as [E|_]; [rewrite E in Hc; done|].
  rewrite Eq. by eexists.
Qed.

Lemma digits_no_dot ds : all_digits ds = true -> stringsContainsDot ds = false.
Proof.
  unfold stringsContainsDot. induction ds as [|c ds IH]; [done|]. cbn [all_digits]. rewrite andb_true_iff.
  intros [Hc H]. cbn [Contains HasPrefix]. rewrite (IH H), orb_false_r.
  destruct (bool_decide ("."%char = c)) eqn:E; [|done]. apply bool_decide_eq_true in E. by subst c.
Qed.

Lemma ascii_text_ok s : ascii_only s = true -> no_byte "000" s = true -> text_ok s = true.
Proof.
  intros Ha Hn. unfold text_ok. rewrite runes_ascii_only by done.
  rewrite string_of_bytes by done. rewrite bool_decide_eq_true_2, ascii_valid by done. cbn [andb].
  clear Ha. induction s as [|c s IH]; [done|]. cbn [no_byte bytes forallb] in *.
  apply andb_true_iff in Hn as [Hc Hn]. apply andb_true_iff. split; [|by apply IH].
  apply negb_true_iff, bool_decide_eq_false in Hc. apply negb_true_iff, Z.eqb_neq. intros E. apply Hc.
  rewrite <- (byte_of_val c), E. done.
Qed.

Lemma digits_no_nul ds : all_digits ds = true -> no_byte "000" ds = true.
Proof.
  induction ds as [|c ds IH]; [done|]. cbn [all_digits no_byte]. rewrite !andb_true_iff. intros [Hc H].
  split; [|by apply IH]. apply negb_true_iff, bool_decide_eq_false. intros ->. done.
Qed.

(** [Itoa] prints a number the parser reads back. *)
Lemma Itoa_num_ok z : in_int64 z = true -> num_ok (Itoa z) z false = true.
Proof.
  intros Hz. unfold num_ok. rewrite Atoi_Itoa by done. pose proof (Itoa_ascii z) as Ha.
  rewrite runes_ascii_only by done. unfold Itoa in *. destruct (z <? 0) eqn:E; bool_to_prop.
  - pose proof (itoa_pos_digits (- z) ltac:(lia)) as Hd. set (ds := itoa_pos (- z)) in *.
    rewrite ascii_text_ok by (done || (cbn [no_byte]; by apply digits_no_nul)).
    destruct (scanDigits_all ds (advance_pos 45 noPos) "-" 0 Hd) as [q Eq].
    unfold scanNumber. cbn [bytes]. change (byte_val "-" =? ch "-") with true.
    change (EncodeRune (byte_val "-")) with "-". change (byte_val "-") with 45. cbv iota beta zeta. rewrite Eq.
    destruct ds eqn:Eds; [by destruct (itoa_pos_nonempty (- z))|]. rewrite <- Eds in *. clearbody ds. subst ds.
    cbn [orb andb]. replace (0 + String.length (String a s) =? 0)%nat with false by done.
    cbn [text]. rewrite bool_decide_eq_true_2 by done.
    pose proof (digits_no_dot _ Hd) as Hdot. unfold stringsContainsDot in *.
    change (Contains (String "-" (String a s)) ".") with (Contains (String a s) "."). rewrite Hdot.
    cbn [negb andb]. by apply bool_decide_eq_true.
  - pose proof (itoa_pos_digits z ltac:(lia)) as Hd. pose proof (itoa_pos_nonempty z) as Hne.
    set (ds := itoa_pos z) in *. clearbody ds.
    rewrite ascii_text_ok by (done || by apply digits_no_nul).
    destruct (scanNumber_digits ds noPos Hd Hne) as [q ->]. rewrite digits_no_dot by done.
    destruct ds as [|c ds]; [done|]. cbn [bytes all_digits] in *. apply andb_true_iff in Hd as [Hc _].
    assert (IsDigit (byte_val c) = true) as ->.
    { unfold IsDigit. replace (byte_val c <? 128) with true; [done|].
      symmetry. apply Z.ltb_lt. unfold is_digit_ascii, in_range in Hc. blia. }
    rewrite orb_true_r. cbn [text]. rewrite bool_decide_eq_true_2 by done.
    cbn [negb andb]. by apply bool_decide_eq_true.
Qed.

Lemma byte_of_nonzero z : 0 < z < 256 -> negb (bool_decide (byte_of z = "000"%char)) = true.
Proof.
  intros H. apply negb_true_iff, bool_decide_eq_false. intros E.
  apply (f_equal byte_val) in E. rewrite byte_val_of in E by lia. vm_compute in E. lia.
Qed.
Lemma EncodeRune_no_nul r : ValidRune r = true -> r <> 0 -> no_byte "000" (EncodeRune r) = true.
Proof.
  intros Hv Hz. unfold EncodeRune. rewrite Hv. unfold ValidRune, in_range in Hv.
  assert (0 < r <= 1114111) as Hr by (apply orb_true_iff in Hv as [?|?]; blia).
  assert (forall a, 0 <= (r / a) mod 64 < 64) as Hm by (intros; apply Z.mod_pos_bound; lia).
  pose proof (Z.mod_pos_bound r 64 eq_refl). pose proof (Hm 64). pose proof (Hm 4096).
  repeat case_match; bool_to_prop; cbn [no_byte]; rewrite !byte_of_nonzero; try done; try lia.
  - split; [pose proof (Z.div_pos r 64); lia|]. assert (r / 64 < 64); [apply Z.div_lt_upper_bound; lia|lia].
  - split; [pose proof (Z.div_pos r 4096); lia|]. assert (r / 4096 < 16); [apply Z.div_lt_upper_bound; lia|lia].
  - split; [pose proof (Z.div_pos r 262144); lia|]. assert (r / 262144 < 16); [apply Z.div_lt_upper_bound; lia|lia].
Qed.
End numbers.

(** ** The round trip *)

(** One [advance], with the stream and the measure it leaves. *)
Ltac adv H p' Hs :=
    let E := fresh "E" in let Hst := fresh "Hst" in
    destruct (advance_ok _ _ H) as (p' & E & Hs & Hst); rewrite E; cbn [rbind tail] in *; clear E.

Section roundtrip.
Context `{U : Unicode} `{F : FloatText}.

Definition no_nul (s : string) : Prop := no_byte "000" s = true.

Lemma no_nul_app a b : no_nul a -> no_nul b -> no_nul (a +:+ b).
Proof. unfold no_nul. rewrite no_byte_app. intros -> ->. done. Qed.
Lemma no_nul_runes rs :
  valid_runes rs = true -> forallb (fun r => negb (r =? 0)) rs = true -> no_nul (string_of_runes rs).
Proof.
  induction rs as [|r rs IH]; [done|]. cbn [valid_runes forallb string_of_runes foldr].
  rewrite !andb_true_iff. intros [Hr Hv] [Hz%negb_true_iff%Z.eqb_neq Hnz].
  apply no_nul_app; [by apply EncodeRune_no_nul | by apply IH].
Qed.
Lemma text_ok_no_nul s : text_ok s = true -> no_nul s.
Proof.
  unfold text_ok. rewrite !andb_true_iff, bool_decide_eq_true. intros [[E Hv] Hz].
  rewrite <- E. by apply no_nul_runes.
Qed.
Lemma name_ok_no_nul n : name_ok n = true -> no_nul n.
Proof. unfold name_ok, ident_ok. rewrite !andb_true_iff. intros [[[[[H _] _] _] _] _]. by apply text_ok_no_nul. Qed.

Lemma escape_no_nul s : string_ok s = true -> no_nul (escapeString s).
Proof.
  unfold string_ok, text_ok, escapeString. rewrite !andb_true_iff. intros [[[_ Hv] Hz] _].
  induction (runes s) as [|r rs IH]; [done|]. cbn [valid_runes forallb foldr] in *.
  rewrite !andb_true_iff in Hv, Hz. destruct Hv as [Hr Hv], Hz as [Hrz%negb_true_iff%Z.eqb_neq Hz].
  apply no_nul_app; [|by apply IH]. unfold escapeRune. repeat case_match; try done. by apply EncodeRune_no_nul.
Qed.

Lemma Join_no_nul l sep : no_nul sep -> Forall no_nul l -> no_nul (Join l sep).
Proof.
  intros Hs HF. induction HF as [|x l Hx HF IH]; [done|]. destruct l as [|y l]; [done|].
  change (Join (x :: y :: l) sep) with (x +:+ sep +:+ Join (y :: l) sep). by repeat apply no_nul_app.
Qed.

Lemma emitValue_no_nul v : value_ok v = true -> no_nul (emitValue v).
Proof.
  induction v as [v p|t i f p|b p|n p|n args p t HF] using value_nested_ind; cbn [value_ok emitValue].
  - intros H. repeat apply no_nul_app; try done. by apply escape_no_nul.
  - unfold num_ok. rewrite !andb_true_iff. intros [[[H _] _] _]. by apply text_ok_no_nul.
  - by destruct b.
  - apply name_ok_no_nul.
  - rewrite andb_true_iff, forallb_forall. intros [Hn Ho].
    apply no_nul_app; [by apply name_ok_no_nul|]. repeat apply no_nul_app; try done.
    apply Join_no_nul; [done|]. apply Forall_fmap, Forall_forall. intros v Hv%list_elem_of_In.
    rewrite List.Forall_forall in HF. apply HF; auto.
Qed.

Lemma blank_no_nul i : blank_text i = true -> no_nul i.
Proof.
  induction i as [|c i IH]; [done|]. cbn [blank_text]. rewrite andb_true_iff. intros [Hc H].
  unfold no_nul. cbn [no_byte]. rewrite IH by done. rewrite andb_true_r.
  apply negb_true_iff, bool_decide_eq_false. by intros ->.
Qed.
Lemma Repeat_no_nul i n : no_nul i -> no_nul (Repeat i n).
Proof. intros H. induction n; [done|]. by apply no_nul_app. Qed.

Lemma emitStmt_no_nul o s d :
  blank_text (indent o) = true -> stmt_ok s = true -> no_nul (emitStmt s d o).
Proof.
  intros Hi. revert d. induction s as [c|n id body p HF] using stmt_nested_ind; intros d Ho; cbn [stmt_ok emitStmt] in *.
  - repeat apply no_nul_app; try done; [by apply Repeat_no_nul, blank_no_nul | by apply emitValue_no_nul].
  - rewrite !andb_true_iff, orb_true_iff in Ho. destruct Ho as [[Hn Hid] Hb].
    repeat apply no_nul_app; try done; try (by apply Repeat_no_nul, blank_no_nul); [by apply name_ok_no_nul| |].
    + case_bool_decide; [done|]. destruct Hid as [|Hid]; [done|]. apply no_nul_app; [done|by apply name_ok_no_nul].
    + rewrite forallb_forall in Hb. induction HF as [|s l Hs HF IH]; [done|]. cbn [foldr].
      apply no_nul_app; [apply Hs, Hb; by left|]. apply IH. intros x Hx. apply Hb. by right.
Qed.

Lemma emitStmts_no_nul o l :
  blank_text (indent o) = true -> forallb stmt_ok l = true -> no_nul (emitStmts l o).
Proof.
  intros Hi. induction l as [|s l IH]; [done|]. cbn [forallb emitStmts]. rewrite andb_true_iff. intros [Hs Ho].
  apply no_nul_app; [by apply emitStmt_no_nul|]. apply no_nul_app; [|by apply IH].
  destruct l; [done|]. by destruct (_ && _).
Qed.

Lemma find_nul_none s l c : no_nul s -> find_nul s l c = None.
Proof.
  unfold no_nul. revert l c. induction s as [|b s IH]; intros l c; [done|]. cbn [no_byte find_nul].
  rewrite andb_true_iff, negb_true_iff, bool_decide_eq_false. intros [Hb H].
  destruct (byte_val b =? 0) eqn:E; [|case_match; by apply IH].
  apply Z.eqb_eq in E. rewrite <- (byte_of_val b), E in Hb. done.
Qed.

(** A file that [Emit] prints and the limits admit. *)
Definition file_ok (f : File) : bool :=
  (0 <=? Version f) && in_int64 (Version f)
  && forallb stmt_ok (Stmts f) && forallb stmt_args_ok (Stmts f)
  && (stmts_depth (Stmts f) <=? MaxNestingDepth) && (stmts_count (Stmts f) <=? MaxStatements).

Definition version_toks (v : Z) : list tok :=
  if v >? 0 then [(tokAtVersion, "@version"); (tokColon, ":"); (tokNumber, Itoa v)] else [].

Lemma Toks_version v s ts :
  in_int64 v = true -> Toks s ts ->
  Toks ((if v >? 0 then "@version: " +:+ Itoa v +:+ nl +:+ nl else "") +:+ s) (version_toks v ++ ts).
Proof.
  intros Hv H. unfold version_toks. destruct (v >? 0); [|done]. rewrite !sapp_assoc. cbn [app].
  assert (Toks (Itoa v +:+ nl +:+ nl +:+ s) ((tokNumber, Itoa v) :: ts)) as Hn.
  { eapply Toks_number; [by apply Itoa_num_ok| |by apply Toks_nl, Toks_nl].
    by apply delimited_ascii. }
  assert (Toks (": " +:+ Itoa v +:+ nl +:+ nl +:+ s) ((tokColon, ":") :: (tokNumber, Itoa v) :: ts)) as Hc.
  { apply Toks_punct; try done. by apply Toks_blank. }
  intros fp p. change ("@version: " +:+ Itoa v +:+ nl +:+ nl +:+ s)
    with ("@version" +:+ (": " +:+ Itoa v +:+ nl +:+ nl +:+ s)).
  set (t := ": " +:+ Itoa v +:+ nl +:+ nl +:+ s) in *.
  assert (runes ("@version" +:+ t) = ch "@" :: (bytes "version" ++ runes t)) as -> by by rewrite runes_ascii_app.
  assert (match runes t with r :: _ => isIdentPart r = false | [] => True end) as Ht by by unfold t; rewrite runes_ascii_app.
  destruct (scanIdentText_app fp p (bytes "version") (runes t) (advance_pos (ch "@") p) "") as [q Eq]; try done.
  eapply (toks_cons _ (mkTok tokAtVersion "@version" p)); [|done|done|apply Hc].
  rewrite next_at_token by done. change (ch "@" =? 0) with false. change (punct (ch "@")) with (@None tok).
  change (ch "@" =? ch "@") with true. cbv iota. unfold scanAt. rewrite Eq. reflexivity.
Qed.

Lemma stmts_toks_head l : (hd_tok (stmts_toks l)).1 = tokIdent \/ (hd_tok (stmts_toks l)).1 = tokEOF.
Proof.
  destruct l as [|s l]; [by right|]. left. unfold stmts_toks. cbn [foldr]. apply stmt_toks_head.
Qed.

Lemma parses_version v l p :
  0 <= v -> in_int64 v = true -> pstream p (version_toks v ++ stmts_toks l) -> parser_inv p ->
  exists p', (if is_kind tokAtVersion (cur p) then parseVersion p else Ok (0, p)) = Ok (v, p')
    /\ pstream p' (stmts_toks l) /\ parser_inv p' /\ (meas p' <= meas p)%nat
    /\ depth p' = depth p /\ stmts p' = stmts p /\ path (lex p') = path (lex p).
Proof.
  intros Hv Hv64 Hs Hi. unfold version_toks in Hs. destruct (v >? 0) eqn:Ev; cbn [app] in Hs;
    rewrite Z.gtb_ltb in Ev; bool_to_prop.
  - rewrite (pstream_is _ _ _ _ Hs).
    assert (exists p', parseVersion p = Ok (v, p') /\ pstream p' (stmts_toks l)) as (p' & E & Hs').
    { unfold parseVersion. adv Hs p1 Hs1. rewrite (pstream_is _ _ _ _ Hs1). cbn [negb].
      adv Hs1 p2 Hs2. rewrite (pstream_is _ _ _ _ Hs2). cbn [negb].
      destruct (pstream_cur _ _ _ Hs2) as [_ ->]. cbn [snd]. rewrite Atoi_Itoa by done.
      replace (v <? 1) with false by (symmetry; apply Z.ltb_ge; lia). adv Hs2 p3 Hs3.
      rewrite (pstream_not _ _ tokSemicolon Hs3); [by eexists|].
      destruct (stmts_toks_head l) as [-> | ->]; done. }
    pose proof (parseVersion_holds p Hi) as Hpost. rewrite E in Hpost. cbn [holds fst snd] in Hpost.
    exists p'. destruct Hpost as (_ & ? & ? & ? & ? & ?). done.
  - rewrite (pstream_not _ _ tokAtVersion Hs) by (destruct (stmts_toks_head l) as [-> | ->]; done).
    assert (v = 0) as -> by lia. by eexists.
Qed.

(** C17: Emitting a file and parsing the text gives the file back, up to positions
    and the optional semicolons: the printer and the parser agree on every
    printable tree within the limits. *)
Theorem Parse_Emit fp f o :
  file_ok f = true -> blank_text (indent o) = true -> slen (Emit f o) <= MaxSourceBytes ->
  exists f', Parse fp (Emit f o) = Ok f' /\ FilePath f' = fp /\ Version f' = Version f
             /\ map erase_stmt (Stmts f') = map erase_stmt (Stmts f).
Proof.
  unfold file_ok. rewrite !andb_true_iff, !Z.leb_le. intros (((((Hv & Hv64) & Ho) & Ha) & Hd) & Hc) Hi Hl.
  assert (Toks (Emit f o) (version_toks (Version f) ++ stmts_toks (Stmts f))) as HT.
  { unfold Emit. set (b := _ +:+ emitStmts _ _).
    assert (forall s, Toks s [] -> Toks (b +:+ s) (version_toks (Version f) ++ stmts_toks (Stmts f))) as Hb.
    { intros s Hs. unfold b. rewrite sapp_assoc. apply Toks_version; [done|].
      rewrite <- (app_nil_r (stmts_toks (Stmts f))). by apply Toks_stmts. }
    case_match; [apply Hb, Toks_nl, Toks_nil|]. rewrite <- (sapp_nil_r b). apply Hb, Toks_nil. }
  assert (no_nul (Emit f o)) as Hn.
  { unfold Emit. set (b := _ +:+ emitStmts _ _).
    assert (no_nul b) as Hb; [|case_match; [by apply no_nul_app|done]].
    apply no_nul_app; [|by apply emitStmts_no_nul]. case_match; [|done].
    repeat apply no_nul_app; try done. apply text_ok_no_nul.
    pose proof (Itoa_num_ok _ Hv64) as H1. unfold num_ok in H1. rewrite !andb_true_iff in H1. tauto. }
  unfold Parse. replace (slen (Emit f o) >? MaxSourceBytes) with false
    by (symmetry; rewrite Z.gtb_ltb; apply Z.ltb_ge; lia).
  rewrite find_nul_none by done. fold (start fp (Emit f o)).
  assert (pstream (start fp (Emit f o)) ((tokEOF, "") :: (tokEOF, "") :: version_toks (Version f) ++ stmts_toks (Stmts f)))
    as Hs by (split_and!; try done; apply HT).
  assert (meas (start fp (Emit f o)) <= String.length (Emit f o))%nat as Hm by apply runes_length.
  assert (parser_inv (start fp (Emit f o))) as Hi0
    by (unfold parser_inv, start, MaxNestingDepth, MaxStatements; simpl; lia).
  adv Hs p1 Hs1. pose proof (step_inv _ _ Hi0 Hst) as Hi1. destruct Hst as (Hm1 & Hd1 & Hst1 & Hp1).
  adv Hs1 p2 Hs2. pose proof (step_inv _ _ Hi1 Hst) as Hi2. destruct Hst as (Hm2 & Hd2 & Hst2 & Hp2).
  cbn [start depth stmts lex path newLexer] in Hd1, Hst1, Hp1.
  destruct (parses_version _ _ _ Hv Hv64 Hs2 Hi2) as (p3 & E3 & Hs3 & Hi3 & Hm3 & Hd3 & Hst3 & Hp3).
  destruct (parses_stmts (Stmts f) (parse_fuel (Emit f o)) p3) as (l & p4 & E4 & Hl4); try done;
    [lia|lia|unfold parse_fuel; lia|].
  unfold parseFile, presult in *. rewrite E3. cbn [rbind]. rewrite E4. cbn [rbind].
  eexists. split; [done|]. cbn [FilePath Version Stmts]. split_and!; try done. cbn [start lex newLexer path] in *. congruence.
Qed.
End roundtrip.

(** The round trip at a concrete file: a version, a named block with an
    escaped string, a nested call, a number and a boolean. *)
Definition sample_file : File :=
  mkFile "p" 1
    [SBlock "job" "api"
       [SCall (CallStmtInt "port" (-22)); SCall (CallStmt "path" [dquote +:+ "/"]);
        SCall (mkCall "zone" [Nested "z" [Bool_ true]; IdentLit "a" noPos] noPos false)] noPos;
     SBlock "ssh" "" [] noPos].

Definition no_float : FloatText := fun _ => None.

Lemma Parse_Emit_witness :
  exists f', @Parse ascii_unicode no_float "p" (Emit sample_file (mkEmitOptions "")) = Ok f' /\ FilePath f' = "p"
             /\ Version f' = 1 /\ map erase_stmt (Stmts f') = map erase_stmt (Stmts sample_file).
Proof.
  apply (@Parse_Emit ascii_unicode no_float "p" sample_file (mkEmitOptions "")); vm_compute; congruence.
Defined.
