(* ===== verification/ConfHelpers.v ===== *)
(** * conf: accessors, suggestions and diagnostics (conf/helpers.go, conf/error.go)

    The readers of a parsed file, each with the error it reports, and the
    "did you mean" machinery: [levenshtein] is the two-row dynamic program of
    the source, related below to edit scripts. A hint is a constructor of
    [hint] rather than its English text. *)
From S2P Require Import Prelude GoStrings ConfSyntax ConfEmit.
Open Scope Z_scope.

(** ** Selecting statements; a nil [*File] or [*Block] is [None] *)

Definition isBlock (s : Stmt) : bool := match s with SBlock _ _ _ _ => true | SCall _ => false end.
Definition callOf (s : Stmt) : option Call := match s with SCall c => Some c | SBlock _ _ _ _ => None end.
Definition blockName (s : Stmt) : string := match s with SBlock n _ _ _ => n | SCall _ => "" end.
Definition blockBody (s : Stmt) : list Stmt := match s with SBlock _ _ b _ => b | SCall _ => [] end.
Definition fileStmts (f : option File) : list Stmt := match f with Some f => Stmts f | None => [] end.

Definition TopBlocks (f : option File) : list Stmt := List.filter isBlock (fileStmts f).
Definition TopCalls (f : option File) : list Call := omap callOf (fileStmts f).
Definition Blocks (f : option File) (name : string) : list Stmt :=
  List.filter (fun s => isBlock s && bool_decide (blockName s = name)) (fileStmts f).
Definition Calls (f : option File) (name : string) : list Call :=
  List.filter (fun c => bool_decide (CallName c = name)) (TopCalls f).
Definition bodyOf (b : option Stmt) : list Stmt := match b with Some b => blockBody b | None => [] end.
Definition BodyCalls (b : option Stmt) : list Call := omap callOf (bodyOf b).
Definition BodyBlocks (b : option Stmt) : list Stmt := List.filter isBlock (bodyOf b).

(** ** Typed access to values *)

Definition AsString (v : Value) (path : string) : result Error string :=
  match v with
  | StringLit s _ => Ok s
  | IdentLit n _ => Ok n
  | _ => Err (Err_at path (ValuePos v) ExpectedString)
  end.

Definition AsBool (v : Value) (path : string) : result Error bool :=
  match v with
  | BoolLit b _ => Ok b
  | _ => Err (Err_at path (ValuePos v) ExpectedBool)
  end.

(** [^uint(0)>>1] is the largest [int]; [^int(0)] is -1, not the smallest. *)
Definition AsInt `{Unicode} (v : Value) (path : string) : result Error Z :=
  match v with
  | NumberLit _ n is_float at_ =>
      if is_float then Err (Err_at path at_ ExpectedIntegerGotFloat)
      else if (n >? max_int64) || (n <? Z.lnot 0) then Err (Err_at path at_ IntegerOutOfRange)
      else Ok n
  | StringLit s at_ =>
      match Atoi (TrimSpace s) with
      | None => Err (Err_at path at_ (ExpectedIntegerGotString s))
      | Some n => Ok n
      end
  | _ => Err (Err_at path (ValuePos v) ExpectedInteger)
  end.

Fixpoint asStringsList (args : list Value) (path : string) : result Error (list string) :=
  match args with
  | [] => Ok []
  | a :: args =>
      let? s := AsString a path in
      let? out := asStringsList args path in
      Ok (s :: out)
  end.
Definition AsStrings (c : Call) (path : string) : result Error (list string) :=
  asStringsList (CallArgs c) path.

Definition SingleStringArg (c : Call) (path : string) : result Error string :=
  match CallArgs c with
  | [a] => AsString a path
  | args => Err (Err_at path (CallPos c) (ExpectsOneString (CallName c) (length args)))
  end.
Definition SingleBoolArg (c : Call) (path : string) : result Error bool :=
  match CallArgs c with
  | [a] => AsBool a path
  | args => Err (Err_at path (CallPos c) (ExpectsOneBool (CallName c) (length args)))
  end.
Definition SingleIntArg `{Unicode} (c : Call) (path : string) : result Error Z :=
  match CallArgs c with
  | [a] => AsInt a path
  | args => Err (Err_at path (CallPos c) (ExpectsOneInteger (CallName c) (length args)))
  end.

Definition NestedCall (v : Value) (path : string) : result Error Call :=
  match v with
  | CallValue c => Ok c
  | _ => Err (Err_at path (ValuePos v) ExpectedNestedCall)
  end.

(** ** Edit distance *)

(** The inner loop: [b] and [up] are what is left of the second word and of
    [prev[j..]], [diag] is [prev[j-1]] and [left] is [cur[j-1]]. *)
Fixpoint lev_inner (x : ascii) (b : list ascii) (diag : Z) (up : list Z) (left : Z) : list Z :=
  match b, up with
  | y :: b, u :: up =>
      let cost := if bool_decide (x = y) then 0 else 1 in
      let del := u + 1 in
      let ins := left + 1 in
      let sub := diag + cost in
      let cur := del in
      let cur := if ins <? cur then ins else cur in
      let cur := if sub <? cur then sub else cur in
      cur :: lev_inner x b u up cur
  | _, _ => []
  end.

Definition lev_row (i : Z) (x : ascii) (b : list ascii) (prev : list Z) : list Z :=
  match prev with
  | p0 :: up => i :: lev_inner x b p0 up i
  | [] => [i]
  end.

(** The outer loop, from row [i] on. *)
Fixpoint lev_rows (i : Z) (a b : list ascii) (prev : list Z) : list Z :=
  match a with
  | [] => prev
  | x :: a => lev_rows (i + 1) a b (lev_row i x b prev)
  end.

Definition lev_init (n : nat) : list Z := map Z.of_nat (seq 0 (S n)).

Definition levenshtein (a b : string) : Z :=
  let la := String.list_ascii_of_string a in
  let lb := String.list_ascii_of_string b in
  if bool_decide (a = b) then 0
  else if bool_decide (a = "") then Z.of_nat (length lb)
  else if bool_decide (b = "") then Z.of_nat (length la)
  else default 0 (lev_rows 1 la lb (lev_init (length lb)) !! length lb).

(** ** Suggestions *)

Section suggest.
Context `{Unicode}.

Definition name_distance (name c : string) : Z := levenshtein (ToLower name) (ToLower c).

(** One round of the loop over the candidates, on [(best, bestDist)]. *)
Definition suggestStep (name : string) (st : string * Z) (c : string) : string * Z :=
  let '(best, bestDist) := st in
  let d := name_distance name c in
  if (d <? bestDist) || ((d =? bestDist) && (bool_decide (best = "") || negb (String.leb best c)))
  then (c, d) else (best, bestDist).

(** [None] is the empty hint, [Some c] the hint that names [c]. *)
Definition SuggestClosest (name : string) (candidates : list string) : option string :=
  let best := (foldl (suggestStep name) ("", 3) candidates).1 in
  if bool_decide (best = "") then None else Some best.

Inductive hint := NoHint | DidYouMean (c : string) | KnownSettings (known : list string).

Definition UnknownSetting (path : string) (pos : Pos) (name : string) (known : list string) : Error * hint :=
  let err := Err_at path pos (UnknownSettingNamed name) in
  match SuggestClosest name known with
  | Some c => (err, DidYouMean c)
  | None =>
      if (0 <? Z.of_nat (length known)) && (Z.of_nat (length known) <=? 12)
      then (err, KnownSettings known) else (err, NoHint)
  end.
End suggest.

(** ** The text of a diagnostic *)

Definition spaces (n : Z) : string := Repeat " " (Z.to_nat n).

Definition Error_text (path : string) (line column : Z) (message snippet hint_text : string) : string :=
  (if bool_decide (path <> "") then
     path +:+ (if line >? 0 then ":" +:+ Itoa line +:+ (if column >? 0 then ":" +:+ Itoa column else "") else "")
     +:+ ": "
   else if line >? 0 then
     "line " +:+ Itoa line +:+ (if column >? 0 then ", column " +:+ Itoa column else "") +:+ ": "
   else "")
  +:+ message
  +:+ (if bool_decide (snippet <> "") then
         nl +:+ "    " +:+ snippet +:+ (if column >? 0 then nl +:+ "    " +:+ spaces (column - 1) +:+ "^" else "")
       else "")
  +:+ (if bool_decide (hint_text <> "") then nl +:+ "hint: " +:+ hint_text else "").

(** ** The distance is the cost of the cheapest edit script *)

(** [edits a b n]: a script that turns [a] into [b], read from left to right,
    with [n] insertions, deletions and substitutions. *)
Inductive edits : list ascii -> list ascii -> Z -> Prop :=
| ed_nil : edits [] [] 0
| ed_keep x a b n : edits a b n -> edits (a ++ [x]) (b ++ [x]) n
| ed_del x a b n : edits a b n -> edits (a ++ [x]) b (n + 1)
| ed_ins y a b n : edits a b n -> edits a (b ++ [y]) (n + 1)
| ed_sub x y a b n : edits a b n -> edits (a ++ [x]) (b ++ [y]) (n + 1).

Definition cheapest (a b : list ascii) (n : Z) : Prop :=
  edits a b n /\ forall m, edits a b m -> n <= m.

Lemma edits_nonneg a b n : edits a b n -> 0 <= n.
Proof. induction 1; lia. Qed.

Lemma edits_nil_r_len a b n : edits a b n -> Z.abs (Z.of_nat (length a) - Z.of_nat (length b)) <= n.
Proof. induction 1; rewrite ?length_app; simpl; lia. Qed.

Lemma edits_del_all a : edits a [] (Z.of_nat (length a)).
Proof.
  induction a as [|x a IH] using rev_ind; [constructor|].
  rewrite length_app. simpl. replace (Z.of_nat (length a + 1)) with (Z.of_nat (length a) + 1) by lia. by constructor.
Qed.
Lemma edits_ins_all b : edits [] b (Z.of_nat (length b)).
Proof.
  induction b as [|x b IH] using rev_ind; [constructor|].
  rewrite length_app. simpl. replace (Z.of_nat (length b + 1)) with (Z.of_nat (length b) + 1) by lia. by constructor.
Qed.

Lemma cheapest_del a : cheapest a [] (Z.of_nat (length a)).
Proof. split; [apply edits_del_all|]. intros m Hm%edits_nil_r_len. simpl in Hm. lia. Qed.
Lemma cheapest_ins b : cheapest [] b (Z.of_nat (length b)).
Proof. split; [apply edits_ins_all|]. intros m Hm%edits_nil_r_len. simpl in Hm. lia. Qed.
Lemma cheapest_refl a : cheapest a a 0.
Proof. split; [induction a using rev_ind; by constructor|]. intros m. apply edits_nonneg. Qed.
Lemma cheapest_unique a b n m : cheapest a b n -> cheapest a b m -> n = m.
Proof. intros [H1 H2] [H3 H4]. apply H2 in H3. apply H4 in H1. lia. Qed.

(** The last step of a script between two non-empty words. *)
Lemma edits_snoc_inv s x t y m :
  edits (s ++ [x]) (t ++ [y]) m ->
  (x = y /\ edits s t m) \/ exists n, m = n + 1 /\ (edits s (t ++ [y]) n \/ edits (s ++ [x]) t n \/ edits s t n).
Proof.
  intros H. remember (s ++ [x]) as a eqn:Ea. remember (t ++ [y]) as b eqn:Eb.
  destruct H; [by destruct s| | | |];
    repeat match goal with H : _ ++ [_] = _ ++ [_] |- _ => apply app_inj_tail in H as [-> ->] end;
    subst; eauto 6.
Qed.

Lemma cheapest_step s x t y diag up left :
  cheapest s t diag -> cheapest s (t ++ [y]) up -> cheapest (s ++ [x]) t left ->
  cheapest (s ++ [x]) (t ++ [y])
    (let cost := if bool_decide (x = y) then 0 else 1 in
     let cur := if left + 1 <? up + 1 then left + 1 else up + 1 in
     if diag + cost <? cur then diag + cost else cur).
Proof.
  intros [Hd1 Hd2] [Hu1 Hu2] [Hl1 Hl2]. simpl. split.
  - repeat case_match; bool_to_prop; subst;
      rewrite ?Z.add_0_r;
      first [by apply ed_keep | by apply ed_sub | by apply ed_ins | by apply ed_del].
  - intros m [[-> Hm%Hd2]|(n & -> & [Hm%Hu2|[Hm%Hl2|Hm%Hd2]])]%edits_snoc_inv;
      repeat case_match; bool_to_prop; try lia; congruence.
Qed.

(** [row] holds the cheapest costs from [s] to [t], [t ++ b[:1]], ..., [t ++ b]. *)
Fixpoint row_spec (s t b : list ascii) (row : list Z) {struct row} : Prop :=
  match row with
  | [] => False
  | v :: row =>
      cheapest s t v /\ match b with [] => row = [] | y :: b => row_spec s (t ++ [y]) b row end
  end.

Lemma lev_inner_spec s x b : forall t diag up left,
  row_spec s t b (diag :: up) -> cheapest (s ++ [x]) t left ->
  row_spec (s ++ [x]) t b (left :: lev_inner x b diag up left).
Proof.
  induction b as [|y b IH]; intros t diag up left [Hd Hup] Hl; [by simpl|].
  destruct up as [|u up]; [by destruct Hup|]. split; [done|]. cbn [lev_inner].
  apply IH; [done|]. apply cheapest_step; [done|apply Hup|done].
Qed.

Lemma lev_rows_spec b : forall a s prev i,
  row_spec s [] b prev -> i = Z.of_nat (length s) + 1 -> row_spec (s ++ a) [] b (lev_rows i a b prev).
Proof.
  induction a as [|x a IH]; intros s prev i Hrow ->; simpl; [by rewrite app_nil_r|].
  replace (s ++ x :: a) with ((s ++ [x]) ++ a) by (by rewrite <- app_assoc).
  apply IH; [|rewrite length_app; simpl; lia].
  destruct prev as [|p0 up]; [done|]. cbn [lev_row]. apply lev_inner_spec; [done|].
  replace (Z.of_nat (length s) + 1) with (Z.of_nat (length (s ++ [x])))
    by (rewrite length_app; simpl; lia). apply cheapest_del.
Qed.

Lemma lev_init_spec b : forall t, row_spec [] t b (map Z.of_nat (seq (length t) (S (length b)))).
Proof.
  induction b as [|y b IH]; intros t; simpl; (split; [apply cheapest_ins|]); [done|].
  specialize (IH (t ++ [y])). rewrite length_app in IH. simpl in IH.
  by replace (length t + 1)%nat with (S (length t)) in IH by lia.
Qed.

Lemma row_spec_last s b : forall t row,
  row_spec s t b row -> exists v, row !! length b = Some v /\ cheapest s (t ++ b) v.
Proof.
  induction b as [|y b IH]; intros t [|v row]; try done; intros [Hv Hrow]; simpl.
  - exists v. by rewrite app_nil_r.
  - apply IH in Hrow as (w & Hw & Hc). exists w. by rewrite <- app_assoc in Hc.
Qed.

Lemma levenshtein_cheapest a b :
  cheapest (String.list_ascii_of_string a) (String.list_ascii_of_string b) (levenshtein a b).
Proof.
  unfold levenshtein. repeat case_bool_decide; subst; try apply cheapest_refl;
    try apply cheapest_ins; try apply cheapest_del.
  set (la := String.list_ascii_of_string a). set (lb := String.list_ascii_of_string b).
  pose proof (lev_rows_spec lb la [] _ 1 (lev_init_spec lb []) eq_refl) as Hr.
  apply row_spec_last in Hr as (v & Hv & Hc). change (lev_rows 1 la lb (lev_init (length lb)) !! length lb = Some v) in Hv. by rewrite Hv.
Qed.

(** The two-row computation of [levenshtein] is the number of insertions,
    deletions and substitutions of the cheapest edit script between the two
    words: a script of that cost exists and none is cheaper. *)
Theorem levenshtein_correct a b n :
  levenshtein a b = n <->
  edits (String.list_ascii_of_string a) (String.list_ascii_of_string b) n /\
  forall m, edits (String.list_ascii_of_string a) (String.list_ascii_of_string b) m -> n <= m.
Proof.
  split; [intros <-; apply levenshtein_cheapest|].
  intros H. eapply cheapest_unique; [apply levenshtein_cheapest|exact H].
Qed.

(** ** Suggestions name a closest candidate *)

Section suggest_facts.
Context `{Unicode}.

(** [best] of the loop state after the candidates [seen]. *)
Definition best_so_far (name : string) (seen : list string) (st : string * Z) : Prop :=
  (st = ("", 3) /\ forall c, c ∈ seen -> 3 < name_distance name c) \/
  (st.1 <> "" /\ st.1 ∈ seen /\ st.2 = name_distance name st.1 /\ st.2 <= 3 /\
   forall c, c ∈ seen -> st.2 < name_distance name c \/ (st.2 = name_distance name c /\ String.le st.1 c)).

Lemma not_leb_le b c : String.leb b c = false -> String.le c b.
Proof.
  intros E. destruct (String.leb_total b c) as [E'|E']; [congruence|]. unfold String.le. by rewrite E'.
Qed.
Lemma leb_le b c : String.leb b c = true -> String.le b c.
Proof. unfold String.le. by intros ->. Qed.

Lemma suggestStep_inv name seen st c :
  c <> "" -> best_so_far name seen st -> best_so_far name (seen ++ [c]) (suggestStep name st c).
Proof.
  intros Hc Hb. destruct st as [best d0]. unfold suggestStep. set (d := name_distance name c).
  destruct ((d <? d0) || ((d =? d0) && (bool_decide (best = "") || negb (String.leb best c)))) eqn:E.
  - assert (d < d0 \/ (d = d0 /\ (best = "" \/ String.le c best))) as E'.
    { apply orb_true_iff in E as [E|E]; [left; blia|]. apply andb_true_iff in E as [Ed E].
      right. split; [blia|]. apply orb_true_iff in E as [E|E]; bool_to_prop; [by left|right; by apply not_leb_le]. }
    right. simpl. destruct Hb as [[Est Hall]|(Hne & Hin & Hd & ? & Hall)]; [injection Est as -> ->|]; simpl in *.
    + split_and!; [done|set_solver|done|lia|]. intros c' [Hc'%Hall|Ec%list_elem_of_singleton]%elem_of_app; [|subst c']; [lia|by right].
    + split_and!; [done|set_solver|done|lia|].
      intros c' [Hc'%Hall|Ec%list_elem_of_singleton]%elem_of_app; [|subst c']; [|by right].
      destruct Hc' as [?|[? ?]]; [left; destruct E' as [?|[? _]]; lia|].
      destruct E' as [?|[? [?|?]]]; [left; lia|done|]. right. split; [lia|]. by transitivity best.
  - apply orb_false_iff in E as [E1 E2]. bool_to_prop.
    destruct Hb as [[Est Hall]|(Hne & Hin & Hd & ? & Hall)]; [injection Est as -> ->|]; simpl in *.
    + left. split; [done|]. intros c' [Hc'%Hall|Ec%list_elem_of_singleton]%elem_of_app; [|subst c']; [done|].
      fold d. destruct E2; bool_to_prop; [lia|done].
    + right. simpl. split_and!; [done|set_solver|done|lia|].
      intros c' [Hc'%Hall|Ec%list_elem_of_singleton]%elem_of_app; [|subst c']; [done|]. fold d.
      destruct (decide (d0 = d)) as [->|]; [right|left; lia]. split; [done|].
      destruct E2 as [|E2]; [blia|]. bool_to_prop. by apply leb_le.
Qed.

Lemma suggest_fold_inv name cands : forall seen st,
  Forall (fun c => c <> "") cands -> best_so_far name seen st ->
  best_so_far name (seen ++ cands) (foldl (suggestStep name) st cands).
Proof.
  induction cands as [|c cands IH]; intros seen st Hne Hb; simpl; [by rewrite app_nil_r|].
  inversion_clear Hne. replace (seen ++ c :: cands) with ((seen ++ [c]) ++ cands) by (by rewrite <- app_assoc).
  apply IH; [done|]. by apply suggestStep_inv.
Qed.

(** The suggestion for a misspelt setting is a closest candidate, at most
    three edits away and the first in the order of names among the closest;
    there is no suggestion exactly when every candidate is further away. *)
Theorem SuggestClosest_correct name cands :
  Forall (fun c => c <> "") cands ->
  match SuggestClosest name cands with
  | Some b => b ∈ cands /\ name_distance name b <= 3 /\
      forall c, c ∈ cands -> name_distance name b < name_distance name c \/
                             (name_distance name b = name_distance name c /\ String.le b c)
  | None => forall c, c ∈ cands -> 3 < name_distance name c
  end.
Proof.
  intros Hne.
  assert (best_so_far name [] ("", 3)) as H0 by (left; set_solver).
  apply (suggest_fold_inv name cands [] _ Hne) in H0. simpl in H0. unfold SuggestClosest.
  destruct H0 as [[-> Hall]|(Hn & Hin & Hd & Hle & Hall)].
  - by rewrite bool_decide_true.
  - rewrite bool_decide_false by done. rewrite Hd in *. done.
Qed.
End suggest_facts.

Lemma SuggestClosest_correct_witness :
  SuggestClosest (H := ascii_unicode) "nmae" ["port"; "name"; "names"] = Some "name" /\
  "name" ∈ ["port"; "name"; "names"].
Proof.
  pose proof (@SuggestClosest_correct ascii_unicode "nmae" ["port"; "name"; "names"]) as H.
  assert (SuggestClosest (H := ascii_unicode) "nmae" ["port"; "name"; "names"] = Some "name") as E
    by (vm_compute; reflexivity).
  rewrite E in H. split; [exact E|]. apply H. repeat (apply Forall_cons; split; [discriminate|]). apply Forall_nil_2.
Defined.

(** ** Integers *)

(** A quoted decimal integer is read back exactly over the whole range of an
    [int]; a bare integer is accepted exactly from -1 up, so a bare negative
    number below -1 is reported as out of range although it fits. *)
Theorem AsInt_range `{Unicode} n at_ path :
  in_int64 n = true ->
  AsInt (StringLit (Itoa n) at_) path = Ok n /\
  (AsInt (NumberLit (Itoa n) n false at_) path =
     if -1 <=? n then Ok n else Err (Err_at path at_ IntegerOutOfRange)).
Proof.
  intros Hn. split.
  - unfold AsInt. rewrite TrimSpace_trimmed by apply Itoa_trimmed. by rewrite Atoi_Itoa.
  - unfold AsInt, in_int64 in *. bool_to_prop. change (Z.lnot 0) with (-1). rewrite Z.gtb_ltb.
    destruct (-1 <=? n) eqn:E; bool_to_prop.
    + by rewrite (proj2 (Z.ltb_ge _ _)), (proj2 (Z.ltb_ge _ _)) by lia.
    + by rewrite (proj2 (Z.ltb_lt n _)), orb_true_r by lia.
Qed.

Lemma AsInt_range_witness :
  AsInt (H := ascii_unicode) (NumberLit "-2" (-2) false (mkPos 1 1)) "p" = Err (Err_at "p" (mkPos 1 1) IntegerOutOfRange)
  /\ AsInt (H := ascii_unicode) (StringLit "-2" (mkPos 1 1)) "p" = Ok (-2).
Proof. split; apply (@AsInt_range ascii_unicode (-2) (mkPos 1 1) "p"); reflexivity. Defined.
