(* ===== verification/Utils.v ===== *)
(** * Sets of names, batches of workers and hook batches

    utils/sets.go, utils/batch.go, deploy/filters.go, hooks/batch.go, the batch
    size of deploy/rollout.go and the loop of deploy/parallel.go. A nil slice
    and an empty one are the same list. *)
From S2P Require Import Prelude GoStrings.
Open Scope Z_scope.

(** ** Sets of names (utils/sets.go) *)

Fixpoint uniqueLoop (seen : gset string) (values : list string) : list string :=
  match values with
  | [] => []
  | v :: values =>
      if bool_decide (v ∈ seen) then uniqueLoop seen values
      else v :: uniqueLoop ({[v]} ∪ seen) values
  end.
Definition Unique (values : list string) : list string := uniqueLoop ∅ values.
Definition Union (a b : list string) : list string := Unique (a ++ b).
Definition Intersection (a b : list string) : list string :=
  if (length a =? 0)%nat || (length b =? 0)%nat then []
  else List.filter (fun v => bool_decide (v ∈ (list_to_set a : gset string))) b.
Definition Difference (a b : list string) : list string :=
  if (length a =? 0)%nat then []
  else List.filter (fun v => negb (bool_decide (v ∈ (list_to_set b : gset string)))) a.

(** ** Job filters (deploy/filters.go) *)

Definition normalizeJobFilter (jobsFilter : list string) : list string :=
  if (length jobsFilter =? 0)%nat then [] else Unique jobsFilter.
Definition selectJobsForDeploy (availableJobs jobsFilter : list string) : list string :=
  let jobsFilter := normalizeJobFilter jobsFilter in
  if (length jobsFilter =? 0)%nat then availableJobs
  else List.filter (fun j => bool_decide (j ∈ (list_to_set jobsFilter : gset string))) availableJobs.
Definition jobInFilter (job : string) (jobsFilter : list string) : bool :=
  if (length jobsFilter =? 0)%nat then true else existsb (fun f => bool_decide (f = job)) jobsFilter.
Definition parseJobsCSV (jobsCSV : string) : list string :=
  let jobsCSV := TrimSpace jobsCSV in
  if bool_decide (jobsCSV = "") then []
  else Unique (List.filter nonempty_string (map TrimSpace (Split jobsCSV ","%char))).

(** ** Slices and batches *)

Inductive range_error := NegativeIndex | IndexOutOfRange | StartAfterEnd.

Definition len {A} (l : list A) : Z := Z.of_nat (length l).
(** The Go slice expression [items[start:end]], in range. *)
Definition slice {A} (items : list A) (start end_ : Z) : list A :=
  take (Z.to_nat end_ - Z.to_nat start) (drop (Z.to_nat start) items).

Definition SliceRange (items : list string) (start end_ : Z) : result range_error (list string) :=
  let length := len items in
  if (start <? 0) || (end_ <? 0) then Err NegativeIndex
  else if (start >? length) || (end_ >? length) then Err IndexOutOfRange
  else if start >? end_ then Err StartAfterEnd
  else Ok (slice items start end_).

(** The closure of [NewBatchIterator]: the captured [index] is the state. *)
Definition iterator_size (batchSize : Z) : Z := if batchSize <=? 0 then 1 else batchSize.
Definition iterator_next (items : list string) (batchSize index : Z) : option (list string * Z) :=
  if index >=? len items then None
  else
    let end_ := index + batchSize in
    let end_ := if end_ >? len items then len items else end_ in
    Some (slice items index end_, end_).
(** Calling the closure until it answers [false]. *)
Fixpoint drain (fuel : nat) (items : list string) (batchSize index : Z) : list (list string) :=
  match fuel with
  | O => []
  | S fuel =>
      match iterator_next items batchSize index with
      | None => []
      | Some (batch, index) => batch :: drain fuel items batchSize index
      end
  end.
Definition NewBatchIterator (items : list string) (batchSize : Z) : list (list string) :=
  drain (S (length items)) items (iterator_size batchSize) 0.

(** The loop [for i := 0; i < len(items); i += batchSize] that hooks/batch.go,
    deploy/parallel.go and deploy/rollout.go share, with each batch's start. *)
Fixpoint batchesFrom {A} (fuel : nat) (items : list A) (batchSize i : Z) : list (Z * list A) :=
  match fuel with
  | O => []
  | S fuel =>
      if i <? len items then
        let end_ := i + batchSize in
        let end_ := if end_ >? len items then len items else end_ in
        (i, slice items i end_) :: batchesFrom fuel items batchSize (i + batchSize)
      else []
  end.

(** [total + batchSize - 1] is computed in an [int]; Go's [/] truncates. *)
Definition BatchCount (total batchSize : Z) : Z :=
  if total =? 0 then 0
  else
    let batchSize := if batchSize <? 1 then total else batchSize in
    Z.quot (wrap64 (wrap64 (total + batchSize) - 1)) batchSize.

Definition SplitWorkerBatches (orderedIPs : list string) (batchSize : Z) : list (list string) :=
  if (length orderedIPs =? 0)%nat then []
  else
    let batchSize := if batchSize <? 1 then len orderedIPs else batchSize in
    (batchesFrom (length orderedIPs) orderedIPs batchSize 0).*2.

(** [requested < 1] means all at once; a [hardCap < 1] is no cap. *)
Definition effectiveBatchSize (requested total hardCap : Z) : Z :=
  let n := total in
  let n := if requested >=? 1 then (if requested >? total then total else requested) else n in
  if (hardCap >=? 1) && (n >? hardCap) then hardCap else n.

(** ** Hook batches (hooks/batch.go) *)

Record BatchContext := mkBatchContext {
  BJob : string;
  BPhase : string;
  BatchIndex : Z;
  BatchCountOf : Z;
  BatchAllocation : list string;
  RolloutOrder : string;
  OrderSource : string;
}.

Definition BatchEnv (c : BatchContext) : list string :=
  [ "BATCH_ALLOCATIONS=" +:+ Join (BatchAllocation c) ",";
    "BATCH_INDEX=" +:+ Itoa (BatchIndex c);
    "BATCH_COUNT=" +:+ Itoa (BatchCountOf c);
    "DEPLOY_PHASE=" +:+ BPhase c;
    "ROLLOUT_ORDER=" +:+ RolloutOrder c;
    "ROLLOUT_ORDER_SOURCE=" +:+ OrderSource c;
    "JOB=" +:+ BJob c ].

Section hook_batches.
Context {St E : Type}.
(** The world the hooks act on: cancellation, one hook run on the workers of
    a batch with its environment and concurrency, and the optional
    [afterBatch] callback. *)
Variable ctxErr : St -> option E.
Variable RunHookOnWorkers : list string -> Z -> list string -> St -> St * option E.
Variable afterBatch : option (BatchContext -> St -> St * option E).
Variable continueOnFailure : bool.

Definition batchContext (base : BatchContext) (job : string) (count i : Z) (batchIPs : list string) : BatchContext :=
  mkBatchContext job (BPhase base) i count batchIPs (RolloutOrder base) (OrderSource base).

(** The loop over the batches from index [i]; the result is the joined
    errors, [nil] when there is none. *)
Fixpoint runBatches (base : BatchContext) (job : string) (extraEnv : list string) (count i : Z)
    (batches : list (list string)) (errs : list E) (s : St) : St * list E :=
  match batches with
  | [] => (s, errs)
  | batchIPs :: batches =>
      match ctxErr s with
      | Some e => (s, [e])
      | None =>
          let batchCtx := batchContext base job count i batchIPs in
          let env := extraEnv ++ BatchEnv batchCtx in
          let concurrency := if len batchIPs <? 1 then 1 else len batchIPs in
          match RunHookOnWorkers batchIPs concurrency env s with
          | (s, Some e) =>
              if continueOnFailure
              then runBatches base job extraEnv count (i + 1) batches (errs ++ [e]) s
              else (s, [e])
          | (s, None) =>
              match afterBatch with
              | None => runBatches base job extraEnv count (i + 1) batches errs s
              | Some after =>
                  match after batchCtx s with
                  | (s, Some e) =>
                      if continueOnFailure
                      then runBatches base job extraEnv count (i + 1) batches (errs ++ [e]) s
                      else (s, [e])
                  | (s, None) => runBatches base job extraEnv count (i + 1) batches errs s
                  end
              end
          end
      end
  end.

Definition RunHookInBatches (job : string) (orderedIPs : list string) (batchSize : Z)
    (base : BatchContext) (extraEnv : list string) (s : St) : St * list E :=
  if (length orderedIPs =? 0)%nat then (s, [])
  else
    let batchSize := if batchSize <? 1 then 1 else batchSize in
    let batches := SplitWorkerBatches orderedIPs batchSize in
    runBatches base job extraEnv (len batches) 0 batches [] s.
End hook_batches.

(** ** Facts about sets *)

Lemma elem_of_list_filter_b {A} (f : A -> bool) x l : x ∈ List.filter f l <-> x ∈ l /\ f x = true.
Proof. rewrite !list_elem_of_In. apply filter_In. Qed.
Lemma NoDup_filter_b {A} (f : A -> bool) l : NoDup l -> NoDup (List.filter f l).
Proof. rewrite !NoDup_ListNoDup. apply List.NoDup_filter. Qed.
Lemma NoDup_map_eq {A B} (f : A -> B) l x y : NoDup (map f l) -> x ∈ l -> y ∈ l -> f x = f y -> x = y.
Proof.
  intros Hnd [i Hi]%list_elem_of_lookup [k Hk]%list_elem_of_lookup E. enough (i = k) as -> by congruence.
  apply (NoDup_lookup (map f l) i k (f x)); [done|by apply (list_lookup_fmap_Some_2 f)|rewrite E; by apply (list_lookup_fmap_Some_2 f)].
Qed.
Lemma NoDup_map_filter {A B} (f : A -> B) p l : NoDup (map f l) -> NoDup (map f (List.filter p l)).
Proof.
  induction l as [|x l IH]; cbn [map List.filter]; [done|]. intros [Hx Hl]%NoDup_cons. destruct (p x); [|by apply IH].
  cbn [map]. constructor; [|by apply IH]. intros (y & Hy & [Hin _]%elem_of_list_filter_b)%list_elem_of_fmap.
  apply Hx. rewrite Hy. by apply list_elem_of_In, in_map, list_elem_of_In.
Qed.

Lemma uniqueLoop_elem values : forall seen x, x ∈ uniqueLoop seen values <-> x ∈ values /\ x ∉ seen.
Proof.
  induction values as [|v values IH]; intros seen x; simpl; [set_solver|].
  case_bool_decide; [rewrite IH; set_solver|]. rewrite elem_of_cons, IH.
  destruct (decide (x = v)); set_solver.
Qed.
Lemma uniqueLoop_NoDup values : forall seen, NoDup (uniqueLoop seen values).
Proof.
  induction values as [|v values IH]; intros seen; simpl; [constructor|].
  case_bool_decide; [done|]. constructor; [|done]. rewrite uniqueLoop_elem. set_solver.
Qed.
Lemma uniqueLoop_sublist values : forall seen, uniqueLoop seen values `sublist_of` values.
Proof.
  induction values as [|v values IH]; intros seen; simpl; [constructor|].
  case_bool_decide; by constructor.
Qed.
Lemma elem_of_Unique x l : x ∈ Unique l <-> x ∈ l.
Proof. unfold Unique. rewrite uniqueLoop_elem. set_solver. Qed.
#[export] Hint Rewrite elem_of_Unique @elem_of_list_filter_b : kive.

Lemma elem_of_Difference x a b : x ∈ Difference a b <-> x ∈ a /\ x ∉ b.
Proof.
  unfold Difference. destruct ((length a =? 0)%nat) eqn:E.
  - apply Nat.eqb_eq, nil_length_inv in E. set_solver.
  - rewrite elem_of_list_filter_b, negb_true_iff, bool_decide_eq_false. set_solver.
Qed.

Lemma elem_of_Intersection x a b : x ∈ Intersection a b <-> x ∈ a /\ x ∈ b.
Proof.
  unfold Intersection. destruct ((_ =? 0)%nat || _) eqn:E.
  - apply orb_true_iff in E as [E|E]; apply Nat.eqb_eq, nil_length_inv in E; set_solver.
  - rewrite elem_of_list_filter_b, bool_decide_eq_true. set_solver.
Qed.

(** The set operations on lists of names are those of mathematics: each
    result has exactly the members it should, [Unique] and [Union] have no
    duplicate, and [Unique] keeps the values in their order. *)
Theorem sets_correct a b x :
  (x ∈ Union a b <-> x ∈ a \/ x ∈ b) /\
  (x ∈ Intersection a b <-> x ∈ a /\ x ∈ b) /\
  (x ∈ Difference a b <-> x ∈ a /\ x ∉ b) /\
  NoDup (Union a b) /\ Unique a `sublist_of` a.
Proof.
  split_and!.
  - unfold Union. rewrite elem_of_Unique. set_solver.
  - apply elem_of_Intersection.
  - apply elem_of_Difference.
  - apply uniqueLoop_NoDup.
  - apply uniqueLoop_sublist.
Qed.

(** A deploy selects exactly the available jobs its filter accepts, in their
    order; [jobInFilter] is the same test. *)
Theorem selectJobsForDeploy_filter availableJobs jobsFilter :
  selectJobsForDeploy availableJobs jobsFilter
  = List.filter (fun j => jobInFilter j jobsFilter) availableJobs.
Proof.
  unfold selectJobsForDeploy, normalizeJobFilter, jobInFilter.
  destruct (length jobsFilter =? 0)%nat eqn:E; simpl.
  - induction availableJobs; simpl; congruence.
  - destruct (length (Unique jobsFilter) =? 0)%nat eqn:E2.
    + exfalso. apply Nat.eqb_eq, nil_length_inv in E2. destruct jobsFilter as [|f fs]; [done|].
      assert (f ∈ Unique (f :: fs)) by (apply elem_of_Unique; set_solver). rewrite E2 in *. set_solver.
    + apply filter_ext. intros j. apply eq_true_iff_eq.
      rewrite bool_decide_eq_true, existsb_exists, elem_of_list_to_set, elem_of_Unique, list_elem_of_In.
      split; [intros; exists j; by rewrite bool_decide_true | intros (f & Hf & ->%bool_decide_eq_true)]; done.
Qed.

(** ** Facts about batches *)

Section batch_facts.
Context {A : Type}.
Implicit Types items batch : list A.

Lemma slice_length items a b :
  0 <= a -> a <= b -> b <= len items -> len (slice items a b) = b - a.
Proof. unfold len, slice. intros. rewrite length_take, length_drop. lia. Qed.

Lemma slice_app items a b :
  0 <= a -> a <= b -> b <= len items -> slice items a b ++ drop (Z.to_nat b) items = drop (Z.to_nat a) items.
Proof.
  unfold len, slice. intros. replace (Z.to_nat b) with (Z.to_nat a + (Z.to_nat b - Z.to_nat a))%nat at 2 by lia.
  rewrite <- drop_drop. apply take_drop.
Qed.

(** Batch [k] of the loop is the slice from [i + k*size]. *)
Lemma batchesFrom_lookup fuel : forall items size i k,
  1 <= size -> 0 <= i -> len items - i <= Z.of_nat fuel ->
  batchesFrom fuel items size i !! k
  = (let j := i + Z.of_nat k * size in
     if j <? len items then Some (j, slice items j (Z.min (j + size) (len items))) else None).
Proof.
  induction fuel as [|fuel IH]; intros items size i k Hs Hi Hf; cbn [batchesFrom].
  - simpl. rewrite (proj2 (Z.ltb_ge _ _)); [done|nia].
  - destruct (i <? len items) eqn:E; bool_to_prop.
    + destruct k as [|k]; cbn [lookup list_lookup].
      * simpl. rewrite Z.add_0_r, (proj2 (Z.ltb_lt _ _)) by done. do 3 f_equal. rewrite Z.gtb_ltb. case_match; blia.
      * rewrite IH by lia. cbv zeta. replace (i + Z.of_nat (S k) * size) with (i + size + Z.of_nat k * size) by lia. done.
    + rewrite lookup_nil. cbv zeta. rewrite (proj2 (Z.ltb_ge _ _)); [done|nia].
Qed.

Lemma batchesFrom_concat fuel : forall items size i,
  1 <= size -> 0 <= i -> len items - i <= Z.of_nat fuel ->
  concat (batchesFrom fuel items size i).*2 = drop (Z.to_nat i) items.
Proof.
  induction fuel as [|fuel IH]; intros items size i Hs Hi Hf; cbn [batchesFrom].
  - simpl. rewrite drop_ge; [done|unfold len in *; lia].
  - destruct (i <? len items) eqn:E; bool_to_prop.
    + rewrite Z.gtb_ltb. cbn. rewrite IH by lia.
      destruct (len items <? i + size) eqn:E2; bool_to_prop; [|apply slice_app; lia].
      rewrite (drop_ge items (Z.to_nat (i + size))) by (unfold len in *; lia).
      rewrite <- (slice_app items i (len items)) by lia. f_equal. rewrite drop_ge; [done|unfold len; lia].
    + simpl. rewrite drop_ge; [done|unfold len in *; lia].
Qed.

Lemma batchesFrom_count fuel : forall items size i,
  1 <= size -> 0 <= i <= len items -> len items - i <= Z.of_nat fuel ->
  len (batchesFrom fuel items size i) = (len items - i + size - 1) / size.
Proof.
  induction fuel as [|fuel IH]; intros items size i Hs Hi Hf; cbn [batchesFrom].
  - replace (len items - i + size - 1) with (size - 1) by lia. by rewrite Z.div_small by lia.
  - destruct (i <? len items) eqn:E; bool_to_prop.
    + unfold len at 1. cbn [length]. rewrite Nat2Z.inj_succ. fold (len (batchesFrom fuel items size (i + size))).
      destruct (decide (i + size <= len items)).
      * rewrite IH by lia.
        replace (len items - i + size - 1) with ((len items - (i + size) + size - 1) + 1 * size) by lia.
        rewrite Z.div_add by lia. lia.
      * assert (len (batchesFrom fuel items size (i + size)) = 0) as ->.
        { destruct fuel; [done|]. cbn [batchesFrom]. by rewrite (proj2 (Z.ltb_ge _ _)) by lia. }
        replace (len items - i + size - 1) with ((len items - i - 1) + 1 * size) by lia.
        rewrite Z.div_add, Z.div_small by lia. done.
    + replace (len items - i + size - 1) with (size - 1) by lia. by rewrite Z.div_small by lia.
Qed.

End batch_facts.

Lemma BatchCount_div total size :
  0 <= total -> 1 <= size -> total + size <= max_int64 -> BatchCount total size = (total + size - 1) / size.
Proof.
  intros. unfold BatchCount. destruct (total =? 0) eqn:E; bool_to_prop.
  { subst. rewrite Z.div_small by lia. done. }
  rewrite (proj2 (Z.ltb_ge _ _)) by lia. unfold max_int64 in *.
  rewrite !wrap64_id by (unfold in_int64, min_int64, max_int64; rewrite ?wrap64_id;
    unfold in_int64, min_int64, max_int64; apply andb_true_iff; split; apply Z.leb_le; lia).
  by rewrite Z.quot_div_nonneg by lia.
Qed.

(** [SplitWorkerBatches] cuts the ordered workers into the batches that
    [BatchCount] announces: put end to end they are the workers again, batch
    [k] starts at worker [k * size], and every batch is full but the last,
    which is not empty. *)
Theorem SplitWorkerBatches_partition ips size :
  0 < len ips -> 1 <= size -> len ips + size <= max_int64 ->
  let batches := SplitWorkerBatches ips size in
  concat batches = ips /\
  len batches = BatchCount (len ips) size /\
  (forall k b, batches !! k = Some b ->
     b = slice ips (Z.of_nat k * size) (Z.min ((Z.of_nat k + 1) * size) (len ips)) /\
     1 <= len b <= size /\ (Z.of_nat k + 1 < len batches -> len b = size)).
Proof.
  intros Hl Hs Hb batches. unfold batches, SplitWorkerBatches.
  destruct (length ips =? 0)%nat eqn:E; bool_to_prop; [unfold len in *; lia|].
  rewrite (proj2 (Z.ltb_ge size 1)) by lia.
  set (bs := batchesFrom (length ips) ips size 0).
  assert (len bs.*2 = BatchCount (len ips) size) as Hc.
  { unfold len at 1. rewrite length_fmap. fold (len bs). unfold bs.
    rewrite batchesFrom_count by (unfold len; lia). rewrite BatchCount_div by lia. f_equal. lia. }
  split_and!; [by apply batchesFrom_concat; unfold len; lia|done|].
  intros k b Hk. rewrite list_lookup_fmap in Hk. unfold bs in Hk.
  rewrite batchesFrom_lookup in Hk by (unfold len; lia). cbv zeta in Hk.
  destruct (0 + Z.of_nat k * size <? len ips) eqn:E2; [|done]. injection Hk as <-. bool_to_prop.
  replace (0 + Z.of_nat k * size) with (Z.of_nat k * size) by lia.
  replace (Z.of_nat k * size + size) with ((Z.of_nat k + 1) * size) by lia.
  split; [done|]. rewrite slice_length by nia. split; [lia|]. intros Hlast.
  rewrite Hc, BatchCount_div in Hlast by lia.
  pose proof (Z.mul_div_le (len ips + size - 1) size ltac:(lia)). nia.
Qed.

Lemma SplitWorkerBatches_partition_witness :
  let batches := SplitWorkerBatches ["a"; "b"; "c"] 2 in
  concat batches = ["a"; "b"; "c"] /\ len batches = BatchCount 3 2.
Proof.
  split; apply (SplitWorkerBatches_partition ["a"; "b"; "c"] 2);
    first [reflexivity | vm_compute; discriminate].
Defined.

Lemma drain_batches fuel : forall items size i,
  1 <= size -> 0 <= i -> drain fuel items size i = (batchesFrom fuel items size i).*2.
Proof.
  induction fuel as [|fuel IH]; intros items size i Hs Hi; [done|]. cbn [drain batchesFrom].
  unfold iterator_next. destruct (i <? len items) eqn:E; bool_to_prop.
  - rewrite Z.geb_leb, (proj2 (Z.leb_gt _ _)) by lia. cbn. f_equal. rewrite Z.gtb_ltb.
    destruct (len items <? i + size) eqn:E2; bool_to_prop; [|apply IH; lia].
    destruct fuel; [done|]. cbn [drain batchesFrom]. unfold iterator_next.
    by rewrite Z.geb_leb, (proj2 (Z.leb_le _ _)), (proj2 (Z.ltb_ge _ _)) by lia.
  - by rewrite Z.geb_leb, (proj2 (Z.leb_le _ _)) by lia.
Qed.

Lemma batchesFrom_more_fuel {A} fuel : forall (items : list A) size i,
  1 <= size -> 0 <= i -> len items - i <= Z.of_nat fuel ->
  batchesFrom (S fuel) items size i = batchesFrom fuel items size i.
Proof.
  intros. apply list_eq. intros k. rewrite !batchesFrom_lookup by lia. done.
Qed.

(** Draining the iterator of [NewBatchIterator] gives every item once, in
    order, in the same batches as [SplitWorkerBatches]; a batch size below one
    counts as one. *)
Theorem NewBatchIterator_batches items batchSize :
  NewBatchIterator items batchSize = SplitWorkerBatches items (if batchSize <=? 0 then 1 else batchSize) /\
  concat (NewBatchIterator items batchSize) = items.
Proof.
  unfold NewBatchIterator, iterator_size.
  set (size := if batchSize <=? 0 then 1 else batchSize).
  assert (1 <= size) by (unfold size; case_match; blia).
  rewrite drain_batches by lia. split; [|rewrite batchesFrom_concat by (unfold len; lia); done].
  unfold SplitWorkerBatches. destruct (length items =? 0)%nat eqn:E; bool_to_prop.
  - by destruct items.
  - rewrite (proj2 (Z.ltb_ge size 1)) by lia. by rewrite batchesFrom_more_fuel by (unfold len; lia).
Qed.

Lemma batch_size_spec requested total hardCap :
  1 <= total ->
  let n := effectiveBatchSize requested total hardCap in
  1 <= n <= total /\ (1 <= hardCap -> n <= hardCap) /\ (1 <= requested -> n <= requested).
Proof.
  intros Ht n. unfold n, effectiveBatchSize. rewrite !Z.gtb_ltb, !Z.geb_leb.
  repeat case_match; bool_to_prop; repeat match goal with H : _ \/ _ |- _ => destruct H end; blia.
Qed.

Lemma batch_size_bounds requested total hardCap :
  1 <= total -> 1 <= effectiveBatchSize requested total hardCap.
Proof. intros H. by apply (batch_size_spec requested total hardCap) in H as [[? _] _]. Qed.

(** The batch size of a rollout lies between one and the number of workers
    and never exceeds a positive hard cap or a positive request, so the
    rollout loops advance at every step. *)
Theorem effectiveBatchSize_bounds requested total hardCap :
  1 <= total ->
  let n := effectiveBatchSize requested total hardCap in
  1 <= n <= total /\ (1 <= hardCap -> n <= hardCap) /\ (1 <= requested -> n <= requested).
Proof. apply batch_size_spec. Qed.

Lemma effectiveBatchSize_bounds_witness : 1 <= effectiveBatchSize 5 3 2 <= 3 /\ (1 <= 2 -> effectiveBatchSize 5 3 2 <= 2).
Proof. split; apply (effectiveBatchSize_bounds 5 3 2); discriminate. Defined.

(** ** Facts about hook batches *)

Section hook_facts.
Context {St E : Type}.
Variable ctxErr : St -> option E.
Variable RunHookOnWorkers : list string -> Z -> list string -> St -> St * option E.
Variable afterBatch : option (BatchContext -> St -> St * option E).
(** [log] is the list of batches whose hook ran: only a hook run adds to it. *)
Variable log : St -> list (list string).
Hypothesis hook_log : forall ips conc env s, log (RunHookOnWorkers ips conc env s).1 = log s ++ [ips].
Hypothesis after_log : forall f c s, afterBatch = Some f -> log (f c s).1 = log s.

Lemma runBatches_fail_fast base job extra count : forall batches i s,
  let r := runBatches ctxErr RunHookOnWorkers afterBatch false base job extra count i batches [] s in
  exists ran rest, batches = ran ++ rest /\ log r.1 = log s ++ ran /\ (r.2 = [] -> rest = []) /\ (length r.2 <= 1)%nat.
Proof.
  induction batches as [|b batches IH]; intros i s; cbn [runBatches].
  { exists [], []. simpl. rewrite app_nil_r. split_and!; done || lia. }
  destruct (ctxErr s) as [e|]. { exists [], (b :: batches). simpl. rewrite app_nil_r. split_and!; [done..|lia]. }
  match goal with |- context [RunHookOnWorkers ?a ?b ?c ?d] =>
    pose proof (hook_log a b c d) as Hl; destruct (RunHookOnWorkers a b c d) as [s1 [e|]] end; cbn [fst] in Hl.
  { exists [b], batches. simpl. split_and!; [done..|lia]. }
  destruct afterBatch as [f|] eqn:Ef.
  - match goal with |- context [f ?a ?b] => pose proof (after_log f a b eq_refl) as Ha; destruct (f a b) as [s2 [e|]] end; cbn [fst] in Ha.
    + exists [b], batches. simpl. rewrite Ha. split_and!; [done..|lia].
    + destruct (IH (i + 1) s2) as (ran & rest & -> & Hr & ? & ?). exists (b :: ran), rest.
      split_and!; [done| |done..]. by rewrite Hr, Ha, Hl, <- app_assoc.
  - destruct (IH (i + 1) s1) as (ran & rest & -> & Hr & ? & ?). exists (b :: ran), rest.
    split_and!; [done| |done..]. by rewrite Hr, Hl, <- app_assoc.
Qed.

Lemma runBatches_continue base job extra count :
  (forall s, ctxErr s = None) -> forall batches i errs s,
  log (runBatches ctxErr RunHookOnWorkers afterBatch true base job extra count i batches errs s).1 = log s ++ batches.
Proof.
  intros Hctx. induction batches as [|b batches IH]; intros i errs s; cbn [runBatches]; [by rewrite app_nil_r|].
  rewrite Hctx.
  match goal with |- context [RunHookOnWorkers ?a ?b ?c ?d] =>
    pose proof (hook_log a b c d) as Hl; destruct (RunHookOnWorkers a b c d) as [s1 [e|]] end; cbn [fst] in Hl.
  { by rewrite IH, Hl, <- app_assoc. }
  destruct afterBatch as [f|] eqn:Ef; [|by rewrite IH, Hl, <- app_assoc].
  match goal with |- context [f ?a ?b] => pose proof (after_log f a b eq_refl) as Ha; destruct (f a b) as [s2 [e|]] end;
    cbn [fst] in Ha; by rewrite IH, Ha, Hl, <- app_assoc.
Qed.

Lemma SplitWorkerBatches_concat ips size : concat (SplitWorkerBatches ips size) = ips.
Proof.
  unfold SplitWorkerBatches. destruct (length ips =? 0)%nat eqn:En; bool_to_prop; [by destruct ips|].
  rewrite batchesFrom_concat; [done| |lia|unfold len; lia].
  case_match; bool_to_prop; unfold len in *; lia.
Qed.

(** A batched hook that stops at the first failure runs an initial segment of
    the ordered workers, each worker once and in order, and all of them when
    it reports no error; one that continues on failure runs every worker
    once, in order, whatever the hooks answer. *)
Theorem RunHookInBatches_order job ips size base extra s :
  (let r := RunHookInBatches ctxErr RunHookOnWorkers afterBatch false job ips size base extra s in
   exists ran rest, log r.1 = log s ++ ran /\ ips = concat ran ++ rest /\ (r.2 = [] -> rest = []) /\ (length r.2 <= 1)%nat) /\
  ((forall s, ctxErr s = None) ->
   let r := RunHookInBatches ctxErr RunHookOnWorkers afterBatch true job ips size base extra s in
   exists ran, log r.1 = log s ++ ran /\ ips = concat ran).
Proof.
  unfold RunHookInBatches. destruct (length ips =? 0)%nat eqn:El; bool_to_prop.
  - apply nil_length_inv in El as ->. split; [exists [], []|intros _; exists []]; simpl; rewrite app_nil_r; split_and!; done || lia.
  - set (batches := SplitWorkerBatches ips (if size <? 1 then 1 else size)).
    assert (concat batches = ips) as Hc by apply SplitWorkerBatches_concat. split.
    + destruct (runBatches_fail_fast base job extra (len batches) batches 0 s) as (ran & rest & Hb & ? & Hr & ?).
      exists ran, (concat rest). split_and!; [done| |intros Hn; by rewrite (Hr Hn)|done].
      by rewrite <- concat_app, <- Hb.
    + intros Hctx. exists batches. by rewrite runBatches_continue.
Qed.
End hook_facts.

Lemma RunHookInBatches_order_witness :
  let hook (ips : list string) (_ : Z) (_ : list string) (s : list (list string)) :=
    (s ++ [ips], if bool_decide ("bad" ∈ ips) then Some "failed" else None) in
  exists ran rest,
    (RunHookInBatches (fun _ => None) hook None false "job" ["a"; "b"; "bad"; "c"; "d"] 2
       (mkBatchContext "" "" 0 0 [] "" "") [] []).1 = [] ++ ran /\ ["a"; "b"; "bad"; "c"; "d"] = concat ran ++ rest.
Proof.
  intros hook.
  destruct (RunHookInBatches_order (fun _ => None) hook None (fun s => s)
    (fun _ _ _ _ => eq_refl) ltac:(discriminate) "job" ["a"; "b"; "bad"; "c"; "d"] 2
       (mkBatchContext "" "" 0 0 [] "" "") [] []) as [(ran & rest & H1 & H2 & _) _].
  exists ran, rest. exact (conj H1 H2).
Defined.
