(* ===== verification/Kv.v ===== *)
(** * kv: the versioned key-value store and its tables

    kv/store.go, kv/expiry.go, kv/persist.go, kv/purge.go, kv/secret.go,
    kv/encrypt.go, kv/template_reader.go, kv/catalog.go, kv/session.go. The
    store is the two-level map of the source; the [key_value] table is the
    list of its rows in the order of insertion. An [int] stays at its width:
    versions are incremented with [wrap64]. *)
From S2P Require Import Prelude GoStrings Utils.
Open Scope Z_scope.

Definition MaxVersionsToKeep : Z := 7.

Record Entry := mkEntry {
  EValue : string;
  EVersion : Z;
  TTL : Z;
  Deleted : Z;
  Changed : bool;
  LastModifiedTime : Z;
}.

Notation Store := (gmap string (gmap string Entry)).
Definition NewStore : Store := ∅.

Inductive kv_error :=
| ErrNotFound
| ErrNamespaceNotFound (namespace : string)
| ErrStoreNotInitialized
| ErrEncryptionKeyMissing
| ErrNotEncrypted
| ErrDecryptFailed
| DatabaseError.

(** ** Operations (store.go) *)

Definition namespaceMap (s : Store) (namespace : string) : gmap string Entry := default ∅ (s !! namespace).
Definition find (s : Store) (namespace key : string) : option Entry :=
  ns ← s !! namespace; ns !! key.
Definition setEntry (s : Store) (namespace key : string) (e : Entry) : Store :=
  <[namespace := <[key := e]> (namespaceMap s namespace)]> s.

(** The tombstone of [Delete], [PurgeNamespace] and [ExpireStaleEntries]. *)
Definition tombstone (e : Entry) : Entry :=
  mkEntry (EValue e) (wrap64 (EVersion e + 1)) (TTL e) 1 true (LastModifiedTime e).

Definition putEntry (old : option Entry) (value : string) (ttl : Z) : Entry :=
  match old with
  | None => mkEntry value 1 ttl 0 true 0
  | Some e =>
      if Deleted e =? 1 then mkEntry value (wrap64 (EVersion e + 1)) ttl 0 true (LastModifiedTime e)
      else
        let changed := negb (TTL e =? ttl) || negb (bool_decide (EValue e = value)) in
        if changed
        then mkEntry value (wrap64 (EVersion e + 1)) ttl (Deleted e) true (LastModifiedTime e)
        else e
  end.
Definition putValue (s : Store) (namespace key value : string) (ttl : Z) (trimValue : bool) : Store :=
  let value := if trimValue then TrimSpace value else value in
  setEntry s namespace key (putEntry (namespaceMap s namespace !! key) value ttl).
Definition Put (s : Store) (namespace key value : string) (ttl : Z) : Store :=
  putValue s namespace key value ttl true.

Definition Delete (s : Store) (namespace key : string) : result kv_error Store :=
  match s !! namespace with
  | None => Err (ErrNamespaceNotFound namespace)
  | Some ns =>
      match ns !! key with
      | None => Err ErrNotFound
      | Some e => Ok (setEntry s namespace key (tombstone e))
      end
  end.

Definition Get (s : Store) (namespace key : string) : result kv_error Entry :=
  match s !! namespace with
  | None => Err ErrNotFound
  | Some ns =>
      match ns !! key with
      | Some e => if Deleted e =? 1 then Err ErrNotFound else Ok e
      | None => Err ErrNotFound
      end
  end.

(** Go ranges over a map in no particular order: the list is one of them. *)
Definition GetKeys (s : Store) (namespace : string) : list string :=
  match s !! namespace with
  | None => []
  | Some ns => (List.filter (fun kv => negb (Deleted kv.2 =? 1)) (map_to_list ns)).*1
  end.

Definition purgeEntry (e : Entry) : Entry := if Deleted e =? 1 then e else tombstone e.
Definition PurgeNamespace (s : Store) (namespace : string) : Store :=
  match s !! namespace with
  | None => s
  | Some ns => <[namespace := purgeEntry <$> ns]> s
  end.

Definition HasPendingChanges (s : Store) : bool :=
  existsb (fun ns => existsb (fun kv => Changed kv.2) (map_to_list ns.2)) (map_to_list s).
Definition ListNamespaces (s : Store) : list string := (map_to_list s).*1.

(** ** Expiry (expiry.go) *)

Definition EntryExpired (e : Entry) (now : Z) : bool :=
  if (Deleted e =? 1) || (TTL e <=? 0) then false
  else wrap64 (LastModifiedTime e + TTL e) <=? now.
Definition expireEntry (now : Z) (e : Entry) : Entry :=
  if (Deleted e =? 1) || Changed e || (TTL e <=? 0) then e
  else if wrap64 (LastModifiedTime e + TTL e) >? now then e
  else tombstone e.
Definition ExpireStaleEntries (s : Store) (now : Z) : Store := (fun ns : gmap string Entry => expireEntry now <$> ns) <$> s.

(** ** The table (persist.go, purge.go) *)

Record Row := mkRow {
  rKey : string;
  rValue : string;
  rNamespace : string;
  rVersion : Z;
  rTtl : Z;
  rCreated : Z;
  rDeleted : Z;
}.
Definition Table := list Row.

Definition same_key (a b : Row) : bool :=
  bool_decide (rNamespace a = rNamespace b) && bool_decide (rKey a = rKey b).
(** [version = (SELECT MAX(version) ... same namespace and key)]. *)
Definition isLatest (t : Table) (r : Row) : bool :=
  forallb (fun r' => negb (same_key r r') || (rVersion r' <=? rVersion r)) t.

Definition rowEntry (r : Row) : Entry :=
  mkEntry (rValue r) (rVersion r) (rTtl r) (rDeleted r) false (rCreated r).
Definition LoadFromTransaction (t : Table) : Store :=
  foldl (fun s r => setEntry s (rNamespace r) (rKey r) (rowEntry r)) NewStore (List.filter (isLatest t) t).

Definition entryRow (namespace key : string) (e : Entry) (createdAt : Z) : Row :=
  mkRow key (EValue e) namespace (EVersion e) (TTL e) createdAt (Deleted e).
Definition saved (e : Entry) (createdAt : Z) : Entry :=
  mkEntry (EValue e) (EVersion e) (TTL e) (Deleted e) false createdAt.

(** [exec] runs the INSERT of SQLite; [order] is the order in which Go's map
    iteration visits the namespaces and keys. A failed insert leaves the
    entries visited before it marked as saved. *)
Fixpoint persistLoop (exec : Row -> Table -> option Table) (createdAt : Z) (order : list (string * string))
    (t : Table) (s : Store) : result kv_error Table * Store :=
  match order with
  | [] => (Ok t, s)
  | (namespace, key) :: order =>
      match find s namespace key with
      | None => persistLoop exec createdAt order t s
      | Some e =>
          if negb (Changed e) then persistLoop exec createdAt order t s
          else
            match exec (entryRow namespace key e createdAt) t with
            | None => (Err DatabaseError, s)
            | Some t => persistLoop exec createdAt order t (setEntry s namespace key (saved e createdAt))
            end
      end
  end.
Definition PersistToTransaction := persistLoop.

(** [PersistToSessionTransaction]; a nil session store is [None]. *)
Definition PersistToSessionTransaction (exec : Row -> Table -> option Table) (createdAt : Z)
    (order : list (string * string)) (t : Table) (session : option Store) : result kv_error Table * option Store :=
  match session with
  | None => (Err ErrStoreNotInitialized, None)
  | Some s =>
      if negb (HasPendingChanges s) then (Ok t, session)
      else let '(r, s) := PersistToTransaction exec createdAt order t s in (r, Some s)
  end.

(** The row the purge query calls [latest] for [r]: SQLite takes the bare
    columns of a MAX aggregate from a row that holds the maximum. *)
Definition latestOf (t : Table) (r : Row) : option Row :=
  head (List.filter (fun r' => same_key r r' && isLatest t r') t).
Definition purgeable (t : Table) (now retainDays : Z) (r : Row) : bool :=
  match latestOf t r with
  | None => false
  | Some latest =>
      ((rVersion r <? rVersion latest - MaxVersionsToKeep) || (rDeleted latest =? 1))
      && (rCreated latest <? now - retainDays * 24 * 60 * 60)
  end.
Definition PurgeStaleVersions (t : Table) (now retainDays : Z) : Table :=
  let retainDays := if retainDays <? 0 then 0 else retainDays in
  List.filter (fun r => negb (purgeable t now retainDays r)) t.

(** ** Secrets (secret.go, encrypt.go)

    AES-GCM and base64 are an interface: [Seal] takes key, nonce and
    plaintext, [Open] undoes it, and so do [Encode] and [Decode]. *)
Class Crypto := {
  Seal : string -> string -> string -> string;
  Open_ : string -> string -> string -> option string;
  Encode : string -> string;
  Decode : string -> option string;
  nonceSize : nat;
}.
Class CryptoLaws `(Crypto) : Prop := {
  Open_Seal : forall key nonce plain, Open_ key nonce (Seal key nonce plain) = Some plain;
  Decode_Encode : forall raw, Decode (Encode raw) = Some raw;
}.

Definition encryptedValuePrefix : string := "enc:v1:".
Definition IsEncryptedValue (value : string) : bool := HasPrefix value encryptedValuePrefix.

Section secrets.
Context `{Crypto}.
(** [key] is the outcome of [loadEncryptionKey]: the 32 bytes of secrets/kv.key. *)
Implicit Types key : option string.

(** [gcm.Seal(nonce, nonce, ...)] appends the ciphertext to the nonce. *)
Definition EncryptPlaintext key (nonce plaintext : string) : result kv_error string :=
  match key with
  | None => Err ErrEncryptionKeyMissing
  | Some k => Ok (encryptedValuePrefix +:+ Encode (nonce +:+ Seal k nonce plaintext))
  end.

Definition DecryptStoredValue key (stored : string) : result kv_error string :=
  if negb (IsEncryptedValue stored) then Err ErrNotEncrypted
  else
    match key with
    | None => Err ErrEncryptionKeyMissing
    | Some k =>
        match Decode (TrimPrefix stored encryptedValuePrefix) with
        | None => Err ErrDecryptFailed
        | Some raw =>
            if (String.length raw <? nonceSize)%nat then Err ErrDecryptFailed
            else
              match Open_ k (stake nonceSize raw) (sdrop nonceSize raw) with
              | None => Err ErrDecryptFailed
              | Some plaintext => Ok plaintext
              end
        end
    end.

Definition SecretJobNamespace (job : string) : string := "secrets/job/" +:+ job.
Definition IsSecretNamespace (namespace : string) : bool := HasPrefix namespace "secrets/job/".

Definition PutSecret (s : Store) key (nonce namespace k plaintext : string) (ttl : Z) : result kv_error Store :=
  let? encrypted := EncryptPlaintext key nonce plaintext in
  Ok (putValue s namespace k encrypted ttl false).
Definition GetSecret (s : Store) key (namespace k : string) : result kv_error string :=
  let? entry := Get s namespace k in
  DecryptStoredValue key (EValue entry).

(** ** Template access (template_reader.go, catalog.go); a panic is an error *)

Definition RolloutOrderKey : string := "rollout_order".
Definition JobCatalogNamespace (job : string) : string := "kive/job/" +:+ job.
Definition JobWorkerNamespace (job workerIP : string) : string := "kive/job/" +:+ job +:+ "/worker/" +:+ workerIP.
Definition WorkerCatalogNamespace (workerIP : string) : string := "kive/worker/" +:+ workerIP.

Record TemplateReader := mkReader {
  rdStore : Store;
  rdAllowed : list string;
  rdJob : string;
  rdWorkerIP : string;
  rdContextLabel : string;
}.
Inductive reader_panic :=
| NamespaceNotAvailable (namespace job : string)
| KvPanic (e : kv_error)
| BadArgumentCount (func : string).

Definition contextJob (r : TemplateReader) : string :=
  if bool_decide (rdContextLabel r <> "") then rdContextLabel r else rdJob r.
Definition isNotFound (e : kv_error) : bool := match e with ErrNotFound => true | _ => false end.

Definition reader_get (r : TemplateReader) key (namespace k : string) (optional : bool) : result reader_panic string :=
  if (0 <? length (Difference [namespace] (rdAllowed r)))%nat
  then Err (NamespaceNotAvailable namespace (contextJob r))
  else
    let value :=
      if IsSecretNamespace namespace then GetSecret (rdStore r) key namespace k
      else let? e := Get (rdStore r) namespace k in Ok (EValue e) in
    match value with
    | Ok v => Ok v
    | Err e => if optional && isNotFound e then Ok "" else Err (KvPanic e)
    end.

Definition resolveJobArgs (r : TemplateReader) (args : list string) (funcName : string) : result reader_panic (string * string) :=
  match args with
  | [k] => Ok (rdJob r, k)
  | [job; k] => Ok (job, k)
  | _ => Err (BadArgumentCount funcName)
  end.
Definition GetJob (r : TemplateReader) key (args : list string) : result reader_panic string :=
  let? (targetJob, k) := resolveJobArgs r args "getJob" in
  reader_get r key (JobCatalogNamespace targetJob) k false.
Definition GetJobOptional (r : TemplateReader) key (args : list string) : result reader_panic string :=
  let? (targetJob, k) := resolveJobArgs r args "getJobOptional" in
  reader_get r key (JobCatalogNamespace targetJob) k true.
Definition GetJobWorker (r : TemplateReader) key (k : string) (optional : bool) : result reader_panic string :=
  reader_get r key (JobWorkerNamespace (rdJob r) (rdWorkerIP r)) k optional.
Definition GetWorker (r : TemplateReader) key (k : string) (optional : bool) : result reader_panic string :=
  reader_get r key (WorkerCatalogNamespace (rdWorkerIP r)) k optional.
End secrets.
