(* ===== verification/KvFacts.v ===== *)
(** * kv: what the store promises

    [view] is what a reader of the store sees; the operations refine a plain
    map under it, a session that is persisted and loaded again is unchanged,
    and neither expiry nor purging loses a live value. *)
From S2P Require Import Prelude GoStrings Utils Kv.
Open Scope Z_scope.

Definition view_entry (e : Entry) : option (string * Z) :=
  if Deleted e =? 1 then None else Some (EValue e, TTL e).
Definition view (s : Store) (n k : string) : option (string * Z) := find s n k ≫= view_entry.

Lemma find_NewStore n k : find NewStore n k = None.
Proof. unfold find, NewStore. by rewrite lookup_empty. Qed.

Lemma find_setEntry s n k e n' k' :
  find (setEntry s n k e) n' k' = if decide (n = n' /\ k = k') then Some e else find s n' k'.
Proof.
  unfold find, setEntry, namespaceMap. destruct (decide (n = n')) as [->|Hn].
  - rewrite lookup_insert_eq. simpl. destruct (decide (k = k')) as [->|Hk].
    + rewrite lookup_insert_eq, decide_True; done.
    + rewrite lookup_insert_ne by done. rewrite decide_False by naive_solver. by destruct (s !! n').
  - rewrite lookup_insert_ne by done. rewrite decide_False by naive_solver. done.
Qed.

Lemma find_namespaceMap s n k : namespaceMap s n !! k = find s n k.
Proof. unfold namespaceMap, find. by destruct (s !! n). Qed.

Lemma find_PurgeNamespace s n n' k :
  find (PurgeNamespace s n) n' k = if decide (n = n') then purgeEntry <$> find s n' k else find s n' k.
Proof.
  unfold PurgeNamespace, find. destruct (s !! n) as [ns|] eqn:E.
  - destruct (decide (n = n')) as [->|]; [|by rewrite lookup_insert_ne].
    rewrite lookup_insert_eq, E. simpl. by rewrite lookup_fmap.
  - destruct (decide (n = n')) as [->|]; [|done]. by rewrite E.
Qed.

Lemma find_ExpireStaleEntries s now n k : find (ExpireStaleEntries s now) n k = expireEntry now <$> find s n k.
Proof.
  unfold find, ExpireStaleEntries. rewrite lookup_fmap. destruct (s !! n); [|done]. simpl. by rewrite lookup_fmap.
Qed.

Lemma Get_find s n k :
  Get s n k = match find s n k with
              | Some e => if Deleted e =? 1 then Err ErrNotFound else Ok e
              | None => Err ErrNotFound
              end.
Proof. unfold Get, find. destruct (s !! n); [|done]. simpl. done. Qed.

Lemma Delete_find s n k :
  match find s n k with
  | Some e => Delete s n k = Ok (setEntry s n k (tombstone e))
  | None => is_ok (Delete s n k) = false
  end.
Proof.
  unfold Delete, find. destruct (s !! n) as [ns|]; [|done]. simpl. by destruct (ns !! k).
Qed.

(** ** Refinement of a plain map *)

Inductive command :=
| CPut (n k v : string) (ttl : Z)
| CDelete (n k : string)
| CPurge (n : string).

Notation Spec := (gmap (string * string) (string * Z)).

Definition run_cmd (s : Store) (c : command) : Store :=
  match c with
  | CPut n k v ttl => Put s n k v ttl
  | CDelete n k => match Delete s n k with Ok s => s | Err _ => s end
  | CPurge n => PurgeNamespace s n
  end.
Definition spec_cmd (m : Spec) (c : command) : Spec :=
  match c with
  | CPut n k v ttl => <[(n, k) := (TrimSpace v, ttl)]> m
  | CDelete n k => delete (n, k) m
  | CPurge n => filter (fun kv => kv.1.1 <> n) m
  end.
Definition refines (s : Store) (m : Spec) : Prop := forall n k, view s n k = m !! (n, k).

Lemma view_putEntry o v ttl : view_entry (putEntry o v ttl) = Some (v, ttl).
Proof.
  unfold view_entry, putEntry. destruct o as [e|]; [|done].
  destruct (Deleted e =? 1) eqn:Ed; [done|].
  destruct (negb (TTL e =? ttl) || negb (bool_decide (EValue e = v))) eqn:Ec; simpl; rewrite Ed; [done|].
  apply orb_false_iff in Ec as [H1 H2]. bool_to_prop. by subst.
Qed.

Lemma view_tombstone e : view_entry (tombstone e) = None.
Proof. done. Qed.
Lemma view_purgeEntry e : view_entry (purgeEntry e) = None.
Proof. unfold purgeEntry. destruct (Deleted e =? 1) eqn:E; [|done]. unfold view_entry. by rewrite E. Qed.

Lemma refines_step s m c : refines s m -> refines (run_cmd s c) (spec_cmd m c).
Proof.
  intros R n' k'. specialize (R n' k'). unfold view in *. destruct c as [n k v ttl|n k|n]; simpl.
  - unfold Put, putValue. rewrite find_setEntry. destruct (decide _) as [[-> ->]|Hne]; simpl.
    + by rewrite view_putEntry, lookup_insert_eq.
    + rewrite lookup_insert_ne; [done|naive_solver].
  - pose proof (Delete_find s n k) as Hd. destruct (find s n k) as [e|] eqn:Ef.
    + rewrite Hd, find_setEntry. destruct (decide _) as [[-> ->]|Hne]; simpl; [by rewrite lookup_delete_eq|].
      rewrite lookup_delete_ne; [done|naive_solver].
    + destruct (Delete s n k); [done|]. destruct (decide ((n, k) = (n', k'))) as [[= -> ->]|Hne].
      * rewrite lookup_delete_eq. by rewrite Ef.
      * by rewrite lookup_delete_ne.
  - rewrite find_PurgeNamespace. destruct (decide (n = n')) as [->|Hne].
    + rewrite map_lookup_filter_None_2; [|right; naive_solver].
      destruct (find s n' k') as [e|]; simpl; [apply view_purgeEntry|done].
    + rewrite R. symmetry. destruct (m !! (n', k')) eqn:E.
      * apply map_lookup_filter_Some_2; [done|simpl; congruence].
      * apply map_lookup_filter_None_2. by left.
Qed.

(** C20: Whatever sequence of puts, deletes and namespace purges runs, a reader of
    the store sees exactly what a plain map with the same commands holds:
    tombstones, versions and revivals are invisible, and a failed delete
    changes nothing. *)
Theorem store_refines_map cs s m :
  refines s m -> refines (foldl run_cmd s cs) (foldl spec_cmd m cs).
Proof. revert s m. induction cs as [|c cs IH]; intros s m R; [done|]. simpl. apply IH, refines_step, R. Qed.

Lemma store_refines_map_witness :
  let cs := [CPut "n" "a" " 1 " 0; CPut "n" "b" "2" 5; CDelete "n" "a"; CPut "n" "a" "3" 0; CPurge "m"] in
  refines (foldl run_cmd NewStore cs) (foldl spec_cmd ∅ cs).
Proof. intros cs. apply (store_refines_map cs NewStore ∅). intros n k. reflexivity. Defined.

(** ** The store and its table *)

Definition row_at (n k : string) (r : Row) : Prop := rNamespace r = n /\ rKey r = k.
#[global] Instance row_at_dec n k r : Decision (row_at n k r) := _.

Lemma same_key_at n k r r' : row_at n k r -> same_key r r' = true <-> row_at n k r'.
Proof.
  intros [<- <-]. unfold same_key, row_at. rewrite andb_true_iff, !bool_decide_eq_true. naive_solver.
Qed.

(** Row [r] is the only row of the key's highest version. *)
Definition latest_row (t : Table) (n k : string) (r : Row) : Prop :=
  r ∈ t /\ row_at n k r /\
  forall r', r' ∈ t -> row_at n k r' -> rVersion r' <= rVersion r /\ (rVersion r' = rVersion r -> r' = r).
Definition no_row (t : Table) (n k : string) : Prop := forall r, r ∈ t -> ~ row_at n k r.

(** The key of every row and version is unique. *)
Definition table_ok (t : Table) : Prop :=
  forall r r', r ∈ t -> r' ∈ t -> row_at (rNamespace r) (rKey r) r' -> rVersion r = rVersion r' -> r = r'.

(** An unchanged entry is the latest row of its key; a changed one has a
    version above every row of its key. *)
Definition entry_in_sync (t : Table) (n k : string) (o : option Entry) : Prop :=
  match o with
  | None => no_row t n k
  | Some e =>
      if Changed e then forall r, r ∈ t -> row_at n k r -> rVersion r < EVersion e
      else exists r, latest_row t n k r /\ rowEntry r = e
  end.
Definition in_sync (t : Table) (s : Store) : Prop := forall n k, entry_in_sync t n k (find s n k).

Lemma isLatest_spec t n k r :
  row_at n k r -> isLatest t r = true <-> forall r', r' ∈ t -> row_at n k r' -> rVersion r' <= rVersion r.
Proof.
  intros Hr. unfold isLatest. rewrite forallb_forall. split.
  - intros H r' Hin Hat. specialize (H r' (proj1 (list_elem_of_In _ _) Hin)).
    apply orb_true_iff in H as [H|H]; [|blia].
    apply negb_true_iff in H. by rewrite (proj2 (same_key_at n k r r' Hr) Hat) in H.
  - intros H r' Hin%list_elem_of_In. destruct (same_key r r') eqn:E; [|done]. simpl.
    apply Z.leb_le, H; [done|]. by apply (same_key_at n k r).
Qed.

Lemma foldl_load_none L : forall s n k,
  (forall r, r ∈ L -> ~ row_at n k r) ->
  find (foldl (fun s r => setEntry s (rNamespace r) (rKey r) (rowEntry r)) s L) n k = find s n k.
Proof.
  induction L as [|r L IH]; intros s n k H; simpl; [done|].
  rewrite IH by (intros; apply H; set_solver). rewrite find_setEntry, decide_False; [done|].
  intros Hat. by apply (H r); [set_solver|].
Qed.

Lemma foldl_load_some L e : forall s n k,
  (forall r, r ∈ L -> row_at n k r -> rowEntry r = e) ->
  ((exists r, r ∈ L /\ row_at n k r) \/ find s n k = Some e) ->
  find (foldl (fun s r => setEntry s (rNamespace r) (rKey r) (rowEntry r)) s L) n k = Some e.
Proof.
  induction L as [|r L IH]; intros s n k H Hex; simpl; [destruct Hex as [(? & ?%not_elem_of_nil & _)|]; done|].
  apply IH; [intros; apply H; set_solver|]. rewrite find_setEntry.
  destruct (decide _) as [Hat|Hat].
  - right. f_equal. apply H; [set_solver|done].
  - destruct Hex as [(r' & [->|Hin]%elem_of_cons & Hr')|]; [by destruct Hat|left; eauto|by right].
Qed.

Lemma Load_latest t n k r : latest_row t n k r -> find (LoadFromTransaction t) n k = Some (rowEntry r).
Proof.
  intros (Hin & Hat & Hmax). unfold LoadFromTransaction. apply foldl_load_some.
  - intros r' [Hin' Hl]%elem_of_list_filter_b Hat'. destruct (Hmax r' Hin' Hat') as [Hle Heq].
    rewrite (isLatest_spec t n k r' Hat') in Hl. rewrite Heq; [done|]. specialize (Hl r Hin Hat). lia.
  - left. exists r. split; [|done]. apply elem_of_list_filter_b. split; [done|].
    rewrite (isLatest_spec t n k r Hat). intros r' Hin' Hat'. by apply Hmax.
Qed.
Lemma Load_none t n k : no_row t n k -> find (LoadFromTransaction t) n k = None.
Proof.
  intros H. unfold LoadFromTransaction. rewrite foldl_load_none; [done|].
  intros r [Hin _]%elem_of_list_filter_b. by apply H.
Qed.

Lemma latest_row_exists t n k : table_ok t -> no_row t n k \/ exists r, latest_row t n k r.
Proof.
  intros Hok.
  assert (no_row t n k \/ exists r, r ∈ t /\ row_at n k r /\ forall r', r' ∈ t -> row_at n k r' -> rVersion r' <= rVersion r) as Hm.
  { clear Hok. induction t as [|a t IH]; [left; intros r Hr; set_solver|].
    destruct (decide (row_at n k a)) as [Ha|Ha].
    - right. destruct IH as [Hno|(r & Hin & Hat & Hmax)].
      + exists a. split_and!; [set_solver|done|]. intros r' [->|Hr']%elem_of_cons Hat'; [lia|]. by destruct (Hno r').
      + destruct (decide (rVersion a <= rVersion r)).
        * exists r. split_and!; [set_solver|done|]. intros r' [->|Hr']%elem_of_cons Hat'; [lia|auto].
        * exists a. split_and!; [set_solver|done|]. intros r' [->|Hr']%elem_of_cons Hat'; [lia|].
          specialize (Hmax r' Hr' Hat'). lia.
    - destruct IH as [Hno|(r & Hin & Hat & Hmax)].
      + left. intros r [->|Hr]%elem_of_cons; [done|by apply Hno].
      + right. exists r. split_and!; [set_solver|done|]. intros r' [->|Hr']%elem_of_cons Hat'; [done|auto]. }
  destruct Hm as [|(r & Hin & Hat & Hmax)]; [by left|right]. exists r. split_and!; [done..|].
  intros r' Hin' Hat'. split; [by apply Hmax|]. intros Heq. apply Hok; [done..| |done].
  destruct Hat, Hat'. split; congruence.
Qed.

Lemma Load_in_sync t : table_ok t -> in_sync t (LoadFromTransaction t).
Proof.
  intros Hok n k. destruct (latest_row_exists t n k Hok) as [Hno|(r & Hr)].
  - by rewrite Load_none.
  - rewrite (Load_latest _ _ _ r) by done. simpl. eauto.
Qed.

(** ** Every operation keeps the store in step with the table *)

Definition versions_below (s : Store) : Prop :=
  forall n k e, find s n k = Some e -> 0 <= EVersion e < max_int64.

Lemma bumped_in_sync t n k e value ttl del :
  0 <= EVersion e < max_int64 -> entry_in_sync t n k (Some e) ->
  entry_in_sync t n k (Some (mkEntry value (wrap64 (EVersion e + 1)) ttl del true (LastModifiedTime e))).
Proof.
  intros Hv Hs. unfold max_int64 in *. simpl. rewrite wrap64_id
    by (unfold in_int64, min_int64, max_int64; apply andb_true_iff; split; apply Z.leb_le; lia).
  intros r Hin Hat. simpl in Hs. destruct (Changed e).
  - specialize (Hs r Hin Hat). lia.
  - destruct Hs as (r' & (_ & _ & Hmax) & <-). destruct (Hmax r Hin Hat) as [? _]. simpl. lia.
Qed.

Lemma putEntry_in_sync t n k o value ttl :
  (forall e, o = Some e -> 0 <= EVersion e < max_int64) -> entry_in_sync t n k o ->
  entry_in_sync t n k (Some (putEntry o value ttl)).
Proof.
  intros Hv Hs. unfold putEntry. destruct o as [e|].
  - specialize (Hv e eq_refl). repeat case_match; try done; by apply bumped_in_sync.
  - simpl. intros r Hin Hat. by destruct (Hs r Hin).
Qed.

Lemma setEntry_in_sync t s n k e :
  in_sync t s -> entry_in_sync t n k (Some e) -> in_sync t (setEntry s n k e).
Proof. intros Hs He n' k'. rewrite find_setEntry. by destruct (decide _) as [[-> ->]|]. Qed.

(** Every command of the store, and the expiry of stale entries, keeps it in
    step with the [key_value] table it was loaded from: versions of changed
    entries stay above all stored ones, unchanged entries stay the latest row. *)
Theorem commands_keep_in_sync t s c now :
  in_sync t s -> versions_below s ->
  in_sync t (run_cmd s c) /\ in_sync t (ExpireStaleEntries s now).
Proof.
  intros Hs Hv. split.
  - destruct c as [n k v ttl|n k|n]; simpl.
    + unfold Put, putValue. apply setEntry_in_sync; [done|]. rewrite find_namespaceMap.
      apply putEntry_in_sync; [apply Hv|apply Hs].
    + pose proof (Delete_find s n k) as Hd. destruct (find s n k) as [e|] eqn:Ef.
      * rewrite Hd. apply setEntry_in_sync; [done|]. apply bumped_in_sync; [by eapply Hv|]. by rewrite <- Ef.
      * by destruct (Delete s n k).
    + intros n' k'. rewrite find_PurgeNamespace. destruct (decide (n = n')) as [->|]; [|done].
      specialize (Hs n' k'). destruct (find s n' k') as [e|] eqn:Ef; [|done]. simpl fmap. unfold purgeEntry.
      case_match; [done|]. apply bumped_in_sync; [by eapply Hv|done].
  - intros n k. rewrite find_ExpireStaleEntries. specialize (Hs n k).
    destruct (find s n k) as [e|] eqn:Ef; [|done]. simpl fmap. unfold expireEntry.
    repeat case_match; try done. apply bumped_in_sync; [by eapply Hv|done].
Qed.

Lemma commands_keep_in_sync_witness : in_sync [] (run_cmd NewStore (CPut "n" "k" "v" 0)).
Proof.
  apply (commands_keep_in_sync [] NewStore (CPut "n" "k" "v" 0) 0).
  - intros n k. rewrite find_NewStore. intros r Hr. by apply not_elem_of_nil in Hr.
  - intros n k e He. rewrite find_NewStore in He. discriminate He.
Defined.

(** ** Persisting *)

Section persist.
Variable exec : Row -> Table -> option Table.
(** SQLite's INSERT into the unconstrained table adds the row. *)
Hypothesis exec_insert : forall r t, exec r t = Some (t ++ [r]).

Lemma saved_latest t n k e at_ :
  (forall r, r ∈ t -> row_at n k r -> rVersion r < EVersion e) ->
  latest_row (t ++ [entryRow n k e at_]) n k (entryRow n k e at_).
Proof.
  intros H. split_and!; [set_solver|done|].
  intros r' [Hin|Hin]%elem_of_app Hat.
  - specialize (H r' Hin Hat). simpl. lia.
  - apply list_elem_of_singleton in Hin as ->. done.
Qed.

Lemma entry_in_sync_other t n k o n' k' e at_ :
  ~ (n = n' /\ k = k') -> entry_in_sync t n' k' o -> entry_in_sync (t ++ [entryRow n k e at_]) n' k' o.
Proof.
  intros Hne. assert (forall r, r ∈ t ++ [entryRow n k e at_] -> row_at n' k' r -> r ∈ t) as Hold.
  { intros r [?|Hr]%elem_of_app Hat; [done|]. apply list_elem_of_singleton in Hr as ->. by destruct Hne. }
  unfold entry_in_sync. destruct o as [e'|]; [destruct (Changed e')|].
  - intros H r Hin Hat. eauto.
  - intros (r & (Hin & Hat & Hmax) & He). exists r. split; [|done]. split_and!; [set_solver|done|]. intros r' Hin' Hat'. eauto.
  - intros H r Hin Hat. by apply (H r); eauto.
Qed.

Lemma persistLoop_spec at_ order : forall t s,
  in_sync t s ->
  exists t' s', persistLoop exec at_ order t s = (Ok t', s') /\ in_sync t' s' /\
    (forall n k, view s' n k = view s n k) /\
    (forall n k e, find s' n k = Some e -> Changed e = true -> (n, k) ∉ order /\ find s n k = Some e).
Proof.
  induction order as [|[n k] order IH]; intros t s Hs; cbn [persistLoop].
  { exists t, s. split_and!; try done. intros n k e He _. split; [set_solver|done]. }
  destruct (find s n k) as [e|] eqn:Ef.
  - destruct (Changed e) eqn:Ec; simpl.
    + rewrite exec_insert. set (t1 := t ++ [entryRow n k e at_]). set (s1 := setEntry s n k (saved e at_)).
      assert (in_sync t1 s1) as Hs1.
      { intros n' k'. unfold s1. rewrite find_setEntry. destruct (decide _) as [[<- <-]|Hne].
        - simpl. exists (entryRow n k e at_). split; [|done]. apply saved_latest.
          specialize (Hs n k). rewrite Ef in Hs. simpl in Hs. by rewrite Ec in Hs.
        - apply entry_in_sync_other; [done|apply Hs]. }
      destruct (IH t1 s1 Hs1) as (t' & s' & -> & Hs' & Hview & Hch). exists t', s'. split_and!; try done.
      * intros n' k'. rewrite Hview. unfold view, s1. rewrite find_setEntry.
        destruct (decide _) as [[<- <-]|]; [|done]. by rewrite Ef.
      * intros n' k' e' He' Hc'. destruct (Hch n' k' e' He' Hc') as [Hnin Hf]. unfold s1 in Hf.
        rewrite find_setEntry in Hf. destruct (decide _) as [[<- <-]|Hne]; [by injection Hf as <-|].
        split; [|done]. intros [[= -> ->]|?]%elem_of_cons; [by destruct Hne|done].
    + destruct (IH t s Hs) as (t' & s' & -> & Hs' & Hview & Hch). exists t', s'. split_and!; try done.
      intros n' k' e' He' Hc'. destruct (Hch n' k' e' He' Hc') as [Hnin Hf]. split; [|done].
      intros [[= -> ->]|?]%elem_of_cons; [congruence|done].
  - destruct (IH t s Hs) as (t' & s' & -> & Hs' & Hview & Hch). exists t', s'. split_and!; try done.
    intros n' k' e' He' Hc'. destruct (Hch n' k' e' He' Hc') as [Hnin Hf]. split; [|done].
    intros [[= -> ->]|?]%elem_of_cons; [congruence|done].
Qed.

(** C21: Persisting a store that is in step with its table, in whatever order the
    map iteration visits it, succeeds, leaves nothing pending, changes nothing
    a reader sees, and a store loaded back from the new table holds the same
    entries, versions and tombstones included. *)
Theorem persist_load_roundtrip at_ order t s :
  in_sync t s -> (forall n k e, find s n k = Some e -> (n, k) ∈ order) ->
  exists t' s',
    PersistToTransaction exec at_ order t s = (Ok t', s') /\
    (forall n k e, find s' n k = Some e -> Changed e = false) /\
    (forall n k, view s' n k = view s n k) /\
    (forall n k, find (LoadFromTransaction t') n k = find s' n k) /\
    in_sync t' (LoadFromTransaction t').
Proof.
  intros Hs Hall. destruct (persistLoop_spec at_ order t s Hs) as (t' & s' & E & Hs' & Hview & Hch).
  exists t', s'. split; [exact E|].
  assert (forall n k e, find s' n k = Some e -> Changed e = false) as Hnc.
  { intros n k e He. destruct (Changed e) eqn:Ec; [|done]. destruct (Hch n k e He Ec) as [Hn Hf].
    destruct Hn. by eapply Hall. }
  assert (forall n k, find (LoadFromTransaction t') n k = find s' n k) as Hload.
  { intros n k. specialize (Hs' n k). destruct (find s' n k) as [e|] eqn:Ef.
    - simpl in Hs'. rewrite (Hnc n k e Ef) in Hs'. destruct Hs' as (r & Hr & <-). by apply Load_latest.
    - by apply Load_none. }
  split_and!; [done..|]. intros n k. rewrite Hload. apply Hs'.
Qed.
End persist.

Lemma persist_load_roundtrip_witness :
  exists t' s', PersistToTransaction (fun r t => Some (t ++ [r])) 100 [("n", "k")] [] (Put NewStore "n" "k" "v" 0) = (Ok t', s')
    /\ forall n k, find (LoadFromTransaction t') n k = find s' n k.
Proof.
  destruct (persist_load_roundtrip (fun r t => Some (t ++ [r])) (fun _ _ => eq_refl) 100 [("n", "k")] []
    (Put NewStore "n" "k" "v" 0)) as (t' & s' & H1 & _ & _ & H2 & _).
  - intros n k. unfold Put, putValue. rewrite find_setEntry. destruct (decide _) as [[<- <-]|_].
    + rewrite find_namespaceMap, find_NewStore. intros r Hr. by apply not_elem_of_nil in Hr.
    + rewrite find_NewStore. intros r Hr. by apply not_elem_of_nil in Hr.
  - intros n k e. unfold Put, putValue. rewrite find_setEntry. destruct (decide _) as [[<- <-]|_].
    + intros _. by apply list_elem_of_singleton.
    + by rewrite find_NewStore.
  - exists t', s'. split; assumption.
Defined.

(** ** Expiry *)

(** [ExpireStaleEntries] hides exactly the entries that [EntryExpired]
    reports, except those written in this session, and touches no other. *)
Theorem ExpireStaleEntries_view s now n k :
  view (ExpireStaleEntries s now) n k =
  match find s n k with
  | Some e => if EntryExpired e now && negb (Changed e) then None else view_entry e
  | None => None
  end.
Proof.
  unfold view. rewrite find_ExpireStaleEntries. destruct (find s n k) as [e|]; [|done].
  unfold expireEntry, EntryExpired. simpl. rewrite Z.gtb_ltb, (Z.leb_antisym now (wrap64 _)).
  destruct (Deleted e =? 1), (Changed e), (TTL e <=? 0), (now <? wrap64 (LastModifiedTime e + TTL e)); done.
Qed.

(** ** Purging *)

Lemma latestOf_latest t n k r r' :
  latest_row t n k r -> r' ∈ t -> row_at n k r' -> latestOf t r' = Some r.
Proof.
  intros (Hin & Hat & Hmax) Hin' Hat'. unfold latestOf.
  assert (forall x, x ∈ List.filter (fun x => same_key r' x && isLatest t x) t <-> x = r) as Hx.
  { intros x. rewrite elem_of_list_filter_b, andb_true_iff, (same_key_at n k r' x Hat'). split.
    - intros (Hx & Hatx & Hl). rewrite (isLatest_spec t n k x Hatx) in Hl.
      apply Hmax; [done..|]. specialize (Hl r Hin Hat). destruct (Hmax x Hx Hatx). lia.
    - intros ->. split_and!; [done..|]. rewrite (isLatest_spec t n k r Hat). intros y Hy Hyat. by apply Hmax. }
  destruct (List.filter _ _) as [|x l] eqn:E.
  - destruct (not_elem_of_nil r). by apply Hx.
  - simpl. f_equal. apply Hx. set_solver.
Qed.

Lemma latest_row_unique t n k r r' : latest_row t n k r -> latest_row t n k r' -> r = r'.
Proof.
  intros (Hin & Hat & Hmax) (Hin' & Hat' & Hmax'). apply Hmax'; [done..|].
  destruct (Hmax r' Hin' Hat'), (Hmax' r Hin Hat). lia.
Qed.

(** Purging old versions never changes what a reader of the reloaded store
    sees, and keeps the newest version and the [MaxVersionsToKeep] before it
    of every key that is not deleted. *)
Theorem PurgeStaleVersions_keeps_view t now days n k :
  table_ok t ->
  view (LoadFromTransaction (PurgeStaleVersions t now days)) n k = view (LoadFromTransaction t) n k /\
  (forall latest r, latest_row t n k latest -> rDeleted latest <> 1 -> r ∈ t -> row_at n k r ->
     rVersion latest - MaxVersionsToKeep <= rVersion r -> r ∈ PurgeStaleVersions t now days).
Proof.
  intros Hok. unfold PurgeStaleVersions. set (d := if days <? 0 then 0 else days). split.
  - destruct (latest_row_exists t n k Hok) as [Hno|(r & Hr)].
    + unfold view. rewrite !Load_none; [done|done|]. intros r [Hin _]%elem_of_list_filter_b. by apply Hno.
    + pose proof Hr as (Hin & Hat & Hmax). unfold view. rewrite (Load_latest t n k r Hr).
      destruct (purgeable t now d r) eqn:Ep.
      * unfold purgeable in Ep. rewrite (latestOf_latest t n k r r) in Ep by done.
        apply andb_true_iff in Ep as [[Ep|Ep]%orb_true_iff Hold]; [unfold MaxVersionsToKeep in *; blia|].
        unfold view_entry at 2. simpl. rewrite Ep. rewrite Load_none; [done|].
        intros r' [Hin' Hp]%elem_of_list_filter_b Hat'. apply negb_true_iff in Hp. unfold purgeable in Hp.
        rewrite (latestOf_latest t n k r r'), Ep, Hold, orb_true_r in Hp by done. done.
      * rewrite (Load_latest _ n k r); [done|]. split_and!; [|done|].
        -- apply elem_of_list_filter_b. by rewrite Ep.
        -- intros r' [Hin' _]%elem_of_list_filter_b Hat'. by apply Hmax.
  - intros latest r Hl Hdel Hin Hat Hv. apply elem_of_list_filter_b. split; [done|].
    unfold purgeable. rewrite (latestOf_latest t n k latest r) by done.
    rewrite (proj2 (Z.ltb_ge _ _)) by done. by rewrite (proj2 (Z.eqb_neq _ _)).
Qed.

Lemma PurgeStaleVersions_keeps_view_witness :
  let t := [mkRow "k" "old" "n" 1 0 5 0; mkRow "k" "new" "n" 9 0 6 0] in
  view (LoadFromTransaction (PurgeStaleVersions t 1000000 1)) "n" "k" = view (LoadFromTransaction t) "n" "k" /\
  PurgeStaleVersions t 1000000 1 = [mkRow "k" "new" "n" 9 0 6 0].
Proof.
  intros t. split; [|vm_compute; reflexivity]. apply (PurgeStaleVersions_keeps_view t 1000000 1 "n" "k").
  intros r r' Hr Hr' _ Hv. unfold t in *.
  repeat (apply elem_of_cons in Hr as [->|Hr]); try (by apply not_elem_of_nil in Hr);
    repeat (apply elem_of_cons in Hr' as [->|Hr']); try (by apply not_elem_of_nil in Hr'); by try discriminate.
Defined.

(** The age test of the purge looks at the newest row only: while a key keeps
    being written, none of its old versions is removed, however old. *)
Theorem Purge_keeps_all_of_fresh_key t now days n k latest r :
  latest_row t n k latest -> now - (if days <? 0 then 0 else days) * 24 * 60 * 60 <= rCreated latest ->
  r ∈ t -> row_at n k r -> r ∈ PurgeStaleVersions t now days.
Proof.
  intros Hl Hc Hin Hat. apply elem_of_list_filter_b. split; [done|].
  unfold purgeable. rewrite (latestOf_latest t n k latest r) by done.
  rewrite (proj2 (Z.ltb_ge (rCreated latest) _)) by done. by rewrite andb_false_r.
Qed.

Lemma Purge_keeps_all_of_fresh_key_witness :
  let t := [mkRow "k" "old" "n" 1 0 5 0; mkRow "k" "new" "n" 100 0 999999 0] in
  mkRow "k" "old" "n" 1 0 5 0 ∈ PurgeStaleVersions t 1000000 7.
Proof.
  intros t. apply (Purge_keeps_all_of_fresh_key t 1000000 7 "n" "k" (mkRow "k" "new" "n" 100 0 999999 0)).
  - split_and!; [apply list_elem_of_further; by apply list_elem_of_singleton|done|].
    intros r' Hr' _. unfold t in Hr'. apply elem_of_cons in Hr' as [->|Hr']; [by split|].
    apply list_elem_of_singleton in Hr' as ->. by split.
  - vm_compute. discriminate.
  - apply elem_of_cons. by left.
  - done.
Defined.

(** ** Secrets and template access *)

Section secrets.
Context `{L : CryptoLaws}.

Lemma Decrypt_Encrypt key nonce plain stored :
  String.length nonce = nonceSize ->
  EncryptPlaintext key nonce plain = Ok stored -> DecryptStoredValue key stored = Ok plain.
Proof.
  intros Hn. unfold EncryptPlaintext, DecryptStoredValue, IsEncryptedValue.
  destruct key as [key|]; [|done]. intros E.
  assert (stored = encryptedValuePrefix +:+ Encode (nonce +:+ Seal key nonce plain)) as -> by congruence.
  rewrite HasPrefix_app, TrimPrefix_app, Decode_Encode. cbn [negb].
  rewrite (proj2 (Nat.ltb_ge _ _)) by (rewrite slen_app; lia).
  by rewrite <- Hn, stake_cat, sdrop_cat, Open_Seal.
Qed.

(** A stored secret is read back as it was, blanks included, as long as the
    key file is the one it was written with; without the key nothing is
    stored. *)
Theorem GetSecret_PutSecret s key nonce namespace k plaintext ttl :
  String.length nonce = nonceSize ->
  match PutSecret s key nonce namespace k plaintext ttl with
  | Ok s' => GetSecret s' key namespace k = Ok plaintext /\
             forall n' k', ~ (namespace = n' /\ k = k') -> find s' n' k' = find s n' k'
  | Err e => key = None /\ e = ErrEncryptionKeyMissing
  end.
Proof.
  intros Hn. unfold PutSecret. destruct (EncryptPlaintext key nonce plaintext) as [enc|e] eqn:E; simpl.
  - split; [|intros; unfold putValue; by rewrite find_setEntry, decide_False].
    unfold GetSecret. rewrite Get_find. unfold putValue. rewrite find_setEntry, decide_True by done.
    pose proof (view_putEntry (namespaceMap s namespace !! k) enc ttl) as Hv. unfold view_entry in Hv.
    case_match; [done|]. injection Hv as Hv _. simpl. rewrite Hv. by apply (Decrypt_Encrypt key nonce).
  - destruct key; simpl in E; [done|]. by injection E as <-.
Qed.
End secrets.

(** A toy cipher that satisfies the laws: the ciphertext is the plaintext. *)
#[local] Instance toy_crypto : Crypto :=
  {| Seal _ _ p := p; Open_ _ _ c := Some c; Encode s := s; Decode s := Some s; nonceSize := 2 |}.
#[local] Instance toy_laws : CryptoLaws toy_crypto.
Proof. by split. Qed.

Lemma GetSecret_PutSecret_witness :
  GetSecret (putValue NewStore "secrets/job/a" "pw" "enc:v1:nn x " 0 false) (Some "key") "secrets/job/a" "pw" = Ok " x ".
Proof.
  apply (GetSecret_PutSecret (L := toy_laws) NewStore (Some "key") "nn" "secrets/job/a" "pw" " x " 0). reflexivity.
Defined.

Section reader.
Context `{Crypto}.

Lemma Difference_single n allowed : (0 <? length (Difference [n] allowed))%nat = negb (bool_decide (n ∈ allowed)).
Proof.
  unfold Difference. cbn [length Nat.eqb List.filter].
  assert (bool_decide (n ∈ (list_to_set allowed : gset string)) = bool_decide (n ∈ allowed)) as ->
    by (apply bool_decide_ext; set_solver).
  by case_bool_decide.
Qed.

(** A template reads a namespace only if the reader allows it; what it reads
    depends on that one key alone, and a missing key is the empty string
    exactly when the read is optional. *)
Theorem reader_get_confined r s' key n k optional :
  (n ∉ rdAllowed r -> reader_get r key n k optional = Err (NamespaceNotAvailable n (contextJob r))) /\
  (view (rdStore r) n k = view s' n k ->
   reader_get r key n k optional
   = reader_get (mkReader s' (rdAllowed r) (rdJob r) (rdWorkerIP r) (rdContextLabel r)) key n k optional) /\
  (n ∈ rdAllowed r -> view (rdStore r) n k = None ->
   reader_get r key n k optional = if optional then Ok "" else Err (KvPanic ErrNotFound)).
Proof.
  unfold reader_get. rewrite Difference_single. cbn [rdAllowed rdStore]. split_and!.
  - intros Hn. by rewrite bool_decide_false.
  - intros Hv. change (contextJob (mkReader s' _ _ _ _)) with (contextJob r).
    assert (GetSecret (rdStore r) key n k = GetSecret s' key n k /\
            rbind (Get (rdStore r) n k) (fun e => Ok (EValue e)) = rbind (Get s' n k) (fun e => Ok (EValue e))) as [-> ->];
      [|by rewrite Difference_single].
    unfold GetSecret. rewrite !Get_find. unfold view, view_entry in Hv.
    destruct (find (rdStore r) n k) as [e|], (find s' n k) as [e'|]; simpl in *;
      repeat case_match; simplify_eq; simpl; try done; split; congruence.
  - intros Hn Hv. rewrite bool_decide_true by done. simpl.
    assert (Get (rdStore r) n k = Err ErrNotFound) as E.
    { rewrite Get_find. unfold view, view_entry in Hv. destruct (find (rdStore r) n k); [|done]. simpl in Hv. by case_match. }
    unfold GetSecret. rewrite E. simpl. by destruct (IsSecretNamespace n), optional.
Qed.
End reader.

Lemma reader_get_confined_witness :
  reader_get (H := toy_crypto) (mkReader NewStore ["kive/job/a"] "a" "" "") None "kive/job/b" "k" true
  = Err (NamespaceNotAvailable "kive/job/b" "a").
Proof.
  destruct (reader_get_confined (H := toy_crypto) (mkReader NewStore ["kive/job/a"] "a" "" "") NewStore None "kive/job/b" "k" true)
    as [Hd _]. apply Hd.
  intros Hin. apply list_elem_of_singleton in Hin. discriminate Hin.
Defined.
