(* ===== verification/Rollout.v ===== *)
(** * rollout: the order and the batches of a rollout

    rollout/order.go and the batch loops of deploy/rollout.go. The catalog
    query, the health checks, the hooks and the promotion are arguments; the
    callbacks of one batch, which deploy/parallel.go runs concurrently, are
    one operation here and a step relation in [Parallel]. *)
From S2P Require Import Prelude GoStrings Utils Kv.
Open Scope Z_scope.

Definition OrderSourceKV : string := "kv".
Definition OrderSourceDefault : string := "default".

Record ResolvedOrder := mkResolved { Ordered : list string; FullOrder : string; Source : string }.

Definition set_of (l : list string) : gset string := list_to_set l.

Definition readRolloutOrderKV (store : option Store) (job : string) : option string :=
  match store with
  | None => None
  | Some s =>
      match Get s (JobCatalogNamespace job) RolloutOrderKey with
      | Err _ => None
      | Ok item => if bool_decide (TrimSpace (EValue item) = "") then None else Some (TrimSpace (EValue item))
      end
  end.

Definition parseOrderList (raw : string) : list string :=
  List.filter nonempty_string (map TrimSpace (Split raw ","%char)).

Inductive order_reason :=
| OrderEmpty
| OrderDuplicate (ip : string)
| OrderUnknown (ip : string)
| OrderMissing (ip : string).

Fixpoint validateLoop (activeSet seen : gset string) (orderList : list string) : option order_reason * gset string :=
  match orderList with
  | [] => (None, seen)
  | ip :: orderList =>
      if bool_decide (ip ∈ seen) then (Some (OrderDuplicate ip), seen)
      else
        let seen := {[ip]} ∪ seen in
        if bool_decide (ip ∈ activeSet) then validateLoop activeSet seen orderList
        else (Some (OrderUnknown ip), seen)
  end.
(** [None] is the answer [true]. The missing allocation that is reported is
    the first in some order of the set, as with Go's map iteration. *)
Definition validateRolloutOrderList (orderList : list string) (activeSet : gset string) : option order_reason :=
  if (length orderList =? 0)%nat && negb (bool_decide (activeSet = ∅)) then Some OrderEmpty
  else
    match validateLoop activeSet ∅ orderList with
    | (Some r, _) => Some r
    | (None, seen) =>
        match List.filter (fun ip => negb (bool_decide (ip ∈ seen))) (elements activeSet) with
        | ip :: _ => Some (OrderMissing ip)
        | [] => None
        end
    end.

(** The second loop appends the candidates the catalog does not list. *)
Fixpoint appendMissing (ordered candidates : list string) : list string :=
  match candidates with
  | [] => ordered
  | ip :: candidates =>
      if existsb (fun existing => bool_decide (existing = ip)) ordered
      then appendMissing ordered candidates
      else appendMissing (ordered ++ [ip]) candidates
  end.
Definition defaultCatalogOrder (catalog candidates : list string) : list string :=
  appendMissing (List.filter (fun ip => bool_decide (ip ∈ set_of candidates)) catalog) candidates.
Definition orderByList (candidates orderList : list string) : list string :=
  List.filter (fun ip => bool_decide (ip ∈ set_of candidates)) orderList.

(** [catalog] is the answer of [data.GetNonRemovedAllocationsOrdered]. *)
Definition ResolveOrder {E} (catalog : result E (list string)) (store : option Store) (job : string)
    (candidates : list string) : result E ResolvedOrder :=
  if (length candidates =? 0)%nat then Ok (mkResolved [] "" "")
  else
    let activeSet := set_of candidates in
    let? catalog := catalog in
    let defaultOrdered := defaultCatalogOrder catalog candidates in
    let by_default := mkResolved defaultOrdered (Join defaultOrdered ",") OrderSourceDefault in
    match readRolloutOrderKV store job with
    | None => Ok by_default
    | Some rawOrder =>
        let orderList := parseOrderList rawOrder in
        match validateRolloutOrderList orderList activeSet with
        | Some _ => Ok by_default
        | None => Ok (mkResolved (orderByList candidates orderList) rawOrder OrderSourceKV)
        end
    end.

(** ** The batch loops (deploy/rollout.go) *)

Definition deployPhaseNew : string := "new".
Definition deployPhaseUpdate : string := "update".

Section loops.
Context {St E : Type}.
Notation step := (St -> St * option E).
(** The database reads and effects of a rollout of one job. *)
Variable isActive : string -> St -> result E bool.
Variable catalogOf : St -> result E (list string).
Variable sessionStore : St -> option Store.
Variable preBatchHealthCheck : step.
Variable runParallelWorkers : list string -> step.
Variable executeAfterAllocation : list string -> BatchContext -> step.
Variable promoteThenHealth : list string -> step.

(** [data.IsAllocationActive] on each worker in turn. *)
Fixpoint activeWorkers (workers : list string) (s : St) : result E (list string) :=
  match workers with
  | [] => Ok []
  | ip :: workers =>
      let? ok := isActive ip s in
      let? rest := activeWorkers workers s in
      Ok (if ok then ip :: rest else rest)
  end.

Definition andThen (a b : step) : step :=
  fun s => match a s with (s, Some e) => (s, Some e) | (s, None) => b s end.

Definition runBatch (phase job : string) (r : ResolvedOrder) (size count : Z) (b : Z * list string) : step :=
  let '(i, batch) := b in
  let batchCtx := mkBatchContext job phase (Z.quot i size) count batch (FullOrder r) (Source r) in
  andThen preBatchHealthCheck
    (andThen (runParallelWorkers batch)
      (andThen (executeAfterAllocation batch batchCtx) (promoteThenHealth batch))).

Fixpoint runRollout (phase job : string) (r : ResolvedOrder) (size count : Z) (batches : list (Z * list string)) : step :=
  match batches with
  | [] => fun s => (s, None)
  | b :: batches => andThen (runBatch phase job r size count b) (runRollout phase job r size count batches)
  end.

(** [rolloutStartBatches] and [rolloutRestartBatches] differ in the phase, in
    the restart loop's lower bound on [parallelism], and in their callbacks. *)
Definition rolloutBatches (phase job : string) (parallelism hardCap : result E Z) (candidates : list string)
    (s : St) : St * option E :=
  if (length candidates =? 0)%nat then (s, None)
  else
    match activeWorkers candidates s with
    | Err e => (s, Some e)
    | Ok active =>
        if (length active =? 0)%nat then (s, None)
        else
          match ResolveOrder (catalogOf s) (sessionStore s) job active with
          | Err e => (s, Some e)
          | Ok resolved =>
              match parallelism, hardCap with
              | Err e, _ => (s, Some e)
              | Ok _, Err e => (s, Some e)
              | Ok parallelism, Ok hardCap =>
                  let size := effectiveBatchSize parallelism (len (Ordered resolved)) hardCap in
                  let count := BatchCount (len (Ordered resolved)) size in
                  runRollout phase job resolved size count
                    (batchesFrom (length (Ordered resolved)) (Ordered resolved) size 0) s
              end
          end
    end.
Definition rolloutStartBatches (job : string) (maxConcurrentStarts hardCap : result E Z)
    (candidates : list string) : step :=
  rolloutBatches deployPhaseNew job maxConcurrentStarts hardCap candidates.
Definition atLeastOne (n : Z) : Z := if n <? 1 then 1 else n.
Definition rolloutRestartBatches (job : string) (maxConcurrentRestarts hardCap : result E Z)
    (candidates : list string) : step :=
  rolloutBatches deployPhaseUpdate job (let? n := maxConcurrentRestarts in Ok (atLeastOne n)) hardCap candidates.
End loops.

(** ** The resolved order *)

Lemma elem_set_of x l : x ∈ set_of l <-> x ∈ l.
Proof. apply elem_of_list_to_set. Qed.

Lemma appendMissing_spec candidates : forall ordered,
  (forall x, x ∈ appendMissing ordered candidates <-> x ∈ ordered \/ x ∈ candidates) /\
  (NoDup ordered -> NoDup (appendMissing ordered candidates)) /\
  (exists extra, appendMissing ordered candidates = ordered ++ extra).
Proof.
  induction candidates as [|ip candidates IH]; intros ordered; simpl.
  { split_and!; [set_solver|done|by exists []; rewrite app_nil_r]. }
  assert (existsb (fun existing => bool_decide (existing = ip)) ordered = bool_decide (ip ∈ ordered)) as ->.
  { apply eq_true_iff_eq. rewrite existsb_exists, bool_decide_eq_true, list_elem_of_In.
    split; [by intros (y & ? & ->%bool_decide_eq_true)|intros; exists ip; by rewrite bool_decide_true]. }
  case_bool_decide as Hin.
  - destruct (IH ordered) as (He & Hn & Hp). split_and!; [|done|done]. intros x. rewrite He. set_solver.
  - destruct (IH (ordered ++ [ip])) as (He & Hn & extra & Hp). split_and!.
    + intros x. rewrite He. set_solver.
    + intros Hnd. apply Hn. apply NoDup_app. split_and!; [done| |apply NoDup_singleton].
      intros y Hy ->%list_elem_of_singleton. done.
    + exists (ip :: extra). by rewrite Hp, <- app_assoc.
Qed.

Lemma validateLoop_spec activeSet orderList : forall seen seen',
  validateLoop activeSet seen orderList = (None, seen') ->
  NoDup orderList /\ (forall x, x ∈ orderList -> x ∈ activeSet /\ x ∉ seen) /\
  (forall x, x ∈ seen' <-> x ∈ seen \/ x ∈ orderList).
Proof.
  induction orderList as [|ip orderList IH]; intros seen seen'; simpl.
  { intros [= <-]. split_and!; [constructor|set_solver|set_solver]. }
  case_bool_decide as Hs; [done|]. case_bool_decide as Ha; [|done].
  intros H. destruct (IH _ _ H) as (Hn & Hx & Hs'). split_and!.
  - constructor; [|done]. intros Hin. destruct (Hx ip Hin). set_solver.
  - intros x [->|Hin]%elem_of_cons; [done|]. destruct (Hx x Hin). set_solver.
  - intros x. rewrite Hs'. set_solver.
Qed.

Lemma validate_spec orderList activeSet :
  validateRolloutOrderList orderList activeSet = None ->
  NoDup orderList /\ forall x, x ∈ orderList <-> x ∈ activeSet.
Proof.
  unfold validateRolloutOrderList. case_match eqn:E0; [done|].
  destruct (validateLoop activeSet ∅ orderList) as [[r|] seen] eqn:E; [done|].
  apply validateLoop_spec in E as (Hn & Hx & Hs). intros Hf. split; [done|]. intros x. split; [intros; by apply Hx|].
  intros Hin. destruct (decide (x ∈ seen)) as [Hseen|Hseen]; [set_solver|]. exfalso.
  assert (x ∈ List.filter (fun ip => negb (bool_decide (ip ∈ seen))) (elements activeSet)) as Hc.
  { apply elem_of_list_filter_b. split; [by apply elem_of_elements|]. by rewrite bool_decide_false. }
  destruct (List.filter _ _); [by apply not_elem_of_nil in Hc|done].
Qed.

Lemma resolved_spec {E} (catalog : list string) store job candidates r :
  NoDup catalog -> NoDup candidates -> candidates <> [] ->
  ResolveOrder (E := E) (Ok catalog) store job candidates = Ok r ->
  Permutation (Ordered r) candidates /\
  ((Source r = OrderSourceKV /\ exists raw, readRolloutOrderKV store job = Some raw /\ Ordered r = parseOrderList raw) \/
   (Source r = OrderSourceDefault /\
    List.filter (fun ip => bool_decide (ip ∈ candidates)) catalog `prefix_of` Ordered r)).
Proof.
  intros Hcat Hcand Hne. unfold ResolveOrder. destruct candidates as [|c cs]; [done|]. cbn [length Nat.eqb rbind].
  set (cands := c :: cs) in *.
  assert (Permutation (defaultCatalogOrder catalog cands) cands /\
          List.filter (fun ip => bool_decide (ip ∈ cands)) catalog `prefix_of` defaultCatalogOrder catalog cands) as [Hd Hp].
  { unfold defaultCatalogOrder.
    assert (List.filter (fun ip => bool_decide (ip ∈ set_of cands)) catalog
            = List.filter (fun ip => bool_decide (ip ∈ cands)) catalog) as ->
      by (apply filter_ext; intros ip; apply bool_decide_ext, elem_set_of).
    destruct (appendMissing_spec cands (List.filter (fun ip => bool_decide (ip ∈ cands)) catalog)) as (He & Hn & Hpre).
    split; [|done]. apply NoDup_Permutation; [by apply Hn, NoDup_filter_b|done|].
    intros x. rewrite He, elem_of_list_filter_b, bool_decide_eq_true. naive_solver. }
  destruct (readRolloutOrderKV store job) as [raw|]; [|intros [= <-]; split; [done|by right]].
  destruct (validateRolloutOrderList (parseOrderList raw) (set_of cands)) eqn:Ev; intros [= <-]; [split; [done|by right]|].
  apply validate_spec in Ev as [Hn Hx].
  assert (orderByList cands (parseOrderList raw) = parseOrderList raw) as Eo.
  { unfold orderByList. apply forallb_filter_id, forallb_forall. intros x Hin%list_elem_of_In.
    apply bool_decide_eq_true. by apply Hx. }
  cbn [Ordered Source]. rewrite Eo. split; [|left; split; [done|by exists raw]].
  apply NoDup_Permutation; [done..|]. intros x. by rewrite Hx, elem_set_of.
Qed.

Lemma resolved_permutation {E} (catalog : list string) store job candidates r :
  NoDup catalog -> NoDup candidates -> candidates <> [] ->
  ResolveOrder (E := E) (Ok catalog) store job candidates = Ok r -> Permutation (Ordered r) candidates.
Proof. intros H1 H2 H3 H4. exact (proj1 (resolved_spec _ _ _ _ _ H1 H2 H3 H4)). Qed.

(** The order of a rollout is a reordering of the candidates, each once,
    whatever the KV store holds: an order from the store is used only when it
    lists exactly the candidates without repetition, and then as it stands;
    otherwise the candidates follow the catalog's order. *)
Theorem ResolveOrder_permutation {E} (catalog : list string) store job candidates r :
  NoDup catalog -> NoDup candidates -> candidates <> [] ->
  ResolveOrder (E := E) (Ok catalog) store job candidates = Ok r ->
  Permutation (Ordered r) candidates /\
  ((Source r = OrderSourceKV /\ exists raw, readRolloutOrderKV store job = Some raw /\ Ordered r = parseOrderList raw) \/
   (Source r = OrderSourceDefault /\
    List.filter (fun ip => bool_decide (ip ∈ candidates)) catalog `prefix_of` Ordered r)).
Proof. apply resolved_spec. Qed.

Lemma ResolveOrder_permutation_witness :
  let s := Put NewStore "kive/job/web" "rollout_order" "b, a" 0 in
  Permutation (Ordered (mkResolved ["b"; "a"] "b, a" "kv")) ["a"; "b"].
Proof.
  intros s.
  apply (ResolveOrder_permutation (E := unit) ["a"; "b"] (Some s) "web" ["a"; "b"]).
  - repeat (apply NoDup_cons; split; [set_solver|]). constructor.
  - repeat (apply NoDup_cons; split; [set_solver|]). constructor.
  - discriminate.
  - vm_compute. reflexivity.
Defined.

(** ** What a rollout does to the workers *)

Section loop_facts.
Context {St E : Type}.
Notation step := (St -> St * option E).
Variable isActive : string -> St -> result E bool.
Variable catalogOf : St -> result E (list string).
Variable sessionStore : St -> option Store.
Variable preBatchHealthCheck : step.
Variable runParallelWorkers : list string -> step.
Variable executeAfterAllocation : list string -> BatchContext -> step.
Variable promoteThenHealth : list string -> step.

(** [synced] lists the workers handed to the callbacks of a batch, [promoted]
    those handed to the promotion; no other operation adds to either. *)
Variable synced promoted : St -> list string.
Definition frame (f : step) : Prop := forall s, synced (f s).1 = synced s /\ promoted (f s).1 = promoted s.
Hypothesis pre_frame : frame preBatchHealthCheck.
Hypothesis after_frame : forall b c, frame (executeAfterAllocation b c).
Hypothesis run_synced : forall b s,
  synced (runParallelWorkers b s).1 = synced s ++ b /\ promoted (runParallelWorkers b s).1 = promoted s.
Hypothesis promote_promoted : forall b s,
  promoted (promoteThenHealth b s).1 = promoted s ++ b /\ synced (promoteThenHealth b s).1 = synced s.

Notation runBatch := (runBatch preBatchHealthCheck runParallelWorkers executeAfterAllocation promoteThenHealth).
Notation runRollout := (runRollout preBatchHealthCheck runParallelWorkers executeAfterAllocation promoteThenHealth).

(** From [s] to [s'], [ran] was synced and [promo] of it promoted. *)
Definition progress (s : St) (r : St * option E) (all : list string) : Prop :=
  exists ran promo, synced r.1 = synced s ++ ran /\ promoted r.1 = promoted s ++ promo /\
    promo `prefix_of` ran /\ ran `prefix_of` all /\ (r.2 = None -> promo = all).

Ltac close_progress := split_and!; first [done | apply prefix_nil | reflexivity | by intros].
Lemma runBatch_progress phase job r size count b s :
  progress s (runBatch phase job r size count b s) b.2.
Proof.
  destruct b as [i batch]. unfold Rollout.runBatch, andThen, progress. simpl.
  pose proof (pre_frame s) as [Hp1 Hp2]. destruct (preBatchHealthCheck s) as [s1 [e|]]; simpl in *.
  { exists [], []. rewrite Hp1, Hp2, !app_nil_r. close_progress. }
  pose proof (run_synced batch s1) as [Hr1 Hr2]. destruct (runParallelWorkers batch s1) as [s2 [e|]]; simpl in *.
  { exists batch, []. rewrite Hr1, Hr2, Hp1, Hp2, app_nil_r. close_progress. }
  match goal with |- context [executeAfterAllocation ?b ?c ?s] =>
    pose proof (after_frame b c s) as [Ha1 Ha2]; destruct (executeAfterAllocation b c s) as [s3 [e|]] end; simpl in *.
  { exists batch, []. rewrite Ha1, Ha2, Hr1, Hr2, Hp1, Hp2, app_nil_r. close_progress. }
  pose proof (promote_promoted batch s3) as [Hm1 Hm2]. destruct (promoteThenHealth batch s3) as [s4 o]; simpl in *.
  exists batch, batch. rewrite Hm1, Hm2, Ha1, Ha2, Hr1, Hr2, Hp1, Hp2. close_progress.
Qed.

Lemma runRollout_progress phase job r size count batches : forall s,
  progress s (runRollout phase job r size count batches s) (concat batches.*2).
Proof.
  induction batches as [|b batches IH]; intros s; cbn [Rollout.runRollout].
  { exists [], []. simpl. rewrite !app_nil_r. close_progress. }
  unfold andThen. destruct (runBatch_progress phase job r size count b s) as (ran & promo & H1 & H2 & H3 & H4 & H5).
  destruct (runBatch phase job r size count b s) as [s1 [e|]]; simpl in *.
  - exists ran, promo. split_and!; try done. by apply prefix_app_r.
  - assert (promo = b.2) as -> by auto.
    assert (ran = b.2) as -> by (apply (anti_symm prefix); done).
    destruct (IH s1) as (ran' & promo' & H1' & H2' & H3' & H4' & H5').
    exists (b.2 ++ ran'), (b.2 ++ promo'). rewrite H1', H2', H1, H2, !app_assoc. split_and!; try done.
    + by apply prefix_app.
    + simpl. by apply prefix_app.
    + intros Hn. by rewrite H5'.
Qed.

(** C7: A rollout takes the active candidates one batch at a time, in one order:
    at any point the promoted workers are an initial segment of the synced
    ones and these of the order, a failure touches no later batch, and a
    rollout that reports success has synced and promoted every active
    candidate exactly once. *)
Theorem rolloutBatches_progress phase job par cap candidates active catalog s :
  NoDup candidates -> activeWorkers isActive candidates s = Ok active ->
  catalogOf s = Ok catalog -> NoDup catalog ->
  let r := rolloutBatches isActive catalogOf sessionStore preBatchHealthCheck runParallelWorkers
             executeAfterAllocation promoteThenHealth phase job par cap candidates s in
  exists order, Permutation order active /\ progress s r order.
Proof.
  intros Hnd Hact Hcat Hcn r. unfold r, rolloutBatches.
  assert (NoDup active) as Hna.
  { clear -Hact Hnd. assert (NoDup active /\ forall x, x ∈ active -> x ∈ candidates) as [? _]; [|done].
    revert active Hact. induction Hnd as [|ip l Hip Hl IH]; intros active; simpl; [intros [= <-]; split; [constructor|set_solver]|].
    destruct (isActive ip s) as [ok|]; [|done]. destruct (activeWorkers isActive l s) as [rest|]; [|done].
    simpl. intros [= <-]. destruct (IH rest eq_refl) as [Hr Hin]. destruct ok; [|set_solver].
    split; [|set_solver]. constructor; [|done]. intros ?%Hin. done. }
  destruct (length candidates =? 0)%nat eqn:El.
  { apply Nat.eqb_eq, nil_length_inv in El. subst. simpl in Hact. injection Hact as <-.
    exists []. split; [done|]. exists [], []. simpl. rewrite !app_nil_r. close_progress. }
  rewrite Hact. destruct (length active =? 0)%nat eqn:Ea.
  { apply Nat.eqb_eq, nil_length_inv in Ea. subst. exists []. split; [done|]. exists [], []. simpl. rewrite !app_nil_r. close_progress. }
  assert (forall order e, progress s (s, Some e) order) as Hfail.
  { intros order e. exists [], []. simpl. rewrite !app_nil_r. close_progress. }
  rewrite Hcat. destruct (ResolveOrder (Ok catalog) (sessionStore s) job active) as [o|e] eqn:Eo; [|by exists active].
  assert (active <> []) as Hne by (by intros ->).
  assert (Permutation (Ordered o) active) as Hperm by exact (resolved_permutation _ _ _ _ _ Hcn Hna Hne Eo).
  exists (Ordered o). split; [done|]. destruct par as [p|e]; [|done]. destruct cap as [h|e]; [|done].
  assert (1 <= len (Ordered o)) as Hl.
  { unfold len. rewrite (Permutation_length Hperm). destruct active; [done|simpl; lia]. }
  cbv zeta. set (size := effectiveBatchSize p (len (Ordered o)) h).
  pose proof (runRollout_progress phase job o size (BatchCount (len (Ordered o)) size)
                (batchesFrom (length (Ordered o)) (Ordered o) size 0) s) as Hp.
  rewrite batchesFrom_concat in Hp; [exact Hp|by apply batch_size_bounds|lia|unfold len; lia].
Qed.
End loop_facts.

Lemma rolloutBatches_progress_witness :
  let run b (s : list string * list string) := ((s.1 ++ b, s.2), if bool_decide ("c" ∈ b) then Some tt else None) in
  let promote b (s : list string * list string) := ((s.1, s.2 ++ b), None) in
  exists order, Permutation order ["a"; "b"; "c"] /\
    progress fst snd ([], [])
      (rolloutBatches (fun _ _ => Ok true) (fun _ => Ok ["b"; "a"; "c"]) (fun _ => None) (fun s => (s, None)) run
         (fun _ _ s => (s, None)) promote "new" "web" (Ok 2) (Ok 2) ["a"; "b"; "c"] ([], [])) order.
Proof.
  intros run promote.
  apply (rolloutBatches_progress (fun _ _ => Ok true) (fun _ => Ok ["b"; "a"; "c"]) (fun _ => None) (fun s => (s, None))
    run (fun _ _ s => (s, None)) promote fst snd) with (catalog := ["b"; "a"; "c"]).
  - by intros s.
  - by intros b c s.
  - by intros b s.
  - by intros b s.
  - repeat (apply NoDup_cons; split; [set_solver|]). constructor.
  - reflexivity.
  - reflexivity.
  - repeat (apply NoDup_cons; split; [set_solver|]). constructor.
Defined.
