(* ===== verification/Versions.v ===== *)
(** * workspace: job versions and version constraints

    workspace/version.go, workspace/version_specifier.go, workspace/demands.go
    (constraints), data/version.go ([NormalizeDeployVersion]). Error texts are
    constructors; an [int] segment is checked against its width by [Atoi] and
    incremented with wrap-around. *)
From S2P Require Import Prelude GoStrings.
Open Scope Z_scope.

Record Version := mkVersion { Major : Z; Minor : Z; Patch : Z; Prerelease : string }.

Inductive version_error :=
| VersionEmpty
| VersionUnknown
| EmptyPrerelease
| BadVersion (raw : string)
| EmptySegment (raw : string)
| InvalidSegment (part raw : string).

(** [strings.Index(raw, c)] followed by the two slices around it. *)
Fixpoint cut (c : ascii) (s : string) : option (string * string) :=
  match s with
  | "" => None
  | String d s' =>
      if bool_decide (d = c) then Some ("", s')
      else match cut c s' with
           | Some (a, b) => Some (String d a, b)
           | None => None
           end
  end.

Definition stripV (raw : string) : string := TrimPrefix (TrimPrefix raw "v") "V".

Definition parseSegment (raw part : string) : result version_error Z :=
  let part := TrimSpace part in
  if bool_decide (part = "") then Err (EmptySegment raw)
  else match Atoi part with
       | Some n => if n <? 0 then Err (InvalidSegment part raw) else Ok n
       | None => Err (InvalidSegment part raw)
       end.
Fixpoint parseSegments (raw : string) (parts : list string) : result version_error (list Z) :=
  match parts with
  | [] => Ok []
  | part :: parts =>
      let? n := parseSegment raw part in
      let? ns := parseSegments raw parts in
      Ok (n :: ns)
  end.

(** [numbers] starts as three zeros. *)
Definition number (ns : list Z) (i : nat) : Z := default 0 (ns !! i).

Section versions.
Context `{Unicode}.

Definition ParseVersion (raw : string) : result version_error Version :=
  let raw := TrimSpace raw in
  if bool_decide (raw = "") then Err VersionEmpty
  else if EqualFold raw "unknown" then Err VersionUnknown
  else
    let raw := stripV raw in
    let? (raw, prerelease) :=
      match cut "-" raw with
      | None => Ok (raw, "")
      | Some (before, after) =>
          if bool_decide (TrimSpace after = "") then Err EmptyPrerelease else Ok (before, TrimSpace after)
      end in
    let parts := Split raw "." in
    if (length parts =? 0)%nat || (3 <? length parts)%nat then Err (BadVersion raw)
    else
      let? numbers := parseSegments raw parts in
      Ok (mkVersion (number numbers 0) (number numbers 1) (number numbers 2) prerelease).

Definition releaseString (v : Version) : string :=
  Itoa (Major v) +:+ "." +:+ Itoa (Minor v) +:+ "." +:+ Itoa (Patch v).
Definition Version_String (v : Version) : string :=
  if bool_decide (Prerelease v <> "") then releaseString v +:+ "-" +:+ Prerelease v else releaseString v.

Definition DefaultAllocationVersion : string := "0.0.0".
Definition NormalizeDeployVersion (raw : string) : string :=
  let raw := TrimSpace raw in
  if bool_decide (raw = "") || EqualFold raw "unknown" then DefaultAllocationVersion else raw.
(** [Manifest.JobVersionParsed], on the manifest's version. *)
Definition JobVersionParsed (version : string) : result version_error Version :=
  let raw := TrimSpace version in
  if bool_decide (raw = "") then Ok (mkVersion 0 0 0 "") else ParseVersion raw.
End versions.

Definition compareSegments (a b : Z) (k : Z) : Z := if a <? b then -1 else if b <? a then 1 else k.
Definition Compare (v other : Version) : Z :=
  compareSegments (Major v) (Major other)
    (compareSegments (Minor v) (Minor other)
      (compareSegments (Patch v) (Patch other)
        (let vPre := nonempty_string (Prerelease v) in
         let oPre := nonempty_string (Prerelease other) in
         if vPre && negb oPre then -1
         else if negb vPre && oPre then 1
         else if vPre && oPre then
           if String.ltb (Prerelease v) (Prerelease other) then -1
           else if String.ltb (Prerelease other) (Prerelease v) then 1 else 0
         else 0))).

(** ** Specifiers (version_specifier.go) *)

Inductive specifierOp := specEq | specGte | specLte | specGt | specLt | specCompat.
Definition op_string (op : specifierOp) : string :=
  match op with
  | specEq => "==" | specGte => ">=" | specLte => "<=" | specGt => ">" | specLt => "<" | specCompat => "~="
  end.

Record VersionSpecifier := mkSpec { Op : specifierOp; SpecVersion : Version; CompatSegments : Z }.

Inductive specifier_error :=
| EmptySpecifier
| EmptySpecifierSet
| MissingVersionAfter (op : specifierOp)
| SpecVersionError (e : version_error).

Definition countReleaseSegments (raw : string) : Z :=
  let raw := stripV (TrimSpace raw) in
  let raw := match cut "-" raw with Some (before, _) => before | None => raw end in
  let count := Z.of_nat (length (List.filter (fun part => nonempty_string (TrimSpace part)) (Split raw "."))) in
  if count =? 0 then 3 else count.

Section specifiers.
Context `{Unicode}.

Definition parseSpecVersion (raw : string) : result specifier_error Version :=
  match ParseVersion raw with Ok v => Ok v | Err e => Err (SpecVersionError e) end.

Definition parseWithOp (op : specifierOp) (rest : string) : result specifier_error VersionSpecifier :=
  let versionRaw := TrimSpace rest in
  if bool_decide (versionRaw = "") then Err (MissingVersionAfter op)
  else
    let compatSegments := match op with specCompat => countReleaseSegments versionRaw | _ => 0 end in
    let? version := parseSpecVersion versionRaw in
    Ok (mkSpec op version compatSegments).

Fixpoint tryOps (ops : list specifierOp) (raw : string) : result specifier_error VersionSpecifier :=
  match ops with
  | [] => let? version := parseSpecVersion raw in Ok (mkSpec specEq version 0)
  | op :: ops =>
      if HasPrefix raw (op_string op) then parseWithOp op (sdrop (String.length (op_string op)) raw)
      else tryOps ops raw
  end.
Definition ParseVersionSpecifier (raw : string) : result specifier_error VersionSpecifier :=
  let raw := TrimSpace raw in
  if bool_decide (raw = "") then Err EmptySpecifier
  else tryOps [specCompat; specGte; specLte; specEq; specGt; specLt] raw.

Fixpoint parseAll {A B E} (f : A -> result E B) (l : list A) : result E (list B) :=
  match l with
  | [] => Ok []
  | x :: l => let? y := f x in let? ys := parseAll f l in Ok (y :: ys)
  end.
Definition ParseVersionSpecifierSet (raw : string) : result specifier_error (list VersionSpecifier) :=
  let raw := TrimSpace raw in
  if bool_decide (raw = "") then Err EmptySpecifierSet
  else parseAll ParseVersionSpecifier (Split raw ",").
Definition ParseBackwardCompatibilityFrom (entries : list string) : result specifier_error (list (list VersionSpecifier)) :=
  parseAll ParseVersionSpecifierSet entries.
End specifiers.

Definition compatibleReleaseSatisfied (version anchor : Version) (segments : Z) : bool :=
  if Compare version anchor <? 0 then false
  else if segments =? 1 then Compare version (mkVersion (wrap64 (Major anchor + 1)) 0 0 "") <? 0
  else if segments =? 2 then Compare version (mkVersion (Major anchor) (wrap64 (Minor anchor + 1)) 0 "") <? 0
  else Compare version (mkVersion (Major anchor) (wrap64 (Minor anchor + 1)) 0 "") <? 0.

Definition Satisfies (s : VersionSpecifier) (version : Version) : bool :=
  match Op s with
  | specEq => Compare version (SpecVersion s) =? 0
  | specGte => Compare version (SpecVersion s) >=? 0
  | specLte => Compare version (SpecVersion s) <=? 0
  | specGt => Compare version (SpecVersion s) >? 0
  | specLt => Compare version (SpecVersion s) <? 0
  | specCompat => compatibleReleaseSatisfied version (SpecVersion s) (CompatSegments s)
  end.
Definition SetSatisfies (set : list VersionSpecifier) (version : Version) : bool :=
  forallb (fun spec => Satisfies spec version) set.
Definition SpecSatisfies (spec : list (list VersionSpecifier)) (version : Version) : bool :=
  existsb (fun set => SetSatisfies set version) spec.

(** ** Constraints of a demand (demands.go) *)

(** A value of the demand's JSON config; a float is given by its integer
    value, when it has one. *)
Inductive config_value := CString (s : string) | CFloat (z : option Z) | CInt (z : Z) | COther.
Record VersionConstraint := mkConstraint { Min : option Version; Max : option Version }.
Inductive constraint_error :=
| MinVersionError (e : version_error)
| MaxVersionError (e : version_error)
| NonIntegerNumber (is_min : bool)
| UnsupportedType (is_min : bool)
| MinAboveMax (min max : Version).

Section constraints.
Context `{Unicode}.
Definition parseConfigVersion (is_min : bool) (raw : config_value) : result constraint_error Version :=
  let lift r := match r with
                | Ok v => Ok v
                | Err e => Err (if is_min : bool then MinVersionError e else MaxVersionError e)
                end in
  match raw with
  | CString s => lift (ParseVersion s)
  | CFloat (Some z) | CInt z => lift (ParseVersion (Itoa z))
  | CFloat None => Err (NonIntegerNumber is_min)
  | COther => Err (UnsupportedType is_min)
  end.
Definition ParseVersionConstraint (config : gmap string config_value) : result constraint_error VersionConstraint :=
  let? min := match config !! "min_version" with
              | Some raw => let? v := parseConfigVersion true raw in Ok (Some v)
              | None => Ok None
              end in
  let? max := match config !! "max_version" with
              | Some raw => let? v := parseConfigVersion false raw in Ok (Some v)
              | None => Ok None
              end in
  match min, max with
  | Some lo, Some hi => if Compare lo hi >? 0 then Err (MinAboveMax lo hi) else Ok (mkConstraint min max)
  | _, _ => Ok (mkConstraint min max)
  end.
End constraints.

Inductive mismatch := BelowMin (v min : Version) | AboveMax (v max : Version).
Definition ConstraintSatisfies (c : VersionConstraint) (upstream : Version) : option mismatch :=
  match Min c with
  | Some lo => if Compare upstream lo <? 0 then Some (BelowMin upstream lo)
               else match Max c with
                    | Some hi => if Compare upstream hi >? 0 then Some (AboveMax upstream hi) else None
                    | None => None
                    end
  | None => match Max c with
            | Some hi => if Compare upstream hi >? 0 then Some (AboveMax upstream hi) else None
            | None => None
            end
  end.

(** ** Versions: printing, order and constraints

    [ParseVersion] and [String] are inverse, [Compare] is a total order, and
    the specifiers mean what the order says. *)

(** ** Printing and parsing *)

(** What [ParseVersion] can return. *)
Definition version_ok (v : Version) : Prop :=
  0 <= Major v <= max_int64 /\ 0 <= Minor v <= max_int64 /\ 0 <= Patch v <= max_int64 /\
  trimmed (Prerelease v) = true.

Lemma cut_none c s : no_byte c s = true -> cut c s = None.
Proof.
  induction s as [|d s IH]; simpl; [done|]. intros H. bool_to_prop. rewrite bool_decide_false by done. by rewrite IH.
Qed.
Lemma cut_app c s t : no_byte c s = true -> cut c (s +:+ String c t) = Some (s, t).
Proof.
  induction s as [|d s IH]; simpl; [by rewrite bool_decide_true|]. intros H. bool_to_prop.
  rewrite bool_decide_false by done. by rewrite IH.
Qed.

Lemma all_digits_no_byte c s : is_digit_ascii (byte_val c) = false -> all_digits s = true -> no_byte c s = true.
Proof.
  intros Hc. induction s as [|d s IH]; cbn [all_digits no_byte]; [done|]. intros H. bool_to_prop.
  apply andb_true_iff. split; [|auto]. apply negb_true_iff, bool_decide_eq_false. congruence.
Qed.

Lemma Itoa_nonneg_digits z : 0 <= z -> all_digits (Itoa z) = true.
Proof. intros. unfold Itoa. rewrite (proj2 (Z.ltb_ge _ _)) by done. by apply itoa_pos_digits. Qed.
Lemma Itoa_nonempty z : Itoa z <> "".
Proof. unfold Itoa. case_match; [done|]. apply itoa_pos_nonempty. Qed.

Lemma Itoa_head z : 0 <= z -> exists c s, Itoa z = String c s /\ 48 <= byte_val c <= 57.
Proof.
  intros Hz. destruct (Itoa z) as [|c s] eqn:E; [by destruct (Itoa_nonempty z)|].
  exists c, s. split; [done|]. apply Itoa_nonneg_digits in Hz. rewrite E in Hz. cbn [all_digits] in Hz.
  unfold is_digit_ascii, in_range in Hz. blia.
Qed.

Lemma no_byte_Itoa c z : is_digit_ascii (byte_val c) = false -> 0 <= z -> no_byte c (Itoa z) = true.
Proof. intros. apply all_digits_no_byte; [done|by apply Itoa_nonneg_digits]. Qed.

Lemma release_no_dash v : 0 <= Major v -> 0 <= Minor v -> 0 <= Patch v -> no_byte "-" (releaseString v) = true.
Proof.
  intros. unfold releaseString. rewrite !no_byte_app.
  by rewrite !no_byte_Itoa.
Qed.
Lemma release_split v :
  0 <= Major v -> 0 <= Minor v -> 0 <= Patch v ->
  Split (releaseString v) "." = [Itoa (Major v); Itoa (Minor v); Itoa (Patch v)].
Proof.
  intros. apply (Split_Join [Itoa (Major v); Itoa (Minor v); Itoa (Patch v)] "."%char); [done|].
  repeat (apply Forall_cons; split; [by apply no_byte_Itoa|]). constructor.
Qed.

Lemma runes_nonempty s : s <> "" -> runes s <> [].
Proof.
  intros Hne E. apply Hne. rewrite <- (chunks_concat s). unfold runes in E. by destruct (chunks s).
Qed.

Lemma trimmed_char_app c s : 33 <= byte_val c < 128 -> trimmed s = true -> s <> "" -> trimmed (String c s) = true.
Proof.
  intros Hc Hs Hne. unfold trimmed in *. rewrite runes_ascii by lia.
  rewrite (IsSpace_above (byte_val c)) by done. cbn [negb andb rev].
  assert (runes s <> []) as Hr by (by apply runes_nonempty).
  destruct (runes s) as [|r l]; [done|]. apply andb_true_iff in Hs as [_ Hs].
  destruct (rev (r :: l)) as [|r' l'] eqn:E; [|done]. cbn [rev] in E. by apply app_nil in E as [_ ?].
Qed.

Lemma trimmed_app s t :
  ascii_only s = true -> (forall r, r ∈ bytes s -> 33 <= r) -> trimmed t = true -> t <> "" -> trimmed (s +:+ t) = true.
Proof.
  intros Ha Hb Ht Hne. induction s as [|c s IH]; [done|]. cbn [ascii_only bytes] in *. bool_to_prop.
  change (String c s +:+ t) with (String c (s +:+ t)). apply trimmed_char_app.
  - split; [apply Hb; set_solver|done].
  - apply IH; [done|]. intros; apply Hb; set_solver.
  - destruct s; [done|discriminate].
Qed.

Lemma bytes_app s t : bytes (s +:+ t) = (bytes s ++ bytes t)%list.
Proof. induction s as [|c s IH]; [done|]. change (String c s +:+ t) with (String c (s +:+ t)). cbn [bytes]. by rewrite IH. Qed.

Lemma digits_bytes_above s : all_digits s = true -> forall r, r ∈ bytes s -> 33 <= r.
Proof. intros H r Hr. pose proof (all_digits_bytes s r H Hr). lia. Qed.

Lemma release_ascii v : ascii_only (releaseString v) = true.
Proof. unfold releaseString. by rewrite !ascii_only_app, !Itoa_ascii. Qed.
Lemma release_above v :
  0 <= Major v -> 0 <= Minor v -> 0 <= Patch v -> forall r, r ∈ bytes (releaseString v) -> 33 <= r.
Proof.
  intros H1 H2 H3 r. unfold releaseString. rewrite !bytes_app, !elem_of_app.
  intros [Hr|[Hr|[Hr|[Hr|Hr]]]]; try (eapply digits_bytes_above; [|exact Hr]; by apply Itoa_nonneg_digits);
    apply list_elem_of_singleton in Hr as ->; vm_compute; discriminate.
Qed.

Lemma Version_String_trimmed v : version_ok v -> trimmed (Version_String v) = true.
Proof.
  intros (? & ? & ? & Hp). unfold Version_String. case_bool_decide as Hn.
  - apply trimmed_app; [apply release_ascii|apply release_above; lia| |].
    + apply trimmed_char_app; [by vm_compute|done|done].
    + discriminate.
  - apply trimmed_all. rewrite runes_ascii_only by apply release_ascii. intros r Hr. apply IsSpace_above.
    split; [apply (release_above v); lia || done|].
    pose proof (release_ascii v) as Ha. clear -Ha Hr. induction (releaseString v) as [|c s IH]; [set_solver|].
    cbn [bytes ascii_only] in *. bool_to_prop. apply elem_of_cons in Hr as [->|Hr]; auto.
Qed.

Lemma parseSegment_Itoa raw z : 0 <= z <= max_int64 -> parseSegment raw (Itoa z) = Ok z.
Proof.
  intros Hz. unfold parseSegment. rewrite TrimSpace_trimmed by apply Itoa_trimmed.
  rewrite bool_decide_false by apply Itoa_nonempty.
  rewrite Atoi_Itoa by (unfold in_int64, min_int64, max_int64 in *; apply andb_true_iff; split; apply Z.leb_le; lia).
  by rewrite (proj2 (Z.ltb_ge _ _)) by lia.
Qed.

Section parse.
Context `{Unicode}.

Lemma Version_String_head v : version_ok v -> exists c s, Version_String v = String c s /\ 48 <= byte_val c <= 57.
Proof.
  intros (? & _). destruct (Itoa_head (Major v) ltac:(lia)) as (c & s & E & Hc).
  unfold Version_String, releaseString. rewrite E. case_bool_decide; by eexists _, _.
Qed.

Lemma EqualFold_digit c s t : 48 <= byte_val c <= 57 -> EqualFold (String c s) (String "u" t) = false.
Proof.
  intros Hc. unfold EqualFold. apply bool_decide_eq_false. rewrite !runes_ascii by first [lia | reflexivity].
  cbn [map]. assert (FoldRune (byte_val "u") = 117) as -> by reflexivity.
  assert (FoldRune (byte_val c) = byte_val c) as ->.
  { unfold FoldRune, is_upper_ascii, in_range. rewrite (proj2 (Z.ltb_lt _ _)) by lia.
    by rewrite (proj2 (Z.leb_gt 65 (byte_val c))) by lia. }
  intros [= Hx _]. lia.
Qed.

Lemma stripV_digit c s : 48 <= byte_val c <= 57 -> stripV (String c s) = String c s.
Proof.
  intros Hc. unfold stripV.
  assert (forall p, byte_val p = 86 \/ byte_val p = 118 -> TrimPrefix (String c s) (String p "") = String c s) as Ht.
  { intros p Hp. unfold TrimPrefix. cbn [HasPrefix]. rewrite bool_decide_false by (intros ->; lia). done. }
  by rewrite (Ht "v"%char), (Ht "V"%char) by auto.
Qed.

Lemma parse_print v : version_ok v -> ParseVersion (Version_String v) = Ok v.
Proof.
  intros Hv. pose proof (Version_String_head v Hv) as (c & s & E & Hc).
  unfold ParseVersion. rewrite TrimSpace_trimmed by by apply Version_String_trimmed.
  rewrite bool_decide_false by (by rewrite E). rewrite E, EqualFold_digit, stripV_digit, <- E by done.
  destruct Hv as (H1 & H2 & H3 & Hp).
  assert (match cut "-" (Version_String v) with
          | None => Ok (Version_String v, "")
          | Some (before, after) =>
              if bool_decide (TrimSpace after = "") then Err EmptyPrerelease else Ok (before, TrimSpace after)
          end = Ok (releaseString v, Prerelease v)) as ->.
  { unfold Version_String. case_bool_decide as Hn.
    - change ("-" +:+ Prerelease v) with (String "-" (Prerelease v)).
      rewrite cut_app by (apply release_no_dash; lia). by rewrite TrimSpace_trimmed, bool_decide_false.
    - rewrite cut_none by (apply release_no_dash; lia). destruct (Prerelease v); [done|]. by destruct Hn. }
  cbn [rbind]. rewrite release_split by lia. cbn [length Nat.eqb Nat.ltb orb parseSegments].
  rewrite !parseSegment_Itoa by lia. cbn. by destruct v.
Qed.

(** Printing a version and parsing it again gives the version back. *)
Theorem ParseVersion_String v : version_ok v -> ParseVersion (Version_String v) = Ok v.
Proof. apply parse_print. Qed.
End parse.

Lemma ParseVersion_String_witness : ParseVersion (H := ascii_unicode) "2.10.3-rc.1" = Ok (mkVersion 2 10 3 "rc.1").
Proof.
  apply (ParseVersion_String (H := ascii_unicode) (mkVersion 2 10 3 "rc.1")). vm_compute. repeat split; discriminate.
Defined.

(** ** The order *)

Lemma ltb_asym a b : String.ltb a b = true -> String.ltb b a = false.
Proof. unfold String.ltb. rewrite (String.compare_antisym b a). by destruct (String.compare a b). Qed.
Lemma ltb_trich a b : String.ltb a b = false -> String.ltb b a = false -> a = b.
Proof.
  unfold String.ltb. rewrite (String.compare_antisym b a). destruct (String.compare a b) eqn:E; try done.
  intros. by apply String.compare_eq_iff in E.
Qed.
Lemma ltb_leb a b : String.ltb a b = negb (String.leb b a).
Proof. unfold String.ltb, String.leb. rewrite (String.compare_antisym b a). by destruct (String.compare a b). Qed.
Lemma leb_trans a b c : String.leb a b = true -> String.leb b c = true -> String.leb a c = true.
Proof.
  intros H1 H2. assert (String.le a c) as H by (transitivity b; unfold String.le; by rewrite ?H1, ?H2).
  unfold String.le in H. by apply Is_true_true.
Qed.

(** The last component: no prerelease comes after every prerelease. *)
Definition pre_le (a b : string) : Prop := b = "" \/ (a <> "" /\ String.leb a b = true).

Lemma Compare_le v w :
  Compare v w <= 0 <->
  Major v < Major w \/ (Major v = Major w /\ (Minor v < Minor w \/ (Minor v = Minor w /\
    (Patch v < Patch w \/ (Patch v = Patch w /\ pre_le (Prerelease v) (Prerelease w)))))).
Proof.
  unfold Compare, compareSegments, pre_le, nonempty_string.
  rewrite !ltb_leb.
  destruct (String.leb_total (Prerelease v) (Prerelease w)) as [E|E]; rewrite E;
    repeat case_bool_decide; simpl; repeat case_match; bool_to_prop; intuition (try lia; try congruence).
Qed.

Lemma Compare_antisym v w : Compare w v = - Compare v w.
Proof.
  unfold Compare, compareSegments, nonempty_string.
  destruct (String.ltb (Prerelease v) (Prerelease w)) eqn:E1.
  - rewrite (ltb_asym _ _ E1). repeat case_bool_decide; simpl; repeat case_match; bool_to_prop; lia.
  - repeat case_bool_decide; simpl; repeat case_match; bool_to_prop; lia.
Qed.

Lemma Compare_eq v w : Compare v w = 0 <-> v = w.
Proof.
  split.
  - unfold Compare, compareSegments, nonempty_string. destruct v as [a b c p], w as [a' b' c' p']. cbn.
    destruct (String.ltb p p') eqn:E1, (String.ltb p' p) eqn:E2; repeat case_bool_decide; subst; simpl;
      repeat case_match; bool_to_prop; try lia; intros; f_equal; try lia; try done; by apply ltb_trich.
  - intros ->. pose proof (Compare_antisym w w). lia.
Qed.

(** [Compare] is a total order on versions: it answers -1, 0 or 1, zero only
    for equal versions, the opposite when its arguments are swapped, and it is
    transitive. Prereleases of one release are ordered among themselves and
    come before it. *)
Theorem Compare_total_order u v w :
  -1 <= Compare v w <= 1 /\ (Compare v w = 0 <-> v = w) /\ Compare w v = - Compare v w /\
  (Compare u v <= 0 -> Compare v w <= 0 -> Compare u w <= 0) /\
  (Prerelease v <> "" -> Compare v (mkVersion (Major v) (Minor v) (Patch v) "") = -1).
Proof.
  split_and!.
  - unfold Compare, compareSegments. repeat case_match; lia.
  - unfold Compare, compareSegments. repeat case_match; lia.
  - apply Compare_eq.
  - apply Compare_antisym.
  - rewrite !Compare_le. unfold pre_le.
    assert (String.leb (Prerelease u) (Prerelease v) = true -> String.leb (Prerelease v) (Prerelease w) = true ->
            String.leb (Prerelease u) (Prerelease w) = true) by apply leb_trans.
    intuition (try lia; try congruence).
  - intros Hp. unfold Compare, compareSegments, nonempty_string. cbn. rewrite !Z.ltb_irrefl.
    by rewrite (bool_decide_false (Prerelease v = "")) by done.
Qed.

Lemma Compare_total_order_witness : Compare (mkVersion 1 9 0 "") (mkVersion 1 10 0 "rc") <= 0.
Proof.
  apply (Compare_total_order (mkVersion 1 9 0 "") (mkVersion 1 9 5 "") (mkVersion 1 10 0 "rc")); vm_compute; discriminate.
Defined.

(** ** Specifiers *)

(** A release satisfies [~=] of a release [a.b.c] exactly when it is [a.b.p]
    with [p >= c], and [~=a] when it is [a.x.y]; [~=a.b] is read as [~=a.b.0],
    so it does not admit the later minor releases of [a]. *)
Theorem compatible_release a b c x y z :
  0 <= a -> 0 <= b -> 0 <= c -> 0 <= x -> 0 <= y -> 0 <= z -> a < max_int64 -> b < max_int64 ->
  let v := mkVersion x y z "" in
  (Satisfies (mkSpec specCompat (mkVersion a b c "") 3) v = true <-> x = a /\ y = b /\ c <= z) /\
  (Satisfies (mkSpec specCompat (mkVersion a b 0 "") 2) v = true <-> x = a /\ y = b) /\
  (Satisfies (mkSpec specCompat (mkVersion a 0 0 "") 1) v = true <-> x = a).
Proof.
  intros Ha Hb Hc Hx Hy Hz Ha' Hb' v. unfold Satisfies, compatibleReleaseSatisfied, v. cbn [Op SpecVersion CompatSegments].
  unfold max_int64 in *. rewrite !wrap64_id by (unfold in_int64, min_int64, max_int64; apply andb_true_iff; split; apply Z.leb_le; cbn; lia).
  cbn [Z.eqb Pos.eqb]. unfold Compare, compareSegments. cbn [Major Minor Patch Prerelease nonempty_string].
  change (nonempty_string "") with false. cbn [andb negb].
  split_and!; repeat case_match; bool_to_prop; split; intros; try lia; try done.
Qed.

Lemma compatible_release_witness :
  Satisfies (mkSpec specCompat (mkVersion 2 1 0 "") 2) (mkVersion 2 2 0 "") = true <-> 2 = 2 /\ 2 = 1.
Proof. apply (compatible_release 2 1 0 2 2 0); vm_compute; done. Defined.

Section spec_roundtrip.
Context `{Unicode}.

Lemma Version_String_ne v : version_ok v -> Version_String v <> "".
Proof. intros Hv. destruct (Version_String_head v Hv) as (c & s & -> & _). done. Qed.

Lemma op_prefix_digit op c s : 48 <= byte_val c <= 57 -> HasPrefix (String c s) (op_string op) = false.
Proof.
  intros Hc. destruct op; cbn [op_string HasPrefix]; rewrite bool_decide_false; try done;
    intros <-; vm_compute in Hc; destruct Hc as [H1 H2]; by (apply H1 || apply H2).
Qed.

Lemma count_String v : version_ok v -> countReleaseSegments (Version_String v) = 3.
Proof.
  intros Hv. pose proof (Version_String_head v Hv) as (c & s & E & Hc).
  unfold countReleaseSegments. rewrite TrimSpace_trimmed by by apply Version_String_trimmed.
  rewrite E, stripV_digit, <- E by done. destruct Hv as (H1 & H2 & H3 & Hp).
  assert (match cut "-" (Version_String v) with Some (before, _) => before | None => Version_String v end = releaseString v) as ->.
  { unfold Version_String. case_bool_decide.
    - change ("-" +:+ Prerelease v) with (String "-" (Prerelease v)). by rewrite cut_app by (apply release_no_dash; lia).
    - by rewrite cut_none by (apply release_no_dash; lia). }
  rewrite release_split by lia. cbn [List.filter]. unfold nonempty_string.
  rewrite !TrimSpace_trimmed by apply Itoa_trimmed.
  by rewrite !bool_decide_false by apply Itoa_nonempty.
Qed.

Lemma op_trimmed op v : version_ok v -> trimmed (op_string op +:+ Version_String v) = true.
Proof.
  intros Hv. apply trimmed_app; [by destruct op| |by apply Version_String_trimmed|by apply Version_String_ne].
  intros r Hr. destruct op; cbn [op_string bytes] in Hr;
    repeat (apply elem_of_cons in Hr as [->|Hr]; [vm_compute; discriminate|]); by apply not_elem_of_nil in Hr.
Qed.

(** Writing an operator in front of a printed version and parsing the text
    gives that specifier; a bare version is an equality. *)
Theorem ParseVersionSpecifier_String op v :
  version_ok v ->
  ParseVersionSpecifier (op_string op +:+ Version_String v)
    = Ok (mkSpec op v (match op with specCompat => 3 | _ => 0 end)) /\
  ParseVersionSpecifier (Version_String v) = Ok (mkSpec specEq v 0).
Proof.
  intros Hv. pose proof (Version_String_head v Hv) as (c & s & E & Hc). split.
  - unfold ParseVersionSpecifier. rewrite TrimSpace_trimmed by by apply op_trimmed.
    rewrite bool_decide_false by by destruct op.
    assert (tryOps [specCompat; specGte; specLte; specEq; specGt; specLt] (op_string op +:+ Version_String v)
            = parseWithOp op (Version_String v)) as ->.
    { rewrite E. assert (bool_decide ("="%char = c) = false) as Hd
        by (apply bool_decide_eq_false; intros <-; vm_compute in Hc; by destruct Hc as [? H2]; apply H2).
      destruct op; cbn -[parseWithOp]; rewrite ?Hd; reflexivity. }
    unfold parseWithOp. rewrite TrimSpace_trimmed by by apply Version_String_trimmed.
    rewrite bool_decide_false by by apply Version_String_ne.
    unfold parseSpecVersion. rewrite parse_print by done. simpl. by rewrite count_String.
  - unfold ParseVersionSpecifier. rewrite TrimSpace_trimmed by by apply Version_String_trimmed.
    rewrite bool_decide_false by by apply Version_String_ne.
    cbn [tryOps]. rewrite E, !op_prefix_digit, <- E by done. unfold parseSpecVersion. by rewrite parse_print.
Qed.
End spec_roundtrip.

Lemma ParseVersionSpecifier_String_witness :
  ParseVersionSpecifier (H := ascii_unicode) ">=2.0.0" = Ok (mkSpec specGte (mkVersion 2 0 0 "") 0).
Proof.
  apply (ParseVersionSpecifier_String (H := ascii_unicode) specGte (mkVersion 2 0 0 "")). vm_compute. repeat split; discriminate.
Defined.
