(* ===== verification/Manifest.v ===== *)
(** * workspace: the job manifest and the checks of a build

    workspace/types.go, workspace/manifest.go, the demand check of
    workspace/demands.go and the three validations of build/:
    validate_demands.go, validate_rollback.go, validate_backward_compatibility.go.
    The hooks of a manifest are a list, the order in which Go's map iteration
    visits them; fields the model does not read are left out. *)
From S2P Require Import Prelude GoStrings Versions Utils.
Open Scope Z_scope.

Record Hook := mkHook {
  HookName : string;
  ExecutedOn : list string;
  DemandJob : string;
  DemandHook : string;
  DemandConfig : gmap string config_value;
}.

Record Manifest := mkManifest {
  mVersion : string;
  mSelectors : list string;
  DeploymentPriority : Z;
  MemoryMin : string;
  MemoryMax : string;
  CPUMin : string;
  CPUMax : string;
  Hooks : list Hook;
  mMaxConcurrentRestarts : Z;
  mMaxConcurrentStarts : Z;
  mMaxConcurrentStops : Z;
  mMinAllocationsCount : Z;
  mRestartPolicy : string;
  mRestartGlobs : list string;
  mReloadGlobs : list string;
  BackwardCompatibilityFrom : list string;
  AllowRollback : bool;
}.

Definition or_default (s d : string) : string := if bool_decide (s = "") then d else s.
Definition MinMemory (m : Manifest) : string := or_default (MemoryMin m) "0 mb".
Definition MaxMemory (m : Manifest) : string := or_default (MemoryMax m) "0 mb".
Definition MinCPU (m : Manifest) : string := or_default (CPUMin m) "0 mhz".
Definition MaxCPU (m : Manifest) : string := or_default (CPUMax m) "0 mhz".
Definition JobVersion (m : Manifest) : string := or_default (mVersion m) "0.0.0".
Definition AllowsRollback (m : Manifest) : bool := AllowRollback m.
Definition GetMaxConcurrentStarts (m : Manifest) : Z := if mMaxConcurrentStarts m <? 0 then 0 else mMaxConcurrentStarts m.
Definition GetMaxConcurrentStops (m : Manifest) : Z := if mMaxConcurrentStops m <? 0 then 0 else mMaxConcurrentStops m.
Definition GetMaxConcurrentRestarts (m : Manifest) : Z := if mMaxConcurrentRestarts m <=? 0 then 1 else mMaxConcurrentRestarts m.
Definition MinRequiredAllocations (m : Manifest) : Z := if mMinAllocationsCount m <? 0 then 0 else mMinAllocationsCount m.
Definition ListedHooks (m : Manifest) : list Hook := Hooks m.

Fixpoint selectorsLoop (seen : gset string) (l : list string) : list string :=
  match l with
  | [] => []
  | selector :: l =>
      if bool_decide (selector = "") then selectorsLoop seen l
      else if bool_decide (selector ∈ seen) then selectorsLoop seen l
      else selector :: selectorsLoop ({[selector]} ∪ seen) l
  end.
Definition PlacementSelectors (jobName : string) (m : Manifest) : list string :=
  if (0 <? length (mSelectors m))%nat then selectorsLoop ∅ (mSelectors m) else [jobName].

(** ** Errors of the build's checks *)

Inductive demand_error :=
| DemandJobNotSet (job hook : string)
| SelfReference (job hook : string)
| MustDeclareVersion (job : string)
| BadJobVersion (job : string) (e : version_error)
| UnknownDemandedJob (job hook demanded : string)
| PriorityExceeds (job hook : string) (priority : Z) (demanded : string) (demandedPriority : Z)
| UndeclaredHook (job hook demanded demandedHook : string)
| BadConstraint (job hook : string) (e : constraint_error)
| VersionMismatch (job hook demanded : string) (e : mismatch)
| ManifestUnreadable (job : string).

Section demands.
Context `{Unicode}.

Definition ValidateHookDemand (jobName : string) (hook : Hook) : option demand_error :=
  let demandJob := TrimSpace (DemandJob hook) in
  let demandHook := TrimSpace (DemandHook hook) in
  if bool_decide (demandJob = "") && bool_decide (demandHook = "") then None
  else if bool_decide (demandJob = "") then Some (DemandJobNotSet jobName (HookName hook))
  else if bool_decide (demandJob = jobName) then Some (SelfReference jobName (HookName hook))
  else None.

Definition RequiresExplicitVersion (m : Manifest) : bool :=
  existsb (fun h => nonempty_string (TrimSpace (DemandJob h))) (ListedHooks m).

(** The maps of [jobCatalog]; [hooks] is computed from the manifests. *)
Record jobCatalog := mkCatalog { cManifests : gmap string Manifest; cVersions : gmap string Version }.

Definition isDemandTarget (manifests : gmap string Manifest) (jobName : string) : bool :=
  existsb (fun jm => existsb (fun h => bool_decide (TrimSpace (DemandJob h) = jobName)) (ListedHooks jm.2))
    (map_to_list manifests).
Definition resolveJobVersion (manifests : gmap string Manifest) (jobName : string) (m : Manifest) : result demand_error Version :=
  let raw := TrimSpace (mVersion m) in
  let needsExplicit := RequiresExplicitVersion m || isDemandTarget manifests jobName in
  if bool_decide (raw = "") then
    if needsExplicit then Err (MustDeclareVersion jobName) else Ok (mkVersion 0 0 0 "")
  else match ParseVersion raw with Ok v => Ok v | Err e => Err (BadJobVersion jobName e) end.

(** [GetJobManifest] of the workspace, [None] when the file does not load. *)
Fixpoint loadManifests (getJobManifest : string -> option Manifest) (acc : gmap string Manifest)
    (jobNames : list string) : result demand_error (gmap string Manifest) :=
  match jobNames with
  | [] => Ok acc
  | j :: jobNames =>
      match getJobManifest j with
      | None => Err (ManifestUnreadable j)
      | Some m => loadManifests getJobManifest (<[j := m]> acc) jobNames
      end
  end.
Fixpoint loadVersions (manifests : gmap string Manifest) (acc : gmap string Version)
    (jobNames : list string) : result demand_error (gmap string Version) :=
  match jobNames with
  | [] => Ok acc
  | j :: jobNames =>
      match manifests !! j with
      | None => loadVersions manifests acc jobNames
      | Some m =>
          let? v := resolveJobVersion manifests j m in
          loadVersions manifests (<[j := v]> acc) jobNames
      end
  end.
Definition loadJobCatalog (getJobManifest : string -> option Manifest) (jobNames : list string) : result demand_error jobCatalog :=
  let? manifests := loadManifests getJobManifest ∅ jobNames in
  let? versions := loadVersions manifests ∅ jobNames in
  Ok (mkCatalog manifests versions).

(** The body of the inner loop: [None] continues with the next hook. *)
Definition checkDemand (c : jobCatalog) (jobName : string) (m : Manifest) (hook : Hook) : option demand_error :=
  match ValidateHookDemand jobName hook with
  | Some e => Some e
  | None =>
      let demandJob := TrimSpace (DemandJob hook) in
      if bool_decide (demandJob = "") then None
      else
        match cManifests c !! demandJob with
        | None => Some (UnknownDemandedJob jobName (HookName hook) demandJob)
        | Some dm =>
            if DeploymentPriority m >? DeploymentPriority dm
            then Some (PriorityExceeds jobName (HookName hook) (DeploymentPriority m) demandJob (DeploymentPriority dm))
            else
              let demandHook := TrimSpace (DemandHook hook) in
              if nonempty_string demandHook
                 && negb (existsb (fun h => bool_decide (HookName h = demandHook)) (ListedHooks dm))
              then Some (UndeclaredHook jobName (HookName hook) demandJob demandHook)
              else
                match ParseVersionConstraint (DemandConfig hook) with
                | Err e => Some (BadConstraint jobName (HookName hook) e)
                | Ok (mkConstraint None None) => None
                | Ok constraint =>
                    let upstreamVersion := default (mkVersion 0 0 0 "") (cVersions c !! demandJob) in
                    if bool_decide (TrimSpace (mVersion dm) = "") then Some (MustDeclareVersion demandJob)
                    else match ConstraintSatisfies constraint upstreamVersion with
                         | Some e => Some (VersionMismatch jobName (HookName hook) demandJob e)
                         | None => None
                         end
                end
        end
  end.

Fixpoint firstError {A E} (f : A -> option E) (l : list A) : option E :=
  match l with
  | [] => None
  | x :: l => match f x with Some e => Some e | None => firstError f l end
  end.

Definition sortedJobNames (names : list string) : list string := merge_sort String.le names.

Definition ValidateHookDemands (getJobManifest : string -> option Manifest) (jobNames : list string) : result demand_error unit :=
  let jobNames := sortedJobNames jobNames in
  let? catalog := loadJobCatalog getJobManifest jobNames in
  match firstError (fun j => match cManifests catalog !! j with
                             | Some m => firstError (checkDemand catalog j m) (ListedHooks m)
                             | None => None
                             end) jobNames with
  | Some e => Err e
  | None => Ok tt
  end.

(** ** Version policies of the deployed allocations *)

(** A row of [listAllocationAppliedVersions]. *)
Record allocationAppliedVersion := mkApplied { AllocID : string; WorkerIP : string; AppliedVersion : string }.

Inductive version_failure :=
| InvalidApplied (job : string) (a : allocationAppliedVersion) (raw : string)
| ExceedsTarget (job : string) (a : allocationAppliedVersion) (current target : Version)
| NotCompatible (job : string) (a : allocationAppliedVersion) (current : Version).
Inductive policy_error :=
| PolicyManifestUnreadable (job : string)
| PolicyJobVersion (job : string) (e : version_error)
| PolicySpecifier (job : string) (e : specifier_error)
| PolicyFailures (l : list version_failure).

(** The failures of the allocations of one job, by the test on the parsed
    applied version. *)
Fixpoint checkAllocations (job : string) (bad : allocationAppliedVersion -> Version -> option version_failure)
    (allocations : list allocationAppliedVersion) : list version_failure :=
  match allocations with
  | [] => []
  | a :: allocations =>
      let currentRaw := TrimSpace (AppliedVersion a) in
      let rest := checkAllocations job bad allocations in
      if bool_decide (currentRaw = "") then rest
      else match ParseVersion currentRaw with
           | Err _ => InvalidApplied job a currentRaw :: rest
           | Ok current => match bad a current with Some f => f :: rest | None => rest end
           end
  end.

Section policies.
Variable getJobManifest : string -> option Manifest.
Variable listAllocationAppliedVersions : string -> list allocationAppliedVersion.

Fixpoint rollbackFailures (jobNames : list string) : result policy_error (list version_failure) :=
  match jobNames with
  | [] => Ok []
  | job :: jobNames =>
      match getJobManifest job with
      | None => Err (PolicyManifestUnreadable job)
      | Some m =>
          if AllowsRollback m then rollbackFailures jobNames
          else
            match ParseVersion (NormalizeDeployVersion (JobVersion m)) with
            | Err e => Err (PolicyJobVersion job e)
            | Ok target =>
                let failures := checkAllocations job
                  (fun a current => if Compare current target <=? 0 then None else Some (ExceedsTarget job a current target))
                  (listAllocationAppliedVersions job) in
                let? rest := rollbackFailures jobNames in
                Ok (failures ++ rest)
            end
      end
  end.
Definition reportFailures (r : result policy_error (list version_failure)) : result policy_error unit :=
  let? failures := r in
  match failures with [] => Ok tt | _ => Err (PolicyFailures failures) end.
Definition ValidateRollbackPolicy (jobNames : list string) : result policy_error unit :=
  reportFailures (rollbackFailures jobNames).

Fixpoint compatibilityFailures (jobNames : list string) : result policy_error (list version_failure) :=
  match jobNames with
  | [] => Ok []
  | job :: jobNames =>
      match getJobManifest job with
      | None => Err (PolicyManifestUnreadable job)
      | Some m =>
          if (length (BackwardCompatibilityFrom m) =? 0)%nat then compatibilityFailures jobNames
          else
            match ParseBackwardCompatibilityFrom (BackwardCompatibilityFrom m) with
            | Err e => Err (PolicySpecifier job e)
            | Ok spec =>
                let failures := checkAllocations job
                  (fun a current => if SpecSatisfies spec current then None else Some (NotCompatible job a current))
                  (listAllocationAppliedVersions job) in
                let? rest := compatibilityFailures jobNames in
                Ok (failures ++ rest)
            end
      end
  end.
Definition ValidateBackwardCompatibility (jobNames : list string) : result policy_error unit :=
  reportFailures (compatibilityFailures jobNames).
End policies.
End demands.

(** ** What the build's checks guarantee

    An accepted workspace has only satisfiable demands, and the deployed
    versions respect the rollback and the compatibility policies. *)

Section policy_facts.
Context `{Unicode}.
Variable getJobManifest : string -> option Manifest.
Variable applied : string -> list allocationAppliedVersion.

(** The applied version of [a] is absent or a version that [ok] accepts. *)
Definition applied_ok (ok : Version -> bool) (a : allocationAppliedVersion) : Prop :=
  TrimSpace (AppliedVersion a) = "" \/
  exists v, ParseVersion (TrimSpace (AppliedVersion a)) = Ok v /\ ok v = true.

Lemma checkAllocations_nil job bad ok l :
  (forall a v, bad a v = None <-> ok v = true) ->
  checkAllocations job bad l = [] <-> Forall (applied_ok ok) l.
Proof.
  intros Hb. induction l as [|a l IH]; simpl; [by split; intros; constructor|].
  rewrite Forall_cons, <- IH. unfold applied_ok.
  case_bool_decide as Ht; [rewrite Ht; naive_solver|].
  destruct (ParseVersion (TrimSpace (AppliedVersion a))) as [v|e] eqn:Ep.
  - specialize (Hb a v). destruct (bad a v) eqn:Eb; naive_solver.
  - naive_solver.
Qed.

Lemma app_nil_iff {A} (l k : list A) : (l ++ k)%list = [] <-> l = [] /\ k = [].
Proof. destruct l; naive_solver. Qed.

Lemma reportFailures_ok r : reportFailures r = Ok tt <-> r = Ok [].
Proof. destruct r as [[|f l]|e]; simpl; naive_solver. Qed.

(** What [ValidateRollbackPolicy] asks of one job. *)
Definition rollback_ok (job : string) : Prop :=
  exists m, getJobManifest job = Some m /\
    (AllowsRollback m = true \/
     exists target, ParseVersion (NormalizeDeployVersion (JobVersion m)) = Ok target /\
       Forall (applied_ok (fun v => Compare v target <=? 0)) (applied job)).

(** The rollback policy accepts a workspace exactly when, for every job that
    does not allow rollback, the manifest's version parses and no allocation
    runs a later version or one that does not parse. *)
Theorem ValidateRollbackPolicy_iff jobNames :
  ValidateRollbackPolicy getJobManifest applied jobNames = Ok tt <-> Forall rollback_ok jobNames.
Proof.
  unfold ValidateRollbackPolicy. rewrite reportFailures_ok.
  induction jobNames as [|job jobs IH]; simpl; [by split; intros; constructor|].
  rewrite Forall_cons, <- IH. unfold rollback_ok.
  destruct (getJobManifest job) as [m|]; [|naive_solver].
  destruct (AllowsRollback m) eqn:Ea; [naive_solver|].
  destruct (ParseVersion (NormalizeDeployVersion (JobVersion m))) as [target|e] eqn:Et;
    [|by split; [|intros [(m' & [= <-] & [?|(t & ? & _)]) _]; congruence]].
  set (bad := fun a current => if Compare current target <=? 0 then None else Some (ExceedsTarget job a current target)).
  assert (checkAllocations job bad (applied job) = [] <-> Forall (applied_ok (fun v => Compare v target <=? 0)) (applied job)) as Hc.
  { apply checkAllocations_nil. intros a v. unfold bad. by destruct (Compare v target <=? 0). }
  destruct (rollbackFailures getJobManifest applied jobs) as [rest|e]; simpl.
  - split.
    + intros [= E]. apply app_nil_iff in E as [E1%Hc ->]. split; [|done]. exists m. split; [done|]. right. eauto.
    + intros [(m' & [= <-] & [?|(t & Ht & Hf)]) [= ->]]; [congruence|].
      assert (t = target) as -> by congruence. apply Hc in Hf. by rewrite Hf.
  - naive_solver.
Qed.

Definition compatibility_ok (job : string) : Prop :=
  exists m, getJobManifest job = Some m /\
    (BackwardCompatibilityFrom m = [] \/
     exists spec, ParseBackwardCompatibilityFrom (BackwardCompatibilityFrom m) = Ok spec /\
       Forall (applied_ok (SpecSatisfies spec)) (applied job)).

(** The compatibility policy accepts a workspace exactly when every deployed
    version of a job with compatibility entries satisfies one of them. *)
Theorem ValidateBackwardCompatibility_iff jobNames :
  ValidateBackwardCompatibility getJobManifest applied jobNames = Ok tt <-> Forall compatibility_ok jobNames.
Proof.
  unfold ValidateBackwardCompatibility. rewrite reportFailures_ok.
  induction jobNames as [|job jobs IH]; simpl; [by split; intros; constructor|].
  rewrite Forall_cons, <- IH. unfold compatibility_ok.
  destruct (getJobManifest job) as [m|]; [|naive_solver].
  destruct (length (BackwardCompatibilityFrom m) =? 0)%nat eqn:El.
  { apply Nat.eqb_eq, nil_length_inv in El. naive_solver. }
  assert (BackwardCompatibilityFrom m <> []) as Hne by (intros E; by rewrite E in El).
  destruct (ParseBackwardCompatibilityFrom (BackwardCompatibilityFrom m)) as [spec|e] eqn:Et;
    [|by split; [|intros [(m' & [= <-] & [?|(t & ? & _)]) _]; congruence]].
  set (bad := fun a current => if SpecSatisfies spec current then None else Some (NotCompatible job a current)).
  assert (checkAllocations job bad (applied job) = [] <-> Forall (applied_ok (SpecSatisfies spec)) (applied job)) as Hc.
  { apply checkAllocations_nil. intros a v. unfold bad. by destruct (SpecSatisfies spec v). }
  destruct (compatibilityFailures getJobManifest applied jobs) as [rest|e]; simpl.
  - split.
    + intros [= E]. apply app_nil_iff in E as [E1%Hc ->]. split; [|done]. exists m. split; [done|]. right. eauto.
    + intros [(m' & [= <-] & [?|(t & Ht & Hf)]) [= ->]]; [done|].
      assert (t = spec) as -> by congruence. apply Hc in Hf. by rewrite Hf.
  - naive_solver.
Qed.
End policy_facts.

(** ** Placement *)

Lemma selectorsLoop_spec l : forall seen x,
  (x ∈ selectorsLoop seen l <-> x ∈ l /\ x <> "" /\ x ∉ seen) /\ NoDup (selectorsLoop seen l).
Proof.
  induction l as [|s l IH]; intros seen x; simpl; [split; [set_solver|constructor]|].
  case_bool_decide as Hs; [subst; split; [rewrite (proj1 (IH seen x)); set_solver|apply (IH seen x)]|].
  case_bool_decide as Hin; [split; [rewrite (proj1 (IH seen x)); set_solver|apply (IH seen x)]|].
  split.
  - rewrite elem_of_cons, (proj1 (IH _ x)). destruct (decide (x = s)); set_solver.
  - constructor; [rewrite (proj1 (IH _ s)); set_solver|apply (IH _ x)].
Qed.

(** The placement selectors are the distinct non-empty selectors of the
    manifest, or the job's name when the manifest has none; a manifest whose
    selectors are all empty strings is left with no selector at all. *)
Theorem PlacementSelectors_spec job m :
  NoDup (PlacementSelectors job m) /\
  (mSelectors m = [] -> PlacementSelectors job m = [job]) /\
  (mSelectors m <> [] -> forall x, x ∈ PlacementSelectors job m <-> x ∈ mSelectors m /\ x <> "").
Proof.
  unfold PlacementSelectors. destruct (mSelectors m) as [|s l] eqn:E; cbn [length Nat.ltb Nat.leb].
  - split_and!; [apply NoDup_singleton|done|done].
  - split_and!; [apply (selectorsLoop_spec _ ∅ "")|done|].
    intros _ x. rewrite (proj1 (selectorsLoop_spec (s :: l) ∅ x)). set_solver.
Qed.

Lemma PlacementSelectors_spec_witness :
  let m := mkManifest "" ["b"; ""; "a"; "b"] 0 "" "" "" "" [] 0 0 0 0 "" [] [] [] false in
  ("a" ∈ PlacementSelectors "job" m <-> "a" ∈ mSelectors m /\ "a" <> "") /\ PlacementSelectors "job" m = ["b"; "a"].
Proof. intros m. split; [apply (PlacementSelectors_spec "job" m); discriminate|reflexivity]. Defined.

(** ** Demands *)

Section demand_facts.
Context `{Unicode}.
Variable getJobManifest : string -> option Manifest.

Lemma loadManifests_spec names : forall acc ms,
  loadManifests getJobManifest acc names = Ok ms ->
  (forall j, j ∈ names -> exists m, getJobManifest j = Some m) /\
  (forall j, ms !! j = if decide (j ∈ names) then getJobManifest j else acc !! j).
Proof.
  induction names as [|n names IH]; intros acc ms; cbn [loadManifests].
  { intros [= <-]. split; [set_solver|]. intros j. by rewrite decide_False by set_solver. }
  destruct (getJobManifest n) as [m|] eqn:En; [|done]. intros Hl. apply IH in Hl as [H1 H2]. split.
  - intros j [->|Hj]%elem_of_cons; eauto.
  - intros j. rewrite H2. destruct (decide (j ∈ names)) as [Hj|Hj]; [by rewrite decide_True by set_solver|].
    destruct (decide (j = n)) as [->|Hne].
    + rewrite lookup_insert_eq, decide_True by set_solver. done.
    + rewrite lookup_insert_ne, decide_False by set_solver. done.
Qed.

Lemma loadVersions_spec ms names : forall acc vs,
  loadVersions ms acc names = Ok vs ->
  forall j m, j ∈ names -> ms !! j = Some m -> exists v, vs !! j = Some v /\ resolveJobVersion ms j m = Ok v.
Proof.
  revert names. assert (forall names acc vs, loadVersions ms acc names = Ok vs ->
    forall j, (forall m, j ∈ names -> ms !! j = Some m -> exists v, vs !! j = Some v /\ resolveJobVersion ms j m = Ok v) /\
              (j ∉ names -> vs !! j = acc !! j)) as Hg.
  { induction names as [|n names IH]; intros acc vs; cbn [loadVersions].
    { intros [= <-] j. split; [set_solver|done]. }
    destruct (ms !! n) as [m|] eqn:En.
    - destruct (resolveJobVersion ms n m) as [v|e] eqn:Ev; [|done]. simpl. intros Hl j.
      destruct (IH _ _ Hl j) as [H1 H2]. split.
      + intros m' Hin Hm'. destruct (decide (j ∈ names)) as [Hj|Hj]; [by apply H1|].
        apply elem_of_cons in Hin as [->|]; [|done]. rewrite H2 by done. rewrite lookup_insert_eq. naive_solver.
      + intros Hn. rewrite H2 by set_solver. by rewrite lookup_insert_ne by set_solver.
    - intros Hl j. destruct (IH _ _ Hl j) as [H1 H2]. split; [|set_solver].
      intros m' [->|Hin]%elem_of_cons Hm'; [congruence|eauto]. }
  intros names acc vs Hl j m Hin Hm. by apply (Hg names acc vs Hl j).
Qed.

Lemma firstError_none {A E} (f : A -> option E) l : firstError f l = None <-> forall x, x ∈ l -> f x = None.
Proof.
  induction l as [|x l IH]; simpl; [set_solver|]. destruct (f x) as [e|] eqn:Ex.
  - split; [done|]. intros Hx. specialize (Hx x ltac:(set_solver)). congruence.
  - rewrite IH. split; [intros Hx y [->|Hy]%elem_of_cons; auto|set_solver].
Qed.

(** What an accepted demand of hook [h] of job [j] guarantees. *)
Definition demand_ok (names : list string) (j : string) (m : Manifest) (h : Hook) : Prop :=
  let d := TrimSpace (DemandJob h) in
  d <> "" ->
  d <> j /\ d ∈ names /\
  exists dm, getJobManifest d = Some dm /\
    DeploymentPriority m <= DeploymentPriority dm /\
    (TrimSpace (DemandHook h) <> "" -> exists h', h' ∈ ListedHooks dm /\ HookName h' = TrimSpace (DemandHook h)) /\
    (exists c, ParseVersionConstraint (DemandConfig h) = Ok c /\
       ((Min c <> None \/ Max c <> None) ->
        exists v, ParseVersion (TrimSpace (mVersion dm)) = Ok v /\
          (forall lo, Min c = Some lo -> Compare lo v <= 0) /\ (forall hi, Max c = Some hi -> Compare v hi <= 0))).

Lemma ConstraintSatisfies_none c v :
  ConstraintSatisfies c v = None ->
  (forall lo, Min c = Some lo -> Compare lo v <= 0) /\ (forall hi, Max c = Some hi -> Compare v hi <= 0).
Proof.
  unfold ConstraintSatisfies. destruct c as [[lo|] [hi|]]; simpl; repeat case_match; try done;
    intros _; bool_to_prop; rewrite ?Z.gtb_ltb in *; bool_to_prop;
    (split; intros ? [= <-]); try (pose proof (Compare_antisym lo v)); try (pose proof (Compare_antisym v lo)); lia.
Qed.

(** A workspace whose demands validate has, for every demand of a hook: a
    demanded job of the same workspace other than the demanding one, with at
    least its priority, that declares the demanded hook and whose version
    lies within the demanded bounds. *)
Theorem ValidateHookDemands_sound names j m h :
  ValidateHookDemands getJobManifest names = Ok tt ->
  j ∈ names -> getJobManifest j = Some m -> h ∈ ListedHooks m -> demand_ok names j m h.
Proof.
  unfold ValidateHookDemands. set (sorted := sortedJobNames names).
  assert (forall x, x ∈ sorted <-> x ∈ names) as Hs.
  { intros x. unfold sorted, sortedJobNames. by rewrite (merge_sort_Permutation String.le names). }
  unfold loadJobCatalog. intros Hok Hj Hm Hh. revert Hok.
  destruct (loadManifests getJobManifest ∅ sorted) as [ms|e] eqn:Em; [|done]. simpl.
  destruct (loadVersions ms ∅ sorted) as [vs|e] eqn:Ev; [|done]. simpl.
  destruct (firstError _ sorted) eqn:Ef; [done|]. intros _.
  apply loadManifests_spec in Em as [_ Hms]. rewrite firstError_none in Ef. specialize (Ef j (proj2 (Hs j) Hj)).
  rewrite Hms, decide_True, Hm in Ef by by apply Hs. rewrite firstError_none in Ef. specialize (Ef h Hh).
  unfold checkDemand in Ef. cbn [cManifests cVersions] in Ef. unfold demand_ok. cbv zeta. set (d := TrimSpace (DemandJob h)) in *. intros Hd.
  destruct (ValidateHookDemand j h) eqn:Evd; [done|]. rewrite (bool_decide_false (d = "")) in Ef by done.
  destruct (ms !! d) as [dm|] eqn:Edm; [|done]. pose proof Edm as Edm'. rewrite Hms in Edm'.
  destruct (decide (d ∈ sorted)) as [Hin|]; [|by rewrite lookup_empty in Edm'].
  split; [|split; [by apply Hs|]].
  { unfold ValidateHookDemand in Evd. fold d in Evd. rewrite (bool_decide_false (d = "")) in Evd by done. simpl in Evd.
    repeat case_bool_decide; done. }
  exists dm. split; [done|]. rewrite Z.gtb_ltb in Ef. destruct (DeploymentPriority dm <? DeploymentPriority m) eqn:Ep; [done|].
  split; [blia|]. set (dh := TrimSpace (DemandHook h)) in *.
  destruct (nonempty_string dh && negb (existsb (fun h => bool_decide (HookName h = dh)) (ListedHooks dm))) eqn:Eh; [done|].
  split.
  { intros Hne. unfold nonempty_string in Eh. rewrite bool_decide_false in Eh by done. simpl in Eh.
    apply negb_false_iff, existsb_exists in Eh as (h' & Hh' & E%bool_decide_eq_true). exists h'. by rewrite list_elem_of_In. }
  destruct (ParseVersionConstraint (DemandConfig h)) as [c|e] eqn:Ec; [|done]. exists c. split; [done|]. intros Hc.
  assert (bool_decide (TrimSpace (mVersion dm) = "") = false /\
          ConstraintSatisfies c (default (mkVersion 0 0 0 "") (vs !! d)) = None) as [Et Ecs].
  { destruct c as [[lo|] [hi|]]; simpl in Hc; [..|destruct Hc; done]; case_bool_decide; try done;
      destruct (ConstraintSatisfies _ _); done. }
  destruct (loadVersions_spec _ _ _ _ Ev d dm Hin Edm) as (v & Hv & Hr). rewrite Hv in Ecs. simpl in Ecs.
  apply ConstraintSatisfies_none in Ecs. exists v. split; [|done].
  unfold resolveJobVersion in Hr. rewrite Et in Hr. destruct (ParseVersion (TrimSpace (mVersion dm))); naive_solver.
Qed.
End demand_facts.

Lemma ValidateHookDemands_sound_witness :
  let hook := mkHook "post_deploy" [] "db" "" {["min_version" := CString "1.2"]} in
  let web := mkManifest "2.0.0" [] 1 "" "" "" "" [hook] 0 0 0 0 "" [] [] [] false in
  let db := mkManifest "1.10.0" [] 5 "" "" "" "" [] 0 0 0 0 "" [] [] [] false in
  let get j := if bool_decide (j = "web") then Some web else if bool_decide (j = "db") then Some db else None in
  demand_ok (H := ascii_unicode) get ["web"; "db"] "web" web hook.
Proof.
  intros hook web db get.
  apply (ValidateHookDemands_sound (H := ascii_unicode) get ["web"; "db"] "web" web hook).
  - vm_compute. reflexivity.
  - apply elem_of_cons. by left.
  - reflexivity.
  - apply elem_of_cons. by left.
Defined.
