(* ===== verification/DeploySeq.v ===== *)
(** * build: cycles of hook demands and the deployment order

    build/build_deployment_sequence.go, build/build_deployment_order.go and
    [AssignDeploymentOrders] of data/job.go. The [hooks] and [jobs] tables are
    lists of rows; the recursive SQL query is the iteration of its step until
    a round adds nothing. *)
From stdpp Require Import relations.
From S2P Require Import Prelude GoStrings.
Open Scope Z_scope.

(** A row (job, demand_job) of [SELECT DISTINCT job, demand_job FROM hooks]. *)
Notation Deps := (gmap string (list string)).

Definition addDependency (deps : Deps) (row : string * string) : Deps :=
  let '(jobName, demandedJobName) := row in
  let deps := <[jobName := default [] (deps !! jobName) ++ [demandedJobName]]> deps in
  match deps !! demandedJobName with
  | Some _ => deps
  | None => <[demandedJobName := []]> deps
  end.
Definition loadHookDependencies (hooks : list (string * string)) : Deps :=
  foldl addDependency ∅ (List.filter (fun row => nonempty_string row.2) hooks).

(** ** Cycle detection *)

Inductive visit := visiting | complete.
Inductive cycle_error := CircularHookDependency (cycle : list string) | OutOfFuel.
Notation visited := (gmap string visit).

(** [path[i:]] from the first occurrence of the job. *)
Fixpoint from_first (jobName : string) (path : list string) : option (list string) :=
  match path with
  | [] => None
  | p :: path' => if bool_decide (p = jobName) then Some path else from_first jobName path'
  end.

Fixpoint visitAll (visitJob : visited -> string -> result cycle_error visited) (st : visited) (jobs : list string)
    : result cycle_error visited :=
  match jobs with
  | [] => Ok st
  | j :: jobs => let? st := visitJob st j in visitAll visitJob st jobs
  end.

(** [visitState] of an unseen job is absent. The fuel bounds the depth of the
    recursion; [detect_fuel] is enough. *)
Fixpoint visitJob (fuel : nat) (dependencies : Deps) (path : list string) (st : visited) (jobName : string)
    : result cycle_error visited :=
  match fuel with
  | O => Err OutOfFuel
  | S fuel =>
      match st !! jobName with
      | Some complete => Ok st
      | Some visiting =>
          match from_first jobName path with
          | Some cycle => Err (CircularHookDependency (cycle ++ [jobName]))
          | None => Err (CircularHookDependency [jobName])
          end
      | None =>
          let? st := visitAll (visitJob fuel dependencies (path ++ [jobName])) (<[jobName := visiting]> st)
                       (default [] (dependencies !! jobName)) in
          Ok (<[jobName := complete]> st)
      end
  end.
Definition detect_fuel (dependencies : Deps) : nat := (S (size dependencies))%nat.

(** [order] is the order in which Go visits the keys of the map. *)
Fixpoint detectLoop (dependencies : Deps) (order : list string) (st : visited) : result cycle_error unit :=
  match order with
  | [] => Ok tt
  | j :: order =>
      match st !! j with
      | Some _ => detectLoop dependencies order st
      | None => let? st := visitJob (detect_fuel dependencies) dependencies [] st j in detectLoop dependencies order st
      end
  end.
Definition detectCircularHookDependencies (dependencies : Deps) (order : list string) : result cycle_error unit :=
  detectLoop dependencies order ∅.

(** ** Levels and order *)

(** The rows the recursive query adds in round [k]: the jobs at the end of a
    chain of [k] demands. *)
Fixpoint seqRound (jobs : list string) (hooks : list (string * string)) (k : nat) : list string :=
  match k with
  | O => jobs
  | S k => concat (map (fun level_job => (List.filter (fun h => bool_decide (h.2 = level_job)) hooks).*1) (seqRound jobs hooks k))
  end.
(** [(SELECT MAX(level) FROM hook_seq WHERE job = j)], over the first rounds. *)
Fixpoint maxLevel (jobs : list string) (hooks : list (string * string)) (rounds : nat) (j : string) : Z :=
  match rounds with
  | O => 0
  | S r => if bool_decide (j ∈ seqRound jobs hooks r) then Z.max (Z.of_nat r) (maxLevel jobs hooks r j)
           else maxLevel jobs hooks r j
  end.
Definition deploymentSeq (jobs : list string) (hooks : list (string * string)) (j : string) : Z :=
  maxLevel jobs hooks (S (length jobs)) j.

Definition BuildDeploymentSequence (jobs : list string) (hooks : list (string * string)) (order : list string)
    : result cycle_error (string -> Z) :=
  let dependencies := loadHookDependencies hooks in
  let? _ := detectCircularHookDependencies dependencies order in
  Ok (deploymentSeq jobs hooks).

Record JobRow := mkJobRow { JobName : string; JobPriority : Z; JobSeq : Z }.
(** [ORDER BY deployment_priority DESC, deployment_seq ASC, name ASC]. *)
Definition row_le (a b : JobRow) : Prop :=
  JobPriority b < JobPriority a \/
  (JobPriority a = JobPriority b /\
    (JobSeq a < JobSeq b \/ (JobSeq a = JobSeq b /\ String.le (JobName a) (JobName b)))).
#[global] Instance row_le_dec : RelDecision row_le.
Proof. unfold RelDecision, row_le. intros. apply _. Defined.

(** The UPDATE of [AssignDeploymentOrders] gives each name its index. *)
Definition deploymentOrder (rows : list JobRow) : list string := map JobName (merge_sort row_le rows).
Fixpoint indexFrom (i : Z) (names : list string) (j : string) : option Z :=
  match names with
  | [] => None
  | n :: names => if bool_decide (n = j) then Some i else indexFrom (i + 1) names j
  end.
Definition AssignDeploymentOrders (rows : list JobRow) (j : string) : option Z := indexFrom 0 (deploymentOrder rows) j.
(** [BuildDeploymentSequence] then [BuildDeploymentOrder] on the jobs table. *)
Definition BuildDeploymentOrder (jobs : list (string * Z)) (seq : string -> Z) : string -> option Z :=
  AssignDeploymentOrders (map (fun jp => mkJobRow jp.1 jp.2 (seq jp.1)) jobs).

(** ** Demand cycles are found and demanded jobs deploy first

    The depth-first search of [detectCircularHookDependencies] is correct and
    complete, and the order of [BuildDeploymentOrder] puts every demanded job
    before the jobs that demand it. *)

Section detect.
Variable dependencies : Deps.
Definition dep (x y : string) : Prop := y ∈ default [] (dependencies !! x).

(** Consecutive names are demands. *)
Fixpoint linked (l : list string) : Prop :=
  match l with
  | x :: l' => match l' with y :: _ => dep x y /\ linked l' | [] => True end
  | [] => True
  end.
Definition is_cycle (c : list string) : Prop := exists x mid, c = x :: mid ++ [x] /\ linked c.
Definition terminates (x : string) : Prop := Acc (fun y x => dep x y) x.

Lemma linked_cons x y l : linked (x :: y :: l) <-> dep x y /\ linked (y :: l).
Proof. done. Qed.

Lemma linked_app_r l k : linked (l ++ k) -> linked k.
Proof.
  induction l as [|x [|y l] IH]; [done| |].
  - destruct k; [done|]. by intros [_ H]%linked_cons.
  - intros [_ H]%linked_cons. by apply IH.
Qed.

Lemma linked_snoc l x y : linked (l ++ [x]) -> dep x y -> linked ((l ++ [x]) ++ [y]).
Proof.
  induction l as [|a [|b l] IH]; intros Hl Hd; [done| |]; apply linked_cons in Hl as [H1 H2];
    apply linked_cons; (split; [done|]); by apply IH.
Qed.

Lemma linked_tc x l y : linked (x :: l ++ [y]) -> tc dep x y.
Proof.
  revert x. induction l as [|a l IH]; intros x [H1 H2]%linked_cons; [by apply tc_once|].
  eapply tc_l; [done|]. by apply IH.
Qed.

Lemma tc_not_terminates x y : tc dep x y -> terminates x -> x <> y.
Proof.
  intros Ht Ha. revert y Ht. induction Ha as [x _ IH]. intros y Ht <-.
  assert (exists z, dep x z /\ tc dep z z) as (z & Hz & Hzz).
  { inversion Ht as [? ? H|? z ? H1 H2]; subst; [exists x; by split|]. exists z. split; [done|].
    by eapply tc_r. }
  by apply (IH z Hz z Hzz).
Qed.

Lemma from_first_spec j path :
  match from_first j path with
  | Some c => exists pre rest, path = pre ++ c /\ c = j :: rest
  | None => j ∉ path
  end.
Proof.
  induction path as [|p path IH]; simpl; [set_solver|]. case_bool_decide as E.
  - subst. by exists [], path.
  - destruct (from_first j path) as [c|]; [|set_solver]. destruct IH as (pre & rest & -> & ->).
    by exists (p :: pre), rest.
Qed.

Definition inv (st : visited) (path : list string) : Prop :=
  (forall x, st !! x = Some visiting <-> x ∈ path) /\ (forall x, st !! x = Some complete -> terminates x).
Definition grows (st st' : visited) : Prop :=
  (forall x, st !! x = Some complete -> st' !! x = Some complete) /\ (dom st : gset string) ⊆ (dom st' : gset string).
Definition unseen (st : visited) : nat := size ((dom dependencies : gset string) ∖ dom st).

Definition post (st : visited) (path jobs : list string) (r : result cycle_error visited) : Prop :=
  match r with
  | Ok st' => inv st' path /\ grows st st' /\ forall j, j ∈ jobs -> st' !! j = Some complete
  | Err (CircularHookDependency c) => is_cycle c
  | Err OutOfFuel => False
  end.

Lemma grows_refl st : grows st st.
Proof. by split. Qed.
Lemma grows_trans a b c : grows a b -> grows b c -> grows a c.
Proof. intros [H1 H2] [H3 H4]. split; [auto|]. by transitivity (dom b : gset string). Qed.
Lemma grows_unseen a b : grows a b -> (unseen b <= unseen a)%nat.
Proof. intros [_ H]. unfold unseen. apply subseteq_size. set_solver. Qed.

Lemma visitAll_post f path jobs fuel :
  (forall st j, j ∈ jobs -> inv st path -> (unseen st < fuel)%nat -> post st path [j] (f st j)) ->
  forall st, inv st path -> (unseen st < fuel)%nat -> post st path jobs (visitAll f st jobs).
Proof.
  induction jobs as [|j jobs IH]; intros Hf st Hi Hu; simpl.
  { split_and!; [done|apply grows_refl|set_solver]. }
  pose proof (Hf st j ltac:(set_solver) Hi Hu) as Hj. destruct (f st j) as [st1|[c|]]; simpl; [|done|done].
  destruct Hj as (Hi1 & Hg1 & Hc1). pose proof (grows_unseen _ _ Hg1).
  assert (post st1 path jobs (visitAll f st1 jobs)) as Hp by (apply IH; [intros; apply Hf; set_solver|done|lia]).
  destruct (visitAll f st1 jobs) as [st2|[c|]]; [|done|done]. destruct Hp as (Hi2 & Hg2 & Hc2).
  split_and!; [done|by eapply grows_trans|]. intros x [->|Hx]%elem_of_cons; [|auto]. apply Hg2, Hc1. set_solver.
Qed.

Hypothesis closed : forall x y, dep x y -> y ∈ (dom dependencies : gset string).

Lemma unseen_insert st j v :
  st !! j = None -> j ∈ (dom dependencies : gset string) -> (S (unseen (<[j := v]> st)) <= unseen st)%nat.
Proof.
  intros Hn%not_elem_of_dom Hj. unfold unseen. rewrite dom_insert_L.
  set (K := (dom dependencies : gset string)) in *. set (D := (dom st : gset string)) in *.
  apply subset_size. set_solver.
Qed.

Lemma visitJob_post fuel : forall path st j,
  j ∈ (dom dependencies : gset string) -> inv st path -> linked (path ++ [j]) -> (unseen st < fuel)%nat ->
  post st path [j] (visitJob fuel dependencies path st j).
Proof.
  induction fuel as [|fuel IH]; intros path st j Hj Hi Hl Hu; [lia|]. cbn [visitJob].
  destruct (st !! j) as [[|]|] eqn:Ej.
  - pose proof (from_first_spec j path) as Hf. destruct (from_first j path) as [c|].
    + destruct Hf as (pre & rest & -> & ->). exists j, rest. split; [done|].
      rewrite <- app_assoc in Hl. by apply linked_app_r in Hl.
    + destruct Hf. by apply Hi.
  - split_and!; [done|apply grows_refl|]. by intros x ->%list_elem_of_singleton.
  - assert (j ∉ path) as Hjp by (intros Hin; apply Hi in Hin; congruence).
    set (st1 := <[j := visiting]> st).
    assert (inv st1 (path ++ [j])) as Hi1.
    { split; intros x; unfold st1; destruct (decide (x = j)) as [->|Hne].
      - rewrite lookup_insert_eq. set_solver.
      - rewrite lookup_insert_ne by done. rewrite (proj1 Hi x). set_solver.
      - by rewrite lookup_insert_eq.
      - rewrite lookup_insert_ne by done. apply Hi. }
    pose proof (unseen_insert st j visiting Ej Hj) as Hlt. fold st1 in Hlt.
    assert (post st1 (path ++ [j]) (default [] (dependencies !! j))
              (visitAll (visitJob fuel dependencies (path ++ [j])) st1 (default [] (dependencies !! j)))) as Hp.
    { apply (visitAll_post _ _ _ fuel); [|done|lia]. intros st' y Hy Hi' Hu'.
      apply IH; [by apply (closed j)|done| |done]. by apply linked_snoc. }
    destruct (visitAll _ st1 _) as [st2|[c|]]; simpl; [|done|done]. destruct Hp as (Hi2 & Hg2 & Hc2).
    split_and!.
    + split; intros x; destruct (decide (x = j)) as [->|Hne].
      * rewrite lookup_insert_eq. split; [done|]. intros. done.
      * rewrite lookup_insert_ne by done. rewrite (proj1 Hi2 x). set_solver.
      * intros _. constructor. intros y Hy. apply (proj2 Hi2). by apply Hc2.
      * rewrite lookup_insert_ne by done. apply Hi2.
    + split.
      * intros x Hx. destruct (decide (x = j)) as [->|Hne]; [by rewrite lookup_insert_eq|].
        rewrite lookup_insert_ne by done. apply Hg2. unfold st1. by rewrite lookup_insert_ne.
      * destruct Hg2 as [_ Hd]. unfold st1 in Hd. rewrite dom_insert_L in *. set_solver.
    + intros x ->%list_elem_of_singleton. by rewrite lookup_insert_eq.
Qed.

Lemma detectLoop_spec order : forall st,
  inv st [] -> (forall j, j ∈ order -> j ∈ (dom dependencies : gset string)) ->
  match detectLoop dependencies order st with
  | Ok _ => forall j, j ∈ order \/ st !! j = Some complete -> terminates j
  | Err (CircularHookDependency c) => is_cycle c
  | Err OutOfFuel => False
  end.
Proof.
  induction order as [|j order IH]; intros st Hi Hin; cbn [detectLoop].
  { intros j [?|Hj]; [set_solver|by apply Hi]. }
  assert (unseen st < detect_fuel dependencies)%nat as Hu.
  { unfold unseen, detect_fuel. rewrite <- (size_dom (D := gset string)).
    apply Nat.lt_succ_r, subseteq_size. intros x. rewrite elem_of_difference. by intros []. }
  assert (j ∈ (dom dependencies : gset string)) as Hj by (apply Hin, elem_of_cons; by left).
  assert (forall x, x ∈ order -> x ∈ (dom dependencies : gset string)) as Hrest by (intros; apply Hin, elem_of_cons; by right).
  destruct (st !! j) as [[|]|] eqn:Ej.
  - apply Hi in Ej. by apply not_elem_of_nil in Ej.
  - specialize (IH st Hi Hrest). destruct (detectLoop dependencies order st) as [|[|]]; [|exact IH|exact IH].
    intros x [[->|Hx]%elem_of_cons|Hx]; [apply IH; by right|apply IH; by left|apply IH; by right].
  - pose proof (visitJob_post (detect_fuel dependencies) [] st j Hj Hi I Hu) as Hp.
    destruct (visitJob _ _ _ _ _) as [st1|[c|]]; simpl; [|done|done]. destruct Hp as (Hi1 & Hg1 & Hc1).
    specialize (IH st1 Hi1 Hrest). destruct (detectLoop dependencies order st1) as [|[|]]; [|exact IH|exact IH].
    intros x [[->|Hx]%elem_of_cons|Hx]; apply IH; [right; apply Hc1; by apply list_elem_of_singleton|by left|right; by apply Hg1].
Qed.
End detect.

(** ** The graph of the hooks table *)

(** [x] demands [y]. *)
Definition demands (hooks : list (string * string)) (x y : string) : Prop := (x, y) ∈ hooks /\ y <> "".

Lemma addDependency_lookup deps x y z w :
  w ∈ default [] (addDependency deps (x, y) !! z) <-> w ∈ default [] (deps !! z) \/ (z = x /\ w = y).
Proof.
  unfold addDependency. set (d1 := <[x := default [] (deps !! x) ++ [y]]> deps).
  assert (w ∈ default [] (d1 !! z) <-> w ∈ default [] (deps !! z) \/ (z = x /\ w = y)) as Hd.
  { unfold d1. destruct (decide (z = x)) as [->|Hne].
    - rewrite lookup_insert_eq. simpl. rewrite elem_of_app, list_elem_of_singleton. naive_solver.
    - rewrite lookup_insert_ne by done. naive_solver. }
  destruct (d1 !! y) as [l|] eqn:Ey; [done|]. rewrite <- Hd. destruct (decide (z = y)) as [->|Hne].
  - rewrite lookup_insert_eq, Ey. done.
  - by rewrite lookup_insert_ne.
Qed.

Lemma addDependency_dom deps x y :
  (dom (addDependency deps (x, y)) : gset string) = {[x; y]} ∪ dom deps.
Proof.
  unfold addDependency. case_match eqn:E; rewrite ?dom_insert_L.
  - assert (y ∈ (dom (<[x := default [] (deps !! x) ++ [y]]> deps) : gset string)) as Hy
      by (apply elem_of_dom; eauto). rewrite dom_insert_L in Hy. set_solver.
  - set_solver.
Qed.

Lemma foldl_addDependency rows : forall deps,
  (forall z w, dep (foldl addDependency deps rows) z w <-> dep deps z w \/ (z, w) ∈ rows) /\
  (forall z, z ∈ (dom (foldl addDependency deps rows) : gset string)
     <-> z ∈ (dom deps : gset string) \/ exists w, (z, w) ∈ rows \/ (w, z) ∈ rows).
Proof.
  induction rows as [|[x y] rows IH]; intros deps; simpl.
  { split; intros; set_solver. }
  destruct (IH (addDependency deps (x, y))) as [H1 H2]. split.
  - intros z w. rewrite H1. unfold dep at 1. rewrite addDependency_lookup, elem_of_cons. naive_solver.
  - intros z. rewrite H2, addDependency_dom. split.
    + intros [Hz|(w & [?|?])]; [|right; exists w; set_solver|right; exists w; set_solver].
      apply elem_of_union in Hz as [Hz|Hz]; [|by left].
      apply elem_of_union in Hz as [Hz|Hz]; apply elem_of_singleton in Hz as ->; right; [exists y|exists x]; set_solver.
    + intros [Hz|(w & [[[= -> ->]|?]%elem_of_cons|[[= -> ->]|?]%elem_of_cons])]; [left|left|right; eauto|left|right; eauto]; set_solver.
Qed.

Lemma elem_of_filter_rows (f : string * string -> bool) l r : r ∈ List.filter f l <-> r ∈ l /\ f r = true.
Proof. rewrite !list_elem_of_In. apply filter_In. Qed.

Lemma load_dep hooks x y : dep (loadHookDependencies hooks) x y <-> demands hooks x y.
Proof.
  unfold loadHookDependencies. rewrite (proj1 (foldl_addDependency _ ∅) x y), elem_of_filter_rows. unfold demands, dep, nonempty_string.
  rewrite lookup_empty. simpl. rewrite negb_true_iff, bool_decide_eq_false. set_solver.
Qed.
Lemma load_closed hooks x y :
  dep (loadHookDependencies hooks) x y -> y ∈ (dom (loadHookDependencies hooks) : gset string).
Proof.
  unfold loadHookDependencies. intros Hd. apply (proj1 (foldl_addDependency _ ∅)) in Hd.
  apply (proj2 (foldl_addDependency _ ∅)). destruct Hd as [Hd|Hd]; [by apply not_elem_of_nil in Hd|right; eauto].
Qed.
Lemma load_dom hooks x y : dep (loadHookDependencies hooks) x y -> x ∈ (dom (loadHookDependencies hooks) : gset string).
Proof.
  intros Hd. destruct (loadHookDependencies hooks !! x) eqn:E; [by apply elem_of_dom_2 in E|].
  unfold dep in Hd. rewrite E in Hd. by apply not_elem_of_nil in Hd.
Qed.

Lemma detect_spec hooks order :
  (forall j, j ∈ order <-> j ∈ (dom (loadHookDependencies hooks) : gset string)) ->
  match detectCircularHookDependencies (loadHookDependencies hooks) order with
  | Ok _ => forall j, terminates (loadHookDependencies hooks) j
  | Err (CircularHookDependency c) => is_cycle (loadHookDependencies hooks) c
  | Err OutOfFuel => False
  end.
Proof.
  intros Ho. set (D := loadHookDependencies hooks) in *.
  assert (inv D ∅ []) as Hi.
  { split; intros x; [|by rewrite lookup_empty]. rewrite lookup_empty. split; [done|]. intros H. by apply not_elem_of_nil in H. }
  pose proof (detectLoop_spec D (load_closed hooks) order ∅ Hi (fun j => proj1 (Ho j))) as Hd.
  unfold detectCircularHookDependencies. destruct (detectLoop D order ∅) as [|[|]]; [|exact Hd|exact Hd].
  intros j. destruct (decide (j ∈ order)) as [Hj|Hj]; [by apply Hd; left|].
  constructor. intros y Hy. destruct Hj. apply Ho. by apply load_dom in Hy.
Qed.

Lemma tc_mono {A} (R S : A -> A -> Prop) : (forall a b, R a b -> S a b) -> forall x y, tc R x y -> tc S x y.
Proof. intros H x y. induction 1; [by apply tc_once, H|eapply tc_l; eauto]. Qed.

(** C15: The search reports a circular demand exactly when there is one, whatever
    order the map is visited in, and the cycle it reports is one: a demand
    chain from a job back to itself. It always ends. *)
Theorem detect_correct hooks order :
  (forall j, j ∈ order <-> j ∈ (dom (loadHookDependencies hooks) : gset string)) ->
  match detectCircularHookDependencies (loadHookDependencies hooks) order with
  | Ok _ => forall j, ~ tc (demands hooks) j j
  | Err (CircularHookDependency c) =>
      exists j mid, c = j :: mid ++ [j] /\ tc (demands hooks) j j /\ linked (loadHookDependencies hooks) c
  | Err OutOfFuel => False
  end.
Proof.
  intros Ho. pose proof (detect_spec hooks order Ho) as H.
  assert (forall x y, tc (demands hooks) x y <-> tc (dep (loadHookDependencies hooks)) x y) as Htc.
  { intros x y. split; apply tc_mono; intros a b; apply load_dep. }
  destruct (detectCircularHookDependencies _ order) as [|[c|]]; [| |exact H].
  - intros j Hj%Htc. by apply (tc_not_terminates _ j j Hj (H j)).
  - destruct H as (x & mid & -> & Hl). exists x, mid. split_and!; [done| |done]. apply Htc. by eapply linked_tc.
Qed.

Lemma detect_correct_witness :
  exists j mid, ["a"; "b"; "a"] = j :: mid ++ [j] /\ tc (demands [("a", "b"); ("b", "a")]) j j /\
    linked (loadHookDependencies [("a", "b"); ("b", "a")]) ["a"; "b"; "a"].
Proof.
  pose proof (detect_correct [("a", "b"); ("b", "a")] ["a"; "b"]) as H.
  assert (detectCircularHookDependencies (loadHookDependencies [("a", "b"); ("b", "a")]) ["a"; "b"]
          = Err (CircularHookDependency ["a"; "b"; "a"])) as E by (vm_compute; reflexivity).
  rewrite E in H. apply H. intros j.
  assert ((dom (loadHookDependencies [("a", "b"); ("b", "a")]) : gset string) = {["a"; "b"]}) as -> by (vm_compute; reflexivity).
  set_solver.
Defined.

(** ** Levels *)

Section levels.
Variable jobs : list string.
Variable hooks : list (string * string).
Notation edge := (fun x y => (x, y) ∈ hooks).
(** Hooks belong to jobs of the table. *)
Hypothesis hooks_in_jobs : forall x y, (x, y) ∈ hooks -> x ∈ jobs.
Hypothesis acyclic : forall j, ~ tc edge j j.

Lemma seqRound_step k j :
  j ∈ seqRound jobs hooks (S k) <-> exists d, d ∈ seqRound jobs hooks k /\ (j, d) ∈ hooks.
Proof.
  cbn [seqRound]. rewrite list_elem_of_In, in_concat. split.
  - intros (l & (d & <- & Hd)%in_map_iff & Hj). exists d. rewrite list_elem_of_In. split; [done|].
    apply list_elem_of_In, list_elem_of_fmap in Hj as ([x y] & -> & Hr).
    apply elem_of_filter_rows in Hr as [Hr E%bool_decide_eq_true]. simpl in *. by subst.
  - intros (d & Hd & Hh). eexists. split; [apply in_map_iff; exists d; split; [done|by apply list_elem_of_In]|].
    apply list_elem_of_In, list_elem_of_fmap. exists (j, d). split; [done|].
    apply elem_of_filter_rows. split; [done|]. by apply bool_decide_eq_true.
Qed.

Lemma seqRound_jobs k j : j ∈ seqRound jobs hooks k -> j ∈ jobs.
Proof. destruct k; [done|]. intros (d & _ & H)%seqRound_step. eauto. Qed.

(** A job of round [k] heads a demand chain of [k + 1] jobs. *)
Lemma seqRound_chain k : forall j, j ∈ seqRound jobs hooks k ->
  exists l, length l = k /\ NoDup (j :: l) /\ (forall x, x ∈ l -> tc edge j x) /\ (forall x, x ∈ j :: l -> x ∈ jobs).
Proof.
  induction k as [|k IH]; intros j Hj.
  - exists []. split_and!; [done|apply NoDup_singleton|set_solver|]. intros x ->%list_elem_of_singleton. done.
  - pose proof (seqRound_jobs _ _ Hj) as Hjj. apply seqRound_step in Hj as (d & Hd & He).
    destruct (IH d Hd) as (l & Hl & Hn & Hr & Hin). exists (d :: l).
    assert (forall x, x ∈ d :: l -> tc edge j x) as Hall.
    { intros x [->|Hx]%elem_of_cons; [by apply tc_once|]. eapply tc_l; [exact He|]. by apply Hr. }
    split_and!; [by simpl; rewrite Hl| |done|].
    + constructor; [|done]. intros Hx. by apply (acyclic j), Hall.
    + intros x [->|Hx]%elem_of_cons; auto.
Qed.

Lemma seqRound_bound k j : j ∈ seqRound jobs hooks k -> (k < length jobs)%nat.
Proof.
  intros Hj. destruct (seqRound_chain k j Hj) as (l & <- & Hn & _ & Hin).
  assert (length (j :: l) <= length jobs)%nat as Hle; [|simpl in Hle; lia].
  by apply submseteq_length, NoDup_submseteq.
Qed.

Lemma maxLevel_ge rounds k j :
  (k < rounds)%nat -> j ∈ seqRound jobs hooks k -> Z.of_nat k <= maxLevel jobs hooks rounds j.
Proof.
  induction rounds as [|r IH]; [lia|]. intros Hk Hj. cbn [maxLevel]. destruct (decide (k = r)) as [->|].
  - rewrite bool_decide_true by done. lia.
  - specialize (IH ltac:(lia) Hj). case_bool_decide; lia.
Qed.
Lemma maxLevel_in rounds j :
  j ∈ jobs -> exists k, (k = O \/ (k < rounds)%nat) /\ j ∈ seqRound jobs hooks k /\ maxLevel jobs hooks rounds j = Z.of_nat k.
Proof.
  intros Hj. induction rounds as [|r (k & Hk & Hin & E)]; [by exists O; split_and!; [left| |]|].
  cbn [maxLevel]. case_bool_decide as Hr; [|exists k; split_and!; [lia|done|done]].
  destruct (decide (k <= r)%nat).
  - exists r. split_and!; [lia|done|]. rewrite E. lia.
  - exists k. split_and!; [lia|done|]. rewrite E. lia.
Qed.

(** A demanding job has a higher sequence number than the job it demands. *)
Lemma deploymentSeq_demand j d :
  d ∈ jobs -> (j, d) ∈ hooks -> deploymentSeq jobs hooks d < deploymentSeq jobs hooks j.
Proof.
  intros Hd Hh. unfold deploymentSeq. destruct (maxLevel_in (S (length jobs)) d Hd) as (k & _ & Hk & E). rewrite E.
  assert (j ∈ seqRound jobs hooks (S k)) as Hs by (apply seqRound_step; eauto).
  pose proof (seqRound_bound _ _ Hs). pose proof (maxLevel_ge (S (length jobs)) (S k) j ltac:(lia) Hs). lia.
Qed.
End levels.

(** A row without a demand adds to no round: no job has the empty name. *)
Lemma seqRound_demanding jobs hooks k :
  (forall x y, (x, y) ∈ hooks -> x ∈ jobs) -> "" ∉ jobs ->
  seqRound jobs (List.filter (fun row => nonempty_string row.2) hooks) k = seqRound jobs hooks k.
Proof.
  intros Hh Hne. induction k as [|k IH]; [done|]. cbn [seqRound]. rewrite IH. f_equal. apply map_ext_in.
  intros d Hd%list_elem_of_In%(seqRound_jobs jobs hooks Hh). f_equal. clear Hh IH.
  induction hooks as [|[x y] hooks IHh]; [done|]. cbn [List.filter snd]. unfold nonempty_string.
  case_bool_decide as Hy; cbn [negb]; [subst y; rewrite (bool_decide_eq_false_2 ("" = d)) by congruence; exact IHh|].
  cbn [List.filter snd]. unfold nonempty_string in IHh. by rewrite IHh.
Qed.
Lemma deploymentSeq_demanding jobs hooks j :
  (forall x y, (x, y) ∈ hooks -> x ∈ jobs) -> "" ∉ jobs ->
  deploymentSeq jobs (List.filter (fun row => nonempty_string row.2) hooks) j = deploymentSeq jobs hooks j.
Proof.
  intros Hh Hne. unfold deploymentSeq. induction (S (length jobs)) as [|r IH]; [done|]. cbn [maxLevel].
  by rewrite IH, (seqRound_demanding jobs hooks r Hh Hne).
Qed.

(** ** The order *)

#[global] Instance row_le_trans : Transitive row_le.
Proof.
  intros a b c. unfold row_le. intros [H1|(H1 & [H2|(H2 & H3)])] [G1|(G1 & [G2|(G2 & G3)])];
    try (left; lia); right; split; try lia; try (left; lia). right. split; [lia|]. by transitivity (JobName b).
Qed.
#[global] Instance row_le_total : Total row_le.
Proof.
  intros a b. unfold row_le.
  destruct (decide (JobPriority a = JobPriority b)); [|lia]. destruct (decide (JobSeq a = JobSeq b)); [|lia].
  destruct (total String.le (JobName a) (JobName b)); auto 6.
Qed.

Lemma indexFrom_lookup names j : NoDup names -> forall i k,
  names !! k = Some j -> indexFrom i names j = Some (i + Z.of_nat k).
Proof.
  induction 1 as [|n names Hn Hnd IH]; intros i k Hk; [done|]. cbn [indexFrom]. destruct k as [|k]; simpl in Hk.
  - injection Hk as ->. rewrite bool_decide_true by done. f_equal. lia.
  - rewrite bool_decide_false; [|intros ->; apply Hn; by eapply list_elem_of_lookup_2].
    rewrite (IH (i + 1) k Hk). f_equal. lia.
Qed.

Lemma StronglySorted_lookup {A} (R : A -> A -> Prop) l i j x y :
  StronglySorted R l -> l !! i = Some x -> l !! j = Some y -> (i < j)%nat -> R x y.
Proof.
  intros Hs. revert i j. induction Hs as [|a l Hs IH Ha]; intros i j Hi Hj Hlt; [done|].
  destruct j as [|j]; [lia|]. destruct i as [|i]; simpl in *.
  - injection Hi as <-. rewrite Forall_forall in Ha. apply Ha. by eapply list_elem_of_lookup_2.
  - apply (IH i j); [done|done|lia].
Qed.

Lemma deploymentOrder_before rows a b :
  NoDup (map JobName rows) -> a ∈ rows -> b ∈ rows -> ~ row_le b a ->
  exists i j, AssignDeploymentOrders rows (JobName a) = Some i /\ AssignDeploymentOrders rows (JobName b) = Some j /\ 0 <= i < j.
Proof.
  intros Hnd Ha Hb Hnle. unfold AssignDeploymentOrders, deploymentOrder. set (sorted := merge_sort row_le rows).
  assert (Permutation sorted rows) as Hp by apply merge_sort_Permutation.
  assert (StronglySorted row_le sorted) as Hs by apply (StronglySorted_merge_sort row_le).
  assert (NoDup (map JobName sorted)) as Hnd' by (by rewrite Hp).
  rewrite <- Hp in Ha, Hb. apply list_elem_of_lookup_1 in Ha as [ia Ha], Hb as [ib Hb].
  assert (ia < ib)%nat as Hlt.
  { destruct (decide (ib < ia)%nat) as [Hlt|]; [destruct Hnle; by eapply StronglySorted_lookup|].
    destruct (decide (ia = ib)) as [<-|]; [|lia]. rewrite Ha in Hb. injection Hb as ->.
    destruct Hnle. destruct (total row_le b b); done. }
  assert (forall k r, sorted !! k = Some r -> map JobName sorted !! k = Some (JobName r)) as Hm
    by (intros k r Hk; by rewrite list_lookup_fmap, Hk).
  exists (Z.of_nat ia), (Z.of_nat ib).
  rewrite (indexFrom_lookup _ _ Hnd' 0 ia) by by apply Hm. rewrite (indexFrom_lookup _ _ Hnd' 0 ib) by by apply Hm.
  split_and!; [done|done|lia|lia].
Qed.

(** C14: When the demands are not circular, the sequence numbers and then the
    deployment order place every demanded job of no lower priority strictly
    before each job that demands it. The rows of hooks that demand nothing,
    with an empty [demand_job], are among [hooks]; jobs have names. *)
Theorem deployment_order_respects_demands jobs hooks order seq j d pj pd :
  (forall x, x ∈ order <-> x ∈ (dom (loadHookDependencies hooks) : gset string)) ->
  NoDup jobs.*1 -> "" ∉ jobs.*1 -> (forall x y, (x, y) ∈ hooks -> x ∈ jobs.*1) ->
  BuildDeploymentSequence jobs.*1 hooks order = Ok seq ->
  (j, pj) ∈ jobs -> (d, pd) ∈ jobs -> (j, d) ∈ hooks -> pj <= pd ->
  exists oj od, BuildDeploymentOrder jobs seq j = Some oj /\ BuildDeploymentOrder jobs seq d = Some od /\ 0 <= od < oj.
Proof.
  intros Ho Hnd Hne Hh Hb Hj Hd Hjd Hp. unfold BuildDeploymentSequence in Hb.
  pose proof (detect_spec hooks order Ho) as Hdet.
  destruct (detectCircularHookDependencies _ order) as [|e]; [|done]. simpl in Hb. injection Hb as <-.
  set (hooks' := List.filter (fun row : string * string => nonempty_string row.2) hooks).
  assert (forall u v, (u, v) ∈ hooks' <-> demands hooks u v) as Hh'.
  { intros u v. unfold hooks', demands, nonempty_string. rewrite elem_of_filter_rows, negb_true_iff. by rewrite bool_decide_eq_false. }
  assert (forall x, ~ tc (fun a b => (a, b) ∈ hooks') x x) as Hac.
  { intros x Hx. refine (tc_not_terminates _ x x _ (Hdet x) eq_refl). revert Hx. apply tc_mono. intros u v Huv. by apply load_dep, Hh'. }
  assert (d ∈ jobs.*1) as Hdj by (apply list_elem_of_fmap; by exists (d, pd)).
  assert (deploymentSeq jobs.*1 hooks d < deploymentSeq jobs.*1 hooks j) as Hseq.
  { rewrite <- !(deploymentSeq_demanding jobs.*1 hooks) by done. fold hooks'.
    apply deploymentSeq_demand; [intros x y [Hxy _]%Hh'; by eapply Hh|done|done|].
    apply Hh'. split; [done|]. by intros ->. }
  set (seq := deploymentSeq jobs.*1 hooks) in *.
  set (row := fun jp : string * Z => mkJobRow jp.1 jp.2 (seq jp.1)).
  destruct (deploymentOrder_before (map row jobs) (row (d, pd)) (row (j, pj))) as (i & k & Hi & Hk & Hlt).
  - rewrite map_map. exact Hnd.
  - exact (list_elem_of_fmap_2 row jobs (d, pd) Hd).
  - exact (list_elem_of_fmap_2 row jobs (j, pj) Hj).
  - unfold row_le, row. cbn [JobPriority JobSeq JobName fst snd]. lia.
  - exists k, i. exact (conj Hk (conj Hi Hlt)).
Qed.

Lemma deployment_order_respects_demands_witness :
  let jobs := [("app", 1); ("db", 1); ("web", 0)] in
  let hooks := [("app", "db"); ("db", ""); ("web", "app")] in
  exists oj od, BuildDeploymentOrder jobs (deploymentSeq jobs.*1 hooks) "app" = Some oj /\
    BuildDeploymentOrder jobs (deploymentSeq jobs.*1 hooks) "db" = Some od /\ 0 <= od < oj.
Proof.
  intros jobs hooks.
  apply (deployment_order_respects_demands jobs hooks ["app"; "db"; "web"] (deploymentSeq jobs.*1 hooks) "app" "db" 1 1).
  - assert ((dom (loadHookDependencies hooks) : gset string) = {["app"; "db"; "web"]}) as -> by (vm_compute; reflexivity).
    intros x. rewrite !elem_of_union, !elem_of_singleton, !elem_of_cons, elem_of_nil. tauto.
  - repeat (apply NoDup_cons; split; [apply mem_false; vm_compute; reflexivity|]). constructor.
  - apply mem_false. vm_compute. reflexivity.
  - intros x y Hxy. unfold hooks in Hxy. rewrite !elem_of_cons in Hxy.
    destruct Hxy as [[= -> ->]|[[= -> ->]|[[= -> ->]|Hxy]]]; [apply mem_true; vm_compute; reflexivity..|by apply not_elem_of_nil in Hxy].
  - vm_compute. reflexivity.
  - apply mem_true. vm_compute. reflexivity.
  - apply mem_true. vm_compute. reflexivity.
  - apply mem_true. vm_compute. reflexivity.
  - lia.
Defined.
