(* ===== verification/Semaphore.v ===== *)
(** * hooks: the counting semaphores of the runtime API

    hooks/runtime_semaphore.go. Each operation that holds the coordinator's
    mutex is a function on its state; the goroutines of the pending requests,
    the closing of notify channels and the cancellation of contexts are the
    steps of a transition system. A channel is a number. *)
From S2P Require Import Prelude GoStrings.
Open Scope Z_scope.

Definition defaultSemaphoreCapacity : Z := 1.
Definition maxSemaphoreCapacity : Z := 64.

Record jobSemaphore := mkSem {
  capacity : Z;
  holders : gset string;
  waiters : list (string * nat);
}.
Notation Coordinator := (gmap string jobSemaphore).

Inductive sem_error :=
| CapacityExceedsMaximum (requested : Z)
| CapacityMismatch (existing requested : Z)
| NotHeld (scopeKey : string)
| AllocationDoesNotHold (allocationID scopeKey : string)
| ContextDone.

Definition count (s : gset string) : Z := Z.of_nat (size s).

(** [Some ch] is a channel to wait on, [None] an immediate grant. *)
Definition registerWait (c : Coordinator) (scopeKey allocationID : string) (cap : Z) (fresh : nat)
    : Coordinator * result sem_error (option nat) :=
  match c !! scopeKey with
  | Some s => if negb (capacity s =? cap) then (c, Err (CapacityMismatch (capacity s) cap)) else
      if bool_decide (allocationID ∈ holders s) then (c, Ok None)
      else if count (holders s) <? capacity s
      then (<[scopeKey := mkSem (capacity s) ({[allocationID]} ∪ holders s) (waiters s)]> c, Ok None)
      else (<[scopeKey := mkSem (capacity s) (holders s) (waiters s ++ [(allocationID, fresh)])]> c, Ok (Some fresh))
  | None =>
      if 0 <? cap then (<[scopeKey := mkSem cap {[allocationID]} []]> c, Ok None)
      else (<[scopeKey := mkSem cap ∅ [(allocationID, fresh)]]> c, Ok (Some fresh))
  end.

Definition cancelWait (c : Coordinator) (scopeKey : string) (ch : nat) : Coordinator :=
  match c !! scopeKey with
  | None => c
  | Some s =>
      <[scopeKey := mkSem (capacity s) (holders s) (List.filter (fun w => negb (w.2 =? ch)%nat) (waiters s))]> c
  end.

(** [grantNextWaiterLocked]: the loop, with the channels it closes. *)
Fixpoint grantLoop (cap : Z) (hs : gset string) (ws : list (string * nat)) : gset string * list (string * nat) * list nat :=
  match ws with
  | [] => (hs, [], [])
  | next :: ws' =>
      if count hs <? cap then
        let '(hs, rest, closed) := grantLoop cap ({[next.1]} ∪ hs) ws' in (hs, rest, next.2 :: closed)
      else (hs, ws, [])
  end.
Definition grantNextWaiterLocked (s : jobSemaphore) : jobSemaphore * list nat :=
  let '(hs, ws, closed) := grantLoop (capacity s) (holders s) (waiters s) in (mkSem (capacity s) hs ws, closed).

Definition release (c : Coordinator) (scopeKey allocationID : string) : Coordinator * list nat * option sem_error :=
  match c !! scopeKey with
  | None => (c, [], Some (NotHeld scopeKey))
  | Some s =>
      if negb (bool_decide (allocationID ∈ holders s)) then (c, [], Some (AllocationDoesNotHold allocationID scopeKey))
      else
        let '(s, closed) := grantNextWaiterLocked (mkSem (capacity s) (holders s ∖ {[allocationID]}) (waiters s)) in
        (<[scopeKey := s]> c, closed, None)
  end.

(** Capacity, holders, number waiting and number available. *)
Definition status (c : Coordinator) (scopeKey : string) : option (Z * gset string * Z * Z) :=
  s ← c !! scopeKey;
  Some (capacity s, holders s, Z.of_nat (length (waiters s)), capacity s - count (holders s)).

Definition semaphoreScopeKey (jobName event semaphoreName : string) : string :=
  jobName +:+ "/" +:+ event +:+ "/" +:+ semaphoreName.
(** In seconds; [seconds * time.Second] overflows an int64 of nanoseconds. *)
Definition normalizeAcquireTimeout (seconds : Z) : Z :=
  if seconds <=? 0 then 600 * 1000000000
  else let timeout := wrap64 (seconds * 1000000000) in
       if timeout >? 3600 * 1000000000 then 3600 * 1000000000 else timeout.

(** ** The requests *)

Inductive request :=
| Waiting (scopeKey allocationID : string) (ch : nat)
| Returned (r : option sem_error).

Record world := mkWorld {
  semaphores : Coordinator;
  closed : gset nat;
  nextCh : nat;
  requests : gmap nat request;
}.
Definition init : world := mkWorld ∅ ∅ 0 ∅.

(** [acquire] up to its select. *)
Definition acquireStart (w : world) (id : nat) (scopeKey allocationID : string) (cap : Z) : world :=
  let cap := if cap <? 1 then defaultSemaphoreCapacity else cap in
  if cap >? maxSemaphoreCapacity
  then mkWorld (semaphores w) (closed w) (nextCh w) (<[id := Returned (Some (CapacityExceedsMaximum cap))]> (requests w))
  else
    match registerWait (semaphores w) scopeKey allocationID cap (nextCh w) with
    | (c, Err e) => mkWorld c (closed w) (nextCh w) (<[id := Returned (Some e)]> (requests w))
    | (c, Ok None) => mkWorld c (closed w) (nextCh w) (<[id := Returned None]> (requests w))
    | (c, Ok (Some ch)) => mkWorld c (closed w) (S (nextCh w)) (<[id := Waiting scopeKey allocationID ch]> (requests w))
    end.

Definition finish (w : world) (id : nat) (r : option sem_error) : world :=
  mkWorld (semaphores w) (closed w) (nextCh w) (<[id := Returned r]> (requests w)).
Definition cancelled (w : world) (id : nat) (scopeKey : string) (ch : nat) : world :=
  finish (mkWorld (cancelWait (semaphores w) scopeKey ch) (closed w) (nextCh w) (requests w)) id (Some ContextDone).
Definition releaseStep (w : world) (scopeKey allocationID : string) : world :=
  let '(c, chs, _) := release (semaphores w) scopeKey allocationID in
  mkWorld c (list_to_set chs ∪ closed w) (nextCh w) (requests w).

(** What can happen next. *)
Inductive event :=
| EAcquire (id : nat) (scopeKey allocationID : string) (cap : Z)
| ENotified (id : nat)
| ECancelled (id : nat)
| ERelease (scopeKey allocationID : string).

(** The two branches of the select: Go may take the second one even when the
    channel is closed already. *)
Inductive step : event -> world -> world -> Prop :=
| step_acquire w id scopeKey allocationID cap :
    requests w !! id = None -> step (EAcquire id scopeKey allocationID cap) w (acquireStart w id scopeKey allocationID cap)
| step_notified w id scopeKey allocationID ch :
    requests w !! id = Some (Waiting scopeKey allocationID ch) -> ch ∈ closed w -> step (ENotified id) w (finish w id None)
| step_cancelled w id scopeKey allocationID ch :
    requests w !! id = Some (Waiting scopeKey allocationID ch) -> step (ECancelled id) w (cancelled w id scopeKey ch)
| step_release w scopeKey allocationID :
    step (ERelease scopeKey allocationID) w (releaseStep w scopeKey allocationID).

(** ** Grants, as the requests see them

    A ticket is a grant that nobody has released: it is given to a request
    that returns at once without an error and to a waiting request whose
    channel is closed, and a release that succeeds takes the tickets of its
    allocation back. Only answers and channels are looked at here, never the
    set of holders. *)
Notation Tickets := (gmap nat (string * string)).

Definition newlyNotified (w w' : world) : Tickets :=
  omap (fun r => match r with
                 | Waiting scopeKey allocationID ch =>
                     if bool_decide (ch ∈ closed w' ∖ closed w) then Some (scopeKey, allocationID) else None
                 | Returned _ => None
                 end) (requests w).

Definition ticketsAfter (e : event) (w w' : world) (t : Tickets) : Tickets :=
  match e with
  | EAcquire id scopeKey allocationID _ =>
      match requests w' !! id with Some (Returned None) => <[id := (scopeKey, allocationID)]> t | _ => t end
  | ERelease scopeKey allocationID =>
      match (release (semaphores w) scopeKey allocationID).2 with
      | Some _ => t
      | None => newlyNotified w w' ∪ base.filter (fun p => p.2 <> (scopeKey, allocationID)) t
      end
  | _ => t
  end.

(** [run w t g]: the coordinator can reach [w] with the tickets [t] out and
    the requests of [g] granted at some time. *)
Inductive run : world -> Tickets -> gset nat -> Prop :=
| run_init : run init ∅ ∅
| run_step e w w' t g :
    run w t g -> step e w w' -> run w' (ticketsAfter e w w' t) (g ∪ dom (ticketsAfter e w w' t)).

(** ** Invariants *)

(** Never more holders than the capacity, and nobody waits while a slot is
    free. *)
Definition sem_ok (s : jobSemaphore) : Prop :=
  1 <= capacity s <= maxSemaphoreCapacity /\ count (holders s) <= capacity s /\
  (waiters s <> [] -> count (holders s) = capacity s).

(** A waiting request is in the queue of its semaphore or has been granted. *)
Definition queued (w : world) (scopeKey allocationID : string) (ch : nat) : Prop :=
  exists s, semaphores w !! scopeKey = Some s /\ (allocationID, ch) ∈ waiters s.

Record winv (w : world) : Prop := {
  inv_sems : forall k s, semaphores w !! k = Some s -> sem_ok s;
  inv_fresh : forall id k a ch, requests w !! id = Some (Waiting k a ch) -> (ch < nextCh w)%nat;
  inv_inj : forall id1 id2 k1 k2 a1 a2 ch,
    requests w !! id1 = Some (Waiting k1 a1 ch) -> requests w !! id2 = Some (Waiting k2 a2 ch) -> id1 = id2;
  inv_wait : forall id k a ch, requests w !! id = Some (Waiting k a ch) -> queued w k a ch \/ ch ∈ closed w;
}.

Definition holds (c : Coordinator) (scopeKey allocationID : string) : Prop :=
  exists s, c !! scopeKey = Some s /\ allocationID ∈ holders s.
Definition ticketed (t : Tickets) (scopeKey allocationID : string) : Prop :=
  exists id, t !! id = Some (scopeKey, allocationID).

(** What ties the tickets to the coordinator. *)
Record ginv (w : world) (t : Tickets) (g : gset nat) : Prop := {
  gi_hold : forall k a, ticketed t k a <-> holds (semaphores w) k a;
  gi_back : forall k a ch, queued w k a ch -> ch ∉ closed w /\ exists id, requests w !! id = Some (Waiting k a ch);
  gi_nodup : forall k s, semaphores w !! k = Some s -> NoDup (waiters s).*2;
  gi_closed : forall ch, ch ∈ closed w -> (ch < nextCh w)%nat;
  gi_returned : forall id, requests w !! id = Some (Returned None) -> id ∈ g;
  gi_waiting : forall id k a ch, requests w !! id = Some (Waiting k a ch) -> (id ∈ g <-> ch ∈ closed w);
  gi_known : forall id, id ∈ g -> is_Some (requests w !! id);
  gi_dom : dom t ⊆ g;
}.

Lemma count_insert a s : a ∉ s -> count ({[a]} ∪ s) = count s + 1.
Proof.
  intros Ha. unfold count. assert (size ({[a]} ∪ s) = S (size s)) as ->; [|lia].
  rewrite size_union by set_solver. by rewrite size_singleton.
Qed.
Lemma count_le a s : count ({[a]} ∪ s) <= count s + 1.
Proof.
  destruct (decide (a ∈ s)) as [Ha|Ha]; [|rewrite count_insert by done; lia].
  assert ({[a]} ∪ s = s) as -> by set_solver. lia.
Qed.

Lemma grantLoop_spec cap ws : forall hs hs' rest chs,
  count hs <= cap -> grantLoop cap hs ws = (hs', rest, chs) ->
  count hs' <= cap /\ (rest <> [] -> count hs' = cap) /\
  (exists pre, ws = pre ++ rest /\ chs = pre.*2 /\ hs' = list_to_set pre.*1 ∪ hs).
Proof.
  induction ws as [|[a ch] ws IH]; intros hs hs' rest chs Hc; simpl.
  { intros [= <- <- <-]. split_and!; [done|done|]. exists []. split_and!; [done|done|set_solver]. }
  destruct (count hs <? cap) eqn:E; bool_to_prop.
  - destruct (grantLoop cap ({[a]} ∪ hs) ws) as [[hs1 rest1] chs1] eqn:Eg. intros [= <- <- <-].
    assert (count ({[a]} ∪ hs) <= cap) as Hle by (pose proof (count_le a hs); lia).
    destruct (IH _ _ _ _ Hle Eg) as (H1 & H2 & pre & -> & -> & ->). split_and!; [done|done|].
    exists ((a, ch) :: pre). split_and!; [done|done|set_solver].
  - intros [= <- <- <-]. split_and!; [done|lia|]. exists []. split_and!; [done|done|set_solver].
Qed.

Lemma grant_ok s s' chs :
  1 <= capacity s <= maxSemaphoreCapacity -> count (holders s) <= capacity s ->
  grantNextWaiterLocked s = (s', chs) ->
  sem_ok s' /\ capacity s' = capacity s /\
  exists pre, waiters s = pre ++ waiters s' /\ chs = pre.*2 /\ holders s' = list_to_set pre.*1 ∪ holders s.
Proof.
  intros Hk Hc. unfold grantNextWaiterLocked. destruct (grantLoop _ _ _) as [[hs ws] chs'] eqn:E. intros [= <- <-].
  destruct (grantLoop_spec _ _ _ _ _ _ Hc E) as (H1 & H2 & H3). unfold sem_ok. simpl. split_and!; done || lia.
Qed.

Lemma registerWait_ok c k a cap fresh c' r :
  (forall k s, c !! k = Some s -> sem_ok s) -> 1 <= cap <= maxSemaphoreCapacity ->
  registerWait c k a cap fresh = (c', r) ->
  (forall k s, c' !! k = Some s -> sem_ok s) /\
  (forall k' s, c !! k' = Some s -> exists s', c' !! k' = Some s' /\ waiters s `prefix_of` waiters s' /\ holders s ⊆ holders s') /\
  match r with
  | Ok None => exists s', c' !! k = Some s' /\ a ∈ holders s'
  | Ok (Some ch) => ch = fresh /\ exists s', c' !! k = Some s' /\ (a, fresh) ∈ waiters s'
  | Err _ => c' = c
  end.
Proof.
  intros Hc Hcap. unfold registerWait.
  assert (forall s0 s', c !! k = Some s0 -> sem_ok s' -> waiters s0 `prefix_of` waiters s' -> holders s0 ⊆ holders s' ->
    (forall k1 s, <[k := s']> c !! k1 = Some s -> sem_ok s) /\
    (forall k1 s, c !! k1 = Some s -> exists s2, <[k := s']> c !! k1 = Some s2 /\ waiters s `prefix_of` waiters s2 /\ holders s ⊆ holders s2)) as Hupd.
  { intros s0 s' Hs0 Hok Hw Hh. split; intros k1 s H1; destruct (decide (k1 = k)) as [->|Hne].
    - rewrite lookup_insert_eq in H1. by injection H1 as <-.
    - rewrite lookup_insert_ne in H1 by done. by eapply Hc.
    - exists s'. rewrite lookup_insert_eq. rewrite Hs0 in H1. by injection H1 as <-.
    - exists s. rewrite lookup_insert_ne by done. done. }
  destruct (c !! k) as [s|] eqn:Ek.
  - destruct (Hc k s Ek) as (H1 & H2 & H3). destruct (capacity s =? cap) eqn:Ecap; simpl.
    2:{ intros [= <- <-]. split_and!; [done| |done]. intros k' s' Hs'. by exists s'. }
    case_bool_decide as Hh.
    { intros [= <- <-]. split_and!; [done| |by exists s]. intros k' s' Hs'. by exists s'. }
    destruct (count (holders s) <? capacity s) eqn:El; bool_to_prop; intros [= <- <-].
    + destruct (Hupd s (mkSem (capacity s) ({[a]} ∪ holders s) (waiters s)) eq_refl) as [U1 U2]; simpl.
      * unfold sem_ok. cbn [capacity holders waiters]. rewrite count_insert by done.
        split_and!; try lia. intros Hw. specialize (H3 Hw). lia.
      * done.
      * set_solver.
      * split_and!; [done..|]. eexists. rewrite lookup_insert_eq. split; [done|]. simpl. set_solver.
    + destruct (Hupd s (mkSem (capacity s) (holders s) (waiters s ++ [(a, fresh)])) eq_refl) as [U1 U2]; simpl.
      * unfold sem_ok. cbn [capacity holders waiters]. split_and!; lia.
      * by apply prefix_app_r.
      * done.
      * split_and!; [done..|]. eexists. rewrite lookup_insert_eq. split; [done|]. simpl. set_solver.
  - rewrite (proj2 (Z.ltb_lt _ _)) by lia. intros [= <- <-]. split_and!.
    + intros k1 s H1. destruct (decide (k1 = k)) as [->|Hne]; [|rewrite lookup_insert_ne in H1 by done; by eapply Hc].
      rewrite lookup_insert_eq in H1. injection H1 as <-. unfold sem_ok, count. cbn [holders capacity waiters].
      rewrite size_singleton. split_and!; try lia. done.
    + intros k1 s H1. exists s. rewrite lookup_insert_ne by congruence. done.
    + eexists. rewrite lookup_insert_eq. split; [done|]. simpl. set_solver.
Qed.

Lemma finish_winv w id r : winv w -> winv (finish w id r).
Proof.
  intros [H1 H2 H3 H4].
  assert (forall i k a ch, <[id := Returned r]> (requests w) !! i = Some (Waiting k a ch) -> requests w !! i = Some (Waiting k a ch)) as Hr.
  { intros i k a ch. destruct (decide (i = id)) as [->|]; [by rewrite lookup_insert_eq|by rewrite lookup_insert_ne]. }
  split; simpl; [done|by intros; eapply H2, Hr|by intros; eapply H3; apply Hr|by intros; eapply H4, Hr].
Qed.

Lemma acquire_winv w id k a cap : requests w !! id = None -> winv w -> winv (acquireStart w id k a cap).
Proof.
  intros Hid Hw. unfold acquireStart. set (cap' := if cap <? 1 then defaultSemaphoreCapacity else cap).
  destruct (cap' >? maxSemaphoreCapacity) eqn:Em; [by apply finish_winv|].
  rewrite Z.gtb_ltb in Em. assert (1 <= cap' <= maxSemaphoreCapacity) as Hcap.
  { split; [|blia]. unfold cap', defaultSemaphoreCapacity. case_match; blia. }
  destruct (registerWait (semaphores w) k a cap' (nextCh w)) as [c r] eqn:Er.
  destruct (registerWait_ok _ _ _ _ _ _ _ (inv_sems w Hw) Hcap Er) as (R1 & R2 & R3).
  assert (forall k1 a1 ch1, queued w k1 a1 ch1 -> exists s, c !! k1 = Some s /\ (a1, ch1) ∈ waiters s) as Hq.
  { intros k1 a1 ch1 (s & Hs & Hin). destruct (R2 k1 s Hs) as (s' & Hs' & [l Hl] & _). exists s'. split; [done|].
    rewrite Hl. apply elem_of_app. by left. }
  destruct r as [[ch|]|e].
  - destruct R3 as [-> (s' & Hs' & Hin)].
    assert (forall i k1 a1 ch1, <[id := Waiting k a (nextCh w)]> (requests w) !! i = Some (Waiting k1 a1 ch1) ->
      (i = id /\ k1 = k /\ a1 = a /\ ch1 = nextCh w) \/ (i <> id /\ requests w !! i = Some (Waiting k1 a1 ch1))) as Hr.
    { intros i k1 a1 ch1. destruct (decide (i = id)) as [->|Hne].
      - rewrite lookup_insert_eq. intros [= <- <- <-]. by left.
      - rewrite lookup_insert_ne by done. by right. }
    split; simpl.
    + done.
    + intros i k1 a1 ch1 [(-> & -> & -> & ->)|[_ H]]%Hr; [lia|]. pose proof (inv_fresh w Hw _ _ _ _ H). lia.
    + intros i1 i2 k1 k2 a1 a2 ch1 [(-> & -> & -> & ->)|[Hn1 H1]]%Hr [(-> & -> & -> & E)|[Hn2 H2]]%Hr; try done.
      * pose proof (inv_fresh w Hw _ _ _ _ H2). lia.
      * subst. pose proof (inv_fresh w Hw _ _ _ _ H1). lia.
      * by eapply (inv_inj w Hw).
    + intros i k1 a1 ch1 [(-> & -> & -> & ->)|[_ H]]%Hr; [left; by exists s'|].
      destruct (inv_wait w Hw _ _ _ _ H) as [Hqu|]; [left; by apply Hq|by right].
  - apply (finish_winv (mkWorld c (closed w) (nextCh w) (requests w))). split; simpl; try apply Hw; [done|].
    intros i k1 a1 ch1 H. destruct (inv_wait w Hw _ _ _ _ H) as [Hqu|]; [left; by apply Hq|by right].
  - subst c. apply (finish_winv (mkWorld (semaphores w) (closed w) (nextCh w) (requests w))). by destruct w.
Qed.

Lemma cancelled_winv w id k a ch :
  requests w !! id = Some (Waiting k a ch) -> winv w -> winv (cancelled w id k ch).
Proof.
  intros Hid Hw. unfold cancelled.
  assert (forall k1 s, cancelWait (semaphores w) k ch !! k1 = Some s -> sem_ok s) as Hs.
  { intros k1 s. unfold cancelWait. destruct (semaphores w !! k) as [s0|] eqn:Ek; [|by apply (inv_sems w Hw)].
    destruct (decide (k1 = k)) as [->|]; [|rewrite lookup_insert_ne by done; by apply (inv_sems w Hw)].
    rewrite lookup_insert_eq. intros [= <-]. destruct (inv_sems w Hw k s0 Ek) as (H1 & H2 & H3).
    split_and!; simpl; try lia. intros Hne. apply H3. intros E. by rewrite E in Hne. }
  assert (forall i k1 a1 ch1, requests w !! i = Some (Waiting k1 a1 ch1) -> i <> id -> queued w k1 a1 ch1 ->
    exists s, cancelWait (semaphores w) k ch !! k1 = Some s /\ (a1, ch1) ∈ waiters s) as Hq.
  { intros i k1 a1 ch1 Hi Hne (s & Hs1 & Hin). unfold cancelWait. destruct (semaphores w !! k) as [s0|] eqn:Ek; [|by exists s].
    destruct (decide (k1 = k)) as [->|]; [|exists s; by rewrite lookup_insert_ne].
    eexists. rewrite lookup_insert_eq. split; [done|]. simpl. rewrite Ek in Hs1. injection Hs1 as ->.
    apply list_elem_of_In, filter_In. split; [by apply list_elem_of_In|]. apply negb_true_iff, Nat.eqb_neq. simpl.
    intros ->. apply Hne. by eapply (inv_inj w Hw). }
  unfold finish. split; simpl.
  - done.
  - intros i k1 a1 ch1. destruct (decide (i = id)) as [->|]; [by rewrite lookup_insert_eq|rewrite lookup_insert_ne by done].
    apply (inv_fresh w Hw).
  - intros i1 i2 k1 k2 a1 a2 ch1. destruct (decide (i1 = id)) as [->|]; [by rewrite lookup_insert_eq|].
    destruct (decide (i2 = id)) as [->|]; [by rewrite lookup_insert_eq|]. rewrite !lookup_insert_ne by done. apply (inv_inj w Hw).
  - intros i k1 a1 ch1. destruct (decide (i = id)) as [->|Hne]; [by rewrite lookup_insert_eq|]. rewrite lookup_insert_ne by done.
    intros Hi. destruct (inv_wait w Hw _ _ _ _ Hi) as [Hqu|]; [left; by eapply Hq|by right].
Qed.

Lemma release_winv w k a : winv w -> winv (releaseStep w k a).
Proof.
  intros Hw. unfold releaseStep, release. destruct (semaphores w !! k) as [s|] eqn:Ek.
  2:{ simpl. destruct w. simpl in *. destruct Hw as [H1 H2 H3 H4]. split; simpl in *; try done.
      intros i k1 a1 ch1 Hi. destruct (H4 i k1 a1 ch1 Hi) as [?|?]; [by left|right; set_solver]. }
  case_bool_decide as Hin; simpl.
  2:{ destruct w. simpl in *. destruct Hw as [H1 H2 H3 H4]. split; simpl in *; try done.
      intros i k1 a1 ch1 Hi. destruct (H4 i k1 a1 ch1 Hi) as [?|?]; [by left|right; set_solver]. }
  destruct (grantNextWaiterLocked _) as [s' chs] eqn:Eg.
  destruct (inv_sems w Hw k s Ek) as (H1 & H2 & H3).
  assert (count (holders s ∖ {[a]}) <= count (holders s)) as Hle.
  { unfold count. apply inj_le, subseteq_size. set_solver. }
  destruct (grant_ok (mkSem (capacity s) (holders s ∖ {[a]}) (waiters s)) s' chs) as (G1 & G2 & pre & Hpre & -> & _); [done|simpl; lia|done|].
  split; simpl.
  - intros k1 s1. destruct (decide (k1 = k)) as [->|]; [rewrite lookup_insert_eq; by intros [= <-]|rewrite lookup_insert_ne by done; apply (inv_sems w Hw)].
  - apply (inv_fresh w Hw).
  - apply (inv_inj w Hw).
  - intros i k1 a1 ch1 Hi. destruct (inv_wait w Hw _ _ _ _ Hi) as [(s1 & Hs1 & Hq)|Hcl]; [|right; set_solver].
    destruct (decide (k1 = k)) as [->|Hne].
    + rewrite Ek in Hs1. injection Hs1 as <-. simpl in Hpre. rewrite Hpre in Hq. apply elem_of_app in Hq as [Hq|Hq].
      * right. apply elem_of_union. left. apply elem_of_list_to_set, list_elem_of_fmap. by exists (a1, ch1).
      * left. exists s'. simpl. by rewrite lookup_insert_eq.
    + left. exists s1. simpl. by rewrite lookup_insert_ne.
Qed.

Lemma step_winv e w w' : step e w w' -> winv w -> winv w'.
Proof.
  intros Hs Hw. destruct Hs; [by apply acquire_winv|by apply finish_winv|by eapply cancelled_winv|by apply release_winv].
Qed.

(** [registerWait] makes the allocation a holder exactly when it grants, and
    queues its channel exactly when it answers with it. *)
Lemma registerWait_frame c k a cap fresh c' r :
  1 <= cap -> registerWait c k a cap fresh = (c', r) ->
  (forall k1 a1, holds c' k1 a1 <-> holds c k1 a1 \/ (r = Ok None /\ k1 = k /\ a1 = a)) /\
  (forall k1 s1, c' !! k1 = Some s1 -> exists ws : list (string * nat),
    (waiters s1 = ws \/ (r = Ok (Some fresh) /\ k1 = k /\ waiters s1 = ws ++ [(a, fresh)])) /\
    (ws = [] \/ exists s0, c !! k1 = Some s0 /\ waiters s0 = ws)).
Proof.
  intros Hcap.
  assert (forall s' k1 a1, holds (<[k := s']> c) k1 a1 <-> (k1 = k /\ a1 ∈ holders s') \/ (k1 <> k /\ holds c k1 a1)) as Hins.
  { intros s' k1 a1. unfold holds. rewrite lookup_insert. case_decide; naive_solver. }
  assert (forall s' ws, (waiters s' = ws \/ (r = Ok (Some fresh) /\ waiters s' = ws ++ [(a, fresh)])) ->
    (ws = [] \/ exists s0, c !! k = Some s0 /\ waiters s0 = ws) ->
    forall k1 s1, <[k := s']> c !! k1 = Some s1 -> exists ws : list (string * nat),
    (waiters s1 = ws \/ (r = Ok (Some fresh) /\ k1 = k /\ waiters s1 = ws ++ [(a, fresh)])) /\
    (ws = [] \/ exists s0, c !! k1 = Some s0 /\ waiters s0 = ws)) as Hws.
  { intros s' ws H1 H2 k1 s1. destruct (decide (k1 = k)) as [->|Hne].
    - rewrite lookup_insert_eq. intros [= <-]. exists ws. split; [|done]. destruct H1 as [?|[??]]; [by left|by right].
    - rewrite lookup_insert_ne by done. intros H. exists (waiters s1). split; [by left|right; by exists s1]. }
  assert (forall s0, c !! k = Some s0 -> forall a1, holds c k a1 <-> a1 ∈ holders s0) as Hk by (unfold holds; naive_solver).
  unfold registerWait. destruct (c !! k) as [s|] eqn:Ek.
  - destruct (negb _). { intros [= <- <-]. split; [naive_solver|]. intros k1 s1 H. exists (waiters s1). split; [by left|right; by exists s1]. }
    case_bool_decide as Hh. { intros [= <- <-]. split; [|intros k1 s1 H; exists (waiters s1); split; [by left|right; by exists s1]]. intros k1 a1. split; [by left|]. intros [?|(_ & -> & ->)]; [done|by exists s]. }
    destruct (_ <? _); intros [= <- <-]; (split; [|eapply Hws; [eauto|eauto]]); intros k1 a1; rewrite Hins; cbn [holders];
      specialize (Hk s eq_refl); destruct (decide (k1 = k)) as [->|]; rewrite ?Hk; set_solver.
  - rewrite (proj2 (Z.ltb_lt _ _)) by lia. intros [= <- <-]. split; [|eapply Hws; [left|left]; done].
    intros k1 a1. rewrite Hins. cbn [holders]. assert (~ holds c k a1) by (unfold holds; naive_solver).
    destruct (decide (k1 = k)) as [->|]; set_solver.
Qed.

Lemma finish_ginv w id r t g :
  (r = None -> id ∈ g) -> (forall k a ch, queued w k a ch -> requests w !! id <> Some (Waiting k a ch)) ->
  ginv w t g -> ginv (finish w id r) t (g ∪ dom t).
Proof.
  intros Hr Hq [G1 G2 G3 G4 G5 G6 G7 G8]. rewrite (union_comm_L g), (subseteq_union_1_L _ _ G8).
  unfold finish. split; cbn [semaphores closed nextCh requests]; try done.
  - intros k a ch Hk. destruct (G2 k a ch Hk) as (Hc & i & Hi). split; [done|]. exists i.
    rewrite lookup_insert_ne; [done|]. intros ->. by eapply Hq.
  - intros i. rewrite lookup_insert. case_decide; naive_solver.
  - intros i k a ch. rewrite lookup_insert. case_decide; naive_solver.
  - intros i Hi. rewrite lookup_insert. case_decide; [done|by apply G7].
Qed.

Lemma ticketed_insert t id k a k1 a1 :
  t !! id = None -> ticketed (<[id := (k, a)]> t) k1 a1 <-> ticketed t k1 a1 \/ (k1 = k /\ a1 = a).
Proof.
  intros Ht. unfold ticketed. split.
  - intros [i Hi]. rewrite lookup_insert in Hi. case_decide; naive_solver.
  - intros [[i Hi]|[-> ->]]; [|exists id; by rewrite lookup_insert_eq].
    exists i. rewrite lookup_insert_ne; [done|congruence].
Qed.

(** A request that is granted at once, or that queues. *)
Lemma granted_ginv w c id k a t g :
  requests w !! id = None -> (forall k1 a1, holds c k1 a1 <-> holds (semaphores w) k1 a1 \/ (k1 = k /\ a1 = a)) ->
  (forall k1 s1, c !! k1 = Some s1 -> waiters s1 = [] \/ exists s0, semaphores w !! k1 = Some s0 /\ waiters s0 = waiters s1) ->
  ginv w t g ->
  ginv (mkWorld c (closed w) (nextCh w) (<[id := Returned None]> (requests w))) (<[id := (k, a)]> t) (g ∪ dom (<[id := (k, a)]> t)).
Proof.
  intros Hid Hh Hws [G1 G2 G3 G4 G5 G6 G7 G8].
  assert (id ∉ g) as Hg by (intros H; apply G7 in H as [? H]; congruence).
  assert (t !! id = None) as Ht by (apply not_elem_of_dom; set_solver).
  split; cbn [semaphores closed nextCh requests]; try done.
  - intros k1 a1. by rewrite ticketed_insert, G1, Hh by done.
  - intros k1 a1 ch (s1 & Hs1 & Hin). cbn [semaphores] in Hs1.
    destruct (Hws k1 s1 Hs1) as [E|(s0 & Hs0 & E)]; rewrite <- ?E in Hin; [by rewrite E in Hin; apply elem_of_nil in Hin|].
    destruct (G2 k1 a1 ch) as (Hc & i & Hi); [by exists s0|]. split; [done|]. exists i.
    rewrite lookup_insert_ne; [done|congruence].
  - intros k1 s1 Hs1. destruct (Hws k1 s1 Hs1) as [->|(s0 & Hs0 & <-)]; [constructor|by apply (G3 k1)].
  - intros i. rewrite lookup_insert. case_decide; set_solver.
  - intros i k1 a1 ch. rewrite lookup_insert. case_decide; [done|]. intros Hi.
    rewrite dom_insert, <- (G6 _ _ _ _ Hi). set_solver.
  - intros i. rewrite dom_insert, lookup_insert. case_decide; [done|]. intros. apply G7. set_solver.
  - set_solver.
Qed.

Lemma queued_ginv w c id k a t g :
  requests w !! id = None -> winv w -> (forall k1 a1, holds c k1 a1 <-> holds (semaphores w) k1 a1) ->
  (forall k1 s1, c !! k1 = Some s1 -> exists ws : list (string * nat),
    (waiters s1 = ws \/ (k1 = k /\ waiters s1 = ws ++ [(a, nextCh w)])) /\
    (ws = [] \/ exists s0, semaphores w !! k1 = Some s0 /\ waiters s0 = ws)) ->
  ginv w t g ->
  ginv (mkWorld c (closed w) (S (nextCh w)) (<[id := Waiting k a (nextCh w)]> (requests w))) t (g ∪ dom t).
Proof.
  intros Hid Hw Hh Hws [G1 G2 G3 G4 G5 G6 G7 G8]. rewrite (union_comm_L g), (subseteq_union_1_L _ _ G8).
  assert (id ∉ g) as Hg by (intros H; apply G7 in H as [? H]; congruence).
  assert (forall k1 a1 ch, queued w k1 a1 ch -> (ch < nextCh w)%nat) as Hlt.
  { intros k1 a1 ch Hq. destruct (G2 _ _ _ Hq) as (_ & i & Hi). by eapply (inv_fresh w Hw). }
  split; cbn [semaphores closed nextCh requests]; try done.
  - intros k1 a1. by rewrite G1, Hh.
  - intros k1 a1 ch (s1 & Hs1 & Hin). cbn [semaphores] in Hs1. destruct (Hws k1 s1 Hs1) as (ws & E & E0).
    assert ((a1, ch) ∈ ws \/ (k1 = k /\ a1 = a /\ ch = nextCh w)) as [H|(-> & -> & ->)].
    { destruct E as [<-|[-> E]]; [by left|]. rewrite E in Hin. apply elem_of_app in Hin as [?|H]; [by left|].
      apply list_elem_of_singleton in H. naive_solver. }
    + destruct E0 as [->|(s0 & Hs0 & <-)]; [by apply elem_of_nil in H|].
      destruct (G2 k1 a1 ch) as (Hc & i & Hi); [by exists s0|]. split; [done|]. exists i.
      rewrite lookup_insert_ne; [done|congruence].
    + split; [intros H; apply G4 in H; lia|]. exists id. by rewrite lookup_insert_eq.
  - intros k1 s1 Hs1. destruct (Hws k1 s1 Hs1) as (ws & E & E0).
    assert (NoDup ws.*2 /\ nextCh w ∉ ws.*2) as [Hn Hf].
    { destruct E0 as [->|(s0 & Hs0 & <-)]; [split; [constructor|set_solver]|]. split; [by apply (G3 k1)|].
      intros ((a1 & ch) & E1 & H)%list_elem_of_fmap. simpl in E1.
      assert (ch < nextCh w)%nat by (apply (Hlt k1 a1); by exists s0). lia. }
    destruct E as [->|[-> ->]]; [done|]. rewrite fmap_app. apply NoDup_app. split_and!; [done|set_solver|apply NoDup_singleton].
  - intros ch H. apply G4 in H. lia.
  - intros i. rewrite lookup_insert. case_decide; naive_solver.
  - intros i k1 a1 ch. rewrite lookup_insert. case_decide; [|naive_solver]. intros [= <- <- <-]. subst. split; [done|].
    intros H. apply G4 in H. lia.
  - intros i Hi. rewrite lookup_insert. case_decide; [done|by apply G7].
Qed.

Lemma acquire_ginv w id k a cap t g :
  requests w !! id = None -> winv w -> ginv w t g -> let w' := acquireStart w id k a cap in
  let t' := ticketsAfter (EAcquire id k a cap) w w' t in ginv w' t' (g ∪ dom t').
Proof.
  intros Hid Hw Hg. cbn zeta. unfold ticketsAfter, acquireStart.
  set (cap' := if cap <? 1 then defaultSemaphoreCapacity else cap).
  assert (1 <= cap') by (unfold cap', defaultSemaphoreCapacity; case_match; blia).
  assert (forall e, ginv (finish w id (Some e)) t (g ∪ dom t)) as Herr.
  { intros e. apply finish_ginv; [done| |done]. intros. congruence. }
  destruct (cap' >? maxSemaphoreCapacity); cbn [requests]; [rewrite lookup_insert_eq; apply Herr|].
  destruct (registerWait (semaphores w) k a cap' (nextCh w)) as [c r] eqn:Er.
  destruct (registerWait_frame _ _ _ _ _ _ _ ltac:(done) Er) as [F1 F2].
  destruct r as [[ch|]|e]; cbn [requests]; rewrite lookup_insert_eq.
  - assert (ch = nextCh w) as ->.
    { revert Er. unfold registerWait. repeat case_match; congruence. }
    apply queued_ginv; [done|done| | |done].
    + intros k1 a1. rewrite F1. naive_solver.
    + intros k1 s1 Hs1. destruct (F2 k1 s1 Hs1) as (ws & E & E0). exists ws. split; [|done]. naive_solver.
  - apply granted_ginv; [done| | |done].
    + intros k1 a1. rewrite F1. naive_solver.
    + intros k1 s1 Hs1. destruct (F2 k1 s1 Hs1) as (ws & [<-|[? _]] & E0); [done|done].
  - assert (c = semaphores w) as -> by (revert Er; unfold registerWait; repeat case_match; congruence). apply Herr.
Qed.

Lemma cancelled_ginv w id k a ch t g :
  requests w !! id = Some (Waiting k a ch) -> winv w -> ginv w t g -> ginv (cancelled w id k ch) t (g ∪ dom t).
Proof.
  intros Hid Hw [G1 G2 G3 G4 G5 G6 G7 G8].
  assert (forall k1 s1, cancelWait (semaphores w) k ch !! k1 = Some s1 -> exists s0, semaphores w !! k1 = Some s0 /\
    holders s1 = holders s0 /\ waiters s1 `sublist_of` waiters s0 /\ (k1 = k -> forall a1, (a1, ch) ∉ waiters s1)) as Hc.
  { intros k1 s1. unfold cancelWait. destruct (semaphores w !! k) as [s|] eqn:Ek; [|intros H; exists s1; naive_solver].
    rewrite lookup_insert. case_decide as Hk; [|intros H; exists s1; naive_solver]. intros [= <-]. subst. exists s.
    split_and!; [done|done| |].
    - simpl. clear. induction (waiters s) as [|x l IH]; simpl; [done|]. case_match; by constructor.
    - intros _ a1 Hin. cbn [waiters] in Hin. apply list_elem_of_In, filter_In in Hin as [_ Hn]. simpl in Hn. by rewrite Nat.eqb_refl in Hn. }
  assert (forall k1 a1, holds (cancelWait (semaphores w) k ch) k1 a1 <-> holds (semaphores w) k1 a1) as Hh.
  { intros k1 a1. unfold cancelWait, holds. destruct (semaphores w !! k) as [s|] eqn:Ek; [|done].
    rewrite lookup_insert. case_decide; [|done]. subst. rewrite Ek. naive_solver. }
  apply finish_ginv; [done| |].
  - intros k1 a1 ch1 (s1 & Hs1 & Hin). cbn [semaphores requests] in *. rewrite Hid. intros [= <- <- <-].
    destruct (Hc k s1 Hs1) as (_ & _ & _ & _ & Hn). by eapply Hn.
  - split; cbn [semaphores closed nextCh requests]; try done.
    + intros k1 a1. by rewrite G1, Hh.
    + intros k1 a1 ch1 (s1 & Hs1 & Hin). cbn [semaphores] in *. destruct (Hc k1 s1 Hs1) as (s0 & Hs0 & _ & Hsub & _).
      apply G2. exists s0. split; [done|]. by eapply elem_of_sublist.
    + intros k1 s1 Hs1. destruct (Hc k1 s1 Hs1) as (s0 & Hs0 & _ & Hsub & _).
      eapply sublist_NoDup; [by apply (G3 k1)|]. by apply fmap_sublist.
Qed.

Lemma lookup_newlyNotified w w' id k a :
  newlyNotified w w' !! id = Some (k, a) <->
  exists ch, requests w !! id = Some (Waiting k a ch) /\ ch ∈ closed w' /\ ch ∉ closed w.
Proof.
  unfold newlyNotified. rewrite lookup_omap. destruct (requests w !! id) as [[k1 a1 ch|r]|]; simpl.
  2,3: split; [done|]; naive_solver.
  case_bool_decide as H; split; set_solver.
Qed.

(** A release hands the slot over to the front of the queue: [pre] are the
    waiters it serves. *)
Lemma release_handover w k a s :
  winv w -> semaphores w !! k = Some s -> a ∈ holders s ->
  exists s' pre, release (semaphores w) k a = (<[k := s']> (semaphores w), pre.*2, None) /\
    waiters s = pre ++ waiters s' /\ holders s' = list_to_set pre.*1 ∪ holders s ∖ {[a]}.
Proof.
  intros Hw Hs Ha. unfold release. rewrite Hs, bool_decide_true by done. cbn [negb].
  destruct (grantNextWaiterLocked _) as [s' chs] eqn:Eg. destruct (inv_sems w Hw k s Hs) as (H1 & H2 & H3).
  assert (count (holders s ∖ {[a]}) <= count (holders s)) as Hle by (unfold count; apply inj_le, subseteq_size; set_solver).
  destruct (grant_ok (mkSem (capacity s) (holders s ∖ {[a]}) (waiters s)) s' chs) as (_ & _ & pre & Hpre & -> & Hh); [done|simpl; lia|done|].
  by exists s', pre.
Qed.

Lemma release_fails w k a : ~ holds (semaphores w) k a -> exists e, release (semaphores w) k a = (semaphores w, [], Some e).
Proof.
  intros H. unfold release. destruct (semaphores w !! k) as [s|] eqn:Ek; [|by eexists].
  rewrite bool_decide_false; [by eexists|]. intros Ha. apply H. by exists s.
Qed.

Section handover.
Context (w : world) (t : Tickets) (g : gset nat) (Hw : winv w) (Hg : ginv w t g).
Context (k a : string) (s s' : jobSemaphore) (pre : list (string * nat)).
Context (Hs : semaphores w !! k = Some s) (Ha : a ∈ holders s).
Context (Hpre : waiters s = pre ++ waiters s') (Hh : holders s' = list_to_set pre.*1 ∪ holders s ∖ {[a]}).

#[local] Definition after : world :=
  mkWorld (<[k := s']> (semaphores w)) (list_to_set pre.*2 ∪ closed w) (nextCh w) (requests w).
#[local] Definition tickets : Tickets := newlyNotified w after ∪ base.filter (fun p => p.2 <> (k, a)) t.

Lemma elem_of_closed ch : ch ∈ closed after <-> (exists a1, (a1, ch) ∈ pre) \/ ch ∈ closed w.
Proof.
  unfold after. cbn [closed]. rewrite elem_of_union, elem_of_list_to_set, list_elem_of_fmap. split.
  - intros [((a1 & c1) & -> & H)|H]; [left; by exists a1|by right].
  - intros [[a1 H]|H]; [left; by exists (a1, ch)|by right].
Qed.

Lemma served a1 ch : (a1, ch) ∈ pre -> ch ∉ closed w /\ exists i, requests w !! i = Some (Waiting k a1 ch).
Proof. intros H. apply (gi_back _ _ _ Hg). exists s. split; [done|]. rewrite Hpre. apply elem_of_app. by left. Qed.

Lemma lookup_notified i k1 a1 :
  newlyNotified w after !! i = Some (k1, a1) <-> k1 = k /\ exists ch, requests w !! i = Some (Waiting k a1 ch) /\ (a1, ch) ∈ pre.
Proof.
  rewrite lookup_newlyNotified. split.
  - intros (ch & Hi & Hin & Hn). apply elem_of_closed in Hin as [[a2 Hin]|Hin]; [|done].
    destruct (served a2 ch Hin) as (_ & j & Hj). assert (i = j) as <- by (by eapply (inv_inj w Hw)).
    rewrite Hi in Hj. injection Hj as -> ->. eauto.
  - intros (-> & ch & Hi & Hin). exists ch. split_and!; [done| |by eapply served]. apply elem_of_closed. left. by exists a1.
Qed.

Lemma notified_fresh i p : newlyNotified w after !! i = Some p -> i ∉ g.
Proof.
  destruct p as [k1 a1]. intros (-> & ch & Hi & Hin)%lookup_notified. destruct (served a1 ch Hin) as [Hc _].
  by rewrite (gi_waiting _ _ _ Hg _ _ _ _ Hi).
Qed.

Lemma lookup_tickets i p :
  tickets !! i = Some p <-> newlyNotified w after !! i = Some p \/ (t !! i = Some p /\ p <> (k, a)).
Proof.
  unfold tickets. rewrite lookup_union_Some_raw, map_lookup_filter_Some. split; [naive_solver|].
  intros [H|[H1 H2]]; [by left|right]. split; [|done]. destruct (newlyNotified w after !! i) as [q|] eqn:E; [|done].
  apply notified_fresh in E. destruct E. apply (gi_dom _ _ _ Hg), elem_of_dom. by exists p.
Qed.

Lemma elem_of_granted i : i ∈ g ∪ dom tickets <-> i ∈ g \/ is_Some (newlyNotified w after !! i).
Proof.
  rewrite elem_of_union, elem_of_dom. split.
  - intros [?|[p [H|[H _]]%lookup_tickets]]; [by left|right; by exists p|left; apply (gi_dom _ _ _ Hg), elem_of_dom; by exists p].
  - intros [?|[p H]]; [by left|right; exists p; apply lookup_tickets; by left].
Qed.

Lemma handover_hold k1 a1 : ticketed tickets k1 a1 <-> holds (semaphores after) k1 a1.
Proof.
  assert (holds (semaphores after) k1 a1 <->
    (k1 = k /\ exists ch, (a1, ch) ∈ pre) \/ (holds (semaphores w) k1 a1 /\ (k1, a1) <> (k, a))) as ->.
  { unfold holds, after. cbn [semaphores]. rewrite lookup_insert. case_decide as E; [subst k1|naive_solver].
    rewrite Hs. transitivity (a1 ∈ holders s'); [naive_solver|]. rewrite Hh, elem_of_union, elem_of_list_to_set, list_elem_of_fmap.
    rewrite elem_of_difference, elem_of_singleton. split.
    - intros [((a2 & ch) & -> & H)|[H1 H2]]; [left; eauto|right]. split; [eauto|congruence].
    - intros [[_ [ch H]]|[(s1 & [= <-] & H) Hn]]; [left; by exists (a1, ch)|right]. split; congruence. }
  unfold ticketed. setoid_rewrite lookup_tickets. rewrite <- (gi_hold _ _ _ Hg). unfold ticketed. split.
  - intros [i [(-> & ch & _ & H)%lookup_notified|[H Hn]]]; eauto.
  - intros [[-> [ch H]]|[[i Hi] Hn]]; [|eauto]. destruct (served a1 ch H) as (_ & i & Hi).
    exists i. left. apply lookup_notified. eauto.
Qed.

Lemma handover_back k1 a1 ch :
  queued after k1 a1 ch -> ch ∉ closed after /\ exists i, requests w !! i = Some (Waiting k1 a1 ch).
Proof.
  intros (s1 & Hs1 & Hin). unfold after in Hs1. cbn [semaphores] in Hs1.
  assert (queued w k1 a1 ch /\ (k1 = k -> ch ∉ pre.*2)) as [Hq Hp].
  { rewrite lookup_insert in Hs1. case_decide as E; [|split; [by exists s1|congruence]].
    injection Hs1 as <-. subst k1. split; [exists s; split; [done|]; rewrite Hpre; apply elem_of_app; by right|].
    intros _ Hn. pose proof (gi_nodup _ _ _ Hg k s Hs) as Hd. rewrite Hpre, fmap_app in Hd. apply NoDup_app in Hd as (_ & Hd & _).
    apply (Hd ch Hn). apply list_elem_of_fmap. by exists (a1, ch). }
  destruct (gi_back _ _ _ Hg _ _ _ Hq) as (Hc & i & Hi). split; [|by exists i].
  intros [[a2 H]|H]%elem_of_closed; [|done]. destruct (served a2 ch H) as (_ & j & Hj).
  assert (i = j) as <- by (by eapply (inv_inj w Hw)). rewrite Hi in Hj. injection Hj as -> ->.
  apply Hp; [done|]. apply list_elem_of_fmap. by exists (a2, ch).
Qed.

Lemma handover_ginv : ginv after tickets (g ∪ dom tickets).
Proof.
  split; [apply handover_hold|apply handover_back|..].
  - intros k1 s1. unfold after. cbn [semaphores]. rewrite lookup_insert. case_decide; [|apply (gi_nodup _ _ _ Hg)].
    intros [= <-]. pose proof (gi_nodup _ _ _ Hg k s Hs) as Hd. rewrite Hpre, fmap_app in Hd. by apply NoDup_app in Hd as (_ & _ & Hd).
  - intros ch [[a1 H]|H]%elem_of_closed; [|by apply (gi_closed _ _ _ Hg)].
    destruct (served a1 ch H) as (_ & i & Hi). by eapply (inv_fresh w Hw).
  - intros i Hi. apply elem_of_granted. left. by apply (gi_returned _ _ _ Hg).
  - intros i k1 a1 ch Hi. rewrite elem_of_granted, elem_of_closed, (gi_waiting _ _ _ Hg _ _ _ _ Hi).
    cbn [after requests] in Hi. split.
    + intros [H|[[k2 a2] (-> & c & Hi2 & H)%lookup_notified]]; [by right|]. rewrite Hi in Hi2. injection Hi2 as -> -> ->. left. eauto.
    + intros [[a2 H]|H]; [right|by left]. destruct (served a2 ch H) as (_ & j & Hj).
      assert (i = j) as <- by (by eapply (inv_inj w Hw)). exists (k, a2). apply lookup_notified. eauto.
  - intros i [H|[[k1 a1] (_ & ch & Hi & _)%lookup_notified]]%elem_of_granted; [by apply (gi_known _ _ _ Hg)|by eexists].
  - set_solver.
Qed.
End handover.

Lemma release_ginv w k a t g :
  winv w -> ginv w t g -> let w' := releaseStep w k a in
  let t' := ticketsAfter (ERelease k a) w w' t in ginv w' t' (g ∪ dom t').
Proof.
  intros Hw Hg. cbn zeta. unfold ticketsAfter, releaseStep.
  assert (holds (semaphores w) k a \/ ~ holds (semaphores w) k a) as [(s & Hs & Ha)|Hno].
  { unfold holds. destruct (semaphores w !! k) as [s|]; [|right; naive_solver].
    destruct (decide (a ∈ holders s)); [left; eauto|right; naive_solver]. }
  - destruct (release_handover w k a s Hw Hs Ha) as (s' & pre & Er & Hpre & Hh). rewrite Er. by apply (handover_ginv w t g Hw Hg k a s s' pre).
  - destruct (release_fails w k a Hno) as [e ->]. cbn [snd]. rewrite (union_comm_L g), (subseteq_union_1_L _ _ (gi_dom _ _ _ Hg)).
    simpl. rewrite (union_empty_l_L (closed w)). by destruct w.
Qed.

Lemma run_ginv w t g : run w t g -> winv w /\ ginv w t g.
Proof.
  induction 1 as [|e w w' t g Hr [IHw IHg] Hs].
  { split; [by split; simpl; intros *; rewrite lookup_empty|]. split; simpl.
    - intros k a. unfold ticketed, holds. setoid_rewrite lookup_empty. naive_solver.
    - intros k a ch (s & Hs & _). cbn [init semaphores] in Hs. by rewrite lookup_empty in Hs.
    - intros k s. by rewrite lookup_empty.
    - set_solver.
    - intros i. by rewrite lookup_empty.
    - intros i *. by rewrite lookup_empty.
    - set_solver.
    - set_solver. }
  split; [by eapply step_winv|]. destruct Hs as [w id k a cap Hid|w id k a ch Hid Hch|w id k a ch Hid|w k a].
  - by apply acquire_ginv.
  - apply finish_ginv; [|intros k1 a1 ch1 Hq Hid1|done].
    + intros _. by eapply (gi_waiting _ _ _ IHg).
    + rewrite Hid in Hid1. injection Hid1 as <- <- <-. by apply (gi_back _ _ _ IHg) in Hq as [? _].
  - by eapply cancelled_ginv.
  - by apply release_ginv.
Qed.

(** C32: Whatever the interleaving of requests, releases and cancellations, the
    runtime's semaphores exclude: the allocations that have been answered a
    grant which nobody has released (a ticket, read off the answers and the
    closed channels, not off the holders) are exactly the holders, so at most
    the semaphore's capacity of them, and never more than the maximum, have
    one at the same time. No request returns success without a grant, and a
    waiting request has been granted exactly when its channel is closed. A
    semaphore with waiters has no free slot, and a pending request is in its
    queue or has been granted: no waiter is lost. *)
Theorem semaphore_invariant w t g :
  run w t g ->
  (forall k a, (exists id, t !! id = Some (k, a)) <-> exists s, semaphores w !! k = Some s /\ a ∈ holders s) /\
  (forall k (as_ : gset string), (forall a, a ∈ as_ -> exists id, t !! id = Some (k, a)) ->
    count as_ <= match semaphores w !! k with Some s => capacity s | None => 0 end <= maxSemaphoreCapacity) /\
  (forall id, requests w !! id = Some (Returned None) -> id ∈ g) /\
  (forall id k a ch, requests w !! id = Some (Waiting k a ch) -> (id ∈ g <-> ch ∈ closed w)) /\
  winv w.
Proof.
  intros Hr. destruct (run_ginv w t g Hr) as [Hw Hg]. split_and!; [apply Hg| |apply Hg|apply Hg|done].
  intros k as_ Has. unfold maxSemaphoreCapacity. destruct (semaphores w !! k) as [s|] eqn:Es.
  - destruct (inv_sems w Hw k s Es) as (H1 & H2 & _). split; [|unfold maxSemaphoreCapacity in H1; lia].
    etransitivity; [|exact H2]. unfold count. apply inj_le, subseteq_size. intros a (s1 & Hs1 & Ha)%Has%(gi_hold _ _ _ Hg). congruence.
  - split; [|lia]. assert (as_ = ∅) as ->; [|by vm_compute]. apply elem_of_equiv_empty_L. intros a (s1 & Hs1 & _)%Has%(gi_hold _ _ _ Hg). congruence.
Qed.

#[local] Definition w1 : world := acquireStart init 0 "j/e/s" "a" 1.
#[local] Definition w2 : world := acquireStart w1 1 "j/e/s" "b" 1.
#[local] Definition w3 : world := releaseStep w2 "j/e/s" "a".

(** "a" is granted, "b" queues, "a" releases: the ticket passes to "b". *)
Lemma semaphore_invariant_witness :
  exists t : Tickets, t !! 1%nat = Some ("j/e/s", "b") /\ t !! 0%nat = None /\
    ((exists id, t !! id = Some ("j/e/s", "b")) <-> exists s, semaphores w3 !! "j/e/s" = Some s /\ "b" ∈ holders s).
Proof.
  exists (ticketsAfter (ERelease "j/e/s" "a") w2 w3
    (ticketsAfter (EAcquire 1 "j/e/s" "b" 1) w1 w2 (ticketsAfter (EAcquire 0 "j/e/s" "a" 1) init w1 ∅))).
  split_and!; [vm_compute; reflexivity|vm_compute; reflexivity|].
  refine (proj1 (semaphore_invariant w3 _ _ _) "j/e/s" "b").
  eapply run_step; [eapply run_step; [eapply run_step; [apply run_init|]|]|].
  - apply (step_acquire _ 0 "j/e/s" "a" 1). reflexivity.
  - apply (step_acquire _ 1 "j/e/s" "b" 1). vm_compute. reflexivity.
  - apply (step_release _ "j/e/s" "a").
Defined.

(** A request whose context ends after its grant can return the context's
    error and still hold the slot: here "a" releases, which grants "b", and
    the select of "b" takes the cancellation. Nobody waits and nobody owns the
    slot's success, and the next request for it queues. *)
Theorem cancelled_after_grant_holds :
  exists w t g, run w t g /\
    requests w !! 1%nat = Some (Returned (Some ContextDone)) /\
    semaphores w !! "s" = Some (mkSem 1 {["b"]} []) /\
    requests (acquireStart w 2 "s" "c" 1) !! 2%nat = Some (Waiting "s" "c" 1).
Proof.
  exists (cancelled (releaseStep (acquireStart (acquireStart init 0 "s" "a" 1) 1 "s" "b" 1) "s" "a") 1 "s" 0).
  do 2 eexists. split; [|split_and!; vm_compute; reflexivity].
  eapply run_step; [eapply run_step; [eapply run_step; [eapply run_step; [apply run_init|]|]|]|].
  - apply (step_acquire init 0 "s" "a" 1). reflexivity.
  - apply (step_acquire _ 1 "s" "b" 1). vm_compute. reflexivity.
  - apply (step_release _ "s" "a").
  - apply (step_cancelled _ 1 "s" "b" 0). vm_compute. reflexivity.
Qed.
