(* ===== verification/Ports.v ===== *)
(** * build: the allocation of job ports

    build/build_ports.go, bucket/port_range.go and the port keys of
    workspace/ports.go. The two-level map [existing] is keyed by the pair of
    job and port name; the [job_ports] table is a list of rows. *)
From S2P Require Import Prelude GoStrings.
Open Scope Z_scope.

(** ** The bucket's range (port_range.go) *)

Record PortRange := mkRange { PMin : Z; PMax : Z }.
Inductive range_error :=
| NotMinMax (raw : string)
| InvalidMinPort (raw part : string)
| InvalidMaxPort (raw part : string)
| InvalidRange (r : PortRange).

Definition RangeContains (r : PortRange) (port : Z) : bool := (port >=? PMin r) && (port <=? PMax r).
Definition Validate (r : PortRange) : option range_error :=
  if (PMin r <? 1) || (PMax r >? 65535) || (PMin r >? PMax r) then Some (InvalidRange r) else None.
Definition ParsePortRangeValue (raw : string) : result range_error PortRange :=
  match Split raw ","%char with
  | [a; b] =>
      match Atoi (TrimSpace a) with
      | None => Err (InvalidMinPort raw a)
      | Some min =>
          match Atoi (TrimSpace b) with
          | None => Err (InvalidMaxPort raw b)
          | Some max => match Validate (mkRange min max) with None => Ok (mkRange min max) | Some e => Err e end
          end
      end
  | _ => Err (NotMinMax raw)
  end.

(** ** Port names and bindings (workspace/ports.go) *)

Inductive port_error :=
| PortNameEmpty
| PortNameFormat (name : string)
| PortNamePrefix (job name prefix : string)
| PortCollision (port : Z) (job name : string)
| PortRangeExhausted (r : PortRange)
| BadProtocol (raw : string)
| BadExposure (raw : string).

(** The regular expression [^[a-z][a-z0-9_]*$]. *)
Definition key_start (c : ascii) : bool := (97 <=? byte_val c) && (byte_val c <=? 122).
Definition key_char (c : ascii) : bool := key_start c || ((48 <=? byte_val c) && (byte_val c <=? 57)) || (byte_val c =? 95).
Fixpoint all_key_chars (s : string) : bool :=
  match s with "" => true | String c s => key_char c && all_key_chars s end.
Definition matchesPortKey (s : string) : bool :=
  match s with "" => false | String c s => key_start c && all_key_chars s end.

Definition ValidatePortKey (name : string) : option port_error :=
  let name := TrimSpace name in
  if bool_decide (name = "") then Some PortNameEmpty
  else if negb (matchesPortKey name) then Some (PortNameFormat name)
  else None.
Definition ValidateJobPortKey (jobName portName : string) : option port_error :=
  match ValidatePortKey portName with
  | Some e => Some e
  | None =>
      let prefix := jobName +:+ "_" in
      if negb (HasPrefix portName prefix) then Some (PortNamePrefix jobName portName prefix) else None
  end.

Definition DefaultPortProtocol : string := "tcp".
Definition DefaultPortExposure : string := "cluster".
Record ManifestPortBinding := mkBinding { Fixed : option Z; Protocol : string; Exposure : string }.
Notation ManifestPorts := (gmap string ManifestPortBinding).
Definition Provisioned (b : ManifestPortBinding) : bool := match Fixed b with None => true | Some _ => false end.
Definition Names (p : ManifestPorts) : list string := merge_sort String.le (map_to_list p).*1.

Section normalize.
Context `{Unicode}.
Definition NormalizePortProtocol (raw : string) : result port_error string :=
  let v := ToLower (TrimSpace raw) in
  if bool_decide (v = "") then Ok DefaultPortProtocol
  else if mem v ["http"; "https"; "tcp"; "udp"] then Ok v else Err (BadProtocol raw).
Definition NormalizePortExposure (raw : string) : result port_error string :=
  let v := ToLower (TrimSpace raw) in
  if bool_decide (v = "") then Ok DefaultPortExposure
  else if mem v ["cluster"; "public"] then Ok v else Err (BadExposure raw).
End normalize.

(** ** The allocator (build_ports.go) *)

Notation Assignments := (gmap (string * string) Z).
Record portAllocator := mkAllocator {
  range_ : PortRange;
  existing : Assignments;
  usedNumbers : gset Z;
}.

Definition newPortAllocator (existing : Assignments) (portRange : PortRange) : portAllocator :=
  mkAllocator portRange existing (list_to_set (map_to_list existing).*2).

Definition claimPort (a : portAllocator) (jobName portName : string) (port : Z) : result port_error portAllocator :=
  if bool_decide (existing a !! (jobName, portName) = Some port)
  then Ok (mkAllocator (range_ a) (existing a) ({[port]} ∪ usedNumbers a))
  else if bool_decide (port ∈ usedNumbers a) then Err (PortCollision port jobName portName)
  else Ok (mkAllocator (range_ a) (<[(jobName, portName) := port]> (existing a)) ({[port]} ∪ usedNumbers a)).

Definition releaseAssignedNumber (a : portAllocator) (jobName portName : string) : portAllocator :=
  match existing a !! (jobName, portName) with
  | None => a
  | Some prev => mkAllocator (range_ a) (existing a) (usedNumbers a ∖ {[prev]})
  end.

(** [for port := Min; port <= Max; port++]; the fuel is the range's size. *)
Fixpoint firstFree (fuel : nat) (a : portAllocator) (jobName portName : string) (port : Z) : result port_error (portAllocator * Z) :=
  match fuel with
  | O => Err (PortRangeExhausted (range_ a))
  | S fuel =>
      if port <=? PMax (range_ a) then
        if bool_decide (port ∈ usedNumbers a) then firstFree fuel a jobName portName (port + 1)
        else let? a := claimPort a jobName portName port in Ok (a, port)
      else Err (PortRangeExhausted (range_ a))
  end.
Definition range_size (r : PortRange) : nat := Z.to_nat (PMax r - PMin r + 1).

Definition assignProvisioned (a : portAllocator) (jobName portName : string) : result port_error (portAllocator * Z) :=
  match ValidateJobPortKey jobName portName with
  | Some e => Err e
  | None =>
      match existing a !! (jobName, portName) with
      | Some prev =>
          if RangeContains (range_ a) prev
          then Ok (mkAllocator (range_ a) (existing a) ({[prev]} ∪ usedNumbers a), prev)
          else firstFree (range_size (range_ a)) (releaseAssignedNumber a jobName portName) jobName portName (PMin (range_ a))
      | None => firstFree (range_size (range_ a)) a jobName portName (PMin (range_ a))
      end
  end.

Definition assignFixed (a : portAllocator) (jobName portName : string) (port : Z) : result port_error (portAllocator * Z) :=
  match ValidateJobPortKey jobName portName with
  | Some e => Err e
  | None =>
      let a := match existing a !! (jobName, portName) with
               | Some prev => if negb (prev =? port) then releaseAssignedNumber a jobName portName else a
               | None => a
               end in
      let? a := claimPort a jobName portName port in Ok (a, port)
  end.

Definition resolve (a : portAllocator) (jobName portName : string) (binding : ManifestPortBinding) : result port_error (portAllocator * Z) :=
  match Fixed binding with
  | None => assignProvisioned a jobName portName
  | Some port => assignFixed a jobName portName port
  end.

(** The map loop of [releaseRemoved] deletes the names that are not kept and
    their numbers, in any order. *)
Definition removedPorts (a : portAllocator) (jobName : string) (keepNames : list string) : Assignments :=
  filter (fun kv : (string * string) * Z => kv.1.1 = jobName /\ kv.1.2 ∉ keepNames) (existing a).
Definition releaseRemoved (a : portAllocator) (jobName : string) (keepNames : list string) : portAllocator :=
  let gone := removedPorts a jobName keepNames in
  mkAllocator (range_ a) (existing a ∖ gone) (usedNumbers a ∖ list_to_set (map_to_list gone).*2).

Record PortRow := mkPortRow { pJobID : string; pName : string; pPort : Z; pProtocol : string; pExposure : string }.

Fixpoint syncLoop (jobID jobName : string) (ports : ManifestPorts) (portNames : list string)
    (a : portAllocator) (table : list PortRow) : result port_error (portAllocator * list PortRow) :=
  match portNames with
  | [] => Ok (a, table)
  | portName :: portNames =>
      let binding := default (mkBinding None "" "") (ports !! portName) in
      let? (a, port) := resolve a jobName portName binding in
      let protocol := if bool_decide (Protocol binding = "") then DefaultPortProtocol else Protocol binding in
      let exposure := if bool_decide (Exposure binding = "") then DefaultPortExposure else Exposure binding in
      syncLoop jobID jobName ports portNames a (table ++ [mkPortRow jobID portName port protocol exposure])
  end.
Definition syncPorts (table : list PortRow) (jobID jobName : string) (ports : ManifestPorts) (a : portAllocator)
    : result port_error (portAllocator * list PortRow) :=
  let portNames := Names ports in
  let a := releaseRemoved a jobName portNames in
  let table := List.filter (fun r => negb (bool_decide (pJobID r = jobID))) table in
  syncLoop jobID jobName ports portNames a table.

(** ** No port is assigned twice

    The allocator keeps its set of used numbers equal to the assigned ones
    and the assignment injective, so the [job_ports] table has no duplicate. *)

Notation key := (string * string)%type.

Definition injective_ports (m : Assignments) : Prop :=
  forall k1 k2 p, m !! k1 = Some p -> m !! k2 = Some p -> k1 = k2.
(** [usedNumbers] are the numbers of the entries other than [k]. *)
Definition used_except (a : portAllocator) (k : key) : Prop :=
  injective_ports (existing a) /\
  forall p, p ∈ usedNumbers a <-> exists k', k' <> k /\ existing a !! k' = Some p.
Definition ports_inv (a : portAllocator) : Prop :=
  injective_ports (existing a) /\ forall p, p ∈ usedNumbers a <-> exists k, existing a !! k = Some p.

Lemma injective_empty : injective_ports ∅.
Proof. intros k1 k2 p H. by rewrite lookup_empty in H. Qed.

Lemma newPortAllocator_inv m r : injective_ports m -> ports_inv (newPortAllocator m r).
Proof.
  intros Hi. split; [done|]. intros p. simpl. rewrite elem_of_list_to_set, list_elem_of_fmap. split.
  - intros ([k v] & -> & Hk%elem_of_map_to_list). by exists k.
  - intros (k & Hk). exists (k, p). split; [done|]. by apply elem_of_map_to_list.
Qed.

Lemma release_used a j n :
  ports_inv a -> used_except (releaseAssignedNumber a j n) (j, n) /\
  existing (releaseAssignedNumber a j n) = existing a /\ range_ (releaseAssignedNumber a j n) = range_ a.
Proof.
  intros [Hi Hu]. unfold releaseAssignedNumber. destruct (existing a !! (j, n)) as [prev|] eqn:E.
  - split; [|done]. split; [done|]. simpl. intros p. rewrite elem_of_difference, elem_of_singleton, Hu. split.
    + intros [(k & Hk) Hne]. exists k. split; [congruence|done].
    + intros (k & Hne & Hk). split; [eauto|]. intros ->. apply Hne. by eapply Hi.
  - split; [|done]. split; [done|]. intros p. rewrite Hu. split; [|naive_solver].
    intros (k & Hk). exists k. split; congruence.
Qed.

Lemma inv_used_except a j n : ports_inv a -> existing a !! (j, n) = None -> used_except a (j, n).
Proof.
  intros Hi E. pose proof (release_used a j n Hi) as [H _]. unfold releaseAssignedNumber in H. by rewrite E in H.
Qed.

Lemma insert_inv a k p :
  used_except a k -> p ∉ usedNumbers a ->
  ports_inv (mkAllocator (range_ a) (<[k := p]> (existing a)) ({[p]} ∪ usedNumbers a)).
Proof.
  intros [Hi Hu] Hp. split; simpl.
  - intros k1 k2 q. destruct (decide (k1 = k)) as [->|H1], (decide (k2 = k)) as [->|H2];
      rewrite ?lookup_insert_eq, ?lookup_insert_ne by done; [done|intros [= <-] E|intros E [= <-]|apply Hi];
      exfalso; apply Hp, Hu; eauto.
  - intros q. rewrite elem_of_union, elem_of_singleton, Hu. split.
    + intros [->|(k' & Hne & Hk')]; [exists k; by rewrite lookup_insert_eq|exists k'; by rewrite lookup_insert_ne].
    + intros (k' & Hk'). destruct (decide (k' = k)) as [->|Hne].
      * rewrite lookup_insert_eq in Hk'. left. congruence.
      * rewrite lookup_insert_ne in Hk' by done. right. eauto.
Qed.

Lemma claim_new a j n p a' :
  used_except a (j, n) -> existing a !! (j, n) <> Some p -> claimPort a j n p = Ok a' ->
  ports_inv a' /\ existing a' = <[(j, n) := p]> (existing a) /\ range_ a' = range_ a.
Proof.
  intros Hu Hne. unfold claimPort. rewrite bool_decide_false by done. case_bool_decide as Hp; [done|].
  intros [= <-]. split; [by apply insert_inv|done].
Qed.

Lemma same_inv a k p :
  ports_inv a -> existing a !! k = Some p ->
  ports_inv (mkAllocator (range_ a) (existing a) ({[p]} ∪ usedNumbers a)) /\ existing a = <[k := p]> (existing a).
Proof.
  intros [Hi Hu] E. split; [|by rewrite insert_id]. split; [done|]. simpl.
  intros q. rewrite elem_of_union, elem_of_singleton, Hu. naive_solver.
Qed.

Lemma firstFree_spec fuel : forall a j n port,
  used_except a (j, n) -> (forall p, existing a !! (j, n) = Some p -> RangeContains (range_ a) p = false) ->
  PMin (range_ a) <= port -> PMax (range_ a) - port < Z.of_nat fuel ->
  match firstFree fuel a j n port with
  | Ok (a', p) => ports_inv a' /\ existing a' = <[(j, n) := p]> (existing a) /\ range_ a' = range_ a /\ RangeContains (range_ a) p = true
  | Err e => e = PortRangeExhausted (range_ a) /\ forall p, port <= p <= PMax (range_ a) -> p ∈ usedNumbers a
  end.
Proof.
  induction fuel as [|fuel IH]; intros a j n port Hu Hout Hmin Hf; cbn [firstFree]; [split; [done|lia]|].
  destruct (port <=? PMax (range_ a)) eqn:El; bool_to_prop; [|split; [done|lia]].
  case_bool_decide as Hp.
  - specialize (IH a j n (port + 1) Hu Hout ltac:(lia) ltac:(lia)). destruct (firstFree _ _ _ _ _) as [[a' p]|e]; [done|].
    destruct IH as [He Hall]. split; [done|]. intros p Hpr. destruct (decide (p = port)) as [->|]; [done|apply Hall; lia].
  - assert (RangeContains (range_ a) port = true) as Hr.
    { unfold RangeContains. rewrite Z.geb_leb. apply andb_true_iff. split; apply Z.leb_le; lia. }
    assert (existing a !! (j, n) <> Some port) as Hne by (intros E; apply Hout in E; congruence).
    destruct (claimPort a j n port) as [a'|e] eqn:Ec.
    + simpl. destruct (claim_new _ _ _ _ _ Hu Hne Ec) as (? & ? & ?). done.
    + unfold claimPort in Ec. rewrite bool_decide_false in Ec by done. by rewrite bool_decide_false in Ec.
Qed.

Lemma assignProvisioned_spec a j n :
  ports_inv a ->
  match assignProvisioned a j n with
  | Ok (a', p) => ports_inv a' /\ existing a' = <[(j, n) := p]> (existing a) /\ range_ a' = range_ a /\ RangeContains (range_ a) p = true
  | Err e => ValidateJobPortKey j n = Some e \/
      (e = PortRangeExhausted (range_ a) /\
       forall p, PMin (range_ a) <= p <= PMax (range_ a) -> exists k, k <> (j, n) /\ existing a !! k = Some p)
  end.
Proof.
  intros Hi. unfold assignProvisioned. destruct (ValidateJobPortKey j n) as [e|]; [by left|].
  assert (forall b, used_except b (j, n) -> existing b = existing a -> range_ b = range_ a ->
    (forall p, existing a !! (j, n) = Some p -> RangeContains (range_ a) p = false) ->
    match firstFree (range_size (range_ a)) b j n (PMin (range_ a)) with
    | Ok (a', p) => ports_inv a' /\ existing a' = <[(j, n) := p]> (existing a) /\ range_ a' = range_ a /\ RangeContains (range_ a) p = true
    | Err e => Some e = None \/
        (e = PortRangeExhausted (range_ a) /\
         forall p, PMin (range_ a) <= p <= PMax (range_ a) -> exists k, k <> (j, n) /\ existing a !! k = Some p)
    end) as Hff.
  { intros b Hu Ee Er Hout. pose proof (firstFree_spec (range_size (range_ a)) b j n (PMin (range_ a)) Hu) as Hs.
    rewrite Ee, Er in Hs. specialize (Hs Hout ltac:(lia)). assert (PMax (range_ a) - PMin (range_ a) < Z.of_nat (range_size (range_ a))) as Hf
      by (unfold range_size; lia). specialize (Hs Hf). destruct (firstFree _ _ _ _ _) as [[a' p]|e]; [done|].
    destruct Hs as [-> Hall]. right. split; [done|]. intros p Hp. apply Hall in Hp. apply Hu in Hp. by rewrite Ee in Hp. }
  destruct (existing a !! (j, n)) as [prev|] eqn:E.
  - destruct (RangeContains (range_ a) prev) eqn:Er.
    + destruct (same_inv a (j, n) prev Hi E). done.
    + destruct (release_used a j n Hi) as (Hu & Ee & Err). specialize (Hff _ Hu Ee Err ltac:(intros ? [= <-]; done)).
      destruct (firstFree _ _ _ _ _) as [[a' p]|e]; [done|]. destruct Hff as [?|?]; [done|by right].
  - specialize (Hff a (inv_used_except a j n Hi E) eq_refl eq_refl ltac:(done)).
    destruct (firstFree _ _ _ _ _) as [[a' p]|e]; [done|]. destruct Hff as [?|?]; [done|by right].
Qed.

(** A provisioned port is taken from the bucket's range, every other
    assignment stays, and the request fails only when the name is not valid
    or each number of the range belongs to another port. *)
Theorem assignProvisioned_total a j n :
  ports_inv a ->
  match assignProvisioned a j n with
  | Ok (a', p) => ports_inv a' /\ existing a' = <[(j, n) := p]> (existing a) /\ range_ a' = range_ a /\ RangeContains (range_ a) p = true
  | Err e => ValidateJobPortKey j n = Some e \/
      (e = PortRangeExhausted (range_ a) /\
       forall p, PMin (range_ a) <= p <= PMax (range_ a) -> exists k, k <> (j, n) /\ existing a !! k = Some p)
  end.
Proof. apply assignProvisioned_spec. Qed.

Lemma assignProvisioned_total_witness :
  RangeContains (mkRange 30000 30001) 30001 = true.
Proof.
  pose proof (assignProvisioned_total (newPortAllocator {[("db", "db_tcp") := 30000]} (mkRange 30000 30001)) "web" "web_http") as H.
  assert (exists a', assignProvisioned (newPortAllocator {[("db", "db_tcp") := 30000]} (mkRange 30000 30001)) "web" "web_http" = Ok (a', 30001)) as [a' E]
    by (eexists; vm_compute; reflexivity).
  rewrite E in H. apply H. apply newPortAllocator_inv. intros k1 k2 p H1 H2.
  apply lookup_singleton_Some in H1 as [<- _]. apply lookup_singleton_Some in H2 as [<- _]. reflexivity.
Defined.

Lemma resolve_spec a j n b a' p :
  ports_inv a -> resolve a j n b = Ok (a', p) ->
  ports_inv a' /\ existing a' = <[(j, n) := p]> (existing a) /\ range_ a' = range_ a /\
  match Fixed b with Some q => p = q | None => RangeContains (range_ a) p = true end.
Proof.
  intros Hi. unfold resolve. destruct (Fixed b) as [q|].
  - unfold assignFixed. destruct (ValidateJobPortKey j n); [done|].
    destruct (existing a !! (j, n)) as [prev|] eqn:E.
    + destruct (prev =? q) eqn:Eq; bool_to_prop; simpl.
      * subst. unfold claimPort. rewrite bool_decide_true by done. simpl. intros [= <- <-].
        destruct (same_inv a (j, n) q Hi E). done.
      * destruct (release_used a j n Hi) as (Hu & Ee & Er). destruct (claimPort _ j n q) as [a1|e] eqn:Ec; [|done].
        simpl. intros [= <- <-]. destruct (claim_new _ _ _ q _ Hu ltac:(rewrite Ee, E; congruence) Ec) as (H1 & H2 & H3).
        rewrite H2, Ee, H3, Er. done.
    + destruct (claimPort a j n q) as [a1|e] eqn:Ec; [|done]. simpl. intros [= <- <-].
      by destruct (claim_new _ _ _ q _ (inv_used_except a j n Hi E) ltac:(congruence) Ec) as (H1 & H2 & H3).
  - intros E. pose proof (assignProvisioned_spec a j n Hi) as H. by rewrite E in H.
Qed.

Lemma releaseRemoved_inv a j keep :
  ports_inv a ->
  ports_inv (releaseRemoved a j keep) /\ range_ (releaseRemoved a j keep) = range_ a /\
  forall k, existing (releaseRemoved a j keep) !! k =
    (if decide (k.1 = j /\ k.2 ∉ keep) then None else existing a !! k).
Proof.
  intros [Hi Hu]. unfold releaseRemoved, removedPorts. set (P := fun kv : key * Z => kv.1.1 = j /\ kv.1.2 ∉ keep).
  assert (forall k, (existing a ∖ filter P (existing a)) !! k =
    (if decide (k.1 = j /\ k.2 ∉ keep) then None else existing a !! k)) as Hl.
  { intros k. rewrite lookup_difference. destruct (filter P (existing a) !! k) as [p|] eqn:E.
    - apply map_lookup_filter_Some in E as [_ HP]. by rewrite decide_True.
    - destruct (decide _) as [Hd|]; [|done]. destruct (existing a !! k) as [p|] eqn:Ek; [|done].
      rewrite (map_lookup_filter_None _ _ k) in E. destruct E as [E|E]; [congruence|]. by destruct (E p Ek). }
  split; [|split; [done|exact Hl]]. split; cbn [existing usedNumbers].
  - intros k1 k2 p. rewrite !Hl. do 2 case_decide; try done. apply Hi.
  - intros p. rewrite elem_of_difference, elem_of_list_to_set, list_elem_of_fmap, Hu. split.
    + intros [(k & Hk) Hn]. exists k. rewrite Hl. rewrite decide_False; [done|]. intros HP. apply Hn.
      exists (k, p). split; [done|]. apply elem_of_map_to_list. by apply map_lookup_filter_Some_2.
    + intros (k & Hk). rewrite Hl in Hk. case_decide as Hd; [done|]. split; [eauto|].
      intros ([k' p'] & -> & Hin%elem_of_map_to_list). apply map_lookup_filter_Some in Hin as [Hk' HP]. simpl in *.
      assert (k' = k) as -> by (by eapply Hi). done.
Qed.

(** ** The table *)

Section table.
(** The job of a job id; the ids of distinct jobs differ. *)
Variable jobOf : string -> string.
Hypothesis jobOf_inj : forall i1 i2, jobOf i1 = jobOf i2 -> i1 = i2.

Definition row_key (r : PortRow) : key := (jobOf (pJobID r), pName r).
(** Each row is the assignment of its key, and no key has two rows. *)
Definition rows_ok (a : portAllocator) (table : list PortRow) : Prop :=
  NoDup (map row_key table) /\ forall r, r ∈ table -> existing a !! row_key r = Some (pPort r).

Lemma rows_ports_NoDup a table : ports_inv a -> rows_ok a table -> NoDup (map pPort table).
Proof.
  intros [Hi _] [Hn Hr]. induction table as [|r table IH]; [constructor|]. cbn [map] in *.
  apply NoDup_cons in Hn as [Hr0 Hn]. constructor; [|apply IH; [done|intros; apply Hr; by apply elem_of_cons; right]].
  intros (r' & E & Hr')%list_elem_of_fmap. apply Hr0, list_elem_of_fmap. exists r'. split; [|done].
  eapply Hi; [apply Hr, elem_of_cons; by left|]. rewrite E. apply Hr, elem_of_cons. by right.
Qed.

Lemma syncLoop_spec jobID ports names : forall a table a' table',
  NoDup names -> ports_inv a -> rows_ok a table ->
  (forall r, r ∈ table -> pJobID r = jobID -> pName r ∉ names) ->
  syncLoop jobID (jobOf jobID) ports names a table = Ok (a', table') ->
  ports_inv a' /\ rows_ok a' table' /\ range_ a' = range_ a /\ (forall r, r ∈ table -> r ∈ table') /\
  (forall n, n ∈ names -> exists r, r ∈ table' /\ pJobID r = jobID /\ pName r = n /\
     match Fixed (default (mkBinding None "" "") (ports !! n)) with
     | Some q => pPort r = q
     | None => RangeContains (range_ a) (pPort r) = true
     end) /\
  (forall r, r ∈ table' -> r ∈ table \/ (pJobID r = jobID /\ pName r ∈ names)).
Proof.
  induction names as [|n names IH]; intros a table a' table' Hnd Hi Hr Hout; cbn [syncLoop].
  { intros [= <- <-]. split_and!; try done; [|by left]. intros n Hn. by apply not_elem_of_nil in Hn. }
  apply NoDup_cons in Hnd as [Hn Hnd]. set (b := default (mkBinding None "" "") (ports !! n)).
  destruct (resolve a (jobOf jobID) n b) as [[a1 p]|e] eqn:Er; [|done]. cbn [rbind]. intros Hs.
  destruct (resolve_spec _ _ _ _ _ _ Hi Er) as (Hi1 & He1 & Hrg & Hp).
  match type of Hs with syncLoop _ _ _ _ _ (table ++ [?r]) = _ => set (row := r) in * end.
  assert (forall r, r ∈ table -> row_key r <> (jobOf jobID, n)) as Hnew.
  { intros r Hin [= E1%jobOf_inj E2]. apply (Hout r Hin E1). rewrite E2. apply elem_of_cons. by left. }
  assert (rows_ok a1 (table ++ [row])) as Hr1.
  { destruct Hr as [Hk Hv]. split.
    - rewrite map_app. apply NoDup_app. split_and!; [done| |apply NoDup_singleton].
      intros k (r & -> & Hin)%list_elem_of_fmap Hk2%list_elem_of_singleton. by apply (Hnew r Hin).
    - intros r [Hin|Hin]%elem_of_app; rewrite He1.
      + rewrite lookup_insert_ne; [by apply Hv|]. intros E. by apply (Hnew r Hin).
      + apply list_elem_of_singleton in Hin as ->. by rewrite lookup_insert_eq. }
  destruct (IH a1 (table ++ [row]) a' table' Hnd Hi1 Hr1) as (H1 & H2 & H3 & H4 & H5 & H6); [|exact Hs|].
  { intros r [Hin|Hin]%elem_of_app Hid.
    - intros Hx. apply (Hout r Hin Hid), elem_of_cons. by right.
    - apply list_elem_of_singleton in Hin as ->. exact Hn. }
  split_and!; [done|done|congruence| | |].
  - intros r Hin. apply H4, elem_of_app. by left.
  - intros m [->|Hm]%elem_of_cons; [|rewrite <- Hrg; by apply H5].
    exists row. split; [apply H4, elem_of_app; right; by apply list_elem_of_singleton|]. by split_and!.
  - intros r Hin. destruct (H6 r Hin) as [[?|Hx]%elem_of_app|[? ?]]; [by left| |right].
    + apply list_elem_of_singleton in Hx as ->. right. split; [done|]. apply elem_of_cons. by left.
    + split; [done|]. apply elem_of_cons. by right.
Qed.

Lemma Names_spec ports : NoDup (Names ports) /\ forall n, n ∈ Names ports <-> is_Some (ports !! n).
Proof.
  unfold Names. split.
  - rewrite merge_sort_Permutation. apply NoDup_fst_map_to_list.
  - intros n. rewrite merge_sort_Permutation, list_elem_of_fmap. split.
    + intros ([n' b] & -> & H%elem_of_map_to_list). by exists b.
    + intros [b Hb]. exists (n, b). split; [done|]. by apply elem_of_map_to_list.
Qed.

Lemma syncPorts_spec table jobID ports a a' table' :
  ports_inv a -> rows_ok a table -> syncPorts table jobID (jobOf jobID) ports a = Ok (a', table') ->
  ports_inv a' /\ rows_ok a' table' /\ range_ a' = range_ a /\ NoDup (map pPort table') /\
  (forall r, pJobID r <> jobID -> r ∈ table' <-> r ∈ table) /\
  (forall n b, ports !! n = Some b -> exists r, r ∈ table' /\ pJobID r = jobID /\ pName r = n /\
     match Fixed b with Some q => pPort r = q | None => RangeContains (range_ a) (pPort r) = true end).
Proof.
  intros Hi [Hk Hv]. unfold syncPorts. set (names := Names ports).
  set (rest := List.filter (fun r => negb (bool_decide (pJobID r = jobID))) table).
  assert (forall r, r ∈ rest <-> r ∈ table /\ pJobID r <> jobID) as Hrest.
  { intros r. unfold rest. by rewrite list_elem_of_In, filter_In, <- list_elem_of_In, negb_true_iff, bool_decide_eq_false. }
  destruct (releaseRemoved_inv a (jobOf jobID) names Hi) as (Hi1 & Hr1 & Hl). intros Hs.
  destruct (Names_spec ports) as [Hnd Hn].
  assert (rows_ok (releaseRemoved a (jobOf jobID) names) rest) as Hro.
  { split.
    - unfold rest. clear -Hk. induction table as [|r table IH]; [constructor|]. cbn [map List.filter] in *.
      apply NoDup_cons in Hk as [Hr Hk]. case_match; [|by apply IH]. cbn [map]. constructor; [|by apply IH].
      intros (r' & E & Hr')%list_elem_of_fmap. apply Hr, list_elem_of_fmap. exists r'. split; [done|].
      apply list_elem_of_In, filter_In in Hr' as [Hr' _]. by apply list_elem_of_In.
    - intros r [Hin Hne]%Hrest. rewrite Hl, decide_False; [by apply Hv|]. intros [E _]. by apply jobOf_inj in E. }
  destruct (syncLoop_spec jobID ports names _ rest a' table' Hnd Hi1 Hro) as (H1 & H2 & H3 & H4 & H5 & H6); [|exact Hs|].
  { intros r [_ Hne]%Hrest. done. }
  split_and!; [done|done|congruence|by eapply rows_ports_NoDup| |].
  - intros r Hne. split.
    + intros Hin. destruct (H6 r Hin) as [[? _]%Hrest|[? _]]; done.
    + intros Hin. by apply H4, Hrest.
  - intros n b Hb. destruct (H5 n ltac:(apply Hn; eauto)) as (r & Hin & Hid & Hnm & Hp). exists r.
    rewrite Hb, Hr1 in Hp. done.
Qed.

(** C34: Synchronising the ports of a job keeps the assignment injective and the
    table in step with it: the table has no port number twice, the rows of
    other jobs stay, and the job has one row for each port of its manifest,
    with the fixed number it asks for or a number of the bucket's range. *)
Theorem syncPorts_correct table jobID ports a a' table' :
  ports_inv a -> rows_ok a table -> syncPorts table jobID (jobOf jobID) ports a = Ok (a', table') ->
  ports_inv a' /\ rows_ok a' table' /\ NoDup (map pPort table') /\
  (forall r, pJobID r <> jobID -> r ∈ table' <-> r ∈ table) /\
  (forall n b, ports !! n = Some b -> exists r, r ∈ table' /\ pJobID r = jobID /\ pName r = n /\
     match Fixed b with Some q => pPort r = q | None => RangeContains (range_ a) (pPort r) = true end).
Proof.
  intros Hi Hr Hs. destruct (syncPorts_spec table jobID ports a a' table' Hi Hr Hs) as (? & ? & _ & ? & ? & ?). done.
Qed.
End table.

Lemma syncPorts_correct_witness :
  let a := newPortAllocator ∅ (mkRange 30000 30009) in
  let ports : ManifestPorts := {["web_http" := mkBinding None "" ""; "web_api" := mkBinding (Some 30000) "" ""]} in
  exists a' table', syncPorts [] "web" "web" ports a = Ok (a', table') /\ NoDup (map pPort table').
Proof.
  intros a ports.
  assert (exists a' table', syncPorts [] "web" "web" ports a = Ok (a', table')) as (a' & table' & E)
    by (eexists _, _; vm_compute; reflexivity).
  exists a', table'. split; [exact E|].
  apply (syncPorts_correct (fun i => i) (fun _ _ e => e) [] "web" ports a a' table').
  - exact (newPortAllocator_inv ∅ (mkRange 30000 30009) injective_empty).
  - split; [constructor|]. intros r Hr. destruct (not_elem_of_nil r Hr).
  - exact E.
Defined.
