(* ===== verification/AllocState.v ===== *)
(** * data: planned and applied state of allocations

    data/hash_allocation.go, data/hash_read.go, data/file_manifest.go,
    data/file_manifest_read.go, data/allocation_version.go, the allocation
    queries of data/job.go and data/worker.go, and their use in
    deploy/hashes.go, deploy/allocations.go and deploy/rollout.go. The three
    tables are the database; NULL is [None], and a comparison with NULL is not
    true. *)
From S2P Require Import Prelude GoStrings Utils Versions.
Open Scope Z_scope.

Definition HealthFailedAppliedHash : string := "__kive_health_failed__".

Notation FileManifest := (gmap string string).

(** ** File manifests (file_manifest.go) *)

Definition changedPaths (previous current : FileManifest) : list string :=
  (List.filter (fun kv => negb (bool_decide (previous !! kv.1 = Some kv.2))) (map_to_list current)).*1.
Definition removedPaths (previous current : FileManifest) : list string :=
  (List.filter (fun kv => bool_decide (current !! kv.1 = None)) (map_to_list previous)).*1.
(** The [seen] set never holds a path of the second loop: its paths are not
    in [current]. *)
Definition DiffFileManifests (previous current : FileManifest) : list string :=
  let changed := changedPaths previous current in
  merge_sort String.le (changed ++ List.filter (fun p => negb (bool_decide (p ∈ changed))) (removedPaths previous current)).

(** ** Tables *)

Record AllocRow := mkAlloc {
  aAllocID : string;
  aWorker : string;
  aJob : string;
  aDisabled : Z;
  aRemoved : Z;
  aVersion : option string;
}.
Record HashRow := mkHash { pending_hash : option string; applied_hash : option string; applied_version : option string }.
Record FileRow := mkFile { f_pending : option string; f_applied : option string }.
Record DB := mkDB {
  allocations : list AllocRow;
  allocation_hashes : gmap string HashRow;
  allocation_file_hashes : gmap (string * string) FileRow;
}.

Definition setHash (db : DB) (id : string) (h : HashRow) : DB :=
  mkDB (allocations db) (<[id := h]> (allocation_hashes db)) (allocation_file_hashes db).
Definition updateHash (db : DB) (id : string) (f : HashRow -> HashRow) : DB :=
  mkDB (allocations db) (alter f id (allocation_hashes db)) (allocation_file_hashes db).
Definition setFiles (db : DB) (fs : gmap (string * string) FileRow) : DB :=
  mkDB (allocations db) (allocation_hashes db) fs.

(** ** Planning (hash_allocation.go) *)

(** The INSERT ... ON CONFLICT of one path: [applied] is what the row had. *)
Definition upsertPath (id : string) (fs : gmap (string * string) FileRow) (pd : string * string) : gmap (string * string) FileRow :=
  let '(path, digest) := pd in
  match fs !! (id, path) with
  | Some r => <[(id, path) := mkFile (Some digest) (f_applied r)]> fs
  | None => <[(id, path) := mkFile (Some digest) None]> fs
  end.
(** A path that is not planned any more: deleted if it was never applied. *)
Definition dropPath (id : string) (pendingFiles : FileManifest) (k : string * string) (r : FileRow) : option FileRow :=
  if bool_decide (k.1 = id) && bool_decide (pendingFiles !! k.2 = None) then
    match f_applied r with
    | None => None
    | Some _ => Some (mkFile None (f_applied r))
    end
  else Some r.
Definition upsertAllocationPendingFiles (db : DB) (id : string) (pendingFiles : FileManifest) : DB :=
  let fs := foldl (upsertPath id) (allocation_file_hashes db) (map_to_list pendingFiles) in
  setFiles db (map_imap (dropPath id pendingFiles) fs).

Definition UpdateAllocationPlan (db : DB) (id hash : string) (pendingFiles : FileManifest) : DB :=
  match allocation_hashes db !! id with
  | None =>
      upsertAllocationPendingFiles (setHash db id (mkHash (Some hash) None (Some DefaultAllocationVersion))) id pendingFiles
  | Some h =>
      if bool_decide (default "" (pending_hash h) = hash) then db
      else upsertAllocationPendingFiles (updateHash db id (fun h => mkHash (Some hash) (applied_hash h) (applied_version h)))
             id pendingFiles
  end.

(** ** Promotion and its undoing *)

Definition orphan (r : FileRow) : bool :=
  match f_pending r, f_applied r with None, None => true | _, _ => false end.
(** UPDATE of the file rows of [id], then [deleteOrphanFileHashRows]. *)
Definition updateFiles (db : DB) (id : string) (f : FileRow -> FileRow) : DB :=
  setFiles db (map_imap (fun k r => if bool_decide (k.1 = id) then (let r := f r in if orphan r then None else Some r) else Some r)
                 (allocation_file_hashes db)).

Definition versionOf (db : DB) (id : string) : option string :=
  match List.filter (fun a => bool_decide (aAllocID a = id)) (allocations db) with
  | a :: _ => aVersion a
  | [] => None
  end.
Definition PromoteAllocationState (db : DB) (id : string) : DB :=
  let db := updateHash db id (fun h =>
    mkHash (pending_hash h) (pending_hash h) (Some (default DefaultAllocationVersion (versionOf db id)))) in
  updateFiles db id (fun r => mkFile (f_pending r) (f_pending r)).
Definition MarkAllocationHealthFailed (db : DB) (id : string) : DB :=
  updateHash db id (fun h => mkHash (pending_hash h) (Some HealthFailedAppliedHash) (applied_version h)).
Definition clearAllocationAppliedFiles (db : DB) (id : string) : DB :=
  updateFiles db id (fun r => mkFile (f_pending r) None).
Definition MarkAllocationStartPending (db : DB) (id : string) : DB :=
  clearAllocationAppliedFiles (updateHash db id (fun h => mkHash (pending_hash h) None (applied_version h))) id.
Definition ClearAllocationLiveState (db : DB) (id : string) : DB :=
  clearAllocationAppliedFiles (updateHash db id (fun h => mkHash (pending_hash h) None None)) id.
Definition RemoveAllocationHash (db : DB) (id : string) : DB :=
  mkDB (allocations db) (delete id (allocation_hashes db))
    (filter (fun kv : (string * string) * FileRow => kv.1.1 <> id) (allocation_file_hashes db)).
Definition SetAllocationVersion `{Unicode} (db : DB) (id version : string) : DB :=
  mkDB (map (fun a => if bool_decide (aAllocID a = id)
                      then mkAlloc (aAllocID a) (aWorker a) (aJob a) (aDisabled a) (aRemoved a) (Some (NormalizeDeployVersion version))
                      else a) (allocations db))
    (allocation_hashes db) (allocation_file_hashes db).

(** ** Reads *)

Record AllocationFileManifests := mkManifests { mPending : FileManifest; mApplied : FileManifest; HasAppliedFiles : bool }.
Definition filesOf (db : DB) (id : string) (col : FileRow -> option string) : FileManifest :=
  list_to_map (omap (fun kv : (string * string) * FileRow =>
    if bool_decide (kv.1.1 = id) then (fun h => (kv.1.2, h)) <$> col kv.2 else None) (map_to_list (allocation_file_hashes db))).
Definition GetAllocationFileManifests (db : DB) (id : string) : AllocationFileManifests :=
  mkManifests (filesOf db id f_pending) (filesOf db id f_applied)
    (match allocation_hashes db !! id with Some h => bool_decide (is_Some (applied_hash h)) | None => false end).

(** Current and previous hash, with NULL read as the empty string. *)
Definition GetAllocationHash (db : DB) (id : string) : option (string * string) :=
  h ← allocation_hashes db !! id; Some (default "" (pending_hash h), default "" (applied_hash h)).
Definition GetAllocationVersions `{Unicode} (db : DB) (id : string) : string * string :=
  (NormalizeDeployVersion (default "" (h ← allocation_hashes db !! id; applied_version h)),
   match versionOf db id with Some v => NormalizeDeployVersion v | None => DefaultAllocationVersion end).

Definition workersWhere (db : DB) (job : string) (p : AllocRow -> bool) : list string :=
  map aWorker (List.filter (fun a => bool_decide (aJob a = job) && p a) (allocations db)).
Definition notRemoved (a : AllocRow) : bool := aRemoved a =? 0.
Definition IsActiveAllocation (removed disabled : Z) : bool := (removed =? 0) && (disabled =? 0).
Definition isActive (a : AllocRow) : bool := IsActiveAllocation (aRemoved a) (aDisabled a).
Definition GetNonRemovedAllocations (db : DB) (job : string) : list string :=
  merge_sort String.le (workersWhere db job notRemoved).
(** The flag of the first row of the worker and the job; [None] is the error
    of a missing row. *)
Definition allocationFlag (flag : AllocRow -> Z) (db : DB) (workerIP job : string) : option Z :=
  match List.filter (fun a => bool_decide (aWorker a = workerIP) && bool_decide (aJob a = job)) (allocations db) with
  | a :: _ => Some (flag a)
  | [] => None
  end.
Definition IsAllocationRemoved := allocationFlag aRemoved.
Definition IsAllocationDisabled := allocationFlag aDisabled.
Definition GetAllocatedWorkers (db : DB) (job : string) : list string := workersWhere db job (fun _ => true).
Fixpoint activeOf (db : DB) (job : string) (workers : list string) : option (list string) :=
  match workers with
  | [] => Some []
  | ip :: workers =>
      removed ← IsAllocationRemoved db ip job;
      disabled ← IsAllocationDisabled db ip job;
      rest ← activeOf db job workers;
      Some (if IsActiveAllocation removed disabled then ip :: rest else rest)
  end.
Definition GetActiveAllocations (db : DB) (job : string) : option (list string) :=
  activeOf db job (GetAllocatedWorkers db job).

(** The predicates of the queries on the joined hash row. *)
Definition is_new (db : DB) (a : AllocRow) : bool :=
  match allocation_hashes db !! aAllocID a with
  | Some h => bool_decide (applied_hash h = None)
  | None => false
  end.
Definition is_updated (db : DB) (a : AllocRow) : bool :=
  match allocation_hashes db !! aAllocID a with
  | Some h => match applied_hash h, pending_hash h with
              | Some x, Some y => negb (bool_decide (x = y))
              | _, _ => false
              end
  | None => false
  end.
Definition version_pending (db : DB) (a : AllocRow) : bool :=
  negb (bool_decide (default DefaultAllocationVersion (h ← allocation_hashes db !! aAllocID a; applied_version h)
                     = default DefaultAllocationVersion (aVersion a))).
Definition GetNewAllocations (db : DB) (job : string) : list string :=
  workersWhere db job (fun a => isActive a && is_new db a).
Definition GetUpdatedAllocations (db : DB) (job : string) : list string :=
  workersWhere db job (fun a => isActive a && is_updated db a).
Definition GetUpdatedNonRemovedAllocations (db : DB) (job : string) : list string :=
  workersWhere db job (fun a => notRemoved a && is_updated db a).
Definition GetVersionPendingAllocations (db : DB) (job : string) : list string :=
  workersWhere db job (fun a => isActive a && version_pending db a).
Definition GetVersionPendingNonRemovedAllocations (db : DB) (job : string) : list string :=
  workersWhere db job (fun a => notRemoved a && version_pending db a).

(** [None] is the error of a missing row. *)
Definition GetAllocationID (db : DB) (workerIP job : string) : option string :=
  match List.filter (fun a => bool_decide (aJob a = job) && bool_decide (aWorker a = workerIP)) (allocations db) with
  | a :: _ => Some (aAllocID a)
  | [] => None
  end.

(** ** Deploy decisions (deploy/) *)

Definition allocationsNeedingRestart (db : DB) (job : string) (force : bool) : option (list string) :=
  let newAllocations := GetNewAllocations db job in
  if negb force then
    let candidates := Unique (GetUpdatedAllocations db job ++ GetVersionPendingAllocations db job) in
    Some (Difference candidates newAllocations)
  else active ← GetActiveAllocations db job; Some (Difference active newAllocations).

Fixpoint missingHash (db : DB) (job : string) (workers : list string) : option bool :=
  match workers with
  | [] => Some false
  | ip :: workers =>
      id ← GetAllocationID db ip job;
      match allocation_hashes db !! id with
      | None => Some true
      | Some _ => missingHash db job workers
      end
  end.
(** [None] is a database error. *)
Definition JobNeedsRollout (db : DB) (job : string) : option bool :=
  missing ← missingHash db job (GetNonRemovedAllocations db job);
  if missing : bool then Some true
  else if (0 <? length (GetNewAllocations db job))%nat then Some true
  else if (0 <? length (GetUpdatedNonRemovedAllocations db job))%nat then Some true
  else Some (0 <? length (GetVersionPendingNonRemovedAllocations db job))%nat.

Fixpoint forWorkers (f : DB -> string -> DB) (db : DB) (job : string) (workerIPs : list string) : option DB :=
  match workerIPs with
  | [] => Some db
  | ip :: workerIPs =>
      id ← GetAllocationID db ip job;
      forWorkers f (f db id) job workerIPs
  end.
Definition promoteAllocationWorkers (db : DB) (job : string) (workerIPs : list string) : option DB :=
  forWorkers PromoteAllocationState db job workerIPs.
Definition markAllocationWorkersHealthFailed (db : DB) (job : string) (workerIPs : list string) : option DB :=
  forWorkers MarkAllocationHealthFailed db job workerIPs.
Definition promoteAllocationHash (db : DB) (job : string) : option DB :=
  promoteAllocationWorkers db job (GetNonRemovedAllocations db job).
(** [healthy] is the outcome of the health gate after the promotion; the
    result says whether [promoteThenHealth] returned an error. *)
Definition promoteThenHealth (healthy : DB -> bool) (db : DB) (job : string) (batch : list string) : option (DB * bool) :=
  db ← promoteAllocationWorkers db job batch;
  if healthy db then Some (db, true)
  else db ← markAllocationWorkersHealthFailed db job batch; Some (db, false).
