(* ===== verification/AllocStateFacts.v ===== *)
(** * Facts on the planned and applied state of allocations

    What the deploy decisions see after planning, promoting and marking
    (AllocState.v): file manifests and their difference, convergence of a
    promoted job, retry after a failed health gate. *)
From S2P Require Import Prelude GoStrings Utils Versions AllocState.
Open Scope Z_scope.

(** ** Lists *)

Lemma filter_first {A} (p : A -> bool) l a :
  a ∈ l -> p a = true -> (forall b, b ∈ l -> p b = true -> b = a) -> exists r, List.filter p l = a :: r.
Proof.
  induction l as [|b l IH]; intros Ha Hp Hu; [by apply elem_of_nil in Ha|]. cbn.
  destruct (p b) eqn:Eb.
  - rewrite (Hu b); eauto. left.
  - apply elem_of_cons in Ha as [->|Ha]; [congruence|].
    apply IH; eauto. intros c Hc. apply Hu. by right.
Qed.

Lemma NoDup_map_inj {A B} (f : A -> B) l a b :
  NoDup (map f l) -> a ∈ l -> b ∈ l -> f a = f b -> a = b.
Proof.
  induction l as [|x l IH]; cbn; intros Hn Ha Hb Hf; [by apply elem_of_nil in Ha|].
  apply NoDup_cons in Hn as [Hx Hn].
  assert (Hin : forall y, y ∈ l -> f y ∈ map f l) by (intros y Hy; apply list_elem_of_fmap; eauto).
  apply elem_of_cons in Ha as [->|Ha]; apply elem_of_cons in Hb as [->|Hb]; auto.
  - rewrite Hf in Hx. by apply Hin in Hb.
  - rewrite <- Hf in Hx. by apply Hin in Ha.
Qed.

(** ** Differences of file manifests *)

Lemma elem_of_changedPaths p previous current :
  p ∈ changedPaths previous current <-> exists d, current !! p = Some d /\ previous !! p <> Some d.
Proof.
  unfold changedPaths. rewrite list_elem_of_fmap. split.
  - intros ([q d] & -> & H). apply elem_of_list_filter_b in H as [H Hn].
    apply elem_of_map_to_list in H. bool_to_prop. eauto.
  - intros (d & H & Hn). exists (p, d). split; [done|]. apply elem_of_list_filter_b. split.
    + by apply elem_of_map_to_list.
    + apply negb_true_iff, bool_decide_eq_false. done.
Qed.

Lemma elem_of_removedPaths p previous current :
  p ∈ removedPaths previous current <-> current !! p = None /\ is_Some (previous !! p).
Proof.
  unfold removedPaths. rewrite list_elem_of_fmap. split.
  - intros ([q d] & -> & H). apply elem_of_list_filter_b in H as [H Hn].
    apply elem_of_map_to_list in H. bool_to_prop. eauto.
  - intros (Hn & d & H). exists (p, d). split; [done|]. apply elem_of_list_filter_b. split.
    + by apply elem_of_map_to_list.
    + by apply bool_decide_eq_true.
Qed.

Lemma NoDup_fst_filter (p : string * string -> bool) (m : gmap string string) :
  NoDup (List.filter p (map_to_list m)).*1.
Proof.
  apply (NoDup_fmap_fst).
  - intros x y1 y2 H1 H2. apply elem_of_list_filter_b in H1 as [H1 _], H2 as [H2 _].
    apply elem_of_map_to_list in H1, H2. congruence.
  - apply NoDup_filter_b, NoDup_map_to_list.
Qed.

Lemma elem_of_DiffFileManifests p previous current :
  p ∈ DiffFileManifests previous current <-> previous !! p <> current !! p.
Proof.
  unfold DiffFileManifests. cbn zeta. rewrite merge_sort_Permutation, elem_of_app, elem_of_list_filter_b.
  split.
  - intros [(d & H1 & H2)%elem_of_changedPaths|[[H1 [d H2]]%elem_of_removedPaths _]]; congruence.
  - intros H. destruct (current !! p) as [d|] eqn:Ec; [left; apply elem_of_changedPaths; eauto|].
    right. destruct (previous !! p) eqn:Ep; [|congruence]. split; [apply elem_of_removedPaths; eauto|].
    apply negb_true_iff, bool_decide_eq_false. rewrite elem_of_changedPaths.
    intros (d & H1 & _). congruence.
Qed.

Lemma NoDup_DiffFileManifests previous current : NoDup (DiffFileManifests previous current).
Proof.
  unfold DiffFileManifests. cbn zeta. rewrite merge_sort_Permutation. apply NoDup_app. split_and!.
  - apply NoDup_fst_filter.
  - intros p H1 H2. apply elem_of_list_filter_b in H2 as [_ H2].
    apply negb_true_iff, bool_decide_eq_false in H2. done.
  - apply NoDup_filter_b, NoDup_fst_filter.
Qed.

Lemma DiffFileManifests_nil m : DiffFileManifests m m = [].
Proof.
  destruct (DiffFileManifests m m) as [|p l] eqn:Ed; [done|].
  assert (H : p ∈ DiffFileManifests m m) by (rewrite Ed; left).
  by apply elem_of_DiffFileManifests in H.
Qed.

(** The difference of two manifests lists, sorted and without repetition,
    exactly the paths whose digest was added, removed or changed. *)
Theorem DiffFileManifests_spec previous current :
  (forall p, p ∈ DiffFileManifests previous current <-> previous !! p <> current !! p)
  /\ NoDup (DiffFileManifests previous current)
  /\ StronglySorted String.le (DiffFileManifests previous current).
Proof.
  split_and!.
  - intros p. apply elem_of_DiffFileManifests.
  - apply NoDup_DiffFileManifests.
  - unfold DiffFileManifests. apply StronglySorted_merge_sort; apply _.
Qed.

(** ** File rows *)

Lemma filesOf_lookup db id col path :
  filesOf db id col !! path = (r ← allocation_file_hashes db !! (id, path); col r).
Proof.
  unfold filesOf. set (l := omap _ _).
  assert (Hl : forall q h, (q, h) ∈ l <-> exists r, allocation_file_hashes db !! (id, q) = Some r /\ col r = Some h).
  { intros q h. subst l. rewrite list_elem_of_omap. split.
    - intros ([[i q'] r] & H & Hr). apply elem_of_map_to_list in H. cbn in Hr.
      case_bool_decide; [|done]. subst i. destruct (col r) eqn:Ec; cbn in Hr; [|done].
      inversion Hr; subst. eauto.
    - intros (r & H & Hr). exists ((id, q), r). split; [by apply elem_of_map_to_list|]. cbn.
      rewrite bool_decide_eq_true_2 by done. by rewrite Hr. }
  destruct (allocation_file_hashes db !! (id, path)) as [r|] eqn:Er; cbn.
  - destruct (col r) as [h|] eqn:Ec.
    + apply elem_of_list_to_map_1'; [|apply Hl; eauto].
      intros y (r' & Hr' & Hy)%Hl. congruence.
    + apply eq_None_not_Some. intros [h Hh]. apply elem_of_list_to_map_2, Hl in Hh as (r' & ? & ?). congruence.
  - apply eq_None_not_Some. intros [h Hh]. apply elem_of_list_to_map_2, Hl in Hh as (r' & ? & ?). congruence.
Qed.

Lemma upsertPaths_lookup id l : NoDup l.*1 -> forall fs,
  (forall p d, (p, d) ∈ l -> foldl (upsertPath id) fs l !! (id, p) = Some (mkFile (Some d) (r ← fs !! (id, p); f_applied r)))
  /\ (forall k, (k.1 <> id \/ k.2 ∉ l.*1) -> foldl (upsertPath id) fs l !! k = fs !! k).
Proof.
  induction l as [|[p d] l IH]; intros Hn fs; cbn [foldl fmap list_fmap].
  { split; [by intros ? ? ?%elem_of_nil|done]. }
  cbn in Hn. apply NoDup_cons in Hn as [Hp Hn]. destruct (IH Hn (upsertPath id fs (p, d))) as [IH1 IH2].
  assert (Hs : forall k, k <> (id, p) -> upsertPath id fs (p, d) !! k = fs !! k).
  { intros k Hk. cbn. destruct (fs !! (id, p)); by rewrite lookup_insert_ne by congruence. }
  split.
  - intros q e [Heq|Hq]%elem_of_cons.
    + inversion Heq; subst. rewrite IH2 by (by right). cbn.
      destruct (fs !! (id, p)); by rewrite lookup_insert_eq.
    + rewrite (IH1 q e Hq), Hs; [done|]. intros [=]; subst. apply Hp, list_elem_of_fmap. by exists (p, e).
  - intros k Hk. rewrite IH2.
    + apply Hs. intros ->. cbn in Hk. destruct Hk as [Hk|Hk]; [done|]. apply Hk. by left.
    + destruct Hk as [Hk|Hk]; [by left|right]. intros H. apply Hk. by right.
Qed.

Lemma upsertAllocationPendingFiles_lookup db id files p :
  let db' := upsertAllocationPendingFiles db id files in
  filesOf db' id f_pending !! p = files !! p /\ filesOf db' id f_applied !! p = filesOf db id f_applied !! p
  /\ (forall id', id' <> id -> allocation_file_hashes db' !! (id', p) = allocation_file_hashes db !! (id', p)).
Proof.
  intros db'. rewrite !filesOf_lookup. unfold db', upsertAllocationPendingFiles. cbn [allocation_file_hashes setFiles].
  destruct (upsertPaths_lookup id (map_to_list files) (NoDup_fst_map_to_list files) (allocation_file_hashes db)) as [H1 H2].
  split_and!.
  - rewrite map_lookup_imap. unfold dropPath. cbn.
    destruct (files !! p) as [d|] eqn:Ef.
    + rewrite (H1 p d) by (by apply elem_of_map_to_list). cbn. rewrite ?andb_false_r. done.
    + destruct (foldl _ _ _ !! _) as [r|]; cbn; [|done].
      rewrite bool_decide_eq_true_2 by done. cbn. by destruct (f_applied r).
  - rewrite map_lookup_imap. unfold dropPath. cbn.
    destruct (files !! p) as [d|] eqn:Ef.
    + rewrite (H1 p d) by (by apply elem_of_map_to_list). cbn. rewrite ?andb_false_r. done.
    + rewrite H2.
      * destruct (allocation_file_hashes db !! (id, p)) as [r|]; cbn; [|done].
        rewrite bool_decide_eq_true_2 by done. cbn. by destruct r as [? [?|]].
      * right. cbn. intros ([q e] & -> & H)%list_elem_of_fmap. apply elem_of_map_to_list in H. cbn in Ef. congruence.
  - intros id' Hid. rewrite map_lookup_imap, H2 by (by left). unfold dropPath. cbn [fst snd].
    rewrite bool_decide_eq_false_2 by done. cbn [andb]. by destruct (_ !! (id', p)).
Qed.

Lemma updateFiles_lookup db id f id' p :
  allocation_file_hashes (updateFiles db id f) !! (id', p)
  = (r ← allocation_file_hashes db !! (id', p);
     if bool_decide (id' = id) then (if orphan (f r) then None else Some (f r)) else Some r).
Proof.
  unfold updateFiles, setFiles. cbn [allocation_file_hashes]. rewrite map_lookup_imap. cbn.
  destruct (_ !! _) as [r|]; cbn; done.
Qed.

Lemma updateFiles_filesOf db id f col p :
  (forall r, orphan r = true -> col r = None) ->
  filesOf (updateFiles db id f) id col !! p = (r ← allocation_file_hashes db !! (id, p); col (f r)).
Proof.
  intros Hc. rewrite filesOf_lookup, updateFiles_lookup. destruct (_ !! _) as [r|]; cbn; [|done].
  rewrite bool_decide_eq_true_2 by done. destruct (orphan (f r)) eqn:Eo; cbn; [|done]. by rewrite Hc.
Qed.

Lemma PromoteAllocationState_files db id :
  filesOf (PromoteAllocationState db id) id f_pending = filesOf db id f_pending
  /\ filesOf (PromoteAllocationState db id) id f_applied = filesOf db id f_pending.
Proof.
  assert (Hp : forall r, orphan r = true -> f_pending r = None) by (intros [[|] [|]]; done).
  assert (Ha : forall r, orphan r = true -> f_applied r = None) by (intros [[|] [|]]; done).
  unfold PromoteAllocationState. split; apply map_eq; intros p; rewrite updateFiles_filesOf by done;
    by rewrite filesOf_lookup.
Qed.

(** ** Rows *)

(** The keys of the allocations table in the schema. *)
Definition wf_db (db : DB) : Prop :=
  NoDup (map aAllocID (allocations db)) /\ NoDup (map (fun a => (aWorker a, aJob a)) (allocations db)).

Lemma workersWhere_elem db job p ip :
  ip ∈ workersWhere db job p <-> exists a, a ∈ allocations db /\ aWorker a = ip /\ aJob a = job /\ p a = true.
Proof.
  unfold workersWhere. rewrite list_elem_of_fmap. split.
  - intros (a & -> & H). apply elem_of_list_filter_b in H as [Ha H]. bool_to_prop. eauto.
  - intros (a & Ha & <- & Hj & Hp). exists a. split; [done|]. apply elem_of_list_filter_b.
    rewrite Hp, bool_decide_eq_true_2 by done. done.
Qed.

Lemma GetNonRemovedAllocations_elem db job ip :
  ip ∈ GetNonRemovedAllocations db job
  <-> exists a, a ∈ allocations db /\ aWorker a = ip /\ aJob a = job /\ notRemoved a = true.
Proof. unfold GetNonRemovedAllocations. rewrite merge_sort_Permutation. apply workersWhere_elem. Qed.

Lemma workersWhere_empty db job p :
  (forall a, a ∈ allocations db -> aJob a = job -> p a = false) -> workersWhere db job p = [].
Proof.
  intros H. destruct (workersWhere db job p) as [|ip l] eqn:Ew; [done|].
  assert (Hin : ip ∈ workersWhere db job p) by (rewrite Ew; left).
  apply workersWhere_elem in Hin as (a & Ha & _ & Hj & Hp). rewrite H in Hp; done.
Qed.

Lemma active_notRemoved a : isActive a = true -> notRemoved a = true.
Proof. unfold isActive, notRemoved, IsActiveAllocation. intros H. bool_to_prop. by apply Z.eqb_eq. Qed.

Lemma GetAllocationID_row db a : wf_db db -> a ∈ allocations db -> GetAllocationID db (aWorker a) (aJob a) = Some (aAllocID a).
Proof.
  intros [_ Hk] Ha. unfold GetAllocationID.
  destruct (filter_first (fun b => bool_decide (aJob b = aJob a) && bool_decide (aWorker b = aWorker a)) (allocations db) a Ha)
    as [r Hr].
  - by rewrite !bool_decide_eq_true_2.
  - intros b Hb Hp. bool_to_prop. apply (NoDup_map_inj _ _ _ _ Hk Hb Ha). congruence.
  - by rewrite Hr.
Qed.

Lemma GetAllocationID_sound db ip job id :
  GetAllocationID db ip job = Some id ->
  exists a, a ∈ allocations db /\ aWorker a = ip /\ aJob a = job /\ aAllocID a = id.
Proof.
  unfold GetAllocationID. destruct (List.filter _ _) as [|a r] eqn:Ef; [done|]. intros [= <-].
  assert (Ha : a ∈ a :: r) by left. rewrite <- Ef in Ha. apply elem_of_list_filter_b in Ha as [Ha Hp].
  bool_to_prop. eauto.
Qed.

Lemma versionOf_row db a : wf_db db -> a ∈ allocations db -> versionOf db (aAllocID a) = aVersion a.
Proof.
  intros [Hk _] Ha. unfold versionOf.
  destruct (filter_first (fun b => bool_decide (aAllocID b = aAllocID a)) (allocations db) a Ha) as [r Hr].
  - by rewrite bool_decide_eq_true_2.
  - intros b Hb Hp. bool_to_prop. by apply (NoDup_map_inj _ _ _ _ Hk Hb Ha).
  - by rewrite Hr.
Qed.

Lemma allocationFlag_row flag db a :
  wf_db db -> a ∈ allocations db -> allocationFlag flag db (aWorker a) (aJob a) = Some (flag a).
Proof.
  intros [_ Hk] Ha. unfold allocationFlag.
  destruct (filter_first (fun b => bool_decide (aWorker b = aWorker a) && bool_decide (aJob b = aJob a)) (allocations db) a Ha)
    as [r Hr].
  - by rewrite !bool_decide_eq_true_2.
  - intros b Hb Hp. bool_to_prop. apply (NoDup_map_inj _ _ _ _ Hk Hb Ha). congruence.
  - by rewrite Hr.
Qed.

(** The loop over the workers reads back the rows that are active. *)
Lemma GetActiveAllocations_rows db job : wf_db db -> GetActiveAllocations db job = Some (workersWhere db job isActive).
Proof.
  intros Hwf. unfold GetActiveAllocations, GetAllocatedWorkers, workersWhere.
  assert (Hs : forall l, (forall a, a ∈ l -> a ∈ allocations db) ->
    activeOf db job (map aWorker (List.filter (fun a => bool_decide (aJob a = job) && true) l))
    = Some (map aWorker (List.filter (fun a => bool_decide (aJob a = job) && isActive a) l))); [|by apply Hs].
  induction l as [|a l IH]; intros Hl; [done|]. cbn [List.filter].
  assert (Ha : a ∈ allocations db) by (apply Hl; left).
  case_bool_decide as Hj; cbn [andb].
  - cbn [map activeOf]. unfold IsAllocationRemoved, IsAllocationDisabled. rewrite <- Hj, !allocationFlag_row by done.
    rewrite Hj. cbn. rewrite IH by (intros b Hb; apply Hl; by right). cbn. by destruct (isActive a) eqn:Ea; unfold isActive in Ea; rewrite Ea.
  - apply IH. intros b Hb. apply Hl. by right.
Qed.

(** ** Updating the rows of a batch *)

Definition idsOf (db : DB) (job : string) (ips : list string) (id : string) : Prop :=
  exists ip, ip ∈ ips /\ GetAllocationID db ip job = Some id.

Lemma idsOf_dec db job ips id : idsOf db job ips id \/ ~ idsOf db job ips id.
Proof.
  unfold idsOf. destruct (decide (Exists (fun ip => GetAllocationID db ip job = Some id) ips)) as [Hx|Hx];
    rewrite Exists_exists in Hx; auto.
Qed.

Section ForWorkers.
Context (f : DB -> string -> DB) (g : option string -> HashRow -> HashRow).
Context (f_alloc : forall db id, allocations (f db id) = allocations db).
Context (f_hash : forall db id, allocation_hashes (f db id) = alter (g (versionOf db id)) id (allocation_hashes db)).
Context (g_idem : forall v h, g v (g v h) = g v h).

Lemma forWorkers_spec job ips : forall db,
  (forall ip, ip ∈ ips -> is_Some (GetAllocationID db ip job)) ->
  exists db', forWorkers f db job ips = Some db' /\ allocations db' = allocations db
    /\ forall id, (idsOf db job ips id -> allocation_hashes db' !! id = g (versionOf db id) <$> allocation_hashes db !! id)
               /\ (~ idsOf db job ips id -> allocation_hashes db' !! id = allocation_hashes db !! id).
Proof.
  induction ips as [|ip ips IH]; intros db Hid; cbn [forWorkers].
  { exists db. split_and!; [done|done|]. intros id. split; [intros (ip & Hip & _); by apply elem_of_nil in Hip|done]. }
  destruct (Hid ip ltac:(left)) as [i Hi]. rewrite Hi. cbn.
  assert (Hget : forall ip', GetAllocationID (f db i) ip' job = GetAllocationID db ip' job)
    by (intros; unfold GetAllocationID; by rewrite f_alloc).
  assert (Hver : forall id, versionOf (f db i) id = versionOf db id) by (intros; unfold versionOf; by rewrite f_alloc).
  destruct (IH (f db i)) as (db' & Hr & Ha & Hh).
  { intros ip' Hip'. rewrite Hget. apply Hid. by right. }
  assert (Hids : forall id, idsOf (f db i) job ips id <-> idsOf db job ips id)
    by (intros; unfold idsOf; by setoid_rewrite Hget).
  exists db'. split_and!; [done|congruence|]. intros id. destruct (Hh id) as [H1 H2].
  rewrite Hids, Hver, f_hash in H1. rewrite Hids, f_hash in H2.
  pose proof (idsOf_dec db job ips id) as Hdec.
  split.
  - intros (ip' & Hip' & Hg). apply elem_of_cons in Hip' as [->|Hip'].
    + assert (i = id) as -> by congruence.
      destruct Hdec as [Hd|Hd]; [rewrite H1 by done|rewrite H2 by done]; rewrite lookup_alter_eq; [|done].
      destruct (allocation_hashes db !! id); cbn; [by rewrite g_idem|done].
    + rewrite H1 by (exists ip'; done). destruct (decide (i = id)) as [->|Hn].
      * rewrite lookup_alter_eq. destruct (allocation_hashes db !! id); cbn; [by rewrite g_idem|done].
      * by rewrite lookup_alter_ne.
  - intros Hn. rewrite H2.
    + apply lookup_alter_ne. intros ->. apply Hn. exists ip. split; [left|done].
    + intros (ip' & Hip' & Hg). apply Hn. exists ip'. split; [by right|done].
Qed.
End ForWorkers.

Section ForWorkersFiles.
Context (f : DB -> string -> DB) (gf : FileRow -> option FileRow).
Context (f_alloc : forall db id, allocations (f db id) = allocations db).
Context (f_files : forall db id i p, allocation_file_hashes (f db id) !! (i, p)
  = (r ← allocation_file_hashes db !! (i, p); if bool_decide (i = id) then gf r else Some r)).
Context (gf_idem : forall r r', gf r = Some r' -> gf r' = Some r').

Lemma forWorkers_files job ips : forall db db', forWorkers f db job ips = Some db' -> forall i p,
  (idsOf db job ips i -> allocation_file_hashes db' !! (i, p) = (r ← allocation_file_hashes db !! (i, p); gf r))
  /\ (~ idsOf db job ips i -> allocation_file_hashes db' !! (i, p) = allocation_file_hashes db !! (i, p)).
Proof.
  induction ips as [|ip ips IH]; intros db db'; cbn [forWorkers].
  { intros [= <-] i p. split; [intros (ip & Hip & _); by apply elem_of_nil in Hip|done]. }
  destruct (GetAllocationID db ip job) as [j|] eqn:Ej; [|done]. cbn [mbind option_bind]. intros Hr i p.
  destruct (IH _ _ Hr i p) as [H1 H2].
  assert (Hids : idsOf (f db j) job ips i <-> idsOf db job ips i)
    by (unfold idsOf, GetAllocationID; by rewrite f_alloc).
  rewrite Hids, f_files in H1, H2. split.
  - intros (ip' & Hip' & Hg). destruct (idsOf_dec db job ips i) as [Hd|Hd].
    + rewrite H1 by done. destruct (allocation_file_hashes db !! (i, p)) as [r|]; [|done]. cbn [mbind option_bind].
      case_bool_decide; [|done]. destruct (gf r) as [r'|] eqn:Er; [|done]. cbn [mbind option_bind]. by apply gf_idem in Er.
    + rewrite H2 by done. apply elem_of_cons in Hip' as [->|Hip']; [|by destruct Hd; exists ip'].
      assert (j = i) as -> by congruence. by rewrite bool_decide_eq_true_2.
  - intros Hn. rewrite H2 by (intros (ip' & Hip' & Hg); apply Hn; exists ip'; by split; [right|]).
    rewrite bool_decide_eq_false_2; [by destruct (allocation_file_hashes db !! (i, p))|].
    intros ->. apply Hn. exists ip. by split; [left|].
Qed.
End ForWorkersFiles.

(** Every allocation of the job that is not removed has a planned hash. *)
Definition planned (db : DB) (job : string) : Prop :=
  forall a, a ∈ allocations db -> aJob a = job -> notRemoved a = true ->
    exists h d, allocation_hashes db !! aAllocID a = Some h /\ pending_hash h = Some d.

(** Neither promotion nor a failed gate touches the planned hash. *)
Lemma pending_kept (g : option string -> HashRow -> HashRow) db db' job ips :
  (forall v h, pending_hash (g v h) = pending_hash h) ->
  (forall id, (idsOf db job ips id -> allocation_hashes db' !! id = g (versionOf db id) <$> allocation_hashes db !! id)
           /\ (~ idsOf db job ips id -> allocation_hashes db' !! id = allocation_hashes db !! id)) ->
  allocations db' = allocations db -> planned db job -> planned db' job.
Proof.
  intros Hg Hh Ha Hp a Hin Hj Hr. rewrite Ha in Hin. destruct (Hp a Hin Hj Hr) as (h & d & Hl & Hd).
  destruct (Hh (aAllocID a)) as [H1 H2]. destruct (idsOf_dec db job ips (aAllocID a)) as [Hi|Hi].
  - rewrite H1, Hl by done. eexists _, d. split; [done|]. by rewrite Hg.
  - rewrite H2 by done. eauto.
Qed.

Definition promoted (version : option string) (h : HashRow) : HashRow :=
  mkHash (pending_hash h) (pending_hash h) (Some (default DefaultAllocationVersion version)).
Definition failed (_ : option string) (h : HashRow) : HashRow :=
  mkHash (pending_hash h) (Some HealthFailedAppliedHash) (applied_version h).

Definition promoteAllocationWorkers_spec job ips db := forWorkers_spec PromoteAllocationState promoted
  (fun _ _ => eq_refl) (fun _ _ => eq_refl) (fun _ _ => eq_refl) job ips db.
Definition markAllocationWorkersHealthFailed_spec job ips db := forWorkers_spec MarkAllocationHealthFailed failed
  (fun _ _ => eq_refl) (fun _ _ => eq_refl) (fun _ _ => eq_refl) job ips db.

(** The planned digest of a file becomes the applied one; a path that is not
    planned any more goes. *)
Definition promotedFile (r : FileRow) : option FileRow := d ← f_pending r; Some (mkFile (Some d) (Some d)).

Lemma promoteAllocationWorkers_files job ips db db' : promoteAllocationWorkers db job ips = Some db' -> forall i p,
  (idsOf db job ips i -> allocation_file_hashes db' !! (i, p) = (r ← allocation_file_hashes db !! (i, p); promotedFile r))
  /\ (~ idsOf db job ips i -> allocation_file_hashes db' !! (i, p) = allocation_file_hashes db !! (i, p)).
Proof.
  apply forWorkers_files; [done| |by intros [[d|] ?] r' [= <-]].
  intros d id i p. unfold PromoteAllocationState. rewrite updateFiles_lookup. cbn [updateHash allocation_file_hashes].
  destruct (_ !! (i, p)) as [[[x|] y]|]; [done..|done].
Qed.
Lemma markAllocationWorkersHealthFailed_files job ips db db' :
  markAllocationWorkersHealthFailed db job ips = Some db' -> allocation_file_hashes db' = allocation_file_hashes db.
Proof.
  intros H. apply map_eq. intros [i p].
  assert (Hf : forall d id i p, allocation_file_hashes (MarkAllocationHealthFailed d id) !! (i, p)
    = (r ← allocation_file_hashes d !! (i, p); if bool_decide (i = id) then Some r else Some r)).
  { intros d id i' p'. cbn. destruct (allocation_file_hashes d !! (i', p')); cbn; [by case_bool_decide|done]. }
  destruct (forWorkers_files MarkAllocationHealthFailed Some (fun _ _ => eq_refl) Hf (fun _ _ _ => eq_refl) job ips db db' H i p) as [H1 H2].
  destruct (idsOf_dec db job ips i) as [Hd|Hd]; [rewrite H1 by done|by rewrite H2].
  by destruct (allocation_file_hashes db !! (i, p)).
Qed.

Lemma missingHash_spec db job ips :
  (forall ip, ip ∈ ips -> exists id h, GetAllocationID db ip job = Some id /\ allocation_hashes db !! id = Some h) ->
  missingHash db job ips = Some false.
Proof.
  induction ips as [|ip ips IH]; intros H; [done|]. cbn.
  destruct (H ip ltac:(left)) as (id & h & Hi & Hh). rewrite Hi. cbn. rewrite Hh. apply IH. intros. apply H. by right.
Qed.

Lemma JobNeedsRollout_settled db job :
  wf_db db ->
  (forall a, a ∈ allocations db -> aJob a = job -> notRemoved a = true ->
     exists h d, allocation_hashes db !! aAllocID a = Some h /\ pending_hash h = Some d /\ applied_hash h = Some d
       /\ applied_version h = Some (default DefaultAllocationVersion (aVersion a))) ->
  JobNeedsRollout db job = Some false /\ allocationsNeedingRestart db job false = Some [].
Proof.
  intros Hwf H.
  assert (Hn : forall a, a ∈ allocations db -> aJob a = job -> notRemoved a = true ->
    is_new db a = false /\ is_updated db a = false /\ version_pending db a = false).
  { intros a Ha Hj Hr. destruct (H a Ha Hj Hr) as (h & d & Hh & Hp & Hap & Hv).
    unfold is_new, is_updated, version_pending. rewrite Hh, Hp, Hap. cbn. rewrite Hv. cbn.
    by rewrite !bool_decide_eq_true_2. }
  assert (Hw : forall p q, (forall a, p a = true -> notRemoved a = true) ->
    (forall a, a ∈ allocations db -> aJob a = job -> notRemoved a = true -> q a = false) ->
    workersWhere db job (fun a => p a && q a) = []).
  { intros p q Hp Hq. apply workersWhere_empty. intros a Ha Hj. destruct (p a) eqn:E1; cbn; [|done]. apply Hq; auto. }
  unfold JobNeedsRollout. rewrite missingHash_spec.
  2: { intros ip (a & Ha & <- & <- & Hr)%GetNonRemovedAllocations_elem.
       destruct (H a Ha eq_refl Hr) as (h & d & Hh & _). eauto using GetAllocationID_row. }
  unfold allocationsNeedingRestart, GetNewAllocations, GetUpdatedAllocations, GetVersionPendingAllocations,
    GetUpdatedNonRemovedAllocations, GetVersionPendingNonRemovedAllocations.
  rewrite !Hw; try apply active_notRemoved; try done; intros a Ha Hj Hr; apply Hn; done.
Qed.

Lemma planned_ids db job ip : wf_db db -> ip ∈ GetNonRemovedAllocations db job -> is_Some (GetAllocationID db ip job).
Proof. intros Hwf (a & Ha & <- & <- & _)%GetNonRemovedAllocations_elem. rewrite GetAllocationID_row by done. eauto. Qed.

Lemma promote_converges_lemma db job :
  wf_db db -> planned db job ->
  exists db', promoteAllocationHash db job = Some db' /\ JobNeedsRollout db' job = Some false
    /\ allocationsNeedingRestart db' job false = Some [].
Proof.
  intros Hwf Hp. unfold promoteAllocationHash.
  destruct (promoteAllocationWorkers_spec job (GetNonRemovedAllocations db job) db) as (db' & Hr & Ha & Hh).
  { intros ip Hip. by apply planned_ids. }
  exists db'. split; [done|]. apply JobNeedsRollout_settled; [unfold wf_db; by rewrite Ha|].
  rewrite Ha. intros a Hin Hj Hn. destruct (Hp a Hin Hj Hn) as (h & d & Hl & Hd).
  destruct (Hh (aAllocID a)) as [H1 _]. rewrite versionOf_row in H1 by done.
  rewrite H1, Hl.
  - exists (promoted (aVersion a) h), d. cbn. done.
  - exists (aWorker a). split.
    + apply GetNonRemovedAllocations_elem. eauto.
    + subst job. by apply GetAllocationID_row.
Qed.

(** ** The health gate after a batch *)

Lemma idsOf_row db job batch a :
  wf_db db -> a ∈ allocations db -> aJob a = job -> aWorker a ∈ batch -> idsOf db job batch (aAllocID a).
Proof. intros Hwf Ha <- Hb. exists (aWorker a). split; [done|]. by apply GetAllocationID_row. Qed.

Lemma row_unique db job ip a b :
  wf_db db -> a ∈ allocations db -> b ∈ allocations db -> aWorker a = ip -> aWorker b = ip -> aJob a = job -> aJob b = job -> a = b.
Proof. intros [_ Hk] Ha Hb <- Hw <- Hj. apply (NoDup_map_inj _ _ _ _ Hk Ha Hb). congruence. Qed.

(** Which of the active workers a deploy updates. *)
Lemma allocationsNeedingRestart_elem db job a :
  wf_db db -> a ∈ allocations db -> aJob a = job -> isActive a = true ->
  exists l, allocationsNeedingRestart db job false = Some l
    /\ (aWorker a ∈ l <-> is_new db a = false /\ (is_updated db a = true \/ version_pending db a = true)).
Proof.
  intros Hwf Ha Hj Hact. eexists. split; [reflexivity|].
  assert (Hw : forall p, aWorker a ∈ workersWhere db job (fun b => isActive b && p b) <-> p a = true).
  { intros p. rewrite workersWhere_elem. split.
    - intros (b & Hb & Hbw & Hbj & Hp). bool_to_prop. by rewrite (row_unique db job (aWorker a) a b).
    - intros Hp. exists a. by rewrite Hact, Hp. }
  assert (Hd : forall l m, aWorker a ∈ Difference l m <-> aWorker a ∈ l /\ aWorker a ∉ m).
  { intros l m. unfold Difference. destruct l; cbn [length Nat.eqb].
    - rewrite elem_of_nil. tauto.
    - rewrite elem_of_list_filter_b, negb_true_iff, bool_decide_eq_false, elem_of_list_to_set. done. }
  rewrite Hd, elem_of_Unique, elem_of_app. unfold GetUpdatedAllocations, GetVersionPendingAllocations, GetNewAllocations.
  rewrite !Hw. rewrite not_true_iff_false. tauto.
Qed.

Lemma needing_ids db job l ip :
  wf_db db -> allocationsNeedingRestart db job false = Some l -> ip ∈ l -> is_Some (GetAllocationID db ip job).
Proof.
  intros Hwf. unfold allocationsNeedingRestart. cbn [negb]. intros [= <-] Hip.
  assert (Hip' : ip ∈ Unique (GetUpdatedAllocations db job ++ GetVersionPendingAllocations db job)).
  { revert Hip. unfold Difference. case_goal; [by intros ?%elem_of_nil|]. by intros [? _]%elem_of_list_filter_b. }
  apply elem_of_Unique, elem_of_app in Hip' as [H|H]; apply workersWhere_elem in H as (a & Ha & <- & <- & _);
    rewrite GetAllocationID_row by done; eauto.
Qed.

Lemma JobNeedsRollout_updated db job a :
  wf_db db -> planned db job -> a ∈ allocations db -> aJob a = job -> notRemoved a = true -> is_updated db a = true ->
  JobNeedsRollout db job = Some true.
Proof.
  intros Hwf Hp Ha Hj Hr Hu. unfold JobNeedsRollout. rewrite missingHash_spec.
  2: { intros ip (b & Hb & <- & <- & Hbr)%GetNonRemovedAllocations_elem.
       destruct (Hp b Hb Hj Hbr) as (h & d & Hh & _) || destruct (Hp b Hb eq_refl Hbr) as (h & d & Hh & _).
       eauto using GetAllocationID_row. }
  cbn [mbind option_bind]. destruct (GetNewAllocations db job); [|done]. cbn [length Nat.ltb Nat.leb].
  assert (Hin : aWorker a ∈ GetUpdatedNonRemovedAllocations db job).
  { apply workersWhere_elem. exists a. by rewrite Hr, Hu. }
  destruct (GetUpdatedNonRemovedAllocations db job); [by apply elem_of_nil in Hin|done].
Qed.

Definition batch_active (db : DB) (job : string) (batch : list string) : Prop :=
  forall ip, ip ∈ batch -> exists a, a ∈ allocations db /\ aWorker a = ip /\ aJob a = job /\ isActive a = true.

Section Gate.
Context (db : DB) (job : string) (batch : list string).
Context (Hwf : wf_db db) (Hplan : planned db job) (Hbatch : batch_active db job batch).
Context (Hsent : forall id h, allocation_hashes db !! id = Some h -> pending_hash h <> Some HealthFailedAppliedHash).

(** The row of a batch worker, with its hash before the promotion. *)
Lemma batch_row ip : ip ∈ batch ->
  exists a h d, a ∈ allocations db /\ aWorker a = ip /\ aJob a = job /\ isActive a = true /\ idsOf db job batch (aAllocID a)
    /\ allocation_hashes db !! aAllocID a = Some h /\ pending_hash h = Some d /\ d <> HealthFailedAppliedHash.
Proof.
  intros Hip. destruct (Hbatch ip Hip) as (a & Ha & Hw & Hj & Hact).
  destruct (Hplan a Ha Hj (active_notRemoved a Hact)) as (h & d & Hh & Hd).
  exists a, h, d. split_and!; try done.
  - apply idsOf_row; try done. by rewrite Hw.
  - intros ->. by apply (Hsent _ _ Hh).
Qed.

Lemma batch_ids ip : ip ∈ batch -> is_Some (GetAllocationID db ip job).
Proof.
  intros Hip. destruct (Hbatch ip Hip) as (a & Ha & <- & <- & _). rewrite GetAllocationID_row by done. eauto.
Qed.

(** What the batch's rows become. *)
Definition gatedHash (ok : bool) (version : option string) (h : HashRow) : HashRow :=
  if ok then promoted version h else failed version (promoted version h).
Record gated (ok : bool) (db' : DB) : Prop := {
  gt_allocations : allocations db' = allocations db;
  gt_batch : forall id, idsOf db job batch id ->
    allocation_hashes db' !! id = gatedHash ok (versionOf db id) <$> allocation_hashes db !! id /\
    forall path, allocation_file_hashes db' !! (id, path) = (r ← allocation_file_hashes db !! (id, path); promotedFile r);
  gt_other : forall id, ~ idsOf db job batch id ->
    allocation_hashes db' !! id = allocation_hashes db !! id /\
    forall path, allocation_file_hashes db' !! (id, path) = allocation_file_hashes db !! (id, path);
}.

Lemma gate_rows healthy :
  exists db1 db', promoteAllocationWorkers db job batch = Some db1
    /\ promoteThenHealth healthy db job batch = Some (db', healthy db1) /\ gated (healthy db1) db'.
Proof.
  destruct (promoteAllocationWorkers_spec job batch db batch_ids) as (db1 & Hr1 & Ha1 & Hh1).
  pose proof (promoteAllocationWorkers_files _ _ _ _ Hr1) as Hf1.
  unfold promoteThenHealth. replace (promoteAllocationWorkers db job batch) with (Some db1) by (symmetry; exact Hr1).
  cbn [mbind option_bind]. exists db1. destruct (healthy db1).
  - exists db1. split_and!; [done|done|]. split; [done| |]; intros id Hi; split; try intros path; by first [apply Hh1|apply Hf1].
  - destruct (markAllocationWorkersHealthFailed_spec job batch db1) as (db2 & Hr2 & Ha2 & Hh2).
    { intros ip Hip. unfold GetAllocationID. rewrite Ha1. by apply batch_ids. }
    pose proof (markAllocationWorkersHealthFailed_files _ _ _ _ Hr2) as Hf2.
    assert (Hids : forall id, idsOf db1 job batch id <-> idsOf db job batch id)
      by (intros id; unfold idsOf, GetAllocationID; by rewrite Ha1).
    exists db2. replace (markAllocationWorkersHealthFailed db1 job batch) with (Some db2) by (symmetry; exact Hr2).
    split_and!; [done|done|]. split; [congruence| |]; intros id Hi; rewrite ?Hf2; (split; [|intros path; by apply Hf1]).
    + destruct (Hh2 id) as [-> _]; [|by apply Hids]. destruct (Hh1 id) as [-> _]; [|done].
      by destruct (allocation_hashes db !! id).
    + destruct (Hh2 id) as [_ ->]; [|by rewrite Hids]. by apply Hh1.
Qed.

Lemma gated_row ok db' ip : gated ok db' -> ip ∈ batch ->
  exists a h d, a ∈ allocations db' /\ aWorker a = ip /\ aJob a = job /\ isActive a = true
    /\ idsOf db job batch (aAllocID a) /\ wf_db db' /\ d <> HealthFailedAppliedHash
    /\ allocation_hashes db' !! aAllocID a = Some h /\ pending_hash h = Some d
    /\ applied_hash h = Some (if ok then d else HealthFailedAppliedHash)
    /\ applied_version h = Some (default DefaultAllocationVersion (aVersion a)).
Proof.
  intros [Ha Hb _] Hip. destruct (batch_row ip Hip) as (a & h & d & Hin & Hw & Hj & Hact & Hi & Hh & Hd & Hne).
  destruct (Hb _ Hi) as [Hq _]. rewrite Hh, versionOf_row in Hq by done. exists a. eexists. exists d. rewrite Ha.
  split_and!; [done..|unfold wf_db; by rewrite Ha|done|exact Hq|by destruct ok|by destruct ok|by destruct ok].
Qed.

Lemma gated_restart ok db' ip : gated ok db' -> ip ∈ batch ->
  exists l, allocationsNeedingRestart db' job false = Some l /\ (ip ∈ l <-> ok = false).
Proof.
  intros Hg Hip. destruct (gated_row ok db' ip Hg Hip) as (a & h & d & Ha & <- & Hj & Hact & _ & Hwf' & Hne & Hh & Hp & Hap & Hv).
  destruct (allocationsNeedingRestart_elem db' job a) as (l & Hl & He); try done. exists l. split; [done|]. rewrite He.
  unfold is_new, is_updated, version_pending. rewrite Hh. cbn [mbind option_bind]. rewrite Hp, Hap, Hv. cbn [default].
  rewrite (bool_decide_eq_false_2 (Some _ = None)) by done. cbn.
  rewrite (bool_decide_eq_true_2 (default DefaultAllocationVersion (aVersion a) = _)) by done.
  destruct ok; [rewrite bool_decide_eq_true_2 by done; cbn; naive_solver|].
  rewrite bool_decide_eq_false_2 by congruence. cbn. naive_solver.
Qed.

Lemma gated_needs db' : gated false db' -> batch <> [] -> JobNeedsRollout db' job = Some true.
Proof.
  intros Hg Hb. assert (Hex : exists ip, ip ∈ batch) by (destruct batch as [|ip r]; [done|exists ip; left]).
  destruct Hex as [ip Hip]. destruct (gated_row false db' ip Hg Hip) as (a & h & d & Ha & _ & Hj & Hact & _ & Hwf' & Hne & Hh & Hp & Hap & _).
  apply (JobNeedsRollout_updated db' job a); try done; [|by apply active_notRemoved|].
  - intros b Hin Hbj Hr. rewrite (gt_allocations _ _ Hg) in Hin. destruct (Hplan b Hin Hbj Hr) as (hb & db_ & Hhb & Hdb).
    destruct (idsOf_dec db job batch (aAllocID b)) as [Hi|Hi].
    + destruct (gt_batch _ _ Hg _ Hi) as [-> _]. rewrite Hhb. by exists (gatedHash false (versionOf db (aAllocID b)) hb), db_.
    + destruct (gt_other _ _ Hg _ Hi) as [-> _]. eauto.
  - unfold is_updated. rewrite Hh, Hap, Hp. by rewrite bool_decide_eq_false_2 by congruence.
Qed.
End Gate.

(** ** Properties *)

(** Once every allocation of a job has a planned hash, the promotion at the
    end of a deploy succeeds and leaves nothing to do: no allocation is new,
    updated or waiting for its version, and nothing needs a restart. *)
Theorem promote_converges db job :
  wf_db db -> planned db job ->
  exists db', promoteAllocationHash db job = Some db' /\ JobNeedsRollout db' job = Some false
    /\ allocationsNeedingRestart db' job false = Some [].
Proof. apply promote_converges_lemma. Qed.

Definition example_db : DB :=
  mkDB [mkAlloc "a1" "10.0.0.1" "web" 0 0 (Some "1.1.0"); mkAlloc "a2" "10.0.0.2" "web" 0 0 None;
        mkAlloc "a3" "10.0.0.3" "web" 1 0 None]
    {[ "a1" := mkHash (Some "h2") (Some "h1") (Some "1.0.0"); "a2" := mkHash (Some "h2") None (Some "0.0.0");
       "a3" := mkHash (Some "h2") (Some HealthFailedAppliedHash) None ]}
    {[ ("a1", "run.sh") := mkFile (Some "d1") (Some "d1"); ("a1", "conf") := mkFile (Some "d2") (Some "d0") ]}.

Lemma example_db_wf : wf_db example_db.
Proof. split; apply (bool_decide_eq_true_1 _); vm_compute; reflexivity. Qed.
Lemma example_db_planned : planned example_db "web".
Proof.
  intros a Ha Hj Hr. cbn in Ha. rewrite !elem_of_cons, elem_of_nil in Ha.
  destruct Ha as [->|[->|[->|[]]]]; cbn; vm_compute; eauto.
Qed.
Lemma example_db_sent id h : allocation_hashes example_db !! id = Some h -> pending_hash h <> Some HealthFailedAppliedHash.
Proof.
  intros Hl. assert (Hh : map_Forall (fun _ h => pending_hash h <> Some HealthFailedAppliedHash) (allocation_hashes example_db))
    by (apply (bool_decide_eq_true_1 _); vm_compute; reflexivity).
  exact (Hh id h Hl).
Qed.
Lemma example_batch : batch_active example_db "web" ["10.0.0.2"; "10.0.0.1"].
Proof.
  intros ip Hip. rewrite !elem_of_cons, elem_of_nil in Hip. destruct Hip as [->|[->|[]]].
  - exists (mkAlloc "a2" "10.0.0.2" "web" 0 0 None). split_and!; try done. right. left.
  - exists (mkAlloc "a1" "10.0.0.1" "web" 0 0 (Some "1.1.0")). split_and!; try done. left.
Qed.

Lemma promote_converges_witness :
  JobNeedsRollout example_db "web" = Some true
  /\ exists db', promoteAllocationHash example_db "web" = Some db' /\ JobNeedsRollout db' "web" = Some false
       /\ allocationsNeedingRestart db' "web" false = Some [].
Proof.
  split; [vm_compute; reflexivity|].
  apply (promote_converges example_db "web"); [exact example_db_wf|exact example_db_planned].
Defined.

(** Planning with a new hash makes the planned files those of the tree and
    leaves the applied files alone; promotion then makes the applied files
    the planned ones, so their difference is empty. Other allocations keep
    their files. *)
Theorem plan_promote_files db id hash files :
  (forall h, allocation_hashes db !! id = Some h -> default "" (pending_hash h) <> hash) ->
  let db1 := UpdateAllocationPlan db id hash files in
  let db2 := PromoteAllocationState db1 id in
  mPending (GetAllocationFileManifests db1 id) = files
  /\ mApplied (GetAllocationFileManifests db1 id) = mApplied (GetAllocationFileManifests db id)
  /\ mApplied (GetAllocationFileManifests db2 id) = files
  /\ mPending (GetAllocationFileManifests db2 id) = files
  /\ DiffFileManifests (mApplied (GetAllocationFileManifests db2 id)) (mPending (GetAllocationFileManifests db2 id)) = []
  /\ GetAllocationHash db2 id = Some (hash, hash)
  /\ forall id' p, id' <> id -> allocation_file_hashes db2 !! (id', p) = allocation_file_hashes db !! (id', p).
Proof.
  intros Hh db1 db2.
  assert (Hdb1 : exists db0, db1 = upsertAllocationPendingFiles db0 id files /\ allocation_file_hashes db0 = allocation_file_hashes db
    /\ exists h, allocation_hashes db0 !! id = Some h /\ pending_hash h = Some hash).
  { unfold db1, UpdateAllocationPlan. destruct (allocation_hashes db !! id) as [h|] eqn:El.
    - rewrite bool_decide_eq_false_2 by (by apply Hh). eexists. split; [done|]. split; [done|]. cbn.
      rewrite lookup_alter_eq, El. cbn. eauto.
    - eexists. split; [done|]. split; [done|]. cbn. rewrite lookup_insert_eq. eauto. }
  destruct Hdb1 as (db0 & Hd & Hf & h & Hl & Hp).
  set (d1 := upsertAllocationPendingFiles db0 id files) in *. unfold db2. rewrite Hd. clear db2 Hd.
  assert (Hpend : filesOf d1 id f_pending = files) by (apply map_eq; intros p; apply upsertAllocationPendingFiles_lookup).
  assert (Happ : filesOf d1 id f_applied = filesOf db id f_applied).
  { apply map_eq; intros p. destruct (upsertAllocationPendingFiles_lookup db0 id files p) as (_ & Hap & _).
    unfold d1. rewrite Hap, !filesOf_lookup. by rewrite Hf. }
  destruct (PromoteAllocationState_files d1 id) as [HP HA].
  unfold GetAllocationFileManifests. cbn [mPending mApplied]. rewrite HP, HA, Hpend.
  split_and!; try done.
  - apply DiffFileManifests_nil.
  - unfold GetAllocationHash. cbn. rewrite lookup_alter_eq, Hl. cbn. by rewrite Hp.
  - intros id' p Hne. unfold PromoteAllocationState. rewrite updateFiles_lookup, bool_decide_eq_false_2 by done. cbn.
    destruct (upsertAllocationPendingFiles_lookup db0 id files p) as (_ & _ & Hu).
    change (allocation_file_hashes d1 !! (id', p)) with (allocation_file_hashes (upsertAllocationPendingFiles db0 id files) !! (id', p)).
    rewrite Hu, Hf by done. by destruct (_ !! (id', p)).
Qed.

Lemma plan_promote_files_witness :
  let files : FileManifest := {[ "run.sh" := "d9" ]} in
  let db1 := UpdateAllocationPlan example_db "a1" "h3" files in
  let db2 := PromoteAllocationState db1 "a1" in
  mPending (GetAllocationFileManifests db1 "a1") = files
  /\ mApplied (GetAllocationFileManifests db1 "a1") = mApplied (GetAllocationFileManifests example_db "a1")
  /\ mApplied (GetAllocationFileManifests db2 "a1") = files
  /\ mPending (GetAllocationFileManifests db2 "a1") = files
  /\ DiffFileManifests (mApplied (GetAllocationFileManifests db2 "a1")) (mPending (GetAllocationFileManifests db2 "a1")) = []
  /\ GetAllocationHash db2 "a1" = Some ("h3", "h3")
  /\ forall id' p, id' <> "a1" -> allocation_file_hashes db2 !! (id', p) = allocation_file_hashes example_db !! (id', p).
Proof.
  apply (plan_promote_files example_db "a1" "h3"). intros h Hl.
  vm_compute in Hl. inversion Hl; subst. done.
Defined.
