(* ===== verification/RuntimeAPI.v ===== *)
(** * hooks: the runtime API

    hooks/runtime_auth.go, runtime_handlers.go, runtime_http.go,
    runtime_http_handlers.go, runtime_semaphore_handlers.go and api_errors.go,
    with the namespaces of data/bucket_meta.go. The handlers that touch the
    store run one at a time under the gate, so each is a function on the store
    and the semaphores. A request carries its decoded body; its headers are a
    function, the empty string for one that is missing. *)
From S2P Require Import Prelude GoStrings Utils Kv AllocState Semaphore.
Open Scope Z_scope.

(** ** Namespaces (bucket_meta.go) *)

Definition BucketKVNamespace : string := "kive/bucket".
Definition AllowedKVNamespaces (job workerIP : string) : list string :=
  [ BucketKVNamespace; "vars/bucket"; "kive/worker"; "kive/worker/" +:+ workerIP; "kive/worker/" +:+ workerIP +:+ "/tags";
    "kive/job/" +:+ job; "vars/bucket/job/" +:+ job; "vars/job/" +:+ job; "secrets/job/" +:+ job;
    "kive/job/" +:+ job +:+ "/worker/" +:+ workerIP; "kive/prometheus" ]%string.
(** A row of the hooks table; the SQL [trim] removes spaces only. *)
Record DemandRow := mkDemandRow { dmJob : string; dmHook : string; dmDemandJob : string; dmDemandHook : string; dmConfig : string }.
Definition sqlBlank (s : string) : bool := forallb (fun r => r =? 32) (bytes s).
Definition upstreamNamespaces (upstreamJob : string) : list string :=
  ["kive/job/" +:+ upstreamJob; "vars/job/" +:+ upstreamJob; "secrets/job/" +:+ upstreamJob]%string.
Definition upstreamJobs (hooks : list DemandRow) (job : string) : list string :=
  remove_dups (map dmDemandJob (List.filter (fun h => bool_decide (dmJob h = job) && negb (sqlBlank (dmDemandJob h))) hooks)).
Definition UpstreamDemandKVNamespaces (hooks : list DemandRow) (job : string) : list string :=
  flat_map upstreamNamespaces (upstreamJobs hooks job).
Definition AllowedKVNamespacesWithUpstream (hooks : list DemandRow) (job workerIP : string) : list string :=
  AllowedKVNamespaces job workerIP ++ UpstreamDemandKVNamespaces hooks job.
Definition BuildScrapeTemplateNamespaces (hooks : list DemandRow) (job : string) : list string :=
  Unique ([ BucketKVNamespace; "vars/bucket"; "kive/job/" +:+ job; "vars/bucket/job/" +:+ job; "vars/job/" +:+ job; "secrets/job/" +:+ job ]%string
          ++ UpstreamDemandKVNamespaces hooks job).
Definition AccessibleKVNamespacesForJob (db : DB) (hooks : list DemandRow) (job : string) : list string :=
  Unique (flat_map (AllowedKVNamespacesWithUpstream hooks job) (GetNonRemovedAllocations db job)).

(** ** Requests and answers *)

Record storeKeyPayload := mkPayload { plNamespace : string; plKey : string; plValue : string; plTTL : Z }.
Record acquirePayload := mkAcquire { aqName : string; aqCapacity : Z; aqTimeout : Z }.
Record httpProxyRequest := mkProxyRequest {
  pxMethod : string;
  pxURL : string;
  pxHeaders : list (string * string);
  pxBody : string;
  pxTimeout : Z;
  pxCA : string;
  pxServerName : string;
  InsecureSkipVerify : bool;
}.
(** The last one only where the body has a limit. *)
Inductive decode_error := EmptyBody | InvalidJSON | BodyTooLarge.
Record request := mkRequest {
  Method : string;
  Path : string;
  Header : string -> string;
  QueryName : string;
  KeyBody : result decode_error storeKeyPayload;
  AcquireBody : result decode_error acquirePayload;
  ReleaseBody : result decode_error string;
  ProxyBody : result decode_error httpProxyRequest;
}.
Definition HeaderAllocationID : string := "X-ALLOCATION-ID".
Definition HeaderHookAPIToken : string := "X-HOOK-API-TOKEN".
Definition HeaderHookEvent : string := "EVENT".
Definition HeaderHookName : string := "HOOK".

Inductive reply :=
| ErrorReply (message : string) (code : Z)
| Status (code : Z)
| KeyReply (namespace key value : string)
| KeysReply (namespaces : list (string * list string))
| DemandsReply (demands : list (string * string * string))
| AcquiredReply (name allocationID : string) (cap : Z)
| ProxyReply (status : Z) (headers : list (string * list string)) (body : string) (truncated : bool)
| ProxyFailed (text : string)
| SemaphoreReply (name : string) (cap : Z) (holding : gset string) (waiting available : Z).

Definition StatusOK : Z := 200.
Definition StatusMethodNotAllowed : reply := Status 405.
Definition missingAllocation := ErrorReply "X-ALLOCATION-ID header is missing" 400.
Definition unknownAllocation := ErrorReply "Invalid allocation ID" 404.
Definition emptyBody := ErrorReply "Failed to read request body" 400.
Definition invalidJSON := ErrorReply "Invalid JSON format" 400.
Definition missingKeyFields := ErrorReply "Both namespace and key are required" 400.
Definition invalidTTL := ErrorReply "ttl must be a non-negative integer (seconds)" 400.
Definition namespaceDenied := ErrorReply "Invalid or unauthorized namespace" 400.
Definition storeKeyNotFound := ErrorReply "KV get operation failed" 404.
Definition writeDuringHealth := ErrorReply "KV writes are not allowed during liveness or readiness" 400.
Definition semaphoreTimeout := ErrorReply "Timed out waiting for semaphore" 408.
Definition semaphoreConflict := ErrorReply "Semaphore acquire or release failed" 409.
Definition missingHookHeaders := ErrorReply "EVENT and HOOK headers are required" 400.
Definition internalError := ErrorReply "Internal server error" 500.
Definition decodeError (e : decode_error) : reply := match e with EmptyBody => emptyBody | _ => invalidJSON end.

(** ** Authorization (runtime_auth.go) *)

Section api.
Context `{Unicode} `{Crypto}.

Definition bearer : string := "Bearer ".
Definition requestRuntimeAPIToken (r : request) : string :=
  let auth := Header r "Authorization" in
  if (String.length bearer <=? String.length auth)%nat && EqualFold (stake (String.length bearer) auth) bearer
  then TrimSpace (sdrop (String.length bearer) auth)
  else TrimSpace (Header r HeaderHookAPIToken).
(** The comparison in constant time is one on the bytes. *)
Definition runtimeAPIAuthorized (r : request) (want : string) : bool :=
  let got := requestRuntimeAPIToken r in
  if String.eqb got "" || String.eqb want "" then false
  else if negb (String.length got =? String.length want)%nat then false
  else String.eqb got want.

(** The stack of sessions: token and port. *)
Definition pushActiveRuntimeAPI (sessions : list (string * Z)) (token : string) (port : Z) : list (string * Z) := sessions ++ [(token, port)].
(** The last session with this token and port is removed. *)
Fixpoint removeFirst (x : string * Z) (l : list (string * Z)) : list (string * Z) :=
  match l with
  | [] => []
  | y :: l => if bool_decide (x = y) then l else y :: removeFirst x l
  end.
Definition popActiveRuntimeAPI (sessions : list (string * Z)) (token : string) (port : Z) : list (string * Z) :=
  reverse (removeFirst (token, port) (reverse sessions)).
Definition ActiveRuntimeAPIToken (sessions : list (string * Z)) : string := match last sessions with Some s => s.1 | None => "" end.
Definition ActiveRuntimeAPIPort (sessions : list (string * Z)) : Z := match last sessions with Some s => s.2 | None => 0 end.

(** ** Validation (runtime_http.go) *)

Variable db : DB.
Variable hooks : list DemandRow.
(** The outcome of [loadEncryptionKey]. *)
Variable kvKey : option string.

Definition isHealthProbeEvent (event : string) : bool := mem event ["liveness"; "readiness"]%string.
Definition deployOrderWriteEvents : list string := ["pre_deploy"; "cli"].
Definition validateKVPayloadTTL (p : storeKeyPayload) : option reply := if plTTL p <? 0 then Some invalidTTL else None.
Definition validateStoreKeyWrite (p : storeKeyPayload) (jobName event : string) : option reply :=
  if String.eqb (plNamespace p) ("vars/job/" +:+ jobName) then None
  else if String.eqb (plNamespace p) (JobCatalogNamespace jobName) && String.eqb (plKey p) RolloutOrderKey then
    if mem event deployOrderWriteEvents then None else Some namespaceDenied
  else Some namespaceDenied.
Definition validateReadNamespace (namespace jobName workerIP : string) : option reply :=
  if (length (Intersection (AllowedKVNamespacesWithUpstream hooks jobName workerIP) [namespace]) =? 0)%nat
  then Some namespaceDenied else None.
Definition validateStoreKeyPayload (p : storeKeyPayload) (jobName workerIP event : string) (isWrite : bool) : option reply :=
  if String.eqb (plNamespace p) "" || String.eqb (plKey p) "" || (isWrite && String.eqb (plValue p) "") then Some missingKeyFields
  else if isWrite then
    match validateKVPayloadTTL p with Some e => Some e | None => validateStoreKeyWrite p jobName event end
  else validateReadNamespace (plNamespace p) jobName workerIP.
Definition validateSecretNamespace (namespace jobName workerIP : string) : option reply :=
  if negb (String.eqb namespace (SecretJobNamespace jobName)) then Some namespaceDenied
  else if (length (Intersection (AllowedKVNamespaces jobName workerIP) [namespace]) =? 0)%nat then Some namespaceDenied else None.
Definition validateStoreSecretKeyPayload (p : storeKeyPayload) (jobName workerIP : string) : option reply :=
  if String.eqb (plNamespace p) "" || String.eqb (plKey p) "" then Some missingKeyFields
  else validateSecretNamespace (plNamespace p) jobName workerIP.
Definition validateStoreSecretPayload (p : storeKeyPayload) (jobName workerIP : string) : option reply :=
  if String.eqb (plNamespace p) "" || String.eqb (plKey p) "" || String.eqb (plValue p) "" then Some missingKeyFields
  else match validateKVPayloadTTL p with Some e => Some e | None => validateSecretNamespace (plNamespace p) jobName workerIP end.
Definition isJobLevelListNamespace (namespace jobName : string) : bool :=
  String.eqb namespace ("vars/job/" +:+ jobName) || String.eqb namespace (SecretJobNamespace jobName).
Definition jobLevelKVNamespaces (jobName : string) : list string := ["vars/job/" +:+ jobName; SecretJobNamespace jobName].

(** ** The store (runtime_handlers.go) *)

(** The job and the worker of the allocation that the request names. *)
Definition resolveAllocation (r : request) : result reply (string * string) :=
  let allocationID := Header r HeaderAllocationID in
  if String.eqb allocationID "" then Err missingAllocation
  else match head (List.filter (fun a => bool_decide (aAllocID a = allocationID)) (allocations db)) with
       | None => Err unknownAllocation
       | Some a => Ok (aJob a, aWorker a)
       end.
Definition decoded {A} (body : result decode_error A) : result reply A :=
  match body with Ok p => Ok p | Err e => Err (decodeError e) end.
(** An answer at once, without a change. *)
Definition orReply {A} (x : result reply A) (s : Store) (k : A -> Store * reply) : Store * reply :=
  match x with Err e => (s, e) | Ok a => k a end.
Definition guard (e : option reply) (s : Store) (k : Store * reply) : Store * reply := match e with Some e => (s, e) | None => k end.

Definition handleStoreKeyGet (s : Store) (r : request) : Store * reply :=
  orReply (resolveAllocation r) s (fun '(jobName, workerIP) =>
  orReply (decoded (KeyBody r)) s (fun p =>
  guard (validateStoreKeyPayload p jobName workerIP (Header r HeaderHookEvent) false) s
    (match Get s (plNamespace p) (plKey p) with
     | Err _ => (s, storeKeyNotFound)
     | Ok item =>
         if IsSecretNamespace (plNamespace p) then
           match DecryptStoredValue kvKey (EValue item) with
           | Err _ => (s, internalError)
           | Ok plaintext => (s, KeyReply (plNamespace p) (plKey p) plaintext)
           end
         else (s, KeyReply (plNamespace p) (plKey p) (EValue item))
     end))).
Definition handleStoreKeyPut (s : Store) (r : request) : Store * reply :=
  orReply (resolveAllocation r) s (fun '(jobName, workerIP) =>
  orReply (decoded (KeyBody r)) s (fun p =>
  guard (validateStoreKeyPayload p jobName workerIP (Header r HeaderHookEvent) true) s
    (if IsSecretNamespace (plNamespace p) then (s, namespaceDenied)
     else if isHealthProbeEvent (Header r HeaderHookEvent) then (s, writeDuringHealth)
     else (Put s (plNamespace p) (plKey p) (plValue p) (plTTL p), Status StatusOK)))).
Definition deleteKey (s : Store) (p : storeKeyPayload) : Store * reply :=
  match Delete s (plNamespace p) (plKey p) with
  | Ok s => (s, Status StatusOK)
  | Err ErrNotFound => (s, storeKeyNotFound)
  | Err _ => (s, internalError)
  end.
Definition handleStoreKeyDelete (s : Store) (r : request) : Store * reply :=
  orReply (resolveAllocation r) s (fun '(jobName, workerIP) =>
  orReply (decoded (KeyBody r)) s (fun p =>
    if String.eqb (plNamespace p) "" || String.eqb (plKey p) "" then (s, missingKeyFields)
    else if IsSecretNamespace (plNamespace p) then (s, namespaceDenied)
    else if negb (String.eqb (plNamespace p) ("vars/job/" +:+ jobName)) then (s, namespaceDenied)
    else guard (validateReadNamespace (plNamespace p) jobName workerIP) s
           (if isHealthProbeEvent (Header r HeaderHookEvent) then (s, writeDuringHealth) else deleteKey s p))).
Definition handleStoreKeysList (s : Store) (r : request) : Store * reply :=
  orReply (resolveAllocation r) s (fun '(jobName, workerIP) =>
  orReply (decoded (KeyBody r)) s (fun p =>
    let list namespaces := (s, KeysReply (map (fun ns => (ns, GetKeys s ns)) namespaces)) in
    if String.eqb (plNamespace p) "" then list (jobLevelKVNamespaces jobName)
    else if negb (isJobLevelListNamespace (plNamespace p) jobName) then (s, namespaceDenied)
    else guard (validateReadNamespace (plNamespace p) jobName workerIP) s (list [plNamespace p]))).
(** [nonce] is what the random source gives. *)
Definition handleStoreSecretPut (nonce : string) (s : Store) (r : request) : Store * reply :=
  orReply (resolveAllocation r) s (fun '(jobName, workerIP) =>
  orReply (decoded (KeyBody r)) s (fun p =>
  guard (validateStoreSecretPayload p jobName workerIP) s
    (if isHealthProbeEvent (Header r HeaderHookEvent) then (s, writeDuringHealth)
     else match PutSecret s kvKey nonce (plNamespace p) (plKey p) (plValue p) (plTTL p) with
          | Err _ => (s, internalError)
          | Ok s => (s, Status StatusOK)
          end))).
Definition handleStoreSecretDelete (s : Store) (r : request) : Store * reply :=
  orReply (resolveAllocation r) s (fun '(jobName, workerIP) =>
  orReply (decoded (KeyBody r)) s (fun p =>
  guard (validateStoreSecretKeyPayload p jobName workerIP) s
    (if isHealthProbeEvent (Header r HeaderHookEvent) then (s, writeDuringHealth) else deleteKey s p))).
Definition handleCommandDemandsGet (s : Store) (r : request) : Store * reply :=
  orReply (resolveAllocation r) s (fun '(jobName, _) =>
    (s, DemandsReply (map (fun h => (dmJob h, dmHook h, dmConfig h))
          (List.filter (fun h => bool_decide (dmDemandJob h = jobName) && bool_decide (dmDemandHook h = Header r HeaderHookName)) hooks)))).

(** ** Semaphores (runtime_semaphore_handlers.go) *)

Record ApiState := mkApi { apiStore : Store; apiSems : Semaphore.world }.
(** [id] identifies the request; [None] waits for the semaphore. *)
Definition acquireReply (sems : Semaphore.world) (scopeKey name allocationID : string) (id : nat) : option reply :=
  match requests sems !! id with
  | Some (Returned None) =>
      Some (AcquiredReply name allocationID (match status (semaphores sems) scopeKey with Some (cap, _, _, _) => cap | None => 0 end))
  | Some (Returned (Some ContextDone)) => Some semaphoreTimeout
  | Some (Returned (Some _)) => Some semaphoreConflict
  | _ => None
  end.
Definition serveSemaphoreAcquire (id : nat) (sems : Semaphore.world) (r : request) : Semaphore.world * option reply :=
  if negb (String.eqb (Method r) "POST") then (sems, Some StatusMethodNotAllowed)
  else
    match resolveAllocation r, decoded (AcquireBody r) with
    | Err e, _ => (sems, Some e)
    | Ok _, Err e => (sems, Some e)
    | Ok (jobName, _), Ok p =>
        if String.eqb (aqName p) "" then (sems, Some missingKeyFields)
        else
          let scopeKey := semaphoreScopeKey jobName (Header r HeaderHookEvent) (aqName p) in
          let sems := acquireStart sems id scopeKey (Header r HeaderAllocationID) (aqCapacity p) in
          (sems, acquireReply sems scopeKey (aqName p) (Header r HeaderAllocationID) id)
    end.
Definition serveSemaphoreRelease (sems : Semaphore.world) (r : request) : Semaphore.world * reply :=
  if negb (String.eqb (Method r) "POST") then (sems, StatusMethodNotAllowed)
  else
    match resolveAllocation r, decoded (ReleaseBody r) with
    | Err e, _ => (sems, e)
    | Ok _, Err e => (sems, e)
    | Ok (jobName, _), Ok name =>
        if String.eqb name "" then (sems, missingKeyFields)
        else
          let scopeKey := semaphoreScopeKey jobName (Header r HeaderHookEvent) name in
          match (release (semaphores sems) scopeKey (Header r HeaderAllocationID)).2 with
          | Some _ => (sems, semaphoreConflict)
          | None => (releaseStep sems scopeKey (Header r HeaderAllocationID), Status StatusOK)
          end
    end.
Definition serveSemaphoreStatus (sems : Semaphore.world) (r : request) : reply :=
  if negb (String.eqb (Method r) "GET") then StatusMethodNotAllowed
  else
    match resolveAllocation r with
    | Err e => e
    | Ok (jobName, _) =>
        if String.eqb (QueryName r) "" then missingKeyFields
        else
          match status (semaphores sems) (semaphoreScopeKey jobName (Header r HeaderHookEvent) (QueryName r)) with
          | Some (cap, held, waiting, available) => SemaphoreReply (QueryName r) cap held waiting available
          | None => SemaphoreReply (QueryName r) defaultSemaphoreCapacity ∅ 0 defaultSemaphoreCapacity
          end
    end.

(** ** The HTTP proxy (runtime_http_handlers.go) *)

Definition httpProxyDefaultTimeoutSeconds : Z := 30.
Definition httpProxyMaxTimeoutSeconds : Z := 120.
Definition httpProxyMaxRequestBodyBytes : Z := 1048576.
Definition httpProxyMaxResponseBodyBytes : Z := 4194304.
Definition httpProxyMaxRedirects : Z := 5.
Definition httpProxyAllowedMethods : list string := ["GET"; "HEAD"; "POST"; "PUT"; "PATCH"; "DELETE"].
Definition httpProxyHopByHopHeaders : list string :=
  ["connection"; "keep-alive"; "proxy-authenticate"; "proxy-authorization"; "te"; "trailer"; "transfer-encoding"; "upgrade"; "proxy-connection"].
Definition WorkerCATrustKVKey : string := "certs/ca-trust.crt".

(** [url.Parse] of a text, [net.ParseIP] and [AppendCertsFromPEM] of one. *)
Record URL := mkURL { Scheme : string; Hostname : string }.
Variable urlParse : string -> option URL.
Variable isIP validPEM : string -> bool.
(** What the host sends back for a request with its headers: an error, or the
    redirects it asked for, one after the other, and the last answer. *)
Variable exchange : httpProxyRequest -> list (string * string) -> Z -> string + (list URL * (Z * list (string * list string) * string)).

Definition isHTTPProxyHopByHopHeader (name : string) : bool := mem (ToLower name) httpProxyHopByHopHeaders.
Definition httpProxyHostAllowed (host workerIP : string) : bool :=
  let host := TrimSpace host in
  let workerIP := TrimSpace workerIP in
  if String.eqb host "" || String.eqb workerIP "" then false
  else if negb (String.eqb host workerIP) then false else isIP host.
Definition validateHTTPProxyDestination (u : URL) (workerIP : string) : option string :=
  if negb (mem (ToLower (Scheme u)) ["http"; "https"]%string) then Some "url scheme must be http or https"%string
  else if String.eqb (Hostname u) "" then Some "url host is required"%string
  else if negb (httpProxyHostAllowed (Hostname u) workerIP) then Some "url host must be the allocation worker IP"%string else None.
(** [strings.ToUpper] of a method that is compared with ASCII ones: the
    argument, as package strings gives it. *)
Variable ToUpper : string -> string.
Definition validateHTTPProxyRequest (p : httpProxyRequest) (workerIP : string) : result string (httpProxyRequest * URL) :=
  let method := ToUpper (TrimSpace (pxMethod p)) in
  if String.eqb method "" then Err "method is required"%string
  else if negb (mem method httpProxyAllowedMethods) then Err ("method " +:+ method +:+ " is not allowed")
  else if String.eqb (TrimSpace (pxURL p)) "" then Err "url is required"%string
  else if Z.of_nat (String.length (pxBody p)) >? httpProxyMaxRequestBodyBytes then Err "request body too large"%string
  else if pxTimeout p <? 0 then Err "timeout_seconds must be non-negative"%string
  else if pxTimeout p >? httpProxyMaxTimeoutSeconds then Err ("timeout_seconds must be <= " +:+ Itoa httpProxyMaxTimeoutSeconds)
  else
    match urlParse (pxURL p) with
    | None => Err "invalid url"%string
    | Some u =>
        match validateHTTPProxyDestination u workerIP with
        | Some e => Err e
        | None => Ok (mkProxyRequest method (pxURL p) (pxHeaders p) (pxBody p) (pxTimeout p) (pxCA p) (pxServerName p) (InsecureSkipVerify p), u)
        end
    end.
Definition loadWorkerCATrustPEM (s : Store) : string :=
  match Get s "kive/worker" WorkerCATrustKVKey with Ok item => EValue item | Err _ => "" end.
Definition dquote : ascii := ascii_of_nat 34.
(** The trust of the client: none, or the error. *)
Definition newHTTPProxyClient (s : Store) (p : httpProxyRequest) : option string :=
  if InsecureSkipVerify p then None
  else
    let caMode := TrimSpace (pxCA p) in
    if String.eqb caMode "" || String.eqb caMode "bucket" then
      let pem := loadWorkerCATrustPEM s in
      if String.eqb pem "" || validPEM pem then None else Some "bucket CA contains no valid certificates"%string
    else Some ("tls.ca must be " +:+ String dquote "bucket" +:+ String dquote " or omitted").
(** [CheckRedirect]: [via] are the requests made so far. *)
Definition checkRedirect (via : list URL) (u : URL) (workerIP : string) : option string :=
  if httpProxyMaxRedirects <=? len via then Some ("stopped after " +:+ Itoa httpProxyMaxRedirects +:+ " redirects")
  else validateHTTPProxyDestination u workerIP.
(** The client follows the redirects that [checkRedirect] lets it: what it
    asked, and the error that stopped it. *)
Fixpoint followRedirects (via : list URL) (targets : list URL) (workerIP : string) : list URL * option string :=
  match targets with
  | [] => (via, None)
  | u :: targets =>
      match checkRedirect via u workerIP with
      | Some e => (via, Some e)
      | None => followRedirects (via ++ [u]) targets workerIP
      end
  end.
Definition proxyTimeout (p : httpProxyRequest) : Z := if pxTimeout p <=? 0 then httpProxyDefaultTimeoutSeconds else pxTimeout p.
Definition truncateBody (raw : string) : string * bool :=
  if Z.of_nat (String.length raw) >? httpProxyMaxResponseBodyBytes
  then (stake (Z.to_nat httpProxyMaxResponseBodyBytes) raw, true) else (raw, false).
Definition proxyExchange (p : httpProxyRequest) (u : URL) (workerIP : string) : list URL * reply :=
  let headers := List.filter (fun h => negb (isHTTPProxyHopByHopHeader h.1)) (pxHeaders p) in
  match exchange p headers (proxyTimeout p) with
  | inl e => ([u], ProxyFailed e)
  | inr (targets, (status, answer, raw)) =>
      match followRedirects [u] targets workerIP with
      | (asked, Some e) => (asked, ProxyFailed e)
      | (asked, None) =>
          let '(body, truncated) := truncateBody raw in
          (asked, ProxyReply status (List.filter (fun h => negb (isHTTPProxyHopByHopHeader h.1)) answer) body truncated)
      end
  end.
(** The requests sent and the answer. *)
Definition serveHTTPProxy (s : Store) (r : request) : list URL * reply :=
  if negb (String.eqb (Method r) "POST") then ([], StatusMethodNotAllowed)
  else if String.eqb (TrimSpace (Header r HeaderHookEvent)) "" || String.eqb (TrimSpace (Header r HeaderHookName)) "" then ([], missingHookHeaders)
  else
    match resolveAllocation r with
    | Err e => ([], e)
    | Ok (_, workerIP) =>
        match ProxyBody r with
        | Err BodyTooLarge => ([], ErrorReply "request body too large" 400)
        | Err e => ([], decodeError e)
        | Ok p =>
            match validateHTTPProxyRequest p workerIP with
            | Err e => ([], ErrorReply e 400)
            | Ok (p, u) =>
                match newHTTPProxyClient s p with
                | Some e => ([], ProxyFailed e)
                | None => proxyExchange p u workerIP
                end
            end
        end
    end.

(** ** Routes *)

Definition serveStoreKeys (s : Store) (r : request) : Store * reply :=
  if String.eqb (Method r) "GET" then handleStoreKeyGet s r
  else if String.eqb (Method r) "PUT" then handleStoreKeyPut s r
  else if String.eqb (Method r) "DELETE" then handleStoreKeyDelete s r
  else (s, StatusMethodNotAllowed).
Definition serveStoreKeysList (s : Store) (r : request) : Store * reply :=
  if negb (String.eqb (Method r) "GET") then (s, StatusMethodNotAllowed) else handleStoreKeysList s r.
Definition serveStoreSecret (nonce : string) (s : Store) (r : request) : Store * reply :=
  if String.eqb (Method r) "PUT" then handleStoreSecretPut nonce s r
  else if String.eqb (Method r) "DELETE" then handleStoreSecretDelete s r
  else (s, StatusMethodNotAllowed).
Definition serveCommandDemands (s : Store) (r : request) : Store * reply :=
  if negb (String.eqb (Method r) "GET") then (s, StatusMethodNotAllowed) else handleCommandDemandsGet s r.

Definition onStore (st : ApiState) (x : Store * reply) : ApiState * option reply := (mkApi x.1 (apiSems st), Some x.2).
(** The mux. *)
Definition route (id : nat) (nonce : string) (st : ApiState) (r : request) : ApiState * option reply :=
  if String.eqb (Path r) "/kv" then onStore st (serveStoreKeys (apiStore st) r)
  else if String.eqb (Path r) "/kv/keys" then onStore st (serveStoreKeysList (apiStore st) r)
  else if String.eqb (Path r) "/kv/secret" then onStore st (serveStoreSecret nonce (apiStore st) r)
  else if String.eqb (Path r) "/demands" then onStore st (serveCommandDemands (apiStore st) r)
  else if String.eqb (Path r) "/semaphore/acquire" then
    let '(sems, x) := serveSemaphoreAcquire id (apiSems st) r in (mkApi (apiStore st) sems, x)
  else if String.eqb (Path r) "/semaphore/release" then
    let '(sems, x) := serveSemaphoreRelease (apiSems st) r in (mkApi (apiStore st) sems, Some x)
  else if String.eqb (Path r) "/semaphore/status" then (st, Some (serveSemaphoreStatus (apiSems st) r))
  else if String.eqb (Path r) "/http" then (st, Some (serveHTTPProxy (apiStore st) r).2)
  else (st, Some (Status 404)).
Definition serve (token : string) (id : nat) (nonce : string) (st : ApiState) (r : request) : ApiState * option reply :=
  if runtimeAPIAuthorized r token then route id nonce st r else (st, Some (ErrorReply "unauthorized" 401)).
End api.
