(* ===== verification/RuntimeAPIFacts.v ===== *)
(** * hooks: facts about the runtime API

    A hook writes to the namespaces of its own job, and reads the ones that
    its allocation may read; what it stores it reads back; the HTTP proxy
    speaks to the worker of the allocation only; sessions nest. *)
From S2P Require Import Prelude GoStrings Utils Kv KvFacts AllocState Semaphore RuntimeAPI.
Open Scope Z_scope.

#[export] Instance jobSemaphore_eq_dec : EqDecision jobSemaphore.
Proof. solve_decision. Defined.

(** ** Sessions *)

Lemma removeFirst_head x l : removeFirst x (x :: l) = l.
Proof. cbn [removeFirst]. by rewrite bool_decide_true. Qed.
Lemma removeFirst_other x l r : x ∉ l -> removeFirst x (l ++ x :: r) = l ++ r.
Proof.
  induction l as [|y l IH]; intros Hx; cbn [removeFirst app]; [by rewrite bool_decide_true|].
  apply not_elem_of_cons in Hx as [Hne Hx]. rewrite bool_decide_false by done. by rewrite IH.
Qed.

(** Sessions nest in any order: the active session is the last one started
    that has not ended, and when an outer session ends inside an inner one the
    inner one stays active. *)
Theorem sessions_nest sessions outer inner :
  let push l s := pushActiveRuntimeAPI l s.1 s.2 in let pop l s := popActiveRuntimeAPI l s.1 s.2 in
  pop (push sessions outer) outer = sessions /\
  ActiveRuntimeAPIToken (push sessions outer) = outer.1 /\ ActiveRuntimeAPIPort (push sessions outer) = outer.2 /\
  (outer <> inner -> pop (push (push sessions outer) inner) outer = push sessions inner) /\
  pop (pop (push (push sessions outer) inner) outer) inner = sessions.
Proof.
  cbn zeta. destruct outer as [t p], inner as [t' p']. unfold popActiveRuntimeAPI, pushActiveRuntimeAPI, ActiveRuntimeAPIToken, ActiveRuntimeAPIPort. cbn [fst snd].
  assert (H1 : forall l (x : string * Z), reverse (removeFirst x (reverse (l ++ [x]))) = l).
  { intros l x. rewrite reverse_app. cbn [reverse rev_append app]. rewrite removeFirst_head. apply reverse_involutive. }
  assert (H2 : forall x y : string * Z, x <> y -> reverse (removeFirst x (reverse ((sessions ++ [x]) ++ [y]))) = sessions ++ [y]).
  { intros x y Hne. rewrite !reverse_app. cbn [reverse rev_append app]. cbn [removeFirst]. rewrite bool_decide_false by done.
    rewrite bool_decide_true by done. by rewrite reverse_cons, reverse_involutive. }
  split_and!; [apply H1|by rewrite last_snoc|by rewrite last_snoc|intros Hne; by apply H2|].
  destruct (decide ((t, p) = (t', p'))) as [E|Hne].
  - injection E as -> ->. by rewrite !H1.
  - rewrite H2 by done. apply H1.
Qed.

Section api.
Context `{Unicode} `{Crypto} (db : DB) (hooks : list DemandRow) (kvKey : option string).
Notation resolveAllocation := (resolveAllocation db).
Notation deleteKey := RuntimeAPI.deleteKey.

(** ** Writes *)

(** Where an allocation of a job may write with an event. *)
Definition writable (job event namespace key : string) : Prop :=
  isHealthProbeEvent event = false /\
  (namespace = "vars/job/" +:+ job \/ namespace = SecretJobNamespace job \/
   namespace = JobCatalogNamespace job /\ key = RolloutOrderKey /\ event ∈ deployOrderWriteEvents).
Definition changes (s s' : Store) (P : string -> string -> Prop) : Prop := forall n k, find s' n k <> find s n k -> P n k.
Lemma changes_refl s P : changes s s P.
Proof. intros n k Hn. by destruct Hn. Qed.
Lemma changes_setEntry s n k e (P : string -> string -> Prop) : P n k -> changes s (setEntry s n k e) P.
Proof. intros Hp n' k' Hne. rewrite find_setEntry in Hne. repeat case_decide; try done; naive_solver. Qed.

Definition confined (h : Store -> request -> Store * reply) : Prop :=
  forall s r, match resolveAllocation r with
              | Err _ => (h s r).1 = s
              | Ok (job, _) => changes s (h s r).1 (writable job (Header r HeaderHookEvent))
              end.
(** A handler answers at once when there is no allocation or no body. *)
Lemma confined_by (k : string -> string -> storeKeyPayload -> request -> Store -> Store * reply) :
  (forall s r job ip p, changes s (k job ip p r s).1 (writable job (Header r HeaderHookEvent))) ->
  confined (fun s r => orReply (resolveAllocation r) s (fun '(job, ip) => orReply (decoded (KeyBody r)) s (fun p => k job ip p r s))).
Proof.
  intros Hk s r. unfold orReply. destruct (resolveAllocation r) as [[job ip]|e]; [|done].
  destruct (decoded (KeyBody r)); [apply Hk|apply changes_refl].
Qed.
Lemma changes_guard s e k (P : string -> string -> Prop) : (e = None -> changes s k.1 P) -> changes s (guard e s k).1 P.
Proof. intros Hk. destruct e; [apply changes_refl|by apply Hk]. Qed.
Lemma changes_putValue s n k v ttl trim (P : string -> string -> Prop) : P n k -> changes s (putValue s n k v ttl trim) P.
Proof. apply changes_setEntry. Qed.
Lemma changes_deleteKey s p (P : string -> string -> Prop) : P (plNamespace p) (plKey p) -> changes s (deleteKey s p).1 P.
Proof.
  intros Hp. unfold RuntimeAPI.deleteKey, Delete. destruct (s !! plNamespace p) as [ns|]; [|apply changes_refl].
  destruct (ns !! plKey p); [by apply changes_setEntry|apply changes_refl].
Qed.
Lemma secret_ok p job ip : validateSecretNamespace (plNamespace p) job ip = None -> plNamespace p = SecretJobNamespace job.
Proof. unfold validateSecretNamespace. destruct (String.eqb_spec (plNamespace p) (SecretJobNamespace job)); done. Qed.

Lemma put_confined : confined (handleStoreKeyPut db hooks).
Proof.
  apply confined_by. intros s r job ip p. apply changes_guard. intros Hv.
  destruct (IsSecretNamespace _); [apply changes_refl|]. destruct (isHealthProbeEvent _) eqn:Eh; [apply changes_refl|].
  apply changes_putValue. unfold validateStoreKeyPayload in Hv. destruct (_ || _); [done|]. destruct (validateKVPayloadTTL p); [done|].
  unfold validateStoreKeyWrite in Hv. split; [done|].
  destruct (String.eqb_spec (plNamespace p) ("vars/job/" +:+ job)); [by left|].
  destruct (String.eqb_spec (plNamespace p) (JobCatalogNamespace job)); [|done].
  destruct (String.eqb_spec (plKey p) RolloutOrderKey); [|done]. cbn [andb] in Hv.
  destruct (mem _ deployOrderWriteEvents) eqn:Em; [|done]. right. right. by apply mem_true in Em.
Qed.
Lemma delete_confined : confined (handleStoreKeyDelete db hooks).
Proof.
  apply confined_by. intros s r job ip p. destruct (_ || _); [apply changes_refl|]. destruct (IsSecretNamespace _); [apply changes_refl|].
  destruct (String.eqb_spec (plNamespace p) ("vars/job/" +:+ job)); [|apply changes_refl]. cbn [negb]. apply changes_guard. intros _.
  destruct (isHealthProbeEvent _) eqn:Eh; [apply changes_refl|]. apply changes_deleteKey. split; [done|]. by left.
Qed.
Lemma secret_put_confined nonce : confined (handleStoreSecretPut db kvKey nonce).
Proof.
  apply confined_by. intros s r job ip p. apply changes_guard. intros Hv. destruct (isHealthProbeEvent _) eqn:Eh; [apply changes_refl|].
  unfold PutSecret. destruct (EncryptPlaintext _ _ _); cbn [rbind]; [|apply changes_refl]. apply changes_putValue. split; [done|].
  right. left. unfold validateStoreSecretPayload in Hv. destruct (_ || _); [done|]. destruct (validateKVPayloadTTL p); [done|]. by apply secret_ok in Hv.
Qed.
Lemma secret_delete_confined : confined (handleStoreSecretDelete db).
Proof.
  apply confined_by. intros s r job ip p. apply changes_guard. intros Hv. destruct (isHealthProbeEvent _) eqn:Eh; [apply changes_refl|].
  apply changes_deleteKey. split; [done|]. right. left. unfold validateStoreSecretKeyPayload in Hv. destruct (_ || _); [done|]. by apply secret_ok in Hv.
Qed.
Definition readOnly (h : Store -> request -> Store * reply) : Prop := forall s r, (h s r).1 = s.
Lemma get_readOnly : readOnly (handleStoreKeyGet db hooks kvKey).
Proof. intros s r. unfold handleStoreKeyGet, orReply, guard. by repeat case_match. Qed.
Lemma list_readOnly : readOnly (handleStoreKeysList db hooks).
Proof. intros s r. unfold handleStoreKeysList, orReply, guard. by repeat case_match. Qed.
Lemma demands_readOnly : readOnly (handleCommandDemandsGet db hooks).
Proof. intros s r. unfold handleCommandDemandsGet, orReply. by repeat case_match. Qed.
Lemma readOnly_confined h : readOnly h -> confined h.
Proof. intros Hr s r. rewrite Hr. destruct (resolveAllocation r) as [[]|]; [apply changes_refl|done]. Qed.

(** ** The whole API *)

Context (urlParse : string -> option URL) (isIP validPEM : string -> bool).
Context (exchange : httpProxyRequest -> list (string * string) -> Z -> string + (list URL * (Z * list (string * list string) * string))).
Context (ToUpper : string -> string).
Notation serve := (RuntimeAPI.serve db hooks kvKey urlParse isIP validPEM exchange ToUpper).
Notation route := (RuntimeAPI.route db hooks kvKey urlParse isIP validPEM exchange ToUpper).
Notation serveHTTPProxy := (RuntimeAPI.serveHTTPProxy db urlParse isIP validPEM exchange ToUpper).

Definition store_confined (st st' : ApiState) (r : request) : Prop :=
  match resolveAllocation r with
  | Err _ => apiStore st' = apiStore st
  | Ok (job, _) => changes (apiStore st) (apiStore st') (writable job (Header r HeaderHookEvent))
  end.
Lemma confined_store h st r sems : confined h -> store_confined st (mkApi (h (apiStore st) r).1 sems) r.
Proof. intros Hc. unfold store_confined. specialize (Hc (apiStore st) r). by destruct (resolveAllocation r) as [[]|]. Qed.
Lemma same_store_confined st st' r : apiStore st' = apiStore st -> store_confined st st' r.
Proof. intros E. unfold store_confined. destruct (resolveAllocation r) as [[]|]; [rewrite E; apply changes_refl|done]. Qed.

Lemma route_confined id nonce st r : store_confined st (route id nonce st r).1 r.
Proof.
  unfold RuntimeAPI.route, serveStoreKeys, serveStoreKeysList, serveStoreSecret, serveCommandDemands, onStore.
  repeat match goal with
  | |- context [if ?b then _ else _] => destruct b; cbn [fst snd]
  | |- context [let '(_, _) := ?x in _] => destruct x; cbn [fst snd]
  end; try (apply same_store_confined; reflexivity); apply confined_store.
  all: first [apply readOnly_confined; first [apply get_readOnly|apply list_readOnly|apply demands_readOnly]
    |apply put_confined|apply delete_confined|apply secret_put_confined|apply secret_delete_confined].
Qed.

(** Only the semaphores that the request's own job, event and name scope. *)
Definition sems_confined (st st' : ApiState) (r : request) : Prop := forall k,
  semaphores (apiSems st') !! k <> semaphores (apiSems st) !! k ->
  exists job ip name, resolveAllocation r = Ok (job, ip) /\ k = semaphoreScopeKey job (Header r HeaderHookEvent) name.
Lemma registerWait_other c scopeKey a cap fresh k : k <> scopeKey -> (registerWait c scopeKey a cap fresh).1 !! k = c !! k.
Proof. intros Hne. unfold registerWait. repeat case_match; cbn [fst]; by rewrite ?lookup_insert_ne by done. Qed.
Lemma acquireStart_other w id scopeKey a cap k : k <> scopeKey -> semaphores (acquireStart w id scopeKey a cap) !! k = semaphores w !! k.
Proof.
  intros Hne. unfold acquireStart. cbv zeta. set (cap' := if cap <? 1 then _ else cap). destruct (cap' >? _); [done|].
  pose proof (registerWait_other (semaphores w) scopeKey a cap' (nextCh w) k Hne) as Hr.
  destruct (registerWait _ _ _ _ _) as [c [[]|]]; exact Hr.
Qed.
Lemma releaseStep_other w scopeKey a k : k <> scopeKey -> semaphores (releaseStep w scopeKey a) !! k = semaphores w !! k.
Proof.
  intros Hne. unfold releaseStep, release. destruct (semaphores w !! scopeKey); [|done]. destruct (negb _); [done|].
  destruct (grantNextWaiterLocked _). cbn. by rewrite lookup_insert_ne.
Qed.
Lemma route_sems id nonce st r : sems_confined st (route id nonce st r).1 r.
Proof.
  assert (Hsame : forall st', apiSems st' = apiSems st -> sems_confined st st' r) by (intros st' E k Hk; by rewrite E in Hk).
  unfold RuntimeAPI.route, onStore. do 4 (destruct (String.eqb (Path r) _); [by apply Hsame|]).
  destruct (String.eqb (Path r) "/semaphore/acquire").
  { unfold serveSemaphoreAcquire. destruct (negb _); [by apply Hsame|]. destruct (resolveAllocation r) as [[job ip]|e] eqn:Er; [|by apply Hsame].
    destruct (decoded (AcquireBody r)) as [p|]; [|by apply Hsame]. destruct (String.eqb (aqName p) ""); [by apply Hsame|].
    intros k Hk. exists job, ip, (aqName p). split; [done|]. destruct (decide (k = semaphoreScopeKey job (Header r HeaderHookEvent) (aqName p))); [done|].
    destruct Hk. by apply acquireStart_other. }
  destruct (String.eqb (Path r) "/semaphore/release").
  { unfold serveSemaphoreRelease. destruct (negb _); [by apply Hsame|]. destruct (resolveAllocation r) as [[job ip]|e] eqn:Er; [|by apply Hsame].
    destruct (decoded (ReleaseBody r)) as [name|]; [|by apply Hsame]. destruct (String.eqb name ""); [by apply Hsame|].
    destruct (release _ _ _).2; [by apply Hsame|].
    intros k Hk. exists job, ip, name. split; [done|]. destruct (decide (k = semaphoreScopeKey job (Header r HeaderHookEvent) name)); [done|].
    destruct Hk. by apply releaseStep_other. }
  destruct (String.eqb (Path r) "/semaphore/status"); [by apply Hsame|]. by destruct (String.eqb (Path r) "/http"); apply Hsame.
Qed.

(** C22: Without the session's token a request changes nothing. With it, a request
    acts for the allocation it names: it changes keys of that job's own
    variables and secrets, and of its rollout order for the events that may set
    it, never for a health event; and only semaphores of that job and event.
    The variables of the catalog, of the bucket and of other jobs are out of
    reach. *)
Theorem serve_writes_confined token id nonce st r :
  let st' := (serve token id nonce st r).1 in
  (runtimeAPIAuthorized r token = false -> st' = st /\ (serve token id nonce st r).2 = Some (ErrorReply "unauthorized" 401)) /\
  match resolveAllocation r with
  | Err _ => apiStore st' = apiStore st /\ semaphores (apiSems st') = semaphores (apiSems st)
  | Ok (job, _) =>
      (forall n k, find (apiStore st') n k <> find (apiStore st) n k -> writable job (Header r HeaderHookEvent) n k) /\
      (forall k, semaphores (apiSems st') !! k <> semaphores (apiSems st) !! k -> exists name, k = semaphoreScopeKey job (Header r HeaderHookEvent) name)
  end.
Proof.
  intros st'. unfold st', RuntimeAPI.serve. destruct (runtimeAPIAuthorized r token).
  - split; [done|]. pose proof (route_confined id nonce st r) as Hc. pose proof (route_sems id nonce st r) as Hs.
    unfold store_confined in Hc. destruct (resolveAllocation r) as [[job ip]|e] eqn:Er.
    + split; [exact Hc|]. intros k Hk. destruct (Hs k Hk) as (job' & ip' & name & E & ->). rewrite Er in E. injection E as <- <-. eauto.
    + split; [exact Hc|]. apply map_eq. intros k. apply dec_stable. intros Hk. destruct (Hs k Hk) as (? & ? & ? & E & _). by rewrite Er in E.
  - split; [done|]. destruct (resolveAllocation r) as [[job ip]|e]; [|done]. split; [apply changes_refl|]. intros k Hk. by destruct Hk.
Qed.

(** ** Reads *)

Notation readable := (AllowedKVNamespacesWithUpstream hooks).
Definition agree (s1 s2 : Store) (namespaces : list string) : Prop := forall n, n ∈ namespaces -> s1 !! n = s2 !! n.
(** The answer depends on the namespaces of the allocation alone. *)
Definition blind (h : Store -> request -> Store * reply) : Prop := forall s1 s2 r,
  (forall job ip, resolveAllocation r = Ok (job, ip) -> agree s1 s2 (readable job ip)) -> (h s1 r).2 = (h s2 r).2.
Lemma blind_by (k : string -> string -> storeKeyPayload -> request -> Store -> Store * reply) :
  (forall s1 s2 r job ip p, agree s1 s2 (readable job ip) -> (k job ip p r s1).2 = (k job ip p r s2).2) ->
  blind (fun s r => orReply (resolveAllocation r) s (fun '(job, ip) => orReply (decoded (KeyBody r)) s (fun p => k job ip p r s))).
Proof.
  intros Hk s1 s2 r Ha. unfold orReply. destruct (resolveAllocation r) as [[job ip]|e]; [|done].
  destruct (decoded (KeyBody r)); [|done]. apply Hk. by apply Ha.
Qed.
Lemma guard_blind s1 s2 e k1 k2 : (e = None -> k1.2 = k2.2) -> (guard e s1 k1).2 = (guard e s2 k2).2.
Proof. intros Hk. destruct e; [done|by apply Hk]. Qed.
Lemma read_allowed n job ip : validateReadNamespace hooks n job ip = None -> n ∈ readable job ip.
Proof.
  unfold validateReadNamespace. destruct (length _ =? 0)%nat eqn:El; [done|]. intros _. bool_to_prop.
  destruct (Intersection (readable job ip) [n]) as [|x l] eqn:Ei; [by destruct El|].
  assert (Hx : x ∈ x :: l) by left. rewrite <- Ei in Hx. apply elem_of_Intersection in Hx as [Hx ->%list_elem_of_singleton]. done.
Qed.
Lemma own_readable job ip n : n ∈ ["vars/job/" +:+ job; SecretJobNamespace job] -> n ∈ readable job ip.
Proof.
  intros Hn. unfold AllowedKVNamespacesWithUpstream. apply elem_of_app. left. unfold AllowedKVNamespaces.
  apply elem_of_cons in Hn as [->|[->|[]%elem_of_nil]%elem_of_cons].
  - do 7 right. left.
  - do 8 right. left.
Qed.
Lemma deleteKey_blind s1 s2 p : s1 !! plNamespace p = s2 !! plNamespace p -> (deleteKey s1 p).2 = (deleteKey s2 p).2.
Proof.
  intros E. unfold RuntimeAPI.deleteKey, Delete. rewrite E. destruct (s2 !! plNamespace p) as [ns|]; [|done]. by destruct (ns !! plKey p).
Qed.

Lemma get_blind : blind (handleStoreKeyGet db hooks kvKey).
Proof.
  apply blind_by. intros s1 s2 r job ip p Ha. apply guard_blind. intros Hv. unfold validateStoreKeyPayload in Hv.
  destruct (_ || _); [done|]. apply read_allowed in Hv. unfold Get. rewrite (Ha _ Hv). destruct (s2 !! plNamespace p) as [ns|]; [|done].
  destruct (ns !! plKey p) as [e|]; [|done]. destruct (Deleted e =? 1); [done|]. destruct (IsSecretNamespace _); [|done]. by destruct (DecryptStoredValue _ _).
Qed.
Lemma put_blind : blind (handleStoreKeyPut db hooks).
Proof.
  apply blind_by. intros s1 s2 r job ip p _. apply guard_blind. intros _. destruct (IsSecretNamespace _); [done|]. by destruct (isHealthProbeEvent _).
Qed.
Lemma delete_blind : blind (handleStoreKeyDelete db hooks).
Proof.
  apply blind_by. intros s1 s2 r job ip p Ha. destruct (_ || _); [done|]. destruct (IsSecretNamespace _); [done|]. destruct (negb _); [done|].
  apply guard_blind. intros Hv. destruct (isHealthProbeEvent _); [done|]. apply deleteKey_blind, Ha. by apply read_allowed.
Qed.
Lemma list_blind : blind (handleStoreKeysList db hooks).
Proof.
  apply blind_by. intros s1 s2 r job ip p Ha.
  assert (Hk : forall n, n ∈ readable job ip -> GetKeys s1 n = GetKeys s2 n) by (intros n Hn; unfold GetKeys; by rewrite (Ha n Hn)).
  destruct (String.eqb (plNamespace p) "").
  - cbn [jobLevelKVNamespaces map snd]. rewrite !Hk; [done|apply own_readable; right; left|apply own_readable; left].
  - destruct (negb _); [done|]. apply guard_blind. intros Hv%read_allowed. cbn [map snd]. by rewrite Hk.
Qed.
Lemma secret_put_blind nonce : blind (handleStoreSecretPut db kvKey nonce).
Proof.
  apply blind_by. intros s1 s2 r job ip p _. apply guard_blind. intros _. destruct (isHealthProbeEvent _); [done|].
  unfold PutSecret. by destruct (EncryptPlaintext _ _ _).
Qed.
Lemma secret_delete_blind : blind (handleStoreSecretDelete db).
Proof.
  apply blind_by. intros s1 s2 r job ip p Ha. apply guard_blind. intros Hv. destruct (isHealthProbeEvent _); [done|].
  apply deleteKey_blind, Ha. unfold validateStoreSecretKeyPayload in Hv. destruct (_ || _); [done|]. apply secret_ok in Hv. rewrite Hv.
  apply own_readable. right. left.
Qed.
Lemma demands_blind : blind (handleCommandDemandsGet db hooks).
Proof. intros s1 s2 r _. unfold handleCommandDemandsGet, orReply. by destruct (resolveAllocation r) as [[]|]. Qed.
Lemma proxy_blind s1 s2 r : (forall job ip, resolveAllocation r = Ok (job, ip) -> agree s1 s2 (readable job ip)) ->
  serveHTTPProxy s1 r = serveHTTPProxy s2 r.
Proof.
  intros Ha. unfold RuntimeAPI.serveHTTPProxy. destruct (negb _); [done|]. destruct (_ || _); [done|].
  destruct (resolveAllocation r) as [[job ip]|e]; [|done]. destruct (ProxyBody r) as [p|]; [|done].
  destruct (validateHTTPProxyRequest _ _ _ _ _) as [[p' u]|]; [|done].
  assert (newHTTPProxyClient validPEM s1 p' = newHTTPProxyClient validPEM s2 p') as ->; [|done].
  assert (loadWorkerCATrustPEM s1 = loadWorkerCATrustPEM s2) as E.
  { unfold loadWorkerCATrustPEM, Get. rewrite (Ha job ip eq_refl "kive/worker"%string); [done|].
    unfold AllowedKVNamespacesWithUpstream, AllowedKVNamespaces. apply elem_of_app. left. do 2 right. left. }
  unfold newHTTPProxyClient. by rewrite E.
Qed.

(** C23: What an allocation learns from the API depends, of the store, on the
    namespaces it may read alone: its own job's and worker's, the shared ones,
    and those of the jobs its hooks demand. Two stores that agree there give
    the same answer to every request. *)
Theorem serve_reads_confined token id nonce sems s1 s2 r :
  (forall job ip, resolveAllocation r = Ok (job, ip) -> agree s1 s2 (readable job ip)) ->
  (serve token id nonce (mkApi s1 sems) r).2 = (serve token id nonce (mkApi s2 sems) r).2.
Proof.
  intros Ha. unfold RuntimeAPI.serve. destruct (runtimeAPIAuthorized r token); [|done].
  unfold RuntimeAPI.route, onStore, serveStoreKeys, serveStoreKeysList, serveStoreSecret, serveCommandDemands. cbn [apiStore apiSems].
  rewrite (proxy_blind s1 s2 r Ha).
  repeat match goal with |- context [if ?b then _ else _] => destruct b; cbn [fst snd]; try reflexivity end.
  all: try (f_equal; first [by apply get_blind|by apply put_blind|by apply delete_blind|by apply list_blind
    |by apply secret_put_blind|by apply secret_delete_blind|by apply demands_blind]).
  all: first [by destruct (serveSemaphoreAcquire db id sems r)|by destruct (serveSemaphoreRelease db sems r)].
Qed.

(** ** What is written is read back *)

Lemma readNamespace_ok job ip n : n ∈ readable job ip -> validateReadNamespace hooks n job ip = None.
Proof.
  intros Hn. unfold validateReadNamespace. destruct (length _ =? 0)%nat eqn:El; [|done]. bool_to_prop. apply nil_length_inv in El.
  assert (Hin : n ∈ Intersection (readable job ip) [n]) by (apply elem_of_Intersection; split; [done|by left]).
  rewrite El in Hin. by apply elem_of_nil in Hin.
Qed.
Lemma Get_putValue s n k v ttl trim : exists e, Get (putValue s n k v ttl trim) n k = Ok e /\ EValue e = (if trim then TrimSpace v else v).
Proof.
  rewrite Get_find. unfold putValue. rewrite find_setEntry, decide_True by done.
  pose proof (view_putEntry (namespaceMap s n !! k) (if trim then TrimSpace v else v) ttl) as Hv. unfold view_entry in Hv.
  destruct (Deleted _ =? 1); [done|]. injection Hv as Hv _. eauto.
Qed.
Lemma catalog_readable job ip : JobCatalogNamespace job ∈ readable job ip.
Proof. unfold AllowedKVNamespacesWithUpstream, AllowedKVNamespaces. apply elem_of_app. left. do 5 right. left. Qed.
Lemma get_reply s r job ip p : resolveAllocation r = Ok (job, ip) -> KeyBody r = Ok p -> plNamespace p <> ""%string -> plKey p <> ""%string ->
  plNamespace p ∈ readable job ip ->
  handleStoreKeyGet db hooks kvKey s r =
    match Get s (plNamespace p) (plKey p) with
    | Err _ => (s, storeKeyNotFound)
    | Ok item => if IsSecretNamespace (plNamespace p)
                 then match DecryptStoredValue kvKey (EValue item) with
                      | Err _ => (s, internalError)
                      | Ok plaintext => (s, KeyReply (plNamespace p) (plKey p) plaintext)
                      end
                 else (s, KeyReply (plNamespace p) (plKey p) (EValue item))
    end.
Proof.
  intros Hr Hb Hn Hk Hread. unfold handleStoreKeyGet. rewrite Hr, Hb. cbn [orReply decoded]. unfold validateStoreKeyPayload.
  rewrite (proj2 (String.eqb_neq _ _) Hn), (proj2 (String.eqb_neq _ _) Hk). cbn [orb andb]. rewrite readNamespace_ok by done. done.
Qed.

(** A value that a hook stores is what every allocation of its job then reads,
    without the blanks around it; a secret is read back as it was, as long as
    the key file stays. *)
Theorem written_is_read `{!CryptoLaws _} s r r' job ip ip' p nonce : String.length nonce = nonceSize ->
  resolveAllocation r = Ok (job, ip) -> resolveAllocation r' = Ok (job, ip') -> KeyBody r = Ok p ->
  (exists v ttl, KeyBody r' = Ok (mkPayload (plNamespace p) (plKey p) v ttl)) ->
  (forall s', handleStoreKeyPut db hooks s r = (s', Status StatusOK) ->
     handleStoreKeyGet db hooks kvKey s' r' = (s', KeyReply (plNamespace p) (plKey p) (TrimSpace (plValue p)))) /\
  (forall s', handleStoreSecretPut db kvKey nonce s r = (s', Status StatusOK) ->
     handleStoreKeyGet db hooks kvKey s' r' = (s', KeyReply (plNamespace p) (plKey p) (plValue p))).
Proof.
  intros Hnonce Hr Hr' Hb (v & ttl & Hb'). split; intros s' Hput.
  - unfold handleStoreKeyPut in Hput. rewrite Hr, Hb in Hput. cbn [orReply decoded] in Hput. unfold validateStoreKeyPayload in Hput.
    destruct (String.eqb_spec (plNamespace p) "") as [|Hn]; [done|]. destruct (String.eqb_spec (plKey p) "") as [|Hk]; [done|]. cbn [orb] in Hput.
    destruct (true && _); [done|]. destruct (validateKVPayloadTTL p) as [e|] eqn:Et;
      [unfold validateKVPayloadTTL in Et; destruct (plTTL p <? 0); [injection Et as <-|]; done|].
    destruct (validateStoreKeyWrite p job (Header r HeaderHookEvent)) as [e|] eqn:Ew; cbn [guard] in Hput.
    { exfalso. unfold validateStoreKeyWrite in Ew. repeat case_match; try discriminate Ew; injection Ew as <-; discriminate Hput. }
    destruct (IsSecretNamespace (plNamespace p)) eqn:Es; [done|]. destruct (isHealthProbeEvent _); [done|]. injection Hput as <-.
    assert (Hread : plNamespace p ∈ readable job ip').
    { unfold validateStoreKeyWrite in Ew. destruct (String.eqb_spec (plNamespace p) ("vars/job/" +:+ job)) as [->|]; [apply own_readable; left|].
      destruct (String.eqb_spec (plNamespace p) (JobCatalogNamespace job)) as [->|]; [apply catalog_readable|done]. }
    rewrite (get_reply _ r' job ip' _ Hr' Hb' Hn Hk Hread). cbn [plNamespace plKey].
    destruct (Get_putValue s (plNamespace p) (plKey p) (plValue p) (plTTL p) true) as (e & He & Hv). unfold Put. rewrite He, Es, Hv. done.
  - unfold handleStoreSecretPut in Hput. rewrite Hr, Hb in Hput. cbn [orReply decoded] in Hput. unfold validateStoreSecretPayload in Hput.
    destruct (String.eqb_spec (plNamespace p) "") as [|Hn]; [done|]. destruct (String.eqb_spec (plKey p) "") as [|Hk]; [done|]. cbn [orb] in Hput.
    destruct (String.eqb (plValue p) ""); [done|]. destruct (validateKVPayloadTTL p) as [e|] eqn:Et;
      [unfold validateKVPayloadTTL in Et; destruct (plTTL p <? 0); [injection Et as <-|]; done|].
    destruct (validateSecretNamespace (plNamespace p) job ip) as [e|] eqn:Ew; cbn [guard] in Hput.
    { exfalso. unfold validateSecretNamespace in Ew. repeat case_match; try discriminate Ew; injection Ew as <-; discriminate Hput. }
    destruct (isHealthProbeEvent _); [done|]. unfold PutSecret in Hput. destruct (EncryptPlaintext kvKey nonce (plValue p)) as [enc|] eqn:Ee; [|done].
    cbn [rbind] in Hput. injection Hput as <-. apply secret_ok in Ew.
    assert (Hread : plNamespace p ∈ readable job ip') by (rewrite Ew; apply own_readable; right; left).
    rewrite (get_reply _ r' job ip' _ Hr' Hb' Hn Hk Hread). cbn [plNamespace plKey].
    destruct (Get_putValue s (plNamespace p) (plKey p) enc (plTTL p) false) as (e & He & Hv). rewrite He, Hv.
    assert (IsSecretNamespace (plNamespace p) = true) as -> by (rewrite Ew; apply HasPrefix_app).
    by rewrite (Decrypt_Encrypt kvKey nonce (plValue p) enc Hnonce Ee).
Qed.

(** ** The proxy *)

Lemma followRedirects_spec targets ip : forall via, len via <= httpProxyMaxRedirects ->
  (forall u, u ∈ via -> validateHTTPProxyDestination isIP u ip = None) ->
  let asked := (followRedirects isIP via targets ip).1 in
  len asked <= httpProxyMaxRedirects /\ forall u, u ∈ asked -> validateHTTPProxyDestination isIP u ip = None.
Proof.
  induction targets as [|u targets IH]; intros via Hlen Hvia; cbn [followRedirects]; [done|]. unfold checkRedirect.
  destruct (httpProxyMaxRedirects <=? len via) eqn:El; [done|]. bool_to_prop.
  destruct (validateHTTPProxyDestination isIP u ip) as [e|] eqn:Eu; [done|]. apply IH.
  - unfold len in *. rewrite length_app. cbn. lia.
  - intros x [Hx| ->%list_elem_of_singleton]%elem_of_app; [by apply Hvia|done].
Qed.
Lemma destination_ok u ip : validateHTTPProxyDestination isIP u ip = None ->
  ToLower (Scheme u) ∈ ["http"; "https"]%string /\ TrimSpace (Hostname u) = TrimSpace ip /\ isIP (TrimSpace (Hostname u)) = true.
Proof.
  unfold validateHTTPProxyDestination, httpProxyHostAllowed. destruct (mem _ _) eqn:Em; [|done]. cbn [negb]. apply mem_true in Em.
  destruct (String.eqb (Hostname u) ""); [done|]. destruct (_ || _); [done|].
  destruct (String.eqb_spec (TrimSpace (Hostname u)) (TrimSpace ip)) as [E|]; [|done]. cbn [negb]. destruct (isIP _) eqn:Ei; done.
Qed.
Lemma slen_stake n : forall s, (String.length (stake n s) <= n)%nat.
Proof. induction n as [|n IH]; intros [|c s]; cbn; try lia. specialize (IH s). lia. Qed.
Lemma truncateBody_len raw : Z.of_nat (String.length (truncateBody raw).1) <= httpProxyMaxResponseBodyBytes.
Proof.
  unfold truncateBody. destruct (_ >? _) eqn:E; cbn [fst]; [|rewrite Z.gtb_ltb in E; bool_to_prop; lia].
  pose proof (slen_stake (Z.to_nat httpProxyMaxResponseBodyBytes) raw). unfold httpProxyMaxResponseBodyBytes in *. lia.
Qed.

(** C24: The proxy of the runtime API is no open proxy: whatever the request and
    whatever redirects the host asks for, every request that is sent goes by
    HTTP or HTTPS to the address of the allocation's own worker, which is an IP
    address and no name; there are five of them at most, and the answer passed
    on has a body of at most 4 MiB and no hop-by-hop header. *)
Theorem serveHTTPProxy_confined s r :
  let '(asked, x) := serveHTTPProxy s r in
  (forall u, u ∈ asked -> exists job ip, resolveAllocation r = Ok (job, ip) /\ ToLower (Scheme u) ∈ ["http"; "https"]%string /\
     TrimSpace (Hostname u) = TrimSpace ip /\ isIP (TrimSpace (Hostname u)) = true) /\
  len asked <= httpProxyMaxRedirects /\
  (forall status headers body truncated, x = ProxyReply status headers body truncated ->
     Z.of_nat (String.length body) <= httpProxyMaxResponseBodyBytes /\ forall h, h ∈ headers -> isHTTPProxyHopByHopHeader h.1 = false).
Proof.
  assert (Hnone : forall x, (forall status headers body truncated, x <> ProxyReply status headers body truncated) ->
    (forall u, u ∈ ([] : list URL) -> exists job ip, resolveAllocation r = Ok (job, ip) /\ ToLower (Scheme u) ∈ ["http"; "https"]%string /\
       TrimSpace (Hostname u) = TrimSpace ip /\ isIP (TrimSpace (Hostname u)) = true) /\ len ([] : list URL) <= httpProxyMaxRedirects /\
    (forall status headers body truncated, x = ProxyReply status headers body truncated ->
       Z.of_nat (String.length body) <= httpProxyMaxResponseBodyBytes /\ forall h, h ∈ headers -> isHTTPProxyHopByHopHeader h.1 = false)).
  { intros x Hx. split_and!; [intros u []%elem_of_nil|done|intros status headers body truncated ->; by destruct (Hx status headers body truncated)]. }
  unfold RuntimeAPI.serveHTTPProxy. destruct (negb _); [by apply Hnone|]. destruct (_ || _); [by apply Hnone|].
  destruct (resolveAllocation r) as [[job ip]|e] eqn:Er.
  2:{ apply Hnone. unfold RuntimeAPI.resolveAllocation in Er. destruct (String.eqb _ _); [by injection Er as <-|]. destruct (head _); [done|]. by injection Er as <-. }
  destruct (ProxyBody r) as [p|[]]; [|by apply Hnone..].
  destruct (validateHTTPProxyRequest urlParse isIP ToUpper p ip) as [[p' u]|e] eqn:Ev; [|by apply Hnone].
  destruct (newHTTPProxyClient validPEM s p'); [by apply Hnone|].
  assert (Hu : validateHTTPProxyDestination isIP u ip = None).
  { unfold validateHTTPProxyRequest in Ev. repeat (case_in Ev; try discriminate Ev). by injection Ev as <- <-. }
  assert (Hdest : forall u', validateHTTPProxyDestination isIP u' ip = None -> exists job' ip', (Ok (job, ip) : result reply _) = Ok (job', ip') /\
    ToLower (Scheme u') ∈ ["http"; "https"]%string /\ TrimSpace (Hostname u') = TrimSpace ip' /\ isIP (TrimSpace (Hostname u')) = true)
    by (intros u' Hd; exists job, ip; split; [done|by apply destination_ok]).
  assert (Hone : forall u', u' ∈ [u] -> validateHTTPProxyDestination isIP u' ip = None) by (by intros u' ->%list_elem_of_singleton).
  unfold proxyExchange. destruct (exchange _ _ _) as [e|[targets [[status answer] raw]]].
  { split_and!; [intros u' Hin; by apply Hdest, Hone|done|done]. }
  pose proof (followRedirects_spec targets ip [u] ltac:(done) Hone) as [Hlen Hall].
  destruct (followRedirects isIP [u] targets ip) as [asked [e|]]; cbn [fst] in Hlen, Hall.
  { split_and!; [intros u' Hin; by apply Hdest, Hall|done|done]. }
  pose proof (truncateBody_len raw) as Hb. destruct (truncateBody raw) as [body truncated].
  split_and!; [intros u' Hin; by apply Hdest, Hall|done|]. intros ? ? ? ? [= <- <- <- <-]. split; [done|].
  intros h Hh. apply elem_of_list_filter_b in Hh as [_ Hh]. by apply negb_true_iff in Hh.
Qed.
End api.

(** ** A hook of the job web *)

Section example.
#[local] Existing Instance ascii_unicode.
#[local] Instance plain_crypto : Crypto :=
  {| Seal _ _ p := p; Open_ _ _ c := Some c; Encode s := s; Decode s := Some s; nonceSize := 2 |}.
#[local] Instance plain_laws : CryptoLaws plain_crypto.
Proof. by split. Qed.
Definition api_db : DB := mkDB [mkAlloc "a1" "10.0.0.1" "web" 0 0 None; mkAlloc "a2" "10.0.0.2" "web" 0 0 None] ∅ ∅.
Definition web_request (method path : string) (allocationID : string) (p : storeKeyPayload) (proxy : httpProxyRequest) : request :=
  mkRequest method path
    (fun h => if String.eqb h "Authorization" then "bearer token" else if String.eqb h HeaderAllocationID then allocationID
              else if String.eqb h HeaderHookEvent then "cli" else if String.eqb h HeaderHookName then "hook_a" else "")%string
    "" (Ok p) (Err EmptyBody) (Err EmptyBody) (Ok proxy).
Definition no_proxy : httpProxyRequest := mkProxyRequest "" "" [] "" 0 "" "" false.
Definition to_self : httpProxyRequest := mkProxyRequest "GET" "http://10.0.0.1/" [] "" 0 "" "" true.
Definition self_url : URL := mkURL "http" "10.0.0.1".
(** The host answers with ever more redirects to itself. *)
Definition redirecting (n : nat) (_ : httpProxyRequest) (_ : list (string * string)) (_ : Z) : string + (list URL * (Z * list (string * list string) * string)) :=
  inr (repeat self_url n, (200, [], ""%string)).
Definition web_api (n : nat) (s : Store) (r : request) :=
  serve api_db [] (Some "key"%string) (fun _ => Some self_url) (fun _ => true) (fun _ => true) (redirecting n) (fun m => m) "token" 0 "nn"
    (mkApi s Semaphore.init) r.

(** The proxy stops "after 5 redirects" when it has followed four. *)
Example fifth_redirect_refused :
  let proxy n := serveHTTPProxy api_db (fun _ => Some self_url) (fun _ => true) (fun _ => true) (redirecting n) (fun m => m) NewStore
                   (web_request "POST" "/http" "a1" (mkPayload "" "" "" 0) to_self) in
  len (proxy 4%nat).1 = 5 /\ (proxy 4%nat).2 = ProxyReply 200 [] "" false /\ (proxy 5%nat).2 = ProxyFailed "stopped after 5 redirects".
Proof. vm_compute. split_and!; reflexivity. Qed.

(** Deleting a key is answered with 404 when the job has stored something
    before, and with 500 when it has not. *)
Example delete_in_fresh_namespace :
  let r := web_request "DELETE" "/kv" "a1" (mkPayload "vars/job/web" "missing" "" 0) no_proxy in
  (web_api 0 NewStore r).2 = Some internalError /\ (web_api 0 (Put NewStore "vars/job/web" "other" "v" 0) r).2 = Some storeKeyNotFound.
Proof. vm_compute. split; reflexivity. Qed.

Lemma serve_reads_confined_witness :
  let r := web_request "GET" "/kv" "a1" (mkPayload "vars/job/web" "k" "" 0) no_proxy in
  let s := Put NewStore "vars/job/web" "k" "v" 0 in
  (web_api 0 s r).2 = (web_api 0 (Put s "secrets/job/db" "pw" "x" 0) r).2.
Proof.
  intros r s. apply serve_reads_confined. intros job ip Hr. assert (job = "web"%string /\ ip = "10.0.0.1"%string) as [-> ->] by (vm_compute in Hr; by injection Hr as <- <-).
  intros n Hn. unfold Put, putValue, setEntry. symmetry. apply lookup_insert_ne. intros <-. apply mem_true in Hn. vm_compute in Hn. discriminate Hn.
Defined.

Lemma written_is_read_witness :
  let p := mkPayload "vars/job/web" "k" " v " 0 in
  let s := Put NewStore "vars/job/web" "k" " v " 0 in
  handleStoreKeyGet api_db [] (Some "key"%string) s (web_request "GET" "/kv" "a2" p no_proxy) = (s, KeyReply "vars/job/web" "k" "v").
Proof.
  intros p s.
  refine (proj1 (written_is_read api_db [] (Some "key"%string) NewStore (web_request "PUT" "/kv" "a1" p no_proxy) (web_request "GET" "/kv" "a2" p no_proxy)
    "web" "10.0.0.1" "10.0.0.2" p "nn" _ _ _ _ _) s _); [reflexivity|vm_compute; reflexivity|vm_compute; reflexivity|reflexivity| |vm_compute; reflexivity].
  by exists " v "%string, 0.
Defined.
End example.
