(* ===== verification/PathMatch.v ===== *)
(** * utils/pathmatch: job-relative globs

    utils/pathmatch/glob.go over Go's [path.Match] and [path.Base], which are
    written out from the Go standard library. [filepath.ToSlash] is the
    identity on Linux. *)
From S2P Require Import Prelude GoStrings Utils.
Open Scope Z_scope.

Definition slash : ascii := "/".

(** ** Go's path.Base *)

Fixpoint trimRightSlash (s : string) : string :=
  match s with
  | "" => ""
  | String c s =>
      match trimRightSlash s with
      | "" => if bool_decide (c = slash) then "" else String c ""
      | r => String c r
      end
  end.
Definition path_Base (s : string) : string :=
  if bool_decide (s = "") then "."
  else
    let base := List.last (Split (trimRightSlash s) slash) "" in
    if bool_decide (base = "") then "/" else base.

(** ** Go's path.Match

    [Err tt] is [ErrBadPattern]. In [matchChunk] the text is [None] once the
    match has failed: from then on only the syntax of the chunk is checked. *)

(** A rune of a character class; the rest is never empty. *)
Definition getEsc (chunk : string) : result unit (rune * string) :=
  if bool_decide (chunk = "") || HasPrefix chunk "-" || HasPrefix chunk "]" then Err tt
  else
    let chunk := TrimPrefix chunk "\" in
    if bool_decide (chunk = "") then Err tt
    else
      let '(r, n) := DecodeRune chunk in
      if (r =? RuneError) && (n =? 1)%nat then Err tt
      else if bool_decide (sdrop n chunk = "") then Err tt
      else Ok (r, sdrop n chunk).

(** The ranges of a class up to its bracket: whether one holds [r], and the
    rest of the chunk. [first] is [nrange == 0]. *)
Fixpoint classRanges (fuel : nat) (chunk : string) (r : rune) (first found : bool) : result unit (bool * string) :=
  match fuel with
  | O => Err tt
  | S fuel =>
      if negb first && HasPrefix chunk "]" then Ok (found, sdrop 1 chunk)
      else
        let? (lo, chunk) := getEsc chunk in
        let? (hi, chunk) := (if HasPrefix chunk "-" then getEsc (sdrop 1 chunk) else Ok (lo, chunk)) in
        classRanges fuel chunk r false (found || ((lo <=? r) && (r <=? hi)))
  end.

(** One operator of the chunk applied to the text. *)
Definition matchLit (c : ascii) (s : option string) : option string :=
  match s with
  | Some (String d s) => if bool_decide (c = d) then Some s else None
  | _ => None
  end.
Definition matchAnyRune (s : option string) : option string :=
  match s with
  | Some (String d s') => if bool_decide (d = slash) then None else Some (sdrop (snd (DecodeRune (String d s'))) (String d s'))
  | _ => None
  end.
Definition classRune (s : option string) : rune :=
  match s with Some (String d s') => fst (DecodeRune (String d s')) | _ => 0 end.
Definition matchClass (found negated : bool) (s : option string) : option string :=
  match s with
  | Some (String d s') =>
      if Bool.eqb found negated then None else Some (sdrop (snd (DecodeRune (String d s'))) (String d s'))
  | _ => None
  end.

Fixpoint matchChunkN (fuel : nat) (chunk : string) (s : option string) : result unit (option string) :=
  match chunk with
  | "" => Ok s
  | String c chunk =>
      match fuel with
      | O => Err tt
      | S fuel =>
          if bool_decide (c = "["%char) then
            let negated := HasPrefix chunk "^" in
            let chunk := TrimPrefix chunk "^" in
            let? (found, chunk) := classRanges (S (String.length chunk)) chunk (classRune s) true false in
            matchChunkN fuel chunk (matchClass found negated s)
          else if bool_decide (c = "?"%char) then matchChunkN fuel chunk (matchAnyRune s)
          else if bool_decide (c = "\"%char) then
            match chunk with
            | "" => Err tt
            | String d chunk => matchChunkN fuel chunk (matchLit d s)
            end
          else matchChunkN fuel chunk (matchLit c s)
      end
  end.
Definition matchChunk (chunk s : string) : result unit (option string) := matchChunkN (String.length chunk) chunk (Some s).

Fixpoint dropStars (pattern : string) : string :=
  match pattern with String "*" pattern => dropStars pattern | _ => pattern end.
Fixpoint scanRest (inrange : bool) (pattern : string) : string * string :=
  match pattern with
  | "" => ("", "")
  | String c pattern' =>
      let cons1 (p : string * string) := (String c p.1, p.2) in
      if bool_decide (c = "\"%char) then
        match pattern' with
        | "" => (pattern, "")
        | String d pattern'' => let '(a, b) := scanRest inrange pattern'' in (String c (String d a), b)
        end
      else if bool_decide (c = "["%char) then cons1 (scanRest true pattern')
      else if bool_decide (c = "]"%char) then cons1 (scanRest false pattern')
      else if bool_decide (c = "*"%char) && negb inrange then ("", pattern)
      else cons1 (scanRest inrange pattern')
  end.
Definition scanChunk (pattern : string) : bool * string * string :=
  let '(chunk, rest) := scanRest false (dropStars pattern) in
  (match pattern with String "*" _ => true | _ => false end, chunk, rest).

(** The search of a chunk after a star. *)
Fixpoint starLoop (chunk rest name : string) : result unit (option string) :=
  match name with
  | "" => Ok None
  | String c name' =>
      if bool_decide (c = slash) then Ok None
      else
        let? t := matchChunk chunk name' in
        match t with
        | Some t => if bool_decide (rest = "") && negb (bool_decide (t = "")) then starLoop chunk rest name' else Ok (Some t)
        | None => starLoop chunk rest name'
        end
  end.

(** The syntax check of what remains of the pattern. *)
Fixpoint checkRest (fuel : nat) (pattern : string) : result unit bool :=
  match pattern, fuel with
  | "", _ => Ok false
  | _, O => Err tt
  | _, S fuel =>
      let '(_, chunk, rest) := scanChunk pattern in
      let? _ := matchChunk chunk "" in
      checkRest fuel rest
  end.

Fixpoint matchN (fuel : nat) (pattern name : string) : result unit bool :=
  match pattern, fuel with
  | "", _ => Ok (bool_decide (name = ""))
  | _, O => Err tt
  | _, S fuel =>
      let '(star, chunk, rest) := scanChunk pattern in
      if star && bool_decide (chunk = "") then Ok (no_byte slash name)
      else
        let? t := matchChunk chunk name in
        let here := match t with Some t => if bool_decide (t = "") || negb (bool_decide (rest = "")) then Some t else None | None => None end in
        match here with
        | Some t => matchN fuel rest t
        | None =>
            let? t := (if star then starLoop chunk rest name else Ok None) in
            match t with
            | Some t => matchN fuel rest t
            | None => checkRest fuel rest
            end
        end
  end.
Definition path_Match (pattern name : string) : result unit bool := matchN (String.length pattern) pattern name.
(** [matched, _ := path.Match(pattern, name)]. *)
Definition matched (pattern name : string) : bool :=
  match path_Match pattern name with Ok b => b | Err _ => false end.

(** ** glob.go *)

Inductive glob_error := EmptyPattern | InvalidPattern (pattern : string).

(** [strings.SplitN(s, "/", 2)] of a text with a slash. *)
Fixpoint cutSlash (s : string) : option (string * string) :=
  match s with
  | "" => None
  | String c s => if bool_decide (c = slash) then Some ("", s) else (fun p => (String c p.1, p.2)) <$> cutSlash s
  end.
Definition probe (pattern part : string) : result glob_error unit :=
  match path_Match part "probe" with Ok _ => Ok tt | Err _ => Err (InvalidPattern pattern) end.
Definition probeDoubleStar (pattern : string) : result glob_error unit :=
  if HasPrefix pattern "**/" then
    let suffix := TrimPrefix pattern "**/" in
    match cutSlash suffix with
    | Some (_, name) => probe pattern name
    | None => probe pattern suffix
    end
  else Ok tt.
Definition ValidatePattern (pattern : string) : result glob_error unit :=
  let pattern := TrimSpace pattern in
  if bool_decide (pattern = "") then Err EmptyPattern
  else if Contains pattern "**" then probeDoubleStar pattern
  else probe pattern pattern.

Fixpoint isLiteralPattern (pattern : string) : bool :=
  match pattern with
  | "" => true
  | String c pattern => negb (bool_decide (c ∈ ["*"%char; "?"%char; "["%char])) && isLiteralPattern pattern
  end.

(** [strings.Split(pattern, "**")]. *)
Fixpoint splitStars (pattern : string) : list string :=
  match pattern with
  | "" => [""]
  | String "*" (String "*" pattern) => "" :: splitStars pattern
  | String c pattern =>
      match splitStars pattern with
      | [] => [String c ""]
      | x :: l => String c x :: l
      end
  end.

Definition matchDoubleStarPattern (pattern rel : string) : bool :=
  if HasPrefix pattern "**/" then
    let suffix := TrimPrefix pattern "**/" in
    match cutSlash suffix with
    | Some (dir, name) =>
        if negb (HasPrefix rel (dir +:+ "/")) then false
        else matched name (sdrop (String.length dir + 1) rel)
    | None => matched suffix (path_Base rel) || matched suffix rel
    end
  else if HasSuffix pattern "/**" then
    let prefix := TrimSuffix pattern "/**" in
    bool_decide (rel = prefix) || HasPrefix rel (prefix +:+ "/")
  else
    match splitStars pattern with
    | [prefix; suffix] =>
        if negb (bool_decide (prefix = "")) && negb (HasPrefix rel prefix) then false
        else
          let rest := TrimPrefix (TrimPrefix rel prefix) "/" in
          if bool_decide (suffix = "") then true
          else
            let suffix := TrimPrefix suffix "/" in
            if bool_decide (suffix = "") then true
            else matched suffix rest || matched suffix (path_Base rest)
    | _ => false
    end.

Definition matchPattern (pattern rel : string) : bool :=
  let pattern := TrimSpace pattern in
  let rel := TrimPrefix rel "/" in
  if bool_decide (pattern = "") then false
  else if isLiteralPattern pattern && (bool_decide (pattern = rel) || bool_decide (pattern = path_Base rel)) then true
  else if Contains pattern "**" then matchDoubleStarPattern pattern rel
  else if Contains pattern "/" then
    if matched pattern rel then true
    else
      let dir := TrimSuffix pattern "/" in
      if bool_decide (dir = pattern) then false
      else bool_decide (rel = dir) || HasPrefix rel (dir +:+ "/")
  else matched pattern (path_Base rel) || matched pattern rel.
Definition Match (pattern rel : string) : bool := matchPattern pattern rel.

Fixpoint matchAnyLoop (patterns : list string) (seen : gset string) (rels : list string) : list string :=
  match rels with
  | [] => []
  | rel :: rels =>
      if existsb (fun pattern => Match pattern rel) patterns then
        if bool_decide (rel ∈ seen) then matchAnyLoop patterns seen rels
        else rel :: matchAnyLoop patterns ({[rel]} ∪ seen) rels
      else matchAnyLoop patterns seen rels
  end.
Definition MatchAny (patterns rels : list string) : list string :=
  if (length patterns =? 0)%nat || (length rels =? 0)%nat then [] else matchAnyLoop patterns ∅ rels.

Fixpoint matchNotAnyLoop (patterns : list string) (seen : gset string) (rels : list string) : list string :=
  match rels with
  | [] => []
  | rel :: rels =>
      if (0 <? length (MatchAny patterns [rel]))%nat then matchNotAnyLoop patterns seen rels
      else if bool_decide (rel ∈ seen) then matchNotAnyLoop patterns seen rels
      else rel :: matchNotAnyLoop patterns ({[rel]} ∪ seen) rels
  end.
Definition MatchNotAny (patterns rels : list string) : list string :=
  if (length patterns =? 0)%nat || (length rels =? 0)%nat then [] else matchNotAnyLoop patterns ∅ rels.

Example match_ext : path_Match "*.conf" "app.conf" = Ok true. Proof. vm_compute. reflexivity. Qed.
Example match_class : path_Match "[a-c^]x[^d]?*" "bxez" = Ok true. Proof. vm_compute. reflexivity. Qed.
Example match_slash : path_Match "*" "a/b" = Ok false. Proof. vm_compute. reflexivity. Qed.
Example match_mid : path_Match "a*/b*c" "axx/byyc" = Ok true. Proof. vm_compute. reflexivity. Qed.
Example match_bad : path_Match "a[" "zzz" = Err tt. Proof. vm_compute. reflexivity. Qed.
Example match_bad2 : path_Match "[]a]" "]" = Err tt. Proof. vm_compute. reflexivity. Qed.
Example match_esc : path_Match "a\*b" "a*b" = Ok true. Proof. vm_compute. reflexivity. Qed.
Example match_star_retry : path_Match "a*b?c*x" "abxbbxdbxebxczzx" = Ok true. Proof. vm_compute. reflexivity. Qed.
Example match_star_retry2 : path_Match "a*b?c*x" "abxbbxdbxebxczzy" = Ok false. Proof. vm_compute. reflexivity. Qed.
Example base_ex : map path_Base [""; "/"; "a/b/"; "x"] = ["."; "/"; "b"; "x"]. Proof. vm_compute. reflexivity. Qed.

(** ** Facts on globs

    The syntax errors of [path.Match] do not depend on the text and its fuel
    never runs out; directory globs; the matched and unmatched paths. *)

(** ** Errors depend on the pattern only *)

Lemma classRanges_rest fuel : forall chunk r r' first found found',
  match classRanges fuel chunk r first found, classRanges fuel chunk r' first found' with
  | Ok (_, c), Ok (_, c') => c = c'
  | Err _, Err _ => True
  | _, _ => False
  end.
Proof.
  induction fuel as [|fuel IH]; intros chunk r r' first found found'; [done|]. cbn [classRanges].
  destruct (negb first && HasPrefix chunk "]"); [done|].
  destruct (getEsc chunk) as [[lo c1]|]; cbn [rbind]; [|done].
  destruct (if HasPrefix c1 "-" then getEsc (sdrop 1 c1) else Ok (lo, c1)) as [[hi c2]|]; cbn [rbind]; [apply IH|done].
Qed.

Lemma matchChunkN_ok fuel : forall chunk s s', is_ok (matchChunkN fuel chunk s) = is_ok (matchChunkN fuel chunk s').
Proof.
  induction fuel as [|fuel IH]; intros [|c chunk] s s'; try done. cbn [matchChunkN].
  destruct (bool_decide (c = "["%char)).
  - set (chunk' := TrimPrefix chunk "^").
    pose proof (classRanges_rest (S (String.length chunk')) chunk' (classRune s) (classRune s') true false false) as Hc.
    destruct (classRanges _ _ (classRune s) _ _) as [[f1 c1]|e1], (classRanges _ _ (classRune s') _ _) as [[f2 c2]|e2];
      cbn [rbind]; try done. subst. apply IH.
  - repeat case_match; try done; apply IH.
Qed.

Lemma matchChunk_ok chunk s s' : is_ok (matchChunk chunk s) = is_ok (matchChunk chunk s').
Proof. apply matchChunkN_ok. Qed.

Lemma starLoop_ok chunk rest name : is_ok (matchChunk chunk "") = true -> is_ok (starLoop chunk rest name) = true.
Proof.
  intros Hc. induction name as [|c name IH]; [done|]. cbn [starLoop]. case_bool_decide; [done|].
  rewrite (matchChunk_ok _ _ name) in Hc. destruct (matchChunk chunk name) as [t|]; [|done]. cbn [rbind].
  destruct t as [t|]; [|done]. by case_goal.
Qed.

Lemma dropStars_spec p : match dropStars p with String "*" _ => False | _ => True end.
Proof. induction p as [|c p IH]; [done|]. cbn. repeat (case_match; try done). Qed.

(** A star is followed by an empty chunk only at the end of the pattern. *)
Lemma scanRest_empty p r :
  match p with String "*" _ => False | _ => True end -> scanRest false p = ("", r) -> r = "".
Proof.
  destruct p as [|c p]; cbn [scanRest]; intros Hp H; [congruence|].
  case_bool_decide; [repeat case_match; congruence|].
  do 2 (case_bool_decide; [congruence|]).
  case_bool_decide as Hc; cbn [andb negb] in H; [|congruence]. by subst.
Qed.

Lemma matchN_ok n : forall p name, is_ok (matchN n p name) = is_ok (checkRest n p).
Proof.
  induction n as [|n IH]; intros [|c p] name; try done. cbn [matchN checkRest].
  destruct (scanChunk (String c p)) as [[star chunk] rest] eqn:Es.
  destruct (star && bool_decide (chunk = "")) eqn:Et.
  - bool_to_prop. subst. assert (rest = "") as ->; [|by destruct n].
    unfold scanChunk in Es. destruct (scanRest false (dropStars (String c p))) as [a b] eqn:Er.
    inversion Es; subst. eapply scanRest_empty; [apply dropStars_spec|exact Er].
  - pose proof (matchChunk_ok chunk name "") as Hc.
    destruct (matchChunk chunk name) as [t|] eqn:Em, (matchChunk chunk "") as [t'|] eqn:Em'; cbn [rbind]; try done.
    assert (Hk : is_ok (matchChunk chunk "") = true) by (by rewrite Em').
    destruct (match t with Some t => _ | None => None end) as [u|]; [apply IH|].
    destruct star; cbn [rbind]; [|done].
    pose proof (starLoop_ok chunk rest name Hk) as Hs. destruct (starLoop chunk rest name) as [[u|]|]; try done.
    apply IH.
Qed.

(** Whether a pattern is malformed does not depend on the name. *)
Lemma path_Match_ok p name name' : is_ok (path_Match p name) = is_ok (path_Match p name').
Proof. unfold path_Match. by rewrite !matchN_ok. Qed.

(** ** The fuel is enough *)

Lemma sdrop_shorter n s : (1 <= n)%nat -> s <> "" -> (String.length (sdrop n s) < String.length s)%nat.
Proof. intros Hn Hs. rewrite slen_drop. destruct s; [done|]. cbn. lia. Qed.

Lemma TrimPrefix_len s p : (String.length (TrimPrefix s p) <= String.length s)%nat.
Proof. unfold TrimPrefix. case_goal; [rewrite slen_drop; lia|lia]. Qed.

Lemma getEsc_len chunk r c : getEsc chunk = Ok (r, c) -> (String.length c < String.length chunk)%nat.
Proof.
  unfold getEsc. pose proof (TrimPrefix_len chunk "\") as Ht. set (t := TrimPrefix chunk "\") in *.
  destruct (bool_decide (chunk = "") || _ || _); [done|]. case_bool_decide as Hn; [done|].
  pose proof (DecodeRune_width t Hn) as Hw. destruct (DecodeRune t) as [q n]. cbn [snd] in Hw.
  case_goal; [done|]. case_bool_decide; [done|]. intros [= <- <-].
  pose proof (sdrop_shorter n t Hw Hn). lia.
Qed.

Lemma classRanges_fuel n : forall m chunk r first found,
  (String.length chunk < n)%nat -> (String.length chunk < m)%nat ->
  classRanges n chunk r first found = classRanges m chunk r first found.
Proof.
  induction n as [|n IH]; intros [|m] chunk r first found Hn Hm; try lia. cbn [classRanges].
  destruct (negb first && HasPrefix chunk "]"); [done|].
  destruct (getEsc chunk) as [[lo c1]|] eqn:E1; cbn [rbind]; [|done]. apply getEsc_len in E1.
  destruct (HasPrefix c1 "-").
  - destruct (getEsc (sdrop 1 c1)) as [[hi c2]|] eqn:E2; cbn [rbind]; [|done]. apply getEsc_len in E2.
    rewrite slen_drop in E2. apply IH; lia.
  - cbn [rbind]. apply IH; lia.
Qed.

Lemma classRanges_len n : forall chunk r first found f c,
  classRanges n chunk r first found = Ok (f, c) -> (String.length c < String.length chunk)%nat.
Proof.
  induction n as [|n IH]; intros chunk r first found f c; [done|]. cbn [classRanges].
  destruct (negb first && HasPrefix chunk "]") eqn:E0.
  - intros [= <- <-]. bool_to_prop. destruct chunk; [done|]. cbn. lia.
  - intros H. apply rbind_ok in H as ([lo c1] & E1 & H). apply getEsc_len in E1.
    apply rbind_ok in H as ([hi c2] & E2 & H). apply IH in H.
    assert (String.length c2 <= String.length c1)%nat; [|lia].
    destruct (HasPrefix c1 "-"); [apply getEsc_len in E2; rewrite slen_drop in E2; lia|].
    by inversion E2.
Qed.

Lemma matchChunkN_fuel n : forall m chunk s,
  (String.length chunk <= n)%nat -> (String.length chunk <= m)%nat -> matchChunkN n chunk s = matchChunkN m chunk s.
Proof.
  induction n as [|n IH]; intros [|m] [|c chunk] s Hn Hm; cbn [String.length] in *; try lia; try done.
  cbn [matchChunkN]. case_bool_decide.
  - pose proof (TrimPrefix_len chunk "^").
    destruct (classRanges _ _ _ _ _) as [[f c1]|] eqn:E1; cbn [rbind]; [|done].
    apply classRanges_len in E1. apply IH; lia.
  - case_bool_decide; [apply IH; lia|]. case_bool_decide; [|apply IH; lia].
    destruct chunk as [|d chunk]; [done|]. cbn [String.length] in *. apply IH; lia.
Qed.

Lemma scanRest_app p : forall inrange, (scanRest inrange p).1 +:+ (scanRest inrange p).2 = p.
Proof.
  assert (Hs : forall n p, (String.length p <= n)%nat -> forall i, (scanRest i p).1 +:+ (scanRest i p).2 = p); [|eauto].
  induction n as [|n IH]; intros [|c q] Hq i; cbn [String.length] in *; try lia; try done. cbn [scanRest].
  case_bool_decide.
  - destruct q as [|d q]; [done|]. cbn [String.length] in *. pose proof (IH q ltac:(lia) i) as Hi.
    destruct (scanRest i q) as [a b]. cbn in *. by rewrite Hi.
  - repeat (case_goal; cbn; try (f_equal; apply IH; lia); try done).
Qed.

Lemma dropStars_len p : (String.length (dropStars p) <= String.length p)%nat.
Proof. induction p as [|c p IH]; [done|]. cbn. repeat case_match; cbn; lia. Qed.

Lemma scanChunk_len p star chunk rest :
  p <> "" -> scanChunk p = (star, chunk, rest) -> (String.length rest < String.length p)%nat.
Proof.
  unfold scanChunk. intros Hp H. pose proof (scanRest_app (dropStars p) false) as Ha.
  destruct (scanRest false (dropStars p)) as [a b] eqn:Er. inversion H; subst a b. clear H. cbn in Ha.
  pose proof (dropStars_len p) as Hl.
  destruct chunk as [|c chunk].
  - apply scanRest_empty in Er; [|apply dropStars_spec]. subst. destruct p; [done|]. cbn. lia.
  - rewrite <- Ha, slen_app in Hl. cbn in Hl. lia.
Qed.

Lemma checkRest_fuel n : forall m p, (String.length p <= n)%nat -> (String.length p <= m)%nat -> checkRest n p = checkRest m p.
Proof.
  induction n as [|n IH]; intros [|m] [|c p] Hn Hm; cbn [String.length] in *; try lia; try done. cbn [checkRest].
  destruct (scanChunk (String c p)) as [[star chunk] rest] eqn:Es. apply scanChunk_len in Es; [|done]. cbn in Es.
  destruct (matchChunk chunk ""); cbn [rbind]; [|done]. apply IH; lia.
Qed.

Lemma matchN_fuel n : forall m p name,
  (String.length p <= n)%nat -> (String.length p <= m)%nat -> matchN n p name = matchN m p name.
Proof.
  induction n as [|n IH]; intros [|m] [|c p] name Hn Hm; cbn [String.length] in *; try lia; try done. cbn [matchN].
  destruct (scanChunk (String c p)) as [[star chunk] rest] eqn:Es. apply scanChunk_len in Es; [|done]. cbn in Es.
  case_goal; [done|]. destruct (matchChunk chunk name) as [t|]; cbn [rbind]; [|done].
  destruct (match t with Some t => _ | None => None end); [apply IH; lia|].
  destruct (if star then _ else _) as [[u|]|]; cbn [rbind]; [apply IH; lia|apply checkRest_fuel; lia|done].
Qed.

(** ** Directory globs *)

Lemma stake_app s t : stake (String.length s) (s +:+ t) = s.
Proof. apply stake_cat. Qed.

Lemma HasSuffix_app p s : HasSuffix (p +:+ s) s = true.
Proof.
  unfold HasSuffix. rewrite slen_app.
  replace (String.length p + String.length s - String.length s)%nat with (String.length p) by lia.
  rewrite sdrop_app, bool_decide_eq_true_2 by done.
  destruct (String.length s <=? _)%nat eqn:El; [done|]. apply Nat.leb_gt in El. lia.
Qed.
Lemma TrimSuffix_app p s : TrimSuffix (p +:+ s) s = p.
Proof.
  unfold TrimSuffix. rewrite HasSuffix_app, slen_app.
  replace (String.length p + String.length s - String.length s)%nat with (String.length p) by lia. apply stake_app.
Qed.
Lemma Contains_app p s t : Contains s t = true -> Contains (p +:+ s) t = true.
Proof.
  intros Hs. induction p as [|c p IH]; [done|]. cbn [String.append Contains]. by rewrite IH, orb_true_r.
Qed.
Lemma isLiteralPattern_app p s : isLiteralPattern (p +:+ s) = isLiteralPattern p && isLiteralPattern s.
Proof. induction p; cbn; [done|]. by rewrite IHp, andb_assoc. Qed.

Lemma Match_dir_lemma dir rel :
  TrimSpace (dir +:+ "/**") = dir +:+ "/**" -> HasPrefix dir "**" = false -> dir <> "" ->
  let rel' := TrimPrefix rel "/" in
  Match (dir +:+ "/**") rel = bool_decide (rel' = dir) || HasPrefix rel' (dir +:+ "/").
Proof.
  intros Ht Hd Hne rel'. unfold Match, matchPattern. rewrite Ht. fold rel'.
  rewrite bool_decide_eq_false_2 by (by destruct dir).
  rewrite isLiteralPattern_app, andb_false_r. cbn [andb].
  rewrite Contains_app by done. unfold matchDoubleStarPattern.
  replace (HasPrefix (dir +:+ "/**") "**/") with false.
  - by rewrite HasSuffix_app, TrimSuffix_app.
  - symmetry. destruct dir as [|a [|b [|c dir]]]; [done|cbn..].
    + by rewrite andb_false_r.
    + cbn in Hd. by destruct (bool_decide ("*"%char = a)), (bool_decide ("*"%char = b)).
    + cbn in Hd. by destruct (bool_decide ("*"%char = a)), (bool_decide ("*"%char = b)).
Qed.

Lemma sublist_filter_b {A} (p : A -> bool) l : List.filter p l `sublist_of` l.
Proof. induction l as [|x l IH]; cbn; [done|]. destruct (p x); by constructor. Qed.

Lemma matchAnyLoop_filter patterns rels : forall seen,
  matchAnyLoop patterns seen rels = uniqueLoop seen (List.filter (fun rel => existsb (fun p => Match p rel) patterns) rels).
Proof.
  induction rels as [|rel rels IH]; intros seen; cbn; [done|].
  destruct (existsb (fun p => Match p rel) patterns); cbn; [|apply IH]. by rewrite !IH.
Qed.
Lemma MatchAny_filter patterns rels :
  MatchAny patterns rels = Unique (List.filter (fun rel => existsb (fun p => Match p rel) patterns) rels).
Proof.
  unfold MatchAny, Unique. destruct (length patterns =? 0)%nat eqn:Ep; cbn [orb].
  - apply Nat.eqb_eq in Ep. destruct patterns; [|done]. cbn. by induction rels.
  - destruct rels; [done|]. cbn [length Nat.eqb orb]. apply matchAnyLoop_filter.
Qed.
Lemma MatchAny_single patterns rel : (0 <? length (MatchAny patterns [rel]))%nat = existsb (fun p => Match p rel) patterns.
Proof. rewrite MatchAny_filter. cbn. by destruct (existsb _ _). Qed.
Lemma matchNotAnyLoop_filter patterns rels : forall seen,
  matchNotAnyLoop patterns seen rels
  = uniqueLoop seen (List.filter (fun rel => negb (existsb (fun p => Match p rel) patterns)) rels).
Proof.
  induction rels as [|rel rels IH]; intros seen; cbn [matchNotAnyLoop]; [done|].
  rewrite MatchAny_single. cbn [List.filter]. destruct (existsb (fun p => Match p rel) patterns); cbn; [apply IH|]. by rewrite !IH.
Qed.
Lemma MatchNotAny_filter patterns rels :
  patterns <> [] ->
  MatchNotAny patterns rels = Unique (List.filter (fun rel => negb (existsb (fun p => Match p rel) patterns)) rels).
Proof.
  intros Hp. unfold MatchNotAny, Unique. destruct patterns; [done|]. cbn [length Nat.eqb orb].
  destruct rels; [done|]. cbn [length Nat.eqb orb]. apply matchNotAnyLoop_filter.
Qed.

Lemma elem_of_MatchAny patterns rels rel :
  rel ∈ MatchAny patterns rels <-> rel ∈ rels /\ exists p, p ∈ patterns /\ Match p rel = true.
Proof.
  rewrite MatchAny_filter, elem_of_Unique, elem_of_list_filter_b, existsb_exists. setoid_rewrite list_elem_of_In. done.
Qed.
Lemma elem_of_MatchNotAny patterns rels rel :
  patterns <> [] ->
  rel ∈ MatchNotAny patterns rels <-> rel ∈ rels /\ forall p, p ∈ patterns -> Match p rel = false.
Proof.
  intros Hp. rewrite MatchNotAny_filter by done. rewrite elem_of_Unique, elem_of_list_filter_b, negb_true_iff.
  rewrite <- not_true_iff_false, existsb_exists. split; intros [Hr Hm]; (split; [done|]).
  - intros p Hin. apply not_true_iff_false. intros Hx. apply Hm. exists p. by rewrite <- list_elem_of_In.
  - intros (p & Hin & Hx). apply list_elem_of_In in Hin. by rewrite Hm in Hx.
Qed.

Lemma ValidatePattern_lemma pattern :
  ValidatePattern pattern = Ok tt ->
  let q := TrimSpace pattern in
  q <> ""
  /\ (Contains q "**" = false -> forall name, is_ok (path_Match q name) = true)
  /\ (HasPrefix q "**/" = true ->
      let suffix := TrimPrefix q "**/" in
      forall name, is_ok (path_Match (match cutSlash suffix with Some (_, n) => n | None => suffix end) name) = true).
Proof.
  intros Hv q. unfold ValidatePattern in Hv. fold q in Hv. case_bool_decide as Hq; [done|].
  assert (Hp : forall part, probe q part = Ok tt -> forall name, is_ok (path_Match part name) = true).
  { intros part Hx name. unfold probe in Hx. rewrite (path_Match_ok _ name "probe"). by destruct (path_Match part "probe"). }
  split_and!; [done|..].
  - intros Hc. rewrite Hc in Hv. by apply Hp.
  - intros Hx. assert (Hc : Contains q "**" = true).
    { apply HasPrefix_inv in Hx. rewrite Hx. by apply (Contains_app "" _ "**"). }
    rewrite Hc in Hv. unfold probeDoubleStar in Hv. rewrite Hx in Hv. cbn zeta in *.
    destruct (cutSlash _) as [[d n]|]; by apply Hp.
Qed.

(** ** Properties *)

(** A pattern the manifest check accepts never makes [path.Match] fail when
    files are matched against it: without a double star on any name, and with
    a leading one for the part that is handed to [path.Match]. *)
Theorem ValidatePattern_sound pattern :
  ValidatePattern pattern = Ok tt ->
  let q := TrimSpace pattern in
  q <> ""
  /\ (Contains q "**" = false -> forall name, is_ok (path_Match q name) = true)
  /\ (HasPrefix q "**/" = true ->
      let suffix := TrimPrefix q "**/" in
      forall name, is_ok (path_Match (match cutSlash suffix with Some (_, n) => n | None => suffix end) name) = true).
Proof. apply ValidatePattern_lemma. Qed.

Lemma ValidatePattern_sound_witness :
  let q := TrimSpace " **/conf/*.[a-c]" in
  q <> ""
  /\ (Contains q "**" = false -> forall name, is_ok (path_Match q name) = true)
  /\ (HasPrefix q "**/" = true ->
      let suffix := TrimPrefix q "**/" in
      forall name, is_ok (path_Match (match cutSlash suffix with Some (_, n) => n | None => suffix end) name) = true).
Proof. apply (ValidatePattern_sound " **/conf/*.[a-c]"). vm_compute. reflexivity. Defined.

(** A malformed part after a double star in the middle is accepted, and the
    pattern then matches nothing below the directory. *)
Theorem ValidatePattern_gap :
  ValidatePattern "conf/**/[" = Ok tt
  /\ (forall name, is_ok (path_Match "[" name) = false)
  /\ Match "conf/**/[" "conf/app/[" = false.
Proof.
  split_and!; [vm_compute; reflexivity| |vm_compute; reflexivity].
  intros name. rewrite (path_Match_ok _ name ""). vm_compute. reflexivity.
Qed.

(** A leading double star followed by a directory only matches that directory
    at the root of the job. *)
Theorem Match_leading_star_rooted :
  Match "**/conf/*.yml" "conf/a.yml" = true
  /\ Match "**/conf/*.yml" "sub/conf/a.yml" = false.
Proof. split; vm_compute; reflexivity. Qed.

(** Given at least one pattern, the changed paths are split into the matched
    and the unmatched ones: each path is in exactly one of the two lists,
    both without duplicates and in the order of the paths. *)
Theorem MatchAny_partition patterns rels :
  patterns <> [] ->
  (forall rel, rel ∈ rels <-> rel ∈ MatchAny patterns rels \/ rel ∈ MatchNotAny patterns rels)
  /\ (forall rel, rel ∈ MatchAny patterns rels -> rel ∉ MatchNotAny patterns rels)
  /\ NoDup (MatchAny patterns rels) /\ NoDup (MatchNotAny patterns rels)
  /\ MatchAny patterns rels `sublist_of` rels /\ MatchNotAny patterns rels `sublist_of` rels.
Proof.
  intros Hp. split_and!.
  - intros rel. rewrite elem_of_MatchAny, elem_of_MatchNotAny by done. split; [|tauto]. intros Hr.
    destruct (existsb (fun p => Match p rel) patterns) eqn:Ex.
    + apply existsb_exists in Ex as (p & Hin%list_elem_of_In & Hm). left. eauto.
    + right. split; [done|]. intros p Hin. apply not_true_iff_false. intros Hm.
      assert (existsb (fun p => Match p rel) patterns = true); [|congruence].
      apply existsb_exists. exists p. by rewrite <- list_elem_of_In.
  - intros rel (_ & p & Hin & Hm)%elem_of_MatchAny [_ Hn]%elem_of_MatchNotAny; [|done]. rewrite Hn in Hm; done.
  - rewrite MatchAny_filter. apply uniqueLoop_NoDup.
  - rewrite MatchNotAny_filter by done. apply uniqueLoop_NoDup.
  - rewrite MatchAny_filter. etrans; [apply uniqueLoop_sublist|apply sublist_filter_b].
  - rewrite MatchNotAny_filter by done. etrans; [apply uniqueLoop_sublist|apply sublist_filter_b].
Qed.

Lemma MatchAny_partition_witness :
  let ps := ["*.conf"] in let rels := ["a.conf"; "bin/run"] in
  (forall rel, rel ∈ rels <-> rel ∈ MatchAny ps rels \/ rel ∈ MatchNotAny ps rels)
  /\ (forall rel, rel ∈ MatchAny ps rels -> rel ∉ MatchNotAny ps rels)
  /\ NoDup (MatchAny ps rels) /\ NoDup (MatchNotAny ps rels)
  /\ MatchAny ps rels `sublist_of` rels /\ MatchNotAny ps rels `sublist_of` rels.
Proof. apply (MatchAny_partition ["*.conf"] ["a.conf"; "bin/run"]). discriminate. Defined.
