(* ===== verification/GoFloat.v ===== *)
(** * Go's float64: strconv.ParseFloat, products, rounding and the verb %v

    A finite float64 is a sign and a multiple of 2^-1074, so that comparisons
    and roundings are those of integers; the rounding to 53 bits of mantissa is
    to the nearest, ties to even. What the conversion of a value out of range
    to int64 gives is that of amd64. *)
From S2P Require Import Prelude GoStrings.
Open Scope Z_scope.

Inductive float64 := NaN | Inf (neg : bool) | Fin (neg : bool) (n : Z).
#[export] Instance float64_eq_dec : EqDecision float64.
Proof. solve_decision. Defined.

Definition unit_ : Z := 2 ^ 1074.
Definition signed (neg : bool) (n : Z) : Z := if neg then - n else n.
Definition float_zero : float64 := Fin false 0.
(** The float64 of a small whole number. *)
Definition float_of_Z (z : Z) : float64 := Fin (z <? 0) (Z.abs z * unit_).

(** ** Rounding *)

(** [num / den] to the nearest whole number, ties to even. *)
Definition round_even (num den : Z) : Z :=
  let q := num / den in
  let r := num mod den in
  match 2 * r ?= den with
  | Lt => q
  | Gt => q + 1
  | Eq => if Z.even q then q else q + 1
  end.
(** The float64 next to [num / den] units. *)
Definition round53 (neg : bool) (num den : Z) : float64 :=
  let shift := Z.max 0 (Z.log2 (num / den) - 52) in
  let n := round_even num (den * 2 ^ shift) * 2 ^ shift in
  if n <? 2 ^ 2098 then Fin neg n else Inf neg.
Definition fmul (x y : float64) : float64 :=
  match x, y with
  | NaN, _ | _, NaN => NaN
  | Inf a, Inf b => Inf (xorb a b)
  | Inf a, Fin b n | Fin b n, Inf a => if n =? 0 then NaN else Inf (xorb a b)
  | Fin a n, Fin b m => round53 (xorb a b) (n * m) unit_
  end.

(** ** Comparisons: a NaN is neither less than, nor equal to anything. *)

Definition flt (x y : float64) : bool :=
  match x, y with
  | NaN, _ | _, NaN => false
  | Inf a, Inf b => a && negb b
  | Inf a, Fin _ _ => a
  | Fin _ _, Inf b => negb b
  | Fin a n, Fin b m => signed a n <? signed b m
  end.
Definition feqb (x y : float64) : bool :=
  match x, y with
  | Inf a, Inf b => Bool.eqb a b
  | Fin a n, Fin b m => signed a n =? signed b m
  | _, _ => false
  end.
Definition is_zero (x : float64) : bool := feqb x float_zero.

(** [math.Round]: halves go away from zero. [int64(x)] truncates. *)
Definition fround (x : float64) : float64 :=
  match x with Fin a n => Fin a ((n + 2 ^ 1073) / unit_ * unit_) | _ => x end.
Definition Int64 (x : float64) : Z :=
  match x with
  | Fin a n => let z := signed a (n / unit_) in if in_int64 z then z else min_int64
  | _ => min_int64
  end.

(** ** strconv.ParseFloat *)

Definition lower_byte (c : ascii) : Z := Z.lor (byte_val c) 32.
Fixpoint lower_ascii (s : string) : string :=
  match s with
  | "" => ""
  | String c s => String (if is_upper_ascii (byte_val c) then byte_of (byte_val c + 32) else c) (lower_ascii s)
  end.
(** [special] on a whole text. *)
Definition special (s : string) : option float64 :=
  let '(neg, signed_, t) :=
    match s with
    | String "-" t => (true, true, t)
    | String "+" t => (false, true, t)
    | _ => (false, false, s)
    end%char in
  let t := lower_ascii t in
  if mem t ["inf"; "infinity"] then Some (Inf neg)
  else if negb signed_ && String.eqb t "nan" then Some NaN
  else None.

(** What the loop over the mantissa has read: the digits as a number, how many
    of them are before the point, and whether there were any. *)
Record mantissa := mkMantissa { mDigits : Z; mCount : Z; mPoint : option Z; mSaw : bool }.
Definition digit_of (hex : bool) (c : ascii) : option Z :=
  if is_digit_ascii (byte_val c) then Some (byte_val c - 48)
  else if hex && in_range 97 102 (lower_byte c) then Some (lower_byte c - 87)
  else None.
Fixpoint readMantissa (hex : bool) (m : mantissa) (s : string) : mantissa * string :=
  match s with
  | "" => (m, s)
  | String c t =>
      if bool_decide (c = "_"%char) then readMantissa hex m t
      else if bool_decide (c = "."%char) then
        match mPoint m with
        | Some _ => (m, s)
        | None => readMantissa hex (mkMantissa (mDigits m) (mCount m) (Some (mCount m)) (mSaw m)) t
        end
      else
        match digit_of hex c with
        | Some d => readMantissa hex (mkMantissa (mDigits m * (if hex then 16 else 10) + d) (mCount m + 1) (mPoint m) true) t
        | None => (m, s)
        end
  end.
(** The exponent stops growing at five digits. *)
Fixpoint readExponent (e : Z) (s : string) : Z * string :=
  match s with
  | "" => (e, s)
  | String c t =>
      if bool_decide (c = "_"%char) then readExponent e t
      else if is_digit_ascii (byte_val c) then readExponent (if e <? 10000 then e * 10 + (byte_val c - 48) else e) t
      else (e, s)
  end.

(** [underscoreOK], with the last byte seen. *)
Inductive saw_ := SawStart | SawDigit | SawUnderscore | SawOther.
Fixpoint underscoresFrom (hex : bool) (saw : saw_) (s : string) : bool :=
  match s with
  | "" => match saw with SawUnderscore => false | _ => true end
  | String c s =>
      match digit_of hex c with
      | Some _ => underscoresFrom hex SawDigit s
      | None =>
          if bool_decide (c = "_"%char) then match saw with SawDigit => underscoresFrom hex SawUnderscore s | _ => false end
          else match saw with SawUnderscore => false | _ => underscoresFrom hex SawOther s end
      end
  end.
Definition unsign (s : string) : bool * string :=
  match s with
  | String "-" t => (true, t)
  | String "+" t => (false, t)
  | _ => (false, s)
  end%char.
Definition underscoreOK (s : string) : bool :=
  let t := (unsign s).2 in
  match t with
  | String "0"%char (String b u) =>
      let l := lower_byte b in
      if (l =? 120) || (l =? 98) || (l =? 111) then underscoresFrom (l =? 120) SawDigit u else underscoresFrom false SawStart t
  | _ => underscoresFrom false SawStart t
  end.

(** The value [digits * base ^ e] for a base of 10 or 2. *)
Definition float_of_digits (neg : bool) (digits base e : Z) : float64 :=
  if 0 <=? e then round53 neg (digits * base ^ e * unit_) 1 else round53 neg (digits * unit_) (base ^ (- e)).
Definition finite (x : float64) : option float64 := match x with Fin _ _ => Some x | _ => None end.

(** [None] is an error: the syntax, or a value out of range. *)
Definition ParseFloat (s : string) : option float64 :=
  match special s with
  | Some x => Some x
  | None =>
      let '(neg, t) := unsign s in
      let '(hex, t) :=
        match t with
        | String "0"%char (String x u) => if (lower_byte x =? 120) && nonempty_string u then (true, u) else (false, t)
        | _ => (false, t)
        end in
      let '(m, rest) := readMantissa hex (mkMantissa 0 0 None false) t in
      if negb (mSaw m) then None
      else
        let scale := mCount m - default (mCount m) (mPoint m) in
        let scale := if hex then 4 * scale else scale in
        let result e :=
          if Contains s "_" && negb (underscoreOK s) then None
          else finite (float_of_digits neg (mDigits m) (if hex then 2 else 10) (if mDigits m =? 0 then 0 else e - scale)) in
        match rest with
        | "" => if hex then None else result 0
        | String c u =>
            if lower_byte c =? (if hex then 112 else 101) then
              let '(esign, u) := unsign u in
              match u with
              | String d _ =>
                  if is_digit_ascii (byte_val d) then
                    let '(e, rest) := readExponent 0 u in
                    if String.eqb rest "" then result (signed esign e) else None
                  else None
              | "" => None
              end
            else None
        end
  end.

(** ** The verb %v *)

(** The decimal point of [n] units, n > 0: 10 ^ (dp - 1) <= n units < 10 ^ dp.
    The fuel is more than the number of zeros after the point. *)
Fixpoint leadingZeros (fuel : nat) (n : Z) : Z :=
  match fuel with
  | O => 0
  | S fuel => if n * 10 <? unit_ then 1 + leadingZeros fuel (n * 10) else 0
  end.
Definition decimalPoint (n : Z) : Z :=
  if unit_ <=? n then Z.of_nat (String.length (Itoa (n / unit_))) else - leadingZeros 400 n.
(** A decimal [c * 10 ^ e]. *)
Record decimal := mkDecimal { coefficient : Z; exponent : Z }.
(** [roundShortest]: the first number of digits for which the truncation or
    its successor is between the bounds of what is read back as [n]. *)
Fixpoint shortestFrom (fuel : nat) (n lower upper dp : Z) (inclusive : bool) (k : Z) : decimal :=
  let e := dp - k in
  let num := if 0 <=? e then n else n * 10 ^ (- e) in
  let den := unit_ * (if 0 <=? e then 10 ^ e else 1) in
  let down := num / den in
  let bound b := b * (if 0 <=? e then 1 else 10 ^ (- e)) in
  let okdown := if inclusive then bound lower <=? 4 * down * den else bound lower <? 4 * down * den in
  let okup := if inclusive then 4 * (down + 1) * den <=? bound upper else 4 * (down + 1) * den <? bound upper in
  match fuel with
  | O => mkDecimal down e
  | S fuel =>
      if okdown && okup then mkDecimal (round_even num den) e
      else if okdown then mkDecimal down e
      else if okup then mkDecimal (down + 1) e
      else shortestFrom fuel n lower upper dp inclusive (k + 1)
  end.
Definition shortest (n : Z) : decimal :=
  let shift := Z.max 0 (Z.log2 n - 52) in
  let ulp := 2 ^ shift in
  let lower := if (0 <? shift) && (n =? 2 ^ (Z.log2 n)) then 4 * n - ulp else 4 * n - 2 * ulp in
  shortestFrom 17 n lower (4 * n + 2 * ulp) (decimalPoint n) (Z.even (n / ulp)) 1.
Fixpoint stripZeros (fuel : nat) (d : decimal) : decimal :=
  match fuel with
  | O => d
  | S fuel =>
      if (coefficient d mod 10 =? 0) && negb (coefficient d =? 0)
      then stripZeros fuel (mkDecimal (coefficient d / 10) (exponent d + 1)) else d
  end.
Definition zeros (n : Z) : string := Repeat "0" (Z.to_nat n).
(** [%e] and [%f] with as many digits as there are. *)
Definition format_e (digits : string) (exp : Z) : string :=
  let frac := sdrop 1 digits in
  stake 1 digits +:+ (if nonempty_string frac then "." +:+ frac else "") +:+ (if exp <? 0 then "e-" else "e+")
  +:+ (if Z.abs exp <? 10 then "0" else "") +:+ Itoa (Z.abs exp).
Definition format_f (digits : string) (dp : Z) : string :=
  let nd := Z.of_nat (String.length digits) in
  if 0 <? dp then
    stake (Z.to_nat dp) digits +:+ zeros (dp - nd) +:+ (if dp <? nd then "." +:+ sdrop (Z.to_nat dp) digits else "")
  else "0." +:+ zeros (- dp) +:+ digits.
Definition Sprint_v (x : float64) : string :=
  match x with
  | NaN => "NaN"
  | Inf neg => if neg then "-Inf" else "+Inf"
  | Fin neg n =>
      (if neg then "-" else "") +:+
      (if n =? 0 then "0"
       else
         let d := stripZeros 400 (shortest n) in
         let digits := Itoa (coefficient d) in
         let dp := Z.of_nat (String.length digits) + exponent d in
         if (dp - 1 <? -4) || (6 <=? dp - 1) then format_e digits (dp - 1) else format_f digits dp)
  end.
