(* ===== verification/UpdatePolicy.v ===== *)
(** * deploy: what an update does to an allocation

    deploy/rollout_policy.go, workspace/restart_policy.go, the classification
    loop of [handleUpdatedAllocations] (deploy/allocations.go) and the plan of
    one allocation in deploy/dry_run.go. [None] is a database error. *)
From S2P Require Import Prelude GoStrings Utils Versions Manifest AllocState AllocStateFacts PathMatch.
Open Scope Z_scope.

(** ** workspace/restart_policy.go and workspace/paths.go *)

Definition RestartPolicyAlways : string := "always".
Definition RestartPolicyReload : string := "reload".
Definition RestartPolicyNever : string := "never".

Inductive policy_error :=
| BadPolicy (raw : string)
| GlobsExclusive
| RestartGlobsNeedReload
| ReloadGlobsNeedAlways
| BadGlob (e : glob_error).

Definition NormalizeRestartPolicy (raw : string) : result policy_error string :=
  if bool_decide (raw = "") then Ok RestartPolicyAlways
  else if bool_decide (raw ∈ [RestartPolicyAlways; RestartPolicyReload; RestartPolicyNever]) then Ok raw
  else Err (BadPolicy raw).
Definition EffectiveRestartPolicy (m : Manifest) : string :=
  match NormalizeRestartPolicy (mRestartPolicy m) with Ok policy => policy | Err _ => RestartPolicyAlways end.

Fixpoint validateGlobs (patterns : list string) : result policy_error unit :=
  match patterns with
  | [] => Ok tt
  | pattern :: patterns =>
      match ValidatePattern pattern with
      | Ok _ => validateGlobs patterns
      | Err e => Err (BadGlob e)
      end
  end.
Definition ValidateRestartGlobs (m : Manifest) : result policy_error unit :=
  if (length (mRestartGlobs m) =? 0)%nat then Ok tt
  else
    let? policy := NormalizeRestartPolicy (mRestartPolicy m) in
    if negb (bool_decide (policy = RestartPolicyReload)) then Err RestartGlobsNeedReload
    else validateGlobs (mRestartGlobs m).
Definition ValidateReloadGlobs (m : Manifest) : result policy_error unit :=
  if (length (mReloadGlobs m) =? 0)%nat then Ok tt
  else
    let? policy := NormalizeRestartPolicy (mRestartPolicy m) in
    if negb (bool_decide (policy = RestartPolicyAlways)) then Err ReloadGlobsNeedAlways
    else validateGlobs (mReloadGlobs m).
Definition ValidateRestartPolicy (m : Manifest) : result policy_error unit :=
  let? _ := NormalizeRestartPolicy (mRestartPolicy m) in
  if (0 <? length (mRestartGlobs m))%nat && (0 <? length (mReloadGlobs m))%nat then Err GlobsExclusive
  else
    let? _ := ValidateRestartGlobs m in
    ValidateReloadGlobs m.

Definition JobHooksDirName : string := "_hooks".
Definition JobHooksGlobPattern : string := "_hooks/**".
Definition IsJobHooksPath (rel : string) : bool :=
  let rel := TrimPrefix rel "./" in
  bool_decide (rel = JobHooksDirName) || HasPrefix rel (JobHooksDirName +:+ "/").
Definition IsJobHostLocalPath (rel : string) : bool :=
  let rel := TrimPrefix rel "./" in
  if bool_decide (rel = "") || bool_decide (rel = ".") then false
  else existsb (fun part => negb (bool_decide (part = "")) && HasPrefix part "_") (Split rel slash).

(** ** deploy/rollout_policy.go *)

Definition rolloutActionStart : string := "start".
Definition rolloutActionRestart : string := "restart".
Definition rolloutActionReload : string := "reload".
Definition rolloutActionSync : string := "sync".
Definition rolloutActionSkip : string := "skip".
Definition rolloutActionStop : string := "stop".
Definition rolloutActionStopPromote : string := "stop+promote".

Definition onlyJobHooksChanged (changed : list string) : bool :=
  if (length changed =? 0)%nat then false
  else (length (MatchAny [JobHooksGlobPattern] changed) =? length changed)%nat.

Definition policyAction (policy : string) (restartGlobs reloadGlobs changed : list string)
    (hashChanged versionOnly legacyNoManifest : bool) : string * list string :=
  if bool_decide (policy = RestartPolicyNever) then (rolloutActionSync, [])
  else if bool_decide (policy = RestartPolicyAlways) then
    if (length reloadGlobs =? 0)%nat then (rolloutActionRestart, [])
    else if versionOnly && negb hashChanged then (rolloutActionReload, [])
    else if legacyNoManifest && hashChanged then (rolloutActionRestart, [])
    else if (length changed =? 0)%nat then (rolloutActionReload, [])
    else
      let outside := MatchNotAny reloadGlobs changed in
      if (0 <? length outside)%nat then (rolloutActionRestart, outside)
      else (rolloutActionReload, MatchAny reloadGlobs changed)
  else if bool_decide (policy = RestartPolicyReload) then
    if versionOnly && negb hashChanged then (rolloutActionReload, [])
    else if legacyNoManifest && hashChanged then (rolloutActionReload, [])
    else if (length restartGlobs =? 0)%nat then (rolloutActionReload, [])
    else
      let matched := MatchAny restartGlobs changed in
      if (0 <? length matched)%nat then (rolloutActionRestart, matched)
      else (rolloutActionReload, [])
  else (rolloutActionRestart, []).
Definition resolveUpdateAction (policy : string) (restartGlobs reloadGlobs : list string)
    (previousFiles currentFiles : FileManifest) (hashChanged versionOnly legacyNoManifest : bool) : string * list string :=
  let changed := DiffFileManifests previousFiles currentFiles in
  if negb legacyNoManifest && onlyJobHooksChanged changed then (rolloutActionSync, [])
  else policyAction policy restartGlobs reloadGlobs changed hashChanged versionOnly legacyNoManifest.

(** What an update of a job needs to know of its row. *)
Record JobPolicy := mkPolicy { policy : string; restartGlobs : list string; reloadGlobs : list string }.

Section Actions.
Context `{Unicode}.

Definition AllocationNeedsVersionRollout (db : DB) (job workerIP : string) : option bool :=
  id ← GetAllocationID db workerIP job;
  let '(applied, target) := GetAllocationVersions db id in
  Some (negb (bool_decide (applied = target))).

(** Action, matched paths, and whether only hooks changed. *)
Definition resolveAllocationLifecycle (db : DB) (p : JobPolicy) (job workerIP : string) (hashChanged versionOnly : bool)
    : option (string * list string * bool) :=
  id ← GetAllocationID db workerIP job;
  let manifests := GetAllocationFileManifests db id in
  let changed := DiffFileManifests (mApplied manifests) (mPending manifests) in
  let hooksOnly := onlyJobHooksChanged changed in
  let '(action, matched) := resolveUpdateAction (policy p) (restartGlobs p) (reloadGlobs p)
                              (mApplied manifests) (mPending manifests)
                              hashChanged versionOnly (negb (HasAppliedFiles manifests)) in
  Some (action, matched, hooksOnly).

(** The action of one worker in the loop of [handleUpdatedAllocations]. *)
Definition updateActionOf (db : DB) (p : JobPolicy) (job workerIP : string) : option string :=
  id ← GetAllocationID db workerIP job;
  let hashChanged := match GetAllocationHash db id with
                     | Some (current, previous) => negb (bool_decide (previous = "")) && negb (bool_decide (previous = current))
                     | None => false
                     end in
  needsVersion ← AllocationNeedsVersionRollout db job workerIP;
  let versionOnly := needsVersion && negb hashChanged in
  let manifests := GetAllocationFileManifests db id in
  let '(action, _) := resolveUpdateAction (policy p) (restartGlobs p) (reloadGlobs p)
                        (mApplied manifests) (mPending manifests) hashChanged versionOnly (negb (HasAppliedFiles manifests)) in
  Some action.

(** The workers to reload and to restart. *)
Fixpoint classifyUpdates (db : DB) (p : JobPolicy) (job : string) (workers : list string) : option (list string * list string) :=
  match workers with
  | [] => Some ([], [])
  | ip :: workers =>
      action ← updateActionOf db p job ip;
      '(reload, restart) ← classifyUpdates db p job workers;
      Some (if bool_decide (action = rolloutActionSync) then (reload, restart)
            else if bool_decide (action = rolloutActionRestart) then (reload, ip :: restart)
            else (ip :: reload, restart))
  end.

(** ** deploy/dry_run.go *)

Record AllocationPlan := mkPlan {
  planWorkerIP : string;
  planAction : string;
  planAppliedHash : string;
  planPendingHash : string;
  MatchedPaths : list string;
}.
Definition planActiveAllocation (db : DB) (p : JobPolicy) (force : bool) (job workerIP : string) : option (AllocationPlan * bool) :=
  id ← GetAllocationID db workerIP job;
  match GetAllocationHash db id with
  | None => Some (mkPlan workerIP rolloutActionStart "" "" [], true)
  | Some (current, previous) =>
      if bool_decide (previous = "") then Some (mkPlan workerIP rolloutActionStart "" current [], true)
      else if negb (bool_decide (previous = current)) then
        '(action, matched, hooksOnly) ← resolveAllocationLifecycle db p job workerIP true false;
        Some (mkPlan workerIP action previous current matched,
              negb (hooksOnly && bool_decide (action = rolloutActionSync)))
      else if force then
        '(action, matched, _) ← resolveAllocationLifecycle db p job workerIP false false;
        Some (mkPlan workerIP action previous current matched, true)
      else
        needsVersion ← AllocationNeedsVersionRollout db job workerIP;
        if needsVersion : bool then
          '(action, matched, _) ← resolveAllocationLifecycle db p job workerIP false true;
          Some (mkPlan workerIP action previous current matched, true)
        else Some (mkPlan workerIP rolloutActionSkip previous current [], false)
  end.
Definition planDisabledAllocation (db : DB) (force : bool) (job workerIP : string) : option (AllocationPlan * bool) :=
  id ← GetAllocationID db workerIP job;
  let '(current, previous) := default ("", "") (GetAllocationHash db id) in
  let ok := bool_decide (is_Some (GetAllocationHash db id)) in
  let wasDeployed := ok && negb (bool_decide (previous = "")) in
  needsVersion ← AllocationNeedsVersionRollout db job workerIP;
  let hashMismatch := wasDeployed && negb (bool_decide (previous = current)) in
  let needsPromote := hashMismatch || needsVersion || (force && wasDeployed) in
  Some (mkPlan workerIP (if needsPromote then rolloutActionStopPromote else rolloutActionStop) previous current [], true).
End Actions.

(** ** Facts on update actions

    The decision table of [resolveUpdateAction], its agreement with the
    dry run, and the actions on allocations whose health gate failed. *)

(** ** Changes to hooks *)

Lemma uniqueLoop_id l : forall seen, NoDup l -> (forall x, x ∈ l -> x ∉ seen) -> uniqueLoop seen l = l.
Proof.
  induction l as [|x l IH]; intros seen Hn Hs; [done|]. apply NoDup_cons in Hn as [Hx Hn]. cbn [uniqueLoop].
  rewrite bool_decide_eq_false_2 by (apply Hs; left). f_equal. apply IH; [done|].
  intros y Hy. apply not_elem_of_union. split.
  - intros Hyx%elem_of_singleton. by subst.
  - apply Hs. by right.
Qed.
Lemma Unique_id l : NoDup l -> Unique l = l.
Proof. intros Hn. apply uniqueLoop_id; [done|]. intros x _. apply not_elem_of_empty. Qed.

Lemma filter_length_all {A} (p : A -> bool) l :
  length (List.filter p l) = length l <-> forall x, x ∈ l -> p x = true.
Proof.
  induction l as [|a l IH]; cbn; [split; [by intros _ ? ?%elem_of_nil|done]|].
  pose proof (List.filter_length_le p l). destruct (p a) eqn:Ea; cbn.
  - split.
    + intros [=] x [->|Hx]%elem_of_cons; [done|]. by apply IH.
    + intros Hp. f_equal. apply IH. intros x Hx. apply Hp. by right.
  - split; [lia|]. intros Hp. rewrite Hp in Ea by left. done.
Qed.

Lemma onlyJobHooksChanged_iff changed :
  NoDup changed ->
  onlyJobHooksChanged changed = true <-> changed <> [] /\ forall p, p ∈ changed -> Match JobHooksGlobPattern p = true.
Proof.
  intros Hn. unfold onlyJobHooksChanged. destruct changed as [|p l]; [by split; [|intros [? _]]|].
  cbn [length Nat.eqb]. rewrite MatchAny_filter, Unique_id by (by apply NoDup_filter_b).
  rewrite Nat.eqb_eq. change (S (length l)) with (length (p :: l)). rewrite filter_length_all.
  setoid_rewrite orb_false_r. split; [by intros|]. by intros [_ ?].
Qed.

(** On a path relative to the job the glob of the deploy and the test of the
    workspace agree. *)
Lemma hooks_glob rel :
  HasPrefix rel "/" = false -> HasPrefix rel "./" = false -> Match JobHooksGlobPattern rel = IsJobHooksPath rel.
Proof.
  intros H1 H2. change JobHooksGlobPattern with ("_hooks" +:+ "/**").
  rewrite Match_dir_lemma by (try done; vm_compute; reflexivity).
  unfold IsJobHooksPath, TrimPrefix. rewrite H1, H2. done.
Qed.

Definition hooks_only (changed : list string) : Prop :=
  changed <> [] /\ forall p, p ∈ changed -> Match JobHooksGlobPattern p = true.

(** ** The decision table *)

Lemma length_pos {A} (l : list A) : (0 <? length l)%nat = true <-> l <> [].
Proof. by destruct l. Qed.

Definition some_match (patterns changed : list string) : Prop :=
  exists p g, p ∈ changed /\ g ∈ patterns /\ Match g p = true.
Definition all_match (patterns changed : list string) : Prop :=
  forall p, p ∈ changed -> exists g, g ∈ patterns /\ Match g p = true.

Lemma MatchAny_nonempty patterns changed : (0 <? length (MatchAny patterns changed))%nat = true <-> some_match patterns changed.
Proof.
  rewrite length_pos. split.
  - intros Hn. destruct (MatchAny patterns changed) as [|p l] eqn:Em; [done|].
    assert (Hp : p ∈ MatchAny patterns changed) by (rewrite Em; left).
    apply elem_of_MatchAny in Hp as (Hp & g & Hg & Hm). by exists p, g.
  - intros (p & g & Hp & Hg & Hm) Hn.
    assert (Hin : p ∈ MatchAny patterns changed) by (apply elem_of_MatchAny; eauto).
    rewrite Hn in Hin. by apply elem_of_nil in Hin.
Qed.
Lemma MatchNotAny_empty patterns changed :
  patterns <> [] -> (0 <? length (MatchNotAny patterns changed))%nat = false <-> all_match patterns changed.
Proof.
  intros Hp. rewrite <- not_true_iff_false, length_pos. split.
  - intros Hn p Hin. destruct (existsb (fun g => Match g p) patterns) eqn:Ex.
    + apply existsb_exists in Ex as (g & Hg%list_elem_of_In & Hm). eauto.
    + destruct Hn. intros Hne. assert (Hx : p ∈ MatchNotAny patterns changed).
      { apply elem_of_MatchNotAny; [done|]. split; [done|]. intros g Hg. apply not_true_iff_false. intros Hm.
        rewrite <- not_true_iff_false in Ex. apply Ex, existsb_exists. exists g. by rewrite <- list_elem_of_In. }
      rewrite Hne in Hx. by apply elem_of_nil in Hx.
  - intros Ha Hn. destruct (MatchNotAny patterns changed) as [|p l] eqn:Em; [done|].
    assert (Hx : p ∈ MatchNotAny patterns changed) by (rewrite Em; left).
    apply elem_of_MatchNotAny in Hx as [Hin Hall]; [|done]. destruct (Ha p Hin) as (g & Hg & Hm). by rewrite Hall in Hm.
Qed.

(** When an update may reload rather than restart. *)
Definition may_reload (p : JobPolicy) (changed : list string) (hashChanged versionOnly legacy : bool) : Prop :=
  (policy p = RestartPolicyAlways /\ reloadGlobs p <> []
   /\ (versionOnly && negb hashChanged = true \/ legacy && hashChanged = false /\ all_match (reloadGlobs p) changed))
  \/ (policy p = RestartPolicyReload
      /\ (versionOnly && negb hashChanged = true \/ legacy && hashChanged = true \/ ~ some_match (restartGlobs p) changed)).

Lemma policyAction_spec p changed hc vo legacy :
  let '(action, files) := policyAction (policy p) (restartGlobs p) (reloadGlobs p) changed hc vo legacy in
  (action = rolloutActionSync /\ policy p = RestartPolicyNever
   \/ action = rolloutActionReload /\ policy p <> RestartPolicyNever /\ may_reload p changed hc vo legacy
   \/ action = rolloutActionRestart /\ policy p <> RestartPolicyNever /\ ~ may_reload p changed hc vo legacy)
  /\ forall f, f ∈ files -> f ∈ changed.
Proof.
  unfold policyAction, may_reload. destruct p as [pol rg lg]. cbn [policy restartGlobs reloadGlobs].
  assert (Hn : forall f, f ∈ @nil string -> f ∈ changed) by (by intros f ?%elem_of_nil).
  assert (Ha : forall pats f, f ∈ MatchAny pats changed -> f ∈ changed) by (intros pats f Hf; by apply elem_of_MatchAny in Hf as [? _]).
  case_bool_decide as H1; [by split; [left|]|].
  case_bool_decide as H2; [|case_bool_decide as H3].
  - subst pol. destruct lg as [|g lg]; cbn [length Nat.eqb].
    { split; [|done]. right; right. split_and!; [done|done|]. intros [(_ & [] & _)|[[=] _]]; done. }
    destruct (vo && negb hc) eqn:E1.
    { split; [|done]. right; left. split_and!; try done. left. auto. }
    destruct (legacy && hc) eqn:E2.
    { split; [|done]. right; right. split_and!; [done|done|]. intros [(_ & _ & [?|[? _]])|[[=] _]]; done. }
    destruct (length changed =? 0)%nat eqn:E3.
    { apply Nat.eqb_eq in E3. destruct changed; [|done]. split; [|done]. right; left. split_and!; try done.
      left. split_and!; try done. right. split; [done|]. by intros f ?%elem_of_nil. }
    destruct (0 <? length (MatchNotAny (g :: lg) changed))%nat eqn:E4.
    + split; [|intros f Hf; by apply elem_of_MatchNotAny in Hf as [? _]].
      right; right. split_and!; [done|done|]. intros [(_ & _ & [?|[_ Hall]])|[[=] _]]; [done|].
      apply MatchNotAny_empty in Hall; [congruence|done].
    + split; [|apply Ha]. right; left. split_and!; try done. left. split_and!; try done. right.
      split; [done|]. by apply MatchNotAny_empty.
  - subst pol. destruct (vo && negb hc) eqn:E1.
    { split; [|done]. right; left. split_and!; try done. right. auto. }
    destruct (legacy && hc) eqn:E2.
    { split; [|done]. right; left. split_and!; try done. right. auto. }
    destruct (length rg =? 0)%nat eqn:E3.
    { apply Nat.eqb_eq in E3. destruct rg; [|done]. split; [|done]. right; left. split_and!; try done.
      right. split; [done|]. right; right. intros (f & g & _ & Hg & _). by apply elem_of_nil in Hg. }
    destruct (0 <? length (MatchAny rg changed))%nat eqn:E4.
    + split; [|apply Ha]. right; right. split_and!; [done|done|]. apply MatchAny_nonempty in E4.
      intros [([=] & _)|(_ & [?|[?|?]])]; done.
    + split; [|done]. right; left. split_and!; try done. right. split; [done|]. right; right.
      rewrite <- MatchAny_nonempty. congruence.
  - split; [|done]. right; right. split_and!; [done|done|]. by intros [(? & _)|(? & _)].
Qed.

Lemma resolveUpdateAction_lemma p prev cur hc vo legacy :
  let changed := DiffFileManifests prev cur in
  let '(action, files) := resolveUpdateAction (policy p) (restartGlobs p) (reloadGlobs p) prev cur hc vo legacy in
  let quiet := policy p = RestartPolicyNever \/ legacy = false /\ hooks_only changed in
  (action = rolloutActionSync /\ quiet
   \/ action = rolloutActionReload /\ ~ quiet /\ may_reload p changed hc vo legacy
   \/ action = rolloutActionRestart /\ ~ quiet /\ ~ may_reload p changed hc vo legacy)
  /\ forall f, f ∈ files -> f ∈ changed.
Proof.
  cbn zeta. unfold resolveUpdateAction. cbn zeta.
  pose proof (onlyJobHooksChanged_iff _ (NoDup_DiffFileManifests prev cur)) as Hh.
  set (changed := DiffFileManifests prev cur) in *. fold (hooks_only changed) in Hh.
  destruct (negb legacy && onlyJobHooksChanged changed) eqn:Eq.
  - bool_to_prop. split; [|by intros f ?%elem_of_nil]. left. split; [done|]. right. split; [done|]. by apply Hh.
  - pose proof (policyAction_spec p changed hc vo legacy) as Hp.
    destruct (policyAction _ _ _ _ _ _ _) as [action files]. destruct Hp as [Hp Hf]. split; [|done].
    assert (Hq : ~ (legacy = false /\ hooks_only changed)).
    { intros [-> Hx]. cbn in Eq. apply Hh in Hx. congruence. }
    tauto.
Qed.

(** ** The dry run and the deploy *)

Section Versions.
Context `{Unicode}.

Definition normalized (v : option string) : Prop := match v with Some v => NormalizeDeployVersion v = v | None => True end.

Lemma NormalizeDeployVersion_empty : NormalizeDeployVersion "" = DefaultAllocationVersion.
Proof. reflexivity. Qed.

Lemma needsVersion_iff db a h :
  wf_db db -> a ∈ allocations db -> allocation_hashes db !! aAllocID a = Some h ->
  normalized (aVersion a) -> normalized (applied_version h) ->
  AllocationNeedsVersionRollout db (aJob a) (aWorker a) = Some (version_pending db a).
Proof.
  intros Hwf Ha Hh Hv Hav. unfold AllocationNeedsVersionRollout. rewrite GetAllocationID_row by done. cbn.
  rewrite versionOf_row by done. unfold version_pending. rewrite Hh. cbn. do 3 f_equal.
  assert (Hd : forall v, normalized v -> match v with Some v => NormalizeDeployVersion v | None => DefaultAllocationVersion end
                                    = default DefaultAllocationVersion v) by (by intros [v|]).
  rewrite Hd by done. destruct (applied_version h) as [v|]; cbn; [by rewrite Hav|by rewrite NormalizeDeployVersion_empty].
Qed.

(** The row of an allocation that was started before. *)
Record started (db : DB) (a : AllocRow) (applied pending : string) : Prop := mkStarted {
  st_row : a ∈ allocations db;
  st_active : isActive a = true;
  st_hash : exists h, allocation_hashes db !! aAllocID a = Some h /\ pending_hash h = Some pending
                   /\ applied_hash h = Some applied /\ normalized (applied_version h);
  st_applied : applied <> "";
  st_version : normalized (aVersion a);
  st_files : applied = pending -> filesOf db (aAllocID a) f_applied = filesOf db (aAllocID a) f_pending;
}.

Lemma action_no_change p hc vo vo' :
  (resolveUpdateAction (policy p) (restartGlobs p) (reloadGlobs p) hc hc false vo false).1
  = (resolveUpdateAction (policy p) (restartGlobs p) (reloadGlobs p) hc hc false vo' false).1.
Proof.
  unfold resolveUpdateAction, policyAction. cbn zeta. rewrite DiffFileManifests_nil. cbn [negb andb onlyJobHooksChanged length Nat.eqb].
  unfold MatchAny. cbn [length Nat.eqb]. rewrite ?orb_true_r. cbn [length Nat.ltb Nat.leb].
  repeat (case_bool_decide; try done); repeat (case_goal; try done).
Qed.

Lemma updateActionOf_started db p a applied pending :
  wf_db db -> started db a applied pending ->
  updateActionOf db p (aJob a) (aWorker a)
  = Some (resolveUpdateAction (policy p) (restartGlobs p) (reloadGlobs p)
            (filesOf db (aAllocID a) f_applied) (filesOf db (aAllocID a) f_pending)
            (negb (bool_decide (applied = pending)))
            (version_pending db a && bool_decide (applied = pending)) false).1.
Proof.
  intros Hwf [Ha Hact (h & Hh & Hp & Hap & Hv) Hne Hver Hf]. unfold updateActionOf.
  rewrite (needsVersion_iff db a h) by done. rewrite GetAllocationID_row by done. cbn.
  unfold GetAllocationHash. rewrite Hh. cbn. rewrite Hp, Hap. cbn.
  rewrite (bool_decide_eq_false_2 (applied = "")) by done. cbn. rewrite negb_involutive. by destruct (resolveUpdateAction _ _ _ _ _ _ _ _).
Qed.

Lemma resolveAllocationLifecycle_started db p a applied pending hc vo :
  wf_db db -> started db a applied pending ->
  exists r, resolveAllocationLifecycle db p (aJob a) (aWorker a) hc vo = Some r
    /\ r.1.1 = (resolveUpdateAction (policy p) (restartGlobs p) (reloadGlobs p)
                  (filesOf db (aAllocID a) f_applied) (filesOf db (aAllocID a) f_pending) hc vo false).1.
Proof.
  intros Hwf [Ha Hact (h & Hh & Hp & Hap & Hv) Hne Hver Hf]. unfold resolveAllocationLifecycle.
  rewrite GetAllocationID_row by done. cbn. rewrite Hh, Hap. cbn.
  destruct (resolveUpdateAction _ _ _ _ _ _ _ _) as [action files]. eauto.
Qed.

Lemma forced_restart_elem db a :
  wf_db db -> a ∈ allocations db -> isActive a = true -> is_new db a = false ->
  exists l, allocationsNeedingRestart db (aJob a) true = Some l /\ aWorker a ∈ l.
Proof.
  intros Hwf Ha Hact Hn. unfold allocationsNeedingRestart. cbn [negb]. rewrite GetActiveAllocations_rows by done.
  eexists. split; [reflexivity|].
  assert (Hin : aWorker a ∈ workersWhere db (aJob a) isActive) by (apply workersWhere_elem; eauto).
  unfold Difference. destruct (workersWhere db (aJob a) isActive) as [|x l] eqn:Ew; [by apply elem_of_nil in Hin|].
  cbn [length Nat.eqb]. apply elem_of_list_filter_b. split; [done|].
  apply negb_true_iff, bool_decide_eq_false. rewrite elem_of_list_to_set. intros Hx.
  apply workersWhere_elem in Hx as (b & Hb & Hw & Hj & Hp). bool_to_prop.
  rewrite (row_unique db (aJob a) (aWorker a) b a Hwf Hb Ha Hw eq_refl Hj eq_refl) in *. congruence.
Qed.

Lemma plan_agrees_lemma db p a applied pending force :
  wf_db db -> started db a applied pending ->
  exists plan needs l,
    planActiveAllocation db p force (aJob a) (aWorker a) = Some (plan, needs)
    /\ allocationsNeedingRestart db (aJob a) force = Some l
    /\ (aWorker a ∈ l -> updateActionOf db p (aJob a) (aWorker a) = Some (planAction plan))
    /\ (aWorker a ∉ l -> planAction plan = rolloutActionSkip /\ needs = false).
Proof.
  intros Hwf Hs. pose proof Hs as [Ha Hact (h & Hh & Hp & Hap & Hv) Hne Hver Hf].
  assert (Hnew : is_new db a = false) by (unfold is_new; rewrite Hh, Hap; by apply bool_decide_eq_false_2).
  assert (Hupd : is_updated db a = negb (bool_decide (applied = pending))) by (unfold is_updated; by rewrite Hh, Hp, Hap).
  unfold planActiveAllocation. rewrite GetAllocationID_row by done. cbn [mbind option_bind].
  unfold GetAllocationHash. rewrite Hh. cbn. rewrite Hp, Hap. cbn.
  rewrite (bool_decide_eq_false_2 (applied = "")) by done. rewrite (updateActionOf_started db p a applied pending) by done.
  assert (Hl : exists l, allocationsNeedingRestart db (aJob a) force = Some l
    /\ (aWorker a ∈ l <-> force = true \/ is_updated db a = true \/ version_pending db a = true)).
  { destruct force.
    - destruct (forced_restart_elem db a Hwf Ha Hact Hnew) as (l & Hl & Hin). exists l. split; [done|]. split; [by left|done].
    - destruct (allocationsNeedingRestart_elem db (aJob a) a Hwf Ha eq_refl Hact) as (l & Hl & Hin).
      exists l. split; [done|]. rewrite Hin. split; [intros [_ ?]; by right|]. intros [[=]|?]. done. }
  destruct Hl as (l & Hl & Hin). rewrite Hl.
  case_bool_decide as He; cbn [negb].
  - subst pending. rewrite andb_true_r. specialize (Hf eq_refl). rewrite Hf. destruct force.
    + destruct (resolveAllocationLifecycle_started db p a applied applied false false Hwf Hs) as ([[act ms] ho] & -> & Hr).
      cbn in *. rewrite Hf in Hr. eexists _, _, l. split; [done|]. split; [done|]. split.
      * intros _. cbn. rewrite Hr. f_equal. apply action_no_change.
      * intros Hni. destruct Hni. apply Hin. by left.
    + rewrite (needsVersion_iff db a h) by done. cbn. destruct (version_pending db a) eqn:Ev.
      * destruct (resolveAllocationLifecycle_started db p a applied applied false true Hwf Hs) as ([[act ms] ho] & -> & Hr).
        cbn in *. rewrite Hf in Hr. eexists _, _, l. split; [done|]. split; [done|]. split.
        -- intros _. cbn. by rewrite Hr.
        -- intros Hni. destruct Hni. apply Hin. auto.
      * eexists _, _, l. split; [done|]. split; [done|]. split; [|done].
        intros Hx. apply Hin in Hx as [?|[Hu|?]]; [done| |done]. by rewrite Hupd in Hu.
  - rewrite andb_false_r.
    destruct (resolveAllocationLifecycle_started db p a applied pending true false Hwf Hs) as ([[act ms] ho] & -> & Hr).
    cbn in *. eexists _, _, l. split; [done|]. split; [done|]. split.
    + intros _. cbn. by rewrite Hr.
    + intros Hni. destruct Hni. apply Hin. right; left. by rewrite Hupd.
Qed.
End Versions.

(** ** Policy [never] *)

Lemma updateActionOf_never `{Unicode} db p job ip :
  policy p = RestartPolicyNever -> is_Some (GetAllocationID db ip job) -> updateActionOf db p job ip = Some rolloutActionSync.
Proof.
  intros Hp [id Hid]. unfold updateActionOf, AllocationNeedsVersionRollout. rewrite Hid. cbn [mbind option_bind].
  destruct (GetAllocationVersions db id) as [x y]. cbn [mbind option_bind].
  unfold resolveUpdateAction, policyAction. rewrite Hp, (bool_decide_eq_true_2 (RestartPolicyNever = _)) by done.
  cbn zeta. by destruct (negb _ && onlyJobHooksChanged _).
Qed.

Lemma classifyUpdates_never `{Unicode} db p job l :
  policy p = RestartPolicyNever -> (forall ip, ip ∈ l -> is_Some (GetAllocationID db ip job)) ->
  classifyUpdates db p job l = Some ([], []).
Proof.
  intros Hp. induction l as [|ip l IH]; intros Hl; [done|]. cbn [classifyUpdates].
  rewrite updateActionOf_never by (try done; apply Hl; left). cbn [mbind option_bind].
  rewrite IH by (intros x Hx; apply Hl; by right). done.
Qed.

(** ** After a failed gate *)

Lemma classifyUpdates_elem `{Unicode} db p job l : forall reload restart,
  classifyUpdates db p job l = Some (reload, restart) ->
  forall ip, ip ∈ reload ++ restart <-> ip ∈ l /\ updateActionOf db p job ip <> Some rolloutActionSync.
Proof.
  induction l as [|x l IH]; intros reload restart; cbn [classifyUpdates].
  { intros [= <- <-] ip. cbn [app]. split; [by intros ?%elem_of_nil|by intros [?%elem_of_nil _]]. }
  destruct (updateActionOf db p job x) as [act|] eqn:Ea; [|done]. cbn [mbind option_bind].
  destruct (classifyUpdates db p job l) as [[rl rs]|]; [|done]. cbn [mbind option_bind]. intros [= He] ip.
  specialize (IH rl rs eq_refl ip). rewrite elem_of_app in IH. rewrite elem_of_cons, elem_of_app.
  assert (ip ∈ reload \/ ip ∈ restart <-> (ip = x /\ act <> rolloutActionSync) \/ (ip ∈ rl \/ ip ∈ rs)) as ->.
  { repeat case_bool_decide; injection He as <- <-; rewrite ?elem_of_cons; naive_solver. }
  rewrite IH. destruct (decide (ip = x)) as [->|]; [rewrite Ea|naive_solver].
  split; [intros [[_ ?]|[_ ?]]|intros [_ ?]; left]; naive_solver congruence.
Qed.

Lemma classifyUpdates_total `{Unicode} db p job l :
  (forall ip, ip ∈ l -> is_Some (GetAllocationID db ip job)) -> exists reload restart, classifyUpdates db p job l = Some (reload, restart).
Proof.
  induction l as [|x l IH]; intros Hl; [by do 2 eexists|]. cbn [classifyUpdates].
  destruct IH as (rl & rs & ->); [intros ip Hip; apply Hl; by right|].
  destruct (Hl x ltac:(left)) as [id Hid]. unfold updateActionOf, AllocationNeedsVersionRollout. rewrite Hid.
  cbn [mbind option_bind]. destruct (GetAllocationVersions db id). cbn [mbind option_bind].
  destruct (resolveUpdateAction _ _ _ _ _ _ _ _). cbn [mbind option_bind]. repeat case_goal; eauto.
Qed.

Lemma policyAction_sync pol rg lg changed hc vo legacy :
  (policyAction pol rg lg changed hc vo legacy).1 = rolloutActionSync <-> pol = RestartPolicyNever.
Proof.
  unfold policyAction. destruct (decide (pol = RestartPolicyNever)) as [->|Hn]; [by split|].
  rewrite (bool_decide_eq_false_2 (pol = RestartPolicyNever)) by done. split; [|done].
  destruct (bool_decide (pol = RestartPolicyAlways)), (bool_decide (pol = RestartPolicyReload)); repeat case_match; done.
Qed.

(** The files of a promoted row do not differ, and its hash does: the update
    loop reloads or restarts it under every policy but [never]. *)
Lemma updateActionOf_gated `{Unicode} db job batch db' p ip :
  wf_db db -> planned db job -> batch_active db job batch ->
  (forall id h, allocation_hashes db !! id = Some h -> pending_hash h <> Some HealthFailedAppliedHash) ->
  gated db job batch false db' -> ip ∈ batch ->
  updateActionOf db' p job ip = Some rolloutActionSync <-> policy p = RestartPolicyNever.
Proof.
  intros Hwf Hplan Hbatch Hsent Hg Hip.
  destruct (gated_row db job batch Hwf Hplan Hbatch Hsent false db' ip Hg Hip) as (a & h & d & Ha & <- & <- & _ & Hi & Hwf' & Hne & Hh & Hp & Hap & _).
  assert (Hfiles : filesOf db' (aAllocID a) f_applied = filesOf db' (aAllocID a) f_pending).
  { apply map_eq. intros path. rewrite !filesOf_lookup. destruct (gt_batch _ _ _ _ _ Hg _ Hi) as [_ ->].
    by destruct (allocation_file_hashes db !! (aAllocID a, path)) as [[[x|] y]|]. }
  unfold updateActionOf, AllocationNeedsVersionRollout, GetAllocationHash. rewrite GetAllocationID_row by done.
  cbn [mbind option_bind]. destruct (GetAllocationVersions db' (aAllocID a)) as [v w]. cbn [mbind option_bind]. rewrite Hh.
  cbn. rewrite Hfiles, Hh, Hp, Hap. cbn. rewrite (bool_decide_eq_false_2 (HealthFailedAppliedHash = d)) by congruence.
  unfold resolveUpdateAction. rewrite DiffFileManifests_nil. cbn [onlyJobHooksChanged length Nat.eqb]. rewrite andb_false_r.
  match goal with |- context [policyAction ?q ?rs ?rl ?c ?hc ?vo ?lg] =>
    rewrite <- (policyAction_sync q rs rl c hc vo lg); destruct (policyAction q rs rl c hc vo lg) as [act fs] end.
  cbn. split; congruence.
Qed.

(** ** Properties *)

(** C37: After a batch of active allocations is promoted, the health gate decides:
    if it fails, exactly the allocations of the batch are put back on the list
    of allocations to update, the next deploy's update loop reloads or
    restarts each of them unless the job's policy is [never], and the job
    needs a rollout; if it passes none of them is on the list. The rows of the
    batch, of both tables, are the promoted ones, with the mark of a failed
    gate on the hash alone; every other row of either table is as it was. *)
Theorem promoteThenHealth_retry `{Unicode} healthy db job batch p :
  wf_db db -> planned db job -> batch_active db job batch ->
  (forall id h, allocation_hashes db !! id = Some h -> pending_hash h <> Some HealthFailedAppliedHash) ->
  exists db1 db' l reload restart,
    promoteAllocationWorkers db job batch = Some db1
    /\ promoteThenHealth healthy db job batch = Some (db', healthy db1)
    /\ allocationsNeedingRestart db' job false = Some l
    /\ classifyUpdates db' p job l = Some (reload, restart)
    /\ (forall ip, ip ∈ batch -> (ip ∈ l <-> healthy db1 = false)
          /\ (ip ∈ reload ++ restart <-> healthy db1 = false /\ policy p <> RestartPolicyNever))
    /\ (healthy db1 = false -> batch <> [] -> JobNeedsRollout db' job = Some true)
    /\ gated db job batch (healthy db1) db'.
Proof.
  intros Hwf Hplan Hbatch Hsent. destruct (gate_rows db job batch Hwf Hplan Hbatch healthy) as (db1 & db' & H1 & H2 & Hg).
  assert (Hwf' : wf_db db') by (unfold wf_db; by rewrite (gt_allocations _ _ _ _ _ Hg)).
  assert (exists l, allocationsNeedingRestart db' job false = Some l) as [l Hl] by (by eexists).
  destruct (classifyUpdates_total db' p job l) as (reload & restart & Hc).
  { intros ip Hip. by eapply needing_ids. }
  exists db1, db', l, reload, restart. split_and!; try done; [|intros Hf; rewrite Hf in Hg; by apply (gated_needs db job batch Hwf Hplan Hbatch Hsent)].
  intros ip Hip. destruct (gated_restart db job batch Hwf Hplan Hbatch Hsent _ db' ip Hg Hip) as (l' & Hl' & Hin).
  rewrite Hl in Hl'. injection Hl' as <-. split; [done|]. rewrite (classifyUpdates_elem db' p job l reload restart Hc), Hin.
  split; intros [Hf Hn]; (split; [done|]); rewrite Hf in Hg; by rewrite (updateActionOf_gated db job batch db' p ip) in *.
Qed.

Lemma promoteThenHealth_retry_witness :
  let batch := ["10.0.0.2"; "10.0.0.1"] in let p := mkPolicy "reload" ["*.sh"] [] in
  exists db1 db' l reload restart,
    promoteAllocationWorkers example_db "web" batch = Some db1
    /\ promoteThenHealth (fun _ => false) example_db "web" batch = Some (db', false)
    /\ allocationsNeedingRestart db' "web" false = Some l
    /\ classifyUpdates (H := ascii_unicode) db' p "web" l = Some (reload, restart)
    /\ (forall ip, ip ∈ batch -> (ip ∈ l <-> false = false)
          /\ (ip ∈ reload ++ restart <-> false = false /\ policy p <> RestartPolicyNever))
    /\ (false = false -> batch <> [] -> JobNeedsRollout db' "web" = Some true)
    /\ gated example_db "web" batch false db'.
Proof.
  apply (promoteThenHealth_retry (H := ascii_unicode) (fun _ => false) example_db "web" ["10.0.0.2"; "10.0.0.1"] (mkPolicy "reload" ["*.sh"] [])).
  - exact example_db_wf.
  - exact example_db_planned.
  - exact example_batch.
  - exact example_db_sent.
Defined.

(** The action on an updated allocation. It is left alone when the policy is
    [never] or only hooks changed; otherwise it is reloaded exactly when the
    policy allows it - under [always] when every changed file matches a
    reload glob, under [reload] when none matches a restart glob, with the
    exceptions for a version-only change and for allocations without a file
    manifest - and restarted in all other cases. Reported paths are changed. *)
Theorem resolveUpdateAction_decides p previous current hashChanged versionOnly legacy :
  let changed := DiffFileManifests previous current in
  let '(action, files) := resolveUpdateAction (policy p) (restartGlobs p) (reloadGlobs p) previous current hashChanged versionOnly legacy in
  let quiet := policy p = RestartPolicyNever \/ legacy = false /\ hooks_only changed in
  (action = rolloutActionSync /\ quiet
   \/ action = rolloutActionReload /\ ~ quiet /\ may_reload p changed hashChanged versionOnly legacy
   \/ action = rolloutActionRestart /\ ~ quiet /\ ~ may_reload p changed hashChanged versionOnly legacy)
  /\ forall f, f ∈ files -> f ∈ changed.
Proof. apply resolveUpdateAction_lemma. Qed.

(** C38: The dry run announces what the deploy does: for an active allocation that
    was started before, it names the action of the update loop when the
    allocation is among those to update, and [skip] when it is not. *)
Theorem dry_run_agrees `{Unicode} db p a applied pending force :
  wf_db db -> started db a applied pending ->
  exists plan needs l,
    planActiveAllocation db p force (aJob a) (aWorker a) = Some (plan, needs)
    /\ allocationsNeedingRestart db (aJob a) force = Some l
    /\ (aWorker a ∈ l -> updateActionOf db p (aJob a) (aWorker a) = Some (planAction plan))
    /\ (aWorker a ∉ l -> planAction plan = rolloutActionSkip /\ needs = false).
Proof. apply plan_agrees_lemma. Qed.

Lemma dry_run_agrees_witness :
  let a := mkAlloc "a1" "10.0.0.1" "web" 0 0 (Some "1.1.0") in
  let p := mkPolicy "reload" ["conf"] [] in
  exists plan needs l,
    planActiveAllocation (H := ascii_unicode) example_db p false "web" "10.0.0.1" = Some (plan, needs)
    /\ allocationsNeedingRestart example_db "web" false = Some l
    /\ ("10.0.0.1" ∈ l -> updateActionOf (H := ascii_unicode) example_db p "web" "10.0.0.1" = Some (planAction plan))
    /\ ("10.0.0.1" ∉ l -> planAction plan = rolloutActionSkip /\ needs = false).
Proof.
  apply (dry_run_agrees (H := ascii_unicode) example_db (mkPolicy "reload" ["conf"] [])
           (mkAlloc "a1" "10.0.0.1" "web" 0 0 (Some "1.1.0")) "h1" "h2" false); [exact example_db_wf|].
  split.
  - left.
  - reflexivity.
  - eexists. split; [reflexivity|]. repeat split; reflexivity.
  - discriminate.
  - vm_compute. reflexivity.
  - discriminate.
Defined.
