(* ===== verification/Deploy.v ===== *)
(** * deploy: the rollout of one job

    [deployJob] of deploy/job_deploy.go for a job without job_control hooks,
    with [handleNewAllocations] and [handleUpdatedAllocations] of
    deploy/allocations.go and [promoteThenHealth] of deploy/hashes.go. The
    state is the allocation tables and a world [W]: the workers, the key-value
    store and the logs, which the commands, hooks and health checks change. *)
From S2P Require Import Prelude GoStrings Utils Kv Rollout Versions Manifest AllocState PathMatch UpdatePolicy.
Open Scope Z_scope.

(** [data.IsAllocationActive]: its flags are compared one by one. *)
Definition IsAllocationActive (db : DB) (workerIP job : string) : option bool :=
  removed ← IsAllocationRemoved db workerIP job;
  if removed =? 1 then Some false
  else disabled ← IsAllocationDisabled db workerIP job; Some (disabled =? 0).

(** What the database rows and the configuration say of a job. *)
Record JobSettings (E : Type) := mkSettings {
  maxConcurrentStarts : result E Z;
  maxConcurrentRestarts : result E Z;
  maxConcurrentSyncs : result E Z;
  jobPolicy : result E JobPolicy;
}.
Arguments mkSettings {E}.
Arguments maxConcurrentStarts {E}.
Arguments maxConcurrentRestarts {E}.
Arguments maxConcurrentSyncs {E}.
Arguments jobPolicy {E}.

Section deploy.
Context `{Unicode} {W E : Type}.
Notation St := (DB * W)%type.
Notation step := (St -> St * option E).
Notation effect := (DB -> W -> W * option E).

Variable databaseError : E.
Variable settings : JobSettings E.
(** [data.GetNonRemovedAllocationsOrdered] and the session's KV store. *)
Variable catalogOf : DB -> result E (list string).
Variable sessionStore : W -> option Store.
(** [healthcheck.DeployHealthCheck], before and after a batch. *)
Variable DeployHealthCheck : effect.
(** File transfer and lifecycle command on the workers of a batch. *)
Variable runWorkers : string -> list string -> effect.
Variable executeAfterAllocation : list string -> BatchContext -> effect.

(** An effect leaves the allocation tables alone. *)
Definition lift (f : effect) : step := fun s => let '(w, e) := f s.1 s.2 in ((s.1, w), e).

Definition preBatchHealthCheck (force : bool) : step :=
  if force then fun s => (s, None) else lift DeployHealthCheck.

(** [promoteThenHealth]; after a database error the transaction is of no use
    and the tables are left as they were. *)
Definition gate (job : string) (batch : list string) : step :=
  fun s =>
    match promoteAllocationWorkers s.1 job batch with
    | None => (s, Some databaseError)
    | Some db =>
        match lift DeployHealthCheck (db, s.2) with
        | (s, None) => (s, None)
        | (s, Some e) =>
            match markAllocationWorkersHealthFailed s.1 job batch with
            | None => (s, Some databaseError)
            | Some db => ((db, s.2), Some e)
            end
        end
    end.

Definition isActiveOn (job ip : string) (s : St) : result E bool :=
  match IsAllocationActive s.1 ip job with Some b => Ok b | None => Err databaseError end.

Definition startBatches (force : bool) (job : string) (candidates : list string) : step :=
  rolloutStartBatches (isActiveOn job) (fun s => catalogOf s.1) (fun s => sessionStore s.2)
    (preBatchHealthCheck force) (fun batch => lift (runWorkers rolloutActionStart batch))
    (fun batch c => lift (executeAfterAllocation batch c)) (gate job)
    job (maxConcurrentStarts settings) (maxConcurrentSyncs settings) candidates.
Definition restartBatches (force : bool) (action job : string) (candidates : list string) : step :=
  rolloutRestartBatches (isActiveOn job) (fun s => catalogOf s.1) (fun s => sessionStore s.2)
    (preBatchHealthCheck force) (fun batch => lift (runWorkers action batch))
    (fun batch c => lift (executeAfterAllocation batch c)) (gate job)
    job (maxConcurrentRestarts settings) (maxConcurrentSyncs settings) candidates.

Definition handleNewAllocations (force : bool) (job : string) : step :=
  fun s =>
    let newAllocations := GetNewAllocations s.1 job in
    if (length newAllocations =? 0)%nat then (s, None)
    else startBatches force job newAllocations s.

Definition handleUpdatedAllocations (force : bool) (job : string) : step :=
  fun s =>
    match allocationsNeedingRestart s.1 job force with
    | None => (s, Some databaseError)
    | Some updatedAllocations =>
        if (length updatedAllocations =? 0)%nat then (s, None)
        else
          match jobPolicy settings with
          | Err e => (s, Some e)
          | Ok policy =>
              match classifyUpdates s.1 policy job updatedAllocations with
              | None => (s, Some databaseError)
              | Some (reloadWorkers, restartWorkers) =>
                  andThen
                    (fun s => if (0 <? length reloadWorkers)%nat then restartBatches force rolloutActionReload job reloadWorkers s else (s, None))
                    (fun s => if (0 <? length restartWorkers)%nat then restartBatches force rolloutActionRestart job restartWorkers s else (s, None))
                    s
              end
          end
    end.

Definition finalizeJobDeploy (job : string) : step :=
  fun s =>
    match promoteAllocationHash s.1 job with
    | None => (s, Some databaseError)
    | Some db => ((db, s.2), None)
    end.

Definition deployJob (force : bool) (job : string) : step :=
  fun s =>
    match JobNeedsRollout s.1 job with
    | None => (s, Some databaseError)
    | Some needsRollout =>
        if needsRollout || force then
          andThen (handleNewAllocations force job)
            (andThen (handleUpdatedAllocations force job) (finalizeJobDeploy job)) s
        else (s, None)
    end.
End deploy.
