(* ===== verification/DeployFacts.v ===== *)
(** * Facts on the rollout of one job

    What [deployJob] leaves in the allocation tables when it succeeds and when
    a command, a hook, a health gate or the database fails on the way. *)
From S2P Require Import Prelude GoStrings Utils Kv Rollout Versions Manifest AllocState AllocStateFacts PathMatch UpdatePolicy Deploy.
Open Scope Z_scope.

(** ** Batches hold candidates only *)

Lemma slice_subset {A} (items : list A) a b x : x ∈ slice items a b -> x ∈ items.
Proof.
  unfold slice. intros Hx. rewrite <- (take_drop (Z.to_nat a) items). apply elem_of_app. right.
  rewrite <- (take_drop (Z.to_nat b - Z.to_nat a) (drop _ items)). apply elem_of_app. by left.
Qed.

Lemma batchesFrom_subset {A} fuel (items : list A) size : forall i b x,
  b ∈ batchesFrom fuel items size i -> x ∈ b.2 -> x ∈ items.
Proof.
  induction fuel as [|fuel IH]; intros i b x Hb Hx; cbn [batchesFrom] in Hb; [by apply elem_of_nil in Hb|].
  destruct (i <? len items); [|by apply elem_of_nil in Hb].
  apply elem_of_cons in Hb as [->|Hb]; [by apply slice_subset in Hx|eauto].
Qed.

Lemma batchesFrom_nonempty {A} fuel (items : list A) size : 1 <= size -> forall i b,
  0 <= i -> b ∈ batchesFrom fuel items size i -> b.2 <> [].
Proof.
  intros Hs. induction fuel as [|fuel IH]; intros i b Hi Hb; cbn [batchesFrom] in Hb; [by apply elem_of_nil in Hb|].
  destruct (i <? len items) eqn:El; [|by apply elem_of_nil in Hb]. bool_to_prop.
  apply elem_of_cons in Hb as [->|Hb]; [|apply (IH (i + size)); [lia|done]]. cbn [snd]. unfold slice.
  intros He%(f_equal length). rewrite length_take, length_drop in He. cbn [length] in He. unfold len in *.
  destruct (i + size >? Z.of_nat (length items)) eqn:Eg; rewrite Z.gtb_ltb in Eg; bool_to_prop; lia.
Qed.

Lemma ResolveOrder_subset {E} catalog store job candidates (r : ResolvedOrder) :
  ResolveOrder (E := E) catalog store job candidates = Ok r -> forall ip, ip ∈ Ordered r -> ip ∈ candidates.
Proof.
  unfold ResolveOrder. destruct (length candidates =? 0)%nat.
  { intros [= <-] ip Hip. by apply elem_of_nil in Hip. }
  destruct catalog as [catalog|]; [|done]. cbn [rbind].
  assert (Hd : forall ip, ip ∈ defaultCatalogOrder catalog candidates -> ip ∈ candidates).
  { intros ip. unfold defaultCatalogOrder. rewrite (proj1 (appendMissing_spec _ _)).
    rewrite elem_of_list_filter_b, bool_decide_eq_true, elem_set_of. tauto. }
  destruct (readRolloutOrderKV store job) as [raw|]; [|by intros [= <-]].
  destruct (validateRolloutOrderList _ _); intros [= <-]; [done|]. cbn [Ordered]. unfold orderByList. intros ip.
  rewrite elem_of_list_filter_b, bool_decide_eq_true, elem_set_of. tauto.
Qed.

Lemma activeWorkers_subset {St E} (isActive : string -> St -> result E bool) s l : forall active,
  activeWorkers isActive l s = Ok active -> forall ip, ip ∈ active -> ip ∈ l.
Proof.
  induction l as [|x l IH]; intros active; cbn [activeWorkers]; [by intros [= <-]|].
  destruct (isActive x s) as [ok|]; [|done]. cbn [rbind].
  destruct (activeWorkers isActive l s) as [rest|]; [|done]. cbn [rbind]. intros [= <-] ip Hip.
  destruct ok; [apply elem_of_cons in Hip as [->|Hip]|]; [left|right; eauto|right; eauto].
Qed.

(** ** The tables after part of a rollout *)

(** From [db0] to [db] the rows of the workers in [done], of both tables, were
    promoted, the hash rows of those in [fail] were then marked by the health
    gate, and nothing else changed. *)
Record outcome (job : string) (db0 db : DB) (done fail : list string) : Prop := mkOutcome {
  oc_allocations : allocations db = allocations db0;
  oc_row : forall a, a ∈ allocations db0 -> aJob a = job ->
    allocation_hashes db !! aAllocID a
    = (let promote := if bool_decide (aWorker a ∈ done) then promoted (aVersion a) else id in
       let mark := if bool_decide (aWorker a ∈ fail) then failed (aVersion a) else id in
       (fun h => mark (promote h)) <$> allocation_hashes db0 !! aAllocID a);
  oc_files : forall a path, a ∈ allocations db0 -> aJob a = job ->
    allocation_file_hashes db !! (aAllocID a, path)
    = (r ← allocation_file_hashes db0 !! (aAllocID a, path); if bool_decide (aWorker a ∈ done) then promotedFile r else Some r);
  oc_other : forall i, (forall a, a ∈ allocations db0 -> aJob a = job -> aAllocID a <> i) ->
    allocation_hashes db !! i = allocation_hashes db0 !! i
    /\ forall path, allocation_file_hashes db !! (i, path) = allocation_file_hashes db0 !! (i, path);
}.

Lemma outcome_refl job db : outcome job db db [] [].
Proof.
  split; [done| | |done].
  - intros a _ _. rewrite !bool_decide_eq_false_2 by (by intros ?%elem_of_nil).
    cbn. by destruct (allocation_hashes db !! aAllocID a).
  - intros a path _ _. rewrite bool_decide_eq_false_2 by (by intros ?%elem_of_nil). by destruct (_ !! (aAllocID a, path)).
Qed.

Section Rows.
Context (job : string) (db0 : DB) (Hwf : wf_db db0).

(** The active rows of the job. *)
Definition worker_row (ip : string) : Prop :=
  exists a, a ∈ allocations db0 /\ aWorker a = ip /\ aJob a = job /\ isActive a = true.
Definition workers_ok (l : list string) : Prop := forall ip, ip ∈ l -> worker_row ip.

Lemma outcome_wf db done fail : outcome job db0 db done fail -> wf_db db.
Proof. intros Ho. unfold wf_db. by rewrite (oc_allocations _ _ _ _ _ Ho). Qed.

Lemma outcome_ids db done fail l ip :
  outcome job db0 db done fail -> workers_ok l -> ip ∈ l -> is_Some (GetAllocationID db ip job).
Proof.
  intros Ho Hl Hip. destruct (Hl ip Hip) as (a & Ha & <- & Hj & _).
  rewrite <- Hj, GetAllocationID_row; [eauto|eapply outcome_wf; exact Ho|]. by rewrite (oc_allocations _ _ _ _ _ Ho).
Qed.

Lemma idsOf_iff db done fail l a :
  outcome job db0 db done fail -> a ∈ allocations db0 -> aJob a = job ->
  idsOf db job l (aAllocID a) <-> aWorker a ∈ l.
Proof.
  intros Ho Ha Hj. pose proof (outcome_wf _ _ _ Ho) as Hwf'. split.
  - intros (ip & Hip & Hg). apply GetAllocationID_sound in Hg as (b & Hb & <- & _ & Hi).
    destruct Hwf' as [Hk _]. rewrite (oc_allocations _ _ _ _ _ Ho) in *.
    by rewrite (NoDup_map_inj _ _ _ _ Hk Ha Hb (eq_sym Hi)).
  - intros Hin. exists (aWorker a). split; [done|]. rewrite <- Hj. apply GetAllocationID_row; [done|].
    by rewrite (oc_allocations _ _ _ _ _ Ho).
Qed.

Lemma idsOf_other db done fail l i :
  outcome job db0 db done fail -> (forall a, a ∈ allocations db0 -> aJob a = job -> aAllocID a <> i) -> ~ idsOf db job l i.
Proof.
  intros Ho Hn (ip & _ & Hg). apply GetAllocationID_sound in Hg as (a & Ha & _ & Hj & Hi).
  rewrite (oc_allocations _ _ _ _ _ Ho) in Ha. by apply (Hn a).
Qed.

Lemma versionOf_outcome db done fail a :
  outcome job db0 db done fail -> a ∈ allocations db0 -> versionOf db (aAllocID a) = aVersion a.
Proof.
  intros Ho Ha. apply versionOf_row; [eapply outcome_wf; exact Ho|]. by rewrite (oc_allocations _ _ _ _ _ Ho).
Qed.

(** Promoting a batch. *)
Lemma promote_outcome db done l :
  outcome job db0 db done [] -> workers_ok l ->
  exists db', promoteAllocationWorkers db job l = Some db' /\ outcome job db0 db' (done ++ l) [].
Proof.
  intros Ho Hl. destruct (promoteAllocationWorkers_spec job l db) as (db' & Hr & Ha & Hh).
  { intros ip Hip. by eapply outcome_ids. }
  exists db'. split; [exact Hr|]. split.
  - by rewrite Ha, (oc_allocations _ _ _ _ _ Ho).
  - intros a Hin Hj. destruct (Hh (aAllocID a)) as [H1 H2].
    rewrite (idsOf_iff _ _ _ _ _ Ho Hin Hj) in H1, H2.
    rewrite (versionOf_outcome _ _ _ _ Ho Hin), (oc_row _ _ _ _ _ Ho a Hin Hj) in H1.
    rewrite (oc_row _ _ _ _ _ Ho a Hin Hj) in H2.
    rewrite (bool_decide_eq_false_2 (aWorker a ∈ [])) in * by (by intros ?%elem_of_nil). cbn zeta in *.
    destruct (decide (aWorker a ∈ l)) as [Hx|Hx].
    + rewrite H1 by done. rewrite (bool_decide_eq_true_2 (aWorker a ∈ done ++ l)) by (apply elem_of_app; by right).
      destruct (allocation_hashes db0 !! aAllocID a); cbn; [|done]. by case_bool_decide.
    + rewrite H2 by done. assert (bool_decide (aWorker a ∈ done ++ l) = bool_decide (aWorker a ∈ done)) as ->; [|done].
      apply bool_decide_ext. rewrite elem_of_app. tauto.
  - intros a path Hin Hj. destruct (promoteAllocationWorkers_files job l db db' Hr (aAllocID a) path) as [H1 H2].
    rewrite (idsOf_iff _ _ _ _ _ Ho Hin Hj), (oc_files _ _ _ _ _ Ho a path Hin Hj) in H1, H2.
    destruct (decide (aWorker a ∈ l)) as [Hx|Hx]; [rewrite H1 by done|rewrite H2 by done].
    + rewrite (bool_decide_eq_true_2 (aWorker a ∈ done ++ l)) by (apply elem_of_app; by right).
      destruct (allocation_file_hashes db0 !! (aAllocID a, path)) as [[[d|] x]|]; cbn; try case_bool_decide; done.
    + assert (bool_decide (aWorker a ∈ done ++ l) = bool_decide (aWorker a ∈ done)) as ->; [|done].
      apply bool_decide_ext. rewrite elem_of_app. tauto.
  - intros i Hi. destruct (oc_other _ _ _ _ _ Ho i Hi) as [E1 E2]. pose proof (idsOf_other _ _ _ l i Ho Hi) as Hn. split.
    + rewrite <- E1. by apply Hh.
    + intros path. rewrite <- E2. by apply (promoteAllocationWorkers_files job l db db' Hr).
Qed.

(** Marking a promoted batch. *)
Lemma mark_outcome db done l :
  outcome job db0 db done [] -> workers_ok l ->
  exists db', markAllocationWorkersHealthFailed db job l = Some db' /\ outcome job db0 db' done l.
Proof.
  intros Ho Hl. destruct (markAllocationWorkersHealthFailed_spec job l db) as (db' & Hr & Ha & Hh).
  { intros ip Hip. by eapply outcome_ids. }
  exists db'. split; [exact Hr|]. split.
  - by rewrite Ha, (oc_allocations _ _ _ _ _ Ho).
  - intros a Hin Hj. destruct (Hh (aAllocID a)) as [H1 H2].
    rewrite (idsOf_iff _ _ _ _ _ Ho Hin Hj) in H1, H2.
    rewrite (versionOf_outcome _ _ _ _ Ho Hin), (oc_row _ _ _ _ _ Ho a Hin Hj) in H1.
    rewrite (oc_row _ _ _ _ _ Ho a Hin Hj) in H2.
    rewrite (bool_decide_eq_false_2 (aWorker a ∈ [])) in * by (by intros ?%elem_of_nil). cbn zeta in *.
    destruct (decide (aWorker a ∈ l)) as [Hx|Hx].
    + rewrite H1, (bool_decide_eq_true_2 (aWorker a ∈ l)) by done. by destruct (allocation_hashes db0 !! aAllocID a).
    + by rewrite H2, (bool_decide_eq_false_2 (aWorker a ∈ l)).
  - intros a path Hin Hj. rewrite (markAllocationWorkersHealthFailed_files job l db db' Hr). by apply Ho.
  - intros i Hi. destruct (oc_other _ _ _ _ _ Ho i Hi) as [E1 E2]. pose proof (idsOf_other _ _ _ l i Ho Hi) as Hn. split.
    + rewrite <- E1. by apply Hh.
    + intros path. by rewrite (markAllocationWorkersHealthFailed_files job l db db' Hr).
Qed.
End Rows.

(** ** Steps of a rollout *)

Section Steps.
Context `{Unicode} {W E : Type}.
Notation St := (DB * W)%type.
Notation step := (St -> St * option E).
Context (databaseError : E) (settings : JobSettings E).
Context (catalogOf : DB -> result E (list string)) (sessionStore : W -> option Store).
Context (DeployHealthCheck : DB -> W -> W * option E).
Context (runWorkers : string -> list string -> DB -> W -> W * option E).
Context (executeAfterAllocation : list string -> BatchContext -> DB -> W -> W * option E).
Context (job : string) (db0 : DB) (Hwf : wf_db db0).
Notation worker_row := (worker_row job db0).
Notation workers_ok := (workers_ok job db0).

(** Nothing was promoted yet, or the last health check, made on the present
    tables, passed. *)
Definition settled (db : DB) (w : W) (done : list string) : Prop :=
  done = [] \/ exists w0, DeployHealthCheck db w0 = (w, None).

(** The errors of the reads between two batches. *)
Definition planError (e : E) : Prop :=
  e = databaseError \/ maxConcurrentStarts settings = Err e \/ maxConcurrentRestarts settings = Err e
  \/ maxConcurrentSyncs settings = Err e \/ jobPolicy settings = Err e \/ exists db, catalogOf db = Err e.

(** Why a deploy of the job stopped: the error, the state it left, the workers
    that had been promoted and those that the gate marked. Only the gate after
    a batch marks, and it marks the batch whose hook had just succeeded. *)
Inductive stopped : St -> E -> list string -> list string -> Prop :=
| stop_gate pre batch c db1 wa db2 wb w' db3 e :
    batch <> [] -> outcome job db0 db1 pre [] -> executeAfterAllocation batch c db1 wa = (wb, None) ->
    promoteAllocationWorkers db1 job batch = Some db2 -> DeployHealthCheck db2 wb = (w', Some e) ->
    markAllocationWorkersHealthFailed db2 job batch = Some db3 ->
    stopped (db3, w') e (pre ++ batch) batch
| stop_before done db w w' e : settled db w done -> DeployHealthCheck db w = (w', Some e) -> stopped (db, w') e done []
| stop_command done batch action db w w' e : runWorkers action batch db w = (w', Some e) -> stopped (db, w') e done []
| stop_hook done batch c db w w' e : executeAfterAllocation batch c db w = (w', Some e) -> stopped (db, w') e done []
| stop_plan done db w e : settled db w done -> planError e -> stopped (db, w) e done [].

Definition running (done : list string) (s : St) : Prop := outcome job db0 s.1 done [] /\ workers_ok done.
Definition rested (s : St) : Prop := exists done, running done s /\ settled s.1 s.2 done.
Definition failed_at (s : St) (e : E) : Prop :=
  exists done fail, stopped s e done fail /\ outcome job db0 s.1 done fail /\ workers_ok done
    /\ (forall ip, ip ∈ fail -> ip ∈ done).
Definition ended (r : St * option E) : Prop := match r.2 with None => rested r.1 | Some e => failed_at r.1 e end.
Definition safe (f : step) : Prop := forall s, rested s -> ended (f s).

Lemma failed_running done s e : running done s -> stopped s e done [] -> failed_at s e.
Proof. intros [Ho Hw] Hs. exists done, []. split_and!; try done. by intros ip ?%elem_of_nil. Qed.
Lemma rested_plan s e : rested s -> planError e -> ended (s, Some e).
Proof. intros (done & Hr & Hs) He. destruct s as [db w]. eapply failed_running; [exact Hr|by apply stop_plan]. Qed.

Lemma safe_andThen f g : safe f -> safe g -> safe (andThen f g).
Proof.
  intros Hf Hg s Hs. unfold andThen. pose proof (Hf s Hs) as Hr. destruct (f s) as [s' [e|]]; [done|]. by apply Hg.
Qed.

Lemma workers_ok_app l m : workers_ok l -> workers_ok m -> workers_ok (l ++ m).
Proof. intros Hl Hm ip [Hx|Hx]%elem_of_app; eauto. Qed.

(** After the hook of a batch has succeeded. *)
Lemma gate_ended batch c done db wa wb :
  batch <> [] -> workers_ok batch -> running done (db, wb) -> executeAfterAllocation batch c db wa = (wb, None) ->
  ended (gate databaseError DeployHealthCheck job batch (db, wb)).
Proof.
  intros Hne Hb [Ho Hw] Hh. cbn in Ho. unfold gate. cbn [fst snd].
  destruct (promote_outcome job db0 Hwf db done batch Ho Hb) as (db2 & Hp & Ho2). rewrite Hp.
  assert (workers_ok (done ++ batch)) by (by apply workers_ok_app).
  unfold lift. cbn [fst snd]. destruct (DeployHealthCheck db2 wb) as [w' [e|]] eqn:Ec; cbn [fst snd].
  - destruct (mark_outcome job db0 Hwf db2 (done ++ batch) batch Ho2 Hb) as (db3 & Hm & Ho3). rewrite Hm.
    exists (done ++ batch), batch. split_and!; [by eapply stop_gate|done|done|]. intros ip Hip. apply elem_of_app. by right.
  - exists (done ++ batch). split; [done|]. right. by exists wb.
Qed.

Section Loop.
Context (isActive : string -> St -> result E bool) (force : bool) (action : string).
Context (Hactive : forall ip s e, isActive ip s = Err e -> e = databaseError).
Notation pre := (preBatchHealthCheck DeployHealthCheck force).
Notation run := (fun batch => lift (runWorkers action batch)).
Notation after := (fun batch c => lift (executeAfterAllocation batch c)).

Lemma safe_runBatch phase r size count i batch :
  batch <> [] -> workers_ok batch ->
  safe (runBatch pre run after (gate databaseError DeployHealthCheck job) phase job r size count (i, batch)).
Proof.
  intros Hne Hb [db w] (done & Hr & Hs). unfold runBatch. cbn zeta. set (c := mkBatchContext _ _ _ _ _ _ _).
  assert (Hrest : forall w1, ended (andThen (lift (runWorkers action batch))
    (andThen (lift (executeAfterAllocation batch c)) (gate databaseError DeployHealthCheck job batch)) (db, w1))).
  { intros w1. unfold andThen, lift. cbn [fst snd]. destruct (runWorkers action batch db w1) as [w2 [e|]] eqn:Ew.
    { eapply (failed_running done); [exact Hr|by eapply stop_command]. }
    cbn [fst snd]. destruct (executeAfterAllocation batch c db w2) as [w3 [e|]] eqn:Ea.
    { eapply (failed_running done); [exact Hr|by eapply stop_hook]. }
    by eapply (gate_ended batch c done). }
  unfold andThen at 1, preBatchHealthCheck. destruct force; [apply Hrest|]. unfold lift at 1. cbn [fst snd].
  destruct (DeployHealthCheck db w) as [w1 [e|]] eqn:Ec; [|apply Hrest].
  eapply (failed_running done); [exact Hr|by eapply stop_before].
Qed.

Lemma safe_runRollout phase r size count batches :
  (forall b, b ∈ batches -> b.2 <> [] /\ workers_ok b.2) ->
  safe (runRollout pre run after (gate databaseError DeployHealthCheck job) phase job r size count batches).
Proof.
  induction batches as [|[i batch] batches IH]; intros Hb; cbn [runRollout]; [by intros s Hs|].
  apply safe_andThen.
  - destruct (Hb (i, batch) ltac:(left)) as [H1 H2]. by apply safe_runBatch.
  - apply IH. intros b Hin. apply Hb. by right.
Qed.

Lemma activeWorkers_err l s e : activeWorkers isActive l s = Err e -> e = databaseError.
Proof.
  induction l as [|ip l IH]; cbn [activeWorkers]; [done|]. destruct (isActive ip s) eqn:Ei; cbn [rbind].
  - destruct (activeWorkers isActive l s); cbn [rbind]; [done|]. intros [= ->]. by apply IH.
  - intros [= ->]. by eapply Hactive.
Qed.

Lemma safe_rolloutBatches phase par cap candidates :
  workers_ok candidates -> (forall e, par = Err e -> planError e) -> (forall e, cap = Err e -> planError e) ->
  safe (rolloutBatches isActive (fun s => catalogOf s.1) (fun s => sessionStore s.2) pre run after
          (gate databaseError DeployHealthCheck job) phase job par cap candidates).
Proof.
  intros Hc Hpar Hcap s Hs. unfold rolloutBatches.
  case_goal; [done|]. destruct (activeWorkers isActive candidates s) as [active|e] eqn:Eact.
  2:{ apply rested_plan; [done|]. left. by eapply activeWorkers_err. }
  case_goal; [done|]. destruct (ResolveOrder _ _ job active) as [r|e] eqn:Eo.
  2:{ apply rested_plan; [done|]. do 5 right. exists s.1. revert Eo. unfold ResolveOrder. case_goal; [done|].
      destruct (catalogOf s.1); cbn [rbind]; [repeat case_goal; done|congruence]. }
  destruct par as [p|e]; [|by apply rested_plan; auto]. destruct cap as [k|e]; [|by apply rested_plan; auto].
  apply safe_runRollout; [|done]. intros b Hb. assert (Hsub : forall x, x ∈ b.2 -> x ∈ Ordered r).
  { intros x Hx. by eapply batchesFrom_subset in Hb. }
  assert (Hne : Ordered r <> []). { intros He. rewrite He in Hb. cbn [length batchesFrom] in Hb. by apply elem_of_nil in Hb. }
  split.
  - eapply batchesFrom_nonempty; [|done|exact Hb]. apply batch_size_bounds. unfold len.
    destruct (Ordered r); [done|cbn [length]; lia].
  - intros x Hx%Hsub. apply Hc. eapply activeWorkers_subset; [exact Eact|]. by eapply ResolveOrder_subset.
Qed.
End Loop.

(** ** The handlers *)

Lemma workersWhere_rows db done p :
  outcome job db0 db done [] -> (forall a, p a = true -> isActive a = true) -> workers_ok (workersWhere db job p).
Proof.
  intros Ho Hp ip (a & Ha & Hw & Hj & Hpa)%workersWhere_elem.
  rewrite (oc_allocations _ _ _ _ _ Ho) in Ha. exists a. auto.
Qed.
Lemma Difference_subset a b x : x ∈ Difference a b -> x ∈ a.
Proof. unfold Difference. case_goal; [by intros ?%elem_of_nil|]. by intros [? _]%elem_of_list_filter_b. Qed.

Lemma needing_rows db done force l :
  outcome job db0 db done [] -> allocationsNeedingRestart db job force = Some l -> workers_ok l.
Proof.
  intros Ho. unfold allocationsNeedingRestart. destruct force; cbn [negb].
  - rewrite GetActiveAllocations_rows by (by eapply outcome_wf). cbn [mbind option_bind]. intros [= <-] ip Hip%Difference_subset.
    by eapply workersWhere_rows in Hip.
  - intros [= <-] ip Hip%Difference_subset. apply elem_of_Unique, elem_of_app in Hip as [Hip|Hip];
      (eapply workersWhere_rows in Hip; [done|exact Ho|]); intros a Ha; by bool_to_prop.
Qed.

Notation startBatches := (startBatches databaseError settings catalogOf sessionStore DeployHealthCheck runWorkers executeAfterAllocation).
Notation restartBatches := (restartBatches databaseError settings catalogOf sessionStore DeployHealthCheck runWorkers executeAfterAllocation).
Notation handleNewAllocations := (handleNewAllocations databaseError settings catalogOf sessionStore DeployHealthCheck runWorkers executeAfterAllocation).
Notation handleUpdatedAllocations := (handleUpdatedAllocations databaseError settings catalogOf sessionStore DeployHealthCheck runWorkers executeAfterAllocation).
Notation deployJob := (deployJob databaseError settings catalogOf sessionStore DeployHealthCheck runWorkers executeAfterAllocation).

Lemma isActiveOn_err ip (s : St) e : isActiveOn databaseError job ip s = Err e -> e = databaseError.
Proof. unfold isActiveOn. case_match; congruence. Qed.
Lemma safe_startBatches force l : workers_ok l -> safe (startBatches force job l).
Proof.
  intros Hl. apply (safe_rolloutBatches _ force rolloutActionStart); [apply isActiveOn_err|done|..]; intros e He; unfold planError; auto 10.
Qed.
Lemma safe_restartBatches force action l : workers_ok l -> safe (restartBatches force action job l).
Proof.
  intros Hl. apply (safe_rolloutBatches _ force action); [apply isActiveOn_err|done|..]; intros e He; unfold planError; [|auto 10].
  destruct (maxConcurrentRestarts settings); [done|]. injection He as ->. auto 10.
Qed.

Lemma safe_handleNewAllocations force : safe (handleNewAllocations force job).
Proof.
  intros s Hs. unfold Deploy.handleNewAllocations. case_goal; [done|].
  apply safe_startBatches; [|done]. destruct Hs as (done & [Ho _] & _). eapply workersWhere_rows; [exact Ho|].
  intros a Ha. by bool_to_prop.
Qed.

Lemma safe_handleUpdatedAllocations force : safe (handleUpdatedAllocations force job).
Proof.
  intros s Hs. unfold Deploy.handleUpdatedAllocations.
  destruct (allocationsNeedingRestart s.1 job force) as [l|] eqn:El; [|by apply rested_plan; [|left]].
  assert (Hl : workers_ok l) by (destruct Hs as (done & [Ho _] & _); by eapply needing_rows).
  case_goal; [done|]. destruct (jobPolicy settings) as [p|e] eqn:Ej; [|by apply rested_plan; [|unfold planError; auto 10]].
  destruct (classifyUpdates s.1 p job l) as [[rl rs]|] eqn:Ec; [|by apply rested_plan; [|left]].
  pose proof (classifyUpdates_elem s.1 p job l rl rs Ec) as Hsub.
  apply safe_andThen; [..|done]; intros s' Hs'; (case_goal; [|done]);
    (apply safe_restartBatches; [|done]); intros ip Hip; apply Hl, Hsub, elem_of_app; auto.
Qed.

(** ** The whole job *)

Context (Hplan : planned db0 job).
Context (Hsent : forall i h, allocation_hashes db0 !! i = Some h -> pending_hash h <> Some HealthFailedAppliedHash).

Lemma outcome_planned db done fail : outcome job db0 db done fail -> planned db job.
Proof.
  intros Ho a Ha Hj Hr. rewrite (oc_allocations _ _ _ _ _ Ho) in Ha.
  destruct (Hplan a Ha Hj Hr) as (h & d & Hh & Hd). rewrite (oc_row _ _ _ _ _ Ho a Ha Hj), Hh. cbn.
  eexists _, d. split; [done|]. by repeat case_bool_decide.
Qed.

Lemma outcome_fail db done fail ip :
  outcome job db0 db done fail -> workers_ok fail -> (forall x, x ∈ fail -> x ∈ done) -> ip ∈ fail -> JobNeedsRollout db job = Some true.
Proof.
  intros Ho Hf Hs Hip. destruct (Hf ip Hip) as (a & Ha & Hw & Hj & Hact). subst ip.
  apply (JobNeedsRollout_updated db job a); try done.
  - by eapply outcome_wf.
  - by eapply outcome_planned.
  - by rewrite (oc_allocations _ _ _ _ _ Ho).
  - by apply active_notRemoved.
  - destruct (Hplan a Ha Hj (active_notRemoved a Hact)) as (h & d & Hh & Hd).
    unfold is_updated. rewrite (oc_row _ _ _ _ _ Ho a Ha Hj), Hh. cbn.
    rewrite !bool_decide_eq_true_2 by auto. cbn. rewrite Hd. apply negb_true_iff, bool_decide_eq_false_2.
    intros He. apply (Hsent _ _ Hh). congruence.
Qed.

(** What the caller of [deployJob] finds. *)
Definition deployed (w : W) (r : St * option E) : Prop :=
  match r.2 with
  | None => JobNeedsRollout r.1.1 job = Some false
      /\ (r.1 = (db0, w) \/ exists done db1, outcome job db0 db1 done [] /\ workers_ok done /\ settled db1 r.1.2 done
                               /\ promoteAllocationHash db1 job = Some r.1.1)
  | Some e => exists done fail, stopped r.1 e done fail /\ outcome job db0 r.1.1 done fail /\ workers_ok done
                /\ (forall ip, ip ∈ fail -> ip ∈ done) /\ (fail <> [] -> JobNeedsRollout r.1.1 job = Some true)
  end.

Lemma failed_deployed w s e : failed_at s e -> deployed w (s, Some e).
Proof.
  intros (done & fail & Hst & Ho & Hw & Hs). exists done, fail. split_and!; try done. intros Hne.
  destruct fail as [|ip fail]; [done|]. eapply (outcome_fail _ _ _ ip); try done; [|left].
  intros y Hy. by apply Hw, Hs.
Qed.

Lemma finalize_deployed w s : rested s -> deployed w (finalizeJobDeploy databaseError job s).
Proof.
  intros (done & [Ho Hw] & Hs). unfold finalizeJobDeploy.
  destruct (promote_converges_lemma s.1 job) as (db' & Hp & Hj & _); [by eapply outcome_wf|by eapply outcome_planned|].
  rewrite Hp. split; [done|]. right. exists done, s.1. by split_and!.
Qed.

Lemma andThen_deployed w f g s :
  safe f -> (forall s', rested s' -> deployed w (g s')) -> rested s -> deployed w (andThen f g s).
Proof.
  intros Hf Hg Hs. unfold andThen. pose proof (Hf s Hs) as Hr. destruct (f s) as [s' [e|]]; [by apply failed_deployed|by apply Hg].
Qed.

Lemma deployJob_lemma force w : deployed w (deployJob force job (db0, w)).
Proof.
  assert (Hrun : rested (db0, w)) by (exists []; split; [split; [apply outcome_refl|by intros ip ?%elem_of_nil]|by left]).
  unfold Deploy.deployJob. cbn [fst].
  destruct (JobNeedsRollout db0 job) as [needs|] eqn:En; [|by apply failed_deployed, (rested_plan _ databaseError); [|left]].
  destruct (needs || force) eqn:Ef; [|by bool_to_prop; subst; split; [|left]].
  repeat (apply andThen_deployed; [first [apply safe_handleNewAllocations | apply safe_handleUpdatedAllocations]| |done]; intros ? ?).
  by apply finalize_deployed.
Qed.
End Steps.

(** ** Properties *)

(** C3: Deploying a job either ends with nothing left to roll out - either it had
    nothing to do, or everything not removed was promoted after the last
    health check had passed - or it stops with an error [e] and a definite
    state: the rows of a set [done] of active workers, in both tables, were
    promoted batch by batch, those in [fail] were marked so that the job needs
    a rollout again, and no other row changed. [stopped] says why: if the gate
    after a batch failed with [e], the batch whose hook had just succeeded is
    the last one promoted and is exactly what is marked; if a health check
    before a batch, a command, a hook or a read between batches failed with
    [e], nothing is marked. *)
Theorem deployJob_correct `{Unicode} {W E} (databaseError : E) settings catalogOf (sessionStore : W -> option Store)
    DeployHealthCheck runWorkers executeAfterAllocation force job db w :
  wf_db db -> planned db job ->
  (forall i h, allocation_hashes db !! i = Some h -> pending_hash h <> Some HealthFailedAppliedHash) ->
  let r := deployJob databaseError settings catalogOf sessionStore DeployHealthCheck runWorkers executeAfterAllocation
             force job (db, w) in
  match r.2 with
  | None => JobNeedsRollout r.1.1 job = Some false
      /\ (r.1 = (db, w) \/ exists done db1, outcome job db db1 done [] /\ workers_ok job db done
             /\ settled DeployHealthCheck db1 r.1.2 done /\ promoteAllocationHash db1 job = Some r.1.1)
  | Some e => exists done fail,
      stopped databaseError settings catalogOf DeployHealthCheck runWorkers executeAfterAllocation job db r.1 e done fail
      /\ outcome job db r.1.1 done fail /\ workers_ok job db done
      /\ (forall ip, ip ∈ fail -> ip ∈ done) /\ (fail <> [] -> JobNeedsRollout r.1.1 job = Some true)
  end.
Proof. intros Hwf Hp Hs. by apply deployJob_lemma. Qed.

Definition example_settings : JobSettings unit := mkSettings (Ok 1) (Ok 1) (Ok 4) (Ok (mkPolicy "reload" ["*.sh"] [])).
Definition example_catalog (_ : DB) : result unit (list string) := Ok ["10.0.0.1"; "10.0.0.2"].
Definition example_check (_ : DB) (n : nat) : nat * option unit := (S n, if (n =? 3)%nat then Some tt else None).
Definition example_command (_ : string) (_ : list string) (_ : DB) (n : nat) : nat * option unit := (n, None).
Definition example_hook (_ : list string) (_ : BatchContext) (_ : DB) (n : nat) : nat * option unit := (n, None).

(** The first gate passes, the second fails: one batch each of size one. *)
Definition example_deploy : (DB * nat) * option unit :=
  deployJob (H := ascii_unicode) tt example_settings example_catalog (fun _ => None) example_check example_command example_hook
    false "web" (example_db, 0%nat).

Lemma deployJob_correct_witness :
  example_deploy.2 = Some tt /\
  exists done fail,
    stopped tt example_settings example_catalog example_check example_command example_hook "web" example_db example_deploy.1 tt done fail
    /\ outcome "web" example_db example_deploy.1.1 done fail /\ workers_ok "web" example_db done
    /\ (forall ip, ip ∈ fail -> ip ∈ done) /\ (fail <> [] -> JobNeedsRollout example_deploy.1.1 "web" = Some true).
Proof.
  split; [vm_compute; reflexivity|].
  apply (deployJob_correct (H := ascii_unicode) tt example_settings example_catalog (fun _ => None) example_check example_command
    example_hook false "web" example_db 0%nat example_db_wf example_db_planned example_db_sent).
Defined.

(** Under the policy [never], a job without new allocations is completed
    without a command or a health check: a row that a failed gate had marked
    for a retry is promoted like the others. *)
Theorem never_policy_completes `{Unicode} {W E} (databaseError : E) settings catalogOf (sessionStore : W -> option Store)
    DeployHealthCheck runWorkers executeAfterAllocation force job db w p :
  wf_db db -> planned db job -> GetNewAllocations db job = [] ->
  jobPolicy settings = Ok p -> policy p = RestartPolicyNever ->
  exists db', deployJob databaseError settings catalogOf sessionStore DeployHealthCheck runWorkers executeAfterAllocation
                force job (db, w) = ((db', w), None)
    /\ JobNeedsRollout db' job = Some false.
Proof.
  intros Hwf Hp Hnew Hs Hn. destruct (promote_converges_lemma db job Hwf Hp) as (db' & Hpr & Hj & _).
  unfold deployJob. cbn [fst].
  assert (He : exists needs, JobNeedsRollout db job = Some needs).
  { unfold JobNeedsRollout. rewrite missingHash_spec; [cbn [mbind option_bind]; repeat case_goal; eauto|].
    intros ip (a & Ha & <- & <- & Hr)%GetNonRemovedAllocations_elem.
    destruct (Hp a Ha eq_refl Hr) as (h & d & Hh & _). eauto using GetAllocationID_row. }
  destruct He as [needs Hne]. rewrite Hne. destruct (needs || force) eqn:Ef; [|bool_to_prop; subst; eauto].
  exists db'. split; [|done]. unfold andThen, handleNewAllocations. cbn [fst]. rewrite Hnew. cbn [length Nat.eqb].
  unfold handleUpdatedAllocations. cbn [fst].
  assert (Hl : exists l, allocationsNeedingRestart db job force = Some l).
  { unfold allocationsNeedingRestart. destruct force; cbn [negb]; [|eauto]. rewrite GetActiveAllocations_rows by done. eauto. }
  destruct Hl as [l Hl]. rewrite Hl.
  assert (Hids : forall ip, ip ∈ l -> is_Some (GetAllocationID db ip job)).
  { intros ip Hip. destruct (needing_rows job db Hwf db [] force l (outcome_refl job db) Hl ip Hip) as (a & Ha & <- & <- & _).
    rewrite GetAllocationID_row by done. eauto. }
  destruct (length l =? 0)%nat.
  { unfold finalizeJobDeploy. cbn [fst snd]. by rewrite Hpr. }
  rewrite Hs, classifyUpdates_never by done. cbn. unfold finalizeJobDeploy. cbn [fst snd]. by rewrite Hpr.
Qed.

Definition failed_db : DB :=
  mkDB [mkAlloc "a1" "10.0.0.1" "web" 0 0 None]
    {[ "a1" := mkHash (Some "h2") (Some HealthFailedAppliedHash) (Some "0.0.0") ]} ∅.

Lemma never_policy_completes_witness :
  JobNeedsRollout failed_db "web" = Some true /\
  exists db', deployJob (H := ascii_unicode) tt (mkSettings (Ok 1) (Ok 1) (Ok 4) (Ok (mkPolicy "never" [] [])))
                (fun _ => Ok []) (fun _ => None) (fun _ n => (S n, Some tt)) (fun _ _ _ n => (S n, Some tt))
                (fun _ _ _ n => (S n, Some tt)) false "web" (failed_db, 0%nat) = ((db', 0%nat), None)
    /\ JobNeedsRollout db' "web" = Some false.
Proof.
  split; [vm_compute; reflexivity|].
  apply (never_policy_completes (H := ascii_unicode) tt (mkSettings (Ok 1) (Ok 1) (Ok 4) (Ok (mkPolicy "never" [] [])))
           (fun _ => Ok []) (fun _ => None) (fun _ n => (S n, Some tt)) (fun _ _ _ n => (S n, Some tt))
           (fun _ _ _ n => (S n, Some tt)) false "web" failed_db 0%nat (mkPolicy "never" [] [])).
  - split; apply (bool_decide_eq_true_1 _); vm_compute; reflexivity.
  - intros a Ha _ _. apply elem_of_cons in Ha as [->|Ha]; [|by apply elem_of_nil in Ha]. eexists _, "h2". split; reflexivity.
  - vm_compute. reflexivity.
  - reflexivity.
  - reflexivity.
Defined.
