(* ===== verification/Parallel.v ===== *)
(** * deploy: parallel calls on workers

    deploy/parallel.go. The loop of [runParallelWorkers], its goroutines, the
    semaphore channel, the wait group and the cancellation of the context are
    the steps of a transition system. The callback may return any result. *)
From S2P Require Import Prelude Utils.
From stdpp Require Import relations.
Open Scope Z_scope.

Section parallel.
Context {E : Type}.

(** A goroutine: in the callback, past the recording of its result, past the
    receive from the semaphore, past [wg.Done]. *)
Inductive gphase := GCalling | GRecorded | GReleased | GExited.
#[global] Instance gphase_eq_dec : EqDecision gphase.
Proof. solve_decision. Defined.
Record goroutine := mkG { gIP : string; gPhase : gphase; gErr : option E }.

Inductive run_error := ContextDone | JoinedErrors (errs : list E).
Definition joinErrors (errs : list E) : option run_error :=
  match errs with [] => None | _ => Some (JoinedErrors errs) end.

(** The main goroutine: at the head of the loop, at its [select], at
    [wg.Wait], or returned. *)
Inductive main_state :=
| MLoop (rest : list string)
| MSelect (ip : string) (rest : list string)
| MWait
| MReturned (err : option run_error).
Record pstate := mkP {
  pMain : main_state;
  pGs : list goroutine;
  pErrs : list E;
  pCancelled : bool;
}.

Definition effectiveParallelism (parallelism : Z) (workerIPs : list string) : Z :=
  let parallelism := if parallelism <? 1 then 1 else parallelism in
  if parallelism >? len workerIPs then len workerIPs else parallelism.

(** The elements in the semaphore channel, and the running callbacks. *)
Definition holdsSlot (g : goroutine) : bool := match gPhase g with GCalling | GRecorded => true | _ => false end.
Definition calling (g : goroutine) : bool := match gPhase g with GCalling => true | _ => false end.
Definition slots (gs : list goroutine) : Z := len (List.filter holdsSlot gs).
Definition exited (g : goroutine) : bool := match gPhase g with GExited => true | _ => false end.

Definition record (errs : list E) (o : option E) : list E :=
  match o with Some e => errs ++ [e] | None => errs end.

Inductive step (limit : Z) : pstate -> pstate -> Prop :=
| s_cancel m gs errs c : step limit (mkP m gs errs c) (mkP m gs errs true)
| s_break ip rest gs errs : step limit (mkP (MLoop (ip :: rest)) gs errs true) (mkP MWait gs errs true)
| s_enter ip rest gs errs : step limit (mkP (MLoop (ip :: rest)) gs errs false) (mkP (MSelect ip rest) gs errs false)
| s_end gs errs c : step limit (mkP (MLoop []) gs errs c) (mkP MWait gs errs c)
| s_skip ip rest gs errs : step limit (mkP (MSelect ip rest) gs errs true) (mkP (MLoop rest) gs errs true)
| s_start ip rest gs errs c :
    slots gs < limit ->
    step limit (mkP (MSelect ip rest) gs errs c) (mkP (MLoop rest) (gs ++ [mkG ip GCalling None]) errs c)
| s_return m l1 ip x l2 errs c o :
    step limit (mkP m (l1 ++ mkG ip GCalling x :: l2) errs c)
      (mkP m (l1 ++ mkG ip GRecorded o :: l2) (record errs o) c)
| s_release m l1 ip o l2 errs c :
    step limit (mkP m (l1 ++ mkG ip GRecorded o :: l2) errs c) (mkP m (l1 ++ mkG ip GReleased o :: l2) errs c)
| s_exit m l1 ip o l2 errs c :
    step limit (mkP m (l1 ++ mkG ip GReleased o :: l2) errs c) (mkP m (l1 ++ mkG ip GExited o :: l2) errs c)
| s_finish gs errs c :
    forallb exited gs = true ->
    step limit (mkP MWait gs errs c) (mkP (MReturned (if c then Some ContextDone else joinErrors errs)) gs errs c).

(** [runParallelWorkers] on a list that is not empty. *)
Definition start (workerIPs : list string) (cancelled : bool) : pstate := mkP (MLoop workerIPs) [] [] cancelled.
Definition runs (workerIPs : list string) (parallelism : Z) (cancelled : bool) : pstate -> Prop :=
  rtc (step (effectiveParallelism parallelism workerIPs)) (start workerIPs cancelled).

(** ** Invariants *)

Definition remaining (m : main_state) : list string :=
  match m with MLoop rest => rest | MSelect ip rest => ip :: rest | _ => [] end.
Definition started (gs : list goroutine) : list string := map gIP gs.
(** The errors of the callbacks that have returned. *)
Definition results (gs : list goroutine) : list E :=
  omap (fun g => if calling g then None else gErr g) gs.

Definition olist (o : option E) : list E := match o with Some e => [e] | None => [] end.

Record inv (ips : list string) (limit : Z) (s : pstate) : Prop := mkInv {
  i_slots : slots (pGs s) <= limit;
  i_order : started (pGs s) ++ remaining (pMain s) = ips
    \/ pCancelled s = true /\ started (pGs s) `prefix_of` ips /\ (forall ip rest, pMain s <> MSelect ip rest)
       /\ (forall r, pMain s = MReturned r -> r = Some ContextDone);
  i_errs : pErrs s ≡ₚ results (pGs s);
  i_wait : match pMain s with
           | MReturned r => forallb exited (pGs s) = true
               /\ (r = joinErrors (pErrs s) \/ r = Some ContextDone /\ pCancelled s = true)
           | _ => True
           end;
}.

Lemma slots_app (gs1 gs2 : list goroutine) : slots (gs1 ++ gs2) = slots gs1 + slots gs2.
Proof. unfold slots, len. rewrite List.filter_app, length_app. lia. Qed.
Lemma slots_cons (g : goroutine) gs : slots (g :: gs) = (if holdsSlot g then 1 else 0) + slots gs.
Proof. unfold slots, len. cbn. destruct (holdsSlot g); cbn; lia. Qed.
Lemma slots_nonneg (gs : list goroutine) : 0 <= slots gs.
Proof. unfold slots, len. lia. Qed.

Lemma results_mid l1 (g : goroutine) l2 : results (l1 ++ g :: l2) ≡ₚ (if calling g then [] else olist (gErr g)) ++ results l1 ++ results l2.
Proof.
  unfold results. rewrite omap_app. cbn. destruct (calling g); cbn; [done|].
  destruct (gErr g); cbn; [|done]. by rewrite Permutation_middle.
Qed.
Lemma record_perm errs o : record errs o ≡ₚ olist o ++ errs.
Proof. destruct o; cbn; [|done]. by rewrite Permutation_app_comm. Qed.
Lemma started_mid l1 (g g' : goroutine) l2 : gIP g = gIP g' -> started (l1 ++ g :: l2) = started (l1 ++ g' :: l2).
Proof. unfold started. rewrite !map_app. cbn. by intros ->. Qed.
Lemma exited_mid l1 (g : goroutine) l2 : exited g = false -> forallb exited (l1 ++ g :: l2) = false.
Proof. intros Hg. rewrite forallb_app. cbn. by rewrite Hg, andb_false_r. Qed.

(** A goroutine of the middle of the list moves on. *)
Lemma inv_phase ips limit m l1 (g g' : goroutine) l2 errs errs' c :
  gIP g = gIP g' -> (holdsSlot g' = true -> holdsSlot g = true) -> exited g = false ->
  errs' ++ (if calling g then [] else olist (gErr g)) ≡ₚ (if calling g' then [] else olist (gErr g')) ++ errs ->
  inv ips limit (mkP m (l1 ++ g :: l2) errs c) -> inv ips limit (mkP m (l1 ++ g' :: l2) errs' c).
Proof.
  intros Hip Hs He Hr [H1 H2 H3 H4]. cbn [pMain pGs pErrs pCancelled] in *. split; cbn [pMain pGs pErrs pCancelled].
  - rewrite slots_app, slots_cons in *. destruct (holdsSlot g'); [rewrite Hs in H1 by done|destruct (holdsSlot g)]; lia.
  - by rewrite <- (started_mid l1 g g' l2).
  - rewrite results_mid in *. rewrite H3 in Hr.
    apply (Permutation_app_inv_r (if calling g then [] else olist (gErr g))). rewrite Hr.
    rewrite <- !app_assoc. apply Permutation_app_head. by rewrite Permutation_app_comm, <- app_assoc.
  - destruct m; try done. destruct H4 as [H4 _]. rewrite exited_mid in H4; done.
Qed.

Lemma inv_prefix ips limit s : inv ips limit s -> started (pGs s) `prefix_of` ips.
Proof. intros [_ [<-|(_ & Hp & _ & _)] _ _]; [by apply prefix_app_r|done]. Qed.

Lemma inv_step ips limit s s' : step limit s s' -> inv ips limit s -> inv ips limit s'.
Proof.
  intros Hs Hi. pose proof (inv_prefix _ _ _ Hi) as Hp.
  destruct Hs as [m gs errs c|ip rest gs errs|ip rest gs errs|gs errs c|ip rest gs errs|ip rest gs errs c Hl
    |m l1 ip x l2 errs c o|m l1 ip o l2 errs c|m l1 ip o l2 errs c|gs errs c Hx].
  7-9: eapply inv_phase; [..|exact Hi]; cbn; try done.
  7: by rewrite app_nil_r, record_perm. 7: by rewrite Permutation_app_comm. 7: by rewrite Permutation_app_comm.
  all: destruct Hi as [H1 H2 H3 H4]; cbn [pMain pGs pErrs pCancelled remaining] in *; split;
    cbn [pMain pGs pErrs pCancelled remaining]; try done; auto.
  - destruct H2 as [?|(_ & ? & ? & ?)]; auto.
  - destruct m; try done. destruct H4 as [? [?|[? _]]]; auto.
  - right. by split_and!.
  - destruct H2 as [?|([=] & _)]. by left.
  - destruct H2 as [H2|(? & ? & _ & _)]; [by left|right]. by split_and!.
  - right. by split_and!.
  - rewrite slots_app. change (slots [mkG ip GCalling None]) with 1. lia.
  - left. unfold started in *. rewrite map_app. cbn. rewrite <- app_assoc. cbn.
    destruct H2 as [?|(_ & _ & Hn & _)]; [done|]. by destruct (Hn ip rest).
  - unfold results in *. rewrite omap_app. cbn. by rewrite app_nil_r.
  - destruct H2 as [H2|(-> & ? & _ & _)]; [by left|right]. split_and!; try done. by intros r [= <-].
  - split; [done|]. destruct c; auto.
Qed.

Lemma effectiveParallelism_bounds parallelism ips :
  ips <> [] -> 1 <= effectiveParallelism parallelism ips <= Z.min (len ips) (Z.max 1 parallelism).
Proof.
  intros Hne. assert (Hl : 1 <= len ips) by (destruct ips; [done|unfold len; cbn; lia]).
  unfold effectiveParallelism. rewrite Z.gtb_ltb. destruct (parallelism <? 1) eqn:E1; case_goal; blia.
Qed.

Lemma inv_runs ips parallelism c s :
  ips <> [] -> runs ips parallelism c s -> inv ips (effectiveParallelism parallelism ips) s.
Proof.
  intros Hne Hr. pose proof (effectiveParallelism_bounds parallelism ips Hne) as Hb.
  assert (H0 : inv ips (effectiveParallelism parallelism ips) (start ips c)).
  { split; cbn; [unfold slots, len; cbn; lia|by left|done|done]. }
  unfold runs in Hr. induction Hr as [|x y z Hs _ IH]; [done|]. apply IH. by eapply inv_step.
Qed.

(** ** Progress and termination *)

Definition gweight (g : goroutine) : nat :=
  match gPhase g with GCalling => 3 | GRecorded => 2 | GReleased => 1 | GExited => 0 end.
Definition weight (s : pstate) : nat :=
  (match pMain s with
   | MLoop rest => 6 * length rest + 3
   | MSelect _ rest => 6 * length rest + 8
   | MWait => 2
   | MReturned _ => 0
   end + sum_list_with gweight (pGs s))%nat.

Lemma step_weight limit s s' : step limit s s' -> (weight s' <= weight s)%nat.
Proof.
  intros Hs. destruct Hs; unfold weight; cbn [pMain pGs length]; rewrite ?sum_list_with_app; cbn; lia.
Qed.

(** A goroutine that has not ended can move. *)
Lemma goroutine_moves limit m gs errs c g :
  g ∈ gs -> exited g = false ->
  exists s', step limit (mkP m gs errs c) s' /\ (weight s' < weight (mkP m gs errs c))%nat.
Proof.
  intros (l1 & l2 & ->)%list_elem_of_split Hg. destruct g as [ip p o]. destruct p; [..|done].
  - exists (mkP m (l1 ++ mkG ip GRecorded None :: l2) (record errs None) c). split; [constructor|].
    unfold weight. cbn [pMain pGs]. rewrite !sum_list_with_app. cbn. lia.
  - exists (mkP m (l1 ++ mkG ip GReleased o :: l2) errs c). split; [constructor|].
    unfold weight. cbn [pMain pGs]. rewrite !sum_list_with_app. cbn. lia.
  - exists (mkP m (l1 ++ mkG ip GExited o :: l2) errs c). split; [constructor|].
    unfold weight. cbn [pMain pGs]. rewrite !sum_list_with_app. cbn. lia.
Qed.

Lemma slot_holder (gs : list goroutine) : 1 <= slots gs -> exists g, g ∈ gs /\ exited g = false.
Proof.
  induction gs as [|g gs IH]; [done|]. rewrite slots_cons. intros Hs.
  destruct (holdsSlot g) eqn:Eh.
  - exists g. split; [left|]. unfold holdsSlot in Eh. unfold exited. by destruct (gPhase g).
  - destruct IH as (g' & Hin & He); [lia|]. exists g'. split; [by right|done].
Qed.

Lemma not_exited (gs : list goroutine) : forallb exited gs = false -> exists g, g ∈ gs /\ exited g = false.
Proof.
  induction gs as [|g gs IH]; [done|]. cbn. destruct (exited g) eqn:Eg; cbn; [|by intros _; exists g; split; [left|]].
  intros Hf. destruct (IH Hf) as (g' & Hin & He). exists g'. split; [by right|done].
Qed.

Lemma moves limit s :
  1 <= limit -> (forall r, pMain s <> MReturned r) -> exists s', step limit s s' /\ (weight s' < weight s)%nat.
Proof.
  intros Hl Hr. destruct s as [[[|ip rest]|ip rest| |r] gs errs c]; cbn in Hr.
  - exists (mkP MWait gs errs c). split; [constructor|]. unfold weight. cbn. lia.
  - destruct c; [exists (mkP MWait gs errs true)|exists (mkP (MSelect ip rest) gs errs false)]; (split; [constructor|]);
      unfold weight; cbn; lia.
  - destruct (slots gs <? limit) eqn:Es; bool_to_prop.
    + exists (mkP (MLoop rest) (gs ++ [mkG ip GCalling None]) errs c). split; [by constructor|].
      unfold weight. cbn [pMain pGs]. rewrite sum_list_with_app. cbn. lia.
    + destruct (slot_holder gs) as (g & Hin & He); [lia|]. by eapply goroutine_moves.
  - destruct (forallb exited gs) eqn:Ex.
    + eexists. split; [by apply s_finish|]. unfold weight. cbn. lia.
    + destruct (not_exited gs Ex) as (g & Hin & He). by eapply goroutine_moves.
  - by destruct (Hr r).
Qed.

Lemma reaches_return limit n : forall s, 1 <= limit -> (weight s <= n)%nat ->
  exists s' r, rtc (step limit) s s' /\ pMain s' = MReturned r.
Proof.
  induction n as [|n IH]; intros s Hl Hw.
  all: destruct (pMain s) eqn:Em; try (by exists s; eexists; split; [|exact Em]).
  all: destruct (moves limit s Hl) as (s' & Hs & Hlt); [rewrite Em; congruence|]; try lia.
  all: destruct (IH s' Hl) as (s2 & r & Hr & Hm); [lia|]; exists s2, r; split; [by eapply rtc_l|done].
Qed.

(** What the callbacks returned, once all have. *)
Lemma results_exited (gs : list goroutine) : forallb exited gs = true -> results gs = omap gErr gs.
Proof.
  induction gs as [|g gs IH]; [done|]. cbn. intros H. bool_to_prop. unfold results in *. cbn.
  replace (calling g) with false by (unfold exited in H; unfold calling; by destruct (gPhase g)).
  rewrite IH by done. done.
Qed.

Lemma results_none (gs : list goroutine) : results gs = [] -> forallb exited gs = true -> forall g, g ∈ gs -> gErr g = None.
Proof.
  intros Hr Hx g Hg. rewrite results_exited in Hr by done. destruct (gErr g) as [e|] eqn:Eg; [|done].
  assert (Hin : e ∈ omap gErr gs) by (apply list_elem_of_omap; eauto). rewrite Hr in Hin. by apply elem_of_nil in Hin.
Qed.

End parallel.
Arguments goroutine : clear implicits.
Arguments pstate : clear implicits.

(** ** [runWorkerBatches]

    [fn] on batch after batch, with the outcome of each [runParallelWorkers];
    [cancelled i] is the context before the batch from [i]. *)
Section batches.
Context {St E : Type}.
Variable runParallel : list string -> Z -> St -> St * option (@run_error E).
Variable cancelledAt : Z -> St -> bool.

Fixpoint runBatches (batches : list (Z * list string)) (s : St) : St * option (@run_error E) :=
  match batches with
  | [] => (s, None)
  | (i, batch) :: batches =>
      if cancelledAt i s then (s, Some ContextDone)
      else
        match runParallel batch (len batch) s with
        | (s, Some e) => (s, Some e)
        | (s, None) => runBatches batches s
        end
  end.
Definition runWorkerBatches (workerIPs : list string) (batchSize : Z) (s : St) : St * option (@run_error E) :=
  let batchSize := if batchSize <? 1 then 1 else batchSize in
  runBatches (batchesFrom (length workerIPs) workerIPs batchSize 0) s.
End batches.

Lemma filter_calling_slots {E} (gs : list (goroutine E)) : len (List.filter calling gs) <= slots gs.
Proof.
  induction gs as [|g gs IH]; [done|]. rewrite slots_cons. unfold len in *. cbn.
  unfold holdsSlot, calling in *. destruct (gPhase g); cbn; lia.
Qed.

(** ** Properties *)

(** C33: In every state the goroutines can reach, the callbacks running at the
    same time are at most the parallelism asked for, and they were started in
    the order of the workers, each once. When the call returns, none is
    running; without an error every worker was called and every callback
    succeeded, and otherwise the errors of the callbacks are reported, each
    once, or the context had ended. *)
Theorem runParallelWorkers_safe {E} ips parallelism c (s : pstate E) :
  ips <> [] -> runs ips parallelism c s ->
  len (List.filter calling (pGs s)) <= Z.max 1 parallelism
  /\ started (pGs s) `prefix_of` ips
  /\ forall r, pMain s = MReturned r ->
       (forall g, g ∈ pGs s -> gPhase g = GExited)
       /\ (r = None -> started (pGs s) = ips /\ forall g, g ∈ pGs s -> gErr g = None)
       /\ (forall errs, r = Some (JoinedErrors errs) -> started (pGs s) = ips /\ errs ≡ₚ omap gErr (pGs s))
       /\ (r = Some ContextDone -> pCancelled s = true).
Proof.
  intros Hne Hr. pose proof (inv_runs _ _ _ _ Hne Hr) as Hi. pose proof (inv_prefix _ _ _ Hi) as Hp.
  destruct Hi as [H1 H2 H3 H4]. pose proof (effectiveParallelism_bounds parallelism ips Hne) as Hb.
  pose proof (filter_calling_slots (pGs s)) as Hc. split_and!; [lia|done|]. intros r Hm. rewrite Hm in H2, H4.
  destruct H4 as [Hx Hres]. cbn [remaining] in H2. rewrite app_nil_r in H2. rewrite results_exited in H3 by done.
  assert (Hall : r <> Some ContextDone -> started (pGs s) = ips).
  { intros Hn. destruct H2 as [?|(_ & _ & _ & Hcd)]; [done|]. by rewrite (Hcd r) in Hn. }
  split_and!.
  - intros g Hg. rewrite forallb_forall in Hx. apply list_elem_of_In, Hx in Hg. unfold exited in Hg. by destruct (gPhase g).
  - intros ->. split; [by apply Hall|]. destruct Hres as [Hres|[[=] _]]. unfold joinErrors in Hres.
    destruct (pErrs s) eqn:Ee; [|done]. apply results_none; [|done]. rewrite results_exited by done.
    by apply Permutation_nil_l in H3.
  - intros errs ->. split; [by apply Hall|]. destruct Hres as [Hres|[[=] _]]. unfold joinErrors in Hres.
    destruct (pErrs s) eqn:Ee; [done|]. by injection Hres as ->.
  - intros ->. destruct Hres as [Hres|[_ ?]]; [|done]. unfold joinErrors in Hres. by destruct (pErrs s).
Qed.

Definition example_end : pstate nat :=
  mkP (MReturned (Some (JoinedErrors [7%nat]))) [mkG "a" GExited (Some 7%nat); mkG "b" GExited None] [7%nat] false.

Lemma runParallelWorkers_safe_witness :
  let s := example_end in
  len (List.filter calling (pGs s)) <= Z.max 1 2
  /\ started (pGs s) `prefix_of` ["a"; "b"]
  /\ forall r, pMain s = MReturned r ->
       (forall g, g ∈ pGs s -> gPhase g = GExited)
       /\ (r = None -> started (pGs s) = ["a"; "b"] /\ forall g, g ∈ pGs s -> gErr g = None)
       /\ (forall errs, r = Some (JoinedErrors errs) -> started (pGs s) = ["a"; "b"] /\ errs ≡ₚ omap gErr (pGs s))
       /\ (r = Some ContextDone -> pCancelled s = true).
Proof.
  apply (runParallelWorkers_safe ["a"; "b"] 2 false); [discriminate|]. unfold runs, start.
  eapply rtc_l; [apply s_enter|]. eapply rtc_l; [apply s_start; reflexivity|].
  eapply rtc_l; [apply s_enter|]. eapply rtc_l; [apply s_start; reflexivity|].
  eapply rtc_l; [apply (s_return _ _ [mkG "a" GCalling None] "b" None [] _ _ None)|].
  eapply rtc_l; [apply (s_return _ _ [] "a" None [mkG "b" GRecorded None] _ _ (Some 7%nat))|].
  eapply rtc_l; [apply (s_release _ _ [mkG "a" GRecorded (Some 7%nat)] "b" None [])|]. eapply rtc_l; [apply s_end|].
  eapply rtc_l; [apply (s_release _ _ [] "a" (Some 7%nat) [mkG "b" GReleased None])|].
  eapply rtc_l; [apply (s_exit _ _ [mkG "a" GReleased (Some 7%nat)] "b" None [])|].
  eapply rtc_l; [apply (s_exit _ _ [] "a" (Some 7%nat) [mkG "b" GExited None])|].
  eapply rtc_l; [apply s_finish; reflexivity|]. apply rtc_refl.
Defined.

(** The call always returns if its callbacks do: no state is a deadlock, no
    step but a cancellation can repeat for ever, since each lowers a measure,
    and from every reachable state the call can run to its end. *)
Theorem runParallelWorkers_terminates {E} ips parallelism c (s : pstate E) :
  ips <> [] -> runs ips parallelism c s ->
  let limit := effectiveParallelism parallelism ips in
  ((forall r, pMain s <> MReturned r) -> exists s', step limit s s' /\ (weight s' < weight s)%nat)
  /\ (forall s', step limit s s' -> (weight s' < weight s)%nat \/ s' = mkP (pMain s) (pGs s) (pErrs s) true)
  /\ exists s' r, rtc (step limit) s s' /\ pMain s' = MReturned r.
Proof.
  intros Hne Hr limit. pose proof (effectiveParallelism_bounds parallelism ips Hne) as Hb. split_and!.
  - apply moves. unfold limit. lia.
  - intros s' Hs. destruct Hs; [by right|left..]; unfold weight; cbn [pMain pGs length]; rewrite ?sum_list_with_app; cbn; lia.
  - apply (reaches_return limit (weight s) s); unfold limit; lia.
Qed.

Lemma runParallelWorkers_terminates_witness :
  let s := @start nat ["a"; "b"; "c"] false in
  let limit := effectiveParallelism 2 ["a"; "b"; "c"] in
  ((forall r, pMain s <> MReturned r) -> exists s', step limit s s' /\ (weight s' < weight s)%nat)
  /\ (forall s', step limit s s' -> (weight s' < weight s)%nat \/ s' = mkP (pMain s) (pGs s) (pErrs s) true)
  /\ exists s' r, rtc (step limit) s s' /\ pMain s' = MReturned r.
Proof. apply (runParallelWorkers_terminates ["a"; "b"; "c"] 2 false); [discriminate|apply rtc_refl]. Defined.
