(* ===== verification/Calendar.v ===== *)
(** * Go's time package: dates in a location

    The proleptic Gregorian calendar and the part of [time.Time] that the
    schedule package uses. An instant is a number of nanoseconds since the
    Unix epoch. A location is the lookup of its zone database: offset, start
    and end of the period that holds at an instant, in seconds. *)
From S2P Require Import Prelude.
Open Scope Z_scope.

Notation instant := Z (only parsing).
Definition second : Z := 1000000000.
Definition minute : Z := 60 * second.

(** ** Dates *)

Definition leap (y : Z) : bool := (y mod 4 =? 0) && (negb (y mod 100 =? 0) || (y mod 400 =? 0)).
(** Days from 0001-01-01 to January 1st of [y]. *)
Definition days_before_year (y : Z) : Z := 365 * (y - 1) + (y - 1) / 4 - (y - 1) / 100 + (y - 1) / 400.
Definition days_before_month (y m : Z) : Z :=
  let l := if leap y then 1 else 0 in
  match m with
  | 1 => 0 | 2 => 31 | 3 => 59 + l | 4 => 90 + l | 5 => 120 + l | 6 => 151 + l | 7 => 181 + l
  | 8 => 212 + l | 9 => 243 + l | 10 => 273 + l | 11 => 304 + l | 12 => 334 + l | _ => 365 + l
  end.
Definition month_days (y m : Z) : Z := days_before_month y (m + 1) - days_before_month y m.
(** The day number of a date; the day of the month may overflow. *)
Definition day_number (y m d : Z) : Z := days_before_year y + days_before_month y m + (d - 1).

(** The year of a day number, by cycles of 400, 100, 4 and 1 years. *)
Definition year_of (n : Z) : Z :=
  let n400 := n / 146097 in
  let d := n mod 146097 in
  let n100 := Z.min 3 (d / 36524) in
  let d := d - 36524 * n100 in
  let n4 := d / 1461 in
  let d := d mod 1461 in
  let n1 := Z.min 3 (d / 365) in
  400 * n400 + 100 * n100 + 4 * n4 + n1 + 1.
Definition month_of (n : Z) : Z :=
  let y := year_of n in
  let yday := n - days_before_year y in
  let m := yday / 31 + 1 in
  if days_before_month y (m + 1) <=? yday then m + 1 else m.
Record date := mkDate { Year : Z; Month : Z; Day : Z }.
Definition civil (n : Z) : date :=
  let y := year_of n in
  let m := month_of n in
  mkDate y m (n - days_before_year y - days_before_month y m + 1).
(** 0 is Sunday; 0001-01-01 was a Monday. *)
Definition weekday_of (n : Z) : Z := (n + 1) mod 7.

(** ** Times in a location *)

Record zone := mkZone { zOffset : Z; zStart : Z; zEnd : Z }.
Record Location := mkLoc { lookup_zone : Z -> zone }.

(** Day number of the Unix epoch. *)
Definition epoch_day : Z := 719162.
Definition unix (t : instant) : Z := t / second.
(** Seconds of the local clock since 0001-01-01. *)
Definition local_secs (loc : Location) (t : instant) : Z := epoch_day * 86400 + unix t + zOffset (lookup_zone loc (unix t)).
Definition local_day (loc : Location) (t : instant) : Z := local_secs loc t / 86400.
Definition Date_of (loc : Location) (t : instant) : date := civil (local_day loc t).
Definition Weekday (loc : Location) (t : instant) : Z := weekday_of (local_day loc t).
Definition clock_secs (loc : Location) (t : instant) : Z := local_secs loc t mod 86400.
Definition Hour (loc : Location) (t : instant) : Z := clock_secs loc t / 3600.
Definition Minute (loc : Location) (t : instant) : Z := clock_secs loc t mod 3600 / 60.

(** [time.Date] for a local clock that shows [secs] of the given day; months
    are normalised, days overflow. [nsec] is the fraction of a second. *)
Definition zone_offset (loc : Location) (u : Z) : Z :=
  let z := lookup_zone loc u in
  if zOffset z =? 0 then 0
  else
    let utc := u - zOffset z in
    if (utc <? zStart z) || (zEnd z <=? utc) then zOffset (lookup_zone loc utc) else zOffset z.
Definition DateClock (loc : Location) (y m d secs nsec : Z) : instant :=
  let y' := y + (m - 1) / 12 in
  let m' := (m - 1) mod 12 + 1 in
  let u := (day_number y' m' d - epoch_day) * 86400 + secs in
  (u - zone_offset loc u) * second + nsec.
Definition time_Date (loc : Location) (y m d hour min : Z) : instant := DateClock loc y m d (hour * 3600 + min * 60) 0.
(** [t.AddDate(0, 0, days)]. *)
Definition AddDays (loc : Location) (t : instant) (days : Z) : instant :=
  let c := Date_of loc t in
  DateClock loc (Year c) (Month c) (Day c + days) (clock_secs loc t) (t mod second).

(** The zero [time.Time]. *)
Definition zero_time : instant := - epoch_day * 86400 * second.
Definition IsZero (t : instant) : bool := t =? zero_time.

Definition UTC : Location := mkLoc (fun _ => mkZone 0 0 0).
Definition FixedZone (offset : Z) : Location := mkLoc (fun _ => mkZone offset (-9223372036854775808) 9223372036854775807).

Example epoch_civil : civil epoch_day = mkDate 1970 1 1. Proof. reflexivity. Qed.
Example leap_day : civil (day_number 2000 2 29) = mkDate 2000 2 29. Proof. reflexivity. Qed.
Example thursday : weekday_of epoch_day = 4. Proof. reflexivity. Qed.
Example new_year : Date_of (FixedZone 3600) (DateClock (FixedZone 3600) 2024 12 32 0 0) = mkDate 2025 1 1. Proof. reflexivity. Qed.

(** ** The calendar is consistent *)

Lemma leap_days y : days_before_year (y + 1) - days_before_year y = if leap y then 366 else 365.
Proof.
  unfold days_before_year, leap. replace (y + 1 - 1) with y by lia.
  destruct (y mod 4 =? 0) eqn:E4, (y mod 100 =? 0) eqn:E100, (y mod 400 =? 0) eqn:E400; cbn [andb orb negb]; bool_to_prop;
    Z.to_euclidean_division_equations; lia.
Qed.

Lemma year_of_bounds n : days_before_year (year_of n) <= n < days_before_year (year_of n + 1).
Proof.
  unfold year_of, days_before_year.
  set (n400 := n / 146097). set (d := n mod 146097).
  assert (Hn : n = 146097 * n400 + d /\ 0 <= d < 146097) by (subst n400 d; Z.to_euclidean_division_equations; lia).
  clearbody n400 d. set (n100 := Z.min 3 (d / 36524)). set (d1 := d - 36524 * n100).
  assert (H1 : 0 <= n100 <= 3 /\ 0 <= d1 /\ (n100 < 3 -> d1 < 36524) /\ d1 <= 36524) by (subst n100 d1; Z.to_euclidean_division_equations; lia).
  assert (Hd : d = 36524 * n100 + d1) by (subst d1; lia). clearbody n100 d1.
  set (n4 := d1 / 1461). set (d2 := d1 mod 1461).
  assert (H2 : d1 = 1461 * n4 + d2 /\ 0 <= d2 < 1461 /\ 0 <= n4 <= 24) by (subst n4 d2; Z.to_euclidean_division_equations; lia).
  clearbody n4 d2. set (n1 := Z.min 3 (d2 / 365)).
  assert (H3 : 0 <= n1 <= 3 /\ 365 * n1 <= d2 /\ (n1 < 3 -> d2 < 365 * n1 + 365)) by (subst n1; Z.to_euclidean_division_equations; lia).
  clearbody n1.
  set (k := 400 * n400 + 100 * n100 + 4 * n4 + n1).
  assert (K4 : k / 4 = 100 * n400 + 25 * n100 + n4) by (subst k; Z.to_euclidean_division_equations; lia).
  assert (K100 : k / 100 = 4 * n400 + n100) by (subst k; Z.to_euclidean_division_equations; lia).
  assert (K400 : k / 400 = n400) by (subst k; Z.to_euclidean_division_equations; lia).
  replace (k + 1 - 1) with k by lia. replace (k + 1 + 1 - 1) with (k + 1) by lia.
  rewrite K4, K100, K400. split; [subst k; lia|].
  assert (J4 : (k + 1) / 4 = 100 * n400 + 25 * n100 + n4 + (if n1 =? 3 then 1 else 0))
    by (destruct (n1 =? 3) eqn:E; bool_to_prop; subst k; Z.to_euclidean_division_equations; lia).
  assert (J100 : (k + 1) / 100 = 4 * n400 + n100 + (if (n1 =? 3) && (n4 =? 24) then 1 else 0))
    by (destruct (n1 =? 3) eqn:E, (n4 =? 24) eqn:F; cbn [andb]; bool_to_prop; subst k; Z.to_euclidean_division_equations; lia).
  assert (J400 : (k + 1) / 400 = n400 + (if (n1 =? 3) && (n4 =? 24) && (n100 =? 3) then 1 else 0))
    by (destruct (n1 =? 3) eqn:E, (n4 =? 24) eqn:F, (n100 =? 3) eqn:G; cbn [andb]; bool_to_prop; subst k; Z.to_euclidean_division_equations; lia).
  rewrite J4, J100, J400.
  destruct (n1 =? 3) eqn:E, (n4 =? 24) eqn:F, (n100 =? 3) eqn:G; cbn [andb]; bool_to_prop; subst k; lia.
Qed.

Lemma days_before_year_mono y y' : y <= y' -> days_before_year y <= days_before_year y'.
Proof. intros H. unfold days_before_year. Z.to_euclidean_division_equations; lia. Qed.

Lemma year_of_unique n y : days_before_year y <= n < days_before_year (y + 1) -> year_of n = y.
Proof.
  intros H. pose proof (year_of_bounds n) as Hb. destruct (Z.lt_trichotomy (year_of n) y) as [Hl|[?|Hl]]; [|done|].
  - pose proof (days_before_year_mono (year_of n + 1) y). lia.
  - pose proof (days_before_year_mono (y + 1) (year_of n)). lia.
Qed.

(** The months from 1 to 12. *)
Ltac succ_consts :=
  repeat match goal with
  | |- context [Z.add (Zpos ?p) 1] => let v := eval compute in (Z.add (Zpos p) 1) in change (Z.add (Zpos p) 1) with v
  | Hx : context [Z.add (Zpos ?p) 1] |- _ => let v := eval compute in (Z.add (Zpos p) 1) in change (Z.add (Zpos p) 1) with v in Hx
  end.
Ltac month_cases m :=
  let H := fresh in
  assert (H : m = 1 \/ m = 2 \/ m = 3 \/ m = 4 \/ m = 5 \/ m = 6 \/ m = 7 \/ m = 8 \/ m = 9 \/ m = 10 \/ m = 11 \/ m = 12) by lia;
  repeat (destruct H as [H|H]); rewrite H in *; clear H; succ_consts.

Lemma month_days_range y m : 1 <= m <= 12 -> 28 <= month_days y m <= 31.
Proof. intros Hm. unfold month_days. month_cases m; unfold days_before_month; cbn; destruct (leap y); lia. Qed.
Lemma days_before_month_range y m : 1 <= m <= 12 -> 0 <= days_before_month y m /\ days_before_month y (m + 1) <= (if leap y then 366 else 365).
Proof. intros Hm. month_cases m; unfold days_before_month; cbn; destruct (leap y); lia. Qed.

Definition valid_date (c : date) : Prop := 1 <= Month c <= 12 /\ 1 <= Day c <= month_days (Year c) (Month c).

Lemma yday_bounds n : 0 <= n - days_before_year (year_of n) < (if leap (year_of n) then 366 else 365).
Proof. pose proof (year_of_bounds n). pose proof (leap_days (year_of n)). lia. Qed.

Lemma month_of_bounds n :
  1 <= month_of n <= 12 /\
  days_before_month (year_of n) (month_of n) <= n - days_before_year (year_of n) < days_before_month (year_of n) (month_of n + 1).
Proof.
  unfold month_of. pose proof (yday_bounds n) as Hy. set (y := year_of n) in *. set (k := n - days_before_year y) in *.
  clearbody k. set (m := k / 31 + 1).
  assert (Hm : 1 <= m <= 12 /\ 31 * (m - 1) <= k < 31 * m) by (subst m; destruct (leap y); Z.to_euclidean_division_equations; lia).
  clearbody m. destruct Hm as [Hm Hk].
  destruct (days_before_month y (m + 1) <=? k) eqn:Ec; bool_to_prop;
    month_cases m; unfold days_before_month in *; destruct (leap y); cbn in *; lia.
Qed.

Lemma civil_valid n : valid_date (civil n).
Proof.
  pose proof (month_of_bounds n) as [Hm Hd]. unfold valid_date, civil, month_days. cbn. lia.
Qed.
Lemma day_number_civil n : day_number (Year (civil n)) (Month (civil n)) (Day (civil n)) = n.
Proof. unfold day_number, civil. cbn. lia. Qed.

Lemma civil_unique n c : valid_date c -> day_number (Year c) (Month c) (Day c) = n -> civil n = c.
Proof.
  destruct c as [y m d]. unfold valid_date, day_number, month_days. cbn. intros [Hm Hd] Hn.
  pose proof (days_before_month_range y m Hm) as [Hb He]. pose proof (leap_days y) as Hl.
  assert (Hy : year_of n = y) by (apply year_of_unique; lia).
  assert (Hmm : month_of n = m).
  { pose proof (month_of_bounds n) as [Hm' Hd']. rewrite Hy in Hd'. set (m' := month_of n) in *. clearbody m'.
    replace (n - days_before_year y) with (days_before_month y m + (d - 1)) in Hd' by lia. clear Hn Hy Hl He.
    month_cases m; month_cases m'; unfold days_before_month in *; cbn in *; destruct (leap y); lia. }
  unfold civil. rewrite Hy, Hmm. f_equal. lia.
Qed.

(** Day numbers and dates correspond. *)
Lemma civil_day_number c : valid_date c -> civil (day_number (Year c) (Month c) (Day c)) = c.
Proof. intros Hc. by apply civil_unique. Qed.

Lemma weekday_range n : 0 <= weekday_of n <= 6.
Proof. unfold weekday_of. Z.to_euclidean_division_equations; lia. Qed.

(** ** Locations without transitions in the middle of a day *)

(** [time.Date] gives the local clock asked for. Zones with a fixed offset
    have this; a zone whose clock skips or repeats an hour has it at all
    other times. *)
Definition clock_exact (loc : Location) : Prop := forall u, zOffset (lookup_zone loc (u - zone_offset loc u)) = zone_offset loc u.

Lemma UTC_exact : clock_exact UTC.
Proof. intros u. reflexivity. Qed.
Lemma FixedZone_exact offset : clock_exact (FixedZone offset).
Proof. intros u. unfold zone_offset, FixedZone. cbn. repeat case_goal; bool_to_prop; lia. Qed.

Section exact.
Context (loc : Location) (Hloc : clock_exact loc).

Lemma unix_scale u n : 0 <= n < second -> unix (u * second + n) = u.
Proof. intros H. unfold unix. rewrite Z.div_add_l by (unfold second; lia). rewrite Z.div_small by lia. lia. Qed.

Lemma local_secs_DateClock y m d secs nsec :
  1 <= m <= 12 -> 0 <= nsec < second ->
  local_secs loc (DateClock loc y m d secs nsec) = day_number y m d * 86400 + secs.
Proof.
  intros Hm Hn. unfold DateClock, local_secs. replace ((m - 1) / 12) with 0 by (rewrite Z.div_small; lia).
  replace ((m - 1) mod 12 + 1) with m by (rewrite Z.mod_small; lia). rewrite Z.add_0_r, unix_scale by done.
  set (u := (day_number y m d - epoch_day) * 86400 + secs). rewrite Hloc. subst u. lia.
Qed.

Lemma local_day_DateClock y m d secs nsec :
  1 <= m <= 12 -> 0 <= secs < 86400 -> 0 <= nsec < second ->
  local_day loc (DateClock loc y m d secs nsec) = day_number y m d.
Proof.
  intros Hm Hs Hn. unfold local_day. rewrite local_secs_DateClock by done.
  rewrite Z.div_add_l by lia. rewrite Z.div_small by lia. lia.
Qed.
Lemma clock_DateClock y m d secs nsec :
  1 <= m <= 12 -> 0 <= secs < 86400 -> 0 <= nsec < second -> clock_secs loc (DateClock loc y m d secs nsec) = secs.
Proof.
  intros Hm Hs Hn. unfold clock_secs. rewrite local_secs_DateClock by done.
  rewrite Z.add_comm, Z.mod_add by lia. by apply Z.mod_small.
Qed.

Lemma clock_secs_range t : 0 <= clock_secs loc t < 86400.
Proof. unfold clock_secs. apply Z.mod_pos_bound. lia. Qed.
Lemma nsec_range t : 0 <= t mod second < second.
Proof. apply Z.mod_pos_bound. unfold second. lia. Qed.

Lemma local_day_AddDays t k : local_day loc (AddDays loc t k) = local_day loc t + k.
Proof.
  unfold AddDays. pose proof (civil_valid (local_day loc t)) as [Hm Hd]. unfold Date_of.
  rewrite local_day_DateClock by (first [done | apply clock_secs_range | apply nsec_range]).
  pose proof (day_number_civil (local_day loc t)) as Hn. unfold day_number in *. lia.
Qed.
Lemma clock_AddDays t k : clock_secs loc (AddDays loc t k) = clock_secs loc t.
Proof.
  unfold AddDays. pose proof (civil_valid (local_day loc t)) as [Hm Hd]. unfold Date_of.
  by rewrite clock_DateClock by (first [done | apply clock_secs_range | apply nsec_range]).
Qed.

(** Midnight of the day of [t], as the code writes it. *)
Definition midnight (t : instant) : instant :=
  time_Date loc (Year (Date_of loc t)) (Month (Date_of loc t)) (Day (Date_of loc t)) 0 0.
Lemma local_day_midnight t : local_day loc (midnight t) = local_day loc t.
Proof.
  unfold midnight, time_Date. pose proof (civil_valid (local_day loc t)) as [Hm _]. unfold Date_of.
  rewrite local_day_DateClock by (done || unfold second; lia). apply day_number_civil.
Qed.
Lemma clock_midnight t : clock_secs loc (midnight t) = 0.
Proof.
  unfold midnight, time_Date. pose proof (civil_valid (local_day loc t)) as [Hm _]. unfold Date_of.
  apply clock_DateClock; (done || unfold second; lia).
Qed.
End exact.
