(* ===== verification/Schedule.v ===== *)
(** * schedule: recurring allow windows

    schedule/schedule.go. Instants, dates and locations are those of
    Calendar.v; [time.LoadLocation] reads the zone database of the host and is
    an argument. Error texts are constructors. *)
From S2P Require Import Prelude GoStrings Calendar.
Open Scope Z_scope.

Definition RecurrenceDaily : string := "daily".
Definition RecurrenceWeekly : string := "weekly".
Definition RecurrenceMonthly : string := "monthly".
Definition RecurrenceYearly : string := "yearly".
Definition MonthlyByDay : string := "day".
Definition MonthlyByWeekday : string := "weekday".
Definition WeekFirst : string := "first".
Definition WeekSecond : string := "second".
Definition WeekThird : string := "third".
Definition WeekFourth : string := "fourth".
Definition WeekLast : string := "last".
Definition scanDays : Z := 400.

Record Monthday := mkMonthday { mdLast : bool; mdDay : Z }.
Record Window := mkWindow {
  Recurrence : string;
  Days : list string;
  MonthlyBy : string;
  Week : string;
  wWeekday : string;
  Monthdays : list Monthday;
  Months : list Z;
  Start : string;
  End_ : string;
}.
Record Schedule := mkSchedule { Timezone : string; Windows : list Window }.

Inductive window_error :=
| BadRecurrence
| BadTime (field : string)
| BadDay (d : string)
| MonthsRange
| WeeklyNeedsDays
| MonthlyByRequired
| MonthdaysRequired
| MonthdaysRange
| BadWeek
| BadWeekday
| BadMonthlyBy
| YearlyNeedsMonths.
Inductive schedule_error :=
| TimezoneRequired
| InvalidTimezone (tz : string)
| WindowsRequired
| BadWindow (i : nat) (e : window_error).

Section schedule.
Context `{Unicode}.
Context (LoadLocation : string -> option Location).

Definition weekdayName (d : Z) : string :=
  match d with
  | 1 => "mon" | 2 => "tue" | 3 => "wed" | 4 => "thu" | 5 => "fri" | 6 => "sat" | 0 => "sun" | _ => ""
  end.
Definition weekdayOfName (s : string) : option Z :=
  if bool_decide (s = "mon") then Some 1
  else if bool_decide (s = "tue") then Some 2
  else if bool_decide (s = "wed") then Some 3
  else if bool_decide (s = "thu") then Some 4
  else if bool_decide (s = "fri") then Some 5
  else if bool_decide (s = "sat") then Some 6
  else if bool_decide (s = "sun") then Some 0
  else None.
Definition parseWeekdayName (s : string) : option Z := weekdayOfName (ToLower (TrimSpace s)).

Definition parseHHMM (s : string) : option (Z * Z) :=
  let parts := Split (TrimSpace s) ":" in
  if negb (length parts =? 2)%nat && negb (length parts =? 3)%nat then None
  else
    h ← Atoi (nth 0 parts "");
    if (h <? 0) || (h >? 23) then None
    else
      m ← Atoi (nth 1 parts "");
      if (m <? 0) || (m >? 59) then None else Some (h, m).
Definition minutesOfDay (loc : Location) (t : instant) : Z := Hour loc t * 60 + Minute loc t.
Definition hhmmToMinutes (s : string) : option Z := '(h, m) ← parseHHMM s; Some (h * 60 + m).

Definition ApplyDefaultTimezone (sched : Schedule) (defaultTZ : string) : Schedule :=
  if negb (bool_decide (TrimSpace (Timezone sched) = "")) then sched
  else
    let defaultTZ := TrimSpace defaultTZ in
    mkSchedule (if bool_decide (defaultTZ = "") then "UTC" else defaultTZ) (Windows sched).

(** ** Normalisation *)

Fixpoint normalizeDays (seenDay : gset string) (days : list string) : result window_error (list string) :=
  match days with
  | [] => Ok []
  | d :: days =>
      let d := ToLower (TrimSpace d) in
      if bool_decide (d = "") then normalizeDays seenDay days
      else if negb (bool_decide (is_Some (parseWeekdayName d))) then Err (BadDay d)
      else if bool_decide (d ∈ seenDay) then normalizeDays seenDay days
      else let? rest := normalizeDays ({[d]} ∪ seenDay) days in Ok (d :: rest)
  end.
Fixpoint normalizeMonths (seenMonth : gset Z) (months : list Z) : result window_error (list Z) :=
  match months with
  | [] => Ok []
  | m :: months =>
      if (m <? 1) || (m >? 12) then Err MonthsRange
      else if bool_decide (m ∈ seenMonth) then normalizeMonths seenMonth months
      else let? rest := normalizeMonths ({[m]} ∪ seenMonth) months in Ok (m :: rest)
  end.
Definition monthdayOk (md : Monthday) : bool := mdLast md || negb ((mdDay md <? 1) || (mdDay md >? 31)).

(** The last switch: what a recurrence requires. *)
Definition checkRecurrence (w : Window) : result window_error unit :=
  if bool_decide (Recurrence w = RecurrenceDaily) then Ok tt
  else if bool_decide (Recurrence w = RecurrenceWeekly) then
    if (length (Days w) =? 0)%nat then Err WeeklyNeedsDays else Ok tt
  else if bool_decide (MonthlyBy w = "") then Err MonthlyByRequired
  else
    let? _ :=
      (if bool_decide (MonthlyBy w = MonthlyByDay) then
         if (length (Monthdays w) =? 0)%nat then Err MonthdaysRequired
         else if forallb monthdayOk (Monthdays w) then Ok tt else Err MonthdaysRange
       else if bool_decide (MonthlyBy w = MonthlyByWeekday) then
         if negb (bool_decide (Week w ∈ [WeekFirst; WeekSecond; WeekThird; WeekFourth; WeekLast])) then Err BadWeek
         else if negb (bool_decide (is_Some (parseWeekdayName (wWeekday w)))) then Err BadWeekday
         else Ok tt
       else Err BadMonthlyBy) in
    if bool_decide (Recurrence w = RecurrenceYearly) && (length (Months w) =? 0)%nat then Err YearlyNeedsMonths
    else Ok tt.

Definition NormalizeWindow (w : Window) : result window_error Window :=
  let recurrence := ToLower (TrimSpace (Recurrence w)) in
  let recurrence := if bool_decide (recurrence = "") then RecurrenceWeekly else recurrence in
  if negb (bool_decide (recurrence ∈ [RecurrenceDaily; RecurrenceWeekly; RecurrenceMonthly; RecurrenceYearly]))
  then Err BadRecurrence
  else if negb (bool_decide (is_Some (hhmmToMinutes (Start w)))) then Err (BadTime "start")
  else if negb (bool_decide (is_Some (hhmmToMinutes (End_ w)))) then Err (BadTime "end")
  else
    let? days := normalizeDays ∅ (Days w) in
    let? months := normalizeMonths ∅ (Months w) in
    let w := mkWindow recurrence days (ToLower (TrimSpace (MonthlyBy w))) (ToLower (TrimSpace (Week w)))
               (ToLower (TrimSpace (wWeekday w))) (Monthdays w) months (Start w) (End_ w) in
    let? _ := checkRecurrence w in
    Ok w.

Fixpoint normalizeWindows (i : nat) (ws : list Window) : result schedule_error (list Window) :=
  match ws with
  | [] => Ok []
  | w :: ws =>
      match NormalizeWindow w with
      | Err e => Err (BadWindow i e)
      | Ok w => let? rest := normalizeWindows (S i) ws in Ok (w :: rest)
      end
  end.
Definition NormalizeWindowsOnly (sched : Schedule) : result schedule_error Schedule :=
  let tz := TrimSpace (Timezone sched) in
  if bool_decide (tz = "") then Err TimezoneRequired
  else if negb (bool_decide (is_Some (LoadLocation tz))) then Err (InvalidTimezone tz)
  else let? ws := normalizeWindows 0 (Windows sched) in Ok (mkSchedule tz ws).
Definition Normalize (sched : Schedule) : result schedule_error Schedule :=
  let tz := TrimSpace (Timezone sched) in
  if bool_decide (tz = "") then Err TimezoneRequired
  else if negb (bool_decide (is_Some (LoadLocation tz))) then Err (InvalidTimezone tz)
  else if (length (Windows sched) =? 0)%nat then Err WindowsRequired
  else let? ws := normalizeWindows 0 (Windows sched) in Ok (mkSchedule tz ws).

(** ** The days of a window *)

Definition monthAllowed (months : list Z) (month : Z) : bool :=
  if (length months =? 0)%nat then true else existsb (fun x => x =? month) months.

Definition sameMonth (loc : Location) (t : instant) (month : Z) : bool := Month (Date_of loc t) =? month.

(** [for d.Month() == month], back from the last day; a month has at most 31. *)
Fixpoint lastWeekdayLoop (fuel : nat) (loc : Location) (month weekday : Z) (d : instant) : option instant :=
  match fuel with
  | O => None
  | S fuel =>
      if negb (sameMonth loc d month) then None
      else if Weekday loc d =? weekday then Some d
      else lastWeekdayLoop fuel loc month weekday (AddDays loc d (-1))
  end.
(** [for day := 1; day <= 31; day++] with the weekdays counted so far. *)
Fixpoint nthWeekdayLoop (fuel : nat) (loc : Location) (year month n weekday day count : Z) : option instant :=
  match fuel with
  | O => None
  | S fuel =>
      let t := time_Date loc year month day 0 0 in
      if negb (sameMonth loc t month) then None
      else if Weekday loc t =? weekday then
        if count + 1 =? n then Some t
        else nthWeekdayLoop fuel loc year month n weekday (day + 1) (count + 1)
      else nthWeekdayLoop fuel loc year month n weekday (day + 1) count
  end.
Definition weekNumber (week : string) : option Z :=
  if bool_decide (week = WeekFirst) then Some 1
  else if bool_decide (week = WeekSecond) then Some 2
  else if bool_decide (week = WeekThird) then Some 3
  else if bool_decide (week = WeekFourth) then Some 4
  else None.
Definition nthWeekdayOfMonth (loc : Location) (year month : Z) (week : string) (weekday : Z) : option instant :=
  if bool_decide (week = WeekLast) then
    let firstNext := time_Date loc year (month + 1) 1 0 0 in
    lastWeekdayLoop 32 loc month weekday (AddDays loc firstNext (-1))
  else
    n ← weekNumber week;
    nthWeekdayLoop 31 loc year month n weekday 1 0.

Definition monthdayMatches (lastDay dayOfMonth : Z) (md : Monthday) : bool :=
  if mdLast md then dayOfMonth =? lastDay
  else if mdDay md >? lastDay then false
  else dayOfMonth =? mdDay md.
Definition dateMatchesWindow (loc : Location) (w : Window) (day : instant) : bool :=
  let c := Date_of loc day in
  let day := time_Date loc (Year c) (Month c) (Day c) 0 0 in
  let c := Date_of loc day in
  if negb (monthAllowed (Months w) (Month c)) then false
  else if bool_decide (Recurrence w = RecurrenceDaily) then true
  else if bool_decide (Recurrence w = RecurrenceWeekly) then
    existsb (fun d => bool_decide (d = weekdayName (Weekday loc day))) (Days w)
  else if bool_decide (Recurrence w = RecurrenceMonthly) || bool_decide (Recurrence w = RecurrenceYearly) then
    if bool_decide (MonthlyBy w = MonthlyByDay) then
      let lastDay := Day (Date_of loc (AddDays loc (time_Date loc (Year c) (Month c + 1) 1 0 0) (-1))) in
      existsb (monthdayMatches lastDay (Day c)) (Monthdays w)
    else if bool_decide (MonthlyBy w = MonthlyByWeekday) then
      match parseWeekdayName (wWeekday w) with
      | None => false
      | Some wd =>
          match nthWeekdayOfMonth loc (Year c) (Month c) (Week w) wd with
          | None => false
          | Some occ =>
              let o := Date_of loc occ in
              (Year o =? Year c) && (Month o =? Month c) && (Day o =? Day c)
          end
      end
    else false
  else false.

(** ** Instants in a window *)

Definition timeInWindowMinutes (startMin endMin nowMin : Z) : bool :=
  if endMin <=? startMin then (nowMin >=? startMin) || (nowMin <=? endMin)
  else (nowMin >=? startMin) && (nowMin <=? endMin).
Definition windowAllowsInstant (loc : Location) (w : Window) (t : instant) : bool :=
  match hhmmToMinutes (Start w), hhmmToMinutes (End_ w) with
  | Some startMin, Some endMin =>
      let nowMin := minutesOfDay loc t in
      let c := Date_of loc t in
      let day := time_Date loc (Year c) (Month c) (Day c) 0 0 in
      if endMin <=? startMin then
        (dateMatchesWindow loc w day && (nowMin >=? startMin))
        || (dateMatchesWindow loc w (AddDays loc day (-1)) && (nowMin <=? endMin))
      else dateMatchesWindow loc w day && timeInWindowMinutes startMin endMin nowMin
  | _, _ => false
  end.
(** [None] is the error of an unknown time zone; [sched] is not nil. *)
Definition Allows (sched : Schedule) (now : instant) : option bool :=
  if (length (Windows sched) =? 0)%nat then Some true
  else
    loc ← LoadLocation (TrimSpace (Timezone sched));
    Some (existsb (fun w => windowAllowsInstant loc w now) (Windows sched)).

Definition maxSteps : nat := Z.to_nat 11520.
(** [for t := ...; !t.After(to); t = t.Add(time.Minute)] *)
Fixpoint openLoop (fuel : nat) (sched : Schedule) (t to : instant) : option bool :=
  if t >? to then Some true
  else
    ok ← Allows sched t;
    if negb ok then Some false
    else match fuel with O => Some true | S fuel => openLoop fuel sched (t + minute) to end.
Definition continuousOpen (sched : Schedule) (from to : instant) : option bool :=
  if to <? from then Some false
  else openLoop maxSteps sched (from - from mod minute) to.
Definition DueOncePerOpening (sched : Schedule) (now lastFire : instant) : option bool :=
  openNow ← Allows sched now;
  if negb openNow then Some false
  else if IsZero lastFire then Some true
  else same ← continuousOpen sched lastFire now; Some (negb same).

(** ** The next opening *)

Definition windowOpenOnDay (loc : Location) (w : Window) (day : instant) : option instant :=
  if negb (dateMatchesWindow loc w day) then None
  else
    '(h, m) ← parseHHMM (Start w);
    let c := Date_of loc day in
    Some (time_Date loc (Year c) (Month c) (Day c) h m).
(** One window of one day, on the best opening so far. *)
Definition considerWindow (loc : Location) (now day : instant) (best : option instant) (w : Window) : option instant :=
  match windowOpenOnDay loc w day with
  | None => best
  | Some open =>
      if open <? now then best
      else match best with
           | None => Some open
           | Some b => if open <? b then Some open else best
           end
  end.
Definition considerDay (loc : Location) (ws : list Window) (now day0 : instant) (best : option instant) (i : nat) : option instant :=
  foldl (considerWindow loc now (AddDays loc day0 (Z.of_nat i))) best ws.
(** [Some None] says that there is none, or that a window is open. *)
Definition NextWindowStart (sched : Schedule) (now : instant) : option (option instant) :=
  if (length (Windows sched) =? 0)%nat then Some None
  else
    allowed ← Allows sched now;
    if allowed : bool then Some None
    else
      loc ← LoadLocation (TrimSpace (Timezone sched));
      let c := Date_of loc now in
      let day0 := time_Date loc (Year c) (Month c) (Day c) 0 0 in
      Some (foldl (considerDay loc (Windows sched) now day0) None (seq 0 (S (Z.to_nat scanDays)))).
End schedule.

(** Every second Friday at 22:00 to 02:00, in UTC: open on 2024-03-08 23:30. *)
Definition example_window : Window :=
  mkWindow "monthly" [] "weekday" "second" "fri" [] [] "22:00" "02:00".
Example example_open :
  Allows (H := ascii_unicode) (fun _ => Some UTC) (mkSchedule "UTC" [example_window]) (time_Date UTC 2024 3 8 23 30) = Some true.
Proof. vm_compute. reflexivity. Qed.
Example example_open_after_midnight :
  Allows (H := ascii_unicode) (fun _ => Some UTC) (mkSchedule "UTC" [example_window]) (time_Date UTC 2024 3 9 2 0) = Some true.
Proof. vm_compute. reflexivity. Qed.
Example example_closed :
  Allows (H := ascii_unicode) (fun _ => Some UTC) (mkSchedule "UTC" [example_window]) (time_Date UTC 2024 3 9 2 1) = Some false.
Proof. vm_compute. reflexivity. Qed.
Example example_next :
  NextWindowStart (H := ascii_unicode) (fun _ => Some UTC) (mkSchedule "UTC" [example_window]) (time_Date UTC 2024 3 9 2 1)
  = Some (Some (time_Date UTC 2024 4 12 22 0)).
Proof. vm_compute. reflexivity. Qed.
