(* ===== verification/ScheduleFacts.v ===== *)
(** * Facts on recurring windows

    Which days a window names, which instants it holds, the next opening and
    the once-per-opening rule. *)
From S2P Require Import Prelude GoStrings Utils Calendar Schedule.
Open Scope Z_scope.
(** Conversion leaves the calendar's functions folded. *)
#[local] Strategy 1000 [civil local_day local_secs time_Date DateClock AddDays weekday_of clock_secs minutesOfDay dateMatchesWindow hhmmToMinutes].

(** ** Days of a month *)

Lemma day_number_next_month y m : 1 <= m <= 12 ->
  day_number (y + (m + 1 - 1) / 12) ((m + 1 - 1) mod 12 + 1) 1 = day_number y m (month_days y m) + 1.
Proof.
  intros Hm. unfold day_number, month_days. replace (m + 1 - 1) with m by lia.
  destruct (decide (m = 12)) as [->|Hn].
  - change (12 / 12) with 1. change (12 mod 12 + 1) with 1. pose proof (leap_days y).
    succ_consts. unfold days_before_month. destruct (leap y), (leap (y + 1)); lia.
  - rewrite Z.div_small, Z.mod_small by lia. replace (y + 0) with y by lia. lia.
Qed.

Lemma next_month_valid m : 1 <= m <= 12 -> 1 <= (m + 1 - 1) mod 12 + 1 <= 12.
Proof. intros Hm. pose proof (Z.mod_pos_bound (m + 1 - 1) 12). lia. Qed.

Lemma civil_of_date y m d : 1 <= m <= 12 -> 1 <= d <= month_days y m -> civil (day_number y m d) = mkDate y m d.
Proof. intros Hm Hd. by apply (civil_day_number (mkDate y m d)). Qed.

(** A day number from 1 to 31 stays in the month exactly up to its length. *)
Lemma month_of_day y m d : 1 <= m <= 12 -> 1 <= d <= 31 ->
  Month (civil (day_number y m d)) = m <-> d <= month_days y m.
Proof.
  intros Hm Hd. pose proof (month_days_range y m Hm) as Hr. split.
  - intros Hc. destruct (Z.le_gt_cases d (month_days y m)) as [?|Hlt]; [done|exfalso].
    pose proof (day_number_next_month y m Hm) as Hn. pose proof (next_month_valid m Hm) as Hv.
    set (y' := y + (m + 1 - 1) / 12) in *. set (m' := (m + 1 - 1) mod 12 + 1) in *.
    assert (Hm' : m' <> m) by (subst m'; Z.to_euclidean_division_equations; lia).
    pose proof (month_days_range y' m' Hv) as Hr'.
    assert (He : day_number y m d = day_number y' m' (d - month_days y m)) by (unfold day_number in *; lia).
    rewrite He, civil_of_date in Hc by lia. done.
  - intros Hle. by rewrite civil_of_date by lia.
Qed.

Lemma weekday_add n k : weekday_of (n + k) = (weekday_of n + k) mod 7.
Proof. unfold weekday_of. Z.to_euclidean_division_equations; lia. Qed.

Section exact.
Context (loc : Location) (Hloc : clock_exact loc).

Lemma local_day_time_Date y m d h mi : 1 <= m <= 12 -> 0 <= h * 3600 + mi * 60 < 86400 ->
  local_day loc (time_Date loc y m d h mi) = day_number y m d.
Proof. intros Hm Hs. by apply local_day_DateClock. Qed.

(** The last day of a month, as the code computes it. *)
Lemma last_day y m : 1 <= m <= 12 ->
  local_day loc (AddDays loc (time_Date loc y (m + 1) 1 0 0) (-1)) = day_number y m (month_days y m).
Proof.
  intros Hm. rewrite local_day_AddDays by done. unfold time_Date.
  assert (He : DateClock loc y (m + 1) 1 (0 * 3600 + 0 * 60) 0
               = DateClock loc (y + (m + 1 - 1) / 12) ((m + 1 - 1) mod 12 + 1) 1 (0 * 3600 + 0 * 60) 0).
  { unfold DateClock. pose proof (next_month_valid m Hm). set (m' := (m + 1 - 1) mod 12 + 1) in *.
    replace ((m' - 1) / 12) with 0 by (rewrite Z.div_small; lia). replace ((m' - 1) mod 12 + 1) with m' by (rewrite Z.mod_small; lia).
    replace (y + (m + 1 - 1) / 12 + 0) with (y + (m + 1 - 1) / 12) by lia. reflexivity. }
  rewrite He, local_day_DateClock by (first [done | by apply next_month_valid | unfold second; lia]).
  rewrite day_number_next_month by done. lia.
Qed.
Lemma civil_last_day y m : 1 <= m <= 12 -> civil (day_number y m (month_days y m)) = mkDate y m (month_days y m).
Proof. intros Hm. pose proof (month_days_range y m Hm). apply civil_of_date; lia. Qed.

(** ** The n-th weekday of a month *)

Lemma lastWeekdayLoop_spec y m wd fuel : forall t d,
  1 <= m <= 12 -> 0 <= wd <= 6 -> local_day loc t = day_number y m d -> d <= month_days y m ->
  (weekday_of (day_number y m d) - wd) mod 7 < d ->
  (Z.to_nat ((weekday_of (day_number y m d) - wd) mod 7) < fuel)%nat ->
  exists t', lastWeekdayLoop fuel loc m wd t = Some t'
    /\ local_day loc t' = day_number y m (d - (weekday_of (day_number y m d) - wd) mod 7).
Proof.
  induction fuel as [|fuel IH]; intros t d Hm Hwd Ht Hd Hlo Hf; [lia|]. cbn [lastWeekdayLoop].
  pose proof (Z.mod_pos_bound (weekday_of (day_number y m d) - wd) 7) as Hb.
  assert (Hsame : sameMonth loc t m = true).
  { unfold sameMonth, Date_of. rewrite Ht. apply Z.eqb_eq. pose proof (month_days_range y m Hm). apply month_of_day; lia. }
  rewrite Hsame. cbn [negb]. unfold Weekday. rewrite Ht.
  pose proof (weekday_range (day_number y m d)) as Hw.
  destruct (weekday_of (day_number y m d) =? wd) eqn:Ew; bool_to_prop.
  - exists t. split; [done|]. rewrite Ht, Ew, Z.sub_diag, Z.mod_0_l by lia. by rewrite Z.sub_0_r.
  - assert (Hprev : day_number y m d + -1 = day_number y m (d - 1)) by (unfold day_number; lia).
    assert (Hwp : (weekday_of (day_number y m (d - 1)) - wd) mod 7 = (weekday_of (day_number y m d) - wd) mod 7 - 1).
    { rewrite <- Hprev, weekday_add. Z.to_euclidean_division_equations; lia. }
    assert (Hpos : (weekday_of (day_number y m d) - wd) mod 7 <> 0) by (Z.to_euclidean_division_equations; lia).
    destruct (IH (AddDays loc t (-1)) (d - 1)) as (t' & Hl & Ht'); try done; rewrite ?Hwp; try lia.
    + by rewrite local_day_AddDays, Ht by done.
    + exists t'. split; [done|]. rewrite Ht', Hwp. f_equal. lia.
Qed.

Lemma nthWeekdayLoop_spec y m n wd f fuel : forall day count,
  1 <= m <= 12 -> 1 <= f <= 7 -> (weekday_of (day_number y m f) = wd) -> 1 <= day -> Z.of_nat fuel = 32 - day ->
  count = (day - f + 6) / 7 -> day <= f + 7 * (n - 1) -> f + 7 * (n - 1) <= month_days y m ->
  exists t, nthWeekdayLoop fuel loc y m n wd day count = Some t /\ local_day loc t = day_number y m (f + 7 * (n - 1)).
Proof.
  induction fuel as [|fuel IH]; intros day count Hm Hf Hwd Hday Hfuel Hc Hle Hlast;
    pose proof (month_days_range y m Hm) as Hr; [lia|].
  cbn [nthWeekdayLoop].
  assert (Hl : local_day loc (time_Date loc y m day 0 0) = day_number y m day) by (apply local_day_time_Date; lia).
  unfold sameMonth, Date_of, Weekday. rewrite Hl. rewrite (proj2 (Z.eqb_eq _ m)) by (apply month_of_day; lia). cbn [negb].
  assert (Hw : weekday_of (day_number y m day) = (wd + (day - f)) mod 7).
  { rewrite <- Hwd, <- weekday_add. f_equal. unfold day_number. lia. }
  pose proof (weekday_range (day_number y m f)) as Hwr. rewrite Hwd in Hwr. rewrite Hw.
  destruct ((wd + (day - f)) mod 7 =? wd) eqn:Ew; bool_to_prop.
  - assert (Hk : day = f + 7 * count) by (Z.to_euclidean_division_equations; lia).
    destruct (count + 1 =? n) eqn:En; bool_to_prop.
    + exists (time_Date loc y m day 0 0). split; [done|]. rewrite Hl. f_equal. lia.
    + apply IH; try done; try lia. Z.to_euclidean_division_equations; lia.
  - apply IH; try done; try lia; Z.to_euclidean_division_equations; lia.
Qed.
End exact.

(** ** The days a window names *)

(** What the fields of a window say about the day with number [D]. *)
Definition named_by_monthday (w : Window) (c : date) : Prop :=
  exists md, md ∈ Monthdays w /\ Day c = (if mdLast md then month_days (Year c) (Month c) else mdDay md).
Definition named_by_week (w : Window) (c : date) : Prop :=
  (Week w = WeekLast /\ month_days (Year c) (Month c) < Day c + 7)
  \/ (Week w <> WeekLast /\ weekNumber (Week w) = Some ((Day c - 1) / 7 + 1)).
Definition names_day `{Unicode} (w : Window) (D : Z) : Prop :=
  let c := civil D in
  (Months w = [] \/ Month c ∈ Months w)
  /\ (Recurrence w = RecurrenceDaily
      \/ (Recurrence w = RecurrenceWeekly /\ weekdayName (weekday_of D) ∈ Days w)
      \/ ((Recurrence w = RecurrenceMonthly \/ Recurrence w = RecurrenceYearly)
          /\ ((MonthlyBy w = MonthlyByDay /\ named_by_monthday w c)
              \/ (MonthlyBy w = MonthlyByWeekday /\ parseWeekdayName (wWeekday w) = Some (weekday_of D) /\ named_by_week w c)))).

Lemma monthAllowed_spec months m : monthAllowed months m = true <-> months = [] \/ m ∈ months.
Proof.
  unfold monthAllowed. destruct months as [|x months]; cbn [length Nat.eqb]; [naive_solver|].
  rewrite existsb_exists. split.
  - intros (z & Hz & He). right. apply Z.eqb_eq in He as <-. by apply list_elem_of_In.
  - intros [?|Hm]; [done|]. exists m. rewrite Z.eqb_refl. split; [by apply list_elem_of_In|done].
Qed.

Lemma civil_inj a b : civil a = civil b -> a = b.
Proof. intros He. by rewrite <- (day_number_civil a), <- (day_number_civil b), He. Qed.
Lemma same_date_spec a b :
  (Year (civil a) =? Year (civil b)) && (Month (civil a) =? Month (civil b)) && (Day (civil a) =? Day (civil b)) = true <-> a = b.
Proof.
  split; [|intros ->; by rewrite !Z.eqb_refl]. intros He. apply civil_inj.
  destruct (civil a), (civil b). cbn in He. bool_to_prop. by f_equal.
Qed.

Lemma monthdayMatches_spec y m d md : d <= month_days y m ->
  monthdayMatches (month_days y m) d md = true <-> d = (if mdLast md then month_days y m else mdDay md).
Proof.
  intros Hd. unfold monthdayMatches. destruct (mdLast md); [apply Z.eqb_eq|].
  destruct (mdDay md >? month_days y m) eqn:E; bool_to_prop; [split; [done|lia]|apply Z.eqb_eq].
Qed.
Lemma parseWeekdayName_range `{Unicode} s wd : parseWeekdayName s = Some wd -> 0 <= wd <= 6.
Proof. unfold parseWeekdayName, weekdayOfName. repeat case_match; intros [=]; lia. Qed.

(** The [n]-th day of a weekday, [w] being that of the first of the month. *)
Lemma nth_arith w wd n d : 0 <= w <= 6 -> 0 <= wd <= 6 ->
  d = 1 + (wd - w) mod 7 + 7 * (n - 1) <-> wd = (w + (d - 1)) mod 7 /\ n = (d - 1) / 7 + 1.
Proof.
  intros Hw Hwd. pose proof (Z.mod_pos_bound (wd - w) 7). pose proof (Z.div_mod (wd - w) 7). set (r := (wd - w) mod 7) in *.
  split.
  - intros ->. replace (1 + r + 7 * (n - 1) - 1) with (r + (n - 1) * 7) by lia. rewrite Z.div_add by lia.
    rewrite (Z.div_small r) by lia. split; [|lia]. rewrite Z.add_assoc, Z.mod_add by lia. Z.to_euclidean_division_equations; lia.
  - intros [Hd Hn]. Z.to_euclidean_division_equations; lia.
Qed.

Section named.
Context (loc : Location) (Hloc : clock_exact loc).

(** The weekday of a month that [week] asks for, by its day number. *)
Lemma nthWeekday_last y m wd : 1 <= m <= 12 -> 0 <= wd <= 6 ->
  exists t, nthWeekdayOfMonth loc y m WeekLast wd = Some t
    /\ forall d, 1 <= d <= month_days y m ->
         local_day loc t = day_number y m d <-> wd = weekday_of (day_number y m d) /\ month_days y m < d + 7.
Proof.
  intros Hm Hwd. pose proof (month_days_range y m Hm) as Hr. set (L := month_days y m) in *.
  pose proof (Z.mod_pos_bound (weekday_of (day_number y m L) - wd) 7) as Hb.
  destruct (lastWeekdayLoop_spec loc Hloc y m wd 32 (AddDays loc (time_Date loc y (m + 1) 1 0 0) (-1)) L) as (t & Hl & Ht);
    try done; try (subst L; lia).
  - by apply last_day.
  - exists t. split; [exact Hl|]. intros d Hd. rewrite Ht.
    assert (Hw : weekday_of (day_number y m L) = (weekday_of (day_number y m d) + (L - d)) mod 7).
    { rewrite <- weekday_add. f_equal. unfold day_number. lia. }
    pose proof (weekday_range (day_number y m d)). unfold day_number in *. clearbody L.
    set (a := weekday_of _) in *. set (b := weekday_of _) in Hw, H |- *. clearbody a b.
    Z.to_euclidean_division_equations; lia.
Qed.

Lemma nthWeekday_nth y m n wd week : 1 <= m <= 12 -> 0 <= wd <= 6 -> week <> WeekLast -> weekNumber week = Some n ->
  exists t, nthWeekdayOfMonth loc y m week wd = Some t
    /\ forall d, 1 <= d <= month_days y m ->
         local_day loc t = day_number y m d <-> wd = weekday_of (day_number y m d) /\ n = (d - 1) / 7 + 1.
Proof.
  intros Hm Hwd Hne Hn. unfold nthWeekdayOfMonth. rewrite bool_decide_eq_false_2 by done. rewrite Hn. cbn [mbind option_bind].
  assert (Hn4 : 1 <= n <= 4) by (revert Hn; unfold weekNumber; repeat case_match; intros [=]; lia).
  pose proof (month_days_range y m Hm) as Hr. pose proof (weekday_range (day_number y m 1)) as Hw1.
  set (f := 1 + (wd - weekday_of (day_number y m 1)) mod 7).
  assert (Hday : forall d, weekday_of (day_number y m d) = (weekday_of (day_number y m 1) + (d - 1)) mod 7).
  { intros d. rewrite <- weekday_add. f_equal. unfold day_number. lia. }
  assert (Hf : 1 <= f <= 7) by (pose proof (Z.mod_pos_bound (wd - weekday_of (day_number y m 1)) 7); lia).
  destruct (nthWeekdayLoop_spec loc Hloc y m n wd f 31 1 0) as (t & Hl & Ht); try done; try lia.
  - rewrite Hday. subst f. Z.to_euclidean_division_equations; lia.
  - symmetry. apply Z.div_small. lia.
  - exists t. split; [exact Hl|]. intros d Hd. rewrite Ht, Hday, <- nth_arith by (done || lia). fold f. unfold day_number. lia.
Qed.

Lemma weekday_matches `{Unicode} w D : let c := civil D in
  match parseWeekdayName (wWeekday w) with
  | None => false
  | Some wd =>
      match nthWeekdayOfMonth loc (Year c) (Month c) (Week w) wd with
      | None => false
      | Some occ =>
          let o := Date_of loc occ in
          (Year o =? Year c) && (Month o =? Month c) && (Day o =? Day c)
      end
  end = true
  <-> parseWeekdayName (wWeekday w) = Some (weekday_of D) /\ named_by_week w c.
Proof.
  cbn zeta. pose proof (civil_valid D) as [Hm Hd]. pose proof (day_number_civil D) as HD.
  destruct (parseWeekdayName (wWeekday w)) as [wd|] eqn:Ew; [|naive_solver].
  pose proof (parseWeekdayName_range _ _ Ew) as Hwd. unfold named_by_week.
  destruct (decide (Week w = WeekLast)) as [E|E].
  - rewrite E. destruct (nthWeekday_last (Year (civil D)) (Month (civil D)) wd Hm Hwd) as (t & -> & Ht).
    specialize (Ht _ Hd). rewrite HD in Ht. cbn zeta. unfold Date_of. rewrite same_date_spec, Ht. naive_solver.
  - destruct (weekNumber (Week w)) as [n|] eqn:En.
    + destruct (nthWeekday_nth (Year (civil D)) (Month (civil D)) n wd (Week w) Hm Hwd E En) as (t & -> & Ht).
      specialize (Ht _ Hd). rewrite HD in Ht. cbn zeta. unfold Date_of. rewrite same_date_spec, Ht. naive_solver.
    + unfold nthWeekdayOfMonth. rewrite bool_decide_eq_false_2, En by done. cbn. naive_solver.
Qed.
Lemma monthday_matches w D : let c := civil D in
  existsb (monthdayMatches (Day (Date_of loc (AddDays loc (time_Date loc (Year c) (Month c + 1) 1 0 0) (-1)))) (Day c)) (Monthdays w) = true
  <-> named_by_monthday w c.
Proof.
  cbn zeta. pose proof (civil_valid D) as [Hm Hd]. unfold Date_of.
  rewrite last_day, civil_last_day by done. cbn [Day]. rewrite existsb_exists. unfold named_by_monthday.
  split; intros (md & Hin & He); exists md; rewrite monthdayMatches_spec in * by lia; by rewrite list_elem_of_In in *.
Qed.

Lemma existsb_mem (x : string) l : existsb (fun d => bool_decide (d = x)) l = true <-> x ∈ l.
Proof.
  rewrite existsb_exists, list_elem_of_In. split; [by intros (d & Hd & ->%bool_decide_eq_true)|].
  intros Hx. exists x. split; [done|by apply bool_decide_eq_true].
Qed.
(** The switch on the recurrence, the conditions being [bx], [bm] and [bw]. *)
Lemma recurrence_cases (r by_ : string) (bx bm bw : bool) :
  (if bool_decide (r = RecurrenceDaily) then true
   else if bool_decide (r = RecurrenceWeekly) then bx
   else if bool_decide (r = RecurrenceMonthly) || bool_decide (r = RecurrenceYearly) then
     if bool_decide (by_ = MonthlyByDay) then bm else if bool_decide (by_ = MonthlyByWeekday) then bw else false
   else false) = true
  <-> r = RecurrenceDaily
      \/ (r = RecurrenceWeekly /\ bx = true)
      \/ ((r = RecurrenceMonthly \/ r = RecurrenceYearly)
          /\ ((by_ = MonthlyByDay /\ bm = true) \/ (by_ = MonthlyByWeekday /\ bw = true))).
Proof.
  assert (Hdist : RecurrenceDaily <> RecurrenceWeekly /\ RecurrenceDaily <> RecurrenceMonthly /\ RecurrenceDaily <> RecurrenceYearly
                  /\ RecurrenceWeekly <> RecurrenceMonthly /\ RecurrenceWeekly <> RecurrenceYearly /\ MonthlyByDay <> MonthlyByWeekday) by done.
  revert Hdist. generalize RecurrenceDaily RecurrenceWeekly RecurrenceMonthly RecurrenceYearly MonthlyByDay MonthlyByWeekday.
  intros r1 r2 r3 r4 m1 m2 Hdist. repeat case_bool_decide; cbn [orb]; destruct bw, bm, bx; intuition congruence.
Qed.

Lemma dateMatches_named `{Unicode} w day :
  dateMatchesWindow loc w day = true <-> names_day w (local_day loc day).
Proof.
  unfold dateMatchesWindow. pose proof (local_day_midnight loc Hloc day) as Hday. unfold midnight in Hday.
  cbv zeta. set (mid := time_Date _ _ _ _ 0 0) in *. clearbody mid. unfold Weekday.
  assert (Hc : Date_of loc mid = civil (local_day loc day)) by (unfold Date_of; by rewrite Hday).
  rewrite Hday, Hc. unfold names_day. cbv zeta. rewrite <- weekday_matches, <- monthday_matches. cbv zeta.
  rewrite <- monthAllowed_spec. destruct (monthAllowed _ _); cbn [negb]; [|split; [discriminate | intros [? _]; discriminate]].
  set (bw := match parseWeekdayName _ with Some _ => _ | None => _ end). set (bm := existsb (monthdayMatches _ _) _). clearbody bw bm.
  rewrite <- existsb_mem. set (bx := existsb _ (Days w)). clearbody bx.
  rewrite recurrence_cases. tauto.
Qed.
End named.

(** A window matches a day exactly when its fields name it: its months
    hold, and it is daily, or its weekday is listed, or its day of the month
    is, or it is the n-th or last such weekday of the month. *)
Theorem dateMatchesWindow_spec `{Unicode} (loc : Location) (Hloc : clock_exact loc) w day :
  dateMatchesWindow loc w day = true <-> names_day w (local_day loc day).
Proof. exact (dateMatches_named loc Hloc w day). Qed.
Example dateMatchesWindow_spec_witness :
  clock_exact UTC
  /\ (dateMatchesWindow (H := ascii_unicode) UTC example_window (time_Date UTC 2024 3 8 12 0) = true
      <-> names_day (H := ascii_unicode) example_window (local_day UTC (time_Date UTC 2024 3 8 12 0))).
Proof. split; [exact UTC_exact | apply (dateMatchesWindow_spec (H := ascii_unicode) UTC UTC_exact)]. Defined.

(** ** The instants a window holds *)

(** Minutes of the local clock since 0001-01-01. *)
Definition local_minute (loc : Location) (t : instant) : Z := local_secs loc t / 60.
(** The last minute of an opening that starts on day number 0. *)
Definition closing (s e : Z) : Z := if e <=? s then e + 1440 else e.

Lemma local_minute_day loc t : local_minute loc t = local_day loc t * 1440 + minutesOfDay loc t /\ 0 <= minutesOfDay loc t < 1440.
Proof.
  unfold local_minute, local_day, minutesOfDay, Hour, Minute, clock_secs. set (n := local_secs loc t). clearbody n.
  Z.to_euclidean_division_equations; lia.
Qed.
Lemma hhmmToMinutes_range s k : hhmmToMinutes s = Some k -> 0 <= k < 1440.
Proof.
  unfold hhmmToMinutes, parseHHMM. intros Hk. repeat (case_match; simplify_option_eq); bool_to_prop; try done.
  all: repeat match goal with Hx : _ || _ = false |- _ => apply orb_false_iff in Hx as [? ?] end; bool_to_prop; lia.
Qed.

Section holds.
Context `{Unicode} (loc : Location) (Hloc : clock_exact loc).

Lemma windowAllows_spec w t s e : hhmmToMinutes (Start w) = Some s -> hhmmToMinutes (End_ w) = Some e ->
  windowAllowsInstant loc w t = true
  <-> exists D, names_day w D /\ D * 1440 + s <= local_minute loc t <= D * 1440 + closing s e.
Proof.
  intros Hs He. unfold windowAllowsInstant. rewrite Hs, He. pose proof (local_day_midnight loc Hloc t) as Hmid. unfold midnight in Hmid.
  cbv zeta. set (mid := time_Date _ _ _ _ 0 0) in *. clearbody mid.
  pose proof (local_minute_day loc t) as [Hm Hr]. set (now := minutesOfDay loc t) in *. set (M := local_minute loc t) in *. clearbody now M.
  pose proof (hhmmToMinutes_range _ _ Hs). pose proof (hhmmToMinutes_range _ _ He).
  pose proof (dateMatches_named loc Hloc w mid) as Ha. pose proof (dateMatches_named loc Hloc w (AddDays loc mid (-1))) as Hb.
  rewrite local_day_AddDays, Hmid in Hb by done. rewrite Hmid in Ha. set (d := local_day loc t) in *. clearbody d.
  unfold closing, timeInWindowMinutes. destruct (e <=? s) eqn:Ec; bool_to_prop.
  - rewrite orb_true_iff, !andb_true_iff, Ha, Hb. split.
    + intros [[Hd Hn]|[Hd Hn]]; bool_to_prop; [exists d|exists (d + -1)]; (split; [done|lia]).
    + intros (D & Hd & Hlo & Hhi). assert (D = d \/ D = d + -1) as [->| ->] by lia; [left|right]; (split; [done|]); first [apply Z.geb_le | apply Z.leb_le]; lia.
  - rewrite !andb_true_iff, Ha. split.
    + intros [Hd [Hlo Hhi]]. bool_to_prop. exists d. split; [done|lia].
    + intros (D & Hd & Hlo & Hhi). assert (D = d) as -> by lia. split; [done|]. split; [apply Z.geb_le|apply Z.leb_le]; lia.
Qed.
End holds.

(** ** Locations with a fixed offset *)

Definition fixed_offset (loc : Location) (off : Z) : Prop := forall u, zOffset (lookup_zone loc u) = off.
Lemma fixed_exact loc off : fixed_offset loc off -> clock_exact loc.
Proof. intros Hf u. unfold zone_offset. rewrite !Hf. destruct (off =? 0) eqn:E; bool_to_prop; [done|]. by destruct (_ || _). Qed.

Section fixed.
Context (loc : Location) (off : Z) (Hf : fixed_offset loc off).

Lemma local_secs_mono t t' : t <= t' -> local_secs loc t <= local_secs loc t'.
Proof. intros Ht. unfold local_secs, unix. rewrite !Hf. pose proof (Z.div_le_mono t t' second). unfold second in *. lia. Qed.
Lemma local_day_mono t t' : t <= t' -> local_day loc t <= local_day loc t'.
Proof. intros Ht. unfold local_day. apply Z.div_le_mono; [lia|]. by apply local_secs_mono. Qed.
Lemma local_minute_mono t t' : t <= t' -> local_minute loc t <= local_minute loc t'.
Proof. intros Ht. unfold local_minute. apply Z.div_le_mono; [lia|]. by apply local_secs_mono. Qed.

(** The instant at which the local clock has shown [k] minutes since 0001. *)
Definition at_minute (k : Z) : instant := (k * 60 - epoch_day * 86400 - off) * second.
Lemma at_minute_le k t : at_minute k <= t <-> k <= local_minute loc t.
Proof.
  unfold at_minute, local_minute, local_secs, unix. rewrite Hf. set (z := k * 60 - epoch_day * 86400 - off).
  assert (Hz : z * second <= t <-> z <= t / second).
  { unfold second. clearbody z. pose proof (Z.div_mod t 1000000000). pose proof (Z.mod_pos_bound t 1000000000). lia. }
  rewrite Hz. subst z. set (u := t / second). set (ed := epoch_day * 86400). clearbody u ed.
  split; intros; Z.to_euclidean_division_equations; lia.
Qed.
Lemma local_minute_at k : local_minute loc (at_minute k) = k.
Proof.
  unfold local_minute, local_secs, at_minute, unix. rewrite Hf, Z.div_mul by (unfold second; lia).
  replace (epoch_day * 86400 + (k * 60 - epoch_day * 86400 - off) + off) with (k * 60) by lia. by apply Z.div_mul.
Qed.
Lemma time_Date_at y m d h mi : 1 <= m <= 12 -> time_Date loc y m d h mi = at_minute (day_number y m d * 1440 + (h * 60 + mi)).
Proof.
  intros Hm. unfold time_Date, DateClock, at_minute. replace ((m - 1) / 12) with 0 by (rewrite Z.div_small; lia).
  replace ((m - 1) mod 12 + 1) with m by (rewrite Z.mod_small; lia).
  assert (Hz : forall u, zone_offset loc u = off).
  { intros u. unfold zone_offset. rewrite !Hf. destruct (off =? 0) eqn:E; bool_to_prop; [done|]. by destruct (_ || _). }
  rewrite Hz. replace (y + 0) with y by lia. set (n := day_number _ _ _). clearbody n. unfold second. lia.
Qed.
End fixed.

(** ** The next opening *)

(** [best] is the least element of [P], if there is one. *)
Definition is_least (P : instant -> Prop) (best : option instant) : Prop :=
  match best with
  | Some b => P b /\ forall x, P x -> b <= x
  | None => forall x, ~ P x
  end.
Lemma is_least_ext P Q best : (forall x, P x <-> Q x) -> is_least P best -> is_least Q best.
Proof. intros He. destruct best; cbn; [|naive_solver]. intros [Hp Hm]. split; [by apply He|]. intros x Hx. by apply Hm, He. Qed.

Section next.
Context `{Unicode} (loc : Location) (now : instant).

Definition opens_on (ws : list Window) (day : instant) (x : instant) : Prop :=
  exists w, w ∈ ws /\ windowOpenOnDay loc w day = Some x /\ now <= x.

Lemma considerWindow_least P day best w : is_least P best ->
  is_least (fun x => P x \/ opens_on [w] day x) (considerWindow loc now day best w).
Proof.
  unfold considerWindow, opens_on. intros Hb.
  assert (Hone : forall x, (exists w', w' ∈ [w] /\ windowOpenOnDay loc w' day = Some x /\ now <= x) <-> windowOpenOnDay loc w day = Some x /\ now <= x).
  { intros x. split; [intros (w' & ->%list_elem_of_singleton & ?)|exists w; rewrite list_elem_of_singleton]; done. }
  destruct (windowOpenOnDay loc w day) as [o|] eqn:Eo.
  - destruct (o <? now) eqn:El; bool_to_prop.
    + revert Hb. apply is_least_ext. intros x. rewrite Hone. split; [by left|intros [?|[[= ->] ?]]; [done|lia]].
    + destruct best as [b|]; cbn in *.
      * destruct Hb as [Hp Hm]. destruct (o <? b) eqn:Eb; bool_to_prop; cbn; split.
        -- right. by rewrite Hone.
        -- intros x. rewrite Hone. intros [Hx|[[= ->] _]]; [specialize (Hm x Hx)|]; lia.
        -- by left.
        -- intros x. rewrite Hone. intros [Hx|[[= ->] _]]; [by apply Hm|lia].
      * split; [right; by rewrite Hone|]. intros x. rewrite Hone. intros [Hx|[[= ->] _]]; [by destruct (Hb x)|lia].
  - revert Hb. apply is_least_ext. intros x. rewrite Hone. naive_solver.
Qed.

Lemma opens_on_cons w ws day x : opens_on (w :: ws) day x <-> opens_on [w] day x \/ opens_on ws day x.
Proof.
  unfold opens_on. split.
  - intros (w' & [->|Hw]%elem_of_cons & Ho); [left; exists w; split; [left|done]|right; by exists w'].
  - intros [(w' & ->%list_elem_of_singleton & Ho)|(w' & Hw & Ho)]; [exists w; split; [left|done]|exists w'; split; [by right|done]].
Qed.
Lemma considerWindows_least ws P day : forall best, is_least P best ->
  is_least (fun x => P x \/ opens_on ws day x) (foldl (considerWindow loc now day) best ws).
Proof.
  revert P. induction ws as [|w ws IH]; intros P best Hb; cbn [foldl].
  - revert Hb. apply is_least_ext. intros x. split; [by left|]. by intros [?|(w & []%elem_of_nil & _)].
  - eapply is_least_ext, IH, considerWindow_least, Hb. intros x. rewrite (opens_on_cons w ws). tauto.
Qed.
Lemma considerDays_least ws day0 is_ P : forall best, is_least P best ->
  is_least (fun x => P x \/ exists i, i ∈ is_ /\ opens_on ws (AddDays loc day0 (Z.of_nat i)) x)
    (foldl (considerDay loc ws now day0) best is_).
Proof.
  revert P. induction is_ as [|i is_ IH]; intros P best Hb; cbn [foldl].
  - revert Hb. apply is_least_ext. intros x. split; [by left|]. by intros [?|(i & []%elem_of_nil & _)].
  - eapply is_least_ext, IH, considerWindows_least, Hb. intros x. split.
    + intros [[?|?]|(j & Hj & ?)]; [by left|right; exists i; split; [left|done]|right; exists j; split; [by right|done]].
    + intros [?|(j & [->|Hj]%elem_of_cons & ?)]; [by left; left|by left; right|right; by exists j].
Qed.
End next.

Section opening.
Context `{Unicode} (loc : Location) (off : Z) (Hf : fixed_offset loc off).

Lemma windowOpenOnDay_spec w day x :
  windowOpenOnDay loc w day = Some x
  <-> names_day w (local_day loc day) /\ exists s, hhmmToMinutes (Start w) = Some s /\ x = at_minute off (local_day loc day * 1440 + s).
Proof.
  pose proof (fixed_exact loc off Hf) as Hloc. pose proof (dateMatches_named loc Hloc w day) as Hd.
  unfold windowOpenOnDay. destruct (dateMatchesWindow loc w day); cbn [negb].
  2: { split; [done|]. intros [Hn _]. by apply Hd in Hn. }
  unfold hhmmToMinutes. destruct (parseHHMM (Start w)) as [[h m]|]; cbn [mbind option_bind]; [|naive_solver].
  pose proof (civil_valid (local_day loc day)) as [Hm _]. pose proof (day_number_civil (local_day loc day)) as HD.
  unfold Date_of. cbv zeta. rewrite (time_Date_at loc off Hf) by done. rewrite HD. split.
  - intros [= <-]. split; [by apply Hd|]. by eexists.
  - intros [_ (s & [= <-] & ->)]. done.
Qed.

(** A window holds the instants from one of its openings to the minute of its
    end. *)
Definition openings (w : Window) (D : Z) (x : instant) : Prop :=
  names_day w D /\ exists s, hhmmToMinutes (Start w) = Some s /\ x = at_minute off (D * 1440 + s).

Lemma opening_held w D x : openings w D x -> is_Some (hhmmToMinutes (End_ w)) ->
  windowAllowsInstant loc w x = true /\ local_day loc x = D.
Proof.
  intros (Hn & s & Hs & ->) [e He]. pose proof (local_minute_at loc off Hf (D * 1440 + s)) as Hm.
  pose proof (hhmmToMinutes_range _ _ Hs). pose proof (hhmmToMinutes_range _ _ He). split.
  - apply (windowAllows_spec loc (fixed_exact loc off Hf) w _ s e Hs He). exists D. split; [done|].
    rewrite Hm. unfold closing. destruct (e <=? s) eqn:E; bool_to_prop; lia.
  - pose proof (local_minute_day loc (at_minute off (D * 1440 + s))). lia.
Qed.
Lemma held_opening w t : windowAllowsInstant loc w t = true ->
  exists D x, openings w D x /\ x <= t /\ forall t', x <= t' <= t -> windowAllowsInstant loc w t' = true.
Proof.
  intros Ha. pose proof Ha as Ha'. unfold windowAllowsInstant in Ha'.
  destruct (hhmmToMinutes (Start w)) as [s|] eqn:Hs; [|done]. destruct (hhmmToMinutes (End_ w)) as [e|] eqn:He; [|done].
  clear Ha'. pose proof (windowAllows_spec loc (fixed_exact loc off Hf) w) as Hspec.
  rewrite (Hspec _ _ _ Hs He) in Ha. destruct Ha as (D & Hn & Hlo & Hhi).
  exists D, (at_minute off (D * 1440 + s)). split; [split; [done|by exists s]|]. rewrite (at_minute_le loc off Hf). split; [done|].
  intros t' [Hl Ht]. apply (Hspec _ _ _ Hs He). exists D. split; [done|].
  rewrite (at_minute_le loc off Hf) in Hl. pose proof (local_minute_mono loc off Hf _ _ Ht). lia.
Qed.
End opening.

Section schedules.
Context `{Unicode} (LoadLocation : string -> option Location).

Definition timed (sched : Schedule) : Prop :=
  forall w, w ∈ Windows sched -> is_Some (hhmmToMinutes (Start w)) /\ is_Some (hhmmToMinutes (End_ w)).

Lemma Allows_spec sched loc t : Windows sched <> [] -> LoadLocation (TrimSpace (Timezone sched)) = Some loc ->
  exists b, Allows LoadLocation sched t = Some b /\ (b = true <-> exists w, w ∈ Windows sched /\ windowAllowsInstant loc w t = true).
Proof.
  intros Hne Hl. unfold Allows. rewrite Hl. destruct (Windows sched) as [|w0 ws]; [done|]. cbn [length Nat.eqb mbind option_bind].
  eexists. split; [done|]. rewrite existsb_exists. split; intros (w & Hw & Ha); exists w; by rewrite list_elem_of_In in *.
Qed.

(** From a closed instant, an instant that is open within the scan comes after
    an opening that the scan considers. *)
Lemma open_scanned sched now loc off day0 t :
  Windows sched <> [] -> LoadLocation (TrimSpace (Timezone sched)) = Some loc -> fixed_offset loc off -> timed sched ->
  Allows LoadLocation sched now = Some false -> local_day loc day0 = local_day loc now ->
  now <= t -> local_day loc t <= local_day loc now + scanDays -> Allows LoadLocation sched t <> Some false ->
  exists x, x <= t /\ exists i, i ∈ seq 0 (S (Z.to_nat scanDays)) /\ opens_on loc now (Windows sched) (AddDays loc day0 (Z.of_nat i)) x.
Proof.
  intros Hne Hl Hf Htimed Hclosed Hmid Hnt Hday Ht. pose proof (fixed_exact loc off Hf) as Hloc.
  destruct (Allows_spec sched loc now Hne Hl) as (b0 & Hb0 & Hs0). rewrite Hb0 in Hclosed. injection Hclosed as ->.
  destruct (Allows_spec sched loc t Hne Hl) as (b & Hb & Hs). rewrite Hb in Ht. destruct b; [|done].
  destruct (proj1 Hs eq_refl) as (w & Hw & Ha). destruct (held_opening loc off Hf w t Ha) as (D & x & Ho & Hx & Hheld).
  exists x. split; [done|]. destruct (Z.le_gt_cases now x) as [Hnx|Hxn].
  - destruct (opening_held loc off Hf w D x Ho) as [_ HD]; [by apply Htimed|].
    pose proof (local_day_mono loc off Hf _ _ Hnx). pose proof (local_day_mono loc off Hf _ _ Hx).
    exists (Z.to_nat (D - local_day loc now)). split; [apply elem_of_seq; unfold scanDays in *; lia|].
    exists w. split; [done|]. split; [|done]. apply (windowOpenOnDay_spec loc off Hf).
    rewrite local_day_AddDays, Hmid by done. replace (local_day loc now + _) with D by lia. exact Ho.
  - exfalso. assert (false = true) by (apply Hs0; exists w; split; [done|apply Hheld; lia]). done.
Qed.

(** C30: From a closed instant, [NextWindowStart] gives the first instant that
    is open: every instant before it is closed. It gives none only when a
    window is open now or nothing opens on the days scanned. Stated for
    locations with a fixed offset. *)
Theorem NextWindowStart_first sched now loc off :
  Windows sched <> [] -> LoadLocation (TrimSpace (Timezone sched)) = Some loc -> fixed_offset loc off -> timed sched ->
  match NextWindowStart LoadLocation sched now with
  | None => False
  | Some (Some b) =>
      now <= b /\ Allows LoadLocation sched b = Some true
      /\ forall t, now <= t < b -> Allows LoadLocation sched t = Some false
  | Some None =>
      Allows LoadLocation sched now = Some true
      \/ forall t, now <= t -> local_day loc t <= local_day loc now + scanDays -> Allows LoadLocation sched t = Some false
  end.
Proof.
  intros Hne Hl Hf Htimed. pose proof (fixed_exact loc off Hf) as Hloc. unfold NextWindowStart.
  destruct (length (Windows sched) =? 0)%nat eqn:E0; [by destruct (Windows sched)|].
  destruct (Allows_spec sched loc now Hne Hl) as (b0 & Hb0 & Hs0). rewrite Hb0. cbn [mbind option_bind].
  destruct b0; [by left|]. rewrite Hl. cbn [mbind option_bind]. cbv zeta.
  pose proof (local_day_midnight loc Hloc now) as Hmid. unfold midnight in Hmid. set (day0 := time_Date _ _ _ _ 0 0) in *. clearbody day0.
  pose proof (considerDays_least loc now (Windows sched) day0 (seq 0 (S (Z.to_nat scanDays))) (fun _ => False) None) as Hleast.
  specialize (Hleast (fun x Hx => Hx)). set (best := foldl _ None _) in *. clearbody best.
  pose proof (fun t => open_scanned sched now loc off day0 t Hne Hl Hf Htimed Hb0 Hmid) as Hopen.
  destruct best as [b|]; unfold is_least in Hleast.
  - destruct Hleast as [[[]|(i & Hi & w & Hw & Ho & Hnb)] Hmin]. apply elem_of_seq in Hi.
    apply (windowOpenOnDay_spec loc off Hf) in Ho. rewrite local_day_AddDays, Hmid in Ho by done.
    destruct (opening_held loc off Hf w _ b Ho) as [Ha HD]; [by apply Htimed|]. split; [done|]. split.
    + destruct (Allows_spec sched loc b Hne Hl) as (c & -> & Hc). f_equal. apply Hc. by exists w.
    + intros t [Hnt Htb]. destruct (decide (Allows LoadLocation sched t = Some false)) as [?|Hc]; [done|exfalso].
      pose proof (local_day_mono loc off Hf t b) as Hmono. destruct (Hopen t Hnt) as (x & Hx & Hex); [unfold scanDays in *; lia|done|].
      specialize (Hmin x (or_intror Hex)). lia.
  - right. intros t Hnt Hday. destruct (decide (Allows LoadLocation sched t = Some false)) as [?|Hc]; [done|exfalso].
    destruct (Hopen t Hnt Hday Hc) as (x & _ & Hex). by apply (Hleast x); right.
Qed.
End schedules.

(** ** Once per opening *)

Section once.
Context `{Unicode} (LoadLocation : string -> option Location) (sched : Schedule) (loc : Location).
Context (Hl : LoadLocation (TrimSpace (Timezone sched)) = Some loc).

Lemma Allows_total t : exists b, Allows LoadLocation sched t = Some b.
Proof. unfold Allows. rewrite Hl. destruct (_ =? 0)%nat; cbn; eauto. Qed.

(** The walk finds the first closed minute, within the given steps. *)
Lemma openLoop_spec fuel : forall t to, exists b, openLoop LoadLocation fuel sched t to = Some b
  /\ (b = false <-> exists k, 0 <= k <= Z.of_nat fuel /\ t + k * minute <= to /\ Allows LoadLocation sched (t + k * minute) = Some false).
Proof.
  assert (Hmin : 0 < minute) by done.
  assert (Hlate : forall t to P, t > to -> true = false <-> exists k : Z, 0 <= k <= P /\ t + k * minute <= to /\ Allows LoadLocation sched (t + k * minute) = Some false).
  { intros t to P Ht. split; [done|]. intros (k & Hk & Hle & _). assert (0 <= k * minute) by (apply Z.mul_nonneg_nonneg; lia). lia. }
  induction fuel as [|fuel IH]; intros t to; cbn [openLoop]; destruct (t >? to) eqn:Et; bool_to_prop;
    try (exists true; split; [done|]; apply Hlate; lia);
    destruct (Allows_total t) as [b Hb]; rewrite Hb; cbn [mbind option_bind]; destruct b; cbn [negb].
  - exists true. split; [done|]. split; [done|]. intros (k & Hk & _ & Hc). replace (t + k * minute) with t in Hc by lia. congruence.
  - exists false. split; [done|]. split; [|done]. intros _. exists 0. rewrite Z.mul_0_l, Z.add_0_r. repeat split; (done || lia).
  - destruct (IH (t + minute) to) as (c & -> & Hc). exists c. split; [done|]. rewrite Hc. split; intros (k & Hk & Hle & Ha).
    + exists (k + 1). replace (t + (k + 1) * minute) with (t + minute + k * minute) by lia. split; [lia|done].
    + destruct (decide (k = 0)) as [->|Hk0]; [rewrite Z.mul_0_l, Z.add_0_r in Ha; congruence|].
      exists (k - 1). replace (t + minute + (k - 1) * minute) with (t + k * minute) by lia. split; [lia|done].
  - exists false. split; [done|]. split; [|done]. intros _. exists 0. rewrite Z.mul_0_l, Z.add_0_r. repeat split; (done || lia).
Qed.

(** A minute at most [maxSteps] after the last firing at which no window is
    open. *)
Definition closed_since (lastFire now : instant) : Prop :=
  exists k, 0 <= k <= Z.of_nat maxSteps
    /\ lastFire - lastFire mod minute + k * minute <= now
    /\ Allows LoadLocation sched (lastFire - lastFire mod minute + k * minute) = Some false.

Lemma DueOncePerOpening_cases now lastFire :
  exists b, DueOncePerOpening LoadLocation sched now lastFire = Some b
    /\ (b = true <-> Allows LoadLocation sched now = Some true
                     /\ (lastFire = zero_time \/ now < lastFire \/ closed_since lastFire now)).
Proof.
  unfold DueOncePerOpening. destruct (Allows_total now) as [b Hb]. rewrite Hb. cbn [mbind option_bind].
  destruct b; cbn [negb]; [|exists false; split; [done|]; split; [done|by intros [? _]]].
  unfold IsZero. destruct (lastFire =? zero_time) eqn:Ez; bool_to_prop; [exists true; split; [done|]; split; [by split; [|left]|done]|].
  unfold continuousOpen. destruct (now <? lastFire) eqn:El; bool_to_prop; cbn [mbind option_bind negb].
  - exists true. split; [done|]. split; [|done]. intros _. split; [done|by right; left].
  - destruct (openLoop_spec maxSteps (lastFire - lastFire mod minute) now) as (c & -> & Hc). cbn [mbind option_bind].
    exists (negb c). split; [done|]. rewrite negb_true_iff, Hc. unfold closed_since. split; [intros ?; split; [done|by right; right]|].
    intros [_ [?|[?|?]]]; [done|lia|done].
Qed.
End once.

(** A once-per-window action is due exactly when a window is open and it
    has not fired before, or the clock went back, or some minute within
    [maxSteps] of the last firing is closed: while one opening lasts, it fires
    once. *)
Theorem DueOncePerOpening_spec `{Unicode} LoadLocation sched loc now lastFire
    (Hl : LoadLocation (TrimSpace (Timezone sched)) = Some loc) :
  exists b, DueOncePerOpening LoadLocation sched now lastFire = Some b
    /\ (b = true <-> Allows LoadLocation sched now = Some true
                     /\ (lastFire = zero_time \/ now < lastFire \/ closed_since LoadLocation sched lastFire now)).
Proof. exact (DueOncePerOpening_cases LoadLocation sched loc Hl now lastFire). Qed.

(** Open all of January. *)
Definition january : Schedule :=
  mkSchedule "UTC" [mkWindow RecurrenceDaily [] "" "" "" [] [1] "00:00" "23:59"].
Lemma january_days k : 0 <= k <= 11520 -> 738885 <= local_day UTC (time_Date UTC 2024 1 1 0 0 + k * minute) <= 738893.
Proof.
  intros Hk. change (time_Date UTC 2024 1 1 0 0) with (1704067200 * second).
  unfold local_day, local_secs, UTC, unix, minute, epoch_day. cbn [lookup_zone zOffset].
  replace (1704067200 * second + k * (60 * second)) with ((1704067200 + k * 60) * second) by lia.
  rewrite Z.div_mul by (unfold second; lia). Z.to_euclidean_division_equations; lia.
Qed.
Lemma january_open t : 738885 <= local_day UTC t <= 738893 -> Allows (H := ascii_unicode) (fun _ => Some UTC) january t = Some true.
Proof.
  intros Ht. unfold Allows. cbn [january Windows length Nat.eqb mbind option_bind existsb]. f_equal.
  set (w := mkWindow _ _ _ _ _ _ _ _ _).
  assert (Hs : hhmmToMinutes (Start w) = Some 0) by (vm_compute; reflexivity).
  assert (He : hhmmToMinutes (End_ w) = Some 1439) by (vm_compute; reflexivity).
  rewrite (proj2 (windowAllows_spec (H := ascii_unicode) UTC UTC_exact w t _ _ Hs He)); [done|].
  exists (local_day UTC t). split.
  - unfold names_day. cbv zeta. split; [right|by left]. subst w. cbn [Months]. assert (Hd : local_day UTC t = day_number 2024 1 (local_day UTC t - 738884)) by
      (unfold day_number; change (days_before_year 2024) with 738885; change (days_before_month 2024 1) with 0; lia).
    rewrite Hd, civil_of_date by (change (month_days 2024 1) with 31; lia). by apply list_elem_of_singleton.
  - pose proof (local_minute_day UTC t). unfold closing. cbn. lia.
Qed.
(** A gap that starts more than eight days after the firing is not seen: an
    action of January's window that fired on New Year is never due again. *)
Theorem DueOncePerOpening_misses_long :
  let lastFire := time_Date UTC 2024 1 1 0 0 in
  let gap := time_Date UTC 2024 2 1 0 0 in
  let now := time_Date UTC 2025 1 1 0 0 in
  Allows (H := ascii_unicode) (fun _ => Some UTC) january gap = Some false
  /\ lastFire < gap < now
  /\ Allows (H := ascii_unicode) (fun _ => Some UTC) january now = Some true
  /\ DueOncePerOpening (H := ascii_unicode) (fun _ => Some UTC) january now lastFire = Some false.
Proof.
  cbv zeta. split; [vm_compute; reflexivity|]. split; [vm_compute; split; reflexivity|]. split; [vm_compute; reflexivity|].
  destruct (DueOncePerOpening_cases (H := ascii_unicode) (fun _ => Some UTC) january UTC eq_refl (time_Date UTC 2025 1 1 0 0) (time_Date UTC 2024 1 1 0 0))
    as (b & -> & Hb). f_equal. destruct b; [|done]. destruct (proj1 Hb eq_refl) as [_ [?|[?|(k & Hk & _ & Hc)]]]; [done|done|exfalso].
  assert (Ho : Allows (H := ascii_unicode) (fun _ => Some UTC) january (time_Date UTC 2024 1 1 0 0 + k * minute) = Some true); [|rewrite Z.sub_0_r in Hc; congruence].
  apply january_open. apply january_days. unfold maxSteps in Hk. lia.
Qed.

Example NextWindowStart_first_witness : let sched := mkSchedule "UTC" [example_window] in let now := time_Date UTC 2024 3 9 2 1 in
  match NextWindowStart (H := ascii_unicode) (fun _ => Some UTC) sched now with
  | None => False
  | Some (Some b) =>
      now <= b /\ Allows (H := ascii_unicode) (fun _ => Some UTC) sched b = Some true
      /\ forall t, now <= t < b -> Allows (H := ascii_unicode) (fun _ => Some UTC) sched t = Some false
  | Some None =>
      Allows (H := ascii_unicode) (fun _ => Some UTC) sched now = Some true
      \/ forall t, now <= t -> local_day UTC t <= local_day UTC now + scanDays -> Allows (H := ascii_unicode) (fun _ => Some UTC) sched t = Some false
  end.
Proof.
  cbv zeta. apply (NextWindowStart_first (H := ascii_unicode) (fun _ => Some UTC) _ _ UTC 0); [done|done|done|].
  intros w ->%list_elem_of_singleton. split; vm_compute; eexists; reflexivity.
Defined.
Example DueOncePerOpening_spec_witness :
  let sched := mkSchedule "UTC" [example_window] in
  exists b, DueOncePerOpening (H := ascii_unicode) (fun _ => Some UTC) sched (time_Date UTC 2024 3 9 1 0) (time_Date UTC 2024 3 8 23 0) = Some b
    /\ (b = true <-> Allows (H := ascii_unicode) (fun _ => Some UTC) sched (time_Date UTC 2024 3 9 1 0) = Some true
                     /\ (time_Date UTC 2024 3 8 23 0 = zero_time \/ time_Date UTC 2024 3 9 1 0 < time_Date UTC 2024 3 8 23 0
                         \/ closed_since (H := ascii_unicode) (fun _ => Some UTC) sched (time_Date UTC 2024 3 8 23 0) (time_Date UTC 2024 3 9 1 0))).
Proof. cbv zeta. apply (DueOncePerOpening_spec (H := ascii_unicode) (fun _ => Some UTC) _ UTC). reflexivity. Defined.

(** ** What normalisation accepts *)

Section normal.
Context `{Unicode} (LoadLocation : string -> option Location).

Record window_wf (w : Window) : Prop := {
  wf_recurrence : Recurrence w ∈ [RecurrenceDaily; RecurrenceWeekly; RecurrenceMonthly; RecurrenceYearly];
  wf_times : is_Some (hhmmToMinutes (Start w)) /\ is_Some (hhmmToMinutes (End_ w));
  wf_days : NoDup (Days w) /\ forall d, d ∈ Days w -> is_Some (parseWeekdayName d);
  wf_months : NoDup (Months w) /\ forall m, m ∈ Months w -> 1 <= m <= 12;
  wf_weekly : Recurrence w = RecurrenceWeekly -> Days w <> [];
  wf_monthly : Recurrence w = RecurrenceMonthly \/ Recurrence w = RecurrenceYearly ->
    (MonthlyBy w = MonthlyByDay /\ Monthdays w <> [] /\ forall md, md ∈ Monthdays w -> mdLast md = true \/ 1 <= mdDay md <= 31)
    \/ (MonthlyBy w = MonthlyByWeekday /\ Week w ∈ [WeekFirst; WeekSecond; WeekThird; WeekFourth; WeekLast]
        /\ is_Some (parseWeekdayName (wWeekday w)));
  wf_yearly : Recurrence w = RecurrenceYearly -> Months w <> [];
}.

Lemma normalizeDays_ok days : forall seen out, normalizeDays seen days = Ok out ->
  NoDup out /\ (forall d, d ∈ out -> d ∉ seen /\ is_Some (parseWeekdayName d)).
Proof.
  induction days as [|d days IH]; intros seen out; cbn [normalizeDays].
  - intros [= <-]. split; [constructor|]. by intros d []%elem_of_nil.
  - repeat case_bool_decide; cbn [negb]; try discriminate; try apply IH.
    intros (rest & Hr & [= <-])%rbind_ok. destruct (IH _ _ Hr) as [Hnd Hin]. split.
    + constructor; [|done]. intros Hd. destruct (Hin _ Hd) as [Hs _]. apply Hs. by apply elem_of_union_l, elem_of_singleton.
    + intros d' [->|Hd]%elem_of_cons; [done|]. destruct (Hin _ Hd) as [Hs ?]. split; [|done].
      intros Hx. by apply Hs, elem_of_union_r.
Qed.
Lemma normalizeMonths_ok months : forall seen out, normalizeMonths seen months = Ok out ->
  NoDup out /\ (forall m, m ∈ out -> m ∉ seen /\ 1 <= m <= 12).
Proof.
  induction months as [|m months IH]; intros seen out; cbn [normalizeMonths].
  - intros [= <-]. split; [constructor|]. by intros m []%elem_of_nil.
  - destruct (_ || _) eqn:E; [discriminate|]. apply orb_false_iff in E as [??]. bool_to_prop.
    case_bool_decide; [apply IH|]. intros (rest & Hr & [= <-])%rbind_ok. destruct (IH _ _ Hr) as [Hnd Hin]. split.
    + constructor; [|done]. intros Hd. destruct (Hin _ Hd) as [Hs _]. apply Hs. by apply elem_of_union_l, elem_of_singleton.
    + intros d' [->|Hd]%elem_of_cons; [split; [done|lia]|]. destruct (Hin _ Hd) as [Hs ?]. split; [|done].
      intros Hx. by apply Hs, elem_of_union_r.
Qed.

Lemma monthdays_ok l : forallb monthdayOk l = true -> forall md, md ∈ l -> mdLast md = true \/ 1 <= mdDay md <= 31.
Proof.
  rewrite forallb_forall. intros Hl md Hin%list_elem_of_In. specialize (Hl md Hin). unfold monthdayOk in Hl.
  destruct (mdLast md); [by left|right]. cbn in Hl. apply negb_true_iff, orb_false_iff in Hl as [??]. bool_to_prop. lia.
Qed.
Lemma nonempty_length {A} (l : list A) : (length l =? 0)%nat = false -> l <> [].
Proof. by destruct l. Qed.

(** The recurrence switch lets a window pass only with what it needs. *)
Lemma checkRecurrence_ok w : checkRecurrence w = Ok tt ->
  (Recurrence w = RecurrenceWeekly -> Days w <> [])
  /\ (Recurrence w = RecurrenceMonthly \/ Recurrence w = RecurrenceYearly ->
      (MonthlyBy w = MonthlyByDay /\ Monthdays w <> [] /\ forall md, md ∈ Monthdays w -> mdLast md = true \/ 1 <= mdDay md <= 31)
      \/ (MonthlyBy w = MonthlyByWeekday /\ Week w ∈ [WeekFirst; WeekSecond; WeekThird; WeekFourth; WeekLast]
          /\ is_Some (parseWeekdayName (wWeekday w))))
  /\ (Recurrence w = RecurrenceYearly -> Months w <> []).
Proof.
  unfold checkRecurrence. destruct (decide (Recurrence w = RecurrenceDaily)) as [E|E].
  { intros _. rewrite E. split; [done|]. split; [by intros [?|?]|done]. }
  rewrite bool_decide_eq_false_2 by done. destruct (decide (Recurrence w = RecurrenceWeekly)) as [E1|E1].
  { rewrite bool_decide_eq_true_2 by done. destruct (length (Days w) =? 0)%nat eqn:El; [done|]. intros _. rewrite E1.
    split; [intros _; by apply nonempty_length|]. split; [by intros [?|?]|done]. }
  rewrite bool_decide_eq_false_2 by done. destruct (bool_decide (MonthlyBy w = "")); [done|].
  intros ([] & Hby & Hyear)%rbind_ok. split; [done|]. split.
  - intros _. destruct (decide (MonthlyBy w = MonthlyByDay)) as [Ed|Ed].
    + left. rewrite bool_decide_eq_true_2 in Hby by done. destruct (length (Monthdays w) =? 0)%nat eqn:El; [done|].
      split; [done|]. split; [by apply nonempty_length|]. apply monthdays_ok. by destruct (forallb _ _).
    + right. rewrite bool_decide_eq_false_2 in Hby by done.
      destruct (bool_decide (MonthlyBy w = MonthlyByWeekday)) eqn:Hw; [apply bool_decide_eq_true in Hw|done].
      destruct (bool_decide (Week w ∈ _)) eqn:Hk; [apply bool_decide_eq_true in Hk|done].
      destruct (bool_decide (is_Some _)) eqn:Hd; [apply bool_decide_eq_true in Hd; done|done].
  - intros Ey. rewrite bool_decide_eq_true_2 in Hyear by done. apply nonempty_length. by destruct (length (Months w) =? 0)%nat.
Qed.

Lemma NormalizeWindow_wf w w' : NormalizeWindow w = Ok w' -> window_wf w'.
Proof.
  unfold NormalizeWindow. set (r := if bool_decide (_ = "") then _ else _). clearbody r.
  case_bool_decide as Hr; [|by intros]. cbn [negb]. case_bool_decide as Hs; [|by intros]. cbn [negb]. case_bool_decide as He; [|by intros]. cbn [negb].
  intros (days & Hdays & (months & Hmonths & ([] & Hc & [= <-])%rbind_ok)%rbind_ok)%rbind_ok.
  apply normalizeDays_ok in Hdays as [Hnd Hd]. apply normalizeMonths_ok in Hmonths as [Hnm Hm]. apply checkRecurrence_ok in Hc as (?&?&?).
  constructor; [exact Hr|exact (conj Hs He)| | |assumption|assumption|assumption].
  - split; [exact Hnd|]. intros d Hin. apply (Hd d Hin).
  - split; [exact Hnm|]. intros m Hin. apply (Hm m Hin).
Qed.

Lemma normalizeWindows_ok ws : forall i out, normalizeWindows i ws = Ok out ->
  length out = length ws /\ forall w, w ∈ out -> window_wf w.
Proof.
  induction ws as [|w ws IH]; intros i out; cbn [normalizeWindows].
  - intros [= <-]. split; [done|]. by intros w []%elem_of_nil.
  - destruct (NormalizeWindow w) as [w'|e] eqn:Ew; [|done]. intros (rest & Hr & [= <-])%rbind_ok.
    destruct (IH _ _ Hr) as [Hlen Hin]. split; [cbn; lia|]. intros v [->|Hv]%elem_of_cons; [by eapply NormalizeWindow_wf|by apply Hin].
Qed.

(** An accepted schedule has a trimmed time zone that loads, at least one
    window, times that parse, no repeated or unknown day or month, and what
    each recurrence requires. *)
Theorem Normalize_accepts sched sched' : Normalize LoadLocation sched = Ok sched' ->
  Timezone sched' = TrimSpace (Timezone sched) /\ Timezone sched' <> "" /\ is_Some (LoadLocation (Timezone sched'))
  /\ Windows sched' <> [] /\ length (Windows sched') = length (Windows sched)
  /\ timed sched' /\ forall w, w ∈ Windows sched' -> window_wf w.
Proof.
  unfold Normalize. case_bool_decide as Htz; [done|]. case_bool_decide as Hl; [cbn [negb]|done].
  destruct (length (Windows sched) =? 0)%nat eqn:E0; [done|]. intros (ws & Hws & [= <-])%rbind_ok.
  destruct (normalizeWindows_ok _ _ _ Hws) as [Hlen Hwf]. cbn [Timezone Windows].
  split; [done|]. split; [done|]. split; [done|]. split; [intros ->; by rewrite <- Hlen in E0|].
  split; [done|]. split; [|done]. intros w Hw. apply (wf_times w). by apply Hwf.
Qed.
End normal.

Example Normalize_accepts_witness :
  let sched := mkSchedule " UTC " [example_window] in let sched' := mkSchedule "UTC" [example_window] in
  Normalize (H := ascii_unicode) (fun _ => Some UTC) sched = Ok sched'
  /\ (Timezone sched' = TrimSpace (Timezone sched) /\ Timezone sched' <> "" /\ is_Some ((fun _ : string => Some UTC) (Timezone sched'))
  /\ Windows sched' <> [] /\ length (Windows sched') = length (Windows sched)
  /\ timed sched' /\ forall w, w ∈ Windows sched' -> window_wf (H := ascii_unicode) w).
Proof.
  cbv zeta. split; [vm_compute; reflexivity|].
  apply (Normalize_accepts (H := ascii_unicode) (fun _ => Some UTC)). vm_compute. reflexivity.
Defined.
