(* ===== verification/ConfLower.v ===== *)
(** * Reading a parsed file into a record

    The loops of the lowering code have one shape: a switch over the
    statements of a body, each of which sets fields of a record or fails. This
    file states what it means that such a loop [reads] the statements that an
    emitter writes, up to the positions the parser adds, and how that composes.
    It is shared by the readers of schedules, job.conf, kive.conf and the other
    configuration files. *)
From S2P Require Import Prelude GoStrings ConfSyntax ConfEmit ConfHelpers ConfRoundtrip.
Open Scope Z_scope.

Notation "a =s b" := (String.eqb a b) (at level 70) : kive_scope.

(** [for _, stmt := range body] with an error return. *)
Fixpoint loop {A} (step : A -> Stmt -> result Error A) (st : A) (body : list Stmt) : result Error A :=
  match body with
  | [] => Ok st
  | s :: body => let? st := step st s in loop step st body
  end.

(** [s, err := ...; if err != nil { return err }; x = s] *)
Section fields.
Context `{Unicode} (path : string) (c : Call) {A : Type}.
Definition string_field (set : string -> A) : result Error A := let? s := SingleStringArg c path in Ok (set s).
Definition strings_field (set : list string -> A) : result Error A := let? l := AsStrings c path in Ok (set l).
Definition int_field (set : Z -> A) : result Error A := let? n := SingleIntArg c path in Ok (set n).
Definition bool_field (set : bool -> A) : result Error A := let? v := SingleBoolArg c path in Ok (set v).
End fields.

(** The guarded appends of the emitters. *)
Definition Block (name id : string) (body : list Stmt) : Stmt := SBlock name id body noPos.
Definition call_string (name s : string) : list Stmt := if s =s "" then [] else [SCall (CallStmt name [s])].
Definition call_strings (name : string) (l : list string) : list Stmt :=
  match l with [] => [] | _ => [SCall (CallStmt name l)] end.
Definition call_int (name : string) (z : Z) : list Stmt := if z =? 0 then [] else [SCall (CallStmtInt name z)].

(** A block that is dropped when its body is empty. *)
Definition unless_empty (name : string) (body : list Stmt) : list Stmt := match body with [] => [] | _ => [Block name "" body] end.
(** The names of a map, sorted. *)
Definition sortedKeys {A} (m : gmap string A) : list string := merge_sort String.le (map_to_list m).*1.

(** ** Statements up to positions *)

Definition same (b e : list Stmt) : Prop := map erase_stmt b = map erase_stmt e.
Definition same_args (b e : list Value) : Prop := map erase_value b = map erase_value e.

Lemma same_app b e1 e2 : same b (e1 ++ e2) -> exists b1 b2, b = b1 ++ b2 /\ same b1 e1 /\ same b2 e2.
Proof. unfold same. rewrite map_app. intros (b1 & b2 & -> & H1 & H2)%map_eq_app. by exists b1, b2. Qed.
Lemma same_nil b : same b [] -> b = [].
Proof. by destruct b. Qed.
Lemma same_call b n args p t : same b [SCall (mkCall n args p t)] ->
  exists args' p' t', b = [SCall (mkCall n args' p' t')] /\ same_args args' args.
Proof.
  unfold same. destruct b as [|[m id body q|[m args' q u]] [|s b]]; cbn; try (by intros [=]).
  intros [= -> Ha]. by exists args', q, u.
Qed.
Lemma same_block b n id e : same b [Block n id e] -> exists body p, b = [SBlock n id body p] /\ same body e.
Proof.
  unfold same. destruct b as [|[m id' body q|[m args' q u]] [|s b]]; cbn; try (by intros [=]).
  intros [= -> -> Ha]. by exists body, q.
Qed.

Lemma same_strings args l : same_args args (map (fun a => StringLit a noPos) l) -> forall path, asStringsList args path = Ok l.
Proof.
  unfold same_args. revert args. induction l as [|s l IH]; intros [|v args]; cbn; try (by intros [=]).
  destruct v as [| | | |[]]; intros [= -> Ha] path. cbn. by rewrite IH.
Qed.
Lemma same_value b v : same_args b [v] -> exists v', b = [v'] /\ erase_value v' = erase_value v.
Proof. unfold same_args. destruct b as [|v' [|w b]]; cbn; try (by intros [=]). intros [= Hv]. by exists v'. Qed.

(** ** What a loop reads *)

Section reads.
Context {A : Type} `{Unicode} (step : A -> Stmt -> result Error A).

Definition reads (st : A) (e : list Stmt) (st' : A) : Prop := forall b, same b e -> loop step st b = Ok st'.

Lemma loop_app st b1 b2 : loop step st (b1 ++ b2) = rbind (loop step st b1) (fun st => loop step st b2).
Proof. revert st. induction b1 as [|s b1 IH]; intros st; cbn; [done|]. destruct (step st s); cbn; [apply IH|done]. Qed.
Lemma reads_nil st : reads st [] st.
Proof. by intros b ->%same_nil. Qed.
Lemma reads_app st st1 st2 e1 e2 : reads st e1 st1 -> reads st1 e2 st2 -> reads st (e1 ++ e2) st2.
Proof. intros H1 H2 b (b1 & b2 & -> & Hb1 & Hb2)%same_app. rewrite loop_app, H1 by done. by apply H2. Qed.
Lemma reads_call st st' n args p t :
  (forall args' p' t', same_args args' args -> step st (SCall (mkCall n args' p' t')) = Ok st') ->
  reads st [SCall (mkCall n args p t)] st'.
Proof. intros Hs b (args' & p' & t' & -> & Ha)%same_call. cbn. by rewrite Hs. Qed.
Lemma reads_block st st' n id e :
  (forall body p, same body e -> step st (SBlock n id body p) = Ok st') -> reads st [Block n id e] st'.
Proof. intros Hs b (body & p & -> & Hb)%same_block. cbn. by rewrite Hs. Qed.

(** A field is read back by the setter [f] when the initial state has the
    value that is not written. *)
Lemma reads_string path n s st f :
  (forall args p t, step st (SCall (mkCall n args p t)) = (let? s := SingleStringArg (mkCall n args p t) path in Ok (f s))) ->
  f "" = st -> reads st (call_string n s) (f s).
Proof.
  intros Hs Hf. unfold call_string. destruct (String.eqb_spec s "") as [->|Hn]; [rewrite Hf; apply reads_nil|].
  apply reads_call. intros args p t (v & -> & Hv)%same_value. rewrite Hs. destruct v as [| | | |[]]; cbn in Hv; try done.
  injection Hv as ->. done.
Qed.
Lemma reads_strings path n l st f :
  (forall args p t, step st (SCall (mkCall n args p t)) = (let? s := AsStrings (mkCall n args p t) path in Ok (f s))) ->
  f [] = st -> reads st (call_strings n l) (f l).
Proof.
  intros Hs Hf. destruct l as [|s l]; [rewrite Hf; apply reads_nil|]. apply reads_call. intros args p t Ha.
  rewrite Hs. unfold AsStrings. cbn [CallArgs]. by rewrite (same_strings args (s :: l) Ha).
Qed.
(** The integers that [AsInt] reads. *)
Definition readable_int (z : Z) : bool := (-1 <=? z) && (z <=? max_int64).
Lemma AsInt_readable z v path : readable_int z = true -> erase_value v = Int z -> AsInt v path = Ok z.
Proof.
  unfold readable_int. rewrite andb_true_iff, !Z.leb_le. intros [Hlo Hhi] Hv.
  destruct v as [| | | |[]]; cbn in Hv; try done. injection Hv as -> -> ->. cbn.
  change (Z.lnot 0) with (-1). by rewrite (proj2 (Z.ltb_ge _ _) Hlo), Z.gtb_ltb, (proj2 (Z.ltb_ge _ _) Hhi).
Qed.
Lemma reads_int_always path n z st f :
  (forall args p t, step st (SCall (mkCall n args p t)) = (let? s := SingleIntArg (mkCall n args p t) path in Ok (f s))) ->
  readable_int z = true -> reads st [SCall (CallStmtInt n z)] (f z).
Proof.
  intros Hs Hz. apply reads_call. intros args p t (v & -> & Hv)%same_value. rewrite Hs. unfold SingleIntArg. cbn [CallArgs].
  by rewrite (AsInt_readable z v path Hz Hv).
Qed.
Lemma reads_int path n z st f :
  (forall args p t, step st (SCall (mkCall n args p t)) = (let? s := SingleIntArg (mkCall n args p t) path in Ok (f s))) ->
  readable_int z = true -> f 0 = st -> reads st (call_int n z) (f z).
Proof.
  intros Hs Hz Hf. unfold call_int. destruct (z =? 0) eqn:E; bool_to_prop; [rewrite E, Hf; apply reads_nil|].
  by apply (reads_int_always path).
Qed.
Lemma reads_bool path n v st f :
  (forall args p t, step st (SCall (mkCall n args p t)) = (let? s := SingleBoolArg (mkCall n args p t) path in Ok (f s))) ->
  reads st [SCall (CallStmtBool n v)] (f v).
Proof.
  intros Hs. apply reads_call. intros args p t (w & -> & Hw)%same_value. rewrite Hs.
  destruct w as [| | | |[]]; cbn in Hw; try done. injection Hw as ->. done.
Qed.

(** One group of statements for each element of a list, read in order. *)
Lemma reads_list {B} (F : list B -> A) (e : B -> list Stmt) l pre :
  (forall x pre', x ∈ l -> reads (F pre') (e x) (F (pre' ++ [x]))) -> reads (F pre) (flat_map e l) (F (pre ++ l)).
Proof.
  revert pre. induction l as [|x l IH]; intros pre Hx; cbn [flat_map]; [rewrite app_nil_r; apply reads_nil|].
  eapply reads_app; [apply Hx; left|]. rewrite (app_assoc pre [x] l : pre ++ x :: l = _). apply IH. intros y pre' Hy. apply Hx. by right.
Qed.
End reads.

(** ** Sorted maps *)

Lemma sortedKeys_spec {A} (m : gmap string A) :
  NoDup (sortedKeys m) /\ forall k, k ∈ sortedKeys m <-> is_Some (m !! k).
Proof.
  unfold sortedKeys. split.
  - rewrite merge_sort_Permutation. apply NoDup_fst_map_to_list.
  - intros k. rewrite merge_sort_Permutation, list_elem_of_fmap. split.
    + intros ([k' v] & -> & Hin%elem_of_map_to_list). by exists v.
    + intros [v Hv]. exists (k, v). split; [done|]. by apply elem_of_map_to_list.
Qed.

Lemma reads_keys_from {A B} step (M : gmap string B) (F : gmap string B -> A) e l : forall acc,
  (forall k v acc, M !! k = Some v -> acc !! k = None -> reads step (F acc) (e k) (F (<[k:=v]> acc))) ->
  NoDup l -> (forall k, k ∈ l -> acc !! k = None /\ is_Some (M !! k)) -> (forall k, k ∉ l -> acc !! k = M !! k) ->
  reads step (F acc) (flat_map e l) (F M).
Proof.
  induction l as [|k l IH]; intros acc He Hnd Hin Hout; cbn [flat_map].
  - replace M with acc; [apply reads_nil|]. apply map_eq. intros k. apply Hout, not_elem_of_nil.
  - apply NoDup_cons in Hnd as [Hk Hnd]. destruct (Hin k) as [Hacc [v Hv]]; [left|].
    eapply reads_app; [by apply He|]. apply IH; [done|done| |].
    + intros k' Hk'. rewrite lookup_insert_ne by (by intros ->). apply Hin. by right.
    + intros k' Hk'. destruct (decide (k = k')) as [->|Hne]; [by rewrite lookup_insert_eq|].
      rewrite lookup_insert_ne by done. apply Hout. by rewrite not_elem_of_cons.
Qed.
Lemma reads_keys {A B} step (M : gmap string B) (F : gmap string B -> A) e :
  (forall k v acc, M !! k = Some v -> acc !! k = None -> reads step (F acc) (e k) (F (<[k:=v]> acc))) ->
  reads step (F ∅) (flat_map e (sortedKeys M)) (F M).
Proof.
  intros He. destruct (sortedKeys_spec M) as [Hnd Hk]. apply reads_keys_from; [done|done| |].
  - intros k Hin. split; [apply lookup_empty|by apply Hk].
  - intros k Hout. rewrite lookup_empty. symmetry. apply eq_None_not_Some. by rewrite <- Hk.
Qed.

(** A block that is only written when it has a body. *)
Lemma reads_unless_empty {A} step (st st' : A) name body :
  (body = [] -> st = st') -> (body <> [] -> reads step st [Block name "" body] st') -> reads step st (unless_empty name body) st'.
Proof. intros He Hn. destruct body as [|s body]; cbn; [rewrite He by done; apply reads_nil|by apply Hn]. Qed.

(** Reads one field and goes on with the next. *)
Tactic Notation "read_field" uconstr(f) := eapply reads_app; [by apply f|].
