(* ===== verification/ScheduleConf.v ===== *)
(** * schedule: the schedule block of a conf file

    schedule/conf.go: [ParseBlock] and [EmitBlock], and that reading what was
    written gives the schedule back. The hints of the errors are left out. *)
From S2P Require Import Prelude GoStrings ConfSyntax ConfEmit ConfHelpers ConfLower Schedule.
Open Scope Z_scope.

Section parse.
Context `{Unicode} (filePath : string).

Definition set_Timezone (s : Schedule) (v : string) : Schedule := mkSchedule v (Windows s).
Definition add_Window (s : Schedule) (w : Window) : Schedule := mkSchedule (Timezone s) (Windows s ++ [w]).

Definition set_Recurrence (w : Window) (v : string) : Window :=
  mkWindow v (Days w) (MonthlyBy w) (Week w) (wWeekday w) (Monthdays w) (Months w) (Start w) (End_ w).
Definition set_Days (w : Window) (v : list string) : Window :=
  mkWindow (Recurrence w) v (MonthlyBy w) (Week w) (wWeekday w) (Monthdays w) (Months w) (Start w) (End_ w).
Definition set_MonthlyBy (w : Window) (v : string) : Window :=
  mkWindow (Recurrence w) (Days w) v (Week w) (wWeekday w) (Monthdays w) (Months w) (Start w) (End_ w).
Definition set_Week (w : Window) (v : string) : Window :=
  mkWindow (Recurrence w) (Days w) (MonthlyBy w) v (wWeekday w) (Monthdays w) (Months w) (Start w) (End_ w).
Definition set_Weekday (w : Window) (v : string) : Window :=
  mkWindow (Recurrence w) (Days w) (MonthlyBy w) (Week w) v (Monthdays w) (Months w) (Start w) (End_ w).
Definition set_Monthdays (w : Window) (v : list Monthday) : Window :=
  mkWindow (Recurrence w) (Days w) (MonthlyBy w) (Week w) (wWeekday w) v (Months w) (Start w) (End_ w).
Definition set_Months (w : Window) (v : list Z) : Window :=
  mkWindow (Recurrence w) (Days w) (MonthlyBy w) (Week w) (wWeekday w) (Monthdays w) v (Start w) (End_ w).
Definition set_Start (w : Window) (v : string) : Window :=
  mkWindow (Recurrence w) (Days w) (MonthlyBy w) (Week w) (wWeekday w) (Monthdays w) (Months w) v (End_ w).
Definition set_End (w : Window) (v : string) : Window :=
  mkWindow (Recurrence w) (Days w) (MonthlyBy w) (Week w) (wWeekday w) (Monthdays w) (Months w) (Start w) v.

(** One argument of [monthdays]; the integer of a literal is its [Int]. *)
Definition monthdayArg (v : Value) : result Error Monthday :=
  match v with
  | NumberLit _ n _ _ => Ok (mkMonthday false n)
  | StringLit s p =>
      if s =s "last" then Ok (mkMonthday true 0)
      else match Atoi s with
           | None => Err (Err_at filePath p BadMonthdayEntry)
           | Some n => Ok (mkMonthday false n)
           end
  | IdentLit s p => if s =s "last" then Ok (mkMonthday true 0) else Err (Err_at filePath p BadMonthdayEntry)
  | _ => Err (Err_at filePath (ValuePos v) BadMonthdayEntry)
  end.
Fixpoint monthdayArgs (acc : list Monthday) (args : list Value) : result Error (list Monthday) :=
  match args with
  | [] => Ok acc
  | a :: args => let? md := monthdayArg a in monthdayArgs (acc ++ [md]) args
  end.
Fixpoint monthArgs (acc : list Z) (args : list Value) : result Error (list Z) :=
  match args with
  | [] => Ok acc
  | a :: args => let? n := AsInt a filePath in monthArgs (acc ++ [n]) args
  end.

Definition windowFields : list string :=
  ["recurrence"; "days"; "monthly_by"; "week"; "weekday"; "monthdays"; "months"; "start"; "end"].
Definition windowStep (w : Window) (stmt : Stmt) : result Error Window :=
  match stmt with
  | SBlock _ _ _ p => Err (Err_at filePath p (BodyOnlyAllows "window"))
  | SCall c =>
      let n := CallName c in
      if n =s "recurrence" then let? s := SingleStringArg c filePath in Ok (set_Recurrence w s)
      else if n =s "days" then let? l := AsStrings c filePath in Ok (set_Days w l)
      else if n =s "monthly_by" then let? s := SingleStringArg c filePath in Ok (set_MonthlyBy w s)
      else if n =s "week" then let? s := SingleStringArg c filePath in Ok (set_Week w s)
      else if n =s "weekday" then let? s := SingleStringArg c filePath in Ok (set_Weekday w s)
      else if n =s "monthdays" then let? l := monthdayArgs (Monthdays w) (CallArgs c) in Ok (set_Monthdays w l)
      else if n =s "months" then let? l := monthArgs (Months w) (CallArgs c) in Ok (set_Months w l)
      else if n =s "start" then let? s := SingleStringArg c filePath in Ok (set_Start w s)
      else if n =s "end" then let? s := SingleStringArg c filePath in Ok (set_End w s)
      else Err (UnknownSetting filePath (CallPos c) n windowFields).1
  end.
Definition emptyWindow : Window := mkWindow "" [] "" "" "" [] [] "" "".
Definition parseWindowBlock (body : list Stmt) : result Error Window := loop windowStep emptyWindow body.

Definition scheduleStep (sched : Schedule) (stmt : Stmt) : result Error Schedule :=
  match stmt with
  | SCall c =>
      if CallName c =s "timezone" then let? s := SingleStringArg c filePath in Ok (set_Timezone sched s)
      else Err (UnknownSetting filePath (CallPos c) (CallName c) ["timezone"; "window"]).1
  | SBlock name _ body p =>
      if negb (name =s "window") then Err (Err_at filePath p (UnexpectedBlock name "schedule"))
      else let? w := parseWindowBlock body in Ok (add_Window sched w)
  end.
Definition ParseBlock (body : list Stmt) : result Error Schedule := loop scheduleStep (mkSchedule "" []) body.

(** ** The emitter *)

Definition monthdayValue (md : Monthday) : Value := if mdLast md then Str "last" else Int (mdDay md).
Definition windowStmts (w : Window) : list Stmt :=
     call_string "recurrence" (Recurrence w)
     ++ call_strings "days" (Days w)
     ++ call_string "monthly_by" (MonthlyBy w)
     ++ call_string "week" (Week w)
     ++ call_string "weekday" (wWeekday w)
     ++ (match Monthdays w with [] => [] | l => [SCall (mkCall "monthdays" (map monthdayValue l) noPos true)] end)
     ++ (match Months w with [] => [] | l => [SCall (mkCall "months" (map Int l) noPos true)] end)
     ++ call_string "start" (Start w)
     ++ call_string "end" (End_ w).
Definition emitWindow (w : Window) : Stmt := Block "window" "" (windowStmts w).
Definition EmitBlock (sched : Schedule) : Stmt :=
  Block "schedule" "" (call_string "timezone" (Timezone sched) ++ flat_map (fun w => [emitWindow w]) (Windows sched)).

(** ** Reading back *)

(** A schedule that the text can hold: months that [AsInt] reads, and no day
    next to [last]. *)
Definition window_printable (w : Window) : bool :=
  forallb (fun md => negb (mdLast md) || (mdDay md =? 0)) (Monthdays w) && forallb readable_int (Months w).
Definition schedule_printable (s : Schedule) : bool := forallb window_printable (Windows s).

Lemma monthdayArgs_read l : forall args acc,
  forallb (fun md => negb (mdLast md) || (mdDay md =? 0)) l = true -> same_args args (map monthdayValue l) ->
  monthdayArgs acc args = Ok (acc ++ l).
Proof.
  induction l as [|md l IH]; intros args acc Hl Ha.
  - destruct args; [|done]. cbn. by rewrite app_nil_r.
  - destruct args as [|v args]; [done|]. injection Ha as Hv Ha. cbn [forallb] in Hl. apply andb_true_iff in Hl as [Hmd Hl].
    assert (Hone : monthdayArg v = Ok md).
    { destruct md as [[] d], v as [| | | |[]]; cbn in *; try done; [|by injection Hv as -> -> ->].
      injection Hv as ->. apply Z.eqb_eq in Hmd as ->. done. }
    cbn [monthdayArgs]. rewrite Hone. cbn [rbind]. rewrite (IH args) by done. by rewrite <- app_assoc.
Qed.
Lemma monthArgs_read l : forall args acc,
  forallb readable_int l = true -> same_args args (map Int l) -> monthArgs acc args = Ok (acc ++ l).
Proof.
  induction l as [|z l IH]; intros args acc Hl Ha.
  - destruct args; [|done]. cbn. by rewrite app_nil_r.
  - destruct args as [|v args]; [done|]. cbn [map same_args] in Ha. injection Ha as Hv Ha.
    cbn [forallb] in Hl. apply andb_true_iff in Hl as [Hz Hl]. cbn [monthArgs].
    rewrite (AsInt_readable z v filePath Hz Hv). cbn [rbind]. rewrite (IH args) by done. by rewrite <- app_assoc.
Qed.

Lemma window_reads w : window_printable w = true -> reads windowStep emptyWindow (windowStmts w) w.
Proof.
  unfold window_printable. rewrite andb_true_iff. intros [Hmd Hm].
  destruct w as [rec days by_ week wd mds ms st en]. unfold windowStmts.
  cbn [Recurrence Days MonthlyBy Week wWeekday Monthdays Months Start End_] in *.
  eapply reads_app; [by apply (reads_string windowStep filePath _ _ _ (set_Recurrence emptyWindow))|].
  eapply reads_app; [by eapply (reads_strings windowStep filePath _ _ _ (set_Days _))|].
  eapply reads_app; [by eapply (reads_string windowStep filePath _ _ _ (set_MonthlyBy _))|].
  eapply reads_app; [by eapply (reads_string windowStep filePath _ _ _ (set_Week _))|].
  eapply reads_app; [by eapply (reads_string windowStep filePath _ _ _ (set_Weekday _))|].
  apply (reads_app _ _ (mkWindow rec days by_ week wd mds [] "" "")).
  { destruct mds as [|md mds]; [apply reads_nil|]. apply reads_call. intros args q t Ha. cbn -[monthdayArgs].
    by rewrite (monthdayArgs_read (md :: mds)). }
  apply (reads_app _ _ (mkWindow rec days by_ week wd mds ms "" "")).
  { destruct ms as [|m ms]; [apply reads_nil|]. apply reads_call. intros args q t Ha. cbn -[monthArgs].
    by rewrite (monthArgs_read (m :: ms)). }
  eapply reads_app; [by eapply (reads_string windowStep filePath _ _ _ (set_Start _))|].
  by apply (reads_string windowStep filePath "end" en _ (set_End (mkWindow rec days by_ week wd mds ms st ""))).
Qed.

Lemma schedule_reads s : schedule_printable s = true ->
  reads scheduleStep (mkSchedule "" []) (call_string "timezone" (Timezone s) ++ flat_map (fun w => [emitWindow w]) (Windows s)) s.
Proof.
  unfold schedule_printable. rewrite forallb_forall. intros Hw. destruct s as [tz ws]. cbn [Timezone Windows] in *.
  eapply reads_app; [by apply (reads_string scheduleStep filePath _ _ _ (set_Timezone (mkSchedule "" [])))|].
  cbn [set_Timezone Windows]. apply (reads_list scheduleStep (mkSchedule tz) (fun w => [emitWindow w]) ws []).
  intros w pre Hin. apply reads_block. intros body p Hb. cbn -[parseWindowBlock]. unfold parseWindowBlock.
  rewrite (window_reads w) by first [apply Hw; by apply list_elem_of_In | done]. done.
Qed.
End parse.
