(* ===== verification/JobConf.v ===== *)
(** * workspace: job.conf, from text to manifest and back

    workspace/job_conf.go over the tree of ConfParser.v, with the types of
    workspace/types.go and workspace/health_check.go. A pointer is an option, a
    map a [gmap], nil and empty maps and slices being one value. The value of
    a configuration key that is a float is its text. The hints of the errors
    are left out. *)
From S2P Require Import Prelude GoStrings ConfSyntax ConfEmit ConfHelpers ConfLexer ConfParser ConfLower Ports Schedule ScheduleConf.
Open Scope Z_scope.

(** ** The manifest *)

Inductive ConfigValue := CfgString (s : string) | CfgFloat (text : string) | CfgInt (z : Z) | CfgBool (b : bool).
Record Resources := mkResources {
  MemMin : string;
  MemMax : string;
  CpuMin : string;
  CpuMax : string;
  CPUShares : Z;
  rPorts : ManifestPorts;
}.
Record HealthCheckProbe := mkProbe {
  pType : string;
  pPort : string;
  pPath : string;
  pCommand : string;
  ExpectStatus : Z;
  pScheme : string;
}.
Record HealthCheckWait := mkWait {
  Attempts : Z;
  IntervalSeconds : Z;
}.
Record HealthCheckKind := mkKind {
  kChecks : list HealthCheckProbe;
  kWait : option HealthCheckWait;
}.
Record ManifestHealthCheck := mkHealthCheck {
  Liveness : option HealthCheckKind;
  Readiness : option HealthCheckKind;
  hcChecks : list HealthCheckProbe;
  TimeoutSeconds : Z;
  hcWait : option HealthCheckWait;
}.
Record CertSubject := mkSubject {
  CommonName : string;
  Organization : string;
  OrganizationalUnit : string;
  Country : string;
  Province : string;
  Locality : string;
}.
Record ManifestCert := mkCert {
  External : bool;
  PKCS8 : bool;
  One : bool;
  Subject : CertSubject;
}.
Record HookDemands := mkDemands {
  dJob : string;
  dHook : string;
  dConfig : gmap string ConfigValue;
}.
Record Hook := mkHook {
  hName : string;
  hExecutedOn : list string;
  hDescription : string;
  hSchedule : option Schedule;
  hDemands : HookDemands;
}.
Record Manifest := mkManifest {
  mVersion : string;
  mDescription : string;
  mSelectors : list string;
  DeploymentPriority : Z;
  mResources : Resources;
  mHooks : gmap string Hook;
  mCerts : gmap string ManifestCert;
  mHealthCheck : option ManifestHealthCheck;
  MaxConcurrentRestarts : Z;
  MaxConcurrentStarts : Z;
  MaxConcurrentStops : Z;
  MinAllocationsCount : Z;
  RestartPolicy : string;
  RestartGlobs : list string;
  ReloadGlobs : list string;
  BackwardCompatibilityFrom : list string;
  AllowRollback : bool;
}.

(** *** Assignments to one field *)

Definition set_MemMin (r : Resources) (v : string) : Resources :=
  mkResources v (MemMax r) (CpuMin r) (CpuMax r) (CPUShares r) (rPorts r).
Definition set_MemMax (r : Resources) (v : string) : Resources :=
  mkResources (MemMin r) v (CpuMin r) (CpuMax r) (CPUShares r) (rPorts r).
Definition set_CpuMin (r : Resources) (v : string) : Resources :=
  mkResources (MemMin r) (MemMax r) v (CpuMax r) (CPUShares r) (rPorts r).
Definition set_CpuMax (r : Resources) (v : string) : Resources :=
  mkResources (MemMin r) (MemMax r) (CpuMin r) v (CPUShares r) (rPorts r).
Definition set_CPUShares (r : Resources) (v : Z) : Resources :=
  mkResources (MemMin r) (MemMax r) (CpuMin r) (CpuMax r) v (rPorts r).
Definition set_rPorts (r : Resources) (v : ManifestPorts) : Resources :=
  mkResources (MemMin r) (MemMax r) (CpuMin r) (CpuMax r) (CPUShares r) v.
Definition set_pPort (r : HealthCheckProbe) (v : string) : HealthCheckProbe :=
  mkProbe (pType r) v (pPath r) (pCommand r) (ExpectStatus r) (pScheme r).
Definition set_pPath (r : HealthCheckProbe) (v : string) : HealthCheckProbe :=
  mkProbe (pType r) (pPort r) v (pCommand r) (ExpectStatus r) (pScheme r).
Definition set_pCommand (r : HealthCheckProbe) (v : string) : HealthCheckProbe :=
  mkProbe (pType r) (pPort r) (pPath r) v (ExpectStatus r) (pScheme r).
Definition set_ExpectStatus (r : HealthCheckProbe) (v : Z) : HealthCheckProbe :=
  mkProbe (pType r) (pPort r) (pPath r) (pCommand r) v (pScheme r).
Definition set_pScheme (r : HealthCheckProbe) (v : string) : HealthCheckProbe :=
  mkProbe (pType r) (pPort r) (pPath r) (pCommand r) (ExpectStatus r) v.
Definition set_Attempts (r : HealthCheckWait) (v : Z) : HealthCheckWait :=
  mkWait v (IntervalSeconds r).
Definition set_IntervalSeconds (r : HealthCheckWait) (v : Z) : HealthCheckWait :=
  mkWait (Attempts r) v.
Definition set_kChecks (r : HealthCheckKind) (v : list HealthCheckProbe) : HealthCheckKind :=
  mkKind v (kWait r).
Definition set_kWait (r : HealthCheckKind) (v : option HealthCheckWait) : HealthCheckKind :=
  mkKind (kChecks r) v.
Definition set_Liveness (r : ManifestHealthCheck) (v : option HealthCheckKind) : ManifestHealthCheck :=
  mkHealthCheck v (Readiness r) (hcChecks r) (TimeoutSeconds r) (hcWait r).
Definition set_Readiness (r : ManifestHealthCheck) (v : option HealthCheckKind) : ManifestHealthCheck :=
  mkHealthCheck (Liveness r) v (hcChecks r) (TimeoutSeconds r) (hcWait r).
Definition set_TimeoutSeconds (r : ManifestHealthCheck) (v : Z) : ManifestHealthCheck :=
  mkHealthCheck (Liveness r) (Readiness r) (hcChecks r) v (hcWait r).
Definition set_hcWait (r : ManifestHealthCheck) (v : option HealthCheckWait) : ManifestHealthCheck :=
  mkHealthCheck (Liveness r) (Readiness r) (hcChecks r) (TimeoutSeconds r) v.
Definition set_CommonName (r : CertSubject) (v : string) : CertSubject :=
  mkSubject v (Organization r) (OrganizationalUnit r) (Country r) (Province r) (Locality r).
Definition set_Organization (r : CertSubject) (v : string) : CertSubject :=
  mkSubject (CommonName r) v (OrganizationalUnit r) (Country r) (Province r) (Locality r).
Definition set_OrganizationalUnit (r : CertSubject) (v : string) : CertSubject :=
  mkSubject (CommonName r) (Organization r) v (Country r) (Province r) (Locality r).
Definition set_Country (r : CertSubject) (v : string) : CertSubject :=
  mkSubject (CommonName r) (Organization r) (OrganizationalUnit r) v (Province r) (Locality r).
Definition set_Province (r : CertSubject) (v : string) : CertSubject :=
  mkSubject (CommonName r) (Organization r) (OrganizationalUnit r) (Country r) v (Locality r).
Definition set_Locality (r : CertSubject) (v : string) : CertSubject :=
  mkSubject (CommonName r) (Organization r) (OrganizationalUnit r) (Country r) (Province r) v.
Definition set_External (r : ManifestCert) (v : bool) : ManifestCert :=
  mkCert v (PKCS8 r) (One r) (Subject r).
Definition set_PKCS8 (r : ManifestCert) (v : bool) : ManifestCert :=
  mkCert (External r) v (One r) (Subject r).
Definition set_One (r : ManifestCert) (v : bool) : ManifestCert :=
  mkCert (External r) (PKCS8 r) v (Subject r).
Definition set_Subject (r : ManifestCert) (v : CertSubject) : ManifestCert :=
  mkCert (External r) (PKCS8 r) (One r) v.
Definition set_dJob (r : HookDemands) (v : string) : HookDemands :=
  mkDemands v (dHook r) (dConfig r).
Definition set_dHook (r : HookDemands) (v : string) : HookDemands :=
  mkDemands (dJob r) v (dConfig r).
Definition set_dConfig (r : HookDemands) (v : gmap string ConfigValue) : HookDemands :=
  mkDemands (dJob r) (dHook r) v.
Definition set_hExecutedOn (r : Hook) (v : list string) : Hook :=
  mkHook (hName r) v (hDescription r) (hSchedule r) (hDemands r).
Definition set_hDescription (r : Hook) (v : string) : Hook :=
  mkHook (hName r) (hExecutedOn r) v (hSchedule r) (hDemands r).
Definition set_hSchedule (r : Hook) (v : option Schedule) : Hook :=
  mkHook (hName r) (hExecutedOn r) (hDescription r) v (hDemands r).
Definition set_hDemands (r : Hook) (v : HookDemands) : Hook :=
  mkHook (hName r) (hExecutedOn r) (hDescription r) (hSchedule r) v.
Definition set_mVersion (r : Manifest) (v : string) : Manifest :=
  mkManifest v (mDescription r) (mSelectors r) (DeploymentPriority r) (mResources r) (mHooks r) (mCerts r) (mHealthCheck r) (MaxConcurrentRestarts r) (MaxConcurrentStarts r) (MaxConcurrentStops r) (MinAllocationsCount r) (RestartPolicy r) (RestartGlobs r) (ReloadGlobs r) (BackwardCompatibilityFrom r) (AllowRollback r).
Definition set_mDescription (r : Manifest) (v : string) : Manifest :=
  mkManifest (mVersion r) v (mSelectors r) (DeploymentPriority r) (mResources r) (mHooks r) (mCerts r) (mHealthCheck r) (MaxConcurrentRestarts r) (MaxConcurrentStarts r) (MaxConcurrentStops r) (MinAllocationsCount r) (RestartPolicy r) (RestartGlobs r) (ReloadGlobs r) (BackwardCompatibilityFrom r) (AllowRollback r).
Definition set_mSelectors (r : Manifest) (v : list string) : Manifest :=
  mkManifest (mVersion r) (mDescription r) v (DeploymentPriority r) (mResources r) (mHooks r) (mCerts r) (mHealthCheck r) (MaxConcurrentRestarts r) (MaxConcurrentStarts r) (MaxConcurrentStops r) (MinAllocationsCount r) (RestartPolicy r) (RestartGlobs r) (ReloadGlobs r) (BackwardCompatibilityFrom r) (AllowRollback r).
Definition set_DeploymentPriority (r : Manifest) (v : Z) : Manifest :=
  mkManifest (mVersion r) (mDescription r) (mSelectors r) v (mResources r) (mHooks r) (mCerts r) (mHealthCheck r) (MaxConcurrentRestarts r) (MaxConcurrentStarts r) (MaxConcurrentStops r) (MinAllocationsCount r) (RestartPolicy r) (RestartGlobs r) (ReloadGlobs r) (BackwardCompatibilityFrom r) (AllowRollback r).
Definition set_mResources (r : Manifest) (v : Resources) : Manifest :=
  mkManifest (mVersion r) (mDescription r) (mSelectors r) (DeploymentPriority r) v (mHooks r) (mCerts r) (mHealthCheck r) (MaxConcurrentRestarts r) (MaxConcurrentStarts r) (MaxConcurrentStops r) (MinAllocationsCount r) (RestartPolicy r) (RestartGlobs r) (ReloadGlobs r) (BackwardCompatibilityFrom r) (AllowRollback r).
Definition set_mHooks (r : Manifest) (v : gmap string Hook) : Manifest :=
  mkManifest (mVersion r) (mDescription r) (mSelectors r) (DeploymentPriority r) (mResources r) v (mCerts r) (mHealthCheck r) (MaxConcurrentRestarts r) (MaxConcurrentStarts r) (MaxConcurrentStops r) (MinAllocationsCount r) (RestartPolicy r) (RestartGlobs r) (ReloadGlobs r) (BackwardCompatibilityFrom r) (AllowRollback r).
Definition set_mCerts (r : Manifest) (v : gmap string ManifestCert) : Manifest :=
  mkManifest (mVersion r) (mDescription r) (mSelectors r) (DeploymentPriority r) (mResources r) (mHooks r) v (mHealthCheck r) (MaxConcurrentRestarts r) (MaxConcurrentStarts r) (MaxConcurrentStops r) (MinAllocationsCount r) (RestartPolicy r) (RestartGlobs r) (ReloadGlobs r) (BackwardCompatibilityFrom r) (AllowRollback r).
Definition set_mHealthCheck (r : Manifest) (v : option ManifestHealthCheck) : Manifest :=
  mkManifest (mVersion r) (mDescription r) (mSelectors r) (DeploymentPriority r) (mResources r) (mHooks r) (mCerts r) v (MaxConcurrentRestarts r) (MaxConcurrentStarts r) (MaxConcurrentStops r) (MinAllocationsCount r) (RestartPolicy r) (RestartGlobs r) (ReloadGlobs r) (BackwardCompatibilityFrom r) (AllowRollback r).
Definition set_MaxConcurrentRestarts (r : Manifest) (v : Z) : Manifest :=
  mkManifest (mVersion r) (mDescription r) (mSelectors r) (DeploymentPriority r) (mResources r) (mHooks r) (mCerts r) (mHealthCheck r) v (MaxConcurrentStarts r) (MaxConcurrentStops r) (MinAllocationsCount r) (RestartPolicy r) (RestartGlobs r) (ReloadGlobs r) (BackwardCompatibilityFrom r) (AllowRollback r).
Definition set_MaxConcurrentStarts (r : Manifest) (v : Z) : Manifest :=
  mkManifest (mVersion r) (mDescription r) (mSelectors r) (DeploymentPriority r) (mResources r) (mHooks r) (mCerts r) (mHealthCheck r) (MaxConcurrentRestarts r) v (MaxConcurrentStops r) (MinAllocationsCount r) (RestartPolicy r) (RestartGlobs r) (ReloadGlobs r) (BackwardCompatibilityFrom r) (AllowRollback r).
Definition set_MaxConcurrentStops (r : Manifest) (v : Z) : Manifest :=
  mkManifest (mVersion r) (mDescription r) (mSelectors r) (DeploymentPriority r) (mResources r) (mHooks r) (mCerts r) (mHealthCheck r) (MaxConcurrentRestarts r) (MaxConcurrentStarts r) v (MinAllocationsCount r) (RestartPolicy r) (RestartGlobs r) (ReloadGlobs r) (BackwardCompatibilityFrom r) (AllowRollback r).
Definition set_MinAllocationsCount (r : Manifest) (v : Z) : Manifest :=
  mkManifest (mVersion r) (mDescription r) (mSelectors r) (DeploymentPriority r) (mResources r) (mHooks r) (mCerts r) (mHealthCheck r) (MaxConcurrentRestarts r) (MaxConcurrentStarts r) (MaxConcurrentStops r) v (RestartPolicy r) (RestartGlobs r) (ReloadGlobs r) (BackwardCompatibilityFrom r) (AllowRollback r).
Definition set_RestartPolicy (r : Manifest) (v : string) : Manifest :=
  mkManifest (mVersion r) (mDescription r) (mSelectors r) (DeploymentPriority r) (mResources r) (mHooks r) (mCerts r) (mHealthCheck r) (MaxConcurrentRestarts r) (MaxConcurrentStarts r) (MaxConcurrentStops r) (MinAllocationsCount r) v (RestartGlobs r) (ReloadGlobs r) (BackwardCompatibilityFrom r) (AllowRollback r).
Definition set_RestartGlobs (r : Manifest) (v : list string) : Manifest :=
  mkManifest (mVersion r) (mDescription r) (mSelectors r) (DeploymentPriority r) (mResources r) (mHooks r) (mCerts r) (mHealthCheck r) (MaxConcurrentRestarts r) (MaxConcurrentStarts r) (MaxConcurrentStops r) (MinAllocationsCount r) (RestartPolicy r) v (ReloadGlobs r) (BackwardCompatibilityFrom r) (AllowRollback r).
Definition set_ReloadGlobs (r : Manifest) (v : list string) : Manifest :=
  mkManifest (mVersion r) (mDescription r) (mSelectors r) (DeploymentPriority r) (mResources r) (mHooks r) (mCerts r) (mHealthCheck r) (MaxConcurrentRestarts r) (MaxConcurrentStarts r) (MaxConcurrentStops r) (MinAllocationsCount r) (RestartPolicy r) (RestartGlobs r) v (BackwardCompatibilityFrom r) (AllowRollback r).
Definition set_BackwardCompatibilityFrom (r : Manifest) (v : list string) : Manifest :=
  mkManifest (mVersion r) (mDescription r) (mSelectors r) (DeploymentPriority r) (mResources r) (mHooks r) (mCerts r) (mHealthCheck r) (MaxConcurrentRestarts r) (MaxConcurrentStarts r) (MaxConcurrentStops r) (MinAllocationsCount r) (RestartPolicy r) (RestartGlobs r) (ReloadGlobs r) v (AllowRollback r).
Definition set_AllowRollback (r : Manifest) (v : bool) : Manifest :=
  mkManifest (mVersion r) (mDescription r) (mSelectors r) (DeploymentPriority r) (mResources r) (mHooks r) (mCerts r) (mHealthCheck r) (MaxConcurrentRestarts r) (MaxConcurrentStarts r) (MaxConcurrentStops r) (MinAllocationsCount r) (RestartPolicy r) (RestartGlobs r) (ReloadGlobs r) (BackwardCompatibilityFrom r) v.

Definition emptyResources : Resources := mkResources "" "" "" "" 0 ∅.
Definition emptySubject : CertSubject := mkSubject "" "" "" "" "" "".
Definition emptyManifest : Manifest :=
  mkManifest "" "" [] 0 emptyResources ∅ ∅ None 0 0 0 0 "" [] [] [] false.

Definition manifestKnownFields : list string :=
  ["version"; "description"; "selectors"; "deployment_priority"; "resources"; "hooks"; "certs"; "health_check";
   "max_concurrent_restarts"; "max_concurrent_starts"; "max_concurrent_stops"; "min_allocations_count";
   "restart_policy"; "restart_globs"; "reload_globs"; "backward_compatibility_from"; "allow_rollback";
   "memory"; "cpu"; "cpu_shares"; "ports"].

(** ** Lowering *)

Section lower.
Context `{Unicode} (path : string).

Definition applyManifestCall (m : Manifest) (c : Call) : result Error Manifest :=
  let n := CallName c in
  if n =s "version" then string_field path c (set_mVersion m)
  else if n =s "description" then string_field path c (set_mDescription m)
  else if n =s "selectors" then strings_field path c (set_mSelectors m)
  else if n =s "deployment_priority" then int_field path c (set_DeploymentPriority m)
  else if n =s "max_concurrent_restarts" then int_field path c (set_MaxConcurrentRestarts m)
  else if n =s "max_concurrent_starts" then int_field path c (set_MaxConcurrentStarts m)
  else if n =s "max_concurrent_stops" then int_field path c (set_MaxConcurrentStops m)
  else if n =s "min_allocations_count" then int_field path c (set_MinAllocationsCount m)
  else if n =s "restart_policy" then string_field path c (set_RestartPolicy m)
  else if n =s "restart_globs" then strings_field path c (set_RestartGlobs m)
  else if n =s "reload_globs" then strings_field path c (set_ReloadGlobs m)
  else if n =s "backward_compatibility_from" then strings_field path c (set_BackwardCompatibilityFrom m)
  else if n =s "allow_rollback" then bool_field path c (set_AllowRollback m)
  else Err (UnknownSetting path (CallPos c) n manifestKnownFields).1.

Definition minMaxStep (name : string) (mm : string * string) (stmt : Stmt) : result Error (string * string) :=
  match stmt with
  | SBlock _ _ _ p => Err (Err_at path p (BodyOnlyAllows name))
  | SCall c =>
      let? s := SingleStringArg c path in
      if CallName c =s "min" then Ok (s, mm.2)
      else if CallName c =s "max" then Ok (mm.1, s)
      else Err (UnknownSetting path (CallPos c) (CallName c) ["min"; "max"]).1
  end.
Definition minMaxFromBlock (name : string) (body : list Stmt) : result Error (string * string) :=
  loop (minMaxStep name) ("", "") body.

Definition portStep (name : string) (binding : ManifestPortBinding) (stmt : Stmt) : result Error ManifestPortBinding :=
  match stmt with
  | SBlock _ _ _ p => Err (Err_at path p (BodyOnlyAllows name))
  | SCall c =>
      if CallName c =s "protocol" then
        let? s := SingleStringArg c path in
        match NormalizePortProtocol s with
        | Err _ => Err (Err_at path (CallPos c) (ProtocolRejected s))
        | Ok proto => Ok (mkBinding (Fixed binding) proto (Exposure binding))
        end
      else if CallName c =s "exposure" then
        let? s := SingleStringArg c path in
        match NormalizePortExposure s with
        | Err _ => Err (Err_at path (CallPos c) (ExposureRejected s))
        | Ok exp => Ok (mkBinding (Fixed binding) (Protocol binding) exp)
        end
      else if CallName c =s "port" then
        let? n := SingleIntArg c path in Ok (mkBinding (Some n) (Protocol binding) (Exposure binding))
      else Err (UnknownSetting path (CallPos c) (CallName c) ["protocol"; "exposure"; "port"]).1
  end.
Definition applyManifestPortBlock (ports : ManifestPorts) (name : string) (body : list Stmt) (p : Pos) : result Error ManifestPorts :=
  match ValidatePortKey name with
  | Some _ => Err (Err_at path p (PortRejected name))
  | None =>
      let? binding := loop (portStep name) (mkBinding None DefaultPortProtocol DefaultPortExposure) body in
      Ok (<[name := binding]> ports)
  end.
Definition portsStep (ports : ManifestPorts) (stmt : Stmt) : result Error ManifestPorts :=
  match stmt with
  | SCall c => Err (Err_at path (CallPos c) (BodyOnlyAllows "ports"))
  | SBlock name id body p =>
      if negb (id =s "") then Err (Err_at path p (NoIdentifierIn "port"))
      else applyManifestPortBlock ports name body p
  end.
Definition applyManifestPortsBlock (r : Resources) (id : string) (body : list Stmt) (p : Pos) : result Error Resources :=
  if negb (id =s "") then Err (Err_at path p (NoIdentifierIn "ports"))
  else let? ports := loop portsStep (rPorts r) body in Ok (set_rPorts r ports).

Definition resourcesStep (r : Resources) (stmt : Stmt) : result Error Resources :=
  match stmt with
  | SCall c =>
      if negb (CallName c =s "cpu_shares")
      then Err (UnknownSetting path (CallPos c) (CallName c) ["memory"; "cpu"; "cpu_shares"; "ports"]).1
      else int_field path c (set_CPUShares r)
  | SBlock name id body p =>
      if negb (id =s "") then Err (Err_at path p (UnexpectedIdentifier id "resources"))
      else if name =s "memory" then
        let? mm := minMaxFromBlock name body in Ok (set_MemMax (set_MemMin r mm.1) mm.2)
      else if name =s "cpu" then
        let? mm := minMaxFromBlock name body in Ok (set_CpuMax (set_CpuMin r mm.1) mm.2)
      else if name =s "ports" then applyManifestPortsBlock r id body p
      else Err (UnknownSetting path p name ["memory"; "cpu"; "cpu_shares"; "ports"]).1
  end.
Definition applyManifestResourcesBlock (m : Manifest) (id : string) (body : list Stmt) (p : Pos) : result Error Manifest :=
  if negb (id =s "") then Err (Err_at path p (NoIdentifierIn "resources"))
  else let? r := loop resourcesStep (mResources m) body in Ok (set_mResources m r).

(** *** Health checks *)

Definition waitStep (w : HealthCheckWait) (stmt : Stmt) : result Error HealthCheckWait :=
  match stmt with
  | SBlock _ _ _ p => Err (Err_at path p (BodyOnlyAllows "wait"))
  | SCall c =>
      if CallName c =s "attempts" then int_field path c (set_Attempts w)
      else if CallName c =s "interval_seconds" then int_field path c (set_IntervalSeconds w)
      else Err (UnknownSetting path (CallPos c) (CallName c) ["attempts"; "interval_seconds"]).1
  end.
Definition parseHealthCheckWaitBlock (id : string) (body : list Stmt) (p : Pos) : result Error HealthCheckWait :=
  if negb (id =s "") then Err (Err_at path p (NoIdentifierIn "wait")) else loop waitStep (mkWait 0 0) body.

Definition probeStep (type : string) (probe : HealthCheckProbe) (stmt : Stmt) : result Error HealthCheckProbe :=
  match stmt with
  | SBlock _ _ _ p => Err (Err_at path p (BodyOnlyAllows type))
  | SCall c =>
      let n := CallName c in
      if n =s "port" then string_field path c (set_pPort probe)
      else if n =s "path" then string_field path c (set_pPath probe)
      else if n =s "command" then string_field path c (set_pCommand probe)
      else if n =s "expect_status" then int_field path c (set_ExpectStatus probe)
      else if n =s "scheme" then string_field path c (set_pScheme probe)
      else Err (UnknownSetting path (CallPos c) n ["port"; "path"; "command"; "expect_status"; "scheme"]).1
  end.
Definition parseHealthCheckProbeBlock (name id : string) (body : list Stmt) (p : Pos) : result Error HealthCheckProbe :=
  if negb (id =s "") then Err (Err_at path p (NoIdentifierIn "probe"))
  else loop (probeStep name) (mkProbe name "" "" "" 0 "") body.

Definition is_probe (name : string) : bool := (name =s "tcp") || (name =s "http") || (name =s "ssh").
Definition kindStep (kindName : string) (kind : HealthCheckKind) (stmt : Stmt) : result Error HealthCheckKind :=
  match stmt with
  | SCall c => Err (Err_at path (CallPos c) (BodyOnlyAllows kindName))
  | SBlock name id body p =>
      if negb (id =s "") then Err (Err_at path p (UnexpectedIdentifier id kindName))
      else if name =s "wait" then
        let? w := parseHealthCheckWaitBlock id body p in Ok (set_kWait kind (Some w))
      else if is_probe name then
        let? probe := parseHealthCheckProbeBlock name id body p in Ok (set_kChecks kind (kChecks kind ++ [probe]))
      else Err (UnknownSetting path p name ["wait"; "tcp"; "http"; "ssh"]).1
  end.
Definition parseHealthCheckKindBlock (name id : string) (body : list Stmt) (p : Pos) : result Error HealthCheckKind :=
  if negb (id =s "") then Err (Err_at path p (NoIdentifierIn name)) else loop (kindStep name) (mkKind [] None) body.

Definition healthCheckFields : list string := ["timeout_seconds"; "wait"; "liveness"; "readiness"].
Definition healthCheckStep (hc : ManifestHealthCheck) (stmt : Stmt) : result Error ManifestHealthCheck :=
  match stmt with
  | SCall c =>
      if negb (CallName c =s "timeout_seconds") then Err (UnknownSetting path (CallPos c) (CallName c) healthCheckFields).1
      else int_field path c (set_TimeoutSeconds hc)
  | SBlock name id body p =>
      if negb (id =s "") then Err (Err_at path p (UnexpectedIdentifier id "health_check"))
      else if name =s "wait" then
        let? w := parseHealthCheckWaitBlock id body p in Ok (set_hcWait hc (Some w))
      else if (name =s "liveness") || (name =s "readiness") then
        let? kind := parseHealthCheckKindBlock name id body p in
        if name =s "liveness" then
          match Liveness hc with
          | Some _ => Err (Err_at path p (SpecifiedTwice "health_check.liveness"))
          | None => Ok (set_Liveness hc (Some kind))
          end
        else
          match Readiness hc with
          | Some _ => Err (Err_at path p (SpecifiedTwice "health_check.readiness"))
          | None => Ok (set_Readiness hc (Some kind))
          end
      else if is_probe name then Err (Err_at path p ProbesNeedKind)
      else Err (UnknownSetting path p name healthCheckFields).1
  end.
Definition emptyHealthCheck : ManifestHealthCheck := mkHealthCheck None None [] 0 None.
Definition applyManifestHealthCheckBlock (m : Manifest) (id : string) (body : list Stmt) (p : Pos) : result Error Manifest :=
  if negb (id =s "") then Err (Err_at path p (NoIdentifierIn "health_check"))
  else let? hc := loop healthCheckStep emptyHealthCheck body in Ok (set_mHealthCheck m (Some hc)).

(** *** Certificates *)

Definition subjectFields : list string :=
  ["common_name"; "organization"; "organizational_unit"; "country"; "province"; "locality"].
Definition subjectStep (subject : CertSubject) (stmt : Stmt) : result Error CertSubject :=
  match stmt with
  | SBlock _ _ _ p => Err (Err_at path p (BodyOnlyAllows "subject"))
  | SCall c =>
      let n := CallName c in
      if n =s "common_name" then string_field path c (set_CommonName subject)
      else if n =s "organization" then string_field path c (set_Organization subject)
      else if n =s "organizational_unit" then string_field path c (set_OrganizationalUnit subject)
      else if n =s "country" then string_field path c (set_Country subject)
      else if n =s "province" then string_field path c (set_Province subject)
      else if n =s "locality" then string_field path c (set_Locality subject)
      else Err (UnknownSetting path (CallPos c) n subjectFields).1
  end.
Definition parseCertSubjectBlock (id : string) (body : list Stmt) (p : Pos) : result Error CertSubject :=
  if negb (id =s "") then Err (Err_at path p (NoIdentifierIn "subject")) else loop subjectStep emptySubject body.

(** The entry and whether one of pkcs8, one and subject was seen. *)
Definition certFields : list string := ["external"; "pkcs8"; "one"; "subject"].
Definition certStep (st : ManifestCert * bool) (stmt : Stmt) : result Error (ManifestCert * bool) :=
  let '(entry, saw) := st in
  match stmt with
  | SCall c =>
      let n := CallName c in
      if n =s "external" then bool_field path c (fun v => (set_External entry v, saw))
      else if n =s "pkcs8" then bool_field path c (fun v => (set_PKCS8 entry v, true))
      else if n =s "one" then bool_field path c (fun v => (set_One entry v, true))
      else Err (UnknownSetting path (CallPos c) n certFields).1
  | SBlock name id body p =>
      if negb (name =s "subject") then Err (UnknownSetting path p name certFields).1
      else let? subject := parseCertSubjectBlock id body p in Ok (set_Subject entry subject, true)
  end.
Definition emptyCert : ManifestCert := mkCert false false false emptySubject.
Definition certsStep (certs : gmap string ManifestCert) (stmt : Stmt) : result Error (gmap string ManifestCert) :=
  match stmt with
  | SCall c => Err (Err_at path (CallPos c) (BodyOnlyAllows "certs"))
  | SBlock name id body p =>
      if negb (id =s "") then Err (Err_at path p (NoIdentifierIn "cert"))
      else
        let? (entry, saw) := loop certStep (default emptyCert (certs !! name), false) body in
        if External entry && saw then Err (Err_at path p (ExternalCombined name))
        else Ok (<[name := entry]> certs)
  end.
Definition applyManifestCertsBlock (m : Manifest) (id : string) (body : list Stmt) (p : Pos) : result Error Manifest :=
  if negb (id =s "") then Err (Err_at path p (NoIdentifierIn "certs"))
  else let? certs := loop certsStep (mCerts m) body in Ok (set_mCerts m certs).

(** *** Hooks *)

Definition configStep (config : gmap string ConfigValue) (stmt : Stmt) : result Error (gmap string ConfigValue) :=
  match stmt with
  | SBlock _ _ _ p => Err (Err_at path p (BodyOnlyAllows "config"))
  | SCall c =>
      match CallArgs c with
      | [v] =>
          match v with
          | StringLit s _ => Ok (<[CallName c := CfgString s]> config)
          | NumberLit t n is_float _ => Ok (<[CallName c := if is_float then CfgFloat t else CfgInt n]> config)
          | BoolLit b _ => Ok (<[CallName c := CfgBool b]> config)
          | _ => let? s := AsString v path in Ok (<[CallName c := CfgString s]> config)
          end
      | _ => Err (Err_at path (CallPos c) (ConfigOneValue (CallName c)))
      end
  end.
Definition demandsStep (d : HookDemands) (stmt : Stmt) : result Error HookDemands :=
  match stmt with
  | SCall c =>
      if CallName c =s "job" then string_field path c (set_dJob d)
      else if CallName c =s "hook" then string_field path c (set_dHook d)
      else Err (UnknownSetting path (CallPos c) (CallName c) ["job"; "hook"; "config"]).1
  | SBlock name id body p =>
      if negb (name =s "config") then Err (UnknownSetting path p name ["job"; "hook"; "config"]).1
      else if negb (id =s "") then Err (Err_at path p (NoIdentifierIn "config"))
      else let? config := loop configStep (dConfig d) body in Ok (set_dConfig d config)
  end.
Definition applyManifestDemandsBlock (h : Hook) (body : list Stmt) : result Error Hook :=
  let? d := loop demandsStep (hDemands h) body in Ok (set_hDemands h d).

Definition hookFields : list string := ["executed_on"; "description"; "demands"; "schedule"].
Definition hookStep (h : Hook) (stmt : Stmt) : result Error Hook :=
  match stmt with
  | SCall c =>
      if CallName c =s "executed_on" then strings_field path c (set_hExecutedOn h)
      else if CallName c =s "description" then string_field path c (set_hDescription h)
      else Err (UnknownSetting path (CallPos c) (CallName c) hookFields).1
  | SBlock name id body p =>
      if name =s "schedule" then let? sched := ParseBlock path body in Ok (set_hSchedule h (Some sched))
      else if name =s "demands" then
        if negb (id =s "") then Err (Err_at path p (NoIdentifierIn "demands")) else applyManifestDemandsBlock h body
      else Err (Err_at path p (UnexpectedBlock name "hook"))
  end.
Definition emptyHook (name : string) : Hook := mkHook name [] "" None (mkDemands "" "" ∅).
Definition applyManifestHook (m : Manifest) (id : string) (body : list Stmt) (p : Pos) : result Error Manifest :=
  if id =s "" then Err (Err_at path p HookNameRequired)
  else let? h := loop hookStep (emptyHook id) body in Ok (set_mHooks m (<[id := h]> (mHooks m))).

(** *** The file *)

Definition manifestStep (m : Manifest) (stmt : Stmt) : result Error Manifest :=
  match stmt with
  | SCall c =>
      let n := CallName c in
      if (n =s "resources") || (n =s "health_check") || (n =s "certs") then Err (Err_at path (CallPos c) (UseBlockForm n))
      else applyManifestCall m c
  | SBlock name id body p =>
      if name =s "hook" then applyManifestHook m id body p
      else if name =s "resources" then applyManifestResourcesBlock m id body p
      else if name =s "health_check" then applyManifestHealthCheckBlock m id body p
      else if name =s "certs" then applyManifestCertsBlock m id body p
      else Err (Err_at path p (UnexpectedBlock name "manifest"))
  end.
End lower.

Definition lowerManifestFile `{Unicode} (f : File) : result Error Manifest :=
  match Blocks (Some f) "job" with
  | b :: _ => Err (Err_at (FilePath f) (StmtPos b) NoJobWrapper)
  | [] => loop (manifestStep (FilePath f)) emptyManifest (Stmts f)
  end.
Definition ParseJobConf `{Unicode} `{FloatText} (filePath data : string) : result failure Manifest :=
  match Parse filePath data with
  | Err e => Err e
  | Ok f => match lowerManifestFile f with Err e => Err (Diag e) | Ok m => Ok m end
  end.

(** ** Emission *)

Definition emitMinMaxBlock (name min max : string) : Stmt := Block name "" (call_string "min" min ++ call_string "max" max).
Definition emitPortBlock (name : string) (b : ManifestPortBinding) : Stmt :=
  Block name ""
    (match Fixed b with
     | Some n =>
         if (Protocol b =s DefaultPortProtocol) && (Exposure b =s DefaultPortExposure) then [SCall (CallStmtInt "port" n)]
         else (if Protocol b =s DefaultPortProtocol then [] else call_string "protocol" (Protocol b))
              ++ (if Exposure b =s DefaultPortExposure then [] else call_string "exposure" (Exposure b))
              ++ [SCall (CallStmtInt "port" n)]
     | None =>
         (if Protocol b =s DefaultPortProtocol then [] else call_string "protocol" (Protocol b))
         ++ (if Exposure b =s DefaultPortExposure then [] else call_string "exposure" (Exposure b))
     end).
Definition emitPort (ports : ManifestPorts) (name : string) : list Stmt :=
  match ports !! name with Some b => [emitPortBlock name b] | None => [] end.
Definition resourcesStmts (r : Resources) : list Stmt :=
  (if (MemMin r =s "") && (MemMax r =s "") then [] else [emitMinMaxBlock "memory" (MemMin r) (MemMax r)])
  ++ (if (CpuMin r =s "") && (CpuMax r =s "") then [] else [emitMinMaxBlock "cpu" (CpuMin r) (CpuMax r)])
  ++ call_int "cpu_shares" (CPUShares r)
  ++ unless_empty "ports" (flat_map (emitPort (rPorts r)) (Names (rPorts r))).
Definition emitResourcesBlock (m : Manifest) : list Stmt := unless_empty "resources" (resourcesStmts (mResources m)).

Definition emitHealthCheckWaitBlock (w : HealthCheckWait) : Stmt :=
  Block "wait" "" (call_int "attempts" (Attempts w) ++ call_int "interval_seconds" (IntervalSeconds w)).
Definition emitHealthCheckProbeBlock (probe : HealthCheckProbe) : Stmt :=
  Block (pType probe) ""
    (call_string "port" (pPort probe) ++ call_string "path" (pPath probe) ++ call_string "command" (pCommand probe)
     ++ call_int "expect_status" (ExpectStatus probe) ++ call_string "scheme" (pScheme probe)).
Definition emitWaitOpt (w : option HealthCheckWait) : list Stmt :=
  match w with Some w => [emitHealthCheckWaitBlock w] | None => [] end.
Definition emitHealthCheckKindBlock (name : string) (kind : HealthCheckKind) : Stmt :=
  Block name "" (emitWaitOpt (kWait kind) ++ flat_map (fun p => [emitHealthCheckProbeBlock p]) (kChecks kind)).
Definition emitKindOpt (name : string) (k : option HealthCheckKind) : list Stmt :=
  match k with Some k => [emitHealthCheckKindBlock name k] | None => [] end.
Definition emitHealthCheckBlock (hc : ManifestHealthCheck) : Stmt :=
  Block "health_check" ""
    (call_int "timeout_seconds" (TimeoutSeconds hc) ++ emitWaitOpt (hcWait hc)
     ++ emitKindOpt "liveness" (Liveness hc) ++ emitKindOpt "readiness" (Readiness hc)).

Definition emitCertSubjectBlock (s : CertSubject) : list Stmt :=
  unless_empty "subject"
    (call_string "common_name" (CommonName s) ++ call_string "organization" (Organization s)
     ++ call_string "organizational_unit" (OrganizationalUnit s) ++ call_string "country" (Country s)
     ++ call_string "province" (Province s) ++ call_string "locality" (Locality s)).
Definition emitCert (certs : gmap string ManifestCert) (name : string) : list Stmt :=
  match certs !! name with
  | None => []
  | Some entry =>
      [Block name ""
         (if External entry then [SCall (CallStmtBool "external" true)]
          else [SCall (CallStmtBool "pkcs8" (PKCS8 entry))] ++ [SCall (CallStmtBool "one" (One entry))]
               ++ emitCertSubjectBlock (Subject entry))]
  end.
Definition emitCertsBlock (m : Manifest) : list Stmt :=
  unless_empty "certs" (flat_map (emitCert (mCerts m)) (sortedKeys (mCerts m))).

(** [fmt.Sprint] of a configuration value; that of a float is an argument. *)
Section sprint.
Context (SprintFloat : string -> string).
Definition Sprint (v : ConfigValue) : string :=
  match v with CfgString s => s | CfgFloat t => SprintFloat t | CfgInt z => Itoa z | CfgBool b => if b then "true" else "false" end.
Definition emitConfig (config : gmap string ConfigValue) (k : string) : list Stmt :=
  match config !! k with Some v => [SCall (CallStmt k [Sprint v])] | None => [] end.
Definition emitDemandsBlock (d : HookDemands) : Stmt :=
  Block "demands" ""
    (call_string "job" (dJob d) ++ call_string "hook" (dHook d)
     ++ unless_empty "config" (flat_map (emitConfig (dConfig d)) (sortedKeys (dConfig d)))).
Definition emitHook (hooks : gmap string Hook) (name : string) : list Stmt :=
  match hooks !! name with
  | None => []
  | Some h =>
      [Block "hook" name
         (call_strings "executed_on" (hExecutedOn h) ++ call_string "description" (hDescription h)
          ++ (match hSchedule h with Some sched => [EmitBlock sched] | None => [] end)
          ++ (if (dJob (hDemands h) =s "") && (dHook (hDemands h) =s "") && bool_decide (dConfig (hDemands h) = ∅) then []
              else [emitDemandsBlock (hDemands h)]))]
  end.
Definition manifestStmts (m : Manifest) : list Stmt :=
  call_string "version" (mVersion m)
  ++ call_string "description" (mDescription m)
  ++ call_strings "selectors" (mSelectors m)
  ++ call_int "deployment_priority" (DeploymentPriority m)
  ++ call_int "max_concurrent_restarts" (MaxConcurrentRestarts m)
  ++ call_int "max_concurrent_starts" (MaxConcurrentStarts m)
  ++ call_int "max_concurrent_stops" (MaxConcurrentStops m)
  ++ call_int "min_allocations_count" (MinAllocationsCount m)
  ++ call_string "restart_policy" (RestartPolicy m)
  ++ call_strings "restart_globs" (RestartGlobs m)
  ++ call_strings "reload_globs" (ReloadGlobs m)
  ++ call_strings "backward_compatibility_from" (BackwardCompatibilityFrom m)
  ++ (if AllowRollback m then [SCall (CallStmtBool "allow_rollback" true)] else [])
  ++ emitResourcesBlock m
  ++ (match mHealthCheck m with Some hc => [emitHealthCheckBlock hc] | None => [] end)
  ++ emitCertsBlock m
  ++ flat_map (emitHook (mHooks m)) (sortedKeys (mHooks m)).
Definition manifestFile (m : Manifest) : File := mkFile "" 0 (manifestStmts m).
Definition EmitJobConf (m : Manifest) : string := Emit (manifestFile m) (mkEmitOptions "").
End sprint.
