(* ===== verification/JobConfFacts.v ===== *)
(** * job.conf: what is written is read back

    Each block that [EmitJobConf] writes is read back by the block's parser;
    with the round trip of the conf package this gives the round trip of the
    file. *)
From S2P Require Import Prelude GoStrings ConfSyntax ConfEmit ConfHelpers ConfLexer ConfParser ConfRoundtrip ConfLower.
From S2P Require Import Ports Schedule ScheduleConf JobConf.
Open Scope Z_scope.

Section reads.
Context `{Unicode} (path : string).

(** ** Health checks *)

Definition wait_ok (w : HealthCheckWait) : bool := readable_int (Attempts w) && readable_int (IntervalSeconds w).
Lemma wait_reads w : wait_ok w = true ->
  reads (waitStep path) (mkWait 0 0) (call_int "attempts" (Attempts w) ++ call_int "interval_seconds" (IntervalSeconds w)) w.
Proof.
  unfold wait_ok. rewrite andb_true_iff. destruct w as [a i]. cbn [Attempts IntervalSeconds]. intros [Ha Hi].
  read_field (reads_int (waitStep path) path "attempts" a _ (set_Attempts (mkWait 0 0))).
  by apply (reads_int (waitStep path) path "interval_seconds" i _ (set_IntervalSeconds (mkWait a 0))).
Qed.

Definition probe_ok (p : HealthCheckProbe) : bool := is_probe (pType p) && readable_int (ExpectStatus p).
Lemma probe_reads p : probe_ok p = true ->
  reads (probeStep path (pType p)) (mkProbe (pType p) "" "" "" 0 "")
    (call_string "port" (pPort p) ++ call_string "path" (pPath p) ++ call_string "command" (pCommand p)
     ++ call_int "expect_status" (ExpectStatus p) ++ call_string "scheme" (pScheme p)) p.
Proof.
  unfold probe_ok. rewrite andb_true_iff. destruct p as [ty po pa co es sc].
  cbn [pType pPort pPath pCommand ExpectStatus pScheme]. intros [_ He]. set (step := probeStep path ty).
  read_field (reads_string step path "port" po _ (set_pPort (mkProbe ty "" "" "" 0 ""))).
  read_field (reads_string step path "path" pa _ (set_pPath (mkProbe ty po "" "" 0 ""))).
  read_field (reads_string step path "command" co _ (set_pCommand (mkProbe ty po pa "" 0 ""))).
  read_field (reads_int step path "expect_status" es _ (set_ExpectStatus (mkProbe ty po pa co 0 ""))).
  by apply (reads_string step path "scheme" sc _ (set_pScheme (mkProbe ty po pa co es ""))).
Qed.

Definition wait_opt_ok (w : option HealthCheckWait) : bool := match w with Some w => wait_ok w | None => true end.
Definition kind_ok (k : HealthCheckKind) : bool := forallb probe_ok (kChecks k) && wait_opt_ok (kWait k).
Lemma kind_reads name k : kind_ok k = true ->
  reads (kindStep path name) (mkKind [] None)
    (emitWaitOpt (kWait k) ++ flat_map (fun p => [emitHealthCheckProbeBlock p]) (kChecks k)) k.
Proof.
  unfold kind_ok. rewrite andb_true_iff, forallb_forall. destruct k as [checks w]. cbn [kChecks kWait]. intros [Hc Hw].
  apply (reads_app _ _ (mkKind [] w)).
  - destruct w as [w|]; [|apply reads_nil]. apply reads_block. intros body p Hb. cbn -[parseHealthCheckWaitBlock].
    unfold parseHealthCheckWaitBlock. cbn [String.eqb negb]. by rewrite (wait_reads w Hw body Hb).
  - apply (reads_list (kindStep path name) (fun l => mkKind l w) (fun p => [emitHealthCheckProbeBlock p]) checks []).
    intros x pre Hx. assert (Hok : probe_ok x = true) by (apply Hc; by apply list_elem_of_In).
    apply reads_block. intros body p Hb. unfold kindStep. cbn [String.eqb negb].
    assert (Hp : is_probe (pType x) = true) by (unfold probe_ok in Hok; by apply andb_true_iff in Hok as [? _]).
    assert (Hw' : (pType x =s "wait") = false) by (unfold is_probe in Hp; destruct (String.eqb_spec (pType x) "wait") as [E|]; [by rewrite E in Hp|done]).
    rewrite Hw', Hp. unfold parseHealthCheckProbeBlock. cbn [String.eqb negb]. by rewrite (probe_reads x Hok body Hb).
Qed.

Definition kind_opt_ok (k : option HealthCheckKind) : bool := match k with Some k => kind_ok k | None => true end.
Definition health_ok (hc : ManifestHealthCheck) : bool :=
  readable_int (TimeoutSeconds hc) && wait_opt_ok (hcWait hc) && kind_opt_ok (Liveness hc) && kind_opt_ok (Readiness hc)
  && match hcChecks hc with [] => true | _ => false end.
Lemma health_reads hc : health_ok hc = true ->
  reads (healthCheckStep path) emptyHealthCheck
    (call_int "timeout_seconds" (TimeoutSeconds hc) ++ emitWaitOpt (hcWait hc)
     ++ emitKindOpt "liveness" (Liveness hc) ++ emitKindOpt "readiness" (Readiness hc)) hc.
Proof.
  unfold health_ok. rewrite !andb_true_iff. destruct hc as [li re ch t w]. cbn [TimeoutSeconds hcWait Liveness Readiness hcChecks].
  intros [[[[Ht Hw] Hl] Hr] Hc]. destruct ch; [|done].
  read_field (reads_int (healthCheckStep path) path "timeout_seconds" t _ (set_TimeoutSeconds emptyHealthCheck)).
  apply (reads_app _ _ (mkHealthCheck None None [] t w)).
  { destruct w as [w|]; [|apply reads_nil]. apply reads_block. intros body p Hb. cbn -[parseHealthCheckWaitBlock].
    unfold parseHealthCheckWaitBlock. cbn [String.eqb negb]. by rewrite (wait_reads w Hw body Hb). }
  apply (reads_app _ _ (mkHealthCheck li None [] t w)).
  { destruct li as [k|]; [|apply reads_nil]. apply reads_block. intros body p Hb. cbn -[parseHealthCheckKindBlock].
    unfold parseHealthCheckKindBlock. cbn [String.eqb negb]. by rewrite (kind_reads "liveness" k Hl body Hb). }
  destruct re as [k|]; [|apply reads_nil]. apply reads_block. intros body p Hb. cbn -[parseHealthCheckKindBlock].
  unfold parseHealthCheckKindBlock. cbn [String.eqb negb]. by rewrite (kind_reads "readiness" k Hr body Hb).
Qed.

(** ** Ports and resources *)

Definition normal_port (b : ManifestPortBinding) : Prop :=
  NormalizePortProtocol (Protocol b) = Ok (Protocol b) /\ NormalizePortExposure (Exposure b) = Ok (Exposure b).
Definition port_ok (name : string) (b : ManifestPortBinding) : Prop :=
  ValidatePortKey name = None /\ normal_port b /\ match Fixed b with Some n => readable_int n = true | None => True end.

Lemma protocol_reads name fx pr ex : NormalizePortProtocol pr = Ok pr ->
  reads (portStep path name) (mkBinding fx DefaultPortProtocol ex)
    (if pr =s DefaultPortProtocol then [] else call_string "protocol" pr) (mkBinding fx pr ex).
Proof.
  intros Hn. destruct (String.eqb_spec pr DefaultPortProtocol) as [->|Hd]; [apply reads_nil|].
  unfold call_string. destruct (String.eqb_spec pr "") as [->|_]; [done|]. apply reads_call.
  intros args p t (v & -> & Hv)%same_value. destruct v as [| | | |[]]; cbn in Hv; try done. injection Hv as ->.
  cbn -[NormalizePortProtocol]. by rewrite Hn.
Qed.
Lemma exposure_reads name fx pr ex : NormalizePortExposure ex = Ok ex ->
  reads (portStep path name) (mkBinding fx pr DefaultPortExposure)
    (if ex =s DefaultPortExposure then [] else call_string "exposure" ex) (mkBinding fx pr ex).
Proof.
  intros Hn. destruct (String.eqb_spec ex DefaultPortExposure) as [->|Hd]; [apply reads_nil|].
  unfold call_string. destruct (String.eqb_spec ex "") as [->|_]; [done|]. apply reads_call.
  intros args p t (v & -> & Hv)%same_value. destruct v as [| | | |[]]; cbn in Hv; try done. injection Hv as ->.
  cbn -[NormalizePortExposure]. by rewrite Hn.
Qed.
Lemma fixed_reads name n pr ex : readable_int n = true ->
  reads (portStep path name) (mkBinding None pr ex) [SCall (CallStmtInt "port" n)] (mkBinding (Some n) pr ex).
Proof. intros Hn. by apply (reads_int_always (portStep path name) path "port" n _ (fun n => mkBinding (Some n) pr ex)). Qed.

Lemma port_reads name b : port_ok name b ->
  reads (portStep path name) (mkBinding None DefaultPortProtocol DefaultPortExposure) (blockBody (emitPortBlock name b)) b.
Proof.
  intros (_ & [Hp He] & Hf). destruct b as [[n|] pr ex]; cbn [Fixed Protocol Exposure emitPortBlock Block blockBody] in *.
  - destruct ((pr =s DefaultPortProtocol) && (ex =s DefaultPortExposure)) eqn:E.
    + apply andb_true_iff in E as [->%String.eqb_eq ->%String.eqb_eq]. by apply fixed_reads.
    + eapply reads_app; [by apply protocol_reads|]. eapply reads_app; [by apply exposure_reads|by apply fixed_reads].
  - eapply reads_app; [by apply protocol_reads|by apply exposure_reads].
Qed.
Lemma ports_reads ports : (forall name b, ports !! name = Some b -> port_ok name b) ->
  reads (portsStep path) ∅ (flat_map (emitPort ports) (Names ports)) ports.
Proof.
  intros Hok. apply (reads_keys (portsStep path) ports (fun p => p)). intros name b acc Hb Hacc. unfold emitPort. rewrite Hb.
  pose proof (Hok name b Hb) as Hpo. pose proof (port_reads name b Hpo) as Hr. destruct Hpo as [Hkey _].
  apply reads_block. intros body p Hs. unfold portsStep. cbn [String.eqb negb]. unfold applyManifestPortBlock. rewrite Hkey.
  by rewrite (Hr body Hs).
Qed.

Lemma minmax_reads name mn mx :
  reads (minMaxStep path name) ("", "") (call_string "min" mn ++ call_string "max" mx) (mn, mx).
Proof.
  read_field (reads_string (minMaxStep path name) path "min" mn _ (fun s => (s, ""))).
  by apply (reads_string (minMaxStep path name) path "max" mx _ (fun s => (mn, s))).
Qed.

Definition resources_ok (r : Resources) : Prop :=
  readable_int (CPUShares r) = true /\ forall name b, rPorts r !! name = Some b -> port_ok name b.
Lemma resources_reads r : resources_ok r -> reads (resourcesStep path) emptyResources (resourcesStmts r) r.
Proof.
  destruct r as [mmin mmax cmin cmax sh ports]. unfold resources_ok. cbn [CPUShares rPorts]. intros [Hsh Hports].
  unfold resourcesStmts. cbn [MemMin MemMax CpuMin CpuMax CPUShares rPorts].
  apply (reads_app _ _ (mkResources mmin mmax "" "" 0 ∅)).
  { destruct ((mmin =s "") && (mmax =s "")) eqn:E; [apply andb_true_iff in E as [->%String.eqb_eq ->%String.eqb_eq]; apply reads_nil|].
    apply reads_block. intros body p Hb. cbn -[minMaxFromBlock]. unfold minMaxFromBlock. by rewrite (minmax_reads "memory" mmin mmax body Hb). }
  apply (reads_app _ _ (mkResources mmin mmax cmin cmax 0 ∅)).
  { destruct ((cmin =s "") && (cmax =s "")) eqn:E; [apply andb_true_iff in E as [->%String.eqb_eq ->%String.eqb_eq]; apply reads_nil|].
    apply reads_block. intros body p Hb. cbn -[minMaxFromBlock]. unfold minMaxFromBlock. by rewrite (minmax_reads "cpu" cmin cmax body Hb). }
  read_field (reads_int (resourcesStep path) path "cpu_shares" sh _ (set_CPUShares (mkResources mmin mmax cmin cmax 0 ∅))).
  pose proof (ports_reads ports Hports) as Hr. apply reads_unless_empty.
  - intros He. rewrite He in Hr. specialize (Hr [] eq_refl). injection Hr as <-. done.
  - intros _. apply reads_block. intros body p Hb. cbn -[applyManifestPortsBlock]. unfold applyManifestPortsBlock. cbn [String.eqb negb rPorts set_CPUShares].
    by rewrite (Hr body Hb).
Qed.

(** ** Certificates *)

(** An external certificate has nothing else. *)
Definition cert_ok (entry : ManifestCert) : Prop := External entry = true -> entry = mkCert true false false emptySubject.

Lemma subject_reads s : reads (subjectStep path) emptySubject
  (call_string "common_name" (CommonName s) ++ call_string "organization" (Organization s)
   ++ call_string "organizational_unit" (OrganizationalUnit s) ++ call_string "country" (Country s)
   ++ call_string "province" (Province s) ++ call_string "locality" (Locality s)) s.
Proof.
  destruct s as [cn o ou c pr l]. cbn [CommonName Organization OrganizationalUnit Country Province Locality].
  read_field (reads_string (subjectStep path) path "common_name" cn _ (set_CommonName emptySubject)).
  read_field (reads_string (subjectStep path) path "organization" o _ (set_Organization (mkSubject cn "" "" "" "" ""))).
  read_field (reads_string (subjectStep path) path "organizational_unit" ou _ (set_OrganizationalUnit (mkSubject cn o "" "" "" ""))).
  read_field (reads_string (subjectStep path) path "country" c _ (set_Country (mkSubject cn o ou "" "" ""))).
  read_field (reads_string (subjectStep path) path "province" pr _ (set_Province (mkSubject cn o ou c "" ""))).
  by apply (reads_string (subjectStep path) path "locality" l _ (set_Locality (mkSubject cn o ou c pr ""))).
Qed.

Lemma cert_reads entry : cert_ok entry -> exists saw,
  External entry && saw = false /\
  reads (certStep path) (emptyCert, false)
    (if External entry then [SCall (CallStmtBool "external" true)]
     else [SCall (CallStmtBool "pkcs8" (PKCS8 entry))] ++ [SCall (CallStmtBool "one" (One entry))] ++ emitCertSubjectBlock (Subject entry))
    (entry, saw).
Proof.
  unfold cert_ok. destruct entry as [ext pk one subj]. cbn [External PKCS8 One Subject]. intros Hok. destruct ext.
  - rewrite Hok by done. exists false. split; [done|].
    by apply (reads_bool (certStep path) path "external" true _ (fun v => (set_External emptyCert v, false))).
  - exists true. split; [done|].
    read_field (reads_bool (certStep path) path "pkcs8" pk _ (fun v => (set_PKCS8 emptyCert v, true))).
    read_field (reads_bool (certStep path) path "one" one _ (fun v => (set_One (mkCert false pk false emptySubject) v, true))).
    pose proof (subject_reads subj) as Hs. apply reads_unless_empty.
    + intros He. rewrite He in Hs. specialize (Hs [] eq_refl). injection Hs as <-. done.
    + intros _. apply reads_block. intros body p Hb. cbn -[parseCertSubjectBlock]. unfold parseCertSubjectBlock. cbn [String.eqb negb].
      by rewrite (Hs body Hb).
Qed.
Lemma certs_reads certs : (forall name entry, certs !! name = Some entry -> cert_ok entry) ->
  reads (certsStep path) ∅ (flat_map (emitCert certs) (sortedKeys certs)) certs.
Proof.
  intros Hok. apply (reads_keys (certsStep path) certs (fun c => c)). intros name entry acc He Hacc. unfold emitCert. rewrite He.
  destruct (cert_reads entry (Hok _ _ He)) as (saw & Hsaw & Hr). apply reads_block. intros body p Hb.
  unfold certsStep. cbn [String.eqb negb]. rewrite Hacc. cbn [default]. rewrite (Hr body Hb). cbn [rbind]. by rewrite Hsaw.
Qed.

(** ** Hooks *)

Definition is_text (v : ConfigValue) : Prop := match v with CfgString _ => True | _ => False end.
Definition demands_ok (d : HookDemands) : Prop := forall k v, dConfig d !! k = Some v -> is_text v.
Definition hook_ok (name : string) (h : Hook) : Prop :=
  hName h = name /\ name <> "" /\ demands_ok (hDemands h)
  /\ match hSchedule h with Some s => schedule_printable s = true | None => True end.
Context (SprintFloat : string -> string).

Lemma config_reads config : (forall k v, config !! k = Some v -> is_text v) ->
  reads (configStep path) ∅ (flat_map (emitConfig SprintFloat config) (sortedKeys config)) config.
Proof.
  intros Hok. apply (reads_keys (configStep path) config (fun c => c)). intros k v acc Hv Hacc. unfold emitConfig. rewrite Hv.
  pose proof (Hok k v Hv) as Ht. destruct v as [s| | |]; try done. apply reads_call.
  intros args p t (w & -> & Hw)%same_value. destruct w as [| | | |[]]; cbn in Hw; try done. injection Hw as ->. done.
Qed.
Lemma demands_reads d : demands_ok d ->
  reads (demandsStep path) (mkDemands "" "" ∅)
    (call_string "job" (dJob d) ++ call_string "hook" (dHook d)
     ++ unless_empty "config" (flat_map (emitConfig SprintFloat (dConfig d)) (sortedKeys (dConfig d)))) d.
Proof.
  unfold demands_ok. destruct d as [j h config]. cbn [dJob dHook dConfig]. intros Hok.
  read_field (reads_string (demandsStep path) path "job" j _ (set_dJob (mkDemands "" "" ∅))).
  read_field (reads_string (demandsStep path) path "hook" h _ (set_dHook (mkDemands j "" ∅))).
  pose proof (config_reads config Hok) as Hr. apply reads_unless_empty.
  - intros He. rewrite He in Hr. specialize (Hr [] eq_refl). injection Hr as <-. done.
  - intros _. apply reads_block. intros body p Hb. cbn -[loop]. by rewrite (Hr body Hb).
Qed.

Lemma hook_reads hooks name h : hooks !! name = Some h -> hook_ok name h -> forall m,
  reads (manifestStep path) m (emitHook SprintFloat hooks name) (set_mHooks m (<[name := h]> (mHooks m))).
Proof.
  intros Hh (Hname & Hne & Hd & Hs) m. unfold emitHook. rewrite Hh. apply reads_block. intros body p Hb.
  unfold manifestStep. cbn [String.eqb Ascii.eqb Bool.eqb]. unfold applyManifestHook.
  destruct (String.eqb_spec name "") as [?|_]; [done|]. cut (loop (hookStep path) (emptyHook name) body = Ok h); [by intros ->|].
  revert body Hb. clear Hh. destruct h as [hn ons desc sched d]. cbn [hName hExecutedOn hDescription hSchedule hDemands] in *. subst hn.
  match goal with |- forall b, same b ?e -> loop ?step ?st b = Ok ?st' => change (reads step st e st') end.
  read_field (reads_strings (hookStep path) path "executed_on" ons _ (set_hExecutedOn (emptyHook name))).
  read_field (reads_string (hookStep path) path "description" desc _ (set_hDescription (mkHook name ons "" None (mkDemands "" "" ∅)))).
  apply (reads_app _ _ (mkHook name ons desc sched (mkDemands "" "" ∅))).
  - destruct sched as [sched|]; [|apply reads_nil]. apply reads_block. intros body q Hb. cbn -[ParseBlock]. unfold ParseBlock.
    by rewrite (schedule_reads path sched Hs body Hb).
  - pose proof (demands_reads d Hd) as Hr. destruct (_ && bool_decide (dConfig d = ∅)) eqn:E.
    + destruct d as [j k c]. cbn [dJob dHook dConfig] in E. apply andb_true_iff in E as [[->%String.eqb_eq ->%String.eqb_eq]%andb_true_iff ->%bool_decide_eq_true].
      apply reads_nil.
    + apply reads_block. intros body q Hb. cbn -[applyManifestDemandsBlock]. unfold applyManifestDemandsBlock. cbn [hDemands].
      by rewrite (Hr body Hb).
Qed.
End reads.

(** ** The whole file *)

Section file.
Context `{Unicode} `{FloatText} (SprintFloat : string -> string).

(** A manifest that the text can hold: integers that [AsInt] reads back (-1
    and up), normalised ports, hooks under their own name with configuration
    values that are strings, and no legacy probe list. *)
Record manifest_ok (m : Manifest) : Prop := {
  ok_ints : forallb readable_int
    [DeploymentPriority m; MaxConcurrentRestarts m; MaxConcurrentStarts m; MaxConcurrentStops m; MinAllocationsCount m] = true;
  ok_resources : resources_ok (mResources m);
  ok_health : match mHealthCheck m with Some hc => health_ok hc = true | None => True end;
  ok_certs : forall name entry, mCerts m !! name = Some entry -> cert_ok entry;
  ok_hooks : forall name h, mHooks m !! name = Some h -> hook_ok name h;
}.

Lemma manifest_blocks_read path m : manifest_ok m -> forall m0,
  mResources m0 = emptyResources -> mHealthCheck m0 = None -> mCerts m0 = ∅ -> mHooks m0 = ∅ ->
  reads (manifestStep path) m0
    (emitResourcesBlock m ++ (match mHealthCheck m with Some hc => [emitHealthCheckBlock hc] | None => [] end)
     ++ emitCertsBlock m ++ flat_map (emitHook SprintFloat (mHooks m)) (sortedKeys (mHooks m)))
    (set_mHooks (set_mCerts (set_mHealthCheck (set_mResources m0 (mResources m)) (mHealthCheck m)) (mCerts m)) (mHooks m)).
Proof.
  intros [_ Hres Hhc Hcerts Hhooks] [v d s dp r h c hc x1 x2 x3 x4 rp rg lg bc ar]. cbn [mResources mHealthCheck mCerts mHooks].
  intros -> -> -> ->. apply (reads_app _ _ (mkManifest v d s dp (mResources m) ∅ ∅ None x1 x2 x3 x4 rp rg lg bc ar)).
  { pose proof (resources_reads path _ Hres) as Hr. apply reads_unless_empty.
    - intros He. rewrite He in Hr. specialize (Hr [] eq_refl). injection Hr as <-. reflexivity.
    - intros _. apply reads_block. intros body p Hb. unfold manifestStep. cbn [String.eqb Ascii.eqb Bool.eqb].
      unfold applyManifestResourcesBlock. cbn [String.eqb negb mResources]. by rewrite (Hr body Hb). }
  apply (reads_app _ _ (mkManifest v d s dp (mResources m) ∅ ∅ (mHealthCheck m) x1 x2 x3 x4 rp rg lg bc ar)).
  { destruct (mHealthCheck m) as [hc'|]; [|apply reads_nil]. apply reads_block. intros body p Hb. unfold manifestStep.
    cbn [String.eqb Ascii.eqb Bool.eqb]. unfold applyManifestHealthCheckBlock. cbn [String.eqb negb].
    by rewrite (health_reads path hc' Hhc body Hb). }
  apply (reads_app _ _ (mkManifest v d s dp (mResources m) ∅ (mCerts m) (mHealthCheck m) x1 x2 x3 x4 rp rg lg bc ar)).
  { pose proof (certs_reads path _ Hcerts) as Hr. apply reads_unless_empty.
    - intros He. rewrite He in Hr. specialize (Hr [] eq_refl). injection Hr as <-. reflexivity.
    - intros _. apply reads_block. intros body p Hb. unfold manifestStep. cbn [String.eqb Ascii.eqb Bool.eqb].
      unfold applyManifestCertsBlock. cbn [String.eqb negb mCerts set_mHealthCheck set_mResources]. by rewrite (Hr body Hb). }
  apply (reads_keys (manifestStep path) (mHooks m) (fun hooks => mkManifest v d s dp (mResources m) hooks (mCerts m) (mHealthCheck m) x1 x2 x3 x4 rp rg lg bc ar)).
  intros name hk acc Hh _. exact (hook_reads path SprintFloat (mHooks m) name hk Hh (Hhooks _ _ Hh) (mkManifest v d s dp (mResources m) acc (mCerts m) (mHealthCheck m) x1 x2 x3 x4 rp rg lg bc ar)).
Qed.

Lemma manifest_reads path m : manifest_ok m -> reads (manifestStep path) emptyManifest (manifestStmts SprintFloat m) m.
Proof.
  intros Hok. pose proof (ok_ints m Hok) as Hints. cbn [forallb] in Hints. rewrite !andb_true_iff in Hints.
  destruct Hints as (H1 & H2 & H3 & H4 & H5 & _). pose proof (manifest_blocks_read path m Hok) as Hblocks. clear Hok.
  destruct m as [v d s dp r h c hc x1 x2 x3 x4 rp rg lg bc ar]. unfold manifestStmts. cbn -[call_string call_strings call_int flat_map] in *.
  set (mk := fun v d s dp x1 x2 x3 x4 rp rg lg bc ar => mkManifest v d s dp emptyResources ∅ ∅ None x1 x2 x3 x4 rp rg lg bc ar).
  change emptyManifest with (mk "" "" [] 0 0 0 0 0 "" [] [] [] false). set (step := manifestStep path).
  read_field (reads_string step path "version" v _ (fun v => mk v "" [] 0 0 0 0 0 "" [] [] [] false)).
  read_field (reads_string step path "description" d _ (fun d => mk v d [] 0 0 0 0 0 "" [] [] [] false)).
  read_field (reads_strings step path "selectors" s _ (fun s => mk v d s 0 0 0 0 0 "" [] [] [] false)).
  read_field (reads_int step path "deployment_priority" dp _ (fun dp => mk v d s dp 0 0 0 0 "" [] [] [] false)).
  read_field (reads_int step path "max_concurrent_restarts" x1 _ (fun x1 => mk v d s dp x1 0 0 0 "" [] [] [] false)).
  read_field (reads_int step path "max_concurrent_starts" x2 _ (fun x2 => mk v d s dp x1 x2 0 0 "" [] [] [] false)).
  read_field (reads_int step path "max_concurrent_stops" x3 _ (fun x3 => mk v d s dp x1 x2 x3 0 "" [] [] [] false)).
  read_field (reads_int step path "min_allocations_count" x4 _ (fun x4 => mk v d s dp x1 x2 x3 x4 "" [] [] [] false)).
  read_field (reads_string step path "restart_policy" rp _ (fun rp => mk v d s dp x1 x2 x3 x4 rp [] [] [] false)).
  read_field (reads_strings step path "restart_globs" rg _ (fun rg => mk v d s dp x1 x2 x3 x4 rp rg [] [] false)).
  read_field (reads_strings step path "reload_globs" lg _ (fun lg => mk v d s dp x1 x2 x3 x4 rp rg lg [] false)).
  read_field (reads_strings step path "backward_compatibility_from" bc _ (fun bc => mk v d s dp x1 x2 x3 x4 rp rg lg bc false)).
  apply (reads_app _ _ (mk v d s dp x1 x2 x3 x4 rp rg lg bc ar)).
  { destruct ar; [|apply reads_nil]. by apply (reads_bool step path "allow_rollback" true _ (fun ar => mk v d s dp x1 x2 x3 x4 rp rg lg bc ar)). }
  exact (Hblocks (mk v d s dp x1 x2 x3 x4 rp rg lg bc ar) eq_refl eq_refl eq_refl eq_refl).
Qed.

(** No statement is a [job] block. *)
Definition not_job (s : Stmt) : bool := negb (isBlock s && bool_decide (blockName s = "job")).
Lemma not_job_erase s : not_job (erase_stmt s) = not_job s.
Proof. by destruct s as [|[]]. Qed.
Lemma no_job_blocks f l : same (Stmts f) l -> forallb not_job l = true -> Blocks (Some f) "job" = [].
Proof.
  unfold same, Blocks. cbn [fileStmts]. generalize (Stmts f). intros b. revert l.
  induction b as [|s b IH]; intros [|s' l]; cbn [map List.filter forallb]; try done. intros [= Hs Hl] [Hj Hn]%andb_true_iff.
  rewrite <- not_job_erase, <- Hs, not_job_erase in Hj. unfold not_job in Hj. apply negb_true_iff in Hj. rewrite Hj. by apply (IH l).
Qed.
Lemma flat_map_no_job {B} (e : B -> list Stmt) l : (forall x, forallb not_job (e x) = true) -> forallb not_job (flat_map e l) = true.
Proof. intros He. induction l as [|x l IH]; cbn; [done|]. by rewrite forallb_app, He, IH. Qed.
Lemma unless_empty_no_job name body : name <> "job" -> forallb not_job (unless_empty name body) = true.
Proof. intros Hn. destruct body; cbn; [done|]. unfold not_job. cbn. by rewrite bool_decide_eq_false_2. Qed.
Lemma manifest_no_job m : forallb not_job (manifestStmts SprintFloat m) = true.
Proof.
  unfold manifestStmts, call_string, call_int, call_strings. rewrite !forallb_app, !andb_true_iff.
  repeat match goal with |- _ /\ _ => split end; try (by case_match).
  - by apply unless_empty_no_job.
  - by apply unless_empty_no_job.
  - apply flat_map_no_job. intros x. unfold emitHook. by case_match.
Qed.

(** C18: Reading the job.conf that was written for a manifest gives the manifest
    back, for every manifest that the text can hold and whose text is within
    the parser's limits. *)
Theorem ParseJobConf_EmitJobConf fp m :
  manifest_ok m -> file_ok (manifestFile SprintFloat m) = true -> slen (EmitJobConf SprintFloat m) <= MaxSourceBytes ->
  ParseJobConf fp (EmitJobConf SprintFloat m) = Ok m.
Proof.
  intros Hok Hf Hl. destruct (Parse_Emit fp (manifestFile SprintFloat m) (mkEmitOptions "") Hf eq_refl Hl) as (f & Hp & Hfp & _ & Hs).
  unfold ParseJobConf, EmitJobConf. rewrite Hp. unfold lowerManifestFile.
  rewrite (no_job_blocks f _ Hs (manifest_no_job m)). by rewrite (manifest_reads (FilePath f) m Hok (Stmts f) Hs).
Qed.
End file.

(** ** A concrete manifest *)

Definition sample_manifest : Manifest :=
  mkManifest "1.2.0" "the api" ["web"; "eu"] 10
    (mkResources "64 mb" "128 mb" "" "500 mhz" 512
       (<["api_http_port" := mkBinding (Some 8080) "http" "public"]> (<["api_port" := mkBinding None "tcp" "cluster"]> ∅)))
    (<["hook_ready" := mkHook "hook_ready" ["start"] "" (Some (mkSchedule "UTC" [example_window]))
         (mkDemands "db" "up" (<["min_version" := CfgString "1.0"]> ∅))]> ∅)
    (<["tls" := mkCert true false false emptySubject]> (<["own" := mkCert false true false (mkSubject "api" "" "" "IN" "" "")]> ∅))
    (Some (mkHealthCheck None (Some (mkKind [mkProbe "http" "api_http_port" "/ok" "" 200 ""] (Some (mkWait 3 1)))) [] 30 None))
    1 2 0 (-1) "always" ["conf/*"] [] ["1.0.0"] true.

Example ParseJobConf_EmitJobConf_witness :
  ParseJobConf (H := ascii_unicode) (H0 := no_float) "job.conf" (EmitJobConf (fun t => t) sample_manifest) = Ok sample_manifest.
Proof.
  apply (ParseJobConf_EmitJobConf (H := ascii_unicode) (H0 := no_float)); [|vm_compute; reflexivity|vm_compute; congruence].
  constructor; [reflexivity| |reflexivity| |].
  - split; [reflexivity|]. intros name b. cbn. rewrite !lookup_insert_Some, lookup_empty.
    intros [[<- <-]|[_ [[<- <-]|[_ ?]]]]; [| |done]; split_and!; (reflexivity || split; reflexivity).
  - intros name e. cbn. rewrite !lookup_insert_Some, lookup_empty.
    intros [[<- <-]|[_ [[<- <-]|[_ ?]]]]; [by intros|by intros [=]|done].
  - intros name h. cbn. rewrite !lookup_insert_Some, lookup_empty. intros [[<- <-]|[_ ?]]; [|done].
    split_and!; [reflexivity|done| |reflexivity]. intros k v. cbn. rewrite !lookup_insert_Some, lookup_empty. intros [[<- <-]|[_ ?]]; done.
Defined.

(** ** What is not read back *)

Definition with_priority (z : Z) : Manifest := set_DeploymentPriority emptyManifest z.
(** A priority below -1 is written and then refused. *)
Theorem negative_priority_refused :
  ParseJobConf (H := ascii_unicode) (H0 := no_float) "job.conf" (EmitJobConf (fun t => t) (with_priority (-5)))
  = Err (Diag (Err_at "job.conf" (mkPos 1 21) IntegerOutOfRange)).
Proof. vm_compute. reflexivity. Qed.

Definition with_config (v : ConfigValue) : Manifest :=
  set_mHooks emptyManifest (<["h" := mkHook "h" [] "" None (mkDemands "db" "" (<["min_version" := v]> ∅))]> ∅).
(** A number of a hook's configuration comes back as a string. *)
Theorem config_number_becomes_string :
  ParseJobConf (H := ascii_unicode) (H0 := no_float) "job.conf" (EmitJobConf (fun t => t) (with_config (CfgInt 2)))
  = Ok (with_config (CfgString "2")).
Proof. vm_compute. reflexivity. Qed.

(** Two blocks of the same certificate: each is checked alone, the entry they
    build together is external and has a key format. *)
Definition split_cert : string :=
  "certs {" +:+ nl +:+ " tls { pkcs8(true) }" +:+ nl +:+ " tls { external(true) }" +:+ nl +:+ "}" +:+ nl.
Theorem split_cert_accepted :
  ParseJobConf (H := ascii_unicode) (H0 := no_float) "job.conf" split_cert
  = Ok (set_mCerts emptyManifest (<["tls" := mkCert true true false emptySubject]> ∅)).
Proof. vm_compute. reflexivity. Qed.
