(* ===== verification/KiveConf.v ===== *)
(** * bucket: kive.conf

    bucket/kive_conf_block.go with the settings it uses from bucket/config.go,
    bucket/bucket_conf.go, bucket/jobs_profile.go, bucket/ssh_key.go,
    bucket/job_signer.go and bucket/port_range.go. The file is read by
    [conf.Parse]; the error of [SanitizeJobsProfile], which has no position, is
    a diagnostic without one. [filepath] is that of Linux. *)
From S2P Require Import Prelude GoStrings ConfSyntax ConfEmit ConfHelpers ConfLexer ConfParser ConfLower Ports PathMatch Calendar Schedule.
Open Scope Z_scope.

Record KiveConf := mkKiveConf {
  UseSUDO : bool;
  SSHUser : string;
  SSHKeyFile : string;
  SSHPort : Z;
  StrictHostKeyChecking : string;
  LogFormat : string;
  LogRunRetentionCount : Z;
  LogRunRetentionDays : Z;
  BackupRetentionCount : Z;
  HealthWaitSeconds : Z;
  HealthPollIntervalSeconds : Z;
  MaxConcurrentSyncs : Z;
  PythonPath : string;
  JSPath : string;
  RubyPath : string;
  BashPath : string;
  JobSignerCA : string;
  JobSignerCATrust : list string;
  kPortRange : string;
  CertsTTL : Z;
  CertsRenewalBuffer : Z;
  Iptables : bool;
  JobsProfile : string;
  kTimezone : string;
  Promotion : bool;
  Observe : option bool;
}.
Definition emptyKiveConf : KiveConf :=
  mkKiveConf false "" "" 0 "" "" 0 0 0 0 0 0 "" "" "" "" "" [] "" 0 0 false "" "" false None.
Definition set_UseSUDO (c : KiveConf) (v : bool) : KiveConf :=
  mkKiveConf v (SSHUser c) (SSHKeyFile c) (SSHPort c) (StrictHostKeyChecking c) (LogFormat c) (LogRunRetentionCount c) (LogRunRetentionDays c) (BackupRetentionCount c) (HealthWaitSeconds c) (HealthPollIntervalSeconds c) (MaxConcurrentSyncs c) (PythonPath c) (JSPath c) (RubyPath c) (BashPath c) (JobSignerCA c) (JobSignerCATrust c) (kPortRange c) (CertsTTL c) (CertsRenewalBuffer c) (Iptables c) (JobsProfile c) (kTimezone c) (Promotion c) (Observe c).
Definition set_SSHUser (c : KiveConf) (v : string) : KiveConf :=
  mkKiveConf (UseSUDO c) v (SSHKeyFile c) (SSHPort c) (StrictHostKeyChecking c) (LogFormat c) (LogRunRetentionCount c) (LogRunRetentionDays c) (BackupRetentionCount c) (HealthWaitSeconds c) (HealthPollIntervalSeconds c) (MaxConcurrentSyncs c) (PythonPath c) (JSPath c) (RubyPath c) (BashPath c) (JobSignerCA c) (JobSignerCATrust c) (kPortRange c) (CertsTTL c) (CertsRenewalBuffer c) (Iptables c) (JobsProfile c) (kTimezone c) (Promotion c) (Observe c).
Definition set_SSHKeyFile (c : KiveConf) (v : string) : KiveConf :=
  mkKiveConf (UseSUDO c) (SSHUser c) v (SSHPort c) (StrictHostKeyChecking c) (LogFormat c) (LogRunRetentionCount c) (LogRunRetentionDays c) (BackupRetentionCount c) (HealthWaitSeconds c) (HealthPollIntervalSeconds c) (MaxConcurrentSyncs c) (PythonPath c) (JSPath c) (RubyPath c) (BashPath c) (JobSignerCA c) (JobSignerCATrust c) (kPortRange c) (CertsTTL c) (CertsRenewalBuffer c) (Iptables c) (JobsProfile c) (kTimezone c) (Promotion c) (Observe c).
Definition set_SSHPort (c : KiveConf) (v : Z) : KiveConf :=
  mkKiveConf (UseSUDO c) (SSHUser c) (SSHKeyFile c) v (StrictHostKeyChecking c) (LogFormat c) (LogRunRetentionCount c) (LogRunRetentionDays c) (BackupRetentionCount c) (HealthWaitSeconds c) (HealthPollIntervalSeconds c) (MaxConcurrentSyncs c) (PythonPath c) (JSPath c) (RubyPath c) (BashPath c) (JobSignerCA c) (JobSignerCATrust c) (kPortRange c) (CertsTTL c) (CertsRenewalBuffer c) (Iptables c) (JobsProfile c) (kTimezone c) (Promotion c) (Observe c).
Definition set_StrictHostKeyChecking (c : KiveConf) (v : string) : KiveConf :=
  mkKiveConf (UseSUDO c) (SSHUser c) (SSHKeyFile c) (SSHPort c) v (LogFormat c) (LogRunRetentionCount c) (LogRunRetentionDays c) (BackupRetentionCount c) (HealthWaitSeconds c) (HealthPollIntervalSeconds c) (MaxConcurrentSyncs c) (PythonPath c) (JSPath c) (RubyPath c) (BashPath c) (JobSignerCA c) (JobSignerCATrust c) (kPortRange c) (CertsTTL c) (CertsRenewalBuffer c) (Iptables c) (JobsProfile c) (kTimezone c) (Promotion c) (Observe c).
Definition set_LogFormat (c : KiveConf) (v : string) : KiveConf :=
  mkKiveConf (UseSUDO c) (SSHUser c) (SSHKeyFile c) (SSHPort c) (StrictHostKeyChecking c) v (LogRunRetentionCount c) (LogRunRetentionDays c) (BackupRetentionCount c) (HealthWaitSeconds c) (HealthPollIntervalSeconds c) (MaxConcurrentSyncs c) (PythonPath c) (JSPath c) (RubyPath c) (BashPath c) (JobSignerCA c) (JobSignerCATrust c) (kPortRange c) (CertsTTL c) (CertsRenewalBuffer c) (Iptables c) (JobsProfile c) (kTimezone c) (Promotion c) (Observe c).
Definition set_LogRunRetentionCount (c : KiveConf) (v : Z) : KiveConf :=
  mkKiveConf (UseSUDO c) (SSHUser c) (SSHKeyFile c) (SSHPort c) (StrictHostKeyChecking c) (LogFormat c) v (LogRunRetentionDays c) (BackupRetentionCount c) (HealthWaitSeconds c) (HealthPollIntervalSeconds c) (MaxConcurrentSyncs c) (PythonPath c) (JSPath c) (RubyPath c) (BashPath c) (JobSignerCA c) (JobSignerCATrust c) (kPortRange c) (CertsTTL c) (CertsRenewalBuffer c) (Iptables c) (JobsProfile c) (kTimezone c) (Promotion c) (Observe c).
Definition set_LogRunRetentionDays (c : KiveConf) (v : Z) : KiveConf :=
  mkKiveConf (UseSUDO c) (SSHUser c) (SSHKeyFile c) (SSHPort c) (StrictHostKeyChecking c) (LogFormat c) (LogRunRetentionCount c) v (BackupRetentionCount c) (HealthWaitSeconds c) (HealthPollIntervalSeconds c) (MaxConcurrentSyncs c) (PythonPath c) (JSPath c) (RubyPath c) (BashPath c) (JobSignerCA c) (JobSignerCATrust c) (kPortRange c) (CertsTTL c) (CertsRenewalBuffer c) (Iptables c) (JobsProfile c) (kTimezone c) (Promotion c) (Observe c).
Definition set_BackupRetentionCount (c : KiveConf) (v : Z) : KiveConf :=
  mkKiveConf (UseSUDO c) (SSHUser c) (SSHKeyFile c) (SSHPort c) (StrictHostKeyChecking c) (LogFormat c) (LogRunRetentionCount c) (LogRunRetentionDays c) v (HealthWaitSeconds c) (HealthPollIntervalSeconds c) (MaxConcurrentSyncs c) (PythonPath c) (JSPath c) (RubyPath c) (BashPath c) (JobSignerCA c) (JobSignerCATrust c) (kPortRange c) (CertsTTL c) (CertsRenewalBuffer c) (Iptables c) (JobsProfile c) (kTimezone c) (Promotion c) (Observe c).
Definition set_HealthWaitSeconds (c : KiveConf) (v : Z) : KiveConf :=
  mkKiveConf (UseSUDO c) (SSHUser c) (SSHKeyFile c) (SSHPort c) (StrictHostKeyChecking c) (LogFormat c) (LogRunRetentionCount c) (LogRunRetentionDays c) (BackupRetentionCount c) v (HealthPollIntervalSeconds c) (MaxConcurrentSyncs c) (PythonPath c) (JSPath c) (RubyPath c) (BashPath c) (JobSignerCA c) (JobSignerCATrust c) (kPortRange c) (CertsTTL c) (CertsRenewalBuffer c) (Iptables c) (JobsProfile c) (kTimezone c) (Promotion c) (Observe c).
Definition set_HealthPollIntervalSeconds (c : KiveConf) (v : Z) : KiveConf :=
  mkKiveConf (UseSUDO c) (SSHUser c) (SSHKeyFile c) (SSHPort c) (StrictHostKeyChecking c) (LogFormat c) (LogRunRetentionCount c) (LogRunRetentionDays c) (BackupRetentionCount c) (HealthWaitSeconds c) v (MaxConcurrentSyncs c) (PythonPath c) (JSPath c) (RubyPath c) (BashPath c) (JobSignerCA c) (JobSignerCATrust c) (kPortRange c) (CertsTTL c) (CertsRenewalBuffer c) (Iptables c) (JobsProfile c) (kTimezone c) (Promotion c) (Observe c).
Definition set_MaxConcurrentSyncs (c : KiveConf) (v : Z) : KiveConf :=
  mkKiveConf (UseSUDO c) (SSHUser c) (SSHKeyFile c) (SSHPort c) (StrictHostKeyChecking c) (LogFormat c) (LogRunRetentionCount c) (LogRunRetentionDays c) (BackupRetentionCount c) (HealthWaitSeconds c) (HealthPollIntervalSeconds c) v (PythonPath c) (JSPath c) (RubyPath c) (BashPath c) (JobSignerCA c) (JobSignerCATrust c) (kPortRange c) (CertsTTL c) (CertsRenewalBuffer c) (Iptables c) (JobsProfile c) (kTimezone c) (Promotion c) (Observe c).
Definition set_PythonPath (c : KiveConf) (v : string) : KiveConf :=
  mkKiveConf (UseSUDO c) (SSHUser c) (SSHKeyFile c) (SSHPort c) (StrictHostKeyChecking c) (LogFormat c) (LogRunRetentionCount c) (LogRunRetentionDays c) (BackupRetentionCount c) (HealthWaitSeconds c) (HealthPollIntervalSeconds c) (MaxConcurrentSyncs c) v (JSPath c) (RubyPath c) (BashPath c) (JobSignerCA c) (JobSignerCATrust c) (kPortRange c) (CertsTTL c) (CertsRenewalBuffer c) (Iptables c) (JobsProfile c) (kTimezone c) (Promotion c) (Observe c).
Definition set_JSPath (c : KiveConf) (v : string) : KiveConf :=
  mkKiveConf (UseSUDO c) (SSHUser c) (SSHKeyFile c) (SSHPort c) (StrictHostKeyChecking c) (LogFormat c) (LogRunRetentionCount c) (LogRunRetentionDays c) (BackupRetentionCount c) (HealthWaitSeconds c) (HealthPollIntervalSeconds c) (MaxConcurrentSyncs c) (PythonPath c) v (RubyPath c) (BashPath c) (JobSignerCA c) (JobSignerCATrust c) (kPortRange c) (CertsTTL c) (CertsRenewalBuffer c) (Iptables c) (JobsProfile c) (kTimezone c) (Promotion c) (Observe c).
Definition set_RubyPath (c : KiveConf) (v : string) : KiveConf :=
  mkKiveConf (UseSUDO c) (SSHUser c) (SSHKeyFile c) (SSHPort c) (StrictHostKeyChecking c) (LogFormat c) (LogRunRetentionCount c) (LogRunRetentionDays c) (BackupRetentionCount c) (HealthWaitSeconds c) (HealthPollIntervalSeconds c) (MaxConcurrentSyncs c) (PythonPath c) (JSPath c) v (BashPath c) (JobSignerCA c) (JobSignerCATrust c) (kPortRange c) (CertsTTL c) (CertsRenewalBuffer c) (Iptables c) (JobsProfile c) (kTimezone c) (Promotion c) (Observe c).
Definition set_BashPath (c : KiveConf) (v : string) : KiveConf :=
  mkKiveConf (UseSUDO c) (SSHUser c) (SSHKeyFile c) (SSHPort c) (StrictHostKeyChecking c) (LogFormat c) (LogRunRetentionCount c) (LogRunRetentionDays c) (BackupRetentionCount c) (HealthWaitSeconds c) (HealthPollIntervalSeconds c) (MaxConcurrentSyncs c) (PythonPath c) (JSPath c) (RubyPath c) v (JobSignerCA c) (JobSignerCATrust c) (kPortRange c) (CertsTTL c) (CertsRenewalBuffer c) (Iptables c) (JobsProfile c) (kTimezone c) (Promotion c) (Observe c).
Definition set_JobSignerCA (c : KiveConf) (v : string) : KiveConf :=
  mkKiveConf (UseSUDO c) (SSHUser c) (SSHKeyFile c) (SSHPort c) (StrictHostKeyChecking c) (LogFormat c) (LogRunRetentionCount c) (LogRunRetentionDays c) (BackupRetentionCount c) (HealthWaitSeconds c) (HealthPollIntervalSeconds c) (MaxConcurrentSyncs c) (PythonPath c) (JSPath c) (RubyPath c) (BashPath c) v (JobSignerCATrust c) (kPortRange c) (CertsTTL c) (CertsRenewalBuffer c) (Iptables c) (JobsProfile c) (kTimezone c) (Promotion c) (Observe c).
Definition set_JobSignerCATrust (c : KiveConf) (v : list string) : KiveConf :=
  mkKiveConf (UseSUDO c) (SSHUser c) (SSHKeyFile c) (SSHPort c) (StrictHostKeyChecking c) (LogFormat c) (LogRunRetentionCount c) (LogRunRetentionDays c) (BackupRetentionCount c) (HealthWaitSeconds c) (HealthPollIntervalSeconds c) (MaxConcurrentSyncs c) (PythonPath c) (JSPath c) (RubyPath c) (BashPath c) (JobSignerCA c) v (kPortRange c) (CertsTTL c) (CertsRenewalBuffer c) (Iptables c) (JobsProfile c) (kTimezone c) (Promotion c) (Observe c).
Definition set_kPortRange (c : KiveConf) (v : string) : KiveConf :=
  mkKiveConf (UseSUDO c) (SSHUser c) (SSHKeyFile c) (SSHPort c) (StrictHostKeyChecking c) (LogFormat c) (LogRunRetentionCount c) (LogRunRetentionDays c) (BackupRetentionCount c) (HealthWaitSeconds c) (HealthPollIntervalSeconds c) (MaxConcurrentSyncs c) (PythonPath c) (JSPath c) (RubyPath c) (BashPath c) (JobSignerCA c) (JobSignerCATrust c) v (CertsTTL c) (CertsRenewalBuffer c) (Iptables c) (JobsProfile c) (kTimezone c) (Promotion c) (Observe c).
Definition set_CertsTTL (c : KiveConf) (v : Z) : KiveConf :=
  mkKiveConf (UseSUDO c) (SSHUser c) (SSHKeyFile c) (SSHPort c) (StrictHostKeyChecking c) (LogFormat c) (LogRunRetentionCount c) (LogRunRetentionDays c) (BackupRetentionCount c) (HealthWaitSeconds c) (HealthPollIntervalSeconds c) (MaxConcurrentSyncs c) (PythonPath c) (JSPath c) (RubyPath c) (BashPath c) (JobSignerCA c) (JobSignerCATrust c) (kPortRange c) v (CertsRenewalBuffer c) (Iptables c) (JobsProfile c) (kTimezone c) (Promotion c) (Observe c).
Definition set_CertsRenewalBuffer (c : KiveConf) (v : Z) : KiveConf :=
  mkKiveConf (UseSUDO c) (SSHUser c) (SSHKeyFile c) (SSHPort c) (StrictHostKeyChecking c) (LogFormat c) (LogRunRetentionCount c) (LogRunRetentionDays c) (BackupRetentionCount c) (HealthWaitSeconds c) (HealthPollIntervalSeconds c) (MaxConcurrentSyncs c) (PythonPath c) (JSPath c) (RubyPath c) (BashPath c) (JobSignerCA c) (JobSignerCATrust c) (kPortRange c) (CertsTTL c) v (Iptables c) (JobsProfile c) (kTimezone c) (Promotion c) (Observe c).
Definition set_Iptables (c : KiveConf) (v : bool) : KiveConf :=
  mkKiveConf (UseSUDO c) (SSHUser c) (SSHKeyFile c) (SSHPort c) (StrictHostKeyChecking c) (LogFormat c) (LogRunRetentionCount c) (LogRunRetentionDays c) (BackupRetentionCount c) (HealthWaitSeconds c) (HealthPollIntervalSeconds c) (MaxConcurrentSyncs c) (PythonPath c) (JSPath c) (RubyPath c) (BashPath c) (JobSignerCA c) (JobSignerCATrust c) (kPortRange c) (CertsTTL c) (CertsRenewalBuffer c) v (JobsProfile c) (kTimezone c) (Promotion c) (Observe c).
Definition set_JobsProfile (c : KiveConf) (v : string) : KiveConf :=
  mkKiveConf (UseSUDO c) (SSHUser c) (SSHKeyFile c) (SSHPort c) (StrictHostKeyChecking c) (LogFormat c) (LogRunRetentionCount c) (LogRunRetentionDays c) (BackupRetentionCount c) (HealthWaitSeconds c) (HealthPollIntervalSeconds c) (MaxConcurrentSyncs c) (PythonPath c) (JSPath c) (RubyPath c) (BashPath c) (JobSignerCA c) (JobSignerCATrust c) (kPortRange c) (CertsTTL c) (CertsRenewalBuffer c) (Iptables c) v (kTimezone c) (Promotion c) (Observe c).
Definition set_kTimezone (c : KiveConf) (v : string) : KiveConf :=
  mkKiveConf (UseSUDO c) (SSHUser c) (SSHKeyFile c) (SSHPort c) (StrictHostKeyChecking c) (LogFormat c) (LogRunRetentionCount c) (LogRunRetentionDays c) (BackupRetentionCount c) (HealthWaitSeconds c) (HealthPollIntervalSeconds c) (MaxConcurrentSyncs c) (PythonPath c) (JSPath c) (RubyPath c) (BashPath c) (JobSignerCA c) (JobSignerCATrust c) (kPortRange c) (CertsTTL c) (CertsRenewalBuffer c) (Iptables c) (JobsProfile c) v (Promotion c) (Observe c).
Definition set_Promotion (c : KiveConf) (v : bool) : KiveConf :=
  mkKiveConf (UseSUDO c) (SSHUser c) (SSHKeyFile c) (SSHPort c) (StrictHostKeyChecking c) (LogFormat c) (LogRunRetentionCount c) (LogRunRetentionDays c) (BackupRetentionCount c) (HealthWaitSeconds c) (HealthPollIntervalSeconds c) (MaxConcurrentSyncs c) (PythonPath c) (JSPath c) (RubyPath c) (BashPath c) (JobSignerCA c) (JobSignerCATrust c) (kPortRange c) (CertsTTL c) (CertsRenewalBuffer c) (Iptables c) (JobsProfile c) (kTimezone c) v (Observe c).
Definition set_Observe (c : KiveConf) (v : option bool) : KiveConf :=
  mkKiveConf (UseSUDO c) (SSHUser c) (SSHKeyFile c) (SSHPort c) (StrictHostKeyChecking c) (LogFormat c) (LogRunRetentionCount c) (LogRunRetentionDays c) (BackupRetentionCount c) (HealthWaitSeconds c) (HealthPollIntervalSeconds c) (MaxConcurrentSyncs c) (PythonPath c) (JSPath c) (RubyPath c) (BashPath c) (JobSignerCA c) (JobSignerCATrust c) (kPortRange c) (CertsTTL c) (CertsRenewalBuffer c) (Iptables c) (JobsProfile c) (kTimezone c) (Promotion c) v.

(** ** Names of files (jobs_profile.go, ssh_key.go, job_signer.go) *)

(** [strings.ContainsAny(s, "/\")]. *)
Fixpoint has_separator (s : string) : bool :=
  match s with "" => false | String c s => bool_decide (c = slash) || bool_decide (c = "\"%char) || has_separator s end.
Definition IsAbs (s : string) : bool := HasPrefix s "/".

(** The regular expression [^[A-Za-z0-9][A-Za-z0-9._-]*$]. *)
Definition name_start (c : ascii) : bool :=
  ((65 <=? byte_val c) && (byte_val c <=? 90)) || ((97 <=? byte_val c) && (byte_val c <=? 122))
  || ((48 <=? byte_val c) && (byte_val c <=? 57)).
Definition name_char (c : ascii) : bool :=
  name_start c || (byte_val c =? 46) || (byte_val c =? 95) || (byte_val c =? 45).
Fixpoint all_name_chars (s : string) : bool := match s with "" => true | String c s => name_char c && all_name_chars s end.
Definition matchesName (s : string) : bool := match s with "" => false | String c s => name_start c && all_name_chars s end.

Definition JobsProfileFileName (profile : string) : string :=
  let profile := TrimSpace profile in
  if profile =s "" then "bucket.jobs.conf" else "bucket.jobs." +:+ profile +:+ ".conf".
(** [None] is the error. *)
Definition SanitizeJobsProfile (profile : string) : option string :=
  let profile := TrimSpace profile in
  if profile =s "" then Some ""
  else if IsAbs profile || Contains profile ".." || has_separator profile || negb (path_Base profile =s profile)
          || negb (matchesName profile) then None
  else
    let name := JobsProfileFileName profile in
    if negb (path_Base name =s name) then None else Some profile.

Definition DefaultSSHKeyFile : string := "worker.key".
Definition SanitizeSSHKeyFilename (filename : string) : option string :=
  let filename := TrimSpace filename in
  if filename =s "" then Some DefaultSSHKeyFile
  else if IsAbs filename || Contains filename ".." then None
  else
    let base := path_Base filename in
    if negb (base =s filename) || (base =s ".") || (base =s "/") then None else Some base.

(** ** Lowering *)

Definition kiveConfKnownBlocks : list string :=
  ["ssh"; "log_config"; "backup"; "health"; "deploy"; "interpreters"; "job_signer"; "features"].
Definition kiveConfTopLevelKnown : list string :=
  ["port_range"; "certs_ttl"; "certs_renewal_buffer"; "iptables"; "jobs_profile"; "timezone"].
Definition kiveConfLegacyFlatHints : list string :=
  ["use_sudo"; "ssh_user"; "ssh_key"; "ssh_port"; "strict_host_key_checking"; "log_format"; "log_run_retention_count";
   "log_run_retention_days"; "backup_retention_count"; "health_wait_seconds"; "max_concurrent_syncs"; "python_path";
   "js_path"; "ruby_path"; "bash_path"; "job_signer_ca"; "job_signer_ca_trust"].

(** The settings read so far and the keys that were set. *)
Notation kive_state := (KiveConf * gset string)%type.

Section lower.
Context `{Unicode} (filePath : string).

Definition markPresent (present : gset string) (call : Call) (key : string) : result Error (gset string) :=
  if bool_decide (key ∈ present) then Err (Err_at filePath (CallPos call) (SetTwice key)) else Ok ({[key]} ∪ present).
(** A setting: mark its key, then read its argument. *)
Definition kive_field (st : kive_state) (call : Call) (key : string) {A} (read : Call -> string -> result Error A)
    (set : KiveConf -> A -> KiveConf) : result Error kive_state :=
  let? present := markPresent st.2 call key in
  let? v := read call filePath in
  Ok (set st.1 v, present).

Definition bucketConfPortArg (v : Value) (which : string) : result Error Z :=
  match v with
  | NumberLit _ n is_float at_ =>
      if is_float then Err (Err_at filePath at_ (PortRangeInteger which))
      else if (n >? max_int64) || (n <? Z.lnot 0) then Err (Err_at filePath at_ IntegerOutOfRange)
      else Ok n
  | _ => Err (Err_at filePath (ValuePos v) (PortRangeInteger which))
  end.
Definition parsePortRangeCall (call : Call) (_ : string) : result Error string :=
  match CallArgs call with
  | [a; b] =>
      let? min := bucketConfPortArg a "min" in
      let? max := bucketConfPortArg b "max" in
      Ok (Itoa min +:+ "," +:+ Itoa max)
  | _ => Err (Err_at filePath (CallPos call) PortRangeTwoIntegers)
  end.
Definition readProfile (call : Call) (path : string) : result Error string :=
  let? s := SingleStringArg call path in
  match SanitizeJobsProfile s with Some p => Ok p | None => Err (mkError "" noPos (ProfileRejected s) false) end.
Definition readTimezone (call : Call) (path : string) : result Error string :=
  let? s := SingleStringArg call path in Ok (TrimSpace s).

Definition applyTopLevelKiveCall (st : kive_state) (call : Call) : result Error kive_state :=
  let n := CallName call in
  if mem n kiveConfLegacyFlatHints then Err (Err_at filePath (CallPos call) (LegacySetting n))
  else if n =s "port_range" then kive_field st call n parsePortRangeCall set_kPortRange
  else if n =s "certs_ttl" then kive_field st call n SingleIntArg set_CertsTTL
  else if n =s "certs_renewal_buffer" then kive_field st call n SingleIntArg set_CertsRenewalBuffer
  else if n =s "iptables" then kive_field st call n SingleBoolArg set_Iptables
  else if n =s "jobs_profile" then kive_field st call n readProfile set_JobsProfile
  else if n =s "timezone" then kive_field st call n readTimezone set_kTimezone
  else let? _ := markPresent st.2 call n in Err (UnknownSetting filePath (CallPos call) n kiveConfTopLevelKnown).1.

(** A block whose body only has calls. *)
Definition callStep (where_ : string) (f : kive_state -> Call -> result Error kive_state) (st : kive_state) (stmt : Stmt) :
    result Error kive_state :=
  match stmt with
  | SBlock _ _ _ p => Err (Err_at filePath p (BodyOnlyAllows where_))
  | SCall call => f st call
  end.

Definition sshCall (st : kive_state) (call : Call) : result Error kive_state :=
  let n := CallName call in
  if n =s "user" then kive_field st call "ssh_user" SingleStringArg set_SSHUser
  else if n =s "key" then kive_field st call "ssh_key" SingleStringArg set_SSHKeyFile
  else if n =s "port" then kive_field st call "ssh_port" SingleIntArg set_SSHPort
  else if n =s "use_sudo" then kive_field st call "use_sudo" SingleBoolArg set_UseSUDO
  else if n =s "strict_host_key_checking" then kive_field st call "strict_host_key_checking" SingleStringArg set_StrictHostKeyChecking
  else Err (UnknownSetting filePath (CallPos call) n ["user"; "key"; "port"; "use_sudo"; "strict_host_key_checking"]).1.
Definition lowerSSHBlock (st : kive_state) (body : list Stmt) : result Error kive_state := loop (callStep "ssh" sshCall) st body.

Definition logConfigCall (st : kive_state) (call : Call) : result Error kive_state :=
  let n := CallName call in
  if n =s "format" then kive_field st call "log_format" SingleStringArg set_LogFormat
  else if n =s "run_retention_count" then kive_field st call "log_run_retention_count" SingleIntArg set_LogRunRetentionCount
  else if n =s "run_retention_days" then kive_field st call "log_run_retention_days" SingleIntArg set_LogRunRetentionDays
  else Err (UnknownSetting filePath (CallPos call) n ["format"; "run_retention_count"; "run_retention_days"]).1.
Definition lowerLogConfigBlock (st : kive_state) (body : list Stmt) : result Error kive_state :=
  loop (callStep "log_config" logConfigCall) st body.

Definition backupCall (st : kive_state) (call : Call) : result Error kive_state :=
  if CallName call =s "retention_count" then kive_field st call "backup_retention_count" SingleIntArg set_BackupRetentionCount
  else Err (UnknownSetting filePath (CallPos call) (CallName call) ["retention_count"]).1.
Definition lowerBackupBlock (st : kive_state) (body : list Stmt) : result Error kive_state := loop (callStep "backup" backupCall) st body.

Definition healthCall (st : kive_state) (call : Call) : result Error kive_state :=
  let n := CallName call in
  if n =s "wait_seconds" then kive_field st call "health_wait_seconds" SingleIntArg set_HealthWaitSeconds
  else if n =s "poll_interval_seconds" then kive_field st call "health_poll_interval_seconds" SingleIntArg set_HealthPollIntervalSeconds
  else Err (UnknownSetting filePath (CallPos call) n ["wait_seconds"; "poll_interval_seconds"]).1.
Definition lowerHealthBlock (st : kive_state) (body : list Stmt) : result Error kive_state := loop (callStep "health" healthCall) st body.

Definition deployCall (st : kive_state) (call : Call) : result Error kive_state :=
  if CallName call =s "max_concurrent_syncs" then kive_field st call "max_concurrent_syncs" SingleIntArg set_MaxConcurrentSyncs
  else Err (UnknownSetting filePath (CallPos call) (CallName call) ["max_concurrent_syncs"]).1.
Definition lowerDeployBlock (st : kive_state) (body : list Stmt) : result Error kive_state := loop (callStep "deploy" deployCall) st body.

Definition interpretersCall (st : kive_state) (call : Call) : result Error kive_state :=
  let n := CallName call in
  if n =s "python_path" then kive_field st call "python_path" SingleStringArg set_PythonPath
  else if n =s "js_path" then kive_field st call "js_path" SingleStringArg set_JSPath
  else if n =s "ruby_path" then kive_field st call "ruby_path" SingleStringArg set_RubyPath
  else if n =s "bash_path" then kive_field st call "bash_path" SingleStringArg set_BashPath
  else Err (UnknownSetting filePath (CallPos call) n ["python_path"; "js_path"; "ruby_path"; "bash_path"]).1.
Definition lowerInterpretersBlock (st : kive_state) (body : list Stmt) : result Error kive_state :=
  loop (callStep "interpreters" interpretersCall) st body.

Definition jobSignerCall (st : kive_state) (call : Call) : result Error kive_state :=
  let n := CallName call in
  if n =s "ca" then kive_field st call "job_signer_ca" SingleStringArg set_JobSignerCA
  else if n =s "ca_trust" then kive_field st call "job_signer_ca_trust" AsStrings set_JobSignerCATrust
  else Err (UnknownSetting filePath (CallPos call) n ["ca"; "ca_trust"]).1.
Definition lowerJobSignerBlock (st : kive_state) (body : list Stmt) : result Error kive_state :=
  loop (callStep "job_signer" jobSignerCall) st body.

Definition featuresCall (st : kive_state) (call : Call) : result Error kive_state :=
  let n := CallName call in
  if n =s "promotion" then kive_field st call "features_promotion" SingleBoolArg set_Promotion
  else if n =s "observe" then kive_field st call "features_observe" SingleBoolArg (fun c v => set_Observe c (Some v))
  else Err (UnknownSetting filePath (CallPos call) n ["promotion"; "observe"]).1.
Definition lowerFeaturesBlock (st : kive_state) (body : list Stmt) : result Error kive_state :=
  loop (callStep "features" featuresCall) st body.

(** The state of the whole file has the blocks seen as well. *)
Definition kiveStep (st : kive_state * gset string) (stmt : Stmt) : result Error (kive_state * gset string) :=
  let '(st, seenBlocks) := st in
  match stmt with
  | SBlock name id body p =>
      if negb (id =s "") then Err (Err_at filePath p (NoIdentifierIn name))
      else if bool_decide (name ∈ seenBlocks) then Err (Err_at filePath p (DuplicateBlock name))
      else
        let? st :=
          (if name =s "ssh" then lowerSSHBlock st body
           else if name =s "log_config" then lowerLogConfigBlock st body
           else if name =s "backup" then lowerBackupBlock st body
           else if name =s "health" then lowerHealthBlock st body
           else if name =s "deploy" then lowerDeployBlock st body
           else if name =s "interpreters" then lowerInterpretersBlock st body
           else if name =s "job_signer" then lowerJobSignerBlock st body
           else if name =s "features" then lowerFeaturesBlock st body
           else Err (UnknownSetting filePath p name kiveConfKnownBlocks).1) in
        Ok (st, {[name]} ∪ seenBlocks)
  | SCall call => let? st := applyTopLevelKiveCall st call in Ok (st, seenBlocks)
  end.
End lower.

Definition ParseKiveConf `{Unicode} `{FloatText} (filePath data : string) : result failure kive_state :=
  match Parse filePath data with
  | Err e => Err e
  | Ok f =>
      match loop (kiveStep filePath) ((emptyKiveConf, ∅), ∅) (Stmts f) with
      | Err e => Err (Diag e)
      | Ok (st, _) => Ok st
      end
  end.

(** ** Emission *)

Definition DefaultTimezone : string := "UTC".
Definition ResolveTimezone (tz : string) : string := let tz := TrimSpace tz in if tz =s "" then DefaultTimezone else tz.
Definition defaultCertsTTL : Z := 60.
Definition defaultCertsRenewalBuffer : Z := 10.

Definition emitPortRangeStmt (raw : string) : list Stmt :=
  match ParsePortRangeValue raw with
  | Err _ => []
  | Ok r => [SCall (mkCall "port_range" [Int (PMin r); Int (PMax r)] noPos true)]
  end.
Definition Any (c : KiveConf) : bool := Promotion c || match Observe c with Some v => negb v | None => false end.
(** A block that is dropped when its body is empty. *)
Definition optional_block (name : string) (body : list Stmt) : list Stmt := match body with [] => [] | _ => [Block name "" body] end.
Definition bool_call (name : string) (v : bool) : list Stmt := [SCall (CallStmtBool name v)].
Definition int_call (name : string) (z : Z) : list Stmt := [SCall (CallStmtInt name z)].

Definition sshStmts (c : KiveConf) : list Stmt :=
  bool_call "use_sudo" (UseSUDO c) ++ call_string "user" (SSHUser c) ++ call_string "key" (SSHKeyFile c)
  ++ call_int "port" (SSHPort c) ++ call_string "strict_host_key_checking" (StrictHostKeyChecking c).
Definition logStmts (c : KiveConf) : list Stmt :=
  call_string "format" (LogFormat c) ++ int_call "run_retention_count" (LogRunRetentionCount c)
  ++ int_call "run_retention_days" (LogRunRetentionDays c).
Definition healthStmts (c : KiveConf) : list Stmt :=
  int_call "wait_seconds" (HealthWaitSeconds c) ++ int_call "poll_interval_seconds" (HealthPollIntervalSeconds c).
Definition interpStmts (c : KiveConf) : list Stmt :=
  call_string "python_path" (PythonPath c) ++ call_string "js_path" (JSPath c) ++ call_string "ruby_path" (RubyPath c)
  ++ call_string "bash_path" (BashPath c).
Definition signerStmts (c : KiveConf) : list Stmt := call_string "ca" (JobSignerCA c) ++ call_strings "ca_trust" (JobSignerCATrust c).
Definition featStmts (c : KiveConf) : list Stmt :=
  (if Promotion c then bool_call "promotion" true else [])
  ++ (match Observe c with Some false => bool_call "observe" false | _ => [] end).
Definition emittedTTL (c : KiveConf) : Z := if CertsTTL c =? 0 then defaultCertsTTL else CertsTTL c.
Definition kiveStmts (c : KiveConf) : list Stmt :=
  [SCall (CallStmt "timezone" [ResolveTimezone (kTimezone c)])]
  ++ [Block "ssh" "" (sshStmts c)]
  ++ [Block "log_config" "" (logStmts c)]
  ++ [Block "backup" "" (int_call "retention_count" (BackupRetentionCount c))]
  ++ [Block "health" "" (healthStmts c)]
  ++ (if MaxConcurrentSyncs c >=? 1 then [Block "deploy" "" (int_call "max_concurrent_syncs" (MaxConcurrentSyncs c))] else [])
  ++ optional_block "interpreters" (interpStmts c)
  ++ optional_block "job_signer" (signerStmts c)
  ++ (if Any c then [Block "features" "" (featStmts c)] else [])
  ++ (if kPortRange c =s "" then [] else emitPortRangeStmt (kPortRange c))
  ++ int_call "certs_ttl" (emittedTTL c)
  ++ int_call "certs_renewal_buffer" (CertsRenewalBuffer c)
  ++ bool_call "iptables" (Iptables c)
  ++ call_string "jobs_profile" (JobsProfile c).
Definition kiveFile (c : KiveConf) : File := mkFile "" 0 (kiveStmts c).
Definition EmitKiveConf (c : KiveConf) : string := Emit (kiveFile c) (mkEmitOptions "").

(** ** Defaults and the checks of a load *)

Definition DefaultLogRunRetentionCount : Z := 100.
Definition DefaultLogRunRetentionDays : Z := 30.
Definition DefaultBackupRetentionCount : Z := 7.
Definition DefaultHealthWaitSeconds : Z := 180.
Definition DefaultHealthPollIntervalSeconds : Z := 60.
Definition DefaultMaxConcurrentSyncs : Z := 16.

Inductive load_error :=
| Unreadable (f : failure)
| Negative (key : string)
| SyncsBelowOne
| BadStrictHostKey (s : string)
| BadSSHKey (s : string)
| BadPortRange (e : range_error)
| BadSigner (name : string)
| DuplicateTrust (name : string)
| BadTimezone (tz : string).

Section load.
Context `{Unicode}.

Definition unless_present (present : gset string) (key : string) (v default_ : Z) : Z :=
  if bool_decide (key ∈ present) then v else default_.
(** The assignments, then the checks in order; the first that fails is the
    error. *)
Definition withDefaults (c : KiveConf) (present : gset string) : KiveConf :=
  let c := set_LogRunRetentionCount c (unless_present present "log_run_retention_count" (LogRunRetentionCount c) DefaultLogRunRetentionCount) in
  let c := set_LogRunRetentionDays c (unless_present present "log_run_retention_days" (LogRunRetentionDays c) DefaultLogRunRetentionDays) in
  let c := set_BackupRetentionCount c (unless_present present "backup_retention_count" (BackupRetentionCount c) DefaultBackupRetentionCount) in
  let c := set_HealthWaitSeconds c (unless_present present "health_wait_seconds" (HealthWaitSeconds c) DefaultHealthWaitSeconds) in
  let c := set_HealthPollIntervalSeconds c
             (unless_present present "health_poll_interval_seconds" (HealthPollIntervalSeconds c) DefaultHealthPollIntervalSeconds) in
  let c := set_MaxConcurrentSyncs c (unless_present present "max_concurrent_syncs" (MaxConcurrentSyncs c) DefaultMaxConcurrentSyncs) in
  let c := set_CertsTTL c
             (if negb (bool_decide ("certs_ttl" ∈ present)) then defaultCertsTTL
              else if CertsTTL c =? 0 then defaultCertsTTL else CertsTTL c) in
  let c := set_CertsRenewalBuffer c (unless_present present "certs_renewal_buffer" (CertsRenewalBuffer c) defaultCertsRenewalBuffer) in
  set_kTimezone c (if bool_decide ("timezone" ∈ present) then ResolveTimezone (kTimezone c) else DefaultTimezone).
Definition checkNegatives (c : KiveConf) : option load_error :=
  if LogRunRetentionCount c <? 0 then Some (Negative "log_run_retention_count")
  else if LogRunRetentionDays c <? 0 then Some (Negative "log_run_retention_days")
  else if BackupRetentionCount c <? 0 then Some (Negative "backup_retention_count")
  else if HealthWaitSeconds c <? 0 then Some (Negative "health_wait_seconds")
  else if HealthPollIntervalSeconds c <? 0 then Some (Negative "health_poll_interval_seconds")
  else if MaxConcurrentSyncs c <? 1 then Some SyncsBelowOne
  else if CertsTTL c <? 0 then Some (Negative "certs_ttl")
  else if CertsRenewalBuffer c <? 0 then Some (Negative "certs_renewal_buffer")
  else None.
Definition applyKiveConfDefaultsPresent (c : KiveConf) (present : gset string) : result load_error KiveConf :=
  let c := withDefaults c present in
  match checkNegatives c with Some e => Err e | None => Ok c end.

Definition SSHStrictHostKeyChecking (c : KiveConf) : option string :=
  let s := TrimSpace (ToLower (StrictHostKeyChecking c)) in
  if (s =s "") || (s =s "yes") then Some "yes"
  else if (s =s "accept-new") || (s =s "no") then Some s
  else None.

Definition jobSignerNamePattern : string -> bool := matchesName.
Definition sanitizeJobSignerName (name : string) : option string :=
  let name := TrimSpace name in
  if (name =s "") || IsAbs name || negb (path_Base name =s name) || Contains name ".." || has_separator name
     || HasSuffix name ".crt" || HasSuffix name ".key" || negb (jobSignerNamePattern name) then None
  else Some name.
Fixpoint checkTrust (seen : gset string) (names : list string) : option load_error :=
  match names with
  | [] => None
  | name :: names =>
      match sanitizeJobSignerName name with
      | None => Some (BadSigner name)
      | Some clean => if bool_decide (clean ∈ seen) then Some (DuplicateTrust clean) else checkTrust ({[clean]} ∪ seen) names
      end
  end.
Definition ValidateJobSignerConfig (c : KiveConf) : option load_error :=
  if negb (TrimSpace (JobSignerCA c) =s "") && negb (bool_decide (is_Some (sanitizeJobSignerName (JobSignerCA c))))
  then Some (BadSigner (JobSignerCA c))
  else checkTrust ∅ (JobSignerCATrust c).

(** The file's text, [None] when it does not exist. *)
Context `{FloatText} (LoadLocation : string -> option Location).
Definition checkLoaded (c : KiveConf) : option load_error :=
  match SSHStrictHostKeyChecking c with
  | None => Some (BadStrictHostKey (StrictHostKeyChecking c))
  | Some _ =>
      match SanitizeSSHKeyFilename (SSHKeyFile c) with
      | None => Some (BadSSHKey (SSHKeyFile c))
      | Some _ =>
          match (if TrimSpace (kPortRange c) =s "" then None
                 else match ParsePortRangeValue (kPortRange c) with Err e => Some (BadPortRange e) | Ok _ => None end) with
          | Some e => Some e
          | None =>
              match ValidateJobSignerConfig c with
              | Some e => Some e
              | None =>
                  match LoadLocation (ResolveTimezone (kTimezone c)) with
                  | None => Some (BadTimezone (kTimezone c))
                  | Some _ => None
                  end
              end
          end
      end
  end.
Definition loadKiveConfFromDisk (confPath : string) (data : option string) : result load_error KiveConf :=
  match data with
  | None => Ok emptyKiveConf
  | Some text =>
      match ParseKiveConf confPath text with
      | Err e => Err (Unreadable e)
      | Ok (c, present) =>
          let? c := applyKiveConfDefaultsPresent c present in
          match checkLoaded c with Some e => Err e | None => Ok c end
      end
  end.
End load.
