(* ===== verification/KiveConfFacts.v ===== *)
(** * kive.conf: what is written is loaded back

    The blocks of kive.conf in the order in which they are written, with the
    settings read so far and the keys that have been set; and the names of
    files that the settings may hold. *)
From S2P Require Import Prelude GoStrings ConfSyntax ConfEmit ConfHelpers ConfLexer ConfParser ConfRoundtrip ConfLower.
From S2P Require Import Ports PathMatch Calendar KiveConf.
Open Scope Z_scope.

(** The settings with the first [n] of them, in the order of the file, and the
    zero value for the others. *)
Definition upto (n : nat) (c : KiveConf) : KiveConf :=
  let at_ {A} (k : nat) (v zero : A) : A := if (k <=? n)%nat then v else zero in
  mkKiveConf
    (at_ 2%nat (UseSUDO c) false)
    (at_ 3%nat (SSHUser c) "")
    (at_ 4%nat (SSHKeyFile c) "")
    (at_ 5%nat (SSHPort c) 0)
    (at_ 6%nat (StrictHostKeyChecking c) "")
    (at_ 7%nat (LogFormat c) "")
    (at_ 8%nat (LogRunRetentionCount c) 0)
    (at_ 9%nat (LogRunRetentionDays c) 0)
    (at_ 10%nat (BackupRetentionCount c) 0)
    (at_ 11%nat (HealthWaitSeconds c) 0)
    (at_ 12%nat (HealthPollIntervalSeconds c) 0)
    (at_ 13%nat (MaxConcurrentSyncs c) 0)
    (at_ 14%nat (PythonPath c) "")
    (at_ 15%nat (JSPath c) "")
    (at_ 16%nat (RubyPath c) "")
    (at_ 17%nat (BashPath c) "")
    (at_ 18%nat (JobSignerCA c) "")
    (at_ 19%nat (JobSignerCATrust c) [])
    (at_ 22%nat (kPortRange c) "")
    (at_ 23%nat (CertsTTL c) 0)
    (at_ 24%nat (CertsRenewalBuffer c) 0)
    (at_ 25%nat (Iptables c) false)
    (at_ 26%nat (JobsProfile c) "")
    (at_ 1%nat (kTimezone c) "")
    (at_ 20%nat (Promotion c) false)
    (at_ 21%nat (Observe c) None).

(** ** Keys *)

(** A key that is set when the setting is written. *)
Definition opt (b : bool) (key : string) : gset string := if b then {[key]} else ∅.
Definition fresh (p : gset string) (keys : list string) : Prop := forall k, k ∈ keys -> k ∉ p.
Lemma not_in_opt b k k' : k <> k' -> k ∉ opt b k'.
Proof. intros Hk. destruct b; cbn; [by rewrite elem_of_singleton|apply not_elem_of_empty]. Qed.
Lemma not_in_one (k k' : string) : k <> k' -> k ∉ ({[k']} : gset string).
Proof. intros Hk. by rewrite elem_of_singleton. Qed.
Lemma not_in_union (k : string) (p q : gset string) : k ∉ p -> k ∉ q -> k ∉ p ∪ q.
Proof. rewrite not_elem_of_union. done. Qed.
Ltac fresh_key :=
  repeat first
    [ apply not_in_union | apply not_in_opt; discriminate | apply not_in_one; discriminate | apply not_elem_of_empty
    | match goal with Hf : fresh ?p _ |- _ ∉ ?p => apply Hf; repeat (left || right) end ].

Section fields.
Context `{Unicode} (path : string).

Section field.
Context (c : KiveConf) (p : gset string) (n key : string) (args : list Value) (q : Pos) (t : bool) (Hkey : key ∉ p).
Lemma kive_field_ok {A} (read : Call -> string -> result Error A) set v :
  read (mkCall n args q t) path = Ok v ->
  kive_field path (c, p) (mkCall n args q t) key read set = Ok (set c v, {[key]} ∪ p).
Proof. intros Hr. unfold kive_field, markPresent. cbn [fst snd]. rewrite bool_decide_eq_false_2 by done. cbn [rbind]. by rewrite Hr. Qed.
End field.

Lemma read_string n args q t s : same_args args [StringLit s noPos] -> SingleStringArg (mkCall n args q t) path = Ok s.
Proof. intros (v & -> & Hv)%same_value. destruct v as [| | | |[]]; cbn in Hv; try done. by injection Hv as ->. Qed.
Lemma read_bool n args q t b : same_args args [BoolLit b noPos] -> SingleBoolArg (mkCall n args q t) path = Ok b.
Proof. intros (v & -> & Hv)%same_value. destruct v as [| | | |[]]; cbn in Hv; try done. by injection Hv as ->. Qed.
Lemma read_int n args q t z : readable_int z = true -> same_args args [Int z] -> SingleIntArg (mkCall n args q t) path = Ok z.
Proof. intros Hz (v & -> & Hv)%same_value. unfold SingleIntArg. cbn [CallArgs]. by apply AsInt_readable. Qed.

(** ** Settings of a block *)

Section block.
Context (step : kive_state -> Stmt -> result Error kive_state).
Definition steps_field {A} c p n key (read : Call -> string -> result Error A) set : Prop :=
  forall args q t, step (c, p) (SCall (mkCall n args q t)) = kive_field path (c, p) (mkCall n args q t) key read set.

Lemma block_string c p n key s set : steps_field c p n key SingleStringArg set -> key ∉ p -> set c "" = c ->
  reads step (c, p) (call_string n s) (set c s, opt (negb (s =s "")) key ∪ p).
Proof.
  intros Hs Hk Hz. unfold call_string, opt. destruct (String.eqb_spec s "") as [->|Hn]; cbn [negb].
  - rewrite Hz, (left_id_L ∅ (∪)). apply reads_nil.
  - apply reads_call. intros args q t Ha. rewrite Hs. apply kive_field_ok; [done|]. by apply read_string.
Qed.
Lemma block_strings c p n key l set : steps_field c p n key AsStrings set -> key ∉ p -> set c [] = c ->
  reads step (c, p) (call_strings n l) (set c l, opt (match l with [] => false | _ => true end) key ∪ p).
Proof.
  intros Hs Hk Hz. unfold call_strings, opt. destruct l as [|s l].
  - rewrite Hz, (left_id_L ∅ (∪)). apply reads_nil.
  - apply reads_call. intros args q t Ha. rewrite Hs. apply kive_field_ok; [done|]. unfold AsStrings. by apply same_strings.
Qed.
Lemma block_int c p n key z set : steps_field c p n key SingleIntArg set -> key ∉ p -> readable_int z = true ->
  reads step (c, p) (int_call n z) (set c z, {[key]} ∪ p).
Proof.
  intros Hs Hk Hz. apply reads_call. intros args q t Ha. rewrite Hs. apply kive_field_ok; [done|]. by apply read_int.
Qed.
Lemma block_int_opt c p n key z set : steps_field c p n key SingleIntArg set -> key ∉ p -> readable_int z = true -> set c 0 = c ->
  reads step (c, p) (call_int n z) (set c z, opt (negb (z =? 0)) key ∪ p).
Proof.
  intros Hs Hk Hz H0. unfold call_int, opt. destruct (z =? 0) eqn:E; cbn [negb]; bool_to_prop.
  - rewrite E, H0, (left_id_L ∅ (∪)). apply reads_nil.
  - by apply block_int.
Qed.
Lemma block_bool c p n key b set : steps_field c p n key SingleBoolArg set -> key ∉ p ->
  reads step (c, p) (bool_call n b) (set c b, {[key]} ∪ p).
Proof.
  intros Hs Hk. apply reads_call. intros args q t Ha. rewrite Hs. apply kive_field_ok; [done|]. by apply read_bool.
Qed.
End block.
End fields.

(** ** The blocks *)

Section blocks.
Context `{Unicode} (path : string) (c : KiveConf).

Definition sshKeys (p : gset string) : gset string :=
  opt (negb (StrictHostKeyChecking c =s "")) "strict_host_key_checking"
  ∪ (opt (negb (SSHPort c =? 0)) "ssh_port" ∪ (opt (negb (SSHKeyFile c =s "")) "ssh_key"
     ∪ (opt (negb (SSHUser c =s "")) "ssh_user" ∪ ({["use_sudo"]} ∪ p)))).
Definition logKeys (p : gset string) : gset string :=
  {["log_run_retention_days"]} ∪ ({["log_run_retention_count"]} ∪ (opt (negb (LogFormat c =s "")) "log_format" ∪ p)).
Definition healthKeys (p : gset string) : gset string := {["health_poll_interval_seconds"]} ∪ ({["health_wait_seconds"]} ∪ p).
Definition interpKeys (p : gset string) : gset string :=
  opt (negb (BashPath c =s "")) "bash_path" ∪ (opt (negb (RubyPath c =s "")) "ruby_path"
  ∪ (opt (negb (JSPath c =s "")) "js_path" ∪ (opt (negb (PythonPath c =s "")) "python_path" ∪ p))).
Definition signerKeys (p : gset string) : gset string :=
  opt (match JobSignerCATrust c with [] => false | _ => true end) "job_signer_ca_trust"
  ∪ (opt (negb (JobSignerCA c =s "")) "job_signer_ca" ∪ p).
Definition featKeys (p : gset string) : gset string :=
  opt (match Observe c with Some _ => true | None => false end) "features_observe" ∪ (opt (Promotion c) "features_promotion" ∪ p).

Tactic Notation "stage" constr(n) uconstr(f) := eapply (reads_app _ _ (upto n c, _)); [apply f; first [done | fresh_key]|].

Lemma ssh_reads p :
  fresh p ["use_sudo"; "ssh_user"; "ssh_key"; "ssh_port"; "strict_host_key_checking"] -> readable_int (SSHPort c) = true ->
  reads (callStep path "ssh" (sshCall path)) (upto 1 c, p) (sshStmts c) (upto 6 c, sshKeys p).
Proof.
  intros Hp Hport. unfold sshStmts, sshKeys. set (step := callStep path "ssh" (sshCall path)).
  stage 2%nat (block_bool path step (upto 1 c) p "use_sudo" "use_sudo" (UseSUDO c) set_UseSUDO).
  stage 3%nat (block_string path step (upto 2 c) _ "user" "ssh_user" (SSHUser c) set_SSHUser).
  stage 4%nat (block_string path step (upto 3 c) _ "key" "ssh_key" (SSHKeyFile c) set_SSHKeyFile).
  stage 5%nat (block_int_opt path step (upto 4 c) _ "port" "ssh_port" (SSHPort c) set_SSHPort).
  apply (block_string path step (upto 5 c) _ "strict_host_key_checking" "strict_host_key_checking" (StrictHostKeyChecking c) set_StrictHostKeyChecking);
    first [done|fresh_key].
Qed.
Lemma log_reads p : fresh p ["log_format"; "log_run_retention_count"; "log_run_retention_days"] ->
  readable_int (LogRunRetentionCount c) = true -> readable_int (LogRunRetentionDays c) = true ->
  reads (callStep path "log_config" (logConfigCall path)) (upto 6 c, p) (logStmts c) (upto 9 c, logKeys p).
Proof.
  intros Hp H1 H2. unfold logStmts, logKeys. set (step := callStep path "log_config" (logConfigCall path)).
  stage 7%nat (block_string path step (upto 6 c) p "format" "log_format" (LogFormat c) set_LogFormat).
  stage 8%nat (block_int path step (upto 7 c) _ "run_retention_count" "log_run_retention_count" (LogRunRetentionCount c) set_LogRunRetentionCount).
  apply (block_int path step (upto 8 c) _ "run_retention_days" "log_run_retention_days" (LogRunRetentionDays c) set_LogRunRetentionDays);
    first [done|fresh_key].
Qed.
Lemma backup_reads p : fresh p ["backup_retention_count"] -> readable_int (BackupRetentionCount c) = true ->
  reads (callStep path "backup" (backupCall path)) (upto 9 c, p) (int_call "retention_count" (BackupRetentionCount c))
    (upto 10 c, {["backup_retention_count"]} ∪ p).
Proof.
  intros Hp H1. apply (block_int path (callStep path "backup" (backupCall path)) (upto 9 c) p "retention_count" "backup_retention_count"
    (BackupRetentionCount c) set_BackupRetentionCount); first [done|fresh_key].
Qed.
Lemma kive_health_reads p : fresh p ["health_wait_seconds"; "health_poll_interval_seconds"] ->
  readable_int (HealthWaitSeconds c) = true -> readable_int (HealthPollIntervalSeconds c) = true ->
  reads (callStep path "health" (healthCall path)) (upto 10 c, p) (healthStmts c) (upto 12 c, healthKeys p).
Proof.
  intros Hp H1 H2. unfold healthStmts, healthKeys. set (step := callStep path "health" (healthCall path)).
  stage 11%nat (block_int path step (upto 10 c) p "wait_seconds" "health_wait_seconds" (HealthWaitSeconds c) set_HealthWaitSeconds).
  apply (block_int path step (upto 11 c) _ "poll_interval_seconds" "health_poll_interval_seconds" (HealthPollIntervalSeconds c)
    set_HealthPollIntervalSeconds); first [done|fresh_key].
Qed.
Lemma deploy_reads p : fresh p ["max_concurrent_syncs"] -> readable_int (MaxConcurrentSyncs c) = true ->
  reads (callStep path "deploy" (deployCall path)) (upto 12 c, p) (int_call "max_concurrent_syncs" (MaxConcurrentSyncs c))
    (upto 13 c, {["max_concurrent_syncs"]} ∪ p).
Proof.
  intros Hp H1. apply (block_int path (callStep path "deploy" (deployCall path)) (upto 12 c) p "max_concurrent_syncs" "max_concurrent_syncs"
    (MaxConcurrentSyncs c) set_MaxConcurrentSyncs); first [done|fresh_key].
Qed.
Lemma interp_reads p : fresh p ["python_path"; "js_path"; "ruby_path"; "bash_path"] ->
  reads (callStep path "interpreters" (interpretersCall path)) (upto 13 c, p) (interpStmts c) (upto 17 c, interpKeys p).
Proof.
  intros Hp. unfold interpStmts, interpKeys. set (step := callStep path "interpreters" (interpretersCall path)).
  stage 14%nat (block_string path step (upto 13 c) p "python_path" "python_path" (PythonPath c) set_PythonPath).
  stage 15%nat (block_string path step (upto 14 c) _ "js_path" "js_path" (JSPath c) set_JSPath).
  stage 16%nat (block_string path step (upto 15 c) _ "ruby_path" "ruby_path" (RubyPath c) set_RubyPath).
  apply (block_string path step (upto 16 c) _ "bash_path" "bash_path" (BashPath c) set_BashPath); first [done|fresh_key].
Qed.
Lemma signer_reads p : fresh p ["job_signer_ca"; "job_signer_ca_trust"] ->
  reads (callStep path "job_signer" (jobSignerCall path)) (upto 17 c, p) (signerStmts c) (upto 19 c, signerKeys p).
Proof.
  intros Hp. unfold signerStmts, signerKeys. set (step := callStep path "job_signer" (jobSignerCall path)).
  stage 18%nat (block_string path step (upto 17 c) p "ca" "job_signer_ca" (JobSignerCA c) set_JobSignerCA).
  apply (block_strings path step (upto 18 c) _ "ca_trust" "job_signer_ca_trust" (JobSignerCATrust c) set_JobSignerCATrust); first [done|fresh_key].
Qed.
(** [observe(true)] is the default and is not written. *)
Lemma feat_reads p : fresh p ["features_promotion"; "features_observe"] -> Observe c <> Some true ->
  reads (callStep path "features" (featuresCall path)) (upto 19 c, p) (featStmts c) (upto 21 c, featKeys p).
Proof.
  intros Hp Ho. unfold featStmts, featKeys. set (step := callStep path "features" (featuresCall path)).
  eapply (reads_app _ _ (upto 20 c, opt (Promotion c) "features_promotion" ∪ p)).
  - destruct (Promotion c) eqn:E; cbn [opt].
    + replace (upto 20 c) with (set_Promotion (upto 19 c) true) by (unfold upto; cbn; by rewrite E).
      apply (block_bool path step (upto 19 c) p "promotion" "features_promotion" true set_Promotion); first [done|fresh_key].
    + rewrite (left_id_L ∅ (∪)). replace (upto 20 c) with (upto 19 c) by (unfold upto; cbn; by rewrite E). apply reads_nil.
  - destruct (Observe c) as [[]|] eqn:E; [done| |].
    + replace (upto 21 c) with (set_Observe (upto 20 c) (Some false)) by (unfold upto; cbn; by rewrite E).
      apply (block_bool path step (upto 20 c) _ "observe" "features_observe" false (fun c v => set_Observe c (Some v))); first [done|fresh_key].
    + cbn [opt]. rewrite (left_id_L ∅ (∪)). replace (upto 21 c) with (upto 20 c) by (unfold upto; cbn; by rewrite E). apply reads_nil.
Qed.
End blocks.

(** ** The file *)

Section top.
Context `{Unicode} (path : string).

Lemma top_block st st' seen name e (lower : kive_state -> list Stmt -> result Error kive_state) :
  name ∉ seen ->
  (forall body p, kiveStep path (st, seen) (SBlock name "" body p)
    = (if bool_decide (name ∈ seen) then Err (Err_at path p (DuplicateBlock name))
       else let? st := lower st body in Ok (st, {[name]} ∪ seen))) ->
  (forall body, same body e -> lower st body = Ok st') ->
  reads (kiveStep path) (st, seen) [Block name "" e] (st', {[name]} ∪ seen).
Proof.
  intros Hn Hs Hl. apply reads_block. intros body p Hb. rewrite Hs, bool_decide_eq_false_2 by done. by rewrite (Hl body Hb).
Qed.
Lemma top_call c p seen n args q t {A} (read : Call -> string -> result Error A) set v :
  n ∉ p ->
  (forall call, CallName call = n -> applyTopLevelKiveCall path (c, p) call = kive_field path (c, p) call n read set) ->
  (forall args' q' t', same_args args' args -> read (mkCall n args' q' t') path = Ok v) ->
  reads (kiveStep path) ((c, p), seen) [SCall (mkCall n args q t)] ((set c v, {[n]} ∪ p), seen).
Proof.
  intros Hn Hs Hr. apply reads_call. intros args' q' t' Ha. cbn -[applyTopLevelKiveCall]. rewrite Hs by done.
  by rewrite (kive_field_ok path c p n n args' q' t' Hn read set v (Hr _ _ _ Ha)).
Qed.

(** The integers that are written and read back. *)
Definition counted (z : Z) : bool := (0 <=? z) && (z <=? max_int64).
Lemma counted_readable z : counted z = true -> readable_int z = true.
Proof. unfold counted, readable_int. rewrite !andb_true_iff, !Z.leb_le. lia. Qed.

Lemma bucketConfPortArg_reads v z which : readable_int z = true -> erase_value v = Int z -> bucketConfPortArg path v which = Ok z.
Proof.
  unfold readable_int. rewrite andb_true_iff, !Z.leb_le. intros [Hlo Hhi] Hv.
  destruct v as [| | | |[]]; cbn in Hv; try done. injection Hv as -> -> ->. cbn.
  change (Z.lnot 0) with (-1). by rewrite (proj2 (Z.ltb_ge _ _) Hlo), Z.gtb_ltb, (proj2 (Z.ltb_ge _ _) Hhi).
Qed.

(** Settings that the file can hold: what a load makes of them. *)
Record kive_ok (c : KiveConf) : Prop := {
  ok_counts : forallb counted
    [LogRunRetentionCount c; LogRunRetentionDays c; BackupRetentionCount c; HealthWaitSeconds c; HealthPollIntervalSeconds c;
     MaxConcurrentSyncs c; CertsTTL c; CertsRenewalBuffer c] = true;
  ok_port : readable_int (SSHPort c) = true;
  ok_syncs : 1 <= MaxConcurrentSyncs c;
  ok_ttl : CertsTTL c <> 0;
  ok_observe : Observe c <> Some true;
  ok_timezone : TrimSpace (kTimezone c) = kTimezone c /\ kTimezone c <> "";
  ok_range : kPortRange c = "" \/ exists r, ParsePortRangeValue (kPortRange c) = Ok r /\ kPortRange c = Itoa (PMin r) +:+ "," +:+ Itoa (PMax r);
  ok_profile : JobsProfile c = "" \/ SanitizeJobsProfile (JobsProfile c) = Some (JobsProfile c);
}.

Definition default_keys : list string :=
  ["log_run_retention_count"; "log_run_retention_days"; "backup_retention_count"; "health_wait_seconds";
   "health_poll_interval_seconds"; "max_concurrent_syncs"; "certs_ttl"; "certs_renewal_buffer"; "timezone"].

Lemma ParsePortRangeValue_valid s r : ParsePortRangeValue s = Ok r -> readable_int (PMin r) = true /\ readable_int (PMax r) = true.
Proof.
  unfold ParsePortRangeValue. repeat case_match; try done. intros [= <-]. cbn [PMin PMax].
  match goal with Hv : Validate _ = None |- _ => revert Hv end. unfold Validate. cbn [PMin PMax].
  destruct (_ || _) eqn:E; [done|]. intros _. repeat (apply orb_false_iff in E as [E ?]); bool_to_prop.
  unfold readable_int, max_int64. rewrite !andb_true_iff, !Z.leb_le. lia.
Qed.

(** The keys that are set after each part of the file. *)
Definition keys1 : gset string := {["timezone"]} ∪ ∅.
Definition keys5 (c : KiveConf) : gset string := healthKeys ({["backup_retention_count"]} ∪ logKeys c (sshKeys c keys1)).
Definition keys6 (c : KiveConf) : gset string := {["max_concurrent_syncs"]} ∪ keys5 c.
Definition keys9 (c : KiveConf) : gset string := featKeys c (signerKeys c (interpKeys c (keys6 c))).
Definition keys14 (c : KiveConf) : gset string :=
  opt (negb (JobsProfile c =s "")) "jobs_profile"
  ∪ ({["iptables"]} ∪ ({["certs_renewal_buffer"]} ∪ ({["certs_ttl"]} ∪ (opt (negb (kPortRange c =s "")) "port_range" ∪ keys9 c)))).
Ltac unfold_keys :=
  unfold keys14, keys9, keys6, keys5, keys1, featKeys, signerKeys, interpKeys, healthKeys, logKeys, sshKeys.
Ltac fresh_keys :=
  let k := fresh in let Hk := fresh in
  intros k Hk; repeat (apply elem_of_cons in Hk as [->|Hk]; [unfold_keys; fresh_key|]); by apply elem_of_nil in Hk.

Definition seen5 : gset string := {["health"]} ∪ ({["backup"]} ∪ ({["log_config"]} ∪ ({["ssh"]} ∪ ∅))).
Definition seen6 : gset string := {["deploy"]} ∪ seen5.

Lemma counts_ok c : kive_ok c -> Forall (fun z => readable_int z = true)
  [LogRunRetentionCount c; LogRunRetentionDays c; BackupRetentionCount c; HealthWaitSeconds c; HealthPollIntervalSeconds c;
   MaxConcurrentSyncs c; CertsTTL c; CertsRenewalBuffer c].
Proof.
  intros Hok. apply Forall_forall. intros z Hz. apply counted_readable. pose proof (ok_counts c Hok) as Hc.
  rewrite forallb_forall in Hc. apply Hc. by apply list_elem_of_In.
Qed.

Lemma timezone_reads c : kive_ok c -> reads (kiveStep path) ((upto 0 c, ∅), ∅)
  [SCall (CallStmt "timezone" [ResolveTimezone (kTimezone c)])] ((upto 1 c, keys1), ∅).
Proof.
  intros Hok. destruct (ok_timezone c Hok) as [Ht Hn]. unfold ResolveTimezone. rewrite Ht. destruct (String.eqb_spec (kTimezone c) "") as [?|_]; [done|].
  apply (top_call (upto 0 c) ∅ ∅ "timezone" _ _ _ readTimezone set_kTimezone (kTimezone c)); [fresh_key| |].
  - intros call Hc. unfold applyTopLevelKiveCall. rewrite Hc. reflexivity.
  - intros args q t Ha. unfold readTimezone. rewrite (read_string path "timezone" args q t _ Ha). cbn [rbind]. by rewrite Ht.
Qed.

Lemma kive_head_reads c : kive_ok c ->
  reads (kiveStep path) ((upto 0 c, ∅), ∅)
    ([SCall (CallStmt "timezone" [ResolveTimezone (kTimezone c)])] ++ [Block "ssh" "" (sshStmts c)]
     ++ [Block "log_config" "" (logStmts c)] ++ [Block "backup" "" (int_call "retention_count" (BackupRetentionCount c))]
     ++ [Block "health" "" (healthStmts c)]
     ++ (if MaxConcurrentSyncs c >=? 1 then [Block "deploy" "" (int_call "max_concurrent_syncs" (MaxConcurrentSyncs c))] else []))
    ((upto 13 c, keys6 c), seen6).
Proof.
  intros Hok. pose proof (counts_ok c Hok) as Hcounts. rewrite !Forall_cons in Hcounts.
  destruct Hcounts as (H1 & H2 & H3 & H4 & H5 & H6 & _). pose proof (ok_syncs c Hok) as Hs.
  rewrite (proj2 (Z.geb_le _ _) Hs).
  eapply reads_app; [by apply timezone_reads|].
  eapply reads_app; [apply (top_block (upto 1 c, keys1) (upto 6 c, sshKeys c keys1) ∅ "ssh" _ (lowerSSHBlock path)); [fresh_key|reflexivity|]; apply ssh_reads; [fresh_keys|apply (ok_port c Hok)]|].
  eapply reads_app; [apply (top_block (upto 6 c, sshKeys c keys1) (upto 9 c, logKeys c (sshKeys c keys1)) ({["ssh"]} ∪ ∅) "log_config" _ (lowerLogConfigBlock path)); [fresh_key|reflexivity|]; apply log_reads; [fresh_keys|done|done]|].
  eapply reads_app; [apply (top_block (upto 9 c, logKeys c (sshKeys c keys1)) (upto 10 c, {["backup_retention_count"]} ∪ logKeys c (sshKeys c keys1)) ({["log_config"]} ∪ ({["ssh"]} ∪ ∅)) "backup" _ (lowerBackupBlock path)); [fresh_key|reflexivity|]; apply backup_reads; [fresh_keys|done]|].
  eapply reads_app; [apply (top_block (upto 10 c, {["backup_retention_count"]} ∪ logKeys c (sshKeys c keys1)) (upto 12 c, keys5 c) ({["backup"]} ∪ ({["log_config"]} ∪ ({["ssh"]} ∪ ∅))) "health" _ (lowerHealthBlock path)); [fresh_key|reflexivity|]; apply kive_health_reads; [fresh_keys|done|done]|].
  apply (top_block (upto 12 c, keys5 c) (upto 13 c, keys6 c) seen5 "deploy" _ (lowerDeployBlock path)); [unfold seen5; fresh_key|reflexivity|].
  apply deploy_reads; [fresh_keys|done].
Qed.

Lemma top_optional c n n' p p' seen name e lower :
  reads lower (upto n c, p) e (upto n' c, p') -> name ∉ seen ->
  (forall st body q, kiveStep path (st, seen) (SBlock name "" body q)
    = (if bool_decide (name ∈ seen) then Err (Err_at path q (DuplicateBlock name))
       else let? st := loop lower st body in Ok (st, {[name]} ∪ seen))) ->
  reads (kiveStep path) ((upto n c, p), seen) (optional_block name e)
    ((upto n' c, p'), opt (match e with [] => false | _ => true end) name ∪ seen).
Proof.
  intros Hr Hn Hs. destruct e as [|s e]; cbn [optional_block opt].
  - assert (He : (upto n c, p) = (upto n' c, p')) by (specialize (Hr [] eq_refl); cbn [loop] in Hr; congruence).
    rewrite He, (left_id_L ∅ (∪)). apply reads_nil.
  - by apply (top_block _ _ _ _ _ (loop lower)).
Qed.
Lemma features_reads c p seen : Observe c <> Some true -> fresh p ["features_promotion"; "features_observe"] -> "features" ∉ seen ->
  reads (kiveStep path) ((upto 19 c, p), seen) (if Any c then [Block "features" "" (featStmts c)] else [])
    ((upto 21 c, featKeys c p), opt (Any c) "features" ∪ seen).
Proof.
  intros Ho Hp Hn. pose proof (feat_reads path c p Hp Ho) as Hr.
  assert (He : (if Any c then [Block "features" "" (featStmts c)] else []) = optional_block "features" (featStmts c)
               /\ Any c = match featStmts c with [] => false | _ => true end).
  { unfold Any, featStmts. destruct (Promotion c), (Observe c) as [[]|]; done. }
  destruct He as [-> ->]. by apply (top_optional _ _ _ _ _ _ _ _ _ Hr).
Qed.
Lemma range_reads c p seen : kive_ok c -> "port_range" ∉ p ->
  reads (kiveStep path) ((upto 21 c, p), seen) (if kPortRange c =s "" then [] else emitPortRangeStmt (kPortRange c))
    ((upto 22 c, opt (negb (kPortRange c =s "")) "port_range" ∪ p), seen).
Proof.
  intros Hok Hp. destruct (String.eqb_spec (kPortRange c) "") as [He|Hne]; cbn [negb opt].
  - rewrite (left_id_L ∅ (∪)). replace (upto 22 c) with (upto 21 c) by (unfold upto; cbn; by rewrite He). apply reads_nil.
  - destruct (ok_range c Hok) as [?|(r & Hr & He)]; [done|]. unfold emitPortRangeStmt. rewrite Hr.
    destruct (ParsePortRangeValue_valid _ _ Hr) as [Hmin Hmax].
    apply (top_call (upto 21 c) p seen "port_range" _ _ _ (parsePortRangeCall path) set_kPortRange (kPortRange c)); [done| |].
    + intros call Hc. unfold applyTopLevelKiveCall. rewrite Hc. reflexivity.
    + intros args q t Ha. unfold parsePortRangeCall. cbn [CallArgs]. unfold same_args in Ha. destruct args as [|a [|b [|d args]]]; try done.
      cbn [map] in Ha. injection Ha as Ha Hb.
      rewrite (bucketConfPortArg_reads a _ "min" Hmin Ha). cbn [rbind]. rewrite (bucketConfPortArg_reads b _ "max" Hmax Hb). cbn [rbind]. by rewrite He.
Qed.
Lemma top_int c p seen n z set : n ∉ p -> readable_int z = true ->
  (forall call, CallName call = n -> applyTopLevelKiveCall path (c, p) call = kive_field path (c, p) call n SingleIntArg set) ->
  reads (kiveStep path) ((c, p), seen) (int_call n z) ((set c z, {[n]} ∪ p), seen).
Proof. intros Hn Hz Hs. apply (top_call c p seen n _ _ _ SingleIntArg set z); [done|done|]. intros args q t Ha. by apply read_int. Qed.
Lemma profile_reads c p seen : kive_ok c -> "jobs_profile" ∉ p ->
  reads (kiveStep path) ((upto 25 c, p), seen) (call_string "jobs_profile" (JobsProfile c))
    ((upto 26 c, opt (negb (JobsProfile c =s "")) "jobs_profile" ∪ p), seen).
Proof.
  intros Hok Hp. unfold call_string. destruct (String.eqb_spec (JobsProfile c) "") as [He|Hne]; cbn [negb opt].
  - rewrite (left_id_L ∅ (∪)). replace (upto 26 c) with (upto 25 c) by (unfold upto; cbn; by rewrite He). apply reads_nil.
  - destruct (ok_profile c Hok) as [?|Hs]; [done|].
    apply (top_call (upto 25 c) p seen "jobs_profile" _ _ _ readProfile set_JobsProfile (JobsProfile c)); [done| |].
    + intros call Hc. unfold applyTopLevelKiveCall. rewrite Hc. reflexivity.
    + intros args q t Ha. unfold readProfile. rewrite (read_string path "jobs_profile" args q t _ Ha). cbn [rbind]. by rewrite Hs.
Qed.

Definition seen9 (c : KiveConf) : gset string :=
  opt (Any c) "features" ∪ (opt (match signerStmts c with [] => false | _ => true end) "job_signer"
  ∪ (opt (match interpStmts c with [] => false | _ => true end) "interpreters" ∪ seen6)).
Ltac top_applies := let call := fresh in let Hc := fresh in intros call Hc; unfold applyTopLevelKiveCall; rewrite Hc; reflexivity.

Lemma kive_tail_reads c : kive_ok c ->
  reads (kiveStep path) ((upto 13 c, keys6 c), seen6)
    (optional_block "interpreters" (interpStmts c) ++ optional_block "job_signer" (signerStmts c)
     ++ (if Any c then [Block "features" "" (featStmts c)] else [])
     ++ (if kPortRange c =s "" then [] else emitPortRangeStmt (kPortRange c))
     ++ int_call "certs_ttl" (emittedTTL c) ++ int_call "certs_renewal_buffer" (CertsRenewalBuffer c)
     ++ bool_call "iptables" (Iptables c) ++ call_string "jobs_profile" (JobsProfile c))
    ((c, keys14 c), seen9 c).
Proof.
  intros Hok. pose proof (counts_ok c Hok) as Hcounts. rewrite !Forall_cons in Hcounts.
  destruct Hcounts as (_ & _ & _ & _ & _ & _ & H7 & H8 & _).
  assert (Httl : emittedTTL c = CertsTTL c) by (unfold emittedTTL; destruct (CertsTTL c =? 0) eqn:E; bool_to_prop; [by destruct (ok_ttl c Hok)|done]).
  replace ((c, keys14 c) : kive_state) with (upto 26 c, keys14 c) by (by destruct c).
  eapply reads_app; [apply (top_optional c 13 17 _ (interpKeys c (keys6 c)) _ _ _ (callStep path "interpreters" (interpretersCall path)));
    [apply interp_reads; fresh_keys|unfold seen6, seen5; fresh_key|reflexivity]|].
  eapply reads_app; [apply (top_optional c 17 19 _ (signerKeys c (interpKeys c (keys6 c))) _ _ _ (callStep path "job_signer" (jobSignerCall path)));
    [apply signer_reads; fresh_keys|unfold seen6, seen5; fresh_key|reflexivity]|].
  eapply reads_app; [apply features_reads; [apply (ok_observe c Hok)|fresh_keys|unfold seen6, seen5; fresh_key]|].
  eapply reads_app; [apply range_reads; [done|unfold_keys; fresh_key]|]. rewrite Httl.
  eapply reads_app; [apply (top_int (upto 22 c) _ _ "certs_ttl" (CertsTTL c) set_CertsTTL); [unfold_keys; fresh_key|done|top_applies]|].
  eapply reads_app; [apply (top_int (upto 23 c) _ _ "certs_renewal_buffer" (CertsRenewalBuffer c) set_CertsRenewalBuffer); [unfold_keys; fresh_key|done|top_applies]|].
  eapply reads_app; [apply (top_call (upto 24 c) _ _ "iptables" _ _ _ SingleBoolArg set_Iptables (Iptables c)); [unfold_keys; fresh_key|top_applies|]|].
  { intros args q t Ha. by apply read_bool. }
  apply (profile_reads c); [done|unfold_keys; fresh_key].
Qed.

Lemma kive_reads c : kive_ok c -> reads (kiveStep path) ((emptyKiveConf, ∅), ∅) (kiveStmts c) ((c, keys14 c), seen9 c).
Proof.
  intros Hok. change emptyKiveConf with (upto 0 c). unfold kiveStmts. rewrite !app_assoc.
  pose proof (reads_app _ _ _ _ _ _ (kive_head_reads c Hok) (kive_tail_reads c Hok)) as Hr. rewrite !app_assoc in Hr. exact Hr.
Qed.
End top.

(** ** Writing and loading *)

Section load.
Context `{Unicode} `{FloatText} (LoadLocation : string -> option Location).

Lemma keys14_defaults c : Forall (fun k => bool_decide (k ∈ keys14 c) = true) default_keys.
Proof.
  assert (Hu : forall k (p q : gset string), k ∈ p \/ k ∈ q -> k ∈ p ∪ q) by (intros; by apply elem_of_union).
  repeat (apply Forall_cons; split; [apply bool_decide_eq_true_2; unfold keys14, keys9, keys6, keys5, keys1, featKeys, signerKeys, interpKeys, healthKeys, logKeys, sshKeys;
    repeat (apply Hu; first [left; apply elem_of_singleton; reflexivity | right])|]); apply Forall_nil_2.
Qed.

Lemma withDefaults_written c : kive_ok c -> withDefaults c (keys14 c) = c.
Proof.
  intros Hok. pose proof (keys14_defaults c) as Hk. unfold default_keys in Hk. rewrite !Forall_cons in Hk.
  destruct Hk as (K1 & K2 & K3 & K4 & K5 & K6 & K7 & K8 & K9 & _). generalize dependent (keys14 c). intros present K1 K2 K3 K4 K5 K6 K7 K8 K9.
  destruct (ok_timezone c Hok) as [Ht Hn]. pose proof (ok_ttl c Hok) as Httl. clear Hok.
  destruct c as [a1 a2 a3 a4 a5 a6 a7 a8 a9 b1 b2 b3 b4 b5 b6 b7 b8 b9 c1 c2 c3 c4 c5 c6 c7 c8]. cbn [kTimezone CertsTTL] in *. unfold withDefaults, unless_present. cbn. rewrite K1, K2, K3, K4, K5, K6, K7, K8, K9. cbn [negb].
  unfold ResolveTimezone. rewrite Ht, (proj2 (String.eqb_neq _ _) Hn).
  by rewrite (proj2 (Z.eqb_neq _ _) Httl).
Qed.
Lemma checkNegatives_ok c : kive_ok c -> checkNegatives c = None.
Proof.
  intros Hok. pose proof (ok_counts c Hok) as Hc. pose proof (ok_syncs c Hok) as Hs. cbn [forallb] in Hc. unfold counted in Hc.
  rewrite !andb_true_iff, !Z.leb_le in Hc. unfold checkNegatives.
  repeat match goal with |- (if ?a <? ?b then _ else _) = _ => replace (a <? b) with false by (symmetry; apply Z.ltb_ge; lia) end. done.
Qed.

(** C19: Loading the kive.conf that was written for settings gives the settings
    back, defaults and checks included, for every settings that a load can
    produce and that pass its checks. *)
Theorem load_EmitKiveConf confPath c :
  kive_ok c -> checkLoaded LoadLocation c = None ->
  file_ok (kiveFile c) = true -> slen (EmitKiveConf c) <= MaxSourceBytes ->
  loadKiveConfFromDisk LoadLocation confPath (Some (EmitKiveConf c)) = Ok c.
Proof.
  intros Hok Hchk Hf Hl. destruct (Parse_Emit confPath (kiveFile c) (mkEmitOptions "") Hf eq_refl Hl) as (f & Hp & _ & _ & Hs).
  unfold loadKiveConfFromDisk, ParseKiveConf, EmitKiveConf. rewrite Hp. rewrite (kive_reads confPath c Hok (Stmts f) Hs).
  unfold applyKiveConfDefaultsPresent. rewrite (withDefaults_written c Hok), (checkNegatives_ok c Hok). cbn [rbind]. by rewrite Hchk.
Qed.
End load.

Definition sample_conf : KiveConf :=
  mkKiveConf true "ops" "worker.key" 2222 "accept-new" "json" 50 0 7 180 60 4 "" "/usr/bin/node" "" "" "signer" ["signer"; "old"]
    "30000,30100" 90 10 true "staging" "Asia/Kolkata" true (Some false).
Example load_EmitKiveConf_witness :
  loadKiveConfFromDisk (H := ascii_unicode) (H0 := no_float) (fun _ => Some UTC) "kive.conf" (Some (EmitKiveConf sample_conf)) = Ok sample_conf.
Proof.
  apply (load_EmitKiveConf (H := ascii_unicode) (H0 := no_float)); [|vm_compute; reflexivity|vm_compute; reflexivity|vm_compute; congruence].
  constructor; try (vm_compute; reflexivity); try (vm_compute; congruence).
  - split; [vm_compute; reflexivity|discriminate].
  - right. exists (mkRange 30000 30100). split; vm_compute; reflexivity.
  - right. vm_compute. reflexivity.
Defined.

(** ** Names of files stay in their directory *)

(** A name without a separator that is not a parent directory. *)
Definition confined (s : string) : Prop := s <> "" /\ no_byte slash s = true /\ Contains s ".." = false.

Lemma path_Base_plain s : path_Base s = s -> s <> "/" -> no_byte slash s = true.
Proof.
  unfold path_Base. case_bool_decide as He; [by subst|]. case_bool_decide as Hb; [congruence|]. intros Hs _. rewrite <- Hs.
  apply Split_elem_no_byte with (s := trimRightSlash s).
  pose proof (Split_nonempty (trimRightSlash s) slash) as Hn.
  destruct (exists_last Hn) as (l & x & Hx). rewrite Hx, List.last_last. apply elem_of_app. right. by apply list_elem_of_singleton.
Qed.

Section names.
Context `{Unicode}.

Lemma name_char_spec c : name_char c = true -> c <> slash /\ byte_val c < 128 /\ 33 <= byte_val c.
Proof.
  unfold name_char, name_start. intros Hc.
  assert (Hr : 33 <= byte_val c < 128 /\ byte_val c <> 47) by (rewrite !orb_true_iff, !andb_true_iff in Hc; repeat (bool_to_prop || lia || destruct Hc as [Hc|Hc]); lia).
  split; [|lia]. intros ->. destruct Hr as [_ Hr]. by apply Hr.
Qed.
Lemma matchesName_chars s : matchesName s = true -> all_name_chars s = true.
Proof.
  destruct s as [|c s]; [done|]. cbn [matchesName all_name_chars]. rewrite !andb_true_iff. intros [Hc Hs]. split; [|done].
  unfold name_char. by rewrite Hc.
Qed.
Lemma name_chars_plain s : all_name_chars s = true -> no_byte slash s = true /\ ascii_only s = true /\ forall r, r ∈ bytes s -> 33 <= r < 128.
Proof.
  induction s as [|c s IH]; cbn [all_name_chars no_byte ascii_only bytes]; [intros _; split_and!; try done; by intros r Hr%elem_of_nil|].
  intros [Hc Hs]%andb_true_iff. destruct (name_char_spec c Hc) as (Hne & Hlt & Hge). destruct (IH Hs) as (H1 & H2 & H3).
  split_and!.
  - rewrite H1, bool_decide_eq_false_2 by done. done.
  - rewrite H2. apply andb_true_iff. split; [by apply Z.ltb_lt|done].
  - intros r [->|Hr]%elem_of_cons; [lia|by apply H3].
Qed.
Lemma name_chars_trimmed s : all_name_chars s = true -> TrimSpace s = s.
Proof.
  intros Hs. destruct (name_chars_plain s Hs) as (_ & Ha & Hb). apply TrimSpace_trimmed, trimmed_all.
  rewrite runes_ascii_only by done. intros r Hr. apply IsSpace_above. by apply Hb.
Qed.

Lemma sanitized_profile s r : SanitizeJobsProfile s = Some r ->
  no_byte slash (JobsProfileFileName r) = true /\ SanitizeJobsProfile r = Some r.
Proof.
  unfold SanitizeJobsProfile at 1. destruct (TrimSpace s =s "") eqn:E0; [intros [= <-]; split; reflexivity|].
  destruct (_ || negb (matchesName _)) eqn:E; [done|].
  destruct (path_Base (JobsProfileFileName (TrimSpace s)) =s _) eqn:E2; cbn [negb]; [intros [= <-]|by intros [=]].
  pose proof E as E'. rewrite !orb_false_iff, !negb_false_iff in E'. destruct E' as [_ Hm%matchesName_chars].
  pose proof (name_chars_trimmed _ Hm) as Ht. split.
  + unfold JobsProfileFileName. rewrite Ht, E0. rewrite !no_byte_app. destruct (name_chars_plain _ Hm) as [-> _]. done.
  + unfold SanitizeJobsProfile. by rewrite Ht, E0, E, E2.
Qed.

(** The names that the settings hold are names of files in one directory: a
    sanitised key file or signer has no separator and no parent directory, and
    the file name of a sanitised profile has no separator either. *)
Theorem sanitized_names_confined s r :
  (SanitizeSSHKeyFilename s = Some r -> confined r)
  /\ (sanitizeJobSignerName s = Some r -> confined r)
  /\ (SanitizeJobsProfile s = Some r -> no_byte slash (JobsProfileFileName r) = true /\ SanitizeJobsProfile r = Some r).
Proof.
  split_and!.
  - unfold SanitizeSSHKeyFilename. destruct (TrimSpace s =s "") eqn:E0; [by intros [= <-]|].
    destruct (IsAbs _ || Contains _ "..") eqn:E1; [done|]. apply orb_false_iff in E1 as [Habs Hc].
    destruct (negb _ || _ || _) eqn:E2; [done|]. intros [= <-]. rewrite !orb_false_iff, negb_false_iff in E2.
    destruct E2 as [[Hb%String.eqb_eq Hdot] Hsl%String.eqb_neq]. rewrite Hb in *. split_and!; [by apply String.eqb_neq in E0| |done].
    by apply path_Base_plain.
  - unfold sanitizeJobSignerName. destruct (_ || negb (jobSignerNamePattern _)) eqn:E; [done|]. intros [= <-].
    rewrite !orb_false_iff, !negb_false_iff in E. destruct E as [[[[[[[E1%String.eqb_neq _] _] E4] _] _] _] E8].
    split_and!; [done| |done]. by apply name_chars_plain, matchesName_chars.
  - apply sanitized_profile.
Qed.
End names.

Example sanitized_names_confined_witness :
  (SanitizeSSHKeyFilename " worker.key " = Some "worker.key" -> confined "worker.key")
  /\ (sanitizeJobSignerName " worker.key " = Some "worker.key" -> confined "worker.key")
  /\ (SanitizeJobsProfile " worker.key " = Some "worker.key" ->
        no_byte slash (JobsProfileFileName "worker.key") = true /\ SanitizeJobsProfile "worker.key" = Some "worker.key").
Proof. apply sanitized_names_confined. Defined.
