(* ===== verification/WorkersConf.v ===== *)
(** * workspace: workers.conf and disabled.conf

    workspace/workers_conf.go, workspace/disabled_conf.go, the workers of
    workspace/workspace.go and workspace/worker.go, and the filter of
    workspace/workers_file.go. The files on disk are arguments; the hints of
    the errors are left out. *)
From S2P Require Import Prelude GoStrings ConfSyntax ConfEmit ConfHelpers ConfLexer ConfParser ConfRoundtrip ConfLower.
Open Scope Z_scope.

Record WorkerRecord := mkWorkerRecord {
  Host : string;
  Hostname : string;
  Labels : list string;
  Memory : string;
  CPU : string;
  Tags : gmap string string;
  Position : option Z;
}.
Definition emptyWorkerRecord : WorkerRecord := mkWorkerRecord "" "" [] "" "" ∅ None.

Definition valid_host_rune (r : rune) : bool :=
  in_range 97 122 r || in_range 65 90 r || in_range 48 57 r || (r =? 46) || (r =? 45) || (r =? 95) || (r =? 58).
Definition isValidWorkerHost (host : string) : bool :=
  negb ((host =s "") || (slen host >? 255)) && forallb valid_host_rune (runes host).

Definition workerFields : list string := ["host"; "hostname"; "labels"; "memory"; "cpu"; "tags"; "position"].

Section lower.
Context `{Unicode} (path : string).

Definition tagStep (tags : gmap string string) (stmt : Stmt) : result Error (gmap string string) :=
  match stmt with
  | SBlock _ _ _ p => Err (Err_at path p (BodyOnlyAllows "tags"))
  | SCall c => string_field path c (fun sv => <[CallName c := sv]> tags)
  end.
Definition workerStep (r : WorkerRecord) (stmt : Stmt) : result Error WorkerRecord :=
  let '(mkWorkerRecord h n l m c t p) := r in
  match stmt with
  | SCall s =>
      if CallName s =s "host" then string_field path s (fun h => mkWorkerRecord h n l m c t p)
      else if CallName s =s "hostname" then string_field path s (fun n => mkWorkerRecord h n l m c t p)
      else if CallName s =s "labels" then strings_field path s (fun l => mkWorkerRecord h n l m c t p)
      else if CallName s =s "memory" then string_field path s (fun m => mkWorkerRecord h n l m c t p)
      else if CallName s =s "cpu" then string_field path s (fun c => mkWorkerRecord h n l m c t p)
      else if CallName s =s "position" then int_field path s (fun z => mkWorkerRecord h n l m c t (Some z))
      else Err (UnknownSetting path (CallPos s) (CallName s) workerFields).1
  | SBlock name _ body q =>
      if negb (name =s "tags") then Err (Err_at path q (UnexpectedBlock name "worker"))
      else let? t := loop tagStep t body in Ok (mkWorkerRecord h n l m c t p)
  end.
Definition lowerWorkerBlock (b : Stmt) : result Error WorkerRecord :=
  let? r := loop workerStep emptyWorkerRecord (blockBody b) in
  if Host r =s "" then Err (Err_at path (StmtPos b) (MissingSetting "worker" "host"))
  else if negb (isValidWorkerHost (Host r)) then Err (Err_at path (StmtPos b) (InvalidName "worker host" (Host r)))
  else if negb (Hostname r =s "") && negb (isValidWorkerHost (Hostname r))
  then Err (Err_at path (StmtPos b) (InvalidName "worker hostname" (Hostname r)))
  else Ok r.

Fixpoint lowerWorkers (hosts : list string) (blocks : list Stmt) : result Error (list WorkerRecord) :=
  match blocks with
  | [] => Ok []
  | b :: blocks =>
      let? r := lowerWorkerBlock b in
      if bool_decide (Host r ∈ hosts) then Err (Err_at path (StmtPos b) (DuplicateName "worker host" (Host r)))
      else let? rest := lowerWorkers (hosts ++ [Host r]) blocks in Ok (r :: rest)
  end.
(** The first of the statements that a check refuses. *)
Definition first_not (p : Stmt -> bool) (l : list Stmt) : option Stmt := head (List.filter (fun s => negb (p s)) l).
Definition lowerWorkersFile (f : File) : result Error (list WorkerRecord) :=
  match first_not (fun b => blockName b =s "worker") (TopBlocks (Some f)) with
  | Some b => Err (Err_at path (StmtPos b) (ExpectedBlocks "worker"))
  | None =>
      match first_not isBlock (Stmts f) with
      | Some s => Err (Err_at path (StmtPos s) (ExpectedBlocks "worker"))
      | None => lowerWorkers [] (Blocks (Some f) "worker")
      end
  end.
End lower.

Definition ParseWorkersConf `{Unicode} `{FloatText} (filePath data : string) : result failure (list WorkerRecord) :=
  match Parse filePath data with
  | Err e => Err e
  | Ok f => match lowerWorkersFile filePath f with Err e => Err (Diag e) | Ok ws => Ok ws end
  end.

Definition emitTag (tags : gmap string string) (k : string) : list Stmt :=
  match tags !! k with Some v => [SCall (CallStmt k [v])] | None => [] end.
Definition emitPosition (p : option Z) : list Stmt :=
  match p with Some z => [SCall (CallStmtInt "position" z)] | None => [] end.
Definition workerStmts (w : WorkerRecord) : list Stmt :=
  [SCall (CallStmt "host" [Host w])]
  ++ call_string "hostname" (Hostname w)
  ++ call_strings "labels" (Labels w)
  ++ call_string "memory" (Memory w)
  ++ call_string "cpu" (CPU w)
  ++ emitPosition (Position w)
  ++ unless_empty "tags" (flat_map (emitTag (Tags w)) (sortedKeys (Tags w))).
Definition workersFile (workers : list WorkerRecord) : File :=
  mkFile "" 0 (flat_map (fun w => [Block "worker" "" (workerStmts w)]) workers).
Definition EmitWorkersConf (workers : list WorkerRecord) : string := Emit (workersFile workers) (mkEmitOptions "").

(** ** disabled.conf *)

Record DisabledAllocations := mkDisabled { dJobs : gmap string (list string); dWorkers : list string }.

Section lower.
Context `{Unicode} (path : string).

Definition disabledJobStep (allocations : list string) (stmt : Stmt) : result Error (list string) :=
  match stmt with
  | SBlock _ _ _ p => Err (Err_at path p (BodyOnlyAllows "job"))
  | SCall c =>
      if negb (CallName c =s "allocations") then Err (UnknownSetting path (CallPos c) (CallName c) ["allocations"]).1
      else strings_field path c (fun l => allocations ++ l)
  end.
Definition disabledStep (d : DisabledAllocations) (stmt : Stmt) : result Error DisabledAllocations :=
  match stmt with
  | SBlock name id body p =>
      if negb (name =s "job") then Err (Err_at path p (UnexpectedBlock name "disabled"))
      else if id =s "" then Err (Err_at path p JobNameRequired)
      else let? l := loop disabledJobStep [] body in Ok (mkDisabled (<[id := l]> (dJobs d)) (dWorkers d))
  | SCall c =>
      if negb (CallName c =s "workers") then Err (UnknownSetting path (CallPos c) (CallName c) ["workers"]).1
      else strings_field path c (fun ws => mkDisabled (dJobs d) (dWorkers d ++ ws))
  end.
Definition lowerDisabledFile (f : File) : result Error DisabledAllocations :=
  match Blocks (Some f) "disabled", Stmts f with
  | [], [] => Ok (mkDisabled ∅ [])
  | [], s :: _ => Err (Err_at path (StmtPos s) (ExpectedBlocks "disabled"))
  | [b], [_] => loop disabledStep (mkDisabled ∅ []) (blockBody b)
  | b :: _, _ => Err (Err_at path (StmtPos b) (ExpectedBlocks "disabled"))
  end.
End lower.

Definition ParseDisabledConf `{Unicode} `{FloatText} (filePath data : string) : result failure DisabledAllocations :=
  match Parse filePath data with
  | Err e => Err e
  | Ok f => match lowerDisabledFile filePath f with Err e => Err (Diag e) | Ok d => Ok d end
  end.

Definition emitDisabledJob (jobs : gmap string (list string)) (name : string) : list Stmt :=
  match jobs !! name with Some l => [Block "job" name (call_strings "allocations" l)] | None => [] end.
Definition disabledStmts (d : DisabledAllocations) : list Stmt :=
  flat_map (emitDisabledJob (dJobs d)) (sortedKeys (dJobs d)) ++ call_strings "workers" (dWorkers d).
Definition disabledFile (d : DisabledAllocations) : File := mkFile "" 0 [Block "disabled" "" (disabledStmts d)].
Definition EmitDisabledConf (d : DisabledAllocations) : string := Emit (disabledFile d) (mkEmitOptions "").

(** ** The workers of a workspace (workspace.go, worker.go) *)

Record Worker := mkWorker {
  wHost : string;
  wHostname : string;
  wLabels : list string;
  wMemory : string;
  wCPU : string;
  wTags : gmap string string;
  wPosition : Z;
}.
Inductive worker_error := EmptyHost | DuplicateHost (host : string).

Section workers.
Context `{Unicode}.
Definition normalized (s : string) : string := ToLower (TrimSpace s).
(** Two tags whose keys are the same when normalised leave one of the values,
    the last one of Go's map order, here that of [map_to_list]. *)
Definition NewWorker (host : string) (labels : list string) (memory cpu : string) (tags : gmap string string) (position : Z) : Worker :=
  mkWorker (TrimSpace host) "" (map normalized (labels ++ ["worker"]))
    (if TrimSpace memory =s "" then "0 MB" else memory)
    (if TrimSpace cpu =s "" then "0 MHZ" else cpu)
    (foldl (fun t kv => <[normalized kv.1 := normalized kv.2]> t) ∅ (map_to_list tags)) position.
Fixpoint getWorkers (idx : Z) (seenHosts : list string) (rawWorkers : list WorkerRecord) : result worker_error (list Worker) :=
  match rawWorkers with
  | [] => Ok []
  | raw :: rawWorkers =>
      let host := TrimSpace (Host raw) in
      if host =s "" then Err EmptyHost
      else if bool_decide (host ∈ seenHosts) then Err (DuplicateHost host)
      else
        let w := NewWorker host (Labels raw) (Memory raw) (CPU raw) (Tags raw) (default idx (Position raw)) in
        let hn := TrimSpace (Hostname raw) in
        let w := if hn =s "" then w else mkWorker (wHost w) hn (wLabels w) (wMemory w) (wCPU w) (wTags w) (wPosition w) in
        let? rest := getWorkers (idx + 1) (seenHosts ++ [host]) rawWorkers in Ok (w :: rest)
  end.
Definition GetWorkers (rawWorkers : list WorkerRecord) : result worker_error (list Worker) := getWorkers 0 [] rawWorkers.

(** workers_file.go *)
Definition FilterWorkersByLabels (workers : list WorkerRecord) (filterLabels : list string) : list WorkerRecord :=
  match filterLabels with
  | [] => workers
  | _ =>
      match List.filter nonempty_string (map normalized filterLabels) with
      | [] => workers
      | wanted => List.filter (fun w => existsb (fun want => bool_decide (want ∈ map normalized (Labels w ++ ["worker"]))) wanted) workers
      end
  end.
End workers.

(** ** workers.conf and disabled.conf: round trips and accepted workers *)

(** ** Files of blocks of one name *)

Definition named_block (n : string) (s : Stmt) : bool := isBlock s && (blockName s =s n).
Lemma named_block_erase n s : named_block n (erase_stmt s) = named_block n s.
Proof. by destruct s as [|[]]. Qed.
Lemma same_forallb p b e : (forall s, p (erase_stmt s) = p s) -> same b e -> forallb p b = forallb p e.
Proof.
  intros Hp. unfold same. revert e. induction b as [|s b IH]; intros [|s' e]; cbn; try done. intros [= Hs Hb].
  by rewrite <- (Hp s), Hs, Hp, (IH e Hb).
Qed.
Lemma filter_forallb {A} (p : A -> bool) l : forallb p l = true -> List.filter p l = l.
Proof. induction l as [|x l IH]; cbn; [done|]. intros [-> Hl]%andb_true_iff. by rewrite IH. Qed.
Lemma forallb_impl {A} (p q : A -> bool) l : (forall x, p x = true -> q x = true) -> forallb p l = true -> forallb q l = true.
Proof. rewrite !forallb_forall. auto. Qed.
Lemma first_not_none p l : forallb p l = true -> first_not p l = None.
Proof.
  intros H. unfold first_not. replace (List.filter (fun s => negb (p s)) l) with (@nil Stmt); [done|].
  induction l as [|s l IH]; cbn in *; [done|]. apply andb_true_iff in H as [-> Hl]. cbn. by apply IH.
Qed.

(** A file of [n] blocks passes the checks of the top level. *)
Lemma blocks_of_file n f : forallb (named_block n) (Stmts f) = true ->
  first_not (fun b => blockName b =s n) (TopBlocks (Some f)) = None
  /\ first_not isBlock (Stmts f) = None /\ Blocks (Some f) n = Stmts f.
Proof.
  intros H.
  assert (Hb : forallb isBlock (Stmts f) = true) by (apply (forallb_impl (named_block n)); [by intros s [? ?]%andb_true_iff|done]).
  split_and!.
  - unfold TopBlocks. cbn [fileStmts]. rewrite filter_forallb by done. apply first_not_none.
    apply (forallb_impl (named_block n)); [by intros s [? ?]%andb_true_iff|done].
  - by apply first_not_none.
  - unfold Blocks. cbn [fileStmts]. apply filter_forallb, (forallb_impl (named_block n)); [|done].
    intros s [-> Hs]%andb_true_iff. cbn. apply bool_decide_eq_true. by apply String.eqb_eq.
Qed.

(** ** workers.conf *)

Definition worker_ok (w : WorkerRecord) : bool :=
  isValidWorkerHost (Host w) && ((Hostname w =s "") || isValidWorkerHost (Hostname w))
  && match Position w with Some z => readable_int z | None => true end.

Section facts.
Context `{Unicode}.

Lemma tags_read path tags : reads (tagStep path) ∅ (flat_map (emitTag tags) (sortedKeys tags)) tags.
Proof.
  apply (reads_keys _ _ (fun t => t)). intros k v acc Hk _. unfold emitTag. rewrite Hk. apply reads_call.
  intros args p t (v' & -> & Hv)%same_value. destruct v' as [| | | |[]]; cbn in Hv; try done. injection Hv as ->. done.
Qed.

Lemma worker_reads path w : worker_ok w = true -> reads (workerStep path) emptyWorkerRecord (workerStmts w) w.
Proof.
  unfold worker_ok. rewrite !andb_true_iff. intros [_ Hp]. destruct w as [h n l m c t p]. cbn [Position] in Hp.
  unfold workerStmts. cbn [Host Hostname Labels Memory CPU Position Tags]. set (step := workerStep path).
  apply (reads_app _ _ (mkWorkerRecord h "" [] "" "" ∅ None)).
  { apply reads_call. intros args q u (v & -> & Hv)%same_value. destruct v as [| | | |[]]; cbn in Hv; try done. by injection Hv as ->. }
  read_field (reads_string step path "hostname" n _ (fun n => mkWorkerRecord h n [] "" "" ∅ None)).
  read_field (reads_strings step path "labels" l _ (fun l => mkWorkerRecord h n l "" "" ∅ None)).
  read_field (reads_string step path "memory" m _ (fun m => mkWorkerRecord h n l m "" ∅ None)).
  read_field (reads_string step path "cpu" c _ (fun c => mkWorkerRecord h n l m c ∅ None)).
  apply (reads_app _ _ (mkWorkerRecord h n l m c ∅ p)).
  { destruct p as [z|]; [|apply reads_nil]. by apply (reads_int_always step path "position" z _ (fun z => mkWorkerRecord h n l m c ∅ (Some z))). }
  apply reads_unless_empty.
  - intros E. f_equal. pose proof (tags_read path t []) as Ht. rewrite E in Ht. by injection (Ht eq_refl).
  - intros _. apply reads_block. intros body q Hb. cbn. by rewrite (tags_read path t body Hb).
Qed.

Lemma lower_workers_read path ws : forall hosts b,
  forallb worker_ok ws = true -> NoDup (map Host ws) -> (forall w, w ∈ ws -> Host w ∉ hosts) ->
  same b (flat_map (fun w => [Block "worker" "" (workerStmts w)]) ws) -> lowerWorkers path hosts b = Ok ws.
Proof.
  induction ws as [|w ws IH]; intros hosts b Hok Hnd Hh Hb; cbn [flat_map] in Hb; [by apply same_nil in Hb as ->|].
  apply (same_app b [Block "worker" "" (workerStmts w)]) in Hb as (b1 & b2 & -> & (body & p & -> & Hbody)%same_block & Hb2).
  cbn [forallb map] in *. apply andb_true_iff in Hok as [Hw Hok]. apply NoDup_cons in Hnd as [Hnew Hnd].
  cbn [app lowerWorkers]. unfold lowerWorkerBlock at 1. cbn [blockBody]. rewrite (worker_reads path w Hw body Hbody). cbn [rbind].
  pose proof Hw as Hw'. unfold worker_ok in Hw'. rewrite !andb_true_iff, orb_true_iff in Hw'. destruct Hw' as [[Hv Hn] _].
  destruct (String.eqb_spec (Host w) "") as [E|_]; [by rewrite E in Hv|]. rewrite Hv. cbn [negb].
  replace (negb (Hostname w =s "") && negb (isValidWorkerHost (Hostname w))) with false by (destruct Hn as [->| ->]; by rewrite ?andb_false_r).
  cbn [rbind]. rewrite bool_decide_eq_false_2 by (apply Hh; left).
  rewrite (IH (hosts ++ [Host w]) b2 Hok Hnd); [done| |done].
  intros w' Hw'. rewrite not_elem_of_app, list_elem_of_singleton. split; [apply Hh; by right|].
  intros E. apply Hnew. rewrite <- E. by apply list_elem_of_In, in_map, list_elem_of_In.
Qed.

(** The workers written to workers.conf are read back. *)
Theorem ParseWorkersConf_EmitWorkersConf `{FloatText} fp ws :
  forallb worker_ok ws = true -> NoDup (map Host ws) -> file_ok (workersFile ws) = true ->
  slen (EmitWorkersConf ws) <= MaxSourceBytes -> ParseWorkersConf fp (EmitWorkersConf ws) = Ok ws.
Proof.
  intros Hok Hnd Hf Hl. destruct (Parse_Emit fp (workersFile ws) (mkEmitOptions "") Hf eq_refl Hl) as (f & Hp & _ & _ & Hs).
  unfold ParseWorkersConf, EmitWorkersConf. rewrite Hp. unfold lowerWorkersFile.
  destruct (blocks_of_file "worker" f) as (-> & -> & ->).
  { rewrite (same_forallb _ _ _ (named_block_erase "worker") Hs). clear. induction ws as [|w ws IH]; [done|]. cbn. exact IH. }
  rewrite (lower_workers_read fp ws [] (Stmts f) Hok Hnd); [done| |done]. intros w _. apply not_elem_of_nil.
Qed.

(** ** disabled.conf *)

Lemma disabled_reads path d : (forall name, is_Some (dJobs d !! name) -> name <> "") ->
  reads (disabledStep path) (mkDisabled ∅ []) (disabledStmts d) d.
Proof.
  intros Hn. destruct d as [jobs ws]. cbn [dJobs] in Hn. unfold disabledStmts. cbn [dJobs dWorkers].
  apply (reads_app _ _ (mkDisabled jobs [])).
  - apply (reads_keys _ _ (fun j => mkDisabled j [])). intros k v acc Hk _. unfold emitDisabledJob. rewrite Hk.
    apply reads_block. intros body p Hb. cbn. destruct (String.eqb_spec k "") as [->|_]; [by destruct (Hn ""); [eauto|]|].
    enough (loop (disabledJobStep path) [] body = Ok v) as -> by done.
    apply (reads_strings (disabledJobStep path) path "allocations" v [] (fun l => l)); done.
  - by apply (reads_strings (disabledStep path) path "workers" ws (mkDisabled jobs []) (fun w => mkDisabled jobs w)).
Qed.

(** The disabled allocations written to disabled.conf are read back. *)
Theorem ParseDisabledConf_EmitDisabledConf `{FloatText} fp d :
  (forall name, is_Some (dJobs d !! name) -> name <> "") -> file_ok (disabledFile d) = true ->
  slen (EmitDisabledConf d) <= MaxSourceBytes -> ParseDisabledConf fp (EmitDisabledConf d) = Ok d.
Proof.
  intros Hn Hf Hl. destruct (Parse_Emit fp (disabledFile d) (mkEmitOptions "") Hf eq_refl Hl) as (f & Hp & _ & _ & Hs).
  unfold ParseDisabledConf, EmitDisabledConf. rewrite Hp. unfold lowerDisabledFile.
  apply same_block in Hs as (body & p & Hs & Hb). unfold Blocks. cbn [fileStmts]. rewrite Hs. cbn -[loop].
  rewrite bool_decide_eq_true_2 by done. cbn -[loop].
  by rewrite (disabled_reads fp d Hn body Hb).
Qed.

(** ** The workers of a workspace *)

Lemma valid_host_trimmed h : isValidWorkerHost h = true -> TrimSpace h = h /\ h <> "".
Proof.
  unfold isValidWorkerHost. rewrite andb_true_iff, negb_true_iff, orb_false_iff, forallb_forall. intros [[Hne _] Hr]. split.
  - apply TrimSpace_trimmed, trimmed_all. intros r Hin%list_elem_of_In. apply Hr in Hin. apply IsSpace_above.
    unfold valid_host_rune, in_range in Hin. blia.
  - by destruct (String.eqb_spec h "").
Qed.

Lemma lowerWorkers_valid path bs : forall hosts ws, lowerWorkers path hosts bs = Ok ws ->
  Forall (fun w => isValidWorkerHost (Host w) = true) ws /\ NoDup (map Host ws) /\ (forall w, w ∈ ws -> Host w ∉ hosts).
Proof.
  induction bs as [|b bs IH]; intros hosts ws; cbn [lowerWorkers].
  { intros [= <-]. split_and!; [constructor|constructor|by intros w ?%elem_of_nil]. }
  destruct (lowerWorkerBlock path b) as [r|] eqn:Hr; cbn [rbind]; [|done].
  destruct (bool_decide (Host r ∈ hosts)) eqn:Hin; [done|]. apply bool_decide_eq_false in Hin.
  destruct (lowerWorkers path _ bs) as [rest|] eqn:Hrest; cbn [rbind]; [|done]. intros [= <-].
  destruct (IH _ _ Hrest) as (Hv & Hnd & Hh).
  assert (Hvr : isValidWorkerHost (Host r) = true).
  { unfold lowerWorkerBlock in Hr. destruct (loop _ _ _) as [r'|]; cbn [rbind] in Hr; [|done].
    destruct (Host r' =s ""); [done|]. destruct (isValidWorkerHost (Host r')) eqn:E; cbn [negb] in Hr; [|done].
    destruct (_ && _); [done|]. by injection Hr as <-. }
  split_and!; [by constructor| |].
  - cbn. constructor; [|done]. intros (w & Hw & Hws)%list_elem_of_fmap. apply (Hh w Hws). rewrite <- Hw. apply elem_of_app. right. left.
  - intros w [->|Hw]%elem_of_cons; [done|]. intros Hw'. apply (Hh w Hw), elem_of_app. by left.
Qed.
Lemma ParseWorkersConf_valid `{FloatText} fp data ws : ParseWorkersConf fp data = Ok ws ->
  Forall (fun w => isValidWorkerHost (Host w) = true) ws /\ NoDup (map Host ws).
Proof.
  unfold ParseWorkersConf, lowerWorkersFile. destruct (Parse fp data) as [f|]; [|done].
  destruct (first_not _ _); [done|]. destruct (first_not _ _); [done|].
  destruct (lowerWorkers _ _ _) as [ws'|] eqn:E; [|done]. intros [= <-]. by destruct (lowerWorkers_valid _ _ _ _ E) as (? & ? & _).
Qed.

Lemma getWorkers_valid ws : forall idx seen,
  Forall (fun w => isValidWorkerHost (Host w) = true) ws -> NoDup (map Host ws) -> (forall w, w ∈ ws -> Host w ∉ seen) ->
  exists out, getWorkers idx seen ws = Ok out /\ map wHost out = map Host ws
    /\ Forall2 (fun w r => wLabels w = map normalized (Labels r ++ ["worker"])) out ws
    /\ forall i w r, out !! i = Some w -> ws !! i = Some r -> wPosition w = default (idx + Z.of_nat i) (Position r).
Proof.
  induction ws as [|r ws IH]; intros idx seen Hv Hnd Hs; cbn [getWorkers].
  { exists []. split_and!; [done|done|constructor|done]. }
  apply Forall_cons in Hv as [Hr Hv]. cbn [map] in Hnd. apply NoDup_cons in Hnd as [Hnew Hnd].
  destruct (valid_host_trimmed _ Hr) as [Ht Hne]. rewrite Ht. destruct (String.eqb_spec (Host r) "") as [|_]; [done|].
  rewrite bool_decide_eq_false_2 by (apply Hs; left).
  destruct (IH (idx + 1) (seen ++ [Host r]) Hv Hnd) as (out & -> & Hh & Hl & Hp).
  { intros w Hw. rewrite not_elem_of_app, list_elem_of_singleton. split; [apply Hs; by right|].
    intros E. apply Hnew. rewrite <- E. by apply list_elem_of_In, in_map, list_elem_of_In. }
  cbn [rbind]. eexists. split; [done|]. split_and!.
  - cbn [map]. f_equal; [|done]. destruct (TrimSpace (Hostname r) =s ""); cbn [wHost NewWorker]; done.
  - constructor; [|done]. by destruct (TrimSpace (Hostname r) =s "").
  - intros [|i] w r'; cbn [lookup].
    + intros [= <-] [= <-]. cbn [Z.of_nat]. rewrite Z.add_0_r. by destruct (TrimSpace (Hostname r) =s "").
    + intros Hi Hj. rewrite (Hp i w r' Hi Hj). f_equal. lia.
Qed.

(** Every workers.conf that is accepted gives workers: their hosts are those of
    the file, without duplicates and safe to put into a shell command, each has
    the label [worker] besides its own, and a worker without a position has its
    index in the file. *)
Theorem GetWorkers_ParseWorkersConf `{FloatText} fp data ws :
  ParseWorkersConf fp data = Ok ws ->
  exists out, GetWorkers ws = Ok out /\ map wHost out = map Host ws /\ NoDup (map wHost out)
    /\ Forall (fun w => isValidWorkerHost (wHost w) = true) out
    /\ Forall2 (fun w r => wLabels w = map normalized (Labels r ++ ["worker"])) out ws
    /\ forall i w r, out !! i = Some w -> ws !! i = Some r -> wPosition w = default (Z.of_nat i) (Position r).
Proof.
  intros [Hv Hnd]%ParseWorkersConf_valid.
  destruct (getWorkers_valid ws 0 [] Hv Hnd) as (out & Hout & Hh & Hl & Hp); [by intros w _ ?%elem_of_nil|].
  exists out. split_and!; [done|done|by rewrite Hh| |done|exact Hp].
  apply Forall_forall. intros w Hw. rewrite Forall_forall in Hv.
  assert (Hin : wHost w ∈ map Host ws) by (rewrite <- Hh; by apply list_elem_of_In, in_map, list_elem_of_In).
  apply list_elem_of_fmap in Hin as (r & -> & Hr). by apply Hv.
Qed.
End facts.

(** ** A concrete cluster *)

Definition sample_workers : list WorkerRecord :=
  [mkWorkerRecord "10.0.0.1" "alpha" ["web"; "EU"] "2048 mb" "" (<["rack" := "A1"]> ∅) None;
   mkWorkerRecord "10.0.0.2" "" [] "" "2400 mhz" ∅ (Some 7)].
Lemma ParseWorkersConf_EmitWorkersConf_witness :
  ParseWorkersConf (H := ascii_unicode) (H0 := no_float) "workers.conf" (EmitWorkersConf sample_workers) = Ok sample_workers.
Proof.
  apply (ParseWorkersConf_EmitWorkersConf (H := ascii_unicode) (H0 := no_float)); [reflexivity| |vm_compute; reflexivity|vm_compute; congruence].
  repeat constructor; cbn; intros Hin; repeat (apply elem_of_cons in Hin as [[=]|Hin]); by apply elem_of_nil in Hin.
Defined.
Lemma GetWorkers_ParseWorkersConf_witness :
  exists out, GetWorkers (H := ascii_unicode) sample_workers = Ok out /\ map wHost out = ["10.0.0.1"; "10.0.0.2"].
Proof.
  destruct (GetWorkers_ParseWorkersConf (H := ascii_unicode) (H0 := no_float) "workers.conf" (EmitWorkersConf sample_workers) sample_workers)
    as (out & Hout & Hh & _); [vm_compute; reflexivity|by exists out].
Defined.
Definition sample_disabled : DisabledAllocations :=
  mkDisabled (<["api" := ["10.0.0.1"]]> (<["db" := []]> ∅)) ["10.0.0.2"].
Lemma ParseDisabledConf_EmitDisabledConf_witness :
  ParseDisabledConf (H := ascii_unicode) (H0 := no_float) "disabled.conf" (EmitDisabledConf sample_disabled) = Ok sample_disabled.
Proof.
  apply (ParseDisabledConf_EmitDisabledConf (H := ascii_unicode) (H0 := no_float)); [|vm_compute; reflexivity|vm_compute; congruence].
  intros name [l Hl]. cbn in Hl. rewrite !lookup_insert_Some, lookup_empty in Hl. by destruct Hl as [[<- _]|[_ [[<- _]|[_ ?]]]].
Defined.

