(* ===== verification/Catalog.v ===== *)
(** * data: workers, jobs and the queries on them

    The tables [workers], [worker_labels], [worker_tags], [jobs],
    [job_selectors] and [job_ports] of data/schema.go with the queries of
    data/worker.go, data/job.go, data/job_ports.go and data/worker_catalog.go.
    A query without ORDER BY lists the rows in the order of the table, and so
    do rows that ORDER BY does not tell apart. [None] is the error of a
    missing row. *)
From S2P Require JobConf.
From S2P Require Import Prelude GoStrings Utils Versions Ports AllocState.
Open Scope Z_scope.

Record WorkerRow := mkWorkerRow { wkID : string; wkIP : string; wkMemory : string; wkCPU : string; wkPosition : Z }.
(** The columns of [jobs] that only hooks, health checks and rollouts read. A
    column of JSON is what it decodes to. *)
Record JobColumns := mkJobColumns {
  jcDeploymentPriority : Z;
  jcDeploymentOrder : Z;
  jcDeploymentSeq : Z;
  jcMemorySource : string;
  jcCPUSource : string;
  jcCPUSharesSource : string;
  jcMaxConcurrentRestarts : Z;
  jcMaxConcurrentStarts : Z;
  jcMaxConcurrentStops : Z;
  jcRestartPolicy : string;
  jcRestartGlobs : list string;
  jcReloadGlobs : list string;
  jcHealthCheck : option JobConf.ManifestHealthCheck;
  jcSignatureStatus : string;
  jcSignatureSigner : string;
  jcSignatureDigest : string;
}.
(** The defaults of the schema. *)
Definition defaultColumns : JobColumns := mkJobColumns 0 0 0 "manifest" "manifest" "manifest" 1 0 0 "always" [] [] None "unsigned" "" "".
Record JobRow := mkJobRow {
  jbID : string;
  jbName : string;
  jbVersion : string;
  jbMinMemory : string;
  jbMaxMemory : string;
  jbMemory : string;
  jbMinCPU : string;
  jbMaxCPU : string;
  jbCPU : string;
  jbCPUShares : Z;
  jbColumns : JobColumns;
}.
Record Catalog := mkCatalog {
  workers : list WorkerRow;
  worker_labels : list (string * string);
  worker_tags : list (string * (string * string));
  jobs : list JobRow;
  job_selectors : list (string * string);
  job_ports : list PortRow;
}.

(** ** ORDER BY *)

Definition position_le (a b : Z * string) : Prop := a.1 < b.1 \/ a.1 = b.1 /\ String.le a.2 b.2.
#[export] Instance position_le_dec a b : Decision (position_le a b).
Proof. unfold position_le. apply _. Defined.
Definition by_position : list (Z * string) -> list string := fun l => (merge_sort position_le l).*2.
Definition worker_le (a b : WorkerRow) : Prop := wkPosition a <= wkPosition b.
#[export] Instance worker_le_dec a b : Decision (worker_le a b).
Proof. unfold worker_le. apply _. Defined.

(** ** Workers (worker.go) *)

Definition hasLabel (c : Catalog) (w : WorkerRow) (label : string) : bool :=
  bool_decide ((wkID w, label) ∈ worker_labels c).
Definition GetWorkers (c : Catalog) (labels : list string) : list string :=
  map wkIP (merge_sort worker_le
    (match labels with
     | [] => workers c
     | _ => List.filter (fun w => existsb (hasLabel c w) labels) (workers c)
     end)).
Definition workerOf (c : Catalog) (workerIP : string) : option WorkerRow :=
  head (List.filter (fun w => bool_decide (wkIP w = workerIP)) (workers c)).
Definition GetWorkerID (c : Catalog) (workerIP : string) : option string := wkID <$> workerOf c workerIP.
Definition GetWorkerCPU (c : Catalog) (workerIP : string) : option string := wkCPU <$> workerOf c workerIP.
Definition GetWorkerMemory (c : Catalog) (workerIP : string) : option string := wkMemory <$> workerOf c workerIP.
Definition GetWorkerPosition (c : Catalog) (workerIP : string) : option Z := wkPosition <$> workerOf c workerIP.
Definition labelsOf (c : Catalog) (workerID : string) : list string :=
  (List.filter (fun r => bool_decide (r.1 = workerID)) (worker_labels c)).*2.
Definition GetWorkerLabels (c : Catalog) (workerID : string) : list string := merge_sort String.le (labelsOf c workerID).
Definition GetLabels (c : Catalog) : list string := merge_sort String.le (remove_dups (worker_labels c).*2).
Definition GetWorkerTags (c : Catalog) (workerID : string) : gmap string string :=
  list_to_map (List.filter (fun r => bool_decide (r.1 = workerID)) (worker_tags c)).*2.
(** worker_catalog.go *)
Definition LoadWorkerCatalog (c : Catalog) : gset string := list_to_set (GetWorkers c []).

Definition GetAllocatedJobs (db : DB) (workerIP : string) : list string :=
  map aJob (List.filter (fun a => bool_decide (aWorker a = workerIP)) (allocations db)).
Definition GetActiveAllocatedJobs (db : DB) (workerIP : string) : list string :=
  map aJob (List.filter (fun a => bool_decide (aWorker a = workerIP) && isActive a) (allocations db)).
(** The join with the worker's row, for its position. *)
Definition orderedWorkers (c : Catalog) (db : DB) (job : string) (p : AllocRow -> bool) : list string :=
  by_position (omap (fun ip => (fun pos => (pos, ip)) <$> GetWorkerPosition c ip) (workersWhere db job p)).
Definition GetActiveAllocationsOrdered (c : Catalog) (db : DB) (job : string) : list string := orderedWorkers c db job isActive.
Definition GetNonRemovedAllocationsOrdered (c : Catalog) (db : DB) (job : string) : list string := orderedWorkers c db job notRemoved.
Definition JobHasActiveAllocations (db : DB) (job : string) : option bool :=
  l ← GetActiveAllocations db job; Some (0 <? length l)%nat.
Definition JobHasNonRemovedAllocations (db : DB) (job : string) : bool := (0 <? length (GetNonRemovedAllocations db job))%nat.
(** allocations_meta.go *)
Definition CountJobAllocations (db : DB) (jobName : string) (activeOnly : bool) : Z :=
  Z.of_nat (length (workersWhere db jobName (fun a => notRemoved a && (negb activeOnly || (aDisabled a =? 0))))).

(** ** Jobs (job.go, job_ports.go, version.go) *)

Definition GetJobs (c : Catalog) : list string := map jbName (jobs c).
Definition jobOf (c : Catalog) (job : string) : option JobRow :=
  head (List.filter (fun j => bool_decide (jbName j = job)) (jobs c)).
Definition GetJobID (c : Catalog) (job : string) : option string := jbID <$> jobOf c job.
Definition GetJobVersion (c : Catalog) (job : string) : option string := jbVersion <$> jobOf c job.
Definition TargetJobVersion `{Unicode} (c : Catalog) (job : string) : option string := NormalizeDeployVersion <$> GetJobVersion c job.
Definition GetJobMemoryLimits (c : Catalog) (job : string) : option (string * string) :=
  (fun j => (jbMinMemory j, jbMaxMemory j)) <$> jobOf c job.
Definition GetJobMemory (c : Catalog) (job : string) : option string := jbMemory <$> jobOf c job.
Definition GetJobCPULimits (c : Catalog) (job : string) : option (string * string) :=
  (fun j => (jbMinCPU j, jbMaxCPU j)) <$> jobOf c job.
Definition GetJobCPU (c : Catalog) (job : string) : option string := jbCPU <$> jobOf c job.
Definition GetJobCPUShares (c : Catalog) (job : string) : option string := (fun j => Itoa (jbCPUShares j)) <$> jobOf c job.
Definition atLeastZero (z : Z) : Z := if z <? 0 then 0 else z.
Definition GetMaxConcurrentRestarts (c : Catalog) (job : string) : option Z := (fun j => jcMaxConcurrentRestarts (jbColumns j)) <$> jobOf c job.
Definition GetMaxConcurrentStarts (c : Catalog) (job : string) : option Z :=
  (fun j => atLeastZero (jcMaxConcurrentStarts (jbColumns j))) <$> jobOf c job.
Definition GetMaxConcurrentStops (c : Catalog) (job : string) : option Z :=
  (fun j => atLeastZero (jcMaxConcurrentStops (jbColumns j))) <$> jobOf c job.
Definition GetRestartGlobs (c : Catalog) (job : string) : option (list string) := (fun j => jcRestartGlobs (jbColumns j)) <$> jobOf c job.
Definition GetReloadGlobs (c : Catalog) (job : string) : option (list string) := (fun j => jcReloadGlobs (jbColumns j)) <$> jobOf c job.
Definition selectorsOf (c : Catalog) (jobID : string) : list string :=
  (List.filter (fun r => bool_decide (r.1 = jobID)) (job_selectors c)).*2.
Definition GetJobSelectors (c : Catalog) (job : string) : list string :=
  match GetJobID c job with Some id => selectorsOf c id | None => [] end.
Definition GetPortMap (c : Catalog) (job : string) : gmap string string :=
  match GetJobID c job with
  | Some id => foldl (fun m r => <[pName r := Itoa (pPort r)]> m) ∅
                 (List.filter (fun r => bool_decide (pJobID r = id)) (job_ports c))
  | None => ∅
  end.
(** [None] is the error of a missing row. *)
Definition GetPortNumber (c : Catalog) (job portName : string) : option Z :=
  id ← GetJobID c job;
  pPort <$> head (List.filter (fun r => bool_decide (pJobID r = id) && bool_decide (pName r = portName)) (job_ports c)).
(** The join of the ports with the jobs. *)
Definition GetAllPortAssignments (c : Catalog) : Assignments :=
  foldl (fun m r => foldl (fun m j => <[(jbName j, pName r) := pPort r]> m) m
                      (List.filter (fun j => bool_decide (jbID j = pJobID r)) (jobs c)))
    ∅ (job_ports c).

(** ** Allocated and deployed jobs (job.go) *)

(** SELECT DISTINCT ... ORDER BY. *)
Definition distinctSorted (l : list string) : list string := merge_sort String.le (remove_dups l).
Definition JobInCatalog (c : Catalog) (job : string) : bool :=
  0 <? Z.of_nat (length (List.filter (fun j => bool_decide (jbName j = job)) (jobs c))).
Definition GetAllAllocatedJobs (db : DB) : list string := remove_dups (map aJob (allocations db)).
Definition GetDeployableJobs (db : DB) : list string := distinctSorted (map aJob (List.filter notRemoved (allocations db))).
(** The predicates on the joined hash row: [ifnull] reads NULL as the empty
    string. *)
Definition appliedHash (db : DB) (a : AllocRow) : option string :=
  h ← allocation_hashes db !! aAllocID a; Some (default "" (applied_hash h)).
Definition allocationDeployed (db : DB) (a : AllocRow) : bool :=
  match appliedHash db a with Some h => negb (String.eqb h "") | None => false end.
Definition allocationLive (db : DB) (a : AllocRow) : bool :=
  match appliedHash db a with Some h => negb (String.eqb h "") && negb (String.eqb h HealthFailedAppliedHash) | None => false end.
Definition GetDeployedJobs (db : DB) : list string :=
  distinctSorted (map aJob (List.filter (fun a => notRemoved a && allocationDeployed db a) (allocations db))).
Definition GetDeployedJobsByDeploymentSeq (c : Catalog) (deploymentSeq : string -> Z) (db : DB) (seq : Z) : list string :=
  distinctSorted (map aJob (List.filter (fun a => notRemoved a && allocationDeployed db a && JobInCatalog c (aJob a)
                                                    && (deploymentSeq (aJob a) =? seq)) (allocations db))).
Definition queryActiveAllocationWorkers (db : DB) (job : string) (hashPredicate : AllocRow -> bool) : list string :=
  workersWhere db job (fun a => isActive a && hashPredicate a).
Definition GetDeployedActiveAllocations (db : DB) (job : string) : list string :=
  queryActiveAllocationWorkers db job (allocationLive db).
Definition GetHealthCheckActiveAllocations (db : DB) (job : string) : list string :=
  queryActiveAllocationWorkers db job (allocationDeployed db).
