(* ===== verification/Resources.v ===== *)
(** * utils, workspace and build: memory and processor quantities

    utils/units.go, the quantities of build/build_jobs.go, the discovered facts
    of workspace/workers_file.go and ValidateWorkerResources of
    build/validate.go. A quantity is a float64; the text of an error is left
    out. *)
From S2P Require Import Prelude GoStrings GoFloat Utils Ports AllocState WorkersConf Catalog.
Open Scope Z_scope.

(** ** Units (units.go) *)

Inductive unit_error := InvalidQuantity (raw : string) | BadNumber (text : string) | UnsupportedUnit (unit : string).

Fixpoint span (p : ascii -> bool) (s : string) : string * string :=
  match s with
  | String c t => if p c then let '(a, b) := span p t in (String c a, b) else ("", s)
  | "" => ("", "")
  end.
Definition size_char (c : ascii) : bool := is_digit_ascii (byte_val c) || bool_decide (c = "."%char).
Definition re_space (c : ascii) : bool := mem (byte_val c) [9; 10; 12; 13; 32].
(** [(?i)[a-z]], with the two runes that fold to an ASCII letter. *)
Definition re_letter (r : rune) : bool := is_upper_ascii r || is_lower_ascii r || (r =? 383) || (r =? 8490).
(** The groups of the two regular expressions: digits and points, white space,
    letters. *)
Definition quantityPattern (raw : string) : option (string * string) :=
  let '(number, rest) := span size_char raw in
  let letters := (span re_space rest).2 in
  if nonempty_string number && forallb re_letter (runes letters) then Some (number, letters) else None.
(** [strings.ToUpper], as far as the tables of units tell results apart. *)
Fixpoint upper_ascii (s : string) : string :=
  match s with
  | "" => ""
  | String c s => String (if is_lower_ascii (byte_val c) then byte_of (byte_val c - 32) else c) (upper_ascii s)
  end.
Definition memoryUnitToMB (unit : string) : option Z :=
  if String.eqb unit "MB" then Some 1 else if String.eqb unit "GB" then Some 1024 else if String.eqb unit "TB" then Some 1048576 else None.
Definition cpuUnitToMHz (unit : string) : option Z :=
  if String.eqb unit "MHZ" then Some 1 else if String.eqb unit "GHZ" then Some 1000 else if String.eqb unit "THZ" then Some 1000000 else None.
Definition inUnits (units : string -> option Z) (number unit : string) : result unit_error float64 :=
  match ParseFloat number with
  | None => Err (BadNumber number)
  | Some size =>
      match units unit with
      | None => Err (UnsupportedUnit unit)
      | Some multiplier => Ok (fmul size (float_of_Z multiplier))
      end
  end.
Definition ParseMemoryMB (raw : string) : result unit_error float64 :=
  let raw := TrimSpace raw in
  if String.eqb raw "" then Ok float_zero
  else match ParseFloat raw with
       | Some value => Ok value
       | None =>
           match quantityPattern raw with
           | None => Err (InvalidQuantity raw)
           | Some (number, letters) =>
               let unit := upper_ascii letters in inUnits memoryUnitToMB number (if String.eqb unit "" then "MB" else unit)
           end
       end.
Definition ParseCPUMHz (raw : string) : result unit_error float64 :=
  let raw := TrimSpace raw in
  if String.eqb raw "" then Ok float_zero
  else match ParseFloat raw with
       | Some value => Ok value
       | None =>
           match quantityPattern raw with
           | None | Some (_, "") => Err (InvalidQuantity raw)
           | Some (number, letters) => inUnits cpuUnitToMHz number (upper_ascii letters)
           end
       end.

(** ** What build stores (build_jobs.go) *)

Definition formatResourceQuantity (v : float64) : string := Itoa (Int64 (fround v)).
Definition validCPUShares (cpuShares : Z) : bool := (cpuShares =? 0) || negb ((cpuShares <? 2) || (cpuShares >? 262144)).

(** The limits of a job in one resource: a minimum without a maximum is both.
    [None] is a minimum above the maximum. *)
Definition limits (min max : float64) : option (float64 * float64) :=
  let max := if negb (is_zero min) && is_zero max then min else max in
  if flt max min then None else Some (min, max).
(** What bucket.jobs.conf asks for, between the limits; it sets the limits of a
    job that has none. *)
Definition request (min max : float64) (asked : option float64) : option (float64 * float64 * float64) :=
  match asked with
  | None => Some (min, max, max)
  | Some v =>
      let '(min, max) := if is_zero min && is_zero max then (v, v) else (min, max) in
      if flt max v then None else if flt v min then None else Some (min, max, v)
  end.

(** ** Discovered facts (workers_file.go) *)

Definition FormatMemoryMB (mb : float64) : string := Itoa (Int64 (fround mb)) +:+ " mb".
Definition FormatCPUMHz (mhz : float64) : string := Itoa (Int64 (fround mhz)) +:+ " mhz".
Record WorkerFacts := mkFacts { MemoryMB : float64; CPUMHz : float64 }.
Record WorkerFactsChange := mkChange { cHost : string; OldMemory : string; NewMemory : string; OldCPU : string; NewCPU : string }.
Inductive facts_error := NoWorkers.

Definition withFacts (updates : gmap string WorkerFacts) (w : WorkerRecord) : WorkerRecord :=
  match updates !! TrimSpace (Host w) with
  | None => w
  | Some f => mkWorkerRecord (Host w) (Hostname w) (Labels w) (FormatMemoryMB (MemoryMB f)) (FormatCPUMHz (CPUMHz f)) (Tags w) (Position w)
  end.
Definition MergeWorkerFacts (workers : list WorkerRecord) (updates : gmap string WorkerFacts) : list WorkerRecord :=
  map (withFacts updates) workers.

Section equal.
Context `{Unicode}.
Definition quantityEqual (parse : string -> result unit_error float64) (left right : string) : bool :=
  match parse left, parse right with
  | Ok l, Ok r => feqb (fround l) (fround r)
  | _, _ => EqualFold (TrimSpace left) (TrimSpace right)
  end.
Definition memoryStringEqual : string -> string -> bool := quantityEqual ParseMemoryMB.
Definition cpuStringEqual : string -> string -> bool := quantityEqual ParseCPUMHz.
Definition factsChanged (c : WorkerFactsChange) : bool :=
  negb (memoryStringEqual (OldMemory c) (NewMemory c)) || negb (cpuStringEqual (OldCPU c) (NewCPU c)).
Definition changeOf (updates : gmap string WorkerFacts) (w : WorkerRecord) : option WorkerFactsChange :=
  f ← updates !! TrimSpace (Host w);
  let c := mkChange (TrimSpace (Host w)) (Memory w) (FormatMemoryMB (MemoryMB f)) (CPU w) (FormatCPUMHz (CPUMHz f)) in
  if factsChanged c then Some c else None.
(** The changes and the workers that are written, [None] when nothing is. *)
Definition ApplyWorkerFacts (workers : list WorkerRecord) (updates : gmap string WorkerFacts)
    : result facts_error (list WorkerFactsChange * option (list WorkerRecord)) :=
  match workers with
  | [] => Err NoWorkers
  | _ =>
      match omap (changeOf updates) workers with
      | [] => Ok ([], None)
      | changes => Ok (changes, Some (map (withFacts updates) workers))
      end
  end.
End equal.

(** ** Workers have what their jobs ask for (validate.go) *)

Inductive resource_error :=
| MemoryUnspecified (workerIP : string)
| MemoryInsufficient (workerIP : string)
| CPUUnspecified (workerIP : string)
| CPUInsufficient (workerIP : string).
Inductive validate_error := DatabaseFailure | InsufficientResource (errors : list resource_error).

(** SUM over a column whose texts are whole numbers; it fails when a partial
    sum leaves the integers of 64 bits. *)
Definition addQuantity (acc : option Z) (text : string) : option Z :=
  sum ← acc; z ← Atoi text; if in_int64 (sum + z) then Some (sum + z) else None.
Definition sumQuantities (l : list string) : option Z := foldl addQuantity (Some 0) l.
(** The rows of the join, for the jobs of one worker. *)
Definition activeJobRows (c : Catalog) (db : DB) (workerIP : string) : list JobRow :=
  flat_map (fun a => List.filter (fun j => bool_decide (jbName j = aJob a)) (jobs c))
    (List.filter (fun a => bool_decide (aWorker a = workerIP) && isActive a) (allocations db)).
Definition insufficient (available required : float64) (unspecified short : resource_error) : list resource_error :=
  if flt float_zero required && (flt available float_zero || is_zero available) then [unspecified]
  else if flt float_zero required && flt available required then [short] else [].
Definition checkWorker (c : Catalog) (db : DB) (w : WorkerRow) : option (list resource_error) :=
  match activeJobRows c db (wkIP w) with
  | [] => Some []
  | rows =>
      availableMemoryMB ← ParseFloat (wkMemory w);
      availableCPUMHz ← ParseFloat (wkCPU w);
      requiredMemoryMB ← (Itoa <$> sumQuantities (map jbMemory rows)) ≫= ParseFloat;
      requiredCPUMHz ← (Itoa <$> sumQuantities (map jbCPU rows)) ≫= ParseFloat;
      Some (insufficient availableMemoryMB requiredMemoryMB (MemoryUnspecified (wkIP w)) (MemoryInsufficient (wkIP w))
            ++ insufficient availableCPUMHz requiredCPUMHz (CPUUnspecified (wkIP w)) (CPUInsufficient (wkIP w)))
  end.
Fixpoint checkWorkers (c : Catalog) (db : DB) (ws : list WorkerRow) : option (list resource_error) :=
  match ws with
  | [] => Some []
  | w :: ws => e ← checkWorker c db w; es ← checkWorkers c db ws; Some (e ++ es)
  end.
Definition ValidateWorkerResources (c : Catalog) (db : DB) : result validate_error unit :=
  match checkWorkers c db (workers c) with
  | None => Err DatabaseFailure
  | Some [] => Ok tt
  | Some errors => Err (InsufficientResource errors)
  end.
