(* ===== verification/Placement.v ===== *)
(** * build and gc: the allocations of the catalog

    build/build_allocations.go, the allocation count of build/validate.go,
    data/public_id.go, gc/allocations.go, gc/references.go and the purge of
    deploy/job_kv.go. The SHA-256 of Go's library is an argument; a base for
    the identifiers is never empty, so no random one is drawn. A failed
    transaction is rolled back: an error carries no tables. *)
From S2P Require Import Prelude GoStrings Utils Kv Versions Ports AllocState WorkersConf Catalog.
Open Scope Z_scope.

(** ** Identifiers (public_id.go) *)

Definition PublicIDLen : nat := 6.
Definition publicIDAlphabet : string := "0123456789abcdefghijklmnopqrstuvwxyz".
Definition publicIDMaxTries : nat := 64.

Definition is_id_char (c : ascii) : bool := in_range 48 57 (byte_val c) || in_range 97 122 (byte_val c).
Definition IsPublicID (s : string) : bool :=
  (String.length s =? PublicIDLen)%nat && forallb is_id_char (String.list_ascii_of_string s).
Definition alphabet_char (b : Z) : ascii := default "0"%char (String.get (Z.to_nat (b `mod` 36)) publicIDAlphabet).

Inductive build_error := NoJobRow (job : string) | ExhaustedIDs (base : string) | InsufficientAllocations (jobs : list string).

Section ids.
Context (sha256 : string -> list Z).

Definition PublicIDFromString (s : string) : string :=
  String.string_of_list_ascii (map alphabet_char (take PublicIDLen (sha256 s))).
(** [accept] is false for an identifier that is taken. *)
Fixpoint mintLoop (fuel : nat) (base : string) (accept : string -> bool) (i : Z) : result build_error string :=
  match fuel with
  | O => Err (ExhaustedIDs base)
  | S fuel =>
      let candidate := PublicIDFromString (base +:+ ":" +:+ Itoa (i + 1)) in
      if IsPublicID candidate && accept candidate then Ok candidate else mintLoop fuel base accept (i + 1)
  end.
Definition MintUniquePublicID (base : string) (accept : string -> bool) : result build_error string :=
  let id := PublicIDFromString base in
  if IsPublicID id && accept id then Ok id else mintLoop publicIDMaxTries base accept 0.

(** ** Placement (build_allocations.go) *)

(** [COUNT(DISTINCT x)] *)
Definition count_distinct (l : list string) : nat := size (list_to_set l : gset string).
Definition labelsOfIP (c : Catalog) (workerIP : string) : list string :=
  flat_map (fun w => if bool_decide (wkIP w = workerIP) then labelsOf c (wkID w) else []) (workers c).
(** [matchingJobsByLabelsQuery] for the row of one job. *)
Definition matchesLabels (c : Catalog) (workerIP : string) (j : JobRow) : bool :=
  existsb (fun s => bool_decide (s ∈ (worker_labels c).*2)) (selectorsOf c (jbID j))
  && (count_distinct (selectorsOf c (jbID j))
      =? count_distinct (List.filter (fun l => bool_decide (l ∈ selectorsOf c (jbID j))) (labelsOfIP c workerIP)))%nat.
Definition matchedJobNames (c : Catalog) (workerIP : string) : list string :=
  remove_dups (map jbName (List.filter (matchesLabels c workerIP) (jobs c))).

Definition setAllocations (db : DB) (l : list AllocRow) : DB := mkDB l (allocation_hashes db) (allocation_file_hashes db).
(** INSERT OR REPLACE: the rows with the same identifier or the same worker
    and job go. *)
Definition upsertAllocation (db : DB) (r : AllocRow) : DB :=
  setAllocations db
    (List.filter (fun a => negb (bool_decide (aAllocID a = aAllocID r))
                           && negb (bool_decide (aWorker a = aWorker r) && bool_decide (aJob a = aJob r)))
       (allocations db) ++ [r]).
(** UPDATE allocations SET ... WHERE p *)
Definition updateAllocations (db : DB) (p : AllocRow -> bool) (f : AllocRow -> AllocRow) : DB :=
  setAllocations db (map (fun a => if p a then f a else a) (allocations db)).
Definition remove (a : AllocRow) : AllocRow := mkAlloc (aAllocID a) (aWorker a) (aJob a) (aDisabled a) 1 (aVersion a).
Definition disable (a : AllocRow) : AllocRow := mkAlloc (aAllocID a) (aWorker a) (aJob a) 1 (aRemoved a) (aVersion a).
Definition of_job (job : string) (a : AllocRow) : bool := bool_decide (aJob a = job).
Definition of_worker (ip : string) (a : AllocRow) : bool := bool_decide (aWorker a = ip).

Definition allocate `{Unicode} (c : Catalog) (bucketID workerIP : string) (db : DB) (jobName : string) : result build_error DB :=
  let id := default "" (GetAllocationID db workerIP jobName) in
  let? id := if bool_decide (id = "")
             then MintUniquePublicID (bucketID +:+ "|" +:+ jobName +:+ "|" +:+ workerIP)
                    (fun id => negb (existsb (fun a => bool_decide (aAllocID a = id)) (allocations db)))
             else Ok id in
  match TargetJobVersion c jobName with
  | None => Err (NoJobRow jobName)
  | Some version => Ok (upsertAllocation db (mkAlloc id workerIP jobName 0 0 (Some version)))
  end.
Definition allocateWorker `{Unicode} (c : Catalog) (bucketID : string) (db : DB) (workerIP : string) : result build_error DB :=
  let matched := matchedJobNames c workerIP in
  let? db := foldR (allocate c bucketID workerIP) db matched in
  let gone := Difference (GetAllocatedJobs db workerIP) matched in
  Ok (foldl (fun db job => updateAllocations db (fun a => of_job job a && of_worker workerIP a) remove) db gone).

Definition disableJob (db : DB) (spec : string * list string) : DB :=
  match spec.2 with
  | [] => updateAllocations db (of_job spec.1) disable
  | ips => foldl (fun db ip => updateAllocations db (fun a => of_job spec.1 a && of_worker ip a) disable) db ips
  end.
Definition applyDisabled (d : DisabledAllocations) (db : DB) : DB :=
  let db := foldl (fun db ip => updateAllocations db (of_worker ip) disable) db (dWorkers d) in
  foldl disableJob db (map_to_list (dJobs d)).

Definition disabledKey (a : AllocRow) : string := aWorker a +:+ "|" +:+ aJob a.
Definition loadDisabledAllocations (db : DB) : list string :=
  map disabledKey (List.filter (fun a => (aDisabled a =? 1) && (aRemoved a =? 0)) (allocations db)).
Definition markReenabledAllocations (db : DB) (disabledBefore : list string) : DB :=
  match disabledBefore with
  | [] => db
  | _ =>
      foldl (fun db a => if bool_decide (disabledKey a ∈ disabledBefore) then MarkAllocationStartPending db (aAllocID a) else db) db
        (List.filter (fun a => (aDisabled a =? 0) && (aRemoved a =? 0)) (allocations db))
  end.

Definition removeOffCatalog (c : Catalog) (db : DB) : DB :=
  updateAllocations db (fun a => negb (bool_decide (aWorker a ∈ map wkIP (workers c)))) remove.
Definition BuildAllocations `{Unicode} (c : Catalog) (bucketID : string) (d : DisabledAllocations) (db : DB) : result build_error DB :=
  let disabledBefore := loadDisabledAllocations db in
  let? db := foldR (allocateWorker c bucketID) db (GetWorkers c []) in
  let db := applyDisabled d (removeOffCatalog c db) in
  Ok (markReenabledAllocations db disabledBefore).
End ids.

(** [ValidateMinAllocationsCount]: the jobs of the workspace with their
    min_allocations_count. *)
Definition MinRequiredAllocations (minCount : Z) : Z := if minCount <? 0 then 0 else minCount.
Definition tooFew (db : DB) (jm : string * Z) : bool :=
  let minCount := MinRequiredAllocations jm.2 in
  let count := CountJobAllocations db jm.1 false in
  negb (minCount =? 0) && negb (count =? 0) && (count <? minCount).
Definition ValidateMinAllocationsCount (db : DB) (jobs : list (string * Z)) : result build_error unit :=
  match (List.filter (tooFew db) jobs).*1 with
  | [] => Ok ()
  | l => Err (InsufficientAllocations l)
  end.

(** ** Garbage collection *)

(** gc/allocations.go *)
Definition listRemovedAllocations (db : DB) : list (string * string) :=
  map (fun a => (aWorker a, aJob a)) (List.filter (fun a => aRemoved a =? 1) (allocations db)).
Definition purgeRemovedAllocations (db : DB) : DB :=
  let db := foldl (fun db a => RemoveAllocationHash db (aAllocID a)) db (List.filter (fun a => aRemoved a =? 1) (allocations db)) in
  setAllocations db (List.filter (fun a => negb (aRemoved a =? 1)) (allocations db)).

(** The namespaces of a job (data/bucket_meta.go). *)
Definition BuildJobKVNamespaces (job : string) : list string := ["kive/job/" +:+ job; "vars/bucket/job/" +:+ job].
Definition HookKVNamespaces (job : string) : list string := ["vars/job/" +:+ job; "secrets/job/" +:+ job].
Definition JobKVNamespaces (job : string) : list string := BuildJobKVNamespaces job ++ HookKVNamespaces job.
Definition jobWorkerNamespace (job workerIP : string) : string := "kive/job/" +:+ job +:+ "/worker/" +:+ workerIP.

Definition purgeAll (s : Store) (namespaces : list string) : Store := foldl PurgeNamespace s namespaces.

(** gc/references.go *)
Fixpoint purgeRemovedJobNamespaces (db : DB) (seen : list string) (store : Store) (allocs : list (string * string)) : option Store :=
  match allocs with
  | [] => Some store
  | (_, job) :: allocs =>
      if bool_decide (job ∈ seen) then purgeRemovedJobNamespaces db seen store allocs
      else
        active ← JobHasActiveAllocations db job;
        let store := if active : bool then store else purgeAll store (JobKVNamespaces job) in
        purgeRemovedJobNamespaces db (job :: seen) store allocs
  end.
Definition purgeWorkerNamespaces (store : Store) (workerIP : string) : Store :=
  purgeAll store ["kive/worker/" +:+ workerIP; "kive/worker/" +:+ workerIP +:+ "/tags"].
(** The persistence of the store that follows is [Kv.PersistToTransaction]. *)
Definition purgeRemovedAllocationReferences (c : Catalog) (db : DB) (store : Store) (allocs : list (string * string)) : option Store :=
  match allocs with
  | [] => Some store
  | _ =>
      let store := purgeAll store (map (fun a => jobWorkerNamespace a.2 a.1) allocs) in
      let offCatalogWorkers := List.filter (fun ip => negb (bool_decide (ip ∈ LoadWorkerCatalog c))) (map fst allocs) in
      let store := foldl purgeWorkerNamespaces store (remove_dups offCatalogWorkers) in
      purgeRemovedJobNamespaces db [] store allocs
  end.

(** deploy/job_kv.go, for the stopped allocations of a deploy. *)
Fixpoint purgeHookKVLoop (db : DB) (seen : list string) (store : Store) (stopped : list (string * string)) : Store :=
  match stopped with
  | [] => store
  | (_, job) :: stopped =>
      if bool_decide (job ∈ seen) then purgeHookKVLoop db seen store stopped
      else
        let store := if JobHasNonRemovedAllocations db job then store
                     else purgeAll store (JobKVNamespaces job ++ map (jobWorkerNamespace job) (GetAllocatedWorkers db job)) in
        purgeHookKVLoop db (job :: seen) store stopped
  end.
Definition purgeHookKVForInactiveJobs (db : DB) (store : Store) (stopped : list (string * string)) : Store :=
  purgeHookKVLoop db [] store stopped.

(** ** Ports of the catalog (build/build_ports.go) *)

(** The range of the pool is checked when a job of the workspace has ports. *)
Definition buildPortAllocator (c : Catalog) (portRange : PortRange) (manifests : list ManifestPorts) : result range_error portAllocator :=
  let needsPorts := existsb (fun p => negb (bool_decide (p = ∅))) manifests in
  match Validate portRange with
  | Some e => if needsPorts then Err e else Ok (newPortAllocator (GetAllPortAssignments c) portRange)
  | None => Ok (newPortAllocator (GetAllPortAssignments c) portRange)
  end.
