(* ===== verification/PlacementFacts.v ===== *)
(** * What build leaves in the table of allocations

    Rows are looked at by worker and job, the primary key of the table. *)
From S2P Require Import Prelude GoStrings Utils Kv KvFacts Versions Ports AllocState WorkersConf Catalog Placement.
Open Scope Z_scope.

(** ** Rows by key *)

Definition row (db : DB) (ip job : string) : option AllocRow :=
  head (List.filter (fun a => bool_decide (aJob a = job) && bool_decide (aWorker a = ip)) (allocations db)).
Record tables_ok (db : DB) : Prop := {
  ids_unique : NoDup (map aAllocID (allocations db));
  keys_unique : NoDup (map (fun a => (aWorker a, aJob a)) (allocations db));
  ids_set : Forall (fun a => aAllocID a <> "") (allocations db);
  hosts_plain : Forall (fun a => no_byte "|" (aWorker a) = true) (allocations db);
}.

Lemma GetAllocationID_of_row db ip job : GetAllocationID db ip job = aAllocID <$> row db ip job.
Proof. unfold GetAllocationID, row. by destruct (List.filter _ _). Qed.

Lemma row_Some db ip job a : row db ip job = Some a -> a ∈ allocations db /\ aWorker a = ip /\ aJob a = job.
Proof.
  unfold row. destruct (List.filter _ _) as [|b l] eqn:E; [done|]. intros [= <-].
  assert (Hb : b ∈ b :: l) by left. rewrite <- E in Hb. apply elem_of_list_filter_b in Hb as [Hin Hp].
  apply andb_true_iff in Hp as [H1%bool_decide_eq_true H2%bool_decide_eq_true]. done.
Qed.
Lemma row_None db ip job : row db ip job = None -> forall a, a ∈ allocations db -> aWorker a = ip -> aJob a <> job.
Proof.
  unfold row. destruct (List.filter _ _) as [|b l] eqn:E; [|done]. intros _ a Hin Hw Hj.
  assert (Ha : a ∈ @nil AllocRow); [|by apply elem_of_nil in Ha].
  rewrite <- E. apply elem_of_list_filter_b. split; [done|]. by rewrite !bool_decide_eq_true_2.
Qed.

Lemma row_of db a : tables_ok db -> a ∈ allocations db -> row db (aWorker a) (aJob a) = Some a.
Proof.
  intros Hok Hin. destruct (row db (aWorker a) (aJob a)) as [b|] eqn:E; [|exfalso; by eapply row_None].
  apply row_Some in E as (Hb & Hw & Hj). f_equal. apply (NoDup_map_eq (fun a => (aWorker a, aJob a)) (allocations db)); [|done|done|congruence].
  by apply keys_unique.
Qed.
Lemma row_ids db ip job ip' job' a a' : tables_ok db -> row db ip job = Some a -> row db ip' job' = Some a' ->
  aAllocID a = aAllocID a' -> (ip, job) = (ip', job').
Proof.
  intros Hok (Hin & <- & <-)%row_Some (Hin' & <- & <-)%row_Some E.
  by rewrite (NoDup_map_eq aAllocID (allocations db) a a' (ids_unique _ Hok) Hin Hin' E).
Qed.

(** ** UPDATE *)

Definition keeps_key (f : AllocRow -> AllocRow) : Prop :=
  forall a, aAllocID (f a) = aAllocID a /\ aWorker (f a) = aWorker a /\ aJob (f a) = aJob a.
Lemma remove_keeps : keeps_key remove.
Proof. by intros []. Qed.
Lemma disable_keeps : keeps_key disable.
Proof. by intros []. Qed.
Definition where_ (p : AllocRow -> bool) (f : AllocRow -> AllocRow) (a : AllocRow) : AllocRow := if p a then f a else a.
Lemma where_keeps p f : keeps_key f -> keeps_key (where_ p f).
Proof. intros Hf a. unfold where_. destruct (p a); [apply Hf|done]. Qed.

Lemma row_update db p f ip job : keeps_key f -> row (updateAllocations db p f) ip job = where_ p f <$> row db ip job.
Proof.
  intros Hf. apply (where_keeps p) in Hf. unfold row, updateAllocations. cbn [allocations setAllocations].
  change (fun a => if p a then f a else a) with (where_ p f).
  induction (allocations db) as [|a l IH]; [done|]. cbn [map List.filter]. destruct (Hf a) as (_ & -> & ->).
  destruct (_ && _); [done|apply IH].
Qed.
Lemma tables_ok_update db p f : keeps_key f -> tables_ok db -> tables_ok (updateAllocations db p f).
Proof.
  intros Hf [H1 H2 H3 H4]. apply (where_keeps p) in Hf.
  assert (E : allocations (updateAllocations db p f) = map (where_ p f) (allocations db)) by done.
  constructor; rewrite E, ?map_map, ?Forall_fmap.
  - by rewrite (map_ext _ aAllocID) by (intros a; apply Hf).
  - rewrite (map_ext _ (fun a => (aWorker a, aJob a))); [done|]. intros a. by destruct (Hf a) as (_ & -> & ->).
  - eapply Forall_impl; [exact H3|]. intros a. cbn. by destruct (Hf a) as (-> & _ & _).
  - eapply Forall_impl; [exact H4|]. intros a. cbn. by destruct (Hf a) as (_ & -> & _).
Qed.
Lemma hashes_update db p f : allocation_hashes (updateAllocations db p f) = allocation_hashes db.
Proof. done. Qed.

(** ** INSERT OR REPLACE *)

Definition id_free (db : DB) (r : AllocRow) : Prop :=
  forall a, a ∈ allocations db -> aAllocID a = aAllocID r -> aWorker a = aWorker r /\ aJob a = aJob r.

Lemma head_filter_app {A} (p : A -> bool) l1 l2 :
  head (List.filter p (l1 ++ l2)) = match head (List.filter p l1) with Some a => Some a | None => head (List.filter p l2) end.
Proof. rewrite List.filter_app. by destruct (List.filter p l1). Qed.
Lemma row_upsert db r ip job : id_free db r ->
  row (upsertAllocation db r) ip job =
  if bool_decide (aWorker r = ip) && bool_decide (aJob r = job) then Some r else row db ip job.
Proof.
  intros Hid. unfold row, upsertAllocation. cbn [allocations setAllocations]. rewrite head_filter_app. cbn [List.filter].
  rewrite (andb_comm (bool_decide (aWorker r = ip))). set (p := fun a : AllocRow => _ && _).
  change (bool_decide (aJob r = job) && bool_decide (aWorker r = ip)) with (p r).
  unfold id_free in Hid. induction (allocations db) as [|a l IH]; [by destruct (p r)|].
  cbn [List.filter]. assert (IH' := IH (fun b Hb => Hid b (list_elem_of_further _ _ _ Hb))). clear IH.
  destruct (p a) eqn:Hpa.
  - destruct (bool_decide (aAllocID a = aAllocID r)) eqn:E1; cbn [negb andb].
    + apply bool_decide_eq_true in E1. destruct (Hid a (list_elem_of_here _ _) E1) as [Hw Hj].
      assert (Hpr : p r = true) by (unfold p in *; by rewrite <- Hw, <- Hj). rewrite Hpr in *. exact IH'.
    + destruct (bool_decide (aWorker a = aWorker r) && bool_decide (aJob a = aJob r)) eqn:E2; cbn [negb List.filter].
      * apply andb_true_iff in E2 as [Hw%bool_decide_eq_true Hj%bool_decide_eq_true].
        assert (Hpr : p r = true) by (unfold p in *; by rewrite <- Hw, <- Hj). rewrite Hpr in *. exact IH'.
      * rewrite Hpa. cbn [head]. destruct (p r) eqn:Hpr; [|done]. exfalso. unfold p in Hpa, Hpr.
        apply andb_true_iff in Hpa as [Ha1%bool_decide_eq_true Ha2%bool_decide_eq_true].
        apply andb_true_iff in Hpr as [Hr1%bool_decide_eq_true Hr2%bool_decide_eq_true].
        rewrite !bool_decide_eq_true_2 in E2 by congruence. done.
  - destruct (negb _ && negb _); cbn [List.filter]; [rewrite Hpa|]; exact IH'.
Qed.
Lemma tables_ok_upsert db r : id_free db r -> aAllocID r <> "" -> no_byte "|" (aWorker r) = true -> tables_ok db ->
  tables_ok (upsertAllocation db r).
Proof.
  intros Hid Hne Hb [H1 H2 H3 H4].
  assert (Hnew : forall a, a ∈ List.filter (fun a => negb (bool_decide (aAllocID a = aAllocID r))
      && negb (bool_decide (aWorker a = aWorker r) && bool_decide (aJob a = aJob r))) (allocations db) ->
      aAllocID a <> aAllocID r /\ (aWorker a, aJob a) <> (aWorker r, aJob r)).
  { intros a [_ Hp]%elem_of_list_filter_b. apply andb_true_iff in Hp as [Hp1 Hp2].
    apply negb_true_iff, bool_decide_eq_false in Hp1. apply negb_true_iff in Hp2. split; [done|]. intros [= E1 E2].
    rewrite !bool_decide_eq_true_2 in Hp2 by done. done. }
  constructor; unfold upsertAllocation; cbn [allocations setAllocations]; rewrite ?map_app.
  - apply NoDup_app. split_and!; [by apply NoDup_map_filter| |apply NoDup_singleton].
    intros id (a & -> & Ha)%list_elem_of_fmap. cbn. rewrite list_elem_of_singleton. apply (Hnew a Ha).
  - apply NoDup_app. split_and!; [by apply NoDup_map_filter| |apply NoDup_singleton].
    intros k (a & -> & Ha)%list_elem_of_fmap. cbn [map]. rewrite list_elem_of_singleton. apply (Hnew a Ha).
  - apply Forall_app. split; [|by repeat constructor]. apply Forall_forall. intros a [Hin _]%elem_of_list_filter_b.
    rewrite Forall_forall in H3. by apply H3.
  - apply Forall_app. split; [|by repeat constructor]. apply Forall_forall. intros a [Hin _]%elem_of_list_filter_b.
    rewrite Forall_forall in H4. by apply H4.
Qed.

(** ** Identifiers *)

Section ids.
Context (sha256 : string -> list Z).
(** A digest has 32 bytes. *)
Hypothesis digest_length : forall s, length (sha256 s) = 32%nat.

Lemma length_string_of_list l : String.length (String.string_of_list_ascii l) = length l.
Proof. induction l; cbn; congruence. Qed.
Lemma alphabet_id_char b : is_id_char (alphabet_char b) = true.
Proof.
  unfold alphabet_char. assert (H : 0 <= b `mod` 36 < 36) by (apply Z.mod_pos_bound; lia).
  assert (Hall : forallb (fun k => is_id_char (default "0"%char (String.get k publicIDAlphabet))) (seq 0 36) = true) by (vm_compute; reflexivity).
  rewrite forallb_forall in Hall. apply Hall, in_seq. lia.
Qed.
Lemma PublicIDFromString_public s : IsPublicID (PublicIDFromString sha256 s) = true.
Proof.
  unfold IsPublicID, PublicIDFromString. rewrite String.list_ascii_of_string_of_list_ascii, andb_true_iff. split.
  - apply Nat.eqb_eq. by rewrite length_string_of_list, length_map, length_take, digest_length.
  - apply forallb_forall. intros c (b & <- & _)%in_map_iff. apply alphabet_id_char.
Qed.

Lemma mintLoop_ok fuel base accept : forall i id, mintLoop sha256 fuel base accept i = Ok id -> IsPublicID id = true /\ accept id = true.
Proof.
  induction fuel as [|fuel IH]; intros i id; cbn [mintLoop]; [done|].
  destruct (IsPublicID _ && accept _) eqn:E; [|apply IH]. intros [= <-]. by apply andb_true_iff in E.
Qed.
(** A minted identifier has six characters of the alphabet and is not taken. *)
Lemma MintUniquePublicID_ok base accept id : MintUniquePublicID sha256 base accept = Ok id -> IsPublicID id = true /\ accept id = true.
Proof.
  unfold MintUniquePublicID. destruct (IsPublicID _ && accept _) eqn:E; [|apply mintLoop_ok]. intros [= <-]. by apply andb_true_iff in E.
Qed.
(** The first candidate is taken when it is free: the identifiers of the same
    bucket, job and worker are the same in every build from scratch. *)
Lemma MintUniquePublicID_stable base accept : accept (PublicIDFromString sha256 base) = true ->
  MintUniquePublicID sha256 base accept = Ok (PublicIDFromString sha256 base).
Proof. intros Ha. unfold MintUniquePublicID. by rewrite PublicIDFromString_public, Ha. Qed.

(** ** Matching *)

Record catalog_ok (c : Catalog) : Prop := {
  ips_unique : NoDup (map wkIP (workers c));
  ips_plain : Forall (fun w => no_byte "|" (wkIP w) = true) (workers c);
}.
(** The job has selectors and the worker has every one of them as a label. *)
Definition placed (c : Catalog) (ip job : string) : Prop :=
  exists j, j ∈ jobs c /\ jbName j = job /\ selectorsOf c (jbID j) <> [] /\ forall s, s ∈ selectorsOf c (jbID j) -> s ∈ labelsOfIP c ip.

Lemma labelsOfIP_labels c ip s : s ∈ labelsOfIP c ip -> s ∈ (worker_labels c).*2.
Proof.
  unfold labelsOfIP. intros (w & _ & Hs)%list_elem_of_In%in_flat_map. destruct (bool_decide _); [|done].
  apply list_elem_of_In in Hs. unfold labelsOf in Hs. apply list_elem_of_fmap in Hs as (r & -> & [Hr _]%elem_of_list_filter_b).
  apply list_elem_of_fmap. by exists r.
Qed.
Lemma matchesLabels_spec c ip j :
  matchesLabels c ip j = true <-> selectorsOf c (jbID j) <> [] /\ forall s, s ∈ selectorsOf c (jbID j) -> s ∈ labelsOfIP c ip.
Proof.
  unfold matchesLabels, count_distinct. set (sel := selectorsOf c (jbID j)). set (lab := labelsOfIP c ip) in *.
  rewrite andb_true_iff, Nat.eqb_eq. split.
  - intros [He Hs]. split; [by destruct sel|]. intros s Hin.
    assert (Hsub : (list_to_set (List.filter (fun l => bool_decide (l ∈ sel)) lab) : gset string) ⊆ list_to_set sel).
    { intros x. rewrite !elem_of_list_to_set. intros [_ Hx%bool_decide_eq_true]%elem_of_list_filter_b. done. }
    assert (Heq : (list_to_set (List.filter (fun l => bool_decide (l ∈ sel)) lab) : gset string) = list_to_set sel).
    { apply leibniz_equiv, set_subseteq_size_equiv; [done|lia]. }
    assert (Hx : s ∈ (list_to_set sel : gset string)) by (by apply elem_of_list_to_set).
    rewrite <- Heq, elem_of_list_to_set in Hx. by apply elem_of_list_filter_b in Hx as [? _].
  - intros [Hne Hall]. split.
    + destruct sel as [|s sel'] eqn:E; [done|]. cbn [existsb]. rewrite bool_decide_eq_true_2; [done|].
      apply (labelsOfIP_labels c ip), Hall. left.
    + f_equal. apply leibniz_equiv. intros x. rewrite !elem_of_list_to_set, elem_of_list_filter_b, bool_decide_eq_true. split; [auto|tauto].
Qed.
Lemma matchedJobNames_spec c ip job : job ∈ matchedJobNames c ip <-> placed c ip job.
Proof.
  unfold matchedJobNames, placed. rewrite elem_of_remove_dups. split.
  - intros (j & -> & [Hj Hm]%elem_of_list_filter_b)%list_elem_of_fmap. apply matchesLabels_spec in Hm as [Hne Hall]. by exists j.
  - intros (j & Hj & <- & Hne & Hall). apply list_elem_of_fmap. exists j. split; [done|]. apply elem_of_list_filter_b. split; [done|].
    by apply matchesLabels_spec.
Qed.

(** ** One worker *)

Context `{Unicode} (c : Catalog) (bucketID : string).

Definition fresh_row (ip job : string) (old new : option AllocRow) : Prop :=
  exists id v, TargetJobVersion c job = Some v /\ new = Some (mkAlloc id ip job 0 0 (Some v)) /\ forall a, old = Some a -> id = aAllocID a.
Definition same_hashes (db db' : DB) : Prop :=
  allocation_hashes db' = allocation_hashes db /\ allocation_file_hashes db' = allocation_file_hashes db.

Lemma allocate_id db ip job : tables_ok db -> no_byte "|" ip = true ->
  forall id, (let id := default "" (GetAllocationID db ip job) in
    if bool_decide (id = "")
    then MintUniquePublicID sha256 (bucketID +:+ "|" +:+ job +:+ "|" +:+ ip)
           (fun id => negb (existsb (fun a => bool_decide (aAllocID a = id)) (allocations db)))
    else Ok id) = Ok id ->
  id <> "" /\ (forall a, row db ip job = Some a -> id = aAllocID a) /\ forall v, id_free db (mkAlloc id ip job 0 0 v).
Proof.
  intros Hok Hip id. cbn zeta. rewrite GetAllocationID_of_row. destruct (row db ip job) as [a|] eqn:Hrow; cbn [fmap option_fmap option_map default].
  - destruct (row_Some _ _ _ _ Hrow) as (Hin & Hw & Hj).
    assert (Hne : aAllocID a <> "") by (pose proof (ids_set _ Hok) as Hs; rewrite Forall_forall in Hs; by apply Hs).
    unfold default. cbn. rewrite bool_decide_eq_false_2 by done. intros [= <-]. split_and!; [done|by intros a' [= <-]|].
    intros v a' Hin' E. cbn in E |- *. by rewrite (NoDup_map_eq aAllocID (allocations db) a' a (ids_unique _ Hok) Hin' Hin E).
  - unfold default. cbn. intros [Hp Hacc]%MintUniquePublicID_ok. split_and!; [by intros ->|done|].
    intros v a' Hin' E. cbn in E. exfalso. apply negb_true_iff in Hacc. assert (Ht : existsb (fun a => bool_decide (aAllocID a = id)) (allocations db) = true).
    { apply existsb_exists. exists a'. split; [by apply list_elem_of_In|by apply bool_decide_eq_true]. }
    by rewrite Ht in Hacc.
Qed.
Lemma allocate_spec ip db job db' : tables_ok db -> no_byte "|" ip = true -> allocate sha256 c bucketID ip db job = Ok db' ->
  tables_ok db' /\ same_hashes db db' /\ fresh_row ip job (row db ip job) (row db' ip job)
  /\ forall ip' job', (ip', job') <> (ip, job) -> row db' ip' job' = row db ip' job'.
Proof.
  intros Hok Hip. unfold allocate. pose proof (allocate_id db ip job Hok Hip) as Hid. cbn zeta in Hid |- *.
  destruct (if bool_decide _ then _ else _) as [id|] eqn:E; cbn [rbind]; [|done].
  destruct (Hid id eq_refl) as (Hne & Hold & Hfree). destruct (TargetJobVersion c job) as [v|] eqn:Hv; [|done]. intros [= <-].
  split_and!; [by apply tables_ok_upsert|done| |].
  - exists id, v. split_and!; [done| |done]. rewrite (row_upsert _ _ _ _ (Hfree _)). cbn. by rewrite !bool_decide_eq_true_2.
  - intros ip' job' Hk. rewrite (row_upsert _ _ _ _ (Hfree _)). cbn. destruct (bool_decide (ip = ip') && bool_decide (job = job')) eqn:E'; [|done].
    apply andb_true_iff in E' as [->%bool_decide_eq_true ->%bool_decide_eq_true]. done.
Qed.

Lemma allocate_loop ip js : forall db db', tables_ok db -> no_byte "|" ip = true -> NoDup js ->
  foldR (allocate sha256 c bucketID ip) db js = Ok db' ->
  tables_ok db' /\ same_hashes db db' /\ (forall job, job ∈ js -> fresh_row ip job (row db ip job) (row db' ip job))
  /\ forall ip' job', ip' <> ip \/ job' ∉ js -> row db' ip' job' = row db ip' job'.
Proof.
  induction js as [|job js IH]; intros db db' Hok Hip Hnd; cbn [foldR].
  { intros [= <-]. split_and!; [done|done| |done]. intros job Hj. by apply elem_of_nil in Hj. }
  apply NoDup_cons in Hnd as [Hj Hnd]. destruct (allocate sha256 c bucketID ip db job) as [db1|] eqn:E; cbn [rbind]; [|done].
  destruct (allocate_spec _ _ _ _ Hok Hip E) as (Hok1 & [Hh1 Hf1] & Hrow1 & Ho1). intros Hl.
  destruct (IH db1 db' Hok1 Hip Hnd Hl) as (Hok' & [Hh Hf] & Hrow & Ho). split_and!; [done|split; congruence| |].
  - intros job' [->|Hj']%elem_of_cons; [by rewrite (Ho ip job) by (by right)|].
    rewrite <- (Ho1 ip job') by (intros [= ->]; done). by apply Hrow.
  - intros ip' job' Hk. rewrite (Ho ip' job'), Ho1; [done| |].
    + intros [= -> ->]. destruct Hk as [Hk|Hk]; [done|]. apply Hk. left.
    + destruct Hk as [Hk|Hk]; [by left|right]. by intros Hin; apply Hk; right.
Qed.

Lemma remove_loop ip gone : forall db,
  let db' := foldl (fun db job => updateAllocations db (fun a => of_job job a && of_worker ip a) remove) db gone in
  (tables_ok db -> tables_ok db') /\ same_hashes db db'
  /\ forall ip' job', row db' ip' job' = (if bool_decide (ip' = ip) && bool_decide (job' ∈ gone) then remove else id) <$> row db ip' job'.
Proof.
  induction gone as [|job gone IH]; intros db; cbn [foldl].
  - split_and!; [done|done|]. intros ip' job'. rewrite (bool_decide_eq_false_2 (job' ∈ [])) by apply not_elem_of_nil.
    rewrite andb_false_r. by rewrite option_fmap_id.
  - destruct (IH (updateAllocations db (fun a => of_job job a && of_worker ip a) remove)) as (Hok & [Hh Hf] & Hrow).
    split_and!; [intros ?; by apply Hok, (tables_ok_update _ _ _ remove_keeps)|by split|].
    intros ip' job'. rewrite Hrow, row_update by apply remove_keeps. destruct (row db ip' job') as [a|] eqn:E; [|done].
    apply row_Some in E as (_ & <- & <-). cbn. f_equal. unfold where_, of_job, of_worker.
    destruct (remove_keeps a) as (Hi & Hw & Hj).
    repeat case_bool_decide; cbn; try done; exfalso; rewrite ?elem_of_cons in *; naive_solver.
Qed.

Lemma allocateWorker_spec ip db db' : tables_ok db -> no_byte "|" ip = true -> allocateWorker sha256 c bucketID db ip = Ok db' ->
  tables_ok db' /\ same_hashes db db' /\ (forall job, placed c ip job -> fresh_row ip job (row db ip job) (row db' ip job))
  /\ (forall job, ~ placed c ip job -> row db' ip job = remove <$> row db ip job)
  /\ forall ip' job', ip' <> ip -> row db' ip' job' = row db ip' job'.
Proof.
  intros Hok Hip. unfold allocateWorker. destruct (foldR _ _ _) as [db1|] eqn:E; cbn [rbind]; [|done].
  destruct (allocate_loop ip _ _ _ Hok Hip (NoDup_remove_dups _) E) as (Hok1 & [Hh1 Hf1] & Hrow1 & Ho1). intros [= <-].
  destruct (remove_loop ip (Difference (GetAllocatedJobs db1 ip) (matchedJobNames c ip)) db1) as (Hok' & [Hh Hf] & Hrow).
  split_and!; [by apply Hok'|split; congruence| | |].
  - intros job Hp%matchedJobNames_spec. rewrite Hrow, (bool_decide_eq_false_2 (job ∈ Difference _ _)), andb_false_r, option_fmap_id.
    + by apply Hrow1.
    + rewrite elem_of_Difference. tauto.
  - intros job Hp. rewrite <- matchedJobNames_spec in Hp. rewrite Hrow, (Ho1 ip job) by (by right).
    destruct (row db ip job) as [a|] eqn:Ea; [|done]. cbn. f_equal. rewrite bool_decide_eq_true_2 by done.
    rewrite bool_decide_eq_true_2; [done|]. rewrite <- (Ho1 ip job) in Ea by (by right).
    apply elem_of_Difference. split; [|done]. apply row_Some in Ea as (Hin & Hw & Hj). unfold GetAllocatedJobs.
    apply list_elem_of_fmap. exists a. split; [done|]. apply elem_of_list_filter_b. split; [done|by apply bool_decide_eq_true].
  - intros ip' job' Hk. rewrite Hrow, (bool_decide_eq_false_2 (ip' = ip)) by done. cbn. rewrite option_fmap_id. apply Ho1. by left.
Qed.

(** ** All workers *)

Lemma allocateWorkers_spec ips : forall db db', tables_ok db -> Forall (fun ip => no_byte "|" ip = true) ips -> NoDup ips ->
  foldR (allocateWorker sha256 c bucketID) db ips = Ok db' ->
  tables_ok db' /\ same_hashes db db'
  /\ (forall ip job, ip ∈ ips -> placed c ip job -> fresh_row ip job (row db ip job) (row db' ip job))
  /\ (forall ip job, ip ∈ ips -> ~ placed c ip job -> row db' ip job = remove <$> row db ip job)
  /\ forall ip job, ip ∉ ips -> row db' ip job = row db ip job.
Proof.
  induction ips as [|ip ips IH]; intros db db' Hok Hp Hnd; cbn [foldR].
  { intros [= <-]. split_and!; [done|done| | |done]; intros ip job Hi; by apply elem_of_nil in Hi. }
  apply Forall_cons in Hp as [Hip Hp]. apply NoDup_cons in Hnd as [Hi Hnd].
  destruct (allocateWorker sha256 c bucketID db ip) as [db1|] eqn:E; cbn [rbind]; [|done].
  destruct (allocateWorker_spec _ _ _ Hok Hip E) as (Hok1 & [Hh1 Hf1] & Hin1 & Hout1 & Ho1). intros Hl.
  destruct (IH db1 db' Hok1 Hp Hnd Hl) as (Hok' & [Hh Hf] & Hin & Hout & Ho). split_and!; [done|split; congruence| | |].
  - intros ip' job [->|Hk]%elem_of_cons Hpl; [rewrite (Ho ip job Hi); by apply Hin1|].
    rewrite <- (Ho1 ip' job) by (by intros ->). by apply Hin.
  - intros ip' job [->|Hk]%elem_of_cons Hpl; [rewrite (Ho ip job Hi); by apply Hout1|].
    rewrite <- (Ho1 ip' job) by (by intros ->). by apply Hout.
  - intros ip' job [Hne Hk]%not_elem_of_cons. rewrite (Ho ip' job Hk). by apply Ho1.
Qed.
Lemma GetWorkers_all ip : ip ∈ GetWorkers c [] <-> ip ∈ map wkIP (workers c).
Proof. unfold GetWorkers. by rewrite merge_sort_Permutation. Qed.
Lemma GetWorkers_NoDup : catalog_ok c -> NoDup (GetWorkers c []).
Proof. intros [Hn _]. unfold GetWorkers. by rewrite merge_sort_Permutation. Qed.
Lemma GetWorkers_plain : catalog_ok c -> Forall (fun ip => no_byte "|" ip = true) (GetWorkers c []).
Proof.
  intros [_ Hp]. apply Forall_forall. intros ip (w & -> & Hw)%GetWorkers_all%list_elem_of_fmap.
  rewrite Forall_forall in Hp. by apply Hp.
Qed.
Lemma placed_worker ip job : placed c ip job -> ip ∈ map wkIP (workers c).
Proof.
  intros (j & _ & _ & Hne & Hall). destruct (selectorsOf c (jbID j)) as [|s l]; [done|].
  assert (Hs : s ∈ labelsOfIP c ip) by (apply Hall; left). unfold labelsOfIP in Hs.
  apply list_elem_of_In, in_flat_map in Hs as (w & Hw & Hs). case_bool_decide as E; [|done].
  rewrite <- E. by apply list_elem_of_In, in_map.
Qed.
End ids.

(** ** Disabling *)

Definition disabled_in (d : DisabledAllocations) (ip job : string) : bool :=
  bool_decide (ip ∈ dWorkers d)
  || match dJobs d !! job with Some [] => true | Some l => bool_decide (ip ∈ l) | None => false end.

Definition job_preds (spec : string * list string) : list (AllocRow -> bool) :=
  match spec.2 with [] => [of_job spec.1] | ips => map (fun ip a => of_job spec.1 a && of_worker ip a) ips end.
Definition disable_preds (d : DisabledAllocations) : list (AllocRow -> bool) :=
  map of_worker (dWorkers d) ++ flat_map job_preds (map_to_list (dJobs d)).
Definition disableWhere (db : DB) (p : AllocRow -> bool) : DB := updateAllocations db p disable.

Lemma foldl_map {A B C} (f : A -> B -> A) (g : C -> B) l a : foldl f a (map g l) = foldl (fun a x => f a (g x)) a l.
Proof. revert a. induction l as [|x l IH]; intros a; [done|]. apply IH. Qed.
Lemma applyDisabled_preds d db : applyDisabled d db = foldl disableWhere db (disable_preds d).
Proof.
  unfold applyDisabled, disable_preds. rewrite foldl_app, foldl_map.
  change (fun (a : DB) x => disableWhere a (of_worker x)) with (fun (db : DB) ip => updateAllocations db (of_worker ip) disable).
  generalize (foldl (fun db ip => updateAllocations db (of_worker ip) disable) db (dWorkers d)).
  induction (map_to_list (dJobs d)) as [|[job l] specs IH]; intros db'; cbn [foldl flat_map]; [done|].
  rewrite foldl_app. rewrite IH. f_equal. unfold disableJob, job_preds. cbn [fst snd]. destruct l as [|ip l]; [done|]. by rewrite foldl_map.
Qed.
Lemma disable_preds_spec d a : existsb (fun p => p a) (disable_preds d) = disabled_in d (aWorker a) (aJob a).
Proof.
  apply eq_iff_eq_true. unfold disable_preds, disabled_in. rewrite existsb_app, !orb_true_iff. f_equiv.
  - rewrite existsb_exists, bool_decide_eq_true. unfold of_worker. split.
    + intros (p & (ip & <- & Hin)%in_map_iff & ->%bool_decide_eq_true). by apply list_elem_of_In.
    + intros Hin. exists (of_worker (aWorker a)). split; [by apply in_map, list_elem_of_In|by apply bool_decide_eq_true].
  - rewrite existsb_exists. split.
    + intros (p & ([job l] & Hspec%list_elem_of_In%elem_of_map_to_list & Hp)%in_flat_map & Hpa). unfold job_preds in Hp. cbn [fst snd] in Hp.
      destruct l as [|ip l].
      * destruct Hp as [<-|[]]. apply bool_decide_eq_true in Hpa. by rewrite Hpa, Hspec.
      * apply in_map_iff in Hp as (ip' & <- & Hin%list_elem_of_In). apply andb_true_iff in Hpa as [Hj%bool_decide_eq_true Hw%bool_decide_eq_true].
        rewrite Hj, Hspec, Hw. by apply bool_decide_eq_true.
    + destruct (dJobs d !! aJob a) as [l|] eqn:E; [|done]. apply elem_of_map_to_list in E. intros Hl.
      destruct l as [|ip l].
      * exists (of_job (aJob a)). split; [|by apply bool_decide_eq_true]. apply in_flat_map. exists (aJob a, []).
        split; [by apply list_elem_of_In|by left].
      * apply bool_decide_eq_true in Hl. exists (fun b => of_job (aJob a) b && of_worker (aWorker a) b). split.
        -- apply in_flat_map. exists (aJob a, ip :: l). split; [by apply list_elem_of_In|].
           unfold job_preds. cbn [snd fst]. apply (in_map (fun ip b => of_job (aJob a) b && of_worker ip b)). by apply list_elem_of_In.
        -- unfold of_job, of_worker. by rewrite !bool_decide_eq_true_2.
Qed.
Lemma disable_preds_stable d : Forall (fun p => forall a, p (disable a) = p a) (disable_preds d).
Proof.
  apply Forall_forall. intros p [(ip & -> & _)%list_elem_of_fmap|Hp]%elem_of_app; [done|].
  apply list_elem_of_In, in_flat_map in Hp as ([job l] & _ & Hp). unfold job_preds in Hp. cbn [fst snd] in Hp.
  destruct l as [|ip l]; [by destruct Hp as [<-|[]]|]. by apply in_map_iff in Hp as (ip' & <- & _).
Qed.
Lemma disable_loop ps : forall db, Forall (fun p => forall a, p (disable a) = p a) ps ->
  let db' := foldl disableWhere db ps in
  (tables_ok db -> tables_ok db') /\ same_hashes db db'
  /\ forall ip job, row db' ip job = where_ (fun a => existsb (fun p => p a) ps) disable <$> row db ip job.
Proof.
  induction ps as [|p ps IH]; intros db Hps; cbn [foldl].
  - split_and!; [done|done|]. intros ip job. by destruct (row db ip job).
  - apply Forall_cons in Hps as [Hp Hps]. destruct (IH (disableWhere db p) Hps) as (Hok & [Hh Hf] & Hrow).
    split_and!; [intros ?; by apply Hok, (tables_ok_update _ _ _ disable_keeps)|by split|].
    intros ip job. rewrite Hrow. unfold disableWhere. rewrite row_update by apply disable_keeps.
    destruct (row db ip job) as [a|]; [|done]. cbn. f_equal. unfold where_.
    assert (Hst : existsb (fun q => q (disable a)) ps = existsb (fun q => q a) ps).
    { clear -Hps. induction Hps as [|q ps Hq _ IH]; [done|]. cbn. by rewrite Hq, IH. }
    destruct (p a) eqn:Hpa; [|done]. rewrite Hst. cbn [orb]. by destruct (existsb (fun q => q a) ps).
Qed.
Lemma applyDisabled_spec d db :
  (tables_ok db -> tables_ok (applyDisabled d db)) /\ same_hashes db (applyDisabled d db)
  /\ forall ip job, row (applyDisabled d db) ip job = (if disabled_in d ip job then disable else id) <$> row db ip job.
Proof.
  rewrite applyDisabled_preds. destruct (disable_loop (disable_preds d) db (disable_preds_stable d)) as (Hok & Hh & Hrow).
  split_and!; [done|done|]. intros ip job. rewrite Hrow. destruct (row db ip job) as [a|] eqn:E; [|done].
  apply row_Some in E as (_ & <- & <-). cbn. unfold where_. rewrite disable_preds_spec. by destruct (disabled_in _ _ _).
Qed.

(** ** Re-enabling *)

Definition start_pending (h : HashRow) : HashRow := mkHash (pending_hash h) None (applied_version h).
Lemma reenable_loop (p : AllocRow -> bool) l : forall db,
  let db' := foldl (fun db a => if p a then MarkAllocationStartPending db (aAllocID a) else db) db l in
  allocations db' = allocations db
  /\ forall id, allocation_hashes db' !! id =
       (if existsb (fun a => p a && bool_decide (aAllocID a = id)) l then start_pending else Datatypes.id) <$> allocation_hashes db !! id.
Proof.
  induction l as [|a l IH]; intros db; cbn [foldl existsb].
  - split; [done|]. intros id. by rewrite option_fmap_id.
  - destruct (IH (if p a then MarkAllocationStartPending db (aAllocID a) else db)) as [Ha Hh]. split; [rewrite Ha; by destruct (p a)|].
    intros id. rewrite Hh. destruct (p a); cbn [andb orb]; [|done].
    unfold MarkAllocationStartPending, clearAllocationAppliedFiles, updateFiles, setFiles, updateHash. cbn [allocation_hashes].
    destruct (decide (aAllocID a = id)) as [E|E].
    + rewrite (bool_decide_eq_true_2 _ E), <- E, lookup_alter_eq, <- option_fmap_compose. cbn [orb].
      destruct (allocation_hashes db !! aAllocID a) as [h|]; [|done]. cbn. by destruct (existsb _ _).
    + rewrite (bool_decide_eq_false_2 _ E), lookup_alter_ne by done. done.
Qed.

Lemma bar_split c s1 s2 t1 t2 : no_byte c s1 = true -> no_byte c s2 = true ->
  s1 +:+ String c t1 = s2 +:+ String c t2 -> s1 = s2 /\ t1 = t2.
Proof.
  revert s2. induction s1 as [|a s1 IH]; intros [|b s2]; cbn [no_byte String.append].
  - by intros _ _ [= ->].
  - intros _ [Hb _]%andb_true_iff [= -> _]. by rewrite bool_decide_eq_true_2 in Hb.
  - intros [Ha _]%andb_true_iff _ [= <- _]. by rewrite bool_decide_eq_true_2 in Ha.
  - intros [_ H1]%andb_true_iff [_ H2]%andb_true_iff [= -> E]. destruct (IH s2 H1 H2 E) as [-> ->]. done.
Qed.

(** The allocation was switched off by the configuration of the last build. *)
Definition was_disabled (db : DB) (ip job : string) : bool :=
  match row db ip job with Some a => (aDisabled a =? 1) && (aRemoved a =? 0) | None => false end.
Lemma disabledBefore_spec db a : tables_ok db -> no_byte "|" (aWorker a) = true ->
  disabledKey a ∈ loadDisabledAllocations db <-> was_disabled db (aWorker a) (aJob a) = true.
Proof.
  intros Hok Hb. unfold loadDisabledAllocations, was_disabled. split.
  - intros (b & E & [Hin Hp]%elem_of_list_filter_b)%list_elem_of_fmap. unfold disabledKey in E.
    assert (Hbb : no_byte "|" (aWorker b) = true) by (pose proof (hosts_plain _ Hok) as Hh; rewrite Forall_forall in Hh; by apply Hh).
    destruct (bar_split "|" _ _ _ _ Hb Hbb E) as [-> ->]. by rewrite (row_of db b Hok Hin).
  - destruct (row db _ _) as [b|] eqn:E; [|done]. intros Hp. apply list_elem_of_fmap. exists b.
    apply row_Some in E as (Hin & Hw & Hj). unfold disabledKey. rewrite Hw, Hj. split; [done|]. by apply elem_of_list_filter_b.
Qed.

(** ** The build *)

Section build.
Context (sha256 : string -> list Z) `{Unicode} (c : Catalog) (bucketID : string) (d : DisabledAllocations).

(** What the row of a worker and a job is after a build. *)
Definition built_row (ip job : string) (old new : option AllocRow) : Prop :=
  (placed c ip job ->
     exists id v, TargetJobVersion c job = Some v
       /\ new = Some (mkAlloc id ip job (if disabled_in d ip job then 1 else 0) 0 (Some v))
       /\ forall a, old = Some a -> id = aAllocID a)
  /\ (~ placed c ip job -> new = (fun a => (if disabled_in d ip job then disable else id) (remove a)) <$> old).

Lemma BuildAllocations_unmarked db db' : tables_ok db -> catalog_ok c -> BuildAllocations sha256 c bucketID d db = Ok db' ->
  exists db2, tables_ok db2 /\ allocation_hashes db2 = allocation_hashes db
    /\ (forall ip job, built_row ip job (row db ip job) (row db2 ip job))
    /\ db' = markReenabledAllocations db2 (loadDisabledAllocations db).
Proof.
  intros Hok Hc. unfold BuildAllocations. destruct (foldR _ _ _) as [db1|] eqn:E; cbn [rbind]; [|done]. intros [= <-].
  destruct (allocateWorkers_spec sha256 c bucketID _ _ _ Hok (GetWorkers_plain c Hc) (GetWorkers_NoDup c Hc) E)
    as (Hok1 & [Hh1 _] & Hin & Hout & Ho).
  destruct (applyDisabled_spec d (removeOffCatalog c db1)) as (Hokd & [Hhd _] & Hrow).
  eexists. split_and!; [| | |done].
  - apply Hokd, tables_ok_update; [apply remove_keeps|done].
  - rewrite Hhd. exact Hh1.
  - intros ip job. rewrite Hrow. unfold removeOffCatalog. rewrite row_update by apply remove_keeps. split.
    + intros Hp. pose proof (placed_worker c ip job Hp) as Hw. destruct (Hin ip job) as (id & v & Hv & Hnew & Hid); [by apply GetWorkers_all|done|].
      exists id, v. split_and!; [done| |done]. rewrite Hnew. cbn. unfold where_. cbn.
      rewrite bool_decide_eq_true_2 by done. cbn. by destruct (disabled_in d ip job).
    + intros Hp. destruct (decide (ip ∈ GetWorkers c [])) as [Hi|Hi].
      * rewrite (Hout ip job Hi Hp). destruct (row db ip job) as [a|]; [|done]. cbn. f_equal. unfold where_. f_equal. by destruct (negb _).
      * rewrite (Ho ip job Hi). destruct (row db ip job) as [a|] eqn:Ea; [|done]. apply row_Some in Ea as (_ & Hw & _). cbn. f_equal.
        unfold where_. rewrite GetWorkers_all in Hi. by rewrite Hw, bool_decide_eq_false_2.
Qed.
Lemma mark_allocations db before : allocations (markReenabledAllocations db before) = allocations db.
Proof.
  unfold markReenabledAllocations. destruct before; [done|].
  by destruct (reenable_loop (fun a => bool_decide (disabledKey a ∈ s :: before)) (List.filter (fun a => (aDisabled a =? 0) && (aRemoved a =? 0)) (allocations db)) db) as [? _].
Qed.
Lemma mark_hashes db before id : allocation_hashes (markReenabledAllocations db before) !! id =
  (if existsb (fun a => bool_decide (disabledKey a ∈ before) && bool_decide (aAllocID a = id))
        (List.filter (fun a => (aDisabled a =? 0) && (aRemoved a =? 0)) (allocations db))
   then start_pending else Datatypes.id) <$> allocation_hashes db !! id.
Proof.
  unfold markReenabledAllocations. destruct before as [|b before].
  - replace (existsb _ _) with false; [by rewrite option_fmap_id|]. symmetry. apply not_true_iff_false. intros (a & _ & Ha)%existsb_exists.
    by rewrite (bool_decide_eq_false_2 (disabledKey a ∈ [])) in Ha by apply not_elem_of_nil.
  - by destruct (reenable_loop (fun a => bool_decide (disabledKey a ∈ b :: before)) (List.filter (fun a => (aDisabled a =? 0) && (aRemoved a =? 0)) (allocations db)) db) as [_ ->].
Qed.

(** C8: After a build, the allocations that are not removed are those of the jobs
    on the workers that have all labels the job selects, each with the target
    version of the job, disabled exactly if the configuration says so, and with
    the identifier it had before; every other row is kept and marked removed. *)
Theorem BuildAllocations_placement db db' : tables_ok db -> catalog_ok c -> BuildAllocations sha256 c bucketID d db = Ok db' ->
  tables_ok db' /\ forall ip job, built_row ip job (row db ip job) (row db' ip job).
Proof.
  intros Hok Hc Hb. destruct (BuildAllocations_unmarked _ _ Hok Hc Hb) as (db2 & Hok2 & _ & Hrow & ->). split.
  - destruct Hok2 as [H1 H2 H3 H4]. constructor; by rewrite mark_allocations.
  - intros ip job. unfold row at 2. rewrite mark_allocations. exact (Hrow ip job).
Qed.

(** C36: A build plans the start of exactly the active allocations that were
    disabled before it: the hash row of any other allocation is unchanged. *)
Theorem BuildAllocations_restarts db db' a h : tables_ok db -> catalog_ok c -> BuildAllocations sha256 c bucketID d db = Ok db' ->
  a ∈ allocations db' -> allocation_hashes db !! aAllocID a = Some h ->
  if isActive a && was_disabled db (aWorker a) (aJob a)
  then is_new db' a = true /\ allocation_hashes db' !! aAllocID a = Some (start_pending h)
  else allocation_hashes db' !! aAllocID a = Some h.
Proof.
  intros Hok Hc Hb Hin Hh. destruct (BuildAllocations_unmarked _ _ Hok Hc Hb) as (db2 & Hok2 & Hhash & _ & ->).
  rewrite mark_allocations in Hin. unfold is_new. rewrite mark_hashes, Hhash, Hh.
  assert (Hplain : no_byte "|" (aWorker a) = true) by (pose proof (hosts_plain _ Hok2) as Hp; rewrite Forall_forall in Hp; by apply Hp).
  replace (existsb _ _) with (isActive a && was_disabled db (aWorker a) (aJob a)).
  { destruct (isActive a && _); cbn; [|done]. by split. }
  apply eq_iff_eq_true. rewrite andb_true_iff, existsb_exists, <- (disabledBefore_spec db a Hok Hplain). split.
  - intros [Ha Hd]. exists a. split; [|by rewrite !bool_decide_eq_true_2]. apply list_elem_of_In, elem_of_list_filter_b. split; [done|].
    unfold isActive, IsActiveAllocation in Ha. by rewrite andb_comm.
  - intros (b & [Hbin Hact]%list_elem_of_In%elem_of_list_filter_b & Hbp). apply andb_true_iff in Hbp as [Hk%bool_decide_eq_true Hid%bool_decide_eq_true].
    rewrite (NoDup_map_eq aAllocID _ b a (ids_unique _ Hok2) Hbin Hin Hid) in *. split; [|done].
    unfold isActive, IsActiveAllocation. by rewrite andb_comm.
Qed.
End build.

(** ** Garbage collection *)

Lemma purge_loop l : forall db id,
  allocation_hashes (foldl (fun db a => RemoveAllocationHash db (aAllocID a)) db l) !! id
  = if existsb (fun a => bool_decide (aAllocID a = id)) l then None else allocation_hashes db !! id.
Proof.
  induction l as [|a l IH]; intros db id; cbn [foldl existsb]; [done|]. rewrite IH.
  unfold RemoveAllocationHash. cbn [allocation_hashes]. destruct (decide (aAllocID a = id)) as [<-|E].
  - rewrite (bool_decide_eq_true_2 (aAllocID a = aAllocID a)), lookup_delete_eq by done. by destruct (existsb _ _).
  - rewrite (bool_decide_eq_false_2 _ E), lookup_delete_ne by done. done.
Qed.
Lemma purge_allocations l : forall db, allocations (foldl (fun db a => RemoveAllocationHash db (aAllocID a)) db l) = allocations db.
Proof. induction l as [|a l IH]; intros db; [done|]. cbn [foldl]. by rewrite IH. Qed.
(** Garbage collection takes the removed allocations with their hashes out of
    the catalog and nothing else. *)
Theorem purgeRemovedAllocations_spec db : tables_ok db ->
  (forall a, a ∈ allocations (purgeRemovedAllocations db) <-> a ∈ allocations db /\ aRemoved a <> 1)
  /\ (forall a, a ∈ allocations db ->
        allocation_hashes (purgeRemovedAllocations db) !! aAllocID a
        = if aRemoved a =? 1 then None else allocation_hashes db !! aAllocID a).
Proof.
  intros Hok. split.
  - intros a. unfold purgeRemovedAllocations. cbn [allocations setAllocations].
    by rewrite purge_allocations, elem_of_list_filter_b, negb_true_iff, Z.eqb_neq.
  - intros a Hin. unfold purgeRemovedAllocations. cbn [allocation_hashes setAllocations]. rewrite purge_loop.
    replace (existsb _ _) with (aRemoved a =? 1); [done|]. apply eq_iff_eq_true. rewrite existsb_exists. split.
    + intros Hr. exists a. split; [by apply list_elem_of_In, elem_of_list_filter_b|by apply bool_decide_eq_true].
    + intros (b & [Hb Hr]%list_elem_of_In%elem_of_list_filter_b & E%bool_decide_eq_true).
      by rewrite <- (NoDup_map_eq aAllocID _ b a (ids_unique _ Hok) Hb Hin E).
Qed.

Lemma view_purge s ns ns' k : view (PurgeNamespace s ns) ns' k = if bool_decide (ns = ns') then None else view s ns' k.
Proof.
  unfold view. rewrite find_PurgeNamespace. case_decide as E; [rewrite (bool_decide_eq_true_2 _ E)|by rewrite (bool_decide_eq_false_2 _ E)]. destruct (find s ns' k) as [e|]; [|done].
  apply view_purgeEntry.
Qed.
Lemma view_purgeAll l : forall s ns k, view (purgeAll s l) ns k = if bool_decide (ns ∈ l) then None else view s ns k.
Proof.
  induction l as [|n l IH]; intros s ns k; unfold purgeAll; cbn [foldl].
  - by rewrite bool_decide_eq_false_2 by apply not_elem_of_nil.
  - fold (purgeAll (PurgeNamespace s n) l). rewrite IH, view_purge.
    destruct (decide (n = ns)) as [->|Hn].
    + rewrite (bool_decide_eq_true_2 (ns = ns)), (bool_decide_eq_true_2 (ns ∈ ns :: l)) by (done || left). by case_bool_decide.
    + rewrite (bool_decide_eq_false_2 _ Hn). by rewrite (bool_decide_ext (ns ∈ n :: l) (ns ∈ l)) by (rewrite elem_of_cons; naive_solver).
Qed.

(** The namespaces that hooks write are of one job only. *)
Lemma hook_namespace_own job other ns : ns ∈ HookKVNamespaces job -> other <> job ->
  ns ∉ JobKVNamespaces other /\ forall ip, ns <> jobWorkerNamespace other ip.
Proof.
  intros Hns Hne. unfold HookKVNamespaces in Hns. rewrite elem_of_cons, list_elem_of_singleton in Hns.
  unfold JobKVNamespaces, BuildJobKVNamespaces, HookKVNamespaces. cbn [app].
  rewrite !not_elem_of_cons. split_and!; try (by apply not_elem_of_nil); destruct Hns as [->| ->]; try (cbn; congruence).
Qed.

(** When a deploy stops allocations it deletes the variables and secrets
    of the jobs that have no other allocation, and keeps those of a job that
    still has one, disabled or not. *)
Theorem purgeHookKVForInactiveJobs_spec db s stopped job ns k : ns ∈ HookKVNamespaces job ->
  view (purgeHookKVForInactiveJobs db s stopped) ns k
  = if bool_decide (job ∈ map snd stopped) && negb (JobHasNonRemovedAllocations db job) then None else view s ns k.
Proof.
  intros Hns. unfold purgeHookKVForInactiveJobs.
  assert (Hgen : forall seen s, view (purgeHookKVLoop db seen s stopped) ns k
    = if bool_decide (job ∈ map snd stopped) && negb (bool_decide (job ∈ seen)) && negb (JobHasNonRemovedAllocations db job) then None else view s ns k).
  { clear s. induction stopped as [|[ip j] l IH]; intros seen s; cbn [purgeHookKVLoop map snd].
    { by rewrite bool_decide_eq_false_2 by apply not_elem_of_nil. }
    destruct (bool_decide (j ∈ seen)) eqn:Hs.
    { apply bool_decide_eq_true in Hs. rewrite IH. destruct (decide (j = job)) as [->|Hj].
      - rewrite (bool_decide_eq_true_2 _ Hs). cbn [negb]. by rewrite !andb_false_r.
      - by rewrite (bool_decide_ext (job ∈ j :: map snd l) (job ∈ map snd l)) by (rewrite elem_of_cons; naive_solver). }
    apply bool_decide_eq_false in Hs. rewrite IH. destruct (decide (j = job)) as [->|Hj].
    - rewrite !(bool_decide_eq_true_2 (job ∈ job :: _)), (bool_decide_eq_false_2 _ Hs) by left. cbn [negb]. rewrite andb_false_r. cbn [andb].
      destruct (JobHasNonRemovedAllocations db job); [done|]. rewrite view_purgeAll. rewrite bool_decide_eq_true_2; [done|].
      apply elem_of_app. left. apply elem_of_app. by right.
    - rewrite (bool_decide_ext (job ∈ j :: map snd l) (job ∈ map snd l)), (bool_decide_ext (job ∈ j :: seen) (job ∈ seen)) by (rewrite elem_of_cons; naive_solver).
      destruct (hook_namespace_own job j ns Hns Hj) as [Hn Hw]. replace (view _ ns k) with (view s ns k); [done|].
      destruct (JobHasNonRemovedAllocations db j); [done|]. rewrite view_purgeAll, bool_decide_eq_false_2; [done|].
      rewrite elem_of_app. intros [?|(ip' & -> & _)%list_elem_of_fmap]; [done|by apply (Hw ip')]. }
  rewrite Hgen. by rewrite (bool_decide_eq_false_2 (job ∈ [])), andb_true_r by apply not_elem_of_nil.
Qed.

(** ** A concrete cluster *)

Definition toy_sha256 (s : string) : list Z :=
  map (fun i => foldl (fun h b => (h * 31 + b + Z.of_nat i) `mod` 256) 7 (bytes s)) (seq 0 32).
Definition sample_catalog : Catalog :=
  mkCatalog [mkWorkerRow "w1" "10.0.0.1" "2048" "0" 0; mkWorkerRow "w2" "10.0.0.2" "2048" "0" 1]
    [("w1", "web"); ("w1", "worker"); ("w2", "web"); ("w2", "eu"); ("w2", "worker")] []
    [mkJobRow "j1" "api" "1.2.0" "0" "0" "0" "0" "0" "0" 0 defaultColumns; mkJobRow "j2" "db" "3.0.0" "0" "0" "0" "0" "0" "0" 0 defaultColumns]
    [("j1", "web"); ("j2", "web"); ("j2", "eu")] [].
(** [api] was disabled on the first worker and [db] ran there, [old] on a
    worker that is gone. *)
Definition sample_db : DB :=
  mkDB [mkAlloc "aaaaaa" "10.0.0.1" "api" 1 0 (Some "1.1.0"); mkAlloc "bbbbbb" "10.0.0.1" "db" 0 0 (Some "3.0.0");
        mkAlloc "cccccc" "10.0.0.9" "old" 0 0 (Some "1.0.0")]
    (<["aaaaaa" := mkHash (Some "h1") (Some "h1") (Some "1.1.0")]> (<["bbbbbb" := mkHash (Some "h2") (Some "h2") (Some "3.0.0")]> ∅)) ∅.
Definition sample_config : DisabledAllocations := mkDisabled (<["db" := ["10.0.0.2"]]> ∅) [].

Lemma sample_tables_ok : tables_ok sample_db.
Proof. constructor; [apply (bool_decide_unpack _); vm_compute; exact I|apply (bool_decide_unpack _); vm_compute; exact I|by repeat constructor|by repeat constructor]. Qed.
Lemma sample_catalog_ok : catalog_ok sample_catalog.
Proof. constructor; [apply (bool_decide_unpack _); vm_compute; exact I|by repeat constructor]. Qed.
Definition built : result build_error DB :=
  BuildAllocations toy_sha256 (H := ascii_unicode) sample_catalog "bucket" sample_config sample_db.
Definition built_db : DB := match built with Ok db => db | Err _ => sample_db end.
Lemma BuildAllocations_placement_witness :
  built = Ok built_db /\ tables_ok built_db
  /\ map (fun a => (aWorker a, aJob a, aDisabled a, aRemoved a)) (allocations built_db)
     = [("10.0.0.1", "db", 0, 1); ("10.0.0.9", "old", 0, 1); ("10.0.0.1", "api", 0, 0); ("10.0.0.2", "api", 0, 0); ("10.0.0.2", "db", 1, 0)].
Proof.
  assert (Hb : built = Ok built_db) by (vm_compute; reflexivity).
  split_and!; [exact Hb| |vm_compute; reflexivity].
  destruct (BuildAllocations_placement toy_sha256 (H := ascii_unicode) sample_catalog "bucket" sample_config sample_db built_db
    sample_tables_ok sample_catalog_ok Hb) as [Hok _]. exact Hok.
Defined.
Lemma BuildAllocations_restarts_witness :
  GetNewAllocations built_db "api" = ["10.0.0.1"]
  /\ is_new built_db (mkAlloc "aaaaaa" "10.0.0.1" "api" 0 0 (Some "1.2.0")) = true.
Proof.
  split; [vm_compute; reflexivity|].
  pose proof (BuildAllocations_restarts toy_sha256 (H := ascii_unicode) sample_catalog "bucket" sample_config sample_db built_db
    (mkAlloc "aaaaaa" "10.0.0.1" "api" 0 0 (Some "1.2.0")) (mkHash (Some "h1") (Some "h1") (Some "1.1.0")) sample_tables_ok sample_catalog_ok) as Hr.
  destruct Hr as [Hr _]; [vm_compute; reflexivity| |vm_compute; reflexivity|exact Hr].
  replace (allocations built_db) with (rev (rev (allocations built_db))) by apply rev_involutive.
  assert (E : rev (rev (allocations built_db)) !! 2%nat = Some (mkAlloc "aaaaaa" "10.0.0.1" "api" 0 0 (Some "1.2.0"))) by (vm_compute; reflexivity).
  by apply list_elem_of_lookup_2 in E.
Defined.
(** ** What garbage collection loses *)

(** [api] is disabled on one worker and was removed from another. *)
Definition half_removed : DB :=
  mkDB [mkAlloc "aaaaaa" "10.0.0.1" "api" 1 0 (Some "1.1.0"); mkAlloc "bbbbbb" "10.0.0.2" "api" 0 1 (Some "1.1.0")] ∅ ∅.
Lemma half_removed_ok : tables_ok half_removed.
Proof. constructor; [apply (bool_decide_unpack _); vm_compute; exact I|apply (bool_decide_unpack _); vm_compute; exact I|by repeat constructor|by repeat constructor]. Qed.
Lemma purgeRemovedAllocations_spec_witness :
  mkAlloc "aaaaaa" "10.0.0.1" "api" 1 0 (Some "1.1.0") ∈ allocations (purgeRemovedAllocations half_removed).
Proof.
  destruct (purgeRemovedAllocations_spec half_removed half_removed_ok) as [Hin _]. apply Hin. split; [left|done].
Defined.
Definition api_store : Store := Put NewStore "secrets/job/api" "token" "t0p" 0.
Definition api_secret (s : Store) : option (string * Z) := view s "secrets/job/api" "token".
Lemma purgeHookKVForInactiveJobs_spec_witness :
  api_secret (purgeHookKVForInactiveJobs half_removed api_store [("10.0.0.2", "api")]) = Some ("t0p", 0).
Proof.
  unfold api_secret. rewrite (purgeHookKVForInactiveJobs_spec half_removed api_store _ "api"); [vm_compute; reflexivity|].
  right. left.
Defined.
(** The deploy that stops the removed allocation keeps the secrets of the
    disabled one; garbage collection deletes them. *)
Theorem gc_deletes_secrets_of_disabled_job :
  api_secret api_store = Some ("t0p", 0)
  /\ api_secret (purgeHookKVForInactiveJobs half_removed api_store (listRemovedAllocations half_removed)) = Some ("t0p", 0)
  /\ GetNonRemovedAllocations half_removed "api" = ["10.0.0.1"]
  /\ (api_secret <$> purgeRemovedAllocationReferences sample_catalog half_removed api_store (listRemovedAllocations half_removed)) = Some None.
Proof. split_and!; vm_compute; reflexivity. Qed.

(** ** A port that moves from one job to another *)

(** The job [old] is not in the workspace any more, [new] has its fixed port:
    the build fails, and leaves [old] in the catalog. *)
Definition catalog_of_old : Catalog :=
  mkCatalog [] [] [] [mkJobRow "j1" "old" "1.0.0" "0" "0" "0" "0" "0" "0" 0 defaultColumns] [] [mkPortRow "j1" "old_http" 9090 "http" "cluster"].
Definition ports_of_new : ManifestPorts := {["new_http" := mkBinding (Some 9090) "http" "cluster"]}.
Theorem renamed_job_port_collides :
  match buildPortAllocator catalog_of_old (mkRange 30000 39999) [ports_of_new] with
  | Ok a => match syncPorts (job_ports catalog_of_old) "j2" "new" ports_of_new a with Err e => Some e | Ok _ => None end
  | Err _ => None
  end = Some (PortCollision 9090 "new" "new_http").
Proof. vm_compute. reflexivity. Qed.
