(* ===== verification/HashTree.v ===== *)
(** * utils and deploy: the hash of a staged tree and the plan of an allocation

    utils/hash.go, and [updateJobAllocationHashes] of deploy/hashes.go with
    [clearWorkerVersionKVKeys] of deploy/versions.go. A staged directory is the
    map of its regular files to their contents; the MD5 of Go's library is an
    argument. The goroutines of [HashDirectoryTree] fill a map, in any order;
    errors of the file system are left out. *)
From S2P Require Import Prelude GoStrings Utils Kv Versions AllocState AllocStateFacts UpdatePolicy Placement.
Open Scope Z_scope.

Notation FileTree := (gmap string string).

Definition hex_char (d : Z) : ascii := if d <? 10 then byte_of (48 + d) else byte_of (87 + d).
Definition EncodeToString (l : list Z) : string :=
  String.string_of_list_ascii (flat_map (fun b => [hex_char (b / 16); hex_char (b `mod` 16)]) l).
Definition concat_strings (l : list string) : string := foldr String.append "" l.

Record DirectoryTree := mkTree { Aggregate : string; Files : FileManifest }.

Section hash.
Context (md5 : string -> list Z).

Definition HashBytes (content : string) : string := EncodeToString (md5 content).
(** The digests of a manifest in the order of its paths. *)
Definition orderedDigests (files : FileManifest) : list string :=
  omap (fun p => files !! p) (merge_sort String.le (map_to_list files).*1).
Definition aggregateOf (files : FileManifest) : string := HashBytes (concat_strings (orderedDigests files)).

(** A path is skipped when it, or the root, contains [__pycache__]; the sort
    is on the paths below the root. *)
Definition walked (root : string) (tree : FileTree) : FileTree :=
  filter (fun kv : string * string => Contains (root +:+ "/" +:+ kv.1) "__pycache__" = false) tree.
Definition HashDirectoryTree (root : string) (tree : FileTree) : DirectoryTree :=
  let files := HashBytes <$> walked root tree in
  mkTree (aggregateOf files) files.
Definition FilterDirectoryTree (tree : DirectoryTree) (skip : string -> bool) : DirectoryTree :=
  let filtered := filter (fun kv : string * string => skip kv.1 = false) (Files tree) in
  mkTree (aggregateOf filtered) filtered.

(** ** Plans (deploy/hashes.go, deploy/versions.go) *)

Fixpoint clearKeys (store : Store) (namespace : string) (keys : list string) : result kv_error Store :=
  match keys with
  | [] => Ok store
  | key :: keys =>
      match Delete store namespace key with
      | Ok store => clearKeys store namespace keys
      | Err ErrNotFound | Err (ErrNamespaceNotFound _) => clearKeys store namespace keys
      | Err e => Err e
      end
  end.
Definition clearWorkerVersionKVKeys (store : Store) (job workerIP : string) : result kv_error Store :=
  clearKeys store (jobWorkerNamespace job workerIP) ["version"; "current_version"; "new_version"].

(** [jobDir] and [staged] are the directory of the job in the staging area of
    a worker and what it holds. *)
Section plan.
Context (jobDir : string -> string) (staged : string -> FileTree).
Definition planTree (workerIP : string) : DirectoryTree :=
  FilterDirectoryTree (HashDirectoryTree (jobDir workerIP) (staged workerIP)) IsJobHostLocalPath.
Fixpoint planWorkers (db : DB) (store : Store) (job : string) (workerIPs : list string) : option (DB * Store) :=
  match workerIPs with
  | [] => Some (db, store)
  | ip :: workerIPs =>
      allocID ← GetAllocationID db ip job;
      let db := UpdateAllocationPlan db allocID (Aggregate (planTree ip)) (Files (planTree ip)) in
      match clearWorkerVersionKVKeys store job ip with
      | Err _ => None
      | Ok store => planWorkers db store job workerIPs
      end
  end.
Definition updateJobAllocationHashes (db : DB) (store : Store) (job : string) : option (DB * Store) :=
  planWorkers db store job (GetNonRemovedAllocations db job).
End plan.
End hash.

(** ** What the hash of a tree tells apart

    The aggregate hash is of the digests alone: a change of contents changes
    it, a change of names need not. *)

(** ** Hexadecimal digests *)

Definition byte_list (l : list Z) : Prop := Forall (fun b => 0 <= b < 256) l.
Lemma hex_char_inj a b : 0 <= a < 16 -> 0 <= b < 16 -> hex_char a = hex_char b -> a = b.
Proof.
  intros Ha Hb E. apply (f_equal byte_val) in E. unfold hex_char in E.
  destruct (a <? 10) eqn:Ea, (b <? 10) eqn:Eb; bool_to_prop; rewrite !byte_val_of in E by lia; lia.
Qed.
Lemma string_of_list_inj l1 l2 : String.string_of_list_ascii l1 = String.string_of_list_ascii l2 -> l1 = l2.
Proof. revert l2. induction l1 as [|a l1 IH]; intros [|b l2]; cbn; try done. intros [= -> E]. by rewrite (IH l2 E). Qed.
Lemma EncodeToString_inj l1 l2 : byte_list l1 -> byte_list l2 -> EncodeToString l1 = EncodeToString l2 -> l1 = l2.
Proof.
  intros H1 H2 E%string_of_list_inj. revert l2 H2 E. induction H1 as [|a l1 Ha _ IH]; intros l2 H2; destruct H2 as [|b l2 Hb H2]; cbn; try done.
  intros [= Eh El E]. f_equal; [|by apply IH].
  assert (Hq : a / 16 = b / 16) by (apply hex_char_inj; [| |done]; split; (apply Z.div_pos || apply Z.div_lt_upper_bound); lia).
  assert (Hr : a `mod` 16 = b `mod` 16) by (apply hex_char_inj; [| |done]; apply Z.mod_pos_bound; lia).
  rewrite (Z.div_mod a 16), (Z.div_mod b 16) by lia. by rewrite Hq, Hr.
Qed.
Lemma length_EncodeToString l : String.length (EncodeToString l) = (2 * length l)%nat.
Proof.
  unfold EncodeToString. induction l as [|b l IH]; [done|]. cbn [flat_map app length].
  cbn [String.string_of_list_ascii String.length]. rewrite IH. lia.
Qed.

Lemma sapp_inj_length a b s t : String.length a = String.length b -> a +:+ s = b +:+ t -> a = b /\ s = t.
Proof.
  revert b. induction a as [|x a IH]; intros [|y b]; cbn; try done. intros [= Hl] [= -> E]. by destruct (IH b Hl E) as [-> ->].
Qed.
Lemma concat_strings_inj n l1 l2 : (0 < n)%nat -> Forall (fun s => String.length s = n) l1 -> Forall (fun s => String.length s = n) l2 ->
  concat_strings l1 = concat_strings l2 -> l1 = l2.
Proof.
  intros Hn H1. revert l2. induction H1 as [|s l1 Hs _ IH]; intros l2 H2; destruct H2 as [|t l2 Ht H2]; cbn; try done.
  - destruct t; cbn in Ht; [lia|done].
  - destruct s; cbn in Hs; [lia|done].
  - intros E. destruct (sapp_inj_length s t _ _ (eq_trans Hs (eq_sym Ht)) E) as [-> E']. by rewrite (IH l2 H2 E').
Qed.

(** ** The order of the paths *)

Definition sortedPaths (m : FileManifest) : list string := merge_sort String.le (map_to_list m).*1.
Lemma sortedPaths_unique (m1 m2 : FileManifest) : (forall p, is_Some (m1 !! p) <-> is_Some (m2 !! p)) -> sortedPaths m1 = sortedPaths m2.
Proof.
  intros Hdom. unfold sortedPaths. apply (StronglySorted_unique String.le); [apply StronglySorted_merge_sort; apply _|apply StronglySorted_merge_sort; apply _|].
  etrans; [apply merge_sort_Permutation|]. etrans; [|symmetry; apply merge_sort_Permutation]. apply NoDup_Permutation; [apply NoDup_fst_map_to_list|apply NoDup_fst_map_to_list|].
  intros p. rewrite !list_elem_of_fmap. split; intros ([k d] & -> & Hin%elem_of_map_to_list).
  - destruct (proj1 (Hdom k)) as [d' Hd']; [by eauto|]. exists (k, d'). split; [done|]. by apply elem_of_map_to_list.
  - destruct (proj2 (Hdom k)) as [d' Hd']; [by eauto|]. exists (k, d'). split; [done|]. by apply elem_of_map_to_list.
Qed.
Lemma sortedPaths_elem (m : FileManifest) p : p ∈ sortedPaths m <-> is_Some (m !! p).
Proof.
  unfold sortedPaths. rewrite merge_sort_Permutation, list_elem_of_fmap. split.
  - intros ([k d] & -> & Hin%elem_of_map_to_list). by exists d.
  - intros [d Hd]. exists (p, d). split; [done|]. by apply elem_of_map_to_list.
Qed.
Lemma omap_lookup_inj (m1 m2 : FileManifest) (l : list string) : (forall p, p ∈ l -> is_Some (m1 !! p) /\ is_Some (m2 !! p)) ->
  omap (fun p => m1 !! p) l = omap (fun p => m2 !! p) l -> forall p, p ∈ l -> m1 !! p = m2 !! p.
Proof.
  induction l as [|k l IH]; intros Hl E p Hp; [by apply elem_of_nil in Hp|].
  destruct (Hl k) as [[d1 H1] [d2 H2]]; [left|]. cbn in E. rewrite H1, H2 in E. injection E as -> E.
  apply elem_of_cons in Hp as [->|Hp]; [congruence|]. apply IH; [|done|done]. intros q Hq. apply Hl. by right.
Qed.

Section md5.
Context (md5 : string -> list Z).
Hypothesis md5_bytes : forall s, byte_list (md5 s).
Hypothesis md5_length : forall s, length (md5 s) = 16%nat.

Lemma HashBytes_inj s t : HashBytes md5 s = HashBytes md5 t -> md5 s = md5 t.
Proof. apply EncodeToString_inj; apply md5_bytes. Qed.
Lemma length_HashBytes s : String.length (HashBytes md5 s) = 32%nat.
Proof. unfold HashBytes. by rewrite length_EncodeToString, md5_length. Qed.

(** The files of a staged tree that are hashed. *)
Definition hashed (root : string) (tree : FileTree) : FileTree :=
  filter (fun kv : string * string => IsJobHostLocalPath kv.1 = false) (walked root tree).
Definition digests (t : FileTree) : FileManifest := HashBytes md5 <$> t.
Lemma planTree_digests jobDir staged ip :
  planTree md5 jobDir staged ip = mkTree (aggregateOf md5 (digests (hashed (jobDir ip) (staged ip)))) (digests (hashed (jobDir ip) (staged ip))).
Proof.
  unfold planTree, FilterDirectoryTree, HashDirectoryTree, hashed, digests. cbn [Files].
  assert (E : filter (fun kv : string * string => IsJobHostLocalPath kv.1 = false) (HashBytes md5 <$> walked (jobDir ip) (staged ip))
    = HashBytes md5 <$> filter (fun kv : string * string => IsJobHostLocalPath kv.1 = false) (walked (jobDir ip) (staged ip)))
    by (rewrite map_filter_fmap; f_equal; by apply map_filter_ext).
  by rewrite E.
Qed.

(** MD5 does not collide on the contents and the lists of digests at hand. *)
Definition no_collision (t1 t2 : FileTree) : Prop :=
  (forall p c1 c2, t1 !! p = Some c1 -> t2 !! p = Some c2 -> md5 c1 = md5 c2 -> c1 = c2)
  /\ (let s1 := concat_strings (orderedDigests (digests t1)) in
      let s2 := concat_strings (orderedDigests (digests t2)) in md5 s1 = md5 s2 -> s1 = s2).
Lemma aggregate_tells_contents t1 t2 : no_collision t1 t2 -> (forall p, is_Some (t1 !! p) <-> is_Some (t2 !! p)) ->
  aggregateOf md5 (digests t1) = aggregateOf md5 (digests t2) -> t1 = t2.
Proof.
  intros [Hc Hs] Hdom E%HashBytes_inj%Hs.
  assert (Hd : forall p, is_Some (digests t1 !! p) <-> is_Some (digests t2 !! p)) by (intros p; unfold digests; rewrite !lookup_fmap, !fmap_is_Some; apply Hdom).
  assert (H32 : forall t, Forall (fun s => String.length s = 32%nat) (orderedDigests (digests t))).
  { intros t. apply Forall_forall. intros s. unfold orderedDigests, digests. rewrite list_elem_of_omap.
    intros (p & _ & Hp). rewrite lookup_fmap in Hp. apply fmap_Some in Hp as (c & _ & ->). apply length_HashBytes. }
  apply (concat_strings_inj 32) in E; [|lia|apply H32|apply H32]. unfold orderedDigests in E.
  fold (sortedPaths (digests t1)) (sortedPaths (digests t2)) in E. rewrite <- (sortedPaths_unique _ _ Hd) in E.
  apply map_eq. intros p. destruct (t1 !! p) as [c1|] eqn:E1.
  - destruct (proj1 (Hdom p)) as [c2 E2]; [by eauto|]. rewrite E2. f_equal. apply (Hc p); [done|done|]. apply HashBytes_inj.
    assert (Hp : p ∈ sortedPaths (digests t1)) by (apply sortedPaths_elem; unfold digests; rewrite lookup_fmap, E1; by eexists).
    apply (omap_lookup_inj (digests t1) (digests t2)) with (p := p) in E; [|by intros q ?%sortedPaths_elem; split; [|apply Hd]|done].
    unfold digests in E. rewrite !lookup_fmap, E1, E2 in E. by injection E.
  - symmetry. apply eq_None_not_Some. rewrite <- Hdom, E1. by intros [? ?].
Qed.

(** An allocation that was deployed with one tree and is planned with another
    one is due for an update exactly if the trees differ, when both have files
    of the same names. *)
Theorem changed_contents_are_updated db a v jobDir deployed staged :
  let old := hashed (jobDir (aWorker a)) (deployed (aWorker a)) in
  let new := hashed (jobDir (aWorker a)) (staged (aWorker a)) in
  no_collision old new -> (forall p, is_Some (old !! p) <-> is_Some (new !! p)) ->
  let h := Some (Aggregate (planTree md5 jobDir deployed (aWorker a))) in
  allocation_hashes db !! aAllocID a = Some (mkHash h h v) ->
  is_updated (UpdateAllocationPlan db (aAllocID a) (Aggregate (planTree md5 jobDir staged (aWorker a)))
                (Files (planTree md5 jobDir staged (aWorker a)))) a
  = negb (bool_decide (old = new)).
Proof.
  intros old new Hc Hdom. cbn zeta. rewrite !planTree_digests. cbn [Aggregate Files]. fold old new. intros Hh.
  unfold UpdateAllocationPlan. rewrite Hh. cbn [pending_hash default].
  destruct (decide (old = new)) as [E|E].
  - rewrite (bool_decide_eq_true_2 (old = new)), E by done. rewrite bool_decide_eq_true_2 by done. unfold is_updated. rewrite Hh, E. cbn.
    by rewrite bool_decide_eq_true_2.
  - rewrite (bool_decide_eq_false_2 (old = new)) by done. rewrite bool_decide_eq_false_2 by (intros E'; by apply E, aggregate_tells_contents).
    unfold is_updated, upsertAllocationPendingFiles, setFiles, updateHash. cbn [allocation_hashes].
    rewrite lookup_alter_eq, Hh. cbn. apply negb_true_iff, bool_decide_eq_false. intros E'. by apply E, aggregate_tells_contents.
Qed.

(** A tree with the same contents in the order of the paths, under other names,
    has the same plan: the tables stay as they are. *)
Theorem renamed_files_keep_the_plan db id h jobDir deployed staged ip :
  orderedDigests (Files (planTree md5 jobDir deployed ip)) = orderedDigests (Files (planTree md5 jobDir staged ip)) ->
  allocation_hashes db !! id = Some h -> pending_hash h = Some (Aggregate (planTree md5 jobDir deployed ip)) ->
  UpdateAllocationPlan db id (Aggregate (planTree md5 jobDir staged ip)) (Files (planTree md5 jobDir staged ip)) = db.
Proof.
  rewrite !planTree_digests. cbn [Files Aggregate]. unfold aggregateOf. intros E Hh Hp. unfold UpdateAllocationPlan. rewrite Hh, Hp.
  cbn. rewrite bool_decide_eq_true_2; [done|]. by rewrite E.
Qed.
End md5.

(** ** A renamed file *)

Definition toy_md5 (s : string) : list Z :=
  map (fun i => foldl (fun h b => (h * 31 + b + Z.of_nat i) `mod` 256) 7 (bytes s)) (seq 0 16).
Definition tree_before (_ : string) : FileTree := <["Makefile" := "start:"]> (<["app.yaml" := "port: 80"]> ∅).
Definition tree_edited (_ : string) : FileTree := <["Makefile" := "start:"]> (<["app.yaml" := "port: 81"]> ∅).
Definition tree_renamed (_ : string) : FileTree := <["Makefile" := "start:"]> (<["app.yml" := "port: 80"]> ∅).
Definition api_dir (_ : string) : string := "tmp/jobs/api".
Definition api_row : AllocRow := mkAlloc "aaaaaa" "10.0.0.1" "api" 0 0 (Some "1.0.0").
Definition deployed_db : DB :=
  let h := Some (Aggregate (planTree toy_md5 api_dir tree_before "10.0.0.1")) in
  mkDB [api_row] (<["aaaaaa" := mkHash h h (Some "1.0.0")]> ∅) ∅.
Definition replan (staged : string -> FileTree) : option DB :=
  fst <$> updateJobAllocationHashes toy_md5 api_dir staged deployed_db NewStore "api".

Lemma toy_md5_ok : (forall s, byte_list (toy_md5 s)) /\ forall s, length (toy_md5 s) = 16%nat.
Proof.
  split; intros s; unfold toy_md5; [|by rewrite length_map].
  apply Forall_forall. intros b (i & -> & _)%list_elem_of_fmap. destruct (bytes s) as [|x l] using rev_ind; cbn; [lia|].
  rewrite foldl_app. cbn. apply Z.mod_pos_bound. lia.
Qed.
Lemma changed_contents_are_updated_witness :
  is_updated (UpdateAllocationPlan deployed_db "aaaaaa" (Aggregate (planTree toy_md5 api_dir tree_edited "10.0.0.1"))
    (Files (planTree toy_md5 api_dir tree_edited "10.0.0.1"))) api_row = true.
Proof.
  destruct toy_md5_ok as [Hb Hl].
  transitivity (negb (bool_decide (hashed (api_dir "10.0.0.1") (tree_before "10.0.0.1") = hashed (api_dir "10.0.0.1") (tree_edited "10.0.0.1"))));
    [apply (changed_contents_are_updated toy_md5 Hb Hl deployed_db api_row (Some "1.0.0") api_dir tree_before tree_edited)|vm_compute; reflexivity].
  - split; [|vm_compute; congruence]. intros p c1 c2 H1 H2 E. cut (toy_md5 c1 = toy_md5 c2 -> c1 = c2); [auto|]. clear E.
    change (hashed _ _) with (tree_before "") in H1. change (hashed _ _) with (tree_edited "") in H2.
    unfold tree_before, tree_edited in H1, H2. rewrite !lookup_insert_Some, lookup_empty in H1, H2.
    destruct H1 as [[<- <-]|[N1 [[<- <-]|[N1' ?]]]]; [| |done]; destruct H2 as [[H2 <-]|[N2 [[H2 <-]|[N2' ?]]]]; try done; vm_compute; congruence.
  - intros p. change (hashed _ _) with (tree_before "") at 1. change (hashed _ _) with (tree_edited "").
    unfold tree_before, tree_edited. unfold is_Some. setoid_rewrite lookup_insert_Some. setoid_rewrite lookup_insert_Some.
    setoid_rewrite lookup_empty. split; (intros [x [[<- _]|[N [[<- _]|[_ ?]]]]]; [| |done]; eexists; [by left|right; split; [done|by left]]).
  - vm_compute. reflexivity.
Defined.
(** A file of a deployed job is renamed: nothing is planned, the job does not
    need a rollout, and the worker keeps the file under its old name. *)
Theorem renamed_file_is_not_deployed :
  DiffFileManifests (Files (planTree toy_md5 api_dir tree_before "10.0.0.1")) (Files (planTree toy_md5 api_dir tree_renamed "10.0.0.1"))
  = ["app.yaml"; "app.yml"]
  /\ replan tree_renamed = Some deployed_db /\ JobNeedsRollout deployed_db "api" = Some false
  /\ (replan tree_edited ≫= fun db => JobNeedsRollout db "api") = Some true.
Proof. split_and!; vm_compute; reflexivity. Qed.
