(* ===== verification/JobTree.v ===== *)
(** * workspace and jobsign: the files of a job

    workspace/job_name.go, the paths of workspace/paths.go, workspace/bt.go,
    workspace/templates.go, and the snapshot of jobsign/signing.go. A directory
    of the workspace is a tree whose entries are in lexical order, as
    [filepath.WalkDir] visits them; errors of reading it are left out. *)
From S2P Require Import Prelude GoStrings Utils PathMatch UpdatePolicy.
Open Scope Z_scope.

(** ** Go's path.Split, path.Clean, path.Join and path.Dir *)

(** The elements of a path that are left, last first. *)
Fixpoint cleanElements (rooted : bool) (out : list string) (elements : list string) : list string :=
  match elements with
  | [] => out
  | e :: elements =>
      let out :=
        if String.eqb e "" || String.eqb e "." then out
        else if String.eqb e ".." then
          match out with
          | last :: rest => if String.eqb last ".." then e :: out else rest
          | [] => if rooted then [] else [e]
          end
        else e :: out in
      cleanElements rooted out elements
  end.
Definition path_Clean (p : string) : string :=
  if String.eqb p "" then "."
  else
    let rooted := HasPrefix p "/" in
    let s := Join (rev (cleanElements rooted [] (Split p slash))) "/" in
    if rooted then "/" +:+ s else if String.eqb s "" then "." else s.
Definition path_Join (l : list string) : string :=
  match List.filter nonempty_string l with
  | [] => ""
  | l => path_Clean (Join l "/")
  end.
(** The directory with its slash, and the name. *)
Definition path_Split (p : string) : string * string :=
  let name := List.last (Split p slash) "" in
  (stake (String.length p - String.length name) p, name).
Definition path_Dir (p : string) : string := path_Clean (path_Split p).1.

(** ** Names of jobs (job_name.go) *)

Definition MaxJobNameLen : Z := 32.
Inductive name_error := NameEmpty | NameTooLong (name : string) | NameSyntax (name : string).
Definition name_edge (c : ascii) : bool := is_lower_ascii (byte_val c) || is_digit_ascii (byte_val c).
Definition name_inner (c : ascii) : bool := name_edge c || bool_decide (c = "_"%char).
(** [^[a-z](?:[a-z0-9_]{0,30}[a-z0-9])?$] *)
Definition jobNamePattern (s : string) : bool :=
  match String.list_ascii_of_string s with
  | [] => false
  | c :: rest =>
      is_lower_ascii (byte_val c)
      && match rev rest with
         | [] => true
         | z :: inner => name_edge z && forallb name_inner inner && (length inner <=? 30)%nat
         end
  end.
Definition ValidateJobName (name : string) : option name_error :=
  let name := TrimSpace name in
  if String.eqb name "" then Some NameEmpty
  else if Z.of_nat (String.length name) >? MaxJobNameLen then Some (NameTooLong name)
  else if negb (jobNamePattern name) then Some (NameSyntax name)
  else None.

(** ** Paths of a job (paths.go) *)

Definition reservedJobRuntimeDirNames : list string := ["data"; "logs"; "bin"].
Definition skipJobWalkDirNames : list string := [".venv"; "venv"; "node_modules"; "__pycache__"].
Definition JobCertsDirName : string := "certs".
Definition IsReservedJobRuntimePath (jobName storePath : string) : bool :=
  existsb (fun name => String.eqb storePath (path_Join [jobName; name])) reservedJobRuntimeDirNames.
Definition IsJobRootCertsPath (rel : string) : bool :=
  let rel := TrimPrefix rel "./" in
  if String.eqb rel "" || String.eqb rel "." then false
  else String.eqb rel JobCertsDirName || HasPrefix rel (JobCertsDirName +:+ "/").
Definition ShouldSkipJobPath (rel : string) : bool := existsb (fun part => mem part skipJobWalkDirNames) (Split rel slash).
Definition shouldSkipJobWalk (rel name : string) (isDir : bool) : bool :=
  IsJobRootCertsPath rel || (isDir && mem name skipJobWalkDirNames) || ShouldSkipJobPath rel.
Definition JobRuntimeDirRsyncProtectFilterLines : list string :=
  flat_map (fun name => ["P jobs/*/" +:+ name +:+ "/" +:+ String "010" ""; "P jobs/*/" +:+ name +:+ "/**" +:+ String "010" ""])
    reservedJobRuntimeDirNames.

(** ** Templates of the build (bt.go) *)

(** [strings.ReplaceAll], for a text that is not empty. *)
Fixpoint replaceFrom (fuel : nat) (old new s : string) : string :=
  match fuel, s with
  | S fuel, String c t =>
      if HasPrefix s old then new +:+ replaceFrom fuel old new (sdrop (String.length old) s) else String c (replaceFrom fuel old new t)
  | _, _ => s
  end.
Definition ReplaceAll (s old new : string) : string := replaceFrom (String.length s) old new s.

Definition JobTemplateExt : string := ".bt".
Record JobTemplateVars := mkTemplateVars { tvJobName : string; tvBucketID : string; tvJobID : string; tvKiveGitHash : string }.
Definition placeholders (vars : JobTemplateVars) : list (string * string) :=
  [("[[job_name]]", tvJobName vars); ("[[jobname]]", tvJobName vars); ("[[bucket_id]]", tvBucketID vars); ("[[bucketid]]", tvBucketID vars);
   ("[[job_id]]", tvJobID vars); ("[[jobid]]", tvJobID vars); ("[[kive_git_hash]]", tvKiveGitHash vars); ("[[kivegithash]]", tvKiveGitHash vars)].
Definition Transpile (content : string) (vars : JobTemplateVars) : string :=
  foldl (fun content p => ReplaceAll content p.1 p.2) content (placeholders vars).
(** [buildinfo.Hash()] is an argument. *)
Definition JobTemplateVarsForName (gitHash jobName : string) : JobTemplateVars := mkTemplateVars jobName "" "" gitHash.
Definition dropEnd (n : nat) (s : string) : string := stake (String.length s - n) s.
Definition IsJobTemplateFile (name : string) : bool := (3 <? String.length name)%nat && HasSuffix name JobTemplateExt.
Definition UnwrapPath (relPath : string) : string * bool :=
  if IsJobTemplateFile (path_Base relPath) then (dropEnd 3 relPath, true) else (relPath, false).
Definition MaterializeJobTemplate (relPath content : string) (vars : JobTemplateVars) : string * string * bool :=
  if IsJobTemplateFile (path_Base relPath) then ((UnwrapPath relPath).1, Transpile content vars, true) else (relPath, content, false).

(** ** Forms of a file (templates.go) *)

Definition DeployTemplateExt : string := ".tpl".
Definition CombinedTemplateExt : string := ".tpl.bt".
Definition invalidCombinedTemplateExt : string := ".bt.tpl".
Inductive TemplateForm := TemplateFormPlain | TemplateFormBT | TemplateFormTPL | TemplateFormTPLBT.
(** [None] is the error of a [.bt.tpl]. *)
Definition ParseTemplateForm (name : string) : option (string * TemplateForm) :=
  if HasSuffix name invalidCombinedTemplateExt then None
  else if HasSuffix name CombinedTemplateExt then Some (dropEnd 7 name, TemplateFormTPLBT)
  else if HasSuffix name JobTemplateExt then Some (dropEnd 3 name, TemplateFormBT)
  else if HasSuffix name DeployTemplateExt then Some (dropEnd 4 name, TemplateFormTPL)
  else Some (name, TemplateFormPlain).
Definition IsDeployTemplateFile (name : string) : bool := HasSuffix name DeployTemplateExt && negb (HasSuffix name CombinedTemplateExt).
Definition UnwrapDeployTemplatePath (relPath : string) : string * bool :=
  if IsDeployTemplateFile (path_Base relPath) then (dropEnd 4 relPath, true) else (relPath, false).
Definition CanonicalPlainPath (jobRel : string) : option string :=
  let '(dir, name) := path_Split jobRel in
  '(baseName, _) ← ParseTemplateForm name;
  Some (if String.eqb dir "" then baseName else path_Join [dir; baseName]).

Definition prometheusConfigFile : string := "prometheus.yml".
Definition isPrometheusExclusiveTemplatePath (canonical : string) : bool :=
  let base := path_Base canonical in
  (String.eqb base "scrape.yaml" && String.eqb (path_Base (path_Dir canonical)) "_prometheus") || String.eqb base prometheusConfigFile.

Inductive tree_error :=
| BadName (e : name_error)
| SymlinkNotAllowed (path : string)
| NotRegular (path : string)
| TemplateSuffix (path : string)
| TemplateConflict
| UnsupportedFile (name : string)
| ConfNotFound
| MakefileNotFound
| TwoManifests
| ReservedPath (path : string).

(** The sources of one path of the result; which of the conflicts is reported
    depends on the order of a map. *)
Fixpoint canonicalPaths (filePaths : list string) : result tree_error (list string) :=
  match filePaths with
  | [] => Ok []
  | rel :: filePaths =>
      match ParseTemplateForm (path_Base rel), CanonicalPlainPath rel with
      | Some _, Some canonical =>
          let? rest := canonicalPaths filePaths in
          Ok (if isPrometheusExclusiveTemplatePath canonical then rest else canonical :: rest)
      | _, _ => Err (TemplateSuffix rel)
      end
  end.
Definition CheckTemplatePathConflicts (filePaths : list string) : option tree_error :=
  match canonicalPaths filePaths with
  | Err e => Some e
  | Ok canonical => if bool_decide (NoDup canonical) then None else Some TemplateConflict
  end.

Definition unsupportedJobConfForms : list string :=
  ["job.conf.tpl"; "job.conf.tpl.bt"; "job.conf.bt.tpl"; "job.conf.jt"; "manifest.conf"; "manifest.conf.bt"; "manifest.conf.tpl";
   "manifest.conf.tpl.bt"; "manifest.conf.bt.tpl"; "job.conf.jt"; "manifest.json"; "manifest.json.bt"; "manifest.json.tpl";
   "manifest.json.tpl.bt"; "manifest.json.jt"].
Definition rootFile (jobName : string) (filePaths : list string) (name : string) : bool := mem (path_Join [jobName; name]) filePaths.
Definition ValidateRequiredJobFilePaths (jobName : string) (filePaths : list string) : option tree_error :=
  match List.filter (rootFile jobName filePaths) unsupportedJobConfForms with
  | name :: _ => Some (UnsupportedFile name)
  | [] =>
      if negb (rootFile jobName filePaths "job.conf") && negb (rootFile jobName filePaths "job.conf.bt") then Some ConfNotFound
      else if negb (existsb (rootFile jobName filePaths) ["Makefile"; "Makefile.bt"; "Makefile.tpl"; "Makefile.tpl.bt"])
      then Some MakefileNotFound
      else None
  end.

(** ** Snapshots (signing.go) *)

Inductive Node := Dir (entries : list (string * Node)) | Regular (content : string) | Symlink | Special.
Record File := mkSnapshotFile { fPath : string; fContent : string; fIsDir : bool }.
Record Snapshot := mkSnapshot { JobName : string; Files : list File }.

Definition is_dir (n : Node) : bool := match n with Dir _ => true | _ => false end.
Definition storePath (jobName rel : string) : string := if String.eqb rel "" then jobName else jobName +:+ "/" +:+ rel.
Definition below (rel name : string) : string := if String.eqb rel "" then name else rel +:+ "/" +:+ name.
(** The walk below the root of a job; [rel] is empty at the root. *)
Fixpoint captureNode (jobName rel name : string) (n : Node) : result tree_error (list File) :=
  if negb (String.eqb rel "") && shouldSkipJobWalk rel name (is_dir n) then Ok []
  else
    let path := storePath jobName rel in
    match n with
    | Symlink => Err (SymlinkNotAllowed path)
    | Special => Err (NotRegular path)
    | Regular content => Ok [mkSnapshotFile path content false]
    | Dir entries =>
        let? files :=
          (fix captureAll (l : list (string * Node)) : result tree_error (list File) :=
             match l with
             | [] => Ok []
             | (name, n) :: l => let? a := captureNode jobName (below rel name) name n in let? b := captureAll l in Ok (a ++ b)
             end) entries in
        Ok (mkSnapshotFile path "" true :: files)
    end.
Definition file_le (a b : File) : Prop := String.le (fPath a) (fPath b).
#[export] Instance file_le_dec : RelDecision file_le.
Proof. unfold RelDecision, file_le. intros. apply _. Defined.
Definition Capture (jobName : string) (root : Node) : result tree_error Snapshot :=
  match ValidateJobName jobName with
  | Some e => Err (BadName e)
  | None => let? files := captureNode jobName "" "" root in Ok (mkSnapshot jobName (merge_sort file_le files))
  end.

Definition snapshotFile (s : Snapshot) (rel : string) : option string :=
  fContent <$> head (List.filter (fun f => negb (fIsDir f) && String.eqb (fPath f) (JobName s +:+ "/" +:+ rel)) (Files s)).
Definition SignatureFileName : string := ".kive-job.crt".
Definition Signature (s : Snapshot) : option string := snapshotFile s SignatureFileName.
Definition ManifestBytes (gitHash : string) (s : Snapshot) : result tree_error string :=
  match snapshotFile s "job.conf", snapshotFile s "job.conf.bt" with
  | Some _, Some _ => Err TwoManifests
  | Some plain, None => Ok plain
  | None, Some template => Ok (Transpile template (JobTemplateVarsForName gitHash (JobName s)))
  | None, None => Err ConfNotFound
  end.

(** ** workspace: facts about the files of a job

    The paths that the code makes of plain elements, and the check that no two
    files of a job become the same file on a worker. *)

(** ** Suffixes *)

Lemma HasSuffix_inv s p : HasSuffix s p = true -> exists t, s = t +:+ p.
Proof.
  unfold HasSuffix. intros [Hl%Nat.leb_le Hd%bool_decide_eq_true]%andb_true_iff.
  exists (stake (String.length s - String.length p) s). rewrite <- Hd at 2. clear.
  generalize (String.length s - String.length p)%nat. intros n. revert s.
  induction n as [|n IH]; intros [|c s]; cbn; try done. by rewrite <- IH.
Qed.
Lemma dropEnd_app s t : dropEnd (String.length t) (s +:+ t) = s.
Proof. unfold dropEnd. rewrite slen_app, Nat.add_sub. apply stake_app. Qed.
(** The suffixes of a text are suffixes of one another. *)
Lemma HasSuffix_shorter s p q : HasSuffix s p = true -> HasSuffix s q = true -> (String.length q <= String.length p)%nat -> HasSuffix p q = true.
Proof.
  intros [t ->]%HasSuffix_inv [u E]%HasSuffix_inv Hl.
  assert (Hlen : (String.length t <= String.length u)%nat).
  { apply (f_equal String.length) in E. rewrite !slen_app in E. lia. }
  revert u E Hlen. induction t as [|c t IH]; intros u E Hlen; cbn in E.
  - rewrite E. apply HasSuffix_app.
  - destruct u as [|d u]; [cbn in Hlen; lia|]. cbn in E. injection E as -> E. apply (IH u E). cbn in Hlen. lia.
Qed.
Lemma HasSuffix_app_r s p q : HasSuffix p q = true -> HasSuffix (s +:+ p) q = true.
Proof. intros [t ->]%HasSuffix_inv. rewrite <- sapp_assoc. apply HasSuffix_app. Qed.

(** ** Paths of plain elements *)

Definition plain (e : string) : Prop := e <> "" /\ e <> "." /\ e <> ".." /\ no_byte slash e = true.
Lemma cleanElements_plain rooted l : forall out, Forall plain l -> cleanElements rooted out l = rev l ++ out.
Proof.
  induction l as [|e l IH]; intros out Hl; cbn [cleanElements rev]; [done|].
  apply Forall_cons_1 in Hl as [(H1%String.eqb_neq & H2%String.eqb_neq & H3%String.eqb_neq & _) Hl].
  rewrite H1, H2, H3. cbn [orb]. rewrite IH by done. by rewrite <- app_assoc.
Qed.
Lemma Join_snoc l x sep : l <> [] -> Join (l ++ [x]) sep = Join l sep +:+ sep +:+ x.
Proof.
  induction l as [|e l IH]; [done|]. intros _. destruct l as [|f l]; [done|].
  change (Join ((e :: f :: l) ++ [x]) sep) with (e +:+ sep +:+ Join ((f :: l) ++ [x]) sep). rewrite IH by done.
  change (Join (e :: f :: l) sep) with (e +:+ sep +:+ Join (f :: l) sep). by rewrite !sapp_assoc.
Qed.
Lemma Forall_no_slash l : Forall plain l -> Forall (fun e => no_byte slash e = true) l.
Proof. intros H. apply (Forall_impl _ _ _ H). intros e He. apply He. Qed.
Lemma Split_plain l : Forall plain l -> l <> [] -> Split (Join l "/") slash = l.
Proof. intros Hl Hne. apply (Split_Join l slash); [done|by apply Forall_no_slash]. Qed.
Lemma Join_plain_head l : Forall plain l -> l <> [] -> HasPrefix (Join l "/") "/" = false /\ Join l "/" <> "".
Proof.
  intros Hl Hne. destruct l as [|e l]; [done|]. apply Forall_cons_1 in Hl as [(He & _ & _ & Hs) _].
  destruct e as [|c e]; [done|]. cbn [no_byte] in Hs. apply andb_true_iff in Hs as [Hc _]. apply negb_true_iff, bool_decide_eq_false in Hc.
  destruct l as [|f l]; cbn [Join String.append]; (split; [|done]); cbn [HasPrefix]; rewrite bool_decide_eq_false_2 by (intros E; apply Hc; by rewrite <- E); done.
Qed.
Lemma path_Clean_plain l m : Forall plain m -> m <> [] -> cleanElements false [] l = rev m ->
  Split (Join l "/") slash = l -> HasPrefix (Join l "/") "/" = false -> Join l "/" <> "" -> path_Clean (Join l "/") = Join m "/".
Proof.
  intros Hm Hne Hc Hs Hp He. unfold path_Clean. apply String.eqb_neq in He. rewrite He, Hp, Hs, Hc, rev_involutive.
  destruct (Join_plain_head m Hm Hne) as [_ Hj]. apply String.eqb_neq in Hj. by rewrite Hj.
Qed.

(** The directory of a path with its slash. *)
Definition dirSlash (l : list string) : string := match l with [] => "" | _ => Join l "/" +:+ "/" end.
Lemma Join_dirSlash l x : Join (l ++ [x]) "/" = dirSlash l +:+ x.
Proof. destruct l as [|e l]; [done|]. rewrite Join_snoc by done. unfold dirSlash. by rewrite sapp_assoc. Qed.
Lemma last_snoc {A} (l : list A) x d : List.last (l ++ [x]) d = x.
Proof. induction l as [|e l IH]; [done|]. cbn [app List.last]. destruct (l ++ [x]) eqn:E; [by destruct l|done]. Qed.
Lemma path_Split_plain l x : Forall plain (l ++ [x]) -> path_Split (Join (l ++ [x]) "/") = (dirSlash l, x).
Proof.
  intros Hl. unfold path_Split. rewrite Split_plain by (done || by destruct l). rewrite last_snoc, Join_dirSlash, slen_app, Nat.add_sub.
  by rewrite stake_app.
Qed.
Lemma path_Join_plain l x : Forall plain l -> plain x -> path_Join [dirSlash l; x] = Join (l ++ [x]) "/".
Proof.
  intros Hl Hx. destruct (decide (l = [])) as [->|Hne].
  - unfold path_Join. cbn [dirSlash List.filter nonempty_string]. destruct (nonempty_string "") eqn:E; [done|].
    assert (Hn : nonempty_string x = true) by (unfold nonempty_string; apply negb_true_iff, bool_decide_eq_false; apply Hx). rewrite Hn.
    assert (H1 : Forall plain [x]) by by constructor. destruct (Join_plain_head [x] H1 ltac:(done)) as [Hp He].
    apply (path_Clean_plain [x] [x]); try done; [|by apply Split_plain]. by rewrite cleanElements_plain.
  - unfold path_Join. cbn [List.filter].
    assert (Hd : nonempty_string (dirSlash l) = true).
    { unfold nonempty_string, dirSlash. destruct l; [done|]. apply negb_true_iff, bool_decide_eq_false. intros E.
      apply (f_equal String.length) in E. rewrite slen_app in E. cbn in E. lia. }
    assert (Hn : nonempty_string x = true) by (unfold nonempty_string; apply negb_true_iff, bool_decide_eq_false; apply Hx).
    rewrite Hd, Hn. replace (Join [dirSlash l; x] "/") with (Join (l ++ [""; x]) "/").
    2:{ replace (l ++ [""; x]) with ((l ++ [""]) ++ [x]) by (by rewrite <- app_assoc). rewrite Join_snoc by (by destruct l).
        rewrite Join_snoc by done. cbn [Join]. unfold dirSlash. destruct l; [done|]. by rewrite sapp_nil_r. }
    assert (Hall : Forall plain (l ++ [x])) by (apply Forall_app; split; [done|by constructor]).
    destruct (Join_plain_head l Hl Hne) as [Hp He].
    apply path_Clean_plain; [done|by destruct l| | | |].
    + rewrite rev_app_distr. cbn [rev app]. clear -Hl Hx.
      assert (Happ : forall a b out, cleanElements false out (a ++ b) = cleanElements false (cleanElements false out a) b).
      { induction a as [|e a IH]; intros b out; cbn [app cleanElements]; [done|apply IH]. }
      rewrite Happ, (cleanElements_plain false l) by done. cbn [cleanElements]. rewrite String.eqb_refl. cbn [orb].
      destruct Hx as (H1%String.eqb_neq & H2%String.eqb_neq & H3%String.eqb_neq & _). rewrite H1, H2, H3. cbn [orb].
      by rewrite app_nil_r.
    + apply (Split_Join (l ++ [""; x]) slash); [by destruct l|]. apply Forall_app. split; [by apply Forall_no_slash|].
      repeat constructor. apply Hx.
    + destruct l as [|e l]; [done|]. destruct e as [|c e]; [by apply Forall_cons_1 in Hl as [[? _] _]|].
      destruct l as [|f l]; exact Hp.
    + destruct l as [|e l]; [done|]. destruct e as [|c e]; [by apply Forall_cons_1 in Hl as [[? _] _]|]. by destruct l.
Qed.
Lemma path_Base_joined l x : plain x -> Forall plain l -> path_Base (Join (l ++ [x]) "/") = x.
Proof.
  intros Hx Hl. assert (Hall : Forall plain (l ++ [x])) by (apply Forall_app; split; [done|by constructor]).
  destruct (Join_plain_head (l ++ [x]) Hall ltac:(by destruct l)) as [_ He]. unfold path_Base.
  rewrite bool_decide_eq_false_2 by done. cbv zeta.
  assert (Htrim : forall s, no_byte slash s = true -> s <> "" -> forall d, trimRightSlash (d +:+ s) = d +:+ s).
  { intros s Hs Hne d. assert (H0 : trimRightSlash s = s).
    { clear He. induction s as [|c s IH]; [done|]. cbn [no_byte] in Hs. apply andb_true_iff in Hs as [Hc Hs].
      apply negb_true_iff in Hc. cbn [trimRightSlash].
      destruct s as [|c' s]; [cbn; by rewrite Hc|]. rewrite IH; [done|done|discriminate]. }
    induction d as [|c d IH]; [done|]. cbn [String.append trimRightSlash]. rewrite IH. destruct d; cbn; [by destruct s|done]. }
  rewrite Join_dirSlash, Htrim; [|apply Hx|apply Hx]. rewrite <- Join_dirSlash, Split_plain by (done || by destruct l). rewrite last_snoc.
  rewrite bool_decide_eq_false_2 by apply Hx. done.
Qed.

(** ** Forms of a file *)

(** The path of a file on a worker: [.bt] goes at the build, [.tpl] when the
    allocation is rendered. *)
Definition output (p : string) : string := (UnwrapDeployTemplatePath (UnwrapPath p).1).1.
Definition outputName (name : string) : string :=
  let name := if IsJobTemplateFile name then dropEnd 3 name else name in
  if IsDeployTemplateFile name then dropEnd 4 name else name.
Lemma dropEnd_prefix n d s : (n <= String.length s)%nat -> dropEnd n (d +:+ s) = d +:+ dropEnd n s.
Proof.
  intros Hn. unfold dropEnd. rewrite slen_app. replace (_ + _ - n)%nat with (String.length d + (String.length s - n))%nat by lia.
  induction d as [|c d IH]; cbn; [done|]. by rewrite IH.
Qed.
Lemma suffix_length s p : HasSuffix s p = true -> (String.length p <= String.length s)%nat.
Proof. unfold HasSuffix. intros [Hl%Nat.leb_le _]%andb_true_iff. done. Qed.

Lemma outputName_base name base form : ParseTemplateForm name = Some (base, form) -> base <> "" -> outputName name = base.
Proof.
  unfold ParseTemplateForm. destruct (HasSuffix name invalidCombinedTemplateExt) eqn:Einv; [done|].
  destruct (HasSuffix name CombinedTemplateExt) eqn:Ec.
  { intros [= <- _] Hb. apply HasSuffix_inv in Ec as [t ->]. change 7%nat with (String.length CombinedTemplateExt) in Hb |- *.
    rewrite dropEnd_app in Hb |- *. unfold outputName.
    replace (t +:+ CombinedTemplateExt) with ((t +:+ DeployTemplateExt) +:+ JobTemplateExt) in * by (by rewrite sapp_assoc).
    assert (Hj : IsJobTemplateFile ((t +:+ DeployTemplateExt) +:+ JobTemplateExt) = true).
    { unfold IsJobTemplateFile. rewrite HasSuffix_app, !slen_app, andb_true_r. apply Nat.ltb_lt. cbn. lia. }
    rewrite Hj. change 3%nat with (String.length JobTemplateExt). rewrite dropEnd_app. cbv zeta.
    assert (Hd : IsDeployTemplateFile (t +:+ DeployTemplateExt) = true).
    { unfold IsDeployTemplateFile. rewrite HasSuffix_app. cbn [andb]. apply negb_true_iff.
      destruct (HasSuffix (t +:+ DeployTemplateExt) CombinedTemplateExt) eqn:E; [|done].
      pose proof (HasSuffix_shorter _ _ _ E (HasSuffix_app t DeployTemplateExt) ltac:(cbn; lia)) as Hx. vm_compute in Hx. discriminate. }
    rewrite Hd. change 4%nat with (String.length DeployTemplateExt). apply dropEnd_app. }
  destruct (HasSuffix name JobTemplateExt) eqn:Ej.
  { intros [= <- _] Hb. apply HasSuffix_inv in Ej as [t ->]. change 3%nat with (String.length JobTemplateExt) in Hb |- *.
    rewrite dropEnd_app in Hb |- *. unfold outputName.
    assert (Hj : IsJobTemplateFile (t +:+ JobTemplateExt) = true).
    { unfold IsJobTemplateFile. rewrite HasSuffix_app, slen_app, andb_true_r. apply Nat.ltb_lt. destruct t; [done|cbn; lia]. }
    rewrite Hj. change 3%nat with (String.length JobTemplateExt). rewrite dropEnd_app. cbv zeta.
    destruct (IsDeployTemplateFile t) eqn:Ed; [|done]. unfold IsDeployTemplateFile in Ed. apply andb_true_iff in Ed as [Ed _].
    apply HasSuffix_inv in Ed as [u ->]. rewrite sapp_assoc in Ec. change (DeployTemplateExt +:+ JobTemplateExt) with CombinedTemplateExt in Ec.
    by rewrite HasSuffix_app in Ec. }
  assert (Hj : IsJobTemplateFile name = false) by (unfold IsJobTemplateFile; by rewrite Ej, andb_false_r).
  unfold outputName. rewrite Hj. cbv zeta. unfold IsDeployTemplateFile. rewrite Ec.
  destruct (HasSuffix name DeployTemplateExt) eqn:Ed; cbn [negb andb]; by intros [= <- _].
Qed.

Lemma output_plain l x : Forall plain l -> plain x -> plain (outputName x) -> output (Join (l ++ [x]) "/") = Join (l ++ [outputName x]) "/".
Proof.
  intros Hl Hx Ho. unfold output, UnwrapPath. rewrite path_Base_joined by done.
  unfold outputName in *. destruct (IsJobTemplateFile x) eqn:Ej; cbn [fst].
  - unfold IsJobTemplateFile in Ej. apply andb_true_iff in Ej as [_ Ej]. rewrite Join_dirSlash, dropEnd_prefix by (by apply suffix_length in Ej).
    rewrite <- Join_dirSlash. set (y := dropEnd 3 x) in *. cbv zeta in Ho |- *. unfold UnwrapDeployTemplatePath.
    assert (Hy : y <> "." /\ y <> "" -> y <> ".." -> no_byte slash y = true -> plain y) by (intros [? ?] ? ?; repeat split; done).
    assert (Hns : no_byte slash y = true).
    { unfold y. apply HasSuffix_inv in Ej as [t ->]. change 3%nat with (String.length JobTemplateExt). rewrite dropEnd_app.
      destruct Hx as (_ & _ & _ & Hx). rewrite no_byte_app in Hx. by apply andb_true_iff in Hx as [? _]. }
    destruct (IsDeployTemplateFile y) eqn:Ed.
    + assert (Hsuf : HasSuffix y DeployTemplateExt = true) by (unfold IsDeployTemplateFile in Ed; by apply andb_true_iff in Ed as [? _]).
      pose proof (suffix_length _ _ Hsuf) as Hlen. cbn [DeployTemplateExt String.length] in Hlen.
      rewrite path_Base_joined; [|apply Hy; [split|..]; try done; intros ->; cbn in Hlen; lia|done].
      rewrite Ed. cbn [fst]. by rewrite Join_dirSlash, dropEnd_prefix, <- Join_dirSlash by done.
    + rewrite path_Base_joined by done. by rewrite Ed.
  - cbv zeta in Ho |- *. unfold UnwrapDeployTemplatePath. rewrite path_Base_joined by done. destruct (IsDeployTemplateFile x) eqn:Ed; [|done].
    unfold IsDeployTemplateFile in Ed. apply andb_true_iff in Ed as [Ed _]. cbn [fst].
    by rewrite Join_dirSlash, dropEnd_prefix, <- Join_dirSlash by (by apply suffix_length in Ed).
Qed.

(** A path of plain elements whose name is still one without its suffixes. *)
Record job_path (p : string) : Prop := {
  elements_plain : Forall plain (Split p slash);
  base_plain : forall base form, ParseTemplateForm (path_Base p) = Some (base, form) -> plain base;
}.
Lemma Split_snoc p : exists l x, Split p slash = l ++ [x] /\ p = Join (l ++ [x]) "/".
Proof.
  destruct (exists_last (Split_nonempty p slash)) as (l & x & E). exists l, x. split; [done|]. rewrite <- E.
  symmetry. apply (Join_Split p slash).
Qed.
Lemma CanonicalPlainPath_output p : job_path p ->
  match ParseTemplateForm (path_Base p) with
  | Some _ => CanonicalPlainPath p = Some (output p)
  | None => CanonicalPlainPath p = None
  end.
Proof.
  intros [Hp Hb]. destruct (Split_snoc p) as (l & x & Es & ->). rewrite Es in Hp.
  pose proof Hp as Hall. apply Forall_app in Hp as [Hl Hx]. apply Forall_cons_1 in Hx as [Hx _]. pose proof (path_Base_joined l x Hx Hl) as EB. rewrite EB in Hb |- *.
  unfold CanonicalPlainPath. rewrite path_Split_plain by done.
  destruct (ParseTemplateForm x) as [[base form]|] eqn:Ef; cbn [mbind option_bind]; [|done]. f_equal.
  assert (Hbase : plain base) by (by eapply Hb). pose proof (outputName_base _ _ _ Ef ltac:(apply Hbase)) as Ho.
  rewrite output_plain by (done || by rewrite Ho). rewrite Ho. destruct (String.eqb (dirSlash l) "") eqn:E; [|by apply path_Join_plain].
  apply String.eqb_eq in E. destruct l as [|e l]; [done|]. exfalso. unfold dirSlash in E. apply (f_equal String.length) in E.
  rewrite slen_app in E. cbn in E. lia.
Qed.

(** ** Conflicts *)

Lemma canonicalPaths_spec ps : Forall job_path ps ->
  match canonicalPaths ps with
  | Ok l => (forall p, p ∈ ps -> ParseTemplateForm (path_Base p) <> None)
            /\ l = List.filter (fun o => negb (isPrometheusExclusiveTemplatePath o)) (map output ps)
  | Err e => exists p, p ∈ ps /\ ParseTemplateForm (path_Base p) = None /\ e = TemplateSuffix p
  end.
Proof.
  induction ps as [|p ps IH]; cbn [canonicalPaths map List.filter]; intros Hps; [split; [intros ? H; by apply elem_of_nil in H|done]|].
  apply Forall_cons_1 in Hps as [Hp Hps]. pose proof (CanonicalPlainPath_output p Hp) as Hc.
  destruct (ParseTemplateForm (path_Base p)) as [bf|] eqn:Ef; [|exists p; split; [left|done]]. rewrite Hc. specialize (IH Hps).
  destruct (canonicalPaths ps) as [l|e]; cbn [rbind].
  - destruct IH as [Hall ->]. split.
    + intros q [->|Hq]%elem_of_cons; [by rewrite Ef|by apply Hall].
    + by destruct (isPrometheusExclusiveTemplatePath (output p)).
  - destruct IH as (q & Hq & Hf & ->). exists q. split; [by right|done].
Qed.

(** The check on the files of a job passes if and only if every name has a
    form and no two files become the same file on a worker, Prometheus files
    apart. *)
Theorem CheckTemplatePathConflicts_iff ps : Forall job_path ps ->
  CheckTemplatePathConflicts ps = None <->
  (forall p, p ∈ ps -> ParseTemplateForm (path_Base p) <> None)
  /\ NoDup (List.filter (fun o => negb (isPrometheusExclusiveTemplatePath o)) (map output ps)).
Proof.
  intros Hps. unfold CheckTemplatePathConflicts. pose proof (canonicalPaths_spec ps Hps) as H.
  destruct (canonicalPaths ps) as [l|e].
  - destruct H as [Hall ->]. case_bool_decide as Hnd; split; try done. intros [_ ?]. contradiction.
  - destruct H as (p & Hp & Hf & _). split; [done|]. intros [Hall _]. exfalso. by apply (Hall p Hp).
Qed.

Definition sample_paths : list string := ["web/Makefile.tpl.bt"; "web/conf/app.yml.bt"; "web/job.conf"].
Lemma sample_job_path p : p ∈ sample_paths -> job_path p.
Proof.
  unfold sample_paths. intros H. repeat (apply elem_of_cons in H as [->|H]);
    [..|by apply elem_of_nil in H]; (split; [vm_compute; repeat constructor; discriminate|]);
    intros base form E; vm_compute in E; injection E as <- _; vm_compute; repeat constructor; discriminate.
Qed.
Lemma CheckTemplatePathConflicts_iff_witness :
  Forall job_path sample_paths /\
  (CheckTemplatePathConflicts sample_paths = None <->
   (forall p, p ∈ sample_paths -> ParseTemplateForm (path_Base p) <> None)
   /\ NoDup (List.filter (fun o => negb (isPrometheusExclusiveTemplatePath o)) (map output sample_paths))).
Proof.
  assert (H : Forall job_path sample_paths) by (apply Forall_forall, sample_job_path).
  split; [exact H|]. exact (CheckTemplatePathConflicts_iff sample_paths H).
Defined.

(** The name of a directory is checked without the blanks around it. *)
Example blank_job_name : ValidateJobName "web " = None /\ jobNamePattern "web " = false.
Proof. vm_compute. split; reflexivity. Qed.
(** A plain file called venv is left out of a job without a word. *)
Example file_called_venv :
  Capture "web" (Dir [("Makefile", Regular "start:"); ("job.conf", Regular ""); ("venv", Regular "x")])
  = Ok (mkSnapshot "web" [mkSnapshotFile "web" "" true; mkSnapshotFile "web/Makefile" "start:" false; mkSnapshotFile "web/job.conf" "" false]).
Proof. vm_compute. reflexivity. Qed.
