(* ===== verification/JobSign.v ===== *)
(** * jobsign: signatures of jobs

    The digest of a snapshot, Sign and Verify of jobsign/signing.go, and the
    trust of bucket/job_signer.go. PEM, X.509, ASN.1, the keys and SHA-256 are
    those of Go's library and arguments here; a certificate is what the code
    reads of one. A time is a number of seconds. The text of an error is left
    out. *)
From S2P Require Import Prelude GoStrings PathMatch HashTree JobTree.
Open Scope Z_scope.

Definition formatVersion : Z := 1.
Definition hashAlgorithm : string := "SHA-256".
(** The prefix ends in a zero byte. *)
Definition canonicalPrefix : string := "kive-job-signature-v1" +:+ String (byte_of 0) "".
Definition digestExtensionOID : list Z := [1; 3; 6; 1; 4; 1; 57264; 1; 1].

Record digestExtension := mkDigestExtension { deVersion : Z; deJob : string; deAlgorithm : string; deDigest : list Z }.
Record Certificate (K : Type) := mkCertificate {
  CommonName : string;
  SubjectString : string;
  IsCA : bool;
  CanSignCerts : bool;
  NotBefore : Z;
  NotAfter : Z;
  Extensions : list (list Z * string);
  PublicKey : K;
}.
Arguments mkCertificate {K}.
Arguments CommonName {K}.
Arguments SubjectString {K}.
Arguments IsCA {K}.
Arguments CanSignCerts {K}.
Arguments NotBefore {K}.
Arguments NotAfter {K}.
Arguments Extensions {K}.
Arguments PublicKey {K}.
Record Verification := mkVerification { Status : string; Signer : string; Digest : string }.

Inductive sign_error :=
| BadSnapshotPath (path : string)
| SignatureEmpty
| NoPEM
| UnexpectedBlock (type : string)
| BadCertificate
| NoCertificates
| NotTrusted
| DigestExtensionDuplicate
| DigestExtensionMissing
| DigestExtensionMalformed
| UnsupportedFormat (version : Z)
| UnsupportedAlgorithm (algorithm : string)
| OtherJob (job : string)
| ContentMismatch
| NotAuthority
| SignerNotValid
| BadKey
| KeyMismatch.

(** ** The canonical text of a snapshot *)

(** [binary.BigEndian.PutUint64] *)
Fixpoint bigEndian (n : nat) (z : Z) : string :=
  match n with
  | O => ""
  | S n => String (byte_of (z / 256 ^ Z.of_nat n mod 256)) (bigEndian n z)
  end.
Definition lengthPrefixed (value : string) : string := bigEndian 8 (Z.of_nat (String.length value)) +:+ value.
Definition signaturePath (s : Snapshot) : string := JobName s +:+ "/" +:+ SignatureFileName.
Definition signedFile (s : Snapshot) (f : File) : bool := negb (fIsDir f || String.eqb (fPath f) (signaturePath s)).
(** The signed files with their paths below the job. *)
Fixpoint signedPairs (s : Snapshot) (files : list File) : result sign_error (list (string * string)) :=
  match files with
  | [] => Ok []
  | f :: files =>
      if negb (signedFile s f) then signedPairs s files
      else
        let rel := TrimPrefix (fPath f) (JobName s +:+ "/") in
        if String.eqb rel (fPath f) || String.eqb rel "" then Err (BadSnapshotPath (fPath f))
        else let? rest := signedPairs s files in Ok ((rel, fContent f) :: rest)
  end.
Definition canonicalOf (pairs : list (string * string)) : string :=
  canonicalPrefix +:+ concat_strings (map (fun p => lengthPrefixed p.1 +:+ lengthPrefixed p.2) pairs).

Section crypto.
Context {K P : Type} (sha256 : string -> list Z).
Notation Certificate := (Certificate K).
(** [pem.Decode]: the type, the bytes and the rest. *)
Variable pemDecode : string -> option (string * string * string).
Variable pemEncode : string -> string -> string.
Variable parseCertificate : string -> option Certificate.
(** [Certificate.Verify] of a leaf with intermediates and roots at a time. *)
Variable verifyChain : Certificate -> list Certificate -> list Certificate -> Z -> option (list (list Certificate)).
(** [asn1.Unmarshal] and [asn1.Marshal] of a [digestExtension]. *)
Variable unmarshal : string -> option (digestExtension * string).
Variable marshal : digestExtension -> string.

Definition snapshotDigest (s : Snapshot) : result sign_error (list Z) :=
  let? pairs := signedPairs s (Files s) in Ok (sha256 (canonicalOf pairs)).

(** ** Certificates *)

(** Every block of PEM is shorter than the text it starts. *)
Fixpoint certificatesFrom (fuel : nat) (rest : string) : result sign_error (list Certificate) :=
  match fuel with
  | O => Err NoPEM
  | S fuel =>
      if String.eqb (TrimSpace rest) "" then Ok []
      else match pemDecode rest with
           | None => Err NoPEM
           | Some (type, der, next) =>
               if negb (String.eqb type "CERTIFICATE") then Err (UnexpectedBlock type)
               else match parseCertificate der with
                    | None => Err BadCertificate
                    | Some cert => let? certificates := certificatesFrom fuel next in Ok (cert :: certificates)
                    end
           end
  end.
Definition parseCertificates (data : string) : result sign_error (Certificate * list Certificate) :=
  let? certificates := certificatesFrom (S (String.length data)) data in
  match certificates with
  | [] => Err NoCertificates
  | cert :: certificates => Ok (cert, certificates)
  end.

Definition signedMetadata (cert : Certificate) : result sign_error digestExtension :=
  match List.filter (fun e => bool_decide (e.1 = digestExtensionOID)) (Extensions cert) with
  | [] => Err DigestExtensionMissing
  | [e] => match unmarshal e.2 with Some (metadata, "") => Ok metadata | _ => Err DigestExtensionMalformed end
  | _ => Err DigestExtensionDuplicate
  end.
Definition signerName (cert : Certificate) : string :=
  let name := TrimSpace (CommonName cert) in if String.eqb name "" then SubjectString cert else name.

(** ** Verify *)

Definition verifyAt (s : Snapshot) (rootsPEM : string) (currentTime : Z) : result sign_error Verification :=
  match Signature s with
  | None => Ok (mkVerification "unsigned" "" "")
  | Some "" => Err SignatureEmpty
  | Some bundle =>
      let? (leaf, intermediates) := parseCertificates bundle in
      let? (root, roots) := parseCertificates rootsPEM in
      match verifyChain leaf intermediates (root :: roots) currentTime with
      | None => Err NotTrusted
      | Some chains =>
          let? metadata := signedMetadata leaf in
          if negb (deVersion metadata =? formatVersion) then Err (UnsupportedFormat (deVersion metadata))
          else if negb (String.eqb (deAlgorithm metadata) hashAlgorithm) then Err (UnsupportedAlgorithm (deAlgorithm metadata))
          else if negb (String.eqb (deJob metadata) (JobName s)) then Err (OtherJob (deJob metadata))
          else
            let? digest := snapshotDigest s in
            if negb (bool_decide (deDigest metadata = digest)) then Err ContentMismatch
            else
              let signer := match chains with (_ :: signer :: _) :: _ => signer | _ => leaf end in
              Ok (mkVerification "signed" (signerName signer) (EncodeToString digest))
      end
  end.

(** ** Sign *)

Variable parsePKCS1 parsePKCS8 : string -> option P.
Variable publicOf : P -> K.
Variable same_key : K -> K -> bool.
(** [x509.CreateCertificate] of a template, by a signer with its private key,
    for a fresh key and serial number. *)
Variable createCertificate : Certificate -> Certificate -> P -> string.
(** The fresh public key of the leaf. *)
Variable leafKey : K.

Definition parseRSAPrivateKey (data : string) : result sign_error P :=
  match pemDecode data with
  | None => Err BadKey
  | Some (_, der, rest) =>
      if negb (String.eqb (TrimSpace rest) "") then Err BadKey
      else match parsePKCS1 der with
           | Some key => Ok key
           | None => match parsePKCS8 der with Some key => Ok key | None => Err BadKey end
           end
  end.
Definition leafTemplate (s : Snapshot) (signer : Certificate) (digest : list Z) (now : Z) : Certificate :=
  mkCertificate (JobName s) "" false false (Z.max (NotBefore signer) (now - 300)) (NotAfter signer)
    [(digestExtensionOID, marshal (mkDigestExtension formatVersion (JobName s) hashAlgorithm digest))] leafKey.
Definition Sign (s : Snapshot) (signerCertPEM signerKeyPEM : string) (now : Z) : result sign_error (string * Verification) :=
  let? (signer, _) := parseCertificates signerCertPEM in
  if negb (IsCA signer) || negb (CanSignCerts signer) then Err NotAuthority
  else if (now <? NotBefore signer) || (now >? NotAfter signer) then Err SignerNotValid
  else
    let? privateKey := parseRSAPrivateKey signerKeyPEM in
    if negb (same_key (publicOf privateKey) (PublicKey signer)) then Err KeyMismatch
    else
      let? digest := snapshotDigest s in
      let der := createCertificate (leafTemplate s signer digest now) signer privateKey in
      Ok (pemEncode "CERTIFICATE" der +:+ signerCertPEM, mkVerification "signed" (signerName signer) (EncodeToString digest)).
End crypto.

(** ** Trust (job_signer.go) *)

(** The certificates that kive.conf names, each closed by a newline; [None] is
    a file that cannot be read. *)
Definition closeLine (content : string) : string :=
  if nonempty_string content && negb (HasSuffix content (String "010" "")) then content +:+ String "010" "" else content.
Fixpoint trustBundle (read : string -> option string) (sanitize : string -> option string) (names : list string) : option string :=
  match names with
  | [] => Some ""
  | configured :: names =>
      name ← sanitize configured; content ← read name; rest ← trustBundle read sanitize names; Some (closeLine content +:+ rest)
  end.
Definition LoadJobSignerTrustBundle (read : string -> option string) (sanitize : string -> option string) (names : list string) : option string :=
  match names with [] => None | _ => trustBundle read sanitize names end.

(** ** jobsign: facts about signatures

    The canonical text of a snapshot determines its signed files, so a
    signature that verifies on two snapshots covers the same contents, unless
    SHA-256 has a collision; what Sign makes, Verify accepts. *)

(** ** Lengths *)

Lemma length_bigEndian n z : String.length (bigEndian n z) = n.
Proof. induction n; simpl; congruence. Qed.
Lemma byte_of_inj x y : 0 <= x < 256 -> 0 <= y < 256 -> byte_of x = byte_of y -> x = y.
Proof. intros Hx Hy E. rewrite <- (byte_val_of x Hx), <- (byte_val_of y Hy). by rewrite E. Qed.
Lemma bigEndian_mod n a b : 0 <= a -> 0 <= b -> bigEndian n a = bigEndian n b -> a mod 256 ^ Z.of_nat n = b mod 256 ^ Z.of_nat n.
Proof.
  intros Ha Hb. induction n as [|n IH]; cbn [bigEndian].
  - intros _. by rewrite !Z.mod_1_r.
  - intros E. injection E as Hd Hr. apply IH in Hr.
    assert (0 < 256 ^ Z.of_nat n) by (apply Z.pow_pos_nonneg; lia).
    apply byte_of_inj in Hd; try (apply Z.mod_pos_bound; lia).
    rewrite Nat2Z.inj_succ, Z.pow_succ_r, (Z.mul_comm 256), !Z.rem_mul_r by lia. by rewrite Hd, Hr.
Qed.
(** Lengths in Go are below 2^63. *)
Definition go_string (s : string) : Prop := Z.of_nat (String.length s) < 2 ^ 63.
Lemma same_length_split s : forall s' t t', String.length s = String.length s' -> s +:+ t = s' +:+ t' -> s = s' /\ t = t'.
Proof.
  induction s as [|c s IH]; intros [|d s'] t t' Hl E; try discriminate; [done|].
  cbn in Hl, E. injection E as -> E. injection Hl as Hl. by destruct (IH s' t t' Hl E) as [-> ->].
Qed.
Lemma lengthPrefixed_inj s s' t t' : go_string s -> go_string s' ->
  lengthPrefixed s +:+ t = lengthPrefixed s' +:+ t' -> s = s' /\ t = t'.
Proof.
  unfold lengthPrefixed, go_string. intros Hs Hs'. rewrite !sapp_assoc. intros E.
  apply same_length_split in E as [El E]; [|by rewrite !length_bigEndian].
  apply bigEndian_mod in El; [|lia..]. rewrite !Z.mod_small in El by (split; [lia|]; change (256 ^ Z.of_nat 8) with (2 ^ 64); lia).
  apply same_length_split in E; [done|lia].
Qed.

Lemma canonicalOf_inj ps : forall qs,
  Forall (fun p => go_string p.1 /\ go_string p.2) ps -> Forall (fun p => go_string p.1 /\ go_string p.2) qs ->
  canonicalOf ps = canonicalOf qs -> ps = qs.
Proof.
  intros qs Hp Hq E. unfold canonicalOf in E. apply same_length_split in E as [_ E]; [|done].
  revert qs Hq E. induction ps as [|[a b] ps IH]; intros [|[a' b'] qs] Hq E; [done| | |].
  - exfalso. cbn [map concat_strings foldr] in E. apply (f_equal String.length) in E. cbn [fst snd] in E. unfold lengthPrefixed in E.
    rewrite !slen_app, !length_bigEndian in E. cbn in E. lia.
  - exfalso. cbn [map concat_strings foldr] in E. apply (f_equal String.length) in E. cbn [fst snd] in E. unfold lengthPrefixed in E.
    rewrite !slen_app, !length_bigEndian in E. cbn in E. lia.
  - apply Forall_cons_1 in Hp as [[Ha Hb] Hp]. apply Forall_cons_1 in Hq as [[Ha' Hb'] Hq].
    cbn [map concat_strings foldr fst snd] in *. rewrite !sapp_assoc in E.
    apply lengthPrefixed_inj in E as [-> E]; [|done..]. apply lengthPrefixed_inj in E as [-> E]; [|done..].
    f_equal. by apply IH.
Qed.

(** ** Signed files *)

Definition signedFiles (s : Snapshot) : list (string * string) :=
  map (fun f => (fPath f, fContent f)) (List.filter (signedFile s) (Files s)).
Lemma TrimPrefix_back p s : TrimPrefix s p <> s -> s = p +:+ TrimPrefix s p.
Proof. unfold TrimPrefix. destruct (HasPrefix s p) eqn:E; [|done]. intros _. by apply HasPrefix_inv. Qed.
Lemma signedPairs_files s files : forall pairs, signedPairs s files = Ok pairs ->
  map (fun f => (fPath f, fContent f)) (List.filter (signedFile s) files) = map (fun p => (JobName s +:+ "/" +:+ p.1, p.2)) pairs.
Proof.
  induction files as [|f files IH]; intros pairs; cbn [signedPairs List.filter].
  - by intros [= <-].
  - destruct (signedFile s f) eqn:Ef; cbn [negb]; [|apply IH]. cbv zeta.
    destruct (String.eqb _ (fPath f) || _) eqn:Eb; [done|]. intros (rest & Hr & E)%rbind_ok. injection E as <-.
    apply orb_false_iff in Eb as [Eb%String.eqb_neq _]. cbn [map fst snd]. rewrite (IH rest Hr).
    f_equal. f_equal. rewrite (TrimPrefix_back _ _ Eb) at 1. by rewrite sapp_assoc.
Qed.
Definition files_fit (s : Snapshot) : Prop := Forall (fun f => go_string (fPath f) /\ go_string (fContent f)) (Files s).
Lemma signedPairs_fit s files : forall pairs, Forall (fun f => go_string (fPath f) /\ go_string (fContent f)) files ->
  signedPairs s files = Ok pairs -> Forall (fun p => go_string p.1 /\ go_string p.2) pairs.
Proof.
  induction files as [|f files IH]; intros pairs Hf; cbn [signedPairs]; [by intros [= <-]|].
  apply Forall_cons_1 in Hf as [[Hp Hc] Hf]. destruct (signedFile s f); cbn [negb]; [|by apply IH]. cbv zeta.
  destruct (_ || _); [done|]. intros (rest & Hr & E)%rbind_ok. injection E as <-. constructor; [|by apply IH].
  split; [|done]. cbn. unfold go_string, TrimPrefix in *. destruct (HasPrefix _ _); [rewrite slen_drop; lia|done].
Qed.
(** A trimmed prefix is cut once, so the pairs are the signed files. *)
Lemma signedPairs_signedFiles s s' pairs : JobName s = JobName s' ->
  signedPairs s (Files s) = Ok pairs -> signedPairs s' (Files s') = Ok pairs -> signedFiles s = signedFiles s'.
Proof. intros E H H'. unfold signedFiles. by rewrite (signedPairs_files _ _ _ H), (signedPairs_files _ _ _ H'), E. Qed.

(** A signature file does not count. *)
Lemma signedPairs_ext s s' files files' : JobName s = JobName s' ->
  List.filter (signedFile s) files = List.filter (signedFile s') files' -> signedPairs s files = signedPairs s' files'.
Proof.
  intros E. assert (Hkey : forall u l, signedPairs u l = signedPairs u (List.filter (signedFile u) l)).
  { intros u l. induction l as [|f l IH]; cbn [signedPairs List.filter]; [done|]. destruct (signedFile u f) eqn:Ef; cbn [negb]; [|done].
    cbn [signedPairs]. rewrite Ef. cbn [negb]. by rewrite IH. }
  intros Hf. rewrite (Hkey s), (Hkey s'), <- Hf. clear Hf files'. generalize (List.filter (signedFile s) files). intros l.
  induction l as [|f l IH]; cbn [signedPairs]; [done|].
  assert (Hs : signedFile s f = signedFile s' f) by (unfold signedFile, signaturePath; by rewrite E).
  rewrite <- Hs, <- E. destruct (signedFile s f); cbn [negb]; [|done]. by rewrite IH.
Qed.

(** ** Verify *)

Lemma TrimSpace_visible c s : 33 <= byte_val c < 128 -> TrimSpace (String c s) <> "".
Proof.
  intros Hc. unfold TrimSpace.
  assert (Hdrop : forall (l : list (rune * string)) x, x ∈ l -> IsSpace x.1 = false -> x ∈ drop_spaces l).
  { induction l as [|[r b] l IH]; intros x Hx Hs; [by apply elem_of_nil in Hx|]. cbn [drop_spaces].
    destruct (IsSpace r) eqn:Er; [|done]. apply elem_of_cons in Hx as [->|Hx]; [by cbn in Hs; congruence|by apply IH]. }
  assert (Hin : (byte_val c, String c "") ∈ rev (drop_spaces (rev (drop_spaces (chunks (String c s)))))).
  { apply list_elem_of_In, in_rev. rewrite rev_involutive. apply list_elem_of_In, Hdrop; [|by apply IsSpace_above].
    apply list_elem_of_In, in_rev. rewrite rev_involutive. apply list_elem_of_In, Hdrop; [|by apply IsSpace_above].
    rewrite chunks_ascii by lia. left. }
  revert Hin. generalize (rev (drop_spaces (rev (drop_spaces (chunks (String c s)))))). intros l.
  induction l as [|p l IH]; intros Hin; [by apply elem_of_nil in Hin|]. cbn [foldr].
  apply elem_of_cons in Hin as [<-|Hin]; [done|]. intros E. apply (IH Hin).
  destruct p as [r [|d u]]; cbn in E; [done|discriminate].
Qed.

Section verify.
Context {K P : Type} (sha256 : string -> list Z).
Context (pemDecode : string -> option (string * string * string)) (pemEncode : string -> string -> string).
Context (parseCertificate : string -> option (Certificate K)).
Context (verifyChain : Certificate K -> list (Certificate K) -> list (Certificate K) -> Z -> option (list (list (Certificate K)))).
Context (unmarshal : string -> option (digestExtension * string)) (marshal : digestExtension -> string).
Notation verifyAt := (verifyAt sha256 pemDecode parseCertificate verifyChain unmarshal).
Notation parseCertificates := (parseCertificates pemDecode parseCertificate).
Notation certificatesFrom := (certificatesFrom pemDecode parseCertificate).

Lemma verifyAt_inv s bundle rootsPEM t v : Signature s = Some bundle -> verifyAt s rootsPEM t = Ok v ->
  exists leaf intermediates root roots chains metadata,
    parseCertificates bundle = Ok (leaf, intermediates) /\ parseCertificates rootsPEM = Ok (root, roots)
    /\ verifyChain leaf intermediates (root :: roots) t = Some chains /\ signedMetadata unmarshal leaf = Ok metadata
    /\ deJob metadata = JobName s /\ snapshotDigest sha256 s = Ok (deDigest metadata)
    /\ Status v = "signed" /\ Digest v = EncodeToString (deDigest metadata).
Proof.
  unfold verifyAt. intros ->. destruct bundle as [|c bundle]; [done|].
  intros ([leaf intermediates] & Hb & H)%rbind_ok. apply rbind_ok in H as ([root roots] & Hr & H).
  destruct (verifyChain _ _ _ _) as [chains|] eqn:Hv; [|done]. apply rbind_ok in H as (metadata & Hm & H).
  destruct (deVersion metadata =? _); cbn [negb] in H; [|done]. destruct (String.eqb (deAlgorithm metadata) _); cbn [negb] in H; [|done].
  destruct (String.eqb (deJob metadata) _) eqn:Hj; cbn [negb] in H; [|done]. apply rbind_ok in H as (digest & Hd & H).
  case_bool_decide as Hdig; cbn [negb] in H; [|done]. injection H as <-.
  exists leaf, intermediates, root, roots, chains, metadata. rewrite Hdig. apply String.eqb_eq in Hj. done.
Qed.

(** C16: a signature is good for one job and one set of files. *)
Theorem signature_fixes_files s s' bundle rootsPEM rootsPEM' t t' v v' :
  files_fit s -> files_fit s' -> Signature s = Some bundle -> Signature s' = Some bundle ->
  verifyAt s rootsPEM t = Ok v -> verifyAt s' rootsPEM' t' = Ok v' ->
  JobName s = JobName s' /\ Digest v = Digest v'
  /\ (signedFiles s = signedFiles s' \/ exists a b, a <> b /\ sha256 a = sha256 b).
Proof.
  intros Hs Hs' Hb Hb' Hv Hv'.
  apply (verifyAt_inv _ _ _ _ _ Hb) in Hv as (leaf & ints & root & roots & chains & md & Hp & _ & _ & Hm & Hj & Hd & _ & Hdv).
  apply (verifyAt_inv _ _ _ _ _ Hb') in Hv' as (leaf' & ints' & root' & roots' & chains' & md' & Hp' & _ & _ & Hm' & Hj' & Hd' & _ & Hdv').
  rewrite Hp in Hp'. injection Hp' as <- <-. rewrite Hm in Hm'. injection Hm' as <-.
  assert (E : JobName s = JobName s') by congruence. split; [done|]. split; [congruence|].
  unfold snapshotDigest in Hd, Hd'. apply rbind_ok in Hd as (ps & Hps & Hd). apply rbind_ok in Hd' as (qs & Hqs & Hd').
  injection Hd as Hd. injection Hd' as Hd'.
  destruct (decide (canonicalOf ps = canonicalOf qs)) as [Ec|Ec].
  - left. apply canonicalOf_inj in Ec as <-; [by eapply signedPairs_signedFiles| |];
      [by apply (signedPairs_fit s (Files s))|by apply (signedPairs_fit s' (Files s'))].
  - right. exists (canonicalOf ps), (canonicalOf qs). by rewrite Hd, Hd'.
Qed.

(** ** Sign, then Verify *)

Variable parsePKCS1 parsePKCS8 : string -> option P.
Variable publicOf : P -> K.
Variable same_key : K -> K -> bool.
Variable createCertificate : Certificate K -> Certificate K -> P -> string.
Variable leafKey : K.
Notation Sign := (Sign sha256 pemDecode pemEncode parseCertificate marshal parsePKCS1 parsePKCS8 publicOf same_key createCertificate leafKey).

(** What the libraries promise: a block of PEM is read back, a value of ASN.1
    is read back, a certificate carries the extensions of its template, and one
    that an authority issued verifies against that authority while both are
    valid. *)
Hypothesis pem_roundtrip : forall t b rest, pemDecode (pemEncode t b +:+ rest) = Some (t, b, rest).
Hypothesis pem_visible : forall t b rest, TrimSpace (pemEncode t b +:+ rest) <> "".
Hypothesis asn1_roundtrip : forall x, unmarshal (marshal x) = Some (x, "").
Hypothesis created_parses : forall template signer key, exists cert,
  parseCertificate (createCertificate template signer key) = Some cert
  /\ List.filter (fun e => bool_decide (e.1 = digestExtensionOID)) (Extensions cert)
     = List.filter (fun e => bool_decide (e.1 = digestExtensionOID)) (Extensions template).
Hypothesis created_verifies : forall template signer key cert intermediates t,
  parseCertificate (createCertificate template signer key) = Some cert -> same_key (publicOf key) (PublicKey signer) = true ->
  IsCA signer = true -> CanSignCerts signer = true -> NotBefore template <= t <= NotAfter template -> NotBefore signer <= t <= NotAfter signer ->
  exists chain chains, verifyChain cert intermediates [signer] t = Some ((cert :: signer :: chain) :: chains).

Lemma certificatesFrom_more n m : forall rest l, (n <= m)%nat -> certificatesFrom n rest = Ok l -> certificatesFrom m rest = Ok l.
Proof.
  revert m. induction n as [|n IH]; intros m rest l Hle H; [done|]. destruct m as [|m]; [lia|].
  cbn [JobSign.certificatesFrom] in *. destruct (String.eqb _ _); [done|]. destruct (pemDecode rest) as [[[ty der] next]|]; [|done].
  destruct (negb _); [done|]. destruct (parseCertificate der); [|done].
  apply rbind_ok in H as (cs & Hcs & H). by rewrite (IH m next cs ltac:(lia) Hcs).
Qed.
Lemma parse_bundle der cert certPEM signer chain : parseCertificate der = Some cert ->
  parseCertificates certPEM = Ok (signer, chain) ->
  parseCertificates (pemEncode "CERTIFICATE" der +:+ certPEM) = Ok (cert, signer :: chain).
Proof.
  intros Hc H. unfold JobSign.parseCertificates in *. apply rbind_ok in H as (l & Hl & H).
  destruct l as [|x l]; [done|]. injection H as -> ->.
  pose proof (pem_visible "CERTIFICATE" der certPEM) as Hv. cbn [JobSign.certificatesFrom].
  apply String.eqb_neq in Hv. rewrite Hv, pem_roundtrip. change (negb (String.eqb "CERTIFICATE" "CERTIFICATE")) with false. cbn [negb]. rewrite Hc.
  assert (Hlen : (S (String.length certPEM) <= String.length (pemEncode "CERTIFICATE" der +:+ certPEM))%nat).
  { rewrite slen_app. destruct (pemEncode "CERTIFICATE" der) eqn:E; [|cbn; lia].
    exfalso. apply (pem_visible "CERTIFICATE" der ""). by rewrite E. }
  by rewrite (certificatesFrom_more _ _ _ _ Hlen Hl).
Qed.

(** C27: a signed job verifies. *)
Theorem Verify_Sign s s' certPEM keyPEM signer now t bundle v :
  parseCertificates certPEM = Ok (signer, []) -> Sign s certPEM keyPEM now = Ok (bundle, v) ->
  Signature s' = Some bundle -> JobName s' = JobName s ->
  List.filter (signedFile s') (Files s') = List.filter (signedFile s) (Files s) ->
  now <= t <= NotAfter signer -> verifyAt s' certPEM t = Ok v.
Proof.
  intros Hp Hsign Hsig Hj Hf Ht. unfold Sign in Hsign. rewrite Hp in Hsign. cbn [rbind] in Hsign.
  destruct (negb (IsCA signer) || _) eqn:Hca; [done|]. destruct ((now <? _) || _) eqn:Hnow; [done|].
  apply rbind_ok in Hsign as (key & _ & Hsign). destruct (same_key _ _) eqn:Hk; cbn [negb] in Hsign; [|done].
  apply rbind_ok in Hsign as (digest & Hd & Hsign). cbv zeta in Hsign.
  set (template := leafTemplate marshal leafKey s signer digest now) in *. injection Hsign as Hbun <-.
  destruct (created_parses template signer key) as (cert & Hcert & Hext).
  apply orb_false_iff in Hca as [Hca%negb_false_iff Hsc%negb_false_iff].
  apply orb_false_iff in Hnow as [Hn1%Z.ltb_ge Hn2]. rewrite Z.gtb_ltb in Hn2. apply Z.ltb_ge in Hn2.
  destruct (created_verifies template signer key cert [signer] t Hcert Hk Hca Hsc) as (chain & chains & Hchain);
    [cbn [template leafTemplate NotBefore NotAfter]; lia|lia|].
  unfold verifyAt. rewrite Hsig, <- Hbun. pose proof (pem_visible "CERTIFICATE" (createCertificate template signer key) certPEM) as Hne.
  destruct (pemEncode "CERTIFICATE" _ +:+ certPEM) as [|c text] eqn:Etext; [by cbn in Hne|]. rewrite <- Etext. clear Hne Etext.
  rewrite (parse_bundle _ cert _ signer [] Hcert Hp), Hp. cbn [rbind]. rewrite Hchain.
  unfold signedMetadata. rewrite Hext. cbn [template leafTemplate Extensions List.filter fst]. rewrite bool_decide_eq_true_2 by done.
  cbn [snd]. rewrite asn1_roundtrip. cbn [rbind deVersion deAlgorithm deJob deDigest]. rewrite Hj, String.eqb_refl. cbn [negb Z.eqb].
  assert (Hd' : snapshotDigest sha256 s' = Ok digest).
  { unfold snapshotDigest in *. rewrite (signedPairs_ext s' s (Files s') (Files s) Hj Hf), <- Hd. done. }
  change (formatVersion =? formatVersion) with true. change (String.eqb hashAlgorithm hashAlgorithm) with true. cbn [negb].
  rewrite Hd'. cbn [rbind]. rewrite String.eqb_refl, bool_decide_eq_true_2 by done. done.
Qed.
End verify.

(** ** A library of toys

    A string is written with a mark before every byte and a point at its end,
    another value as its code in binary digits; a certificate carries the name
    of its issuer and verifies against that name. *)

Fixpoint marked (s : string) : string := match s with "" => "." | String c s => String "x" (String c (marked s)) end.
Fixpoint readMarked (s : string) : option (string * string) :=
  match s with
  | String "x" (String c s) => '(t, rest) ← readMarked s; Some (String c t, rest)
  | String "." s => Some (EmptyString, s)
  | _ => None
  end%char.
Lemma readMarked_marked s rest : readMarked (marked s +:+ rest) = Some (s, rest).
Proof. induction s as [|c s IH]; cbn; [done|]. by rewrite IH. Qed.
Fixpoint bits (p : positive) : string :=
  match p with xO p => String "0" (bits p) | xI p => String "1" (bits p) | xH => "." end.
Fixpoint readBits (s : string) : option (positive * string) :=
  match s with
  | String "0" s => '(p, rest) ← readBits s; Some (xO p, rest)
  | String "1" s => '(p, rest) ← readBits s; Some (xI p, rest)
  | String "." s => Some (xH, s)
  | _ => None
  end%char.
Lemma readBits_bits p rest : readBits (bits p +:+ rest) = Some (p, rest).
Proof. induction p as [p IH|p IH|]; cbn; [by rewrite IH..|done]. Qed.
Definition toy_write {A} `{Countable A} (a : A) : string := bits (encode a).
Definition toy_read {A} `{Countable A} (s : string) : option (A * string) :=
  '(p, rest) ← readBits s; a ← decode p; Some (a, rest).
Lemma toy_read_write {A} `{Countable A} (a : A) rest : toy_read (toy_write a +:+ rest) = Some (a, rest).
Proof. unfold toy_read, toy_write. rewrite readBits_bits. cbn. by rewrite decode_encode. Qed.
Fixpoint writeAll (l : list string) : string := match l with [] => "." | s :: l => "l" +:+ marked s +:+ writeAll l end.
Fixpoint readAll (fuel : nat) (s : string) : option (list string * string) :=
  match fuel, s with
  | S fuel, String "l" s => '(t, rest) ← readMarked s; '(l, rest) ← readAll fuel rest; Some (t :: l, rest)
  | _, String "." s => Some ([], s)
  | _, _ => None
  end%char.
Lemma readAll_writeAll l : forall fuel rest, (length l <= fuel)%nat -> readAll fuel (writeAll l +:+ rest) = Some (l, rest).
Proof.
  induction l as [|s l IH]; intros [|fuel] rest Hf; cbn [length] in Hf; try lia; [done..|].
  cbn [writeAll String.append readAll]. rewrite sapp_assoc, readMarked_marked. cbn. rewrite IH by lia. done.
Qed.

Definition toy_pemEncode (t b : string) : string := marked t +:+ marked b.
Definition toy_pemDecode (s : string) : option (string * string * string) :=
  '(t, s) ← readMarked s; '(b, rest) ← readMarked s; Some (t, b, rest).
Definition toy_marshal (x : digestExtension) : string := marked (deJob x) +:+ marked (deAlgorithm x) +:+ toy_write (deVersion x, deDigest x).
Definition toy_unmarshal (s : string) : option (digestExtension * string) :=
  '(j, s) ← readMarked s; '(a, s) ← readMarked s; '(p, rest) ← (toy_read s : option (Z * list Z * string));
  Some (mkDigestExtension p.1 j a p.2, rest).
Definition toy_create (template signer : Certificate Z) (key : Z) : string :=
  marked (CommonName template) +:+ marked (CommonName signer)
  +:+ toy_write (IsCA template, CanSignCerts template, NotBefore template, NotAfter template, PublicKey template)
  +:+ writeAll (map snd (List.filter (fun e => bool_decide (e.1 = digestExtensionOID)) (Extensions template))).
Definition toy_parse (der : string) : option (Certificate Z) :=
  '(cn, s) ← readMarked der; '(issuer, s) ← readMarked s; '(p, s) ← (toy_read s : option (bool * bool * Z * Z * Z * string));
  '(l, _) ← readAll (String.length s) s;
  Some (mkCertificate cn issuer p.1.1.1.1 p.1.1.1.2 p.1.1.2 p.1.2 (map (pair digestExtensionOID) l) p.2).
Definition toy_verify (leaf : Certificate Z) (intermediates roots : list (Certificate Z)) (t : Z) : option (list (list (Certificate Z))) :=
  match List.filter (fun r => String.eqb (CommonName r) (SubjectString leaf) && (NotBefore leaf <=? t) && (t <=? NotAfter leaf)) roots with
  | [] => None
  | r :: _ => Some [[leaf; r]]
  end.
Definition toy_digest (s : string) : list Z := [Z.of_nat (String.length s); match s with String _ _ => 7 | _ => 0 end].

Lemma length_writeAll l : (length l <= String.length (writeAll l))%nat.
Proof. induction l as [|s l IH]; cbn [length writeAll]; [cbn; lia|]. rewrite !slen_app. cbn [String.length]. lia. Qed.
Lemma toy_parse_create template signer key : toy_parse (toy_create template signer key)
  = Some (mkCertificate (CommonName template) (CommonName signer) (IsCA template) (CanSignCerts template)
            (NotBefore template) (NotAfter template)
            (List.filter (fun e => bool_decide (e.1 = digestExtensionOID)) (Extensions template)) (PublicKey template)).
Proof.
  unfold toy_parse, toy_create. rewrite readMarked_marked. cbn [mbind option_bind]. rewrite readMarked_marked. cbn [mbind option_bind].
  rewrite toy_read_write. cbn [mbind option_bind]. rewrite <- (sapp_nil_r (writeAll _)).
  rewrite readAll_writeAll by (rewrite sapp_nil_r; apply length_writeAll). cbn [mbind option_bind fst snd]. repeat f_equal.
  induction (Extensions template) as [|[o v] l IH]; [done|]. cbn [List.filter fst]. case_bool_decide as E; [|done].
  cbn in E. subst o. cbn [map snd]. by f_equal.
Qed.

Definition toy_signer : Certificate Z := mkCertificate "vendor" "vendor" true true 0 1000 [] 5.
Definition toy_signer_pem : string := toy_pemEncode "CERTIFICATE" (toy_create toy_signer toy_signer 5).
Definition toy_key_pem : string := toy_pemEncode "RSA PRIVATE KEY" "5".
Definition toy_job (bundle : option string) : Snapshot :=
  mkSnapshot "web" ([mkSnapshotFile "web" "" true; mkSnapshotFile "web/Makefile" "start:" false; mkSnapshotFile "web/job.conf" "version" false]
    ++ match bundle with Some b => [mkSnapshotFile "web/.kive-job.crt" b false] | None => [] end).
Definition toy_sign (s : Snapshot) : result sign_error (string * Verification) :=
  Sign toy_digest toy_pemDecode toy_pemEncode toy_parse toy_marshal Atoi Atoi (fun p => p) Z.eqb toy_create 9 s toy_signer_pem toy_key_pem 100.
Definition toy_bundle : string := match toy_sign (toy_job None) with Ok (b, _) => b | Err _ => "" end.
(** The same job without the row of its directory. *)
Definition toy_job_files : Snapshot := mkSnapshot "web" (tail (Files (toy_job (Some toy_bundle)))).
Definition toy_verifyAt (s : Snapshot) (t : Z) : result sign_error Verification :=
  verifyAt toy_digest toy_pemDecode toy_parse toy_verify toy_unmarshal s toy_signer_pem t.

Lemma signature_fixes_files_witness :
  exists v v', toy_verifyAt (toy_job (Some toy_bundle)) 200 = Ok v /\ toy_verifyAt toy_job_files 300 = Ok v'
  /\ JobName (toy_job (Some toy_bundle)) = JobName toy_job_files /\ Digest v = Digest v'
  /\ (signedFiles (toy_job (Some toy_bundle)) = signedFiles toy_job_files \/ exists a b, a <> b /\ toy_digest a = toy_digest b).
Proof.
  destruct (toy_verifyAt (toy_job (Some toy_bundle)) 200) as [v|] eqn:Hv; [|vm_compute in Hv; discriminate].
  destruct (toy_verifyAt toy_job_files 300) as [v'|] eqn:Hv'; [|vm_compute in Hv'; discriminate].
  exists v, v'. split; [done|]. split; [done|].
  refine (signature_fixes_files toy_digest toy_pemDecode toy_parse toy_verify toy_unmarshal (toy_job (Some toy_bundle)) toy_job_files
    toy_bundle toy_signer_pem toy_signer_pem 200 300 v v' _ _ _ _ Hv Hv').
  - repeat constructor; vm_compute; reflexivity.
  - repeat constructor; vm_compute; reflexivity.
  - vm_compute. reflexivity.
  - vm_compute. reflexivity.
Defined.

Lemma Verify_Sign_witness :
  toy_sign (toy_job None) = Ok (toy_bundle, mkVerification "signed" "vendor" "5307")
  /\ toy_verifyAt (toy_job (Some toy_bundle)) 900 = Ok (mkVerification "signed" "vendor" "5307").
Proof.
  assert (Hsign : toy_sign (toy_job None) = Ok (toy_bundle, mkVerification "signed" "vendor" "5307")) by (vm_compute; reflexivity).
  split; [exact Hsign|].
  refine (Verify_Sign toy_digest toy_pemDecode toy_pemEncode toy_parse toy_verify toy_unmarshal toy_marshal Atoi Atoi (fun p => p) Z.eqb
    toy_create 9 _ _ _ _ _ (toy_job None) (toy_job (Some toy_bundle)) toy_signer_pem toy_key_pem toy_signer 100 900 toy_bundle _ _ Hsign _ _ _ _).
  - intros t b rest. unfold toy_pemDecode, toy_pemEncode. by rewrite sapp_assoc, !readMarked_marked; cbn [mbind option_bind]; rewrite readMarked_marked.
  - intros t b rest. unfold toy_pemEncode. destruct t; cbn [marked String.append]; apply TrimSpace_visible; vm_compute; split; congruence.
  - intros x. unfold toy_unmarshal, toy_marshal. rewrite readMarked_marked. cbn [mbind option_bind]. rewrite readMarked_marked.
    cbn [mbind option_bind]. rewrite <- (sapp_nil_r (toy_write _)), toy_read_write. by destruct x.
  - intros template signer key. eexists. split; [apply toy_parse_create|]. cbn [Extensions].
    induction (Extensions template) as [|e l IH]; [done|]. cbn [List.filter].
    destruct (bool_decide (e.1 = digestExtensionOID)) eqn:E; [|done]. cbn [List.filter]. by rewrite E, IH.
  - intros template signer key cert intermediates t Hc _ _ _ Ht _. rewrite toy_parse_create in Hc. injection Hc as <-.
    exists [], []. unfold toy_verify. cbn [List.filter CommonName SubjectString NotBefore NotAfter]. rewrite String.eqb_refl.
    destruct (_ <=? t) eqn:E1; [|apply Z.leb_gt in E1; lia]. destruct (t <=? _) eqn:E2; [done|apply Z.leb_gt in E2; lia].
  - vm_compute. reflexivity.
  - vm_compute. reflexivity.
  - reflexivity.
  - vm_compute. reflexivity.
  - cbn. lia.
Defined.
