(* ===== verification/Reconcile.v ===== *)
(** * deploy: allocations that are removed or disabled

    The reconciliation of deploy/allocations.go with deploy/job_kv.go, and the
    effects of a deploy: what runs on workers, the staging area and the
    session's key-value store, which are operations on a world [W]. A table is
    read and written in the transaction of the deploy. *)
From S2P Require Import Prelude GoStrings Utils Kv Rollout Versions AllocState AllocStateFacts Deploy DeployFacts Catalog Placement HashTree.
Open Scope Z_scope.

(** ** Effects *)

Record Effects (W E : Type) := mkEffects {
  (** the session's key-value store *)
  sessionStore : W -> option Store;
  setSessionStore : Store -> W -> W;
  persistKV : DB -> W -> W * option E;
  (** the directory of a job in the staging area of a worker, and its files *)
  jobDir : string -> string -> string;
  staged : W -> string -> string -> FileTree;
  prepareWorkersFiles : Z -> list string -> DB -> W -> W * option E;
  prepareJobsFiles : string -> DB -> W -> W * option E;
  (** commands, transfers and hooks of a job on workers *)
  checkDeployPrerequisites : list string -> W -> W * option E;
  DeployHealthCheck : string -> DB -> W -> W * option E;
  runWorkers : string -> string -> list string -> DB -> W -> W * option E;
  syncWorkerFiles : string -> string -> DB -> W -> W * option E;
  RunHookOnWorkers : string -> string -> string -> list string -> Z -> list string -> DB -> W -> W * option E;
  executeAfterAllocation : string -> list string -> BatchContext -> DB -> W -> W * option E;
  stopWorkers : string -> list (string * bool) -> DB -> W -> W * option E;
  executeAfterAllocationStopped : string -> list string -> BatchContext -> DB -> W -> W * option E;
  removeJobDeployArtifacts : string -> string -> bool -> DB -> W -> W * option E;
  removeWorkerBucket : string -> DB -> W -> W * option E;
  syncWorkersMetadata : list string -> bool -> DB -> W -> W * option E;
  vacuum : W -> W * option E;
}.
Arguments sessionStore {W E}.
Arguments setSessionStore {W E}.
Arguments persistKV {W E}.
Arguments jobDir {W E}.
Arguments staged {W E}.
Arguments prepareWorkersFiles {W E}.
Arguments prepareJobsFiles {W E}.
Arguments checkDeployPrerequisites {W E}.
Arguments DeployHealthCheck {W E}.
Arguments runWorkers {W E}.
Arguments syncWorkerFiles {W E}.
Arguments RunHookOnWorkers {W E}.
Arguments executeAfterAllocation {W E}.
Arguments stopWorkers {W E}.
Arguments executeAfterAllocationStopped {W E}.
Arguments removeJobDeployArtifacts {W E}.
Arguments removeWorkerBucket {W E}.
Arguments syncWorkersMetadata {W E}.
Arguments vacuum {W E}.

(** ** Stopped allocations (data/stopped_allocations.go) *)

Record StoppedAllocation := mkStopped { sWorkerIP : string; sJob : string; sRemoved : bool; sDisabled : bool }.
Definition ListStoppedAllocations (db : DB) : list StoppedAllocation :=
  map (fun a => mkStopped (aWorker a) (aJob a) (aRemoved a =? 1) (aDisabled a =? 1))
    (List.filter (fun a => (aRemoved a =? 1) || (aDisabled a =? 1)) (allocations db)).
Definition StoppedAllocationAssumeDead (c : Catalog) (alloc : StoppedAllocation) : bool :=
  sRemoved alloc && negb (bool_decide (sWorkerIP alloc ∈ LoadWorkerCatalog c)).

Record stoppedReconcileItem := mkItem { item_alloc : StoppedAllocation; assumeDead : bool }.

Definition GetAllocationAppliedHash (db : DB) (id : string) : string :=
  default "" (h ← allocation_hashes db !! id; applied_hash h).
Definition allocationWasDeployed (db : DB) (workerIP job : string) : option bool :=
  id ← GetAllocationID db workerIP job;
  Some (negb (bool_decide (GetAllocationAppliedHash db id = ""))).

(** [for _, x := range l] over steps with an error return. *)
Fixpoint steps {St X E} (f : X -> St -> St * option E) (l : list X) : St -> St * option E :=
  match l with
  | [] => fun s => (s, None)
  | x :: l => andThen (f x) (steps f l)
  end.

Definition deployPhaseStop : string := "stop".

Section reconcile.
Context {W E : Type}.
Notation St := (DB * W)%type.
Notation step := (St -> St * option E).

Variable databaseError noStore : E.
Variable c : Catalog.
Variable fx : Effects W E.
(** What the rows and the configuration say of a job: max_concurrent_stops and
    the hard cap of a batch. *)
Variable maxConcurrentStops maxConcurrentSyncs : string -> result E Z.
(** The order in which Go visits the keys of a map. *)
Variable rangeOver : list string -> list string.

Definition preBatch (force : bool) (job : string) : step := preBatchHealthCheck (DeployHealthCheck fx job) force.

Definition removeHashOf (job workerIP : string) : step :=
  fun s =>
    match GetAllocationID s.1 workerIP job with
    | None => (s, Some databaseError)
    | Some id => ((RemoveAllocationHash s.1 id, s.2), None)
    end.
Definition reconcileSkippedStopAllocation (alloc : StoppedAllocation) : step :=
  if sRemoved alloc then removeHashOf (sJob alloc) (sWorkerIP alloc) else fun s => (s, None).

(** The allocations to stop; one that was never deployed is only forgotten. *)
Fixpoint splitStops (job : string) (items : list stoppedReconcileItem) (s : St) : St * result E (list stoppedReconcileItem) :=
  match items with
  | [] => (s, Ok [])
  | item :: items =>
      let keep := let '(s, r) := splitStops job items s in (s, let? l := r in Ok (item :: l)) in
      if sDisabled (item_alloc item) then keep
      else
        match allocationWasDeployed s.1 (sWorkerIP (item_alloc item)) job with
        | None => (s, Err databaseError)
        | Some true => keep
        | Some false =>
            match reconcileSkippedStopAllocation (item_alloc item) s with
            | (s, Some e) => (s, Err e)
            | (s, None) => splitStops job items s
            end
        end
  end.

Definition stopReconcileBatchSize (job : string) (stopCount : Z) : result E Z :=
  if stopCount <? 1 then Ok 1
  else
    let? hardCap := maxConcurrentSyncs job in
    if negb (bool_decide (job ∈ GetJobs c)) then Ok (effectiveBatchSize 0 stopCount hardCap)
    else let? parallelism := maxConcurrentStops job in Ok (effectiveBatchSize parallelism stopCount hardCap).

(** [itemByIP]: the last item of a worker. *)
Definition itemByIP (stopItems : list stoppedReconcileItem) (ip : string) : option stoppedReconcileItem :=
  last (List.filter (fun i => bool_decide (sWorkerIP (item_alloc i) = ip)) stopItems).
Definition assumedDead (stopItems : list stoppedReconcileItem) (ip : string) : bool :=
  match itemByIP stopItems ip with Some i => assumeDead i | None => false end.
Definition disabledItem (stopItems : list stoppedReconcileItem) (ip : string) : bool :=
  match itemByIP stopItems ip with Some i => sDisabled (item_alloc i) | None => false end.

Definition promoteStep (job : string) (ips : list string) : step :=
  fun s =>
    match promoteAllocationWorkers s.1 job ips with
    | None => (s, Some databaseError)
    | Some db => ((db, s.2), None)
    end.
Definition stopBatch (force : bool) (job : string) (stopItems : list stoppedReconcileItem) (r : ResolvedOrder) (count : Z)
    (b : nat * list string) : step :=
  let '(batchIndex, batch) := b in
  let batchCtx := mkBatchContext job deployPhaseStop (Z.of_nat batchIndex) count batch (FullOrder r) (Source r) in
  andThen (preBatch force job)
    (andThen (lift (stopWorkers fx job (map (fun ip => (ip, assumedDead stopItems ip)) batch)))
      (andThen (lift (executeAfterAllocationStopped fx job batch batchCtx))
        (andThen (promoteStep job (List.filter (fun ip => negb (disabledItem stopItems ip)) batch))
          (lift (DeployHealthCheck fx job))))).
Definition cleanupItem (job : string) (item : stoppedReconcileItem) : step :=
  if sRemoved (item_alloc item) then
    andThen (lift (removeJobDeployArtifacts fx job (sWorkerIP (item_alloc item)) (assumeDead item)))
      (removeHashOf job (sWorkerIP (item_alloc item)))
  else fun s => (s, None).

Definition reconcileStoppedAllocationsForJob (force : bool) (job : string) (items : list stoppedReconcileItem) : step :=
  fun s =>
    match splitStops job items s with
    | (s, Err e) => (s, Some e)
    | (s, Ok []) => (s, None)
    | (s, Ok stopItems) =>
        let stopIPs := map (fun i => sWorkerIP (item_alloc i)) stopItems in
        match ResolveOrder (Ok (GetNonRemovedAllocationsOrdered c s.1 job)) (sessionStore fx s.2) job stopIPs with
        | Err e => (s, Some e)
        | Ok resolved =>
            match stopReconcileBatchSize job (len stopIPs) with
            | Err e => (s, Some e)
            | Ok batchSize =>
                let batches := SplitWorkerBatches (Ordered resolved) batchSize in
                andThen (steps (stopBatch force job stopItems resolved (len batches)) (imap pair batches))
                  (steps (cleanupItem job) stopItems) s
            end
        end
    end.

(** [deploy/job_kv.go] with its early return and the persistence. *)
Definition purgeHookKV (stopped : list StoppedAllocation) : step :=
  fun s =>
    match stopped with
    | [] => (s, None)
    | _ =>
        match sessionStore fx s.2 with
        | None => (s, Some noStore)
        | Some store =>
            let store := purgeHookKVForInactiveJobs s.1 store (map (fun a => (sWorkerIP a, sJob a)) stopped) in
            lift (persistKV fx) (s.1, setSessionStore fx store s.2)
        end
    end.

Definition itemOf (alloc : StoppedAllocation) : stoppedReconcileItem := mkItem alloc (StoppedAllocationAssumeDead c alloc).
Definition itemsOf (job : string) (stopped : list StoppedAllocation) : list stoppedReconcileItem :=
  map itemOf (List.filter (fun a => bool_decide (sJob a = job)) stopped).
(** The off-catalog workers that ran a removed allocation. *)
Fixpoint offCatalogWorkers (db : DB) (stopped : list StoppedAllocation) : option (list string) :=
  match stopped with
  | [] => Some []
  | a :: stopped =>
      wasRunning ← allocationWasDeployed db (sWorkerIP a) (sJob a);
      rest ← offCatalogWorkers db stopped;
      Some (if StoppedAllocationAssumeDead c a && wasRunning then sWorkerIP a :: rest else rest)
  end.
Definition reconcileRemovedAndDisabledAllocations (force : bool) (jobsFilter : list string) : step :=
  fun s =>
    let filteredStopped := List.filter (fun a => jobInFilter (sJob a) jobsFilter) (ListStoppedAllocations s.1) in
    match offCatalogWorkers s.1 filteredStopped with
    | None => (s, Some databaseError)
    | Some offCatalog =>
        andThen (steps (fun job => reconcileStoppedAllocationsForJob force job (itemsOf job filteredStopped))
                   (rangeOver (remove_dups (map sJob filteredStopped))))
          (andThen (steps (fun ip => lift (removeWorkerBucket fx ip)) (rangeOver (remove_dups offCatalog)))
            (purgeHookKV filteredStopped)) s
    end.
End reconcile.

(** ** Facts on the reconciliation of stopped allocations

    What steps of a deploy keep in the allocation tables, and what
    [reconcileRemovedAndDisabledAllocations] changes. *)

(** ** Frames *)

(** Only hash rows of allocations with [P] differ. *)
Record frame (P : AllocRow -> Prop) (db db' : DB) : Prop := mkFrame {
  frame_rows : allocations db' = allocations db;
  frame_hashes : forall i, (forall a, a ∈ allocations db -> aAllocID a = i -> ~ P a) -> allocation_hashes db' !! i = allocation_hashes db !! i;
}.

Lemma frame_refl P db : frame P db db.
Proof. by split. Qed.
Lemma frame_trans P db1 db2 db3 : frame P db1 db2 -> frame P db2 db3 -> frame P db1 db3.
Proof.
  intros [R1 H1] [R2 H2]. split; [congruence|]. intros i Hi. rewrite H2; [by apply H1|]. intros a Ha. apply Hi. congruence.
Qed.
Lemma frame_weaken (P Q : AllocRow -> Prop) db db' : (forall a, a ∈ allocations db -> P a -> Q a) -> frame P db db' -> frame Q db db'.
Proof. intros HPQ [R H]. split; [done|]. intros i Hi. apply H. intros a Ha Hid HP. by apply (Hi a Ha Hid), HPQ. Qed.
Lemma frame_wf P db db' : frame P db db' -> wf_db db -> wf_db db'.
Proof. intros [R _]. unfold wf_db. by rewrite R. Qed.

Lemma frame_row P db db' a :
  frame P db db' -> wf_db db -> a ∈ allocations db -> ~ P a -> allocation_hashes db' !! aAllocID a = allocation_hashes db !! aAllocID a.
Proof.
  intros [_ H] [Hk _] Ha Hn. apply H. intros b Hb Hid HP. by rewrite (NoDup_map_inj _ _ _ _ Hk Hb Ha Hid) in HP.
Qed.

Lemma planned_frame P db db' job :
  frame P db db' -> wf_db db -> (forall a, a ∈ allocations db -> aJob a = job -> notRemoved a = true -> ~ P a) ->
  planned db job -> planned db' job.
Proof.
  intros Hf Hwf Hn Hp a Ha Hj Hr. rewrite (frame_rows _ _ _ Hf) in Ha.
  destruct (Hp a Ha Hj Hr) as (h & d & Hh & Hd). exists h, d. split; [|done]. by rewrite (frame_row _ _ _ _ Hf Hwf Ha) by auto.
Qed.

Lemma workersWhere_ext db db' job p q :
  allocations db' = allocations db -> (forall a, a ∈ allocations db -> aJob a = job -> p a = q a) -> workersWhere db' job p = workersWhere db job q.
Proof.
  intros R Hpq. unfold workersWhere. rewrite R. f_equal. revert Hpq. generalize (allocations db).
  induction l as [|a l IH]; intros Hpq; [done|]. cbn. rewrite IH by (intros b Hb; apply Hpq; by right).
  case_bool_decide as Hj; [|done]. cbn. by rewrite (Hpq a) by (done || left).
Qed.
Lemma GetAllocationID_ext db db' ip job : allocations db' = allocations db -> GetAllocationID db' ip job = GetAllocationID db ip job.
Proof. intros R. unfold GetAllocationID. by rewrite R. Qed.

Lemma missingHash_ext db db' job ips :
  allocations db' = allocations db ->
  (forall ip id, ip ∈ ips -> GetAllocationID db ip job = Some id -> allocation_hashes db' !! id = allocation_hashes db !! id) ->
  missingHash db' job ips = missingHash db job ips.
Proof.
  intros R. induction ips as [|ip ips IH]; intros Hh; [done|]. cbn. rewrite (GetAllocationID_ext db db') by done.
  destruct (GetAllocationID db ip job) as [id|] eqn:Eid; [|done]. cbn. rewrite (Hh ip id) by (done || left).
  destruct (allocation_hashes db !! id); [|done]. apply IH. intros ip' id' Hin. apply Hh. by right.
Qed.

(** The decision on a job looks at its own rows only. *)
Lemma JobNeedsRollout_frame P db db' job :
  frame P db db' -> wf_db db -> (forall a, a ∈ allocations db -> aJob a = job -> notRemoved a = true -> ~ P a) ->
  JobNeedsRollout db' job = JobNeedsRollout db job.
Proof.
  intros Hf Hwf Hn. pose proof (frame_rows _ _ _ Hf) as R.
  assert (Hrow : forall a, a ∈ allocations db -> aJob a = job -> notRemoved a = true -> allocation_hashes db' !! aAllocID a = allocation_hashes db !! aAllocID a).
  { intros a Ha Hj Hr. apply (frame_row _ _ _ _ Hf Hwf Ha). auto. }
  unfold JobNeedsRollout, GetNonRemovedAllocations, GetNewAllocations, GetUpdatedNonRemovedAllocations, GetVersionPendingNonRemovedAllocations.
  rewrite !(workersWhere_ext db db' job _ _ R (fun _ _ _ => eq_refl)).
  rewrite (missingHash_ext db db' job) by (done || (intros ip id Hip Hid;
    rewrite merge_sort_Permutation in Hip; apply workersWhere_elem in Hip as (a & Ha & <- & <- & Hr);
    rewrite GetAllocationID_row in Hid by done; injection Hid as <-; by apply Hrow)).
  destruct (missingHash db job _) as [[|]|]; [done| |done]. cbn [mbind option_bind].
  rewrite !(workersWhere_ext db db job (fun a => isActive a && is_new db' a) (fun a => isActive a && is_new db a)).
  2:{ done. }
  2:{ intros a Ha Hj. destruct (isActive a) eqn:Ea; [|done]. cbn. unfold is_new. by rewrite Hrow by auto using active_notRemoved. }
  rewrite !(workersWhere_ext db db job (fun a => notRemoved a && is_updated db' a) (fun a => notRemoved a && is_updated db a)).
  2:{ done. }
  2:{ intros a Ha Hj. destruct (notRemoved a) eqn:Ea; [|done]. cbn. unfold is_updated. by rewrite Hrow. }
  rewrite !(workersWhere_ext db db job (fun a => notRemoved a && version_pending db' a) (fun a => notRemoved a && version_pending db a)); [done|done|].
  intros a Ha Hj. destruct (notRemoved a) eqn:Ea; [|done]. cbn. unfold version_pending. by rewrite Hrow.
Qed.

(** ** What a step keeps *)

(** A relation between the tables before and after. *)
Class Kept (R : DB -> DB -> Prop) := { kept_refl db : R db db; kept_trans db1 db2 db3 : R db1 db2 -> R db2 db3 -> R db1 db3 }.
#[export] Instance frame_Kept P : Kept (frame P) := {| kept_refl := frame_refl P; kept_trans := frame_trans P |}.

Section keeps.
Context {W E : Type} (R : DB -> DB -> Prop) `{!Kept R}.
Notation St := (DB * W)%type.
Notation step := (St -> St * option E).

Definition keeps (f : step) : Prop := forall s, R s.1 (f s).1.1.

Lemma keeps_ret o : keeps (fun s => (s, o)).
Proof. intros s. apply kept_refl. Qed.
Lemma keeps_lift f : keeps (lift f).
Proof. intros [db w]. unfold lift. cbn. destruct (f db w). apply kept_refl. Qed.
Lemma keeps_andThen f g : keeps f -> keeps g -> keeps (andThen f g).
Proof.
  intros Hf Hg s. unfold andThen. pose proof (Hf s) as H. destruct (f s) as [s' [e|]]; [done|].
  eapply kept_trans; [exact H|apply Hg].
Qed.
Lemma keeps_steps {X} (f : X -> step) l : (forall x, x ∈ l -> keeps (f x)) -> keeps (steps f l).
Proof.
  induction l as [|x l IH]; intros Hf; cbn [steps]; [apply keeps_ret|].
  apply keeps_andThen; [apply Hf; left|]. apply IH. intros y Hy. apply Hf. by right.
Qed.
Lemma keeps_preBatch hc force : keeps (preBatchHealthCheck hc force).
Proof. destruct force; [apply keeps_ret|apply keeps_lift]. Qed.
End keeps.

(** Every case of a match in a step. *)
Ltac keep_cases := repeat (case_goal; try apply kept_refl).

(** The rows of one job. *)
Definition job_frame (job : string) : DB -> DB -> Prop := frame (fun a => aJob a = job).

Lemma forWorkers_frame f job ips : 
  (forall db id, allocations (f db id) = allocations db) ->
  (forall db id i, i <> id -> allocation_hashes (f db id) !! i = allocation_hashes db !! i) ->
  forall db db', forWorkers f db job ips = Some db' -> frame (fun a => aJob a = job /\ aWorker a ∈ ips) db db'.
Proof.
  intros Ha Hh. induction ips as [|ip ips IH]; intros db db'; cbn [forWorkers]; [intros [= <-]; apply frame_refl|].
  destruct (GetAllocationID db ip job) as [id|] eqn:Eid; [|done]. cbn [mbind option_bind]. intros Hr. eapply frame_trans.
  - split; [apply Ha|]. intros i Hi. apply (Hh db id). intros Heq. apply GetAllocationID_sound in Eid as (a & Hin & Hw & Hj & Hid).
    apply (Hi a Hin); [congruence|]. split; [done|]. rewrite Hw. left.
  - eapply frame_weaken; [|by apply IH]. intros a _ [Hj Hw]. split; [done|by right].
Qed.
Lemma updateHash_other db id g i : i <> id -> allocation_hashes (updateHash db id g) !! i = allocation_hashes db !! i.
Proof. intros Hi. cbn. by rewrite lookup_alter_ne. Qed.
Lemma promote_frame db db' job ips : promoteAllocationWorkers db job ips = Some db' -> frame (fun a => aJob a = job /\ aWorker a ∈ ips) db db'.
Proof. apply forWorkers_frame; [done|]. intros d id i Hi. unfold PromoteAllocationState, updateFiles. cbn. by rewrite lookup_alter_ne. Qed.
Lemma mark_frame db db' job ips : markAllocationWorkersHealthFailed db job ips = Some db' -> frame (fun a => aJob a = job /\ aWorker a ∈ ips) db db'.
Proof. apply forWorkers_frame; [done|]. intros d id i Hi. cbn. by rewrite lookup_alter_ne. Qed.

(** Only hash rows of allocations with [P] differ, and no row is new. *)
Definition shrinks (P : AllocRow -> Prop) (db db' : DB) : Prop :=
  frame P db db' /\ forall i, allocation_hashes db !! i = None -> allocation_hashes db' !! i = None.
#[export] Instance shrinks_Kept P : Kept (shrinks P).
Proof. split; [by split; [apply frame_refl|]|]. intros db1 db2 db3 [F1 N1] [F2 N2]. split; [by eapply frame_trans|auto]. Qed.
Lemma shrinks_weaken (P Q : AllocRow -> Prop) db db' : (forall a, a ∈ allocations db -> P a -> Q a) -> shrinks P db db' -> shrinks Q db db'.
Proof. intros HPQ [F N]. split; [by eapply frame_weaken|done]. Qed.
Lemma promote_shrinks db db' job ips : promoteAllocationWorkers db job ips = Some db' -> shrinks (fun a => aJob a = job /\ aWorker a ∈ ips) db db'.
Proof.
  intros Hp. split; [by apply promote_frame|]. revert db Hp. unfold promoteAllocationWorkers.
  induction ips as [|ip ips IH]; intros db; cbn [forWorkers]; [by intros [= <-]|].
  destruct (GetAllocationID db ip job) as [id|]; [|done]. cbn [mbind option_bind]. intros Hp i Hi. apply (IH _ Hp).
  unfold PromoteAllocationState, updateFiles. cbn. apply lookup_alter_None. done.
Qed.

(** ** The reconciliation *)

Section reconcile.
Context {W E : Type} (databaseError noStore : E) (c : Catalog) (fx : Effects W E).
Context (maxConcurrentStops maxConcurrentSyncs : string -> result E Z) (rangeOver : list string -> list string).
Notation St := (DB * W)%type.
Notation removeHashOf := (removeHashOf databaseError (W := W)).
Notation splitStops := (splitStops databaseError (W := W)).
Notation stopBatch := (stopBatch databaseError fx).
Notation cleanupItem := (cleanupItem databaseError fx).
Notation reconcileJob := (reconcileStoppedAllocationsForJob databaseError c fx maxConcurrentStops maxConcurrentSyncs).
Notation reconcile := (reconcileRemovedAndDisabledAllocations databaseError noStore c fx maxConcurrentStops maxConcurrentSyncs rangeOver).

(** The items stand for rows of the job, in the tables of the start. *)
Context (rows : list AllocRow) (Hids : NoDup (map aAllocID rows)) (Hkeys : NoDup (map (fun a => (aWorker a, aJob a)) rows)).
Definition gone (job : string) (a : AllocRow) : Prop := aJob a = job /\ (aRemoved a =? 1) = true.
Definition stands_for (job : string) (item : stoppedReconcileItem) (a : AllocRow) : Prop :=
  a ∈ rows /\ aJob a = job /\ item_alloc item = mkStopped (aWorker a) (aJob a) (aRemoved a =? 1) (aDisabled a =? 1)
  /\ ((aRemoved a =? 1) || (aDisabled a =? 1)) = true.
Definition items_ok (job : string) (items : list stoppedReconcileItem) : Prop :=
  forall item, item ∈ items -> exists a, stands_for job item a.
Notation keepsJob job := (keeps (W := W) (E := E) (fun db db' => allocations db = rows -> shrinks (gone job) db db')).

#[local] Instance gone_Kept job : Kept (fun db db' => allocations db = rows -> shrinks (gone job) db db').
Proof.
  split; [intros; apply kept_refl|]. intros db1 db2 db3 H1 H2 R. pose proof (H1 R) as F. eapply kept_trans; [exact F|].
  apply H2. by rewrite (frame_rows _ _ _ (proj1 F)).
Qed.

Lemma wf_rows db : allocations db = rows -> wf_db db.
Proof. intros R. unfold wf_db. by rewrite R. Qed.
Lemma id_of db a : allocations db = rows -> a ∈ rows -> GetAllocationID db (aWorker a) (aJob a) = Some (aAllocID a).
Proof. intros R Ha. apply GetAllocationID_row; [by apply wf_rows|by rewrite R]. Qed.

Lemma removeHashOf_spec job a (s : St) :
  allocations s.1 = rows -> a ∈ rows -> aJob a = job -> 
  removeHashOf job (aWorker a) s = ((RemoveAllocationHash s.1 (aAllocID a), s.2), None).
Proof. intros R Ha <-. unfold Reconcile.removeHashOf. by rewrite (id_of s.1 a). Qed.
Lemma RemoveAllocationHash_shrinks db a job : gone job a -> a ∈ allocations db -> shrinks (gone job) db (RemoveAllocationHash db (aAllocID a)).
Proof.
  intros Hg Ha. split; [split; [done|]|].
  - intros i Hi. cbn. rewrite lookup_delete_ne; [done|]. intros <-. by apply (Hi a).
  - intros i Hi. cbn. apply lookup_delete_None. by right.
Qed.
Lemma keeps_removeHashOf job item a : stands_for job item a -> sRemoved (item_alloc item) = true ->
  keepsJob job (removeHashOf job (sWorkerIP (item_alloc item))).
Proof.
  intros (Ha & Hj & Hi & _) Hr s R. rewrite Hi in Hr |- *. cbn in *. rewrite (removeHashOf_spec job a) by done. cbn.
  apply RemoveAllocationHash_shrinks; [done|by rewrite R].
Qed.

Lemma items_ok_cons job item items : items_ok job (item :: items) -> (exists a, stands_for job item a) /\ items_ok job items.
Proof. intros Ho. split; [apply Ho; left|]. intros i Hi. apply Ho. by right. Qed.
Lemma stands_for_unique job item a b : stands_for job item a -> stands_for job item b -> a = b.
Proof.
  intros (Ha & Hja & Hia & _) (Hb & Hjb & Hib & _). apply (NoDup_map_inj _ _ _ _ Hkeys Ha Hb). congruence.
Qed.

(** What is forgotten of the items that are not stopped. *)
Definition forgotten (db : DB) (job : string) (item : stoppedReconcileItem) : Prop :=
  forall a, stands_for job item a -> (aRemoved a =? 1) = true -> allocation_hashes db !! aAllocID a = None.
Lemma forgotten_shrinks P db db' job item : shrinks P db db' -> forgotten db job item -> forgotten db' job item.
Proof. intros [_ N] Hf a Ha Hr. apply N. by apply Hf. Qed.

Lemma splitStops_spec job items : items_ok job items -> forall s, allocations s.1 = rows ->
  let r := splitStops job items s in
  shrinks (gone job) s.1 r.1.1 /\
  forall stops, r.2 = Ok stops -> (forall i, i ∈ stops -> i ∈ items) /\ (forall i, i ∈ items -> i ∈ stops \/ forgotten r.1.1 job i).
Proof.
  induction items as [|item items IH]; intros Hok s R; cbn [Reconcile.splitStops].
  { split; [apply kept_refl|]. intros stops [= <-]. split; [done|]. by intros i ?%elem_of_nil. }
  apply items_ok_cons in Hok as [(a & Hst) Hok].
  assert (Hkeep : let r := (let '(s, r) := splitStops job items s in (s, let? l := r in Ok (item :: l))) in
    shrinks (gone job) s.1 r.1.1 /\
    forall stops, r.2 = Ok stops -> (forall i, i ∈ stops -> i ∈ item :: items) /\ (forall i, i ∈ item :: items -> i ∈ stops \/ forgotten r.1.1 job i)).
  { destruct (IH Hok s R) as [Hs Hr]. destruct (splitStops job items s) as [s' [l|e]]; cbn in *; (split; [done|]); [|done].
    intros stops [= <-]. destruct (Hr l eq_refl) as [H1 H2]. split.
    - intros i [->|Hi]%elem_of_cons; [left|right; auto].
    - intros i [->|Hi]%elem_of_cons; [left; left|]. destruct (H2 i Hi); [left; by right|by right]. }
  destruct (sDisabled (item_alloc item)) eqn:Ed; [exact Hkeep|].
  destruct (allocationWasDeployed s.1 (sWorkerIP (item_alloc item)) job) as [[|]|]; [exact Hkeep| |split; [apply kept_refl|done]].
  clear Hkeep. pose proof Hst as (Ha & Hj & Hi & Hor). 
  assert (Hrem : (aRemoved a =? 1) = true) by (rewrite Hi in Ed; cbn in Ed; by rewrite Ed, orb_false_r in Hor).
  unfold reconcileSkippedStopAllocation. rewrite Hi. cbn [sRemoved sJob sWorkerIP]. rewrite Hrem, Hj, (removeHashOf_spec job a) by done. cbn zeta match.
  destruct (IH Hok (RemoveAllocationHash s.1 (aAllocID a), s.2) R) as [Hs Hr]. split.
  - eapply kept_trans; [|exact Hs]. by apply RemoveAllocationHash_shrinks; [|rewrite R].
  - intros stops Hst'. destruct (Hr stops Hst') as [H1 H2]. split; [intros i Hin; right; auto|].
    intros i [->|Hin]%elem_of_cons; [right|auto]. apply (forgotten_shrinks _ _ _ _ _ Hs). intros b Hb _.
    rewrite (stands_for_unique _ _ _ _ Hb Hst). cbn. apply lookup_delete_eq.
Qed.

Lemma itemByIP_in stops ip : ip ∈ map (fun i => sWorkerIP (item_alloc i)) stops ->
  exists item, itemByIP stops ip = Some item /\ item ∈ stops /\ sWorkerIP (item_alloc item) = ip.
Proof.
  intros (i & -> & Hi)%list_elem_of_fmap. unfold itemByIP. set (l := List.filter _ stops).
  assert (Hl : forall x, x ∈ l -> x ∈ stops /\ sWorkerIP (item_alloc x) = sWorkerIP (item_alloc i)).
  { intros x [Hx Hp]%elem_of_list_filter_b. by bool_to_prop. }
  destruct (last l) as [x|] eqn:El.
  - exists x. split; [done|]. apply Hl. apply last_Some in El as [l' ->]. apply elem_of_app. right. by left.
  - apply last_None in El. exfalso. assert (Hin : i ∈ l) by (apply elem_of_list_filter_b; split; [done|by rewrite bool_decide_eq_true_2]).
    rewrite El in Hin. by apply elem_of_nil in Hin.
Qed.

Lemma keeps_stopBatch force job stops r count b :
  items_ok job stops -> (forall ip, ip ∈ b.2 -> ip ∈ map (fun i => sWorkerIP (item_alloc i)) stops) ->
  keepsJob job (stopBatch force job stops r count b).
Proof.
  destruct b as [n batch]. intros Hok Hb. unfold Reconcile.stopBatch, preBatch. cbn in Hb.
  apply keeps_andThen; [apply _|apply keeps_preBatch, _|].
  do 2 (apply keeps_andThen; [apply _|apply keeps_lift, _|]).
  apply keeps_andThen; [apply _| |apply keeps_lift, _]. intros s R. unfold promoteStep.
  destruct (promoteAllocationWorkers s.1 job _) as [db|] eqn:Ep; [|apply kept_refl]. cbn.
  eapply shrinks_weaken; [|by apply promote_shrinks in Ep]. intros a Ha [Hj [Hin Hd]%elem_of_list_filter_b]. split; [done|].
  destruct (itemByIP_in stops (aWorker a) (Hb _ Hin)) as (item & Hit & Hst & Hw).
  unfold disabledItem in Hd. rewrite Hit in Hd. destruct (Hok item Hst) as (b & Hb' & Hjb & Hi & Hor). rewrite Hi in Hw, Hd. cbn in Hw, Hd.
  rewrite R in Ha. assert (a = b) as -> by (apply (NoDup_map_inj _ _ _ _ Hkeys Ha Hb'); congruence).
  apply negb_true_iff in Hd. by rewrite Hd, orb_false_r in Hor.
Qed.

Lemma cleanupItem_spec job item : (exists a, stands_for job item a) -> 
  keepsJob job (cleanupItem job item) /\
  forall s : St, allocations s.1 = rows -> (cleanupItem job item s).2 = None -> forgotten (cleanupItem job item s).1.1 job item.
Proof.
  intros (a & Hst). unfold Reconcile.cleanupItem. destruct (sRemoved (item_alloc item)) eqn:Er.
  - split; [apply keeps_andThen; [apply _|apply keeps_lift, _|by eapply keeps_removeHashOf]|].
    intros s R. unfold andThen, lift. destruct (removeJobDeployArtifacts fx _ _ _ _ _) as [w [e|]]; [done|].
    pose proof Hst as (Ha & Hj & Hi & _). rewrite Hi. cbn [sWorkerIP]. rewrite (removeHashOf_spec job a) by done. cbn. intros _ b Hb _.
    rewrite (stands_for_unique _ _ _ _ Hb Hst). apply lookup_delete_eq.
  - split; [apply keeps_ret, _|]. intros s R _ b (Hb & Hj & Hi & _) Hr. rewrite Hi in Er. cbn in Er. congruence.
Qed.
Lemma cleanup_spec job stops : items_ok job stops -> 
  keepsJob job (steps (cleanupItem job) stops) /\
  forall s : St, allocations s.1 = rows -> (steps (cleanupItem job) stops s).2 = None ->
    forall i, i ∈ stops -> forgotten (steps (cleanupItem job) stops s).1.1 job i.
Proof.
  intros Hok. split.
  { apply keeps_steps; [apply _|]. intros x Hx. by apply cleanupItem_spec, Hok. }
  induction stops as [|x stops IH]; intros s R Hn i Hi; [by apply elem_of_nil in Hi|].
  apply items_ok_cons in Hok as [Hx Hok]. destruct (cleanupItem_spec job x Hx) as [Hk Hf]. cbn [steps] in Hn |- *.
  unfold andThen in *. specialize (Hk s R). specialize (Hf s R). destruct (cleanupItem job x s) as [s' [e|]]; [done|]. cbn in Hk, Hf.
  assert (R' : allocations s'.1 = rows) by by rewrite (frame_rows _ _ _ (proj1 Hk)).
  apply elem_of_cons in Hi as [->|Hi]; [|by apply IH].
  assert (Hk' : keepsJob job (steps (cleanupItem job) stops)).
  { apply keeps_steps; [apply _|]. intros y Hy. by apply cleanupItem_spec, Hok. }
  eapply forgotten_shrinks; [by apply Hk'|by apply Hf].
Qed.

Lemma reconcileJob_spec force job items : items_ok job items ->
  keepsJob job (reconcileJob force job items) /\
  forall s : St, allocations s.1 = rows -> (reconcileJob force job items s).2 = None ->
    forall i, i ∈ items -> forgotten (reconcileJob force job items s).1.1 job i.
Proof.
  intros Hok. 
  assert (Hall : forall s : St, allocations s.1 = rows -> let r := reconcileJob force job items s in
    shrinks (gone job) s.1 r.1.1 /\ (r.2 = None -> forall i, i ∈ items -> forgotten r.1.1 job i)).
  { intros s R. unfold reconcileStoppedAllocationsForJob.
    pose proof (splitStops_spec job items Hok s R) as [Hs Hst]. destruct (splitStops job items s) as [s' [stops|e]]; [|done]. cbn in Hs, Hst.
    destruct (Hst stops eq_refl) as [Hsub Hfor]. clear Hst. destruct stops as [|x stops']; [|set (stops := x :: stops') in *].
    { split; [done|]. intros _ i Hi. destruct (Hfor i Hi) as [H|H]; [by apply elem_of_nil in H|done]. }
    assert (R' : allocations s'.1 = rows) by by rewrite (frame_rows _ _ _ (proj1 Hs)).
    assert (Hok' : items_ok job stops) by (intros i Hi; by apply Hok, Hsub).
    destruct (ResolveOrder _ _ job _) as [resolved|e] eqn:Eo; [|by split].
    destruct (stopReconcileBatchSize _ _ _ _ _) as [size|e]; [|by split].
    set (batches := SplitWorkerBatches _ _). set (f := steps (stopBatch _ _ _ _ _) _).
    assert (Hf : keepsJob job f).
    { apply keeps_steps; [apply _|]. intros b Hb. apply keeps_stopBatch; [done|]. intros ip Hip.
      eapply ResolveOrder_subset; [exact Eo|]. rewrite <- (SplitWorkerBatches_concat (Ordered resolved) size).
      apply list_elem_of_In, in_concat. exists b.2. split; [|by apply list_elem_of_In].
      apply elem_of_lookup_imap in Hb as (n & l & -> & Hl). apply list_elem_of_In. by eapply list_elem_of_lookup_2. }
    destruct (cleanup_spec job stops Hok') as [Hc1 Hc2]. unfold andThen. specialize (Hf s' R').
    destruct (f s') as [s2 [e|]]; cbn in Hf.
    { split; [by eapply kept_trans|done]. }
    assert (R2 : allocations s2.1 = rows) by by rewrite (frame_rows _ _ _ (proj1 Hf)).
    specialize (Hc1 s2 R2). specialize (Hc2 s2 R2). split; [eapply kept_trans; [exact Hs|]; by eapply kept_trans|].
    intros Hn i Hi. destruct (Hfor i Hi) as [H|H]; [by apply Hc2|]. eapply forgotten_shrinks; [exact Hc1|]. by eapply forgotten_shrinks. }
  split; [intros s R; by apply Hall|]. intros s R. by apply Hall.
Qed.

(** ** All the stopped allocations *)

Context (rangeOver_perm : forall l, rangeOver l ≡ₚ l).
Definition stoppedOf (db : DB) (jobsFilter : list string) : list StoppedAllocation :=
  List.filter (fun a => jobInFilter (sJob a) jobsFilter) (ListStoppedAllocations db).
Definition selected_gone (jobsFilter : list string) (a : AllocRow) : Prop := jobInFilter (aJob a) jobsFilter = true /\ (aRemoved a =? 1) = true.

Lemma elem_of_ListStopped db al : al ∈ ListStoppedAllocations db <->
  exists a, a ∈ allocations db /\ al = mkStopped (aWorker a) (aJob a) (aRemoved a =? 1) (aDisabled a =? 1) /\ ((aRemoved a =? 1) || (aDisabled a =? 1)) = true.
Proof.
  unfold ListStoppedAllocations. rewrite list_elem_of_fmap. split.
  - intros (a & -> & [Ha Hp]%elem_of_list_filter_b). by exists a.
  - intros (a & Ha & -> & Hp). exists a. by rewrite elem_of_list_filter_b.
Qed.
Lemma itemsOf_ok db job jobsFilter : allocations db = rows -> items_ok job (itemsOf c job (stoppedOf db jobsFilter)).
Proof.
  intros R item (al & -> & [[Hal _]%elem_of_list_filter_b Hj]%elem_of_list_filter_b)%list_elem_of_fmap.
  apply elem_of_ListStopped in Hal as (a & Ha & -> & Hor). apply bool_decide_eq_true_1 in Hj. exists a. rewrite R in Ha. unfold stands_for. by split_and!.
Qed.

Lemma keeps_selected force jobsFilter db job : allocations db = rows -> job ∈ map sJob (stoppedOf db jobsFilter) ->
  keeps (fun db db' => allocations db = rows -> shrinks (selected_gone jobsFilter) db db') (reconcileJob force job (itemsOf c job (stoppedOf db jobsFilter))).
Proof.
  intros R (al & Hj & [_ Hf]%elem_of_list_filter_b)%list_elem_of_fmap s Rs.
  eapply shrinks_weaken; [|eapply reconcileJob_spec; [by apply itemsOf_ok|done]]. intros a _ [Ha Hr]. split; [|done].
  by rewrite Ha, Hj.
Qed.
#[local] Instance selected_Kept jobsFilter : Kept (fun db db' => allocations db = rows -> shrinks (selected_gone jobsFilter) db db').
Proof.
  split; [intros; apply kept_refl|]. intros db1 db2 db3 H1 H2 R. pose proof (H1 R) as F. eapply kept_trans; [exact F|].
  apply H2. by rewrite (frame_rows _ _ _ (proj1 F)).
Qed.

Lemma reconcile_jobs force jobsFilter db jobs : allocations db = rows -> (forall job, job ∈ jobs -> job ∈ map sJob (stoppedOf db jobsFilter)) ->
  forall s : St, allocations s.1 = rows -> 
  let r := steps (fun job => reconcileJob force job (itemsOf c job (stoppedOf db jobsFilter))) jobs s in
  shrinks (selected_gone jobsFilter) s.1 r.1.1 /\
  (r.2 = None -> forall a, a ∈ rows -> aJob a ∈ jobs -> selected_gone jobsFilter a -> allocation_hashes r.1.1 !! aAllocID a = None).
Proof.
  intros R. induction jobs as [|job jobs IH]; intros Hin s Rs; cbn [steps].
  { split; [apply kept_refl|]. intros _ a _ Hj. by apply elem_of_nil in Hj. }
  unfold andThen. pose proof (itemsOf_ok db job jobsFilter R) as Hok.
  pose proof (keeps_selected force jobsFilter db job R (Hin _ (list_elem_of_here _ _)) s Rs) as Hk.
  destruct (reconcileJob_spec force job _ Hok) as [_ Hf]. specialize (Hf s Rs).
  destruct (reconcileJob force job _ s) as [s' [e|]]; [by split|]. cbn in Hk, Hf. specialize (Hf eq_refl).
  assert (R' : allocations s'.1 = rows) by by rewrite (frame_rows _ _ _ (proj1 Hk)).
  destruct (IH (fun j Hj => Hin j (list_elem_of_further _ _ _ Hj)) s' R') as [Hs Hn]. split; [by eapply kept_trans|].
  intros Hnone a Ha Hj [Hsel Hr]. apply elem_of_cons in Hj as [Hj|Hj]; [|by apply Hn].
  apply (proj2 Hs), (Hf (itemOf c (mkStopped (aWorker a) (aJob a) (aRemoved a =? 1) (aDisabled a =? 1)))); [|unfold stands_for; rewrite Hr; by split_and!|done].
  apply list_elem_of_fmap. eexists. split; [done|]. apply elem_of_list_filter_b. split; [|by apply bool_decide_eq_true_2].
  apply elem_of_list_filter_b. split; [|done]. apply elem_of_ListStopped. exists a. rewrite R, Hr. by split_and!.
Qed.

(** Only hashes of removed allocations of the selected jobs go, and after
    success all of them are gone. *)
Lemma reconcile_spec force jobsFilter (s : St) : allocations s.1 = rows ->
  let r := reconcile force jobsFilter s in
  shrinks (selected_gone jobsFilter) s.1 r.1.1 /\
  (r.2 = None -> forall a, a ∈ rows -> selected_gone jobsFilter a -> allocation_hashes r.1.1 !! aAllocID a = None).
Proof.
  intros R. unfold reconcileRemovedAndDisabledAllocations. fold (stoppedOf s.1 jobsFilter). set (stopped := stoppedOf s.1 jobsFilter).
  destruct (offCatalogWorkers c s.1 stopped) as [off|]; [|by split; [apply kept_refl|]].
  assert (Hin : forall job, job ∈ rangeOver (remove_dups (map sJob stopped)) <-> job ∈ map sJob stopped).
  { intros job. by rewrite rangeOver_perm, elem_of_remove_dups. }
  pose proof (reconcile_jobs force jobsFilter s.1 (rangeOver (remove_dups (map sJob stopped))) R (fun j => proj1 (Hin j)) s R) as [Hs Hn].
  set (g := andThen (steps (fun ip => lift (removeWorkerBucket fx ip)) _) (purgeHookKV noStore fx stopped)).
  assert (Hk : forall s : St, allocations (g s).1.1 = allocations s.1 /\ allocation_hashes (g s).1.1 = allocation_hashes s.1).
  { set (Rel := fun db db' => allocations db' = allocations db /\ allocation_hashes db' = allocation_hashes db).
    assert (HRel : Kept Rel) by (split; [by split|]; intros ? ? ? [? ?] [? ?]; split; congruence).
    apply (keeps_andThen (E := E) Rel). { apply keeps_steps; [apply _|]. intros x _. apply keeps_lift, _. }
    intros s3. unfold purgeHookKV. repeat case_goal; try by split. unfold lift. cbn. by destruct (persistKV fx _ _). }
  clearbody g. unfold andThen. fold stopped in Hs, Hn. destruct (steps _ _ s) as [s' [e|]]; [by split|]. cbn in Hs, Hn. specialize (Hn eq_refl).
  destruct (Hk s') as [Hr Hh]. split.
  - eapply kept_trans; [exact Hs|]. split; [split; [done|]|]; intros i; by rewrite Hh.
  - intros _ a Ha Hg. rewrite Hh. apply Hn; [done| |done]. apply Hin. apply list_elem_of_fmap.
    exists (mkStopped (aWorker a) (aJob a) (aRemoved a =? 1) (aDisabled a =? 1)). split; [done|].
    apply elem_of_list_filter_b. split; [|apply Hg]. apply elem_of_ListStopped. exists a. rewrite R. destruct Hg as [_ ->]. by split_and!.
Qed.
End reconcile.
