(* ===== verification/DeployRun.v ===== *)
(** * deploy: a whole run

    deploy/execute.go, deploy/job_deploy.go, deploy/commands.go,
    deploy/plan_hash.go, deploy/kv_checkpoint.go, deploy/final_sync.go,
    deploy/history.go and the classification of deploy/errors.go. The work
    context of a deploy is never cancelled (deploy/signal.go); a cancelled
    health gate is an error. The text of an error is left out. *)
From S2P Require Import Prelude GoStrings Utils Kv Rollout Versions AllocState UpdatePolicy Deploy Catalog Placement HashTree Reconcile.
Open Scope Z_scope.

Inductive failure (E : Type) :=
| Plain (e : E)
| JobError (job : string) (e : E)
| PreDeployError (job : string) (e : E)
| PostDeployError (job : string) (e : E)
| CancelledError.
Arguments Plain {E}.
Arguments JobError {E}.
Arguments PreDeployError {E}.
Arguments PostDeployError {E}.
Arguments CancelledError {E}.

Inductive Outcome := Deployed | Skipped | Failed | Aborted.
#[export] Instance Outcome_eq_dec : EqDecision Outcome.
Proof. solve_decision. Defined.
Inductive Status := Succeeded | FailedRun | CancelledRun.

Record HookRow := mkHookRow { hkJob : string; hkName : string; hkExecutedOn : string }.
Record DeployHistoryRecord := mkHistory {
  hGeneration : Z;
  hStatus : Status;
  hJobsFilter : list string;
  hForce : bool;
  hJobs : list (string * Outcome);
}.

(** What a run has of the transaction, the world and its own variables. *)
Record Run (W E : Type) := mkRun {
  tables : DB;
  world : W;
  generation : Z;
  jobOutcomes : gmap string Outcome;
  prepareFailed : gset string;
  deployFailures : list (failure E);
  abortDeploy : bool;
}.
Arguments mkRun {W E}.
Arguments tables {W E}.
Arguments world {W E}.
Arguments generation {W E}.
Arguments jobOutcomes {W E}.
Arguments prepareFailed {W E}.
Arguments deployFailures {W E}.
Arguments abortDeploy {W E}.

(** What the transaction commits. *)
Record Bucket := mkBucket { bTables : DB; bGeneration : Z; bHistory : list DeployHistoryRecord }.

Section updates.
Context {W E : Type}.
Implicit Types r : Run W E.
Definition setState (s : DB * W) r : Run W E :=
  mkRun s.1 s.2 (generation r) (jobOutcomes r) (prepareFailed r) (deployFailures r) (abortDeploy r).
Definition setGeneration (g : Z) r : Run W E :=
  mkRun (tables r) (world r) g (jobOutcomes r) (prepareFailed r) (deployFailures r) (abortDeploy r).
Definition recordJobOutcome (job : string) (o : Outcome) r : Run W E :=
  mkRun (tables r) (world r) (generation r) (<[job := o]> (jobOutcomes r)) (prepareFailed r) (deployFailures r) (abortDeploy r).
Definition markPrepareFailed (job : string) r : Run W E :=
  mkRun (tables r) (world r) (generation r) (jobOutcomes r) ({[job]} ∪ prepareFailed r) (deployFailures r) (abortDeploy r).
Definition addFailure (f : failure E) r : Run W E :=
  mkRun (tables r) (world r) (generation r) (jobOutcomes r) (prepareFailed r) (deployFailures r ++ [f]) (abortDeploy r).
Definition abort r : Run W E :=
  mkRun (tables r) (world r) (generation r) (jobOutcomes r) (prepareFailed r) (deployFailures r) true.
Definition stateOf r : DB * W := (tables r, world r).
End updates.

(** [allJobsDeployedOrSkipped] *)
Definition deployedOrSkipped (outcomes : gmap string Outcome) (job : string) : bool :=
  match outcomes !! job with
  | Some Deployed | Some Skipped => true
  | _ => false
  end.
Definition allJobsDeployedOrSkipped (deployableJobs : list string) (outcomes : gmap string Outcome) : bool :=
  forallb (deployedOrSkipped outcomes) deployableJobs.

(** [data.GetDeployableJobsInOrder]: the column deployment_order is an
    argument. *)
Definition GetDeployableJobsInOrder (c : Catalog) (deploymentOrder : string -> Z) (db : DB) : list string :=
  by_position (map (fun job => (deploymentOrder job, job))
    (List.filter (fun job => existsb (fun a => bool_decide (aJob a = job) && notRemoved a) (allocations db)) (GetJobs c))).
Definition listDeployableJobs (c : Catalog) (deploymentOrder : string -> Z) (db : DB) (jobsFilter : list string) : list string :=
  selectJobsForDeploy (GetDeployableJobsInOrder c deploymentOrder db) jobsFilter.

Section run.
Context `{Unicode} {W E : Type} (md5 : string -> list Z).
Notation St := (DB * W)%type.
Notation step := (St -> St * option E).
Notation Run := (Run W E).
Notation failure := (failure E).

Variable databaseError noStore : E.
(** [errors.Is(err, context.Canceled)] and [errors.As] to a [CancelledError]. *)
Variable isCanceled asCancelledError : E -> bool.
Variable c : Catalog.
Variable hookRows : list HookRow.
Variable deploymentOrder : string -> Z.
Variable settings : string -> JobSettings E.
Variable maxConcurrentStops : string -> result E Z.
Variable fx : Effects W E.
Variable rangeOver : list string -> list string.

Definition isCancelled (f : failure) : bool :=
  match f with
  | Plain e | JobError _ e | PreDeployError _ e | PostDeployError _ e => isCanceled e
  | CancelledError => true
  end.
Definition hasCancelledError (f : failure) : bool :=
  match f with
  | Plain e | JobError _ e | PreDeployError _ e | PostDeployError _ e => asCancelledError e
  | CancelledError => true
  end.
Definition isPreDeployError (f : failure) : bool := match f with PreDeployError _ _ => true | _ => false end.
Definition isPostDeployError (f : failure) : bool := match f with PostDeployError _ _ => true | _ => false end.

Definition GetHooks (job event : string) : list string :=
  remove_dups (map hkName (List.filter (fun h => bool_decide (hkJob h = job) && bool_decide (hkExecutedOn h = event)) hookRows)).
Definition catalogOf (job : string) (db : DB) : result E (list string) := Ok (GetNonRemovedAllocationsOrdered c db job).

(** ** Preparation (plan_hash.go) *)

Definition planOf (job : string) (w : W) (db : DB) : option (DB * W) :=
  '(db, store) ← updateJobAllocationHashes md5 (jobDir fx job) (staged fx w job) db (default NewStore (sessionStore fx w)) job;
  Some (db, if bool_decide (is_Some (sessionStore fx w)) then setSessionStore fx store w else w).
Definition refreshPlanHashesForJobPlan (job : string) : step :=
  andThen (lift (prepareJobsFiles fx job))
    (fun s => match planOf job s.2 s.1 with None => (s, Some databaseError) | Some s => (s, None) end).
Fixpoint refreshPlans (jobs : list string) (r : Run) : Run :=
  match jobs with
  | [] => r
  | job :: jobs =>
      match refreshPlanHashesForJobPlan job (stateOf r) with
      | (s, None) => refreshPlans jobs (setState s r)
      | (s, Some e) =>
          if isCanceled e then abort (setState s r)
          else refreshPlans jobs (recordJobOutcome job Failed (addFailure (JobError job e) (markPrepareFailed job (setState s r))))
      end
  end.

(** ** Hooks before and after (commands.go) *)

Fixpoint hookLoop (job event : string) (wrap : string -> E -> failure) (ips : list string) (size : Z) (base : BatchContext)
    (commands : list string) (s : St) : St * option failure :=
  match commands with
  | [] => (s, None)
  | command :: commands =>
      match RunHookInBatches (fun _ => None) (fun ips n env => lift (RunHookOnWorkers fx job command event ips n env)) None false
              job ips size base [] s with
      | (s, e :: _) => (s, Some (wrap job e))
      | (s, []) => hookLoop job event wrap ips size base commands s
      end
  end.
Definition executeHooks (event : string) (wrap : string -> E -> failure) (job : string) (s : St) : St * option failure :=
  match GetHooks job event with
  | [] => (s, None)
  | commands =>
      match ResolveOrder (catalogOf job s.1) (sessionStore fx s.2) job (GetNonRemovedAllocations s.1 job) with
      | Err e => (s, Some (JobError job e))
      | Ok resolved =>
          match maxConcurrentRestarts (settings job) with
          | Err e => (s, Some (JobError job e))
          | Ok size =>
              hookLoop job event wrap (Ordered resolved) size
                (mkBatchContext "" event 0 0 [] (FullOrder resolved) (Source resolved)) commands s
          end
      end
  end.
Definition executePreHooksForJob : string -> St -> St * option failure := executeHooks "pre_deploy" PreDeployError.
Definition executePostHooks : string -> St -> St * option failure := executeHooks "post_deploy" PostDeployError.

Definition persistHookKV (job : string) (r : Run) : Run :=
  match lift (persistKV fx) (stateOf r) with
  | (s, None) => setState s r
  | (s, Some e) => addFailure (JobError job e) (setState s r)
  end.

Fixpoint preHooks (jobs : list string) (r : Run) : Run :=
  match jobs with
  | [] => r
  | job :: jobs =>
      match executePreHooksForJob job (stateOf r) with
      | (s, None) => preHooks jobs (persistHookKV job (setState s r))
      | (s, Some f) =>
          let r := addFailure f (setState s r) in
          if isPreDeployError f || isCancelled f then abort r else preHooks jobs (persistHookKV job r)
      end
  end.
Fixpoint postHooks (jobs : list string) (r : Run) : Run :=
  match jobs with
  | [] => r
  | job :: jobs =>
      match GetHooks job "post_deploy" with
      | [] => postHooks jobs r
      | _ =>
          match executePostHooks job (stateOf r) with
          | (s, None) => postHooks jobs (persistHookKV job (setState s r))
          | (s, Some f) =>
              let r := addFailure f (setState s r) in
              if isPostDeployError f || isCancelled f then abort r else postHooks jobs (persistHookKV job r)
          end
      end
  end.

(** ** One job (job_deploy.go) *)

(** The rollout of a job by its own hooks of the event job_control. *)
Definition controlBatch (force : bool) (job : string) (commands extraEnv : list string) (r : ResolvedOrder) (count : Z)
    (b : nat * list string) : step :=
  let '(batchIndex, batch) := b in
  let batchCtx := mkBatchContext job "job_control" (Z.of_nat batchIndex) count batch (FullOrder r) (Source r) in
  andThen (preBatchHealthCheck (DeployHealthCheck fx job) force)
    (andThen (steps (fun ip => lift (syncWorkerFiles fx job ip)) batch)
      (andThen (steps (fun command => lift (RunHookOnWorkers fx job command "job_control" batch (len batch) (extraEnv ++ BatchEnv batchCtx)))
                  commands)
        (gate databaseError (DeployHealthCheck fx job) job batch))).
Definition runJobControlRollout (force : bool) (job : string) (commands : list string) : step :=
  fun s =>
    match allocationsNeedingRestart s.1 job force with
    | None => (s, Some databaseError)
    | Some updatedAllocations =>
        let extraEnv := ["UPDATED_ALLOCATIONS=" +:+ Join updatedAllocations ","; "NEW_ALLOCATIONS=" +:+ Join (GetNewAllocations s.1 job) ","] in
        match ResolveOrder (catalogOf job s.1) (sessionStore fx s.2) job (GetAllocatedWorkers s.1 job) with
        | Err e => (s, Some e)
        | Ok resolved =>
            match maxConcurrentRestarts (settings job) with
            | Err e => (s, Some e)
            | Ok size =>
                let batches := SplitWorkerBatches (Ordered resolved) size in
                steps (controlBatch force job commands extraEnv resolved (len batches)) (imap pair batches) s
            end
        end
    end.
Definition deployJobWithCommands (force : bool) (job : string) (commands : list string) : step :=
  fun s =>
    match JobNeedsRollout s.1 job with
    | None => (s, Some databaseError)
    | Some needsRollout =>
        if negb force && negb needsRollout then (s, None)
        else andThen (runJobControlRollout force job commands) (finalizeJobDeploy databaseError job) s
    end.
(** The errors are those of the job: the caller wraps them as [JobError]. *)
Definition deployJob (force : bool) (job : string) : step :=
  match GetHooks job "job_control" with
  | [] => Deploy.deployJob databaseError (settings job) (catalogOf job) (sessionStore fx) (DeployHealthCheck fx job)
            (runWorkers fx job) (executeAfterAllocation fx job) force job
  | commands => deployJobWithCommands force job commands
  end.

(** ** The run (execute.go) *)

Definition deployOne (force : bool) (job : string) (r : Run) : Run :=
  let '(s, e) := deployJob force job (stateOf r) in
  let r := persistHookKV job (setState s r) in
  match e with
  | Some e =>
      let f := JobError job e in
      abort (recordJobOutcome job (if isCancelled f then Aborted else Failed) (addFailure f r))
  | None => recordJobOutcome job Deployed r
  end.
Definition rolloutJob (force : bool) (job : string) (r : Run) : Run :=
  if bool_decide (job ∈ prepareFailed r) then r
  else
    match JobNeedsRollout (tables r) job with
    | None => abort (recordJobOutcome job Failed (addFailure (JobError job databaseError) r))
    | Some needsRollout =>
        if negb force && negb needsRollout then recordJobOutcome job Skipped r else deployOne force job r
    end.
Fixpoint rolloutJobs (force : bool) (jobs : list string) (r : Run) : Run :=
  match jobs with
  | [] => r
  | job :: jobs => if abortDeploy r then r else rolloutJobs force jobs (rolloutJob force job r)
  end.

Definition reconcilePhase (force : bool) (jobsFilter : list string) (r : Run) : Run :=
  match reconcileRemovedAndDisabledAllocations databaseError noStore c fx maxConcurrentStops
          (fun job => maxConcurrentSyncs (settings job)) rangeOver force jobsFilter (stateOf r) with
  | (s, None) => setState s r
  | (s, Some e) => abort (addFailure (Plain e) (setState s r))
  end.
Definition unlessAborted (f : Run -> Run) (r : Run) : Run := if abortDeploy r then r else f r.

(** [finalSyncWorkerMetadata] *)
Definition finalSync (workers : list string) (jobsClean : bool) (r : Run) : Run :=
  match workers with
  | [] => r
  | _ =>
      match andThen (lift (prepareWorkersFiles fx (generation r) workers)) (lift (syncWorkersMetadata fx workers jobsClean)) (stateOf r) with
      | (s, None) => setState s r
      | (s, Some e) => addFailure (Plain e) (setState s r)
      end
  end.

Definition noteHealthCancel (failures : list failure) : list failure :=
  if negb (existsb isCancelled failures) then failures
  else if existsb hasCancelledError failures then failures
  else failures ++ [CancelledError].

Definition statusOf (failures : list failure) : Status :=
  if existsb isCancelled failures then CancelledRun
  else match failures with [] => Succeeded | _ => FailedRun end.
Definition writeDeployHistory (jobsFilter : list string) (force : bool) (deployableJobs : list string) (r : Run) : DeployHistoryRecord :=
  mkHistory (generation r) (statusOf (deployFailures r)) jobsFilter force
    (map (fun job => (job, default Aborted (jobOutcomes r !! job))) deployableJobs).

(** Everything between the bump of the generation and the commit. *)
Definition runPhases (force : bool) (jobsFilter deployableJobs workers : list string) (previous : Z) (r : Run) : Run :=
  let r := refreshPlans deployableJobs r in
  let r := unlessAborted (preHooks deployableJobs) r in
  let r := unlessAborted (reconcilePhase force jobsFilter) r in
  let r := rolloutJobs force deployableJobs r in
  let jobsClean := allJobsDeployedOrSkipped deployableJobs (jobOutcomes r) in
  let r := finalSync workers jobsClean r in
  let r := unlessAborted (postHooks deployableJobs) r in
  let r := mkRun (tables r) (world r) (generation r) (jobOutcomes r) (prepareFailed r) (noteHealthCancel (deployFailures r)) (abortDeploy r) in
  if jobsClean then r else setGeneration previous r.

(** The bucket after the run, the world, and the errors of the run: none is
    success. *)
Definition execute (force : bool) (jobsFilter : list string) (b : Bucket) (w : W) : Bucket * W * list failure :=
  let jobsFilter := normalizeJobFilter jobsFilter in
  let workers := GetWorkers c [] in
  match checkDeployPrerequisites fx workers w with
  | (w, Some e) => (b, w, [Plain e])
  | (w, None) =>
      let deployableJobs := listDeployableJobs c deploymentOrder (bTables b) jobsFilter in
      let bumped := bGeneration b + 1 in
      match prepareWorkersFiles fx bumped workers (bTables b) w with
      | (w, Some e) => (b, w, [Plain e])
      | (w, None) =>
          let r := runPhases force jobsFilter deployableJobs workers (bGeneration b) (mkRun (bTables b) w bumped ∅ ∅ [] false) in
          let record := writeDeployHistory jobsFilter force deployableJobs r in
          let committed := mkBucket (tables r) (generation r) (bHistory b ++ [record]) in
          match vacuum fx (world r) with
          | (w, None) => (committed, w, deployFailures r)
          | (w, Some e) => (committed, w, deployFailures r ++ [Plain e])
          end
      end
  end.
End run.
