(* ===== verification/DeployRunFacts.v ===== *)
(** * Facts on a whole deploy

    A run keeps the tables of the jobs it does not select, and the generation
    of the bucket moves on only when nothing is left to roll out. *)
From S2P Require Import Prelude GoStrings Utils Kv Rollout Versions Manifest AllocState AllocStateFacts UpdatePolicy Deploy DeployFacts Catalog Placement HashTree Reconcile DeployRun.
Open Scope Z_scope.

(** ** Plans *)

Section plan.
Context (md5 : string -> list Z) (md5_size : forall s, length (md5 s) = 16%nat).

Lemma UpdateAllocationPlan_rows db id hash files : allocations (UpdateAllocationPlan db id hash files) = allocations db.
Proof. unfold UpdateAllocationPlan. repeat case_goal; done. Qed.
Lemma UpdateAllocationPlan_other db id hash files i : i <> id ->
  allocation_hashes (UpdateAllocationPlan db id hash files) !! i = allocation_hashes db !! i.
Proof. intros Hi. unfold UpdateAllocationPlan. repeat case_goal; cbn; rewrite ?lookup_insert_ne, ?lookup_alter_ne; done. Qed.
Definition has_plan (db : DB) (id : string) : Prop := exists h d, allocation_hashes db !! id = Some h /\ pending_hash h = Some d.
Lemma UpdateAllocationPlan_planned db id hash files : hash <> "" -> has_plan (UpdateAllocationPlan db id hash files) id.
Proof.
  intros Hne. unfold UpdateAllocationPlan. destruct (allocation_hashes db !! id) as [h|] eqn:Eh.
  - case_bool_decide as Hp.
    + destruct (pending_hash h) as [d|] eqn:Ed; [by exists h, d|]. by subst.
    + eexists _, hash. cbn. rewrite lookup_alter_eq, Eh. by split.
  - eexists _, hash. cbn. rewrite lookup_insert_eq. by split.
Qed.

Lemma planTree_hash jobDir staged ip : Aggregate (planTree md5 jobDir staged ip) <> "".
Proof.
  unfold planTree, FilterDirectoryTree. cbn [Aggregate]. unfold aggregateOf. intros He.
  pose proof (length_HashBytes md5 md5_size (concat_strings (orderedDigests (filter (fun kv : string * string => IsJobHostLocalPath kv.1 = false) (Files (HashDirectoryTree md5 (jobDir ip) (staged ip))))))) as Hl.
  by rewrite He in Hl.
Qed.

(** The plan of a job writes its own rows only and gives each of the workers a
    planned hash. *)
Lemma planWorkers_spec jobDir staged job ips : forall db store db' store',
  planWorkers md5 jobDir staged db store job ips = Some (db', store') ->
  job_frame job db db' /\ (forall i, has_plan db i -> has_plan db' i)
  /\ (forall ip id, ip ∈ ips -> GetAllocationID db ip job = Some id -> has_plan db' id).
Proof.
  induction ips as [|ip ips IH]; intros db store db' store'; cbn [planWorkers].
  { intros [= <- <-]. split_and!; [apply frame_refl|done|]. by intros ip id ?%elem_of_nil. }
  destruct (GetAllocationID db ip job) as [id|] eqn:Eid; [|done]. cbn [mbind option_bind].
  set (db1 := UpdateAllocationPlan _ _ _ _). destruct (clearWorkerVersionKVKeys store job ip) as [store1|]; [|done].
  intros Hr. apply IH in Hr as (Hf & Hk & Hp).
  assert (R1 : allocations db1 = allocations db) by apply UpdateAllocationPlan_rows.
  assert (Hpl : has_plan db1 id) by apply UpdateAllocationPlan_planned, planTree_hash.
  split_and!.
  - eapply frame_trans; [|exact Hf]. split; [done|]. intros i Hi. apply UpdateAllocationPlan_other. intros Heq.
    apply GetAllocationID_sound in Eid as (a & Ha & _ & Hj & Hid). apply (Hi a Ha); congruence.
  - intros i (h & d & Hh & Hd). apply Hk. destruct (decide (i = id)) as [->|Hne]; [done|].
    exists h, d. split; [|done]. rewrite <- Hh. by apply UpdateAllocationPlan_other.
  - intros ip' id' [->|Hin]%elem_of_cons Hid'.
    + apply Hk. congruence.
    + apply (Hp ip' id' Hin). by rewrite (GetAllocationID_ext db db1).
Qed.
Lemma updateJobAllocationHashes_spec jobDir staged job db store db' store' :
  wf_db db -> updateJobAllocationHashes md5 jobDir staged db store job = Some (db', store') -> job_frame job db db' /\ planned db' job.
Proof.
  intros Hwf Hr. unfold updateJobAllocationHashes in Hr. apply planWorkers_spec in Hr as (Hf & _ & Hp). split; [done|]. intros a Ha Hj Hn.
  rewrite (frame_rows _ _ _ Hf) in Ha. apply (Hp (aWorker a)).
  - apply GetNonRemovedAllocations_elem. by exists a.
  - rewrite <- Hj. by apply GetAllocationID_row.
Qed.
End plan.

(** ** One job *)

(** What a rollout of a job keeps: the rows of other jobs and every planned
    hash. *)
Definition promotes (job : string) (db db' : DB) : Prop :=
  job_frame job db db' /\ forall i, pending_hash <$> allocation_hashes db' !! i = pending_hash <$> allocation_hashes db !! i.
#[export] Instance promotes_Kept job : Kept (promotes job).
Proof.
  split; [intros db; split; [apply frame_refl|done]|]. intros db1 db2 db3 [F1 P1] [F2 P2]. split; [by eapply frame_trans|].
  intros i. by rewrite P2, P1.
Qed.
Lemma promotes_planned job db db' j : promotes job db db' -> planned db j -> planned db' j.
Proof.
  intros [Hf Hp] Hpl a Ha Hj Hr. rewrite (frame_rows _ _ _ Hf) in Ha. destruct (Hpl a Ha Hj Hr) as (h & d & Hh & Hd).
  specialize (Hp (aAllocID a)). rewrite Hh in Hp. destruct (allocation_hashes db' !! aAllocID a) as [h'|]; [|done].
  cbn in Hp. exists h', d. split; [done|]. by injection Hp as ->.
Qed.

Lemma forWorkers_promotes f g job ips :
  (forall db id, allocations (f db id) = allocations db) ->
  (forall db id, allocation_hashes (f db id) = alter (g db id) id (allocation_hashes db)) ->
  (forall db id h, pending_hash (g db id h) = pending_hash h) ->
  forall db db', forWorkers f db job ips = Some db' -> promotes job db db'.
Proof.
  intros Ha Hh Hp db db' Hr. split.
  - eapply frame_weaken; [|eapply (forWorkers_frame f); [done| |exact Hr]]; [by intros a _ [? _]|].
    intros d id i Hi. rewrite Hh. by apply lookup_alter_ne.
  - revert db Hr. induction ips as [|ip ips IH]; intros db; cbn [forWorkers]; [by intros [= <-]|].
    destruct (GetAllocationID db ip job) as [id|]; [|done]. cbn [mbind option_bind]. intros Hr i. rewrite (IH _ Hr), Hh.
    destruct (decide (i = id)) as [->|Hne]; [|by rewrite lookup_alter_ne]. rewrite lookup_alter_eq.
    destruct (allocation_hashes db !! id); [|done]. cbn. by rewrite Hp.
Qed.
Lemma promote_promotes db db' job ips : promoteAllocationWorkers db job ips = Some db' -> promotes job db db'.
Proof. by eapply (forWorkers_promotes _ (fun db id h => mkHash (pending_hash h) (pending_hash h) (Some (default DefaultAllocationVersion (versionOf db id))))). Qed.
Lemma mark_promotes db db' job ips : markAllocationWorkersHealthFailed db job ips = Some db' -> promotes job db db'.
Proof. by eapply (forWorkers_promotes _ (fun db id h => mkHash (pending_hash h) (Some HealthFailedAppliedHash) (applied_version h))). Qed.

Section job.
Context `{Unicode} {W E : Type} (databaseError : E) (c : Catalog) (hookRows : list HookRow) (settings : string -> JobSettings E).
Context (fx : Effects W E) (job : string).
Notation St := (DB * W)%type.
Notation keepsJob := (keeps (W := W) (E := E) (promotes job)).
Notation deployJob := (DeployRun.deployJob databaseError c hookRows settings fx).

Lemma keeps_gate hc batch : keepsJob (gate databaseError hc job batch).
Proof.
  intros s. unfold gate. destruct (promoteAllocationWorkers s.1 job batch) as [db|] eqn:Ep; [|apply kept_refl].
  apply promote_promotes in Ep. unfold lift. cbn. destruct (hc db s.2) as [w [e|]]; cbn; [|done].
  destruct (markAllocationWorkersHealthFailed db job batch) as [db'|] eqn:Em; cbn; [|done].
  apply mark_promotes in Em. by eapply kept_trans.
Qed.
Section rollout.
Context (pre : St -> St * option E) (run : list string -> St -> St * option E) (after : list string -> BatchContext -> St -> St * option E).
Context (g : list string -> St -> St * option E).
Context (Hp : keepsJob pre) (Hr : forall b, keepsJob (run b)) (Ha : forall b x, keepsJob (after b x)) (Hg : forall b, keepsJob (g b)).

Lemma keeps_runRollout phase r size count batches : keepsJob (runRollout pre run after g phase job r size count batches).
Proof.
  induction batches as [|[i b] batches IH]; cbn [runRollout]; [apply keeps_ret, _|]. apply keeps_andThen; [apply _| |done].
  unfold runBatch. by repeat (apply keeps_andThen; [apply _|done|]).
Qed.
Lemma keeps_rolloutBatches isActive catalog store phase par cap candidates :
  keepsJob (rolloutBatches isActive catalog store pre run after g phase job par cap candidates).
Proof. intros s. unfold rolloutBatches. repeat (case_goal; try apply kept_refl). apply keeps_runRollout. Qed.
End rollout.

Lemma keeps_finalize : keepsJob (finalizeJobDeploy databaseError job).
Proof.
  intros s. unfold finalizeJobDeploy. destruct (promoteAllocationHash s.1 job) as [db|] eqn:Ep; [|apply kept_refl].
  by apply promote_promotes in Ep.
Qed.
Section plain.
Context (catalog : DB -> result E (list string)) (store : W -> option Store) (hc : DB -> W -> W * option E).
Context (run : string -> list string -> DB -> W -> W * option E) (after : list string -> BatchContext -> DB -> W -> W * option E) (force : bool).
Lemma keeps_new : keepsJob (handleNewAllocations databaseError (settings job) catalog store hc run after force job).
Proof.
  intros s. unfold handleNewAllocations. cbn zeta. case_goal; [apply kept_refl|]. unfold startBatches, rolloutStartBatches.
  apply keeps_rolloutBatches; [apply keeps_preBatch, _|intros; apply keeps_lift, _|intros; apply keeps_lift, _|apply keeps_gate].
Qed.
Lemma keeps_restart action l : keepsJob (restartBatches databaseError (settings job) catalog store hc run after force action job l).
Proof.
  unfold restartBatches, rolloutRestartBatches.
  apply keeps_rolloutBatches; [apply keeps_preBatch, _|intros; apply keeps_lift, _|intros; apply keeps_lift, _|apply keeps_gate].
Qed.
Lemma keeps_updated : keepsJob (handleUpdatedAllocations databaseError (settings job) catalog store hc run after force job).
Proof.
  intros s. unfold handleUpdatedAllocations. repeat (case_goal; try apply kept_refl).
  all: apply keeps_andThen; [apply _|first [apply keeps_restart|apply keeps_ret, _]|first [apply keeps_restart|apply keeps_ret, _]].
Qed.
Lemma keeps_plainDeploy : keepsJob (Deploy.deployJob databaseError (settings job) catalog store hc run after force job).
Proof.
  intros s. unfold Deploy.deployJob. repeat (case_goal; try apply kept_refl).
  repeat (apply keeps_andThen; [apply _|first [apply keeps_new|apply keeps_updated]|]). apply keeps_finalize.
Qed.
End plain.
Lemma keeps_control force commands : keepsJob (runJobControlRollout databaseError c settings fx force job commands).
Proof.
  intros s. unfold runJobControlRollout. repeat (case_goal; try apply kept_refl).
  apply keeps_steps; [apply _|]. intros [i b] _. unfold controlBatch. repeat (apply keeps_andThen; [apply _| |]).
  - apply keeps_preBatch, _.
  - apply keeps_steps; [apply _|]. intros ip _. apply keeps_lift, _.
  - apply keeps_steps; [apply _|]. intros ip _. apply keeps_lift, _.
  - apply keeps_gate.
Qed.
Lemma keeps_deployJob force : keepsJob (deployJob force job).
Proof.
  unfold DeployRun.deployJob. destruct (GetHooks hookRows job "job_control") as [|x commands]; [apply keeps_plainDeploy|]. intros s. unfold deployJobWithCommands.
  repeat (case_goal; try apply kept_refl). apply keeps_andThen; [apply _|apply keeps_control|apply keeps_finalize].
Qed.

Lemma finalize_settles (f : St -> St * option E) s :
  keepsJob f -> wf_db s.1 -> planned s.1 job -> (andThen f (finalizeJobDeploy databaseError job) s).2 = None ->
  JobNeedsRollout (andThen f (finalizeJobDeploy databaseError job) s).1.1 job = Some false.
Proof.
  intros Hf Hwf Hp. unfold andThen. pose proof (Hf s) as Hk. destruct (f s) as [s' [e|]]; [done|]. cbn in Hk. intros _.
  unfold finalizeJobDeploy. destruct (promote_converges_lemma s'.1 job) as (db' & -> & Hj & _); [| |done].
  - eapply frame_wf; [apply Hk|done].
  - by eapply promotes_planned.
Qed.

Lemma andThen_assoc (a b f : St -> St * option E) s : andThen a (andThen b f) s = andThen (andThen a b) f s.
Proof. unfold andThen. destruct (a s) as [s' [e|]]; [done|]. by destruct (b s'). Qed.

(** A deploy of a job without an error leaves nothing to roll out. *)
Lemma deployJob_settles force s : wf_db s.1 -> planned s.1 job -> (deployJob force job s).2 = None ->
  JobNeedsRollout (deployJob force job s).1.1 job = Some false.
Proof.
  intros Hwf Hp. unfold DeployRun.deployJob. destruct (GetHooks hookRows job "job_control") as [|x commands].
  - unfold Deploy.deployJob. destruct (JobNeedsRollout s.1 job) as [needs|] eqn:En; [|done].
    destruct (needs || force) eqn:Ef; [|intros _; bool_to_prop; by subst].
    rewrite andThen_assoc. apply finalize_settles; [|done|done].
    apply keeps_andThen; [apply _|apply keeps_new|apply keeps_updated].
  - unfold deployJobWithCommands. destruct (JobNeedsRollout s.1 job) as [needs|] eqn:En; [|done].
    destruct (negb force && negb needs) eqn:Ef; [intros _; bool_to_prop; by destruct needs|].
    apply finalize_settles; [apply keeps_control|done|done].
Qed.
End job.

(** ** The run *)

Section run.
Context `{Unicode} {W E : Type} (md5 : string -> list Z) (md5_size : forall s, length (md5 s) = 16%nat).
Context (databaseError noStore : E) (isCanceled asCancelledError : E -> bool).
Context (c : Catalog) (hookRows : list HookRow) (settings : string -> JobSettings E).
Context (maxConcurrentStops : string -> result E Z) (fx : Effects W E).
Context (rangeOver : list string -> list string) (rangeOver_perm : forall l, rangeOver l ≡ₚ l).
Notation Run := (Run W E).
Notation deployJob := (DeployRun.deployJob databaseError c hookRows settings fx).
Notation rolloutJob := (DeployRun.rolloutJob databaseError isCanceled c hookRows settings fx).
Notation rolloutJobs := (DeployRun.rolloutJobs databaseError isCanceled c hookRows settings fx).
Notation refreshPlans := (DeployRun.refreshPlans md5 databaseError isCanceled fx).
Notation reconcilePhase := (DeployRun.reconcilePhase databaseError noStore c settings maxConcurrentStops fx rangeOver).
Notation preHooks := (DeployRun.preHooks isCanceled c hookRows settings fx).
Notation postHooks := (DeployRun.postHooks isCanceled c hookRows settings fx).

(** *** Phases that leave tables and outcomes alone *)

Record quiet (r r' : Run) : Prop := mkQuiet {
  q_tables : tables r' = tables r;
  q_outcomes : jobOutcomes r' = jobOutcomes r;
  q_prepare : prepareFailed r' = prepareFailed r;
  q_generation : generation r' = generation r;
  q_failures : exists l, deployFailures r' = deployFailures r ++ l /\ (abortDeploy r' = true -> abortDeploy r = true \/ l <> []);
}.
Lemma quiet_refl r : quiet r r.
Proof. split; try done. exists []. rewrite app_nil_r. split; [done|auto]. Qed.
Lemma quiet_trans r1 r2 r3 : quiet r1 r2 -> quiet r2 r3 -> quiet r1 r3.
Proof.
  intros [? ? ? ? (l1 & E1 & A1)] [? ? ? ? (l2 & E2 & A2)]. split; try congruence.
  exists (l1 ++ l2). rewrite E2, E1, app_assoc. split; [done|]. intros [Ha|Hl]%A2.
  - destruct (A1 Ha) as [?|Hl]; [by left|right; by destruct l1].
  - right. destruct l1; [done|]. done.
Qed.
Lemma quiet_state r s : s.1 = tables r -> quiet r (setState s r).
Proof. intros Hs. split; try done. exists []. cbn. rewrite app_nil_r. split; [done|auto]. Qed.
Lemma quiet_failure r f : quiet r (addFailure f r).
Proof. split; try done. exists [f]. cbn. split; [done|auto]. Qed.
Lemma quiet_abort r f : quiet r (abort (addFailure f r)).
Proof. split; try done. exists [f]. cbn. split; [done|by right]. Qed.

Lemma lift_tables f (s : DB * W) : (lift (E := E) f s).1.1 = s.1.
Proof. unfold lift. by destruct (f s.1 s.2). Qed.
Lemma quiet_persist job r : quiet r (persistHookKV fx job r).
Proof.
  unfold persistHookKV. pose proof (lift_tables (persistKV fx) (stateOf r)) as Hl.
  destruct (lift _ _) as [s [e|]]; cbn in Hl; [|by apply quiet_state].
  eapply quiet_trans; [by apply quiet_state|apply quiet_failure].
Qed.

Lemma persist_abort job r : abortDeploy (persistHookKV fx job r) = abortDeploy r.
Proof. unfold persistHookKV. by destruct (lift _ _) as [s [e|]]. Qed.

Lemma runBatches_tables (run : list string -> Z -> list string -> DB * W -> DB * W * option E) base job extra count batches :
  (forall ips n env s, (run ips n env s).1.1 = s.1) ->
  forall i errs s, (runBatches (fun _ => None) run None false base job extra count i batches errs s).1.1 = s.1.
Proof.
  intros Hrun. induction batches as [|b batches IH]; intros i errs s; cbn [runBatches]; [done|].
  match goal with |- context [run ?a ?b ?c s] => pose proof (Hrun a b c s) as Hr; destruct (run a b c s) as [s1 [e|]] end; cbn in Hr; [done|].
  by rewrite IH.
Qed.
Lemma executeHooks_tables event wrap job s : (executeHooks c hookRows settings fx event wrap job s).1.1 = s.1.
Proof.
  unfold executeHooks. destruct (GetHooks hookRows job event) as [|x commands]; [done|].
  destruct (ResolveOrder _ _ _ _) as [resolved|]; [|done]. destruct (maxConcurrentRestarts _) as [size|]; [|done].
  generalize (x :: commands) as l, s. induction l as [|command l IH]; intros s1; cbn [hookLoop]; [done|].
  assert (Ht : forall ips base, (RunHookInBatches (fun _ => None) (fun ips n env => lift (RunHookOnWorkers fx job command event ips n env)) None false job ips size base [] s1).1.1 = s1.1).
  { intros ips base. unfold RunHookInBatches. case_goal; [done|]. apply runBatches_tables. intros ips' n env s2. apply lift_tables. }
  specialize (Ht (Ordered resolved) (mkBatchContext "" event 0 0 [] (FullOrder resolved) (Source resolved))).
  destruct (RunHookInBatches _ _ _ _ _ _ _ _ _ _) as [s2 [|e errs]]; cbn in Ht; [by rewrite IH|done].
Qed.

Lemma quiet_preHooks jobs : forall r, quiet r (preHooks jobs r).
Proof.
  induction jobs as [|job jobs IH]; intros r; cbn [DeployRun.preHooks]; [apply quiet_refl|].
  pose proof (executeHooks_tables "pre_deploy" PreDeployError job (stateOf r)) as Ht. unfold executePreHooksForJob.
  destruct (executeHooks _ _ _ _ _ _ _ _) as [s [f|]]; cbn in Ht; (eapply quiet_trans; [by apply (quiet_state _ s)|]).
  - case_goal; [apply quiet_abort|]. eapply quiet_trans; [apply quiet_failure|]. eapply quiet_trans; [apply quiet_persist|apply IH].
  - eapply quiet_trans; [apply quiet_persist|apply IH].
Qed.
Lemma quiet_postHooks jobs : forall r, quiet r (postHooks jobs r).
Proof.
  induction jobs as [|job jobs IH]; intros r; cbn [DeployRun.postHooks]; [apply quiet_refl|].
  destruct (GetHooks hookRows job "post_deploy"); [apply IH|].
  pose proof (executeHooks_tables "post_deploy" PostDeployError job (stateOf r)) as Ht. unfold executePostHooks.
  destruct (executeHooks _ _ _ _ _ _ _ _) as [st [f|]]; cbn in Ht; (eapply quiet_trans; [by apply (quiet_state _ st)|]).
  - case_goal; [apply quiet_abort|]. eapply quiet_trans; [apply quiet_failure|]. eapply quiet_trans; [apply quiet_persist|apply IH].
  - eapply quiet_trans; [apply quiet_persist|apply IH].
Qed.
Lemma quiet_finalSync workers clean r : quiet r (finalSync fx workers clean r).
Proof.
  unfold finalSync. destruct workers as [|x workers]; [apply quiet_refl|].
  assert (Ht : forall f g (s : DB * W), (andThen (lift (E := E) f) (lift g) s).1.1 = s.1).
  { intros f g s. unfold andThen. pose proof (lift_tables f s) as Hl. destruct (lift f s) as [s1 [e|]]; cbn in Hl; [done|].
    by rewrite lift_tables. }
  specialize (Ht (prepareWorkersFiles fx (generation r) (x :: workers)) (syncWorkersMetadata fx (x :: workers) clean) (stateOf r)).
  destruct (andThen _ _ _) as [s [e|]]; cbn in Ht; [|by apply quiet_state].
  eapply quiet_trans; [by apply quiet_state|apply quiet_failure].
Qed.

(** *** The invariant of a run *)

Context (db0 : DB) (Hwf : wf_db db0) (jobsFilter deployable : list string).
Context (Hsel : forall j, j ∈ deployable -> jobInFilter j jobsFilter = true).
Definition selected (a : AllocRow) : Prop := jobInFilter (aJob a) jobsFilter = true.

Record inv (r : Run) : Prop := mkInv {
  inv_frame : frame selected db0 (tables r);
  inv_done : forall j, deployedOrSkipped (jobOutcomes r) j = true -> JobNeedsRollout (tables r) j = Some false;
  inv_failed : forall j, j ∈ prepareFailed r -> deployFailures r <> [];
}.
(** The jobs whose plan was made have a planned hash on every allocation. *)
Definition plans (jobs : list string) (r : Run) : Prop := forall j, j ∈ jobs -> j ∉ prepareFailed r -> planned (tables r) j.

Lemma inv_wf r : inv r -> wf_db (tables r).
Proof. intros Hi. eapply frame_wf; [apply Hi|done]. Qed.
Lemma quiet_inv r r' : quiet r r' -> inv r -> inv r'.
Proof.
  intros [Ht Ho Hp _ (l & Hf & _)] [F D P]. split; rewrite ?Ht, ?Ho, ?Hp; [done|done|].
  intros j Hj. rewrite Hf. intros [H1 _]%app_eq_nil. by apply (P j Hj).
Qed.
Lemma quiet_plans jobs r r' : quiet r r' -> plans jobs r -> plans jobs r'.
Proof. intros [Ht _ Hp _ _] Hpl j. rewrite Ht, Hp. apply Hpl. Qed.

Lemma job_frame_selected job db db' : job ∈ deployable -> job_frame job db db' -> frame selected db db'.
Proof. intros Hj. apply frame_weaken. intros a _ Ha. unfold selected. rewrite Ha. by apply Hsel. Qed.
Lemma job_frame_other job j db db' : wf_db db -> j <> job -> job_frame job db db' ->
  JobNeedsRollout db' j = JobNeedsRollout db j /\ (planned db j -> planned db' j).
Proof.
  intros Hw Hne Hf. split.
  - eapply JobNeedsRollout_frame; [exact Hf|done|]. intros a _ <- _. done.
  - eapply planned_frame; [exact Hf|done|]. intros a _ <- _. done.
Qed.

(** *** Plans *)

Lemma refreshPlan_frame job s s' e : wf_db s.1 -> refreshPlanHashesForJobPlan md5 databaseError fx job s = (s', e) ->
  job_frame job s.1 s'.1 /\ (e = None -> planned s'.1 job).
Proof.
  intros Hw. unfold refreshPlanHashesForJobPlan, andThen, lift. destruct (prepareJobsFiles fx job s.1 s.2) as [w [e'|]].
  { intros [= <- <-]. split; [apply frame_refl|done]. }
  cbn. unfold planOf. destruct (updateJobAllocationHashes _ _ _ _ _ _) as [[db store]|] eqn:Eu; cbn.
  - intros [= <- <-]. apply updateJobAllocationHashes_spec in Eu as [Hf Hp]; [|done|done]. by split.
  - intros [= <- <-]. split; [apply frame_refl|done].
Qed.

(** No plan fails with the error of a cancelled context: the preparation has
    none. *)
Definition plans_not_cancelled : Prop :=
  isCanceled databaseError = false /\ forall job db w w' e, prepareJobsFiles fx job db w = (w', Some e) -> isCanceled e = false.
Lemma refreshPlan_not_cancelled job s s' e : plans_not_cancelled -> refreshPlanHashesForJobPlan md5 databaseError fx job s = (s', Some e) -> isCanceled e = false.
Proof.
  intros [Hd Hp]. unfold refreshPlanHashesForJobPlan, andThen, lift. destruct (prepareJobsFiles fx job s.1 s.2) as [w [e'|]] eqn:Ep.
  - intros [= _ <-]. by apply Hp in Ep.
  - case_goal; intros [=]. by subst.
Qed.

Definition only_failed (r : Run) : Prop := forall j o, jobOutcomes r !! j = Some o -> o = Failed.
Lemma only_failed_done r j : only_failed r -> deployedOrSkipped (jobOutcomes r) j = false.
Proof. intros Ho. unfold deployedOrSkipped. destruct (jobOutcomes r !! j) as [o|] eqn:Ej; [|done]. by rewrite (Ho j o Ej). Qed.

Lemma refreshPlans_spec jobs : forall done r, (forall j, j ∈ jobs -> j ∈ deployable) -> inv r -> only_failed r -> plans done r ->
  let r' := refreshPlans jobs r in
  inv r' /\ only_failed r' /\ generation r' = generation r /\ (abortDeploy r' = abortDeploy r -> abortDeploy r = false -> plans (done ++ jobs) r')
  /\ (plans_not_cancelled -> abortDeploy r' = abortDeploy r).
Proof.
  induction jobs as [|job jobs IH]; intros dn r Hin Hi Ho Hp; cbn [DeployRun.refreshPlans]; [by rewrite app_nil_r|].
  destruct (refreshPlanHashesForJobPlan md5 databaseError fx job (stateOf r)) as [s e] eqn:Er.
  pose proof (refreshPlan_frame job (stateOf r) s e (inv_wf _ Hi) Er) as [Hf Hpl]. cbn in Hf.
  assert (Hjob : job ∈ deployable) by (apply Hin; left).
  assert (Hfr : frame selected db0 s.1) by (eapply frame_trans; [apply Hi|by eapply job_frame_selected]).
  assert (Hother : forall j, j <> job -> j ∈ dn -> j ∉ prepareFailed r -> planned s.1 j).
  { intros j Hne Hj Hn. apply (job_frame_other job j (tables r) s.1 (inv_wf _ Hi) Hne Hf). by apply Hp. }
  assert (Happ : dn ++ job :: jobs = (dn ++ [job]) ++ jobs) by (by rewrite <- app_assoc).
  destruct e as [e|]; [destruct (isCanceled e) eqn:Ec|].
  - split_and!; [|done|done|by intros Ha Hb; cbn in Ha; rewrite Hb in Ha|].
    + split; [exact Hfr| |exact (inv_failed _ Hi)]. intros j Hj. change (deployedOrSkipped (jobOutcomes r) j = true) in Hj.
      by rewrite (only_failed_done r j Ho) in Hj.
    + intros Hc. by rewrite (refreshPlan_not_cancelled job _ _ _ Hc Er) in Ec.
  - rewrite Happ. match goal with |- context [DeployRun.refreshPlans _ _ _ _ jobs ?r2] => apply (IH (dn ++ [job]) r2) end.
    + intros j Hj. apply Hin. by right.
    + split; [exact Hfr| |cbn; intros j _ Hc; by apply app_eq_nil in Hc as [_ ?]].
      intros j Hj. cbn in Hj. unfold deployedOrSkipped in Hj. destruct (decide (j = job)) as [->|Hne]; [by rewrite lookup_insert_eq in Hj|].
      rewrite lookup_insert_ne in Hj by done. change (deployedOrSkipped (jobOutcomes r) j = true) in Hj. by rewrite (only_failed_done r j Ho) in Hj.
    + intros j o. cbn. destruct (decide (j = job)) as [->|Hne]; [rewrite lookup_insert_eq; by intros [= <-]|].
      rewrite lookup_insert_ne by done. apply Ho.
    + intros j Hj Hn. cbn in Hn |- *. apply Hother; [set_solver| |set_solver]. apply elem_of_app in Hj as [Hj|Hj]; [done|].
      apply list_elem_of_singleton in Hj. set_solver.
  - rewrite Happ. match goal with |- context [DeployRun.refreshPlans _ _ _ _ jobs ?r2] => apply (IH (dn ++ [job]) r2) end.
    + intros j Hj. apply Hin. by right.
    + split; [exact Hfr| |exact (inv_failed _ Hi)]. intros j Hj. change (deployedOrSkipped (jobOutcomes r) j = true) in Hj.
      by rewrite (only_failed_done r j Ho) in Hj.
    + exact Ho.
    + intros j Hj Hn. cbn in Hn |- *. destruct (decide (j = job)) as [->|Hne]; [by apply Hpl|]. apply Hother; [done| |done].
      apply elem_of_app in Hj as [Hj|Hj]; [done|]. by apply list_elem_of_singleton in Hj.
Qed.

(** *** Reconciliation *)

Definition removed_gone (db : DB) : Prop :=
  forall a, a ∈ allocations db0 -> selected_gone jobsFilter a -> allocation_hashes db !! aAllocID a = None.

Lemma reconcilePhase_spec force jobs r : inv r -> plans jobs r ->
  let r' := reconcilePhase force jobsFilter r in
  inv r' /\ plans jobs r' /\ jobOutcomes r' = jobOutcomes r /\ generation r' = generation r
  /\ (deployFailures r' = [] -> deployFailures r = [] /\ abortDeploy r' = abortDeploy r /\ removed_gone (tables r')).
Proof.
  intros Hi Hp. unfold DeployRun.reconcilePhase. set (f := reconcileRemovedAndDisabledAllocations _ _ _ _ _ _ _ _ _).
  assert (R : allocations (tables r) = allocations db0) by apply (inv_frame _ Hi).
  pose proof (reconcile_spec databaseError noStore c fx maxConcurrentStops (fun job => maxConcurrentSyncs (settings job)) rangeOver
    (allocations db0) (proj1 Hwf) (proj2 Hwf) rangeOver_perm force jobsFilter (stateOf r) R) as [[Hf _] Hn]. fold f in Hf, Hn.
  destruct (f (stateOf r)) as [s e]. cbn in Hf, Hn.
  assert (Hnot : forall j a, a ∈ allocations (tables r) -> aJob a = j -> notRemoved a = true -> ~ selected_gone jobsFilter a).
  { intros j a _ _ Hr [_ Hg]. unfold notRemoved in Hr. bool_to_prop. lia. }
  assert (Hinv : inv (setState s r)).
  { split; [|intros j Hj|exact (inv_failed _ Hi)].
    - eapply frame_trans; [apply Hi|]. eapply frame_weaken; [|exact Hf]. by intros a _ [? _].
    - cbn in Hj |- *. rewrite (JobNeedsRollout_frame _ _ _ j Hf (inv_wf _ Hi) (Hnot j)). by apply (inv_done _ Hi). }
  assert (Hpl : plans jobs (setState s r)).
  { intros j Hj Hjp. apply (planned_frame _ _ _ j Hf (inv_wf _ Hi) (Hnot j)). by apply Hp. }
  destruct e as [e|].
  - pose proof (quiet_abort (setState s r) (Plain e)) as Hq. split_and!; [by eapply quiet_inv|by eapply quiet_plans|done|done|].
    cbn. by intros [_ ?]%app_eq_nil.
  - split_and!; try done. intros Hnil. split_and!; try done. intros a Ha Hg. by apply Hn.
Qed.

(** *** The rollout of the jobs *)

Lemma inv_setDeploy job r (s : DB * W) : job ∈ deployable -> inv r -> promotes job (tables r) s.1 ->
  frame selected db0 s.1 /\ (forall j, j <> job -> JobNeedsRollout s.1 j = JobNeedsRollout (tables r) j).
Proof.
  intros Hj Hi [Hf _]. split; [eapply frame_trans; [apply Hi|by eapply job_frame_selected]|].
  intros j Hne. by apply (job_frame_other job j (tables r) s.1 (inv_wf _ Hi) Hne Hf).
Qed.
Lemma inv_record job o (r : Run) : (deployedOrSkipped {[job := o]} job = true -> JobNeedsRollout (tables r) job = Some false) ->
  (forall j, j <> job -> deployedOrSkipped (jobOutcomes r) j = true -> JobNeedsRollout (tables r) j = Some false) ->
  forall j, deployedOrSkipped (<[job := o]> (jobOutcomes r)) j = true -> JobNeedsRollout (tables r) j = Some false.
Proof.
  intros Hj Ho j. unfold deployedOrSkipped in *. destruct (decide (j = job)) as [->|Hne].
  - rewrite lookup_insert_eq. intros Hd. apply Hj. by rewrite lookup_singleton_eq.
  - rewrite lookup_insert_ne by done. by apply Ho.
Qed.

(** What the rollout of one job does to the run. *)
Definition rolled_job (job : string) (r r' : Run) : Prop :=
  inv r' /\ plans deployable r' /\ prepareFailed r' = prepareFailed r /\ generation r' = generation r /\ promotes job (tables r) (tables r')
  /\ (forall j, j <> job -> jobOutcomes r' !! j = jobOutcomes r !! j)
  /\ (abortDeploy r = false -> abortDeploy r' = true -> exists o, jobOutcomes r' !! job = Some o /\ o <> Deployed /\ o <> Skipped)
  /\ (abortDeploy r' = false -> job ∈ prepareFailed r \/ deployedOrSkipped (jobOutcomes r') job = true)
  /\ (deployFailures r' = [] -> deployFailures r = [] /\ abortDeploy r' = abortDeploy r /\ deployedOrSkipped (jobOutcomes r') job = true).

Lemma rolloutJob_spec force job r : job ∈ deployable -> inv r -> plans deployable r -> rolled_job job r (rolloutJob force job r).
Proof.
  intros Hj Hi Hp. unfold DeployRun.rolloutJob. case_bool_decide as Hpf.
  { unfold rolled_job. split_and!; try done; [congruence|by left|]. intros Hn. by destruct (inv_failed _ Hi job Hpf). }
  destruct (JobNeedsRollout (tables r) job) as [needs|] eqn:En.
  2:{ unfold rolled_job; split_and!; cbn; try done.
      - split; [exact (inv_frame _ Hi)| |cbn; intros j _ Hc; by apply app_eq_nil in Hc as [_ ?]].
        apply (inv_record job _ r); [by unfold deployedOrSkipped; rewrite lookup_singleton_eq|]. intros j _. apply (inv_done _ Hi).
      - intros j Hne. by apply lookup_insert_ne.
      - intros _ _. exists Failed. by rewrite lookup_insert_eq.
      - by intros [_ ?]%app_eq_nil. }
  destruct (negb force && negb needs) eqn:Ef.
  { assert (needs = false) as -> by (by destruct needs, force). unfold rolled_job; split_and!; cbn; try done.
    - split; [exact (inv_frame _ Hi)| |exact (inv_failed _ Hi)]. apply (inv_record job _ r); [done|]. intros j _. apply (inv_done _ Hi).
    - intros j Hne. by apply lookup_insert_ne.
    - congruence.
    - intros _. right. unfold deployedOrSkipped. by rewrite lookup_insert_eq.
    - intros Hn. split_and!; [done|done|]. unfold deployedOrSkipped. by rewrite lookup_insert_eq. }
  unfold deployOne. pose proof (keeps_deployJob databaseError c hookRows settings fx job force (stateOf r)) as Hk.
  pose proof (deployJob_settles databaseError c hookRows settings fx job force (stateOf r) (inv_wf _ Hi) (Hp job Hj Hpf)) as Hset.
  destruct (deployJob force job (stateOf r)) as [s e]. cbn in Hk, Hset.
  destruct (inv_setDeploy job r s Hj Hi Hk) as [Hfr Hoth].
  pose proof (quiet_persist job (setState s r)) as Hq. pose proof (persist_abort job (setState s r)) as Hra. set (r1 := persistHookKV fx job (setState s r)) in *. clearbody r1.
  destruct Hq as [Ht Ho Hpr Hg (l & Hl & Hab)]. cbn in Ht, Ho, Hpr, Hg, Hl, Hab.
  assert (Hplans : forall r2, tables r2 = s.1 -> prepareFailed r2 = prepareFailed r -> plans deployable r2).
  { intros r2 E1 E2 j Hjd Hn. rewrite E1. rewrite E2 in Hn. apply (promotes_planned job (tables r)); [done|by apply Hp]. }
  destruct e as [e|].
  - unfold rolled_job; split_and!; cbn; try done.
    + split; cbn; [by rewrite Ht| |intros j _ Hc; by apply app_eq_nil in Hc as [_ ?]].
      apply (inv_record job _ r1); [unfold deployedOrSkipped; rewrite lookup_singleton_eq; by destruct (isCanceled e)|].
      intros j Hne. rewrite Ht, Hoth, Ho by done. apply (inv_done _ Hi).
    + by apply Hplans.
    + by rewrite Ht.
    + intros j Hne. by rewrite lookup_insert_ne, Ho.
    + intros _ _. eexists. rewrite lookup_insert_eq. split; [done|]. by destruct (isCanceled e).
    + by intros [_ ?]%app_eq_nil.
  - specialize (Hset eq_refl). unfold rolled_job; split_and!; cbn; try done.
    + split; cbn; [by rewrite Ht| |].
      * apply (inv_record job _ r1); [by rewrite Ht|]. intros j Hne. rewrite Ht, Hoth, Ho by done. apply (inv_done _ Hi).
      * intros j Hjp. rewrite Hpr in Hjp. rewrite Hl. intros [Hc _]%app_eq_nil. by apply (inv_failed _ Hi j Hjp).
    + by apply Hplans.
    + by rewrite Ht.
    + intros j Hne. by rewrite lookup_insert_ne, Ho.
    + rewrite Hra. cbn. congruence.
    + intros _. right. unfold deployedOrSkipped. by rewrite lookup_insert_eq.
    + intros Hn. rewrite Hl in Hn. apply app_eq_nil in Hn as [Hn ->]. split_and!; [done|by rewrite Hra|].
      unfold deployedOrSkipped. by rewrite lookup_insert_eq.
Qed.

Lemma promotes_gone job db db' : promotes job db db' -> removed_gone db -> removed_gone db'.
Proof.
  intros [_ Hp] Hg a Ha Hs. specialize (Hp (aAllocID a)). rewrite (Hg a Ha Hs) in Hp. by destruct (allocation_hashes db' !! aAllocID a).
Qed.

Lemma rolloutJobs_spec force jobs : (forall j, j ∈ jobs -> j ∈ deployable) -> forall r, inv r -> plans deployable r ->
  let r' := rolloutJobs force jobs r in
  inv r' /\ generation r' = generation r
  /\ (removed_gone (tables r) -> removed_gone (tables r'))
  /\ (forall j, j ∉ jobs -> jobOutcomes r' !! j = jobOutcomes r !! j)
  /\ (abortDeploy r = false -> deployFailures r' = [] ->
        deployFailures r = [] /\ abortDeploy r' = false /\ forall j, j ∈ jobs -> deployedOrSkipped (jobOutcomes r') j = true).
Proof.
  induction jobs as [|job jobs IH]; intros Hin r Hi Hp; cbn [DeployRun.rolloutJobs].
  { split_and!; try done. intros Ha Hf. split_and!; [done|done|]. by intros j ?%elem_of_nil. }
  destruct (abortDeploy r) eqn:Ea; [by split_and!|].
  destruct (rolloutJob_spec force job r (Hin job (list_elem_of_here _ _)) Hi Hp) as (Hi1 & Hp1 & _ & Hg1 & Hpr & Ho1 & _ & _ & Hc1).
  set (r1 := rolloutJob force job r) in *. clearbody r1.
  destruct (IH (fun j Hj => Hin j (list_elem_of_further _ _ _ Hj)) r1 Hi1 Hp1) as (Hi2 & Hg2 & Hgone & Ho2 & Hc2). split_and!.
  - done.
  - congruence.
  - intros Hg. by apply Hgone, (promotes_gone job (tables r)).
  - intros j [Hne Hj]%not_elem_of_cons. by rewrite Ho2, Ho1.
  - intros _ Hf. 
    assert (Hab : abortDeploy r1 = false).
    { destruct (abortDeploy r1) eqn:Eb; [|done]. exfalso. clear IH.
      assert (Hr : rolloutJobs force jobs r1 = r1) by (destruct jobs; cbn [DeployRun.rolloutJobs]; [done|by rewrite Eb]).
      rewrite Hr in Hf. destruct (Hc1 Hf) as (_ & Hc & _). congruence. }
    destruct (Hc2 Hab Hf) as (Hf1 & Ha2 & Hall). destruct (Hc1 Hf1) as (Hf0 & _ & Hj). split_and!; [done|done|].
    intros j [->|Hjs]%elem_of_cons; [|by apply Hall]. destruct (decide (job ∈ jobs)) as [Hin'|Hn]; [by apply Hall|].
    unfold deployedOrSkipped in *. by rewrite Ho2.
Qed.

Lemma rolloutJobs_prefix force jobs : (forall j, j ∈ jobs -> j ∈ deployable) -> forall r, inv r -> plans deployable r ->
  prepareFailed r = ∅ -> abortDeploy r = false ->
  let r' := rolloutJobs force jobs r in
  exists ran rest, jobs = ran ++ rest
    /\ frame (fun a => aJob a ∈ ran) (tables r) (tables r')
    /\ (forall j, j ∉ ran -> jobOutcomes r' !! j = jobOutcomes r !! j)
    /\ (abortDeploy r' = false -> rest = [] /\ forall j, j ∈ jobs -> deployedOrSkipped (jobOutcomes r') j = true)
    /\ (abortDeploy r' = true -> exists before j o, ran = before ++ [j] /\ jobOutcomes r' !! j = Some o /\ o <> Deployed /\ o <> Skipped).
Proof.
  induction jobs as [|job jobs IH]; intros Hin r Hi Hp Hpf Ha; cbn [DeployRun.rolloutJobs].
  { exists [], []. split_and!; [done|apply frame_refl|done| |congruence]. intros _. split; [done|]. by intros j ?%elem_of_nil. }
  rewrite Ha. destruct (rolloutJob_spec force job r (Hin job (list_elem_of_here _ _)) Hi Hp) as (Hi1 & Hp1 & Hpf1 & _ & [Hfr _] & Ho1 & Hab & Hok & _).
  set (r1 := rolloutJob force job r) in *. clearbody r1. specialize (Hab Ha). rewrite Hpf in Hpf1, Hok.
  destruct (abortDeploy r1) eqn:E1.
  - assert (rolloutJobs force jobs r1 = r1) as -> by (destruct jobs; cbn [DeployRun.rolloutJobs]; [done|by rewrite E1]).
    destruct (Hab eq_refl) as (o & Hjo & Hd & Hs). exists [job], jobs. split_and!; [done| | |congruence|].
    + eapply frame_weaken; [|exact Hfr]. intros a _ ->. by apply list_elem_of_singleton.
    + intros j Hj. apply Ho1. intros ->. apply Hj. by apply list_elem_of_singleton.
    + intros _. by exists [], job, o.
  - destruct (IH (fun j Hj => Hin j (list_elem_of_further _ _ _ Hj)) r1 Hi1 Hp1 Hpf1 E1) as (ran & rest & -> & Hf2 & Ho2 & Hok2 & Hab2).
    exists (job :: ran), rest. split_and!; [done| | | |].
    + eapply frame_trans; [eapply frame_weaken; [|exact Hfr]; intros a _ ->; left|]. eapply frame_weaken; [|exact Hf2]. intros a _ Hx. by right.
    + intros j [Hne Hj]%not_elem_of_cons. by rewrite Ho2, Ho1.
    + intros Hx. destruct (Hok2 Hx) as [-> Hall]. split; [done|]. intros j [->|Hj]%elem_of_cons; [|by apply Hall].
      destruct (decide (job ∈ ran ++ [])) as [Hjr|Hjr]; [by apply Hall|]. rewrite app_nil_r in Hjr. unfold deployedOrSkipped in *. rewrite Ho2 by done.
      destruct (Hok eq_refl) as [Hx'|Hx']; [by apply elem_of_empty in Hx'|done].
    + intros Hx. destruct (Hab2 Hx) as (before & j & o & -> & Hrest). by exists (job :: before), j, o.
Qed.

(** *** All phases *)

Context (force : bool) (workers : list string) (previous : Z).
Notation runPhases := (DeployRun.runPhases md5 databaseError noStore isCanceled asCancelledError c hookRows settings maxConcurrentStops fx rangeOver).

Lemma allJobs_iff outcomes : allJobsDeployedOrSkipped deployable outcomes = true <-> forall j, j ∈ deployable -> deployedOrSkipped outcomes j = true.
Proof. unfold allJobsDeployedOrSkipped. rewrite forallb_forall. split; intros Hf j Hj; apply Hf; by apply list_elem_of_In. Qed.
Lemma noteHealthCancel_nil (l : list (failure E)) : noteHealthCancel isCanceled asCancelledError l = [] -> l = [].
Proof. unfold noteHealthCancel. repeat case_goal; try done. by intros [? _]%app_eq_nil. Qed.
Lemma unlessAborted_quiet f r : (forall r, quiet r (f r)) -> quiet r (unlessAborted f r).
Proof. intros Hf. unfold unlessAborted. case_goal; [apply quiet_refl|apply Hf]. Qed.

(** The phases before the rollout of the jobs. *)
Definition prepared (r : Run) : Run :=
  unlessAborted (reconcilePhase force jobsFilter) (unlessAborted (preHooks deployable) (refreshPlans deployable r)).
Lemma prepared_spec r : tables r = db0 -> jobOutcomes r = ∅ -> prepareFailed r = ∅ -> abortDeploy r = false ->
  let r' := prepared r in
  inv r' /\ only_failed r' /\ generation r' = generation r /\ (abortDeploy r' = false -> plans deployable r')
  /\ (plans_not_cancelled -> deployFailures r' = [] -> abortDeploy r' = false /\ removed_gone (tables r')).
Proof.
  intros Ht Ho Hpf Ha. assert (Hi : inv r).
  { split; rewrite ?Ht, ?Ho, ?Hpf; [apply frame_refl|intros j; unfold deployedOrSkipped; by rewrite lookup_empty|set_solver]. }
  destruct (refreshPlans_spec deployable [] r) as (Hi1 & Ho1 & Hg1 & Hp1 & Hc1); try done.
  { intros j o. by rewrite Ho, lookup_empty. } { intros j Hj. by apply elem_of_nil in Hj. }
  unfold prepared. set (r1 := refreshPlans deployable r) in *. clearbody r1. rewrite Ha in Hp1, Hc1. cbn [app] in Hp1.
  pose proof (unlessAborted_quiet (preHooks deployable) r1 (quiet_preHooks deployable)) as Hq.
  assert (Hab : abortDeploy (unlessAborted (preHooks deployable) r1) = false -> abortDeploy r1 = false).
  { unfold unlessAborted. destruct (abortDeploy r1) eqn:E1; congruence. }
  set (r2 := unlessAborted (preHooks deployable) r1) in *. clearbody r2.
  pose proof (quiet_inv _ _ Hq Hi1) as Hi2. destruct Hq as [Ht2 Ho2 Hpf2 Hg2 (l & Hf2 & Ha2)].
  assert (Hof : only_failed r2) by (intros j o; rewrite Ho2; apply Ho1).
  unfold unlessAborted. destruct (abortDeploy r2) eqn:E2.
  - split_and!; [done|done|congruence|congruence|]. intros Hc Hn. exfalso. destruct (Ha2 eq_refl) as [Hx|Hx].
    + rewrite (Hc1 Hc) in Hx. done.
    + rewrite Hf2 in Hn. by apply app_eq_nil in Hn as [_ ?].
  - assert (Hp2 : plans deployable r2).
    { intros j Hj. rewrite Ht2, Hpf2. apply Hp1; auto. }
    destruct (reconcilePhase_spec force deployable r2 Hi2 Hp2) as (Hi3 & Hp3 & Ho3 & Hg3 & Hn3). split_and!; [done| |congruence|done|].
    + intros j o. rewrite Ho3. apply Hof.
    + intros _ Hn. destruct (Hn3 Hn) as (_ & Hx & Hy). split; [congruence|done].
Qed.

Lemma runPhases_spec r : tables r = db0 -> jobOutcomes r = ∅ -> prepareFailed r = ∅ -> abortDeploy r = false ->
  let r' := runPhases force jobsFilter deployable workers previous r in
  let clean := allJobsDeployedOrSkipped deployable (jobOutcomes r') in
  frame selected db0 (tables r') /\ generation r' = (if clean then generation r else previous)
  /\ (clean = true -> forall j, j ∈ deployable -> JobNeedsRollout (tables r') j = Some false)
  /\ (plans_not_cancelled -> deployFailures r' = [] -> clean = true /\ removed_gone (tables r')).
Proof.
  intros Ht Ho Hpf Ha. unfold DeployRun.runPhases. cbn zeta. fold (prepared r).
  destruct (prepared_spec r Ht Ho Hpf Ha) as (Hi1 & Ho1 & Hg1 & Hp1 & Hc1). set (r1 := prepared r) in *. clearbody r1.
  assert (Hroll : let r2 := rolloutJobs force deployable r1 in inv r2 /\ generation r2 = generation r
    /\ (plans_not_cancelled -> deployFailures r2 = [] ->
          (forall j, j ∈ deployable -> deployedOrSkipped (jobOutcomes r2) j = true) /\ removed_gone (tables r2))).
  { destruct (abortDeploy r1) eqn:E1.
    - assert (rolloutJobs force deployable r1 = r1) as -> by (destruct deployable; cbn [DeployRun.rolloutJobs]; [done|by rewrite E1]).
      split_and!; [done|done|]. intros Hc Hn. by destruct (Hc1 Hc Hn).
    - destruct (rolloutJobs_spec force deployable (fun j Hj => Hj) r1 Hi1 (Hp1 eq_refl)) as (Hi2 & Hg2 & Hgone & _ & Hc2).
      split_and!; [done|congruence|]. intros Hc Hn. destruct (Hc2 E1 Hn) as (Hn1 & _ & Hall). split; [done|].
      apply Hgone. by apply Hc1. }
  set (r2 := rolloutJobs force deployable r1) in *. clearbody r2. destruct Hroll as (Hi2 & Hg2 & Hc2).
  set (cl := allJobsDeployedOrSkipped deployable (jobOutcomes r2)).
  assert (Hq : quiet r2 (unlessAborted (postHooks deployable) (finalSync fx workers cl r2))).
  { eapply quiet_trans; [apply quiet_finalSync|]. apply unlessAborted_quiet, quiet_postHooks. }
  set (r3 := unlessAborted _ _) in *. clearbody r3. pose proof (quiet_inv _ _ Hq Hi2) as Hi3.
  destruct Hq as [Ht3 Ho3 _ Hg3 (l & Hf3 & _)].
  set (r4 := mkRun _ _ _ _ _ _ _). assert (Hr' : forall g, let r' := if cl then r4 else setGeneration g r4 in
    tables r' = tables r3 /\ jobOutcomes r' = jobOutcomes r2 /\ deployFailures r' = deployFailures r4) by (intros g; destruct cl; by rewrite <- Ho3).
  destruct (Hr' previous) as (E1 & E2 & E3). rewrite E1, E2, E3. fold cl. split_and!.
  - apply Hi3.
  - destruct cl; cbn; [congruence|done].
  - intros Hcl j Hj. apply (inv_done _ Hi3). rewrite Ho3. by apply (proj1 (allJobs_iff _) Hcl).
  - cbn. intros Hc Hn%noteHealthCancel_nil. rewrite Hf3 in Hn. apply app_eq_nil in Hn as [Hn _].
    destruct (Hc2 Hc Hn) as [Hall Hg]. split; [by apply allJobs_iff|]. by rewrite Ht3.
Qed.
End run.

(** ** Properties *)

Lemma listDeployableJobs_selected c deploymentOrder db jobsFilter j :
  j ∈ listDeployableJobs c deploymentOrder db (normalizeJobFilter jobsFilter) -> jobInFilter j (normalizeJobFilter jobsFilter) = true.
Proof.
  unfold listDeployableJobs. rewrite selectJobsForDeploy_filter. by intros [_ ?]%elem_of_list_filter_b.
Qed.

Section properties.
Context `{Unicode} {W E : Type} (md5 : string -> list Z) (md5_size : forall s, length (md5 s) = 16%nat).
Context (databaseError noStore : E) (isCanceled asCancelledError : E -> bool).
Context (c : Catalog) (hookRows : list HookRow) (deploymentOrder : string -> Z) (settings : string -> JobSettings E).
Context (maxConcurrentStops : string -> result E Z) (fx : Effects W E).
Context (rangeOver : list string -> list string) (rangeOver_perm : forall l, rangeOver l ≡ₚ l).
Context (force : bool) (jobsFilter : list string) (b : Bucket) (w : W) (Hwf : wf_db (bTables b)).
Notation execute := (DeployRun.execute md5 databaseError noStore isCanceled asCancelledError c hookRows deploymentOrder settings maxConcurrentStops fx rangeOver).
Notation deployable := (listDeployableJobs c deploymentOrder (bTables b) (normalizeJobFilter jobsFilter)).

Lemma execute_spec :
  let '(b', w', fs) := execute force jobsFilter b w in
  frame (selected (normalizeJobFilter jobsFilter)) (bTables b) (bTables b')
  /\ (bGeneration b' = bGeneration b + 1 -> forall j, j ∈ deployable -> JobNeedsRollout (bTables b') j = Some false)
  /\ (bGeneration b' = bGeneration b \/ bGeneration b' = bGeneration b + 1)
  /\ (plans_not_cancelled databaseError isCanceled fx -> fs = [] ->
        bGeneration b' = bGeneration b + 1 /\ removed_gone (bTables b) (normalizeJobFilter jobsFilter) (bTables b')
        /\ exists outcomes, bHistory b' = bHistory b ++ [mkHistory (bGeneration b + 1) Succeeded (normalizeJobFilter jobsFilter) force outcomes]
             /\ outcomes.*1 = deployable /\ forall j o, (j, o) ∈ outcomes -> o = Deployed \/ o = Skipped).
Proof.
  unfold DeployRun.execute. cbn zeta. set (filt := normalizeJobFilter jobsFilter).
  destruct (checkDeployPrerequisites fx _ w) as [w1 [e|]].
  { split_and!; [apply frame_refl|lia|by left|done]. }
  destruct (prepareWorkersFiles fx _ _ _ w1) as [w2 [e|]].
  { split_and!; [apply frame_refl|lia|by left|done]. }
  set (jobs := listDeployableJobs _ _ _ filt). set (r0 := mkRun _ _ _ _ _ _ _).
  destruct (runPhases_spec md5 md5_size databaseError noStore isCanceled asCancelledError c hookRows settings maxConcurrentStops fx rangeOver rangeOver_perm
    (bTables b) Hwf filt jobs (fun j => listDeployableJobs_selected c deploymentOrder (bTables b) jobsFilter j) force (GetWorkers c []) (bGeneration b) r0)
    as (Hf & Hg & Hj & Hc); try done.
  set (r := runPhases _ _ _ _ _ _ _ _ _ _ _ _ _ _ _ _ _) in *. clearbody r. cbn in Hg.
  assert (Hall : frame (selected filt) (bTables b) (tables r)
    /\ (generation r = bGeneration b + 1 -> forall j, j ∈ jobs -> JobNeedsRollout (tables r) j = Some false)
    /\ (generation r = bGeneration b \/ generation r = bGeneration b + 1)
    /\ (plans_not_cancelled databaseError isCanceled fx -> deployFailures r = [] -> generation r = bGeneration b + 1 /\ removed_gone (bTables b) filt (tables r)
      /\ exists outcomes, writeDeployHistory isCanceled filt force jobs r = mkHistory (bGeneration b + 1) Succeeded filt force outcomes
             /\ outcomes.*1 = jobs /\ forall j o, (j, o) ∈ outcomes -> o = Deployed \/ o = Skipped)).
  { split; [done|]. destruct (allJobsDeployedOrSkipped jobs (jobOutcomes r)) eqn:Ea; rewrite Hg;
      (split; [intros Hbump; first [by apply Hj|lia]|]); (split; [lia|]).
    - intros Hn Hnil. destruct (Hc Hn Hnil) as [_ Hgone]. split_and!; [done|done|]. unfold writeDeployHistory. rewrite Hg, Hnil.
      eexists. split_and!; [done|by rewrite <- list_fmap_compose, list_fmap_id|].
      intros j o (j' & [= -> ->] & Hin)%list_elem_of_fmap. apply (proj1 (allJobs_iff jobs _) Ea) in Hin. unfold deployedOrSkipped in Hin.
      destruct (jobOutcomes r !! j') as [[]|]; try done; cbn; auto.
    - intros Hn Hnil. by destruct (Hc Hn Hnil). }
  destruct Hall as (H1 & H2 & H3 & H4). destruct (vacuum fx (world r)) as [w3 [e|]]; cbn.
  - split_and!; try done. by intros _ [_ ?]%app_eq_nil.
  - split_and!; try done. intros Hn Hnil. destruct (H4 Hn Hnil) as (Hg' & Hr' & outcomes & Hw & Hrest). split_and!; [done|done|].
    exists outcomes. by rewrite Hw.
Qed.

(** C6: A run of a deploy touches the hashes of the selected jobs only. *)
Theorem execute_keeps_unselected a :
  a ∈ allocations (bTables b) -> jobInFilter (aJob a) (normalizeJobFilter jobsFilter) = false ->
  allocations (bTables (execute force jobsFilter b w).1.1) = allocations (bTables b)
  /\ allocation_hashes (bTables (execute force jobsFilter b w).1.1) !! aAllocID a = allocation_hashes (bTables b) !! aAllocID a.
Proof.
  intros Ha Hn. pose proof execute_spec as Hs. destruct (execute force jobsFilter b w) as [[b' w'] fs]. destruct Hs as (Hf & _).
  cbn. split; [apply Hf|]. apply (frame_row _ _ _ _ Hf Hwf Ha). unfold selected. by rewrite Hn.
Qed.

(** C2: The generation of the bucket stays or moves on by one, and it moves on only
    if no selected job has anything left to roll out, whatever else failed. *)
Theorem execute_generation :
  let b' := (execute force jobsFilter b w).1.1 in
  bGeneration b' = bGeneration b
  \/ bGeneration b' = bGeneration b + 1 /\ forall j, j ∈ deployable -> JobNeedsRollout (bTables b') j = Some false.
Proof.
  pose proof execute_spec as Hs. destruct (execute force jobsFilter b w) as [[b' w'] fs]. destruct Hs as (_ & Hj & Hg & _).
  cbn. destruct Hg as [Hg|Hg]; [by left|]. right. split; [done|]. by apply Hj.
Qed.

(** C1: A run without an error has moved the generation on, left nothing to roll
    out for the selected jobs and no hash of their removed allocations, and
    recorded every job as deployed or skipped. *)
Theorem execute_clean :
  plans_not_cancelled databaseError isCanceled fx -> (execute force jobsFilter b w).2 = [] ->
  let b' := (execute force jobsFilter b w).1.1 in
  bGeneration b' = bGeneration b + 1
  /\ (forall j, j ∈ deployable -> JobNeedsRollout (bTables b') j = Some false)
  /\ (forall a, a ∈ allocations (bTables b) -> aRemoved a = 1 -> jobInFilter (aJob a) (normalizeJobFilter jobsFilter) = true ->
         allocation_hashes (bTables b') !! aAllocID a = None)
  /\ exists outcomes, bHistory b' = bHistory b ++ [mkHistory (bGeneration b + 1) Succeeded (normalizeJobFilter jobsFilter) force outcomes]
       /\ outcomes.*1 = deployable /\ forall j o, (j, o) ∈ outcomes -> o = Deployed \/ o = Skipped.
Proof.
  intros Hn Hnil. pose proof execute_spec as Hs. destruct (execute force jobsFilter b w) as [[b' w'] fs]. cbn in *.
  destruct Hs as (_ & Hj & _ & Hc). destruct (Hc Hn Hnil) as (Hg & Hr & Ho). split_and!; [done|by apply Hj| |done].
  intros a Ha Hrem Hsel. apply Hr; [done|]. split; [done|]. by rewrite Hrem.
Qed.
End properties.

(** C5: The rollout of the jobs stops at the first job that fails: the jobs that
    ran are an initial segment, each of them deployed or skipped but the last,
    and the hashes of the others are as before. *)
Theorem rolloutJobs_stop `{Unicode} {W E} databaseError isCanceled c hookRows settings (fx : Effects W E) force jobs r :
  wf_db (tables r) -> abortDeploy r = false -> prepareFailed r = ∅ -> (forall j, j ∈ jobs -> planned (tables r) j) ->
  jobOutcomes r = ∅ ->
  let r' := rolloutJobs databaseError isCanceled c hookRows settings fx force jobs r in
  exists ran rest, jobs = ran ++ rest
    /\ frame (fun a => aJob a ∈ ran) (tables r) (tables r')
    /\ (abortDeploy r' = false -> rest = [] /\ forall j, j ∈ jobs -> deployedOrSkipped (jobOutcomes r') j = true)
    /\ (abortDeploy r' = true -> exists before j o, ran = before ++ [j] /\ jobOutcomes r' !! j = Some o /\ o <> Deployed /\ o <> Skipped).
Proof.
  intros Hwf Ha Hpf Hpl Ho.
  assert (Hi : inv (tables r) [] r).
  { split; rewrite ?Ho, ?Hpf; [apply frame_refl|intros j; unfold deployedOrSkipped; by rewrite lookup_empty|set_solver]. }
  destruct (rolloutJobs_prefix databaseError isCanceled c hookRows settings fx (tables r) Hwf [] jobs (fun j _ => eq_refl) force jobs (fun j Hj => Hj) r Hi)
    as (ran & rest & H1 & H2 & _ & H3 & H4); [by intros j Hj _; apply Hpl|done|done|].
  by exists ran, rest.
Qed.

(** ** A run *)

(** Two workers of the catalog and one that left it: the transfer to it fails,
    and so may the stop command of a worker. *)
Definition run_catalog : Catalog :=
  mkCatalog [mkWorkerRow "w1" "10.0.0.1" "0 MB" "0 MHZ" 0; mkWorkerRow "w2" "10.0.0.2" "0 MB" "0 MHZ" 1] [] []
    [mkJobRow "j1" "web" "1.0.0" "" "" "" "" "" "" 0 defaultColumns; mkJobRow "j2" "api" "1.0.0" "" "" "" "" "" "" 0 defaultColumns] [] [].
Definition run_db : DB :=
  mkDB [mkAlloc "a1" "10.0.0.1" "web" 0 0 (Some "1.0.0"); mkAlloc "a2" "10.0.0.2" "web" 1 0 (Some "1.0.0");
        mkAlloc "a3" "10.0.0.1" "api" 0 0 (Some "1.0.0"); mkAlloc "a9" "10.0.0.9" "api" 0 1 (Some "1.0.0")]
    {[ "a9" := mkHash (Some "h") (Some "h") (Some "1.0.0") ]} ∅.
Definition run_fx (stopFails : bool) : Effects nat string := {|
  sessionStore := fun _ => Some NewStore;
  setSessionStore := fun _ n => n;
  persistKV := fun _ n => (n, None);
  jobDir := fun job ip => "tmp/workers/" +:+ ip +:+ "/jobs/" +:+ job;
  staged := fun _ job _ => {[ "run.sh" := "exec " +:+ job ]};
  prepareWorkersFiles := fun _ _ _ n => (n, None);
  prepareJobsFiles := fun _ _ n => (n, None);
  checkDeployPrerequisites := fun _ n => (n, None);
  DeployHealthCheck := fun _ _ n => (n, None);
  runWorkers := fun _ _ ips _ n => ((n + length ips)%nat, None);
  syncWorkerFiles := fun _ ip _ n => (S n, if String.eqb ip "10.0.0.9" then Some "no route to host" else None);
  RunHookOnWorkers := fun _ _ _ ips _ _ _ n => ((n + length ips)%nat, None);
  executeAfterAllocation := fun _ _ _ _ n => (n, None);
  stopWorkers := fun _ ips _ n => (n, if stopFails then Some "exit status 1" else None);
  executeAfterAllocationStopped := fun _ _ _ _ n => (n, None);
  removeJobDeployArtifacts := fun _ _ _ _ n => (n, None);
  removeWorkerBucket := fun _ _ n => (n, None);
  syncWorkersMetadata := fun _ _ _ n => (n, None);
  vacuum := fun n => (n, None);
|}.
Definition run_settings (_ : string) : JobSettings string := mkSettings (Ok 1) (Ok 1) (Ok 4) (Ok (mkPolicy "always" [] [])).
Definition run_example (hookRows : list HookRow) (stopFails : bool) (c : Catalog) (db : DB) : Bucket * nat * list (failure string) :=
  execute (H := ascii_unicode) toy_md5 "database" "no store" (fun _ => false) (fun _ => false) c hookRows
    (fun j => if String.eqb j "web" then 0 else 1) run_settings (fun _ => Ok 1) (run_fx stopFails) (fun l => l) false [] (mkBucket db 7 []) 0%nat.

Lemma run_db_wf : wf_db run_db.
Proof. split; apply (bool_decide_eq_true_1 _); vm_compute; reflexivity. Qed.
Lemma id_perm (l : list string) : l ≡ₚ l.
Proof. done. Qed.

Lemma execute_clean_witness :
  (run_example [] false run_catalog run_db).2 = [] /\
  let b' := (run_example [] false run_catalog run_db).1.1 in
  bGeneration b' = 8
  /\ (forall j, j ∈ ["web"; "api"] -> JobNeedsRollout (bTables b') j = Some false)
  /\ (forall a, a ∈ allocations run_db -> aRemoved a = 1 -> true = true -> allocation_hashes (bTables b') !! aAllocID a = None)
  /\ exists outcomes, bHistory b' = [] ++ [mkHistory 8 Succeeded [] false outcomes]
       /\ outcomes.*1 = ["web"; "api"] /\ forall j o, (j, o) ∈ outcomes -> o = Deployed \/ o = Skipped.
Proof.
  split; [vm_compute; reflexivity|].
  assert (Hd : ["web"; "api"] = listDeployableJobs run_catalog (fun j => if String.eqb j "web" then 0 else 1) run_db (normalizeJobFilter []))
    by (vm_compute; reflexivity).
  rewrite Hd.
  apply (execute_clean (H := ascii_unicode) toy_md5 (proj2 toy_md5_ok) "database" "no store" (fun _ => false) (fun _ => false) run_catalog []
    (fun j => if String.eqb j "web" then 0 else 1) run_settings (fun _ => Ok 1) (run_fx false) (fun l => l) id_perm false [] (mkBucket run_db 7 []) 0%nat run_db_wf).
  - split; [reflexivity|]. intros job db w w' e. discriminate.
  - vm_compute. reflexivity.
Defined.

Lemma execute_generation_witness :
  let b' := (run_example [] true run_catalog run_db).1.1 in
  bGeneration b' = 7 \/ bGeneration b' = 8 /\ forall j, j ∈ listDeployableJobs run_catalog (fun j => if String.eqb j "web" then 0 else 1) run_db (normalizeJobFilter []) ->
    JobNeedsRollout (bTables b') j = Some false.
Proof.
  apply (execute_generation (H := ascii_unicode) toy_md5 (proj2 toy_md5_ok) "database" "no store" (fun _ => false) (fun _ => false) run_catalog []
    (fun j => if String.eqb j "web" then 0 else 1) run_settings (fun _ => Ok 1) (run_fx true) (fun l => l) id_perm false [] (mkBucket run_db 7 []) 0%nat run_db_wf).
Defined.

(** The rollout of a job by its own hooks visits removed allocations too: with
    such a hook the deploy fails on the worker that left the catalog. *)
Theorem job_control_visits_removed_workers :
  (run_example [] false run_catalog run_db).2 = []
  /\ (run_example [mkHookRow "api" "roll" "job_control"] false run_catalog run_db).2 = [JobError "api" "no route to host"].
Proof. split; vm_compute; reflexivity. Qed.

(** When no job is deployable, a failed reconciliation keeps the new
    generation. *)
Theorem failed_reconcile_keeps_generation :
  let db := mkDB [mkAlloc "a1" "10.0.0.1" "web" 0 1 (Some "1.0.0")] {[ "a1" := mkHash (Some "h") (Some "h") (Some "1.0.0") ]} ∅ in
  let r := run_example [] true run_catalog db in
  r.2 = [Plain "exit status 1"] /\ bGeneration r.1.1 = 8.
Proof. split; vm_compute; reflexivity. Qed.

Lemma execute_keeps_unselected_witness :
  let b' := (execute (H := ascii_unicode) toy_md5 "database" "no store" (fun _ => false) (fun _ => false) run_catalog []
    (fun _ => 0) run_settings (fun _ => Ok 1) (run_fx false) (fun l => l) false ["web"; "web"] (mkBucket run_db 7 []) 0%nat).1.1 in
  allocations (bTables b') = allocations run_db /\ allocation_hashes (bTables b') !! "a9" = allocation_hashes run_db !! "a9".
Proof.
  apply (execute_keeps_unselected (H := ascii_unicode) toy_md5 (proj2 toy_md5_ok) "database" "no store" (fun _ => false) (fun _ => false) run_catalog []
    (fun _ => 0) run_settings (fun _ => Ok 1) (run_fx false) (fun l => l) id_perm false ["web"; "web"] (mkBucket run_db 7 []) 0%nat run_db_wf
    (mkAlloc "a9" "10.0.0.9" "api" 0 1 (Some "1.0.0"))).
  - cbn. rewrite !elem_of_cons. auto.
  - vm_compute. reflexivity.
Defined.

Definition planned_run : Run nat string :=
  let h := mkHash (Some "h2") (Some "h1") (Some "1.0.0") in
  mkRun (mkDB (allocations run_db) (<["a1" := h]> (<["a2" := h]> (<["a3" := h]> ∅))) ∅) 0%nat 8 ∅ ∅ [] false.
Lemma rolloutJobs_stop_witness :
  let r' := rolloutJobs (H := ascii_unicode) "database" (fun _ => false) run_catalog [mkHookRow "api" "roll" "job_control"] run_settings (run_fx false)
              false ["api"; "web"] planned_run in
  abortDeploy r' = true /\
  exists ran rest, ["api"; "web"] = ran ++ rest
    /\ frame (fun a => aJob a ∈ ran) (tables planned_run) (tables r')
    /\ (abortDeploy r' = false -> rest = [] /\ forall j, j ∈ ["api"; "web"] -> deployedOrSkipped (jobOutcomes r') j = true)
    /\ (abortDeploy r' = true -> exists before j o, ran = before ++ [j] /\ jobOutcomes r' !! j = Some o /\ o <> Deployed /\ o <> Skipped).
Proof.
  split; [vm_compute; reflexivity|].
  apply (rolloutJobs_stop (H := ascii_unicode) "database" (fun _ => false) run_catalog [mkHookRow "api" "roll" "job_control"] run_settings (run_fx false)
    false ["api"; "web"] planned_run run_db_wf eq_refl eq_refl).
  - intros j Hj a Ha _ Hr. cbn in Ha. rewrite !elem_of_cons, elem_of_nil in Ha.
    destruct Ha as [->|[->|[->|[->|[]]]]]; [eexists _, "h2"; split; vm_compute; reflexivity..|done].
  - reflexivity.
Defined.
