(* ===== verification/BucketConf.v ===== *)
(** * bucket: bucket.conf, bucket.jobs.conf, vars.conf and observe.conf

    bucket/bucket_conf.go, bucket/jobs_conf_block.go, bucket/observe_conf.go,
    the resolved settings of bucket/config.go, and the two loaders of
    build/build_variables.go. The text of a file is an argument, [None] when
    the file does not exist; other errors of reading a file are left out, and
    so are hints. *)
From S2P Require Import Prelude GoStrings ConfSyntax ConfEmit ConfHelpers ConfLexer ConfParser ConfRoundtrip ConfLower Ports KiveConf KiveConfFacts.
Open Scope Z_scope.

(** ** bucket.conf *)

(** A value of [map[string]any]; of a [float64] the code only reads its
    conversion to an integer, which the parser stores with the number. *)
Inductive RawValue := RawString (s : string) | RawInt (n : Z) | RawFloat (n : Z) | RawBool (b : bool).
Notation Raw := (gmap string RawValue).

Inductive bucket_error :=
| InvalidBucketConf (f : failure)
| InvalidKiveConf (f : failure)
| MustBeInteger (key : string)
| MustBeBool (key : string)
| MustNotBeNegative (key : string)
| InvalidProfile (profile : string).

Definition portRangeKey : string := "port_range".
Definition reservedBucketVarKeys : list string :=
  ["certs_ttl"; "certs_renewal_buffer"; "iptables"; "jobs_profile"; "job_config_selector"; "kv_retain_days"; portRangeKey].

Definition rawValue (confPath : string) (v : Value) : result Error RawValue :=
  match v with
  | StringLit s _ => Ok (RawString s)
  | NumberLit _ n is_float _ => Ok (if is_float then RawFloat n else RawInt n)
  | BoolLit b _ => Ok (RawBool b)
  | IdentLit n _ => Ok (RawString n)
  | CallValue _ => let? s := AsString v confPath in Ok (RawString s)
  end.
Definition rawStep (confPath : string) (raw : Raw) (stmt : Stmt) : result Error Raw :=
  match stmt with
  | SBlock _ _ _ p => Err (Err_at confPath p (BodyOnlyAllows "bucket.conf"))
  | SCall call =>
      if CallName call =s portRangeKey then
        let? s := parsePortRangeCall confPath call "" in Ok (<[portRangeKey := RawString s]> raw)
      else
        match CallArgs call with
        | [v] => let? r := rawValue confPath v in Ok (<[CallName call := r]> raw)
        | _ => Err (Err_at confPath (CallPos call) (ExpectsOneValue (CallName call)))
        end
  end.

Section bucket_conf.
Context `{Unicode} `{FloatText}.

Definition loadBucketConfRaw (confPath : string) (data : option string) : result bucket_error Raw :=
  match data with
  | None => Ok ∅
  | Some text =>
      match Parse confPath text with
      | Err e => Err (InvalidBucketConf e)
      | Ok f => match loop (rawStep confPath) ∅ (Stmts f) with Err e => Err (InvalidBucketConf (Diag e)) | Ok raw => Ok raw end
      end
  end.

Definition bucketConfStringValue (v : RawValue) : string :=
  match v with
  | RawString s => s
  | RawInt n | RawFloat n => Itoa n
  | RawBool b => if b then "true" else "false"
  end.
Definition bucketConfIntValue (key : string) (v : RawValue) : result bucket_error Z :=
  match v with
  | RawInt n | RawFloat n => Ok n
  | RawString s => match Atoi (TrimSpace s) with Some n => Ok n | None => Err (MustBeInteger key) end
  | RawBool _ => Err (MustBeInteger key)
  end.
Definition bucketConfBoolValue (key : string) (v : RawValue) : result bucket_error bool :=
  match v with
  | RawBool b => Ok b
  | RawString s =>
      let s := TrimSpace (ToLower s) in
      if mem s ["true"; "1"; "yes"] then Ok true
      else if mem s ["false"; "0"; "no"; ""] then Ok false
      else Err (MustBeBool key)
  | _ => Err (MustBeBool key)
  end.

Definition LoadBucketConfVars (confPath : string) (data : option string) : result bucket_error (gmap string string) :=
  let? raw := loadBucketConfRaw confPath data in
  Ok (bucketConfStringValue <$> filter (fun kv : string * RawValue => kv.1 ∉ reservedBucketVarKeys) raw).

(** ** Operational settings *)

Record BucketSettings := mkBucketSettings {
  bsCertsTTL : Z;
  bsCertsRenewalBuffer : Z;
  bsIptables : bool;
  bsJobsProfile : string;
  bsKVRetainDays : Z;
}.
Definition DefaultKVRetainDays : Z := 7.

(** [if v, ok := raw[key]; ok] around the reading of a value. *)
Definition setting {A} (raw : Raw) (key : string) (read : RawValue -> result bucket_error A) (default_ : A) : result bucket_error A :=
  match raw !! key with Some v => read v | None => Ok default_ end.
Definition not_negative (key : string) (n : Z) : result bucket_error Z := if n <? 0 then Err (MustNotBeNegative key) else Ok n.
Definition profileValue (v : RawValue) : result bucket_error string :=
  match SanitizeJobsProfile (bucketConfStringValue v) with
  | Some p => Ok p
  | None => Err (InvalidProfile (bucketConfStringValue v))
  end.
Definition parseBucketSettings (raw : Raw) : result bucket_error BucketSettings :=
  let? ttl := setting raw "certs_ttl"
    (fun v => let? n := bucketConfIntValue "certs_ttl" v in Ok (if n =? 0 then defaultCertsTTL else n)) defaultCertsTTL in
  let? buffer := setting raw "certs_renewal_buffer"
    (fun v => let? n := bucketConfIntValue "certs_renewal_buffer" v in not_negative "certs_renewal_buffer" n) defaultCertsRenewalBuffer in
  let? iptables := setting raw "iptables" (bucketConfBoolValue "iptables") false in
  let? profile :=
    match raw !! "jobs_profile", raw !! "job_config_selector" with
    | Some v, _ => profileValue v
    | None, Some v => profileValue v
    | None, None => Ok ""
    end in
  let? days := setting raw "kv_retain_days"
    (fun v => let? n := bucketConfIntValue "kv_retain_days" v in not_negative "kv_retain_days" n) DefaultKVRetainDays in
  Ok (mkBucketSettings ttl buffer iptables profile days).

(** What kive.conf says of the settings it also knows. *)
Definition overrideSettings (kc : KiveConf) (present : gset string) (s : BucketSettings) : result bucket_error BucketSettings :=
  let? ttl := if bool_decide ("certs_ttl" ∈ present) then
                not_negative "certs_ttl" (if CertsTTL kc =? 0 then defaultCertsTTL else CertsTTL kc)
              else Ok (bsCertsTTL s) in
  let? buffer := if bool_decide ("certs_renewal_buffer" ∈ present) then not_negative "certs_renewal_buffer" (CertsRenewalBuffer kc)
                 else Ok (bsCertsRenewalBuffer s) in
  Ok (mkBucketSettings ttl buffer
        (if bool_decide ("iptables" ∈ present) then Iptables kc else bsIptables s)
        (if bool_decide ("jobs_profile" ∈ present) then JobsProfile kc else bsJobsProfile s)
        (bsKVRetainDays s)).
Definition LoadBucketSettingsAt (bucketConfPath kiveConfPath : string) (bucketData kiveData : option string) : result bucket_error BucketSettings :=
  let? raw := loadBucketConfRaw bucketConfPath bucketData in
  let? s := parseBucketSettings raw in
  match kiveData with
  | None => Ok s
  | Some text =>
      match ParseKiveConf kiveConfPath text with
      | Err e => Err (InvalidKiveConf e)
      | Ok (kc, present) => overrideSettings kc present s
      end
  end.
(** ** The port range (port_range.go) *)

Inductive port_range_error := RangeKive (e : load_error) | RangeBucket (e : bucket_error) | RangeInvalid (e : range_error).
Definition defaultPortRange : string := "30000,39999".
Definition ApplyPortRangeDefaults (settings : gmap string string) : gmap string string :=
  if TrimSpace (default "" (settings !! portRangeKey)) =s "" then <[portRangeKey := defaultPortRange]> settings else settings.
Definition resolvePortRangeRaw (LoadLocation : string -> option Calendar.Location) (kiveConfPath bucketConfPath : string)
    (kiveData bucketData : option string) : result port_range_error string :=
  match loadKiveConfFromDisk LoadLocation kiveConfPath kiveData with
  | Err e => Err (RangeKive e)
  | Ok conf =>
      let s := TrimSpace (kPortRange conf) in
      if negb (s =s "") then Ok s
      else
        match loadBucketConfRaw bucketConfPath bucketData with
        | Err e => Err (RangeBucket e)
        | Ok bucketRaw =>
            match bucketRaw !! portRangeKey with
            | Some v =>
                let s := TrimSpace (bucketConfStringValue v) in
                Ok (if negb (s =s "") then s else defaultPortRange)
            | None => Ok defaultPortRange
            end
        end
  end.
Definition LoadPortRange (LoadLocation : string -> option Calendar.Location) (kiveConfPath bucketConfPath : string)
    (kiveData bucketData : option string) : result port_range_error PortRange :=
  let? raw := resolvePortRangeRaw LoadLocation kiveConfPath bucketConfPath kiveData bucketData in
  match ParsePortRangeValue raw with Ok r => Ok r | Err e => Err (RangeInvalid e) end.
(** What a new bucket starts with. *)
Definition DefaultBucketConf : string := "kv_retain_days(" +:+ Itoa DefaultKVRetainDays +:+ ")" +:+ String "010"%char "".
Definition DefaultBucketJobsConf : string := "".

Definition KVRetainDaysFromConfigAt (bucketConfPath kiveConfPath : string) (bucketData kiveData : option string) : result bucket_error Z :=
  let? settings := LoadBucketSettingsAt bucketConfPath kiveConfPath bucketData kiveData in
  Ok (bsKVRetainDays settings).

(** ** bucket.jobs.conf and vars.conf *)

(** Numbers and booleans are read as strings, too. *)
Definition settingText (filePath : string) (v : Value) : result Error string :=
  match v with
  | NumberLit text _ _ _ => Ok text
  | BoolLit b _ => Ok (if b then "true" else "false")
  | _ => AsString v filePath
  end.
Definition settingStep (filePath where_ : string) (settings : gmap string string) (stmt : Stmt) : result Error (gmap string string) :=
  match stmt with
  | SBlock _ _ _ p => Err (Err_at filePath p (BodyOnlyAllows where_))
  | SCall c =>
      match CallArgs c with
      | [v] => let? s := settingText filePath v in Ok (<[CallName c := s]> settings)
      | _ => Err (Err_at filePath (CallPos c) (ExpectsOneValue (CallName c)))
      end
  end.
Definition jobsStep (filePath : string) (out : gmap string (gmap string string)) (stmt : Stmt) : result Error (gmap string (gmap string string)) :=
  match stmt with
  | SBlock name id body p =>
      if negb (name =s "job") then Err (Err_at filePath p (ExpectedBlocks "job"))
      else if id =s "" then Err (Err_at filePath p JobNameRequired)
      else let? settings := loop (settingStep filePath "job") ∅ body in Ok (<[id := settings]> out)
  | SCall c => Err (Err_at filePath (CallPos c) (ExpectedBlocks "job"))
  end.
Definition parse_with {A} (step : A -> Stmt -> result Error A) (init : A) (filePath data : string) : result failure A :=
  match Parse filePath data with
  | Err e => Err e
  | Ok f => match loop step init (Stmts f) with Err e => Err (Diag e) | Ok a => Ok a end
  end.
Definition ParseBucketJobsConf (filePath data : string) : result failure (gmap string (gmap string string)) :=
  parse_with (jobsStep filePath) ∅ filePath data.
Definition ParseVarsConf (filePath data : string) : result failure (gmap string string) :=
  parse_with (settingStep filePath "vars.conf") ∅ filePath data.

(** The files of workspace/ by their name, and jobs/<job>/vars.conf. *)
Context (WorkspaceLocation : string) (workspaceFile : string -> option string) (varsFile : string -> option string).
(** The profile of the settings names a file next to bucket.jobs.conf; the
    check that the joined path stays in workspace/ is left out, since a
    sanitized profile is a single component. *)
Definition loadJobBucketConfig (settings : BucketSettings) (jobName : string) : result bucket_error (string * gmap string string) :=
  let profile := TrimSpace (bsJobsProfile settings) in
  let? configFileName :=
    if profile =s "" then Ok "bucket.jobs.conf"%string
    else match SanitizeJobsProfile profile with
         | None => Err (InvalidProfile profile)
         | Some profile => Ok (JobsProfileFileName profile)
         end in
  match workspaceFile configFileName with
  | None => Ok (configFileName, ∅)
  | Some text =>
      match ParseBucketJobsConf (WorkspaceLocation +:+ "/" +:+ configFileName) text with
      | Err e => Err (InvalidBucketConf e)
      | Ok allJobSettings => Ok (configFileName, default ∅ (allJobSettings !! jobName))
      end
  end.
Definition loadWorkspaceJobVars (jobName : string) : result failure (gmap string string) :=
  match varsFile jobName with
  | None => Ok ∅
  | Some text => ParseVarsConf (WorkspaceLocation +:+ "/jobs/" +:+ jobName +:+ "/vars.conf") text
  end.
End bucket_conf.

(** ** Emission *)

(** The exchange sort of [sortStrings]: [x] is [s[i]], which is exchanged
    with every smaller element behind it. *)
Fixpoint sweep (x : string) (rest : list string) : string * list string :=
  match rest with
  | [] => (x, [])
  | y :: rest =>
      if negb (bool_decide (String.le x y)) then let (m, rest) := sweep y rest in (m, x :: rest)
      else let (m, rest) := sweep x rest in (m, y :: rest)
  end.
Fixpoint sortLoop (n : nat) (s : list string) : list string :=
  match n, s with
  | S n, x :: rest => let (m, rest) := sweep x rest in m :: sortLoop n rest
  | _, _ => s
  end.
Definition sortStrings (s : list string) : list string := sortLoop (length s) s.

Definition emitRaw (raw : gmap string string) (k : string) : list Stmt :=
  match raw !! k with
  | None => []
  | Some v =>
      match (if k =s portRangeKey then emitPortRangeStmt v else []) with
      | [] => [SCall (CallStmt k [v])]
      | stmts => stmts
      end
  end.
Definition rawFile (raw : gmap string string) : File := mkFile "" 0 (flat_map (emitRaw raw) (sortStrings (map_to_list raw).*1)).
Definition EmitBucketConfRaw (raw : gmap string string) : string := Emit (rawFile raw) (mkEmitOptions "").
Definition EmitVarsConf (vars : gmap string string) : string := EmitBucketConfRaw vars.

Definition emitSetting (settings : gmap string string) (k : string) : list Stmt :=
  match settings !! k with Some v => [SCall (CallStmt k [v])] | None => [] end.
Definition emitJobSettings (jobs : gmap string (gmap string string)) (name : string) : list Stmt :=
  match jobs !! name with
  | Some settings => [Block "job" name (flat_map (emitSetting settings) (sortedKeys settings))]
  | None => []
  end.
Definition jobsFile (jobs : gmap string (gmap string string)) : File := mkFile "" 0 (flat_map (emitJobSettings jobs) (sortedKeys jobs)).
Definition EmitBucketJobsConf (jobs : gmap string (gmap string string)) : string := Emit (jobsFile jobs) (mkEmitOptions "").

(** ** observe.conf *)

(** A value with its [Has] flag. *)
Record ObserveConf := mkObserve {
  ClickHouseDSN : option string;
  PrometheusURL : option string;
  PrometheusTLSSkipVerify : option bool;
}.

Section observe.
Context `{Unicode} (filePath : string).
Definition clickhouseStep (cfg : ObserveConf) (stmt : Stmt) : result Error ObserveConf :=
  match stmt with
  | SBlock _ _ _ p => Err (Err_at filePath p (BodyOnlyAllows "clickhouse"))
  | SCall c =>
      if negb (CallName c =s "dsn") then Err (UnknownSetting filePath (CallPos c) (CallName c) ["dsn"]).1
      else string_field filePath c (fun s => mkObserve (Some s) (PrometheusURL cfg) (PrometheusTLSSkipVerify cfg))
  end.
Definition prometheusStep (cfg : ObserveConf) (stmt : Stmt) : result Error ObserveConf :=
  match stmt with
  | SBlock _ _ _ p => Err (Err_at filePath p (BodyOnlyAllows "prometheus"))
  | SCall c =>
      if CallName c =s "url" then string_field filePath c (fun s => mkObserve (ClickHouseDSN cfg) (Some s) (PrometheusTLSSkipVerify cfg))
      else if CallName c =s "tls_skip_verify" then bool_field filePath c (fun v => mkObserve (ClickHouseDSN cfg) (PrometheusURL cfg) (Some v))
      else Err (UnknownSetting filePath (CallPos c) (CallName c) ["url"; "tls_skip_verify"]).1
  end.
Definition observeStep (cfg : ObserveConf) (stmt : Stmt) : result Error ObserveConf :=
  match stmt with
  | SCall c => Err (Err_at filePath (CallPos c) (BodyOnlyAllows "observe"))
  | SBlock name _ body p =>
      if name =s "clickhouse" then loop clickhouseStep cfg body
      else if name =s "prometheus" then loop prometheusStep cfg body
      else Err (Err_at filePath p (UnexpectedBlock name "observe"))
  end.
Definition lowerObserve (stmts : list Stmt) : result Error ObserveConf :=
  match stmts with
  | [SBlock name _ body p] =>
      if negb (name =s "observe") then Err (Err_at filePath p (ExpectedBlocks "observe"))
      else loop observeStep (mkObserve None None None) body
  | [] => Err (Err_at filePath (mkPos 1 1) (ExpectedBlocks "observe"))
  | s :: _ => Err (Err_at filePath (StmtPos s) (ExpectedBlocks "observe"))
  end.
End observe.
Definition ParseObserveConf `{Unicode} `{FloatText} (filePath data : string) : result failure ObserveConf :=
  match Parse filePath data with
  | Err e => Err e
  | Ok f => match lowerObserve filePath (Stmts f) with Err e => Err (Diag e) | Ok cfg => Ok cfg end
  end.
Definition emitString (name : string) (v : option string) : list Stmt :=
  match v with Some s => [SCall (CallStmt name [s])] | None => [] end.
Definition emitBool (name : string) (v : option bool) : list Stmt :=
  match v with Some b => [SCall (CallStmtBool name b)] | None => [] end.
Definition observeBody (cfg : ObserveConf) : list Stmt :=
  (match ClickHouseDSN cfg with Some s => [Block "clickhouse" "" [SCall (CallStmt "dsn" [s])]] | None => [] end)
  ++ unless_empty "prometheus" (emitString "url" (PrometheusURL cfg) ++ emitBool "tls_skip_verify" (PrometheusTLSSkipVerify cfg)).
Definition observeFile (cfg : ObserveConf) : File := mkFile "" 0 [Block "observe" "" (observeBody cfg)].
Definition EmitObserveConf (cfg : ObserveConf) : string := Emit (observeFile cfg) (mkEmitOptions "").
(** The second component is whether the file is there. *)
Definition LoadObserveConfOptional `{Unicode} `{FloatText} (path : string) (data : option string) : result failure (ObserveConf * bool) :=
  match data with
  | None => Ok (mkObserve None None None, false)
  | Some raw => let? cfg := ParseObserveConf path raw in Ok (cfg, true)
  end.

(** ** Resolved settings of kive.conf (config.go) *)

Section getters.
Context `{Unicode} `{FloatText} (LoadLocation : string -> option Calendar.Location) (confPath : string) (data : option string).
Definition GetKiveConf : result load_error KiveConf := loadKiveConfFromDisk LoadLocation confPath data.
Definition KiveConfExists : bool := bool_decide (is_Some data).
Definition fromConfig {A} (default_ : A) (read : KiveConf -> A) : result load_error A :=
  let? conf := GetKiveConf in Ok (if KiveConfExists then read conf else default_).
Definition BackupRetentionCountFromConfig : result load_error Z := fromConfig DefaultBackupRetentionCount BackupRetentionCount.
Definition HealthWaitSecondsFromConfig : result load_error Z := fromConfig DefaultHealthWaitSeconds HealthWaitSeconds.
Definition HealthPollIntervalSecondsFromConfig : result load_error Z :=
  fromConfig DefaultHealthPollIntervalSeconds HealthPollIntervalSeconds.
Definition TimezoneFromConfig : result load_error string := fromConfig DefaultTimezone (fun c => ResolveTimezone (kTimezone c)).
(** Without the test whether the file exists. *)
Definition HealthPollIntervalSecondsAt : result load_error Z := let? conf := GetKiveConf in Ok (HealthPollIntervalSeconds conf).
Definition TimezoneAt : result load_error string := let? conf := GetKiveConf in Ok (ResolveTimezone (kTimezone conf)).
(** Count, days and whether the cleanup is off. *)
Definition LogRunRetentionFromConfig : result load_error (Z * Z * bool) :=
  fromConfig (DefaultLogRunRetentionCount, DefaultLogRunRetentionDays, false)
    (fun c => if (LogRunRetentionCount c =? 0) && (LogRunRetentionDays c =? 0) then (0, 0, true)
              else (LogRunRetentionCount c, LogRunRetentionDays c, false)).
Definition SSHPortOf : result load_error Z := let? conf := GetKiveConf in Ok (if SSHPort conf <=? 0 then 22 else SSHPort conf).
End getters.
Definition PromotionFeature (c : KiveConf) : bool := Promotion c.
Definition ObserveFeature (c : KiveConf) : bool := default true (Observe c).

(** ** bucket.conf, bucket.jobs.conf, vars.conf and observe.conf: round trips and accepted settings *)

(** ** The exchange sort *)

Lemma le_total_strict x y : ~ String.le x y -> String.le y x.
Proof. intros Hn. by destruct (total String.le x y). Qed.
Lemma sweep_spec rest : forall x m rest', sweep x rest = (m, rest') ->
  m :: rest' ≡ₚ x :: rest /\ String.le m x /\ Forall (String.le m) rest'.
Proof.
  induction rest as [|y rest IH]; intros x m rest' E; cbn in E; [by injection E as <- <-|].
  destruct (bool_decide (String.le x y)) eqn:Hle; bool_to_prop; cbn [negb] in E.
  - destruct (sweep x rest) as [m' r'] eqn:Es. injection E as <- <-. destruct (IH _ _ _ Es) as (Hp & Hm & Hf). split_and!; [|done|].
    + rewrite perm_swap, Hp. by rewrite perm_swap.
    + constructor; [by transitivity x|done].
  - destruct (sweep y rest) as [m' r'] eqn:Es. injection E as <- <-. destruct (IH _ _ _ Es) as (Hp & Hm & Hf).
    pose proof (le_total_strict _ _ Hle) as Hyx. split_and!.
    + rewrite perm_swap, Hp. done.
    + by transitivity y.
    + constructor; [by transitivity y|done].
Qed.
Lemma sortLoop_spec n : forall s, (length s <= n)%nat -> sortLoop n s ≡ₚ s /\ StronglySorted String.le (sortLoop n s).
Proof.
  induction n as [|n IH]; intros [|x rest] Hn; cbn in *; try (split; [done|by constructor]).
  { by destruct (Nat.nle_succ_0 _ Hn). }
  destruct (sweep x rest) as [m rest'] eqn:Es. destruct (sweep_spec _ _ _ _ Es) as (Hp & Hm & Hf).
  assert (Hl : length rest' = length rest) by (apply Permutation_length in Hp; cbn in Hp; lia).
  destruct (IH rest') as [Hp' Hs]; [lia|]. split; [by rewrite Hp'|]. constructor; [done|]. by rewrite Hp'.
Qed.
Theorem sortStrings_merge_sort s : sortStrings s = merge_sort String.le s.
Proof.
  destruct (sortLoop_spec (length s) s (le_n _)) as [Hp Hs].
  apply (StronglySorted_unique String.le); [done|apply StronglySorted_merge_sort; apply _|].
  unfold sortStrings. rewrite Hp. symmetry. apply merge_sort_Permutation.
Qed.
Lemma rawFile_eq raw : rawFile raw = mkFile "" 0 (flat_map (emitRaw raw) (sortedKeys raw)).
Proof. unfold rawFile. by rewrite sortStrings_merge_sort. Qed.

Section facts.
Context `{Unicode}.

(** ** vars.conf and bucket.jobs.conf *)

Lemma setting_reads path where_ acc k v : reads (settingStep path where_) acc [SCall (CallStmt k [v])] (<[k:=v]> acc).
Proof.
  apply reads_call. intros args p t (v' & -> & Hv)%same_value. destruct v' as [| | | |[]]; cbn in Hv; try done. by injection Hv as ->.
Qed.
Lemma settings_read path where_ vars : reads (settingStep path where_) ∅ (flat_map (emitSetting vars) (sortedKeys vars)) vars.
Proof. apply (reads_keys _ _ (fun t => t)). intros k v acc Hk _. unfold emitSetting. rewrite Hk. apply setting_reads. Qed.

Lemma parse_with_emitted `{FloatText} {A} (step : A -> Stmt -> result Error A) init f a fp :
  reads step init (Stmts f) a -> file_ok f = true -> slen (Emit f (mkEmitOptions "")) <= MaxSourceBytes ->
  parse_with step init fp (Emit f (mkEmitOptions "")) = Ok a.
Proof.
  intros Hr Hf Hl. destruct (Parse_Emit fp f (mkEmitOptions "") Hf eq_refl Hl) as (f' & Hp & _ & _ & Hs).
  unfold parse_with. rewrite Hp. by rewrite (Hr _ Hs).
Qed.

(** A variable named [port_range] whose value is a range is written with two
    arguments, which vars.conf does not allow. *)
Definition vars_ok (vars : gmap string string) : Prop := forall v, vars !! portRangeKey = Some v -> is_ok (ParsePortRangeValue v) = false.

(** What is written to vars.conf is read back. *)
Theorem ParseVarsConf_EmitVarsConf `{FloatText} fp vars :
  vars_ok vars -> file_ok (rawFile vars) = true -> slen (EmitVarsConf vars) <= MaxSourceBytes -> ParseVarsConf fp (EmitVarsConf vars) = Ok vars.
Proof.
  intros Hv Hf Hl. unfold ParseVarsConf, EmitVarsConf, EmitBucketConfRaw in *. apply parse_with_emitted; [|exact Hf|exact Hl]. rewrite rawFile_eq. cbn [Stmts].
  apply (reads_keys _ _ (fun t => t)). intros k v acc Hk _. unfold emitRaw. rewrite Hk.
  destruct (String.eqb_spec k portRangeKey) as [->|Hn]; [|apply setting_reads].
  pose proof (Hv v Hk) as Hv'. unfold emitPortRangeStmt. destruct (ParsePortRangeValue v); [done|]. apply setting_reads.
Qed.

(** What is written to bucket.jobs.conf is read back. *)
Theorem ParseBucketJobsConf_EmitBucketJobsConf `{FloatText} fp jobs :
  jobs !! "" = None -> file_ok (jobsFile jobs) = true -> slen (EmitBucketJobsConf jobs) <= MaxSourceBytes ->
  ParseBucketJobsConf fp (EmitBucketJobsConf jobs) = Ok jobs.
Proof.
  intros Hn Hf Hl. unfold ParseBucketJobsConf, EmitBucketJobsConf in *. apply parse_with_emitted; [|exact Hf|exact Hl]. cbn [Stmts jobsFile].
  apply (reads_keys _ _ (fun t => t)). intros k settings acc Hk _. unfold emitJobSettings. rewrite Hk.
  apply reads_block. intros body p Hb. cbn. destruct (String.eqb_spec k "") as [->|_]; [congruence|].
  by rewrite (settings_read fp "job" settings body Hb).
Qed.

(** ** observe.conf *)

Lemma observe_reads path cfg : reads (observeStep path) (mkObserve None None None) (observeBody cfg) cfg.
Proof.
  destruct cfg as [dsn url skip]. unfold observeBody. cbn [ClickHouseDSN PrometheusURL PrometheusTLSSkipVerify].
  apply (reads_app _ _ (mkObserve dsn None None)).
  - destruct dsn as [s|]; [|apply reads_nil]. apply reads_block. intros body p Hb. cbn.
    apply (reads_call (clickhouseStep path) (mkObserve None None None) (mkObserve (Some s) None None) "dsn" [StringLit s noPos] noPos true); [|exact Hb].
    intros args q t (v & -> & Hv)%same_value. destruct v as [| | | |[]]; cbn in Hv; try done. by injection Hv as ->.
  - apply reads_unless_empty.
    + destruct url, skip; cbn; try done.
    + intros _. apply reads_block. intros body p Hb. cbn. revert body Hb.
      apply (reads_app _ _ (mkObserve dsn url None)).
      * destruct url as [u|]; [|apply reads_nil]. apply reads_call. intros args q t (v & -> & Hv)%same_value.
        destruct v as [| | | |[]]; cbn in Hv; try done. by injection Hv as ->.
      * destruct skip as [b|]; [|apply reads_nil].
        apply (reads_bool (prometheusStep path) path "tls_skip_verify" b (mkObserve dsn url None) (fun v => mkObserve dsn url (Some v))). done.
Qed.
(** What is written to observe.conf is read back, absent settings included. *)
Theorem ParseObserveConf_EmitObserveConf `{FloatText} fp cfg :
  file_ok (observeFile cfg) = true -> slen (EmitObserveConf cfg) <= MaxSourceBytes -> ParseObserveConf fp (EmitObserveConf cfg) = Ok cfg.
Proof.
  intros Hf Hl. destruct (Parse_Emit fp (observeFile cfg) (mkEmitOptions "") Hf eq_refl Hl) as (f & Hp & _ & _ & Hs).
  unfold ParseObserveConf, EmitObserveConf. rewrite Hp. apply same_block in Hs as (body & p & -> & Hb).
  unfold lowerObserve. cbn [String.eqb]. by rewrite (observe_reads fp cfg body Hb).
Qed.
End facts.

(** ** Accepted settings *)

Section accepted.
Context `{Unicode} `{FloatText}.

Lemma setting_inv {A} raw key (read : RawValue -> result bucket_error A) d a :
  setting raw key read d = Ok a -> a = d \/ exists v, read v = Ok a.
Proof. unfold setting. destruct (raw !! key) as [v|]; [eauto|]. intros [= ->]. by left. Qed.
Lemma not_negative_inv key n m : not_negative key n = Ok m -> 0 <= m.
Proof. unfold not_negative. destruct (n <? 0) eqn:E; [done|]. intros [= <-]. blia. Qed.
Lemma rbind_Ok {E A B} (r : result E A) (k : A -> result E B) b : rbind r k = Ok b -> exists a, r = Ok a /\ k a = Ok b.
Proof. destruct r; cbn; [eauto|done]. Qed.

Definition sanitized (p : string) : Prop := SanitizeJobsProfile p = Some p.
Lemma SanitizeJobsProfile_idem s p : SanitizeJobsProfile s = Some p -> sanitized p.
Proof. intros Hs. by apply (sanitized_profile s). Qed.
Lemma profileValue_inv v p : profileValue v = Ok p -> sanitized p.
Proof. unfold profileValue. destruct (SanitizeJobsProfile _) eqn:E; [|done]. intros [= <-]. by eapply SanitizeJobsProfile_idem. Qed.

Lemma parseBucketSettings_inv raw s : parseBucketSettings raw = Ok s ->
  bsCertsTTL s <> 0 /\ 0 <= bsCertsRenewalBuffer s /\ 0 <= bsKVRetainDays s /\ sanitized (bsJobsProfile s).
Proof.
  unfold parseBucketSettings. intros (ttl & Ht & (buffer & Hb & (ipt & _ & (profile & Hp & (days & Hd & [= <-])%rbind_Ok)%rbind_Ok)%rbind_Ok)%rbind_Ok)%rbind_Ok.
  cbn. split_and!.
  - apply setting_inv in Ht as [->|[v (n & _ & [= <-])%rbind_Ok]]; [done|]. by destruct (n =? 0) eqn:E; bool_to_prop.
  - apply setting_inv in Hb as [->|[v (n & _ & ?%not_negative_inv)%rbind_Ok]]; done.
  - apply setting_inv in Hd as [->|[v (n & _ & ?%not_negative_inv)%rbind_Ok]]; done.
  - destruct (raw !! "jobs_profile"); [by eapply profileValue_inv|]. destruct (raw !! "job_config_selector"); [by eapply profileValue_inv|].
    by injection Hp as <-.
Qed.

(** The profile of kive.conf is sanitized where it is read. *)
Definition profile_ok (st : kive_state) : Prop := sanitized (JobsProfile st.1).
Lemma loop_inv {A} (P : A -> Prop) (step : A -> Stmt -> result Error A) body :
  (forall st s st', P st -> step st s = Ok st' -> P st') -> forall st st', P st -> loop step st body = Ok st' -> P st'.
Proof.
  intros Hs. induction body as [|s body IH]; cbn; intros st st' HP; [by intros [= <-]|].
  intros (st1 & H1 & H2)%rbind_Ok. apply (IH st1); [by eapply Hs|done].
Qed.
Lemma kive_field_keeps path {A} (read : Call -> string -> result Error A) (set : KiveConf -> A -> KiveConf) st call key st' :
  (forall c v, JobsProfile (set c v) = JobsProfile c) -> profile_ok st -> kive_field path st call key read set = Ok st' -> profile_ok st'.
Proof.
  intros Hs Hp (present & _ & (v & _ & [= <-])%rbind_Ok)%rbind_Ok. unfold profile_ok. cbn. by rewrite Hs.
Qed.
Ltac keeps_profile :=
  let Hq := fresh in let Hr := fresh in
  cbv zeta; intros Hq Hr; repeat (case_in Hr; [by eapply kive_field_keeps in Hr|]); done.
Lemma calls_keep path where_ f st body st' : (forall st call st', profile_ok st -> f path st call = Ok st' -> profile_ok st') ->
  profile_ok st -> loop (callStep path where_ (f path)) st body = Ok st' -> profile_ok st'.
Proof. intros Hf. apply loop_inv. intros st0 [name id b p|call] st1 Hp; cbn; [done|by apply Hf]. Qed.
Lemma top_call_keeps path st call st' : profile_ok st -> applyTopLevelKiveCall path st call = Ok st' -> profile_ok st'.
Proof.
  unfold applyTopLevelKiveCall. cbv zeta. intros Hp Hs. case_in Hs; [done|]. do 4 (case_in Hs; [by eapply kive_field_keeps in Hs|]).
  case_in Hs.
  { apply rbind_Ok in Hs as (present & _ & (v & Hv & [= <-])%rbind_Ok). unfold profile_ok. cbn.
    apply rbind_Ok in Hv as (s & _ & Hv). destruct (SanitizeJobsProfile s) eqn:E; [|done]. injection Hv as <-. by eapply SanitizeJobsProfile_idem. }
  case_in Hs; [by eapply kive_field_keeps in Hs|]. by apply rbind_Ok in Hs as (? & _ & ?).
Qed.
Lemma kiveStep_keeps path st stmt st' : profile_ok st.1 -> kiveStep path st stmt = Ok st' -> profile_ok st'.1.
Proof.
  destruct st as [st seen]. unfold kiveStep. destruct stmt as [name id body p|call]; cbn [fst].
  - intros Hp Hs. destruct (negb (id =s "")); [done|]. destruct (bool_decide _); [done|].
    apply rbind_Ok in Hs as (st1 & Hs & [= <-]). cbn.
    repeat (case_in Hs; [revert Hs; apply calls_keep; [|done]; intros st2 call st3; first
      [unfold sshCall; keeps_profile|unfold logConfigCall; keeps_profile|unfold backupCall; keeps_profile|unfold healthCall; keeps_profile
      |unfold deployCall; keeps_profile|unfold interpretersCall; keeps_profile|unfold jobSignerCall; keeps_profile|unfold featuresCall; keeps_profile]|]).
    done.
  - intros Hp (st1 & Hs & [= <-])%rbind_Ok. by eapply top_call_keeps.
Qed.
Lemma ParseKiveConf_profile path text kc present : ParseKiveConf path text = Ok (kc, present) -> sanitized (JobsProfile kc).
Proof.
  unfold ParseKiveConf. destruct (Parse path text) as [f|]; [|done]. destruct (loop _ _ _) as [[st seen]|] eqn:E; [|done]. intros [= ->].
  change (profile_ok ((kc, present), seen).1). revert E.
  apply (loop_inv (fun st => profile_ok st.1)); [|reflexivity]. intros st s st'. apply kiveStep_keeps.
Qed.

(** The operational settings that are accepted are usable: the renewal
    buffer and the retention are not negative, the lifetime of certificates is
    not zero, and the profile names a file directly under workspace/. *)
Theorem LoadBucketSettings_accepts bp kp bucketData kiveData s : LoadBucketSettingsAt bp kp bucketData kiveData = Ok s ->
  bsCertsTTL s <> 0 /\ 0 <= bsCertsRenewalBuffer s /\ 0 <= bsKVRetainDays s
  /\ SanitizeJobsProfile (bsJobsProfile s) = Some (bsJobsProfile s) /\ no_byte "/" (JobsProfileFileName (bsJobsProfile s)) = true.
Proof.
  unfold LoadBucketSettingsAt. intros (raw & _ & (s0 & Hs%parseBucketSettings_inv & Hk)%rbind_Ok)%rbind_Ok.
  assert (Hall : bsCertsTTL s <> 0 /\ 0 <= bsCertsRenewalBuffer s /\ 0 <= bsKVRetainDays s /\ sanitized (bsJobsProfile s)).
  { destruct Hs as (H1 & H2 & H3 & H4). destruct kiveData as [text|]; [|by injection Hk as <-].
    destruct (ParseKiveConf kp text) as [[kc present]|] eqn:Ek; [|done]. apply ParseKiveConf_profile in Ek.
    apply rbind_Ok in Hk as (ttl & Ht & (buffer & Hb & [= <-])%rbind_Ok). cbn. split_and!.
    - clear Hb. destruct (bool_decide ("certs_ttl" ∈ present)); [|by injection Ht as <-].
      unfold not_negative in Ht. destruct (CertsTTL kc =? 0) eqn:E0; bool_to_prop.
      + by injection Ht as <-.
      + destruct (CertsTTL kc <? 0); [done|]. by injection Ht as <-.
    - clear Ht. destruct (bool_decide ("certs_renewal_buffer" ∈ present)); [by apply not_negative_inv in Hb|by injection Hb as <-].
    - done.
    - by destruct (bool_decide ("jobs_profile" ∈ present)). }
  destruct Hall as (H1 & H2 & H3 & H4). split_and!; try done. by apply (sanitized_profile (bsJobsProfile s)).
Qed.

(** ** The variables of bucket.conf *)

(** The last call of a name in a list of statements. *)
Fixpoint lastCall (k : string) (stmts : list Stmt) : option Call :=
  match stmts with
  | [] => None
  | s :: stmts =>
      match lastCall k stmts with
      | Some c => Some c
      | None => match s with SCall c => if CallName c =s k then Some c else None | SBlock _ _ _ _ => None end
      end
  end.
Definition callText (path : string) (c : Call) : option string :=
  match CallArgs c with
  | [v] => match rawValue path v with Ok r => Some (bucketConfStringValue r) | Err _ => None end
  | _ => None
  end.
Lemma rawStep_lookup path raw stmt raw' k : k <> portRangeKey -> rawStep path raw stmt = Ok raw' ->
  bucketConfStringValue <$> raw' !! k
  = match stmt with SCall c => if CallName c =s k then callText path c else bucketConfStringValue <$> raw !! k | SBlock _ _ _ _ => None end.
Proof.
  intros Hk. destruct stmt as [name id body p|c]; cbn; [done|]. destruct (String.eqb_spec (CallName c) portRangeKey) as [->|Hn].
  - intros (s & _ & [= <-])%rbind_Ok. rewrite lookup_insert_ne by done. by destruct (String.eqb_spec portRangeKey k); subst.
  - unfold callText. destruct (CallArgs c) as [|v [|]]; try done. intros (r & -> & [= <-])%rbind_Ok.
    destruct (String.eqb_spec (CallName c) k) as [->|Hne]; [by rewrite lookup_insert_eq|by rewrite lookup_insert_ne].
Qed.
Lemma raw_lookup path k body : k <> portRangeKey -> forall raw raw', loop (rawStep path) raw body = Ok raw' ->
  bucketConfStringValue <$> raw' !! k
  = match lastCall k body with Some c => callText path c | None => bucketConfStringValue <$> raw !! k end.
Proof.
  intros Hk. induction body as [|s body IH]; cbn; intros raw raw'; [by intros [= <-]|].
  intros (raw1 & H1 & H2)%rbind_Ok. rewrite (IH _ _ H2). destruct (lastCall k body); [done|]. rewrite (rawStep_lookup _ _ _ _ _ Hk H1).
  destruct s as [|c]; [done|]. by destruct (CallName c =s k).
Qed.

(** What bucket.conf hands to the store: never an operational key, and for
    every other key the value of its last setting in the file. *)
Theorem LoadBucketConfVars_spec cp text f vars k : LoadBucketConfVars cp (Some text) = Ok vars -> Parse cp text = Ok f ->
  vars !! k = if mem k reservedBucketVarKeys then None else c ← lastCall k (Stmts f); callText cp c.
Proof.
  unfold LoadBucketConfVars, loadBucketConfRaw. intros (raw & Hr & [= <-])%rbind_Ok Hp. rewrite Hp in Hr.
  destruct (loop (rawStep cp) ∅ (Stmts f)) as [raw'|] eqn:El; [|done]. injection Hr as ->.
  rewrite lookup_fmap. destruct (mem k reservedBucketVarKeys) eqn:Hm; bool_to_prop.
  - rewrite map_lookup_filter_None_2; [done|]. right. intros v _ Hv. by apply Hv.
  - assert (Hk : k <> portRangeKey). { intros ->. apply Hm. do 6 right. left. }
    pose proof (raw_lookup cp k (Stmts f) Hk _ _ El) as Hl. rewrite lookup_empty in Hl.
    replace (filter _ raw !! k) with (raw !! k); [rewrite Hl; by destruct (lastCall k (Stmts f))|].
    symmetry. destruct (raw !! k) as [v|] eqn:Ek; [by apply map_lookup_filter_Some_2|].
    apply map_lookup_filter_None_2. by left.
Qed.
End accepted.

(** ** Concrete files *)

Definition nl : string := String "010"%char "".
Definition sample_bucket_conf : string := "region(eu); certs_ttl(0); jobs_profile(" +:+ String "034"%char "prod" +:+ String "034"%char "); region(us); kv_retain_days(3)" +:+ nl.
Lemma LoadBucketSettings_accepts_witness :
  LoadBucketSettingsAt (H := ascii_unicode) (H0 := no_float) "bucket.conf" "kive.conf" (Some sample_bucket_conf) None
  = Ok (mkBucketSettings 60 10 false "prod" 3) /\ 60 <> 0.
Proof.
  assert (E : LoadBucketSettingsAt (H := ascii_unicode) (H0 := no_float) "bucket.conf" "kive.conf" (Some sample_bucket_conf) None
    = Ok (mkBucketSettings 60 10 false "prod" 3)) by (vm_compute; reflexivity).
  split; [exact E|]. exact (proj1 (LoadBucketSettings_accepts (H := ascii_unicode) (H0 := no_float) _ _ _ _ _ E)).
Defined.
Definition parsed_sample : File := match Parse (U := ascii_unicode) (F := no_float) "bucket.conf" sample_bucket_conf with Ok f => f | Err _ => mkFile "" 0 [] end.
Definition sample_vars : gmap string string := {["region" := "us"%string]}.
Lemma LoadBucketConfVars_spec_witness :
  LoadBucketConfVars (H := ascii_unicode) (H0 := no_float) "bucket.conf" (Some sample_bucket_conf) = Ok sample_vars
  /\ sample_vars !! "region" = Some "us"%string /\ sample_vars !! "certs_ttl" = None.
Proof.
  assert (E : LoadBucketConfVars (H := ascii_unicode) (H0 := no_float) "bucket.conf" (Some sample_bucket_conf) = Ok sample_vars) by (vm_compute; reflexivity).
  assert (Ep : Parse (U := ascii_unicode) (F := no_float) "bucket.conf" sample_bucket_conf = Ok parsed_sample) by (vm_compute; reflexivity).
  split; [exact E|]. rewrite !(LoadBucketConfVars_spec (H := ascii_unicode) (H0 := no_float) _ _ _ _ _ E Ep). split; vm_compute; reflexivity.
Defined.
Definition sample_observe : ObserveConf := mkObserve None (Some "http://p:9090") (Some true).
Lemma ParseObserveConf_EmitObserveConf_witness :
  ParseObserveConf (H := ascii_unicode) (H0 := no_float) "observe.conf" (EmitObserveConf sample_observe) = Ok sample_observe.
Proof. apply (ParseObserveConf_EmitObserveConf (H := ascii_unicode) (H0 := no_float)); [vm_compute; reflexivity|vm_compute; congruence]. Defined.
Definition sample_jobs : gmap string (gmap string string) := <["api" := <["mode" := "fast"%string]> ∅]> {["db" := ∅]}.
Lemma ParseBucketJobsConf_EmitBucketJobsConf_witness :
  ParseBucketJobsConf (H := ascii_unicode) (H0 := no_float) "bucket.jobs.conf" (EmitBucketJobsConf sample_jobs) = Ok sample_jobs.
Proof. apply (ParseBucketJobsConf_EmitBucketJobsConf (H := ascii_unicode) (H0 := no_float)); [reflexivity|vm_compute; reflexivity|vm_compute; congruence]. Defined.
Lemma ParseVarsConf_EmitVarsConf_witness :
  ParseVarsConf (H := ascii_unicode) (H0 := no_float) "vars.conf" (EmitVarsConf sample_vars) = Ok sample_vars.
Proof.
  apply (ParseVarsConf_EmitVarsConf (H := ascii_unicode) (H0 := no_float)); [intros v [=]|vm_compute; reflexivity|vm_compute; congruence].
Defined.

(** A negative lifetime is refused in kive.conf and accepted in bucket.conf. *)
Lemma negative_certs_ttl :
  LoadBucketSettingsAt (H := ascii_unicode) (H0 := no_float) "bucket.conf" "kive.conf" (Some "certs_ttl(-5);") None
  = Ok (mkBucketSettings (-5) 10 false "" 7)
  /\ LoadBucketSettingsAt (H := ascii_unicode) (H0 := no_float) "bucket.conf" "kive.conf" None (Some ("certs_ttl(" +:+ String "034"%char "-5" +:+ String "034"%char ");"))
  = Err (MustNotBeNegative "certs_ttl").
Proof. split; vm_compute; reflexivity. Qed.
(** Without a kive.conf, polling is off for a root and on for the bucket. *)
Lemma missing_kive_conf_polls LoadLocation path :
  HealthPollIntervalSecondsAt (H := ascii_unicode) (H0 := no_float) LoadLocation path None = Ok 0
  /\ HealthPollIntervalSecondsFromConfig (H := ascii_unicode) (H0 := no_float) LoadLocation path None = Ok 60.
Proof. split; reflexivity. Qed.
