(* ===== verification/BuildVars.v ===== *)
(** * build: the variables of the key-value store

    build/build_variables.go and build/build_allocation_variables.go. The steps
    take what the configuration files say as arguments; the last section reads
    the files of a bucket. The certificate bundles and the identifier of a
    label are arguments, the copy of the bucket's files into its row
    (storeBucketRestoreMaterial) is left out. The store is the session's; an
    error ends the build, which saves nothing. *)
From S2P Require Import Prelude GoStrings Utils Kv Versions Ports AllocState Catalog Placement.
From S2P Require Import ConfSyntax ConfParser ConfRoundtrip Calendar KiveConf BucketConf.
Open Scope Z_scope.

(** ** One namespace *)

Notation Vars := (gmap string string).

(** A Go map is ranged over in some order, here that of [map_to_list]. *)
Definition putAll (s : Store) (namespace : string) (keyValues : Vars) : Store :=
  foldl (fun s kv => Put s namespace kv.1 kv.2 0) s (map_to_list keyValues).
Definition deleteKeys (s : Store) (namespace : string) (keys : list string) : result kv_error Store :=
  foldR (fun s key => Delete s namespace key) s keys.

Definition syncKeyValues (s : Store) (namespace : string) (keyValues : Vars) : result kv_error Store :=
  let s := putAll s namespace keyValues in
  deleteKeys s namespace (Difference (GetKeys s namespace) (map_to_list keyValues).*1).

Inductive syncKeyPolicy := syncKeyPolicyFull | syncKeyPolicyAllocation | syncKeyPolicyCert.
Definition isCertKey (key : string) : bool := HasPrefix key "certs/".
(** Whether a stale key stays. *)
Definition spared (policy : syncKeyPolicy) (key : string) : bool :=
  match policy with
  | syncKeyPolicyFull => false
  | syncKeyPolicyAllocation => isCertKey key
  | syncKeyPolicyCert => negb (isCertKey key)
  end.
Definition syncNamespaceKeyValues (s : Store) (namespace : string) (keyValues : Vars) (policy : syncKeyPolicy) : result kv_error Store :=
  let s := putAll s namespace keyValues in
  deleteKeys s namespace
    (List.filter (fun key => negb (spared policy key)) (Difference (GetKeys s namespace) (map_to_list keyValues).*1)).
Definition syncAllocationKeyValues (s : Store) (namespace : string) (keyValues : Vars) : result kv_error Store :=
  syncNamespaceKeyValues s namespace keyValues syncKeyPolicyAllocation.
Definition syncCertKeyValues (s : Store) (namespace : string) (keyValues : Vars) : result kv_error Store :=
  syncNamespaceKeyValues s namespace keyValues syncKeyPolicyCert.

Definition clearNamespaces (s : Store) (namespaces : list string) : result kv_error Store :=
  foldR (fun s namespace => syncKeyValues s namespace ∅) s namespaces.

Definition workerNamespace (workerIP : string) : string := "kive/worker/" +:+ workerIP.
Definition tagsNamespace (workerIP : string) : string := "kive/worker/" +:+ workerIP +:+ "/tags".
Definition jobNamespace (job : string) : string := "kive/job/" +:+ job.
Definition bucketJobNamespace (job : string) : string := "vars/bucket/job/" +:+ job.
Definition BucketKVNamespace : string := "kive/bucket".

(** An error of the store or of a query without its row. *)
Inductive vars_error := StoreError (e : kv_error) | MissingRow | ConfigError.
Definition store_result (r : result kv_error Store) : result vars_error Store :=
  match r with Ok s => Ok s | Err e => Err (StoreError e) end.
Definition row {A} (o : option A) : result vars_error A := match o with Some a => Ok a | None => Err MissingRow end.

Section build.
Context `{Unicode} (c : Catalog) (db : DB).

(** ** Workers *)

(** The hostname of a worker in the workspace. *)
Variable hostnameOf : string -> string.

Definition labelWorkers (label : string) : list string := GetWorkers c [label].
Definition addPeers (workerIP : string) (vars : Vars) (label : string) : Vars :=
  let peerWorkerIPs := Difference (labelWorkers label) [workerIP] in
  if (0 <? length peerWorkerIPs)%nat then <[label +:+ "_peers" := Join peerWorkerIPs ","]> vars else vars.
Definition addIndex (workerIP : string) (vars : Vars) (label : string) : Vars :=
  match list_find (fun worker => worker = workerIP) (labelWorkers label) with
  | Some (allocationIndex, _) => <[label +:+ "_allocation_index" := Itoa (Z.of_nat allocationIndex)]> vars
  | None => vars
  end.
Definition workerVariables (workerIP : string) : result vars_error Vars :=
  let? workerID := row (GetWorkerID c workerIP) in
  let? availableCPUMHz := row (GetWorkerCPU c workerIP) in
  let? availableMemoryMB := row (GetWorkerMemory c workerIP) in
  let? position := row (GetWorkerPosition c workerIP) in
  let workerLabels := GetWorkerLabels c workerID in
  let vars := <["labels" := Join workerLabels ","]> (<["worker_id" := workerID]> (<["worker_ip" := workerIP]> ∅)) in
  let vars := foldl (addPeers workerIP) vars workerLabels in
  let vars := foldl (addIndex workerIP) vars (GetLabels c) in
  let vars := <["worker_memory_mb" := availableMemoryMB]> (<["worker_cpu_mhz" := availableCPUMHz]> vars) in
  let vars := <["position" := Itoa position]> (<["jobs" := Join (GetActiveAllocatedJobs db workerIP) ","]> vars) in
  Ok (if bool_decide (hostnameOf workerIP = "") then vars else <["hostname" := hostnameOf workerIP]> vars).
Definition workerTags (workerIP : string) : result vars_error Vars :=
  let? workerID := row (GetWorkerID c workerIP) in Ok (GetWorkerTags c workerID).
Definition syncWorker (s : Store) (workerIP : string) : result vars_error Store :=
  let? vars := workerVariables workerIP in
  let? s := store_result (syncKeyValues s (workerNamespace workerIP) vars) in
  let? tags := workerTags workerIP in
  store_result (syncKeyValues s (tagsNamespace workerIP) tags).
(** A worker that was removed loses its own namespace and those of its
    allocations. *)
Definition clearRemovedWorker (s : Store) (workerIP : string) : result kv_error Store :=
  foldR (fun s namespace => deleteKeys s namespace (GetKeys s namespace)) s
    (workerNamespace workerIP :: map (fun job => jobWorkerNamespace job workerIP) (GetAllocatedJobs db workerIP)).
Definition buildWorkerVariables (s : Store) (removedWorkers : list string) : result vars_error Store :=
  let? s := foldR syncWorker s (GetWorkers c []) in
  store_result (foldR clearRemovedWorker s removedWorkers).

(** [GetHashUUID] of a label, ca.crt and the trust bundle. *)
Variable GetHashUUID : string -> string.
Variables caCertificate trustBundle : string.
Definition WorkerCATrustKVKey : string := "certs/ca-trust.crt".
Definition indexed (f : nat -> string) (l : list string) (vars : Vars) : Vars :=
  foldl (fun vars iw => <[f iw.1 := iw.2]> vars) vars (imap pair l).
Definition addLabel (vars : Vars) (label : string) : Vars :=
  let workers := labelWorkers label in
  let vars :=
    if (0 <? length workers)%nat then
      <[label +:+ "_workers_length" := Itoa (len workers)]>
        (<[label +:+ "_workers" := Join workers ","]> (<[label +:+ "_label_id" := GetHashUUID label]> vars))
    else vars in
  indexed (fun idx => label +:+ "_" +:+ Itoa (Z.of_nat idx)) workers vars.
Definition sharedVariables : Vars :=
  <[WorkerCATrustKVKey := trustBundle]> (<["certs/ca.crt" := caCertificate]> (foldl addLabel ∅ (GetLabels c))).
Definition buildSharedWorkerVariables (s : Store) : result vars_error Store :=
  store_result (syncKeyValues s "kive/worker" sharedVariables).

(** ** Jobs *)

(** bucket.jobs.conf and vars.conf for a job. *)
Variables loadJobBucketConfig loadWorkspaceJobVars : string -> result vars_error Vars.

(** vars.conf, where bucket.jobs.conf wins. *)
Definition mergeJobBucketSettings (varsConf bucketJobs : Vars) : Vars := bucketJobs ∪ varsConf.

Definition jobShouldPurgeBuildKV (job : string) : bool :=
  let total := length (workersWhere db job (fun _ => true)) in
  if (total =? 0)%nat then false else (length (workersWhere db job notRemoved) =? 0)%nat.
Definition purgeHookKVNamespaces (s : Store) (job : string) : result kv_error Store := clearNamespaces s (HookKVNamespaces job).
Definition purgeBuildJobKVNamespaces (s : Store) (job : string) : result kv_error Store :=
  clearNamespaces s (BuildJobKVNamespaces job ++ map (jobWorkerNamespace job) (GetAllocatedWorkers db job)).

(** Limits of zero are those of the size that is set. *)
Definition addLimits (limits : string * string) (size minKey maxKey : string) (vars : Vars) : Vars :=
  let vars := <[maxKey := limits.2]> (<[minKey := limits.1]> vars) in
  if bool_decide (limits.1 = "0") && bool_decide (limits.2 = "0") then <[maxKey := size]> (<[minKey := size]> vars) else vars.
Definition jobVariables (job : string) : result vars_error Vars :=
  let workersForVars := GetActiveAllocationsOrdered c db job in
  let? jobID := row (GetJobID c job) in
  let? version := row (GetJobVersion c job) in
  let? memoryLimits := row (GetJobMemoryLimits c job) in
  let? cpuLimits := row (GetJobCPULimits c job) in
  let? memory := row (GetJobMemory c job) in
  let? cpu := row (GetJobCPU c job) in
  let? cpuShares := row (GetJobCPUShares c job) in
  let vars := <["version" := NormalizeDeployVersion version]> (<["job_name" := job]> (<["job_id" := jobID]> ∅)) in
  let vars := <["selectors" := Join (GetJobSelectors c job) ","]> vars in
  let vars := addLimits memoryLimits memory "min_memory_mb" "max_memory_mb" (<["memory" := memory]> vars) in
  let vars := addLimits cpuLimits cpu "min_cpu_mhz" "max_cpu_mhz" (<["cpu" := cpu]> vars) in
  let vars := <["workers" := Join workersForVars ","]> (<["cpu_shares" := cpuShares]> vars) in
  let vars := <["workers_length" := Itoa (len workersForVars)]> vars in
  let vars := indexed (fun idx => "worker_" +:+ Itoa (Z.of_nat idx)) workersForVars vars in
  Ok (<["rollout_order" := Join workersForVars ","]> vars).
Definition syncJob (deleteSecretsKV : bool) (s : Store) (job : string) : result vars_error Store :=
  let? s := if deleteSecretsKV then
              let? hasActive := row (JobHasActiveAllocations db job) in
              if hasActive : bool then Ok s else store_result (purgeHookKVNamespaces s job)
            else Ok s in
  if jobShouldPurgeBuildKV job then store_result (purgeBuildJobKVNamespaces s job)
  else
    let? bucketJobSettings := loadJobBucketConfig job in
    let? vars := jobVariables job in
    let? s := store_result (syncKeyValues s (jobNamespace job) vars) in
    let? jobVarsSettings := loadWorkspaceJobVars job in
    store_result (syncKeyValues s (bucketJobNamespace job) (mergeJobBucketSettings jobVarsSettings bucketJobSettings)).
Definition clearRemovedJob (s : Store) (job : string) : result kv_error Store :=
  let? s := purgeBuildJobKVNamespaces s job in purgeHookKVNamespaces s job.
Definition buildJobVariables (s : Store) (removedJobs : list string) (deleteSecretsKV : bool) : result vars_error Store :=
  let? s := foldR (syncJob deleteSecretsKV) s (GetJobs c) in
  store_result (foldR clearRemovedJob s removedJobs).

(** ** The bucket *)

(** The settings of workspace/bucket.conf, the port range and the identifier of
    the bucket. *)
Variable LoadBucketConfVars : result vars_error Vars.
Variable LoadPortRange : result vars_error PortRange.
Variable bucketID : string.
Definition bucketConfig : result vars_error Vars :=
  let? bucketConfig := LoadBucketConfVars in
  let? portRange := LoadPortRange in
  Ok (<["port_range" := Itoa (PMin portRange) +:+ "," +:+ Itoa (PMax portRange)]> bucketConfig).
Definition addPorts (vars : Vars) (job : string) : Vars :=
  if JobHasNonRemovedAllocations db job then GetPortMap c job ∪ vars else vars.
Fixpoint activeJobNames (jobNames : list string) : option (list string) :=
  match jobNames with
  | [] => Some []
  | job :: jobNames =>
      hasActive ← JobHasActiveAllocations db job;
      rest ← activeJobNames jobNames;
      Some (if hasActive : bool then job :: rest else rest)
  end.
Definition kiveVariables (active : list string) : Vars :=
  <["bucket_id" := bucketID]> (<["active_jobs" := Join active ","]>
    (<["jobs" := Join (GetJobs c) ","]> (foldl addPorts ∅ (GetJobs c)))).
Definition buildBucketVariables (s : Store) : result vars_error Store :=
  let? bucketConfig := bucketConfig in
  let? active := row (activeJobNames (GetJobs c)) in
  let? s := store_result (syncKeyValues s "vars/bucket" bucketConfig) in
  store_result (syncKeyValues s BucketKVNamespace (kiveVariables active)).

Definition BuildVariables (s : Store) (removedWorkers removedJobs : list string) (deleteSecretsKV : bool) : result vars_error Store :=
  let? s := buildWorkerVariables s removedWorkers in
  let? s := buildJobVariables s removedJobs deleteSecretsKV in
  let? s := buildSharedWorkerVariables s in
  buildBucketVariables s.

(** ** Allocations (build_allocation_variables.go) *)

Definition allocationVariables (job : string) (workers : list string) (idx : nat) (workerIP : string) : result vars_error Vars :=
  let peers := List.filter (fun peer => negb (bool_decide (peer = workerIP))) workers in
  let? allocID := row (GetAllocationID db workerIP job) in
  Ok (<["allocation_id" := allocID]> (<["peer_workers" := Join peers ","]> (<[job +:+ "_allocation_index" := Itoa (Z.of_nat idx)]> ∅))).
Definition purgeStaleJobAllocationVariables (s : Store) (job : string) : result kv_error Store :=
  clearNamespaces s (map (jobWorkerNamespace job)
    (List.filter (fun ip => negb (bool_decide (ip ∈ GetNonRemovedAllocations db job))) (GetAllocatedWorkers db job))).
Definition syncJobAllocationVariables (s : Store) (job : string) : result vars_error Store :=
  let workers := GetNonRemovedAllocationsOrdered c db job in
  let? s := foldR (fun s iw =>
              let? vars := allocationVariables job workers iw.1 iw.2 in
              store_result (syncAllocationKeyValues s (jobWorkerNamespace job iw.2) vars)) s (imap pair workers) in
  store_result (purgeStaleJobAllocationVariables s job).
Definition BuildJobAllocationVariables (s : Store) (removedJobs : list string) : result vars_error Store :=
  let? s := foldR syncJobAllocationVariables s (GetJobs c) in
  store_result (foldR (fun s job => clearNamespaces s (map (jobWorkerNamespace job) (GetAllocatedWorkers db job))) s removedJobs).
End build.

(** ** From the files of a bucket *)

Record BucketFiles := mkBucketFiles {
  kiveConf : option string;
  bucketConf : option string;
  workspaceFile : string -> option string;
  varsFile : string -> option string;
}.
Section files.
Context `{Unicode} `{FloatText} (LoadLocation : string -> option Location) (BucketLocation WorkspaceLocation : string) (files : BucketFiles).

Definition config {E A} (r : result E A) : result vars_error A := match r with Ok a => Ok a | Err _ => Err ConfigError end.
Definition kiveConfPath : string := BucketLocation +:+ "/kive.conf".
Definition bucketConfPath : string := WorkspaceLocation +:+ "/bucket.conf".
(** The settings are read again for every job. *)
Definition jobBucketConfig (job : string) : result vars_error Vars :=
  let? settings := config (LoadBucketSettingsAt bucketConfPath kiveConfPath (bucketConf files) (kiveConf files)) in
  let? named := config (loadJobBucketConfig WorkspaceLocation (workspaceFile files) settings job) in
  Ok named.2.
Definition workspaceJobVars (job : string) : result vars_error Vars :=
  config (loadWorkspaceJobVars WorkspaceLocation (varsFile files) job).
Definition BuildBucketVariables (c : Catalog) (db : DB) (hostnameOf GetHashUUID : string -> string) (caCertificate trustBundle bucketID : string) :=
  BuildVariables c db hostnameOf GetHashUUID caCertificate trustBundle jobBucketConfig workspaceJobVars
    (config (LoadBucketConfVars bucketConfPath (bucketConf files)))
    (config (LoadPortRange LoadLocation kiveConfPath bucketConfPath (kiveConf files) (bucketConf files))) bucketID.
End files.
