(* ===== verification/BuildVarsFacts.v ===== *)
(** * build: what a build leaves in the key-value store

    Every step of the build writes whole namespaces, so a run of steps is
    described by a map from the namespaces it writes to the variables they
    hold afterwards ([writes]): the later of two writes of a namespace wins and
    the rest of the store keeps its entries, versions included. The theorems
    read the namespaces of a worker, of a job and of the bucket off that map. *)
From S2P Require Import Prelude GoStrings Utils Kv KvFacts Versions Ports AllocState AllocStateFacts Catalog Placement BuildVars.
Open Scope Z_scope.

(** ** Writes *)

(** A value is trimmed when it is put, and never expires. *)
Definition stored (vars : Vars) (k : string) : option (string * Z) := (fun v => (TrimSpace v, 0)) <$> vars !! k.
Notation Writes := (gmap string Vars).
Definition wrote (W : Writes) (s s' : Store) : Prop :=
  forall n, match W !! n with
            | Some vars => forall k, view s' n k = stored vars k
            | None => forall k, find s' n k = find s n k
            end.
Definition writes {E} (f : Store -> result E Store) (W : Writes) : Prop :=
  forall s, exists s', f s = Ok s' /\ wrote W s s'.

Lemma wrote_trans W1 W2 s s1 s2 : wrote W1 s s1 -> wrote W2 s1 s2 -> wrote (W2 ∪ W1) s s2.
Proof.
  intros H1 H2 n. specialize (H1 n). specialize (H2 n). rewrite lookup_union.
  destruct (W2 !! n) as [v2|] eqn:E2; [by destruct (W1 !! n)|].
  destruct (W1 !! n) as [v1|]; cbn; intros k.
  - rewrite <- H1. unfold view. by rewrite H2.
  - by rewrite H2.
Qed.
Lemma wrote_refl s : wrote ∅ s s.
Proof. intros n. by rewrite lookup_empty. Qed.
Lemma writes_Ok {E} : writes (E := E) Ok ∅.
Proof. intros s. exists s. split; [done|apply wrote_refl]. Qed.
Lemma writes_seq {E} (f g : Store -> result E Store) W1 W2 : writes f W1 -> writes g W2 ->
  writes (fun s => let? s := f s in g s) (W2 ∪ W1).
Proof.
  intros Hf Hg s. destruct (Hf s) as (s1 & E1 & H1). destruct (Hg s1) as (s2 & E2 & H2).
  exists s2. rewrite E1. split; [done|by apply (wrote_trans _ _ _ s1)].
Qed.
Lemma writes_store f W : writes f W -> writes (fun s => store_result (f s)) W.
Proof. intros H s. destruct (H s) as (s' & E & Hw). exists s'. by rewrite E. Qed.
Lemma writes_ext {E} (f g : Store -> result E Store) W : (forall s, f s = g s) -> writes f W -> writes g W.
Proof. intros He H s. rewrite <- He. apply H. Qed.

Fixpoint folded {A} (F : A -> Writes) (l : list A) : Writes :=
  match l with
  | [] => ∅
  | a :: l => folded F l ∪ F a
  end.
Lemma writes_foldR {E A} (f : Store -> A -> result E Store) F l : (forall a, a ∈ l -> writes (fun s => f s a) (F a)) ->
  writes (fun s => foldR f s l) (folded F l).
Proof.
  induction l as [|a l IH]; intros H; [apply writes_Ok|].
  apply (writes_seq (fun s => f s a) (fun s => foldR f s l)).
  - apply H. left.
  - apply IH. intros b Hb. apply H. by right.
Qed.
Lemma folded_None {A} (F : A -> Writes) l n : (forall a, a ∈ l -> F a !! n = None) -> folded F l !! n = None.
Proof.
  induction l as [|a l IH]; intros H; cbn; [apply lookup_empty|]. rewrite lookup_union, IH, H; [done|left|].
  intros b Hb. apply H. by right.
Qed.
(** The members that write the namespace agree on it. *)
Lemma folded_Some {A} (F : A -> Writes) l n v a : a ∈ l -> F a !! n = Some v ->
  (forall b, b ∈ l -> F b !! n = None \/ F b !! n = Some v) -> folded F l !! n = Some v.
Proof.
  intros Ha Hv. induction l as [|b l IH]; intros H; [by apply elem_of_nil in Ha|]. cbn. rewrite lookup_union.
  assert (Hl : forall c, c ∈ l -> F c !! n = None \/ F c !! n = Some v) by (intros c Hc; apply H; by right).
  apply elem_of_cons in Ha as [<-|Ha].
  - assert (folded F l !! n = None \/ folded F l !! n = Some v) as [E|E]; [|by rewrite E, Hv..].
    clear -Hl. induction l as [|c l IH]; [left; apply lookup_empty|]. cbn. rewrite lookup_union.
    destruct IH as [E|E]; [intros d Hd; apply Hl; by right|rewrite E..].
    + destruct (Hl c) as [Hc|Hc]; [left|rewrite Hc; auto..].
    + right. by destruct (F c !! n).
  - rewrite IH by done. by destruct (F b !! n).
Qed.

(** ** One namespace *)

Lemma view_find s s' n k : find s' n k = find s n k -> view s' n k = view s n k.
Proof. unfold view. by intros ->. Qed.

Lemma Put_find s n k v ttl n' k' :
  find (Put s n k v ttl) n' k' = if decide (n = n' /\ k = k') then Some (putEntry (find s n k) (TrimSpace v) ttl) else find s n' k'.
Proof. unfold Put, putValue. by rewrite find_setEntry, find_namespaceMap. Qed.

Lemma putAll_other s n l n' k : n <> n' ->
  find (foldl (fun s (kv : string * string) => Put s n kv.1 kv.2 0) s l) n' k = find s n' k.
Proof. intros Hn. revert s. induction l as [|[a v] l IH]; intros s; cbn; [done|]. rewrite IH, Put_find, decide_False by naive_solver. done. Qed.
Lemma putAll_find s n l k : NoDup l.*1 ->
  find (foldl (fun s (kv : string * string) => Put s n kv.1 kv.2 0) s l) n k
  = match (list_to_map l : Vars) !! k with Some v => Some (putEntry (find s n k) (TrimSpace v) 0) | None => find s n k end.
Proof.
  revert s. induction l as [|[a v] l IH]; intros s Hnd; cbn; [by rewrite lookup_empty|].
  apply NoDup_cons in Hnd as [Ha Hnd]. rewrite IH by done. rewrite Put_find. destruct (decide (a = k)) as [->|Hk].
  - rewrite lookup_insert_eq, decide_True by done. by rewrite (not_elem_of_list_to_map_1 _ _ Ha).
  - rewrite lookup_insert_ne, decide_False by naive_solver. done.
Qed.
Lemma find_putAll s n kv n' k :
  find (putAll s n kv) n' k
  = if decide (n = n') then match kv !! k with Some v => Some (putEntry (find s n k) (TrimSpace v) 0) | None => find s n k end
    else find s n' k.
Proof.
  unfold putAll. destruct (decide (n = n')) as [<-|Hn]; [|by apply putAll_other].
  rewrite putAll_find by apply NoDup_fst_map_to_list. by rewrite list_to_map_to_list.
Qed.

Lemma view_putAll s n kv k :
  view (putAll s n kv) n k = match kv !! k with Some v => Some (TrimSpace v, 0) | None => view s n k end.
Proof.
  unfold view. rewrite find_putAll, decide_True by done. destruct (kv !! k); [|done]. apply view_putEntry.
Qed.

Lemma deleteKeys_spec keys n : forall s, (forall k, k ∈ keys -> is_Some (find s n k)) ->
  exists s', deleteKeys s n keys = Ok s'
  /\ (forall k, view s' n k = if decide (k ∈ keys) then None else view s n k)
  /\ (forall n' k, n' <> n \/ k ∉ keys -> find s' n' k = find s n' k).
Proof.
  induction keys as [|key keys IH]; intros s H; cbn.
  { exists s. split_and!; [done|intros k; by rewrite decide_False by apply not_elem_of_nil|done]. }
  pose proof (Delete_find s n key) as Hd. destruct (H key) as [e He]; [left|]. rewrite He in Hd. rewrite Hd. cbn.
  destruct (IH (setEntry s n key (tombstone e))) as (s' & Es & Hv & Ho).
  { intros k Hk. rewrite find_setEntry. case_decide; [by eexists|]. apply H. by right. }
  exists s'. split_and!; [exact Es| |].
  - intros k. rewrite Hv. destruct (decide (k ∈ keys)); [by rewrite decide_True by by right|].
    unfold view at 1. rewrite find_setEntry. destruct (decide (key = k)) as [->|Hk].
    + rewrite !decide_True; [done|by left|done].
    + rewrite decide_False by naive_solver. by rewrite decide_False by (rewrite elem_of_cons; naive_solver).
  - intros n' k Hk. rewrite Ho by (rewrite elem_of_cons in Hk; naive_solver). rewrite find_setEntry, decide_False; [done|].
    rewrite elem_of_cons in Hk. naive_solver.
Qed.

Lemma elem_of_GetKeys s n k : k ∈ GetKeys s n <-> is_Some (view s n k).
Proof.
  unfold GetKeys, view, find. destruct (s !! n) as [ns|]; cbn; [|split; [by intros ?%elem_of_nil|by intros [? [=]]]].
  rewrite list_elem_of_fmap. unfold view_entry. split.
  - intros ([k' e] & -> & [Hin Hd]%list_elem_of_In%filter_In). apply list_elem_of_In, elem_of_map_to_list in Hin. cbn in *.
    rewrite Hin. cbn. apply negb_true_iff in Hd. rewrite Hd. by eexists.
  - destruct (ns !! k) as [e|] eqn:E; cbn; [|by intros [? [=]]]. destruct (Deleted e =? 1) eqn:Ed; [by intros [? [=]]|]. intros _.
    exists (k, e). split; [done|]. apply list_elem_of_In, filter_In. cbn. rewrite Ed. split; [|done].
    by apply list_elem_of_In, elem_of_map_to_list.
Qed.
Lemma view_Some_find s n k : is_Some (view s n k) -> is_Some (find s n k).
Proof. unfold view. destruct (find s n k); [by eexists|by intros [? [=]]]. Qed.

Definition staleKeys (s : Store) (n : string) (kv : Vars) (policy : syncKeyPolicy) : list string :=
  List.filter (fun key => negb (spared policy key)) (Difference (GetKeys s n) (map_to_list kv).*1).
Lemma elem_of_staleKeys s n kv policy k :
  k ∈ staleKeys s n kv policy <-> is_Some (view s n k) /\ kv !! k = None /\ spared policy k = false.
Proof.
  unfold staleKeys. rewrite list_elem_of_In, filter_In, <- list_elem_of_In, elem_of_Difference, elem_of_GetKeys, negb_true_iff.
  assert (k ∉ (map_to_list kv).*1 <-> kv !! k = None) as ->; [|tauto]. rewrite list_elem_of_fmap. split.
  - intros H. destruct (kv !! k) as [v|] eqn:E; [|done]. destruct H. exists (k, v). by rewrite elem_of_map_to_list.
  - intros H ([k' v] & -> & Hin). apply elem_of_map_to_list in Hin. cbn in *. congruence.
Qed.

(** What a synchronisation leaves: the variables, the stale keys that are
    spared, and the entries of every other namespace. *)
Lemma sync_spec s n kv policy : exists s', syncNamespaceKeyValues s n kv policy = Ok s'
  /\ (forall k, view s' n k = match kv !! k with Some v => Some (TrimSpace v, 0) | None => if spared policy k then view s n k else None end)
  /\ (forall n' k, n' <> n -> find s' n' k = find s n' k)
  /\ (forall k, kv !! k = None -> spared policy k = true -> find s' n k = find s n k).
Proof.
  unfold syncNamespaceKeyValues. fold (staleKeys (putAll s n kv) n kv policy).
  destruct (deleteKeys_spec (staleKeys (putAll s n kv) n kv policy) n (putAll s n kv)) as (s' & E & Hv & Ho).
  { intros k [Hk _]%elem_of_staleKeys. by apply view_Some_find. }
  exists s'. split_and!; [exact E|..].
  - intros k. rewrite Hv, view_putAll. destruct (kv !! k) as [v|] eqn:Ek.
    + by rewrite decide_False by (intros (? & ? & ?)%elem_of_staleKeys; congruence).
    + destruct (spared policy k) eqn:Es; [by rewrite decide_False by (intros (? & ? & ?)%elem_of_staleKeys; congruence)|].
      case_decide as Hd; [done|]. rewrite elem_of_staleKeys, view_putAll, Ek in Hd.
      destruct (view s n k); [|done]. destruct Hd. split_and!; [by eexists|done..].
  - intros n' k Hn. rewrite Ho by by left. by rewrite find_putAll, decide_False by done.
  - intros k Hk Hs. rewrite Ho by (right; intros (? & ? & ?)%elem_of_staleKeys; congruence).
    rewrite find_putAll, (decide_True (P := n = n)) by done. by rewrite Hk.
Qed.

(** ** Synchronising again, and synchronising by parts *)

Lemma setEntry_same s n k e : find s n k = Some e -> setEntry s n k e = s.
Proof.
  unfold find, setEntry, namespaceMap. destruct (s !! n) as [ns|] eqn:E; cbn; [|done].
  intros Hk. rewrite (insert_id ns) by done. by rewrite insert_id.
Qed.
Lemma Put_same s n k v : view s n k = Some (TrimSpace v, 0) -> Put s n k v 0 = s.
Proof.
  intros H. unfold Put, putValue. rewrite find_namespaceMap. unfold view in H. destruct (find s n k) as [e|] eqn:E; [|done].
  cbn in H. unfold view_entry in H. destruct (Deleted e =? 1) eqn:Ed; [done|]. injection H as <- Ht.
  unfold putEntry. rewrite Ed, Ht, bool_decide_eq_true_2 by done. by apply setEntry_same.
Qed.
Lemma putAll_same s n kv : (forall k v, kv !! k = Some v -> view s n k = Some (TrimSpace v, 0)) -> putAll s n kv = s.
Proof.
  intros H. unfold putAll. assert (Hl : forall kv', kv' ∈ map_to_list kv -> view s n kv'.1 = Some (TrimSpace kv'.2, 0)).
  { intros [k v] Hin. apply H. by apply elem_of_map_to_list in Hin. }
  induction (map_to_list kv) as [|a l IH]; cbn; [done|]. rewrite Put_same by (apply Hl; left). apply IH.
  intros b Hb. apply Hl. by right.
Qed.

(** A second synchronisation of a namespace with the same variables
    changes nothing, whatever the policy: no version is bumped and no entry
    is written to the table again. *)
Theorem sync_idempotent s n kv policy s' : syncNamespaceKeyValues s n kv policy = Ok s' ->
  syncNamespaceKeyValues s' n kv policy = Ok s'.
Proof.
  intros E. destruct (sync_spec s n kv policy) as (s1 & E1 & Hv & _). rewrite E in E1. injection E1 as <-.
  unfold syncNamespaceKeyValues. rewrite putAll_same by (intros k v Hk; by rewrite Hv, Hk).
  fold (staleKeys s' n kv policy). destruct (staleKeys s' n kv policy) as [|k l] eqn:El; [done|].
  assert (k ∈ staleKeys s' n kv policy) as Hk by (rewrite El; left). apply elem_of_staleKeys in Hk as ([x Hx] & Hn & Hs).
  rewrite Hv, Hn, Hs in Hx. done.
Qed.
Lemma sync_idempotent_witness :
  let n := "kive/worker/10.0.0.1"%string in
  let s := Put (Put NewStore n "labels" "web" 0) n "old" "x" 0 in
  let kv : Vars := {["labels" := " eu "%string]} in
  exists s', syncNamespaceKeyValues s n kv syncKeyPolicyFull = Ok s'
    /\ syncNamespaceKeyValues s' n kv syncKeyPolicyFull = Ok s'
    /\ view s' n "labels" = Some ("eu"%string, 0) /\ view s' n "old" = None.
Proof.
  cbv zeta. set (n := "kive/worker/10.0.0.1"%string).
  destruct (sync_spec (Put (Put NewStore n "labels" "web" 0) n "old" "x" 0) n {["labels" := " eu "%string]} syncKeyPolicyFull) as (s' & E & V & _).
  exists s'. split; [exact E|split; [exact (sync_idempotent _ _ _ _ _ E)|]]. rewrite !V. split; vm_compute; reflexivity.
Defined.

(** The certificates and the other variables of an allocation share a
    namespace, and two parts of the build own one half each: in either order
    they leave exactly the union, and all the rest of the store as it was. *)
Theorem allocation_and_cert_syncs_commute s n (vars certs : Vars) :
  (forall k, is_Some (vars !! k) -> isCertKey k = false) -> (forall k, is_Some (certs !! k) -> isCertKey k = true) ->
  exists s1 s2,
    (let? s := syncAllocationKeyValues s n vars in syncCertKeyValues s n certs) = Ok s1
    /\ (let? s := syncCertKeyValues s n certs in syncAllocationKeyValues s n vars) = Ok s2
    /\ wrote {[n := vars ∪ certs]} s s1 /\ wrote {[n := vars ∪ certs]} s s2.
Proof.
  intros Hvars Hcerts. unfold syncAllocationKeyValues, syncCertKeyValues.
  destruct (sync_spec s n vars syncKeyPolicyAllocation) as (a & Ea & Va & Oa & _).
  destruct (sync_spec a n certs syncKeyPolicyCert) as (s1 & E1 & V1 & O1 & _).
  destruct (sync_spec s n certs syncKeyPolicyCert) as (b & Eb & Vb & Ob & _).
  destruct (sync_spec b n vars syncKeyPolicyAllocation) as (s2 & E2 & V2 & O2 & _).
  exists s1, s2. rewrite Ea, Eb. split_and!; [exact E1|exact E2|..]; intros n'; destruct (decide (n = n')) as [<-|Hn].
  - rewrite lookup_singleton_eq. intros k. rewrite V1, Va. unfold stored. rewrite lookup_union. unfold spared.
    destruct (certs !! k) eqn:Ec, (vars !! k) eqn:Ev, (isCertKey k) eqn:Ek; cbn; try done;
      [rewrite Hvars in Ek by eauto; done|rewrite Hcerts in Ek by eauto; done|rewrite Hvars in Ek by eauto; done].
  - rewrite lookup_singleton_ne by done. intros k. by rewrite O1, Oa.
  - rewrite lookup_singleton_eq. intros k. rewrite V2, Vb. unfold stored. rewrite lookup_union. unfold spared.
    destruct (certs !! k) eqn:Ec, (vars !! k) eqn:Ev, (isCertKey k) eqn:Ek; cbn; try done;
      rewrite Hcerts in Ek by eauto; done.
  - rewrite lookup_singleton_ne by done. intros k. by rewrite O2, Ob.
Qed.
Lemma allocation_and_cert_syncs_commute_witness :
  let n := "kive/job/web/worker/10.0.0.1"%string in
  let s := Put (Put NewStore n "certs/old.crt" "x" 0) n "stale" "x" 0 in
  exists s1, (let? s := syncAllocationKeyValues s n {["allocation_id" := "a1"%string]} in syncCertKeyValues s n {["certs/web.crt" := "PEM"%string]}) = Ok s1
    /\ view s1 n "allocation_id" = Some ("a1"%string, 0) /\ view s1 n "certs/old.crt" = None.
Proof.
  cbv zeta. set (n := "kive/job/web/worker/10.0.0.1"%string).
  destruct (allocation_and_cert_syncs_commute (Put (Put NewStore n "certs/old.crt" "x" 0) n "stale" "x" 0) n
    {["allocation_id" := "a1"%string]} {["certs/web.crt" := "PEM"%string]}) as (s1 & _ & E1 & _ & W & _).
  - intros k [v Hk]. apply lookup_singleton_Some in Hk as [<- _]. reflexivity.
  - intros k [v Hk]. apply lookup_singleton_Some in Hk as [<- _]. reflexivity.
  - exists s1. split; [exact E1|]. specialize (W n). rewrite lookup_singleton_eq in W. rewrite !W. split; vm_compute; reflexivity.
Defined.

(** ** The names of the namespaces *)

Inductive Ns :=
| NWorker (ip : string) | NTags (ip : string) | NShared
| NJob (job : string) | NBucketJob (job : string) | NVars (job : string) | NSecrets (job : string)
| NAlloc (job ip : string)
| NVarsBucket | NBucket.
#[export] Instance Ns_eq_dec : EqDecision Ns.
Proof. solve_decision. Defined.
Definition ns_path (x : Ns) : list string :=
  match x with
  | NWorker ip => ["kive"; "worker"; ip]
  | NTags ip => ["kive"; "worker"; ip; "tags"]
  | NShared => ["kive"; "worker"]
  | NJob job => ["kive"; "job"; job]
  | NBucketJob job => ["vars"; "bucket"; "job"; job]
  | NVars job => ["vars"; "job"; job]
  | NSecrets job => ["secrets"; "job"; job]
  | NAlloc job ip => ["kive"; "job"; job; "worker"; ip]
  | NVarsBucket => ["vars"; "bucket"]
  | NBucket => ["kive"; "bucket"]
  end.
Definition ns (x : Ns) : string := Join (ns_path x) "/".
(** The name of a job or the address of a worker is one component of a path. *)
Definition plain (name : string) : Prop := no_byte "/" name = true.
Definition ns_plain (x : Ns) : Prop :=
  match x with
  | NWorker ip | NTags ip => plain ip
  | NJob job | NBucketJob job | NVars job | NSecrets job => plain job
  | NAlloc job ip => plain job /\ plain ip
  | NShared | NVarsBucket | NBucket => True
  end.

Lemma ns_inj x y : ns_plain x -> ns_plain y -> ns x = ns y -> x = y.
Proof.
  assert (Hs : forall z, ns_plain z -> Split (ns z) "/" = ns_path z).
  { intros z Hz. apply (Split_Join (ns_path z) "/"); [by destruct z|].
    destruct z; cbn [ns_plain ns_path] in *; try match type of Hz with _ /\ _ => destruct Hz end;
      repeat (constructor; [first [assumption|reflexivity]|]); constructor. }
  intros Hx Hy E. assert (Hp : ns_path x = ns_path y) by by rewrite <- !Hs, E.
  destruct x, y; cbn in Hp; by simplify_eq.
Qed.
Lemma ns_single x y (v : Vars) : ns_plain x -> ns_plain y ->
  ({[ns y := v]} : Writes) !! ns x = if decide (x = y) then Some v else None.
Proof.
  intros Hx Hy. case_decide as Hd; [by rewrite Hd, lookup_singleton_eq|].
  rewrite lookup_singleton_ne; [done|]. intros E. by apply Hd, ns_inj.
Qed.

(** Of the members of a fold at most one owns the namespace. *)
Lemma folded_own {A} `{EqDecision A} (F : A -> Writes) l n a : (forall b, b ∈ l -> b <> a -> F b !! n = None) ->
  folded F l !! n = if decide (a ∈ l) then F a !! n else None.
Proof.
  intros H. case_decide as Ha.
  - destruct (F a !! n) as [v|] eqn:E.
    + apply (folded_Some _ _ _ v a); [done|done|]. intros b Hb. destruct (decide (b = a)) as [->|Hn]; [by right|left; by apply H].
    + apply folded_None. intros b Hb. destruct (decide (b = a)) as [->|Hn]; [done|by apply H].
  - apply folded_None. intros b Hb. apply H; [done|]. by intros ->.
Qed.

(** Namespaces that are emptied. *)
Definition cleared (namespaces : list string) : Writes := folded (fun n => {[n := ∅]}) namespaces.
Lemma cleared_in l n : cleared l !! n = if decide (n ∈ l) then Some ∅ else None.
Proof.
  unfold cleared. rewrite (folded_own _ l n n); [by rewrite lookup_singleton_eq|].
  intros b _ Hb. by rewrite lookup_singleton_ne.
Qed.
Lemma cleared_ns l x : ns_plain x -> Forall ns_plain l -> cleared (map ns l) !! ns x = if decide (x ∈ l) then Some ∅ else None.
Proof.
  intros Hx Hl. rewrite cleared_in. apply decide_ext. rewrite list_elem_of_fmap. split.
  - intros (y & E & Hy). rewrite Forall_forall in Hl. by rewrite (ns_inj x y) by auto.
  - intros Hin. by exists x.
Qed.

(** ** The steps as writes *)

Lemma sync_writes n kv : writes (fun s => syncKeyValues s n kv) {[n := kv]}.
Proof.
  intros s. destruct (sync_spec s n kv syncKeyPolicyFull) as (s' & E & V & O & _). exists s'. split.
  - rewrite <- E. unfold syncKeyValues, syncNamespaceKeyValues. f_equal. cbn. by rewrite (filter_true (Difference _ _)).
  - intros n'. destruct (decide (n = n')) as [<-|Hn]; [|by rewrite lookup_singleton_ne; auto].
    rewrite lookup_singleton_eq. intros k. rewrite V. unfold stored. by destruct (kv !! k).
Qed.
Lemma clear_writes l : writes (fun s => clearNamespaces s l) (cleared l).
Proof. apply (writes_foldR (fun s n => syncKeyValues s n ∅)). intros n _. apply sync_writes. Qed.
Lemma deleteAll_writes n : writes (fun s => deleteKeys s n (GetKeys s n)) {[n := ∅]}.
Proof.
  intros s. destruct (deleteKeys_spec (GetKeys s n) n s) as (s' & E & V & O).
  { intros k Hk%elem_of_GetKeys. by apply view_Some_find. }
  exists s'. split; [exact E|]. intros n'. destruct (decide (n = n')) as [<-|Hn].
  - rewrite lookup_singleton_eq. intros k. rewrite V. unfold stored. rewrite lookup_empty. case_decide as Hk; [done|].
    rewrite elem_of_GetKeys in Hk. destruct (view s n k); [by destruct Hk|done].
  - rewrite lookup_singleton_ne by done. intros k. apply O. left. congruence.
Qed.

Section build.
Context `{Unicode} (c : Catalog) (db : DB) (hostnameOf GetHashUUID : string -> string) (caCertificate trustBundle : string).
Context (loadJobBucketConfig loadWorkspaceJobVars : string -> result vars_error Vars).
Context (loadedVars : result vars_error Vars) (loadedRange : result vars_error PortRange) (bucketID : string).

Definition ok_or_empty (r : result vars_error Vars) : Vars := match r with Ok v => v | Err _ => ∅ end.

Lemma workerOf_listed ip : ip ∈ GetWorkers c [] -> is_Some (workerOf c ip).
Proof.
  unfold GetWorkers. intros (w & -> & Hw)%list_elem_of_fmap. rewrite merge_sort_Permutation in Hw. unfold workerOf.
  assert (Hin : w ∈ List.filter (fun w' => bool_decide (wkIP w' = wkIP w)) (workers c)).
  { apply list_elem_of_In, filter_In. split; [by apply list_elem_of_In|by apply bool_decide_eq_true]. }
  destruct (List.filter _ _); [by apply elem_of_nil in Hin|by eexists].
Qed.
Lemma jobOf_listed job : job ∈ GetJobs c -> is_Some (jobOf c job).
Proof.
  unfold GetJobs. intros (j & -> & Hj)%list_elem_of_fmap. unfold jobOf.
  assert (Hin : j ∈ List.filter (fun j' => bool_decide (jbName j' = jbName j)) (jobs c)).
  { apply list_elem_of_In, filter_In. split; [by apply list_elem_of_In|by apply bool_decide_eq_true]. }
  destruct (List.filter _ _); [by apply elem_of_nil in Hin|by eexists].
Qed.

Lemma workerVariables_ok ip : ip ∈ GetWorkers c [] -> is_ok (workerVariables c db hostnameOf ip) = true.
Proof.
  intros [w Hw]%workerOf_listed. unfold workerVariables, GetWorkerID, GetWorkerCPU, GetWorkerMemory, GetWorkerPosition. by rewrite Hw.
Qed.
Lemma jobVariables_ok job : job ∈ GetJobs c -> is_ok (jobVariables c db job) = true.
Proof.
  intros [j Hj]%jobOf_listed. unfold jobVariables, GetJobID, GetJobVersion, GetJobMemoryLimits, GetJobCPULimits, GetJobMemory, GetJobCPU, GetJobCPUShares.
  by rewrite Hj.
Qed.
Lemma ok_or_empty_spec r : is_ok r = true -> r = Ok (ok_or_empty r).
Proof. by destruct r. Qed.

(** *** Workers *)

Definition workerWrites (ip : string) : Writes :=
  {[ns (NTags ip) := ok_or_empty (workerTags c ip)]} ∪ {[ns (NWorker ip) := ok_or_empty (workerVariables c db hostnameOf ip)]}.
Lemma syncWorker_writes ip : ip ∈ GetWorkers c [] -> writes (fun s => syncWorker c db hostnameOf s ip) (workerWrites ip).
Proof.
  intros Hip. assert (Ht : is_ok (workerTags c ip) = true).
  { destruct (workerOf_listed ip Hip) as [w Hw]. unfold workerTags, GetWorkerID. by rewrite Hw. }
  apply (writes_ext (fun s =>
    let? s := store_result (syncKeyValues s (ns (NWorker ip)) (ok_or_empty (workerVariables c db hostnameOf ip))) in
    store_result (syncKeyValues s (ns (NTags ip)) (ok_or_empty (workerTags c ip))))).
  - intros s. unfold syncWorker. by rewrite (ok_or_empty_spec _ (workerVariables_ok ip Hip)), (ok_or_empty_spec _ Ht).
  - by apply (writes_seq (fun s => store_result (syncKeyValues s _ _)) (fun s => store_result (syncKeyValues s _ _))); apply writes_store, sync_writes.
Qed.
Definition removedWorkerWrites (ip : string) : Writes := cleared (map ns (NWorker ip :: map (fun job => NAlloc job ip) (GetAllocatedJobs db ip))).
Lemma clearRemovedWorker_writes ip : writes (fun s => clearRemovedWorker db s ip) (removedWorkerWrites ip).
Proof.
  unfold removedWorkerWrites. rewrite map_cons, map_map. apply writes_foldR. intros n _. apply deleteAll_writes.
Qed.
Definition workersWrites (removedWorkers : list string) : Writes :=
  folded removedWorkerWrites removedWorkers ∪ folded workerWrites (GetWorkers c []).
Lemma buildWorkerVariables_writes removedWorkers :
  writes (fun s => buildWorkerVariables c db hostnameOf s removedWorkers) (workersWrites removedWorkers).
Proof.
  apply (writes_seq (fun s => foldR (syncWorker c db hostnameOf) s (GetWorkers c []))).
  - apply writes_foldR. apply syncWorker_writes.
  - apply writes_store, writes_foldR. intros ip _. apply clearRemovedWorker_writes.
Qed.

(** *** Jobs *)

Context (wf : wf_db db).

Definition hasActive (job : string) : bool := (0 <? length (workersWhere db job isActive))%nat.
Lemma JobHasActiveAllocations_eq job : JobHasActiveAllocations db job = Some (hasActive job).
Proof. unfold JobHasActiveAllocations. by rewrite GetActiveAllocations_rows. Qed.

Definition hookNss (job : string) : list Ns := [NVars job; NSecrets job].
Definition buildNss (job : string) : list Ns := NJob job :: NBucketJob job :: map (NAlloc job) (GetAllocatedWorkers db job).
Lemma HookKVNamespaces_ns job : HookKVNamespaces job = map ns (hookNss job).
Proof. done. Qed.
Lemma buildNss_ns job : BuildJobKVNamespaces job ++ map (jobWorkerNamespace job) (GetAllocatedWorkers db job) = map ns (buildNss job).
Proof. cbn. by rewrite map_map. Qed.

(** The configuration files of a job that is synchronised can be read. *)
Definition settings_readable (job : string) : Prop :=
  is_ok (loadJobBucketConfig job) = true /\ is_ok (loadWorkspaceJobVars job) = true.
Definition bucketJobVariables (job : string) : Vars :=
  mergeJobBucketSettings (ok_or_empty (loadWorkspaceJobVars job)) (ok_or_empty (loadJobBucketConfig job)).
Definition jobWrites (deleteSecretsKV : bool) (job : string) : Writes :=
  (if jobShouldPurgeBuildKV db job then cleared (map ns (buildNss job))
   else {[ns (NBucketJob job) := bucketJobVariables job]} ∪ {[ns (NJob job) := ok_or_empty (jobVariables c db job)]})
  ∪ (if deleteSecretsKV && negb (hasActive job) then cleared (map ns (hookNss job)) else ∅).
Lemma syncJob_writes deleteSecretsKV job : job ∈ GetJobs c -> (jobShouldPurgeBuildKV db job = false -> settings_readable job) ->
  writes (fun s => syncJob c db loadJobBucketConfig loadWorkspaceJobVars deleteSecretsKV s job) (jobWrites deleteSecretsKV job).
Proof.
  intros Hj Hset. unfold jobWrites.
  apply (writes_seq (fun s => if deleteSecretsKV then
      let? hasActive := row (JobHasActiveAllocations db job) in
      if hasActive : bool then Ok s else store_result (purgeHookKVNamespaces s job) else Ok s) (fun s => if jobShouldPurgeBuildKV db job then _ else _)).
  - rewrite JobHasActiveAllocations_eq. cbn [row rbind]. destruct deleteSecretsKV; [|apply writes_Ok]. destruct (hasActive job); [apply writes_Ok|].
    apply writes_store, (clear_writes (map ns (hookNss job))).
  - destruct (jobShouldPurgeBuildKV db job).
    + unfold purgeBuildJobKVNamespaces. rewrite buildNss_ns. apply writes_store, clear_writes.
    + destruct Hset as [Hb Hv]; [done|]. rewrite (ok_or_empty_spec _ Hb), (ok_or_empty_spec _ (jobVariables_ok job Hj)), (ok_or_empty_spec _ Hv).
      cbn [rbind]. apply (writes_seq (fun s => store_result (syncKeyValues s (ns (NJob job)) (ok_or_empty (jobVariables c db job))))
        (fun s => store_result (syncKeyValues s (ns (NBucketJob job)) (bucketJobVariables job))));
        apply writes_store, sync_writes.
Qed.
Definition removedJobWrites (job : string) : Writes := cleared (map ns (hookNss job)) ∪ cleared (map ns (buildNss job)).
Lemma clearRemovedJob_writes job : writes (fun s => clearRemovedJob db s job) (removedJobWrites job).
Proof.
  unfold removedJobWrites. rewrite <- buildNss_ns. apply (writes_seq (fun s => purgeBuildJobKVNamespaces db s job)); apply clear_writes.
Qed.

Context (removedWorkers removedJobs : list string) (deleteSecretsKV : bool).

Definition jobsWrites : Writes := folded removedJobWrites removedJobs ∪ folded (jobWrites deleteSecretsKV) (GetJobs c).
Definition active : list string := List.filter hasActive (GetJobs c).
Lemma activeJobNames_eq l : activeJobNames db l = Some (List.filter hasActive l).
Proof.
  induction l as [|job l IH]; [done|]. cbn [activeJobNames]. rewrite JobHasActiveAllocations_eq, IH. cbn. by destruct (hasActive job).
Qed.
Definition bucketVariables : Vars := ok_or_empty (bucketConfig loadedVars loadedRange).
Definition bucketWrites : Writes := {[ns NBucket := kiveVariables c db bucketID active]} ∪ {[ns NVarsBucket := bucketVariables]}.
Definition buildWrites : Writes :=
  (bucketWrites ∪ {[ns NShared := sharedVariables c GetHashUUID caCertificate trustBundle]}) ∪ jobsWrites ∪ workersWrites removedWorkers.

Context (bucket_readable : is_ok loadedVars = true /\ is_ok loadedRange = true).
Context (readable : forall job, job ∈ GetJobs c -> jobShouldPurgeBuildKV db job = false -> settings_readable job).

Lemma BuildVariables_writes :
  writes (fun s => BuildVariables c db hostnameOf GetHashUUID caCertificate trustBundle loadJobBucketConfig loadWorkspaceJobVars
                     loadedVars loadedRange bucketID s removedWorkers removedJobs deleteSecretsKV) buildWrites.
Proof.
  apply (writes_seq (fun s => buildWorkerVariables c db hostnameOf s removedWorkers)); [apply buildWorkerVariables_writes|].
  eapply writes_ext; [|apply (writes_seq (fun s => buildJobVariables c db loadJobBucketConfig loadWorkspaceJobVars s removedJobs deleteSecretsKV)
    (fun s => let? s := buildSharedWorkerVariables c GetHashUUID caCertificate trustBundle s in
                buildBucketVariables c db loadedVars loadedRange bucketID s))].
  - done.
  - apply (writes_seq (fun s => foldR (syncJob c db loadJobBucketConfig loadWorkspaceJobVars deleteSecretsKV) s (GetJobs c))).
    + apply writes_foldR. intros job Hj. apply syncJob_writes; auto.
    + apply writes_store, writes_foldR. intros job _. apply clearRemovedJob_writes.
  - apply writes_seq; [apply writes_store, sync_writes|].
    apply (writes_ext (fun s => let? s := store_result (syncKeyValues s "vars/bucket" bucketVariables) in
      store_result (syncKeyValues s BucketKVNamespace (kiveVariables c db bucketID active)))).
    { intros s. unfold buildBucketVariables. rewrite activeJobNames_eq. unfold bucketVariables. destruct bucket_readable as [Hv Hr].
      unfold bucketConfig. destruct loadedVars, loadedRange; done. }
    apply (writes_seq (fun s => store_result (syncKeyValues s _ _)) (fun s => store_result (syncKeyValues s _ _))); apply writes_store, sync_writes.
Qed.

Lemma option_union_left_id (o : option Vars) : (None ∪ None) ∪ o = o.
Proof. by destruct o. Qed.

Lemma decide_both_union (P Q : Prop) `{Decision P, Decision Q} (v : Vars) (o : option Vars) :
  (if decide P then if decide Q then Some v else None else None) ∪ o = if decide (P /\ Q) then Some v else o.
Proof.
  destruct (decide P) as [p|p], (decide Q) as [q|q];
    [rewrite decide_True by done|rewrite decide_False by tauto..]; by destruct o.
Qed.

(** *** Reading a namespace off the writes *)

Record names_plain : Prop := {
  workers_plain : Forall plain (GetWorkers c []);
  removed_workers_plain : Forall plain removedWorkers;
  jobs_plain : Forall plain (GetJobs c);
  removed_jobs_plain : Forall plain removedJobs;
  allocations_plain : Forall (fun a => plain (aWorker a) /\ plain (aJob a)) (allocations db);
}.
Context (names : names_plain).

Lemma allocated_jobs_plain ip : Forall plain (GetAllocatedJobs db ip).
Proof.
  apply Forall_forall. unfold GetAllocatedJobs. intros j (a & -> & [Ha _]%list_elem_of_In%filter_In)%list_elem_of_fmap.
  pose proof (proj1 (Forall_forall _ _) (allocations_plain names) a) as Hp. by apply Hp, list_elem_of_In.
Qed.
Lemma allocated_workers_plain job : Forall plain (GetAllocatedWorkers db job).
Proof.
  apply Forall_forall. unfold GetAllocatedWorkers, workersWhere. intros j (a & -> & [Ha _]%list_elem_of_In%filter_In)%list_elem_of_fmap.
  pose proof (proj1 (Forall_forall _ _) (allocations_plain names) a) as Hp. by apply Hp, list_elem_of_In.
Qed.
Lemma buildNss_plain job : plain job -> Forall ns_plain (buildNss job).
Proof.
  intros Hj. unfold buildNss. repeat (constructor; [done|]). apply Forall_fmap.
  eapply Forall_impl; [apply allocated_workers_plain|]. done.
Qed.
Lemma hookNss_plain job : plain job -> Forall ns_plain (hookNss job).
Proof. intros Hj. by repeat constructor. Qed.
Lemma removedNss_plain ip : plain ip -> Forall ns_plain (NWorker ip :: map (fun job => NAlloc job ip) (GetAllocatedJobs db ip)).
Proof.
  intros Hi. constructor; [done|]. apply Forall_fmap. eapply Forall_impl; [apply allocated_jobs_plain|]. done.
Qed.

Lemma workerWrites_at ip x : plain ip -> ns_plain x -> workerWrites ip !! ns x
  = if decide (x = NTags ip) then Some (ok_or_empty (workerTags c ip))
    else if decide (x = NWorker ip) then Some (ok_or_empty (workerVariables c db hostnameOf ip)) else None.
Proof. intros Hi Hx. unfold workerWrites. rewrite lookup_union, !ns_single by done. by repeat case_decide. Qed.
Lemma removedWorkerWrites_at ip x : plain ip -> ns_plain x -> removedWorkerWrites ip !! ns x
  = if decide (x ∈ NWorker ip :: map (fun job => NAlloc job ip) (GetAllocatedJobs db ip)) then Some ∅ else None.
Proof. intros Hi Hx. apply cleared_ns; [done|by apply removedNss_plain]. Qed.
Lemma removedJobWrites_at job x : plain job -> ns_plain x -> removedJobWrites job !! ns x
  = if decide (x ∈ hookNss job ++ buildNss job) then Some ∅ else None.
Proof.
  intros Hj Hx. unfold removedJobWrites. rewrite lookup_union, !cleared_ns by (done || by apply hookNss_plain || by apply buildNss_plain).
  rewrite (decide_ext (x ∈ hookNss job ++ buildNss job) (x ∈ hookNss job \/ x ∈ buildNss job)) by apply elem_of_app.
  by repeat case_decide; try naive_solver.
Qed.
Lemma jobWrites_at job x : plain job -> ns_plain x -> jobWrites deleteSecretsKV job !! ns x
  = if decide (x ∈ hookNss job) then if deleteSecretsKV && negb (hasActive job) then Some ∅ else None
    else if jobShouldPurgeBuildKV db job then if decide (x ∈ buildNss job) then Some ∅ else None
    else if decide (x = NBucketJob job) then Some (bucketJobVariables job)
    else if decide (x = NJob job) then Some (ok_or_empty (jobVariables c db job)) else None.
Proof.
  intros Hj Hx. unfold jobWrites. rewrite lookup_union.
  assert (Hh : (if deleteSecretsKV && negb (hasActive job) then cleared (map ns (hookNss job)) else ∅) !! ns x
    = if decide (x ∈ hookNss job) then if deleteSecretsKV && negb (hasActive job) then Some ∅ else None else None).
  { destruct (deleteSecretsKV && _); [|rewrite lookup_empty; by case_decide]. rewrite cleared_ns by (done || by apply hookNss_plain). by case_decide. }
  rewrite Hh. assert (Hb : x ∈ hookNss job -> x ∉ buildNss job /\ x <> NBucketJob job /\ x <> NJob job).
  { unfold hookNss, buildNss. rewrite elem_of_cons, list_elem_of_singleton, !not_elem_of_cons, list_elem_of_fmap.
    intros [->| ->]; (split_and!; [done|done|by intros (? & ? & _)|done|done]). }
  destruct (jobShouldPurgeBuildKV db job).
  - rewrite cleared_ns by (done || by apply buildNss_plain). destruct (decide (x ∈ hookNss job)) as [Hx'|Hx'].
    + destruct (Hb Hx') as (Hn & _). rewrite (decide_False (P := x ∈ buildNss job)) by exact Hn. apply option_union_left_id.
    + by repeat case_decide.
  - rewrite lookup_union, !ns_single by done. destruct (decide (x ∈ hookNss job)) as [Hx'|Hx'].
    + destruct (Hb Hx') as (_ & Hn1 & Hn2). rewrite (decide_False (P := x = NBucketJob job)), (decide_False (P := x = NJob job)) by done.
      apply option_union_left_id.
    + by repeat case_decide.
Qed.

(** Whose namespace it is. *)
Definition owned_by_job (job : string) (x : Ns) : Prop :=
  match x with NJob j | NBucketJob j | NVars j | NSecrets j | NAlloc j _ => j = job | _ => False end.
Lemma owned_hooks job x : x ∈ hookNss job -> owned_by_job job x.
Proof. unfold hookNss. rewrite elem_of_cons, list_elem_of_singleton. by intros [->| ->]. Qed.
Lemma owned_build job x : x ∈ buildNss job -> owned_by_job job x.
Proof. unfold buildNss. rewrite !elem_of_cons, list_elem_of_fmap. by intros [->|[->|(? & -> & _)]]. Qed.
Lemma jobsWrites_at job x : plain job -> ns_plain x -> owned_by_job job x -> jobsWrites !! ns x
  = if decide (job ∈ removedJobs /\ x ∈ hookNss job ++ buildNss job) then Some ∅
    else if decide (job ∈ GetJobs c) then jobWrites deleteSecretsKV job !! ns x else None.
Proof.
  intros Hj Hx Ho. unfold jobsWrites. rewrite lookup_union.
  assert (Hown : forall b, b <> job -> owned_by_job b x -> False) by (intros b Hb Hb'; by destruct x; cbn in *; subst).
  rewrite (folded_own removedJobWrites _ _ job), (folded_own (jobWrites deleteSecretsKV) _ _ job).
  - rewrite removedJobWrites_at by done. apply decide_both_union.
  - intros b Hb Hne. rewrite jobWrites_at by (done || by eapply Forall_forall, Hb; apply jobs_plain).
    destruct (decide (x ∈ hookNss b)); [by destruct (Hown b Hne); apply owned_hooks|].
    destruct (jobShouldPurgeBuildKV db b); repeat (case_decide; [destruct (Hown b Hne); first [by apply owned_build|by subst]|]); done.
  - intros b Hb Hne. rewrite removedJobWrites_at by (done || by eapply Forall_forall, Hb; apply removed_jobs_plain).
    case_decide as Hd; [|done]. destruct (Hown b Hne). apply elem_of_app in Hd as [?|?]; [by apply owned_hooks|by apply owned_build].
Qed.
Lemma jobsWrites_foreign x : ns_plain x -> (forall job, ~ owned_by_job job x) -> jobsWrites !! ns x = None.
Proof.
  intros Hx Hno. unfold jobsWrites. rewrite lookup_union, !folded_None; [done|..]; intros b Hb.
  - rewrite jobWrites_at by (done || by eapply Forall_forall, Hb; apply jobs_plain).
    destruct (decide (x ∈ hookNss b)); [by destruct (Hno b); apply owned_hooks|].
    destruct (jobShouldPurgeBuildKV db b); repeat (case_decide; [destruct (Hno b); first [by apply owned_build|by subst]|]); done.
  - rewrite removedJobWrites_at by (done || by eapply Forall_forall, Hb; apply removed_jobs_plain).
    case_decide as Hd; [|done]. destruct (Hno b). apply elem_of_app in Hd as [?|?]; [by apply owned_hooks|by apply owned_build].
Qed.

Definition owned_by_worker (ip : string) (x : Ns) : Prop :=
  match x with NWorker i | NTags i | NAlloc _ i => i = ip | _ => False end.
Lemma owned_removed ip x : x ∈ NWorker ip :: map (fun job => NAlloc job ip) (GetAllocatedJobs db ip) -> owned_by_worker ip x.
Proof. rewrite elem_of_cons, list_elem_of_fmap. by intros [->|(? & -> & _)]. Qed.
Lemma workersWrites_at ip x : plain ip -> ns_plain x -> owned_by_worker ip x -> workersWrites removedWorkers !! ns x
  = if decide (ip ∈ removedWorkers /\ x ∈ NWorker ip :: map (fun job => NAlloc job ip) (GetAllocatedJobs db ip)) then Some ∅
    else if decide (ip ∈ GetWorkers c []) then workerWrites ip !! ns x else None.
Proof.
  intros Hi Hx Ho. unfold workersWrites. rewrite lookup_union.
  assert (Hown : forall b, b <> ip -> owned_by_worker b x -> False) by (intros b Hb Hb'; by destruct x; cbn in *; subst).
  rewrite (folded_own removedWorkerWrites _ _ ip), (folded_own workerWrites _ _ ip).
  - rewrite removedWorkerWrites_at by done. apply decide_both_union.
  - intros b Hb Hne. rewrite workerWrites_at by (done || by eapply Forall_forall, Hb; apply workers_plain).
    repeat (case_decide; [destruct (Hown b Hne); by subst|]). done.
  - intros b Hb Hne. rewrite removedWorkerWrites_at by (done || by eapply Forall_forall, Hb; apply removed_workers_plain).
    case_decide as Hd; [|done]. destruct (Hown b Hne). by apply owned_removed.
Qed.
Lemma workersWrites_foreign x : ns_plain x -> (forall ip, ~ owned_by_worker ip x) -> workersWrites removedWorkers !! ns x = None.
Proof.
  intros Hx Hno. unfold workersWrites. rewrite lookup_union, !folded_None; [done|..]; intros b Hb.
  - rewrite workerWrites_at by (done || by eapply Forall_forall, Hb; apply workers_plain).
    repeat (case_decide; [destruct (Hno b); by subst|]). done.
  - rewrite removedWorkerWrites_at by (done || by eapply Forall_forall, Hb; apply removed_workers_plain).
    case_decide as Hd; [|done]. destruct (Hno b). by apply owned_removed.
Qed.

Lemma bucketWrites_at x : ns_plain x -> (bucketWrites ∪ {[ns NShared := sharedVariables c GetHashUUID caCertificate trustBundle]}) !! ns x =
  match x with
  | NBucket => Some (kiveVariables c db bucketID active)
  | NVarsBucket => Some bucketVariables
  | NShared => Some (sharedVariables c GetHashUUID caCertificate trustBundle)
  | _ => None
  end.
Proof.
  intros Hx. unfold bucketWrites. generalize (sharedVariables c GetHashUUID caCertificate trustBundle) (kiveVariables c db bucketID active) bucketVariables.
  intros v1 v2 v3. rewrite !lookup_union, !ns_single by done. clear. by destruct x.
Qed.
Lemma buildWrites_at x : ns_plain x -> buildWrites !! ns x =
  match x with
  | NBucket => Some (kiveVariables c db bucketID active)
  | NVarsBucket => Some bucketVariables
  | NShared => Some (sharedVariables c GetHashUUID caCertificate trustBundle)
  | NWorker _ | NTags _ => workersWrites removedWorkers !! ns x
  | NAlloc _ _ => jobsWrites !! ns x ∪ workersWrites removedWorkers !! ns x
  | NJob _ | NBucketJob _ | NVars _ | NSecrets _ => jobsWrites !! ns x
  end.
Proof.
  intros Hx. pose proof (jobsWrites_foreign x Hx) as Hj. pose proof (workersWrites_foreign x Hx) as Hw.
  unfold buildWrites. rewrite (lookup_union _ (workersWrites removedWorkers)), (lookup_union _ jobsWrites), bucketWrites_at by done. revert Hj Hw.
  generalize (jobsWrites !! ns x) (workersWrites removedWorkers !! ns x). intros oj ow Hj Hw. clear -Hj Hw.
  destruct x; try (rewrite Hw by (intros ? [])); try (rewrite Hj by (intros ? [])); try done; by destruct oj, ow.
Qed.

Definition holds (s : Store) (n : string) (vars : Vars) : Prop := forall k, view s n k = stored vars k.
Definition untouched (s s' : Store) (n : string) : Prop := forall k, find s' n k = find s n k.
Lemma wrote_Some W s s' n v : wrote W s s' -> W !! n = Some v -> holds s' n v.
Proof. intros HW E. specialize (HW n). by rewrite E in HW. Qed.
Lemma wrote_None W s s' n : wrote W s s' -> W !! n = None -> untouched s s' n.
Proof. intros HW E. specialize (HW n). by rewrite E in HW. Qed.

(** The store after a build, by namespace. *)
Record Built (s s' : Store) : Prop := {
  built_worker : forall ip, ip ∈ GetWorkers c [] -> ip ∉ removedWorkers -> exists vars tags,
    workerVariables c db hostnameOf ip = Ok vars /\ workerTags c ip = Ok tags
    /\ holds s' (workerNamespace ip) vars /\ holds s' (tagsNamespace ip) tags;
  built_removed_worker : forall ip, ip ∈ removedWorkers ->
    holds s' (workerNamespace ip) ∅ /\ forall job, job ∈ GetAllocatedJobs db ip -> holds s' (jobWorkerNamespace job ip) ∅;
  built_job : forall job, job ∈ GetJobs c -> job ∉ removedJobs -> jobShouldPurgeBuildKV db job = false -> exists vars fromVars fromJobs,
    jobVariables c db job = Ok vars /\ loadWorkspaceJobVars job = Ok fromVars /\ loadJobBucketConfig job = Ok fromJobs
    /\ holds s' (jobNamespace job) vars /\ holds s' (bucketJobNamespace job) (mergeJobBucketSettings fromVars fromJobs);
  built_purged_job : forall job n, job ∈ removedJobs \/ job ∈ GetJobs c /\ jobShouldPurgeBuildKV db job = true ->
    n ∈ BuildJobKVNamespaces job ++ map (jobWorkerNamespace job) (GetAllocatedWorkers db job) -> holds s' n ∅;
  built_hooks_gone : forall job n, job ∈ removedJobs \/ job ∈ GetJobs c /\ deleteSecretsKV && negb (hasActive job) = true ->
    n ∈ HookKVNamespaces job -> holds s' n ∅;
  built_hooks_kept : forall job n, plain job -> job ∉ removedJobs -> job ∉ GetJobs c \/ deleteSecretsKV = false \/ hasActive job = true ->
    n ∈ HookKVNamespaces job -> untouched s s' n;
  built_allocation_kept : forall job ip, plain job -> plain ip -> job ∉ removedJobs -> ip ∉ removedWorkers ->
    job ∉ GetJobs c \/ jobShouldPurgeBuildKV db job = false -> untouched s s' (jobWorkerNamespace job ip);
  built_shared : holds s' "kive/worker" (sharedVariables c GetHashUUID caCertificate trustBundle);
  built_settings : exists vars, bucketConfig loadedVars loadedRange = Ok vars /\ holds s' "vars/bucket" vars;
  built_bucket : holds s' BucketKVNamespace (kiveVariables c db bucketID (List.filter hasActive (GetJobs c)));
}.

Lemma plain_worker ip : ip ∈ GetWorkers c [] -> plain ip.
Proof. intros Hi. eapply Forall_forall, Hi. by apply workers_plain. Qed.
Lemma plain_removed_worker ip : ip ∈ removedWorkers -> plain ip.
Proof. intros Hi. eapply Forall_forall, Hi. by apply removed_workers_plain. Qed.
Lemma plain_job job : job ∈ removedJobs \/ job ∈ GetJobs c -> plain job.
Proof. intros [Hj|Hj]; (eapply Forall_forall, Hj); [by apply removed_jobs_plain|by apply jobs_plain]. Qed.

Lemma jobs_purged job x : job ∈ removedJobs \/ job ∈ GetJobs c /\ jobShouldPurgeBuildKV db job = true -> x ∈ buildNss job ->
  jobsWrites !! ns x = Some ∅.
Proof.
  intros Hj Hx. assert (Hp : plain job) by (apply plain_job; tauto).
  assert (Hnp : ns_plain x) by (eapply Forall_forall, Hx; by apply buildNss_plain).
  rewrite (jobsWrites_at job) by (done || by apply owned_build). case_decide as Hd; [done|].
  destruct Hj as [Hr|[Hj Hs]]; [destruct Hd; rewrite elem_of_app; tauto|].
  rewrite decide_True by done. rewrite jobWrites_at, Hs by done. rewrite (decide_True (P := x ∈ buildNss job)) by done.
  rewrite decide_False; [done|]. revert Hx. unfold hookNss, buildNss. rewrite !elem_of_cons, list_elem_of_fmap.
  intros [->|[->|(? & -> & _)]] Hh; repeat (destruct Hh as [[=]|Hh]); by apply elem_of_nil in Hh.
Qed.
Lemma jobs_hooks job x : plain job -> x ∈ hookNss job -> jobsWrites !! ns x
  = if decide (job ∈ removedJobs) then Some ∅
    else if decide (job ∈ GetJobs c) then if deleteSecretsKV && negb (hasActive job) then Some ∅ else None else None.
Proof.
  intros Hp Hx. assert (Hnp : ns_plain x) by (eapply Forall_forall, Hx; by apply hookNss_plain).
  rewrite (jobsWrites_at job) by (done || by apply owned_hooks). rewrite jobWrites_at by done.
  rewrite (decide_True (P := x ∈ hookNss job)) by done.
  rewrite (decide_ext (job ∈ removedJobs /\ x ∈ hookNss job ++ buildNss job) (job ∈ removedJobs)) by (rewrite elem_of_app; tauto). done.
Qed.
Lemma jobs_synced job x : job ∈ GetJobs c -> job ∉ removedJobs -> jobShouldPurgeBuildKV db job = false -> ns_plain x -> owned_by_job job x ->
  x ∉ hookNss job -> jobsWrites !! ns x
  = if decide (x = NBucketJob job) then Some (bucketJobVariables job)
    else if decide (x = NJob job) then Some (ok_or_empty (jobVariables c db job)) else None.
Proof.
  intros Hj Hr Hs Hnp Ho Hh. assert (Hp : plain job) by (apply plain_job; tauto).
  rewrite (jobsWrites_at job) by done. rewrite decide_False by tauto. rewrite decide_True by done.
  rewrite jobWrites_at, Hs by done. by rewrite decide_False by done.
Qed.
Lemma not_hook job x : match x with NVars _ | NSecrets _ => False | _ => True end -> x ∉ hookNss job.
Proof. unfold hookNss. rewrite elem_of_cons, list_elem_of_singleton. by intros Hx [->| ->]. Qed.

Lemma wrote_built s s' : wrote buildWrites s s' -> Built s s'.
Proof.
  intros W. pose proof (fun x Hx v E => wrote_Some _ _ _ (ns x) v W (eq_trans (buildWrites_at x Hx) E)) as Some_at.
  pose proof (fun x Hx E => wrote_None _ _ _ (ns x) W (eq_trans (buildWrites_at x Hx) E)) as None_at. constructor.
  - intros ip Hi Hr. pose proof (plain_worker ip Hi) as Hp.
    exists (ok_or_empty (workerVariables c db hostnameOf ip)), (ok_or_empty (workerTags c ip)).
    split_and!; [by apply ok_or_empty_spec, workerVariables_ok| | |].
    + apply ok_or_empty_spec. destruct (workerOf_listed ip Hi) as [w Hw]. unfold workerTags, GetWorkerID. by rewrite Hw.
    + apply (Some_at (NWorker ip)); [done|]. rewrite (workersWrites_at ip), decide_False, decide_True, workerWrites_at by (done || tauto).
      by rewrite decide_False, decide_True.
    + apply (Some_at (NTags ip)); [done|]. rewrite (workersWrites_at ip), decide_False, decide_True, workerWrites_at by (done || tauto).
      by rewrite decide_True.
  - intros ip Hr. pose proof (plain_removed_worker ip Hr) as Hp. split.
    + apply (Some_at (NWorker ip)); [done|]. rewrite (workersWrites_at ip), decide_True by (done || (split; [done|left])). done.
    + intros job Hj. assert (Hpj : plain job) by (eapply Forall_forall, Hj; apply allocated_jobs_plain).
      assert (Hx : ns_plain (NAlloc job ip)) by by split.
      apply (Some_at (NAlloc job ip)); [done|]. rewrite (workersWrites_at ip), decide_True, (jobsWrites_at job); try done.
      * case_decide; [done|]. case_decide; [|done]. rewrite jobWrites_at, decide_False by (done || by apply not_hook).
        destruct (jobShouldPurgeBuildKV db job); repeat case_decide; done.
      * split; [done|]. right. apply list_elem_of_fmap. by exists job.
  - intros job Hj Hr Hs. destruct (readable job Hj Hs) as [Hb Hv]. pose proof (plain_job job (or_intror Hj)) as Hp.
    exists (ok_or_empty (jobVariables c db job)), (ok_or_empty (loadWorkspaceJobVars job)), (ok_or_empty (loadJobBucketConfig job)).
    split_and!; [by apply ok_or_empty_spec, jobVariables_ok|by apply ok_or_empty_spec..| |].
    + apply (Some_at (NJob job)); [done|]. rewrite (jobs_synced job) by (done || by apply not_hook). by rewrite decide_False, decide_True.
    + apply (Some_at (NBucketJob job)); [done|]. rewrite (jobs_synced job) by (done || by apply not_hook). by rewrite decide_True.
  - intros job n Hj Hn. rewrite buildNss_ns in Hn. apply list_elem_of_fmap in Hn as (x & -> & Hx).
    assert (Hnp : ns_plain x). { eapply Forall_forall, Hx. apply buildNss_plain, plain_job. tauto. }
    apply (Some_at x); [done|]. pose proof (jobs_purged job x Hj Hx) as Hw. apply owned_build in Hx.
    destruct x; try done; try (cbn in Hx; done). rewrite Hw. by destruct (workersWrites _ !! _).
  - intros job n Hj Hn. rewrite HookKVNamespaces_ns in Hn. apply list_elem_of_fmap in Hn as (x & -> & Hx).
    assert (Hp : plain job) by (apply plain_job; tauto). pose proof (jobs_hooks job x Hp Hx) as Hw.
    assert (Hnp : ns_plain x) by (eapply Forall_forall, Hx; by apply hookNss_plain).
    apply (Some_at x); [done|]. assert (jobsWrites !! ns x = Some ∅) as E.
    { rewrite Hw. clear Hw. case_decide; [done|]. destruct Hj as [Hj|[Hj ->]]; [done|]. by rewrite decide_True. }
    apply elem_of_cons in Hx as [->|[->|[]%elem_of_nil]%elem_of_cons]; done.
  - intros job n Hp Hr Hj Hn. rewrite HookKVNamespaces_ns in Hn. apply list_elem_of_fmap in Hn as (x & -> & Hx).
    pose proof (jobs_hooks job x Hp Hx) as Hw. assert (Hnp : ns_plain x) by (eapply Forall_forall, Hx; by apply hookNss_plain).
    apply (None_at x); [done|]. assert (jobsWrites !! ns x = None) as E.
    { rewrite Hw, decide_False by done. clear Hw. case_decide; [|done]. destruct Hj as [?|[->| ->]]; [done|done|by rewrite andb_false_r]. }
    apply elem_of_cons in Hx as [->|[->|[]%elem_of_nil]%elem_of_cons]; done.
  - intros job ip Hpj Hpi Hr Hi Hs. assert (Hx : ns_plain (NAlloc job ip)) by by split.
    apply (None_at (NAlloc job ip)); [done|].
    assert (jobsWrites !! ns (NAlloc job ip) = None) as ->.
    { rewrite (jobsWrites_at job), decide_False by (done || tauto). case_decide; [|done]. destruct Hs as [?|Hs]; [done|].
      by rewrite jobWrites_at, Hs, !decide_False by (done || by apply not_hook). }
    rewrite (workersWrites_at ip), decide_False by (done || tauto). case_decide; [|done].
    by rewrite workerWrites_at, !decide_False by done.
  - by apply (Some_at NShared).
  - exists bucketVariables. split; [|by apply (Some_at NVarsBucket)]. unfold bucketVariables, bucketConfig.
    destruct bucket_readable, loadedVars, loadedRange; done.
  - by apply (Some_at NBucket).
Qed.

(** C10: A build of the variables succeeds when the settings of the jobs it
    keeps can be read, and leaves every namespace as its owner is: that of a
    worker, of a job and of the bucket holds exactly the variables computed
    from the tables (a key that is no longer computed is gone), those of
    removed workers and of removed or purged jobs are empty, and the
    variables and secrets that hooks wrote for a job stay untouched, versions
    included, unless the job is removed, or idle and its secrets are to go. *)
Theorem BuildVariables_spec s : exists s',
  BuildVariables c db hostnameOf GetHashUUID caCertificate trustBundle loadJobBucketConfig loadWorkspaceJobVars
    loadedVars loadedRange bucketID s removedWorkers removedJobs deleteSecretsKV = Ok s' /\ Built s s'.
Proof.
  destruct (BuildVariables_writes s) as (s' & E & W). exists s'. split; [exact E|by apply wrote_built].
Qed.
End build.

(** ** A concrete build *)

Definition no_vars (_ : string) : result vars_error Vars := Ok ∅.
(** The rows of a second build: [db] was deleted from the workspace, and
    [10.0.0.9] with the only allocation of [db] left the cluster. *)
Definition vars_catalog : Catalog :=
  mkCatalog [mkWorkerRow "w1" "10.0.0.1" "2048" "500" 0] [("w1", "worker"); ("w1", "eu")] []
    [mkJobRow "j1" "web" "1.2.0" "0" "0" "256" "0" "0" "100" 0 defaultColumns; mkJobRow "j2" "web_api" "2.0.0" "0" "0" "256" "0" "0" "100" 0 defaultColumns]
    [("j1", "eu"); ("j2", "eu")] [mkPortRow "j1" "web_api_http" 30000 "tcp" "cluster"; mkPortRow "j2" "web_api_http" 30001 "tcp" "cluster"].
Definition vars_db : DB :=
  mkDB [mkAlloc "aaaaaa" "10.0.0.1" "web" 0 0 (Some "1.2.0"); mkAlloc "bbbbbb" "10.0.0.1" "web_api" 1 0 (Some "2.0.0");
        mkAlloc "cccccc" "10.0.0.9" "db" 0 1 (Some "1.0.0")] ∅ ∅.
Lemma vars_db_wf : wf_db vars_db.
Proof. split; apply (bool_decide_unpack _); vm_compute; exact I. Qed.
Lemma vars_names_plain : names_plain vars_catalog vars_db ["10.0.0.9"] ["db"].
Proof. constructor; repeat constructor. Qed.
Lemma BuildVariables_spec_witness :
  wf_db vars_db /\ names_plain vars_catalog vars_db ["10.0.0.9"] ["db"]
  /\ exists s', BuildVariables (H := ascii_unicode) vars_catalog vars_db (fun _ => "") id "CA" "TRUST" no_vars no_vars (Ok ∅) (Ok (mkRange 30000 32000)) "b1"
       NewStore ["10.0.0.9"] ["db"] true = Ok s'
     /\ holds s' "secrets/job/web_api" ∅ /\ holds s' "kive/job/db/worker/10.0.0.9" ∅
     /\ untouched NewStore s' "secrets/job/web".
Proof.
  split; [exact vars_db_wf|]. split; [exact vars_names_plain|].
  destruct (BuildVariables_spec (H := ascii_unicode) vars_catalog vars_db (fun _ => "") id "CA" "TRUST" no_vars no_vars (Ok ∅) (Ok (mkRange 30000 32000)) "b1"
    vars_db_wf ["10.0.0.9"] ["db"] true (conj eq_refl eq_refl) (fun _ _ _ => conj eq_refl eq_refl) vars_names_plain NewStore) as (s' & E & B).
  exists s'. split; [exact E|]. split; [|split].
  - apply (built_hooks_gone _ _ _ _ _ _ _ _ _ _ _ _ _ _ _ _ B "web_api"); [right; split; [|vm_compute; reflexivity]|];
      (right; left) || left.
  - apply (proj2 (built_removed_worker _ _ _ _ _ _ _ _ _ _ _ _ _ _ _ _ B "10.0.0.9" ltac:(left)) "db"). left.
  - apply (built_hooks_kept _ _ _ _ _ _ _ _ _ _ _ _ _ _ _ _ B "web"); [reflexivity|..].
    + by intros [[=]|Hn%elem_of_nil]%elem_of_cons.
    + right. right. vm_compute. reflexivity.
    + right. left.
Defined.

(** The prefix of a port's name does not keep the names of two jobs apart. *)
Lemma port_keys_collide :
  ValidateJobPortKey "web" "web_api_http" = None /\ ValidateJobPortKey "web_api" "web_api_http" = None
  /\ GetPortMap vars_catalog "web" !! "web_api_http" = Some "30000"%string
  /\ kiveVariables vars_catalog vars_db "b1" ["web"] !! "web_api_http" = Some "30001"%string.
Proof. split_and!; vm_compute; reflexivity. Qed.
