(* ===== verification/HealthSpec.v ===== *)
(** * workspace: the health_check section of a job

    workspace/health_check.go and data/job_health.go. What the JSON column of
    the catalog decodes to is an argument. *)
From S2P Require Import Prelude GoStrings Utils Ports JobConf.
Open Scope Z_scope.

Definition HealthKindLiveness : string := "liveness".
Definition HealthKindReadiness : string := "readiness".
Definition DefaultHealthCheckWaitAttempts : Z := 60.
Definition DefaultHealthCheckWaitIntervalSeconds : Z := 2.

(** A nil pointer is [None]. *)
Notation Spec := (option ManifestHealthCheck).
Definition kindChecks (k : option HealthCheckKind) : list HealthCheckProbe := match k with Some k => kChecks k | None => [] end.
Definition LivenessChecks (hc : Spec) : list HealthCheckProbe := match hc with Some hc => kindChecks (Liveness hc) | None => [] end.
Definition ReadinessChecks (hc : Spec) : list HealthCheckProbe := match hc with Some hc => kindChecks (Readiness hc) | None => [] end.
Definition HasLivenessProbes (hc : Spec) : bool := (0 <? length (LivenessChecks hc))%nat.
Definition HasReadinessProbes (hc : Spec) : bool := (0 <? length (ReadinessChecks hc))%nat.
Definition HasAnyProbes (hc : Spec) : bool := HasLivenessProbes hc || HasReadinessProbes hc.

Definition kindWait (k : option HealthCheckKind) : option HealthCheckWait := k ← k; kWait k.
Definition WaitFor (hc : Spec) (kind : string) : option HealthCheckWait :=
  hc ← hc;
  let local :=
    if String.eqb kind HealthKindLiveness then kindWait (Liveness hc)
    else if String.eqb kind HealthKindReadiness then kindWait (Readiness hc)
    else None in
  match local with Some w => Some w | None => hcWait hc end.

Definition emptyKind : HealthCheckKind := mkKind [] None.
Definition Normalize (hc : ManifestHealthCheck) : ManifestHealthCheck :=
  let hc :=
    match hcChecks hc with
    | [] => hc
    | checks =>
        let r := default emptyKind (Readiness hc) in
        mkHealthCheck (Liveness hc) (Some (mkKind (kChecks r ++ checks) (kWait r))) [] (TimeoutSeconds hc) (hcWait hc)
    end in
  match hcWait hc with
  | Some _ => hc
  | None => set_hcWait hc (Some (mkWait DefaultHealthCheckWaitAttempts DefaultHealthCheckWaitIntervalSeconds))
  end.

(** [raw] is what the column decodes to, [None] when it is NULL or empty or
    when there is no row. *)
Definition GetJobHealthCheck (raw : Spec) : Spec :=
  match raw with
  | None => None
  | Some spec => let spec := Some (Normalize spec) in if negb (HasAnyProbes spec) then None else spec
  end.

(** ** Validation *)

Inductive probe_error :=
| UnknownProbeType (kind : string) (idx : Z) (type : string)
| ProbeWithoutCommand (kind : string) (idx : Z)
| ProbeWithoutPort (kind : string) (idx : Z)
| ProbePortUndeclared (kind : string) (idx : Z) (port : string)
| ProbePathNotAbsolute (kind : string) (idx : Z).

Section validate.
Context `{Unicode}.
Definition probeType (probe : HealthCheckProbe) : string := ToLower (TrimSpace (pType probe)).
Definition validateProbe (kind : string) (idx : Z) (probe : HealthCheckProbe) (declared : list string) : option probe_error :=
  let type := probeType probe in
  if negb (mem type ["tcp"; "http"; "ssh"]) then Some (UnknownProbeType kind idx (pType probe))
  else if String.eqb type "ssh" then
    if String.eqb (TrimSpace (pCommand probe)) "" then Some (ProbeWithoutCommand kind idx) else None
  else
    let portName := TrimSpace (pPort probe) in
    if String.eqb portName "" then Some (ProbeWithoutPort kind idx)
    else if negb (mem portName declared) then Some (ProbePortUndeclared kind idx portName)
    else if String.eqb type "http" then
      let path := if String.eqb (pPath probe) "" then "/"%string else pPath probe in
      if negb (HasPrefix path "/") then Some (ProbePathNotAbsolute kind idx) else None
    else None.
Fixpoint validateProbeList (kind : string) (idx : Z) (probes : list HealthCheckProbe) (declared : list string) : option probe_error :=
  match probes with
  | [] => None
  | probe :: probes =>
      match validateProbe kind idx probe declared with
      | Some e => Some e
      | None => validateProbeList kind (idx + 1) probes declared
      end
  end.
Definition hasManifestHealthChecks (manifest : Manifest) : bool :=
  match mHealthCheck manifest with Some _ => HasAnyProbes (mHealthCheck manifest) | None => false end.
Definition ValidateHealthCheck (manifest : Manifest) : option probe_error :=
  if negb (hasManifestHealthChecks manifest) then None
  else
    let declared := Names (rPorts (mResources manifest)) in
    match validateProbeList HealthKindLiveness 0 (LivenessChecks (mHealthCheck manifest)) declared with
    | Some e => Some e
    | None => validateProbeList HealthKindReadiness 0 (ReadinessChecks (mHealthCheck manifest)) declared
    end.
End validate.
