(* ===== verification/HealthStatus.v ===== *)
(** * data: health snapshots

    data/health_status.go and data/worker_health.go: the latest rows of the
    health tables, their history, the uptime queries and the rollup of a job.
    A time is its seconds since 1970 in UTC, [zeroTime] the zero [time.Time];
    a text column that is NULL reads as the empty string. *)
From S2P Require Import Prelude GoStrings Utils Versions AllocState Catalog Calendar JobConf HealthSpec.
Open Scope Z_scope.

Inductive Status := Healthy | Unhealthy | Skipped.
#[export] Instance Status_eq_dec : EqDecision Status.
Proof. solve_decision. Defined.
Definition HealthKindPass : string := "pass".
Definition HealthKindFail : string := "fail".
Definition HealthKindSkip : string := "skip".

Definition zeroTime : Z := -62135596800.
(** [now] is the clock of the call. *)
Definition formatTimeUTC (now t : Z) : Z := if t =? zeroTime then now else t.
Definition nullIfEmpty `{Unicode} (s : string) : string := if String.eqb (TrimSpace s) "" then "" else s.

(** A row of either history has its place in the list for identifier. *)
Record HealthStatusRow := mkHealthRow {
  hsJob : string;
  hsAllocationID : string;
  hsWorkerIP : string;
  hsStatus : Status;
  hsLiveness : string;
  hsReadiness : string;
  hsDetail : string;
  hsCheckedAt : Z;
  hsRunID : string;
}.
Record WorkerHealthStatusRow := mkWorkerHealthRow {
  whWorkerIP : string;
  whStatus : Status;
  whDetail : string;
  whCheckedAt : Z;
  whRunID : string;
}.
Record HealthTables := mkHealthTables {
  health_status : gmap (string * string) HealthStatusRow;
  health_status_history : list HealthStatusRow;
  worker_health_status : gmap string WorkerHealthStatusRow;
  worker_health_status_history : list WorkerHealthStatusRow;
}.

(** ** Writes *)

Section writes.
Context `{Unicode} (now : Z).

Definition storedRow (row : HealthStatusRow) : HealthStatusRow :=
  mkHealthRow (hsJob row) (hsAllocationID row) (hsWorkerIP row) (hsStatus row) (nullIfEmpty (hsLiveness row))
    (nullIfEmpty (hsReadiness row)) (nullIfEmpty (hsDetail row)) (formatTimeUTC now (hsCheckedAt row)) (nullIfEmpty (hsRunID row)).
Definition UpsertHealthStatus (t : HealthTables) (rows : list HealthStatusRow) : HealthTables :=
  mkHealthTables (foldl (fun m row => <[(hsJob row, hsAllocationID row) := storedRow row]> m) (health_status t) rows)
    (health_status_history t) (worker_health_status t) (worker_health_status_history t).
(** The history keeps the run as it is. *)
Definition historyRow (row : HealthStatusRow) : HealthStatusRow :=
  mkHealthRow (hsJob row) (hsAllocationID row) (hsWorkerIP row) (hsStatus row) (nullIfEmpty (hsLiveness row))
    (nullIfEmpty (hsReadiness row)) (nullIfEmpty (hsDetail row)) (formatTimeUTC now (hsCheckedAt row)) (hsRunID row).
Definition AppendHealthHistory (t : HealthTables) (rows : list HealthStatusRow) : HealthTables :=
  mkHealthTables (health_status t) (health_status_history t ++ map historyRow rows)
    (worker_health_status t) (worker_health_status_history t).

Definition storedWorkerRow (row : WorkerHealthStatusRow) : WorkerHealthStatusRow :=
  mkWorkerHealthRow (whWorkerIP row) (whStatus row) (nullIfEmpty (whDetail row)) (formatTimeUTC now (whCheckedAt row)) (nullIfEmpty (whRunID row)).
Definition UpsertWorkerHealthStatus (t : HealthTables) (rows : list WorkerHealthStatusRow) : HealthTables :=
  mkHealthTables (health_status t) (health_status_history t)
    (foldl (fun m row => <[whWorkerIP row := storedWorkerRow row]> m) (worker_health_status t) rows) (worker_health_status_history t).
Definition workerHistoryRow (row : WorkerHealthStatusRow) : WorkerHealthStatusRow :=
  mkWorkerHealthRow (whWorkerIP row) (whStatus row) (nullIfEmpty (whDetail row)) (formatTimeUTC now (whCheckedAt row)) (whRunID row).
Definition AppendWorkerHealthHistory (t : HealthTables) (rows : list WorkerHealthStatusRow) : HealthTables :=
  mkHealthTables (health_status t) (health_status_history t) (worker_health_status t)
    (worker_health_status_history t ++ map workerHistoryRow rows).
End writes.

(** ** Lists of rows *)

Definition row_le (a b : HealthStatusRow) : Prop :=
  hsJob a <> hsJob b /\ String.le (hsJob a) (hsJob b) \/ hsJob a = hsJob b /\ String.le (hsWorkerIP a) (hsWorkerIP b).
#[export] Instance row_le_dec a b : Decision (row_le a b).
Proof. unfold row_le. apply _. Defined.
Definition ListHealthStatus (t : HealthTables) : list HealthStatusRow := merge_sort row_le (map_to_list (health_status t)).*2.
Definition ListHealthStatusForJob (t : HealthTables) (job : string) : list HealthStatusRow :=
  List.filter (fun r => bool_decide (hsJob r = job)) (ListHealthStatus t).
Definition worker_row_le (a b : WorkerHealthStatusRow) : Prop := String.le (whWorkerIP a) (whWorkerIP b).
#[export] Instance worker_row_le_dec a b : Decision (worker_row_le a b).
Proof. unfold worker_row_le. apply _. Defined.
Definition ListWorkerHealthStatus (t : HealthTables) : list WorkerHealthStatusRow :=
  merge_sort worker_row_le (map_to_list (worker_health_status t)).*2.
Definition ListWorkerHealthStatusForIP (t : HealthTables) (workerIP : string) : option WorkerHealthStatusRow :=
  worker_health_status t !! workerIP.

(** ORDER BY checked_at DESC, id DESC, on the time and the identifier. *)
Definition newer (a b : Z * nat) : Prop := b.1 < a.1 \/ a.1 = b.1 /\ (b.2 <= a.2)%nat.
Section history.
Context {R : Type} (checkedAt : R -> Z).
Definition newer_row (a b : nat * R) : Prop := newer (checkedAt a.2, a.1) (checkedAt b.2, b.1).
#[global] Instance newer_row_dec a b : Decision (newer_row a b).
Proof. unfold newer_row, newer. apply _. Defined.
Definition recent (limit : Z) (p : R -> bool) (rows : list R) : list (nat * R) :=
  take (Z.to_nat limit) (merge_sort newer_row (List.filter (fun ir => p ir.2) (imap pair rows))).
End history.
Definition historyLimit (limit : Z) : Z := if limit <? 1 then 20 else limit.
Definition ListHealthHistory (t : HealthTables) (job : string) (limit : Z) : list (nat * HealthStatusRow) :=
  recent hsCheckedAt (historyLimit limit * 16) (fun r => bool_decide (hsJob r = job)) (health_status_history t).
Definition listWorkerHealthHistory (t : HealthTables) (workerIP : string) (limit : Z) : list (nat * WorkerHealthStatusRow) :=
  recent whCheckedAt (historyLimit limit)
    (fun r => String.eqb workerIP "" || bool_decide (whWorkerIP r = workerIP)) (worker_health_status_history t).
Definition ListWorkerHealthHistoryAll (t : HealthTables) (limit : Z) := listWorkerHealthHistory t "" limit.
Definition ListWorkerHealthHistory (t : HealthTables) (workerIP : string) (limit : Z) := listWorkerHealthHistory t workerIP limit.

(** ** Uptime *)

(** [substr(checked_at, 1, 10)] and [substr(checked_at, 1, 13)]: the day and
    the hour of the timestamp. *)
Definition dayOf (t : Z) : Z := t / 86400.
Definition hourOf (t : Z) : Z := t / 3600.
(** SUM(CASE WHEN status = ...) over the rows of a group. *)
Definition countStatus {R} (status : R -> Status) (s : Status) (rows : list R) : Z :=
  Z.of_nat (length (List.filter (fun r => bool_decide (status r = s)) rows)).
Definition counts {R} (status : R -> Status) (checkedAt : R -> Z) (since : Z) (r : R) : bool :=
  (since <=? checkedAt r) && (bool_decide (status r = Healthy) || bool_decide (status r = Unhealthy)).
Definition group_le (a b : string * Z) : Prop := a.1 <> b.1 /\ String.le a.1 b.1 \/ a.1 = b.1 /\ a.2 <= b.2.
#[export] Instance group_le_dec a b : Decision (group_le a b).
Proof. unfold group_le. apply _. Defined.
(** GROUP BY name, period ORDER BY name, period: the group, then its healthy
    and unhealthy checks. *)
Definition uptime {R} (status : R -> Status) (checkedAt : R -> Z) (name : R -> string) (period : Z -> Z) (since : Z) (rows : list R)
    : list ((string * Z) * (Z * Z)) :=
  let rows := List.filter (counts status checkedAt since) rows in
  let group r := (name r, period (checkedAt r)) in
  map (fun g => let rows := List.filter (fun r => bool_decide (group r = g)) rows in
                (g, (countStatus status Healthy rows, countStatus status Unhealthy rows)))
      (merge_sort group_le (remove_dups (map group rows))).
Definition ListHealthDailyUptime (t : HealthTables) (since : Z) :=
  uptime hsStatus hsCheckedAt hsJob dayOf since (health_status_history t).
Definition ListHealthHourlyUptime (t : HealthTables) (since : Z) :=
  uptime hsStatus hsCheckedAt hsJob hourOf since (health_status_history t).
Definition ListWorkerHealthDailyUptime (t : HealthTables) (since : Z) :=
  uptime whStatus whCheckedAt whWorkerIP dayOf since (worker_health_status_history t).
Definition ListWorkerHealthHourlyUptime (t : HealthTables) (since : Z) :=
  uptime whStatus whCheckedAt whWorkerIP hourOf since (worker_health_status_history t).
Record HealthUptimeCounts := mkCounts { ucHealthy : Z; ucUnhealthy : Z }.
Definition Total (c : HealthUptimeCounts) : Z := ucHealthy c + ucUnhealthy c.
Definition HealthUptimeSince (t : HealthTables) (since : Z) : HealthUptimeCounts :=
  let rows := List.filter (counts hsStatus hsCheckedAt since) (health_status_history t) in
  mkCounts (countStatus hsStatus Healthy rows) (countStatus hsStatus Unhealthy rows).

(** ** Targets *)

Record DeployedAllocationTarget := mkTarget { tgJob : string; tgAllocationID : string; tgWorkerIP : string }.
Section targets.
(** [healthSpec] is [GetJobHealthCheck] of a job, [GetHooks] the hooks of a
    job and an event. *)
Variable healthSpec : string -> Spec.
Variable GetHooks : string -> string -> list string.

Definition JobHasHealthConfig (job : string) : bool :=
  if HasLivenessProbes (healthSpec job) || HasReadinessProbes (healthSpec job) then true
  else if (0 <? length (GetHooks job HealthKindLiveness))%nat then true
  else (0 <? length (GetHooks job HealthKindReadiness))%nat.
Definition ListJobsWithHealthConfig (db : DB) : list string := List.filter JobHasHealthConfig (GetDeployedJobs db).
Definition targetsOf (db : DB) (job : string) : option (list DeployedAllocationTarget) :=
  mapM (fun workerIP => allocID ← GetAllocationID db workerIP job; Some (mkTarget job allocID workerIP))
    (GetHealthCheckActiveAllocations db job).
Definition ListDeployedHealthTargets (db : DB) : option (list DeployedAllocationTarget) :=
  (@concat _) <$> mapM (targetsOf db) (ListJobsWithHealthConfig db).
End targets.

(** ** The rollup of a job *)

Inductive Color := Gray | Green | Yellow | Red.
Inductive Reason := NeverChecked | NoAllocations | LastCheck.
Record JobHealthRollup := mkRollup {
  ruColor : Color;
  ruReason : Reason;
  AllocationsTotal : Z;
  AllocationsHealthy : Z;
  AllocationsUnhealthy : Z;
  LastCheckedAt : Z;
  ruRunID : string;
}.
Definition RollupJobHealthColor (total healthy unhealthy : Z) : Color :=
  if (total =? 0) || ((healthy =? 0) && (unhealthy =? 0)) then Gray
  else if (unhealthy =? 0) && (0 <? healthy) then Green
  else if (healthy =? 0) && (0 <? unhealthy) then Red
  else if (0 <? healthy) && (0 <? unhealthy) then Yellow
  else Gray.
(** The loop over the targets: healthy, unhealthy, latest, run. *)
Fixpoint rollupLoop (byAlloc : gmap string HealthStatusRow) (targets : list DeployedAllocationTarget)
    (healthy unhealthy latest : Z) (runID : string) : Z * Z * Z * string :=
  match targets with
  | [] => (healthy, unhealthy, latest, runID)
  | target :: targets =>
      match byAlloc !! tgAllocationID target with
      | None => rollupLoop byAlloc targets healthy unhealthy latest runID
      | Some snap =>
          let healthy := match hsStatus snap with Healthy => healthy + 1 | _ => healthy end in
          let unhealthy := match hsStatus snap with Unhealthy => unhealthy + 1 | _ => unhealthy end in
          if latest <? hsCheckedAt snap
          then rollupLoop byAlloc targets healthy unhealthy (hsCheckedAt snap) (hsRunID snap)
          else rollupLoop byAlloc targets healthy unhealthy latest runID
      end
  end.
Definition snapshotsByAlloc (snapshots : list HealthStatusRow) : gmap string HealthStatusRow :=
  foldl (fun m snap => <[hsAllocationID snap := snap]> m) ∅ snapshots.
Definition SummarizeJobHealth (targets : list DeployedAllocationTarget) (snapshots : list HealthStatusRow) : JobHealthRollup :=
  if (length targets =? 0)%nat then mkRollup Gray NoAllocations 0 0 0 zeroTime ""
  else
    let '(healthy, unhealthy, latest, runID) := rollupLoop (snapshotsByAlloc snapshots) targets 0 0 zeroTime "" in
    let reason := if latest =? zeroTime then NeverChecked else LastCheck in
    mkRollup (RollupJobHealthColor (len targets) healthy unhealthy) reason (len targets) healthy unhealthy latest runID.
