(* ===== verification/HealthErrors.v ===== *)
(** * healthcheck: errors of a check

    healthcheck/errors.go, healthcheck/log.go and the classification of
    healthcheck/persist.go. An error is the tree that its wrapping makes; a
    leaf is its text. [errors.As] and the walk of
    [collectAllocationHealthErrors] are the functions on that tree. *)
From S2P Require Import Prelude GoStrings Utils.
Open Scope Z_scope.

Inductive error :=
| EText (text : string)
| ECancelled (text : string)
| EAllocation (job workerIP : string) (e : error)
| EHealthCheck (job : string) (e : error)
| ERun (job hook : string) (failures : list (string * error))
| EJoin (errs : list error)
| EBatch (failures : list (string * error))
| EWorker (e : error)
| EThen (e : error) (text : string).

Definition healthCheckTarget (job workerIP : string) : string :=
  if String.eqb workerIP "" then job else job +:+ " " +:+ workerIP.
Definition newline : string := String (ascii_of_nat 10) "".
(** The method [Error]. [EBatch] carries the job and the error of each
    [HealthCheckError]. *)
Fixpoint ErrorText (e : error) : string :=
  match e with
  | EText t | ECancelled t => t
  | EAllocation job ip e => healthCheckTarget job ip +:+ ": " +:+ ErrorText e
  | EHealthCheck job e => "job " +:+ job +:+ ": " +:+ ErrorText e
  | ERun job hook failures =>
      "job " +:+ job +:+ " hook " +:+ hook +:+ " failed: " +:+
      Join (map (fun f => let '(ip, e) := f in ip +:+ ": " +:+ ErrorText e) failures) "; "
  | EJoin errs => Join (map ErrorText errs) newline
  | EBatch failures => Join (map (fun f => let '(job, e) := f in "job " +:+ job +:+ ": " +:+ ErrorText e) failures) "; "
  | EWorker e => "worker health: " +:+ ErrorText e
  | EThen e t => ErrorText e +:+ "; " +:+ t
  end.

(** The first success along a list. *)
Fixpoint first_some {A B} (f : A -> option B) (l : list A) : option B :=
  match l with
  | [] => None
  | x :: l => match f x with Some y => Some y | None => first_some f l end
  end.

(** [errors.As] to an [AllocationHealthError]: depth first; a [RunError] and
    a [BatchHealthCheckError] unwrap to their failure when it is the only one,
    and to a sentinel otherwise. *)
Fixpoint asAllocation (e : error) : option (string * string * error) :=
  match e with
  | EText _ | ECancelled _ => None
  | EAllocation job ip e => Some (job, ip, e)
  | EHealthCheck _ e | EWorker e | EThen e _ => asAllocation e
  | ERun _ _ [(_, e)] | EBatch [(_, e)] => asAllocation e
  | ERun _ _ _ | EBatch _ => None
  | EJoin errs => first_some asAllocation errs
  end.
(** [errors.As] to a [HealthCheckError], with [k] done on the error in it. *)
Fixpoint asHealthCheck {A} (k : error -> option A -> A) (e : error) : option A :=
  match e with
  | EText _ | ECancelled _ => None
  | EHealthCheck _ e => Some (k e (asHealthCheck k e))
  | EAllocation _ _ e | EWorker e | EThen e _ => asHealthCheck k e
  | ERun _ _ [(_, e)] => asHealthCheck k e
  | EBatch [(_, e)] => Some (k e (asHealthCheck k e))
  | ERun _ _ _ | EBatch _ => None
  | EJoin errs => first_some (asHealthCheck k) errs
  end.
(** [errors.As] to a [RunError]: its failures. *)
Fixpoint asRun (e : error) : option (list (string * error)) :=
  match e with
  | EText _ | ECancelled _ => None
  | EAllocation _ _ e | EHealthCheck _ e | EWorker e | EThen e _ => asRun e
  | ERun _ _ failures => Some failures
  | EBatch [(_, e)] => asRun e
  | EBatch _ => None
  | EJoin errs => first_some asRun errs
  end.

(** The walk goes on into the error that [errors.As] found nothing in; nothing
    is found there either. *)
Fixpoint collectAllocationHealthErrors (e : error) : list (string * string * error) :=
  match e with
  | EJoin errs => flat_map collectAllocationHealthErrors errs
  | _ => match asAllocation e with Some a => [a] | None => [] end
  end.

Definition unwrapJoin (e : error) : list error := match e with EJoin errs => errs | _ => [e] end.
Definition joinProbeErrors (errs : list error) : option error :=
  match flat_map unwrapJoin errs with
  | [] => None
  | [e] => Some e
  | filtered => Some (EJoin filtered)
  end.

Definition failedWorkerIPs (e : error) : list string :=
  Unique (List.filter (fun ip => negb (String.eqb ip "")) (map (fun a => a.1.2) (collectAllocationHealthErrors e))).

(** The text after the last occurrence of [sep]. *)
Fixpoint afterLast (sep s : string) : option string :=
  match s with
  | EmptyString => None
  | String _ s' =>
      match afterLast sep s' with
      | Some r => Some r
      | None => if HasPrefix s sep then Some (String.substring (String.length sep) (String.length s) s) else None
      end
  end.
Definition strings_Contains (s sub : string) : bool := match String.index 0 sub s with Some _ => true | None => false end.

Section detail.
Context `{Unicode} (workerIP : string).
Definition detailOf (e : error) : option string :=
  (fun a => ErrorText a.2) <$> head (List.filter (fun a => bool_decide (a.1.2 = workerIP)) (collectAllocationHealthErrors e)).
Definition messageDetail (e : error) : string :=
  let msg := TrimSpace (ErrorText e) in
  if negb (String.eqb workerIP "") && strings_Contains msg workerIP then default msg (afterLast ": " msg) else msg.
(** [nested] is the answer for the first [HealthCheckError] in [e]. *)
Definition failureDetail (e : error) (nested : option string) : string :=
  match detailOf e with
  | Some t => t
  | None => match nested with Some t => t | None => messageDetail e end
  end.
Definition allocationFailureDetail (e : error) : string := failureDetail e (asHealthCheck failureDetail e).
End detail.

Definition healthCheckFailureWorkerIP (e : error) : string :=
  match asAllocation e with
  | Some (_, ip, _) => ip
  | None => match asRun e with Some ((ip, _) :: _) => ip | _ => "" end
  end.

(** ** Lines of the log *)

Definition logKindFailed (kind job workerIP detail : string) : string :=
  kind +:+ " check failed: " +:+ healthCheckTarget job workerIP +:+
  (if String.eqb detail "" then "" else ": " +:+ detail).
Definition logKindFailures (kind job : string) (e : error) : list string :=
  match collectAllocationHealthErrors e with
  | [] => [logKindFailed kind job (healthCheckFailureWorkerIP e) (ErrorText e)]
  | allocErrs => map (fun a => let '(job, ip, e) := a in logKindFailed kind job ip (ErrorText e)) allocErrs
  end.
Definition logKindFailedRetrying (kind job workerIP : string) (attempt attempts : Z) : string :=
  kind +:+ " check failed: " +:+ healthCheckTarget job workerIP +:+
  " (attempt " +:+ Itoa attempt +:+ "/" +:+ Itoa attempts +:+ "), retrying...".
Definition logHealthCheckPassed (job workerIP : string) : string := "health check passed: " +:+ healthCheckTarget job workerIP.
Definition logHealthCheckSkipped (job reason : string) : string := "health check skipped: " +:+ job +:+ " (" +:+ reason +:+ ")".

Definition newBatchHealthCheckError (failures : list (string * error)) : option error :=
  if (length failures =? 0)%nat then None else Some (EBatch failures).
Definition joinHealthRunErrors (workerErr jobErr : option error) : option error :=
  match workerErr, jobErr with
  | None, _ => jobErr
  | _, None => workerErr
  | Some w, Some j => Some (EThen w (ErrorText j))
  end.
