(* ===== verification/HealthCheck.v ===== *)
(** * healthcheck: probes, hooks, retries and recorded results

    healthcheck/execute.go, probes.go, recorder.go, persist.go, workers.go and
    options.go. The tables of the catalog do not change during a check; the
    state is the outside world [W], the health tables and the lines printed.

    The goroutines of a batch of probes, one for each worker, are independent:
    what each sees is a view of the world ([atProbe]), their errors arrive in
    an order of the world's ([arrival]). *)
From S2P Require Import Prelude GoStrings Utils Kv Rollout AllocState Deploy Catalog JobConf Calendar HealthSpec HealthStatus HealthErrors.
Open Scope Z_scope.

Definition defaultProbeTimeout : Z := 5 * second.
Definition waitRetryInterval : Z := second.

Record CheckOptions := mkCheckOptions {
  ProbeWorkers : list string;
  DeployMode : bool;
  Kind : string;
  PersistResults : bool;
  oRunID : string;
  (** whether there is a second connection for the results *)
  PersistDB : bool;
}.
Definition DeployOptions : CheckOptions := mkCheckOptions [] true "" false "" false.

(** ** The recorder (recorder.go) *)

Record allocationState := mkState { stLiveness : string; stReadiness : string; stStatus : Status; stDetail : string }.
Notation statusRecorder := (gmap string allocationState).
Definition passKind (kind : string) (st : allocationState) : allocationState :=
  let st := if String.eqb kind "liveness" then mkState HealthKindPass (stReadiness st) (stStatus st) (stDetail st)
            else if String.eqb kind "readiness" then mkState (stLiveness st) HealthKindPass (stStatus st) (stDetail st)
            else st in
  match stStatus st with
  | Unhealthy => st
  | _ => mkState (stLiveness st) (stReadiness st) Healthy (stDetail st)
  end.
Definition passWorker (kind : string) (r : statusRecorder) (workerIP : string) : statusRecorder :=
  if String.eqb workerIP "" then r
  else <[workerIP := passKind kind (default (mkState "" "" Healthy "") (r !! workerIP))]> r.
(** A state that [failWorker] makes has no status before it is set. *)
Definition failWorker (kind detail : string) (r : statusRecorder) (workerIP : string) : statusRecorder :=
  if String.eqb workerIP "" then r
  else
    let st := default (mkState "" "" Unhealthy "") (r !! workerIP) in
    <[workerIP := if String.eqb kind "readiness" then mkState (stLiveness st) HealthKindFail Unhealthy detail
                  else mkState HealthKindFail (stReadiness st) Unhealthy detail]> r.
Definition finalizeSuccess (r : statusRecorder) (workerIPs : list string) : statusRecorder :=
  foldl (fun r ip => passWorker "readiness" (passWorker "liveness" r ip) ip) r workerIPs.

(** ** The world *)

Record World (W : Type) := mkWorld {
  (** [ctx.Err], the error if the context is done *)
  ctxErr : W -> option error;
  sessionStore : W -> option Store;
  (** the view of the goroutine of a worker before it starts, of a goroutine
      before a probe; the world once all of a batch are done *)
  atSpawn : W -> string -> W;
  atProbe : W -> string -> nat -> W;
  afterProbes : W -> list string -> W;
  arrival : W -> list error -> list error;
  (** one probe: the error of a command, of a dial, of a request or the
      status of its answer; a timeout is in nanoseconds *)
  shell : W -> string -> string -> Z -> option string;
  dial : W -> string -> Z -> option string;
  httpGet : W -> string -> Z -> string + Z;
  (** wait for the interval, or until the context is done *)
  sleep : Z -> W -> W * option error;
  (** [hooks.RunHookOnWorkers] of a job, hook and event *)
  runHook : string -> string -> string -> list string -> Z -> list string -> W -> W * option error;
  clock : W -> Z;
  (** a transaction on the second connection, and the tables it sees *)
  begin_ : W -> W * option string;
  commit : W -> W * option string;
  committed : W -> DB;
}.
Arguments ctxErr {W}.
Arguments sessionStore {W}.
Arguments atSpawn {W}.
Arguments atProbe {W}.
Arguments afterProbes {W}.
Arguments arrival {W}.
Arguments shell {W}.
Arguments dial {W}.
Arguments httpGet {W}.
Arguments sleep {W}.
Arguments runHook {W}.
Arguments clock {W}.
Arguments begin_ {W}.
Arguments commit {W}.
Arguments committed {W}.

Record State (W : Type) := mkSt { world : W; tables : HealthTables; printed : list string }.
Arguments mkSt {W}.
Arguments world {W}.
Arguments tables {W}.
Arguments printed {W}.
Definition say {W} (s : State W) (lines : list string) : State W := mkSt (world s) (tables s) (printed s ++ lines).
Definition setWorld {W} (s : State W) (w : W) : State W := mkSt w (tables s) (printed s).
Definition setTables {W} (s : State W) (t : HealthTables) : State W := mkSt (world s) t (printed s).

Definition JoinHostPort (host : string) (port : Z) : string :=
  if strings_Contains host ":" then "[" +:+ host +:+ "]:" +:+ Itoa port else host +:+ ":" +:+ Itoa port.
Definition probeTimeout (spec : Spec) : Z :=
  match spec with
  | Some spec => if TimeoutSeconds spec <=? 0 then defaultProbeTimeout else wrap64 (wrap64 (TimeoutSeconds spec) * second)
  | None => defaultProbeTimeout
  end.

Section check.
Context `{Unicode} {W : Type} (fx : World W).
Notation St := (State W).
Notation step := (St -> St * option error).
(** [strconv.Quote], for the texts of errors. *)
Variable Quote : string -> string.
Variable databaseError : error.
(** The tables of the transaction: allocations, workers and jobs, the decoded
    health_check column, the hooks, and the limit on restarts of a job. *)
Variable db : DB.
Variable c : Catalog.
Variable health_check : string -> Spec.
Variable GetHooks : string -> string -> list string.
Variable GetMaxConcurrentRestarts : string -> result error Z.
(** [bucket.HealthWaitSecondsFromConfig] and [bucket.SSHPort]. *)
Variable healthWaitSeconds sshPort : result error Z.

Definition specOf (job : string) : Spec := GetJobHealthCheck (health_check job).
Definition resolveHealthCheckWorkers (db : DB) (job : string) (deployMode : bool) : list string :=
  if deployMode then GetDeployedActiveAllocations db job else GetHealthCheckActiveAllocations db job.
Definition resolveProbeWorkers (job : string) (opts : CheckOptions) : list string :=
  if (0 <? length (ProbeWorkers opts))%nat then ProbeWorkers opts else resolveHealthCheckWorkers db job (DeployMode opts).
Definition orderOf (w : W) (job : string) (workers : list string) : result error ResolvedOrder :=
  ResolveOrder (Ok (GetNonRemovedAllocationsOrdered c db job)) (sessionStore fx w) job workers.

(** ** One probe (probes.go) *)

Definition probeSSH (w : W) (workerIP command : string) (timeout : Z) : option error :=
  let command := TrimSpace command in
  if String.eqb command "" then Some (EText ("ssh " +:+ workerIP +:+ ": empty command"))
  else (fun e => EText ("ssh " +:+ workerIP +:+ ": " +:+ e)) <$> shell fx w workerIP command timeout.
Definition probeTCP (w : W) (host : string) (port timeout : Z) : option error :=
  let addr := JoinHostPort host port in
  (fun e => EText ("tcp " +:+ addr +:+ ": " +:+ e)) <$> dial fx w addr timeout.
Definition probeHTTP (w : W) (host : string) (port : Z) (probe : HealthCheckProbe) (timeout : Z) : option error :=
  let scheme := ToLower (TrimSpace (pScheme probe)) in
  let scheme := if String.eqb scheme "" then "http"%string else scheme in
  let path := if String.eqb (pPath probe) "" then "/"%string else pPath probe in
  let expectStatus := if ExpectStatus probe =? 0 then 200 else ExpectStatus probe in
  let url := scheme +:+ "://" +:+ host +:+ ":" +:+ Itoa port +:+ path in
  match httpGet fx w url timeout with
  | inl e => Some (EText ("http " +:+ url +:+ ": " +:+ e))
  | inr status =>
      if status =? expectStatus then None
      else Some (EText ("http " +:+ url +:+ ": status " +:+ Itoa status +:+ " want " +:+ Itoa expectStatus))
  end.
Definition runProbe (w : W) (job workerIP : string) (idx : nat) (probe : HealthCheckProbe) (timeout : Z) : option error :=
  let type := ToLower (TrimSpace (pType probe)) in
  if String.eqb type "ssh" then probeSSH w workerIP (pCommand probe) timeout
  else if String.eqb type "tcp" || String.eqb type "http" then
    let portName := TrimSpace (pPort probe) in
    match GetPortNumber c job portName with
    | None => Some (EText ("invalid job.conf: job " +:+ job +:+ " port " +:+ Quote portName))
    | Some port =>
        if EqualFold (TrimSpace (pType probe)) "tcp" then probeTCP w workerIP port timeout
        else probeHTTP w workerIP port probe timeout
    end
  else Some (EText ("health_check.checks[" +:+ Itoa (Z.of_nat idx) +:+ "]: unsupported type " +:+ Quote (pType probe))).

(** The goroutine of a worker: what it sends. *)
Fixpoint probeWorker (w : W) (job ip : string) (timeout : Z) (idx : nat) (checks : list HealthCheckProbe) : option error :=
  match checks with
  | [] => None
  | probe :: checks =>
      let v := atProbe fx w ip idx in
      match ctxErr fx v with
      | Some e => Some e
      | None =>
          match runProbe v job ip idx probe timeout with
          | Some e => Some (EAllocation job ip e)
          | None => probeWorker w job ip timeout (S idx) checks
          end
      end
  end.
Definition isActiveOn (job ip : string) (s : unit) : result error bool :=
  match IsAllocationActive db ip job with Some b => Ok b | None => Err databaseError end.
Definition runManifestProbesOnWorkers (w : W) (job : string) (checks : list HealthCheckProbe) (timeout : Z) (workerIPs : list string)
    : W * option error :=
  if (length workerIPs =? 0)%nat || (length checks =? 0)%nat then (w, None)
  else
    match activeWorkers (isActiveOn job) workerIPs tt with
    | Err e => (w, Some e)
    | Ok activeIPs =>
        if (length activeIPs =? 0)%nat then (w, None)
        else
          match first_some (fun ip => ctxErr fx (atSpawn fx w ip)) activeIPs with
          | Some e => (afterProbes fx w activeIPs, Some e)
          | None =>
              (afterProbes fx w activeIPs,
               joinProbeErrors (arrival fx w (omap (fun ip => probeWorker w job ip timeout 0 checks) activeIPs)))
          end
    end.
Fixpoint probeBatches (w : W) (job : string) (checks : list HealthCheckProbe) (timeout : Z) (batches : list (list string)) (errs : list error)
    : W * option error :=
  match batches with
  | [] => (w, joinProbeErrors errs)
  | batchIPs :: batches =>
      match ctxErr fx w with
      | Some e => (w, Some e)
      | None =>
          let '(w, err) := runManifestProbesOnWorkers w job checks timeout batchIPs in
          probeBatches w job checks timeout batches (errs ++ option_list err)
      end
  end.
Definition runManifestProbes (w : W) (job : string) (checks : list HealthCheckProbe) (timeout : Z) (opts : CheckOptions) : W * option error :=
  if (length checks =? 0)%nat then (w, None)
  else
    let workers := resolveProbeWorkers job opts in
    if (length workers =? 0)%nat then (w, None)
    else
      match orderOf w job workers with
      | Err e => (w, Some e)
      | Ok resolved =>
          match GetMaxConcurrentRestarts job with
          | Err e => (w, Some e)
          | Ok batchSize => probeBatches w job checks timeout (SplitWorkerBatches (Ordered resolved) batchSize) []
          end
      end.

(** ** Hooks and one pass (execute.go) *)

(** The loop over the hooks; [runBatches] returns the errors it joins. *)
Definition joinErrors (errs : list error) : list error :=
  match errs with [] => [] | [e] => [e] | _ => [EJoin errs] end.
Fixpoint hookLoop (w : W) (job event : string) (resolved : ResolvedOrder) (batchSize : Z) (commands : list string) (errs : list error)
    : W * option error :=
  match commands with
  | [] => (w, joinProbeErrors errs)
  | commandName :: commands =>
      match ctxErr fx w with
      | Some e => (w, Some e)
      | None =>
          let base := mkBatchContext "" event 0 0 [] (FullOrder resolved) (Source resolved) in
          let '(w, failed) := RunHookInBatches (ctxErr fx) (runHook fx job commandName event) None true
                                job (Ordered resolved) batchSize base [] w in
          hookLoop w job event resolved batchSize commands (errs ++ joinErrors failed)
      end
  end.
Definition runHealthHooks (w : W) (job event : string) (commands : list string) (deployMode : bool) : W * option error :=
  match orderOf w job (resolveHealthCheckWorkers db job deployMode) with
  | Err e => (w, Some e)
  | Ok resolved =>
      match GetMaxConcurrentRestarts job with
      | Err e => (w, Some e)
      | Ok batchSize => hookLoop w job event resolved batchSize commands []
      end
  end.
Definition runOnce (w : W) (job kind : string) (opts : CheckOptions) (spec : Spec) (probes : list HealthCheckProbe) (commands : list string)
    : W * option error :=
  let '(w, e1) := if (0 <? length probes)%nat then runManifestProbes w job probes (probeTimeout spec) opts else (w, None) in
  let '(w, e2) := if (0 <? length commands)%nat then runHealthHooks w job kind commands (DeployMode opts) else (w, None) in
  (w, joinProbeErrors (option_list e1 ++ option_list e2)).
Definition waitConfig (spec : Spec) (kind : string) : result error (Z * Z) :=
  let? seconds := healthWaitSeconds in
  let attempts := if seconds <? 1 then 1 else seconds in
  match WaitFor spec kind with
  | None => Ok (attempts, waitRetryInterval)
  | Some w =>
      Ok (if 0 <? Attempts w then Attempts w else attempts,
          if 0 <? IntervalSeconds w then wrap64 (IntervalSeconds w * second) else waitRetryInterval)
  end.

(** A pass or a failure of a kind in the recorder, if there is one. *)
Definition recordPass (job kind : string) (opts : CheckOptions) (rec : option statusRecorder) : option statusRecorder :=
  (fun r => foldl (passWorker kind) r (resolveHealthCheckWorkers db job (DeployMode opts))) <$> rec.
Definition recordFailure (kind : string) (e : error) (rec : option statusRecorder) : option statusRecorder :=
  (fun r => foldl (fun r ip => failWorker kind (allocationFailureDetail ip e) r ip) r (failedWorkerIPs e)) <$> rec.
Definition kindFailed (s : St) (job kind : string) (e : error) (rec : option statusRecorder) : St * option statusRecorder * option error :=
  (say s (logKindFailures kind job e), recordFailure kind e rec, Some (EHealthCheck job e)).

(** The attempts from [attempt] on, [n] of them. *)
Fixpoint attemptsLoop (s : St) (job kind : string) (opts : CheckOptions) (spec : Spec) (probes : list HealthCheckProbe)
    (commands : list string) (rec : option statusRecorder) (attempt attempts interval : Z) (lastErr : error) (n : nat)
    : St * option statusRecorder * option error :=
  match n with
  | O => kindFailed s job kind lastErr rec
  | S n =>
      match ctxErr fx (world s) with
      | Some e => (s, rec, Some e)
      | None =>
          match runOnce (world s) job kind opts spec probes commands with
          | (w, None) => (setWorld s w, recordPass job kind opts rec, None)
          | (w, Some lastErr) =>
              let s := setWorld s w in
              match ctxErr fx w with
              | Some e => (s, rec, Some e)
              | None =>
                  let s := say s [logKindFailedRetrying kind job (healthCheckFailureWorkerIP lastErr) attempt attempts] in
                  match sleep fx interval (world s) with
                  | (w, Some e) => (setWorld s w, rec, Some e)
                  | (w, None) => attemptsLoop (setWorld s w) job kind opts spec probes commands rec (attempt + 1) attempts interval lastErr n
                  end
              end
          end
      end
  end.
Definition runHealthKind (s : St) (job : string) (wait : bool) (opts : CheckOptions) (kind : string) (spec : Spec)
    (probes : list HealthCheckProbe) (commands : list string) (rec : option statusRecorder)
    : St * option statusRecorder * option error :=
  if negb wait then
    match runOnce (world s) job kind opts spec probes commands with
    | (w, Some e) => kindFailed (setWorld s w) job kind e rec
    | (w, None) => (setWorld s w, recordPass job kind opts rec, None)
    end
  else
    match waitConfig spec kind with
    | Err e => (s, rec, Some e)
    | Ok (attempts, interval) =>
        attemptsLoop s job kind opts spec probes commands rec 1 attempts interval (EText "") (Z.to_nat attempts)
    end.

(** ** Recorded results (persist.go) *)

Definition persistLockAttempts : nat := 5.
Definition isSQLiteLocked (msg : string) : bool :=
  let msg := ToLower msg in strings_Contains msg "database is locked" || strings_Contains msg "sqlite_busy".
Definition persistFn : Type := Z -> DB -> HealthTables -> result error HealthTables.
Definition persistOnce (fn : persistFn) (s : St) : St * option error :=
  match begin_ fx (world s) with
  | (w, Some e) => (setWorld s w, Some (EText e))
  | (w, None) =>
      match fn (clock fx w) (committed fx w) (tables s) with
      | Err e => (setWorld s w, Some e)
      | Ok t =>
          match commit fx w with
          | (w, Some e) => (setWorld s w, Some (EText e))
          | (w, None) => (mkSt w t (printed s), None)
          end
      end
  end.
(** The loop of [persistWith] on the second connection: [attempt] counts, [n]
    are left. *)
Fixpoint persistRetry (fn : persistFn) (s : St) (attempt : Z) (last : option error) (n : nat) : St * option error :=
  match n with
  | O => (s, last)
  | S n =>
      let s := if 0 <? attempt then setWorld s (sleep fx (attempt * 50 * 1000000) (world s)).1 else s in
      match persistOnce fn s with
      | (s, None) => (s, None)
      | (s, Some e) => if isSQLiteLocked (ErrorText e) then persistRetry fn s (attempt + 1) (Some e) n else (s, Some e)
      end
  end.
Definition persistWith (opts : CheckOptions) (fn : persistFn) (s : St) : St * option error :=
  if PersistDB opts then persistRetry fn s 0 None persistLockAttempts
  else match fn (clock fx (world s)) db (tables s) with
       | Err e => (s, Some e)
       | Ok t => (setTables s t, None)
       end.

Definition writeRows (now : Z) (t : HealthTables) (rows : list HealthStatusRow) : HealthTables :=
  AppendHealthHistory now (UpsertHealthStatus now t rows) rows.
Definition persistSkippedJob (now : Z) (job runID reason : string) (t : HealthTables) : HealthTables :=
  writeRows now t [mkHealthRow job "" "" Skipped HealthKindSkip HealthKindSkip reason now runID].

Definition orElse (s default_ : string) : string := if String.eqb s "" then default_ else s.
(** The row of a worker of a job without an error. *)
Definition passRow (now : Z) (job runID allocID workerIP : string) (rec : option statusRecorder) : HealthStatusRow :=
  let st := r ← rec; (r : statusRecorder) !! workerIP in
  let kind col := match st with Some st => orElse (col st) HealthKindPass | None => HealthKindPass end in
  mkHealthRow job allocID workerIP Healthy (kind stLiveness) (kind stReadiness) "" now runID.
(** The row of a worker of a job with an error, if there is one. *)
Definition failRow (now : Z) (job runID allocID workerIP : string) (rec : option statusRecorder) (jobErr : error) : option HealthStatusRow :=
  let failedIPs := failedWorkerIPs jobErr in
  let st := r ← rec; (r : statusRecorder) !! workerIP in
  let row status liveness readiness detail := Some (mkHealthRow job allocID workerIP status liveness readiness detail now runID) in
  if mem workerIP failedIPs || (length failedIPs =? 0)%nat then
    let detail := allocationFailureDetail workerIP jobErr in
    match st with
    | Some st => row Unhealthy (orElse (stLiveness st) HealthKindFail) (orElse (stReadiness st) HealthKindSkip) (orElse (stDetail st) detail)
    | None => row Unhealthy HealthKindFail HealthKindSkip detail
    end
  else
    match st with
    | Some st =>
        if bool_decide (stStatus st = Unhealthy) then row Unhealthy (stLiveness st) (stReadiness st) (stDetail st)
        else if String.eqb (stLiveness st) HealthKindPass || String.eqb (stReadiness st) HealthKindPass then
          row Healthy (orElse (stLiveness st) HealthKindPass) (orElse (stReadiness st) HealthKindPass) ""%string
        else None
    | None => None
    end.
Definition workerRow (now : Z) (job runID : string) (rec : option statusRecorder) (jobErr : option error) (allocID workerIP : string)
    : option HealthStatusRow :=
  match jobErr with
  | None => Some (passRow now job runID allocID workerIP rec)
  | Some e => failRow now job runID allocID workerIP rec e
  end.
Definition jobRows (view : DB) (now : Z) (job runID : string) (rec : option statusRecorder) (jobErr : option error) (workers : list string)
    : option (list HealthStatusRow) :=
  ids ← mapM (fun ip => GetAllocationID view ip job) workers;
  Some (omap (fun p => workerRow now job runID rec jobErr p.1 p.2) (zip ids workers)).
Definition persistJobHealthResults (job runID : string) (rec : option statusRecorder) (jobErr : option error)
    (now : Z) (view : DB) (t : HealthTables) : result error HealthTables :=
  if String.eqb runID "" then Ok t
  else
    let workers := resolveHealthCheckWorkers view job false in
    if (length workers =? 0)%nat then Ok (persistSkippedJob now job runID "no allocations" t)
    else if negb (JobHasHealthConfig specOf GetHooks job) then
      Ok (persistSkippedJob now job runID "no health_check config or commands" t)
    else
      let rec := match jobErr with None => (fun r => finalizeSuccess r workers) <$> rec | Some _ => rec end in
      match jobRows view now job runID rec jobErr workers with
      | None => Err databaseError
      | Some rows =>
          let rows := match rows, jobErr with
                      | [], Some e => [mkHealthRow job "" "" Unhealthy HealthKindFail HealthKindSkip (TrimSpace (ErrorText e)) now runID]
                      | _, _ => rows
                      end in
          Ok (if (length rows =? 0)%nat then t else writeRows now t rows)
      end.

(** ** A job (execute.go) *)

Definition kindFilter (kind : string) : result error (bool * bool) :=
  let k := ToLower (TrimSpace kind) in
  if mem k [""; "all"] then Ok (true, true)
  else if String.eqb k HealthKindLiveness then Ok (true, false)
  else if String.eqb k HealthKindReadiness then Ok (false, true)
  else Err (EText ("invalid health check kind " +:+ Quote kind +:+ " (want liveness, readiness, or all)")).
Definition persists (opts : CheckOptions) : bool := PersistResults opts && negb (String.eqb (oRunID opts) "").
(** The results are written when they are wanted; a failure to write them is
    the error. *)
Definition persistResults (opts : CheckOptions) (job : string) (rec : option statusRecorder) (jobErr : option error) (s : St)
    : St * option error :=
  if persists opts then
    match persistWith opts (persistJobHealthResults job (oRunID opts) rec jobErr) s with
    | (s, Some e) => (s, Some e)
    | (s, None) => (s, jobErr)
    end
  else (s, jobErr).
Definition logPasses (job : string) (verbose : bool) (opts : CheckOptions) : list string :=
  if verbose then map (logHealthCheckPassed job) (resolveHealthCheckWorkers db job (DeployMode opts))
  else [logHealthCheckPassed job ""].
(** One kind, if it is configured. *)
Definition checkKind (s : St) (job : string) (wait : bool) (opts : CheckOptions) (kind : string) (has : bool) (spec : Spec)
    (probes : list HealthCheckProbe) (commands : list string) (rec : option statusRecorder) : St * option statusRecorder * option error :=
  if has then runHealthKind s job wait opts kind spec probes commands rec else (s, rec, None).
Definition HealthCheckWithOptions (s : St) (wait : bool) (job : string) (verbose : bool) (opts : CheckOptions) : St * option error :=
  if (length (resolveHealthCheckWorkers db job (DeployMode opts)) =? 0)%nat
  then (say s [logHealthCheckSkipped job "no allocations"], None)
  else
    let spec := specOf job in
    let livenessHooks := GetHooks job HealthKindLiveness in
    let readinessHooks := GetHooks job HealthKindReadiness in
    match kindFilter (Kind opts) with
    | Err e => (s, Some e)
    | Ok (runLiveness, runReadiness) =>
        let hasLiveness := runLiveness && (HasLivenessProbes spec || (0 <? length livenessHooks)%nat) in
        let hasReadiness := runReadiness && (HasReadinessProbes spec || (0 <? length readinessHooks)%nat) in
        if negb hasLiveness && negb hasReadiness then
          let s := say s [logHealthCheckSkipped job "no health_check config or commands"] in
          if persists opts then
            persistWith opts (fun now _ t => Ok (persistSkippedJob now job (oRunID opts) "no health_check config or commands" t)) s
          else (s, None)
        else
          let rec := if PersistResults opts then Some (∅ : statusRecorder) else None in
          match checkKind s job wait opts HealthKindLiveness hasLiveness spec (LivenessChecks spec) livenessHooks rec with
          | (s, rec, Some e) => persistResults opts job rec (Some e) s
          | (s, rec, None) =>
              match checkKind s job wait opts HealthKindReadiness hasReadiness spec (ReadinessChecks spec) readinessHooks rec with
              | (s, rec, Some e) => persistResults opts job rec (Some e) s
              | (s, rec, None) => persistResults opts job rec None (say s (logPasses job verbose opts))
              end
          end
    end.
Definition DeployHealthCheck (s : St) (wait : bool) (job : string) (verbose : bool) : St * option error :=
  HealthCheckWithOptions s wait job verbose DeployOptions.

(** ** The catalog's workers (workers.go) *)

(** The workers and the port; no port is read when there is no worker. *)
Definition catalogWorkers : result error (list string * Z) :=
  let workers := GetWorkers c [] in
  if (length workers =? 0)%nat then Ok ([], 0) else let? port := sshPort in Ok (workers, port).
(** The dial of a worker sees the world as [atProbe] gives it. *)
Definition dialWorker (w : W) (now port : Z) (runID workerIP : string) : WorkerHealthStatusRow * option error :=
  match probeTCP (atProbe fx w workerIP 0) workerIP port defaultProbeTimeout with
  | None => (mkWorkerHealthRow workerIP Healthy "" now runID, None)
  | Some e => (mkWorkerHealthRow workerIP Unhealthy (ErrorText e) now runID,
               Some (EText ("worker " +:+ workerIP +:+ " ssh port " +:+ Itoa port +:+ ": " +:+ ErrorText e)))
  end.
(** The rows, the error and the lines printed, in the order of the workers. *)
Definition dialWorkers (w : W) (workers : list string) (port : Z) (runID : string)
    : list WorkerHealthStatusRow * option error * list string :=
  if (length workers =? 0)%nat then ([], None, [])
  else
    let results := map (dialWorker w (clock fx w) port runID) workers in
    let results := List.filter (fun r => negb (String.eqb (whWorkerIP r.1) "")) results in
    match omap snd results with
    | [] => (results.*1, None, ["worker health check passed"])
    | fails => (results.*1, Some (EWorker (EJoin fails)), map (fun e => "worker health check failed: " +:+ ErrorText e) fails)
    end.
Definition persistWorkerHealthResults (rows : list WorkerHealthStatusRow) : persistFn :=
  fun now _ t => Ok (AppendWorkerHealthHistory now (UpsertWorkerHealthStatus now t rows) rows).
Definition persistWorkerRows (opts : CheckOptions) (rows : list WorkerHealthStatusRow) (s : St) : St * option error :=
  if String.eqb (oRunID opts) "" || (length rows =? 0)%nat then (s, None)
  else persistWith opts (persistWorkerHealthResults rows) s.

(** ** Several jobs (execute.go) *)

(** A job that fails does not stop the next one; a done context does. *)
Fixpoint jobsLoop (s : St) (wait verbose : bool) (opts : CheckOptions) (jobNames : list string) (failures : list (string * error))
    : St * list (string * error) :=
  match jobNames with
  | [] => (s, failures)
  | jobName :: jobNames =>
      match ctxErr fx (world s) with
      | Some _ => (s, failures)
      | None =>
          match HealthCheckWithOptions s wait jobName verbose opts with
          | (s, None) => jobsLoop s wait verbose opts jobNames failures
          | (s, Some (EHealthCheck job e)) => jobsLoop s wait verbose opts jobNames (failures ++ [(job, e)])
          | (s, Some e) => jobsLoop s wait verbose opts jobNames (failures ++ [(jobName, e)])
          end
      end
  end.
(** The dials run beside the jobs; they start from the same world, print
    first here and are recorded last: they share no row with a job. *)
Definition RunJobsWithOptions (s : St) (wait verbose : bool) (jobNames : list string) (opts : CheckOptions) : St * option error :=
  let catalog := catalogWorkers in
  let '(rows, workerErr, lines) :=
    match catalog with
    | Err e => ([], Some e, [])
    | Ok ([], _) => ([], None, ["worker health check skipped: no workers"%string])
    | Ok (workers, port) => dialWorkers (world s) workers port (oRunID opts)
    end in
  let '(s, failures) := jobsLoop (say s lines) wait verbose opts (Unique jobNames) [] in
  let jobErr := newBatchHealthCheckError failures in
  let '(s, perr) := persistWorkerRows opts rows s in
  let workerErr := match workerErr with Some e => Some e | None => perr end in
  match ctxErr fx (world s) with
  | Some e => (s, Some e)
  | None =>
      match catalog, jobErr with
      | Err e, None => (s, Some e)
      | _, _ => (s, joinHealthRunErrors workerErr jobErr)
      end
  end.
Definition parseJobFilter (jobsComma : string) : list string :=
  if String.eqb (TrimSpace jobsComma) "" then []
  else List.filter (fun part => negb (String.eqb part "")) (map TrimSpace (Split jobsComma ","%char)).
(** [ExecuteContext] once the databases and the runtime are open; [newRunID]
    is the identifier made when [runID] is blank. *)
Definition Execute (s : St) (wait verbose : bool) (jobsComma kind runID newRunID : string) : St * option error :=
  let deployed := GetDeployedJobs db in
  let jobFilter := parseJobFilter jobsComma in
  let run jobNames :=
    let runID := if String.eqb (TrimSpace runID) "" then newRunID else runID in
    RunJobsWithOptions s wait verbose jobNames (mkCheckOptions [] false kind true runID true) in
  match jobFilter with
  | [] => run deployed
  | _ =>
      match Difference jobFilter deployed with
      | [] => run jobFilter
      | unknown => (s, Some (EText ("jobs not deployed: [" +:+ Join unknown " " +:+ "]")))
      end
  end.
End check.
