(* ===== verification/HealthFacts.v ===== *)
(** * healthcheck: facts

    A check that passes has run every probe and hook on every worker; a check
    that waits stops at the first pass; what a check leaves in the health
    tables; the colour of a job. *)
From S2P Require Import Prelude GoStrings Utils Kv Rollout AllocState AllocStateFacts Deploy DeployFacts Catalog Ports JobConf.
From S2P Require Import Calendar HealthSpec HealthStatus HealthErrors HealthCheck.
Open Scope Z_scope.

(** ** Lists *)

Lemma first_some_none {A B} (f : A -> option B) l : first_some f l = None <-> forall x, x ∈ l -> f x = None.
Proof.
  induction l as [|x l IH]; cbn [first_some]; [split; [intros _ x []%elem_of_nil|done]|].
  destruct (f x) as [y|] eqn:E; [split; [done|intros Hall; rewrite (Hall x) in E by apply list_elem_of_here; done]|].
  rewrite IH. split; [intros Hl z [->|Hz]%elem_of_cons; eauto|intros Hall z Hz; apply Hall; by right].
Qed.
Lemma omap_nil {A B} (f : A -> option B) l : omap f l = [] <-> forall x, x ∈ l -> f x = None.
Proof.
  induction l as [|x l IH]; cbn; [split; [intros _ x []%elem_of_nil|done]|].
  destruct (f x) as [y|] eqn:E; [split; [done|intros Hall; rewrite (Hall x) in E by apply list_elem_of_here; done]|].
  rewrite IH. split; [intros Hl z [->|Hz]%elem_of_cons; eauto|intros Hall z Hz; apply Hall; by right].
Qed.

(** ** Joined errors *)

(** An error that wraps no list of errors; a join is of two or more of them. *)
Definition plain (e : error) : Prop := match e with EJoin _ => False | _ => True end.
Definition sound (e : error) : Prop := unwrapJoin e <> [] /\ Forall plain (unwrapJoin e).
Lemma plain_sound e : plain e -> sound e.
Proof. destruct e; cbn; intros Hp; (split; [done|constructor; [done|constructor]]) || done. Qed.

Lemma join_none errs : Forall sound errs -> joinProbeErrors errs = None -> errs = [].
Proof.
  intros Hs Hn. destruct Hs as [|e errs [He _] _]; [done|]. unfold joinProbeErrors in Hn. cbn [flat_map] in Hn.
  destruct (unwrapJoin e) as [|a l]; [done|]. cbn [app] in Hn. by destruct (l ++ flat_map unwrapJoin errs).
Qed.
Lemma join_sound errs e : Forall sound errs -> joinProbeErrors errs = Some e -> sound e.
Proof.
  intros Hs. assert (Hp : Forall plain (flat_map unwrapJoin errs)).
  { induction Hs as [|x errs [_ Hx] _ IH]; cbn [flat_map]; [constructor|]. by apply Forall_app. }
  unfold joinProbeErrors. destruct (flat_map unwrapJoin errs) as [|a [|b l]]; [done| |]; intros [= <-].
  - apply plain_sound. by apply Forall_inv in Hp.
  - by split.
Qed.
Lemma join_option errs o : Forall sound errs -> (forall e, o = Some e -> sound e) -> Forall sound (errs ++ option_list o).
Proof. intros Hs Ho. apply Forall_app. split; [done|]. destruct o; cbn; [constructor; [by apply Ho|constructor]|constructor]. Qed.

(** ** The order and the active workers *)

Lemma resolved_covers {E} catalog store job candidates (r : ResolvedOrder) ip :
  ResolveOrder (E := E) (Ok catalog) store job candidates = Ok r -> ip ∈ candidates -> ip ∈ Ordered r.
Proof.
  intros Hr Hin. unfold ResolveOrder in Hr. destruct candidates as [|x xs]; [by apply elem_of_nil in Hin|].
  cbn [length Nat.eqb rbind] in Hr.
  assert (Hd : ip ∈ defaultCatalogOrder catalog (x :: xs)).
  { unfold defaultCatalogOrder. apply (proj1 (appendMissing_spec _ _)). by right. }
  destruct (readRolloutOrderKV store job); [|by injection Hr as <-].
  destruct (validateRolloutOrderList _ _) eqn:Ev; injection Hr as <-; [done|]. cbn [Ordered].
  apply validate_spec in Ev as [_ Hs]. unfold orderByList. apply elem_of_list_filter_b.
  rewrite bool_decide_eq_true, Hs, !elem_set_of. done.
Qed.
Lemma ResolveOrder_ok {E} catalog store job candidates : exists r, ResolveOrder (E := E) (Ok catalog) store job candidates = Ok r.
Proof. unfold ResolveOrder. repeat case_match; cbn [rbind]; eauto; repeat case_match; eauto. Qed.
Lemma IsAllocationActive_row db a : wf_db db -> a ∈ allocations db -> isActive a = true ->
  IsAllocationActive db (aWorker a) (aJob a) = Some true.
Proof.
  intros Hwf Ha Hact. unfold IsAllocationActive, IsAllocationRemoved, IsAllocationDisabled.
  rewrite !allocationFlag_row by done. unfold isActive, IsActiveAllocation in Hact. bool_to_prop. cbn.
  match goal with H1 : aRemoved a = 0, H2 : aDisabled a = 0 |- _ => rewrite H1, H2 end. done.
Qed.
Lemma target_active db job mode ip : wf_db db -> ip ∈ resolveHealthCheckWorkers db job mode -> IsAllocationActive db ip job = Some true.
Proof.
  intros Hwf Hip. assert (exists p, ip ∈ queryActiveAllocationWorkers db job p) as [p Hp] by (destruct mode; eauto).
  apply workersWhere_elem in Hp as (a & Ha & <- & <- & Hact). bool_to_prop. by apply IsAllocationActive_row.
Qed.

(** ** What a pass means *)

(** What the model relies on of the context, the hooks and the channel: the
    errors are not joins, and every error sent is received. *)
Record World_ok {W} (fx : World W) := mkWorldOk {
  ctx_plain : forall w e, ctxErr fx w = Some e -> plain e;
  hook_plain : forall job command event ips conc env w w' e, runHook fx job command event ips conc env w = (w', Some e) -> plain e;
  all_arrive : forall w errs, arrival fx w errs ≡ₚ errs;
}.

Section pass.
Context `{Unicode} {W : Type} (fx : World W) (Quote : string -> string) (databaseError : error) (db : DB) (c : Catalog).
Context (health_check : string -> Spec) (GetHooks : string -> string -> list string).
Context (GetMaxConcurrentRestarts : string -> result error Z) (healthWaitSeconds sshPort : result error Z).
Context (Hfx : World_ok fx) (Hdb : wf_db db) (Hplain : plain databaseError).
Context (Hmax : forall job e, GetMaxConcurrentRestarts job = Err e -> plain e).
Notation runProbe := (runProbe fx Quote c).
Notation probeWorker := (probeWorker fx Quote c).
Notation runManifestProbesOnWorkers := (runManifestProbesOnWorkers fx Quote databaseError db c).
Notation probeBatches := (probeBatches fx Quote databaseError db c).
Notation runManifestProbes := (runManifestProbes fx Quote databaseError db c GetMaxConcurrentRestarts).
Notation runHealthHooks := (runHealthHooks fx db c GetMaxConcurrentRestarts).
Notation runOnce := (runOnce fx Quote databaseError db c GetMaxConcurrentRestarts).
Notation targets := (resolveHealthCheckWorkers db).

(** A probe ran on a worker, with success; so did a hook. *)
Definition probed (job ip : string) (idx : nat) (probe : HealthCheckProbe) (timeout : Z) : Prop :=
  exists v, ctxErr fx v = None /\ runProbe v job ip idx probe timeout = None.
Definition hooked (job command event ip : string) : Prop :=
  exists v ips conc env w, ip ∈ ips /\ ctxErr fx v = None /\ runHook fx job command event ips conc env v = (w, None).

Lemma probeWorker_pass w job ip timeout checks : forall idx, probeWorker w job ip timeout idx checks = None ->
  forall k probe, checks !! k = Some probe -> probed job ip (idx + k) probe timeout.
Proof.
  induction checks as [|p checks IH]; intros idx Hn k probe Hk; [done|]. cbn [HealthCheck.probeWorker] in Hn.
  destruct (ctxErr fx _) eqn:Ec; [done|]. destruct (runProbe _ _ _ _ _ _) eqn:Er; [done|].
  destruct k as [|k]; cbn in Hk.
  - injection Hk as ->. rewrite Nat.add_0_r. by eexists.
  - replace (idx + S k)%nat with (S idx + k)%nat by lia. by apply IH.
Qed.
Lemma probeWorker_plain w job ip timeout checks : forall idx e, probeWorker w job ip timeout idx checks = Some e -> plain e.
Proof.
  induction checks as [|p checks IH]; intros idx e; [done|]. cbn [HealthCheck.probeWorker].
  destruct (ctxErr fx _) eqn:Ec; [intros [= <-]; by eapply ctx_plain|]. destruct (runProbe _ _ _ _ _ _); [by intros [= <-]|]. apply IH.
Qed.

Lemma activeWorkers_all job ips active : activeWorkers (isActiveOn databaseError db job) ips tt = Ok active ->
  forall ip, ip ∈ ips -> IsAllocationActive db ip job = Some true -> ip ∈ active.
Proof.
  revert active. induction ips as [|x ips IH]; intros active Ha ip Hip Hact; [by apply elem_of_nil in Hip|].
  cbn [activeWorkers] in Ha. apply rbind_ok in Ha as (ok & Hok & Ha). apply rbind_ok in Ha as (rest & Hrest & Ha).
  injection Ha as <-. apply elem_of_cons in Hip as [->|Hip].
  - unfold isActiveOn in Hok. rewrite Hact in Hok. injection Hok as <-. left.
  - specialize (IH _ Hrest ip Hip Hact). destruct ok; [by right|done].
Qed.
Lemma activeWorkers_plain job ips e : activeWorkers (isActiveOn databaseError db job) ips tt = Err e -> plain e.
Proof.
  induction ips as [|x ips IH]; cbn [activeWorkers]; [done|]. unfold isActiveOn at 1.
  destruct (IsAllocationActive db x job); cbn [rbind]; [|by intros [= <-]].
  destruct (activeWorkers _ ips tt); cbn [rbind]; [done|]. intros [= <-]. by apply IH.
Qed.

Definition all_probed (job : string) (checks : list HealthCheckProbe) (timeout : Z) (ips : list string) : Prop :=
  forall ip idx probe, ip ∈ ips -> IsAllocationActive db ip job = Some true -> checks !! idx = Some probe -> probed job ip idx probe timeout.
Definition all_hooked (job event : string) (commands ips : list string) : Prop :=
  forall ip command, ip ∈ ips -> command ∈ commands -> hooked job command event ip.

Lemma sent_sound w job timeout checks ips :
  Forall sound (arrival fx w (omap (fun ip => probeWorker w job ip timeout 0 checks) ips)).
Proof.
  rewrite (all_arrive fx Hfx). apply Forall_forall. intros e He. apply list_elem_of_omap in He as (ip & _ & He).
  apply plain_sound. by apply probeWorker_plain in He.
Qed.
Lemma batch_probed w job checks timeout ips w' r : runManifestProbesOnWorkers w job checks timeout ips = (w', r) ->
  (forall e, r = Some e -> sound e) /\ (r = None -> all_probed job checks timeout ips).
Proof.
  unfold HealthCheck.runManifestProbesOnWorkers. destruct ((length ips =? 0)%nat || (length checks =? 0)%nat) eqn:E0.
  { intros [= <- <-]. split; [done|]. intros _ ip idx probe Hip _ Hc. bool_to_prop. destruct E0 as [E0|E0]; bool_to_prop.
    - apply nil_length_inv in E0 as ->. by apply elem_of_nil in Hip.
    - apply nil_length_inv in E0 as ->. done. }
  destruct (activeWorkers _ ips tt) as [active|e] eqn:Ea.
  2:{ intros [= <- <-]. split; [|done]. intros ? [= <-]. apply plain_sound. by apply activeWorkers_plain in Ea. }
  destruct (length active =? 0)%nat eqn:El.
  { bool_to_prop. apply nil_length_inv in El as ->. intros [= <- <-]. split; [done|]. intros _ ip idx probe Hip Hact _.
    pose proof (activeWorkers_all _ _ _ Ea ip Hip Hact) as []%elem_of_nil. }
  destruct (first_some _ active) as [e|] eqn:Ef; intros [= <- <-].
  - split; [|done]. intros ? [= <-]. apply plain_sound.
    assert (exists x, ctxErr fx (atSpawn fx w x) = Some e) as [x Hx].
    { clear -Ef. induction active as [|a l IH]; [done|]. cbn [first_some] in Ef.
      destruct (ctxErr fx (atSpawn fx w a)) eqn:E; [injection Ef as ->; eauto|by apply IH]. }
    by eapply (ctx_plain fx Hfx).
  - split; [intros e; apply join_sound, sent_sound|]. intros Hn ip idx probe Hip Hact Hc.
    apply join_none in Hn; [|apply sent_sound].
    assert (Hno : omap (fun ip => probeWorker w job ip timeout 0 checks) active = [])
      by (apply Permutation_nil_r; rewrite <- Hn; symmetry; apply (all_arrive fx Hfx)).
    rewrite omap_nil in Hno. exact (probeWorker_pass _ _ _ _ _ 0%nat (Hno ip (activeWorkers_all _ _ _ Ea ip Hip Hact)) idx probe Hc).
Qed.
Lemma batches_probed job checks timeout batches : forall w errs w' r, Forall sound errs ->
  probeBatches w job checks timeout batches errs = (w', r) ->
  (forall e, r = Some e -> sound e) /\ (r = None -> errs = [] /\ all_probed job checks timeout (concat batches)).
Proof.
  induction batches as [|b batches IH]; intros w errs w' r Hs; cbn [HealthCheck.probeBatches].
  { intros [= <- <-]. split; [intros e; by apply join_sound|]. intros Hn. split; [by apply join_none|].
    intros ip ? ? []%elem_of_nil. }
  destruct (ctxErr fx w) as [e|] eqn:Ec.
  { intros [= <- <-]. split; [|done]. intros ? [= <-]. apply plain_sound. by eapply (ctx_plain fx Hfx). }
  destruct (runManifestProbesOnWorkers w job checks timeout b) as [w1 r1] eqn:Eb.
  destruct (batch_probed _ _ _ _ _ _ _ Eb) as [Hr1 Hp1]. intros Hr.
  apply IH in Hr as [Hsr Hpr]; [|by apply join_option]. split; [done|]. intros Hn. destruct (Hpr Hn) as [He Hp].
  apply app_nil in He as [-> He]. destruct r1; [done|]. split; [done|].
  intros ip idx probe Hip. cbn [concat] in Hip. apply elem_of_app in Hip as [Hip|Hip]; [by apply Hp1|by apply Hp].
Qed.
Lemma probes_sound w job checks timeout opts w' r : runManifestProbes w job checks timeout opts = (w', r) ->
  (forall e, r = Some e -> sound e) /\ (r = None -> all_probed job checks timeout (resolveProbeWorkers db job opts)).
Proof.
  unfold HealthCheck.runManifestProbes. destruct (length checks =? 0)%nat eqn:E0.
  { bool_to_prop. apply nil_length_inv in E0 as ->. intros [= <- <-]. split; [done|]. intros _ ip idx probe _ _ Hk. done. }
  cbv zeta. destruct (length (resolveProbeWorkers db job opts) =? 0)%nat eqn:El.
  { bool_to_prop. apply nil_length_inv in El as ->. intros [= <- <-]. split; [done|]. intros _ ip idx probe []%elem_of_nil. }
  unfold orderOf. destruct (ResolveOrder_ok (E := error) (GetNonRemovedAllocationsOrdered c db job) (sessionStore fx w) job
    (resolveProbeWorkers db job opts)) as [order Ho]. rewrite Ho.
  destruct (GetMaxConcurrentRestarts job) as [size|e] eqn:Em.
  2:{ intros [= <- <-]. split; [|done]. intros ? [= <-]. by eapply plain_sound, Hmax. }
  intros Hr. apply batches_probed in Hr as [Hs Hp]; [|constructor]. split; [done|]. intros Hn.
  destruct (Hp Hn) as [_ Hp']. rewrite SplitWorkerBatches_concat in Hp'.
  intros ip idx probe Hip. apply Hp'. by eapply resolved_covers.
Qed.

(** The hooks: one hook on its batches, then all of them. *)
Lemma runBatches_hooked job command event base extra count batches : forall i errs w w' r,
  runBatches (ctxErr fx) (runHook fx job command event) None true base job extra count i batches errs w = (w', r) ->
  (Forall plain errs -> Forall plain r) /\
  (r = [] -> errs = [] /\ forall ip, ip ∈ concat batches -> hooked job command event ip).
Proof.
  induction batches as [|b batches IH]; intros i errs w w' r; cbn [runBatches].
  { intros [= <- <-]. split; [done|]. intros ->. split; [done|]. intros ip []%elem_of_nil. }
  destruct (ctxErr fx w) as [e|] eqn:Ec.
  { intros [= <- <-]. split; [|done]. intros _. constructor; [by eapply (ctx_plain fx Hfx)|constructor]. }
  destruct (runHook fx job command event b _ _ w) as [w1 [e|]] eqn:Eh; intros Hr; apply IH in Hr as [Hp Hk].
  - split; [|intros Hn; destruct (Hk Hn) as [Hx _]; by apply app_nil in Hx as [_ Hx]].
    intros Hpl. apply Hp, Forall_app. split; [done|]. constructor; [by eapply (hook_plain fx Hfx)|constructor].
  - split; [done|]. intros Hn. destruct (Hk Hn) as [-> Hk']. split; [done|]. intros ip Hip. cbn [concat] in Hip.
    apply elem_of_app in Hip as [Hip|Hip]; [|by apply Hk']. unfold hooked. eauto 10.
Qed.
Lemma batches_hooked job command event ips size base w w' r :
  RunHookInBatches (ctxErr fx) (runHook fx job command event) None true job ips size base [] w = (w', r) ->
  Forall plain r /\ (r = [] -> forall ip, ip ∈ ips -> hooked job command event ip).
Proof.
  unfold RunHookInBatches. destruct (length ips =? 0)%nat eqn:El.
  { bool_to_prop. apply nil_length_inv in El as ->. intros [= <- <-]. split; [constructor|]. intros _ ip []%elem_of_nil. }
  intros Hr. apply runBatches_hooked in Hr as [Hp Hk]. split; [apply Hp; constructor|]. intros Hn ip Hip.
  destruct (Hk Hn) as [_ Hk']. apply Hk'. by rewrite SplitWorkerBatches_concat.
Qed.
Lemma joinErrors_sound errs : Forall plain errs -> Forall sound (joinErrors errs).
Proof.
  intros Hp. destruct Hp as [|e errs He Hp]; cbn; [constructor|].
  destruct errs; constructor; [by apply plain_sound|constructor| |constructor]. split; [done|]. by constructor.
Qed.
Lemma hookLoop_hooked job event resolved size commands : forall w errs w' r, Forall sound errs ->
  hookLoop fx w job event resolved size commands errs = (w', r) ->
  (forall e, r = Some e -> sound e) /\ (r = None -> errs = [] /\ all_hooked job event commands (Ordered resolved)).
Proof.
  induction commands as [|command commands IH]; intros w errs w' r Hs; cbn [hookLoop].
  { intros [= <- <-]. split; [intros e; by apply join_sound|]. intros Hn. split; [by apply join_none|]. intros ip command _ []%elem_of_nil. }
  destruct (ctxErr fx w) as [e|] eqn:Ec.
  { intros [= <- <-]. split; [|done]. intros ? [= <-]. apply plain_sound. by eapply (ctx_plain fx Hfx). }
  destruct (RunHookInBatches _ _ _ _ _ _ _ _ _ _) as [w1 failed] eqn:Eb. apply batches_hooked in Eb as [Hp Hk]. intros Hr.
  apply IH in Hr as [Hsr Hpr]; [|by apply Forall_app; split; [|apply joinErrors_sound]]. split; [done|]. intros Hn.
  destruct (Hpr Hn) as [He Hp']. apply app_nil in He as [-> He]. assert (failed = []) as -> by (destruct failed as [|? []]; done).
  split; [done|]. intros ip cmd Hip [->|Hc]%elem_of_cons; [by apply Hk|by apply Hp'].
Qed.
Lemma hooks_sound w job event commands mode w' r : runHealthHooks w job event commands mode = (w', r) ->
  (forall e, r = Some e -> sound e) /\ (r = None -> all_hooked job event commands (targets job mode)).
Proof.
  unfold HealthCheck.runHealthHooks, orderOf.
  destruct (ResolveOrder_ok (E := error) (GetNonRemovedAllocationsOrdered c db job) (sessionStore fx w) job (targets job mode)) as [order Ho].
  rewrite Ho. destruct (GetMaxConcurrentRestarts job) as [size|e] eqn:Em.
  2:{ intros [= <- <-]. split; [|done]. intros ? [= <-]. by eapply plain_sound, Hmax. }
  intros Hr. apply hookLoop_hooked in Hr as [Hs Hp]; [|constructor]. split; [done|]. intros Hn.
  destruct (Hp Hn) as [_ Hp']. intros ip command Hip. apply Hp'. by eapply resolved_covers.
Qed.

(** One pass without an error ran every probe and every hook. *)
Lemma runOnce_pass w job kind opts spec probes commands w' : runOnce w job kind opts spec probes commands = (w', None) ->
  all_probed job probes (probeTimeout spec) (resolveProbeWorkers db job opts) /\ all_hooked job kind commands (targets job (DeployMode opts)).
Proof.
  unfold HealthCheck.runOnce. intros Hr.
  set (r1 := if (0 <? length probes)%nat then runManifestProbes w job probes (probeTimeout spec) opts else (w, None)) in Hr.
  assert (H1 : (forall e, r1.2 = Some e -> sound e) /\ (r1.2 = None -> all_probed job probes (probeTimeout spec) (resolveProbeWorkers db job opts))).
  { unfold r1. destruct (0 <? length probes)%nat eqn:El.
    - destruct (runManifestProbes _ _ _ _ _) eqn:Er. by apply probes_sound in Er.
    - split; [done|]. intros _ ip idx probe _ _ Hk. bool_to_prop. destruct probes; [done|cbn in El; lia]. }
  destruct r1 as [w1 e1]. cbn [snd] in H1.
  set (r2 := if (0 <? length commands)%nat then runHealthHooks w1 job kind commands (DeployMode opts) else (w1, None)) in Hr.
  assert (H2 : (forall e, r2.2 = Some e -> sound e) /\ (r2.2 = None -> all_hooked job kind commands (targets job (DeployMode opts)))).
  { unfold r2. destruct (0 <? length commands)%nat eqn:El.
    - destruct (runHealthHooks _ _ _ _ _) eqn:Er. by apply hooks_sound in Er.
    - split; [done|]. intros _ ip command _ Hc. bool_to_prop. destruct commands; [by apply elem_of_nil in Hc|cbn in El; lia]. }
  destruct r2 as [w2 e2]. cbn [snd] in H2. injection Hr as _ Hn.
  apply join_none in Hn; [|apply (join_option (option_list e1)); [exact (join_option [] e1 (List.Forall_nil _) (proj1 H1))|exact (proj1 H2)]].
  apply app_nil in Hn as [Hn1 Hn2]. destruct e1, e2; try done. split; [by apply H1|by apply H2].
Qed.

(** ** Waiting *)

Notation attemptsLoop := (attemptsLoop fx Quote databaseError db c GetMaxConcurrentRestarts).
Notation runHealthKind := (runHealthKind fx Quote databaseError db c GetMaxConcurrentRestarts healthWaitSeconds).
(** [n] attempts in a row that fail, each followed by the wait, under a context
    that is not done. *)
Inductive failedAttempts (job kind : string) (opts : CheckOptions) (spec : Spec) (probes : list HealthCheckProbe) (commands : list string)
    (interval : Z) : nat -> W -> W -> Prop :=
| no_attempt w : failedAttempts job kind opts spec probes commands interval 0 w w
| one_more n w w1 w2 w' e :
    ctxErr fx w = None -> runOnce w job kind opts spec probes commands = (w1, Some e) -> ctxErr fx w1 = None ->
    sleep fx interval w1 = (w2, None) -> failedAttempts job kind opts spec probes commands interval n w2 w' ->
    failedAttempts job kind opts spec probes commands interval (S n) w w'.
Definition contextDone (interval : Z) (e : error) : Prop := exists v, ctxErr fx v = Some e \/ (sleep fx interval v).2 = Some e.

Lemma waitConfig_attempts spec kind attempts interval : waitConfig healthWaitSeconds spec kind = Ok (attempts, interval) -> 1 <= attempts.
Proof.
  unfold waitConfig. intros Hw. apply rbind_ok in Hw as (seconds & _ & Hw).
  set (n := if seconds <? 1 then 1 else seconds) in Hw. assert (1 <= n) by (unfold n; destruct (seconds <? 1) eqn:E; bool_to_prop; lia). clearbody n. rename select (1 <= n) into Hn.
  destruct (WaitFor spec kind) as [w|]; injection Hw as <- _; [|done]. destruct (0 <? Attempts w) eqn:E; bool_to_prop; lia.
Qed.

(** How the loop ends: a pass, all attempts used, or a context that is done;
    [k] of the attempts failed and were followed by a wait. *)
Definition loopEnd (job kind : string) (opts : CheckOptions) (spec : Spec) (probes : list HealthCheckProbe) (commands : list string)
    (rec : option statusRecorder) (interval : Z) (n : nat) (s s' : State W) (rec' : option statusRecorder) (r : option error) : Prop :=
  exists k w lines, failedAttempts job kind opts spec probes commands interval k (world s) w /\ length lines = k /\
  ( r = None /\ (k < n)%nat /\ ctxErr fx w = None /\ runOnce w job kind opts spec probes commands = (world s', None)
      /\ printed s' = printed s ++ lines /\ rec' = recordPass db job kind opts rec
    \/ (exists e, r = Some (EHealthCheck job e) /\ k = n /\ w = world s' /\ printed s' = printed s ++ lines ++ logKindFailures kind job e
          /\ rec' = recordFailure kind e rec)
    \/ (exists e, r = Some e /\ (k < n)%nat /\ contextDone interval e /\ rec' = rec)).

Lemma attemptsLoop_ends job kind opts spec probes commands rec attempts interval n : forall s attempt lastErr s' rec' r,
  attemptsLoop s job kind opts spec probes commands rec attempt attempts interval lastErr n = (s', rec', r) ->
  loopEnd job kind opts spec probes commands rec interval n s s' rec' r.
Proof.
  induction n as [|n IH]; intros s attempt lastErr s' rec' r; cbn [HealthCheck.attemptsLoop].
  { unfold kindFailed. intros [= <- <- <-]. exists 0%nat, (world s), []. split_and!; [constructor|done|]. right. left. by exists lastErr. }
  destruct (ctxErr fx (world s)) as [e|] eqn:Ec.
  { intros [= <- <- <-]. exists 0%nat, (world s), []. split_and!; [constructor|done|]. right. right. exists e.
    split_and!; [done|lia|exists (world s); by left|done]. }
  destruct (runOnce _ _ _ _ _ _ _) as [w1 [e|]] eqn:Er.
  2:{ intros [= <- <- <-]. exists 0%nat, (world s), []. split_and!; [constructor|done|]. left. cbn. rewrite app_nil_r. split_and!; done || lia. }
  cbn [world setWorld]. destruct (ctxErr fx w1) as [e'|] eqn:Ec1.
  { intros [= <- <- <-]. exists 0%nat, (world s), []. split_and!; [constructor|done|]. right. right. exists e'.
    split_and!; [done|lia|exists w1; by left|done]. }
  cbn [world say setWorld]. destruct (sleep fx interval w1) as [w2 [e'|]] eqn:Es.
  { intros [= <- <- <-]. exists 0%nat, (world s), []. split_and!; [constructor|done|]. right. right. exists e'.
    split_and!; [done|lia|exists w1; right; by rewrite Es|done]. }
  intros Hl. apply IH in Hl as (k & w & lines & Hf & Hlen & Hend). cbn [world setWorld] in Hf.
  exists (S k), w, (logKindFailedRetrying kind job (healthCheckFailureWorkerIP e) attempt attempts :: lines).
  split_and!; [by eapply one_more|by rewrite <- Hlen|]. cbn [printed setWorld say] in Hend.
  destruct Hend as [(-> & ? & ? & ? & Hp & ?)|[(e' & -> & -> & -> & Hp & ?)|(e' & -> & ? & ? & ?)]].
  - left. rewrite Hp, <- app_assoc. split_and!; done || lia.
  - right. left. exists e'. rewrite Hp, <- !app_assoc. by split_and!.
  - right. right. exists e'. split_and!; done || lia.
Qed.

(** A check that waits stops at the first attempt that passes; it fails only
    when every attempt that the configuration allows has failed, each under a
    context not done and each followed by the wait (the last one too), with
    the error of the last attempt; a context that is done ends it early with
    that error and leaves the recorder alone. There is at least one attempt,
    and one line says "retrying" for each that failed. *)
Theorem runHealthKind_retries s job opts kind spec probes commands rec attempts interval s' rec' r :
  waitConfig healthWaitSeconds spec kind = Ok (attempts, interval) ->
  runHealthKind s job true opts kind spec probes commands rec = (s', rec', r) ->
  1 <= attempts /\ loopEnd job kind opts spec probes commands rec interval (Z.to_nat attempts) s s' rec' r.
Proof.
  intros Hw Hr. split; [by eapply waitConfig_attempts|]. unfold HealthCheck.runHealthKind in Hr. cbn [negb] in Hr. rewrite Hw in Hr.
  by eapply attemptsLoop_ends.
Qed.

Lemma runHealthKind_pass s job wait opts kind spec probes commands rec s' rec' :
  runHealthKind s job wait opts kind spec probes commands rec = (s', rec', None) ->
  exists w w', runOnce w job kind opts spec probes commands = (w', None).
Proof.
  unfold HealthCheck.runHealthKind. destruct wait; cbn [negb].
  - destruct (waitConfig _ _ _) as [[attempts interval]|]; [|done]. intros Hl.
    apply attemptsLoop_ends in Hl as (k & w & lines & _ & _ & [(_ & _ & _ & Hr & _)|[(e & ? & _)|(e & ? & _)]]); [eauto|done|done].
  - destruct (runOnce _ _ _ _ _ _ _) as [w1 [e|]] eqn:Er; [done|]. eauto.
Qed.

(** ** A whole check *)

Notation HealthCheckWithOptions :=
  (HealthCheckWithOptions fx Quote databaseError db c health_check GetHooks GetMaxConcurrentRestarts healthWaitSeconds).
Notation checkKind := (checkKind fx Quote databaseError db c GetMaxConcurrentRestarts healthWaitSeconds).
Notation spec job := (specOf health_check job).

Lemma checkKind_pass s job wait opts kind has spec probes commands rec s' rec' :
  checkKind s job wait opts kind has spec probes commands rec = (s', rec', None) ->
  has = (0 <? length probes)%nat || (0 <? length commands)%nat -> ProbeWorkers opts = [] ->
  all_probed job probes (probeTimeout spec) (targets job (DeployMode opts)) /\ all_hooked job kind commands (targets job (DeployMode opts)).
Proof.
  unfold HealthCheck.checkKind. intros Hk Hhas Hpw. destruct has.
  - apply runHealthKind_pass in Hk as (w & w' & Hk). apply runOnce_pass in Hk as [Hp Hh]. split; [|done].
    unfold resolveProbeWorkers in Hp. by rewrite Hpw in Hp.
  - symmetry in Hhas. bool_to_prop. split.
    + intros ip idx probe _ _ Hx. destruct probes; [done|cbn in *; lia].
    + intros ip command _ Hx. destruct commands; [by apply elem_of_nil in Hx|cbn in *; lia].
Qed.
Lemma persistResults_none opts job rec jobErr s s' :
  persistResults fx databaseError db health_check GetHooks opts job rec jobErr s = (s', None) -> jobErr = None.
Proof. unfold persistResults. destruct (persists opts); [|by intros [= _ ->]]. destruct (persistWith _ _ _ _ _) as [? [e|]]; [done|by intros [= _ ->]]. Qed.

Lemma unconfigured {A B} run (probes : list A) (commands : list B) :
  run && ((0 <? length probes)%nat || (0 <? length commands)%nat) = false -> run = true -> probes = [] /\ commands = [].
Proof. intros Hf ->. cbn [andb] in Hf. bool_to_prop. destruct probes, commands; cbn in *; done || lia. Qed.

(** C13: A check that reports no error found every probe and every hook of each
    kind that it was asked for working on every worker of the job: the deployed
    ones for the command, the live ones for the gate of a deploy. *)
Theorem HealthCheck_sound s wait job verbose opts s' runLiveness runReadiness :
  HealthCheckWithOptions s wait job verbose opts = (s', None) ->
  ProbeWorkers opts = [] -> kindFilter Quote (Kind opts) = Ok (runLiveness, runReadiness) ->
  let works kind probes := forall ip, ip ∈ targets job (DeployMode opts) ->
    (forall idx probe, probes !! idx = Some probe -> probed job ip idx probe (probeTimeout (spec job))) /\
    (forall command, command ∈ GetHooks job kind -> hooked job command kind ip) in
  (runLiveness = true -> works HealthKindLiveness (LivenessChecks (spec job))) /\
  (runReadiness = true -> works HealthKindReadiness (ReadinessChecks (spec job))).
Proof.
  intros Hr Hpw Hk works.
  assert (Hworks : forall kind probes, all_probed job probes (probeTimeout (spec job)) (targets job (DeployMode opts)) ->
    all_hooked job kind (GetHooks job kind) (targets job (DeployMode opts)) -> works kind probes).
  { intros kind probes Hp Hh ip Hip. split; [intros idx probe Hx; apply Hp; [done|by eapply target_active|done]|by intros command; apply Hh]. }
  unfold HealthCheck.HealthCheckWithOptions in Hr. destruct (length (targets job (DeployMode opts)) =? 0)%nat eqn:El.
  { bool_to_prop. apply nil_length_inv in El. unfold works. rewrite El. split; intros _ ip []%elem_of_nil. }
  rewrite Hk in Hr. cbv zeta in Hr.
  destruct (negb (runLiveness && _) && negb (runReadiness && _)) eqn:Eno.
  { apply andb_true_iff in Eno as [E1%negb_true_iff E2%negb_true_iff].
    split; intros Hrun; [destruct (unconfigured _ _ _ E1 Hrun) as [Hp Hc]|destruct (unconfigured _ _ _ E2 Hrun) as [Hp Hc]].
    all: intros ip _; rewrite Hp, Hc; split; [done|intros command []%elem_of_nil]. }
  clear Eno.
  destruct (checkKind s _ _ _ _ _ _ _ _ _) as [[s1 rec1] [e|]] eqn:E1; [by apply persistResults_none in Hr|].
  destruct (checkKind s1 _ _ _ _ _ _ _ _ _) as [[s2 rec2] [e|]] eqn:E2; [by apply persistResults_none in Hr|].
  split; intros ->; cbn [andb] in *.
  - apply checkKind_pass in E1 as [Hp Hh]; [by apply Hworks|done|done].
  - apply checkKind_pass in E2 as [Hp Hh]; [by apply Hworks|done|done].
Qed.

(** ** No false alarm *)

Section calm.
Context (Hctx : forall v, ctxErr fx v = None).

Lemma calm_worker w job ip timeout checks : forall idx,
  (forall v k probe, checks !! k = Some probe -> runProbe v job ip (idx + k) probe timeout = None) ->
  probeWorker w job ip timeout idx checks = None.
Proof.
  induction checks as [|p checks IH]; intros idx Hp; [done|]. cbn [HealthCheck.probeWorker]. rewrite Hctx.
  pose proof (Hp (atProbe fx w ip idx) 0%nat p eq_refl) as H0. rewrite Nat.add_0_r in H0. rewrite H0. apply IH. intros v k probe Hk.
  replace (S idx + k)%nat with (idx + S k)%nat by lia. by apply Hp.
Qed.
Definition probes_work (job : string) (checks : list HealthCheckProbe) (timeout : Z) (ips : list string) : Prop :=
  forall v ip k probe, ip ∈ ips -> checks !! k = Some probe -> runProbe v job ip k probe timeout = None.
Definition hooks_work (job event : string) (commands : list string) : Prop :=
  forall command ips conc env v, command ∈ commands -> (runHook fx job command event ips conc env v).2 = None.

Lemma calm_batch w job checks timeout ips : (forall ip, ip ∈ ips -> IsAllocationActive db ip job = Some true) ->
  probes_work job checks timeout ips -> (runManifestProbesOnWorkers w job checks timeout ips).2 = None.
Proof.
  intros Hact Hp. unfold HealthCheck.runManifestProbesOnWorkers. destruct (_ || _); [done|].
  assert (Ha : activeWorkers (isActiveOn databaseError db job) ips tt = Ok ips).
  { clear Hp. induction ips as [|ip ips IH]; [done|]. cbn [activeWorkers]. unfold isActiveOn at 1.
    rewrite Hact by left. cbn [rbind]. rewrite IH by (intros; apply Hact; by right). done. }
  rewrite Ha. destruct (length ips =? 0)%nat; [done|].
  assert (Hf : first_some (fun ip => ctxErr fx (atSpawn fx w ip)) ips = None) by (apply first_some_none; intros; apply Hctx).
  rewrite Hf. cbn [snd].
  assert (Ho : omap (fun ip => probeWorker w job ip timeout 0 checks) ips = [])
    by (apply omap_nil; intros ip Hip; apply calm_worker; intros v k probe; by apply Hp).
  rewrite Ho. pose proof (all_arrive fx Hfx w []) as Hn. apply Permutation_nil_r in Hn. by rewrite Hn.
Qed.
Lemma calm_batches job checks timeout batches : forall w,
  (forall ip, ip ∈ concat batches -> IsAllocationActive db ip job = Some true) ->
  probes_work job checks timeout (concat batches) -> (probeBatches w job checks timeout batches []).2 = None.
Proof.
  induction batches as [|b batches IH]; intros w Hact Hp; [done|]. cbn [HealthCheck.probeBatches]. rewrite Hctx.
  pose proof (calm_batch w job checks timeout b) as Hb. destruct (runManifestProbesOnWorkers w job checks timeout b) as [w1 r1].
  cbn [snd] in Hb. rewrite Hb.
  - apply IH; [intros ip Hip; apply Hact|intros v ip k probe Hip; apply Hp]; cbn [concat]; apply elem_of_app; by right.
  - intros ip Hip. apply Hact. cbn [concat]. apply elem_of_app. by left.
  - intros v ip k probe Hip. apply Hp. cbn [concat]. apply elem_of_app. by left.
Qed.
Lemma calm_hook_batches job event base extra count command batches : forall i w, (forall ips conc env v, (runHook fx job command event ips conc env v).2 = None) ->
  (runBatches (ctxErr fx) (runHook fx job command event) None true base job extra count i batches [] w).2 = [].
Proof.
  induction batches as [|b batches IH]; intros i w Hh; [done|]. cbn [runBatches]. rewrite Hctx.
  match goal with |- context [runHook fx job command event ?x ?y ?z ?v] => pose proof (Hh x y z v) as Hn; destruct (runHook fx job command event x y z v) as [w1 r1] end.
  cbn [snd] in Hn. subst r1. by apply IH.
Qed.
Lemma calm_hooks job event resolved size commands : hooks_work job event commands -> forall w, (hookLoop fx w job event resolved size commands []).2 = None.
Proof.
  induction commands as [|command commands IH]; intros Hh w; [done|]. cbn [hookLoop]. rewrite Hctx.
  assert (Hb : (RunHookInBatches (ctxErr fx) (runHook fx job command event) None true job (Ordered resolved) size
                  (mkBatchContext "" event 0 0 [] (FullOrder resolved) (Source resolved)) [] w).2 = []).
  { unfold RunHookInBatches. destruct (_ =? _)%nat; [done|]. apply calm_hook_batches. intros ips conc env v. apply Hh. left. }
  destruct (RunHookInBatches _ _ _ _ _ _ _ _ _ _) as [w1 failed]. cbn [snd] in Hb. rewrite Hb. cbn [joinErrors app].
  apply IH. intros cmd ips conc env v Hc. apply Hh. by right.
Qed.
Lemma calm_once w job kind opts spec probes commands size : GetMaxConcurrentRestarts job = Ok size -> ProbeWorkers opts = [] ->
  probes_work job probes (probeTimeout spec) (targets job (DeployMode opts)) -> hooks_work job kind commands ->
  (runOnce w job kind opts spec probes commands).2 = None.
Proof.
  intros Hm Hpw Hp Hh. unfold HealthCheck.runOnce.
  assert (H1 : forall w, (runManifestProbes w job probes (probeTimeout spec) opts).2 = None).
  { clear w. intros w. unfold HealthCheck.runManifestProbes, resolveProbeWorkers. rewrite Hpw. cbn [length Nat.ltb Nat.leb].
    destruct (length probes =? 0)%nat; [done|]. destruct (length (targets _ _) =? 0)%nat; [done|]. unfold orderOf.
    destruct (ResolveOrder _ _ _ _) as [order|] eqn:Ho; [|by destruct (ResolveOrder_ok (E := error) (GetNonRemovedAllocationsOrdered c db job)
      (sessionStore fx w) job (targets job (DeployMode opts))) as [? Hr]; rewrite Hr in Ho].
    rewrite Hm. pose proof (ResolveOrder_subset _ _ _ _ _ Ho) as Hsub. apply calm_batches; rewrite SplitWorkerBatches_concat.
    - intros ip Hip. eapply target_active; [done|by apply Hsub].
    - intros v ip k probe Hip. apply Hp. by apply Hsub. }
  assert (H2 : forall w, (runHealthHooks w job kind commands (DeployMode opts)).2 = None).
  { clear w. intros w. unfold HealthCheck.runHealthHooks, orderOf.
    destruct (ResolveOrder_ok (E := error) (GetNonRemovedAllocationsOrdered c db job) (sessionStore fx w) job
      (targets job (DeployMode opts))) as [order Ho]. rewrite Ho, Hm. by apply calm_hooks. }
  destruct (0 <? length probes)%nat.
  - specialize (H1 w). destruct (runManifestProbes _ _ _ _ _) as [w1 e1]. cbn [snd] in H1. subst e1.
    destruct (0 <? length commands)%nat; [|done]. specialize (H2 w1). destruct (runHealthHooks _ _ _ _ _) as [w2 e2].
    cbn [snd] in H2. by subst e2.
  - destruct (0 <? length commands)%nat; [|done]. specialize (H2 w). destruct (runHealthHooks _ _ _ _ _) as [w2 e2].
    cbn [snd] in H2. by subst e2.
Qed.
Lemma calm_kind s job wait opts kind has spec probes commands rec size seconds :
  GetMaxConcurrentRestarts job = Ok size -> healthWaitSeconds = Ok seconds -> ProbeWorkers opts = [] ->
  probes_work job probes (probeTimeout spec) (targets job (DeployMode opts)) -> hooks_work job kind commands ->
  (checkKind s job wait opts kind has spec probes commands rec).2 = None.
Proof.
  intros Hm Hsec Hpw Hp Hh. unfold HealthCheck.checkKind. destruct has; [|done]. unfold HealthCheck.runHealthKind.
  assert (Ho : forall w, (runOnce w job kind opts spec probes commands).2 = None) by (intros w; by eapply calm_once).
  destruct wait; cbn [negb].
  - destruct (waitConfig healthWaitSeconds spec kind) as [[attempts interval]|e] eqn:Ew.
    + apply waitConfig_attempts in Ew. destruct (Z.to_nat attempts) eqn:En; [lia|]. cbn [HealthCheck.attemptsLoop]. rewrite Hctx.
      specialize (Ho (world s)). destruct (runOnce _ _ _ _ _ _ _) as [w1 r1]. cbn [snd] in Ho. by subst r1.
    + unfold waitConfig in Ew. rewrite Hsec in Ew. cbn [rbind] in Ew. by destruct (WaitFor spec kind).
  - specialize (Ho (world s)). destruct (runOnce _ _ _ _ _ _ _) as [w1 r1]. cbn [snd] in Ho. by subst r1.
Qed.

(** The health gate of a deploy opens: when every probe of the job answers on
    every live worker and every hook succeeds, however the attempts
    interleave, the check reports no error, with or without waiting. *)
Theorem DeployHealthCheck_opens s wait job verbose size seconds :
  GetMaxConcurrentRestarts job = Ok size -> healthWaitSeconds = Ok seconds ->
  probes_work job (LivenessChecks (spec job)) (probeTimeout (spec job)) (targets job true) ->
  probes_work job (ReadinessChecks (spec job)) (probeTimeout (spec job)) (targets job true) ->
  hooks_work job HealthKindLiveness (GetHooks job HealthKindLiveness) ->
  hooks_work job HealthKindReadiness (GetHooks job HealthKindReadiness) ->
  (DeployHealthCheck fx Quote databaseError db c health_check GetHooks GetMaxConcurrentRestarts healthWaitSeconds s wait job verbose).2 = None.
Proof.
  intros Hm Hs Hl Hr Hhl Hhr. unfold DeployHealthCheck, HealthCheck.HealthCheckWithOptions. cbn [DeployMode DeployOptions].
  destruct (length (targets job true) =? 0)%nat; [done|]. cbv zeta. change (kindFilter Quote (Kind DeployOptions)) with (Ok (E := error) (true, true)).
  cbn [andb]. destruct (negb _ && negb _); [done|]. cbn [PersistResults DeployOptions].
  match goal with |- context [HealthCheck.checkKind ?a1 ?a2 ?a3 ?a4 ?a5 ?a6 ?a7 s job ?w ?o ?k ?h ?sp ?ps ?cs ?r] =>
    pose proof (calm_kind s job w o k h sp ps cs r size seconds Hm Hs eq_refl Hl Hhl) as H1;
    destruct (checkKind s job w o k h sp ps cs r) as [[s1 rec1] r1] end.
  cbn [snd] in H1. subst r1.
  match goal with |- context [HealthCheck.checkKind ?a1 ?a2 ?a3 ?a4 ?a5 ?a6 ?a7 s1 job ?w ?o ?k ?h ?sp ?ps ?cs ?r] =>
    pose proof (calm_kind s1 job w o k h sp ps cs r size seconds Hm Hs eq_refl Hr Hhr) as H1;
    destruct (checkKind s1 job w o k h sp ps cs r) as [[s2 rec2] r2] end.
  cbn [snd] in H1. by subst r2.
Qed.
End calm.
End pass.
