(* ===== verification/HealthRecordFacts.v ===== *)
(** * healthcheck: facts about the recorded results

    The rows that a check writes, and the colour that the rollup of a job
    takes from them. *)
From S2P Require Import Prelude GoStrings Utils Kv Rollout AllocState AllocStateFacts Deploy Catalog Ports JobConf Calendar HealthSpec HealthStatus HealthErrors HealthCheck HealthFacts.
Open Scope Z_scope.

(** ** Lists and maps *)

Lemma foldl_insert {K} `{Countable K} {V X} (key : X -> K) (val : X -> V) l : forall m : gmap K V,
  let m' := foldl (fun m x => <[key x := val x]> m) m l in
  (NoDup (map key l) -> forall x, x ∈ l -> m' !! key x = Some (val x)) /\ (forall k, k ∉ map key l -> m' !! k = m !! k).
Proof.
  induction l as [|x l IH]; intros m; cbn [foldl map]; [split; [intros _ y []%elem_of_nil|done]|].
  destruct (IH (<[key x := val x]> m)) as [IH1 IH2]. split.
  - intros [Hx Hl]%NoDup_cons y [->|Hy]%elem_of_cons; [|by apply IH1]. rewrite IH2 by done. apply lookup_insert_eq.
  - intros k Hk. apply not_elem_of_cons in Hk as [Hne Hk]. rewrite IH2 by done. by apply lookup_insert_ne.
Qed.
Lemma NoDup_map_omap {A B C} (f : A -> option B) (g : B -> C) l : NoDup l ->
  (forall x y a b, x ∈ l -> y ∈ l -> f x = Some a -> f y = Some b -> g a = g b -> x = y) -> NoDup (map g (omap f l)).
Proof.
  induction l as [|x l IH]; intros Hn Hinj; [constructor|]. apply NoDup_cons in Hn as [Hx Hn]. cbn.
  assert (Hl : NoDup (map g (omap f l))) by (apply IH; [done|]; intros; eapply Hinj; [by right|by right|done..]).
  destruct (f x) as [a|] eqn:Ef; [|done]. cbn. apply NoDup_cons. split; [|done]. intros Hin.
  apply list_elem_of_fmap in Hin as (b & Hg & Hb). apply list_elem_of_omap in Hb as (y & Hy & Hfy).
  apply Hx. replace x with y; [done|]. eapply (Hinj y x); [by right|left|done|done|done].
Qed.

(** ** The rows of a check *)

Notation rowKey := (fun r => (hsJob r, hsAllocationID r)).
(** Every row is stored under its job and allocation. *)
Definition keyed (t : HealthTables) : Prop := forall k r, health_status t !! k = Some r -> k = rowKey r.

Section rows.
Context `{Unicode}.
Lemma writeRows_lookup now t rows k : k ∉ map rowKey rows -> health_status (writeRows now t rows) !! k = health_status t !! k.
Proof. intros Hk. exact (proj2 (foldl_insert (fun r => (hsJob r, hsAllocationID r)) (storedRow now) rows (health_status t)) k Hk). Qed.
Lemma writeRows_in now t rows r : NoDup (map rowKey rows) -> r ∈ rows ->
  health_status (writeRows now t rows) !! rowKey r = Some (storedRow now r).
Proof. intros Hn Hr. exact (proj1 (foldl_insert (fun r => (hsJob r, hsAllocationID r)) (storedRow now) rows (health_status t)) Hn r Hr). Qed.
Lemma writeRows_keyed now t rows : keyed t -> keyed (writeRows now t rows).
Proof.
  unfold keyed, writeRows. cbn [health_status AppendHealthHistory UpsertHealthStatus]. generalize (health_status t). intros m.
  revert m. induction rows as [|x rows IH]; intros m Hm; cbn [foldl]; [exact Hm|]. apply IH. intros k' r'.
  destruct (decide (k' = (hsJob x, hsAllocationID x))) as [->|Hne];
    [rewrite lookup_insert_eq; by intros [= <-]|rewrite lookup_insert_ne by done; apply Hm].
Qed.

(** The table of the workers, the history and the other rows. *)
Record only_job (job : string) (t t' : HealthTables) : Prop := mkOnly {
  oj_rows : forall k, k.1 <> job -> health_status t' !! k = health_status t !! k;
  oj_history : exists l, health_status_history t' = health_status_history t ++ l /\ Forall (fun r => hsJob r = job) l;
  oj_workers : worker_health_status t' = worker_health_status t /\ worker_health_status_history t' = worker_health_status_history t;
}.
Lemma writeRows_only job now t rows : Forall (fun r => hsJob r = job) rows -> only_job job t (writeRows now t rows).
Proof.
  intros Hj. split; [|eexists; split; [reflexivity|]|done].
  - intros k Hk. apply writeRows_lookup. intros Hin. apply list_elem_of_fmap in Hin as (r & -> & Hr).
    rewrite Forall_forall in Hj. by rewrite (Hj r Hr) in Hk.
  - apply Forall_map. eapply Forall_impl; [exact Hj|]. done.
Qed.
Lemma only_job_refl job t : only_job job t t.
Proof. split; [done|exists []; by rewrite app_nil_r|done]. Qed.
End rows.

Section record.
Context `{Unicode} (databaseError : error) (health_check : string -> Spec) (GetHooks : string -> string -> list string).
Notation persistJobHealthResults := (persistJobHealthResults databaseError health_check GetHooks).
Notation targets db job := (resolveHealthCheckWorkers db job false).

Lemma target_row db job ip : ip ∈ targets db job ->
  exists a, a ∈ allocations db /\ aWorker a = ip /\ aJob a = job.
Proof. intros Hip. apply workersWhere_elem in Hip as (a & Ha & <- & <- & _). eauto. Qed.
Lemma target_id db job ip : wf_db db -> ip ∈ targets db job -> exists id, GetAllocationID db ip job = Some id.
Proof. intros Hwf (a & Ha & <- & <-)%target_row. eexists. by apply GetAllocationID_row. Qed.
Lemma id_inj db job ip ip' id : wf_db db -> GetAllocationID db ip job = Some id -> GetAllocationID db ip' job = Some id -> ip = ip'.
Proof.
  intros [Hid _] (a & Ha & <- & _ & Hi)%GetAllocationID_sound (b & Hb & <- & _ & Hi')%GetAllocationID_sound.
  f_equal. apply (NoDup_map_inj _ _ _ _ Hid Ha Hb). congruence.
Qed.
Lemma NoDup_targets db job : wf_db db -> NoDup (targets db job).
Proof.
  intros [_ Hk]. unfold resolveHealthCheckWorkers, GetHealthCheckActiveAllocations, queryActiveAllocationWorkers, workersWhere.
  revert Hk. generalize (allocations db). intros l Hk.
  assert (Hf : NoDup (List.filter (fun a => bool_decide (aJob a = job) && (isActive a && allocationDeployed db a)) l)).
  { apply NoDup_filter_b. by eapply NoDup_fmap_1. }
  apply NoDup_fmap_2_strong; [|done]. intros a b Ha Hb E.
  apply elem_of_list_filter_b in Ha as [Ha Hpa], Hb as [Hb Hpb]. bool_to_prop.
  apply (NoDup_map_inj _ _ _ _ Hk Ha Hb). congruence.
Qed.

Lemma jobRows_omap view now job runID rec jobErr workers rows : jobRows view now job runID rec jobErr workers = Some rows ->
  rows = omap (fun ip => id ← GetAllocationID view ip job; workerRow now job runID rec jobErr id ip) workers.
Proof.
  unfold jobRows. destruct (mapM _ workers) as [ids|] eqn:Em; [|done]. cbn. intros [= <-].
  apply mapM_Some in Em. induction Em as [|ip id workers ids Hid _ IH]; [done|]. cbn. rewrite Hid. cbn.
  destruct (workerRow _ _ _ _ _ _ _); cbn; [by f_equal|done].
Qed.
Lemma jobRows_total view now job runID rec jobErr : wf_db view -> is_Some (jobRows view now job runID rec jobErr (targets view job)).
Proof.
  intros Hwf. unfold jobRows. destruct (mapM _ _) as [ids|] eqn:Em; [eauto|].
  apply mapM_None in Em. apply Exists_exists in Em as (ip & Hip & Hn). by destruct (target_id _ _ _ Hwf Hip) as [id Hid]; rewrite Hid in Hn.
Qed.
Lemma workerRow_key now job runID rec jobErr id ip r : workerRow now job runID rec jobErr id ip = Some r -> rowKey r = (job, id).
Proof.
  unfold workerRow, failRow, passRow. destruct jobErr; [|by intros [= <-]]. cbv zeta. repeat case_match; by intros [= <-] || done.
Qed.

Definition ids_given (db : DB) : Prop := forall a, a ∈ allocations db -> aAllocID a <> ""%string.
Definition recOf (rec : option statusRecorder) (jobErr : option error) (workers : list string) : option statusRecorder :=
  match jobErr with None => (fun r => finalizeSuccess r workers) <$> rec | Some _ => rec end.
Definition skipReason (view : DB) (job : string) : option string :=
  if (length (targets view job) =? 0)%nat then Some "no allocations"%string
  else if JobHasHealthConfig (specOf health_check) GetHooks job then None else Some "no health_check config or commands"%string.

Lemma rows_of_job view now job runID rec jobErr workers rows : jobRows view now job runID rec jobErr workers = Some rows ->
  Forall (fun r => hsJob r = job) rows.
Proof.
  intros ->%jobRows_omap. apply Forall_forall. intros r Hr. apply list_elem_of_omap in Hr as (ip & _ & Hr).
  destruct (GetAllocationID view ip job); [|done]. apply workerRow_key in Hr. congruence.
Qed.
Lemma rows_NoDup view now job runID rec jobErr rows : wf_db view ->
  jobRows view now job runID rec jobErr (targets view job) = Some rows -> NoDup (map rowKey rows).
Proof.
  intros Hwf ->%jobRows_omap. apply NoDup_map_omap; [by apply NoDup_targets|]. intros x y a b _ _ Ha Hb E.
  destruct (GetAllocationID view x job) as [i|] eqn:Ei, (GetAllocationID view y job) as [j|] eqn:Ej; try done.
  apply workerRow_key in Ha, Hb. cbn in *. assert (i = j) as -> by congruence. by eapply id_inj.
Qed.

(** What is written for the workers of a job: the row of each of them, under
    its allocation. *)
Lemma persist_rows view now job runID rec jobErr t : wf_db view -> ids_given view -> runID <> ""%string ->
  exists t', persistJobHealthResults job runID rec jobErr now view t = Ok t' /\ only_job job t t' /\ (keyed t -> keyed t') /\
  match skipReason view job with
  | Some reason => t' = persistSkippedJob now job runID reason t
  | None => forall ip, ip ∈ targets view job -> exists id, GetAllocationID view ip job = Some id /\
      health_status t' !! (job, id) = match workerRow now job runID (recOf rec jobErr (targets view job)) jobErr id ip with
                                      | Some row => Some (storedRow now row)
                                      | None => health_status t !! (job, id)
                                      end
  end.
Proof.
  intros Hwf Hids Hrun. unfold HealthCheck.persistJobHealthResults, skipReason. rewrite (proj2 (String.eqb_neq _ _) Hrun). cbv zeta.
  assert (Hskip : forall reason, only_job job t (persistSkippedJob now job runID reason t) /\ (keyed t -> keyed (persistSkippedJob now job runID reason t)))
    by (intros reason; split; [apply writeRows_only; by repeat constructor|apply writeRows_keyed]).
  destruct (length (targets view job) =? 0)%nat; [eexists; split; [reflexivity|]; destruct (Hskip "no allocations"%string); by split_and!|].
  destruct (JobHasHealthConfig _ _ _); cbn [negb];
    [|eexists; split; [reflexivity|]; destruct (Hskip "no health_check config or commands"%string); by split_and!].
  fold (recOf rec jobErr (targets view job)). set (rec' := recOf rec jobErr (targets view job)).
  destruct (jobRows_total view now job runID rec' jobErr Hwf) as [rows Hrows]. rewrite Hrows.
  set (rows' := match rows, jobErr with [], Some e => _ | _, _ => rows end).
  assert (Hj : Forall (fun r => hsJob r = job) rows').
  { apply rows_of_job in Hrows. unfold rows'. destruct rows, jobErr; try exact Hrows. by repeat constructor. }
  assert (Ht : (if (length rows' =? 0)%nat then t else writeRows now t rows') = writeRows now t rows' \/ rows' = []).
  { destruct rows'; [by right|by left]. }
  eexists. split; [reflexivity|]. split_and!.
  - destruct Ht as [->| ->]; [by apply writeRows_only|apply only_job_refl].
  - destruct Ht as [->| ->]; [apply writeRows_keyed|done].
  - intros ip Hip. destruct (target_id view job ip Hwf Hip) as [id Hid]. exists id. split; [done|].
    assert (Hne : id <> ""%string) by (apply GetAllocationID_sound in Hid as (a & Ha & _ & _ & <-); by apply Hids).
    pose proof (rows_NoDup _ _ _ _ _ _ _ Hwf Hrows) as Hnd. pose proof (jobRows_omap _ _ _ _ _ _ _ _ Hrows) as Ho.
    destruct (workerRow now job runID rec' jobErr id ip) as [row|] eqn:Ew.
    + assert (Hin : row ∈ rows) by (rewrite Ho; apply list_elem_of_omap; exists ip; split; [done|by rewrite Hid]).
      assert (rows' = rows) as -> by (unfold rows'; destruct rows; [by apply elem_of_nil in Hin|done]).
      destruct (length rows =? 0)%nat eqn:El; [bool_to_prop; destruct rows; [by apply elem_of_nil in Hin|done]|].
      rewrite <- (workerRow_key _ _ _ _ _ _ _ _ Ew). by apply writeRows_in.
    + assert (Hnot : (job, id) ∉ map rowKey rows').
      { unfold rows'. destruct rows as [|r0 rows0]; [destruct jobErr; [|apply not_elem_of_nil];
          intros [[= Hx] | []%elem_of_nil]%elem_of_cons; done|].
        intros Hin. rewrite Ho in Hin. apply list_elem_of_fmap in Hin as (r & Hk & Hr). apply list_elem_of_omap in Hr as (ip' & Hip' & Hr).
        destruct (GetAllocationID view ip' job) as [id'|] eqn:Hid'; [|done]. pose proof (workerRow_key _ _ _ _ _ _ _ _ Hr) as Hk'.
        assert (id' = id) as -> by congruence. assert (ip' = ip) as -> by (by eapply id_inj). cbn in Hr. by rewrite Ew in Hr. }
      destruct (length rows' =? 0)%nat; [done|]. by apply writeRows_lookup.
Qed.

(** The worker has passed both kinds. *)
Definition passedBoth (r : statusRecorder) (ip : string) : Prop :=
  exists st, r !! ip = Some st /\ stLiveness st = HealthKindPass /\ stReadiness st = HealthKindPass.
Lemma passKind_columns kind st : (stLiveness st = HealthKindPass -> stLiveness (passKind kind st) = HealthKindPass) /\
  (stReadiness st = HealthKindPass -> stReadiness (passKind kind st) = HealthKindPass) /\
  (kind = "liveness"%string -> stLiveness (passKind kind st) = HealthKindPass) /\
  (kind = "readiness"%string -> stReadiness (passKind kind st) = HealthKindPass).
Proof.
  unfold passKind. destruct (String.eqb_spec kind "liveness") as [->|]; [|destruct (String.eqb_spec kind "readiness") as [->|]];
    destruct st as [l r [] d]; cbn; split_and!; done.
Qed.
Lemma passWorker_keeps kind r ip ip' : passedBoth r ip -> passedBoth (passWorker kind r ip') ip.
Proof.
  intros (st & Hr & Hl & Hrd). unfold passWorker. destruct (String.eqb ip' ""); [by exists st|].
  destruct (decide (ip' = ip)) as [->|Hne]; [|exists st; by rewrite lookup_insert_ne].
  eexists. split; [apply lookup_insert_eq|]. rewrite Hr. cbn. destruct (passKind_columns kind st) as (H1 & H2 & _). eauto.
Qed.
Lemma finalize_passed workers : forall r ip, ip <> ""%string -> ip ∈ workers \/ passedBoth r ip -> passedBoth (finalizeSuccess r workers) ip.
Proof.
  unfold finalizeSuccess. induction workers as [|w workers IH]; intros r ip Hip Hor; cbn [foldl].
  { by destruct Hor as [[]%elem_of_nil|]. }
  apply IH; [done|]. destruct Hor as [[<-|Hin]%elem_of_cons|Hp]; [|by left|right; by do 2 apply passWorker_keeps].
  right. unfold passWorker. rewrite (proj2 (String.eqb_neq _ _) Hip), !lookup_insert_eq. eexists. split; [apply lookup_insert_eq|]. cbn.
  set (st := default _ _). destruct (passKind_columns "liveness" st) as (_ & _ & Hl & _).
  destruct (passKind_columns "readiness" (passKind "liveness" st)) as (H1 & _ & _ & H2). eauto.
Qed.
Lemma passed_row now job runID allocID ip rec workers : ip ∈ workers -> ip <> ""%string ->
  passRow now job runID allocID ip (recOf rec None workers) = mkHealthRow job allocID ip Healthy HealthKindPass HealthKindPass "" now runID.
Proof.
  intros Hin Hip. unfold passRow, recOf. destruct rec as [r|]; [|done]. cbn.
  destruct (finalize_passed workers r ip Hip (or_introl Hin)) as (st & Hst & Hl & Hr). rewrite Hst. by rewrite Hl, Hr.
Qed.
Lemma failed_row now job runID allocID ip rec e : ip ∈ failedWorkerIPs e \/ failedWorkerIPs e = [] ->
  exists row, failRow now job runID allocID ip rec e = Some row /\ hsStatus row = Unhealthy.
Proof.
  intros Hf. unfold failRow. assert (mem ip (failedWorkerIPs e) || (length (failedWorkerIPs e) =? 0)%nat = true) as ->.
  { destruct Hf as [Hf|Hf]; [by rewrite (proj2 (mem_true _ _) Hf)|rewrite Hf; apply orb_true_r]. }
  destruct (rec ≫= _); eexists; split; reflexivity.
Qed.
Lemma unknown_row now job runID allocID ip rec e : ip ∉ failedWorkerIPs e -> failedWorkerIPs e <> [] -> (r ← rec; r !! ip) = None ->
  failRow now job runID allocID ip rec e = None.
Proof.
  intros Hf Hne Hr. unfold failRow. rewrite Hr. assert (mem ip (failedWorkerIPs e) || (length (failedWorkerIPs e) =? 0)%nat = false) as ->; [|done].
  rewrite (proj2 (mem_false _ _) Hf). by destruct (failedWorkerIPs e).
Qed.

(** The results of a job with workers and checks are recorded for each of its
    deployed workers, and nothing of another job or of a machine changes: after
    a success every worker is healthy, with both kinds passed; after a failure
    every worker that the error names is unhealthy, all are when it names none,
    and a worker that neither the error nor the recorder knows keeps its row. *)
Theorem persistJobHealthResults_spec view now job runID rec jobErr t : wf_db view ->
  (forall a, a ∈ allocations view -> aAllocID a <> ""%string /\ aWorker a <> ""%string) -> runID <> ""%string ->
  skipReason view job = None ->
  exists t', persistJobHealthResults job runID rec jobErr now view t = Ok t' /\ only_job job t t' /\
  forall ip, ip ∈ targets view job -> exists id, GetAllocationID view ip job = Some id /\
    match jobErr with
    | None => health_status t' !! (job, id) = Some (storedRow now (mkHealthRow job id ip Healthy HealthKindPass HealthKindPass "" now runID))
    | Some e =>
        (ip ∈ failedWorkerIPs e \/ failedWorkerIPs e = [] -> hsStatus <$> health_status t' !! (job, id) = Some Unhealthy) /\
        (ip ∉ failedWorkerIPs e -> failedWorkerIPs e <> [] -> (r ← rec; r !! ip) = None ->
         health_status t' !! (job, id) = health_status t !! (job, id))
    end.
Proof.
  intros Hwf Hgiven Hrun Hskip. destruct (persist_rows view now job runID rec jobErr t Hwf) as (t' & Ht & Ho & _ & Hrows);
    [intros a Ha; by apply Hgiven|done|]. rewrite Hskip in Hrows. exists t'. split_and!; [done..|]. intros ip Hip.
  destruct (Hrows ip Hip) as (id & Hid & Hrow). exists id. split; [done|].
  assert (Hne : ip <> ""%string) by (apply target_row in Hip as (a & Ha & <- & _); by apply Hgiven).
  destruct jobErr as [e|]; cbn [workerRow recOf] in Hrow.
  - split.
    + intros Hf. destruct (failed_row now job runID id ip rec e Hf) as (row & Hr & Hst). rewrite Hrow, Hr. cbn. by rewrite Hst.
    + intros Hf Hn Hk. by rewrite Hrow, unknown_row.
  - rewrite Hrow. f_equal. f_equal. exact (passed_row now job runID id ip rec _ Hip Hne).
Qed.
End record.

(** ** The colour of a job *)

Definition statusOf (m : gmap string HealthStatusRow) (target : DeployedAllocationTarget) : option Status :=
  hsStatus <$> m !! tgAllocationID target.
Definition countTargets (m : gmap string HealthStatusRow) (s : Status) (targets : list DeployedAllocationTarget) : Z :=
  len (List.filter (fun target => bool_decide (statusOf m target = Some s)) targets).
Lemma countTargets_pos m s targets : 0 < countTargets m s targets <-> exists target, target ∈ targets /\ statusOf m target = Some s.
Proof.
  unfold countTargets, len. split.
  - intros Hl. destruct (List.filter _ targets) as [|x l] eqn:Ef; [cbn in Hl; lia|]. exists x.
    assert (Hx : x ∈ x :: l) by left. rewrite <- Ef in Hx. apply elem_of_list_filter_b in Hx as [Hx Hs]. bool_to_prop. done.
  - intros (x & Hx & Hs). assert (Hin : x ∈ List.filter (fun target => bool_decide (statusOf m target = Some s)) targets)
      by (apply elem_of_list_filter_b; by rewrite bool_decide_eq_true).
    destruct (List.filter _ targets); [by apply elem_of_nil in Hin|]. cbn. lia.
Qed.
Lemma countTargets_nonneg m s targets : 0 <= countTargets m s targets.
Proof. unfold countTargets, len. lia. Qed.
Lemma rollupLoop_counts m targets : forall healthy unhealthy latest runID,
  (rollupLoop m targets healthy unhealthy latest runID).1.1 = (healthy + countTargets m Healthy targets, unhealthy + countTargets m Unhealthy targets).
Proof.
  induction targets as [|target targets IH]; intros healthy unhealthy latest runID; cbn [rollupLoop].
  { unfold countTargets, len. cbn. f_equal; lia. }
  assert (Hc : forall s, countTargets m s (target :: targets) = (if bool_decide (statusOf m target = Some s) then 1 else 0) + countTargets m s targets).
  { intros s. unfold countTargets. cbn [List.filter]. case_bool_decide; unfold len; cbn [length]; lia. }
  rewrite !Hc. unfold statusOf. destruct (m !! tgAllocationID target) as [snap|]; cbn [fmap option_fmap option_map].
  - destruct (latest <? hsCheckedAt snap); rewrite IH; destruct (hsStatus snap); repeat case_bool_decide; try done; f_equal; lia.
  - rewrite IH. repeat case_bool_decide; try done; f_equal; lia.
Qed.
Lemma summary targets snapshots : targets <> [] ->
  let m := snapshotsByAlloc snapshots in let r := SummarizeJobHealth targets snapshots in
  AllocationsTotal r = len targets /\ AllocationsHealthy r = countTargets m Healthy targets /\
  AllocationsUnhealthy r = countTargets m Unhealthy targets /\
  ruColor r = RollupJobHealthColor (len targets) (countTargets m Healthy targets) (countTargets m Unhealthy targets).
Proof.
  intros Hne m r. unfold r, SummarizeJobHealth. destruct (length targets =? 0)%nat eqn:El; [bool_to_prop; by destruct targets|].
  pose proof (rollupLoop_counts (snapshotsByAlloc snapshots) targets 0 0 zeroTime "") as Hc. fold m in Hc |- *.
  destruct (rollupLoop m targets 0 0 zeroTime "") as [[[h u] l] run]. cbn in Hc. injection Hc as -> ->. by split_and!.
Qed.
Lemma colour_spec total h u : 0 < total -> 0 <= h -> 0 <= u ->
  let colour := RollupJobHealthColor total h u in
  (colour = Green <-> 0 < h /\ u = 0) /\ (colour = Red <-> h = 0 /\ 0 < u) /\ (colour = Yellow <-> 0 < h /\ 0 < u) /\ (colour = Gray <-> h = 0 /\ u = 0).
Proof.
  intros Ht Hh Hu. unfold RollupJobHealthColor. rewrite (proj2 (Z.eqb_neq total 0)) by lia. cbn [orb].
  destruct (h =? 0) eqn:E1, (u =? 0) eqn:E2, (0 <? h) eqn:E3, (0 <? u) eqn:E4; cbn [andb]; bool_to_prop; split_and!; split; intros; try done; lia.
Qed.

(** The rollup of a job counts its deployed allocations by their last result:
    it is green when some are healthy and none is unhealthy, red the other way
    round, yellow when there are both and gray when none has either. An
    allocation that was never checked does not count. *)
Theorem SummarizeJobHealth_colour targets snapshots : targets <> [] ->
  let has s := exists target, target ∈ targets /\ statusOf (snapshotsByAlloc snapshots) target = Some s in
  let colour := ruColor (SummarizeJobHealth targets snapshots) in
  (colour = Green <-> has Healthy /\ ~ has Unhealthy) /\ (colour = Red <-> ~ has Healthy /\ has Unhealthy) /\
  (colour = Yellow <-> has Healthy /\ has Unhealthy) /\ (colour = Gray <-> ~ has Healthy /\ ~ has Unhealthy).
Proof.
  intros Hne has colour. destruct (summary targets snapshots Hne) as (_ & _ & _ & Hc).
  assert (Ht : 0 < len targets) by (destruct targets; [done|unfold len; cbn; lia]).
  assert (Hh : forall s, (has s <-> 0 < countTargets (snapshotsByAlloc snapshots) s targets) /\
                         (~ has s <-> countTargets (snapshotsByAlloc snapshots) s targets = 0)).
  { intros s. pose proof (countTargets_pos (snapshotsByAlloc snapshots) s targets). pose proof (countTargets_nonneg (snapshotsByAlloc snapshots) s targets).
    change (0 < countTargets (snapshotsByAlloc snapshots) s targets <-> has s) in H. split; [tauto|].
    split; [|intros E Hs; apply H in Hs; lia].
    intros Hno. destruct (Z.eq_dec (countTargets (snapshotsByAlloc snapshots) s targets) 0) as [|Hz]; [done|].
    exfalso. apply Hno, H. lia. }
  destruct (Hh Healthy) as [H1 H2], (Hh Unhealthy) as [H3 H4]. rewrite H2, H4, H1, H3. unfold colour. rewrite Hc.
  apply colour_spec; [done|apply countTargets_nonneg..].
Qed.

(** ** From the run to the colour *)

Lemma ListHealthStatusForJob_elem t job r : keyed t -> r ∈ ListHealthStatusForJob t job <-> health_status t !! (job, hsAllocationID r) = Some r /\ hsJob r = job.
Proof.
  intros Ht. unfold ListHealthStatusForJob, ListHealthStatus. rewrite elem_of_list_filter_b, bool_decide_eq_true, merge_sort_Permutation.
  rewrite list_elem_of_fmap. split.
  - intros (([k r'] & -> & Hin) & Hj). apply elem_of_map_to_list in Hin. cbn in *.
    pose proof (Ht _ _ Hin) as ->. cbn in Hj. subst job. by split.
  - intros [Hl Hj]. split; [|done]. exists ((job, hsAllocationID r), r). split; [done|]. by apply elem_of_map_to_list.
Qed.
Lemma ListHealthStatusForJob_NoDup t job : keyed t -> NoDup (map hsAllocationID (ListHealthStatusForJob t job)).
Proof.
  intros Ht. apply NoDup_fmap_2_strong.
  - intros r r' Hr Hr' E. apply ListHealthStatusForJob_elem in Hr as [Hr _], Hr' as [Hr' _]; [|done..]. rewrite <- E in Hr'. congruence.
  - unfold ListHealthStatusForJob, ListHealthStatus. apply NoDup_filter_b. rewrite merge_sort_Permutation.
    apply NoDup_fmap_2_strong; [|apply NoDup_map_to_list]. intros [k r] [k' r'] Hk Hk' E. cbn in E. subst r'.
    apply elem_of_map_to_list in Hk, Hk'. apply Ht in Hk, Hk'. congruence.
Qed.
Lemma snapshots_lookup t job id : keyed t -> snapshotsByAlloc (ListHealthStatusForJob t job) !! id = health_status t !! (job, id).
Proof.
  intros Ht. unfold snapshotsByAlloc.
  destruct (foldl_insert hsAllocationID (fun r => r) (ListHealthStatusForJob t job) (∅ : gmap string HealthStatusRow)) as [Hin Hout].
  destruct (health_status t !! (job, id)) as [r|] eqn:Er.
  - pose proof (Ht _ _ Er) as Hk. cbn in Hk. injection Hk as Hj Hi.
    assert (Hr : r ∈ ListHealthStatusForJob t job) by (apply ListHealthStatusForJob_elem; [done|by rewrite <- Hi]).
    rewrite Hi. apply Hin; [by apply ListHealthStatusForJob_NoDup|done].
  - rewrite Hout; [done|]. intros Hx. apply list_elem_of_fmap in Hx as (r & -> & Hr).
    apply ListHealthStatusForJob_elem in Hr as [Hr _]; [|done]. congruence.
Qed.
Lemma targetsOf_elem db job tgts target : targetsOf db job = Some tgts -> target ∈ tgts ->
  exists ip, ip ∈ resolveHealthCheckWorkers db job false /\ GetAllocationID db ip job = Some (tgAllocationID target).
Proof.
  unfold targetsOf. intros Hm Hin. apply mapM_Some in Hm. revert Hin. change (resolveHealthCheckWorkers db job false) with (GetHealthCheckActiveAllocations db job).
  induction Hm as [|ip tg workers tgts Hx _ IH]; [by intros []%elem_of_nil|]. intros [->|Hin]%elem_of_cons.
  - exists ip. split; [left|]. destruct (GetAllocationID db ip job); [|done]. cbn in Hx. by injection Hx as <-.
  - destruct (IH Hin) as (ip' & Hip' & Hid). exists ip'. split; [by right|done].
Qed.
Lemma targetsOf_nonempty db job tgts : targetsOf db job = Some tgts -> resolveHealthCheckWorkers db job false <> [] -> tgts <> [].
Proof. unfold targetsOf. intros Hm Hne ->. apply mapM_Some in Hm. by inversion Hm as [E|]. Qed.

(** C25: The colour a job shows after a check that was recorded: green, with all of
    its deployed allocations healthy, after a success; red after a failure that
    names every worker or none. What the tables held before does not matter. *)
Theorem recorded_colour `{Unicode} databaseError health_check GetHooks view now job runID rec jobErr t t' tgts :
  wf_db view -> (forall a, a ∈ allocations view -> aAllocID a <> ""%string /\ aWorker a <> ""%string) -> runID <> ""%string -> keyed t ->
  skipReason health_check GetHooks view job = None -> targetsOf view job = Some tgts ->
  persistJobHealthResults databaseError health_check GetHooks job runID rec jobErr now view t = Ok t' ->
  let rollup := SummarizeJobHealth tgts (ListHealthStatusForJob t' job) in
  match jobErr with
  | None => ruColor rollup = Green /\ AllocationsHealthy rollup = AllocationsTotal rollup
  | Some e => failedWorkerIPs e = [] \/ (forall ip, ip ∈ resolveHealthCheckWorkers view job false -> ip ∈ failedWorkerIPs e) -> ruColor rollup = Red
  end.
Proof.
  intros Hwf Hgiven Hrun Hkey Hskip Htgts Hp rollup.
  destruct (persist_rows databaseError health_check GetHooks view now job runID rec jobErr t Hwf) as (t1 & Ht1 & _ & Hk1 & Hrows);
    [intros a Ha; by apply Hgiven|done|]. rewrite Hp in Ht1. injection Ht1 as <-. rewrite Hskip in Hrows. specialize (Hk1 Hkey).
  assert (Hne : tgts <> []).
  { eapply targetsOf_nonempty; [exact Htgts|]. intros Hn. unfold skipReason in Hskip. by rewrite Hn in Hskip. }
  assert (Hlen : 0 < len tgts) by (destruct tgts; [done|unfold len; cbn; lia]).
  destruct (summary tgts (ListHealthStatusForJob t' job) Hne) as (Htot & Hh & Hu & Hc). fold rollup in Htot, Hh, Hu, Hc.
  assert (Hall : forall s, (forall target, target ∈ tgts -> statusOf (snapshotsByAlloc (ListHealthStatusForJob t' job)) target = Some s) ->
    forall s', countTargets (snapshotsByAlloc (ListHealthStatusForJob t' job)) s' tgts = if decide (s' = s) then len tgts else 0).
  { intros s Hs s'. unfold countTargets. destruct (decide (s' = s)) as [->|Hd].
    - f_equal. apply forallb_filter_id, forallb_forall. intros x Hx%list_elem_of_In. by apply bool_decide_eq_true, Hs.
    - assert (List.filter (fun target => bool_decide (statusOf (snapshotsByAlloc (ListHealthStatusForJob t' job)) target = Some s')) tgts = []) as ->; [|done].
      destruct (List.filter _ _) as [|x l] eqn:Ef; [done|]. assert (Hx : x ∈ x :: l) by left. rewrite <- Ef in Hx.
      apply elem_of_list_filter_b in Hx as [Hx E]. bool_to_prop. rewrite Hs in E by done. congruence. }
  assert (Hstatus : forall s, (forall ip id, ip ∈ resolveHealthCheckWorkers view job false -> GetAllocationID view ip job = Some id ->
      hsStatus <$> health_status t' !! (job, id) = Some s) ->
    forall target, target ∈ tgts -> statusOf (snapshotsByAlloc (ListHealthStatusForJob t' job)) target = Some s).
  { intros s Hs target Hin. destruct (targetsOf_elem _ _ _ _ Htgts Hin) as (ip & Hip & Hid). unfold statusOf.
    rewrite snapshots_lookup by done. by apply (Hs ip). }
  destruct jobErr as [e|].
  - intros Hfail. assert (Hs := Hall Unhealthy (Hstatus Unhealthy ltac:(
      intros ip id Hip Hid; destruct (Hrows ip Hip) as (id' & Hid' & Hrow); assert (id' = id) as -> by congruence;
      destruct (failed_row now job runID id ip rec e) as (row & Hr & Hst); [destruct Hfail as [Hf|Hf]; [by right|left; by apply Hf]|];
      rewrite Hrow; cbn [workerRow recOf]; rewrite Hr; cbn; by rewrite Hst))).
    rewrite Hc, !Hs. cbn. apply (colour_spec (len tgts) 0 (len tgts)); lia.
  - assert (Hs := Hall Healthy (Hstatus Healthy ltac:(
      intros ip id Hip Hid; destruct (Hrows ip Hip) as (id' & Hid' & Hrow); assert (id' = id) as -> by congruence; by rewrite Hrow))).
    rewrite Hc, Hh, Htot, !Hs. cbn. split; [|done]. apply (colour_spec (len tgts) (len tgts) 0); lia.
Qed.

(** ** healthcheck: a job on two machines

    A concrete job with a liveness and a readiness probe and a readiness hook:
    the theorems of [HealthFacts] and [HealthRecordFacts] applied to it, and
    what a check records when a hook and a probe fail on different machines,
    when one kind was asked for, and when the last attempt fails. *)

Definition health_db : DB :=
  mkDB [mkAlloc "a1" "10.0.0.1" "web" 0 0 None; mkAlloc "a2" "10.0.0.2" "web" 0 0 None]
    (<["a1" := mkHash (Some "h") (Some "h") None]> (<["a2" := mkHash (Some "h") (Some "h") None]> ∅)) ∅.
Definition health_catalog : Catalog :=
  mkCatalog [mkWorkerRow "w1" "10.0.0.1" "" "" 0; mkWorkerRow "w2" "10.0.0.2" "" "" 1] [] []
    [mkJobRow "j1" "web" "" "" "" "" "" "" "" 0 defaultColumns] [] [mkPortRow "j1" "http" 8080 "tcp" ""].
Definition ssh_probe : HealthCheckProbe := mkProbe "ssh" "" "" "systemctl is-active web" 0 "".
Definition tcp_probe : HealthCheckProbe := mkProbe "tcp" "http" "" "" 0 "".
Definition web_health : Spec :=
  Some (mkHealthCheck (Some (mkKind [ssh_probe] None)) (Some (mkKind [tcp_probe] (Some (mkWait 2 1)))) [] 0 None).
Definition web_hooks (job event : string) : list string := if String.eqb event "readiness" then ["ready"%string] else [].
Definition no_tables : HealthTables := mkHealthTables ∅ [] ∅ [].
(** The world counts the waits; [refused] is the address that refuses, [bad]
    the machine where hooks fail. *)
Definition health_fx (refused bad : string) : World Z := {|
  ctxErr := fun _ => None;
  sessionStore := fun _ => None;
  atSpawn := fun w _ => w;
  atProbe := fun w _ _ => w;
  afterProbes := fun w _ => w;
  arrival := fun _ errs => errs;
  shell := fun _ _ _ _ => None;
  dial := fun _ addr _ => if String.eqb addr refused then Some "refused"%string else None;
  httpGet := fun _ _ _ => inr 200;
  sleep := fun _ w => (w + 1, None);
  runHook := fun job command _ ips _ _ w =>
    (w, if negb (String.eqb bad "") && mem bad ips then Some (ERun job command [(bad, EText "exit 1")]) else None);
  clock := fun w => 1000 + w;
  begin_ := fun w => (w, None);
  commit := fun w => (w, None);
  committed := fun _ => health_db;
|}.
Section example.
#[local] Existing Instance ascii_unicode.
Definition quote (s : string) : string := s.
Definition checkWeb (refused bad : string) (wait : bool) (kind runID : string) : State Z * option error :=
  HealthCheckWithOptions (health_fx refused bad) quote (EText "database error") health_db health_catalog (fun _ => web_health) web_hooks
    (fun _ => Ok 1) (Ok 60) (mkSt 0 no_tables []) wait "web" false (mkCheckOptions [] false kind true runID false).
Definition rowOf (s : State Z) (id : string) : option (Status * string * string * string) :=
  (fun r => (hsStatus r, hsLiveness r, hsReadiness r, hsDetail r)) <$> health_status (tables s) !! ("web"%string, id).

(** The readiness hook of the second machine failed, and it is recorded as
    healthy and ready: the error names only the machine of the failed probe. *)
Example hook_failure_hidden :
  let '(s, e) := checkWeb "10.0.0.1:8080" "10.0.0.2" false "" "run" in
  ErrorText <$> e = Some ("job web: web 10.0.0.1: tcp 10.0.0.1:8080: refused" +:+ newline +:+ "job web hook ready failed: 10.0.0.2: exit 1") /\
  rowOf s "a1" = Some (Unhealthy, "pass", "fail", "tcp 10.0.0.1:8080: refused")%string /\
  rowOf s "a2" = Some (Healthy, "pass", "pass", "")%string.
Proof. vm_compute. split_and!; reflexivity. Qed.

(** A readiness hook that fails on the second machine alone makes both
    unhealthy, and the kind that failed is recorded as skipped. *)
Example hook_failure_blames_all :
  let '(s, e) := checkWeb "" "10.0.0.2" false "" "run" in
  e = Some (EHealthCheck "web" (ERun "web" "ready" [("10.0.0.2", EText "exit 1")])) /\
  (fun r => r.1.1) <$> rowOf s "a1" = Some (Unhealthy, "pass")%string /\ (fun r => r.1.1) <$> rowOf s "a2" = Some (Unhealthy, "pass")%string /\
  (fun r => r.1.2) <$> rowOf s "a1" = Some "skip"%string /\ (fun r => r.1.2) <$> rowOf s "a2" = Some "skip"%string.
Proof. vm_compute. split_and!; reflexivity. Qed.

(** A check of the liveness kind alone records that readiness passed, on a
    machine that refuses the readiness probe. *)
Example unchecked_kind_passes :
  let '(s, e) := checkWeb "10.0.0.1:8080" "" false "liveness" "run" in
  e = None /\ rowOf s "a1" = Some (Healthy, "pass", "pass", "")%string.
Proof. vm_compute. split; reflexivity. Qed.

(** After the last attempt the check says that it retries, and waits. *)
Example last_attempt_waits :
  let '(s, e) := checkWeb "10.0.0.1:8080" "" true "readiness" "" in
  is_Some e /\ world s = 2 /\
  printed s = ["readiness check failed: web 10.0.0.1 (attempt 1/2), retrying...";
               "readiness check failed: web 10.0.0.1 (attempt 2/2), retrying...";
               "readiness check failed: web 10.0.0.1: tcp 10.0.0.1:8080: refused"]%string.
Proof. vm_compute. split_and!; [eauto|reflexivity..]. Qed.

(** ** The theorems at this job *)

Lemma health_db_wf : wf_db health_db.
Proof. split; apply (bool_decide_eq_true_1 _); vm_compute; reflexivity. Qed.
Lemma health_db_given a : a ∈ allocations health_db -> aAllocID a <> ""%string /\ aWorker a <> ""%string.
Proof. cbn. rewrite !elem_of_cons, elem_of_nil. by intros [->|[->|[]]]. Qed.
Lemma health_fx_ok refused bad : World_ok (health_fx refused bad).
Proof. split; cbn; [done| |done]. intros job command event ips conc env w w' e. destruct (_ && _); intros [= _ <-]; done. Qed.
Lemma health_targets mode : resolveHealthCheckWorkers health_db "web" mode = ["10.0.0.1"; "10.0.0.2"]%string.
Proof. by destruct mode; vm_compute. Qed.
Lemma max_plain (job : string) (e : error) : Ok 1 = Err e -> plain e.
Proof. done. Qed.

Lemma HealthCheck_sound_witness :
  let fx := health_fx "" "" in
  probed fx quote health_catalog "web" "10.0.0.2" 0 tcp_probe defaultProbeTimeout /\ hooked fx "web" "ready" "readiness" "10.0.0.2".
Proof.
  pose proof (HealthCheck_sound (health_fx "" "") quote (EText "database error") health_db health_catalog (fun _ => web_health) web_hooks
    (fun _ => Ok 1) (Ok 60) (health_fx_ok _ _) health_db_wf I max_plain (mkSt 0 no_tables []) false "web" false
    (mkCheckOptions [] false "" true "run" false) (checkWeb "" "" false "" "run").1 true true) as Hs.
  destruct Hs as [_ Hr]; [vm_compute; reflexivity|reflexivity|vm_compute; reflexivity|].
  destruct (Hr eq_refl "10.0.0.2"%string) as [Hp Hh]; [rewrite health_targets; right; left|]. split.
  - apply (Hp 0%nat). reflexivity.
  - apply Hh. vm_compute. left.
Defined.

Lemma runHealthKind_retries_witness :
  exists s rec r, runHealthKind (health_fx "10.0.0.1:8080" "") quote (EText "database error") health_db health_catalog (fun _ => Ok 1) (Ok 60)
    (mkSt 0 no_tables []) "web" true DeployOptions "readiness" web_health [tcp_probe] [] None = (s, rec, r) /\
  loopEnd (health_fx "10.0.0.1:8080" "") quote (EText "database error") health_db health_catalog (fun _ => Ok 1)
    "web" "readiness" DeployOptions web_health [tcp_probe] [] None second 2 (mkSt 0 no_tables []) s rec r.
Proof.
  eexists _, _, _. split; [vm_compute; reflexivity|].
  eapply (runHealthKind_retries (health_fx "10.0.0.1:8080" "") quote (EText "database error") health_db health_catalog (fun _ => Ok 1) (Ok 60)
    (mkSt 0 no_tables []) "web" DeployOptions "readiness" web_health [tcp_probe] [] None 2 second); vm_compute; reflexivity.
Defined.

Lemma DeployHealthCheck_opens_witness :
  (DeployHealthCheck (health_fx "" "") quote (EText "database error") health_db health_catalog (fun _ => web_health) web_hooks
    (fun _ => Ok 1) (Ok 60) (mkSt 0 no_tables []) true "web" true).2 = None.
Proof.
  apply (DeployHealthCheck_opens (health_fx "" "") quote (EText "database error") health_db health_catalog (fun _ => web_health) web_hooks
    (fun _ => Ok 1) (Ok 60) (health_fx_ok _ _) health_db_wf (fun _ => eq_refl) _ true "web" true 1 60); [reflexivity..| | | |].
  - intros v ip k probe Hip Hk. destruct k; [injection Hk as <-|done]. vm_compute. reflexivity.
  - intros v ip k probe Hip Hk. destruct k; [injection Hk as <-|done].
    rewrite health_targets in Hip. apply elem_of_cons in Hip as [->|[->|[]%elem_of_nil]%elem_of_cons]; vm_compute; reflexivity.
  - intros command ips conc env v []%elem_of_nil.
  - intros command ips conc env v _. reflexivity.
Defined.

Lemma persistJobHealthResults_spec_witness :
  exists t, persistJobHealthResults (EText "database error") (fun _ => web_health) web_hooks "web" "run" None
              (Some (EAllocation "web" "10.0.0.1" (EText "refused"))) 7 health_db no_tables = Ok t /\
  hsStatus <$> health_status t !! ("web", "a1")%string = Some Unhealthy /\ health_status t !! ("web", "a2")%string = None.
Proof.
  destruct (persistJobHealthResults_spec (EText "database error") (fun _ => web_health) web_hooks health_db 7 "web" "run" None
    (Some (EAllocation "web" "10.0.0.1" (EText "refused"))) no_tables health_db_wf health_db_given) as (t & Ht & _ & Hrows);
    [discriminate|vm_compute; reflexivity|].
  exists t. split; [exact Ht|]. rewrite health_targets in Hrows. split.
  - destruct (Hrows "10.0.0.1"%string ltac:(left)) as (id & Hid & Hf & _). injection Hid as <-. apply Hf. left. vm_compute. left.
  - destruct (Hrows "10.0.0.2"%string ltac:(right; left)) as (id & Hid & _ & Hk). injection Hid as <-.
    rewrite Hk; [reflexivity| |discriminate|reflexivity]. apply mem_false. vm_compute. reflexivity.
Defined.

Definition web_targets : list DeployedAllocationTarget := [mkTarget "web" "a1" "10.0.0.1"; mkTarget "web" "a2" "10.0.0.2"].
Lemma SummarizeJobHealth_colour_witness :
  ruColor (SummarizeJobHealth web_targets [mkHealthRow "web" "a1" "10.0.0.1" Healthy "" "" "" 7 "run"]) = Green.
Proof.
  apply (SummarizeJobHealth_colour web_targets [mkHealthRow "web" "a1" "10.0.0.1" Healthy "" "" "" 7 "run"]); [discriminate|]. split.
  - exists (mkTarget "web" "a1" "10.0.0.1"). split; [left|reflexivity].
  - intros (target & Hin & Hs). apply elem_of_cons in Hin as [->|[->|[]%elem_of_nil]%elem_of_cons]; discriminate Hs.
Defined.

Lemma recorded_colour_witness :
  exists t, persistJobHealthResults (EText "database error") (fun _ => web_health) web_hooks "web" "run" None None 7 health_db no_tables = Ok t /\
  ruColor (SummarizeJobHealth web_targets (ListHealthStatusForJob t "web")) = Green.
Proof.
  eexists. split; [reflexivity|].
  refine (proj1 (recorded_colour (EText "database error") (fun _ => web_health) web_hooks health_db 7 "web" "run" None None no_tables _ web_targets
    health_db_wf health_db_given _ _ _ _ _)); [discriminate|intros k r Hk; vm_compute in Hk; discriminate Hk|vm_compute; reflexivity|vm_compute; reflexivity|reflexivity].
Defined.
End example.
