(* ===== verification/Rows.v ===== *)
(** * build: rows with an identifier and a name

    The tables of workers and of jobs have two unique columns, and other tables
    have rows that belong to an identifier; what the steps of a build do to
    them, for any such table. *)
From S2P Require Import Prelude Utils.

(** ** Rows that belong to an identifier *)

Definition of_id {A} (f : A -> string) (id : string) (l : list A) : list A := List.filter (fun r => String.eqb (f r) id) l.
Lemma of_id_purge {A} (f : A -> string) ids id l :
  of_id f id (List.filter (fun r => negb (mem (f r) ids)) l) = if mem id ids then [] else of_id f id l.
Proof.
  unfold of_id. induction l as [|r l IH]; cbn [List.filter]; [by destruct (mem id ids)|].
  destruct (String.eqb (f r) id) eqn:E.
  - apply String.eqb_eq in E as <-. destruct (mem (f r) ids) eqn:Em; cbn [negb].
    + exact IH.
    + cbn [List.filter]. rewrite String.eqb_refl. by rewrite IH.
  - destruct (negb (mem (f r) ids)); cbn [List.filter]; [rewrite E|]; exact IH.
Qed.
Lemma of_id_clear {A} (f : A -> string) id' id l :
  of_id f id (List.filter (fun r => negb (String.eqb (f r) id')) l) = if String.eqb id id' then [] else of_id f id l.
Proof.
  transitivity (of_id f id (List.filter (fun r => negb (mem (f r) [id'])) l)).
  - f_equal. apply filter_ext. intros r. f_equal. destruct (String.eqb (f r) id') eqn:E.
    + apply String.eqb_eq in E. symmetry. by apply mem_true, list_elem_of_singleton.
    + apply String.eqb_neq in E. symmetry. apply mem_false. by intros ?%list_elem_of_singleton.
  - rewrite of_id_purge. destruct (String.eqb id id') eqn:E.
    + apply String.eqb_eq in E as ->. by rewrite (proj2 (mem_true id' [id'])) by left.
    + apply String.eqb_neq in E. rewrite (proj2 (mem_false id [id'])); [done|]. by intros ?%list_elem_of_singleton.
Qed.
Lemma of_id_app {A} (f : A -> string) id l l' : of_id f id (l ++ l') = of_id f id l ++ of_id f id l'.
Proof. apply List.filter_app. Qed.
Lemma of_id_all {A} (f : A -> string) id l : Forall (fun r => f r = id) l -> of_id f id l = l.
Proof.
  intros Hl. unfold of_id. induction Hl as [|r l Hr Hl IH]; cbn [List.filter]; [done|]. rewrite Hr, String.eqb_refl. by rewrite IH.
Qed.
Lemma of_id_none {A} (f : A -> string) id l : Forall (fun r => f r <> id) l -> of_id f id l = [].
Proof.
  intros Hl. unfold of_id. induction Hl as [|r l Hr Hl IH]; cbn [List.filter]; [done|]. apply String.eqb_neq in Hr. by rewrite Hr.
Qed.
Lemma of_id_snoc {A} (f : A -> string) id id' l rows : Forall (fun r => f r = id) rows ->
  of_id f id' (l ++ rows) = of_id f id' l ++ (if String.eqb id' id then rows else []).
Proof.
  intros Hr. rewrite of_id_app. f_equal. destruct (String.eqb id' id) eqn:E.
  - apply String.eqb_eq in E as ->. by apply of_id_all.
  - apply String.eqb_neq in E. apply of_id_none. eapply Forall_impl; [exact Hr|]. cbn. congruence.
Qed.
Lemma pair_id {A} id (l : list A) : Forall (fun s : string * A => s.1 = id) (map (pair id) l).
Proof. apply List.Forall_forall. by intros r (e & <- & _)%in_map_iff. Qed.
Lemma snd_pairs {A} (id : string) (l : list A) : (map (pair id) l).*2 = l.
Proof. induction l; cbn; congruence. Qed.

(** ** Unique columns *)

Lemma head_filter_unique {A} (f : A -> string) l x : NoDup (map f l) -> x ∈ l -> head (List.filter (fun y => bool_decide (f y = f x)) l) = Some x.
Proof.
  intros Hnd Hx. destruct (List.filter _ l) as [|y l'] eqn:E.
  - assert (Hin : x ∈ List.filter (fun y => bool_decide (f y = f x)) l) by (apply elem_of_list_filter_b; by rewrite bool_decide_eq_true_2).
    rewrite E in Hin. by apply elem_of_nil in Hin.
  - assert (Hin : y ∈ List.filter (fun y => bool_decide (f y = f x)) l) by (rewrite E; left).
    apply elem_of_list_filter_b in Hin as [Hy Hf%bool_decide_eq_true]. cbn. f_equal. by apply (NoDup_map_eq f l).
Qed.
Lemma NoDup_map_snoc {A B} (f : A -> B) l x : NoDup (map f l) -> f x ∉ map f l -> NoDup (map f (l ++ [x])).
Proof.
  intros Hl Hx. rewrite map_app. apply NoDup_app. split; [done|]. split; [|apply NoDup_singleton].
  intros y Hy ->%list_elem_of_singleton. by apply Hx.
Qed.

(** ** INSERT OR REPLACE of a row whose identifier and name agree *)

Section keyed.
Context {R : Type} (rid rname : R -> string).
(** A row with the identifier of [row] has its name, and the other way round. *)
Definition agrees (row : R) (rows : list R) : Prop := forall r, r ∈ rows -> rid r = rid row <-> rname r = rname row.
Definition clash (row r : R) : bool := String.eqb (rid r) (rid row) || String.eqb (rname r) (rname row).
Definition renamed (name : string) (r : R) : bool := negb (String.eqb (rname r) name).
Lemma renamed_true name r : renamed name r = true <-> rname r <> name.
Proof. unfold renamed. by rewrite negb_true_iff, String.eqb_neq. Qed.
Lemma renamed_in name rows r : r ∈ List.filter (renamed name) rows <-> r ∈ rows /\ rname r <> name.
Proof. by rewrite elem_of_list_filter_b, renamed_true. Qed.

Lemma clash_name row rows : agrees row rows -> forall r, r ∈ rows -> clash row r = String.eqb (rname r) (rname row).
Proof.
  intros Ha r Hr. unfold clash. pose proof (Ha r Hr) as Hi. destruct (String.eqb (rname r) (rname row)) eqn:En; [apply orb_true_r|].
  rewrite orb_false_r. apply String.eqb_neq. apply String.eqb_neq in En. intros E. by apply En, Hi.
Qed.
Lemma replaced_rows row rows : agrees row rows -> List.filter (fun r => negb (clash row r)) rows = List.filter (renamed (rname row)) rows.
Proof. intros Ha. apply filter_ext_in. intros r Hr%list_elem_of_In. unfold renamed. by rewrite (clash_name row rows Ha). Qed.
Lemma replaced_ids row rows : agrees row rows -> forall id,
  mem id (map rid (List.filter (clash row) rows)) = true <-> id = rid row /\ id ∈ map rid rows.
Proof.
  intros Ha id. rewrite mem_true, list_elem_of_fmap. split.
  - intros (r & -> & [Hr Hc]%elem_of_list_filter_b). rewrite (clash_name row rows Ha r Hr) in Hc. apply String.eqb_eq in Hc.
    split; [by apply Ha|]. apply list_elem_of_fmap. eauto.
  - intros [-> (r & E & Hr)%list_elem_of_fmap]. exists r. split; [done|]. apply elem_of_list_filter_b. split; [done|].
    rewrite (clash_name row rows Ha r Hr). by apply String.eqb_eq, Ha.
Qed.
Lemma replaced_unique row rows : NoDup (map rid rows) -> NoDup (map rname rows) -> agrees row rows ->
  let rows' := List.filter (renamed (rname row)) rows ++ [row] in NoDup (map rid rows') /\ NoDup (map rname rows').
Proof.
  intros Hi Hn Ha. split; (apply NoDup_map_snoc; [by apply NoDup_map_filter|]).
  - intros (r & E & [Hr Hne]%renamed_in)%list_elem_of_fmap. by apply Hne, Ha.
  - by intros (r & E & [Hr Hne]%renamed_in)%list_elem_of_fmap.
Qed.
Lemma replaced_in row rows r : r ∈ List.filter (renamed (rname row)) rows ++ [row] <-> (r ∈ rows /\ rname r <> rname row) \/ r = row.
Proof. by rewrite elem_of_app, list_elem_of_singleton, renamed_in. Qed.
Lemma replaced_other_ids row rows : agrees row rows -> forall id, id <> rid row ->
  id ∈ map rid (List.filter (renamed (rname row)) rows ++ [row]) <-> id ∈ map rid rows.
Proof.
  intros Ha id Hne. rewrite !list_elem_of_fmap. split.
  - intros (r & -> & [[Hr _]| ->]%replaced_in); [eauto|done].
  - intros (r & -> & Hr). exists r. split; [done|]. apply replaced_in. left. split; [done|]. intros E. by apply Hne, Ha.
Qed.
End keyed.
