(* ===== verification/BuildWorkers.v ===== *)
(** * build: the workers of the catalog

    build/build_workers.go over the tables of [Catalog]. A label or a tag
    belongs to a row of [workers], and goes with it (ON DELETE CASCADE). The
    SHA-256 of Go's library is an argument; a failed transaction is rolled
    back, so an error carries no tables. *)
From S2P Require Import Prelude GoStrings GoFloat Utils Ports AllocState WorkersConf Catalog Placement PlacementFacts Resources Rows.
Open Scope Z_scope.

Inductive workers_error :=
| DuplicateIP
| NoWorkerID (e : build_error)
| WorkerMemory (workerIP : string) (e : unit_error)
| NegativeMemory (workerIP : string)
| WorkerCPU (workerIP : string) (e : unit_error)
| NegativeCPU (workerIP : string)
| DuplicateLabels (workerIP : string).

Definition setWorkers (c : Catalog) (w : list WorkerRow) (l : list (string * string)) (t : list (string * (string * string))) : Catalog :=
  mkCatalog w l t (jobs c) (job_selectors c) (job_ports c).
(** DELETE FROM workers WHERE p, with what belongs to the rows. *)
Definition deleteWorkers (c : Catalog) (p : WorkerRow -> bool) : Catalog :=
  let ids := map wkID (List.filter p (workers c)) in
  setWorkers c (List.filter (fun w => negb (p w)) (workers c))
    (List.filter (fun l => negb (mem l.1 ids)) (worker_labels c))
    (List.filter (fun t => negb (mem t.1 ids)) (worker_tags c)).
(** INSERT OR REPLACE: the rows with the same identifier or address go. *)
Definition upsertWorker (c : Catalog) (r : WorkerRow) : Catalog :=
  let c := deleteWorkers c (fun w => String.eqb (wkID w) (wkID r) || String.eqb (wkIP w) (wkIP r)) in
  setWorkers c (workers c ++ [r]) (worker_labels c) (worker_tags c).
Definition clearLabels (c : Catalog) (workerID : string) : Catalog :=
  setWorkers c (workers c) (List.filter (fun l => negb (String.eqb l.1 workerID)) (worker_labels c)) (worker_tags c).
Definition clearTags (c : Catalog) (workerID : string) : Catalog :=
  setWorkers c (workers c) (worker_labels c) (List.filter (fun t => negb (String.eqb t.1 workerID)) (worker_tags c)).
Definition syncWorkerLabels (c : Catalog) (workerID : string) (w : Worker) : result workers_error Catalog :=
  let c := clearLabels c workerID in
  if negb (length (wLabels w) =? length (Unique (wLabels w)))%nat then Err (DuplicateLabels (wHost w))
  else Ok (setWorkers c (workers c) (worker_labels c ++ map (pair workerID) (wLabels w)) (worker_tags c)).
Definition syncWorkerTags (c : Catalog) (workerID : string) (w : Worker) : Catalog :=
  let c := clearTags c workerID in
  setWorkers c (workers c) (worker_labels c) (worker_tags c ++ map (pair workerID) (map_to_list (wTags w))).
Definition GetAllWorkers (c : Catalog) : list string := map wkIP (workers c).

Section build.
Context (sha256 : string -> list Z) (bucketID : string).

Definition quantity (e1 : unit_error -> workers_error) (e2 : workers_error) (r : result unit_error float64) : result workers_error string :=
  match r with
  | Err e => Err (e1 e)
  | Ok v => if flt v float_zero then Err e2 else Ok (Sprint_v v)
  end.
Definition workerIDOf (c : Catalog) (host : string) : result workers_error string :=
  let id := default "" (GetWorkerID c host) in
  if String.eqb id "" then
    match MintUniquePublicID sha256 (bucketID +:+ "|" +:+ host) (fun id => negb (existsb (fun w => String.eqb (wkID w) id) (workers c))) with
    | Ok id => Ok id
    | Err e => Err (NoWorkerID e)
    end
  else Ok id.
Definition buildWorker (c : Catalog) (w : Worker) : result workers_error Catalog :=
  let? workerID := workerIDOf c (wHost w) in
  let? availableMemoryMB := quantity (WorkerMemory (wHost w)) (NegativeMemory (wHost w)) (ParseMemoryMB (wMemory w)) in
  let? availableCPUMHz := quantity (WorkerCPU (wHost w)) (NegativeCPU (wHost w)) (ParseCPUMHz (wCPU w)) in
  let c := upsertWorker c (mkWorkerRow workerID (wHost w) availableMemoryMB availableCPUMHz (wPosition w)) in
  let? c := syncWorkerLabels c workerID w in
  Ok (syncWorkerTags c workerID w).
Definition removeWorker (c : Catalog) (workerIP : string) : Catalog :=
  let ids := map wkID (List.filter (fun w => String.eqb (wkIP w) workerIP) (workers c)) in
  let c := foldl clearTags (foldl clearLabels c ids) ids in
  deleteWorkers c (fun w => String.eqb (wkIP w) workerIP).
(** The catalog and the removed workers. *)
Definition BuildWorkers (workspaceWorkers : list Worker) (c : Catalog) : result workers_error (Catalog * list string) :=
  let workerIPs := map wHost workspaceWorkers in
  if negb (length workerIPs =? length (Unique workerIPs))%nat then Err DuplicateIP
  else
    let? c := foldR buildWorker c workspaceWorkers in
    let workersToRemove := Difference (GetAllWorkers c) workerIPs in
    Ok (foldl removeWorker c workersToRemove, workersToRemove).
End build.

(** ** build: what a build leaves in the tables of workers *)

Lemma Unique_length_NoDup l : length l = length (Unique l) -> NoDup l.
Proof.
  intros E. pose proof (uniqueLoop_sublist l ∅) as Hs. pose proof (uniqueLoop_NoDup l ∅) as Hn. fold (Unique l) in Hs, Hn.
  rewrite <- (submseteq_length_Permutation _ _ (sublist_submseteq _ _ Hs)) by lia. done.
Qed.

Definition labelsOf (c : Catalog) (id : string) : list string := (of_id fst id (worker_labels c)).*2.
Definition tagsOf (c : Catalog) (id : string) : list (string * string) := (of_id fst id (worker_tags c)).*2.
Record workers_ok (c : Catalog) : Prop := {
  worker_ids_unique : NoDup (map wkID (workers c));
  worker_ips_unique : NoDup (map wkIP (workers c));
  worker_ids_set : Forall (fun w => wkID w <> "") (workers c);
  labels_owned : forall id, id ∉ map wkID (workers c) -> labelsOf c id = [] /\ tagsOf c id = [];
}.

Lemma labels_delete c p id : labelsOf (deleteWorkers c p) id = if mem id (map wkID (List.filter p (workers c))) then [] else labelsOf c id.
Proof. unfold labelsOf, deleteWorkers. cbn [setWorkers worker_labels]. rewrite of_id_purge. by destruct (mem id _). Qed.
Lemma tags_delete c p id : tagsOf (deleteWorkers c p) id = if mem id (map wkID (List.filter p (workers c))) then [] else tagsOf c id.
Proof. unfold tagsOf, deleteWorkers. cbn [setWorkers worker_tags]. rewrite of_id_purge. by destruct (mem id _). Qed.
Lemma GetWorkerID_in c w : workers_ok c -> w ∈ workers c -> GetWorkerID c (wkIP w) = Some (wkID w).
Proof. intros Hok Hw. unfold GetWorkerID, workerOf. by rewrite (head_filter_unique wkIP _ w (worker_ips_unique c Hok) Hw). Qed.
Lemma GetWorkerID_Some c ip id : GetWorkerID c ip = Some id -> exists w, w ∈ workers c /\ wkIP w = ip /\ wkID w = id.
Proof.
  unfold GetWorkerID, workerOf. destruct (List.filter _ _) as [|w l] eqn:E; [done|]. intros [= <-].
  assert (H : w ∈ List.filter (fun w => bool_decide (wkIP w = ip)) (workers c)) by (rewrite E; left).
  apply elem_of_list_filter_b in H as [? ?%bool_decide_eq_true]. eauto.
Qed.
Lemma GetWorkerID_None c ip : GetWorkerID c ip = None -> forall w, w ∈ workers c -> wkIP w <> ip.
Proof.
  unfold GetWorkerID, workerOf. destruct (List.filter _ _) as [|x l] eqn:E; [|done]. intros _ w Hw <-.
  assert (H : w ∈ List.filter (fun w' => bool_decide (wkIP w' = wkIP w)) (workers c)) by (apply elem_of_list_filter_b; by rewrite bool_decide_eq_true_2).
  rewrite E in H. by apply elem_of_nil in H.
Qed.

Section steps.
Context (sha256 : string -> list Z) (bucketID : string).
Notation workerIDOf := (workerIDOf sha256 bucketID).
Notation buildWorker := (buildWorker sha256 bucketID).
Notation BuildWorkers := (BuildWorkers sha256 bucketID).

Lemma workerIDOf_spec c host id : workers_ok c -> workerIDOf c host = Ok id ->
  id <> "" /\ (forall w, w ∈ workers c -> wkID w = id <-> wkIP w = host) /\ (forall old, GetWorkerID c host = Some old -> id = old).
Proof.
  intros Hok. unfold BuildWorkers.workerIDOf. destruct (GetWorkerID c host) as [old|] eqn:Eg.
  - apply GetWorkerID_Some in Eg as (w & Hw & <- & <-). assert (Hne : wkID w <> "").
    { pose proof (worker_ids_set c Hok) as Hs. rewrite List.Forall_forall in Hs. by apply Hs, list_elem_of_In. }
    cbn. unfold Datatypes.id. destruct (String.eqb (wkID w) "") eqn:E; [by apply String.eqb_eq in E|]. intros [= <-].
    split; [done|]. split; [|congruence]. intros w' Hw'. split; intros E'.
    + by rewrite (NoDup_map_eq wkID _ w' w (worker_ids_unique c Hok) Hw' Hw E').
    + by rewrite (NoDup_map_eq wkIP _ w' w (worker_ips_unique c Hok) Hw' Hw E').
  - cbn. destruct (MintUniquePublicID _ _ _) as [i|] eqn:Em; [|done]. intros [= <-]. apply MintUniquePublicID_ok in Em as [Hpub Hacc].
    split; [by intros ->|]. split; [|done]. intros w Hw. pose proof (GetWorkerID_None c host Eg w Hw) as Hno. split; [|done].
    intros E. exfalso. apply negb_true_iff in Hacc. enough (Ht : existsb (fun w => String.eqb (wkID w) i) (workers c) = true) by congruence.
    apply existsb_exists. exists w. split; [by apply list_elem_of_In|by apply String.eqb_eq].
Qed.

(** What a worker of workers.conf asks for, and its row. *)
Definition worker_row (w : Worker) (id : string) (row : WorkerRow) : Prop :=
  exists memory cpu, ParseMemoryMB (wMemory w) = Ok memory /\ flt memory float_zero = false
    /\ ParseCPUMHz (wCPU w) = Ok cpu /\ flt cpu float_zero = false
    /\ row = mkWorkerRow id (wHost w) (Sprint_v memory) (Sprint_v cpu) (wPosition w).
Lemma quantity_ok e1 e2 r s : quantity e1 e2 r = Ok s -> exists v, r = Ok v /\ flt v float_zero = false /\ s = Sprint_v v.
Proof. unfold quantity. destruct r as [v|]; [|done]. destruct (flt v float_zero) eqn:E; [done|]. intros [= <-]. eauto. Qed.

Lemma upsert_labels c row id : workers_ok c -> agrees wkID wkIP row (workers c) ->
  labelsOf (upsertWorker c row) id = (if String.eqb id (wkID row) then [] else labelsOf c id)
  /\ tagsOf (upsertWorker c row) id = (if String.eqb id (wkID row) then [] else tagsOf c id).
Proof.
  intros Hok Ha. pose proof (replaced_ids wkID wkIP row _ Ha id) as Hr.
  change (labelsOf (upsertWorker c row) id) with (labelsOf (deleteWorkers c (clash wkID wkIP row)) id).
  change (tagsOf (upsertWorker c row) id) with (tagsOf (deleteWorkers c (clash wkID wkIP row)) id).
  rewrite labels_delete, tags_delete. destruct (String.eqb id (wkID row)) eqn:E.
  - apply String.eqb_eq in E. destruct (mem id _) eqn:Em; [done|]. apply (labels_owned c Hok).
    intros Hin. enough (false = true) by done. by apply Hr.
  - apply String.eqb_neq in E. destruct (mem id _) eqn:Em; [by destruct (proj1 Hr eq_refl)|done].
Qed.
Lemma buildWorker_spec c w c' : workers_ok c -> buildWorker c w = Ok c' ->
  exists id row, workerIDOf c (wHost w) = Ok id /\ worker_row w id row /\ NoDup (wLabels w) /\ workers_ok c'
    /\ workers c' = List.filter (renamed wkIP (wHost w)) (workers c) ++ [row]
    /\ labelsOf c' id = wLabels w /\ tagsOf c' id = map_to_list (wTags w)
    /\ forall id', id' <> id -> labelsOf c' id' = labelsOf c id' /\ tagsOf c' id' = tagsOf c id'.
Proof.
  intros Hok Hb. unfold BuildWorkers.buildWorker in Hb. apply rbind_ok in Hb as (id & Hid & Hb).
  apply rbind_ok in Hb as (m & Hm & Hb). apply quantity_ok in Hm as (memory & Hm & Hm0 & ->).
  apply rbind_ok in Hb as (f & Hf & Hb). apply quantity_ok in Hf as (cpu & Hf & Hf0 & ->).
  apply rbind_ok in Hb as (c2 & Hl & [= <-]). unfold syncWorkerLabels in Hl.
  destruct (negb _) eqn:Eu in Hl; [done|]. injection Hl as <-. apply negb_false_iff, Nat.eqb_eq in Eu.
  destruct (workerIDOf_spec c (wHost w) id Hok Hid) as (Hne & Hiff & _). set (row := mkWorkerRow id _ _ _ _).
  change (agrees wkID wkIP row (workers c)) in Hiff. pose proof (fun i => upsert_labels c row i Hok Hiff) as Hup.
  set (c1 := upsertWorker c row) in *.
  assert (Hws : workers c1 = List.filter (renamed wkIP (wHost w)) (workers c) ++ [row]).
  { change (wHost w) with (wkIP row). rewrite <- (replaced_rows wkID wkIP row _ Hiff). reflexivity. }
  exists id, row. split; [done|]. split; [by exists memory, cpu|].
  match goal with |- _ /\ workers_ok ?x /\ _ => set (c2 := x) end.
  assert (Hl : forall i, labelsOf c2 i = if String.eqb i id then wLabels w else labelsOf c i).
  { intros i. unfold labelsOf at 1. unfold c2. cbn [syncWorkerTags clearTags clearLabels setWorkers worker_labels].
    rewrite (of_id_snoc fst id) by apply pair_id. rewrite of_id_clear, fmap_app. destruct (String.eqb i id) eqn:E.
    - by rewrite snd_pairs.
    - rewrite app_nil_r. change (labelsOf c1 i = labelsOf c i). rewrite (proj1 (Hup i)). change (wkID row) with id. by rewrite E. }
  assert (Ht : forall i, tagsOf c2 i = if String.eqb i id then map_to_list (wTags w) else tagsOf c i).
  { intros i. unfold tagsOf at 1. unfold c2. cbn [syncWorkerTags clearTags clearLabels setWorkers worker_tags].
    rewrite (of_id_snoc fst id) by apply pair_id. rewrite of_id_clear, fmap_app. destruct (String.eqb i id) eqn:E.
    - by rewrite snd_pairs.
    - rewrite app_nil_r. change (tagsOf c1 i = tagsOf c i). rewrite (proj2 (Hup i)). change (wkID row) with id. by rewrite E. }
  destruct (replaced_unique wkID wkIP row _ (worker_ids_unique c Hok) (worker_ips_unique c Hok) Hiff) as [Hi Hn].
  split_and!; [by apply Unique_length_NoDup| |exact Hws| | |].
  - split; change (workers c2) with (workers c1); rewrite ?Hws; [exact Hi|exact Hn| |].
    + apply Forall_app. split; [|by constructor]. apply List.Forall_forall. intros r [Hr _]%filter_In.
      pose proof (worker_ids_set c Hok) as Hs. rewrite List.Forall_forall in Hs. by apply Hs.
    + intros i Hni. rewrite Hl, Ht. destruct (String.eqb i id) eqn:E.
      * apply String.eqb_eq in E as ->. exfalso. apply Hni, list_elem_of_fmap. exists row. split; [done|]. apply (replaced_in wkIP row). by right.
      * apply String.eqb_neq in E. apply (labels_owned c Hok). by rewrite <- (replaced_other_ids wkID wkIP row _ Hiff i E).
  - by rewrite Hl, String.eqb_refl.
  - by rewrite Ht, String.eqb_refl.
  - intros i E%String.eqb_neq. by rewrite Hl, Ht, E.
Qed.

(** ** All workers *)

(** Worker [w] is in the catalog as workers.conf says. *)
Record worker_built (c : Catalog) (w : Worker) : Prop := {
  worker_known : exists row, worker_row w (wkID row) row /\ row ∈ workers c /\ labelsOf c (wkID row) = wLabels w
    /\ tagsOf c (wkID row) = map_to_list (wTags w);
  worker_labels_unique : NoDup (wLabels w);
}.
Definition frame (ips : list string) (c c' : Catalog) : Prop := forall r, r ∈ workers c -> wkIP r ∉ ips ->
  r ∈ workers c' /\ labelsOf c' (wkID r) = labelsOf c (wkID r) /\ tagsOf c' (wkID r) = tagsOf c (wkID r).

Lemma buildWorkers_spec ws : forall c c', workers_ok c -> NoDup (map wHost ws) -> foldR buildWorker c ws = Ok c' ->
  workers_ok c' /\ (forall ip, ip ∈ map wkIP (workers c') <-> ip ∈ map wkIP (workers c) \/ ip ∈ map wHost ws)
  /\ Forall (worker_built c') ws /\ (forall ip id, GetWorkerID c ip = Some id -> GetWorkerID c' ip = Some id) /\ frame (map wHost ws) c c'.
Proof.
  induction ws as [|w ws IH]; intros c c' Hok Hnd; cbn [foldR map].
  { intros [= <-]. split_and!; [done| |constructor|done|by intros r Hr _]. intros ip. split; [by left|]. intros [?|?%elem_of_nil]; done. }
  apply NoDup_cons in Hnd as [Hw Hnd]. intros (c1 & H1 & H2)%rbind_ok.
  apply (buildWorker_spec c w c1 Hok) in H1 as (id & row & Hid & Hrow & Hl & Hok1 & Hws & Hlab & Htag & Hoth).
  destruct (workerIDOf_spec c (wHost w) id Hok Hid) as (_ & Hiff & Hold).
  destruct (IH c1 c' Hok1 Hnd H2) as (Hok' & Hips & Hall & Hkeep & Hfr).
  pose proof Hrow as (m & f & _ & _ & _ & _ & Er). assert (Hip : wkIP row = wHost w) by (by rewrite Er). assert (Hrid : wkID row = id) by (by rewrite Er).
  assert (Hmem : forall r, r ∈ workers c1 <-> (r ∈ workers c /\ wkIP r <> wHost w) \/ r = row).
  { intros r. by rewrite Hws, elem_of_app, list_elem_of_singleton, renamed_in. }
  assert (Hin : row ∈ workers c1) by (apply Hmem; by right).
  split; [done|]. split.
  { intros ip. rewrite Hips, elem_of_cons, !list_elem_of_fmap. split.
    - intros [(r & -> & [[Hr _]| ->]%Hmem)|?]; [left; eauto|right; by left|right; by right].
    - intros [(r & -> & Hr)|[->|?]]; [left|left; by exists row|by right].
      destruct (decide (wkIP r = wHost w)) as [E|E]; [exists row; split; [congruence|done]|]. exists r. split; [done|]. apply Hmem. by left. }
  destruct (Hfr row Hin ltac:(by rewrite Hip)) as (Hin' & Hlab' & Htag'). split; [constructor; [|done]|split].
  - split; [|done]. exists row. rewrite Hlab', Htag', Hrid. by split_and!.
  - intros ip old Hg. apply Hkeep. apply GetWorkerID_Some in Hg as Hr. destruct Hr as (r & Hr & <- & <-).
    destruct (decide (wkIP r = wHost w)) as [E|E].
    + rewrite E in *. rewrite <- (Hold _ Hg), <- Hip, <- Hrid. by apply GetWorkerID_in.
    + apply GetWorkerID_in; [done|]. apply Hmem. by left.
  - intros r Hr [E Hx]%not_elem_of_cons. destruct (Hfr r) as (Hr' & E1 & E2); [apply Hmem; by left|done|].
    rewrite E1, E2. split; [done|]. apply Hoth. intros E'. by apply E, Hiff.
Qed.

Lemma clear_spec ids : forall c, let c' := foldl clearTags (foldl clearLabels c ids) ids in
  workers c' = workers c /\ forall id, id ∉ ids -> labelsOf c' id = labelsOf c id /\ tagsOf c' id = tagsOf c id.
Proof.
  assert (H1 : forall c, workers (foldl clearLabels c ids) = workers c /\ worker_tags (foldl clearLabels c ids) = worker_tags c
    /\ forall id, id ∉ ids -> labelsOf (foldl clearLabels c ids) id = labelsOf c id).
  { induction ids as [|i ids IH]; [done|]. intros c. cbn [foldl]. destruct (IH (clearLabels c i)) as (-> & -> & IHl). split_and!; [done|done|].
    intros id [Hi%String.eqb_neq Hn]%not_elem_of_cons. rewrite (IHl id Hn). unfold labelsOf. cbn [clearLabels setWorkers worker_labels].
    by rewrite of_id_clear, Hi. }
  assert (H2 : forall c, workers (foldl clearTags c ids) = workers c /\ worker_labels (foldl clearTags c ids) = worker_labels c
    /\ forall id, id ∉ ids -> tagsOf (foldl clearTags c ids) id = tagsOf c id).
  { clear H1. induction ids as [|i ids IH]; [done|]. intros c. cbn [foldl]. destruct (IH (clearTags c i)) as (-> & -> & IHl). split_and!; [done|done|].
    intros id [Hi%String.eqb_neq Hn]%not_elem_of_cons. rewrite (IHl id Hn). unfold tagsOf. cbn [clearTags setWorkers worker_tags].
    by rewrite of_id_clear, Hi. }
  intros c. cbv zeta. destruct (H1 c) as (E1 & E2 & E3), (H2 (foldl clearLabels c ids)) as (F1 & F2 & F3). split; [congruence|].
  intros id Hn. unfold labelsOf at 1. rewrite F2. split; [by apply E3|]. rewrite (F3 id Hn). unfold tagsOf. by rewrite E2.
Qed.
Lemma removeWorker_spec c ip : workers_ok c -> let c' := removeWorker c ip in
  workers_ok c' /\ workers c' = List.filter (renamed wkIP ip) (workers c)
  /\ forall r, r ∈ workers c' -> labelsOf c' (wkID r) = labelsOf c (wkID r) /\ tagsOf c' (wkID r) = tagsOf c (wkID r).
Proof.
  intros Hok c'. set (gone := map wkID (List.filter (fun w => String.eqb (wkIP w) ip) (workers c))).
  destruct (clear_spec gone c) as [Ew Eo]. set (cleared := foldl clearTags (foldl clearLabels c gone) gone) in *.
  assert (Hc : c' = deleteWorkers cleared (fun w => String.eqb (wkIP w) ip)) by reflexivity.
  assert (Hws : workers c' = List.filter (renamed wkIP ip) (workers c)).
  { rewrite <- Ew, Hc. reflexivity. }
  assert (Hl : forall id, (id ∈ gone -> labelsOf c' id = [] /\ tagsOf c' id = []) /\ (id ∉ gone -> labelsOf c' id = labelsOf c id /\ tagsOf c' id = tagsOf c id)).
  { intros id. rewrite Hc, labels_delete, tags_delete, Ew. fold gone. split; intros Hg.
    - by rewrite (proj2 (mem_true id gone) Hg).
    - rewrite (proj2 (mem_false id gone) Hg). by apply Eo. }
  assert (Hgone : forall r, r ∈ workers c -> wkIP r <> ip -> wkID r ∉ gone).
  { intros r Hr Hne (r' & E & [Hr' Hip%String.eqb_eq]%elem_of_list_filter_b)%list_elem_of_fmap.
    by rewrite (NoDup_map_eq wkID _ r r' (worker_ids_unique c Hok) Hr Hr' E) in Hne. }
  split; [|split; [done|]].
  - split; rewrite ?Hws; try (by apply NoDup_map_filter; apply Hok).
    + apply List.Forall_forall. intros r [Hr _]%filter_In. pose proof (worker_ids_set c Hok) as Hs. rewrite List.Forall_forall in Hs. by apply Hs.
    + intros id Hn. destruct (decide (id ∈ gone)) as [Hg|Hg]; [by apply Hl|]. destruct (proj2 (Hl id) Hg) as [-> ->]. apply (labels_owned c Hok).
      intros (r & -> & Hr)%list_elem_of_fmap. destruct (decide (wkIP r = ip)) as [E|E].
      * apply Hg, list_elem_of_fmap. exists r. split; [done|]. apply elem_of_list_filter_b. split; [done|by apply String.eqb_eq].
      * apply Hn, list_elem_of_fmap. exists r. split; [done|]. by apply renamed_in.
  - intros r Hr. rewrite Hws in Hr. apply renamed_in in Hr as [Hr Hne]. apply Hl. by apply Hgone.
Qed.
Lemma removeWorkers_spec ips : forall c, workers_ok c ->
  workers_ok (foldl removeWorker c ips) /\ (forall r, r ∈ workers (foldl removeWorker c ips) <-> r ∈ workers c /\ wkIP r ∉ ips)
  /\ forall r, r ∈ workers (foldl removeWorker c ips) -> labelsOf (foldl removeWorker c ips) (wkID r) = labelsOf c (wkID r)
       /\ tagsOf (foldl removeWorker c ips) (wkID r) = tagsOf c (wkID r).
Proof.
  induction ips as [|ip ips IH]; intros c Hok; cbn [foldl].
  { split; [done|]. split; [|done]. intros r. split; [|by intros [? _]]. intros Hr. split; [done|by intros ?%elem_of_nil]. }
  destruct (removeWorker_spec c ip Hok) as (Hok1 & Hws & Ho1). destruct (IH _ Hok1) as (Hok' & Hin & Ho). split; [done|]. split.
  - intros r. rewrite Hin, Hws, renamed_in, not_elem_of_cons. tauto.
  - intros r Hr. destruct (Ho r Hr) as [-> ->]. apply Ho1. by apply Hin in Hr as [? _].
Qed.

(** C9: a build of the workers leaves the catalog in step with workers.conf.
    The workers of the catalog are those of workers.conf and the removed ones
    are those that left it; a worker that stays keeps its identifier; each
    worker's row has its memory and its processor, which are not negative, and
    its labels, without duplicates, and its tags are exactly those of
    workers.conf; identifiers and addresses stay unique and no label or tag
    belongs to no worker. *)
Theorem BuildWorkers_spec ws c c' removed : workers_ok c -> BuildWorkers ws c = Ok (c', removed) ->
  NoDup (map wHost ws) /\ workers_ok c' /\ (forall ip, ip ∈ map wkIP (workers c') <-> ip ∈ map wHost ws)
  /\ (forall ip, ip ∈ removed <-> ip ∈ map wkIP (workers c) /\ ip ∉ map wHost ws)
  /\ (forall ip id, ip ∈ map wHost ws -> GetWorkerID c ip = Some id -> GetWorkerID c' ip = Some id)
  /\ Forall (worker_built c') ws.
Proof.
  intros Hok Hb. unfold BuildWorkers.BuildWorkers in Hb. destruct (negb _) eqn:Eu in Hb; [done|].
  apply negb_false_iff, Nat.eqb_eq, Unique_length_NoDup in Eu. apply rbind_ok in Hb as (c1 & Hf & [= <- <-]).
  destruct (buildWorkers_spec ws c c1 Hok Eu Hf) as (Hok1 & Hips & Hall & Hkeep & _).
  destruct (removeWorkers_spec (Difference (GetAllWorkers c1) (map wHost ws)) c1 Hok1) as (Hok' & Hin & Ho).
  set (c2 := foldl removeWorker c1 _) in *.
  assert (Hrem : forall ip, ip ∈ Difference (GetAllWorkers c1) (map wHost ws) <-> ip ∈ map wkIP (workers c) /\ ip ∉ map wHost ws).
  { intros ip. rewrite elem_of_Difference. unfold GetAllWorkers. rewrite (Hips ip). tauto. }
  split_and!; [done|done| |done| |].
  - intros ip. rewrite list_elem_of_fmap. split.
    + intros (r & -> & [Hr Hn]%Hin). destruct (decide (wkIP r ∈ map wHost ws)) as [?|Hx]; [done|]. exfalso. apply Hn, Hrem. split; [|done].
      assert (Hy : wkIP r ∈ map wkIP (workers c1)) by (apply list_elem_of_fmap; eauto). apply Hips in Hy as [?|?]; done.
    + intros Hip. assert (Hy : ip ∈ map wkIP (workers c1)) by (apply Hips; by right). apply list_elem_of_fmap in Hy as (r & -> & Hr).
      exists r. split; [done|]. apply Hin. split; [done|]. by intros [_ ?]%Hrem.
  - intros ip id Hip Hg. apply Hkeep, GetWorkerID_Some in Hg as (r & Hr & <- & <-). apply GetWorkerID_in; [done|]. apply Hin.
    split; [done|]. by intros [_ ?]%Hrem.
  - rewrite List.Forall_forall in *. intros w Hw. destruct (Hall w Hw) as [(row & Hrow & Hr & Hl & Ht) Hnd]. split; [|done]. exists row.
    assert (Hr2 : row ∈ workers c2).
    { apply Hin. split; [done|]. intros [_ Hx]%Hrem. apply Hx. destruct Hrow as (? & ? & _ & _ & _ & _ & ->). cbn.
      apply list_elem_of_fmap. exists w. split; [done|by apply list_elem_of_In]. }
    destruct (Ho row Hr2) as [-> ->]. by split_and!.
Qed.
End steps.
