(* ===== verification/BuildJobs.v ===== *)
(** * build: the jobs of the catalog

    build/build_jobs.go, build_ports.go's allocator of the bucket and the build
    hashes of data/hash.go: one snapshot of every job of the workspace becomes
    the rows of [jobs] and of the tables that belong to it. Rows that belong to
    a job go with it (ON DELETE CASCADE). A column of JSON is the value it
    encodes; the hooks and the certificates of a manifest are visited in the
    order of [map_to_list], as any order of Go's. A failed transaction is
    rolled back, so an error carries no tables. *)
From S2P Require Manifest.
From S2P Require Import Prelude GoStrings GoFloat Utils Kv Ports AllocState PathMatch UpdatePolicy ConfParser Schedule JobConf HealthSpec.
From S2P Require Import Catalog Placement Resources HashTree JobTree JobSign.
Open Scope Z_scope.

(** The manifest as the checks of a build read it. *)
Definition configValue (v : ConfigValue) : Versions.config_value :=
  match v with
  | CfgString s => Versions.CString s
  | CfgInt z => Versions.CInt z
  | CfgFloat text =>
      Versions.CFloat (match ParseFloat text with
                       | Some (Fin neg n) => if n mod unit_ =? 0 then Some (Int64 (Fin neg n)) else None
                       | _ => None
                       end)
  | CfgBool _ => Versions.COther
  end.
Definition checkedHook (name : string) (h : Hook) : Manifest.Hook :=
  Manifest.mkHook name (hExecutedOn h) (dJob (hDemands h)) (dHook (hDemands h)) (configValue <$> dConfig (hDemands h)).
Definition checkedManifest (m : Manifest) : Manifest.Manifest :=
  Manifest.mkManifest (mVersion m) (mSelectors m) (DeploymentPriority m)
    (MemMin (mResources m)) (MemMax (mResources m)) (CpuMin (mResources m)) (CpuMax (mResources m))
    (map (fun nh => checkedHook nh.1 nh.2) (map_to_list (mHooks m)))
    (MaxConcurrentRestarts m) (MaxConcurrentStarts m) (MaxConcurrentStops m) (MinAllocationsCount m)
    (RestartPolicy m) (RestartGlobs m) (ReloadGlobs m) (BackwardCompatibilityFrom m) (AllowRollback m).

(** ** Tables *)

Record HookRow := mkHookRow {
  hrJobID : string;
  hrJob : string;
  hrName : string;
  hrExecutedOn : string;
  hrDemandJob : string;
  hrDemandHook : string;
  hrDemandConfig : gmap string ConfigValue;
  hrDescription : string;
  hrSchedule : option Schedule;
}.
Record FileRow := mkFileRow { frJobID : string; frPath : string; frContent : string; frIsDir : bool }.
Record CertRow := mkCertRow { crJobID : string; crName : string; crPKCS8 : bool; crOne : bool; crSubject : CertSubject; crExternal : bool }.
Record BuildHash := mkBuildHash { bhPending : option string; bhApplied : option string }.
Record Tables := mkTables {
  catalog : Catalog;
  hooks : list HookRow;
  job_files : list FileRow;
  job_certs : list CertRow;
  build_hashes : gmap (string * string) BuildHash;
}.

Inductive jobs_error :=
| WorkspaceSymlink (name : string)
| JobName_ (e : name_error)
| JobFiles (job : string) (e : tree_error)
| KiveConfUnreadable
| ManifestInvalid (job : string) (e : failure)
| PortRange_ (e : Ports.range_error)
| TimezoneUnreadable
| NoJobID (e : build_error)
| Quantity (job : string) (e : unit_error)
| MinAboveMax (job resource : string)
| BadCPUShares (job : string)
| JobSettings_ (job : string)
| RequestOutOfLimits (job resource : string)
| BadRequest (e : unit_error)
| CPUSharesNotInteger (job : string)
| BadHealthCheck (job : string) (e : probe_error)
| BadRestartPolicy (job : string) (e : policy_error)
| NegativeAllocations (job : string)
| Port_ (e : port_error)
| HookPrefix (hook : string)
| HookWithoutEvent (job hook : string)
| HookEvents (job hook : string) (events : list string)
| HookSchedule (job hook : string) (e : schedule_error)
| ScheduleNeedsCLI (job hook : string)
| HookSelfReference (job hook : string)
| HookDemand (job hook : string) (e : Manifest.demand_error)
| HookFileNotFound (job hook : string)
| HookFiles (job hook : string)
| UniqueConstraint (table : string)
| ExternalCert (job name : string).

Definition setCatalog (t : Tables) (c : Catalog) : Tables := mkTables c (hooks t) (job_files t) (job_certs t) (build_hashes t).
Definition setHooks (t : Tables) (h : list HookRow) : Tables := mkTables (catalog t) h (job_files t) (job_certs t) (build_hashes t).
Definition setFiles (t : Tables) (f : list FileRow) : Tables := mkTables (catalog t) (hooks t) f (job_certs t) (build_hashes t).
Definition setCerts (t : Tables) (c : list CertRow) : Tables := mkTables (catalog t) (hooks t) (job_files t) c (build_hashes t).
Definition setBuildHashes (t : Tables) (h : gmap (string * string) BuildHash) : Tables :=
  mkTables (catalog t) (hooks t) (job_files t) (job_certs t) h.
Definition setJobs (c : Catalog) (j : list JobRow) (s : list (string * string)) (p : list PortRow) : Catalog :=
  mkCatalog (workers c) (worker_labels c) (worker_tags c) j s p.

(** DELETE FROM job_selectors, hooks, job_files, job_certs WHERE job_id IN ids. *)
Definition purgeChildren (ids : list string) (t : Tables) : Tables :=
  mkTables (setJobs (catalog t) (jobs (catalog t)) (List.filter (fun s => negb (mem s.1 ids)) (job_selectors (catalog t))) (job_ports (catalog t)))
    (List.filter (fun h => negb (mem (hrJobID h) ids)) (hooks t)) (List.filter (fun f => negb (mem (frJobID f) ids)) (job_files t))
    (List.filter (fun c => negb (mem (crJobID c) ids)) (job_certs t)) (build_hashes t).
Definition purgePorts (ids : list string) (t : Tables) : Tables :=
  setCatalog t (setJobs (catalog t) (jobs (catalog t)) (job_selectors (catalog t))
                  (List.filter (fun p => negb (mem (pJobID p) ids)) (job_ports (catalog t)))).
(** DELETE FROM jobs WHERE p, with what belongs to the rows. *)
Definition deleteJobs (p : JobRow -> bool) (t : Tables) : Tables :=
  let ids := map jbID (List.filter p (jobs (catalog t))) in
  let t := purgePorts ids (purgeChildren ids t) in
  setCatalog t (setJobs (catalog t) (List.filter (fun j => negb (p j)) (jobs (catalog t))) (job_selectors (catalog t)) (job_ports (catalog t))).
(** INSERT OR REPLACE: the rows with the same identifier or name go. *)
Definition upsertJob (r : JobRow) (t : Tables) : Tables :=
  let t := deleteJobs (fun j => String.eqb (jbID j) (jbID r) || String.eqb (jbName j) (jbName r)) t in
  setCatalog t (setJobs (catalog t) (jobs (catalog t) ++ [r]) (job_selectors (catalog t)) (job_ports (catalog t))).

(** ** Build hashes (data/hash.go) *)

Definition UpdateHash (namespace key hash : string) (t : Tables) : Tables :=
  setBuildHashes t (<[(namespace, key) := mkBuildHash (Some hash) (build_hashes t !! (namespace, key) ≫= bhApplied)]> (build_hashes t)).
Definition HashChanged (t : Tables) (namespace key : string) : bool :=
  match build_hashes t !! (namespace, key) with
  | None => true
  | Some h => negb (String.eqb (default "" (bhPending h)) (default "" (bhApplied h)))
  end.
Definition PromoteHash (namespace key : string) (t : Tables) : Tables :=
  setBuildHashes t (alter (fun h => mkBuildHash (bhPending h) (bhPending h)) (namespace, key) (build_hashes t)).
Definition RemoveHash (namespace key : string) (t : Tables) : Tables := setBuildHashes t (delete (namespace, key) (build_hashes t)).
Definition GetAppliedHash (t : Tables) (namespace key : string) : string := default "" (build_hashes t !! (namespace, key) ≫= bhApplied).

(** ** Hook scripts (hooks/runtime.go) *)

Fixpoint statNode (n : Node) (elements : list string) : option Node :=
  match elements with
  | [] => Some n
  | e :: elements =>
      match n with
      | Dir entries => c ← snd <$> head (List.filter (fun en => String.eqb en.1 e) entries); statNode c elements
      | _ => None
      end
  end.
Inductive Runtime := RuntimePython | RuntimeJS | RuntimeRuby | RuntimeBash | RuntimeBinary.
Definition scriptCandidates : list (string * Runtime) :=
  [(".py", RuntimePython); (".ts", RuntimeJS); (".js", RuntimeJS); (".rb", RuntimeRuby); (".sh", RuntimeBash); ("", RuntimeBinary)].
Definition scriptFound (hooksDir : option Node) (hookName : string) (candidate : string * Runtime) : bool :=
  match d ← hooksDir; statNode d (Split (hookName +:+ candidate.1) slash) with
  | None => false
  | Some n => match candidate.2 with RuntimeBinary => negb (is_dir n) | _ => true end
  end.
(** [hooksDir] is the directory of hooks, if there is one. The path of the
    script is its name below it. *)
Definition ResolveHookScript (jobName : string) (hooksDir : option Node) (hookName : string) : result jobs_error (Runtime * string) :=
  match List.filter (scriptFound hooksDir hookName) scriptCandidates with
  | [] => Err (HookFileNotFound jobName hookName)
  | [(suffix, runtime)] => Ok (runtime, hookName +:+ suffix)
  | _ => Err (HookFiles jobName hookName)
  end.

Record JobSignatureAudit := mkAudit { auJob : string; auSignature : Verification }.
(** What the first loop keeps of a job. *)
Record Prepared := mkPrepared { prJob : string; prSnapshot : Snapshot; prSignature : Verification; prManifest : Manifest }.

Definition hookEvents : list string :=
  ["post_build"; "liveness"; "readiness"; "cli"; "pre_deploy"; "post_deploy"; "job_control";
   "after_allocation_started"; "after_allocation_stopped"; "after_allocation_restarted"].
Definition validPolicy {A} (job : string) (r : result policy_error A) : result jobs_error A :=
  match r with Ok a => Ok a | Err e => Err (BadRestartPolicy job e) end.
Definition quantityOf (job : string) (r : result unit_error float64) : result jobs_error float64 :=
  match r with Ok v => Ok v | Err e => Err (Quantity job e) end.
Definition demanded (r : result unit_error float64) : result jobs_error float64 :=
  match r with Ok v => Ok v | Err e => Err (BadRequest e) end.
Definition orElse {A} (e : jobs_error) (o : option A) : result jobs_error A := match o with Some a => Ok a | None => Err e end.
Definition reject {E} (f : E -> jobs_error) (o : option E) : result jobs_error unit := match o with Some e => Err (f e) | None => Ok tt end.
Definition guardR (b : bool) (e : jobs_error) : result jobs_error unit := if b then Err e else Ok tt.

(** The quantities of a job: limits, request and where the request is from. *)
Record Quantities := mkQuantities {
  qMinMemory : float64; qMaxMemory : float64; qMemory : float64; qMemorySource : string;
  qMinCPU : float64; qMaxCPU : float64; qCPU : float64; qCPUSource : string;
  qCPUShares : Z; qCPUSharesSource : string;
}.

Section build.
Context `{Unicode} `{FloatText} (LoadLocation : string -> option Calendar.Location).
Context (sha256 md5 : string -> list Z).
(** [jobsign.Verify] now, and the trusted certificates: the error of reading
    kive.conf, or [None] when they cannot be loaded. *)
Variable Verify : Snapshot -> string -> result sign_error Verification.
Variable trust : result jobs_error (option string).
(** The hash of the binary, the entries of workspace/jobs, and the files of
    external certificates. *)
Variable gitHash : string.
Variable workspaceJobs : list (string * Node).
Variable readCertFile : string -> option string.
Variable jsonCerts : gmap string ManifestCert -> string.
(** The settings of a job in bucket.jobs.conf with the name of the file, the
    range of ports and the default timezone of the bucket. *)
Variable loadJobBucketConfig : string -> result jobs_error (string * gmap string string).
Variable loadPortRange : result Ports.range_error PortRange.
Variable defaultTimezone : result jobs_error string.
Variable bucketID : string.

(** ** Snapshots of the workspace *)

Fixpoint GetJobs (entries : list (string * Node)) : result jobs_error (list string) :=
  match entries with
  | [] => Ok []
  | (name, Symlink) :: _ => Err (WorkspaceSymlink name)
  | (name, Dir _) :: entries =>
      match ValidateJobName name with
      | Some e => Err (JobName_ e)
      | None => let? rest := GetJobs entries in Ok (name :: rest)
      end
  | _ :: entries => GetJobs entries
  end.
Definition jobTree (jobName : string) : Node := default (Dir []) (statNode (Dir workspaceJobs) [jobName]).
Definition treeError {A} (job : string) (r : result tree_error A) : result jobs_error A :=
  match r with Ok a => Ok a | Err e => Err (JobFiles job e) end.
Definition signatureOf (s : Snapshot) : result jobs_error Verification :=
  match Signature s with
  | None => Ok (mkVerification "unsigned" "" "")
  | Some _ =>
      let? bundle := trust in
      Ok (match bundle with
          | None => mkVerification "invalid" "" ""
          | Some bundle => match Verify s bundle with Ok v => v | Err _ => mkVerification "invalid" "" "" end
          end)
  end.
Definition prepareJob (jobName : string) : result jobs_error Prepared :=
  let? snapshot := treeError jobName (Capture jobName (jobTree jobName)) in
  let filePaths := map fPath (List.filter (fun f => negb (fIsDir f)) (Files snapshot)) in
  let? _ := reject (fun f => JobFiles jobName (ReservedPath (fPath f)))
              (head (List.filter (fun f => IsReservedJobRuntimePath jobName (fPath f)) (Files snapshot))) in
  let? signature := signatureOf snapshot in
  let? _ := reject (JobFiles jobName) (CheckTemplatePathConflicts filePaths) in
  let? _ := reject (JobFiles jobName) (ValidateRequiredJobFilePaths jobName filePaths) in
  let? manifestBytes := treeError jobName (ManifestBytes gitHash snapshot) in
  match ParseJobConf (jobName +:+ "/job.conf") manifestBytes with
  | Err e => Err (ManifestInvalid jobName e)
  | Ok manifest => Ok (mkPrepared jobName snapshot signature manifest)
  end.
Fixpoint prepareJobs (names : list string) : result jobs_error (list Prepared) :=
  match names with
  | [] => Ok []
  | name :: names => let? p := prepareJob name in let? rest := prepareJobs names in Ok (p :: rest)
  end.

Definition buildPortAllocator (t : Tables) (prepared : list Prepared) : result jobs_error portAllocator :=
  let needsPorts := existsb (fun p => negb (bool_decide (rPorts (mResources (prManifest p)) = ∅))) prepared in
  match loadPortRange with
  | Err e => Err (PortRange_ e)
  | Ok portRange =>
      let? _ := reject PortRange_ (if needsPorts : bool then Validate portRange else None) in
      Ok (newPortAllocator (GetAllPortAssignments (catalog t)) portRange)
  end.

(** ** One job *)

Definition jobIDOf (t : Tables) (jobName : string) : result jobs_error string :=
  let id := default "" (GetJobID (catalog t) jobName) in
  if String.eqb id "" then
    match MintUniquePublicID sha256 (bucketID +:+ "|" +:+ jobName)
            (fun id => match head (List.filter (fun j => String.eqb (jbID j) id) (jobs (catalog t))) with
                       | None => true
                       | Some other => String.eqb (jbName other) jobName
                       end) with
    | Ok id => Ok id
    | Err e => Err (NoJobID e)
    end
  else Ok id.

Definition quantitiesOf (jobName : string) (m : Manifest) : result jobs_error Quantities :=
  let cm := checkedManifest m in
  let? minCPU := quantityOf jobName (ParseCPUMHz (Manifest.MinCPU cm)) in
  let? maxCPU := quantityOf jobName (ParseCPUMHz (Manifest.MaxCPU cm)) in
  let? (minCPU, maxCPU) := orElse (MinAboveMax jobName "cpu") (limits minCPU maxCPU) in
  let cpuShares := CPUShares (mResources m) in
  let? _ := guardR (negb (validCPUShares cpuShares)) (BadCPUShares jobName) in
  let? minMemory := quantityOf jobName (ParseMemoryMB (Manifest.MinMemory cm)) in
  let? maxMemory := quantityOf jobName (ParseMemoryMB (Manifest.MaxMemory cm)) in
  let? (minMemory, maxMemory) := orElse (MinAboveMax jobName "memory") (limits minMemory maxMemory) in
  let? (file, jobConfig) := loadJobBucketConfig jobName in
  let source key := if bool_decide (is_Some (jobConfig !! key)) then file else "manifest"%string in
  let? memory := match jobConfig !! "memory" with Some s => let? v := demanded (ParseMemoryMB s) in Ok (Some v) | None => Ok None end in
  let? (minMemory, maxMemory, requestedMemory) := orElse (RequestOutOfLimits jobName "memory") (request minMemory maxMemory memory) in
  let? cpu := match jobConfig !! "cpu" with Some s => let? v := demanded (ParseCPUMHz s) in Ok (Some v) | None => Ok None end in
  let? (minCPU, maxCPU, requestedCPU) := orElse (RequestOutOfLimits jobName "cpu") (request minCPU maxCPU cpu) in
  let? cpuShares :=
    match jobConfig !! "cpu_shares" with
    | None => Ok cpuShares
    | Some raw =>
        let? shares := orElse (CPUSharesNotInteger jobName) (Atoi (TrimSpace raw)) in
        let? _ := guardR (negb (validCPUShares shares)) (BadCPUShares jobName) in Ok shares
    end in
  Ok (mkQuantities minMemory maxMemory requestedMemory (source "memory") minCPU maxCPU requestedCPU (source "cpu")
        cpuShares (source "cpu_shares")).

Definition healthColumn (m : Manifest) : Spec :=
  match mHealthCheck m with
  | None => None
  | Some hc => let hc := Some (HealthSpec.Normalize hc) in if HasAnyProbes hc then hc else None
  end.
Definition jobRow (jobID jobName policy : string) (m : Manifest) (q : Quantities) (v : Verification) : JobRow :=
  let cm := checkedManifest m in
  mkJobRow jobID jobName (Manifest.JobVersion cm)
    (formatResourceQuantity (qMinMemory q)) (formatResourceQuantity (qMaxMemory q)) (formatResourceQuantity (qMemory q))
    (formatResourceQuantity (qMinCPU q)) (formatResourceQuantity (qMaxCPU q)) (formatResourceQuantity (qCPU q)) (qCPUShares q)
    (mkJobColumns (DeploymentPriority m) 0 0 (qMemorySource q) (qCPUSource q) (qCPUSharesSource q)
       (Manifest.GetMaxConcurrentRestarts cm) (Manifest.GetMaxConcurrentStarts cm) (Manifest.GetMaxConcurrentStops cm)
       policy (RestartGlobs m) (ReloadGlobs m) (healthColumn m) (Status v) (Signer v) (Digest v)).

(** The checks of one hook; its schedule comes back in its normal form. *)
Definition checkHook (timezone jobName : string) (nh : string * Hook) : result jobs_error (option Schedule) :=
  let '(name, hook) := nh in
  let? _ := guardR (negb (HasPrefix name "hook_")) (HookPrefix name) in
  let? _ := guardR (length (hExecutedOn hook) =? 0)%nat (HookWithoutEvent jobName name) in
  let invalid := Difference (hExecutedOn hook) hookEvents in
  let? _ := guardR (0 <? length invalid)%nat (HookEvents jobName name invalid) in
  let? sched :=
    match hSchedule hook with
    | None => Ok None
    | Some sched =>
        match Schedule.Normalize LoadLocation (ApplyDefaultTimezone sched timezone) with
        | Err e => Err (HookSchedule jobName name e)
        | Ok sched => if mem "cli" (hExecutedOn hook) then Ok (Some sched) else Err (ScheduleNeedsCLI jobName name)
        end
    end in
  let? _ := guardR (String.eqb (dJob (hDemands hook)) jobName) (HookSelfReference jobName name) in
  let? _ := reject (HookDemand jobName name) (Manifest.ValidateHookDemand jobName (checkedHook name hook)) in
  let? _ := ResolveHookScript jobName (statNode (jobTree jobName) ["_hooks"]) name in
  Ok sched.
Definition sameHook (a b : HookRow) : bool :=
  String.eqb (hrJobID a) (hrJobID b) && String.eqb (hrName a) (hrName b) && String.eqb (hrExecutedOn a) (hrExecutedOn b).
Definition insertHook (t : Tables) (r : HookRow) : result jobs_error Tables :=
  if existsb (sameHook r) (hooks t) then Err (UniqueConstraint "hooks") else Ok (setHooks t (hooks t ++ [r])).
Definition hookRows (jobID jobName : string) (nh : string * Hook) (sched : option Schedule) : list HookRow :=
  map (fun executedOn => mkHookRow jobID jobName nh.1 executedOn (dJob (hDemands nh.2)) (dHook (hDemands nh.2)) (dConfig (hDemands nh.2))
                           (hDescription nh.2) sched) (hExecutedOn nh.2).
Definition buildHook (timezone jobID jobName : string) (t : Tables) (nh : string * Hook) : result jobs_error Tables :=
  let? sched := checkHook timezone jobName nh in foldR insertHook t (hookRows jobID jobName nh sched).

Definition insertFile (jobID : string) (t : Tables) (f : File) : result jobs_error Tables :=
  if existsb (fun r => String.eqb (frJobID r) jobID && String.eqb (frPath r) (fPath f)) (job_files t) then Err (UniqueConstraint "job_files")
  else Ok (setFiles t (job_files t ++ [mkFileRow jobID (fPath f) (fContent f) (fIsDir f)])).

Definition ExternalCertPaths (jobName certName : string) : string * string :=
  let base := path_Join [jobName; JobCertsDirName; certName] in (base +:+ ".crt", base +:+ ".key").
Definition zero_byte : string := String (byte_of 0) "".
Definition externalMaterial (jobName : string) (material name : string) : result jobs_error string :=
  let '(crt, key) := ExternalCertPaths jobName name in
  let? crtHash := orElse (ExternalCert jobName (name +:+ ".crt")) (HashBytes md5 <$> readCertFile crt) in
  let? keyHash := orElse (ExternalCert jobName (name +:+ ".key")) (HashBytes md5 <$> readCertFile key) in
  Ok (material +:+ name +:+ zero_byte +:+ crtHash +:+ zero_byte +:+ keyHash +:+ zero_byte).
Definition certsBuildHash (jobName : string) (certs : gmap string ManifestCert) : result jobs_error string :=
  let names := merge_sort String.le (List.filter (fun nc => External nc.2) (map_to_list certs)).*1 in
  let? material := foldR (externalMaterial jobName) (jsonCerts certs) names in
  Ok (HashBytes md5 material).

Definition buildJob (timezone : string) (st : Tables * portAllocator) (p : Prepared) : result jobs_error (Tables * portAllocator) :=
  let '(t, allocator) := st in
  let jobName := prJob p in
  let m := prManifest p in
  let? jobID := jobIDOf t jobName in
  let t := purgeChildren [jobID] t in
  let? q := quantitiesOf jobName m in
  let cm := checkedManifest m in
  let? _ := reject (BadHealthCheck jobName) (ValidateHealthCheck m) in
  let? _ := validPolicy jobName (ValidateRestartPolicy cm) in
  let? _ := validPolicy jobName (ValidateRestartGlobs cm) in
  let? _ := guardR (MinAllocationsCount m <? 0) (NegativeAllocations jobName) in
  let? policy := validPolicy jobName (NormalizeRestartPolicy (RestartPolicy m)) in
  let t := upsertJob (jobRow jobID jobName policy m q (prSignature p)) t in
  let c := catalog t in
  let t := setCatalog t (setJobs c (jobs c) (job_selectors c ++ map (pair jobID) (Manifest.PlacementSelectors jobName cm)) (job_ports c)) in
  match syncPorts (job_ports (catalog t)) jobID jobName (rPorts (mResources m)) allocator with
  | Err e => Err (Port_ e)
  | Ok (allocator, ports) =>
      let t := setCatalog t (setJobs (catalog t) (jobs (catalog t)) (job_selectors (catalog t)) ports) in
      let? t := foldR (buildHook timezone jobID jobName) t (map_to_list (mHooks m)) in
      let? t := foldR (insertFile jobID) t (Files (prSnapshot p)) in
      let? pendingHash := certsBuildHash jobName (mCerts m) in
      let t := UpdateHash "build_certs" jobName pendingHash t in
      let t := setCerts t (job_certs t ++ map (fun nc => mkCertRow jobID nc.1 (PKCS8 nc.2) (One nc.2) (Subject nc.2) (External nc.2))
                                            (map_to_list (mCerts m))) in
      Ok (t, allocator)
  end.

(** ** All jobs *)

(** The children are looked up by the hash of the name. *)
Definition removeJob (t : Tables) (jobName : string) : Tables :=
  let jobID := PublicIDFromString sha256 jobName in
  let t := purgeChildren [jobID] (purgePorts [jobID] t) in
  RemoveHash "build_certs" jobName (deleteJobs (fun j => String.eqb (jbName j) jobName) t).
(** The tables, the removed jobs and the audits. *)
Definition BuildJobsWithOptions (t : Tables) : result jobs_error (Tables * list string * list JobSignatureAudit) :=
  let? names := GetJobs workspaceJobs in
  let workspaceJobNames := Manifest.sortedJobNames names in
  let? prepared := prepareJobs workspaceJobNames in
  let? portAllocator := buildPortAllocator t prepared in
  let? timezone := defaultTimezone in
  let? (t, _) := foldR (buildJob timezone) (t, portAllocator) prepared in
  let jobsToRemove := Difference (Catalog.GetJobs (catalog t)) workspaceJobNames in
  Ok (foldl removeJob t jobsToRemove, jobsToRemove, map (fun p => mkAudit (prJob p) (prSignature p)) prepared).
End build.
