(* ===== verification/BuildJobsFacts.v ===== *)
(** * build: what a build leaves in the tables of jobs

    The rows of a job are its row in [jobs] and the rows that belong to its
    identifier ([owned]); every step of the build changes those of one job. *)
From S2P Require Manifest.
From S2P Require ConfEmit.
From S2P Require Import Prelude GoStrings GoFloat ConfRoundtrip Utils Kv Ports AllocState PathMatch UpdatePolicy ConfParser Schedule JobConf JobConfFacts HealthSpec WorkersConf Catalog Placement PlacementFacts Resources HashTree JobTree JobSign Rows BuildWorkers BuildJobs.
Open Scope Z_scope.

(** ** What belongs to an identifier *)

Record Owned := mkOwned {
  oSelectors : list string;
  oPorts : list PortRow;
  oHooks : list HookRow;
  oFiles : list FileRow;
  oCerts : list CertRow;
}.
Definition nothing : Owned := mkOwned [] [] [] [] [].
Definition owned (t : Tables) (id : string) : Owned :=
  mkOwned (of_id fst id (job_selectors (catalog t))).*2 (of_id pJobID id (job_ports (catalog t)))
    (of_id hrJobID id (hooks t)) (of_id frJobID id (job_files t)) (of_id crJobID id (job_certs t)).
Lemma owned_selectors t id : selectorsOf (catalog t) id = oSelectors (owned t id).
Proof.
  unfold selectorsOf, owned, of_id. cbn [oSelectors]. f_equal. apply filter_ext. intros r. unfold String.eqb.
  case_bool_decide as E; symmetry; [by apply String.eqb_eq|by apply String.eqb_neq].
Qed.

Lemma owned_purgeChildren ids t id : owned (purgeChildren ids t) id
  = if mem id ids then mkOwned [] (oPorts (owned t id)) [] [] [] else owned t id.
Proof.
  unfold owned, purgeChildren. cbn [catalog setJobs hooks BuildJobs.job_files BuildJobs.job_certs job_selectors job_ports oPorts].
  rewrite !of_id_purge. by destruct (mem id ids).
Qed.
Lemma owned_purgePorts ids t id : owned (purgePorts ids t) id
  = if mem id ids then mkOwned (oSelectors (owned t id)) [] (oHooks (owned t id)) (oFiles (owned t id)) (oCerts (owned t id)) else owned t id.
Proof.
  unfold owned, purgePorts, setCatalog. cbn [catalog setJobs hooks BuildJobs.job_files BuildJobs.job_certs job_selectors job_ports oSelectors oHooks oFiles oCerts].
  rewrite !of_id_purge. by destruct (mem id ids).
Qed.
Lemma owned_setJobs t js id :
  owned (setCatalog t (setJobs (catalog t) js (job_selectors (catalog t)) (job_ports (catalog t)))) id = owned t id.
Proof. reflexivity. Qed.
Lemma owned_deleteJobs p t id : owned (deleteJobs p t) id
  = if mem id (map jbID (List.filter p (jobs (catalog t)))) then nothing else owned t id.
Proof.
  unfold deleteJobs. rewrite owned_setJobs, owned_purgePorts, owned_purgeChildren. by destruct (mem id _).
Qed.

(** ** Tables in order *)

Record tables_ok (t : Tables) : Prop := {
  job_ids_unique : NoDup (map jbID (jobs (catalog t)));
  job_names_unique : NoDup (map jbName (jobs (catalog t)));
  job_ids_set : Forall (fun j => jbID j <> "") (jobs (catalog t));
  children_owned : forall id, id ∉ map jbID (jobs (catalog t)) -> owned t id = nothing;
  port_keys_unique : NoDup (map (fun r => (pJobID r, Ports.pName r)) (job_ports (catalog t)));
  port_numbers_unique : NoDup (map Ports.pPort (job_ports (catalog t)));
}.

Lemma jobOf_in c j : NoDup (map jbName (jobs c)) -> j ∈ jobs c -> jobOf c (jbName j) = Some j.
Proof. intros. by apply head_filter_unique. Qed.
Lemma jobOf_Some c n j : jobOf c n = Some j -> j ∈ jobs c /\ jbName j = n.
Proof.
  unfold jobOf. destruct (List.filter _ _) as [|x l] eqn:E; [done|]. intros [= <-].
  assert (H : x ∈ List.filter (fun j => bool_decide (jbName j = n)) (jobs c)) by (rewrite E; left).
  by apply elem_of_list_filter_b in H as [? ?%bool_decide_eq_true].
Qed.
Lemma jobOf_None c n : jobOf c n = None <-> n ∉ map jbName (jobs c).
Proof.
  unfold jobOf. destruct (List.filter _ _) as [|x l] eqn:E; cbn [head].
  - split; [|done]. intros _ (j & -> & Hj)%list_elem_of_fmap.
    assert (H : j ∈ List.filter (fun j' => bool_decide (jbName j' = jbName j)) (jobs c)) by (apply elem_of_list_filter_b; by rewrite bool_decide_eq_true_2).
    rewrite E in H. by apply elem_of_nil in H.
  - split; [done|]. intros H. exfalso. apply H. assert (Hx : x ∈ List.filter (fun j => bool_decide (jbName j = n)) (jobs c)) by (rewrite E; left).
    apply elem_of_list_filter_b in Hx as [Hx Hn%bool_decide_eq_true]. rewrite <- Hn. apply list_elem_of_fmap. eauto.
Qed.

(** ** Names of identifiers, for the allocator of ports *)

Lemma length_Repeat1 n : String.length (Repeat "/" n) = n.
Proof. induction n; cbn; congruence. Qed.
(** An identifier that no job has gets a name that is too long for a job. *)
Definition unknown (js : list JobRow) (id : string) : string :=
  Repeat "/" (S (list_max (map (fun j => String.length (jbName j)) js))) +:+ id.
Definition idName (js : list JobRow) (id : string) : string :=
  match head (List.filter (fun j => bool_decide (jbID j = id)) js) with Some j => jbName j | None => unknown js id end.
Lemma idName_in js j : NoDup (map jbID js) -> j ∈ js -> idName js (jbID j) = jbName j.
Proof. intros Hnd Hj. unfold idName. by rewrite (head_filter_unique jbID js j Hnd Hj). Qed.
Lemma idName_cases js id : (exists j, j ∈ js /\ jbID j = id /\ idName js id = jbName j) \/ (id ∉ map jbID js /\ idName js id = unknown js id).
Proof.
  unfold idName. destruct (List.filter _ js) as [|j l] eqn:E; cbn [head].
  - right. split; [|done]. intros (j & -> & Hj)%list_elem_of_fmap.
    assert (H : j ∈ List.filter (fun x => bool_decide (jbID x = jbID j)) js) by (apply elem_of_list_filter_b; by rewrite bool_decide_eq_true_2).
    rewrite E in H. by apply elem_of_nil in H.
  - left. exists j. assert (H : j ∈ List.filter (fun x => bool_decide (jbID x = id)) js) by (rewrite E; left).
    apply elem_of_list_filter_b in H as [? ?%bool_decide_eq_true]. done.
Qed.
Lemma name_short js j : j ∈ js -> (String.length (jbName j) <= list_max (map (fun j => String.length (jbName j)) js))%nat.
Proof.
  intros Hj. pose proof (proj1 (list_max_le (map (fun j => String.length (jbName j)) js) _) (le_n _)) as Hall.
  rewrite List.Forall_forall in Hall. apply Hall. apply in_map_iff. exists j. split; [done|]. by apply list_elem_of_In.
Qed.
Lemma idName_inj js : NoDup (map jbID js) -> NoDup (map jbName js) -> forall i k, idName js i = idName js k -> i = k.
Proof.
  intros Hid Hnm i k E.
  destruct (idName_cases js i) as [(j & Hj & <- & Ei)|[_ Ei]]; destruct (idName_cases js k) as [(j' & Hj' & <- & Ek)|[_ Ek]]; rewrite Ei, Ek in E.
  - f_equal. by apply (NoDup_map_eq jbName js).
  - exfalso. pose proof (name_short js j Hj) as Hs. rewrite E in Hs. unfold unknown in Hs. rewrite slen_app, length_Repeat1 in Hs. lia.
  - exfalso. pose proof (name_short js j' Hj') as Hs. rewrite <- E in Hs. unfold unknown in Hs. rewrite slen_app, length_Repeat1 in Hs. lia.
  - by apply sapp_cancel_l in E.
Qed.
Lemma rows_ok_ext f g a table : (forall r, r ∈ table -> f (pJobID r) = g (pJobID r)) -> rows_ok f a table -> rows_ok g a table.
Proof.
  intros Hfg [Hk Hv]. assert (E : forall r, r ∈ table -> row_key g r = row_key f r) by (intros r Hr; unfold row_key; by rewrite Hfg).
  split.
  - replace (map (row_key g) table) with (map (row_key f) table); [done|]. apply map_ext_in. intros r Hr. symmetry. by apply E, list_elem_of_In.
  - intros r Hr. rewrite E by done. by apply Hv.
Qed.
Lemma rows_ok_filter f a p table : rows_ok f a table -> rows_ok f a (List.filter p table).
Proof.
  intros [Hk Hv]. split; [by apply NoDup_map_filter|]. intros r [Hr _]%elem_of_list_filter_b. by apply Hv.
Qed.

(** ** Quantities *)

(** [v] is not outside of the limits: neither above the maximum nor below the
    minimum, as the comparisons of float64 have it. *)
Definition within (min v max : float64) : Prop := flt max min = false /\ flt max v = false /\ flt v min = false.
Lemma flt_irrefl x : flt x x = false.
Proof. destruct x as [|n|n z]; [done|by destruct n|]. cbn. apply Z.ltb_irrefl. Qed.
Lemma limits_ok min max min' max' : limits min max = Some (min', max') -> flt max' min' = false.
Proof. unfold limits. destruct (flt _ _) eqn:E; [done|]. by intros [= <- <-]. Qed.
Lemma request_within min max asked min' max' v : flt max min = false -> request min max asked = Some (min', max', v) -> within min' v max'.
Proof.
  intros Hm. unfold request. destruct asked as [a|]; [|intros [= <- <- <-]; split_and!; auto using flt_irrefl].
  destruct (is_zero min && is_zero max) eqn:Ez.
  - rewrite flt_irrefl. intros [= <- <- <-]. split_and!; auto using flt_irrefl.
  - destruct (flt max a) eqn:E1; [done|]. destruct (flt a min) eqn:E2; [done|]. by intros [= <- <- <-].
Qed.
(** a job is built only with quantities that agree: its memory and its
    processor are between the limits that are stored with them, whether they
    are from the manifest or from bucket.jobs.conf, and its processor shares
    are unset or a number that the kernel accepts. *)
Theorem quantitiesOf_within bucketConfig jobName m q : quantitiesOf bucketConfig jobName m = Ok q ->
  within (qMinMemory q) (qMemory q) (qMaxMemory q) /\ within (qMinCPU q) (qCPU q) (qMaxCPU q)
  /\ (qCPUShares q = 0 \/ 2 <= qCPUShares q <= 262144).
Proof.
  unfold quantitiesOf, orElse, guardR. cbv zeta. intros Hq.
  apply rbind_ok in Hq as (c1 & _ & Hq). apply rbind_ok in Hq as (c2 & _ & Hq).
  apply rbind_ok in Hq as ([minCPU maxCPU] & Hc & Hq). destruct (limits c1 c2) as [[]|] eqn:El; [|done]. injection Hc as -> ->. apply limits_ok in El.
  apply rbind_ok in Hq as ([] & Hs & Hq). destruct (negb (validCPUShares _)) eqn:Ev; [done|]. clear Hs.
  apply rbind_ok in Hq as (m1 & _ & Hq). apply rbind_ok in Hq as (m2 & _ & Hq).
  apply rbind_ok in Hq as ([minMem maxMem] & Hc & Hq). destruct (limits m1 m2) as [[]|] eqn:Em; [|done]. injection Hc as -> ->. apply limits_ok in Em.
  apply rbind_ok in Hq as ([file conf] & _ & Hq). apply rbind_ok in Hq as (memory & _ & Hq).
  apply rbind_ok in Hq as ([[a b] v] & Hr & Hq). destruct (request minMem maxMem memory) as [[[]]|] eqn:Er; [|done]. injection Hr as -> -> ->.
  apply rbind_ok in Hq as (cpu & _ & Hq).
  apply rbind_ok in Hq as ([[a' b'] v'] & Hr & Hq). destruct (request minCPU maxCPU cpu) as [[[]]|] eqn:Er'; [|done]. injection Hr as -> -> ->.
  apply rbind_ok in Hq as (shares & Hs & [= <-]). cbn [qMinMemory qMemory qMaxMemory qMinCPU qCPU qMaxCPU qCPUShares].
  split; [by apply (request_within _ _ _ _ _ _ Em Er)|]. split; [by apply (request_within _ _ _ _ _ _ El Er')|].
  assert (Hv : validCPUShares shares = true).
  { destruct (conf !! "cpu_shares") as [raw|]; [|injection Hs as <-; by apply negb_false_iff].
    destruct (Atoi (TrimSpace raw)) as [z|]; [|done]. cbn [rbind] in Hs. destruct (negb (validCPUShares z)) eqn:Ez; [done|]. injection Hs as <-.
    by apply negb_false_iff. }
  unfold validCPUShares in Hv. lia.
Qed.

(** ** The steps of one job *)

Lemma syncLoop_rows jobID jobName ports names : forall a table a' table',
  syncLoop jobID jobName ports names a table = Ok (a', table') ->
  exists rows, table' = table ++ rows /\ Forall (fun r => pJobID r = jobID) rows /\ map Ports.pName rows = names.
Proof.
  induction names as [|n names IH]; intros a table a' table'; cbn [syncLoop].
  - intros [= <- <-]. exists []. by rewrite app_nil_r.
  - intros ([a1 port] & _ & H)%rbind_ok. apply IH in H as (rows & -> & Hr & Hn). rewrite <- app_assoc.
    eexists (_ :: rows). split; [done|]. split; [by constructor|]. cbn [map Ports.pName]. by rewrite Hn.
Qed.
Lemma syncPorts_rows table jobID jobName ports a a' table' : syncPorts table jobID jobName ports a = Ok (a', table') ->
  exists rows, table' = List.filter (fun r => negb (bool_decide (pJobID r = jobID))) table ++ rows
    /\ Forall (fun r => pJobID r = jobID) rows /\ map Ports.pName rows = Names ports.
Proof. apply syncLoop_rows. Qed.

Section steps.
Context `{Unicode} `{FloatText} (LoadLocation : string -> option Calendar.Location) (sha256 md5 : string -> list Z).
Context (Verify : Snapshot -> string -> result sign_error Verification) (trust : result jobs_error (option string)).
Context (gitHash : string) (workspaceJobs : list (string * Node)) (readCertFile : string -> option string).
Context (jsonCerts : gmap string ManifestCert -> string) (loadJobBucketConfig : string -> result jobs_error (string * gmap string string)).
Context (loadPortRange : result Ports.range_error PortRange) (defaultTimezone : result jobs_error string) (bucketID : string).
Notation checkHook := (checkHook LoadLocation workspaceJobs).
Notation buildHook := (buildHook LoadLocation workspaceJobs).
Notation jobIDOf := (jobIDOf sha256 bucketID).
Notation buildJob := (buildJob LoadLocation sha256 md5 workspaceJobs readCertFile jsonCerts loadJobBucketConfig bucketID).

Lemma insertHooks_spec rows : forall t t', foldR insertHook t rows = Ok t' -> t' = setHooks t (hooks t ++ rows).
Proof.
  induction rows as [|r rows IH]; intros t t'; cbn [foldR].
  - intros [= <-]. destruct t. cbn. by rewrite app_nil_r.
  - intros (t1 & H1 & H2)%rbind_ok. unfold insertHook in H1. destruct (existsb _ _); [done|]. injection H1 as <-.
    apply IH in H2 as ->. destruct t. cbn. by rewrite <- app_assoc.
Qed.
(** The rows of the hooks of a manifest, with their schedules. *)
Definition allHookRows (jobID jobName : string) (hs : list (string * Hook)) (scheds : list (option Schedule)) : list HookRow :=
  concat (zip_with (hookRows jobID jobName) hs scheds).
Lemma buildHooks_spec tz jobID jobName hs : forall t t', foldR (buildHook tz jobID jobName) t hs = Ok t' ->
  exists scheds, Forall2 (fun nh s => checkHook tz jobName nh = Ok s) hs scheds /\ t' = setHooks t (hooks t ++ allHookRows jobID jobName hs scheds).
Proof.
  induction hs as [|h hs IH]; intros t t'; cbn [foldR].
  - intros [= <-]. exists []. split; [constructor|]. destruct t. cbn. by rewrite app_nil_r.
  - intros (t1 & H1 & H2)%rbind_ok. unfold BuildJobs.buildHook in H1. apply rbind_ok in H1 as (sched & Hc & Hi).
    apply insertHooks_spec in Hi as ->. apply IH in H2 as (scheds & Hs & ->). exists (sched :: scheds). split; [by constructor|].
    destruct t. cbn. by rewrite <- app_assoc.
Qed.
Lemma insertFiles_spec jobID fs : forall t t', foldR (insertFile jobID) t fs = Ok t' ->
  t' = setFiles t (job_files t ++ map (fun f => mkFileRow jobID (fPath f) (fContent f) (fIsDir f)) fs).
Proof.
  induction fs as [|f fs IH]; intros t t'; cbn [foldR].
  - intros [= <-]. destruct t. cbn. by rewrite app_nil_r.
  - intros (t1 & H1 & H2)%rbind_ok. unfold insertFile in H1. destruct (existsb _ _); [done|]. injection H1 as <-.
    apply IH in H2 as ->. destruct t. cbn. by rewrite <- app_assoc.
Qed.

Lemma jobIDOf_spec t name id : tables_ok t -> jobIDOf t name = Ok id ->
  id <> "" /\ (forall j, j ∈ jobs (catalog t) -> jbID j = id <-> jbName j = name)
  /\ (forall old, GetJobID (catalog t) name = Some old -> id = old).
Proof.
  intros Hok. unfold BuildJobs.jobIDOf, GetJobID. destruct (jobOf (catalog t) name) as [j|] eqn:Ej; cbn [fmap option_fmap option_map default].
  - apply jobOf_Some in Ej as [Hj <-]. assert (Hne : jbID j <> "").
    { pose proof (job_ids_set t Hok) as Hs. rewrite List.Forall_forall in Hs. by apply Hs, list_elem_of_In. }
    unfold Datatypes.id. destruct (String.eqb (jbID j) "") eqn:E; [by apply String.eqb_eq in E|]. intros [= <-]. split; [done|]. split; [|congruence].
    intros j' Hj'. split; intros E'.
    + by rewrite (NoDup_map_eq jbID _ j' j (job_ids_unique t Hok) Hj' Hj E').
    + by rewrite (NoDup_map_eq jbName _ j' j (job_names_unique t Hok) Hj' Hj E').
  - cbn. apply jobOf_None in Ej. destruct (MintUniquePublicID _ _ _) as [i|] eqn:Em; [|done]. intros [= <-].
    apply MintUniquePublicID_ok in Em as [Hpub Hacc].
    assert (Hno : forall j', j' ∈ jobs (catalog t) -> jbName j' <> name).
    { intros j' Hj' <-. apply Ej, list_elem_of_fmap. eauto. }
    split; [by intros ->|]. split; [|done]. intros j' Hj'. split; intros E'; [|by apply Hno in E'].
    exfalso. destruct (List.filter _ _) as [|x l] eqn:Ef; cbn [head] in Hacc.
    + assert (Hin : j' ∈ List.filter (fun j => String.eqb (jbID j) i) (jobs (catalog t))) by (apply elem_of_list_filter_b; split; [done|by apply String.eqb_eq]).
      rewrite Ef in Hin. by apply elem_of_nil in Hin.
    + assert (Hin : x ∈ List.filter (fun j => String.eqb (jbID j) i) (jobs (catalog t))) by (rewrite Ef; left).
      apply elem_of_list_filter_b in Hin as [Hx _]. apply String.eqb_eq in Hacc. by apply (Hno x Hx).
Qed.

(** What a manifest asks for, with the schedules of its hooks as they are
    stored. *)
Definition selectorRows (p : Prepared) : list string := Manifest.PlacementSelectors (prJob p) (checkedManifest (prManifest p)).
Definition hookTable (id : string) (p : Prepared) (scheds : list (option Schedule)) : list HookRow :=
  allHookRows id (prJob p) (map_to_list (mHooks (prManifest p))) scheds.
Definition fileTable (id : string) (p : Prepared) : list FileRow :=
  map (fun f => mkFileRow id (fPath f) (fContent f) (fIsDir f)) (Files (prSnapshot p)).
Definition certTable (id : string) (p : Prepared) : list CertRow :=
  map (fun nc => mkCertRow id nc.1 (PKCS8 nc.2) (One nc.2) (Subject nc.2) (External nc.2)) (map_to_list (mCerts (prManifest p))).
Definition upserted (row : JobRow) (t : Tables) : Tables := upsertJob row (purgeChildren [jbID row] t).
Definition quantities (p : Prepared) : result jobs_error Quantities := quantitiesOf loadJobBucketConfig (prJob p) (prManifest p).

Lemma buildJob_steps tz t a p t' a' : buildJob tz (t, a) p = Ok (t', a') ->
  exists id policy q scheds ports hash,
    jobIDOf t (prJob p) = Ok id /\ quantities p = Ok q /\ NormalizeRestartPolicy (RestartPolicy (prManifest p)) = Ok policy
    /\ Forall2 (fun nh s => checkHook tz (prJob p) nh = Ok s) (map_to_list (mHooks (prManifest p))) scheds
    /\ let row := jobRow id (prJob p) policy (prManifest p) q (prSignature p) in
       let t1 := upserted row t in
       syncPorts (job_ports (catalog t1)) id (prJob p) (rPorts (mResources (prManifest p))) a = Ok (a', ports)
       /\ t' = mkTables (setJobs (catalog t1) (jobs (catalog t1)) (job_selectors (catalog t1) ++ map (pair id) (selectorRows p)) ports)
                 (hooks t1 ++ hookTable id p scheds) (job_files t1 ++ fileTable id p) (job_certs t1 ++ certTable id p)
                 (build_hashes (UpdateHash "build_certs" (prJob p) hash t1)).
Proof.
  unfold BuildJobs.buildJob. intros (id & Hid & Hb)%rbind_ok. apply rbind_ok in Hb as (q & Hq & Hb).
  apply rbind_ok in Hb as ([] & _ & Hb). apply rbind_ok in Hb as (rp & _ & Hb). apply rbind_ok in Hb as (rg & _ & Hb).
  apply rbind_ok in Hb as ([] & _ & Hb). apply rbind_ok in Hb as (policy & Hp & Hb).
  destruct (NormalizeRestartPolicy _) as [pol|] eqn:Hn in Hp; [|done]. injection Hp as ->.
  destruct (syncPorts _ _ _ _ _) as [[a1 ports]|] eqn:Hs; [|done].
  apply rbind_ok in Hb as (t2 & Hh & Hb). apply buildHooks_spec in Hh as (scheds & Hsch & ->).
  apply rbind_ok in Hb as (t3 & Hf & Hb). apply insertFiles_spec in Hf as ->.
  apply rbind_ok in Hb as (hash & _ & Hb). injection Hb as <- <-.
  exists id, policy, q, scheds, ports, hash. do 4 (split; [done|]). cbv zeta. split; [exact Hs|reflexivity].
Qed.

Lemma upserted_jobs row t : agrees jbID jbName row (jobs (catalog t)) ->
  jobs (catalog (upserted row t)) = List.filter (renamed jbName (jbName row)) (jobs (catalog t)) ++ [row].
Proof. intros Hid. rewrite <- (replaced_rows jbID jbName row _ Hid). reflexivity. Qed.
Lemma upserted_owned row t id : tables_ok t -> agrees jbID jbName row (jobs (catalog t)) ->
  owned (upserted row t) id = if String.eqb id (jbID row) then nothing else owned t id.
Proof.
  intros Hok Hid. pose proof (replaced_ids jbID jbName row _ Hid) as Hd. unfold upserted, upsertJob. cbv zeta.
  match goal with |- owned (setCatalog ?d _) _ = _ => change (owned d id = if String.eqb id (jbID row) then nothing else owned t id) end.
  rewrite owned_deleteJobs, owned_purgeChildren. change (jobs (catalog (purgeChildren [jbID row] t))) with (jobs (catalog t)).
  destruct (String.eqb id (jbID row)) eqn:E.
  - apply String.eqb_eq in E as ->. rewrite (proj2 (mem_true (jbID row) [jbID row])) by left.
    destruct (mem (jbID row) _) eqn:Em; [done|]. assert (Hno : jbID row ∉ map jbID (jobs (catalog t))).
    { intros Hin. enough (Ht : mem (jbID row) (map jbID (List.filter (fun j => String.eqb (jbID j) (jbID row) || String.eqb (jbName j) (jbName row)) (jobs (catalog t)))) = true)
        by congruence. by apply Hd. }
    rewrite (children_owned t Hok _ Hno). done.
  - apply String.eqb_neq in E. destruct (mem id (map _ _)) eqn:Em; [by apply Hd in Em as [? _]|].
    destruct (mem id [jbID row]) eqn:Em'; [|done]. apply mem_true, list_elem_of_singleton in Em'. done.
Qed.
Lemma upserted_ports row t : tables_ok t -> agrees jbID jbName row (jobs (catalog t)) ->
  (exists p, job_ports (catalog (upserted row t)) = List.filter p (job_ports (catalog t)))
  /\ forall r, r ∈ job_ports (catalog (upserted row t)) -> pJobID r <> jbID row.
Proof.
  intros Hok Hid. split; [by eexists|]. intros r Hr E. pose proof (upserted_owned row t (jbID row) Hok Hid) as Ho.
  rewrite String.eqb_refl in Ho. apply (f_equal oPorts) in Ho. unfold owned in Ho. cbn [oPorts nothing] in Ho.
  assert (Hin : r ∈ of_id pJobID (jbID row) (job_ports (catalog (upserted row t)))).
  { apply elem_of_list_filter_b. split; [done|by apply String.eqb_eq]. }
  rewrite Ho in Hin. by apply elem_of_nil in Hin.
Qed.

(** The allocator and the table of ports are in step. *)
Definition ports_state (t : Tables) (a : portAllocator) : Prop :=
  ports_inv a /\ rows_ok (idName (jobs (catalog t))) a (job_ports (catalog t)).
(** Job [p] is in the tables under [id] as its manifest and its files say. *)
Record built (tz : string) (range : PortRange) (t : Tables) (p : Prepared) (id : string) : Prop := {
  built_row : exists q policy, quantities p = Ok q /\ NormalizeRestartPolicy (RestartPolicy (prManifest p)) = Ok policy
    /\ jobRow id (prJob p) policy (prManifest p) q (prSignature p) ∈ jobs (catalog t);
  built_selectors : oSelectors (owned t id) = selectorRows p;
  built_ports : map Ports.pName (oPorts (owned t id)) = Names (rPorts (mResources (prManifest p)));
  built_numbers : forall r b, r ∈ oPorts (owned t id) -> rPorts (mResources (prManifest p)) !! Ports.pName r = Some b ->
    match Fixed b with Some n => Ports.pPort r = n | None => RangeContains range (Ports.pPort r) = true end;
  built_hooks : exists scheds, Forall2 (fun nh s => checkHook tz (prJob p) nh = Ok s) (map_to_list (mHooks (prManifest p))) scheds
    /\ oHooks (owned t id) = hookTable id p scheds;
  built_files : oFiles (owned t id) = fileTable id p;
  built_certs : oCerts (owned t id) = certTable id p;
}.
Lemma built_transfer tz range t t' p id : built tz range t p id -> owned t' id = owned t id ->
  (forall r, r ∈ jobs (catalog t) -> jbName r = prJob p -> r ∈ jobs (catalog t')) -> built tz range t' p id.
Proof.
  intros [(q & policy & Hq & Hp & Hrow) H1 H2 H3 H4 H5 H6] Ho Hj. split; rewrite ?Ho; try done.
  exists q, policy. do 2 (split; [done|]). by apply Hj.
Qed.

Lemma idName_step row js id : NoDup (map jbID js) -> NoDup (map jbName js) -> agrees jbID jbName row js -> id <> jbID row -> id ∈ map jbID js ->
  idName (List.filter (renamed jbName (jbName row)) js ++ [row]) id = idName js id.
Proof.
  intros Hi Hn Ha Hne (j & -> & Hj)%list_elem_of_fmap. destruct (replaced_unique jbID jbName row js Hi Hn Ha) as [Hi' _].
  rewrite !idName_in; try done. apply replaced_in. left. split; [done|]. intros E. by apply Hne, Ha.
Qed.

Lemma NoDup_row_keys js a table : NoDup (map jbID js) -> NoDup (map jbName js) -> rows_ok (idName js) a table ->
  NoDup (map (fun r => (pJobID r, Ports.pName r)) table).
Proof.
  intros Hi Hn [Hk _]. unfold row_key in Hk. revert Hk. induction table as [|r table IH]; cbn [map]; [constructor|].
  intros [Hr Hk]%NoDup_cons. constructor; [|by apply IH]. intros (r' & E & Hr')%list_elem_of_fmap.
  apply Hr, list_elem_of_fmap. exists r'. split; [|done]. by injection E as -> ->.
Qed.
Lemma owned_tables c hs fs cs bh id : owned (mkTables c hs fs cs bh) id
  = mkOwned (of_id fst id (job_selectors c)).*2 (of_id pJobID id (job_ports c)) (of_id hrJobID id hs) (of_id frJobID id fs) (of_id crJobID id cs).
Proof. reflexivity. Qed.
Lemma hookTable_id id p scheds : Forall (fun r => hrJobID r = id) (hookTable id p scheds).
Proof.
  unfold hookTable, allHookRows. generalize (map_to_list (mHooks (prManifest p))) as hs. intros hs. revert scheds.
  induction hs as [|h hs IH]; intros scheds; [constructor|]. destruct scheds as [|s scheds]; [constructor|]. cbn [zip_with concat].
  apply Forall_app. split; [|apply IH]. apply List.Forall_forall. by intros r (e & <- & _)%in_map_iff.
Qed.
Lemma fileTable_id id p : Forall (fun r => frJobID r = id) (fileTable id p).
Proof. apply List.Forall_forall. by intros r (e & <- & _)%in_map_iff. Qed.
Lemma certTable_id id p : Forall (fun r => crJobID r = id) (certTable id p).
Proof. apply List.Forall_forall. by intros r (e & <- & _)%in_map_iff. Qed.
(** What [owned] is after the rows of one job are written. *)
Lemma owned_written t1 id sels rest rows hs fs cs bh id' :
  owned t1 id = nothing -> List.filter (fun r => negb (bool_decide (pJobID r = id))) (job_ports (catalog t1)) = rest ->
  Forall (fun r => pJobID r = id) rows -> Forall (fun r => hrJobID r = id) hs -> Forall (fun r => frJobID r = id) fs ->
  Forall (fun r => crJobID r = id) cs ->
  owned (mkTables (setJobs (catalog t1) (jobs (catalog t1)) (job_selectors (catalog t1) ++ map (pair id) sels) (rest ++ rows))
           (hooks t1 ++ hs) (job_files t1 ++ fs) (job_certs t1 ++ cs) bh) id'
  = if String.eqb id' id then mkOwned sels rows hs fs cs else owned t1 id'.
Proof.
  intros Hno <- Hr Hh Hf Hc. rewrite owned_tables. cbn [setJobs job_selectors job_ports].
  rewrite !(of_id_snoc _ id) by (done || apply pair_id). unfold owned, nothing in Hno. injection Hno as H1 H2 H3 H4 H5.
  assert (Hkeep : forall r, r ∈ job_ports (catalog t1) -> pJobID r <> id).
  { intros r Hin E. assert (Hx : r ∈ of_id pJobID id (job_ports (catalog t1))) by (apply elem_of_list_filter_b; split; [done|by apply String.eqb_eq]).
    rewrite H2 in Hx. by apply elem_of_nil in Hx. }
  rewrite (forallb_filter_id (fun r => negb (bool_decide (pJobID r = id)))).
  2:{ apply forallb_forall. intros r Hin%list_elem_of_In. apply negb_true_iff, bool_decide_eq_false. by apply Hkeep. }
  destruct (String.eqb id' id) eqn:E.
  - apply String.eqb_eq in E as ->. rewrite H2, H3, H4, H5, fmap_app, H1, snd_pairs. done.
  - rewrite !app_nil_r. done.
Qed.

(** The rows of one job after [syncPorts]: the names of its manifest, each with
    its number. *)
Lemma job_ports_numbers range ports (rows : list PortRow) rest id :
  map Ports.pName rows = Names ports -> (forall r, r ∈ rest -> pJobID r <> id) ->
  (forall n b, ports !! n = Some b -> exists r, r ∈ rest ++ rows /\ pJobID r = id /\ Ports.pName r = n /\
     match Fixed b with Some q => Ports.pPort r = q | None => RangeContains range (Ports.pPort r) = true end) ->
  forall r b, r ∈ rows -> ports !! Ports.pName r = Some b ->
    match Fixed b with Some q => Ports.pPort r = q | None => RangeContains range (Ports.pPort r) = true end.
Proof.
  intros Hn Hrest Hall r b Hr Hb. destruct (Hall _ _ Hb) as (r' & Hin & Hid & E & Hp).
  apply elem_of_app in Hin as [Hin|Hin]; [by apply Hrest in Hin|].
  assert (Hnd : NoDup (map Ports.pName rows)) by (rewrite Hn; by apply Names_spec).
  by rewrite <- (NoDup_map_eq Ports.pName rows r' r Hnd Hin Hr E).
Qed.

Lemma port_owned t : tables_ok t -> forall r, r ∈ job_ports (catalog t) -> pJobID r ∈ map jbID (jobs (catalog t)).
Proof.
  intros Hok r Hr. destruct (decide (pJobID r ∈ map jbID (jobs (catalog t)))) as [Hi|Hi]; [done|]. exfalso. pose proof (children_owned t Hok _ Hi) as Ho. apply (f_equal oPorts) in Ho. cbn [owned oPorts nothing] in Ho.
  assert (Hx : r ∈ of_id pJobID (pJobID r) (job_ports (catalog t))) by (apply elem_of_list_filter_b; split; [done|apply String.eqb_refl]).
  rewrite Ho in Hx. by apply elem_of_nil in Hx.
Qed.
Lemma upserted_in_step row t a : tables_ok t -> agrees jbID jbName row (jobs (catalog t)) ->
  rows_ok (idName (jobs (catalog t))) a (job_ports (catalog t)) ->
  rows_ok (idName (jobs (catalog (upserted row t)))) a (job_ports (catalog (upserted row t))).
Proof.
  intros Hok Hiff Hrows. destruct (upserted_ports row t Hok Hiff) as [[keep Hkeep] Hnone]. rewrite Hkeep, (upserted_jobs row t Hiff) in *.
  apply (rows_ok_ext (idName (jobs (catalog t)))); [|by apply rows_ok_filter].
  intros r Hr. symmetry. apply idName_step; [apply Hok|apply Hok|done|by apply Hnone|]. apply elem_of_list_filter_b in Hr as [Hr _].
  by apply port_owned.
Qed.

Lemma buildJob_spec tz t a p t' a' : tables_ok t -> ports_state t a -> buildJob tz (t, a) p = Ok (t', a') ->
  exists id, jobIDOf t (prJob p) = Ok id /\ tables_ok t' /\ ports_state t' a' /\ range_ a' = range_ a
    /\ built tz (range_ a) t' p id /\ (forall id', id' <> id -> owned t' id' = owned t id')
    /\ (exists row, jbID row = id /\ jbName row = prJob p /\ jobs (catalog t') = List.filter (renamed jbName (prJob p)) (jobs (catalog t)) ++ [row]).
Proof.
  intros Hok [Hinv Hrows] Hb. apply buildJob_steps in Hb as (id & policy & q & scheds & ports & hash & Hid & Hq & Hp & Hsch & Hs & ->).
  set (row := jobRow id (prJob p) policy (prManifest p) q (prSignature p)) in *. set (t1 := upserted row t) in *.
  destruct (jobIDOf_spec t (prJob p) id Hok Hid) as (Hne & Hiff & _).
  change (agrees jbID jbName row (jobs (catalog t))) in Hiff.
  pose proof (upserted_jobs row t Hiff) as Hjs. fold t1 in Hjs.
  destruct (replaced_unique jbID jbName row (jobs (catalog t)) (job_ids_unique t Hok) (job_names_unique t Hok) Hiff) as [Hids Hnames].
  pose proof (replaced_other_ids jbID jbName row _ Hiff) as Hin. cbv zeta in Hids, Hnames. rewrite <- Hjs in *.
  pose proof (upserted_in_step row t a Hok Hiff Hrows) as Hrow1. fold t1 in Hrow1.
  assert (Hname : idName (jobs (catalog t1)) id = prJob p).
  { change (idName (jobs (catalog t1)) (jbID row) = jbName row). apply idName_in; [done|]. rewrite Hjs. apply elem_of_app. right. by apply list_elem_of_singleton. }
  rewrite <- Hname in Hs.
  pose proof (syncPorts_spec _ (idName_inj _ Hids Hnames) _ id _ a a' ports Hinv Hrow1 Hs) as (Hinv' & Hrow' & Hrange & Hnums & _ & Hall).
  apply syncPorts_rows in Hs as (rows & -> & Hrid & Hrn).
  pose proof (upserted_owned row t id Hok Hiff) as Hnoid. fold t1 in Hnoid. rewrite String.eqb_refl in Hnoid.
  exists id. split; [done|].
  match goal with |- tables_ok ?x /\ _ => set (t2 := x) in * end.
  assert (Howned : forall id', owned t2 id' = if String.eqb id' id then mkOwned (selectorRows p) rows (hookTable id p scheds) (fileTable id p) (certTable id p) else owned t1 id').
  { intros id'. apply (owned_written t1 id); auto using hookTable_id, fileTable_id, certTable_id. }
  assert (Hother : forall id', id' <> id -> owned t2 id' = owned t id').
  { intros id' Hn. rewrite Howned. apply String.eqb_neq in Hn. rewrite Hn. unfold t1. rewrite (upserted_owned row t id' Hok Hiff).
    change (jbID row) with id. by rewrite Hn. }
  split_and!.
  - split; [done|done| | | |done].
    + change (jobs (catalog t2)) with (jobs (catalog t1)). rewrite Hjs. apply Forall_app. split; [|by constructor].
      pose proof (job_ids_set t Hok) as Hset. rewrite List.Forall_forall in *. intros j [Hj _]%filter_In. by apply Hset.
    + intros id' Hn. change (jobs (catalog t2)) with (jobs (catalog t1)) in Hn. destruct (decide (id' = id)) as [->|Hd].
      * exfalso. apply Hn, list_elem_of_fmap. exists row. split; [done|]. rewrite Hjs. apply elem_of_app. right. by apply list_elem_of_singleton.
      * rewrite Hother by done. apply (children_owned t Hok). by rewrite <- (Hin id' Hd).
    + by apply (NoDup_row_keys (jobs (catalog t1)) a').
  - by split.
  - done.
  - pose proof (Howned id) as Hown. rewrite String.eqb_refl in Hown. split; rewrite ?Hown; cbn [oSelectors oPorts oHooks oFiles oCerts]; try done.
    + exists q, policy. do 2 (split; [done|]). change (row ∈ jobs (catalog t1)). rewrite Hjs. apply elem_of_app. right. by apply list_elem_of_singleton.
    + eapply job_ports_numbers; [exact Hrn| |exact Hall]. intros r [_ Hx%negb_true_iff]%elem_of_list_filter_b. by apply bool_decide_eq_false in Hx.
    + by exists scheds.
  - done.
  - by exists row.
Qed.

(** ** All jobs *)

(** The jobs with other names, and what belongs to them, stay. *)
Definition frame (names : list string) (t t' : Tables) : Prop := forall j, j ∈ jobs (catalog t) -> jbName j ∉ names ->
  j ∈ jobs (catalog t') /\ owned t' (jbID j) = owned t (jbID j).
Lemma GetJobID_in t j : tables_ok t -> j ∈ jobs (catalog t) -> GetJobID (catalog t) (jbName j) = Some (jbID j).
Proof. intros Hok Hj. unfold GetJobID. by rewrite (jobOf_in _ j (job_names_unique t Hok) Hj). Qed.
Lemma GetJobID_Some t name id : GetJobID (catalog t) name = Some id -> exists j, j ∈ jobs (catalog t) /\ jbName j = name /\ jbID j = id.
Proof. unfold GetJobID. destruct (jobOf _ _) as [j|] eqn:E; [|done]. intros [= <-]. apply jobOf_Some in E as [??]. eauto. Qed.

Lemma buildJobs_spec tz range ps : forall t a t' a', tables_ok t -> ports_state t a -> range_ a = range -> NoDup (map prJob ps) ->
  foldR (buildJob tz) (t, a) ps = Ok (t', a') ->
  tables_ok t' /\ (forall n, n ∈ map jbName (jobs (catalog t')) <-> n ∈ map jbName (jobs (catalog t)) \/ n ∈ map prJob ps)
  /\ Forall (fun p => exists id, GetJobID (catalog t') (prJob p) = Some id /\ built tz range t' p id) ps
  /\ (forall n id, GetJobID (catalog t) n = Some id -> GetJobID (catalog t') n = Some id) /\ frame (map prJob ps) t t'.
Proof.
  induction ps as [|p ps IH]; intros t a t' a' Hok Hst Hrg Hnd; cbn [foldR map].
  { intros [= <- <-]. split_and!; [done| |constructor|done|]. { intros n. split; [by left|]. intros [?|?%elem_of_nil]; done. } by intros j Hj _. }
  apply NoDup_cons in Hnd as [Hp Hnd]. intros ([t1 a1] & H1 & H2)%rbind_ok.
  apply (buildJob_spec tz t a p t1 a1 Hok Hst) in H1 as (id & Hid & Hok1 & Hst1 & Hrg1 & Hb & Hoth & row & <- & Hn & Hjs).
  destruct (jobIDOf_spec t (prJob p) _ Hok Hid) as (_ & Hiff & Hold).
  assert (Hrow : row ∈ jobs (catalog t1)) by (rewrite Hjs; apply elem_of_app; right; by apply list_elem_of_singleton).
  assert (Hmem : forall j, j ∈ jobs (catalog t1) <-> (j ∈ jobs (catalog t) /\ jbName j <> prJob p) \/ j = row).
  { intros j. rewrite Hjs, elem_of_app, list_elem_of_singleton, renamed_in. done. }
  destruct (IH t1 a1 t' a' Hok1 Hst1 ltac:(congruence) Hnd H2) as (Hok' & Hnames & Hall & Hkeep & Hfr).
  split; [done|]. split.
  { intros n. rewrite Hnames, elem_of_cons, !list_elem_of_fmap. split.
    - intros [(j & -> & [[Hj _]| ->]%Hmem)|?]; [left; eauto| |by right; right]. right. by left.
    - intros [(j & -> & Hj)|[->|?]]; [left|left; exists row; done|by right].
      destruct (decide (jbName j = prJob p)) as [E|E]; [exists row; split; [congruence|done]|]. exists j. split; [done|]. apply Hmem. by left. }
  destruct (Hfr row Hrow ltac:(by rewrite Hn)) as [Hrow' Hown'].
  split; [constructor; [|done]|split].
  - exists (jbID row). split; [rewrite <- Hn; by apply GetJobID_in|]. rewrite Hrg in Hb. apply (built_transfer tz range t1 t' p _ Hb Hown').
    intros r Hr Hrn. apply Hfr; [done|]. by rewrite Hrn.
  - intros n id Hg. apply Hkeep. apply GetJobID_Some in Hg as Hj. destruct Hj as (j & Hj & <- & <-).
    destruct (decide (jbName j = prJob p)) as [E|E].
    + rewrite E in *. rewrite <- (Hold _ Hg). rewrite <- Hn. by apply GetJobID_in.
    + apply GetJobID_in; [done|]. apply Hmem. by left.
  - intros j Hj Hx%not_elem_of_cons. destruct Hx as [E Hx]. destruct (Hfr j) as [Hj' Ho]; [apply Hmem; by left|done|].
    split; [done|]. rewrite Ho. apply Hoth. intros E'. by apply E, Hiff.
Qed.

(** *** The ports a build starts from *)

Lemma filter_id_single js j : NoDup (map jbID js) -> j ∈ js -> List.filter (fun x => bool_decide (jbID x = jbID j)) js = [j].
Proof.
  induction js as [|x js IH]; intros Hnd Hj; [by apply elem_of_nil in Hj|]. cbn [map List.filter] in *. apply NoDup_cons in Hnd as [Hx Hnd].
  apply elem_of_cons in Hj as [->|Hj].
  - rewrite bool_decide_eq_true_2 by done. f_equal. destruct (List.filter _ js) as [|y l] eqn:E; [done|]. exfalso.
    assert (Hy : y ∈ List.filter (fun z => bool_decide (jbID z = jbID x)) js) by (rewrite E; left).
    apply elem_of_list_filter_b in Hy as [Hy Hyx%bool_decide_eq_true]. apply Hx, list_elem_of_fmap. eauto.
  - rewrite bool_decide_eq_false_2; [by apply IH|]. intros E. apply Hx, list_elem_of_fmap. eauto.
Qed.
Definition addRow (f : string -> string) (m : Assignments) (r : PortRow) : Assignments := <[row_key f r := Ports.pPort r]> m.
Lemma foldl_addRow f rows : forall m, NoDup (map (row_key f) rows) ->
  (forall r, r ∈ rows -> foldl (addRow f) m rows !! row_key f r = Some (Ports.pPort r))
  /\ (forall k, k ∉ map (row_key f) rows -> foldl (addRow f) m rows !! k = m !! k).
Proof.
  induction rows as [|r rows IH]; intros m; cbn [map foldl]; [intros _; split; [by intros r ?%elem_of_nil|done]|].
  intros [Hr Hnd]%NoDup_cons. destruct (IH (addRow f m r) Hnd) as [H1 H2]. split.
  - intros r' [->|Hr']%elem_of_cons; [|by apply H1]. rewrite H2 by done. apply lookup_insert_eq.
  - intros k [Hk Hks]%not_elem_of_cons. rewrite H2 by done. apply lookup_insert_ne. congruence.
Qed.
Lemma assignments_rows t : tables_ok t -> GetAllPortAssignments (catalog t) = foldl (addRow (idName (jobs (catalog t)))) ∅ (job_ports (catalog t)).
Proof.
  intros Hok. unfold GetAllPortAssignments. pose proof (port_owned t Hok) as Hall. revert Hall. generalize (∅ : Assignments).
  induction (job_ports (catalog t)) as [|r rows IH]; intros m Hall; [done|]. cbn [foldl].
  assert (Hr : pJobID r ∈ map jbID (jobs (catalog t))) by (apply Hall; left).
  apply list_elem_of_fmap in Hr as (j & Ej & Hj). rewrite Ej, (filter_id_single _ j (job_ids_unique t Hok) Hj). cbn [foldl].
  rewrite IH by (intros r' Hr'; apply Hall; by right). f_equal. unfold addRow, row_key.
  by rewrite Ej, (idName_in _ j (job_ids_unique t Hok) Hj).
Qed.
Lemma NoDup_keys_rows t : tables_ok t -> NoDup (map (row_key (idName (jobs (catalog t)))) (job_ports (catalog t))).
Proof.
  intros Hok. pose proof (port_keys_unique t Hok) as Hk. revert Hk. induction (job_ports (catalog t)) as [|r rows IH]; cbn [map]; [constructor|].
  intros [Hr Hk]%NoDup_cons. constructor; [|by apply IH]. intros (r' & E & Hr')%list_elem_of_fmap. apply Hr, list_elem_of_fmap.
  exists r'. split; [|done]. injection E as E1 E2. apply (idName_inj _ (job_ids_unique t Hok) (job_names_unique t Hok)) in E1. by rewrite E1, E2.
Qed.
Lemma initial_ports t range : tables_ok t -> ports_state t (newPortAllocator (GetAllPortAssignments (catalog t)) range).
Proof.
  intros Hok. pose proof (NoDup_keys_rows t Hok) as Hnd. rewrite (assignments_rows t Hok).
  destruct (foldl_addRow _ _ ∅ Hnd) as [H1 H2]. split; [|split; [done|exact H1]]. apply newPortAllocator_inv. intros k1 k2 p Hk1 Hk2.
  assert (Hin : forall k, foldl (addRow (idName (jobs (catalog t)))) ∅ (job_ports (catalog t)) !! k = Some p ->
    exists r, r ∈ job_ports (catalog t) /\ k = row_key (idName (jobs (catalog t))) r /\ Ports.pPort r = p).
  { intros k Hk. destruct (decide (k ∈ map (row_key (idName (jobs (catalog t)))) (job_ports (catalog t)))) as [(r & -> & Hr)%list_elem_of_fmap|Hn].
    - exists r. rewrite H1 in Hk by done. injection Hk as <-. done.
    - by rewrite H2, lookup_empty in Hk by done. }
  destruct (Hin k1 Hk1) as (r1 & Hr1 & -> & <-), (Hin k2 Hk2) as (r2 & Hr2 & -> & E).
  by rewrite (NoDup_map_eq Ports.pPort _ r1 r2 (port_numbers_unique t Hok) Hr1 Hr2 (eq_sym E)).
Qed.

(** *** Jobs that left the workspace *)

Lemma removeJob_spec t n : tables_ok t -> let t' := removeJob sha256 t n in
  tables_ok t' /\ jobs (catalog t') = List.filter (renamed jbName n) (jobs (catalog t))
  /\ forall j, j ∈ jobs (catalog t) -> jbName j <> n -> jbID j <> PublicIDFromString sha256 n -> owned t' (jbID j) = owned t (jbID j).
Proof.
  intros Hok t'. set (h := PublicIDFromString sha256 n) in *.
  assert (Hjs : jobs (catalog t') = List.filter (renamed jbName n) (jobs (catalog t))) by reflexivity.
  assert (Hdel : forall id, owned t' id = if mem id (map jbID (List.filter (fun j => String.eqb (jbName j) n) (jobs (catalog t)))) || mem id [h]
                              then nothing else owned t id).
  { intros id. unfold t', removeJob. fold h. change (owned (RemoveHash _ _ ?x) id) with (owned x id).
    rewrite owned_deleteJobs, owned_purgeChildren, owned_purgePorts. cbn [purgeChildren purgePorts setCatalog catalog setJobs jobs].
    destruct (mem id (map _ _)); [done|]. cbn [orb]. by destruct (mem id [h]). }
  split; [|split; [done|]].
  - split; rewrite ?Hjs; try (by apply NoDup_map_filter; apply Hok).
    + apply List.Forall_forall. intros j [Hj _]%filter_In. pose proof (job_ids_set t Hok) as Hs. rewrite List.Forall_forall in Hs. by apply Hs.
    + intros id Hid. rewrite Hdel. destruct (mem id _) eqn:Em; [done|]. cbn [orb]. destruct (mem id [h]); [done|]. apply (children_owned t Hok).
      intros (j & -> & Hj)%list_elem_of_fmap. apply mem_false in Em. destruct (String.eqb (jbName j) n) eqn:En.
      * apply Em, list_elem_of_fmap. exists j. split; [done|]. by apply elem_of_list_filter_b.
      * apply Hid, list_elem_of_fmap. exists j. split; [done|]. apply elem_of_list_filter_b. split; [done|]. unfold renamed. by rewrite En.
    + apply NoDup_map_filter, NoDup_map_filter, Hok.
    + apply NoDup_map_filter, NoDup_map_filter, Hok.
  - intros j Hj Hn Hh. rewrite Hdel. destruct (mem (jbID j) (map _ _)) eqn:Em.
    + exfalso. apply mem_true, list_elem_of_fmap in Em as (j' & E & [Hj' Hn'%String.eqb_eq]%elem_of_list_filter_b).
      by rewrite (NoDup_map_eq jbID _ j j' (job_ids_unique t Hok) Hj Hj' E) in Hn.
    + destruct (mem (jbID j) [h]) eqn:Eh; [|done]. by apply mem_true, list_elem_of_singleton in Eh.
Qed.

Lemma removeJobs_spec ns : forall t, tables_ok t -> let t' := foldl (removeJob sha256) t ns in
  (forall n j, n ∈ ns -> j ∈ jobs (catalog t') -> jbID j <> PublicIDFromString sha256 n) ->
  tables_ok t' /\ (forall j, j ∈ jobs (catalog t') <-> j ∈ jobs (catalog t) /\ jbName j ∉ ns)
  /\ forall j, j ∈ jobs (catalog t') -> owned t' (jbID j) = owned t (jbID j).
Proof.
  induction ns as [|n ns IH]; intros t Hok; cbn [foldl].
  { intros _. split; [done|]. split; [|done]. intros j. split; [|by intros [? _]]. intros Hj. split; [done|by intros ?%elem_of_nil]. }
  set (t' := foldl _ _ ns). intros Hh. destruct (removeJob_spec t n Hok) as (Hok1 & Hjs & Hown).
  destruct (IH _ Hok1 ltac:(intros m j Hm; apply Hh; by right)) as (Hok' & Hin & Ho). fold t' in Hok', Hin, Ho.
  assert (Hmem : forall j, j ∈ jobs (catalog t') <-> j ∈ jobs (catalog t) /\ jbName j ∉ n :: ns).
  { intros j. rewrite Hin, Hjs, renamed_in, not_elem_of_cons. tauto. }
  split; [done|]. split; [done|]. intros j Hj. rewrite Ho by done. apply Hmem in Hj as Hj'. destruct Hj' as [Hj0 [Hn _]%not_elem_of_cons].
  apply Hown; [done|done|]. apply Hh; [by left|done].
Qed.

Lemma GetJobs_NoDup entries : forall names, BuildJobs.GetJobs entries = Ok names -> NoDup entries.*1 -> NoDup names /\ names ⊆ entries.*1.
Proof.
  induction entries as [|[n node] entries IH]; intros names; cbn [BuildJobs.GetJobs fmap list_fmap fst].
  { intros [= <-] _. split; [constructor|done]. }
  intros Hg [Hn Hnd]%NoDup_cons. assert (Hskip : BuildJobs.GetJobs entries = Ok names -> NoDup names /\ names ⊆ n :: entries.*1).
  { intros Hs. destruct (IH names Hs Hnd) as [H1 H2]. split; [done|]. intros x Hx. right. by apply H2. }
  destruct node; try by auto. destruct (ValidateJobName n); [done|]. apply rbind_ok in Hg as (rest & Hr & [= <-]).
  destruct (IH rest Hr Hnd) as [H1 H2]. split; [constructor; [|done]; intros Hx; by apply Hn, H2|].
  intros x [->|Hx]%elem_of_cons; [left|right; by apply H2].
Qed.
Notation prepareJobs := (prepareJobs Verify trust gitHash workspaceJobs).
Notation BuildJobsWithOptions := (BuildJobsWithOptions LoadLocation sha256 md5 Verify trust gitHash workspaceJobs readCertFile jsonCerts
  loadJobBucketConfig loadPortRange defaultTimezone bucketID).
Lemma prepareJobs_names names : forall ps, prepareJobs names = Ok ps -> map prJob ps = names.
Proof.
  induction names as [|n names IH]; intros ps; cbn [BuildJobs.prepareJobs]; [by intros [= <-]|].
  intros (p & Hp & H2)%rbind_ok. apply rbind_ok in H2 as (rest & Hr & [= <-]). cbn [map]. f_equal; [|by apply IH].
  unfold prepareJob in Hp. repeat (apply rbind_ok in Hp as (? & _ & Hp)). destruct (ParseJobConf _ _); [|done]. by injection Hp as <-.
Qed.

(** C4: a build of the jobs leaves the catalog in step with the workspace. The
    jobs of the catalog are those of the workspace and the removed ones are
    those that left it; a job that stays keeps its identifier; each job's row
    has the values of its manifest, its limits and its signature, and the rows
    that belong to its identifier are exactly its selectors, one port for each
    name (the fixed number, or one of the range), one row for each event of
    each checked hook, its files and its certificates; identifiers, names and
    port numbers stay unique and nothing belongs to no job. (No job that stays
    may have the hash of a removed job's name as its identifier.) *)
Theorem BuildJobs_spec t t' removed audits :
  tables_ok t -> NoDup workspaceJobs.*1 -> BuildJobsWithOptions t = Ok (t', removed, audits) ->
  (forall n j, n ∈ removed -> j ∈ jobs (catalog t') -> jbID j <> PublicIDFromString sha256 n) ->
  exists names prepared range tz,
    BuildJobs.GetJobs workspaceJobs = Ok names /\ prepareJobs (Manifest.sortedJobNames names) = Ok prepared
    /\ loadPortRange = Ok range /\ defaultTimezone = Ok tz /\ tables_ok t'
    /\ (forall n, n ∈ map jbName (jobs (catalog t')) <-> n ∈ names)
    /\ (forall n, n ∈ removed <-> n ∈ map jbName (jobs (catalog t)) /\ n ∉ names)
    /\ (forall n id, n ∈ names -> GetJobID (catalog t) n = Some id -> GetJobID (catalog t') n = Some id)
    /\ Forall (fun p => exists id, GetJobID (catalog t') (prJob p) = Some id /\ built tz range t' p id) prepared.
Proof.
  intros Hok Hw Hb Hh. unfold BuildJobs.BuildJobsWithOptions in Hb. apply rbind_ok in Hb as (names & Hn & Hb).
  apply rbind_ok in Hb as (prepared & Hp & Hb). apply rbind_ok in Hb as (alloc & Ha & Hb). apply rbind_ok in Hb as (tz & Htz & Hb).
  apply rbind_ok in Hb as ([t1 a1] & Hf & [= <- <- <-]). destruct (GetJobs_NoDup _ _ Hn Hw) as [Hnd _].
  unfold buildPortAllocator in Ha. destruct loadPortRange as [range|] eqn:Erg; [|done]. apply rbind_ok in Ha as ([] & _ & [= <-]).
  pose proof (prepareJobs_names _ _ Hp) as Hnames.
  assert (Hs : forall n, n ∈ map prJob prepared <-> n ∈ names) by (intros n; rewrite Hnames; unfold Manifest.sortedJobNames; by rewrite merge_sort_Permutation).
  assert (Hnd' : NoDup (map prJob prepared)) by (rewrite Hnames; unfold Manifest.sortedJobNames; by rewrite merge_sort_Permutation).
  destruct (buildJobs_spec tz range prepared t _ t1 a1 Hok (initial_ports t range Hok) eq_refl Hnd' Hf) as (Hok1 & Hin & Hall & Hkeep & _).
  destruct (removeJobs_spec _ t1 Hok1 Hh) as (Hok' & Hjobs & Hown). set (t2 := foldl _ _ _) in *.
  assert (Hrem : forall n, n ∈ Difference (Catalog.GetJobs (catalog t1)) (Manifest.sortedJobNames names) <-> n ∈ map jbName (jobs (catalog t)) /\ n ∉ names).
  { intros n. rewrite elem_of_Difference, <- Hs, <- Hnames. unfold Catalog.GetJobs. rewrite (Hin n). tauto. }
  assert (Hid : forall n id, n ∈ names -> GetJobID (catalog t1) n = Some id -> GetJobID (catalog t2) n = Some id).
  { intros n id Hn' (j & Hj & <- & <-)%GetJobID_Some. apply GetJobID_in; [done|]. apply Hjobs. split; [done|]. by intros [_ ?]%Hrem. }
  exists names, prepared, range, tz. split_and!; try done.
  - intros n. rewrite list_elem_of_fmap. split.
    + intros (j & -> & [Hj Hr]%Hjobs). assert (Hx : jbName j ∈ map jbName (jobs (catalog t1))) by (apply list_elem_of_fmap; eauto).
      destruct (decide (jbName j ∈ names)) as [?|Hx']; [done|]. exfalso. apply Hr, Hrem. split; [|done]. apply Hin in Hx as [?|?%Hs]; done.
    + intros Hn'. assert (Hx : n ∈ map jbName (jobs (catalog t1))) by (apply Hin; right; by apply Hs).
      apply list_elem_of_fmap in Hx as (j & -> & Hj). exists j. split; [done|]. apply Hjobs. split; [done|]. by intros [_ ?]%Hrem.
  - intros n id Hn' Hg. apply Hid; [done|]. by apply Hkeep.
  - rewrite List.Forall_forall in *. intros p Hpin. destruct (Hall p Hpin) as (id & Hg & Hbu). exists id.
    assert (Hpn : prJob p ∈ names) by (apply Hs, list_elem_of_fmap; exists p; split; [done|by apply list_elem_of_In]).
    pose proof (Hid _ _ Hpn Hg) as Hg2. split; [done|]. apply GetJobID_Some in Hg2 as Hj. destruct Hj as (j & Hj & Ejn & <-).
    apply (built_transfer tz range t1); [done|by apply Hown|]. intros r Hr Ern. apply Hjobs. split; [done|]. rewrite Ern. by intros [_ ?]%Hrem.
Qed.
End steps.

(** ** build: the jobs and the workers of concrete workspaces *)

(** ** A job with a port, a hook and a certificate *)

Definition web_manifest : Manifest :=
  mkManifest "1.2.0" "the site" ["web"] 10
    (mkResources "64 mb" "128 mb" "" "" 512 (<["web_http" := mkBinding None "http" "public"]> ∅))
    (<["hook_ready" := mkHook "hook_ready" ["readiness"; "cli"] "" None (mkDemands "" "" ∅)]> ∅)
    (<["own" := mkCert false true false (mkSubject "web" "" "" "IN" "" "")]> ∅)
    None 1 2 0 0 "reload" ["conf/*"] [] [] true.
Definition web_tree : Node :=
  Dir [("Makefile", Regular "start:"); ("_hooks", Dir [("hook_ready.sh", Regular "exit 0")]);
       ("job.conf", Regular (EmitJobConf (fun t => t) web_manifest))].
Definition web_workspace : list (string * Node) := [("web", web_tree); ("README", Regular "notes")].
Definition old_row (id name : string) : JobRow := mkJobRow id name "1.0.0" "0" "0" "0" "0" "0" "0" 0 defaultColumns.
(** [web] was built before with another port, [old] is no longer in the
    workspace. *)
Definition old_tables (id : string) : Tables :=
  mkTables (mkCatalog [] [] [] [old_row id "web"; old_row "oldold" "old"] [(id, "web"); ("oldold", "db")]
              [mkPortRow id "web_admin" 30000 "tcp" "cluster"; mkPortRow "oldold" "old_api" 30001 "tcp" "cluster"])
    [] [mkFileRow "oldold" "old/job.conf" "" false] [] ∅.
Definition build_web (t : Tables) : result jobs_error (Tables * list string * list JobSignatureAudit) :=
  BuildJobsWithOptions (H := ascii_unicode) (H0 := no_float) (fun _ => None) toy_sha256 toy_md5 (fun _ _ => Err NoCertificates) (Ok None)
    "v1" web_workspace (fun _ => None) (fun _ => "{}") (fun _ => Ok ("bucket.jobs.conf", ∅)) (Ok (mkRange 30000 30001)) (Ok "UTC") "bucket" t.
Definition built_tables : Tables := match build_web (old_tables "webweb") with Ok (t, _, _) => t | Err _ => old_tables "webweb" end.
Lemma old_tables_ok : tables_ok (old_tables "webweb").
Proof.
  split; [by apply (bool_decide_unpack _); vm_compute|by apply (bool_decide_unpack _); vm_compute|by repeat constructor| | |].
  - intros id Hid. assert (H1 : "webweb" <> id) by (intros <-; apply Hid; left). assert (H2 : "oldold" <> id) by (intros <-; apply Hid; right; left).
    apply String.eqb_neq in H1, H2. unfold owned, of_id. cbn -[String.eqb]. by rewrite H1, H2.
  - by apply (bool_decide_unpack _); vm_compute.
  - by apply (bool_decide_unpack _); vm_compute.
Qed.
Lemma built_ids : map jbID (jobs (catalog built_tables)) = ["webweb"].
Proof. vm_compute. reflexivity. Qed.
Lemma old_hash : PublicIDFromString toy_sha256 "old" = "chmrw1".
Proof. vm_compute. reflexivity. Qed.
(** [web] keeps its identifier and has its new port, and [old] is gone. *)
Lemma BuildJobs_spec_witness :
  build_web (old_tables "webweb") = Ok (built_tables, ["old"], [mkAudit "web" (mkVerification "unsigned" "" "")]) /\ tables_ok built_tables
  /\ GetJobID (catalog built_tables) "web" = Some "webweb" /\ job_ports (catalog built_tables) = [mkPortRow "webweb" "web_http" 30000 "http" "public"].
Proof.
  assert (E : build_web (old_tables "webweb") = Ok (built_tables, ["old"], [mkAudit "web" (mkVerification "unsigned" "" "")])) by (vm_compute; reflexivity).
  split; [exact E|].
  destruct (BuildJobs_spec (H := ascii_unicode) (H0 := no_float) (fun _ => None) toy_sha256 toy_md5 (fun _ _ => Err NoCertificates) (Ok None)
    "v1" web_workspace (fun _ => None) (fun _ => "{}") (fun _ => Ok ("bucket.jobs.conf", ∅)) (Ok (mkRange 30000 30001)) (Ok "UTC") "bucket"
    (old_tables "webweb") built_tables ["old"] [mkAudit "web" (mkVerification "unsigned" "" "")] old_tables_ok) as (names & prepared & range & tz & _ & _ & _ & _ & Hok & _).
  - by apply (bool_decide_unpack _); vm_compute.
  - exact E.
  - intros n j Hn Hj. apply list_elem_of_singleton in Hn as ->.
    assert (Hid : jbID j ∈ map jbID (jobs (catalog built_tables))) by (apply list_elem_of_fmap; exists j; split; [reflexivity|exact Hj]).
    rewrite built_ids in Hid. apply list_elem_of_singleton in Hid as ->. rewrite old_hash. discriminate.
  - split; [exact Hok|]. split; vm_compute; reflexivity.
Defined.
Lemma quantitiesOf_within_witness :
  exists q, quantitiesOf (fun _ => Ok ("bucket.jobs.conf", {["memory" := "96 mb"]})) "web" web_manifest = Ok q
  /\ flt (qMaxMemory q) (qMemory q) = false /\ qMemory q = float_of_Z 96.
Proof.
  eexists. assert (E : quantitiesOf (fun _ => Ok ("bucket.jobs.conf", {["memory" := "96 mb"]})) "web" web_manifest = Ok _) by (vm_compute; reflexivity).
  split; [exact E|]. split; [|vm_compute; reflexivity]. exact (proj1 (proj2 (proj1 (quantitiesOf_within _ _ _ _ E)))).
Defined.

(** ** What removal takes with it *)

(** A job that was removed is looked up by the hash of its name, and its
    identifier is the hash of the bucket and the name: a job that stays and has
    the first as its identifier loses what belongs to it. *)
Theorem removed_name_takes_children :
  PublicIDFromString toy_sha256 "old" = "chmrw1"
  /\ match build_web (old_tables "chmrw1") with
     | Ok (t, removed, _) => removed = ["old"] /\ map jbName (jobs (catalog t)) = ["web"] /\ job_ports (catalog t) = [] /\ hooks t = [] /\ job_files t = []
     | Err _ => False
     end.
Proof. split; [vm_compute; reflexivity|]. vm_compute. by split_and!. Qed.

(** ** Workers *)

(** One worker was built before with another address. *)
Definition old_workers : Catalog := mkCatalog [mkWorkerRow "wwwwww" "10.0.0.2" "1" "1" 0; mkWorkerRow "vvvvvv" "10.0.0.9" "1" "1" 0]
  [("wwwwww", "old"); ("vvvvvv", "worker")] [] [] [] [].
Definition conf_workers (l : list WorkerRecord) : list Worker := match WorkersConf.GetWorkers (H := ascii_unicode) l with Ok ws => ws | Err _ => [] end.
Definition two_workers : list WorkerRecord :=
  [mkWorkerRecord "10.0.0.1" "alpha" ["web"; "EU"] "2 gb" "" (<["rack" := "A1"]> ∅) None; mkWorkerRecord "10.0.0.2" "" [] "" "2400 mhz" ∅ (Some 7)].
Definition build_workers (l : list WorkerRecord) : result workers_error (Catalog * list string) :=
  BuildWorkers toy_sha256 "bucket" (conf_workers l) old_workers.
Definition built_workers : Catalog := match build_workers two_workers with Ok (c, _) => c | Err _ => old_workers end.
Lemma old_workers_ok : workers_ok old_workers.
Proof.
  split; [by apply (bool_decide_unpack _); vm_compute|by apply (bool_decide_unpack _); vm_compute|by repeat constructor|].
  intros id Hid. assert (H1 : "wwwwww" <> id) by (intros <-; apply Hid; left). assert (H2 : "vvvvvv" <> id) by (intros <-; apply Hid; right; left).
  apply String.eqb_neq in H1, H2. unfold labelsOf, tagsOf, of_id. cbn -[String.eqb]. by rewrite H1, H2.
Qed.
Lemma BuildWorkers_spec_witness :
  build_workers two_workers = Ok (built_workers, ["10.0.0.9"]) /\ workers_ok built_workers
  /\ map (fun r => (wkIP r, wkMemory r, wkCPU r, labelsOf built_workers (wkID r))) (workers built_workers)
     = [("10.0.0.1", "2048", "0", ["web"; "eu"; "worker"]); ("10.0.0.2", "0", "2400", ["worker"])].
Proof.
  assert (E : build_workers two_workers = Ok (built_workers, ["10.0.0.9"])) by (vm_compute; reflexivity).
  split; [exact E|]. split; [|vm_compute; reflexivity].
  exact (proj1 (proj2 (BuildWorkers_spec toy_sha256 "bucket" _ _ _ _ old_workers_ok E))).
Defined.

Definition quoted (s : string) : string := ConfEmit.dquote +:+ s +:+ ConfEmit.dquote.
(** The worker of the reference manual, with the label that the build adds. *)
Definition documented_worker : string :=
  "worker { host(" +:+ quoted "10.0.0.1" +:+ "); labels(" +:+ quoted "worker" +:+ ", " +:+ quoted "gpu" +:+ "); memory(" +:+ quoted "4096 mb" +:+ ") }".
Theorem documented_worker_refused :
  match ParseWorkersConf (H := ascii_unicode) (H0 := no_float) "workers.conf" documented_worker with
  | Ok l => build_workers l = Err (DuplicateLabels "10.0.0.1")
  | Err _ => False
  end.
Proof. vm_compute. reflexivity. Qed.
(** A million megabytes and more are stored with an exponent. *)
Theorem terabyte_worker :
  match build_workers [mkWorkerRecord "10.0.0.1" "" [] "1 tb" "" ∅ None] with
  | Ok (c, _) => map wkMemory (workers c) = ["1.048576e+06"]
  | Err _ => False
  end.
Proof. vm_compute. reflexivity. Qed.
(** Neither is a NaN less than zero nor a negative zero; both are stored. *)
Theorem nan_worker :
  match build_workers [mkWorkerRecord "10.0.0.1" "" [] "nan" "-0" ∅ None] with
  | Ok (c, _) => map (fun w => (wkMemory w, wkCPU w)) (workers c) = [("NaN", "-0")]
  | Err _ => False
  end.
Proof. vm_compute. reflexivity. Qed.
