(* ===== verification/PromConfig.v ===== *)
(** * promconfig: the catalog of Prometheus

    [BuildCatalog] of promconfig/catalog.go with what it calls in alerts.go,
    scrape.go, scrape_template.go, paths.go and workspace/prometheus.go: the
    step of a build that checks the files of the jobs below _prometheus/ and
    puts their scrape configurations in the session's store. The files of the
    workspace are answered by a [Disk], paths being those below
    workspace/jobs; YAML, JSON and the engine of text/template are arguments.
    A build that fails saves nothing, so an error carries no store. *)
From S2P Require RuntimeAPI.
From S2P Require Import Prelude GoStrings Utils Kv KvFacts Versions Ports AllocState AllocStateFacts ConfSyntax ConfLexer ConfParser JobConf Catalog PathMatch JobTree BuildVars BuildVarsFacts BuildJobs.
Open Scope Z_scope.

(** ** Data *)

(** A value that YAML decodes into an [interface{}]: a string, a list, a
    [map[string]interface{}], or anything else. *)
Inductive Yaml := YString (s : string) | YList (l : list Yaml) | YMap (m : list (string * Yaml)) | YOther (text : string).
Definition Config := list (string * Yaml).
Definition field (m : list (string * Yaml)) (key : string) : option Yaml := snd <$> head (List.filter (fun e => String.eqb e.1 key) m).

Record alertRule := mkAlertRule {
  arAlert : string; arRecord : string; arExpr : string; arFor : string;
  arLabels : gmap string string; arAnnotations : gmap string string;
}.
Record alertRuleGroup := mkAlertRuleGroup { agName : string; agRules : list alertRule }.
Definition alertRuleFile := list alertRuleGroup.

Inductive Read (A : Type) := Found (a : A) | NotExist | Failed.
Arguments Found {A} _.
Arguments NotExist {A}.
Arguments Failed {A}.
(** [os.Stat] without an error, [os.ReadFile], and [os.ReadDir] with whether
    an entry is a directory. [jobEntries] is what [GetJobs] reads. *)
Record Disk := mkDisk {
  jobEntries : list (string * Node);
  osStat : string -> bool;
  osReadFile : string -> Read string;
  osReadDir : string -> Read (list (string * bool));
}.
(** A template is executed on the store, the namespaces it may read, its job
    and version. *)
Record Engines := mkEngines {
  unmarshalAlerts : string -> option alertRuleFile;
  unmarshalScrape : string -> option (list Config);
  marshalJSON : list Config -> option string;
  executeTemplate : Store -> list string -> string -> string -> string -> option string;
  buildHash : string;
}.

Inductive conf_choice := TwoFormats | OldFormat (name : string) | TwoConfs | ConfUnreadable | NoConf.
Inductive alert_error :=
| AlertsEmpty | AlertsUnreadable | NoGroup | GroupWithoutName (group : nat)
| AlertAndRecord (group rule : nat) | NoAlertNoRecord (group rule : nat) | RuleWithoutExpr (group rule : nat) | MissingRunbook (alert runbook : string).
Inductive scrape_error :=
| ScrapeEmpty | ScrapeUnreadable | NoScrapeItem | ServiceDiscovery (key : string) | NoScrapeName
| BadPlaceholder (target : string) | NoMetricsPort | AmbiguousPorts (ports : list string) | PortNotDeclared (port : string).
Inductive prom_error :=
| JobList (e : jobs_error)
| ServerConflict (job : string)
| ScrapeConflict (job : string)
| FileUnreadable (path : string)
| RowMissing (job : string)
| BadAlerts (job rel : string) (e : alert_error)
| DuplicateAlert (name owner job : string)
| TemplateFailed (job : string)
| ConfChoice (job : string) (e : conf_choice)
| BadConf (job : string) (e : failure)
| BadScrape (job : string) (e : scrape_error)
| DuplicateScrapeName (name owner job : string)
| MarshalFailed
| PromStore (e : kv_error).

Definition KVNamespace : string := "kive/prometheus".
Definition PortPlaceholderPrefix : string := "kive:port/".
Definition JobPlaceholder : string := "kive:job".
Definition ImplicitPortKey : string := "_implicit".
Definition orFail {E A} (e : E) (o : option A) : result E A := match o with Some a => Ok a | None => Err e end.
(** The first error of the checks of a list. *)
Definition checkAll {E A} (f : A -> result E unit) (l : list A) : result E unit := foldR (fun _ a => f a) tt l.
Definition indexedAll {E A} (f : nat -> A -> result E unit) (l : list A) : result E unit := checkAll (fun ia => f ia.1 ia.2) (imap pair l).

Definition guardP {E} (b : bool) (e : E) : result E unit := if b then Err e else Ok tt.

Section files.
Context `{Unicode} `{FloatText} (disk : Disk) (eng : Engines).
Notation stat := (osStat disk).

(** ** Files of the workspace (workspace/prometheus.go, paths.go) *)

Definition PrometheusServerConfigFileNames : list string := ["prometheus.yml"; "prometheus.yml.bt"; "prometheus.yml.tpl"; "prometheus.yml.tpl.bt"].
Definition serverFiles (jobName : string) : list string :=
  List.filter stat (map (fun name => path_Join [jobName; name]) PrometheusServerConfigFileNames).
Definition JobHasPrometheusServerConfigFile (jobName : string) : bool :=
  existsb (fun name => stat (path_Join [jobName; name])) PrometheusServerConfigFileNames.
Definition ValidatePrometheusServerFiles (jobName : string) : result prom_error unit :=
  guardP (1 <? length (serverFiles jobName))%nat (ServerConflict jobName).
Definition hasPrometheusServerJob (jobNames : list string) : bool := existsb JobHasPrometheusServerConfigFile jobNames.

Definition promPath (jobName rel : string) : string := path_Join [jobName; "_prometheus"; rel].
Definition JobScrapePath (jobName : string) : string := promPath jobName "scrape.yaml".
Definition JobScrapeTplPath (jobName : string) : string := promPath jobName "scrape.yaml.tpl".
Definition ValidateScrapeFiles (jobName : string) : result prom_error unit :=
  guardP (stat (JobScrapePath jobName) && stat (JobScrapeTplPath jobName)) (ScrapeConflict jobName).

(** ** Alerts (alerts.go) *)

Definition listDir (path : string) (name : string -> option string) : result prom_error (list string) :=
  match osReadDir disk path with
  | NotExist => Ok []
  | Failed => Err (FileUnreadable path)
  | Found entries => Ok (omap (fun entry : string * bool => if entry.2 then None else name entry.1) entries)
  end.
Definition ListRunbookSlugs (jobName : string) : result prom_error (list string) :=
  listDir (promPath jobName "runbooks") (fun name => if HasSuffix name ".md" then Some (dropEnd 3 name) else None).
Definition isAlertRuleFileName (name : string) : bool :=
  HasSuffix name ".yaml" || HasSuffix name ".yml" || HasSuffix name (".yaml" +:+ JobTemplateExt) || HasSuffix name (".yml" +:+ JobTemplateExt).
Definition ListAlertFiles (jobName : string) : result prom_error (list string) :=
  listDir (promPath jobName "alerts") (fun name => if isAlertRuleFileName name then Some (path_Join ["alerts"; name]) else None).

Definition validateAlertRule (runbookSlugs : list string) (group idx : nat) (rule : alertRule) : result alert_error unit :=
  let alertName := TrimSpace (arAlert rule) in
  let hasAlert := nonempty_string alertName in
  let hasRecord := nonempty_string (TrimSpace (arRecord rule)) in
  if hasAlert && hasRecord then Err (AlertAndRecord group idx)
  else if negb hasAlert && negb hasRecord then Err (NoAlertNoRecord group idx)
  else if negb (nonempty_string (TrimSpace (arExpr rule))) then Err (RuleWithoutExpr group idx)
  else
    let runbook := TrimSpace (default "" (arAnnotations rule !! "runbook"%string)) in
    if hasAlert && nonempty_string runbook && negb (mem runbook runbookSlugs) then Err (MissingRunbook alertName runbook)
    else Ok tt.
Definition validateAlertRuleFile (runbookSlugs : list string) (parsed : alertRuleFile) : result alert_error unit :=
  indexedAll (fun i group =>
    if negb (nonempty_string (TrimSpace (agName group))) then Err (GroupWithoutName i)
    else indexedAll (validateAlertRule runbookSlugs i) (agRules group)) parsed.
Definition parseAlertRuleFile (data : string) : result alert_error alertRuleFile :=
  if negb (nonempty_string (TrimSpace data)) then Err AlertsEmpty
  else
    let? parsed := orFail AlertsUnreadable (unmarshalAlerts eng data) in
    match parsed with [] => Err NoGroup | _ => Ok parsed end.
Definition ValidateAlertFile (runbookSlugs : list string) (data : string) : result alert_error unit :=
  let? parsed := parseAlertRuleFile data in validateAlertRuleFile runbookSlugs parsed.
Definition AlertNamesFromFile (data : string) : option (list string) :=
  parsed ← unmarshalAlerts eng data;
  Some (List.filter nonempty_string (flat_map (fun group => map (fun rule => TrimSpace (arAlert rule)) (agRules group)) parsed)).

(** ** job.conf (workspace/job_conf.go, workspace/workspace.go) *)

(** The size and the kind of the file are what [conf.ReadBytes] looks at; the
    parser refuses the same size. *)
Definition ReadConf (jobName name : string) : result prom_error string :=
  match osReadFile disk (path_Join [jobName; name]) with
  | Found data => if slen data >? MaxSourceBytes then Err (ConfChoice jobName ConfUnreadable) else Ok data
  | _ => Err (ConfChoice jobName ConfUnreadable)
  end.
Definition LoadJobConfBytes (jobName : string) : result prom_error string :=
  let has name := stat (path_Join [jobName; name]) in
  let hasConf := has "job.conf" in
  let hasBT := has "job.conf.bt" in
  let hasLegacy := has "manifest.conf" || has "manifest.conf.bt" in
  let hasJSON := has "manifest.json" || has "manifest.json.bt" in
  if hasLegacy && (hasConf || hasBT) then Err (ConfChoice jobName TwoFormats)
  else if hasLegacy then Err (ConfChoice jobName (OldFormat (if has "manifest.conf.bt" then "manifest.conf.bt" else "manifest.conf")))
  else if hasJSON && (hasConf || hasBT) then Err (ConfChoice jobName TwoFormats)
  else if hasJSON then Err (ConfChoice jobName (OldFormat (if has "manifest.json.bt" then "manifest.json.bt" else "manifest.json")))
  else if hasConf && hasBT then Err (ConfChoice jobName TwoConfs)
  else if hasConf then ReadConf jobName "job.conf"
  else if hasBT then
    let? data := ReadConf jobName "job.conf.bt" in
    Ok (Transpile data (JobTemplateVarsForName (buildHash eng) jobName))
  else Err (ConfChoice jobName NoConf).
Definition LoadManifest (jobName : string) : result prom_error Manifest :=
  let? data := LoadJobConfBytes jobName in
  match ParseJobConf (path_Join [jobName; "job.conf"]) data with
  | Ok manifest => Ok manifest
  | Err e => Err (BadConf jobName e)
  end.

(** ** Scrape configurations (scrape.go) *)

Definition ParseScrapeFile (data : string) : result scrape_error (list Config) :=
  if negb (nonempty_string (TrimSpace data)) then Err ScrapeEmpty
  else
    let? configs := orFail ScrapeUnreadable (unmarshalScrape eng data) in
    match configs with [] => Err NoScrapeItem | _ => Ok configs end.

Definition forbiddenServiceDiscoveryKeys : list string :=
  ["kubernetes_sd_configs"; "dns_sd_configs"; "file_sd_configs"; "consul_sd_configs"; "ecs_sd_configs"; "ec2_sd_configs";
   "openstack_sd_configs"; "azure_sd_configs"; "gce_sd_configs"; "hetzner_sd_configs"; "ionos_sd_configs"; "linode_sd_configs";
   "digitalocean_sd_configs"; "docker_sd_configs"; "dockerswarm_sd_configs"; "eureka_sd_configs"; "http_sd_configs"; "kuma_sd_configs";
   "marathon_sd_configs"; "nerve_sd_configs"; "serverset_sd_configs"; "triton_sd_configs"; "uyuni_sd_configs"].
(** [cfg["job_name"].(string)], the empty string when it is not one. *)
Definition jobLabel (cfg : Config) : string := match field cfg "job_name" with Some (YString s) => s | _ => "" end.
Definition validateConfig (cfg : Config) : result scrape_error unit :=
  let? _ := checkAll (fun key => match field cfg key with Some _ => Err (ServiceDiscovery key) | None => Ok tt end) forbiddenServiceDiscoveryKeys in
  if nonempty_string (TrimSpace (jobLabel cfg)) then Ok tt else Err NoScrapeName.
Definition ValidateScrapeConfigs (configs : list Config) : result scrape_error unit := checkAll validateConfig configs.

(** The targets with a placeholder of a port: both loops over a
    configuration skip what has another form. *)
Definition targetPlaceholder (target : Yaml) : list string :=
  match target with YString s => if HasPrefix s PortPlaceholderPrefix then [s] else [] | _ => [] end.
Definition blockPlaceholders (block : Yaml) : list string :=
  match block with
  | YMap m => match field m "targets" with Some (YList targets) => flat_map targetPlaceholder targets | _ => [] end
  | _ => []
  end.
Definition portPlaceholders (cfg : Config) : list string :=
  match field cfg "static_configs" with Some (YList blocks) => flat_map blockPlaceholders blocks | _ => [] end.
Definition portKeyOf (target : string) : string := default "" (head (Split (TrimPrefix target PortPlaceholderPrefix) slash)).
Definition ResolveMetricsPortKey (jobName : string) (ports : ManifestPorts) : result scrape_error string :=
  match List.filter (fun name => bool_decide (is_Some (ports !! name))) [jobName +:+ "_metrics_port"; "metrics_port"]%string with
  | name :: _ => Ok name
  | [] =>
      match merge_sort String.le (List.filter (fun name => HasSuffix name "_metrics_port") (map_to_list ports).*1) with
      | [] => Err NoMetricsPort
      | [name] => Ok name
      | names => Err (AmbiguousPorts names)
      end
  end.
Definition validatePortPlaceholder (jobName : string) (ports : ManifestPorts) (target : string) : result scrape_error unit :=
  let portKey := portKeyOf target in
  if String.eqb portKey "" then Err (BadPlaceholder target)
  else
    let? portKey := if String.eqb portKey ImplicitPortKey then ResolveMetricsPortKey jobName ports else Ok portKey in
    match ports !! portKey with Some _ => Ok tt | None => Err (PortNotDeclared portKey) end.
Definition ValidateScrapePortReferences (jobName : string) (ports : ManifestPorts) (configs : list Config) : result scrape_error unit :=
  checkAll (fun cfg => checkAll (validatePortPlaceholder jobName ports) (portPlaceholders cfg)) configs.
Definition ScrapeConfigsRequireActiveAllocations (configs : list Config) : bool :=
  existsb (fun cfg => match portPlaceholders cfg with [] => false | _ => true end) configs.
Definition ResolveScrapeJobName (kiveJob value : string) : string := if String.eqb value JobPlaceholder then kiveJob else value.
End files.

(** ** The store *)

(** The namespace of Prometheus: put what there is, delete what is stale. *)
Definition difference (existing present : list string) : list string := List.filter (fun key => negb (mem key present)) existing.
Definition syncPrometheusKV (s : Store) (keyValues : Vars) : result kv_error Store :=
  let s := putAll s KVNamespace keyValues in
  deleteKeys s KVNamespace (difference (GetKeys s KVNamespace) (map_to_list keyValues).*1).
Definition syncJobScrapeNameKV (s : Store) (jobName : string) (configs : list Config) : Store :=
  match configs with
  | [] => s
  | cfg :: _ => Put s (jobNamespace jobName) "job_name" (ResolveScrapeJobName jobName (jobLabel cfg)) 0
  end.

Section catalog.
Context `{Unicode} `{FloatText} (disk : Disk) (eng : Engines).
(** The transaction: the tables, the allocations and the bucket. *)
Context (t : Tables) (db : DB) (bucketID : string).
Notation c := (catalog t).
Notation stat := (osStat disk).

(** ** Templates (scrape_template.go, data/job.go, data/bucket_meta.go) *)

Definition NewJobTemplateVars (jobName : string) : result prom_error JobTemplateVars :=
  let? jobID := orFail (RowMissing jobName) (GetJobID c jobName) in
  Ok (mkTemplateVars jobName bucketID jobID (buildHash eng)).
Definition demandRows : list RuntimeAPI.DemandRow :=
  map (fun h => RuntimeAPI.mkDemandRow (hrJob h) (hrName h) (hrDemandJob h) (hrDemandHook h) "") (hooks t).
Definition RenderScrapeTemplate (s : Store) (jobName tplContent : string) : result prom_error string :=
  let allowedNamespaces := RuntimeAPI.BuildScrapeTemplateNamespaces demandRows jobName in
  let? version := orFail (RowMissing jobName) (GetJobVersion c jobName) in
  orFail (TemplateFailed jobName) (executeTemplate eng s allowedNamespaces jobName (NormalizeDeployVersion version) tplContent).
(** [None] is an error that [os.IsNotExist] knows. *)
Definition readScrape (path : string) (k : string -> result prom_error string) : result prom_error (option string) :=
  match osReadFile disk path with
  | NotExist => Ok None
  | Failed => Err (FileUnreadable path)
  | Found content => let? data := k content in Ok (Some data)
  end.
Definition ReadScrapeFileContent (s : Store) (jobName : string) : result prom_error (option string) :=
  let? _ := ValidateScrapeFiles disk jobName in
  if stat (JobScrapeTplPath jobName) then readScrape (JobScrapeTplPath jobName) (RenderScrapeTemplate s jobName)
  else readScrape (JobScrapePath jobName) Ok.

(** ** The catalog (catalog.go) *)

Record Aggregate := mkAggregate {
  agStore : Store;
  agUnexpanded : list Config;
  agScrapeJobs : list string;
  agJobNames : gmap string string;
  agAlertNames : gmap string string;
  agValues : Vars;
}.
(** A name has one owner. *)
Definition own (duplicate : string -> string -> string -> prom_error) (jobName : string) (owners : gmap string string) (name : string)
    : result prom_error (gmap string string) :=
  match owners !! name with
  | Some owner => Err (duplicate name owner jobName)
  | None => Ok (<[name := jobName]> owners)
  end.
Definition liftAlerts {A} (jobName rel : string) (r : result alert_error A) : result prom_error A :=
  match r with Ok a => Ok a | Err e => Err (BadAlerts jobName rel e) end.
Definition liftScrape {A} (jobName : string) (r : result scrape_error A) : result prom_error A :=
  match r with Ok a => Ok a | Err e => Err (BadScrape jobName e) end.
Definition addAlertFile (jobName : string) (runbookSlugs : list string) (vars : JobTemplateVars) (alertNames : gmap string string) (rel : string)
    : result prom_error (gmap string string) :=
  let filePath := path_Join [jobName; "_prometheus"; rel] in
  match osReadFile disk filePath with
  | Found content =>
      let content := (MaterializeJobTemplate filePath content vars).1.2 in
      let? _ := liftAlerts jobName rel (ValidateAlertFile eng runbookSlugs content) in
      let? names := orFail (BadAlerts jobName rel AlertsUnreadable) (AlertNamesFromFile eng content) in
      foldR (own DuplicateAlert jobName) alertNames names
  | _ => Err (FileUnreadable filePath)
  end.

Definition resolvedNames (jobName : string) (configs : list Config) : list string := map (fun cfg => ResolveScrapeJobName jobName (jobLabel cfg)) configs.
(** The configurations of a job are for its active allocations, if they name
    its ports. *)
Definition served (jobName : string) (configs : list Config) : bool :=
  negb (ScrapeConfigsRequireActiveAllocations configs
        && match GetActiveAllocations db jobName with Some (_ :: _) => false | _ => true end).
Definition parseScrape (jobName data : string) : result prom_error (list Config) :=
  let? manifest := LoadManifest disk eng jobName in
  let? configs := liftScrape jobName (ParseScrapeFile eng data) in
  let? _ := liftScrape jobName (ValidateScrapeConfigs configs) in
  let? _ := liftScrape jobName (ValidateScrapePortReferences jobName (rPorts (mResources manifest)) configs) in
  Ok configs.
Definition addScrape (ag : Aggregate) (jobName data : string) : result prom_error Aggregate :=
  let? configs := parseScrape jobName data in
  let? names := foldR (own DuplicateScrapeName jobName) (agJobNames ag) (resolvedNames jobName configs) in
  let s := syncJobScrapeNameKV (agStore ag) jobName configs in
  let? perJobJSON := orFail MarshalFailed (marshalJSON eng configs) in
  let values := <["scrape/" +:+ jobName := perJobJSON]> (agValues ag) in
  let? _ := orFail (RowMissing jobName) (GetActiveAllocations db jobName) in
  if served jobName configs
  then Ok (mkAggregate s (agUnexpanded ag ++ configs) (agScrapeJobs ag ++ [jobName]) names (agAlertNames ag) values)
  else Ok (mkAggregate s (agUnexpanded ag) (agScrapeJobs ag) names (agAlertNames ag) values).
Definition catalogJob (ag : Aggregate) (jobName : string) : result prom_error Aggregate :=
  let? _ := ValidatePrometheusServerFiles disk jobName in
  let? _ := ValidateScrapeFiles disk jobName in
  let? runbookSlugs := ListRunbookSlugs disk jobName in
  let? alertPaths := ListAlertFiles disk jobName in
  let? vars := NewJobTemplateVars jobName in
  let? alertNames := foldR (addAlertFile jobName runbookSlugs vars) (agAlertNames ag) alertPaths in
  let ag := mkAggregate (agStore ag) (agUnexpanded ag) (agScrapeJobs ag) (agJobNames ag) alertNames (agValues ag) in
  let? _ := ValidateScrapeFiles disk jobName in
  let? scrapeData := ReadScrapeFileContent (agStore ag) jobName in
  match scrapeData with
  | None => Ok ag
  | Some data => addScrape ag jobName data
  end.

Definition syncCatalog (s : Store) (values : Vars) : result prom_error Store :=
  match syncPrometheusKV s values with Ok s => Ok s | Err e => Err (PromStore e) end.
Definition noCatalog : Vars := <["scrape_configs" := "[]"]> (<["scrape_jobs" := ""]> (<["scrape_jobs_length" := "0"]> ∅)).
Definition sortedJobs : result prom_error (list string) :=
  match BuildJobs.GetJobs (jobEntries disk) with Ok names => Ok (merge_sort String.le names) | Err e => Err (JobList e) end.
Definition BuildCatalog (s : Store) : result prom_error Store :=
  let? jobNames := sortedJobs in
  if negb (hasPrometheusServerJob disk jobNames) then syncCatalog s noCatalog
  else
    let? ag := foldR catalogJob (mkAggregate s [] [] ∅ ∅ ∅) jobNames in
    let? scrapeConfigsJSON := orFail MarshalFailed (marshalJSON eng (agUnexpanded ag)) in
    let values := <["scrape_configs" := scrapeConfigsJSON]> (<["scrape_jobs" := Join (agScrapeJobs ag) ","]>
                    (<["scrape_jobs_length" := Itoa (Z.of_nat (length (agScrapeJobs ag)))]> (agValues ag))) in
    syncCatalog (agStore ag) values.
End catalog.

(** ** Facts: the namespace of Prometheus *)

Lemma syncPrometheusKV_full s kv : syncPrometheusKV s kv = syncNamespaceKeyValues s KVNamespace kv syncKeyPolicyFull.
Proof.
  unfold syncPrometheusKV, syncNamespaceKeyValues. f_equal. cbn [spared negb].
  rewrite List.filter_true.
  unfold difference, Difference. destruct (GetKeys _ _) as [|key keys]; [done|]. cbn [length Nat.eqb]. apply filter_ext. intros a.
  f_equal. unfold mem. apply bool_decide_ext. by rewrite elem_of_list_to_set.
Qed.
Lemma syncPrometheusKV_spec s kv : exists s', syncPrometheusKV s kv = Ok s' /\ (forall k, view s' KVNamespace k = stored kv k)
  /\ forall n k, n <> KVNamespace -> find s' n k = find s n k.
Proof.
  destruct (sync_spec s KVNamespace kv syncKeyPolicyFull) as (s' & E & V & O & _). exists s'. rewrite syncPrometheusKV_full. split_and!; [done| |done].
  intros k. rewrite V. unfold stored. by destruct (kv !! k).
Qed.

(** ** Facts: checks *)

Lemma checkAll_ok {E A} (f : A -> result E unit) l : checkAll f l = Ok tt -> Forall (fun a => f a = Ok tt) l.
Proof.
  unfold checkAll. induction l as [|a l IH]; cbn [foldR]; [constructor|]. intros ([] & Ha & Hl)%rbind_ok. constructor; [done|by apply IH].
Qed.
Lemma checkAll_unit {E A} (f : A -> result E unit) l u : checkAll f l = Ok u -> checkAll f l = Ok tt.
Proof. by destruct u. Qed.

(** A placeholder names a declared port, or leaves the choice to the ports
    whose name is that of a port of metrics. *)
Definition declared (jobName : string) (ports : ManifestPorts) (target : string) : Prop :=
  portKeyOf target <> "" /\ exists key, is_Some (ports !! key)
  /\ if String.eqb (portKeyOf target) ImplicitPortKey then ResolveMetricsPortKey jobName ports = Ok key else key = portKeyOf target.
Lemma validatePortPlaceholder_ok jobName ports target : validatePortPlaceholder jobName ports target = Ok tt -> declared jobName ports target.
Proof.
  unfold validatePortPlaceholder, declared. destruct (String.eqb_spec (portKeyOf target) "") as [|Hne]; [done|].
  intros (key & Hk & Hp)%rbind_ok. split; [done|]. exists key. destruct (ports !! key) eqn:Ep; [|done]. split; [by eexists|].
  destruct (String.eqb _ _); [done|by injection Hk].
Qed.
Section valid.
Context `{Unicode}.
Record scrapable (jobName : string) (ports : ManifestPorts) (cfg : Config) : Prop := {
  no_discovery : forall key, key ∈ forbiddenServiceDiscoveryKeys -> field cfg key = None;
  has_name : exists label, field cfg "job_name" = Some (YString label) /\ TrimSpace label <> "";
  ports_declared : forall target, target ∈ portPlaceholders cfg -> declared jobName ports target;
}.
Lemma validateConfig_ok cfg : validateConfig cfg = Ok tt -> (forall key, key ∈ forbiddenServiceDiscoveryKeys -> field cfg key = None)
  /\ exists label, field cfg "job_name" = Some (YString label) /\ TrimSpace label <> "".
Proof.
  unfold validateConfig. intros (u & Hk%checkAll_unit%checkAll_ok & Hn)%rbind_ok. split.
  - intros key Hin. pose proof (proj1 (Forall_forall _ _) Hk key Hin) as Hkey. cbn beta in Hkey. by destruct (field cfg key).
  - revert Hn. unfold jobLabel. destruct (field cfg "job_name") as [[label| | |]|]; try done. intros Hn. exists label. split; [done|].
    intros E. by rewrite E in Hn.
Qed.
Lemma scrapable_ok jobName ports configs : ValidateScrapeConfigs configs = Ok tt -> ValidateScrapePortReferences jobName ports configs = Ok tt ->
  Forall (scrapable jobName ports) configs.
Proof.
  intros Hc%checkAll_ok Hp%checkAll_ok. apply Forall_forall. intros cfg Hcfg.
  pose proof (validateConfig_ok cfg (proj1 (Forall_forall _ _) Hc cfg Hcfg)) as [H1 H2]. split; [done..|].
  intros target Ht. pose proof (proj1 (Forall_forall _ _) Hp cfg Hcfg) as Hl%checkAll_ok.
  apply validatePortPlaceholder_ok, (proj1 (Forall_forall _ _) Hl target Ht).
Qed.
End valid.

Lemma own_spec dup jobName names : forall owners owners', foldR (own dup jobName) owners names = Ok owners' ->
  NoDup names /\ (forall name, name ∈ names -> owners !! name = None)
  /\ forall name, is_Some (owners' !! name) <-> name ∈ names \/ is_Some (owners !! name).
Proof.
  induction names as [|name names IH]; intros owners owners'; cbn [foldR].
  { intros [= <-]. split_and!; [constructor|by intros ? ?%elem_of_nil|]. intros name. rewrite elem_of_nil. tauto. }
  unfold own at 1. destruct (owners !! name) eqn:En; [done|]. cbn [rbind]. intros (Hnd & Hnew & Hall)%IH.
  assert (Hn : name ∉ names) by (intros Hin; specialize (Hnew name Hin); by rewrite lookup_insert_eq in Hnew).
  split_and!; [by constructor| |].
  - intros other [->|Hin]%elem_of_cons; [done|]. specialize (Hnew other Hin). by apply lookup_insert_None in Hnew as [? _].
  - intros other. rewrite Hall, elem_of_cons, lookup_insert_is_Some'. naive_solver.
Qed.

(** ** Facts: what a catalog puts in the store *)

(** The configurations of the jobs that have some. *)
Notation Scrapes := (list (string * list Config)).
Definition putNames (s : Store) (found : Scrapes) : Store := foldl (fun s jc => syncJobScrapeNameKV s jc.1 jc.2) s found.
Definition allNames (found : Scrapes) : list string := flat_map (fun jc => resolvedNames jc.1 jc.2) found.

Section facts.
Context `{Unicode} `{FloatText} (disk : Disk) (eng : Engines) (t : Tables) (db : DB) (bucketID : string).

Definition jsonOf (configs : list Config) : string := default "" (marshalJSON eng configs).
Definition perJob (found : Scrapes) : Vars := foldl (fun vars jc => <["scrape/" +:+ jc.1 := jsonOf jc.2]> vars) ∅ found.
Definition servedOf (found : Scrapes) : Scrapes := List.filter (fun jc => served db jc.1 jc.2) found.
Definition catalogValues (found : Scrapes) : Vars :=
  <["scrape_configs" := jsonOf (flat_map snd (servedOf found))]> (<["scrape_jobs" := Join (map fst (servedOf found)) ","]>
    (<["scrape_jobs_length" := Itoa (Z.of_nat (length (servedOf found)))]> (perJob found))).
(** A job without a file of scrape configurations. *)
Definition scrapeAbsent (jobName : string) : bool :=
  match osReadFile disk (if osStat disk (JobScrapeTplPath jobName) then JobScrapeTplPath jobName else JobScrapePath jobName) with
  | NotExist => true
  | _ => false
  end.
(** Where the configurations of a job come from. *)
Definition scraped (jc : string * list Config) : Prop :=
  exists s data manifest, ReadScrapeFileContent disk eng t s jc.1 = Ok (Some data) /\ LoadManifest disk eng jc.1 = Ok manifest
  /\ ParseScrapeFile eng data = Ok jc.2 /\ jc.2 <> [] /\ Forall (scrapable jc.1 (rPorts (mResources manifest))) jc.2
  /\ is_Some (marshalJSON eng jc.2).

Record aggregated (s : Store) (names : list string) (found : Scrapes) (ag : Aggregate) : Prop := {
  ag_store : agStore ag = putNames s found;
  ag_jobs : map fst found = List.filter (fun jobName => negb (scrapeAbsent jobName)) names;
  ag_scraped : Forall scraped found;
  ag_unexpanded : agUnexpanded ag = flat_map snd (servedOf found);
  ag_served : agScrapeJobs ag = map fst (servedOf found);
  ag_values : agValues ag = perJob found;
  ag_unique : NoDup (allNames found);
  ag_owned : forall name, is_Some (agJobNames ag !! name) <-> name ∈ allNames found;
}.

Lemma ReadScrape_absent s jobName data : ReadScrapeFileContent disk eng t s jobName = Ok data ->
  scrapeAbsent jobName = match data with None => true | Some _ => false end.
Proof.
  unfold ReadScrapeFileContent, scrapeAbsent. intros (u & _ & E)%rbind_ok. revert E.
  destruct (osStat disk (JobScrapeTplPath jobName)); unfold readScrape; destruct (osReadFile disk _); try done; try (by intros [= <-]);
    by intros (d & _ & [= <-])%rbind_ok.
Qed.
Lemma parseScrape_ok jobName data configs : parseScrape disk eng jobName data = Ok configs -> exists manifest,
  LoadManifest disk eng jobName = Ok manifest /\ ParseScrapeFile eng data = Ok configs /\ configs <> []
  /\ Forall (scrapable jobName (rPorts (mResources manifest))) configs.
Proof.
  unfold parseScrape. intros (m & Em & E)%rbind_ok. apply rbind_ok in E as (cfgs & Ep & E). apply rbind_ok in E as (u & Ec & E).
  apply rbind_ok in E as (u' & Er & [= ->]). destruct (ParseScrapeFile eng data) as [cfgs'|] eqn:Epf; [|done]. injection Ep as ->.
  exists m. split_and!; [done..| |].
  - revert Epf. unfold ParseScrapeFile. destruct (negb _); [done|]. intros (l & _ & El)%rbind_ok. destruct l; [done|]. by injection El as <-.
  - apply scrapable_ok.
    + destruct (ValidateScrapeConfigs configs) as [[]|]; done.
    + destruct (ValidateScrapePortReferences jobName _ configs) as [[]|]; done.
Qed.

Lemma addScrape_ok s names found ag jobName data ag' sto : aggregated s names found ag ->
  ReadScrapeFileContent disk eng t sto jobName = Ok (Some data) -> addScrape disk eng db ag jobName data = Ok ag' ->
  exists configs, aggregated s (names ++ [jobName]) (found ++ [(jobName, configs)]) ag'.
Proof.
  intros [H1 H2 H3 H4 H5 H6 H7 H8] Hr. unfold addScrape. intros (configs & Ec & E)%rbind_ok. apply rbind_ok in E as (owned & Eo & E).
  apply rbind_ok in E as (json & Ej & E). apply rbind_ok in E as (u & _ & E). exists configs.
  apply parseScrape_ok in Ec as (m & Em & Ep & Hne & Hs). apply own_spec in Eo as (Hnd & Hnew & Hown).
  assert (Hjson : marshalJSON eng configs = Some json) by (destruct (marshalJSON eng configs); [by injection Ej as ->|done]).
  assert (Hall : allNames (found ++ [(jobName, configs)]) = allNames found ++ resolvedNames jobName configs).
  { unfold allNames. rewrite flat_map_app. cbn. by rewrite app_nil_r. }
  assert (Hput : putNames s (found ++ [(jobName, configs)]) = syncJobScrapeNameKV (agStore ag) jobName configs).
  { unfold putNames. rewrite foldl_app. cbn. by rewrite H1. }
  assert (Hper : perJob (found ++ [(jobName, configs)]) = <["scrape/" +:+ jobName := json]> (agValues ag)).
  { unfold perJob. rewrite foldl_app. cbn. rewrite H6. unfold jsonOf. by rewrite Hjson. }
  assert (Hsrv : servedOf (found ++ [(jobName, configs)]) = servedOf found ++ if served db jobName configs then [(jobName, configs)] else []).
  { unfold servedOf. rewrite List.filter_app. cbn. by destruct (served _ _ _). }
  assert (Hfields : agStore ag' = syncJobScrapeNameKV (agStore ag) jobName configs /\ agValues ag' = <["scrape/" +:+ jobName := json]> (agValues ag)
    /\ agJobNames ag' = owned /\ agUnexpanded ag' = agUnexpanded ag ++ (if served db jobName configs then configs else [])
    /\ agScrapeJobs ag' = agScrapeJobs ag ++ (if served db jobName configs then [jobName] else [])).
  { destruct (served db jobName configs); injection E as <-; cbn; rewrite ?app_nil_r; done. }
  destruct Hfields as (F1 & F2 & F3 & F4 & F5). split.
  - by rewrite F1, Hput.
  - rewrite map_app, List.filter_app, H2. cbn. by rewrite (ReadScrape_absent _ _ _ Hr).
  - apply Forall_app. split; [done|]. constructor; [|constructor]. exists sto, data, m. split_and!; [done..|]. cbn [snd]. rewrite Hjson. by eexists.
  - rewrite F4, Hsrv, H4, flat_map_app. f_equal. destruct (served db jobName configs); cbn; [by rewrite app_nil_r|done].
  - rewrite F5, Hsrv, H5, map_app. f_equal. by destruct (served db jobName configs).
  - by rewrite F2, Hper.
  - rewrite Hall. apply NoDup_app. split_and!; [done| |done]. intros name Hn Hin. apply H8 in Hn as [owner Ho]. by rewrite Hnew in Ho.
  - intros name. rewrite F3, Hall, Hown, H8, elem_of_app. tauto.
Qed.
Lemma catalogJob_ok s names found ag jobName ag' : aggregated s names found ag -> catalogJob disk eng t db bucketID ag jobName = Ok ag' ->
  exists found', aggregated s (names ++ [jobName]) found' ag'.
Proof.
  intros Ha. unfold catalogJob. cbv zeta. intros E. do 7 apply rbind_ok in E as (? & _ & E). apply rbind_ok in E as (data & Hr & E).
  assert (Ha' : aggregated s names found (mkAggregate (agStore ag) (agUnexpanded ag) (agScrapeJobs ag) (agJobNames ag) x4 (agValues ag))) by (by destruct Ha).
  destruct data as [data|]; [by destruct (addScrape_ok _ _ _ _ _ _ _ _ Ha' Hr E) as [configs ?]; eexists|]. injection E as <-.
  exists found. destruct Ha' as [H1 H2 H3 H4 H5 H6 H7 H8]. split; [done| |done..].
  rewrite List.filter_app, H2. cbn. by rewrite (ReadScrape_absent _ _ _ Hr), app_nil_r.
Qed.
Lemma catalogJobs_ok s l : forall names found ag ag', aggregated s names found ag -> foldR (catalogJob disk eng t db bucketID) ag l = Ok ag' ->
  exists found', aggregated s (names ++ l) found' ag'.
Proof.
  induction l as [|jobName l IH]; intros names found ag ag' Ha; cbn [foldR]; [intros [= <-]; rewrite app_nil_r; by eexists|].
  intros (ag1 & E1 & E)%rbind_ok. destruct (catalogJob_ok _ _ _ _ _ _ Ha E1) as (found1 & Ha1).
  destruct (IH _ _ _ _ Ha1 E) as (found' & Ha'). rewrite <- app_assoc in Ha'. by eexists.
Qed.

(** The catalog of the jobs [names]: nothing without a server of Prometheus,
    else the configurations of the jobs that have a file of them. *)
Definition catalogOf (names : list string) (found : Scrapes) : Vars := if hasPrometheusServerJob disk names then catalogValues found else noCatalog.
Record catalogued (names : list string) (found : Scrapes) : Prop := {
  cat_jobs : map fst found = if hasPrometheusServerJob disk names then List.filter (fun jobName => negb (scrapeAbsent jobName)) names else [];
  cat_scraped : Forall scraped found;
  cat_unique : NoDup (allNames found);
}.
Lemma syncCatalog_ok s values s' : syncCatalog s values = Ok s' -> syncPrometheusKV s values = Ok s'.
Proof. unfold syncCatalog. destruct (syncPrometheusKV s values); [by intros [= ->]|done]. Qed.
Lemma BuildCatalog_outcome s s' : BuildCatalog disk eng t db bucketID s = Ok s' -> exists names found, sortedJobs disk = Ok names
  /\ catalogued names found /\ syncPrometheusKV (putNames s found) (catalogOf names found) = Ok s'.
Proof.
  unfold BuildCatalog. intros (names & En & E)%rbind_ok. exists names. unfold catalogOf. destruct (hasPrometheusServerJob disk names) eqn:Eh; cbn [negb] in E.
  - apply rbind_ok in E as (ag & Ea & E). apply rbind_ok in E as (json & Ej & E).
    destruct (catalogJobs_ok s names [] [] (mkAggregate s [] [] ∅ ∅ ∅) ag) as [found [H1 H2 H3 H4 H5 H6 H7 H8]]; [|done|].
    { split; cbn; try done; try by constructor. intros name. rewrite lookup_empty. split; [by intros [? ?]|by intros ?%elem_of_nil]. }
    exists found. split_and!; [done|by split; rewrite ?Eh|]. unfold catalogValues, jsonOf. rewrite <- H1, <- H4, <- H5, <- H6.
    destruct (marshalJSON eng _); [|done]. injection Ej as ->. unfold default, id. apply syncCatalog_ok. rewrite H5, length_map in E. by rewrite H5.
  - exists []. split_and!; [exact En|split; rewrite ?Eh; [reflexivity|constructor|constructor]|]. apply syncCatalog_ok. exact E.
Qed.
(** Without a server of Prometheus there is nothing to refuse. *)
Lemma BuildCatalog_idle names s : sortedJobs disk = Ok names -> hasPrometheusServerJob disk names = false ->
  exists s', BuildCatalog disk eng t db bucketID s = Ok s'.
Proof.
  intros En Eh. unfold BuildCatalog. rewrite En. cbn [rbind]. rewrite Eh. cbn [negb]. unfold syncCatalog.
  destruct (syncPrometheusKV_spec s noCatalog) as (s' & -> & _). by eexists.
Qed.
Lemma catalogued_configs names found : catalogued names found -> Forall (fun jc => jc.2 <> []) found.
Proof. intros [_ Hs _]. eapply Forall_impl; [exact Hs|]. by intros jc (? & ? & ? & ? & ? & ? & Hne & _). Qed.
Lemma catalogued_sublist names found : catalogued names found -> map fst found `sublist_of` names.
Proof.
  intros [Hj _ _]. rewrite Hj. destruct (hasPrometheusServerJob disk names); [|apply sublist_nil_l]. clear Hj. induction names as [|a l IH]; [constructor|].
  cbn. destruct (negb _); by constructor.
Qed.
End facts.

(** ** Facts: the writes of a catalog *)

Lemma jobNamespace_inj a b : jobNamespace a = jobNamespace b -> a = b.
Proof. unfold jobNamespace. cbn. by intros [= ->]. Qed.
Lemma jobNamespace_prometheus a : jobNamespace a <> KVNamespace.
Proof. unfold jobNamespace, KVNamespace. cbn. discriminate. Qed.
Section writes.
Context `{Unicode}.
Lemma putName_find s jobName configs n k : n <> jobNamespace jobName \/ k <> "job_name" -> find (syncJobScrapeNameKV s jobName configs) n k = find s n k.
Proof. intros Hn. unfold syncJobScrapeNameKV. destruct configs; [done|]. rewrite Put_find, decide_False; [done|naive_solver]. Qed.
Lemma putNames_find found : forall s n k, (forall job, job ∈ map fst found -> n <> jobNamespace job) \/ k <> "job_name" ->
  find (putNames s found) n k = find s n k.
Proof.
  unfold putNames. induction found as [|[job configs] found IH]; intros s n k Hn; cbn [foldl]; [done|]. rewrite IH.
  - apply putName_find. destruct Hn as [Hn|Hn]; [left; apply Hn; left|by right].
  - destruct Hn as [Hn|Hn]; [left|by right]. intros job' Hj. apply Hn. by right.
Qed.
(** The name of a job is that of its first configuration. *)
Definition scrapeName (jobName : string) (configs : list Config) : string := default "" (head (resolvedNames jobName configs)).
Lemma putNames_view found : NoDup (map fst found) -> forall s job configs, (job, configs) ∈ found -> configs <> [] ->
  view (putNames s found) (jobNamespace job) "job_name" = Some (TrimSpace (scrapeName job configs), 0).
Proof.
  unfold putNames. induction found as [|[job' configs'] found IH]; intros Hnd s job configs; [by intros ?%elem_of_nil|]. cbn [foldl fst snd].
  cbn [map fst] in Hnd. apply NoDup_cons in Hnd as [Hnew Hnd]. intros [[= -> ->]|Hin]%elem_of_cons Hne; [|by apply IH].
  fold (putNames (syncJobScrapeNameKV s job' configs') found). rewrite (view_find (syncJobScrapeNameKV s job' configs')).
  - unfold syncJobScrapeNameKV. destruct configs'; [done|]. unfold view. rewrite Put_find, decide_True by done. apply view_putEntry.
  - apply putNames_find. left. intros job Hj ->%jobNamespace_inj. done.
Qed.

(** What the step of a build leaves of the store. *)
Record promised (values : Vars) (found : Scrapes) (s s' : Store) : Prop := {
  own_catalog : forall k, view s' KVNamespace k = stored values k;
  own_names : forall job configs, (job, configs) ∈ found -> view s' (jobNamespace job) "job_name" = Some (TrimSpace (scrapeName job configs), 0);
  own_frame : forall n k, n <> KVNamespace -> (forall job, job ∈ map fst found -> n <> jobNamespace job) \/ k <> "job_name" -> find s' n k = find s n k;
}.
Lemma sync_promised values found s s' : NoDup (map fst found) -> Forall (fun jc => jc.2 <> []) found -> syncPrometheusKV (putNames s found) values = Ok s' ->
  promised values found s s'.
Proof.
  intros Hnd Hne E. destruct (syncPrometheusKV_spec (putNames s found) values) as (s1 & E1 & V & O). rewrite E in E1. injection E1 as <-. split; [done| |].
  - intros job configs Hin. rewrite (view_find (putNames s found)) by (apply O, jobNamespace_prometheus).
    apply putNames_view; [done..|]. exact (proj1 (Forall_forall _ _) Hne _ Hin).
  - intros n k Hn Hk. rewrite O by done. by apply putNames_find.
Qed.
End writes.
