(* ===== verification/BuildCerts.v ===== *)
(** * build: the certificates of allocations

    build/build_certs.go and cert_renewal.go over the tables of [BuildJobs],
    the allocations and the session's store. PEM, X.509, RSA and the random
    numbers of Go's library are arguments: the draws of a build are numbered,
    and a draw is a function of its number. Times are nanoseconds, and every
    certificate of a build is made at the same one. The directory of temporary
    files is a map from paths; an error of the disk is left out. *)
From S2P Require Import Prelude GoStrings Utils Kv Ports AllocState JobConf BucketConf Catalog Placement HashTree JobTree BuildVars BuildJobs.
Open Scope Z_scope.

(** ** Renewal (cert_renewal.go) *)

Definition Hour : Z := 3600000000000.
(** [time.Duration(days) * 24 * time.Hour] *)
Definition days (n : Z) : Z := wrap64 (wrap64 (n * 24) * Hour).
Definition CertNeedsRenewal (notAfter renewalBufferDays now : Z) : bool :=
  if negb (now <? notAfter) then true
  else if renewalBufferDays <=? 0 then false
  else negb (now <? notAfter + days (- renewalBufferDays)).

(** ** Certificates of a job *)

Record PkixName := mkName {
  nCommonName : string;
  nOrganization : list string;
  nOrganizationalUnit : list string;
  nCountry : list string;
  nProvince : list string;
  nLocality : list string;
}.
Definition nonEmptySlice (s : string) : list string := if String.eqb s "" then [] else [s].
Definition pkixSubject (s : CertSubject) : PkixName :=
  mkName (CommonName s) (nonEmptySlice (Organization s)) (nonEmptySlice (OrganizationalUnit s)) (nonEmptySlice (Country s))
    (nonEmptySlice (Province s)) (nonEmptySlice (Locality s)).
Record jobCertSpec := mkSpec { csName : string; csPKCS8 : bool; csOne : bool; csExternal : bool; csSubject : PkixName }.
Definition loadJobCertSpecs (t : Tables) (jobName : string) : list jobCertSpec :=
  match GetJobID (catalog t) jobName with
  | None => []
  | Some id => map (fun r => mkSpec (crName r) (crPKCS8 r) (crOne r) (crExternal r) (pkixSubject (crSubject r)))
                 (List.filter (fun r => String.eqb (crJobID r) id) (job_certs t))
  end.
(** The fields of an x509.Certificate that the template sets. *)
Record Template := mkTemplate { tSerial : Z; tSubject : PkixName; tIPs : list string; tNotBefore : Z; tNotAfter : Z }.

Inductive certs_error :=
| SecretUnreadable (name : string)
| SecretPEM (name : string)
| SecretMalformed (name : string)
| NoRandom
| CertificateFailed
| KeyFailed
| ExternalUnreadable (job file : string)
| ExternalInvalid (job file : string)
| StoredCertificate
| CertStore (e : kv_error)
| TempUnreadable (path : string)
| CertSettings.

Record CertState := mkCertState { stStore : Store; stFiles : gmap string string; stDrawn : nat }.
Definition setStore (s : CertState) (store : Store) : CertState := mkCertState store (stFiles s) (stDrawn s).
Definition writeFile (s : CertState) (path content : string) : CertState := mkCertState (stStore s) (<[path := content]> (stFiles s)) (stDrawn s).
Definition draw (s : CertState) : CertState := mkCertState (stStore s) (stFiles s) (S (stDrawn s)).
Definition of_store (s : CertState) (r : result kv_error Store) : result certs_error CertState :=
  match r with Ok store => Ok (setStore s store) | Err e => Err (CertStore e) end.
Definition need {A} (e : certs_error) (o : option A) : result certs_error A := match o with Some a => Ok a | None => Err e end.

Section certs.
Context {C P : Type}.
(** [pem.Decode]: the type and the bytes of the first block; [pem.Encode]. *)
Variable pemDecode : string -> option (string * string).
Variable pemEncode : string -> string -> string.
Variable parseCertificate : string -> option C.
Variable certNotAfter : C -> Z.
Variable parsePKCS1 : string -> option P.
(** [Some None] is a key that is not RSA. *)
Variable parsePKCS8 : string -> option (option P).
Variable marshalPKCS1 : P -> string.
Variable marshalPKCS8 : P -> option string.
(** [net.ParseIP]: the bytes of an address, none for other texts. *)
Variable ParseIP : string -> string.
Variable randomSerial : nat -> option Z.
Variable generateKey : nat -> option P.
(** The template, signed by a certificate and its key, for a private key. *)
Variable createCertificate : Template -> C -> P -> P -> option string.
Variable md5 : string -> list Z.
(** The files of secrets and the external certificates of the workspace. *)
Variable secretFile : string -> option string.
Variable readCertFile : string -> option string.
Variable TempLocation : string.
Variable bucketSettings : result certs_error BucketSettings.
Variable now : Z.

Definition certNamespace (jobName workerIP : string) : string := "kive/job/" +:+ jobName +:+ "/worker/" +:+ workerIP.
Definition certKey (name suffix : string) : string := "certs/" +:+ name +:+ suffix.

(** ** External certificates *)

Definition validateExternalCertPEM (jobName certName certPEM keyPEM : string) : result certs_error unit :=
  let badCert := ExternalInvalid jobName (certName +:+ ".crt") in
  let badKey := ExternalInvalid jobName (certName +:+ ".key") in
  match pemDecode certPEM with
  | Some ("CERTIFICATE", der) =>
      let? _ := need badCert (parseCertificate der) in
      match pemDecode keyPEM with
      | Some ("RSA PRIVATE KEY", der) => let? _ := need badKey (parsePKCS1 der) in Ok tt
      | Some ("PRIVATE KEY", der) => let? parsed := need badKey (parsePKCS8 der) in let? _ := need badKey parsed in Ok tt
      | _ => Err badKey
      end
  | _ => Err badCert
  end.
Definition loadExternalCertPEM (jobName certName : string) : result certs_error (string * string) :=
  let '(crt, key) := ExternalCertPaths jobName certName in
  let? certPEM := need (ExternalUnreadable jobName (certName +:+ ".crt")) (readCertFile crt) in
  let? keyPEM := need (ExternalUnreadable jobName (certName +:+ ".key")) (readCertFile key) in
  let? _ := validateExternalCertPEM jobName certName certPEM keyPEM in
  Ok (certPEM, keyPEM).

(** ** When a certificate is made again *)

Definition certPEMExpiringSoon (certPEM : string) (renewalBufferDays : Z) : result certs_error bool :=
  match pemDecode certPEM with
  | None => Ok true
  | Some (_, der) =>
      match parseCertificate der with
      | None => Err StoredCertificate
      | Some cert => Ok (CertNeedsRenewal (certNotAfter cert) renewalBufferDays now)
      end
  end.
Definition IsCertExpiringSoon (s : CertState) (certPath : string) (days : Z) : result certs_error bool :=
  let? certPEM := need (TempUnreadable certPath) (stFiles s !! certPath) in certPEMExpiringSoon certPEM days.
(** The value, empty when it is not there. *)
Definition storedValue (s : Store) (namespace key : string) : result certs_error string :=
  match Get s namespace key with
  | Ok e => Ok (EValue e)
  | Err e => if isNotFound e then Ok "" else Err (CertStore e)
  end.
Definition workerCertNeedsRegeneration (s : Store) (jobName workerIP certName : string) (renewalBufferDays : Z) : result certs_error bool :=
  let namespace := certNamespace jobName workerIP in
  let? storedKey := storedValue s namespace (certKey certName ".key") in
  if String.eqb storedKey "" then Ok true
  else
    let? storedCert := storedValue s namespace (certKey certName ".crt") in
    if String.eqb storedCert "" then Ok true else certPEMExpiringSoon storedCert renewalBufferDays.
Fixpoint anyNeedsRegeneration (s : Store) (jobName certName : string) (renewalBufferDays : Z) (workerIPs : list string) : result certs_error bool :=
  match workerIPs with
  | [] => Ok false
  | workerIP :: workerIPs =>
      let? needs := workerCertNeedsRegeneration s jobName workerIP certName renewalBufferDays in
      if needs : bool then Ok true else anyNeedsRegeneration s jobName certName renewalBufferDays workerIPs
  end.
Definition certNeedsRegeneration (s : Store) (jobName certName : string) (jobRegenerate : bool) (workerIPs : list string)
    (renewalBufferDays : Z) : result certs_error bool :=
  if jobRegenerate then Ok true else anyNeedsRegeneration s jobName certName renewalBufferDays workerIPs.

(** ** Making a certificate *)

Definition workerCertDir (workerIP jobDir : string) : string := path_Join [TempLocation; "workers"; workerIP; jobDir; "certs"].
Definition marshalPrivateKey (privateKey : P) (usePKCS8 : bool) : result certs_error (string * string) :=
  if usePKCS8 then let? der := need KeyFailed (marshalPKCS8 privateKey) in Ok ("PRIVATE KEY"%string, der)
  else Ok ("RSA PRIVATE KEY"%string, marshalPKCS1 privateKey).
Definition certTemplate (serial : Z) (subject : PkixName) (ipAddresses : list string) (ttlDays : Z) : Template :=
  mkTemplate serial subject (ParseIP "127.0.0.1" :: map ParseIP ipAddresses) now (now + days ttlDays).
Definition GenerateCert (s : CertState) (certPath name : string) (subject : PkixName) (ipAddresses : list string) (ttlDays : Z)
    (usePKCS8 : bool) : result certs_error CertState :=
  let? caCertPEM := need (SecretUnreadable "ca.crt") (secretFile "ca.crt") in
  let? caKeyPEM := need (SecretUnreadable "ca.key") (secretFile "ca.key") in
  let? (_, caCertDER) := need (SecretPEM "ca.crt") (pemDecode caCertPEM) in
  let? caCert := need (SecretMalformed "ca.crt") (parseCertificate caCertDER) in
  let? (_, caKeyDER) := need (SecretPEM "ca.key") (pemDecode caKeyPEM) in
  let? caKey := need (SecretMalformed "ca.key") (parsePKCS1 caKeyDER) in
  let? serialNumber := need NoRandom (randomSerial (stDrawn s)) in
  let? privateKey := need NoRandom (generateKey (stDrawn s)) in
  let? certBytes := need CertificateFailed
    (createCertificate (certTemplate serialNumber subject ipAddresses ttlDays) caCert privateKey caKey) in
  let s := writeFile (draw s) (path_Join [certPath; name +:+ ".crt"]) (pemEncode "CERTIFICATE" certBytes) in
  let? (type, keyBytes) := marshalPrivateKey privateKey usePKCS8 in
  Ok (writeFile s (path_Join [certPath; name +:+ ".key"]) (pemEncode type keyBytes)).
Definition readCertFiles (s : CertState) (certPath certName : string) : result certs_error (string * string) :=
  let crt := path_Join [certPath; certName +:+ ".crt"] in
  let key := path_Join [certPath; certName +:+ ".key"] in
  let? certPEM := need (TempUnreadable crt) (stFiles s !! crt) in
  let? keyPEM := need (TempUnreadable key) (stFiles s !! key) in
  Ok (certPEM, keyPEM).
Definition writeCertFiles (s : CertState) (certPath certName certPEM keyPEM : string) : CertState :=
  writeFile (writeFile s (path_Join [certPath; certName +:+ ".crt"]) certPEM) (path_Join [certPath; certName +:+ ".key"]) keyPEM.

(** What the store has for a worker. *)
Definition storedCertPEM (s : CertState) (jobName workerIP : string) (spec : jobCertSpec) : result certs_error (string * string) :=
  let get suffix := match Get (stStore s) (certNamespace jobName workerIP) (certKey (csName spec) suffix) with
                    | Ok e => Ok (EValue e) | Err e => Err (CertStore e) end in
  let? certPEM := get ".crt" in let? keyPEM := get ".key" in Ok (certPEM, keyPEM).
Definition buildSharedCertPEM (s : CertState) (jobName jobDir : string) (spec : jobCertSpec) (workerIPs : list string) (regenerate : bool)
    (ttlDays : Z) : result certs_error (CertState * (string * string)) :=
  let firstWorker := default "" (head workerIPs) in
  if regenerate then
    let certPath := workerCertDir firstWorker jobDir in
    let? s := GenerateCert s certPath (csName spec) (csSubject spec) workerIPs ttlDays (csPKCS8 spec) in
    let? (certPEM, keyPEM) := readCertFiles s certPath (csName spec) in
    Ok (foldl (fun s workerIP => writeCertFiles s (workerCertDir workerIP jobDir) (csName spec) certPEM keyPEM) s workerIPs, (certPEM, keyPEM))
  else let? pems := storedCertPEM s jobName firstWorker spec in Ok (s, pems).
Definition buildWorkerCertPEM (s : CertState) (jobName jobDir workerIP : string) (spec : jobCertSpec) (regenerate : bool) (ttlDays : Z)
    : result certs_error (CertState * (string * string)) :=
  let certPath := workerCertDir workerIP jobDir in
  if regenerate then
    let? s := GenerateCert s certPath (csName spec) (csSubject spec) [workerIP] ttlDays (csPKCS8 spec) in
    let? pems := readCertFiles s certPath (csName spec) in Ok (s, pems)
  else let? pems := storedCertPEM s jobName workerIP spec in Ok (s, pems).

(** ** The certificates of a job *)

Notation CertVariables := (gmap string Vars).
Definition addCertVariables (vars : CertVariables) (jobName workerIP certName : string) (pems : string * string) : CertVariables :=
  let namespace := certNamespace jobName workerIP in
  <[namespace := <[certKey certName ".key" := pems.2]> (<[certKey certName ".crt" := pems.1]> (default ∅ (vars !! namespace)))]> vars.
Definition addForWorkers (vars : CertVariables) (jobName : string) (workerIPs : list string) (certName : string) (pems : string * string)
    : CertVariables :=
  foldl (fun vars workerIP => addCertVariables vars jobName workerIP certName pems) vars workerIPs.
Definition buildOwnCert (jobName jobDir : string) (settings : BucketSettings) (spec : jobCertSpec) (regenerate : bool)
    (st : CertState * CertVariables) (workerIP : string) : result certs_error (CertState * CertVariables) :=
  let '(s, vars) := st in
  let? workerRegenerate :=
    if regenerate then Ok true
    else workerCertNeedsRegeneration (stStore s) jobName workerIP (csName spec) (bsCertsRenewalBuffer settings) in
  let? (s, pems) := buildWorkerCertPEM s jobName jobDir workerIP spec workerRegenerate (bsCertsTTL settings) in
  Ok (s, addCertVariables vars jobName workerIP (csName spec) pems).
Definition buildCertSpec (jobName jobDir : string) (workerIPs : list string) (settings : BucketSettings) (jobRegenerate : bool)
    (st : CertState * CertVariables) (spec : jobCertSpec) : result certs_error (CertState * CertVariables) :=
  let '(s, vars) := st in
  if csExternal spec then
    let? pems := loadExternalCertPEM jobName (csName spec) in
    Ok (s, addForWorkers vars jobName workerIPs (csName spec) pems)
  else
    let? regenerate := certNeedsRegeneration (stStore s) jobName (csName spec) jobRegenerate workerIPs (bsCertsRenewalBuffer settings) in
    if csOne spec then
      let? (s, pems) := buildSharedCertPEM s jobName jobDir spec workerIPs regenerate (bsCertsTTL settings) in
      Ok (s, addForWorkers vars jobName workerIPs (csName spec) pems)
    else foldR (buildOwnCert jobName jobDir settings spec regenerate) (s, vars) workerIPs.
Definition purgeJobAllocationCertKV (s : CertState) (jobName : string) (workerIPs : list string) : result certs_error CertState :=
  of_store s (foldR (fun store workerIP => syncCertKeyValues store (certNamespace jobName workerIP) ∅) (stStore s) workerIPs).
Definition buildJobCerts (db : DB) (caChanged : bool) (ts : Tables * CertState) (jobName : string) : result certs_error (Tables * CertState) :=
  let '(t, s) := ts in
  let jobDir := path_Join ["jobs"; jobName] in
  let jobRegenerate := caChanged || HashChanged t "build_certs" jobName in
  let workerIPs := GetNonRemovedAllocations db jobName in
  let certSpecs := loadJobCertSpecs t jobName in
  if (length certSpecs =? 0)%nat || (length workerIPs =? 0)%nat then
    let? s := purgeJobAllocationCertKV s jobName (GetAllocatedWorkers db jobName) in
    Ok (PromoteHash "build_certs" jobName t, s)
  else
    let? settings := bucketSettings in
    let? (s, vars) := foldR (buildCertSpec jobName jobDir workerIPs settings jobRegenerate) (s, ∅) certSpecs in
    let? s := of_store s (foldR (fun store nv => syncCertKeyValues store nv.1 nv.2) (stStore s) (map_to_list vars)) in
    Ok (PromoteHash "build_certs" jobName t, s).
Definition BuildCerts (db : DB) (t : Tables) (s : CertState) : result certs_error (Tables * CertState) :=
  let? caHash := need (SecretUnreadable "ca.crt") (HashBytes md5 <$> secretFile "ca.crt") in
  let t := UpdateHash "build" "ca" caHash t in
  let caChanged := HashChanged t "build" "ca" in
  let? (t, s) := foldR (buildJobCerts db caChanged) (t, s) (GetAllAllocatedJobs db) in
  Ok (PromoteHash "build" "ca" t, s).
End certs.
