(* ===== verification/BuildCertsFacts.v ===== *)
(** * build: what a build leaves of the certificates

    A job is settled when every worker of it has every certificate of its
    manifest, none of them due for renewal, and nothing else: a build settles
    every job, and a build of settled jobs changes nothing. *)
From S2P Require Import Prelude GoStrings Utils Kv KvFacts Ports AllocState AllocStateFacts JobConf BucketConf Catalog Placement HashTree PathMatch JobTree BuildVars BuildVarsFacts BuildJobs BuildCerts.
Open Scope Z_scope.

(** ** Names of files and of keys *)


Lemma Split_app_suffix y suf : no_byte slash suf = true ->
  exists l e, Split y slash = l ++ [e] /\ Split (y +:+ suf) slash = l ++ [e +:+ suf].
Proof.
  intros Hs. induction y as [|c y (l & e & E1 & E2)]; cbn [String.append].
  - exists [], "". rewrite (Split_no_byte suf) by done. done.
  - cbn [Split]. rewrite E1, E2. case_bool_decide as E; [by exists ("" :: l), e|].
    destruct l as [|a l]; [by exists [], (String c e)|by exists (String c a :: l), e].
Qed.
Lemma path_Clean_last p suf : no_byte slash suf = true -> (3 <= String.length suf)%nat -> HasSuffix (path_Clean (p +:+ suf)) suf = true.
Proof.
  intros Hs Hl. destruct (Split_app_suffix p suf Hs) as (l & y & _ & E).
  assert (Hlen : (3 <= String.length (y +:+ suf))%nat) by (rewrite slen_app; lia).
  set (e := y +:+ suf) in *. unfold path_Clean. destruct (String.eqb (p +:+ suf) "") eqn:E0.
  { apply String.eqb_eq, (f_equal String.length) in E0. rewrite slen_app in E0. cbn in E0. lia. }
  rewrite E.
  assert (Happ : forall r a b out, cleanElements r out (a ++ b) = cleanElements r (cleanElements r out a) b).
  { intros r. induction a as [|x a IH]; intros b out; cbn [app cleanElements]; [done|apply IH]. }
  rewrite Happ. cbn [cleanElements]. rewrite !(proj2 (String.eqb_neq e _)) by (intros ->; cbn in Hlen; lia). cbn [orb rev].
  rewrite Join_dirSlash. unfold e.
  assert (Hend : forall x, HasSuffix (x +:+ (y +:+ suf)) suf = true) by (intros x; rewrite <- sapp_assoc; apply HasSuffix_app).
  destruct (HasPrefix (p +:+ suf) "/").
  - exact (HasSuffix_app_r "/" _ _ (Hend _)).
  - match goal with |- context[String.eqb ?x ""] => destruct (String.eqb x "") eqn:E1; [|apply Hend] end. apply String.eqb_eq, (f_equal String.length) in E1. rewrite !slen_app in E1. cbn in E1. lia.
Qed.
Lemma path_Join_suffix d x suf : no_byte slash suf = true -> (3 <= String.length suf)%nat -> HasSuffix (path_Join [d; x +:+ suf]) suf = true.
Proof.
  intros Hs Hl. unfold path_Join. cbn [List.filter]. destruct (nonempty_string (x +:+ suf)) eqn:E.
  - destruct (nonempty_string d); cbn [Join]; [|by apply path_Clean_last]. rewrite <- !sapp_assoc. by apply path_Clean_last.
  - unfold nonempty_string in E. apply negb_false_iff, bool_decide_eq_true, (f_equal String.length) in E. rewrite slen_app in E. cbn in E. lia.
Qed.
Lemma cert_files_differ d name d' name' : path_Join [d; name +:+ ".crt"] <> path_Join [d'; name' +:+ ".key"].
Proof.
  intros E. assert (H1 : HasSuffix (path_Join [d; name +:+ ".crt"]) ".crt" = true) by (apply path_Join_suffix; [done|cbn; lia]).
  assert (H2 : HasSuffix (path_Join [d; name +:+ ".crt"]) ".key" = true) by (rewrite E; apply path_Join_suffix; [done|cbn; lia]).
  pose proof (HasSuffix_shorter _ _ _ H1 H2 ltac:(cbn; lia)) as H3. done.
Qed.

Lemma sapp_cancel_r s t u : s +:+ u = t +:+ u -> s = t.
Proof. intros E. rewrite <- (dropEnd_app s u), <- (dropEnd_app t u). by rewrite E. Qed.
Lemma certKey_crt_inj a b : certKey a ".crt" = certKey b ".crt" -> a = b.
Proof. unfold certKey. intros E%sapp_cancel_l. by apply sapp_cancel_r in E. Qed.
Lemma certKey_key_inj a b : certKey a ".key" = certKey b ".key" -> a = b.
Proof. unfold certKey. intros E%sapp_cancel_l. by apply sapp_cancel_r in E. Qed.
Lemma certKey_differ a b : certKey a ".crt" <> certKey b ".key".
Proof.
  unfold certKey. intros E%sapp_cancel_l.
  pose proof (HasSuffix_shorter (a +:+ ".crt") ".crt" ".key" (HasSuffix_app _ _) ltac:(rewrite E; apply HasSuffix_app) ltac:(cbn; lia)). done.
Qed.
Lemma certKey_isCert a suf : isCertKey (certKey a suf) = true.
Proof. done. Qed.
Lemma certNamespace_inj job ip ip' : certNamespace job ip = certNamespace job ip' -> ip = ip'.
Proof. unfold certNamespace. intros E%sapp_cancel_l%sapp_cancel_l. by apply sapp_cancel_l in E. Qed.

(** ** Synchronising many namespaces *)

(** What the store has for a key after the certificates are [vars]. *)
Definition synced (s : Store) (n : string) (vars : Vars) (k : string) : option (string * Z) :=
  match vars !! k with Some v => Some (TrimSpace v, 0) | None => if isCertKey k then None else view s n k end.
Definition syncAll (s : Store) (l : list (string * Vars)) : result kv_error Store :=
  foldR (fun store nv => syncCertKeyValues store nv.1 nv.2) s l.
Lemma syncAll_spec l : (forall n v w, (n, v) ∈ l -> (n, w) ∈ l -> v = w) -> (forall n v k, (n, v) ∈ l -> is_Some (v !! k) -> isCertKey k = true) ->
  forall s, exists s', syncAll s l = Ok s'
    /\ (forall n v k, (n, v) ∈ l -> view s' n k = synced s n v k)
    /\ (forall n k, n ∉ l.*1 \/ isCertKey k = false -> find s' n k = find s n k).
Proof.
  unfold syncAll. induction l as [|[n v] l IH]; intros Hf Hc s; cbn [foldR].
  { exists s. split; [done|]. split; [by intros ? ? ? ?%elem_of_nil|done]. }
  destruct (sync_spec s n v syncKeyPolicyCert) as (s1 & E1 & V1 & O1 & K1). unfold syncCertKeyValues at 1. cbn [fst snd]. rewrite E1. cbn [rbind].
  destruct IH with (s := s1) as (s2 & E2 & V2 & O2).
  { intros m w w' Hw Hw'. apply (Hf m); by right. }
  { intros m w k Hw. apply (Hc m w k). by right. }
  assert (Hnon : forall m k, isCertKey k = false -> find s1 m k = find s m k).
  { intros m k Hk. destruct (decide (m = n)) as [->|Hm]; [|by apply O1]. apply K1; [|unfold spared; by rewrite Hk].
    destruct (v !! k) eqn:Ev; [|done]. rewrite (Hc n v k) in Hk; [done|left|by eexists]. }
  assert (H1 : forall k, view s1 n k = synced s n v k).
  { intros k. rewrite V1. unfold synced. destruct (v !! k); [done|]. unfold spared. by destruct (isCertKey k). }
  exists s2. split; [exact E2|]. split.
  - intros m w k [[= -> ->]|Hin]%elem_of_cons.
    + destruct (decide (n ∈ l.*1)) as [Hl|Hl].
      * apply list_elem_of_fmap in Hl as ([m u] & Em & Hu). cbn in Em. subst m. assert (v = u) as -> by (apply (Hf n); [left|by right]).
        rewrite (V2 n u k Hu). unfold synced. rewrite H1. unfold synced. destruct (u !! k); [done|]. by destruct (isCertKey k).
      * rewrite <- H1. apply view_find, O2. by left.
    + rewrite (V2 m w k Hin). unfold synced. destruct (w !! k); [done|]. destruct (isCertKey k) eqn:Ek; [done|]. by apply view_find, Hnon.
  - intros m k Hm. rewrite O2.
    + destruct Hm as [Hm|Hk]; [|by apply Hnon]. apply O1. cbn in Hm. intros ->. apply Hm. left.
    + destruct Hm as [Hm|Hk]; [left|by right]. intros Hin. apply Hm. by right.
Qed.
(** Nothing to put and nothing to delete. *)
Lemma syncCert_same s n v : (forall k x, v !! k = Some x -> view s n k = Some (TrimSpace x, 0)) ->
  (forall k, isCertKey k = true -> v !! k = None -> view s n k = None) -> syncCertKeyValues s n v = Ok s.
Proof.
  intros Hv Hn. unfold syncCertKeyValues, syncNamespaceKeyValues. rewrite putAll_same by done. fold (staleKeys s n v syncKeyPolicyCert).
  destruct (staleKeys s n v syncKeyPolicyCert) as [|k l] eqn:El; [done|]. exfalso.
  assert (Hk : k ∈ staleKeys s n v syncKeyPolicyCert) by (rewrite El; left). apply elem_of_staleKeys in Hk as ([x Hx] & Hk & Hs).
  cbn in Hs. apply negb_false_iff in Hs. by rewrite (Hn k Hs Hk) in Hx.
Qed.
Lemma syncAll_same s l : (forall n v, (n, v) ∈ l -> syncCertKeyValues s n v = Ok s) -> syncAll s l = Ok s.
Proof.
  unfold syncAll. induction l as [|[n v] l IH]; intros H; cbn [foldR]; [done|]. cbn [fst snd]. rewrite (H n v) by left. cbn [rbind].
  apply IH. intros m w Hm. apply H. by right.
Qed.

(** ** Reading the store *)

Definition valueAt (s : Store) (n k : string) : option string := fst <$> view s n k.
Lemma Get_view s n k : match Get s n k with Ok e => view s n k = Some (EValue e, TTL e) | Err e => e = ErrNotFound /\ view s n k = None end.
Proof.
  unfold Get, view, find. destruct (s !! n) as [m|]; cbn; [|done]. destruct (m !! k) as [e|]; cbn; [|done].
  unfold view_entry. by destruct (Deleted e =? 1).
Qed.
Lemma storedValue_at s n k : storedValue s n k = Ok (default "" (valueAt s n k)).
Proof.
  unfold storedValue, valueAt. pose proof (Get_view s n k) as H. destruct (Get s n k) as [e|e]; [by rewrite H|]. by destruct H as [-> ->].
Qed.
Lemma storedCertPEM_at s job ip spec crt key : storedCertPEM s job ip spec = Ok (crt, key)
  <-> valueAt (stStore s) (certNamespace job ip) (certKey (csName spec) ".crt") = Some crt
      /\ valueAt (stStore s) (certNamespace job ip) (certKey (csName spec) ".key") = Some key.
Proof.
  unfold storedCertPEM, valueAt.
  pose proof (Get_view (stStore s) (certNamespace job ip) (certKey (csName spec) ".crt")) as H1.
  pose proof (Get_view (stStore s) (certNamespace job ip) (certKey (csName spec) ".key")) as H2.
  destruct (Get _ _ (certKey _ ".crt")) as [e1|e1]; cbn [rbind]; [|destruct H1 as [_ ->]; split; [done|by intros [[=] _]]]. rewrite H1.
  destruct (Get _ _ (certKey _ ".key")) as [e2|e2]; cbn [rbind]; [|destruct H2 as [_ ->]; split; [done|by intros [_ [=]]]]. rewrite H2. cbn.
  split; [by intros [= <- <-]|by intros [[= ->] [= ->]]].
Qed.

(** ** The variables of a certificate *)

Notation CertVariables := (gmap string Vars).
Definition varOf (vars : CertVariables) (n k : string) : option string := vars !! n ≫= (.!! k).
Definition has (vars : CertVariables) (job ip name : string) (pems : string * string) : Prop :=
  varOf vars (certNamespace job ip) (certKey name ".crt") = Some pems.1 /\ varOf vars (certNamespace job ip) (certKey name ".key") = Some pems.2.
Definition ours (name k : string) : Prop := k = certKey name ".crt" \/ k = certKey name ".key".
(** [vars'] is [vars] with a pair that satisfies [Q] for every worker. *)
Record filled (job name : string) (ips : list string) (Q : string * string -> Prop) (vars vars' : CertVariables) : Prop := {
  filled_has ip : ip ∈ ips -> exists pems, Q pems /\ has vars' job ip name pems;
  filled_frame n k : (forall ip, ip ∈ ips -> n <> certNamespace job ip) \/ ~ ours name k -> varOf vars' n k = varOf vars n k;
  filled_dom n : is_Some (vars' !! n) <-> is_Some (vars !! n) \/ exists ip, ip ∈ ips /\ n = certNamespace job ip;
}.
Lemma filled_nil job name Q vars : filled job name [] Q vars vars.
Proof. split; [by intros ? ?%elem_of_nil|done|]. intros n. split; [by left|]. intros [H|(ip & H%elem_of_nil & _)]; done. Qed.
Lemma filled_cons job name ip ips Q vars vars' pems : Q pems ->
  filled job name ips Q (addCertVariables vars job ip name pems) vars' -> filled job name (ip :: ips) Q vars vars'.
Proof.
  intros HQ [H1 H2 H3].
  assert (Hadd : has (addCertVariables vars job ip name pems) job ip name pems).
  { unfold has, varOf, addCertVariables. rewrite !lookup_insert_eq. cbn. rewrite lookup_insert_eq.
    rewrite lookup_insert_ne by (intros E; symmetry in E; by apply certKey_differ in E). by rewrite lookup_insert_eq. }
  split.
  - intros i Hi. destruct (decide (i ∈ ips)) as [Hin|Hin]; [by apply H1|]. apply elem_of_cons in Hi as [->|Hi]; [|done].
    exists pems. split; [done|]. destruct Hadd as [A1 A2].
    split; [rewrite <- A1|rewrite <- A2]; apply H2; left; intros j Hj E%certNamespace_inj; by subst.
  - intros n k Hn. rewrite H2.
    + unfold varOf, addCertVariables. destruct (decide (n = certNamespace job ip)) as [->|Hne]; [|by rewrite lookup_insert_ne].
      destruct Hn as [Hn|Hn]; [by destruct (Hn ip ltac:(left) eq_refl)|]. rewrite lookup_insert_eq. cbn [mbind option_bind].
      rewrite !lookup_insert_ne by (intros E; apply Hn; first [by left | by right]). by destruct (vars !! certNamespace job ip).
    + destruct Hn as [Hn|Hn]; [left|by right]. intros i Hi. apply Hn. by right.
  - intros n. rewrite H3. unfold addCertVariables. destruct (decide (n = certNamespace job ip)) as [->|Hne].
    + rewrite lookup_insert_eq. split; [|intros _; left; by eexists]. intros _. right. exists ip. split; [left|done].
    + rewrite lookup_insert_ne by done. setoid_rewrite elem_of_cons. split; [|naive_solver]. intros [H|(i & Hi & E)]; [by left|right; eauto].
Qed.
Lemma addForWorkers_filled job name ips pems : forall vars, filled job name ips (eq pems) vars (addForWorkers vars job ips name pems).
Proof. induction ips as [|ip ips IH]; intros vars; [apply filled_nil|]. apply (filled_cons _ _ _ _ _ _ _ pems); [done|apply IH]. Qed.
Lemma filled_weaken job name ips (Q R : string * string -> Prop) vars vars' : (forall p, Q p -> R p) -> filled job name ips Q vars vars' ->
  filled job name ips R vars vars'.
Proof. intros H [H1 H2 H3]. split; [|done..]. intros ip Hip. destruct (H1 ip Hip) as (p & Hp & Hh). exists p. auto. Qed.

Section certs.
Context {C P : Type} (pemDecode : string -> option (string * string)) (pemEncode : string -> string -> string).
Context (parseCertificate : string -> option C) (certNotAfter : C -> Z) (parsePKCS1 : string -> option P) (parsePKCS8 : string -> option (option P)).
Context (marshalPKCS1 : P -> string) (marshalPKCS8 : P -> option string) (ParseIP : string -> string).
Context (randomSerial : nat -> option Z) (generateKey : nat -> option P) (createCertificate : Template -> C -> P -> P -> option string).
Context (md5 : string -> list Z) (secretFile readCertFile : string -> option string) (TempLocation : string).
Context (bucketSettings : result certs_error BucketSettings) (now : Z).
Notation expiring := (certPEMExpiringSoon pemDecode parseCertificate certNotAfter now).
Notation needsRegeneration := (workerCertNeedsRegeneration pemDecode parseCertificate certNotAfter now).
Notation loadExternal := (loadExternalCertPEM pemDecode parseCertificate parsePKCS1 parsePKCS8 readCertFile).
Notation GenerateCert := (GenerateCert pemDecode pemEncode parseCertificate parsePKCS1 marshalPKCS1 marshalPKCS8 ParseIP randomSerial generateKey
  createCertificate secretFile now).
Notation buildShared := (buildSharedCertPEM pemDecode pemEncode parseCertificate parsePKCS1 marshalPKCS1 marshalPKCS8 ParseIP randomSerial
  generateKey createCertificate secretFile TempLocation now).
Notation buildWorkerPEM := (buildWorkerCertPEM pemDecode pemEncode parseCertificate parsePKCS1 marshalPKCS1 marshalPKCS8 ParseIP randomSerial
  generateKey createCertificate secretFile TempLocation now).
Notation buildOwn := (buildOwnCert pemDecode pemEncode parseCertificate certNotAfter parsePKCS1 marshalPKCS1 marshalPKCS8 ParseIP randomSerial
  generateKey createCertificate secretFile TempLocation now).
Notation buildSpec := (buildCertSpec pemDecode pemEncode parseCertificate certNotAfter parsePKCS1 parsePKCS8 marshalPKCS1 marshalPKCS8 ParseIP
  randomSerial generateKey createCertificate secretFile readCertFile TempLocation now).
Notation buildJob := (buildJobCerts pemDecode pemEncode parseCertificate certNotAfter parsePKCS1 parsePKCS8 marshalPKCS1 marshalPKCS8 ParseIP
  randomSerial generateKey createCertificate secretFile readCertFile TempLocation bucketSettings now).
Notation BuildCerts := (BuildCerts pemDecode pemEncode parseCertificate certNotAfter parsePKCS1 parsePKCS8 marshalPKCS1 marshalPKCS8 ParseIP
  randomSerial generateKey createCertificate md5 secretFile readCertFile TempLocation bucketSettings now).

(** ** Generated certificates *)

(** The certificate and the key of a template for the addresses. *)
Definition made (subject : PkixName) (ips : list string) (ttl : Z) (pems : string * string) : Prop :=
  exists serial caCert caKey key der type keyDER, createCertificate (certTemplate ParseIP now serial subject ips ttl) caCert key caKey = Some der
    /\ (type = "PRIVATE KEY" \/ type = "RSA PRIVATE KEY") /\ pems = (pemEncode "CERTIFICATE" der, pemEncode type keyDER).
Lemma marshalPrivateKey_type key pkcs8 type der : marshalPrivateKey marshalPKCS1 marshalPKCS8 key pkcs8 = Ok (type, der) ->
  type = "PRIVATE KEY" \/ type = "RSA PRIVATE KEY".
Proof.
  unfold marshalPrivateKey. destruct pkcs8; [|intros [= <- _]; by right]. intros (d & _ & [= <- _])%rbind_ok. by left.
Qed.
Lemma GenerateCert_spec s dir name subject ips ttl pkcs8 s' : GenerateCert s dir name subject ips ttl pkcs8 = Ok s' ->
  stStore s' = stStore s /\ exists pems, readCertFiles s' dir name = Ok pems /\ made subject ips ttl pems.
Proof.
  unfold BuildCerts.GenerateCert. intros (crt & _ & H)%rbind_ok. apply rbind_ok in H as (ckey & _ & H). apply rbind_ok in H as ([t1 d1] & _ & H).
  apply rbind_ok in H as (ca & _ & H). apply rbind_ok in H as ([t2 d2] & _ & H). apply rbind_ok in H as (cak & _ & H).
  apply rbind_ok in H as (serial & _ & H). apply rbind_ok in H as (key & _ & H). apply rbind_ok in H as (der & Hd & H).
  apply rbind_ok in H as ([type kd] & Hk & [= <-]). apply marshalPrivateKey_type in Hk. split; [done|].
  exists (pemEncode "CERTIFICATE" der, pemEncode type kd). split.
  - unfold readCertFiles, writeFile, draw. cbn [stFiles]. rewrite lookup_insert_ne by (intros E; symmetry in E; by apply cert_files_differ in E).
    rewrite !lookup_insert_eq. done.
  - destruct (createCertificate _ _ _ _) as [d|] eqn:Ec in Hd; [|done]. injection Hd as ->. by exists serial, ca, cak, key, der, type, kd.
Qed.
Lemma writeCertFiles_store s jobDir name crt key ips :
  stStore (foldl (fun s ip => writeCertFiles s (workerCertDir TempLocation ip jobDir) name crt key) s ips) = stStore s.
Proof. revert s. induction ips as [|ip ips IH]; intros s; cbn [foldl]; [done|]. by rewrite IH. Qed.

(** *** What is asked of PEM and X.509 *)

Definition Second : Z := 1000000000.
(** A block of a certificate or of a key is read back, the empty text has
    none; a signed template with readable addresses is a certificate that ends
    less than a second before the template does. *)
Record crypto_laws : Prop := {
  pem_empty : pemDecode "" = None;
  pem_block type der : type ∈ ["CERTIFICATE"; "PRIVATE KEY"; "RSA PRIVATE KEY"] -> pemDecode (TrimSpace (pemEncode type der)) = Some (type, der);
  created template ca caKey key der : createCertificate template ca caKey key = Some der -> Forall (.≠ "") (tIPs template) ->
    exists cert, parseCertificate der = Some cert /\ tNotAfter template - Second < certNotAfter cert;
}.
Context (laws : crypto_laws) (localhost : ParseIP "127.0.0.1" <> "").

Definition lasting (settings : BucketSettings) : Prop :=
  0 <= bsCertsRenewalBuffer settings < bsCertsTTL settings /\ bsCertsTTL settings <= 106751.
Context (settings : BucketSettings) (lasts : lasting settings).
Notation buffer := (bsCertsRenewalBuffer settings).
Notation ttl := (bsCertsTTL settings).
(** The stored form of a pair is readable and not due. *)
Definition fresh (pems : string * string) : Prop :=
  TrimSpace pems.1 <> "" /\ TrimSpace pems.2 <> "" /\ expiring (TrimSpace pems.1) buffer = Ok false.

Lemma days_id n : - 106751 <= n <= 106751 -> days n = n * 24 * Hour.
Proof. intros H. unfold days, Hour. rewrite !wrap64_id; unfold in_int64, min_int64, max_int64; [done|..]; rewrite ?wrap64_id; unfold in_int64, min_int64, max_int64; blia. Qed.
Lemma fresh_certificate notAfter : now + days ttl - Second < notAfter -> CertNeedsRenewal notAfter buffer now = false.
Proof.
  destruct lasts as [H1 H2]. unfold CertNeedsRenewal. rewrite !days_id by lia. unfold Second, Hour. intros H.
  destruct (now <? notAfter) eqn:E1; [|lia]. cbn [negb]. destruct (buffer <=? 0) eqn:E2; [done|]. apply Z.leb_gt in E2.
  apply negb_false_iff, Z.ltb_lt. lia.
Qed.
Lemma made_fresh subject ips pems : Forall (fun ip => ParseIP ip <> "") ips -> made subject ips ttl pems -> fresh pems.
Proof.
  intros Hips (serial & ca & cak & key & der & type & keyDER & Hc & Ht & ->).
  assert (Hne : forall ty d, ty ∈ ["CERTIFICATE"; "PRIVATE KEY"; "RSA PRIVATE KEY"] -> TrimSpace (pemEncode ty d) <> "").
  { intros ty d Hty E. pose proof (pem_block laws ty d Hty) as H. by rewrite E, (pem_empty laws) in H. }
  split_and!; [apply Hne; left|apply Hne; destruct Ht as [-> | ->]; repeat constructor|]. unfold certPEMExpiringSoon. cbn [fst].
  rewrite (pem_block laws) by left. destruct (created laws _ _ _ _ _ Hc) as (cert & -> & Hn).
  { cbn. constructor; [done|]. by apply Forall_map. }
  f_equal. by apply fresh_certificate.
Qed.

(** *** Which certificates are due *)

Section job.
Context (jobName jobDir : string).
Notation valueOf s ip name suffix := (valueAt s (certNamespace jobName ip) (certKey name suffix)).
Definition kept (s : Store) (ip name : string) : Prop :=
  exists crt key, valueOf s ip name ".crt" = Some crt /\ valueOf s ip name ".key" = Some key
    /\ crt <> "" /\ key <> "" /\ expiring crt buffer = Ok false.
Lemma needsRegeneration_false s ip name : needsRegeneration s jobName ip name buffer = Ok false <-> kept s ip name.
Proof.
  unfold workerCertNeedsRegeneration, kept. rewrite !storedValue_at. cbn [rbind].
  destruct (valueOf s ip name ".key") as [key|]; cbn [default from_option]; [|by split; [|intros (? & ? & _ & [=] & _)]].
  unfold Datatypes.id. destruct (String.eqb_spec key "") as [->|Hk]; [split; [done|intros (? & ? & _ & [= <-] & _ & ? & _); done]|].
  destruct (valueOf s ip name ".crt") as [crt|]; cbn [default from_option]; [|by split; [|intros (? & ? & [=] & _)]].
  unfold Datatypes.id. destruct (String.eqb_spec crt "") as [->|Hc]; [split; [done|intros (? & ? & [= <-] & _ & ? & _); done]|].
  split; [intros H; by exists crt, key|intros (? & ? & [= <-] & [= <-] & _ & _ & H); done].
Qed.
Lemma anyNeeds_false s name ips : anyNeedsRegeneration pemDecode parseCertificate certNotAfter now s jobName name buffer ips = Ok false
  <-> forall ip, ip ∈ ips -> kept s ip name.
Proof.
  induction ips as [|ip ips IH]; cbn [anyNeedsRegeneration]; [split; [by intros _ ? ?%elem_of_nil|done]|]. split.
  - intros (b & Hb & H)%rbind_ok i Hi. destruct b; [done|]. apply needsRegeneration_false in Hb. apply elem_of_cons in Hi as [->|Hi]; [done|].
    by apply IH.
  - intros H. rewrite (proj2 (needsRegeneration_false s ip name)) by (apply H; left). cbn [rbind]. apply IH. intros i Hi. apply H. by right.
Qed.

(** *** One certificate *)

Definition values_trimmed (s : Store) : Prop := forall n k v, valueAt s n k = Some v -> TrimSpace v = v.
Lemma kept_fresh s ip name spec crt key : values_trimmed (stStore s) -> name = csName spec -> kept (stStore s) ip name ->
  storedCertPEM s jobName ip spec = Ok (crt, key) -> fresh (crt, key).
Proof.
  intros Ht -> (c & k & Hc & Hk & Hce & Hke & He) [Hc' Hk']%storedCertPEM_at. rewrite Hc in Hc'. rewrite Hk in Hk'. injection Hc' as <-. injection Hk' as <-.
  unfold fresh. cbn [fst snd]. rewrite (Ht _ _ _ Hc), (Ht _ _ _ Hk). done.
Qed.
Lemma buildWorkerPEM_fresh s ip spec regenerate s' pems : values_trimmed (stStore s) -> ParseIP ip <> "" ->
  (regenerate = false -> kept (stStore s) ip (csName spec)) ->
  buildWorkerPEM s jobName jobDir ip spec regenerate ttl = Ok (s', pems) -> stStore s' = stStore s /\ fresh pems.
Proof.
  intros Ht Hip Hk. unfold buildWorkerCertPEM. destruct regenerate.
  - intros (s1 & H1 & H)%rbind_ok. apply rbind_ok in H as (p & Hp & [= <- <-]). apply GenerateCert_spec in H1 as (Es & q & Hq & Hm).
    rewrite Hp in Hq. injection Hq as <-. split; [done|]. apply made_fresh in Hm; [done|]. by repeat constructor.
  - intros ([crt key] & H & [= <- <-])%rbind_ok. split; [done|]. by apply (kept_fresh _ ip (csName spec) spec) in H; [| | |apply Hk].
Qed.
Lemma buildShared_fresh s spec ips regenerate s' pems : values_trimmed (stStore s) -> ips <> [] -> Forall (fun ip => ParseIP ip <> "") ips ->
  (regenerate = false -> forall ip, ip ∈ ips -> kept (stStore s) ip (csName spec)) ->
  buildShared s jobName jobDir spec ips regenerate ttl = Ok (s', pems) -> stStore s' = stStore s /\ fresh pems.
Proof.
  intros Ht Hne Hips Hk. unfold buildSharedCertPEM. destruct regenerate.
  - intros (s1 & H1 & H)%rbind_ok. apply rbind_ok in H as ([crt key] & Hp & [= <- <-]). apply GenerateCert_spec in H1 as (Es & q & Hq & Hm).
    rewrite Hp in Hq. injection Hq as <-. rewrite writeCertFiles_store. split; [done|]. by apply made_fresh in Hm.
  - intros ([crt key] & H & [= <- <-])%rbind_ok. split; [done|]. destruct ips as [|ip ips]; [done|]. cbn in H.
    apply (kept_fresh _ ip (csName spec) spec) in H; [done..|]. apply Hk; [done|left].
Qed.
Lemma buildOwn_filled spec regenerate ips : Forall (fun ip => ParseIP ip <> "") ips -> forall s vars s' vars', values_trimmed (stStore s) ->
  foldR (buildOwn jobName jobDir settings spec regenerate) (s, vars) ips = Ok (s', vars') ->
  stStore s' = stStore s /\ filled jobName (csName spec) ips fresh vars vars'.
Proof.
  induction 1 as [|ip ips Hip Hips IH]; intros s vars s' vars' Ht; cbn [foldR].
  { intros [= <- <-]. split; [done|apply filled_nil]. }
  intros ([s1 v1] & H1 & H)%rbind_ok. unfold BuildCerts.buildOwnCert in H1. apply rbind_ok in H1 as (b & Hb & H1).
  apply rbind_ok in H1 as ([s2 pems] & H1 & [= <- <-]). apply buildWorkerPEM_fresh in H1 as [E1 F1]; [|done..|].
  2: { intros ->. destruct regenerate; [done|]. by apply needsRegeneration_false in Hb. }
  apply IH in H as [E2 F2]; [|by rewrite E1]. rewrite E2. split; [done|]. by apply (filled_cons _ _ _ _ _ _ _ pems).
Qed.

(** What a build may leave for a certificate. *)
Definition suits (spec : jobCertSpec) (pems : string * string) : Prop :=
  if csExternal spec then loadExternal jobName (csName spec) = Ok pems else fresh pems.
Lemma buildSpec_filled ips spec jobRegenerate s vars s' vars' : values_trimmed (stStore s) -> ips <> [] -> Forall (fun ip => ParseIP ip <> "") ips ->
  buildSpec jobName jobDir ips settings jobRegenerate (s, vars) spec = Ok (s', vars') ->
  stStore s' = stStore s /\ filled jobName (csName spec) ips (suits spec) vars vars'
  /\ (csExternal spec || csOne spec = true -> exists pems, filled jobName (csName spec) ips (eq pems) vars vars').
Proof.
  intros Ht Hne Hips. unfold BuildCerts.buildCertSpec, suits. destruct (csExternal spec) eqn:Ex.
  - intros (pems & Hp & [= <- <-])%rbind_ok. pose proof (addForWorkers_filled jobName (csName spec) ips pems vars) as F.
    split_and!; [done|by apply (filled_weaken _ _ _ (eq pems)); [intros ? <-|]|]. intros _. by exists pems.
  - intros (b & Hb & H)%rbind_ok. cbn [orb]. destruct (csOne spec) eqn:Eo.
    + apply rbind_ok in H as ([s1 pems] & H1 & [= <- <-]). apply buildShared_fresh in H1 as [E1 F1]; [|done..|].
      2: { intros ->. unfold certNeedsRegeneration in Hb. destruct jobRegenerate; [done|]. by apply anyNeeds_false. }
      pose proof (addForWorkers_filled jobName (csName spec) ips pems vars) as F.
      split_and!; [done|by apply (filled_weaken _ _ _ (eq pems)); [intros ? <-|]|]. intros _. by exists pems.
    + apply buildOwn_filled in H as [E F]; [|done..]. by split_and!.
Qed.

(** *** The certificates of a job *)

Record complete (ips : list string) (specs : list jobCertSpec) (vars : CertVariables) : Prop := {
  complete_has ip spec : ip ∈ ips -> spec ∈ specs -> exists pems, suits spec pems /\ has vars jobName ip (csName spec) pems;
  complete_same spec : spec ∈ specs -> csExternal spec || csOne spec = true -> exists pems, forall ip, ip ∈ ips -> has vars jobName ip (csName spec) pems;
  complete_only n k : is_Some (varOf vars n k) -> exists spec, spec ∈ specs /\ ours (csName spec) k;
  complete_dom n : is_Some (vars !! n) -> exists ip, ip ∈ ips /\ n = certNamespace jobName ip;
}.
Lemma ours_inj a b k : ours a k -> ours b k -> a = b.
Proof.
  intros [-> | ->] [E|E]; [by apply certKey_crt_inj in E|by apply certKey_differ in E| |by apply certKey_key_inj in E].
  symmetry in E. by apply certKey_differ in E.
Qed.
Lemma complete_snoc ips specs spec vars vars' : csName spec ∉ map csName specs -> complete ips specs vars ->
  filled jobName (csName spec) ips (suits spec) vars vars' ->
  (csExternal spec || csOne spec = true -> exists pems, filled jobName (csName spec) ips (eq pems) vars vars') -> complete ips (specs ++ [spec]) vars'.
Proof.
  intros Hn [H1 H2 H3 H4] F G.
  assert (Hkeep : forall sp ip pems, sp ∈ specs -> has vars jobName ip (csName sp) pems -> has vars' jobName ip (csName sp) pems).
  { intros sp ip pems Hs [E1 E2]. unfold has. rewrite <- E1, <- E2. split; apply (filled_frame _ _ _ _ _ _ F); right; intros Ho;
      apply Hn, list_elem_of_fmap; exists sp; (split; [|done]); eapply ours_inj; [exact Ho|..]; [by left|exact Ho|by right]. }
  split.
  - intros ip sp Hip [Hs|Hs%list_elem_of_singleton]%elem_of_app; [|subst; by apply (filled_has _ _ _ _ _ _ F)].
    destruct (H1 ip sp Hip Hs) as (p & Hp & Hh). exists p. split; [done|]. by apply Hkeep.
  - intros sp [Hs|Hs%list_elem_of_singleton]%elem_of_app Ho.
    + destruct (H2 sp Hs Ho) as (p & Hp). exists p. intros ip Hip. apply Hkeep; auto.
    + subst. destruct (G Ho) as (p & Fp). exists p. intros ip Hip. by destruct (filled_has _ _ _ _ _ _ Fp ip Hip) as (? & <- & ?).
  - intros n k Hk. destruct (decide (ours (csName spec) k)) as [Ho|Ho].
    { exists spec. split; [|done]. apply elem_of_app. right. by left. }
    rewrite (filled_frame _ _ _ _ _ _ F) in Hk by by right. destruct (H3 n k Hk) as (sp & Hs & Ho'). exists sp. split; [|done]. apply elem_of_app. by left.
  - intros n [Hv|Hv]%(filled_dom _ _ _ _ _ _ F); [by apply H4|done].
Qed.
Lemma buildSpecs_complete ips specs jobRegenerate : ips <> [] -> Forall (fun ip => ParseIP ip <> "") ips -> forall before s vars s' vars',
  values_trimmed (stStore s) -> complete ips before vars -> NoDup (map csName (before ++ specs)) ->
  foldR (buildSpec jobName jobDir ips settings jobRegenerate) (s, vars) specs = Ok (s', vars') ->
  stStore s' = stStore s /\ complete ips (before ++ specs) vars'.
Proof.
  intros Hne Hips. induction specs as [|spec specs IH]; intros before s vars s' vars' Ht Hc Hnd; cbn [foldR].
  { intros [= <- <-]. by rewrite app_nil_r. }
  intros ([s1 v1] & H1 & H)%rbind_ok. apply buildSpec_filled in H1 as (E1 & F & G); [|done..].
  assert (Hb : complete ips (before ++ [spec]) v1).
  { apply (complete_snoc _ _ _ vars); [|done..]. rewrite map_app in Hnd. apply NoDup_app in Hnd as (_ & Hx & _). intros Hin. apply (Hx _ Hin). left. }
  replace (before ++ spec :: specs)%list with ((before ++ [spec]) ++ specs)%list in * by (by rewrite <- app_assoc).
  apply (IH (before ++ [spec])%list) in H as [E2 C2]; [|by rewrite E1|done..]. by rewrite E2, E1.
Qed.
Lemma complete_nil ips : complete ips [] ∅.
Proof.
  split; [by intros ? ? _ ?%elem_of_nil|by intros ? ?%elem_of_nil|intros n k [? H]|intros n [? H]].
  - unfold varOf in H. by rewrite lookup_empty in H.
  - by rewrite lookup_empty in H.
Qed.
End job.

(** The store has what the manifest of the job asks for, and nothing else. *)
Definition pairAt (s : Store) (job ip name : string) (crt key : string) : Prop :=
  view s (certNamespace job ip) (certKey name ".crt") = Some (crt, 0) /\ view s (certNamespace job ip) (certKey name ".key") = Some (key, 0).
Definition settled (t : Tables) (db : DB) (job : string) (s : Store) : Prop :=
  let specs := loadJobCertSpecs t job in let ips := GetNonRemovedAllocations db job in
  if (length specs =? 0)%nat || (length ips =? 0)%nat then
    forall ip k, ip ∈ GetAllocatedWorkers db job -> isCertKey k = true -> view s (certNamespace job ip) k = None
  else
    (forall ip spec, ip ∈ ips -> spec ∈ specs -> exists crt key, pairAt s job ip (csName spec) crt key /\
       if csExternal spec then exists pems, loadExternal job (csName spec) = Ok pems /\ crt = TrimSpace pems.1 /\ key = TrimSpace pems.2
       else kept job s ip (csName spec))
    /\ (forall spec, spec ∈ specs -> csExternal spec || csOne spec = true -> exists crt key, forall ip, ip ∈ ips -> pairAt s job ip (csName spec) crt key)
    /\ (forall ip k, ip ∈ ips -> isCertKey k = true -> is_Some (view s (certNamespace job ip) k) -> exists spec, spec ∈ specs /\ ours (csName spec) k).
(** Only keys of certificates in the namespaces of the job's workers changed. *)
Definition touched (db : DB) (job n k : string) : Prop :=
  isCertKey k = true /\ exists ip, ip ∈ GetAllocatedWorkers db job /\ n = certNamespace job ip.

Lemma planned_allocated db job ip : ip ∈ GetNonRemovedAllocations db job -> ip ∈ GetAllocatedWorkers db job.
Proof.
  intros (a & Ha & E1 & E2 & _)%GetNonRemovedAllocations_elem. apply workersWhere_elem. by exists a.
Qed.
Lemma syncAll_trimmed s l s' : (forall n v w, (n, v) ∈ l -> (n, w) ∈ l -> v = w) ->
  (forall n v k, (n, v) ∈ l -> is_Some (v !! k) -> isCertKey k = true) -> syncAll s l = Ok s' -> values_trimmed s -> values_trimmed s'.
Proof.
  intros Hf Hc E Ht n k v. destruct (syncAll_spec l Hf Hc s) as (s1 & E1 & V & O). rewrite E in E1. injection E1 as <-.
  unfold valueAt. destruct (decide (n ∈ l.*1)) as [Hn|Hn].
  - apply list_elem_of_fmap in Hn as ([m u] & Em & Hu). cbn in Em. subst m. rewrite (V n u k Hu). unfold synced.
    destruct (u !! k); [intros [= <-]; apply TrimSpace_idem|]. destruct (isCertKey k); [done|]. apply Ht.
  - rewrite (view_find _ _ _ _ (O n k (or_introl Hn))). apply Ht.
Qed.
Lemma of_store_ok s r s' : of_store s r = Ok s' -> exists store, r = Ok store /\ s' = setStore s store.
Proof. destruct r as [store|e]; [|done]. intros [= <-]. by exists store. Qed.

(** The namespaces of workers, each with the same variables. *)
Lemma foldR_map {E A B B'} (f : A -> B -> result E A) (g : B' -> B) l : forall a, foldR f a (map g l) = foldR (fun a b => f a (g b)) a l.
Proof. induction l as [|b l IH]; intros a; cbn [foldR map]; [done|]. destruct (f a (g b)); [apply IH|done]. Qed.

Lemma vars_functional (vars : CertVariables) n v w : (n, v) ∈ map_to_list vars -> (n, w) ∈ map_to_list vars -> v = w.
Proof. rewrite !elem_of_map_to_list. congruence. Qed.
Lemma complete_cert_keys job ips specs vars : complete job ips specs vars -> forall n v k, (n, v) ∈ map_to_list vars -> is_Some (v !! k) -> isCertKey k = true.
Proof.
  intros H n v k Hv%elem_of_map_to_list Hk. destruct (complete_only _ _ _ _ H n k) as (spec & _ & [-> | ->]); [|apply certKey_isCert..].
  unfold varOf. by rewrite Hv.
Qed.
(** The store after the variables of a job. *)
Lemma complete_synced job ips specs vars s s' : complete job ips specs vars -> specs <> [] -> syncAll s (map_to_list vars) = Ok s' ->
  (forall ip k, ip ∈ ips -> view s' (certNamespace job ip) k
    = match varOf vars (certNamespace job ip) k with Some v => Some (TrimSpace v, 0) | None => if isCertKey k then None else view s (certNamespace job ip) k end)
  /\ (forall n k, (forall ip, ip ∈ ips -> n <> certNamespace job ip) \/ isCertKey k = false -> find s' n k = find s n k).
Proof.
  intros Hco Hne E. destruct (syncAll_spec _ (vars_functional vars) (complete_cert_keys _ _ _ _ Hco) s) as (s1 & E1 & V & O).
  rewrite E in E1. injection E1 as <-. split.
  - intros ip k Hip. destruct specs as [|spec specs]; [done|].
    destruct (complete_has _ _ _ _ Hco ip spec Hip) as (p & _ & [Hh _]); [left|]. unfold varOf in *.
    destruct (vars !! certNamespace job ip) as [v|] eqn:Ev; [|done]. rewrite (V _ v k) by by apply elem_of_map_to_list. done.
  - intros n k Hn. apply O. destruct Hn as [Hn|Hn]; [left|by right]. intros ([m v] & Em & Hin%elem_of_map_to_list)%list_elem_of_fmap. cbn in Em. subst m.
    destruct (complete_dom _ _ _ _ Hco n) as (ip & Hip & ->); [by eexists|]. by apply (Hn ip).
Qed.
Lemma has_stored vars (ips : list string) s s' job ip name pems :
  (forall ip k, ip ∈ ips -> view s' (certNamespace job ip) k
    = match varOf vars (certNamespace job ip) k with Some v => Some (TrimSpace v, 0) | None => if isCertKey k then None else view s (certNamespace job ip) k end) ->
  ip ∈ ips -> has vars job ip name pems -> pairAt s' job ip name (TrimSpace pems.1) (TrimSpace pems.2).
Proof. intros V Hip [H1 H2]. unfold pairAt. rewrite !V by done. by rewrite H1, H2. Qed.

Lemma purge_syncAll s job ips :
  purgeJobAllocationCertKV s job ips = of_store s (syncAll (stStore s) (map (fun ip => (certNamespace job ip, ∅ : Vars)) ips)).
Proof. unfold purgeJobAllocationCertKV, syncAll. by rewrite foldR_map. Qed.
Lemma buildJobCerts_spec db caChanged t s job t' s' : bucketSettings = Ok settings -> values_trimmed (stStore s) ->
  Forall (fun ip => ParseIP ip <> "") (GetNonRemovedAllocations db job) -> NoDup (map csName (loadJobCertSpecs t job)) ->
  buildJob db caChanged (t, s) job = Ok (t', s') ->
  t' = PromoteHash "build_certs" job t /\ values_trimmed (stStore s') /\ settled t db job (stStore s')
  /\ (forall n k, ~ touched db job n k -> find (stStore s') n k = find (stStore s) n k).
Proof.
  intros Hset Ht Hips Hnd. unfold BuildCerts.buildJobCerts, settled. cbv zeta.
  set (ips := GetNonRemovedAllocations db job) in *. set (specs := loadJobCertSpecs t job) in *.
  destruct ((length specs =? 0)%nat || (length ips =? 0)%nat) eqn:E0.
  - intros (s1 & H1 & [= <- <-])%rbind_ok. rewrite purge_syncAll in H1. apply of_store_ok in H1 as (store & H1 & ->).
    set (l := map (fun ip => (certNamespace job ip, ∅ : Vars)) (GetAllocatedWorkers db job)).
    rename H1 into Es. fold l in Es.
    assert (Hl : forall n v, (n, v) ∈ l <-> v = ∅ /\ exists ip, ip ∈ GetAllocatedWorkers db job /\ n = certNamespace job ip).
    { intros n v. unfold l. rewrite list_elem_of_fmap. split; [intros (ip & [= -> ->] & Hip); eauto|intros (-> & ip & Hip & ->); eauto]. }
    assert (Hf : forall n v w, (n, v) ∈ l -> (n, w) ∈ l -> v = w) by (intros n v w [-> _]%Hl [-> _]%Hl; done).
    assert (Hc : forall n v k, (n, v) ∈ l -> is_Some (v !! k) -> isCertKey k = true).
    { intros n v k [-> _]%Hl [? H]. by rewrite lookup_empty in H. }
    destruct (syncAll_spec l Hf Hc (stStore s)) as (s1 & E1 & V & O). rewrite Es in E1. injection E1 as <-. cbn [setStore stStore].
    split_and!; [done|by apply (syncAll_trimmed _ l _ Hf Hc Es)| |].
    + intros ip k Hip Hk. rewrite (V _ ∅ k) by (apply Hl; eauto). unfold synced. by rewrite lookup_empty, Hk.
    + intros n k Hn. apply O. destruct (isCertKey k) eqn:Ek; [left|by right]. intros ([m v] & Em & Hin)%list_elem_of_fmap. cbn in Em. subst m.
      apply Hl in Hin as (_ & ip & Hip & ->). apply Hn. split; eauto.
  - rewrite Hset. cbn [rbind]. intros ([s1 vars] & H1 & H)%rbind_ok. apply rbind_ok in H as (s2 & H2 & [= <- <-]).
    apply orb_false_iff in E0 as [E00 E0].
    assert (Hne : ips <> []) by (intros E; by rewrite E in E0). assert (Hns : specs <> []) by (intros E; by rewrite E in E00).
    apply (buildSpecs_complete _ _ ips specs _ Hne Hips []) in H1 as [E1 C1]; [|done|apply complete_nil|done]. cbn [app] in C1.
    apply of_store_ok in H2 as (store & Es & ->). rewrite E1 in Es. fold (syncAll (stStore s) (map_to_list vars)) in Es.
    pose proof (complete_synced _ _ _ _ _ _ C1 Hns Es) as (V & O). cbn [setStore stStore].
    split_and!; [done|by eapply syncAll_trimmed; [exact (vars_functional vars)|exact (complete_cert_keys _ _ _ _ C1)|exact Es|]|..].
    + intros ip spec Hip Hs. destruct (complete_has _ _ _ _ C1 ip spec Hip Hs) as (pems & Hsu & Hh).
      pose proof (has_stored _ _ _ _ _ _ _ _ V Hip Hh) as Hst. exists (TrimSpace pems.1), (TrimSpace pems.2). split; [done|].
      unfold suits in Hsu. destruct (csExternal spec); [by exists pems|]. destruct Hsu as (F1 & F2 & F3). destruct Hst as [S1 S2].
      exists (TrimSpace pems.1), (TrimSpace pems.2). unfold valueAt. by rewrite S1, S2.
    + intros spec Hs Ho. destruct (complete_same _ _ _ _ C1 spec Hs Ho) as (pems & Hp). exists (TrimSpace pems.1), (TrimSpace pems.2).
      intros ip Hip. by apply (has_stored _ _ _ _ _ _ _ _ V Hip), Hp.
    + intros ip k Hip Hk Hv. rewrite (V ip k Hip) in Hv. apply (complete_only _ _ _ _ C1 (certNamespace job ip) k).
      destruct (varOf vars (certNamespace job ip) k); [by eexists|]. rewrite Hk in Hv. by destruct Hv.
    + intros n k Hn. apply O. destruct (isCertKey k) eqn:Ek; [|by right]. left. intros ip Hip ->. apply Hn. split; [done|].
      exists ip. split; [|done]. by apply planned_allocated.
Qed.

(** *** A whole build *)

Lemma settled_find t db job s s' : (forall ip k, ip ∈ GetAllocatedWorkers db job -> find s' (certNamespace job ip) k = find s (certNamespace job ip) k) ->
  settled t db job s -> settled t db job s'.
Proof.
  intros Hf. assert (Hv : forall ip k, ip ∈ GetAllocatedWorkers db job -> view s' (certNamespace job ip) k = view s (certNamespace job ip) k).
  { intros ip k Hip. by apply view_find, Hf. }
  unfold settled. cbv zeta. destruct (_ || _); [intros H ip k Hip Hk; rewrite Hv by done; by apply H|]. intros (H1 & H2 & H3).
  assert (Hs : forall ip name crt key, ip ∈ GetNonRemovedAllocations db job -> pairAt s job ip name crt key -> pairAt s' job ip name crt key).
  { intros ip name crt key Hip%planned_allocated [E1 E2]. split; by rewrite Hv. }
  split_and!.
  - intros ip spec Hip Hsp. destruct (H1 ip spec Hip Hsp) as (crt & key & Hst & Hk). exists crt, key. split; [by apply Hs|].
    destruct (csExternal spec); [done|]. destruct Hk as (c & k & E1 & E2 & Hr). exists c, k. unfold valueAt in *.
    by rewrite !Hv by by apply planned_allocated.
  - intros spec Hsp Ho. destruct (H2 spec Hsp Ho) as (crt & key & H). exists crt, key. intros ip Hip. apply Hs; [done|by apply H].
  - intros ip k Hip Hk. rewrite Hv by by apply planned_allocated. by apply H3.
Qed.

Context (db : DB).
Definition plain_allocations : Prop := Forall (fun a => plain (aWorker a) /\ plain (aJob a) /\ ParseIP (aWorker a) <> "") (allocations db).
Context (plains : plain_allocations) (reads : bucketSettings = Ok settings).
Definition unique_certs (t : Tables) : Prop := forall job, NoDup (map csName (loadJobCertSpecs t job)).

Lemma allocated_plain job ip : ip ∈ GetAllocatedWorkers db job -> plain job /\ plain ip /\ ParseIP ip <> "".
Proof.
  intros (a & Ha & <- & <- & _)%workersWhere_elem. pose proof (proj1 (Forall_forall _ _) plains a Ha) as (H1 & H2 & H3). done.
Qed.
Lemma planned_addresses job : Forall (fun ip => ParseIP ip <> "") (GetNonRemovedAllocations db job).
Proof. apply Forall_forall. intros ip Hip%planned_allocated%allocated_plain. by destruct Hip as (_ & _ & ?). Qed.
Lemma certNamespace_job job ip job' ip' : plain job -> plain ip -> plain job' -> plain ip' -> certNamespace job ip = certNamespace job' ip' -> job = job'.
Proof. intros H1 H2 H3 H4 E. assert (NAlloc job ip = NAlloc job' ip') as [=]; [|done]. by apply ns_inj. Qed.

Lemma buildJobs_settle caChanged jobs : NoDup jobs -> forall t s t' s', values_trimmed (stStore s) -> unique_certs t ->
  foldR (buildJob db caChanged) (t, s) jobs = Ok (t', s') ->
  values_trimmed (stStore s') /\ (forall job, job ∈ jobs -> settled t db job (stStore s'))
  /\ (forall n k, (forall job, job ∈ jobs -> ~ touched db job n k) -> find (stStore s') n k = find (stStore s) n k).
Proof.
  induction 1 as [|job jobs Hnew Hnd IH]; intros t s t' s' Ht Hu; cbn [foldR].
  { intros [= <- <-]. split_and!; [done|by intros ? ?%elem_of_nil|done]. }
  intros ([t1 s1] & H1 & H)%rbind_ok. apply buildJobCerts_spec in H1 as (-> & T1 & S1 & F1); [|done|done|apply planned_addresses|done].
  apply (IH (PromoteHash "build_certs" job t)) in H as (T2 & S2 & F2); [|done|exact Hu]. split_and!; [done| |].
  - intros j [->|Hj]%elem_of_cons; [|exact (S2 j Hj)]. apply (settled_find _ _ _ (stStore s1)); [|done]. intros ip k Hip. apply F2.
    intros j Hj (_ & ip' & Hip' & E). apply allocated_plain in Hip as (P1 & P2 & _). apply allocated_plain in Hip' as (P3 & P4 & _).
    apply certNamespace_job in E; [by subst|done..].
  - intros n k Hn. rewrite F2 by (intros j Hj; apply Hn; by right). apply F1, Hn. left.
Qed.

Lemma buildJob_tables caChanged t s job t' s' : buildJob db caChanged (t, s) job = Ok (t', s') -> t' = PromoteHash "build_certs" job t.
Proof.
  unfold BuildCerts.buildJobCerts. cbv zeta. destruct (_ || _).
  - by intros (s1 & _ & [= <- _])%rbind_ok.
  - intros (st & _ & H)%rbind_ok. apply rbind_ok in H as ([s1 vars] & _ & H). by apply rbind_ok in H as (s2 & _ & [= <- _]).
Qed.
Lemma buildJobs_catalog caChanged jobs : forall t s t' s', foldR (buildJob db caChanged) (t, s) jobs = Ok (t', s') ->
  (catalog t' = catalog t /\ job_certs t' = job_certs t) /\ build_hashes t' !! ("build", "ca") = build_hashes t !! ("build", "ca").
Proof.
  induction jobs as [|job jobs IH]; intros t s t' s'; cbn [foldR]; [by intros [= <- _]|].
  intros ([t1 s1] & ->%buildJob_tables & H)%rbind_ok. apply IH in H as ([-> ->] & ->). split; [done|].
  unfold PromoteHash. cbn [build_hashes setBuildHashes]. by rewrite lookup_alter_ne.
Qed.

(** *** Nothing to do *)

Definition mirror (s : Store) (vars : CertVariables) : Prop := forall n k x, varOf vars n k = Some x -> view s n k = Some (TrimSpace x, 0).
Lemma mirror_add s vars job ip name pems : mirror s vars -> pairAt s job ip name (TrimSpace pems.1) (TrimSpace pems.2) ->
  mirror s (addCertVariables vars job ip name pems).
Proof.
  intros M [S1 S2] n k x. unfold varOf, addCertVariables. destruct (decide (n = certNamespace job ip)) as [->|Hn]; [|rewrite lookup_insert_ne by done; apply M].
  rewrite lookup_insert_eq. cbn [mbind option_bind]. destruct (decide (k = certKey name ".key")) as [->|Hk]; [rewrite lookup_insert_eq; by intros [= <-]|].
  rewrite lookup_insert_ne by done. destruct (decide (k = certKey name ".crt")) as [->|Hk']; [rewrite lookup_insert_eq; by intros [= <-]|].
  rewrite lookup_insert_ne by done. intros H. apply M. unfold varOf. by destruct (vars !! certNamespace job ip).
Qed.
Lemma mirror_addForWorkers s job name pems ips : (forall ip, ip ∈ ips -> pairAt s job ip name (TrimSpace pems.1) (TrimSpace pems.2)) ->
  forall vars, mirror s vars -> mirror s (addForWorkers vars job ips name pems).
Proof.
  induction ips as [|ip ips IH]; intros H vars M; [done|]. apply IH; [intros i Hi; apply H; by right|]. apply mirror_add; [done|apply H; left].
Qed.
Lemma stored_same s job ip spec crt key : values_trimmed (stStore s) -> pairAt (stStore s) job ip (csName spec) crt key ->
  storedCertPEM s job ip spec = Ok (crt, key) /\ TrimSpace crt = crt /\ TrimSpace key = key.
Proof.
  intros Ht [S1 S2]. assert (V1 : valueAt (stStore s) (certNamespace job ip) (certKey (csName spec) ".crt") = Some crt) by (unfold valueAt; by rewrite S1).
  assert (V2 : valueAt (stStore s) (certNamespace job ip) (certKey (csName spec) ".key") = Some key) by (unfold valueAt; by rewrite S2).
  split_and!; [by apply storedCertPEM_at|by eapply Ht|by eapply Ht].
Qed.
Lemma buildOwn_same job jobDir s spec ips : values_trimmed (stStore s) ->
  (forall ip, ip ∈ ips -> exists crt key, pairAt (stStore s) job ip (csName spec) crt key /\ kept job (stStore s) ip (csName spec)) ->
  forall vars, mirror (stStore s) vars ->
  exists vars', foldR (buildOwn job jobDir settings spec false) (s, vars) ips = Ok (s, vars') /\ mirror (stStore s) vars'.
Proof.
  intros Ht. induction ips as [|ip ips IH]; intros H vars M; cbn [foldR]; [by exists vars|].
  destruct (H ip) as (crt & key & Hst & Hk); [left|]. apply needsRegeneration_false in Hk. destruct (stored_same s job ip spec crt key) as (E & E1 & E2); [done..|].
  unfold BuildCerts.buildOwnCert at 1, buildWorkerCertPEM. rewrite Hk. cbn [rbind]. rewrite E. cbn [rbind].
  apply IH; [intros i Hi; apply H; by right|]. apply mirror_add; [done|]. cbn [fst snd]. by rewrite E1, E2.
Qed.
Lemma buildSpec_same job jobDir ips s vars spec : values_trimmed (stStore s) -> ips <> [] -> mirror (stStore s) vars ->
  (forall ip, ip ∈ ips -> exists crt key, pairAt (stStore s) job ip (csName spec) crt key /\
     if csExternal spec then exists pems, loadExternal job (csName spec) = Ok pems /\ crt = TrimSpace pems.1 /\ key = TrimSpace pems.2
     else kept job (stStore s) ip (csName spec)) ->
  (csExternal spec || csOne spec = true -> exists crt key, forall ip, ip ∈ ips -> pairAt (stStore s) job ip (csName spec) crt key) ->
  exists vars', buildSpec job jobDir ips settings false (s, vars) spec = Ok (s, vars') /\ mirror (stStore s) vars'.
Proof.
  intros Ht Hne M H1 H2. unfold BuildCerts.buildCertSpec. destruct (csExternal spec).
  - destruct ips as [|ip ips]; [done|]. destruct (H1 ip) as (crt & key & _ & pems & Hp & _); [left|]. rewrite Hp. cbn [rbind].
    eexists. split; [reflexivity|]. apply mirror_addForWorkers; [|done]. intros i Hi.
    destruct (H1 i Hi) as (c & k & Hst & p & Hp' & -> & ->). rewrite Hp in Hp'. by injection Hp' as <-.
  - unfold certNeedsRegeneration. rewrite (proj2 (anyNeeds_false job (stStore s) (csName spec) ips)) by (intros ip Hip; by destruct (H1 ip Hip) as (? & ? & _ & ?)).
    cbn [rbind]. destruct (csOne spec); [|by apply buildOwn_same].
    destruct H2 as (crt & key & Hall); [done|]. destruct ips as [|ip ips]; [done|].
    destruct (stored_same s job ip spec crt key) as (E & E1 & E2); [done|apply Hall; left|].
    unfold buildSharedCertPEM. cbn [default head from_option Datatypes.id]. rewrite E. cbn [rbind]. eexists. split; [reflexivity|].
    apply mirror_addForWorkers; [|done]. cbn [fst snd]. by rewrite E1, E2.
Qed.
Lemma buildSpecs_same job jobDir ips s specs : values_trimmed (stStore s) -> ips <> [] ->
  (forall ip spec, ip ∈ ips -> spec ∈ specs -> exists crt key, pairAt (stStore s) job ip (csName spec) crt key /\
     if csExternal spec then exists pems, loadExternal job (csName spec) = Ok pems /\ crt = TrimSpace pems.1 /\ key = TrimSpace pems.2
     else kept job (stStore s) ip (csName spec)) ->
  (forall spec, spec ∈ specs -> csExternal spec || csOne spec = true -> exists crt key, forall ip, ip ∈ ips -> pairAt (stStore s) job ip (csName spec) crt key) ->
  forall vars, mirror (stStore s) vars ->
  exists vars', foldR (buildSpec job jobDir ips settings false) (s, vars) specs = Ok (s, vars') /\ mirror (stStore s) vars'.
Proof.
  intros Ht Hne. induction specs as [|spec specs IH]; intros H1 H2 vars M; cbn [foldR]; [by exists vars|].
  destruct (buildSpec_same job jobDir ips s vars spec) as (v1 & -> & M1); [done..| | |].
  - intros ip Hip. apply H1; [done|left].
  - apply H2. left.
  - cbn [rbind]. apply IH; [intros ip sp Hip Hsp; apply H1; [done|by right]|intros sp Hsp; apply H2; by right|done].
Qed.
Lemma buildJob_same t s job : values_trimmed (stStore s) -> unique_certs t -> settled t db job (stStore s) ->
  HashChanged t "build_certs" job = false -> buildJob db false (t, s) job = Ok (PromoteHash "build_certs" job t, s).
Proof.
  intros Ht Hu Hse Hh. unfold BuildCerts.buildJobCerts. cbv zeta. rewrite Hh. cbn [orb]. unfold settled in Hse. cbv zeta in Hse.
  assert (Hset : forall l, syncAll (stStore s) l = Ok (stStore s) -> of_store s (syncAll (stStore s) l) = Ok s) by (intros l ->; by destruct s).
  destruct (_ || _) eqn:E0.
  - rewrite purge_syncAll.
    replace (of_store _ _) with (@Ok certs_error _ s); [done|]. symmetry.
    apply Hset, syncAll_same.
    intros n v (ip & [= -> ->] & Hip)%list_elem_of_fmap. apply syncCert_same; [intros k x H; by rewrite lookup_empty in H|]. intros k Hk _. by apply Hse.
  - rewrite reads. cbn [rbind]. apply orb_false_iff in E0 as [E00 E0].
    assert (Hne : GetNonRemovedAllocations db job <> []) by (intros E; by rewrite E in E0).
    assert (Hns : loadJobCertSpecs t job <> []) by (intros E; by rewrite E in E00). destruct Hse as (H1 & H2 & H3).
    destruct (buildSpecs_same job (path_Join ["jobs"; job]) _ s _ Ht Hne H1 H2 ∅) as (vars & Ev & M).
    { intros n k x H. unfold varOf in H. by rewrite lookup_empty in H. }
    rewrite Ev. cbn [rbind]. apply (buildSpecs_complete _ _ _ _ _ Hne (planned_addresses job) []) in Ev as [_ Co]; [|done|apply complete_nil|apply Hu].
    cbn [app] in Co. fold (syncAll (stStore s) (map_to_list vars)).
    rewrite Hset; [done|]. apply syncAll_same. intros n v Hv%elem_of_map_to_list. destruct (complete_dom _ _ _ _ Co n) as (ip & Hip & ->); [by eexists|].
    apply syncCert_same.
    + intros k x Hx. apply M. unfold varOf. by rewrite Hv.
    + intros k Hk Hx. destruct (view (stStore s) (certNamespace job ip) k) eqn:E; [|done]. destruct (H3 ip k Hip Hk) as (spec & Hsp & Ho); [by rewrite E|].
      destruct (complete_has _ _ _ _ Co ip spec Hip Hsp) as (q & _ & [P1 P2]). unfold varOf in P1, P2. rewrite Hv in P1, P2. cbn [mbind option_bind] in P1, P2.
      destruct Ho as [-> | ->]; congruence.
Qed.
Lemma buildJobs_same jobs s : values_trimmed (stStore s) -> forall t, unique_certs t ->
  (forall job, job ∈ jobs -> settled t db job (stStore s) /\ HashChanged t "build_certs" job = false) ->
  exists t', foldR (buildJob db false) (t, s) jobs = Ok (t', s).
Proof.
  intros Ht. induction jobs as [|job jobs IH]; intros t Hu H; cbn [foldR]; [by exists t|].
  rewrite buildJob_same by (first [done|apply H; left]). cbn [rbind]. apply IH; [exact Hu|]. intros j Hj. destruct (H j) as [H1 H2]; [by right|]. split; [exact H1|].
  destruct (decide (j = job)) as [->|Hne].
  - unfold HashChanged, PromoteHash in *. cbn [build_hashes setBuildHashes]. rewrite lookup_alter_eq.
    destruct (build_hashes t !! _); [|done]. cbn. by rewrite String.eqb_refl.
  - unfold HashChanged, PromoteHash in *. cbn [build_hashes setBuildHashes]. rewrite lookup_alter_ne; [done|]. intros [= E]. by subst.
Qed.

Definition ca_applied (t : Tables) : Prop := exists crt, secretFile "ca.crt" = Some crt /\ build_hashes t !! ("build", "ca")
  = Some (mkBuildHash (Some (HashBytes md5 crt)) (Some (HashBytes md5 crt))).

Lemma BuildCerts_outcome t s t' s' : values_trimmed (stStore s) -> unique_certs t -> BuildCerts db t s = Ok (t', s') ->
  values_trimmed (stStore s') /\ (forall job, job ∈ GetAllAllocatedJobs db -> settled t' db job (stStore s'))
  /\ (forall n k, isCertKey k = false \/ (forall a, a ∈ allocations db -> n <> certNamespace (aJob a) (aWorker a)) ->
      find (stStore s') n k = find (stStore s) n k)
  /\ ca_applied t' /\ (catalog t' = catalog t /\ job_certs t' = job_certs t).
Proof.
  intros Ht Hu. unfold BuildCerts.BuildCerts. intros (hash & Hh & H)%rbind_ok. apply rbind_ok in H as ([t1 s1] & H1 & [= <- <-]).
  pose proof (buildJobs_catalog _ _ _ _ _ _ H1) as (Hcat & Hrow).
  apply buildJobs_settle in H1 as (T & S & F); [|apply NoDup_remove_dups|done|exact Hu]. split_and!; [done|..].
  - intros job Hj. specialize (S job Hj). unfold settled, loadJobCertSpecs, PromoteHash, UpdateHash in *. cbn [catalog job_certs setBuildHashes] in *.
    destruct Hcat as [-> ->]. exact S.
  - intros n k Hn. apply F. intros job _ (Hk & ip & Hip & ->). destruct Hn as [Hn|Hn]; [congruence|].
    apply workersWhere_elem in Hip as (a & Ha & <- & <- & _). by apply (Hn a).
  - clear Hcat. unfold ca_applied. destruct (secretFile "ca.crt") as [crt|]; [|done]. injection Hh as <-. exists crt. split; [done|].
    unfold PromoteHash. cbn [build_hashes setBuildHashes]. rewrite lookup_alter_eq, Hrow. unfold UpdateHash. cbn [build_hashes setBuildHashes].
    by rewrite lookup_insert_eq.
  - by destruct Hcat.
  - by destruct Hcat.
Qed.
(** A build of certificates that succeeds settles every allocated job: each
    of its workers has every certificate of the manifest, an external one as
    the workspace has it, the others readable and not due, a shared one equal
    on all workers, and no other certificate; a job without certificates or
    workers has none left. Nothing else of the store changes, and the hash of
    the authority is applied. *)
Theorem BuildCerts_settles t s t' s' : values_trimmed (stStore s) -> unique_certs t -> BuildCerts db t s = Ok (t', s') ->
  values_trimmed (stStore s') /\ (forall job, job ∈ GetAllAllocatedJobs db -> settled t' db job (stStore s'))
  /\ (forall n k, isCertKey k = false \/ (forall a, a ∈ allocations db -> n <> certNamespace (aJob a) (aWorker a)) ->
      find (stStore s') n k = find (stStore s) n k)
  /\ ca_applied t'.
Proof. intros Ht Hu H. destruct (BuildCerts_outcome t s t' s' Ht Hu H) as (T & S & F & A & _). done. Qed.

(** A build over settled jobs whose configuration and authority are the
    applied ones succeeds and changes neither the store nor the files, and
    draws no serial number and no key. *)
Theorem BuildCerts_again t s : values_trimmed (stStore s) -> unique_certs t -> ca_applied t ->
  (forall job, job ∈ GetAllAllocatedJobs db -> settled t db job (stStore s) /\ HashChanged t "build_certs" job = false) ->
  exists t', BuildCerts db t s = Ok (t', s).
Proof.
  intros Ht Hu (crt & Ec & Hrow) H. unfold BuildCerts.BuildCerts. rewrite Ec. cbn [fmap option_fmap option_map need rbind].
  assert (Et : UpdateHash "build" "ca" (HashBytes md5 crt) t = t).
  { unfold UpdateHash. rewrite Hrow. cbn [mbind option_bind bhApplied]. rewrite insert_id by done. by destruct t. }
  rewrite Et. assert (Eh : HashChanged t "build" "ca" = false).
  { unfold HashChanged. rewrite Hrow. cbn. by rewrite String.eqb_refl. }
  rewrite Eh. destruct (buildJobs_same (GetAllAllocatedJobs db) s Ht t Hu H) as (t' & ->). by eexists.
Qed.
End certs.

(** ** build: the certificates of a concrete bucket

    A certificate authority whose certificates are their last moment, written
    out: enough to run a build. *)

(** ** A small authority *)

Fixpoint nibbles (s : string) : string :=
  match s with
  | "" => ""
  | String c s => String (byte_of (97 + byte_val c / 16)) (String (byte_of (97 + byte_val c mod 16)) (nibbles s))
  end.
Fixpoint of_nibbles (s : string) : string :=
  match s with
  | String a (String b s) => String (byte_of ((byte_val a - 97) * 16 + (byte_val b - 97))) (of_nibbles s)
  | _ => ""
  end.
Lemma of_nibbles_nibbles s : of_nibbles (nibbles s) = s.
Proof.
  induction s as [|c s IH]; cbn; [done|]. pose proof (byte_val_range c). rewrite IH.
  pose proof (Z.mod_pos_bound (byte_val c) 16 ltac:(lia)). assert (0 <= byte_val c / 16 < 16).
  { split; [apply Z.div_pos; lia|apply Z.div_lt_upper_bound; lia]. }
  rewrite !byte_val_of by lia. replace ((97 + byte_val c / 16 - 97) * 16 + (97 + byte_val c `mod` 16 - 97)) with (byte_val c); [by rewrite byte_of_val|].
  pose proof (Z.div_mod (byte_val c) 16). lia.
Qed.
Lemma nibbles_letters s : ascii_only (nibbles s) = true /\ forall r, r ∈ bytes (nibbles s) -> 97 <= r < 113.
Proof.
  induction s as [|c s [IH1 IH2]]; [split; [done|by intros r ?%elem_of_nil]|]. cbn [nibbles ascii_only bytes]. pose proof (byte_val_range c).
  pose proof (Z.mod_pos_bound (byte_val c) 16 ltac:(lia)). assert (0 <= byte_val c / 16 < 16).
  { split; [apply Z.div_pos; lia|apply Z.div_lt_upper_bound; lia]. }
  rewrite !byte_val_of by lia. split; [rewrite IH1; blia|]. intros r [->|[->|Hr]%elem_of_cons]%elem_of_cons; [lia..|by apply IH2].
Qed.
Definition toy_pem_encode (type der : string) : string :=
  String (if String.eqb type "CERTIFICATE" then "C" else if String.eqb type "PRIVATE KEY" then "P" else "R") (nibbles der).
Definition toy_pem_decode (s : string) : option (string * string) :=
  match s with
  | String "C" s => Some ("CERTIFICATE", of_nibbles s)
  | String "P" s => Some ("PRIVATE KEY", of_nibbles s)
  | String "R" s => Some ("RSA PRIVATE KEY", of_nibbles s)
  | _ => None
  end%string.
(** A certificate for an address that is no address is signed, and refused
    when it is read. *)
Definition toy_parse (der : string) : option Z := if String.eqb der "no address" then None else Atoi der.
Definition toy_create (t : Template) (ca : Z) (caKey key : nat) : option string :=
  if negb (forallb nonempty_string (tIPs t)) then Some "no address" else if in_int64 (tNotAfter t) then Some (Itoa (tNotAfter t)) else None.
Definition toy_key (der : string) : option nat := Some (String.length der).
Definition toy_ip (s : string) : string := if forallb (fun c => bool_decide (c = "."%char) || is_digit_ascii (byte_val c)) (String.list_ascii_of_string s) then s else "".

Lemma toy_laws : crypto_laws toy_pem_decode toy_pem_encode toy_parse id toy_create.
Proof.
  split; [done| |].
  - intros type der Ht. rewrite TrimSpace_trimmed.
    + unfold toy_pem_encode. repeat (apply elem_of_cons in Ht as [->|Ht]); [..|by apply elem_of_nil in Ht]; cbn; by rewrite of_nibbles_nibbles.
    + apply trimmed_all. pose proof (nibbles_letters der) as [H1 H2]. unfold toy_pem_encode. intros r.
      rewrite runes_ascii_only by (cbn [ascii_only]; rewrite H1; by repeat case_match). intros [->|Hr]%elem_of_cons; apply IsSpace_above.
      * repeat case_match; vm_compute; split; congruence.
      * specialize (H2 r Hr). lia.
  - intros t ca cak key der. unfold toy_create. intros H Hips. assert (E : forallb nonempty_string (tIPs t) = true).
    { apply forallb_forall. intros ip Hip. unfold nonempty_string. apply negb_true_iff, bool_decide_eq_false.
      exact (proj1 (Forall_forall _ _) Hips ip (proj2 (list_elem_of_In _ _) Hip)). }
    rewrite E in H. cbn [negb] in H. destruct (in_int64 (tNotAfter t)) eqn:Er; [|done]. injection H as <-. exists (tNotAfter t).
    unfold toy_parse. rewrite Atoi_Itoa by done. destruct (String.eqb_spec (Itoa (tNotAfter t)) "no address") as [Ei|_].
    + pose proof (Atoi_Itoa _ Er) as Ha. rewrite Ei in Ha. by vm_compute in Ha.
    + split; [done|]. unfold Second, id. lia.
Qed.

(** ** A build *)

Definition toy_pkcs8 (der : string) : option (option nat) := Some (toy_key der).
Definition toy_text (k : nat) : string := Itoa (Z.of_nat k).
Definition toy_some_text (k : nat) : option string := Some (toy_text k).
Definition toy_serial (n : nat) : option Z := Some (Z.of_nat n).
Definition toy_generate (n : nat) : option nat := Some n.
Definition toy_hash (s : string) : list Z := [Z.of_nat (String.length s)].
Definition toy_secret (name : string) : option string := Some (toy_pem_encode "CERTIFICATE" "0").
Definition toy_external (path : string) : option string := Some (toy_pem_encode (if HasSuffix path ".crt" then "CERTIFICATE" else "PRIVATE KEY") "7").
Definition year : BucketSettings := mkBucketSettings 365 30 false "" 7.
Definition toy_build (settings : BucketSettings) (now : Z) := BuildCerts toy_pem_decode toy_pem_encode toy_parse id toy_key toy_pkcs8 toy_text toy_some_text
  toy_ip toy_serial toy_generate toy_create toy_hash toy_secret toy_external "/tmp" (Ok settings) now.
Definition web_certs : list CertRow :=
  let subject := mkSubject "web" "" "" "" "" "" in [mkCertRow "j1" "own" true false subject false; mkCertRow "j1" "shared" false true subject false;
    mkCertRow "j1" "outer" false false subject true].
Definition cert_tables : Tables := mkTables (mkCatalog [] [] [] [mkJobRow "j1" "web" "1.0.0" "0" "0" "0" "0" "0" "0" 0 defaultColumns] [] []) [] [] web_certs
  {[("build_certs", "web") := mkBuildHash (Some "certs") None]}.
Definition cert_db (workers : list string) : DB := mkDB (map (fun ip => mkAlloc ip ip "web" 0 0 None) workers) ∅ ∅.
Definition two_workers : DB := cert_db ["10.0.0.1"; "10.0.0.2"].
Definition old_store : Store := Put (Put NewStore (certNamespace "web" "10.0.0.1") "certs/old.crt" "old" 0) (certNamespace "web" "10.0.0.1") "PORT" "80" 0.
Definition first_state : CertState := mkCertState old_store ∅ 0.
Definition built : Tables * CertState := match toy_build year 0 two_workers cert_tables first_state with Ok r => r | Err _ => (cert_tables, first_state) end.

Lemma toy_settings : lasting year.
Proof. vm_compute. split_and!; congruence. Qed.
Lemma two_workers_plain : plain_allocations toy_ip two_workers.
Proof. by apply (bool_decide_unpack _); vm_compute. Qed.
Lemma web_certs_unique : unique_certs cert_tables.
Proof.
  intros job. unfold loadJobCertSpecs, GetJobID, jobOf. cbn -[bool_decide String.eqb]. case_bool_decide; cbn; [|constructor].
  by apply (bool_decide_unpack _); vm_compute.
Qed.
Lemma old_store_trimmed : values_trimmed old_store.
Proof.
  intros n k v. unfold valueAt, view, old_store. rewrite !BuildVarsFacts.Put_find. rewrite find_NewStore.
  repeat case_decide; cbn -[TrimSpace]; try done; intros [= <-]; reflexivity.
Qed.
Definition keysOf (s : CertState) (ip : string) : list string := GetKeys (stStore s) (certNamespace "web" ip).
Lemma toy_build_ok_pair : toy_build year 0 two_workers cert_tables first_state = Ok (built.1, built.2).
Proof. vm_compute. reflexivity. Qed.
(** Both workers have the three certificates, the old one is gone and the
    variable stays; four files of own certificates, and two of the shared one
    on each worker. *)
Lemma BuildCerts_settles_witness :
  settled toy_pem_decode toy_parse id toy_key toy_pkcs8 toy_external 0 year built.1 two_workers "web" (stStore built.2)
  /\ find (stStore built.2) (certNamespace "web" "10.0.0.1") "PORT" = find old_store (certNamespace "web" "10.0.0.1") "PORT"
  /\ stDrawn built.2 = 3%nat.
Proof.
  assert (Hip : toy_ip "127.0.0.1" <> "") by (vm_compute; discriminate).
  destruct (BuildCerts_settles toy_pem_decode toy_pem_encode toy_parse id toy_key toy_pkcs8 toy_text toy_some_text toy_ip toy_serial toy_generate toy_create
    toy_hash toy_secret toy_external "/tmp" (Ok year) 0 toy_laws Hip year toy_settings two_workers two_workers_plain eq_refl cert_tables first_state
    built.1 built.2 old_store_trimmed web_certs_unique toy_build_ok_pair) as (_ & S & F & _).
  split; [apply S; apply (bool_decide_unpack _); vm_compute; reflexivity|]. split; [apply F; left; reflexivity|]. vm_compute. reflexivity.
Defined.

(** *** The same build again *)

Lemma built_unique : unique_certs built.1.
Proof.
  intros job. replace (loadJobCertSpecs built.1 job) with (loadJobCertSpecs cert_tables job); [apply web_certs_unique|].
  unfold loadJobCertSpecs. assert (catalog built.1 = catalog cert_tables /\ job_certs built.1 = job_certs cert_tables) as [-> ->]; [|done].
  split; vm_compute; reflexivity.
Qed.
Lemma built_settled : values_trimmed (stStore built.2)
  /\ settled toy_pem_decode toy_parse id toy_key toy_pkcs8 toy_external 0 year built.1 two_workers "web" (stStore built.2).
Proof.
  assert (Hip : toy_ip "127.0.0.1" <> "") by (vm_compute; discriminate).
  destruct (buildJobs_settle toy_pem_decode toy_pem_encode toy_parse id toy_key toy_pkcs8 toy_text toy_some_text toy_ip toy_serial toy_generate toy_create
    toy_secret toy_external "/tmp" (Ok year) 0 toy_laws Hip year toy_settings two_workers two_workers_plain eq_refl true ["web"]
    ltac:(repeat constructor; by intros ?%elem_of_nil) (UpdateHash "build" "ca" (HashBytes toy_hash (default "" (toy_secret "ca.crt"))) cert_tables)
    first_state (PromoteHash "build_certs" "web" (UpdateHash "build" "ca" (HashBytes toy_hash (default "" (toy_secret "ca.crt"))) cert_tables)) built.2
    old_store_trimmed web_certs_unique) as (T & S & _); [vm_compute; reflexivity|].
  split; [exact T|]. specialize (S "web" ltac:(left)). unfold settled, loadJobCertSpecs in *.
  assert (catalog built.1 = catalog cert_tables /\ job_certs built.1 = job_certs cert_tables) as [-> ->]; [split; vm_compute; reflexivity|]. exact S.
Qed.
Lemma built_ca : ca_applied toy_hash toy_secret built.1.
Proof. exists (toy_pem_encode "CERTIFICATE" "0"). split; [reflexivity|]. vm_compute. reflexivity. Qed.
Lemma BuildCerts_again_witness : exists t, toy_build year 0 two_workers built.1 built.2 = Ok (t, built.2).
Proof.
  assert (Hip : toy_ip "127.0.0.1" <> "") by (vm_compute; discriminate).
  apply (BuildCerts_again toy_pem_decode toy_pem_encode toy_parse id toy_key toy_pkcs8 toy_text toy_some_text toy_ip toy_serial toy_generate toy_create
    toy_hash toy_secret toy_external "/tmp" (Ok year) 0 toy_laws Hip year toy_settings two_workers two_workers_plain eq_refl built.1 built.2
    (proj1 built_settled) built_unique built_ca).
  intros job Hj. assert (job = "web") as ->.
  { apply list_elem_of_singleton. exact Hj. }
  split; [exact (proj2 built_settled)|vm_compute; reflexivity].
Defined.

(** ** What a build accepts *)

(** A worker may be named by its host name, which is no address: its
    certificate is made, and the next build stops on reading it. *)
Theorem host_stops_builds : let db := cert_db ["db.internal"] in
  match toy_build year 0 db cert_tables first_state with
  | Ok (t, s) => toy_build year 0 db t s = Err StoredCertificate
  | Err _ => False
  end.
Proof. vm_compute. reflexivity. Qed.

(** The lifetime of a certificate is a count of nanoseconds: from 106752 days
    on it wraps around, and the certificate ends before it begins. *)
Theorem long_lifetime_is_over : days 106751 = 106751 * 24 * Hour
  /\ tNotAfter (certTemplate toy_ip 0 1 (pkixSubject (mkSubject "web" "" "" "" "" "")) ["10.0.0.1"] 106752) < 0.
Proof. split; vm_compute; reflexivity. Qed.
