(* ===== verification/BuildStore.v ===== *)
(** * build: the store of a build

    The steps of [ExecuteContext] in build/execute.go that write the session's
    store, in their order: the variables, the check of the authority's
    certificate, the certificates of allocations, their variables, the catalog
    of Prometheus, and the expiry of old entries. The steps before them read
    the store or leave it alone; the purge of old versions and the save that
    follow are those of Kv.v. *)
From S2P Require Import Prelude GoStrings Utils Kv KvFacts Ports AllocState AllocStateFacts BucketConf Catalog Placement PathMatch ConfParser ConfRoundtrip JobTree BuildVars BuildVarsFacts BuildJobs PromConfig BuildCerts BuildCertsFacts HashTree.
Open Scope Z_scope.

Inductive store_error := VariablesFailed (e : vars_error) | AuthorityUnreadable | CertificatesFailed (e : certs_error) | PrometheusFailed (e : prom_error).
Definition in_vars {A} (r : result vars_error A) : result store_error A := match r with Ok a => Ok a | Err e => Err (VariablesFailed e) end.
Definition in_certs {A} (r : result certs_error A) : result store_error A := match r with Ok a => Ok a | Err e => Err (CertificatesFailed e) end.
Definition in_prom {A} (r : result prom_error A) : result store_error A := match r with Ok a => Ok a | Err e => Err (PrometheusFailed e) end.

(** What [BuildVariables] and [BuildCerts] ask of the bucket, of the workspace
    and of Go's library. *)
Record Sources := mkSources {
  hostnameOf : string -> string;
  labelUUID : string -> string;
  caCertificate : string;
  trustBundle : string;
  jobBucketConf : string -> result vars_error Vars;
  jobVarsConf : string -> result vars_error Vars;
  bucketVars : result vars_error Vars;
  portRange : result vars_error PortRange;
  bucketID : string;
}.
Record Crypto := mkCrypto {
  cert : Type;
  privateKey : Type;
  pemDecode : string -> option (string * string);
  pemEncode : string -> string -> string;
  parseCertificate : string -> option cert;
  certNotAfter : cert -> Z;
  parsePKCS1 : string -> option privateKey;
  parsePKCS8 : string -> option (option privateKey);
  marshalPKCS1 : privateKey -> string;
  marshalPKCS8 : privateKey -> option string;
  ParseIP : string -> string;
  randomSerial : nat -> option Z;
  generateKey : nat -> option privateKey;
  createCertificate : Template -> cert -> privateKey -> privateKey -> option string;
  md5 : string -> list Z;
  secretFile : string -> option string;
  readCertFile : string -> option string;
}.

Section build.
Context `{Unicode} `{FloatText} (src : Sources) (lib : Crypto) (disk : Disk) (eng : Engines) (TempLocation : string) (bucketSettings : result certs_error BucketSettings).
(** The moments of the certificates, in nanoseconds, and of the expiry, in seconds. *)
Context (now unixNow : Z).
Definition variablesStep (c : Catalog) (db : DB) (removedWorkers removedJobs : list string) (deleteSecretsKV : bool) (s : Store) : result store_error Store :=
  in_vars (BuildVariables c db (hostnameOf src) (labelUUID src) (caCertificate src) (trustBundle src) (jobBucketConf src) (jobVarsConf src)
    (bucketVars src) (portRange src) (bucketID src) s removedWorkers removedJobs deleteSecretsKV).
Definition certificatesStep (db : DB) (t : Tables) (s : CertState) : result store_error (Tables * CertState) :=
  in_certs (BuildCerts (pemDecode lib) (pemEncode lib) (parseCertificate lib) (certNotAfter lib) (parsePKCS1 lib) (parsePKCS8 lib) (marshalPKCS1 lib)
    (marshalPKCS8 lib) (ParseIP lib) (randomSerial lib) (generateKey lib) (createCertificate lib) (md5 lib) (secretFile lib) (readCertFile lib)
    TempLocation bucketSettings now db t s).
Definition prometheusStep (db : DB) (t : Tables) (s : Store) : result store_error Store := in_prom (BuildCatalog disk eng t db (bucketID src) s).
Definition expireStep (s : CertState) : CertState := setStore s (ExpireStaleEntries (stStore s) unixNow).
(** [checkCAExpiry] fails or prints a warning. *)
Definition buildStore (checkCAExpiry : bool) (db : DB) (t : Tables) (s : CertState) (removedWorkers removedJobs : list string) (deleteSecretsKV : bool)
    : result store_error (Tables * CertState) :=
  let? store := variablesStep (catalog t) db removedWorkers removedJobs deleteSecretsKV (stStore s) in
  if negb checkCAExpiry then Err AuthorityUnreadable
  else
    let? (t, s) := certificatesStep db t (setStore s store) in
    let? store := in_vars (BuildJobAllocationVariables (catalog t) db (stStore s) removedJobs) in
    let? store := prometheusStep db t store in
    Ok (t, expireStep (setStore s store)).
End build.

(** ** build: what a build leaves of the store

    The certificates and the variables of an allocation share its namespace:
    the steps of a build leave both, and every other namespace as the
    variables made it. *)

(** ** The variables of allocations *)

(** A synchronisation that spares certificates. *)
Lemma syncAllocation_spec s n vars : (forall k, is_Some (vars !! k) -> isCertKey k = false) -> exists s', syncAllocationKeyValues s n vars = Ok s'
  /\ (forall k, isCertKey k = false -> view s' n k = stored vars k)
  /\ (forall n' k, n' <> n \/ isCertKey k = true -> find s' n' k = find s n' k).
Proof.
  intros Hv. destruct (sync_spec s n vars syncKeyPolicyAllocation) as (s' & E & V & O & K). exists s'. split; [exact E|]. split.
  - intros k Hk. rewrite V. unfold stored, spared. rewrite Hk. by destruct (vars !! k).
  - intros n' k Hn. destruct (decide (n' = n)) as [->|Hne]; [|by apply O]. destruct Hn as [Hn|Hk]; [done|]. apply K; [|done].
    destruct (vars !! k) eqn:E'; [|done]. rewrite (Hv k) in Hk; [done|by eexists].
Qed.
Lemma clearNamespaces_spec s l : exists s', clearNamespaces s l = Ok s' /\ (forall n k, n ∈ l -> view s' n k = None)
  /\ (forall n k, n ∉ l -> find s' n k = find s n k).
Proof.
  destruct (clear_writes l s) as (s' & E & W). exists s'. split; [exact E|]. split; intros n k Hn; specialize (W n); rewrite cleared_in in W.
  - rewrite decide_True in W by done. rewrite W. unfold stored. by rewrite lookup_empty.
  - rewrite decide_False in W by done. apply W.
Qed.

Section allocations.
Context (c : Catalog) (db : DB) (wf : wf_db db) (plains : Forall (fun a => BuildVarsFacts.plain (aWorker a) /\ BuildVarsFacts.plain (aJob a)) (allocations db)).
Notation plain := BuildVarsFacts.plain.

Lemma allocated_plain_names job ip : ip ∈ GetAllocatedWorkers db job -> plain job /\ plain ip.
Proof.
  intros (a & Ha & <- & <- & _)%workersWhere_elem. by destruct (proj1 (Forall_forall _ _) plains a Ha).
Qed.
Lemma ordered_spec job p : NoDup (orderedWorkers c db job p) /\ forall ip, ip ∈ orderedWorkers c db job p -> ip ∈ workersWhere db job p.
Proof.
  unfold orderedWorkers, by_position. set (f := fun ip => (fun pos => (pos, ip)) <$> GetWorkerPosition c ip).
  assert (Hsnd : forall l, exists l', (omap f l).*2 = l' /\ l' `sublist_of` l).
  { induction l as [|ip l IH]; [exists []; done|]. destruct IH as (l' & E & Hl). cbn [omap list_omap]. unfold f at 1.
    destruct (GetWorkerPosition c ip); cbn; [exists (ip :: l'); split; [by f_equal|by apply sublist_skip]|exists l'; split; [done|by apply sublist_cons]]. }
  destruct (Hsnd (workersWhere db job p)) as (l' & E & Hl).
  assert (Hp : (merge_sort position_le (omap f (workersWhere db job p))).*2 ≡ₚ l') by (by rewrite merge_sort_Permutation, E).
  assert (Hnd : NoDup (workersWhere db job p)).
  { unfold workersWhere. destruct wf as [_ Hk]. clear -Hk. induction (allocations db) as [|a l IH]; [constructor|]. cbn [map] in Hk.
    apply NoDup_cons in Hk as [Ha Hk]. cbn [List.filter]. destruct (_ && _) eqn:Ej; [|by apply IH]. cbn [fmap list_fmap map]. constructor; [|by apply IH].
    intros (b & Eb & [Hb Hj]%elem_of_list_filter_b)%list_elem_of_fmap. apply Ha, list_elem_of_fmap. exists b. split; [|done]. bool_to_prop. congruence. }
  split.
  - rewrite Hp. by eapply sublist_NoDup.
  - intros ip Hip. rewrite Hp in Hip. by eapply elem_of_sublist.
Qed.

Notation workers job := (GetNonRemovedAllocationsOrdered c db job).
Lemma ordered_allocated job ip : ip ∈ workers job -> ip ∈ GetNonRemovedAllocations db job /\ ip ∈ GetAllocatedWorkers db job.
Proof.
  intros Hip%ordered_spec. assert (H : ip ∈ GetNonRemovedAllocations db job) by (unfold GetNonRemovedAllocations; by rewrite merge_sort_Permutation).
  split; [done|by apply planned_allocated].
Qed.

Lemma slash_in_cert_key k : isCertKey k = true -> no_byte slash k = false.
Proof. unfold isCertKey. intros ->%HasPrefix_inv. done. Qed.
Lemma allocationVariables_keys job ws idx ip vars k : plain job -> allocationVariables db job ws idx ip = Ok vars -> is_Some (vars !! k) -> isCertKey k = false.
Proof.
  intros Hp. unfold allocationVariables. intros (id & _ & [= <-])%rbind_ok Hk. apply not_true_iff_false. intros Hc%slash_in_cert_key.
  destruct Hk as [v Hk]. rewrite !lookup_insert_Some, lookup_empty in Hk.
  destruct Hk as [[<- _]|[_ [[<- _]|[_ [[<- _]|[_ [=]]]]]]]; [done|done|]. unfold slash in Hc. rewrite no_byte_app in Hc. unfold plain in Hp. by rewrite Hp in Hc.
Qed.
(** The loop over the workers of a job. *)
Lemma syncWorkers_spec job ws l : NoDup (map snd l) -> plain job -> (forall i ip, (i, ip) ∈ l -> is_Some (GetAllocationID db ip job)) -> forall s,
  exists s', foldR (fun s iw => let? vars := allocationVariables db job ws iw.1 iw.2 in
                                store_result (syncAllocationKeyValues s (jobWorkerNamespace job iw.2) vars)) s l = Ok s'
  /\ (forall i ip, (i, ip) ∈ l -> exists vars, allocationVariables db job ws i ip = Ok vars
        /\ forall k, isCertKey k = false -> view s' (jobWorkerNamespace job ip) k = BuildVarsFacts.stored vars k)
  /\ (forall n k, (forall ip, ip ∈ map snd l -> n <> jobWorkerNamespace job ip) \/ isCertKey k = true -> find s' n k = find s n k).
Proof.
  intros Hnd Hp. induction l as [|[i ip] l IH]; intros Hid s; cbn [foldR].
  { exists s. split_and!; [done|by intros ? ? ?%elem_of_nil|done]. }
  cbn [map] in Hnd. apply NoDup_cons in Hnd as [Hnew Hnd]. destruct (Hid i ip) as [id Eid]; [left|]. cbn [fst snd].
  assert (Ev : exists vars, allocationVariables db job ws i ip = Ok vars) by (unfold allocationVariables; rewrite Eid; cbn; by eexists).
  destruct Ev as [vars Ev]. rewrite Ev. cbn [rbind].
  destruct (syncAllocation_spec s (jobWorkerNamespace job ip) vars) as (s1 & E1 & V1 & O1); [intros k; by apply (allocationVariables_keys job ws i ip)|].
  rewrite E1. cbn [store_result rbind]. destruct (IH Hnd (fun j jp Hj => Hid j jp (list_elem_of_further _ _ _ Hj)) s1) as (s' & E & V & O).
  exists s'. split; [exact E|]. split.
  - intros j jp [[= -> ->]|Hj]%elem_of_cons; [|by apply V]. exists vars. split; [done|]. intros k Hk. rewrite <- V1 by done. apply view_find, O. left.
    intros q Hq Eq. apply certNamespace_inj in Eq. by subst.
  - intros n k Hn. rewrite O.
    + apply O1. destruct Hn as [Hn|Hn]; [left; apply Hn; left|by right].
    + destruct Hn as [Hn|Hn]; [left|by right]. intros q Hq. apply Hn. by right.
Qed.

(** What the step leaves of a job. *)
Record allocations_of (job : string) (s s' : Store) : Prop := {
  own_variables ip : ip ∈ workers job -> exists idx vars, workers job !! idx = Some ip /\ allocationVariables db job (workers job) idx ip = Ok vars
    /\ forall k, isCertKey k = false -> view s' (jobWorkerNamespace job ip) k = BuildVarsFacts.stored vars k;
  own_certificates ip k : ip ∈ GetNonRemovedAllocations db job -> isCertKey k = true -> find s' (jobWorkerNamespace job ip) k = find s (jobWorkerNamespace job ip) k;
  stale_gone ip k : ip ∈ GetAllocatedWorkers db job -> ip ∉ GetNonRemovedAllocations db job -> view s' (jobWorkerNamespace job ip) k = None;
}.
Definition of_job (job n : string) : Prop := exists ip, ip ∈ GetAllocatedWorkers db job /\ n = jobWorkerNamespace job ip.
Lemma imap_pair_snd (l : list string) : map snd (imap pair l) = l.
Proof.
  change (map snd (imap pair l)) with (snd <$> imap pair l). rewrite fmap_imap, (imap_ext _ (const id)) by done. by rewrite imap_const, list_fmap_id.
Qed.
Lemma elem_of_imap_pair (l : list string) i ip : (i, ip) ∈ imap pair l -> l !! i = Some ip.
Proof. intros (j & x & [= -> ->] & H)%elem_of_lookup_imap. done. Qed.
Lemma syncJobAllocation_spec job s : plain job -> exists s', syncJobAllocationVariables c db s job = Ok s' /\ allocations_of job s s'
  /\ (forall n k, ~ of_job job n -> find s' n k = find s n k).
Proof.
  intros Hp. unfold syncJobAllocationVariables. cbv zeta.
  destruct (syncWorkers_spec job (workers job) (imap pair (workers job))) with (s := s) as (s1 & E1 & V1 & O1); [|done|..].
  { rewrite imap_pair_snd. apply ordered_spec. }
  { intros i ip Hi%elem_of_imap_pair. apply planned_ids; [done|]. apply ordered_allocated. by eapply list_elem_of_lookup_2. }
  rewrite E1. cbn [rbind]. unfold purgeStaleJobAllocationVariables. rewrite imap_pair_snd in O1.
  set (stale := List.filter _ _). destruct (clearNamespaces_spec s1 (map (jobWorkerNamespace job) stale)) as (s' & E & C & O). rewrite E. cbn [store_result].
  assert (Hstale : forall ip, jobWorkerNamespace job ip ∈ map (jobWorkerNamespace job) stale <-> ip ∈ GetAllocatedWorkers db job /\ ip ∉ GetNonRemovedAllocations db job).
  { intros ip. rewrite list_elem_of_fmap. unfold stale. setoid_rewrite elem_of_list_filter_b. split.
    - intros (q & Eq%certNamespace_inj & Hq & Hn). subst q. apply negb_true_iff, bool_decide_eq_false in Hn. done.
    - intros [H1 H2]. exists ip. split_and!; [done..|]. by apply negb_true_iff, bool_decide_eq_false. }
  exists s'. split; [done|]. split; [split|].
  - intros ip Hip. destruct (ordered_allocated job ip Hip) as [Hn _]. apply list_elem_of_lookup in Hip as [idx Hidx].
    destruct (V1 idx ip) as (vars & Ev & Vv); [apply elem_of_lookup_imap; eauto|]. exists idx, vars. split_and!; [done..|]. intros k Hk.
    rewrite <- Vv by done. apply view_find, O. by intros [_ ?]%Hstale.
  - intros ip k Hip Hk. rewrite O by (by intros [_ ?]%Hstale). apply O1. by right.
  - intros ip k Ha Hn. apply C, Hstale. done.
  - intros n k Hn. rewrite O.
    + apply O1. left. intros ip Hip ->. apply Hn. exists ip. split; [|done]. by apply ordered_allocated.
    + intros (ip & -> & Hip)%list_elem_of_fmap. unfold stale in Hip. apply elem_of_list_filter_b in Hip as [Hip _]. apply Hn. by exists ip.
Qed.
Lemma of_job_inj job job' n : of_job job n -> of_job job' n -> job = job'.
Proof.
  intros (ip & Hip & ->) (ip' & Hip' & E). apply allocated_plain_names in Hip as [P1 P2]. apply allocated_plain_names in Hip' as [P3 P4].
  assert (NAlloc job ip = NAlloc job' ip') as [=]; [|done]. by apply ns_inj.
Qed.
Lemma allocations_of_later job s s1 s' : (forall n k, of_job job n -> find s' n k = find s1 n k) -> allocations_of job s s1 -> allocations_of job s s'.
Proof.
  intros Hf [H1 H2 H3].
  assert (Hv : forall ip k, ip ∈ GetAllocatedWorkers db job -> find s' (jobWorkerNamespace job ip) k = find s1 (jobWorkerNamespace job ip) k).
  { intros ip k Hip. apply Hf. by exists ip. }
  split.
  - intros ip Hip. destruct (H1 ip Hip) as (idx & vars & E1 & E2 & V). exists idx, vars. split_and!; [done..|]. intros k Hk.
    rewrite <- V by done. apply view_find, Hv. by apply ordered_allocated.
  - intros ip k Hip Hk. rewrite Hv by by apply planned_allocated. by apply H2.
  - intros ip k Ha Hn. rewrite <- (H3 ip k Ha Hn). by apply view_find, Hv.
Qed.
Lemma allocations_of_earlier job s0 s s' : (forall n k, of_job job n -> find s n k = find s0 n k) -> allocations_of job s s' -> allocations_of job s0 s'.
Proof.
  intros Hf [H1 H2 H3]. split; [done| |done]. intros ip k Hip Hk. rewrite H2 by done. apply Hf. exists ip. split; [by apply planned_allocated|done].
Qed.
Lemma syncJobs_spec js : NoDup js -> Forall plain js -> forall s, exists s', foldR (syncJobAllocationVariables c db) s js = Ok s'
  /\ (forall job, job ∈ js -> allocations_of job s s') /\ (forall n k, (forall job, job ∈ js -> ~ of_job job n) -> find s' n k = find s n k).
Proof.
  induction 1 as [|job js Hnew Hnd IH]; intros Hp s; cbn [foldR]; [exists s; split_and!; [done|by intros ? ?%elem_of_nil|done]|].
  apply Forall_cons_1 in Hp as [Hp Hps]. destruct (syncJobAllocation_spec job s Hp) as (s1 & -> & A1 & O1). cbn [rbind].
  destruct (IH Hps s1) as (s' & E & A & O). exists s'. split; [exact E|]. split.
  - intros j [->|Hj]%elem_of_cons.
    + apply (allocations_of_later _ _ s1); [|done]. intros n k Hn. apply O. intros j' Hj' Hn'. by rewrite (of_job_inj _ _ _ Hn Hn') in Hnew.
    + apply (allocations_of_earlier _ _ s1); [|by apply A]. intros n k Hn. apply O1. intros Hn'. by rewrite (of_job_inj _ _ _ Hn' Hn) in Hnew.
  - intros n k Hn. rewrite O by (intros j Hj; apply Hn; by right). apply O1, Hn. left.
Qed.
Lemma clearJobs_spec js : forall s, exists s', foldR (fun s job => clearNamespaces s (map (jobWorkerNamespace job) (GetAllocatedWorkers db job))) s js = Ok s'
  /\ (forall job n k, job ∈ js -> of_job job n -> view s' n k = None) /\ (forall n k, (forall job, job ∈ js -> ~ of_job job n) -> find s' n k = find s n k).
Proof.
  induction js as [|job js IH]; intros s; cbn [foldR]; [exists s; split_and!; [done|by intros ? ? ? ?%elem_of_nil|done]|].
  destruct (clearNamespaces_spec s (map (jobWorkerNamespace job) (GetAllocatedWorkers db job))) as (s1 & -> & C1 & O1). cbn [rbind].
  assert (Hof : forall n, n ∈ map (jobWorkerNamespace job) (GetAllocatedWorkers db job) <-> of_job job n).
  { intros n. rewrite list_elem_of_fmap. unfold of_job. naive_solver. }
  destruct (IH s1) as (s' & E & C' & O). exists s'. split; [exact E|]. split.
  - intros j n k Hj Hn. destruct (decide (j ∈ js)) as [Hjs|Hjs]; [by apply (C' j)|]. apply elem_of_cons in Hj as [->|Hj]; [|done].
    rewrite <- (C1 n k); [apply view_find, O|by apply Hof]. intros j' Hj' Hn'. by rewrite (of_job_inj _ _ _ Hn Hn') in Hjs.
  - intros n k Hn. rewrite O by (intros j Hj; apply Hn; by right). apply O1. intros H%Hof. by apply (Hn job); [left|].
Qed.
(** Every allocation has its variables next to its certificates; what is no
    longer planned, and what belongs to a removed job, has nothing. *)
Lemma BuildJobAllocationVariables_spec s removedJobs : NoDup (Catalog.GetJobs c) -> Forall plain (Catalog.GetJobs c) -> exists s',
  BuildJobAllocationVariables c db s removedJobs = Ok s'
  /\ (forall job, job ∈ Catalog.GetJobs c -> job ∉ removedJobs -> allocations_of job s s')
  /\ (forall job n k, job ∈ removedJobs -> of_job job n -> view s' n k = None)
  /\ (forall n k, (forall job, job ∈ Catalog.GetJobs c \/ job ∈ removedJobs -> ~ of_job job n) -> find s' n k = find s n k).
Proof.
  intros Hnd Hp. unfold BuildJobAllocationVariables. destruct (syncJobs_spec (Catalog.GetJobs c) Hnd Hp s) as (s1 & -> & A & O1). cbn [rbind].
  destruct (clearJobs_spec removedJobs s1) as (s' & -> & C' & O). exists s'. split_and!; [done| |exact C'|].
  - intros job Hj Hr. apply (allocations_of_later _ _ s1); [|by apply A]. intros n k Hn. apply O. intros j Hj' Hn'. by rewrite (of_job_inj _ _ _ Hn Hn') in Hr.
  - intros n k Hn. rewrite O by auto. apply O1. auto.
Qed.
End allocations.

(** ** Expiry *)

Lemma view_expired s now n k : match view s n k with Some (_, ttl) => ttl <= 0 | None => True end -> view (ExpireStaleEntries s now) n k = view s n k.
Proof.
  unfold view. rewrite find_ExpireStaleEntries. destruct (find s n k) as [e|]; [|done]. cbn. unfold view_entry, expireEntry.
  destruct (Deleted e =? 1) eqn:Ed; cbn [orb]; [by rewrite Ed|]. intros Ht. destruct (Changed e); cbn [orb]; [by rewrite Ed|].
  destruct (TTL e <=? 0) eqn:Et; [by rewrite Ed|]. lia.
Qed.
Lemma view_expired_some s now n k x : view (ExpireStaleEntries s now) n k = Some x -> view s n k = Some x.
Proof.
  unfold view. rewrite find_ExpireStaleEntries. destruct (find s n k) as [e|]; [|done]. cbn. unfold view_entry, expireEntry.
  destruct (Deleted e =? 1) eqn:Ed; cbn [orb]; [by rewrite Ed|]. destruct (Changed e); cbn [orb]; [by rewrite Ed|].
  destruct (TTL e <=? 0); [by rewrite Ed|]. destruct (_ >? now); [by rewrite Ed|done].
Qed.

Section settled.
Context {C P : Type} (pemDecode : string -> option (string * string)) (parseCertificate : string -> option C) (certNotAfter : C -> Z).
Context (parsePKCS1 : string -> option P) (parsePKCS8 : string -> option (option P)) (readCertFile : string -> option string) (now : Z) (settings : BucketSettings).
Notation settled := (settled pemDecode parseCertificate certNotAfter parsePKCS1 parsePKCS8 readCertFile now settings).
(** What settles a job is the certificates that are there for good and the
    absence of others. *)
Lemma settled_views t db job s s' :
  (forall ip k v, ip ∈ GetNonRemovedAllocations db job -> isCertKey k = true -> view s (certNamespace job ip) k = Some (v, 0) -> view s' (certNamespace job ip) k = Some (v, 0)) ->
  (forall ip k x, ip ∈ GetAllocatedWorkers db job -> isCertKey k = true -> view s' (certNamespace job ip) k = Some x -> view s (certNamespace job ip) k = Some x) ->
  settled t db job s -> settled t db job s'.
Proof.
  intros Hk Hn. unfold BuildCertsFacts.settled. cbv zeta. destruct (_ || _).
  - intros H ip k Hip Hc. specialize (H ip k Hip Hc). destruct (view s' (certNamespace job ip) k) as [x|] eqn:E; [|done]. apply Hn in E; [congruence|done..].
  - intros (H1 & H2 & H3).
    assert (Hp : forall ip name crt key, ip ∈ GetNonRemovedAllocations db job -> pairAt s job ip name crt key -> pairAt s' job ip name crt key).
    { intros ip name crt key Hip [E1 E2]. split; by apply Hk. }
    split_and!.
    + intros ip spec Hip Hs. destruct (H1 ip spec Hip Hs) as (crt & key & Hst & He). exists crt, key. split; [by apply Hp|].
      destruct (csExternal spec); [done|]. destruct He as (c & k & V1 & V2 & Hr). exists c, k. pose proof (Hp _ _ _ _ Hip Hst) as [E1 E2].
      destruct Hst as [F1 F2]. unfold valueAt in *. rewrite F1 in V1. rewrite F2 in V2. by rewrite E1, E2.
    + intros spec Hs Ho. destruct (H2 spec Hs Ho) as (crt & key & H). exists crt, key. intros ip Hip. apply Hp; auto.
    + intros ip k Hip Hc [x Hx]. apply (H3 ip k Hip Hc). exists x. apply Hn; [by apply planned_allocated|done..].
Qed.
End settled.

(** ** A whole build *)

Section build.
Context `{Unicode} `{FloatText} (src : Sources) (lib : Crypto) (disk : Disk) (eng : Engines) (TempLocation : string) (bucketSettings : result certs_error BucketSettings) (now unixNow : Z).
Context (db : DB) (t : Tables) (removedWorkers removedJobs : list string) (deleteSecretsKV : bool).
Notation c := (catalog t).
Notation settings_read job := (settings_readable (jobBucketConf src) (jobVarsConf src) job).
Notation run := (buildStore src lib disk eng TempLocation bucketSettings now unixNow).
Notation settled_in := (settled (pemDecode lib) (parseCertificate lib) (certNotAfter lib) (parsePKCS1 lib) (parsePKCS8 lib) (readCertFile lib) now).
Notation built := (Built c db (hostnameOf src) (labelUUID src) (caCertificate src) (trustBundle src) (jobBucketConf src) (jobVarsConf src) (bucketVars src) (portRange src)
  (bucketID src) removedWorkers removedJobs deleteSecretsKV).

(** What the rows and the settings of a bucket give. *)
Record sound (settings : BucketSettings) : Prop := {
  sound_rows : wf_db db;
  sound_jobs : NoDup (Catalog.GetJobs c);
  sound_names : names_plain c db removedWorkers removedJobs;
  sound_certs : unique_certs t;
  sound_addresses : Forall (fun a => ParseIP lib (aWorker a) <> "") (allocations db);
  sound_localhost : ParseIP lib "127.0.0.1" <> "";
  sound_crypto : crypto_laws (pemDecode lib) (pemEncode lib) (parseCertificate lib) (certNotAfter lib) (createCertificate lib);
  sound_settings : bucketSettings = Ok settings;
  sound_lifetime : lasting settings;
  sound_bucket : is_ok (bucketVars src) = true /\ is_ok (portRange src) = true;
  sound_workspace : forall names, sortedJobs disk = Ok names -> NoDup names /\ forall job, job ∈ names -> job ∈ Catalog.GetJobs c;
  sound_job_settings : forall job, job ∈ Catalog.GetJobs c -> jobShouldPurgeBuildKV db job = false -> settings_read job;
}.
Lemma sound_allocations settings : sound settings -> plain_allocations (ParseIP lib) db.
Proof.
  intros So. apply Forall_forall. intros a Ha. pose proof (proj1 (Forall_forall _ _) (allocations_plain _ _ _ _ (sound_names _ So)) a Ha) as [H1 H2].
  split_and!; [done..|]. by apply (proj1 (Forall_forall _ _) (sound_addresses _ So) a).
Qed.
Lemma wrote_trimmed W s s' : wrote W s s' -> values_trimmed s -> values_trimmed s'.
Proof.
  intros HW Ht n k v. specialize (HW n). unfold valueAt. destruct (W !! n) as [vars|].
  - rewrite HW. unfold BuildVarsFacts.stored. destruct (vars !! k); [intros [= <-]; apply TrimSpace_idem|done].
  - rewrite (view_find _ _ _ _ (HW k)). apply Ht.
Qed.

Notation leaves job := (GetNonRemovedAllocationsOrdered c db job).
(** A kept job after a build: its workers have its variables and, when the job
    is allocated, its certificates; the workers it left have nothing. *)
Record left_with (settings : BucketSettings) (t' : Tables) (job : string) (s' : Store) : Prop := {
  left_variables ip : ip ∈ leaves job -> exists idx vars, leaves job !! idx = Some ip /\ allocationVariables db job (leaves job) idx ip = Ok vars
    /\ forall k, isCertKey k = false -> view s' (jobWorkerNamespace job ip) k = BuildVarsFacts.stored vars k;
  left_certificates : job ∈ GetAllAllocatedJobs db -> settled_in settings t' db job s';
  left_nothing ip k : ip ∈ GetAllocatedWorkers db job -> ip ∉ GetNonRemovedAllocations db job -> view s' (jobWorkerNamespace job ip) k = None;
}.
Lemma view_expired_none s n k : view s n k = None -> view (ExpireStaleEntries s unixNow) n k = None.
Proof. intros E. rewrite view_expired; rewrite E; done. Qed.
Lemma left_with_expired settings t' job s2 s3 : allocations_of c db job s2 s3 -> (job ∈ GetAllAllocatedJobs db -> settled_in settings t' db job s2) ->
  left_with settings t' job (ExpireStaleEntries s3 unixNow).
Proof.
  intros [H1 H2 H3] Hs. split.
  - intros ip Hip. destruct (H1 ip Hip) as (idx & vars & E1 & E2 & V). exists idx, vars. split_and!; [done..|]. intros k Hk.
    rewrite view_expired; rewrite V by done; [done|]. unfold BuildVarsFacts.stored. by destruct (vars !! k).
  - intros Ha. apply (settled_views _ _ _ _ _ _ _ _ t' db job s2); [| |by apply Hs].
    + intros ip k v Hip Hk E. assert (E3 : view s3 (certNamespace job ip) k = Some (v, 0)) by (rewrite <- E; by apply view_find, H2).
      by rewrite view_expired; rewrite E3.
    + intros ip k x Hip Hk E%view_expired_some. rewrite <- E. symmetry. destruct (decide (ip ∈ GetNonRemovedAllocations db job)) as [Hp|Hp].
      * by apply view_find, H2.
      * change (certNamespace job ip) with (jobWorkerNamespace job ip) in E. by rewrite H3 in E.
  - intros ip k Hip Hn. by apply view_expired_none, H3.
Qed.

(** The names of the scrape configurations are in the namespaces of the jobs of
    the workspace: the namespaces of allocations are others. *)
Lemma of_job_unpromised job n : of_job db job n -> Forall (fun a => BuildVarsFacts.plain (aWorker a) /\ BuildVarsFacts.plain (aJob a)) (allocations db) ->
  n <> KVNamespace /\ forall j, BuildVarsFacts.plain j -> n <> jobNamespace j.
Proof.
  intros (ip & (a & Ha & <- & <- & _)%workersWhere_elem & ->) Hp. destruct (proj1 (Forall_forall _ _) Hp a Ha) as [P1 P2]. split.
  - unfold jobWorkerNamespace, KVNamespace. cbn. discriminate.
  - intros j Hj E. by apply (ns_inj (NAlloc (aJob a) (aWorker a)) (NJob j)) in E.
Qed.
Notation catalogued_in t' := (catalogued disk eng t').
Lemma prometheusStep_spec settings t' s : sound settings -> match prometheusStep src disk eng db t' s with
  | Err e => exists e', e = PrometheusFailed e' /\ forall names, sortedJobs disk = Ok names -> hasPrometheusServerJob disk names = true
  | Ok s' => exists names found, sortedJobs disk = Ok names /\ catalogued_in t' names found /\ promised (catalogOf disk eng db names found) found s s'
      /\ (forall job, job ∈ map fst found -> BuildVarsFacts.plain job)
  end.
Proof.
  intros So. unfold prometheusStep. destruct (BuildCatalog disk eng t' db (bucketID src) s) as [s'|e] eqn:E; cbn [in_prom].
  - apply BuildCatalog_outcome in E as (names & found & En & Hc & E). exists names, found. destruct (sound_workspace _ So names En) as [Hnd Hin].
    pose proof (catalogued_sublist _ _ _ _ _ Hc) as Hsub. split_and!; [done..| |].
    + apply sync_promised; [by eapply sublist_NoDup|by eapply catalogued_configs|done].
    + intros job Hj. apply (proj1 (Forall_forall _ _) (jobs_plain _ _ _ _ (sound_names _ So))), Hin. by eapply elem_of_sublist.
  - exists e. split; [done|]. intros names En. destruct (hasPrometheusServerJob disk names) eqn:Eh; [done|].
    destruct (BuildCatalog_idle disk eng t' db (bucketID src) names s En Eh) as (s' & E'). by rewrite E in E'.
Qed.
Lemma view_expired_stored s n k vars : view s n k = BuildVarsFacts.stored vars k -> view (ExpireStaleEntries s unixNow) n k = BuildVarsFacts.stored vars k.
Proof. intros E. rewrite view_expired; rewrite E; [done|]. unfold BuildVarsFacts.stored. by destruct (vars !! k). Qed.

(** C11: Writing the store of a build fails only where the authority, the
    certificates or the files of Prometheus do, the last only in a workspace
    with a server of Prometheus. When it succeeds the namespaces of the
    allocations of a kept job hold its variables and its certificates and
    nothing else, and those of workers it left and of removed jobs are empty.
    [kive/prometheus] holds the catalog of the scrape configurations and
    nothing else, and a job that has some has the name of the first beside its
    variables. Everything else is what the variables step made of it, less
    what has expired. *)
Theorem buildStore_spec settings s checkCA : sound settings -> values_trimmed (stStore s) ->
  match run checkCA db t s removedWorkers removedJobs deleteSecretsKV with
  | Err e => e = AuthorityUnreadable /\ checkCA = false \/ (exists e', e = CertificatesFailed e')
      \/ exists e', e = PrometheusFailed e' /\ forall names, sortedJobs disk = Ok names -> hasPrometheusServerJob disk names = true
  | Ok (t', s') => exists s1 names found, built (stStore s) s1 /\ sortedJobs disk = Ok names /\ catalogued_in t' names found
    /\ (forall job, job ∈ Catalog.GetJobs c -> job ∉ removedJobs -> left_with settings t' job (stStore s'))
    /\ (forall job ip k, job ∈ removedJobs -> ip ∈ GetAllocatedWorkers db job -> view (stStore s') (jobWorkerNamespace job ip) k = None)
    /\ (forall k, view (stStore s') KVNamespace k = BuildVarsFacts.stored (catalogOf disk eng db names found) k)
    /\ (forall job configs, (job, configs) ∈ found -> view (stStore s') (jobNamespace job) "job_name" = Some (TrimSpace (scrapeName job configs), 0))
    /\ (forall n k, (forall a, a ∈ allocations db -> n <> jobWorkerNamespace (aJob a) (aWorker a)) -> n <> KVNamespace ->
        (forall job, job ∈ map fst found -> n <> jobNamespace job) \/ k <> "job_name" ->
        find (stStore s') n k = expireEntry unixNow <$> find s1 n k)
  end.
Proof.
  intros So Ht. unfold buildStore, variablesStep.
  destruct (BuildVariables_writes c db (hostnameOf src) (labelUUID src) (caCertificate src) (trustBundle src) (jobBucketConf src) (jobVarsConf src)
    (bucketVars src) (portRange src) (bucketID src) (sound_rows _ So) removedWorkers removedJobs deleteSecretsKV (sound_bucket _ So) (sound_job_settings _ So)
    (stStore s)) as (s1 & -> & W). cbn [in_vars rbind]. destruct checkCA; cbn [negb]; [|by left].
  assert (Ht1 : values_trimmed s1) by (by eapply wrote_trimmed).
  apply wrote_built in W; [|apply So..].
  unfold certificatesStep. destruct (BuildCerts.BuildCerts _ _ _ _ _ _ _ _ _ _ _ _ _ _ _ _ _ _ _ _ _) as [[t' s2]|e] eqn:E; cbn [in_certs rbind];
    [|right; left; by eexists].
  apply (BuildCerts_outcome _ _ _ _ _ _ _ _ _ _ _ _ _ _ _ _ _ _ (sound_crypto _ So) (sound_localhost _ So) settings (sound_lifetime _ So) db
    (sound_allocations _ So) (sound_settings _ So)) in E as (_ & S & F & _ & -> & _); [|done|exact (sound_certs _ So)].
  destruct (BuildJobAllocationVariables_spec c db (sound_rows _ So) (allocations_plain _ _ _ _ (sound_names _ So)) (stStore s2) removedJobs
    (sound_jobs _ So) (jobs_plain _ _ _ _ (sound_names _ So))) as (s3 & -> & A & R & O). cbn [in_vars rbind].
  pose proof (prometheusStep_spec settings t' s3 So) as Hp. destruct (prometheusStep _ _ _ _ _ _) as [s4|e]; cbn [rbind]; [|right; right; exact Hp].
  destruct Hp as (names & found & En & Hc & [P1 P2 P3] & Hplain). exists s1, names, found. unfold expireStep. cbn [stStore setStore].
  assert (Hf : forall job n k, of_job db job n -> find s4 n k = find s3 n k).
  { intros job n k Hn. destruct (of_job_unpromised job n Hn (allocations_plain _ _ _ _ (sound_names _ So))) as [H1 H2].
    apply P3; [done|]. left. intros j Hj. by apply H2, Hplain. }
  split_and!; [exact W|exact En|exact Hc| | | | |].
  - intros job Hj Hr. apply (left_with_expired _ _ _ (stStore s2)); [|apply S].
    eapply allocations_of_later; [exact (sound_rows _ So)|intros n k; apply (Hf job)|by apply A].
  - intros job ip k Hr Hip. apply view_expired_none. rewrite <- (R job (jobWorkerNamespace job ip) k Hr) by (by exists ip).
    apply view_find, (Hf job). by exists ip.
  - intros k. by apply view_expired_stored.
  - intros job configs Hin. rewrite view_expired; by rewrite (P2 job configs Hin).
  - intros n k Hn Hk Hj. rewrite find_ExpireStaleEntries, P3, O by first [done | intros job _ (ip & (a & Ha & <- & <- & _)%workersWhere_elem & ->); by apply (Hn a)].
    f_equal. apply F. by right.
Qed.
End build.

(** ** build: the store of a concrete bucket

    A job on two workers, built with the small authority: its variables and
    its certificates side by side. *)

Definition toy_sources : Sources := mkSources (fun _ => "") id "CA" "TRUST" no_vars no_vars (Ok ∅) (Ok (mkRange 30000 32000)) "b1".
Definition toy_crypto : Crypto := mkCrypto Z nat toy_pem_decode toy_pem_encode toy_parse id toy_key toy_pkcs8 toy_text toy_some_text toy_ip toy_serial
  toy_generate toy_create toy_hash toy_secret toy_external.
(** [10.0.0.3] is no longer planned, and the job [db] was removed. *)
Definition store_db : DB := mkDB [mkAlloc "aaaaaa" "10.0.0.1" "web" 0 0 None; mkAlloc "bbbbbb" "10.0.0.2" "web" 1 0 None;
  mkAlloc "cccccc" "10.0.0.3" "web" 2 1 None; mkAlloc "dddddd" "10.0.0.1" "db" 0 1 None] ∅ ∅.
Definition store_tables : Tables := mkTables
  (mkCatalog [mkWorkerRow "w1" "10.0.0.1" "2048" "500" 0; mkWorkerRow "w2" "10.0.0.2" "2048" "500" 1] [("w1", "worker"); ("w2", "worker")] []
    [mkJobRow "j1" "web" "1.0.0" "0" "0" "256" "0" "0" "100" 0 defaultColumns] [("j1", "worker")] []) [] [] web_certs ∅.
Definition stale_store : Store := Put (Put NewStore (jobWorkerNamespace "web" "10.0.0.3") "certs/own.crt" "old" 0) (jobWorkerNamespace "db" "10.0.0.1") "ALLOCATION_ID" "dddddd" 0.
(** The job has a server of Prometheus and is scraped at its port of metrics. *)
Definition store_conf : string := Join ["resources {"; "  ports {"; "    metrics_port {"; "    }"; "  }"; "}"; ""] (String "010" "").
Definition store_files : list (string * string) := [("web/prometheus.yml", ""); ("web/job.conf", store_conf); ("web/_prometheus/scrape.yaml", "- web")].
Definition store_disk : Disk := mkDisk [("web", Dir [])] (fun path => mem path store_files.*1)
  (fun path => match head (List.filter (fun f => String.eqb f.1 path) store_files) with Some f => PromConfig.Found f.2 | None => NotExist end) (fun _ => NotExist).
Definition store_scrape : Config :=
  [("job_name", YString "kive:job"); ("static_configs", YList [YMap [("targets", YList [YString "kive:port/_implicit"])]])].
Definition store_engines : Engines := mkEngines (fun _ => None) (fun data => if String.eqb data "- web" then Some [store_scrape] else None)
  (fun configs => Some (Itoa (Z.of_nat (length configs)))) (fun _ _ _ _ _ => None) "".
Definition store_run (checkCA : bool) (s : CertState) := buildStore (H := ascii_unicode) (H0 := no_float) toy_sources toy_crypto store_disk store_engines "/tmp" (Ok year) 0 0 checkCA store_db store_tables s [] ["db"] false.
Definition store_state : CertState := mkCertState stale_store ∅ 0.
Definition store_built : Tables * CertState := match store_run true store_state with Ok r => r | Err _ => (store_tables, store_state) end.

Lemma store_certs_unique : unique_certs store_tables.
Proof.
  intros job. unfold loadJobCertSpecs, GetJobID, jobOf. cbn -[bool_decide String.eqb]. case_bool_decide; cbn; [|constructor].
  by apply (bool_decide_unpack _); vm_compute.
Qed.
Lemma stale_store_trimmed : values_trimmed stale_store.
Proof.
  intros n k v. unfold valueAt, view, stale_store. rewrite !BuildVarsFacts.Put_find. rewrite find_NewStore.
  repeat case_decide; cbn -[TrimSpace]; try done; intros [= <-]; reflexivity.
Qed.
Lemma store_names_plain : names_plain (catalog store_tables) store_db [] ["db"].
Proof. constructor; repeat constructor. Qed.
Lemma store_db_wf : wf_db store_db.
Proof. split; apply (bool_decide_unpack _); vm_compute; reflexivity. Qed.
Lemma store_jobs : sortedJobs store_disk = Ok ["web"].
Proof. vm_compute. reflexivity. Qed.
Lemma store_workspace names : sortedJobs store_disk = Ok names -> NoDup names /\ forall job, job ∈ names -> job ∈ Catalog.GetJobs (catalog store_tables).
Proof.
  rewrite store_jobs. intros [= <-]. split; [apply NoDup_singleton|]. intros job ->%list_elem_of_singleton. apply (bool_decide_unpack _). vm_compute. reflexivity.
Qed.
Lemma store_sound : sound toy_sources toy_crypto store_disk (Ok year) store_db store_tables [] ["db"] year.
Proof.
  constructor; [exact store_db_wf|apply (bool_decide_unpack _); vm_compute; reflexivity|exact store_names_plain|exact store_certs_unique
    |apply (bool_decide_unpack _); vm_compute; reflexivity|vm_compute; discriminate|exact toy_laws|reflexivity|exact toy_settings|split; reflexivity
    |exact store_workspace|intros; split; reflexivity].
Qed.
Lemma store_run_ok : store_run true store_state = Ok (store_built.1, store_built.2).
Proof. vm_compute. reflexivity. Qed.
Definition settled_in_toy (t : Tables) (s : Store) : Prop := settled toy_pem_decode toy_parse id toy_key toy_pkcs8 toy_external 0 year t store_db "web" s.
Lemma stale_found : is_Some (view stale_store (jobWorkerNamespace "web" "10.0.0.3") "certs/own.crt")
  /\ is_Some (view stale_store (jobWorkerNamespace "db" "10.0.0.1") "ALLOCATION_ID").
Proof. split; vm_compute; eexists; reflexivity. Qed.
Lemma store_planned : In "web" (Catalog.GetJobs (catalog store_tables)) /\ In "web" (GetAllAllocatedJobs store_db)
  /\ In "10.0.0.2" (GetNonRemovedAllocationsOrdered (catalog store_tables) store_db "web")
  /\ In "10.0.0.3" (GetAllocatedWorkers store_db "web") /\ In "10.0.0.1" (GetAllocatedWorkers store_db "db")
  /\ ~ In "10.0.0.3" (GetNonRemovedAllocations store_db "web").
Proof. vm_compute. split_and!; [tauto..|]. intros [|[|[]]]; discriminate. Qed.
Lemma store_promised : hasPrometheusServerJob store_disk ["web"] = true /\ scrapeAbsent store_disk "web" = false.
Proof. split; vm_compute; reflexivity. Qed.
(** The worker has its variables beside its certificates; the worker the job
    left and the removed job have nothing; the scraped job is in the catalog. *)
Lemma buildStore_spec_witness : let s' := stStore store_built.2 in
  settled_in_toy store_built.1 s'
  /\ (exists idx vars, allocationVariables store_db "web" ["10.0.0.1"; "10.0.0.2"] idx "10.0.0.2" = Ok vars
      /\ view s' (jobWorkerNamespace "web" "10.0.0.2") "allocation_id" = BuildVarsFacts.stored vars "allocation_id")
  /\ view s' (jobWorkerNamespace "web" "10.0.0.3") "certs/own.crt" = None
  /\ view s' (jobWorkerNamespace "db" "10.0.0.1") "ALLOCATION_ID" = None
  /\ (exists configs, view s' "kive/job/web" "job_name" = Some (TrimSpace (scrapeName "web" configs), 0)
      /\ view s' "kive/prometheus" "scrape/web" = Some (TrimSpace (jsonOf store_engines configs), 0))
  /\ store_run false store_state = Err AuthorityUnreadable.
Proof.
  pose proof (buildStore_spec (H := ascii_unicode) (H0 := no_float) toy_sources toy_crypto store_disk store_engines "/tmp" (Ok year) 0 0 store_db store_tables []
    ["db"] false year store_state true store_sound stale_store_trimmed) as B.
  pose proof store_planned as (P1 & P2 & P3 & P4 & P5 & P6). rewrite <- !list_elem_of_In in P1, P2, P3, P4, P5, P6.
  change (buildStore _ _ _ _ _ _ _ _ true _ _ _ _ _ _) with (store_run true store_state) in B. rewrite store_run_ok in B.
  destruct B as (s1 & names & found & _ & En & [Cj _ _] & L & R & V & N & _). rewrite store_jobs in En. injection En as <-.
  destruct store_promised as [Hs Ha]. rewrite Hs in Cj. cbn [List.filter] in Cj. rewrite Ha in Cj. cbn [negb] in Cj.
  destruct found as [|[job configs] [|]]; try discriminate Cj. injection Cj as ->.
  destruct (L "web" P1) as [L1 L2 L3]; [by intros ?%list_elem_of_singleton|].
  split; [exact (L2 P2)|]. split; [|split; [exact (L3 _ _ P4 P6)|split; [|split; [|vm_compute; reflexivity]]]].
  - destruct (L1 _ P3) as (idx & vars & _ & E & W). exists idx, vars. split; [exact E|by apply W].
  - apply (R "db"); [left|exact P5].
  - exists configs. split; [exact (N "web" configs ltac:(left))|]. refine (eq_trans (V "scrape/web") _). unfold catalogOf. rewrite Hs. unfold catalogValues, BuildVarsFacts.stored.
    rewrite !lookup_insert_ne by discriminate. unfold perJob. cbn [foldl fst snd]. exact (f_equal (fmap _) (lookup_insert_eq _ _ _)).
Defined.
