(* ===== verification/History.v ===== *)
(** * data: the history of deploys and of promotions

    data/deploy_history.go and data/promotion_state.go. A time is a number of
    nanoseconds since the Unix epoch, and a row has its text, as
    [time.RFC3339Nano] writes it in UTC, for years of four digits. Rows that a query's ORDER BY leaves
    equal are in the order of the table. The JSON of promotion-state.json is
    left to [SourceRevision], where it is a file of the bucket. *)
From S2P Require Import Prelude GoStrings Utils Calendar Catalog.
Open Scope Z_scope.

(** ** Times as text *)

(** Digits of a number at a width, as [%04d] and [%09d] write them. *)
Definition padded (width : nat) (n : Z) : string := String.string_of_list_ascii (map (fun i => digit_char (n / 10 ^ Z.of_nat i mod 10)) (rev (seq 0 width))).
Fixpoint trimZeros (digits : list ascii) : list ascii :=
  match digits with
  | [] => []
  | c :: digits => match trimZeros digits with [] => if bool_decide (c = "0"%char) then [] else [c] | rest => c :: rest end
  end.
(** The fraction of the layout, [.999999999]. *)
Definition fraction (nsec : Z) : string :=
  match trimZeros (String.list_ascii_of_string (padded 9 nsec)) with
  | [] => ""
  | digits => "." +:+ String.string_of_list_ascii digits
  end.
(** [t.UTC().Format(time.RFC3339Nano)] *)
Definition RFC3339Nano (t : instant) : string :=
  let date := Date_of UTC t in
  let secs := clock_secs UTC t in
  padded 4 (Year date) +:+ "-" +:+ padded 2 (Month date) +:+ "-" +:+ padded 2 (Day date) +:+ "T" +:+ padded 2 (secs / 3600) +:+ ":"
    +:+ padded 2 (secs mod 3600 / 60) +:+ ":" +:+ padded 2 (secs mod 60) +:+ fraction (t mod second) +:+ "Z".

(** [width] digits at the start of a text. *)
Definition takeNumber (width : nat) (s : string) : option (Z * string) :=
  let digits := stake width s in
  if (String.length digits =? width)%nat then n ← digits_value 0 digits; Some (n, sdrop width s) else None.
Definition takeChar (c : ascii) (s : string) : option string :=
  match s with String d s => if bool_decide (c = d) then Some s else None | "" => None end.
Fixpoint takeDigits (s : string) : string * string :=
  match s with
  | String c rest => if is_digit_ascii (byte_val c) then let '(digits, rest) := takeDigits rest in (String c digits, rest) else ("", s)
  | "" => ("", "")
  end.
Definition takeFraction (s : string) : option (Z * string) :=
  match s with
  | String "." rest =>
      let '(digits, rest) := takeDigits rest in
      let nine := stake 9 digits in
      if String.eqb digits "" then None
      else n ← digits_value 0 nine; Some (n * 10 ^ Z.of_nat (9 - String.length nine), rest)
  | _ => Some (0, s)
  end%char.
(** The offset from UTC in seconds. *)
Definition takeZone (s : string) : option Z :=
  match s with
  | "Z" => Some 0
  | String sign rest =>
      '(hours, rest) ← takeNumber 2 rest; rest ← takeChar ":" rest; '(minutes, rest) ← takeNumber 2 rest;
      if negb (String.eqb rest "") || (23 <? hours) || (59 <? minutes) then None
      else if bool_decide (sign = "+"%char) then Some (hours * 3600 + minutes * 60)
      else if bool_decide (sign = "-"%char) then Some (- (hours * 3600 + minutes * 60)) else None
  | "" => None
  end.
(** [time.Parse] for the two layouts, which read the same texts; the spellings
    outside RFC 3339 that Go lets pass are refused here. *)
Definition ParseRFC3339 (s : string) : option instant :=
  '(year, s) ← takeNumber 4 s; s ← takeChar "-" s; '(month, s) ← takeNumber 2 s; s ← takeChar "-" s; '(day, s) ← takeNumber 2 s;
  s ← takeChar "T" s; '(hour, s) ← takeNumber 2 s; s ← takeChar ":" s; '(min, s) ← takeNumber 2 s; s ← takeChar ":" s;
  '(sec, s) ← takeNumber 2 s; '(nsec, s) ← takeFraction s; offset ← takeZone s;
  if negb (in_range 1 12 month) || negb (in_range 1 (month_days year month) day) || (23 <? hour) || (59 <? min) || (59 <? sec) then None
  else Some (DateClock UTC year month day (hour * 3600 + min * 60 + sec) nsec - offset * second).
(** The zero time when no layout fits. *)
Definition parseStored (s : string) : instant := default zero_time (ParseRFC3339 s).

(** ** Rows *)

Definition DeployHistoryRetention : Z := 50.
Definition DeployHistoryStatusSucceeded : string := "succeeded".
Definition DeployHistoryOutcomeSkipped : string := "skipped".

Record HistoryRow := mkHistoryRow {
  dhRunID : string;
  dhGeneration : Z;
  dhStartedAt : string;
  dhEndedAt : string;
  dhStatus : string;
  dhSourceRevision : string;
  dhBuildGitHash : string;
  dhJobsFilter : string;
  dhForce : Z;
  dhChanged : Z;
  dhError : string;
}.
Record DeployHistoryJob := mkHistoryJob { hjJob : string; hjOutcome : string; hjReason : string; hjVersion : string; hjOrder : Z }.
(** A job with the run that it belongs to. *)
Notation HistoryJobRow := (string * DeployHistoryJob)%type.
Record History := mkHistory { deploy_history : list HistoryRow; deploy_history_jobs : list HistoryJobRow }.
Record DeployHistoryEntry := mkEntry_ {
  eRunID : string;
  eGeneration : Z;
  eStartedAt : instant;
  eEndedAt : instant;
  eStatus : string;
  eSourceRevision : string;
  eBuildGitHash : string;
  eJobsFilter : string;
  eForce : bool;
  eChanged : bool;
  eError : string;
  eJobs : list DeployHistoryJob;
}.
Record DeployHistoryRecord := mkRecord {
  rRunID : string;
  rGeneration : Z;
  rStartedAt : instant;
  rEndedAt : instant;
  rStatus : string;
  rSourceRevision : string;
  rBuildGitHash : string;
  rJobsFilter : string;
  rForce : bool;
  rError : string;
  rJobs : list DeployHistoryJob;
}.
Inductive history_error := RunIDRequired | UniqueRun (run : string) | UniqueJob (run job : string).

(** SQLite's trim() removes blanks alone. *)
Fixpoint trimLeftBlanks (s : string) : string :=
  match s with String " " s => trimLeftBlanks s | _ => s end%char.
Definition reverseString (s : string) : string := String.string_of_list_ascii (rev (String.list_ascii_of_string s)).
Definition sqlTrim (s : string) : string := reverseString (trimLeftBlanks (reverseString (trimLeftBlanks s))).
(** ORDER BY ended_at DESC, generation DESC *)
Definition newer (a b : HistoryRow) : Prop :=
  dhEndedAt a <> dhEndedAt b /\ String.le (dhEndedAt b) (dhEndedAt a) \/ dhEndedAt a = dhEndedAt b /\ dhGeneration b <= dhGeneration a.
#[export] Instance newer_dec a b : Decision (newer a b).
Proof. unfold newer. apply _. Defined.
Definition newestFirst (rows : list HistoryRow) : list HistoryRow := merge_sort newer rows.
(** ORDER BY deployment_order ASC, job ASC *)
Definition job_le (a b : HistoryJobRow) : Prop := hjOrder a.2 < hjOrder b.2 \/ hjOrder a.2 = hjOrder b.2 /\ String.le (hjJob a.2) (hjJob b.2).
#[export] Instance job_le_dec a b : Decision (job_le a b).
Proof. unfold job_le. apply _. Defined.

(** ** Writing *)

Definition changedBy (jobs : list DeployHistoryJob) : bool := existsb (fun j => negb (String.eqb (hjOutcome j) DeployHistoryOutcomeSkipped)) jobs.
Definition flag (b : bool) : Z := if b then 1 else 0.
Definition rowOf (r : DeployHistoryRecord) : HistoryRow :=
  mkHistoryRow (rRunID r) (rGeneration r) (RFC3339Nano (rStartedAt r)) (RFC3339Nano (rEndedAt r)) (rStatus r) (TrimSpace (rSourceRevision r))
    (TrimSpace (rBuildGitHash r)) (TrimSpace (rJobsFilter r)) (flag (rForce r)) (flag (changedBy (rJobs r))) (TrimSpace (rError r)).
Definition insertJob (run : string) (rows : list HistoryJobRow) (job : DeployHistoryJob) : result history_error (list HistoryJobRow) :=
  if String.eqb (TrimSpace (hjJob job)) "" then Ok rows
  else if existsb (fun r => String.eqb r.1 run && String.eqb (hjJob r.2) (hjJob job)) rows then Err (UniqueJob run (hjJob job))
  else Ok (rows ++ [(run, job)]).
Definition InsertDeployHistory (h : History) (r : DeployHistoryRecord) : result history_error History :=
  if String.eqb (TrimSpace (rRunID r)) "" then Err RunIDRequired
  else if existsb (fun row => String.eqb (dhRunID row) (rRunID r)) (deploy_history h) then Err (UniqueRun (rRunID r))
  else
    let? jobs := foldR (insertJob (rRunID r)) (deploy_history_jobs h) (rJobs r) in
    Ok (mkHistory (deploy_history h ++ [rowOf r]) jobs).

(** ** Promotable revisions *)

Definition promotable (row : HistoryRow) : bool :=
  String.eqb (dhStatus row) DeployHistoryStatusSucceeded && (dhChanged row =? 1) && negb (String.eqb (sqlTrim (dhSourceRevision row)) "").
Definition nonEmpty (l : list string) : list string := List.filter (fun s => negb (String.eqb s "")) l.
(** SELECT DISTINCT, then the trimmed texts that are not empty. *)
Definition distinctTrimmed (l : list string) : list string := nonEmpty (map TrimSpace (remove_dups l)).
Definition PromotableSourceRevisions (h : History) : list string :=
  distinctTrimmed (map dhSourceRevision (List.filter promotable (deploy_history h))).
Definition CountPromotableSourceRevisions (h : History) : Z := Z.of_nat (length (PromotableSourceRevisions h)).
Definition DeployHistorySourceRevisions (h : History) : list string :=
  distinctTrimmed (map dhSourceRevision (List.filter (fun row => negb (String.eqb (sqlTrim (dhSourceRevision row)) "")) (deploy_history h))).

(** ** Pruning *)

(** LIMIT *)
Definition limited {A} (n : Z) (l : list A) : list A := if n <? 0 then l else take (Z.to_nat n) l.
Definition positive (n default_ : Z) : Z := if n <? 1 then default_ else n.
Definition PruneDeployHistory (h : History) (keep : Z) : History :=
  let kept := map dhRunID (limited (positive keep DeployHistoryRetention) (newestFirst (deploy_history h))) in
  mkHistory (List.filter (fun row => mem (dhRunID row) kept) (deploy_history h))
    (List.filter (fun row : HistoryJobRow => mem row.1 kept) (deploy_history_jobs h)).
Definition deleteRun (h : History) (runID : string) : History :=
  if String.eqb (TrimSpace runID) "" then h
  else mkHistory (List.filter (fun row => negb (String.eqb (dhRunID row) runID)) (deploy_history h))
         (List.filter (fun row : HistoryJobRow => negb (String.eqb row.1 runID)) (deploy_history_jobs h)).
Definition deleteDeployHistoryRuns (h : History) (runIDs : list string) : History := foldl deleteRun h runIDs.
Definition orphanRow (row : HistoryRow) : bool := String.eqb (TrimSpace (dhSourceRevision row)) "".
Definition PruneDeployHistoryKeepingRevisions (h : History) (keep : list string) (keepNewestOrphan : Z) : History :=
  let keepSet := nonEmpty (map TrimSpace keep) in
  let drop := map dhRunID (List.filter (fun row => negb (orphanRow row) && negb (mem (TrimSpace (dhSourceRevision row)) keepSet)) (deploy_history h)) in
  let orphans := List.filter orphanRow (deploy_history h) in
  let keepNewestOrphan := positive keepNewestOrphan DeployHistoryRetention in
  let drop :=
    if Z.of_nat (length orphans) >? keepNewestOrphan then
      let ordered := map dhRunID (newestFirst (List.filter (fun row => String.eqb (sqlTrim (dhSourceRevision row)) "") (deploy_history h))) in
      drop ++ List.skipn (Z.to_nat keepNewestOrphan) ordered
    else drop in
  deleteDeployHistoryRuns h drop.

(** ** Reading *)

Fixpoint uniqueFrom (seen : list string) (l : list string) : list string :=
  match l with
  | [] => []
  | s :: l => let s := TrimSpace s in if String.eqb s "" || mem s seen then uniqueFrom seen l else s :: uniqueFrom (s :: seen) l
  end.
Definition normalizeHistoryJobFilter (jobs : list string) : list string := uniqueFrom [] jobs.
Definition loadDeployHistoryJobs (h : History) (runIDs jobsFilter : list string) (runID : string) : list DeployHistoryJob :=
  map snd (List.filter (fun row : HistoryJobRow => String.eqb row.1 runID && (match jobsFilter with [] => true | _ => mem (hjJob row.2) jobsFilter end))
             (merge_sort job_le (List.filter (fun row : HistoryJobRow => mem row.1 runIDs) (deploy_history_jobs h)))).
Definition entryOf (row : HistoryRow) (jobs : list DeployHistoryJob) : DeployHistoryEntry :=
  mkEntry_ (dhRunID row) (dhGeneration row) (parseStored (dhStartedAt row)) (parseStored (dhEndedAt row)) (dhStatus row) (dhSourceRevision row)
    (dhBuildGitHash row) (dhJobsFilter row) (negb (dhForce row =? 0)) (negb (dhChanged row =? 0)) (dhError row) jobs.
(** The entries up to the limit, which is looked at after one was added. *)
Fixpoint collect (limit : Z) (jobsByRun : string -> list DeployHistoryJob) (filtered : bool) (rows : list HistoryRow) (out : list DeployHistoryEntry)
    : list DeployHistoryEntry :=
  match rows with
  | [] => out
  | row :: rows =>
      let jobs := jobsByRun (dhRunID row) in
      if filtered && (length jobs =? 0)%nat then collect limit jobsByRun filtered rows out
      else
        let out := (out ++ [entryOf row jobs])%list in
        if limit <=? Z.of_nat (length out) then out else collect limit jobsByRun filtered rows out
  end.
Definition collectDeployHistoryEntries (h : History) (rows : list HistoryRow) (limit : Z) (jobsFilter : list string) : list DeployHistoryEntry :=
  collect limit (loadDeployHistoryJobs h (map dhRunID rows) jobsFilter) (negb (length jobsFilter =? 0)%nat) rows [].
Definition ListDeployHistory (h : History) (limit : Z) (jobsFilter : list string) : list DeployHistoryEntry :=
  let limit := positive limit DeployHistoryRetention in
  collectDeployHistoryEntries h (limited (wrap64 (limit * 4)) (newestFirst (deploy_history h))) limit (normalizeHistoryJobFilter jobsFilter).
Definition ListPromotableDeployHistory (h : History) (limit : Z) : list DeployHistoryEntry :=
  let limit := positive limit DeployHistoryRetention in
  collectDeployHistoryEntries h (limited limit (newestFirst (List.filter promotable (deploy_history h)))) limit [].
Definition NewestPromotableDeployMark (h : History) (sourceRevision : string) : option (instant * Z) :=
  let sourceRevision := TrimSpace sourceRevision in
  if String.eqb sourceRevision "" then None
  else (fun row => (parseStored (dhEndedAt row), dhGeneration row))
         <$> head (newestFirst (List.filter (fun row => String.eqb (dhStatus row) DeployHistoryStatusSucceeded && (dhChanged row =? 1)
                                                        && String.eqb (sqlTrim (dhSourceRevision row)) sourceRevision) (deploy_history h))).
Definition JobDeployMeta (c : Catalog) (job : string) : option (string * Z) :=
  (fun j => (jbVersion j, jcDeploymentOrder (jbColumns j))) <$> jobOf c job.

(** ** Promotions (promotion_state.go) *)

Definition PromotionHistoryRetention : Z := 50.
Definition PromotionStatusIdle : string := "idle".
Record PromotionHistoryEntry := mkPromotion {
  phRunID : string;
  phSourceBucketID : string;
  phSourceRevision : string;
  phSourceRevisionLabel : string;
  phSourceRunID : string;
  phForce : bool;
  phStatus : string;
  phStartedAt : string;
  phEndedAt : string;
  phError : string;
}.
Record PromotionState := mkPromotionState {
  LastSourceRevision : string;
  LastSourceRevisionLabel : string;
  LastSourceRunID : string;
  LastAttemptAt : string;
  LastSuccessAt : string;
  LastStatus : string;
  LastError : string;
  PromotionHistory : list PromotionHistoryEntry;
}.
Definition setHistory (s : PromotionState) (l : list PromotionHistoryEntry) : PromotionState :=
  mkPromotionState (LastSourceRevision s) (LastSourceRevisionLabel s) (LastSourceRunID s) (LastAttemptAt s) (LastSuccessAt s) (LastStatus s) (LastError s) l.
Definition setLastStatus (s : PromotionState) (status : string) : PromotionState :=
  mkPromotionState (LastSourceRevision s) (LastSourceRevisionLabel s) (LastSourceRunID s) (LastAttemptAt s) (LastSuccessAt s) status (LastError s)
    (PromotionHistory s).
Definition emptyPromotion : PromotionState := mkPromotionState "" "" "" "" "" "" "" [].
Definition TrimPromotionHistory (entries : list PromotionHistoryEntry) : list PromotionHistoryEntry :=
  if Z.of_nat (length entries) <=? PromotionHistoryRetention then entries else take (Z.to_nat PromotionHistoryRetention) entries.
Fixpoint trimKeeping (keepSet : list string) (emptyKept : Z) (entries : list PromotionHistoryEntry) : list PromotionHistoryEntry :=
  match entries with
  | [] => []
  | entry :: entries =>
      let hash := TrimSpace (phSourceRevision entry) in
      if String.eqb hash "" then
        if PromotionHistoryRetention <=? emptyKept then trimKeeping keepSet emptyKept entries else entry :: trimKeeping keepSet (emptyKept + 1) entries
      else if mem hash keepSet then entry :: trimKeeping keepSet emptyKept entries
      else trimKeeping keepSet emptyKept entries
  end.
Definition TrimPromotionHistoryKeepingRevisions (entries : list PromotionHistoryEntry) (lastSourceRevision : string) (keep : list string)
    : list PromotionHistoryEntry :=
  trimKeeping (nonEmpty (map TrimSpace (keep ++ [lastSourceRevision]))) 0 entries.
Definition PromotionHistorySourceRevisions (s : PromotionState) : list string :=
  uniqueFrom [] (LastSourceRevision s :: map phSourceRevision (PromotionHistory s)).

(** ** data: what the history of deploys keeps

    The tables stay consistent under every operation, a pruning drops exactly
    the rows of revisions that are gone and the oldest rows without one, and
    the time of a row is read back as it was written. *)

(** ** The tables *)

Lemma existsb_false_elem {A} (p : A -> bool) l x : existsb p l = false -> x ∈ l -> p x = false.
Proof.
  intros H Hx. destruct (p x) eqn:E; [|done]. assert (existsb p l = true); [|congruence]. apply existsb_exists. exists x.
  split; [by apply list_elem_of_In|done].
Qed.

Record history_ok (h : History) : Prop := {
  runs_unique : NoDup (map dhRunID (deploy_history h));
  runs_named : Forall (fun row => TrimSpace (dhRunID row) <> "") (deploy_history h);
  revisions_trimmed : Forall (fun row => TrimSpace (dhSourceRevision row) = dhSourceRevision row) (deploy_history h);
  jobs_unique : NoDup (map (fun r : HistoryJobRow => (r.1, hjJob r.2)) (deploy_history_jobs h));
  jobs_owned : Forall (fun r : HistoryJobRow => r.1 ∈ map dhRunID (deploy_history h)) (deploy_history_jobs h);
}.
Lemma insertJobs_ok run jobs : forall rows rows', NoDup (map (fun r : HistoryJobRow => (r.1, hjJob r.2)) rows) ->
  foldR (insertJob run) rows jobs = Ok rows' ->
  NoDup (map (fun r : HistoryJobRow => (r.1, hjJob r.2)) rows') /\ exists added, rows' = (rows ++ map (pair run) added)%list
    /\ added = List.filter (fun j => negb (String.eqb (TrimSpace (hjJob j)) "")) jobs.
Proof.
  induction jobs as [|job jobs IH]; intros rows rows' Hnd; cbn [foldR].
  { intros [= <-]. split; [done|]. exists []. by rewrite app_nil_r. }
  intros (r1 & H1 & H)%rbind_ok. unfold insertJob in H1. cbn [List.filter]. destruct (String.eqb (TrimSpace (hjJob job)) "") eqn:E.
  - injection H1 as <-. exact (IH _ _ Hnd H).
  - destruct (existsb _ rows) eqn:Ex; [done|]. injection H1 as <-. apply IH in H as (N & added & -> & Ha).
    + split; [done|]. exists (job :: added). cbn [map negb]. rewrite <- app_assoc, Ha. done.
    + rewrite map_app. apply NoDup_app. split_and!; [done| |by apply NoDup_singleton]. intros [a b] Hin Heq%list_elem_of_singleton.
      injection Heq as -> ->. apply list_elem_of_fmap in Hin as (r & [= E1 E2] & Hr).
      pose proof (existsb_false_elem _ _ _ Ex Hr) as Hf. cbn in Hf. by rewrite <- E1, <- E2, !String.eqb_refl in Hf.
Qed.
Lemma InsertDeployHistory_ok h r h' : history_ok h -> InsertDeployHistory h r = Ok h' -> history_ok h'.
Proof.
  intros [H1 H2 H3 H4 H5]. unfold InsertDeployHistory. destruct (String.eqb (TrimSpace (rRunID r)) "") eqn:E1; [done|].
  destruct (existsb _ _) eqn:E2; [done|]. intros (jobs & Hj & [= <-])%rbind_ok. apply insertJobs_ok in Hj as (N & added & -> & _); [|done].
  apply String.eqb_neq in E1. split; cbn [deploy_history deploy_history_jobs]; rewrite ?map_app.
  - apply NoDup_app. split_and!; [done| |by apply NoDup_singleton]. intros x Hx ->%list_elem_of_singleton. cbn in Hx.
    apply list_elem_of_fmap in Hx as (row & Er & Hrow). pose proof (existsb_false_elem _ _ _ E2 Hrow) as Hf. cbn in Hf.
    by rewrite <- Er, String.eqb_refl in Hf.
  - apply Forall_app. by split; [|constructor].
  - apply Forall_app. split; [done|]. constructor; [|done]. apply TrimSpace_idem.
  - by rewrite <- map_app.
  - apply Forall_app. split.
    + eapply Forall_impl; [exact H5|]. intros x Hx. apply elem_of_app. by left.
    + apply Forall_map, Forall_forall. intros x _. apply elem_of_app. right. by left.
Qed.

(** The rows of some runs, with their jobs. *)
Definition restrict (p : string -> bool) (h : History) : History :=
  mkHistory (List.filter (fun row => p (dhRunID row)) (deploy_history h)) (List.filter (fun row : HistoryJobRow => p row.1) (deploy_history_jobs h)).
Lemma Forall_list_filter {A} (P : A -> Prop) (p : A -> bool) l : Forall P l -> Forall P (List.filter p l).
Proof. rewrite !Forall_forall. intros H x [Hx _]%elem_of_list_filter_b. by apply H. Qed.
Lemma restrict_ok p h : history_ok h -> history_ok (restrict p h).
Proof.
  intros [H1 H2 H3 H4 H5]. split; cbn [restrict deploy_history deploy_history_jobs]; try by apply Forall_list_filter.
  - by apply NoDup_map_filter.
  - by apply NoDup_map_filter.
  - rewrite Forall_forall in H5 |- *. intros x [Hx Hp]%elem_of_list_filter_b. apply H5 in Hx. apply list_elem_of_fmap in Hx as (row & E & Hrow).
    apply list_elem_of_fmap. exists row. split; [done|]. apply elem_of_list_filter_b. by rewrite <- E.
Qed.
Lemma mem_cons (x y : string) l : mem x (y :: l) = String.eqb x y || mem x l.
Proof.
  unfold mem. destruct (String.eqb_spec x y) as [->|H]; [apply bool_decide_eq_true; left|].
  apply bool_decide_ext. rewrite elem_of_cons. naive_solver.
Qed.
Lemma filter_filter {A} (p q : A -> bool) l : List.filter p (List.filter q l) = List.filter (fun x => q x && p x) l.
Proof. induction l as [|x l IH]; cbn; [done|]. destruct (q x); cbn; [destruct (p x)|]; congruence. Qed.
Lemma restrict_ext p q h : (forall run, p run = q run) -> restrict p h = restrict q h.
Proof. intros H. unfold restrict. f_equal; apply filter_ext; intros x; apply H. Qed.
Lemma deleteDeployHistoryRuns_restrict runs h : Forall (fun run => TrimSpace run <> "") runs ->
  deleteDeployHistoryRuns h runs = restrict (fun run => negb (mem run runs)) h.
Proof.
  unfold deleteDeployHistoryRuns. intros H. revert h. induction H as [|run runs Hrun _ IH]; intros h; cbn [foldl].
  - unfold restrict. destruct h as [rows jobs]. cbn. f_equal; symmetry; apply forallb_filter_id, forallb_forall; intros x _; by rewrite (proj2 (mem_false _ _)) by apply not_elem_of_nil.
  - rewrite IH. unfold deleteRun. apply String.eqb_neq in Hrun. rewrite Hrun. unfold restrict. cbn [deploy_history deploy_history_jobs].
    rewrite !filter_filter. f_equal; apply filter_ext; intros x; by rewrite mem_cons, negb_orb.
Qed.
Lemma PruneDeployHistory_restrict h keep :
  PruneDeployHistory h keep = restrict (fun run => mem run (map dhRunID (limited (positive keep DeployHistoryRetention) (newestFirst (deploy_history h))))) h.
Proof. done. Qed.

(** ** Blanks *)

Fixpoint blanks (s : string) : bool := match s with "" => true | String c s => bool_decide (c = " "%char) && blanks s end.
Lemma trimLeftBlanks_head s : trimLeftBlanks s = "" \/ exists c t, trimLeftBlanks s = String c t /\ c <> " "%char.
Proof.
  induction s as [|c s IH]; [by left|]. destruct (decide (c = " "%char)) as [->|Hc]; [exact IH|]. right. exists c, s. split; [|done].
  cbn [trimLeftBlanks]. by repeat case_match; subst.
Qed.
Lemma trimLeftBlanks_blanks s : trimLeftBlanks s = "" -> blanks s = true.
Proof.
  induction s as [|c s IH]; [done|]. destruct (decide (c = " "%char)) as [->|Hc]; [exact IH|]. intros H. exfalso. revert H.
  cbn [trimLeftBlanks]. by repeat case_match; subst.
Qed.
Lemma list_ascii_of_string_nil s : String.list_ascii_of_string s = [] -> s = "".
Proof. by destruct s. Qed.
Lemma reverseString_chars s : String.list_ascii_of_string (reverseString s) = rev (String.list_ascii_of_string s).
Proof. unfold reverseString. by rewrite String.list_ascii_of_string_of_list_ascii. Qed.
Lemma blanks_chars s : blanks s = true <-> forall c, c ∈ String.list_ascii_of_string s -> c = " "%char.
Proof.
  induction s as [|c s IH]; cbn [blanks String.list_ascii_of_string]; [split; [by intros _ ? ?%elem_of_nil|done]|].
  rewrite andb_true_iff, bool_decide_eq_true, IH. setoid_rewrite elem_of_cons. naive_solver.
Qed.
Lemma sqlTrim_blanks s : sqlTrim s = "" -> blanks s = true.
Proof.
  unfold sqlTrim. intros H. apply (f_equal String.list_ascii_of_string) in H. rewrite reverseString_chars in H. cbn in H.
  apply (f_equal (@rev _)) in H. rewrite rev_involutive in H. apply list_ascii_of_string_nil, trimLeftBlanks_blanks in H.
  destruct (trimLeftBlanks_head s) as [E|(c & t & E & Hc)]; [by apply trimLeftBlanks_blanks|]. exfalso. apply Hc.
  rewrite E in H. rewrite blanks_chars, reverseString_chars in H. apply H, list_elem_of_In, in_rev. rewrite rev_involutive. by left.
Qed.
Lemma TrimSpace_blanks s : blanks s = true -> TrimSpace s = "".
Proof.
  intros H. unfold TrimSpace. assert (drop_spaces (chunks s) = []) as ->; [|done].
  induction s as [|c s IH]; [done|]. cbn [blanks] in H. apply andb_true_iff in H as [->%bool_decide_eq_true H].
  rewrite chunks_ascii by (vm_compute; reflexivity). cbn. by apply IH.
Qed.
Lemma sqlTrim_empty s : TrimSpace s = s -> String.eqb (sqlTrim s) "" = String.eqb s "".
Proof.
  intros Ht. destruct (String.eqb_spec s "") as [->|Hs]; [done|]. apply String.eqb_neq. intros E. apply Hs.
  by rewrite <- Ht, TrimSpace_blanks by by apply sqlTrim_blanks.
Qed.

(** ** What a pruning drops *)

Lemma mem_of_rows (p : HistoryRow -> bool) rows row : NoDup (map dhRunID rows) -> row ∈ rows ->
  mem (dhRunID row) (map dhRunID (List.filter p rows)) = p row.
Proof.
  intros Hnd Hr. destruct (p row) eqn:E.
  - apply mem_true, list_elem_of_fmap. exists row. split; [done|]. by apply elem_of_list_filter_b.
  - apply mem_false. intros (r & Er & [Hr' Hp]%elem_of_list_filter_b)%list_elem_of_fmap. by rewrite (NoDup_map_eq _ _ _ _ Hnd Hr Hr' Er), Hp in E.
Qed.
Definition orphans (h : History) : list HistoryRow := List.filter orphanRow (deploy_history h).
(** Rows of a gone revision go, rows of a kept one stay, and of the rows
    without a revision the newest stay; the jobs of a row go with it. *)
Lemma PruneKeeping_spec h keep n : history_ok h -> exists p, PruneDeployHistoryKeepingRevisions h keep n = restrict p h
  /\ (forall row, row ∈ deploy_history h -> dhSourceRevision row <> "" -> p (dhRunID row) = mem (dhSourceRevision row) (map TrimSpace keep))
  /\ (forall row, row ∈ deploy_history h -> dhSourceRevision row = "" ->
      p (dhRunID row) = true <-> row ∈ take (Z.to_nat (positive n DeployHistoryRetention)) (newestFirst (orphans h))).
Proof.
  intros [H1 H2 H3 _ _]. unfold PruneDeployHistoryKeepingRevisions. cbv zeta. fold (orphans h).
  set (rows := deploy_history h) in *. set (m := positive n DeployHistoryRetention).
  set (gone := fun row => negb (orphanRow row) && negb (mem (TrimSpace (dhSourceRevision row)) (nonEmpty (map TrimSpace keep)))).
  assert (Htrim : forall row, row ∈ rows -> TrimSpace (dhSourceRevision row) = dhSourceRevision row) by (by apply Forall_forall).
  assert (Hnamed : forall row, row ∈ rows -> TrimSpace (dhRunID row) <> "") by (by apply Forall_forall).
  assert (Horph : forall row, row ∈ rows -> String.eqb (sqlTrim (dhSourceRevision row)) "" = orphanRow row).
  { intros row Hr. unfold orphanRow. rewrite Htrim by done. by apply sqlTrim_empty, Htrim. }
  assert (Hlist : List.filter (fun row => String.eqb (sqlTrim (dhSourceRevision row)) "") rows = orphans h).
  { apply filter_ext_in. intros row Hr. by apply Horph, list_elem_of_In. }
  assert (Hin : forall row, row ∈ newestFirst (orphans h) <-> row ∈ orphans h) by (intros row; unfold newestFirst; by rewrite merge_sort_Permutation).
  assert (Hgone : forall row, row ∈ rows -> dhSourceRevision row <> "" -> gone row = negb (mem (dhSourceRevision row) (map TrimSpace keep))).
  { intros row Hr Hne. unfold gone, orphanRow. rewrite Htrim by done. rewrite (proj2 (String.eqb_neq _ _)) by done. cbn [negb andb]. f_equal.
    apply bool_decide_ext. unfold nonEmpty. rewrite elem_of_list_filter_b. apply String.eqb_neq in Hne. rewrite Hne. naive_solver. }
  assert (Hkeep : forall row, row ∈ rows -> dhSourceRevision row = "" -> gone row = false).
  { intros row Hr E. unfold gone, orphanRow. rewrite Htrim, E by done. done. }
  assert (Ho : forall row, row ∈ orphans h -> row ∈ rows /\ dhSourceRevision row = "").
  { intros row [Hr Ho]%elem_of_list_filter_b. split; [done|]. unfold orphanRow in Ho. rewrite Htrim in Ho by done. by apply String.eqb_eq. }
  rewrite Hlist. set (late := List.skipn (Z.to_nat m) (newestFirst (orphans h))).
  assert (Hlate : forall row, row ∈ late -> row ∈ rows /\ dhSourceRevision row = "").
  { intros row Hr. apply Ho, Hin. rewrite <- (firstn_skipn (Z.to_nat m)). apply elem_of_app. by right. }
  match goal with |- context[deleteDeployHistoryRuns h ?d] => assert (Hd : d = (map dhRunID (List.filter gone rows) ++ map dhRunID late)%list) end.
  { unfold late. destruct (_ >? m) eqn:Em; [by rewrite skipn_map|]. rewrite skipn_all2; [by rewrite app_nil_r|].
    unfold newestFirst. rewrite (Permutation_length (merge_sort_Permutation _ _)). lia. }
  rewrite Hd. eexists. split; [apply deleteDeployHistoryRuns_restrict|].
  - apply Forall_app. split; apply Forall_forall; intros x (row & -> & Hr)%list_elem_of_fmap.
    + apply elem_of_list_filter_b in Hr as [Hr _]. by apply Hnamed.
    + by apply Hnamed, Hlate.
  - assert (Hmem : forall row, row ∈ rows -> mem (dhRunID row) (map dhRunID late) = true <-> row ∈ late).
    { intros row Hr. rewrite mem_true, list_elem_of_fmap. split; [|by exists row]. intros (r & E & Hl).
      by rewrite (NoDup_map_eq _ _ _ _ H1 Hr (proj1 (Hlate r Hl)) E). }
    assert (Hp : forall row, row ∈ rows -> mem (dhRunID row) (map dhRunID (List.filter gone rows) ++ map dhRunID late) = gone row || mem (dhRunID row) (map dhRunID late)).
    { intros row Hr. rewrite <- (mem_of_rows gone rows row H1 Hr). unfold mem. rewrite <- bool_decide_or. apply bool_decide_ext, elem_of_app. }
    cbv beta. split; intros row Hr E; rewrite Hp by done.
    + assert (mem (dhRunID row) (map dhRunID late) = false) as ->.
      { apply not_true_iff_false. rewrite Hmem by done. by intros [_ ?]%Hlate. }
      by rewrite orb_false_r, Hgone, negb_involutive by done.
    + rewrite Hkeep by done. cbn [orb]. rewrite negb_true_iff, <- not_true_iff_false, Hmem by done.
      assert (Hnf : row ∈ newestFirst (orphans h)).
      { apply Hin, elem_of_list_filter_b. split; [done|]. unfold orphanRow. by rewrite E. }
      assert (Hnd : NoDup (newestFirst (orphans h))).
      { unfold newestFirst. rewrite merge_sort_Permutation. apply (NoDup_fmap_1 dhRunID). by apply NoDup_map_filter. }
      rewrite <- (firstn_skipn (Z.to_nat m) (newestFirst (orphans h))) in Hnf, Hnd. fold late in Hnf, Hnd.
      apply NoDup_app in Hnd as (_ & Hx & _). apply elem_of_app in Hnf as [Ht|Hl]; [split; [done|]|split; [by intros []|]].
      * intros _. by apply Hx.
      * intros Ht. by apply Hx in Ht.
Qed.
Lemma Prune_keeps_ok h keep n : history_ok h -> history_ok (PruneDeployHistoryKeepingRevisions h keep n).
Proof. intros H. destruct (PruneKeeping_spec h keep n H) as (p & -> & _). by apply restrict_ok. Qed.

(** ** Times *)

Lemma padded_S w n : padded (S w) n = String (digit_char (n / 10 ^ Z.of_nat w mod 10)) (padded w n).
Proof. unfold padded. by rewrite seq_S, rev_app_distr. Qed.
Lemma padded_length w n : String.length (padded w n) = w.
Proof. induction w as [|w IH]; [done|]. rewrite padded_S. cbn. by rewrite IH. Qed.
Lemma digit_of_range d : 0 <= d < 10 -> is_digit_ascii (byte_val (digit_char d)) = true /\ byte_val (digit_char d) - 48 = d.
Proof. intros H. split; [by apply digit_char_ascii|]. rewrite digit_char_val by done. lia. Qed.
Lemma padded_digits w n : all_digits (padded w n) = true.
Proof.
  induction w as [|w IH]; [done|]. rewrite padded_S. cbn [all_digits]. rewrite IH, andb_true_r.
  apply digit_char_ascii, Z.mod_pos_bound. lia.
Qed.
Lemma digits_value_padded w n : forall acc, digits_value acc (padded w n) = Some (acc * 10 ^ Z.of_nat w + n mod 10 ^ Z.of_nat w).
Proof.
  induction w as [|w IH]; intros acc; [cbn; f_equal; rewrite Z.mod_1_r; lia|]. rewrite padded_S. cbn [digits_value].
  destruct (digit_of_range (n / 10 ^ Z.of_nat w mod 10)) as [-> ->]; [apply Z.mod_pos_bound; lia|]. rewrite IH. f_equal.
  rewrite Nat2Z.inj_succ, Z.pow_succ_r, (Z.mul_comm 10 (10 ^ _)), Z.rem_mul_r by lia. lia.
Qed.
Lemma takeNumber_padded w n s : 0 <= n < 10 ^ Z.of_nat w -> takeNumber w (padded w n +:+ s) = Some (n, s).
Proof.
  intros H. unfold takeNumber. pose proof (stake_cat (padded w n) s) as E1. pose proof (sdrop_cat (padded w n) s) as E2.
  rewrite padded_length in E1, E2. rewrite E1, E2, padded_length, Nat.eqb_refl.
  rewrite digits_value_padded. cbn [mbind option_bind]. rewrite Z.mod_small by done. done.
Qed.
Lemma trimZeros_digits l : forallb (fun c => is_digit_ascii (byte_val c)) l = true -> forallb (fun c => is_digit_ascii (byte_val c)) (trimZeros l) = true.
Proof.
  induction l as [|c l IH]; [done|]. cbn [forallb trimZeros]. intros [H1 H2]%andb_true_iff. specialize (IH H2).
  destruct (trimZeros l) as [|d r]; [case_bool_decide; [done|cbn; by rewrite H1]|]. cbn [forallb]. by rewrite H1.
Qed.
Lemma trimZeros_value l : forall acc v, digits_value acc (String.string_of_list_ascii l) = Some v ->
  exists v', digits_value acc (String.string_of_list_ascii (trimZeros l)) = Some v' /\ v = v' * 10 ^ Z.of_nat (length l - length (trimZeros l))
  /\ (length (trimZeros l) <= length l)%nat.
Proof.
  induction l as [|c l IH]; intros acc v; cbn [String.string_of_list_ascii digits_value trimZeros].
  { intros [= <-]. exists acc. split_and!; [done|cbn; lia|done]. }
  destruct (is_digit_ascii (byte_val c)) eqn:Ec; [|done]. intros H. destruct (IH _ _ H) as (v' & H1 & -> & Hl).
  destruct (trimZeros l) as [|d r] eqn:Et.
  - cbn in H1. injection H1 as <-. case_bool_decide as Hc.
    + subst c. exists acc. split_and!; [done| |cbn; lia]. cbn [length]. rewrite !Nat.sub_0_r, Nat2Z.inj_succ, Z.pow_succ_r by lia.
      replace (byte_val "0" - 48) with 0 by done. lia.
    + exists (acc * 10 + (byte_val c - 48)). cbn [String.string_of_list_ascii digits_value]. rewrite Ec. split_and!; [done|cbn [length]; f_equal; f_equal; lia|cbn; lia].
  - exists v'. cbn [String.string_of_list_ascii digits_value length] in *. rewrite Ec. split_and!; [done|do 3 f_equal; lia|lia].
Qed.
Lemma takeDigits_app l rest : forallb (fun c => is_digit_ascii (byte_val c)) l = true ->
  match rest with String c _ => is_digit_ascii (byte_val c) | "" => false end = false ->
  takeDigits (String.string_of_list_ascii l +:+ rest) = (String.string_of_list_ascii l, rest).
Proof.
  intros H Hr. induction l as [|c l IH]; cbn [String.string_of_list_ascii String.append takeDigits].
  - destruct rest as [|c rest]; [done|]. cbn [takeDigits]. by rewrite Hr.
  - cbn [forallb] in H. apply andb_true_iff in H as [-> H]. by rewrite IH.
Qed.
Lemma all_digits_chars s : all_digits s = true -> forallb (fun c => is_digit_ascii (byte_val c)) (String.list_ascii_of_string s) = true.
Proof. induction s as [|c s IH]; [done|]. cbn. intros [-> H]%andb_true_iff. by rewrite IH. Qed.
Lemma stake_short n s : (String.length s <= n)%nat -> stake n s = s.
Proof. revert n. induction s as [|c s IH]; intros [|n] H; cbn in *; try done; [lia|]. rewrite IH by lia. done. Qed.
Lemma takeFraction_fraction nsec : 0 <= nsec < second -> takeFraction (fraction nsec +:+ "Z") = Some (nsec, "Z").
Proof.
  intros H. unfold fraction. set (l := String.list_ascii_of_string (padded 9 nsec)).
  assert (Hv : digits_value 0 (String.string_of_list_ascii l) = Some nsec).
  { unfold l. rewrite String.string_of_list_ascii_of_string, digits_value_padded, Z.mod_small by exact H. done. }
  assert (Hlen : length l = 9%nat) by reflexivity.
  assert (Hd : forallb (fun c => is_digit_ascii (byte_val c)) l = true).
  { apply all_digits_chars, padded_digits. }
  destruct (trimZeros_value l _ _ Hv) as (v' & H1 & Hn & Hle). rewrite Hlen in *. pose proof (trimZeros_digits l Hd) as Ht.
  destruct (trimZeros l) as [|c r] eqn:E.
  - cbn in H1. injection H1 as <-. cbn in Hn. subst nsec. done.
  - change ("." +:+ String.string_of_list_ascii (c :: r)) with (String "." (String.string_of_list_ascii (c :: r))). cbn [String.append takeFraction].
    rewrite takeDigits_app by done. cbn [String.string_of_list_ascii]. change (String c (String.string_of_list_ascii r)) with (String.string_of_list_ascii (c :: r)).
    set (digits := String.string_of_list_ascii (c :: r)) in *. assert (Hdl : String.length digits = length (c :: r)).
    { unfold digits. clear. generalize (c :: r). induction l as [|x l IH]; cbn; [done|]. by rewrite IH. }
    assert (Hs : stake 9 digits = digits).
    { apply (stake_short 9 digits). rewrite Hdl. exact Hle. }
    assert (Hne : String.eqb digits "" = false) by reflexivity. rewrite Hne, Hs, H1. cbn [mbind option_bind]. rewrite Hdl, <- Hn. done.
Qed.

Lemma takeChar_cons c s : takeChar c (String c s) = Some s.
Proof. cbn. by rewrite bool_decide_eq_true_2. Qed.
Lemma takeNumber_two n s : 0 <= n < 100 -> takeNumber 2 (padded 2 n +:+ s) = Some (n, s).
Proof. exact (takeNumber_padded 2 n s). Qed.
Lemma takeNumber_four n s : 0 <= n < 10000 -> takeNumber 4 (padded 4 n +:+ s) = Some (n, s).
Proof. exact (takeNumber_padded 4 n s). Qed.
(** What a row has of a time gives the time back. *)
Theorem time_roundtrip t : 0 <= Year (Date_of UTC t) < 10000 -> ParseRFC3339 (RFC3339Nano t) = Some t.
Proof.
  intros Hy. unfold ParseRFC3339, RFC3339Nano. pose proof (civil_valid (local_day UTC t)) as Hc. fold (Date_of UTC t) in Hc.
  set (c := Date_of UTC t) in *. destruct Hc as [Hm Hd]. pose proof (month_days_range (Year c) (Month c) Hm) as Hmd.
  pose proof (clock_secs_range UTC t) as Hs. set (secs := clock_secs UTC t) in *.
  assert (H1 : 0 <= secs / 3600 < 24) by (split; [apply Z.div_pos; lia|apply Z.div_lt_upper_bound; lia]).
  pose proof (Z.mod_pos_bound secs 3600 ltac:(lia)) as H2.
  assert (H3 : 0 <= secs mod 3600 / 60 < 60) by (split; [apply Z.div_pos; lia|apply Z.div_lt_upper_bound; lia]).
  pose proof (Z.mod_pos_bound secs 60 ltac:(lia)) as H4. pose proof (nsec_range t) as H5.
  repeat (first [rewrite takeNumber_two by lia | rewrite takeNumber_four by lia]; cbn [mbind option_bind]; cbn [String.append]; rewrite ?takeChar_cons; cbn [mbind option_bind]).
  rewrite takeFraction_fraction by done. cbn [mbind option_bind takeZone].
  unfold in_range. destruct (_ || _) eqn:Eb.
  { exfalso. repeat (apply orb_true_iff in Eb as [Eb|Eb]); blia. }
  f_equal. unfold DateClock, zone_offset. cbn [UTC lookup_zone zOffset]. cbn [Z.eqb].
  replace ((Month c - 1) / 12) with 0 by (symmetry; apply Z.div_small; lia). rewrite (Z.mod_small (Month c - 1) 12) by lia.
  replace (Year c + 0) with (Year c) by lia. replace (Month c - 1 + 1) with (Month c) by lia.
  unfold c at 1 2 3. unfold Date_of. rewrite day_number_civil.
  assert (Hsecs : secs / 3600 * 3600 + secs mod 3600 / 60 * 60 + secs mod 60 = secs).
  { pose proof (Z.div_mod secs 3600). pose proof (Z.div_mod (secs mod 3600) 60). assert (secs mod 3600 mod 60 = secs mod 60); [|lia].
    apply Z.mod_mod_divide. by exists 60. }
  rewrite Hsecs. unfold secs, clock_secs, local_day. pose proof (Z.div_mod (local_secs UTC t) 86400).
  pose proof (Z.div_mod t second). unfold local_secs, unix in *. cbn [UTC lookup_zone zOffset] in *. unfold second in *. lia.
Qed.

(** C35: Every operation leaves the tables consistent: runs are named and
    unique, the jobs of a run are unique and their run is there. *)
Theorem history_stays_ok h : history_ok h ->
  (forall r h', InsertDeployHistory h r = Ok h' -> history_ok h') /\ (forall keep, history_ok (PruneDeployHistory h keep))
  /\ (forall keep n, history_ok (PruneDeployHistoryKeepingRevisions h keep n)).
Proof.
  intros H. split_and!.
  - intros r h'. by apply InsertDeployHistory_ok.
  - intros keep. rewrite PruneDeployHistory_restrict. by apply restrict_ok.
  - intros keep n. by apply Prune_keeps_ok.
Qed.
Lemma history_stays_ok_witness :
  let r := mkRecord "one" 1 0 1 "succeeded" "aa" "" "" false "" [mkHistoryJob "web" "deployed" "" "" 0] in
  history_ok (mkHistory [] []) /\ match InsertDeployHistory (mkHistory [] []) r with Ok h => history_ok h | Err _ => False end.
Proof.
  assert (H : history_ok (mkHistory [] [])) by (split; constructor).
  split; [exact H|]. destruct (InsertDeployHistory _ _) as [h|e] eqn:E; [|vm_compute in E; discriminate E].
  exact (proj1 (history_stays_ok (mkHistory [] []) H) _ h E).
Defined.
