(* ===== verification/SourceRevision.v ===== *)
(** * sourcerevision and gc: revisions of the source and what is kept of them

    sourcerevision/sourcerevision.go, sourcerevision/markers.go, the files of
    data/promotion_state.go and gc/history.go. The files of a bucket are a map
    from paths; a JSON file is the value that it decodes to, and one of another
    shape does not parse. Directories are the paths of their files: an empty
    one is not there, and a path that leaves the bucket holds nothing of it.
    Errors of the disk are left out. *)
From S2P Require Import Prelude GoStrings Utils PathMatch JobTree Calendar History.
Open Scope Z_scope.

(** ** Files *)

Record Entry := mkRevision {
  PushHash : string;
  ProducerBuildHash : string;
  BundleVersion : Z;
  Label : string;
  CreatedAt : string;
  BuildResult : string;
  Kind : string;
}.
Record State := mkState { Current : string; LastSuccessful : string; Revisions : list Entry }.
Record MarkerEntry := mkMarkerEntry { meSourceRevision : string; meSourceRunID : string; mePromoteRunID : string; mePromotedAt : string }.
Record MarkerFile := mkMarker { ConsumerBucketID : string; Selection : string; Entries : list MarkerEntry }.
Inductive Content :=
| StateJSON (s : State)
| MarkerJSON (m : MarkerFile)
| PromotionJSON (p : PromotionState)
| Bytes (s : string).
(** The path of a file below the bucket, by its elements. *)
Notation Path := (list string).
Notation Files := (gmap (list string) Content).

Inductive revision_error :=
| ParseState
| ParseMarker
| ParsePromotion
| ConsumerRequired
| LabelTooLong
| LabelControl.

(** [filepath.Join(dir, name)] *)
Definition join (dir : Path) (name : string) : Path := rev (cleanElements false (rev dir) (Split name slash)).
Definition below (dir path : Path) : bool := bool_decide (dir `prefix_of` path).
(** [os.RemoveAll] *)
Definition RemoveAll (dir : Path) (fs : Files) : Files := filter (fun f => below dir f.1 = false) fs.
(** [os.ReadDir]: the names in a directory, and whether each is one. *)
Definition entryBelow (dir path : Path) : option (string * bool) :=
  if below dir path then
    match drop (length dir) path with [] => None | [name] => Some (name, false) | name :: _ => Some (name, true) end
  else None.
Definition entry_le (a b : string * bool) : Prop := String.le a.1 b.1.
#[export] Instance entry_le_dec a b : Decision (entry_le a b).
Proof. unfold entry_le. apply _. Defined.
Definition ReadDir (dir : Path) (fs : Files) : list (string * bool) :=
  merge_sort entry_le (remove_dups (omap (fun f => entryBelow dir f.1) (map_to_list fs))).

Definition Root : Path := [".kive"; "source-revisions"].
Definition StateFile : string := "state.json".
Definition StatePath : Path := Root ++ [StateFile].
Definition Dir (hash : string) : Path := join Root hash.
Definition MarkersDirName : string := "markers".
Definition MarkersDir : Path := Root ++ [MarkersDirName].
Definition MarkerPath (consumerBucketID : string) : Path := join MarkersDir (consumerBucketID +:+ ".json").
Definition promotionStatePath : Path := [".kive"; "promotion-state.json"].
Definition RetentionCount : Z := 50.
Definition MaxLabelLen : Z := 128.
Definition PromotionMarkerRetention : Z := 50.

(** ** state.json *)

Definition LoadState (fs : Files) : result revision_error State :=
  match fs !! StatePath with
  | None => Ok (mkState "" "" [])
  | Some (StateJSON s) => Ok s
  | Some _ => Err ParseState
  end.
Definition SaveState (s : State) (fs : Files) : Files := <[StatePath := StateJSON s]> fs.

(** ** Pruning *)

Record PruneOptions := mkPruneOptions { ExtraPins : list string; KeepNewest : Z }.
(** [CreatedAt] is compared as text. *)
Definition created_ge (a b : Entry) : Prop := String.le (CreatedAt b) (CreatedAt a).
#[export] Instance created_ge_dec a b : Decision (created_ge a b).
Proof. unfold created_ge. apply _. Defined.
Fixpoint firstHashes (n : nat) (seen : list string) (entries : list Entry) : list string :=
  match n, entries with
  | S m, entry :: entries =>
      let hash := TrimSpace (PushHash entry) in
      if String.eqb hash "" || mem hash seen then firstHashes n seen entries else hash :: firstHashes m (hash :: seen) entries
  | _, _ => []
  end.
Definition newestRevisionHashes (entries : list Entry) (n : Z) : list string :=
  if n <=? 0 then [] else firstHashes (Z.to_nat n) [] (merge_sort created_ge entries).
Definition keepOf (s : State) (opts : PruneOptions) : list string :=
  nonEmpty [Current s; LastSuccessful s] ++ nonEmpty (map TrimSpace (ExtraPins opts))
  ++ (if KeepNewest opts >? 0 then newestRevisionHashes (Revisions s) (KeepNewest opts) else []).
Fixpoint pruneRevisions (keep seen : list string) (entries : list Entry) (fs : Files) : list Entry * Files :=
  match entries with
  | [] => ([], fs)
  | entry :: entries =>
      if negb (mem (PushHash entry) keep) then pruneRevisions keep seen entries (RemoveAll (Dir (PushHash entry)) fs)
      else if mem (PushHash entry) seen then pruneRevisions keep seen entries fs
      else let '(order, fs) := pruneRevisions keep (PushHash entry :: seen) entries fs in (entry :: order, fs)
  end.
Definition orphanDir (keep : list string) (e : string * bool) : bool :=
  e.2 && negb (String.eqb e.1 StateFile || String.eqb e.1 MarkersDirName || HasSuffix e.1 ".tmp") && negb (mem e.1 keep).
Definition removeOrphanDirs (keep : list string) (fs : Files) : Files :=
  foldl (fun fs (e : string * bool) => if orphanDir keep e then RemoveAll (Root ++ [e.1]) fs else fs) fs (ReadDir Root fs).
Definition saveStateAndOrphans (s : State) (keep : list string) (fs : Files) : Files := SaveState s (removeOrphanDirs keep fs).
Definition Prune (opts : PruneOptions) (fs : Files) : result revision_error Files :=
  let? state := LoadState fs in
  let keep := keepOf state opts in
  let '(order, fs) := pruneRevisions keep [] (Revisions state) fs in
  Ok (saveStateAndOrphans (mkState (Current state) (LastSuccessful state) order) keep fs).
Definition RetainedHashes (fs : Files) : result revision_error (list string) :=
  let? state := LoadState fs in Ok (uniqueFrom [] (map PushHash (Revisions state))).

(** ** Labels *)

Definition exists_ (path : Path) (fs : Files) : bool := existsb (fun f => below path f.1) (map_to_list fs).
Definition isDir (path : Path) (fs : Files) : bool := exists_ path fs && negb (bool_decide (is_Some (fs !! path))).
Definition ArtifactPresent (hash : string) (fs : Files) : bool :=
  exists_ (Dir hash ++ ["bundle.db"]) fs || isDir (Dir hash ++ ["tree"]) fs.
Definition NormalizeLabel (label : string) : string := TrimSpace label.
Definition ValidateLabel (label : string) : result revision_error unit :=
  if String.eqb label "" then Ok tt
  else if Z.of_nat (String.length label) >? MaxLabelLen then Err LabelTooLong
  else if existsb (fun r => (r <? 32) || (r =? 127)) (runes label) then Err LabelControl
  else Ok tt.
Definition LabelInUse (s : State) (label excludeHash : string) : bool :=
  let label := NormalizeLabel label in
  negb (String.eqb label "")
  && existsb (fun e => negb (String.eqb (PushHash e) (TrimSpace excludeHash)) && String.eqb (NormalizeLabel (Label e)) label) (Revisions s).
Definition LabelForRevision (s : State) (hash : string) : string :=
  let hash := TrimSpace hash in
  if String.eqb hash "" then ""
  else default "" ((fun e => NormalizeLabel (Label e)) <$> head (List.filter (fun e => String.eqb (PushHash e) hash) (Revisions s))).
Definition LabelMap (s : State) : gmap string string :=
  foldl (fun out e => let label := NormalizeLabel (Label e) in if String.eqb label "" then out else <[PushHash e := label]> out) ∅ (Revisions s).

(** ** Markers (markers.go) *)

Definition LoadMarker (fs : Files) (consumerBucketID : string) : result revision_error MarkerFile :=
  let consumerBucketID := TrimSpace consumerBucketID in
  if String.eqb consumerBucketID "" then Err ConsumerRequired
  else
    match fs !! MarkerPath consumerBucketID with
    | None => Ok (mkMarker consumerBucketID "" [])
    | Some (MarkerJSON m) => Ok (mkMarker consumerBucketID (Selection m) (Entries m))
    | Some _ => Err ParseMarker
    end.
Definition SaveMarker (file : MarkerFile) (fs : Files) : result revision_error Files :=
  let consumerBucketID := TrimSpace (ConsumerBucketID file) in
  if String.eqb consumerBucketID "" then Err ConsumerRequired
  else Ok (<[MarkerPath consumerBucketID := MarkerJSON (mkMarker consumerBucketID (Selection file) (Entries file))]> fs).
Definition DeleteMarker (consumerBucketID : string) (fs : Files) : result revision_error Files :=
  let consumerBucketID := TrimSpace consumerBucketID in
  if String.eqb consumerBucketID "" then Err ConsumerRequired else Ok (delete (MarkerPath consumerBucketID) fs).
Definition ListMarkers (fs : Files) : list string :=
  map (fun e => TrimSuffix e.1 ".json") (List.filter (fun e : string * bool => negb e.2 && HasSuffix e.1 ".json") (ReadDir MarkersDir fs)).
Definition AppendMarkerEntry (consumerBucketID selection : string) (entry : MarkerEntry) (fs : Files) : result revision_error Files :=
  let? file := LoadMarker fs consumerBucketID in
  let selection := TrimSpace selection in
  let entries := entry :: Entries file in
  SaveMarker (mkMarker (ConsumerBucketID file) (if String.eqb selection "" then Selection file else selection)
                (if Z.of_nat (length entries) >? PromotionMarkerRetention then take (Z.to_nat PromotionMarkerRetention) entries else entries)) fs.
Definition HasAnyMarkers (fs : Files) : bool := (0 <? length (ListMarkers fs))%nat.
Section fold.
Context `{Unicode}.
Fixpoint anyFifo (fs : Files) (ids : list string) : result revision_error bool :=
  match ids with
  | [] => Ok false
  | id :: ids => let? file := LoadMarker fs id in if EqualFold (TrimSpace (Selection file)) "fifo" then Ok true else anyFifo fs ids
  end.
Definition HasFifoMarker (fs : Files) : result revision_error bool := anyFifo fs (ListMarkers fs).
Definition MarkerSourceRevisions (fs : Files) : result revision_error (list string) :=
  let? hashes := foldR (fun out id => let? file := LoadMarker fs id in Ok (out ++ map meSourceRevision (Entries file))) [] (ListMarkers fs) in
  Ok (uniqueFrom [] hashes).

(** ** promotion-state.json *)

Definition LoadPromotionState (fs : Files) : result revision_error PromotionState :=
  match fs !! promotionStatePath with
  | None => Ok (setLastStatus emptyPromotion PromotionStatusIdle)
  | Some (PromotionJSON p) => Ok (if String.eqb (LastStatus p) "" then setLastStatus p PromotionStatusIdle else p)
  | Some _ => Err ParsePromotion
  end.
Definition SavePromotionState (p : PromotionState) (fs : Files) : Files := <[promotionStatePath := PromotionJSON p]> fs.
Definition PrunePromotionState (fs : Files) : result revision_error (Files * PromotionState) :=
  let? state := LoadPromotionState fs in
  let state := setHistory state (TrimPromotionHistory (PromotionHistory state)) in
  Ok (SavePromotionState state fs, state).
Definition PrunePromotionStateKeepingRevisions (keep : list string) (fs : Files) : result revision_error (Files * PromotionState) :=
  let? state := LoadPromotionState fs in
  let state := setHistory state (TrimPromotionHistoryKeepingRevisions (PromotionHistory state) (LastSourceRevision state) keep) in
  Ok (SavePromotionState state fs, state).
(** The files of every peer. *)
Definition SourceRevisionPinsFromPeerPromotion (peers : list Files) (sourceBucketID : string) : result revision_error (list string) :=
  let sourceBucketID := TrimSpace sourceBucketID in
  if String.eqb sourceBucketID "" then Ok []
  else
    let? hashes := foldR (fun out peer =>
      let? state := LoadPromotionState peer in
      Ok (out ++ map phSourceRevision (List.filter (fun e => EqualFold (TrimSpace (phSourceBucketID e)) sourceBucketID) (PromotionHistory state)))) [] peers in
    Ok (uniqueFrom [] hashes).

(** ** Collecting (gc/history.go) *)

Fixpoint mergeFrom (seen : list string) (l : list string) : list string :=
  match l with
  | [] => []
  | hash :: l => if String.eqb hash "" || mem hash seen then mergeFrom seen l else hash :: mergeFrom (hash :: seen) l
  end.
Definition MergeSourceRevisionPins (groups : list (list string)) : list string := mergeFrom [] (List.concat groups).
Definition promotionHistoryPinRevisions (s : PromotionState) (newest : Z) : list string :=
  let limit := positive newest PromotionHistoryRetention in
  uniqueFrom [] (LastSourceRevision s :: map phSourceRevision (take (Z.to_nat limit) (PromotionHistory s))).
Definition deployHistoryPinRevisions (h : History) (newest : Z) : list string :=
  uniqueFrom [] (map eSourceRevision (ListDeployHistory h (positive newest DeployHistoryRetention) [])).
Definition CollectSourceRevisionHistoryPins (h : History) (fs : Files) (peerPins : list string) : result revision_error (list string) :=
  let? state := LoadPromotionState fs in
  let promotionPins := promotionHistoryPinRevisions state RetentionCount in
  let deployPins := deployHistoryPinRevisions h RetentionCount in
  let? markerPins := MarkerSourceRevisions fs in
  let pins := MergeSourceRevisionPins [promotionPins; deployPins; peerPins; markerPins] in
  let? hasFifo := HasFifoMarker fs in
  Ok (if hasFifo : bool then MergeSourceRevisionPins [pins; PromotableSourceRevisions h] else pins).
Definition PruneSourceRevisionsAndHistory (peerPins : list string) (h : History) (fs : Files) : result revision_error (History * Files) :=
  let? pins := CollectSourceRevisionHistoryPins h fs peerPins in
  let keepNewest := if HasAnyMarkers fs then 0 else RetentionCount in
  let? fs := Prune (mkPruneOptions pins keepNewest) fs in
  let? kept := RetainedHashes fs in
  let h := PruneDeployHistoryKeepingRevisions h kept DeployHistoryRetention in
  let? (fs, _) := PrunePromotionStateKeepingRevisions kept fs in
  Ok (h, fs).
(** [pruneHistoryForBucket], whose bucket may have no directory. *)
Definition pruneHistoryForBucket (location : string) (peerPins : list string) (h : History) (fs : Files) : result revision_error (History * Files) :=
  if String.eqb location "" then Ok (h, fs) else PruneSourceRevisionsAndHistory peerPins h fs.
End fold.

(** ** sourcerevision and gc: what a collection keeps

    A revision of the source stays exactly when something pins it, with its
    files; the rest goes, with the rows of the histories that name it. *)

(** ** Lists of hashes *)

Lemma elem_of_nonEmpty x l : x ∈ nonEmpty l <-> x <> "" /\ x ∈ l.
Proof. unfold nonEmpty. rewrite elem_of_list_filter_b, negb_true_iff, String.eqb_neq. tauto. Qed.
Lemma elem_of_uniqueFrom x l : forall seen, x ∈ uniqueFrom seen l <-> x <> "" /\ x ∉ seen /\ x ∈ map TrimSpace l.
Proof.
  induction l as [|s l IH]; intros seen; cbn [uniqueFrom map]; [rewrite elem_of_nil; tauto|].
  destruct (String.eqb (TrimSpace s) "" || mem (TrimSpace s) seen) eqn:E.
  - rewrite IH, elem_of_cons. apply orb_true_iff in E as [E%String.eqb_eq|E%mem_true]; split; [|intros (H1 & H2 & [->|H3])|..]; try tauto; naive_solver.
  - apply orb_false_iff in E as [E1%String.eqb_neq E2%mem_false]. rewrite !elem_of_cons, IH, not_elem_of_cons.
    destruct (decide (x = TrimSpace s)) as [->|Hx]; [tauto|]. naive_solver.
Qed.
Lemma elem_of_mergeFrom x l : forall seen, x ∈ mergeFrom seen l <-> x <> "" /\ x ∉ seen /\ x ∈ l.
Proof.
  induction l as [|s l IH]; intros seen; cbn [mergeFrom]; [rewrite elem_of_nil; tauto|].
  destruct (String.eqb s "" || mem s seen) eqn:E.
  - rewrite IH, elem_of_cons. apply orb_true_iff in E as [E%String.eqb_eq|E%mem_true]; naive_solver.
  - apply orb_false_iff in E as [E1%String.eqb_neq E2%mem_false]. rewrite !elem_of_cons, IH, not_elem_of_cons.
    destruct (decide (x = s)) as [->|Hx]; [tauto|]. naive_solver.
Qed.
Lemma elem_of_distinctTrimmed x l : x ∈ distinctTrimmed l <-> x <> "" /\ x ∈ map TrimSpace l.
Proof.
  unfold distinctTrimmed. rewrite elem_of_nonEmpty. assert (x ∈ map TrimSpace (remove_dups l) <-> x ∈ map TrimSpace l) as ->; [|done].
  rewrite !list_elem_of_fmap. by setoid_rewrite elem_of_remove_dups.
Qed.
Lemma TrimSpace_elem x l : x ∈ map TrimSpace l -> TrimSpace x = x.
Proof. intros (y & -> & _)%list_elem_of_fmap. apply TrimSpace_idem. Qed.

(** ** Files *)

Lemma below_spec d k : below d k = true <-> exists rest, k = (d ++ rest)%list.
Proof. unfold below. rewrite bool_decide_eq_true. done. Qed.
Lemma RemoveAll_lookup (d : Path) (fs : Files) (k : Path) : RemoveAll d fs !! k = if below d k then None else fs !! k.
Proof.
  unfold RemoveAll. destruct (below d k) eqn:E.
  - apply map_lookup_filter_None. right. intros c _ H. cbn in H. congruence.
  - destruct (fs !! k) as [c|] eqn:Ec; [by apply map_lookup_filter_Some|]. apply map_lookup_filter_None. by left.
Qed.
Lemma RemoveDirs_lookup (ds : list Path) (k : Path) : forall fs : Files, foldl (fun fs d => RemoveAll d fs) fs ds !! k = if existsb (fun d => below d k) ds then None else fs !! k.
Proof.
  induction ds as [|d ds IH]; intros fs; cbn [foldl existsb]; [done|]. rewrite IH, RemoveAll_lookup.
  destruct (below d k); cbn [orb]; [by destruct (existsb _ ds)|done].
Qed.
Lemma below_child d a b rest : below (d ++ [a]) (d ++ b :: rest) = String.eqb a b.
Proof.
  destruct (String.eqb_spec a b) as [->|Hn].
  - apply below_spec. exists rest. by rewrite <- app_assoc.
  - apply not_true_iff_false. intros (r & E)%below_spec. rewrite <- app_assoc in E. apply app_inv_head in E. cbn in E. by injection E as ->.
Qed.
Lemma elem_of_ReadDir (dir : Path) (fs : Files) name x rest : is_Some (fs !! (dir ++ name :: x :: rest)) -> (name, true) ∈ ReadDir dir fs.
Proof.
  intros [c Hc]. unfold ReadDir. rewrite merge_sort_Permutation. apply elem_of_remove_dups, list_elem_of_omap.
  exists (dir ++ name :: x :: rest, c). split; [by apply elem_of_map_to_list|]. cbn [fst]. unfold entryBelow.
  rewrite (proj2 (below_spec _ _)) by by eexists. by rewrite drop_app_length.
Qed.
Lemma ReadDir_only (dir dir' : Path) (fs fs' : Files) : (forall k, below dir k = true -> fs' !! k = fs !! k) -> dir = dir' ->
  forall e, e ∈ ReadDir dir' fs' <-> e ∈ ReadDir dir fs.
Proof.
  intros H <- e. unfold ReadDir. rewrite !merge_sort_Permutation, !elem_of_remove_dups, !list_elem_of_omap.
  assert (Hd : forall k c, is_Some (entryBelow dir k) -> (k, c) ∈ map_to_list fs' <-> (k, c) ∈ map_to_list fs).
  { intros k c [x Hx]. rewrite !elem_of_map_to_list, H; [done|]. unfold entryBelow in Hx. by destruct (below dir k). }
  split; intros ([k c] & Hin & He); exists (k, c); (split; [|done]); apply Hd in Hin; try done; by eexists.
Qed.

(** ** Pruning the revisions *)

(** A hash that names a directory of its own. *)
Definition special (name : string) : bool := String.eqb name StateFile || String.eqb name MarkersDirName || HasSuffix name ".tmp".
Definition regular (hash : string) : Prop := plain hash /\ TrimSpace hash = hash /\ special hash = false.
Lemma regular_nonempty hash : regular hash -> hash <> "".
Proof. by intros [[H _] _]. Qed.
Lemma Dir_regular hash : regular hash -> Dir hash = (Root ++ [hash])%list.
Proof.
  intros [(H1 & H2 & H3 & H4) _]. unfold Dir, join. rewrite Split_no_byte by done. cbn [cleanElements].
  rewrite !(proj2 (String.eqb_neq _ _)) by done. cbn [orb rev app Root]. done.
Qed.
Lemma pruneRevisions_spec keep entries : Forall regular (map PushHash entries) -> forall seen fs,
  let '(order, fs') := pruneRevisions keep seen entries fs in
  NoDup (map PushHash order) /\ (forall e, e ∈ order -> e ∈ entries)
  /\ (forall hash, hash ∈ map PushHash order <-> hash ∈ map PushHash entries /\ hash ∈ keep /\ hash ∉ seen)
  /\ (forall k, fs' !! k = if existsb (fun e => negb (mem (PushHash e) keep) && below (Root ++ [PushHash e]) k) entries then None else fs !! k).
Proof.
  induction entries as [|e entries IH]; intros Hr seen fs; cbn [pruneRevisions map].
  { split_and!; [constructor|done| |done]. intros hash. rewrite !elem_of_nil. tauto. }
  apply Forall_cons_1 in Hr as [He Hr]. destruct (mem (PushHash e) keep) eqn:Ek; cbn [negb].
  - apply mem_true in Ek. destruct (mem (PushHash e) seen) eqn:Es.
    + apply mem_true in Es. specialize (IH Hr seen fs). destruct (pruneRevisions keep seen entries fs) as [order fs'].
      destruct IH as (H1 & H2 & H3 & H4). split_and!; [done|intros x Hx; right; by apply H2| |].
      * intros hash. rewrite H3, elem_of_cons. naive_solver.
      * intros k. rewrite H4. cbn [existsb]. by rewrite (proj2 (mem_true _ _) Ek).
    + apply mem_false in Es. specialize (IH Hr (PushHash e :: seen) fs). destruct (pruneRevisions keep (PushHash e :: seen) entries fs) as [order fs'].
      destruct IH as (H1 & H2 & H3 & H4). cbn [map]. split_and!.
      * constructor; [|done]. rewrite H3, not_elem_of_cons. tauto.
      * intros x [->|Hx]%elem_of_cons; [left|right; by apply H2].
      * intros hash. rewrite !elem_of_cons, H3, not_elem_of_cons. destruct (decide (hash = PushHash e)) as [->|Hn]; [tauto|]. naive_solver.
      * intros k. rewrite H4. cbn [existsb]. by rewrite (proj2 (mem_true _ _) Ek).
  - specialize (IH Hr seen (RemoveAll (Dir (PushHash e)) fs)). apply mem_false in Ek.
    destruct (pruneRevisions keep seen entries (RemoveAll (Dir (PushHash e)) fs)) as [order fs'].
    destruct IH as (H1 & H2 & H3 & H4). split_and!; [done|intros x Hx; right; by apply H2| |].
    + intros hash. rewrite H3, elem_of_cons. naive_solver.
    + intros k. rewrite H4, RemoveAll_lookup, Dir_regular by done. cbn [existsb]. rewrite (proj2 (mem_false _ _) Ek). cbn [negb andb].
      destruct (below _ k); cbn [orb]; [by destruct (existsb _ _)|done].
Qed.
Lemma removeOrphanDirs_lookup (keep : list string) (fs : Files) (k : Path) :
  removeOrphanDirs keep fs !! k
  = if existsb (fun e => orphanDir keep e && below (Root ++ [e.1]) k) (ReadDir Root fs) then None else fs !! k.
Proof.
  unfold removeOrphanDirs. generalize (ReadDir Root fs). intros l. revert fs. induction l as [|e l IH]; intros fs; cbn [foldl existsb]; [done|].
  rewrite IH. destruct (orphanDir keep e); cbn [andb orb]; [|done]. rewrite RemoveAll_lookup.
  destruct (below _ k); cbn [orb]; [by destruct (existsb _ _)|done].
Qed.
(** The files of a directory go unless it is kept or special. *)
Lemma removeOrphanDirs_dir (keep : list string) (fs : Files) (name x : string) (rest : Path) :
  removeOrphanDirs keep fs !! (Root ++ name :: x :: rest) = if mem name keep || special name then fs !! (Root ++ name :: x :: rest) else None.
Proof.
  rewrite removeOrphanDirs_lookup. destruct (existsb _ _) eqn:E.
  - apply existsb_exists in E as ([m b] & _ & [H1 H2]%andb_true_iff). cbn [fst] in H2. rewrite below_child in H2. apply String.eqb_eq in H2 as ->.
    unfold orphanDir in H1. cbn [fst snd] in H1. fold (special name) in H1. apply andb_true_iff in H1 as [[_ H1]%andb_true_iff H2].
    apply negb_true_iff in H1, H2. by rewrite H1, H2.
  - destruct (mem name keep || special name) eqn:Ek; [done|]. destruct (fs !! (Root ++ name :: x :: rest)) eqn:Ec; [|done].
    pose proof (existsb_false_elem _ _ _ E (elem_of_ReadDir Root fs name x rest ltac:(by eexists))) as Hf. cbn [fst] in Hf.
    rewrite below_child, String.eqb_refl, andb_true_r in Hf. unfold orphanDir in Hf. cbn [fst snd] in Hf. fold (special name) in Hf.
    apply orb_false_iff in Ek as [E1 E2]. by rewrite E1, E2 in Hf.
Qed.
Lemma removeOrphanDirs_outside (keep : list string) (fs : Files) (k : Path) : (forall name rest, k <> Root ++ name :: rest) -> removeOrphanDirs keep fs !! k = fs !! k.
Proof.
  intros H. rewrite removeOrphanDirs_lookup. destruct (existsb _ _) eqn:E; [|done].
  apply existsb_exists in E as (e & _ & [_ (rest & ->)%below_spec]%andb_true_iff). exfalso. eapply H. by rewrite <- app_assoc.
Qed.
Lemma Prune_spec opts fs fs' s : LoadState fs = Ok s -> Forall regular (map PushHash (Revisions s)) -> Prune opts fs = Ok fs' ->
  let keep := keepOf s opts in
  exists order, LoadState fs' = Ok (mkState (Current s) (LastSuccessful s) order)
  /\ NoDup (map PushHash order) /\ (forall e, e ∈ order -> e ∈ Revisions s)
  /\ (forall hash, hash ∈ map PushHash order <-> hash ∈ map PushHash (Revisions s) /\ hash ∈ keep)
  /\ (forall name x rest, fs' !! (Root ++ name :: x :: rest) = if mem name keep || special name then fs !! (Root ++ name :: x :: rest) else None)
  /\ (forall k, (forall name rest, k <> Root ++ name :: rest) -> fs' !! k = fs !! k).
Proof.
  intros Hs Hr. unfold Prune. rewrite Hs. cbn [rbind]. cbv zeta. pose proof (pruneRevisions_spec (keepOf s opts) (Revisions s) Hr [] fs) as Hp.
  destruct (pruneRevisions (keepOf s opts) [] (Revisions s) fs) as [order fs1]. destruct Hp as (H1 & H2 & H3 & H4). intros [= <-].
  exists order. unfold saveStateAndOrphans, SaveState, LoadState. rewrite lookup_insert_eq. split_and!; [done|done|done| | |].
  - intros hash. rewrite H3. split; [tauto|]. intros [Ha Hb]. split_and!; [done..|apply not_elem_of_nil].
  - intros name x rest. rewrite lookup_insert_ne by (unfold StatePath, Root; cbn; congruence). rewrite removeOrphanDirs_dir.
    destruct (mem name (keepOf s opts) || special name) eqn:Ek; [|done]. rewrite H4. destruct (existsb _ _) eqn:Ex; [|done].
    apply existsb_exists in Ex as (e & He & [Hk Hb]%andb_true_iff). rewrite below_child in Hb. apply String.eqb_eq in Hb as Hb. subst name.
    apply negb_true_iff in Hk. rewrite Hk in Ek. cbn [orb] in Ek.
    rewrite Forall_forall in Hr. destruct (Hr (PushHash e)) as (_ & _ & Hsp); [|congruence]. apply list_elem_of_fmap. exists e. split; [done|]. by apply list_elem_of_In.
  - intros k Hk. rewrite lookup_insert_ne by (intros <-; by apply (Hk StateFile [])). rewrite removeOrphanDirs_outside, H4 by done.
    destruct (existsb _ _) eqn:Ex; [|done]. apply existsb_exists in Ex as (e & _ & [_ (rest & ->)%below_spec]%andb_true_iff).
    exfalso. eapply Hk. by rewrite <- app_assoc.
Qed.

(** ** What is pinned *)

Section gc.
Context `{Unicode}.

Lemma collect_all limit f rows : forall out, Z.of_nat (length out) < limit ->
  collect limit f false rows out = (out ++ map (fun row => entryOf row (f (dhRunID row))) (take (Z.to_nat (limit - Z.of_nat (length out))) rows))%list.
Proof.
  induction rows as [|row rows IH]; intros out Hl; cbn [collect]; [by rewrite take_nil, app_nil_r|]. cbn [andb].
  replace (Z.to_nat (limit - Z.of_nat (length out))) with (S (Z.to_nat (limit - Z.of_nat (length out) - 1))) by lia. cbn [take map].
  destruct (limit <=? _) eqn:E; rewrite length_app in E; cbn [length] in E; [apply Z.leb_le in E|apply Z.leb_gt in E].
  - replace (Z.to_nat (limit - Z.of_nat (length out) - 1)) with 0%nat by lia. by rewrite take_0.
  - rewrite IH by (rewrite length_app; cbn [length]; lia). rewrite <- app_assoc. do 3 f_equal. rewrite length_app. cbn [length]. f_equal. lia.
Qed.
(** The newest deploys, up to a limit. *)
Lemma List_newest h limit : 0 < limit < 2 ^ 60 ->
  map eSourceRevision (ListDeployHistory h limit []) = map dhSourceRevision (take (Z.to_nat limit) (newestFirst (deploy_history h))).
Proof.
  intros Hl. unfold ListDeployHistory. cbv zeta. assert (Hp : positive limit DeployHistoryRetention = limit) by (unfold positive; destruct (limit <? 1) eqn:E; lia).
  rewrite Hp. unfold collectDeployHistoryEntries. cbn [normalizeHistoryJobFilter uniqueFrom length Nat.eqb negb]. rewrite collect_all by (cbn; lia). cbn [app length].
  rewrite map_map. cbn [entryOf eSourceRevision]. f_equal. unfold limited. rewrite wrap64_id by (unfold in_int64, min_int64, max_int64; blia).
  destruct (limit * 4 <? 0) eqn:E; [lia|]. rewrite take_take. f_equal. cbn [length]. lia.
Qed.
Lemma loadMarkers_elem fs ids x : forall out hashes,
  foldR (fun out id => let? file := LoadMarker fs id in Ok (out ++ map meSourceRevision (Entries file))) out ids = Ok hashes ->
  x ∈ hashes <-> x ∈ out \/ exists id m, id ∈ ids /\ LoadMarker fs id = Ok m /\ x ∈ map meSourceRevision (Entries m).
Proof.
  induction ids as [|id ids IH]; intros out hashes; cbn [foldR].
  { intros [= <-]. split; [by left|]. intros [Hx|(? & ? & Hi%elem_of_nil & _)]; done. }
  intros (out1 & H1 & H2)%rbind_ok. apply rbind_ok in H1 as (m & Hm & [= <-]). rewrite (IH _ _ H2), elem_of_app. split.
  - intros [[Hx|Hx]|(i & m' & Hi & Hr)]; [by left|right; exists id, m; split; [left|done]|right; exists i, m'; split; [by right|done]].
  - intros [Hx|(i & m' & [->|Hi]%elem_of_cons & Hl & Hx)]; [by left; left| |right; by exists i, m'].
    rewrite Hm in Hl. injection Hl as <-. left. by right.
Qed.
Definition fifo (fs : Files) : Prop := exists id m, id ∈ ListMarkers fs /\ LoadMarker fs id = Ok m /\ EqualFold (TrimSpace (Selection m)) "fifo" = true.
Lemma anyFifo_spec fs ids b : anyFifo fs ids = Ok b ->
  b = true <-> exists id m, id ∈ ids /\ LoadMarker fs id = Ok m /\ EqualFold (TrimSpace (Selection m)) "fifo" = true.
Proof.
  induction ids as [|id ids IH]; cbn [anyFifo].
  { intros [= <-]. split; [done|]. by intros (? & ? & ?%elem_of_nil & _). }
  intros (m & Hm & H1)%rbind_ok. destruct (EqualFold (TrimSpace (Selection m)) "fifo") eqn:E.
  - injection H1 as <-. split; [|done]. intros _. exists id, m. split; [left|done].
  - rewrite (IH H1). split; intros (i & m' & Hi & Hl & Hf).
    + exists i, m'. split; [by right|done].
    + apply elem_of_cons in Hi as [->|Hi]; [|by exists i, m']. rewrite Hm in Hl. injection Hl as <-. congruence.
Qed.

Lemma trimmed_unique hash l : hash <> "" -> hash ∈ map TrimSpace (uniqueFrom [] l) <-> hash ∈ map TrimSpace l.
Proof.
  intros Hne. rewrite list_elem_of_fmap. setoid_rewrite elem_of_uniqueFrom. split.
  - intros (y & -> & _ & _ & Hy). by rewrite (TrimSpace_elem _ _ Hy).
  - intros Hin. exists hash. rewrite (TrimSpace_elem _ _ Hin). split_and!; [done..|apply not_elem_of_nil|done].
Qed.
Lemma trimmed_merge hash groups : hash <> "" -> hash ∈ map TrimSpace (MergeSourceRevisionPins groups) <-> hash ∈ map TrimSpace (List.concat groups).
Proof.
  intros Hne. unfold MergeSourceRevisionPins. rewrite !list_elem_of_fmap. setoid_rewrite elem_of_mergeFrom. split.
  - intros (y & -> & _ & _ & Hy). by exists y.
  - intros (y & -> & Hy). exists y. split_and!; [done|by intros ->|apply not_elem_of_nil|done].
Qed.

(** A promotion, a deploy, a peer or a marker names the revision, it is one of
    the ends of the state, a consumer in order needs it, or without consumers
    it is one of the newest. *)
Inductive pinned (peerPins : list string) (h : History) (fs : Files) (s : State) (hash : string) : Prop :=
| pin_current : hash = Current s -> pinned peerPins h fs s hash
| pin_last : hash = LastSuccessful s -> pinned peerPins h fs s hash
| pin_peer pin : pin ∈ peerPins -> hash = TrimSpace pin -> pinned peerPins h fs s hash
| pin_promoted p : LoadPromotionState fs = Ok p -> hash = TrimSpace (LastSourceRevision p) -> pinned peerPins h fs s hash
| pin_promotion p e : LoadPromotionState fs = Ok p -> e ∈ take 50 (PromotionHistory p) -> hash = TrimSpace (phSourceRevision e) -> pinned peerPins h fs s hash
| pin_deploy row : row ∈ take 50 (newestFirst (deploy_history h)) -> hash = TrimSpace (dhSourceRevision row) -> pinned peerPins h fs s hash
| pin_marker id m e : id ∈ ListMarkers fs -> LoadMarker fs id = Ok m -> e ∈ Entries m -> hash = TrimSpace (meSourceRevision e) -> pinned peerPins h fs s hash
| pin_fifo row : fifo fs -> row ∈ deploy_history h -> promotable row = true -> hash = TrimSpace (dhSourceRevision row) -> pinned peerPins h fs s hash
| pin_newest : ListMarkers fs = [] -> hash ∈ newestRevisionHashes (Revisions s) RetentionCount -> pinned peerPins h fs s hash.

Lemma pins_elem h fs peerPins pins p : LoadPromotionState fs = Ok p -> CollectSourceRevisionHistoryPins h fs peerPins = Ok pins -> forall hash,
  hash <> "" -> hash ∈ map TrimSpace pins <->
  (exists pin, pin ∈ peerPins /\ hash = TrimSpace pin) \/ hash = TrimSpace (LastSourceRevision p)
  \/ (exists e, e ∈ take 50 (PromotionHistory p) /\ hash = TrimSpace (phSourceRevision e))
  \/ (exists row, row ∈ take 50 (newestFirst (deploy_history h)) /\ hash = TrimSpace (dhSourceRevision row))
  \/ (exists id m e, id ∈ ListMarkers fs /\ LoadMarker fs id = Ok m /\ e ∈ Entries m /\ hash = TrimSpace (meSourceRevision e))
  \/ (fifo fs /\ exists row, row ∈ deploy_history h /\ promotable row = true /\ hash = TrimSpace (dhSourceRevision row)).
Proof.
  intros Hp. unfold CollectSourceRevisionHistoryPins. rewrite Hp. cbn [rbind]. intros (marks & Hm & H1)%rbind_ok hash Hne.
  apply rbind_ok in H1 as (b & Hb & [= <-]). apply anyFifo_spec in Hb. fold (fifo fs) in Hb.
  unfold MarkerSourceRevisions in Hm. apply rbind_ok in Hm as (hashes & Hm & [= <-]).
  set (pins := MergeSourceRevisionPins [_; _; _; _]).
  assert (Hpins : hash ∈ map TrimSpace pins <-> (exists pin, pin ∈ peerPins /\ hash = TrimSpace pin) \/ hash = TrimSpace (LastSourceRevision p)
    \/ (exists e, e ∈ take 50 (PromotionHistory p) /\ hash = TrimSpace (phSourceRevision e))
    \/ (exists row, row ∈ take 50 (newestFirst (deploy_history h)) /\ hash = TrimSpace (dhSourceRevision row))
    \/ (exists id m e, id ∈ ListMarkers fs /\ LoadMarker fs id = Ok m /\ e ∈ Entries m /\ hash = TrimSpace (meSourceRevision e))).
  { unfold pins. rewrite trimmed_merge by done. cbn [List.concat]. rewrite app_nil_r, !map_app, !elem_of_app.
    unfold promotionHistoryPinRevisions, deployHistoryPinRevisions. cbv zeta. rewrite !trimmed_unique by done.
    change (positive RetentionCount DeployHistoryRetention) with 50. rewrite List_newest by lia. cbn [map]. rewrite elem_of_cons.
    change (Z.to_nat (positive RetentionCount PromotionHistoryRetention)) with 50%nat. change (Z.to_nat 50) with 50%nat.
    rewrite !map_map, !list_elem_of_fmap. setoid_rewrite (loadMarkers_elem fs (ListMarkers fs) _ [] hashes Hm). setoid_rewrite list_elem_of_fmap.
    split.
    - intros [[E|(e & E & He)]|[(row & E & Hr)|[(pin & E & Hi)|(y & E & [Hy%elem_of_nil|(id & m & Hi & Hl & e & -> & He)])]]]; try done; eauto 12.
    - intros [(pin & Hi & E)|[E|[(e & He & E)|[(row & Hr & E)|(id & m & e & Hi & Hl & He & E)]]]]; eauto 8.
      do 3 right. exists (meSourceRevision e). split; [done|]. right. exists id, m. eauto. }
  destruct b.
  - rewrite trimmed_merge by done. cbn [List.concat]. rewrite app_nil_r, map_app, elem_of_app, Hpins. unfold PromotableSourceRevisions.
    assert (Hpr : hash ∈ map TrimSpace (distinctTrimmed (map dhSourceRevision (List.filter promotable (deploy_history h))))
      <-> exists row, row ∈ deploy_history h /\ promotable row = true /\ hash = TrimSpace (dhSourceRevision row)).
    { rewrite list_elem_of_fmap. setoid_rewrite elem_of_distinctTrimmed. split.
      - intros (y & -> & Hy & (x & -> & (row & -> & [Hr Hpr]%elem_of_list_filter_b)%list_elem_of_fmap)%list_elem_of_fmap).
        exists row. by rewrite TrimSpace_idem.
      - intros (row & Hr & Hpr & E). exists hash. rewrite E, TrimSpace_idem. split; [done|]. rewrite <- E. split; [done|]. rewrite E.
        apply list_elem_of_fmap. exists (dhSourceRevision row). split; [done|]. apply list_elem_of_fmap. exists row. split; [done|]. by apply elem_of_list_filter_b. }
    rewrite Hpr. assert (fifo fs) by by apply Hb. tauto.
  - rewrite Hpins. assert (~ fifo fs) by (intros Hf; by apply Hb in Hf). tauto.
Qed.

Lemma keepOf_elem h fs peerPins pins s p : LoadPromotionState fs = Ok p -> CollectSourceRevisionHistoryPins h fs peerPins = Ok pins -> forall hash,
  hash <> "" -> hash ∈ keepOf s (mkPruneOptions pins (if HasAnyMarkers fs then 0 else RetentionCount)) <-> pinned peerPins h fs s hash.
Proof.
  intros Hp Hc hash Hne. unfold keepOf. cbn [ExtraPins KeepNewest]. rewrite !elem_of_app, !elem_of_nonEmpty.
  rewrite (pins_elem _ _ _ _ _ Hp Hc) by done.
  assert (Hnew : hash ∈ (if (if HasAnyMarkers fs then 0 else RetentionCount) >? 0 then newestRevisionHashes (Revisions s) (if HasAnyMarkers fs then 0 else RetentionCount) else [])
    <-> ListMarkers fs = [] /\ hash ∈ newestRevisionHashes (Revisions s) RetentionCount).
  { unfold HasAnyMarkers. destruct (ListMarkers fs) as [|id ids]; cbn [length Nat.ltb Nat.leb]; [cbn [Z.gtb]; tauto|]. cbn [Z.gtb Z.compare].
    rewrite elem_of_nil. by split; [|intros [[=] _]]. }
  rewrite Hnew. rewrite !elem_of_cons, elem_of_nil. split.
  - intros [[_ [E|[E|[]]]]|[[_ [(pin & Hi & E)|[E|[(e & He & E)|[(row & Hr & E)|[(id & m & e & Hi & Hl & He & E)|(Hf & row & Hr & Hpr & E)]]]]]]|[Hm Hn]]].
    + by apply pin_current.
    + by apply pin_last.
    + by apply (pin_peer _ _ _ _ _ pin).
    + by apply (pin_promoted _ _ _ _ _ p).
    + by apply (pin_promotion _ _ _ _ _ p e).
    + by apply (pin_deploy _ _ _ _ _ row).
    + by apply (pin_marker _ _ _ _ _ id m e).
    + by apply (pin_fifo _ _ _ _ _ row).
    + by apply pin_newest.
  - destruct 1 as [E|E|pin Hi E|p' Hp' E|p' e Hp' He E|row Hr E|id m e Hi Hl He E|row Hf Hr Hpr E|Hm Hn]; try (rewrite Hp in Hp'; injection Hp' as <-);
      [left; tauto|left; tauto|right; left; split; [done|]..|right; right; done].
    + left. by exists pin.
    + tauto.
    + do 2 right. left. by exists e.
    + do 3 right. left. by exists row.
    + do 4 right. left. by exists id, m, e.
    + do 5 right. split; [done|]. by exists row.
Qed.
Lemma trimKeeping_elem keepSet e entries : TrimSpace (phSourceRevision e) <> "" -> forall n,
  e ∈ trimKeeping keepSet n entries <-> e ∈ entries /\ TrimSpace (phSourceRevision e) ∈ keepSet.
Proof.
  intros Hne. induction entries as [|x entries IH]; intros n; cbn [trimKeeping]; [rewrite elem_of_nil; tauto|].
  destruct (String.eqb_spec (TrimSpace (phSourceRevision x)) "") as [Ex|Ex].
  - destruct (_ <=? n); rewrite ?elem_of_cons, IH; naive_solver.
  - destruct (mem _ keepSet) eqn:Em; rewrite ?elem_of_cons, IH; [apply mem_true in Em|apply mem_false in Em]; naive_solver.
Qed.

Definition retained (s : State) : list string := map PushHash (Revisions s).
Definition readable (fs : Files) : Prop := forall id, id ∈ ListMarkers fs -> exists m, LoadMarker fs id = Ok m.
Lemma Collect_succeeds h fs peerPins p : LoadPromotionState fs = Ok p -> readable fs -> exists pins, CollectSourceRevisionHistoryPins h fs peerPins = Ok pins.
Proof.
  intros Hp Hr. unfold CollectSourceRevisionHistoryPins, MarkerSourceRevisions, HasFifoMarker, readable in *. rewrite Hp. cbn [rbind].
  assert (Hm : forall ids out, (forall id, id ∈ ids -> exists m, LoadMarker fs id = Ok m) -> exists hashes,
    foldR (fun out id => let? file := LoadMarker fs id in Ok (out ++ map meSourceRevision (Entries file))) out ids = Ok hashes).
  { induction ids as [|id ids IH]; intros out Hids; cbn [foldR]; [by eexists|]. destruct (Hids id) as [m ->]; [left|]. cbn [rbind].
    apply IH. intros i Hi. apply Hids. by right. }
  destruct (Hm (ListMarkers fs) [] Hr) as [hashes ->]. cbn [rbind].
  assert (Hf : forall ids, (forall id, id ∈ ids -> exists m, LoadMarker fs id = Ok m) -> exists b, anyFifo fs ids = Ok b).
  { induction ids as [|id ids IH]; intros Hids; cbn [anyFifo]; [by eexists|]. destruct (Hids id) as [m ->]; [left|]. cbn [rbind].
    destruct (EqualFold _ _); [by eexists|]. apply IH. intros i Hi. apply Hids. by right. }
  destruct (Hf (ListMarkers fs) Hr) as [b ->]. cbn [rbind]. by eexists.
Qed.
Lemma Prune_succeeds opts fs s : LoadState fs = Ok s -> exists fs', Prune opts fs = Ok fs'.
Proof. intros Hs. unfold Prune. rewrite Hs. cbn [rbind]. destruct (pruneRevisions _ _ _ _). by eexists. Qed.
(** C31: A collection of a bucket whose files can be read succeeds. It keeps
    exactly the pinned revisions of the bucket, each once and with all its
    files, and removes the files of the others; the rows of
    both histories that name a revision stay exactly when it was kept (the
    last promoted one in any case), a row goes with its jobs, and the rest of
    the bucket's files is not touched. *)
Theorem gc_keeps_pinned peerPins h fs s p : LoadState fs = Ok s -> LoadPromotionState fs = Ok p -> Forall regular (retained s) -> history_ok h ->
  readable fs -> exists h' fs' s', PruneSourceRevisionsAndHistory peerPins h fs = Ok (h', fs')
  /\ LoadState fs' = Ok s' /\ Current s' = Current s /\ LastSuccessful s' = LastSuccessful s
  /\ NoDup (retained s') /\ (forall e, e ∈ Revisions s' -> e ∈ Revisions s)
  /\ (forall hash, hash ∈ retained s' <-> hash ∈ retained s /\ pinned peerPins h fs s hash)
  /\ (forall hash x rest, hash ∈ retained s -> fs' !! (Root ++ hash :: x :: rest) = if mem hash (retained s') then fs !! (Root ++ hash :: x :: rest) else None)
  /\ (forall path, path <> promotionStatePath -> (forall name rest, path <> Root ++ name :: rest) -> fs' !! path = fs !! path)
  /\ (exists keeps, h' = restrict keeps h
      /\ forall row, row ∈ deploy_history h -> dhSourceRevision row <> "" -> keeps (dhRunID row) = mem (dhSourceRevision row) (retained s'))
  /\ (exists p', LoadPromotionState fs' = Ok p' /\ forall e, TrimSpace (phSourceRevision e) <> "" ->
      e ∈ PromotionHistory p' <-> e ∈ PromotionHistory p /\ (TrimSpace (phSourceRevision e) ∈ retained s'
                                                            \/ TrimSpace (phSourceRevision e) = TrimSpace (LastSourceRevision p))).
Proof.
  intros Hs Hp Hr Hh Hread. unfold PruneSourceRevisionsAndHistory. destruct (Collect_succeeds h fs peerPins p Hp Hread) as [pins Hc]. rewrite Hc. cbn [rbind].
  destruct (Prune_succeeds (mkPruneOptions pins (if HasAnyMarkers fs then 0 else RetentionCount)) fs s Hs) as [fs1 Hpr]. rewrite Hpr. cbn [rbind].
  destruct (Prune_spec _ _ _ _ Hs Hr Hpr) as (order & Hl1 & N & Hsub & Hret & Hdir & Hout). cbv zeta in *.
  set (opts := mkPruneOptions pins _) in *.
  assert (Hkeep : forall hash, hash <> "" -> hash ∈ keepOf s opts <-> pinned peerPins h fs s hash) by (by apply keepOf_elem with (p := p)).
  assert (Hreg : forall hash, hash ∈ retained s -> regular hash) by (by apply Forall_forall).
  unfold RetainedHashes. rewrite Hl1. cbn [rbind Revisions].
  assert (Hpath : forall name rest, promotionStatePath <> (Root ++ name :: rest)%list) by (intros name rest; done).
  assert (Hp1 : LoadPromotionState fs1 = Ok p) by (unfold LoadPromotionState in *; by rewrite (Hout promotionStatePath Hpath)).
  unfold PrunePromotionStateKeepingRevisions. rewrite Hp1. cbn [rbind]. do 2 eexists.
  exists (mkState (Current s) (LastSuccessful s) order). cbn [Current LastSuccessful Revisions retained].
  assert (Hret' : forall hash, hash ∈ map PushHash order <-> hash ∈ retained s /\ pinned peerPins h fs s hash).
  { intros hash. rewrite Hret. split; intros [H1 H2]; (split; [done|]); apply Hkeep; try done; by apply regular_nonempty, Hreg. }
  assert (Htrim : map TrimSpace (map PushHash order) = map PushHash order).
  { rewrite <- (map_id (map PushHash order)) at 2. apply map_ext_in. intros x Hx. apply list_elem_of_In, Hret in Hx as [Hx _]. apply (Hreg x Hx). }
  assert (Hkept : forall hash, hash ∈ uniqueFrom [] (map PushHash order) <-> hash ∈ map PushHash order).
  { intros hash. rewrite elem_of_uniqueFrom, Htrim. split; [tauto|]. intros Hx. split_and!; [|apply not_elem_of_nil|done].
    apply Hret in Hx as [Hx _]. by apply regular_nonempty, Hreg. }
  split_and!; try done.
  - unfold LoadState, SavePromotionState in *. rewrite lookup_insert_ne by done. done.
  - intros hash x rest Hx. unfold SavePromotionState. rewrite lookup_insert_ne by (apply Hpath). rewrite Hdir.
    destruct (Hreg hash Hx) as (_ & _ & ->). rewrite orb_false_r.
    assert (mem hash (keepOf s opts) = mem hash (map PushHash order)) as ->; [|done]. apply bool_decide_ext. rewrite Hret. unfold retained in Hx. tauto.
  - intros path Hne Ho. unfold SavePromotionState. rewrite lookup_insert_ne by done. by apply Hout.
  - destruct (PruneKeeping_spec h (uniqueFrom [] (map PushHash order)) DeployHistoryRetention Hh) as (keeps & E & K & _).
    exists keeps. split; [done|]. intros row Hrow Hne. rewrite K by done. apply bool_decide_ext. unfold retained. cbn [Revisions].
    rewrite trimmed_unique, Htrim by done. done.
  - eexists. split; [unfold LoadPromotionState, SavePromotionState; rewrite lookup_insert_eq; reflexivity|]. intros e He.
    match goal with |- e ∈ PromotionHistory ?q <-> _ => assert (PromotionHistory q = TrimPromotionHistoryKeepingRevisions (PromotionHistory p) (LastSourceRevision p) (uniqueFrom [] (map PushHash order))) as -> by (by destruct (String.eqb _ "")) end.
    unfold TrimPromotionHistoryKeepingRevisions. rewrite trimKeeping_elem by done. rewrite elem_of_nonEmpty, map_app, elem_of_app. cbn [map].
    rewrite list_elem_of_singleton, trimmed_unique, Htrim by done. unfold retained. cbn [Revisions]. tauto.
Qed.
End gc.

(** ** A bucket with a consumer *)

Definition rev_ (hash : string) : Entry := mkRevision hash "" 1 "" "2025-01-01T00:00:00Z" "ok" "bundle".
Definition bundle (hash : string) : Path * Content := ((Root ++ [hash; "bundle.db"])%list, Bytes "rows").
Definition run_ (run ended revision : string) : HistoryRow := mkHistoryRow run 1 ended ended "succeeded" revision "" "" 0 1 "".
Definition bucket_state : State := mkState "aa" "aa" [rev_ "cc"; rev_ "bb"; rev_ "aa"].
Definition bucket_files : Files :=
  list_to_map [(StatePath, StateJSON bucket_state); bundle "aa"; bundle "bb"; bundle "cc"; bundle "dd";
    (MarkersDir ++ ["prod.json"], MarkerJSON (mkMarker "prod" "latest" [mkMarkerEntry "bb" "" "r1" "2025-01-02T00:00:00Z"]))]%list.
(** The newest fifty runs are of [aa], the oldest one is of [cc]. *)
Definition bucket_history : History :=
  mkHistory (run_ "old" "2024-12-31T00:00:00Z" "cc" :: map (fun i => run_ ("run" +:+ Itoa (Z.of_nat i)) "2025-01-01T00:00:00Z" "aa") (seq 1 50))
    [("old", mkHistoryJob "web" "deployed" "" "1.0.0" 0)].
Definition collected : result revision_error (History * Files) := PruneSourceRevisionsAndHistory (H := ascii_unicode) [] bucket_history bucket_files.
Lemma bucket_regular : Forall regular (retained bucket_state).
Proof. repeat constructor; try discriminate; vm_compute; reflexivity. Qed.
Lemma bucket_history_ok : history_ok bucket_history.
Proof.
  split; by apply (bool_decide_unpack _); vm_compute.
Qed.
Lemma bucket_readable : readable bucket_files.
Proof.
  intros id Hid. assert (E : ListMarkers bucket_files = ["prod"]) by (vm_compute; reflexivity). rewrite E in Hid. apply list_elem_of_singleton in Hid as ->.
  eexists. vm_compute. reflexivity.
Qed.
(** [aa] is current, [bb] is promoted to [prod]; [cc] goes with its run. *)
Lemma gc_keeps_pinned_witness : exists h' fs' s', collected = Ok (h', fs') /\ LoadState fs' = Ok s' /\ retained s' = ["bb"; "aa"]
  /\ fs' !! (Root ++ ["bb"; "bundle.db"])%list = Some (Bytes "rows") /\ length (deploy_history h') = 50%nat.
Proof.
  destruct (gc_keeps_pinned (H := ascii_unicode) [] bucket_history bucket_files bucket_state (setLastStatus emptyPromotion "idle") eq_refl eq_refl
    bucket_regular bucket_history_ok bucket_readable) as (h' & fs' & s' & E & Hs' & _ & _ & _ & _ & _ & Hfiles & _).
  exists h', fs', s'. split; [exact E|]. split; [exact Hs'|].
  assert (Ec : match collected with
    | Ok (h, fs) => length (deploy_history h) = 50%nat /\ match LoadState fs with Ok s => retained s = ["bb"; "aa"] | Err _ => False end
    | Err _ => False end) by (vm_compute; split; reflexivity).
  unfold collected in Ec. rewrite E, Hs' in Ec. destruct Ec as [El Er]. split; [exact Er|]. split; [|exact El].
  change (Root ++ ["bb"; "bundle.db"])%list with (Root ++ "bb" :: "bundle.db" :: [])%list.
  rewrite Hfiles by (apply (bool_decide_unpack _); vm_compute; reflexivity). rewrite Er. vm_compute. reflexivity.
Defined.

(** ** What the code lets happen *)

(** An entry of state.json without a hash names the directory of all
    revisions, which goes with everything below it. *)
Theorem empty_hash_removes_all :
  match Prune (mkPruneOptions [] 50) (<[StatePath := StateJSON (mkState "aa" "aa" [rev_ "aa"; rev_ ""])]> bucket_files) with
  | Ok fs => map_to_list fs = [(StatePath, StateJSON (mkState "aa" "aa" [rev_ "aa"]))] /\ ArtifactPresent "aa" fs = false
  | Err _ => False
  end.
Proof. vm_compute. by split. Qed.

(** The text of a time drops the zeros at the end of the fraction, so within a
    second the order of the texts is not that of the times: the newest run
    of a revision is not the one found. *)
Theorem text_order_of_times :
  let first := mkRecord "one" 1 0 1000000000 "succeeded" "aa" "" "" false "" [mkHistoryJob "web" "deployed" "" "" 0] in
  let second := mkRecord "two" 2 1000000000 1500000000 "succeeded" "aa" "" "" false "" [mkHistoryJob "web" "deployed" "" "" 0] in
  match InsertDeployHistory (mkHistory [] []) first with
  | Ok h => match InsertDeployHistory h second with
            | Ok h => NewestPromotableDeployMark h "aa" = Some (1000000000, 1)
            | Err _ => False
            end
  | Err _ => False
  end.
Proof. vm_compute. reflexivity. Qed.

(** A list for one job reads four times the limit of rows and no more. *)
Theorem filtered_list_misses :
  let h := mkHistory (run_ "old" "2024-12-31T00:00:00Z" "cc" :: map (fun i => run_ ("run" +:+ Itoa (Z.of_nat i)) "2025-01-01T00:00:00Z" "aa") (seq 1 4))
             [("old", mkHistoryJob "web" "deployed" "" "1.0.0" 0)] in
  ListDeployHistory h 1 ["web"] = [] /\ map eRunID (ListDeployHistory h 2 ["web"]) = ["old"].
Proof. vm_compute. by split. Qed.
