(* ===== verification/Durable.v ===== *)
(** * internal/durablefs: files that survive an interruption

    internal/durablefs/durablefs.go and its [renameNoReplace]. A disk is its
    files and directories with what has not been synced yet; every system call
    can work, fail, or be the last one the process makes. The texts around an
    error are left out. *)
From S2P Require Import Prelude GoStrings.
Open Scope Z_scope.

(** ** Disks *)

(** The elements of an absolute path. *)
Notation Path := (list string).
(** A JSON file that is read back is the value that it decodes to; a part of
    its text decodes to nothing. *)
Inductive Content := Text (s : string) | Manifest (version : Z) (sourceSHA256 : string) (schemaVersion : Z) | Torn.
Inductive Node := DirNode (mode : Z) | FileNode (mode : Z) (c : Content).
(** [dirty]: the files whose bytes, and the directories whose names, the last
    sync has not written. *)
Record Disk := mkDisk { nodes : gmap (list string) Node; dirty : gset (list string) }.
Definition cut (n : nat) (c : Content) : Content := match c with Text s => Text (stake n s) | _ => Torn end.
Definition parent (p : Path) : Path := removelast p.
Definition base (p : Path) : string := List.last p "".
Definition below (dir path : Path) : bool := bool_decide (dir `prefix_of` path).
Definition isDir (d : Disk) (p : Path) : bool := match p, nodes d !! p with [], _ => true | _, Some (DirNode _) => true | _, _ => false end.
Definition setNode (p : Path) (n : Node) (d : Disk) : Disk := mkDisk (<[p := n]> (nodes d)) ({[p]} ∪ dirty d).
Definition touch (p : Path) (d : Disk) : Disk := mkDisk (nodes d) ({[p]} ∪ dirty d).

(** ** System calls *)

Inductive errno := ENOENT | EEXIST | ENOTDIR | EISDIR | EIO.
Inductive error := Errno (e : errno) | Message (s : string) | CommitError (e : error) | Joined (e cleanup : error).
(** What becomes of a call: [got] is how much of it was done. *)
Inductive Event := Works | Fails (got : nat) | Dies (got : nat).
Record World := mkWorld { disk : Disk; calls : nat }.
Inductive Outcome (A : Type) := Done (a : A) | Failed (e : error) | Dead.
Arguments Done {A}.
Arguments Failed {A}.
Arguments Dead {A}.
Definition M (A : Type) : Type := World -> Outcome A * World.
Definition ret {A} (a : A) : M A := fun w => (Done a, w).
Definition fail {A} (e : error) : M A := fun w => (Failed e, w).
Definition bind {A B} (m : M A) (f : A -> M B) : M B := fun w =>
  match m w with (Done a, w) => f a w | (Failed e, w) => (Failed e, w) | (Dead, w) => (Dead, w) end.
Notation "'let!' x := m 'in' k" := (bind m (fun x => k)) (at level 10, x pattern, m at level 100, k at level 200).
Notation "m ;;! k" := (bind m (fun _ : unit => k)) (at level 199, right associativity).
Fixpoint forM {A} (l : list A) (f : A -> M unit) : M unit := match l with [] => ret tt | x :: l => f x ;;! forM l f end.
Definition ignore (m : M unit) : M unit := fun w => match m w with (Failed _, w) => (Done tt, w) | r => r end.
(** A deferred function that runs when the body fails; what it returns is lost. *)
Definition onFailure {A} (m : M A) (cleanup : M unit) : M A := fun w =>
  match m w with
  | (Failed e, w) => match cleanup w with (Dead, w) => (Dead, w) | (_, w) => (Failed e, w) end
  | r => r
  end.

Section calls.
Context (events : nat -> Event) (umask : Z).
Definition sys {A} (full : Disk -> result errno (A * Disk)) (part : nat -> Disk -> Disk) : M A := fun w =>
  match full (disk w), events (calls w) with
  | Ok (a, d), Works => (Done a, mkWorld d (S (calls w)))
  | Ok _, Fails n => (Failed (Errno EIO), mkWorld (part n (disk w)) (S (calls w)))
  | Ok _, Dies n => (Dead, mkWorld (part n (disk w)) (S (calls w)))
  | Err _, Dies _ => (Dead, mkWorld (disk w) (S (calls w)))
  | Err e, _ => (Failed (Errno e), mkWorld (disk w) (S (calls w)))
  end.
Definition untouched (n : nat) (d : Disk) : Disk := d.
(** A call without effect: a hook, a close. *)
Definition step : M unit := sys (fun d => Ok (tt, d)) untouched.
Definition perm (mode : Z) : Z := Z.land mode (Z.lnot umask).
Definition Lstat (p : Path) : M (option Node) := sys (fun d => Ok (if decide (p = []) then Some (DirNode 493) else nodes d !! p, d)) untouched.
Definition Open (p : Path) : M unit := sys (fun d => if decide (is_Some (nodes d !! p) \/ p = []) then Ok (tt, d) else Err ENOENT) untouched.
Definition ReadFile (p : Path) : M Content :=
  sys (fun d => match nodes d !! p with Some (FileNode _ c) => Ok (c, d) | Some (DirNode _) => Err EISDIR | None => Err ENOENT end) untouched.
Definition OpenExcl (p : Path) (mode : Z) : M unit :=
  sys (fun d => if decide (is_Some (nodes d !! p) \/ p = []) then Err EEXIST else if isDir d (parent p) then Ok (tt, touch (parent p) (setNode p (FileNode (perm mode) (Text "")) d)) else Err ENOENT)
    untouched.
Definition chmodNode (mode : Z) (n : Node) : Node := match n with DirNode _ => DirNode mode | FileNode _ c => FileNode mode c end.
Definition Chmod (p : Path) (mode : Z) : M unit :=
  sys (fun d => match nodes d !! p with Some n => Ok (tt, setNode p (chmodNode mode n) d) | None => Err ENOENT end) untouched.
Definition fill (p : Path) (c : Content) (d : Disk) : Disk := match nodes d !! p with Some (FileNode mode _) => setNode p (FileNode mode c) d | _ => d end.
Definition Write (p : Path) (c : Content) : M unit :=
  sys (fun d => match nodes d !! p with Some (FileNode _ _) => Ok (tt, fill p c d) | _ => Err ENOENT end) (fun n => fill p (cut n c)).
Definition Fsync (p : Path) : M unit := sys (fun d => Ok (tt, mkDisk (nodes d) (dirty d ∖ {[p]}))) untouched.
Definition Remove (p : Path) : M unit :=
  sys (fun d => match nodes d !! p with Some _ => Ok (tt, touch (parent p) (mkDisk (delete p (nodes d)) (dirty d))) | None => Err ENOENT end) untouched.
(** [os.WriteFile] *)
Definition putFile (p : Path) (mode : Z) (c : Content) (d : Disk) : Disk :=
  match nodes d !! p with Some (FileNode m _) => setNode p (FileNode m c) d | _ => touch (parent p) (setNode p (FileNode mode c) d) end.
Definition WriteFile (p : Path) (mode : Z) (c : Content) : M unit :=
  sys (fun d => match nodes d !! p with
                | Some (DirNode _) => Err EISDIR
                | Some (FileNode _ _) => Ok (tt, putFile p (perm mode) c d)
                | None => if isDir d (parent p) then Ok (tt, putFile p (perm mode) c d) else Err ENOENT
                end) (fun n => putFile p (perm mode) (cut n c)).
(** [os.MkdirAll]: the directories on the way that are not there. *)
Fixpoint ancestors (done rest : Path) : list Path := match rest with [] => [] | e :: rest => (done ++ [e]) :: ancestors (done ++ [e]) rest end.
Definition missing (d : Disk) (p : Path) : list Path := List.filter (fun q => negb (bool_decide (is_Some (nodes d !! q)))) (ancestors [] p).
Definition mkdirs (mode : Z) (l : list Path) (d : Disk) : Disk := foldl (fun d q => touch (parent q) (setNode q (DirNode mode) d)) d l.
Definition MkdirAll (p : Path) (mode : Z) : M unit :=
  sys (fun d => if forallb (fun q => match nodes d !! q with Some (FileNode _ _) => false | _ => true end) (ancestors [] p)
                then Ok (tt, mkdirs (perm mode) (missing d p) d) else Err ENOTDIR)
    (fun n d => mkdirs (perm mode) (take n (missing d p)) d).
(** [os.MkdirTemp]: the first of the random names that is not taken. *)
Definition freshName (d : Disk) (dir : Path) (names : list string) : option string :=
  head (List.filter (fun name => negb (bool_decide (is_Some (nodes d !! (dir ++ [name]))))) names).
Definition MkdirTemp (dir : Path) (names : list string) : M Path :=
  sys (fun d => match freshName d dir names with
                | Some name => if isDir d dir then Ok (dir ++ [name], touch dir (setNode (dir ++ [name]) (DirNode (perm 448)) d)) else Err ENOENT
                | None => Err EEXIST
                end) untouched.
Definition CreateTemp (dir : Path) (names : list string) : M Path :=
  sys (fun d => match freshName d dir names with
                | Some name => if isDir d dir then Ok (dir ++ [name], touch dir (setNode (dir ++ [name]) (FileNode (perm 384) (Text "")) d)) else Err ENOENT
                | None => Err EEXIST
                end) untouched.
(** [os.RemoveAll]: what is below a path, the deepest first. *)
Definition tree (p : Path) (d : Disk) : list (Path * Node) := List.filter (fun x => below p x.1) (map_to_list (nodes d)).
Definition deeper (a b : Path) : Prop := (length b <= length a)%nat.
#[export] Instance deeper_dec a b : Decision (deeper a b).
Proof. unfold deeper. apply _. Defined.
Definition deepestFirst (l : list Path) : list Path := merge_sort deeper l.
Definition removed (l : list Path) (d : Disk) : Disk := foldl (fun d q => touch (parent q) (mkDisk (delete q (nodes d)) (dirty d ∖ {[q]}))) d l.
Definition RemoveAll (p : Path) : M unit :=
  sys (fun d => Ok (tt, removed (deepestFirst (tree p d).*1) d)) (fun n d => removed (take n (deepestFirst (tree p d).*1)) d).
Definition Walk (p : Path) : M (list (Path * Node)) := sys (fun d => match nodes d !! p with Some _ => Ok (tree p d, d) | None => Err ENOENT end) untouched.

(** *** Renames *)

Fixpoint strip (dir path : Path) : option Path :=
  match dir, path with [], p => Some p | a :: dir, b :: p => if String.eqb a b then strip dir p else None | _ :: _, [] => None end.
Definition subtree (dir : Path) (m : gmap (list string) Node) : gmap (list string) Node :=
  list_to_map (omap (fun x => (fun r => (r, x.2)) <$> strip dir x.1) (map_to_list m)).
Definition move (old new p : Path) : Path := match strip old p with Some r => new ++ r | None => p end.
Definition moved (old new : Path) (d : Disk) : Disk :=
  mkDisk (kmap (app new) (subtree old (nodes d)) ∪ filter (fun x => below old x.1 = false) (nodes d)) (set_map (move old new) (dirty d)).
(** [os.Rename] over a file *)
Definition renamed (old new : Path) (n : Node) (d : Disk) : Disk :=
  mkDisk (<[new := n]> (delete old (nodes d)))
    ({[parent old; parent new]} ∪ (if decide (old ∈ dirty d) then {[new]} else ∅) ∪ (dirty d ∖ {[old; new]})).
Definition Rename (old new : Path) : M unit :=
  sys (fun d => match nodes d !! old, nodes d !! new with
                | Some (FileNode m c), (Some (FileNode _ _) | None) =>
                    if isDir d (parent new) then Ok (tt, renamed old new (FileNode m c) d) else Err ENOENT
                | Some (FileNode _ _), Some (DirNode _) => Err EISDIR
                | _, _ => Err ENOENT
                end) untouched.
Definition renameNoReplace (old new : Path) : M unit :=
  sys (fun d => if decide (is_Some (nodes d !! new) \/ new = []) then Err EEXIST
                else if negb (bool_decide (is_Some (nodes d !! old))) || below old new then Err ENOENT
                else if isDir d (parent new) then Ok (tt, touch (parent old) (touch (parent new) (moved old new d))) else Err ENOENT) untouched.

(** ** Writing *)

Definition SyncDir (dir : Path) : M unit := Open dir ;;! Fsync dir ;;! step.
Definition syncDirWithHook (dir : Path) : M unit := step ;;! Open dir ;;! step ;;! Fsync dir ;;! step ;;! step.
(** A new file, which is not there when it could not be written. *)
Definition CopyNew (path : Path) (src : Content) (mode : Z) : M unit :=
  step ;;! OpenExcl path mode ;;!
  onFailure (step ;;! Chmod path mode ;;! step ;;! Write path src ;;! step ;;! Fsync path ;;! step ;;! step)
    (ignore step ;;! Remove path).
Definition WriteNew (path : Path) (data : Content) (mode : Z) : M unit := CopyNew path data mode.
(** The contents of a file, replaced: the error says whether they were. *)
Definition commitError (m : M unit) : M unit := fun w => match m w with (Failed e, w) => (Failed (CommitError e), w) | r => r end.
Definition ReplaceWithHook (path : Path) (data : Content) (mode : Z) (suffixes : list string) : M unit :=
  step ;;!
  let! tempPath := CreateTemp (parent path) (map (fun x => "." +:+ base path +:+ ".tmp-" +:+ x) suffixes) in
  onFailure ((step ;;! Chmod tempPath mode ;;! step ;;! Write tempPath data ;;! step ;;! Fsync tempPath ;;! step ;;! step ;;! step) ;;! Rename tempPath path)
    (ignore step ;;! Remove tempPath) ;;!
  commitError (syncDirWithHook (parent path)).
Definition isDirNode (n : Node) : bool := match n with DirNode _ => true | FileNode _ _ => false end.
Definition SyncTree (root : Path) : M unit :=
  let! entries := Walk root in
  forM (List.filter (fun x => negb (isDirNode x.2)) entries) (fun x => step ;;! Open x.1 ;;! Fsync x.1 ;;! step) ;;!
  forM (deepestFirst (List.filter (fun x => isDirNode x.2) entries).*1) (fun dir => step ;;! SyncDir dir).
Definition CommitDir (stage dest : Path) : M unit :=
  if negb (bool_decide (parent stage = parent dest)) then fail (Message "stage and destination must share a parent")
  else step ;;! renameNoReplace stage dest ;;! commitError (step ;;! syncDirWithHook (parent dest)).
Definition RemoveTree (stage : Path) : M unit := step ;;! RemoveAll stage ;;! syncDirWithHook (parent stage).
End calls.
Fixpoint Installed (err : error) : bool := match err with CommitError _ => true | Joined e c => Installed e || Installed c | _ => false end.
