(* ===== verification/DurableFacts.v ===== *)
(** * internal/durablefs: what an interruption leaves

    Rules for programs of system calls, and what each routine leaves when it
    succeeds, when it fails and when the process ends in the middle. *)
From S2P Require Import Prelude GoStrings Utils Durable.
Open Scope Z_scope.

(** ** Rules *)

Section rules.
(** Whatever becomes of the calls, the invariant holds afterwards. *)
Definition keeps {A} (I : Disk -> Prop) (m : M A) : Prop := forall w, I (disk w) -> I (disk (m w).2).
(** What holds when the program is done. *)
Definition yields {A} (P : Disk -> Prop) (m : M A) (Q : A -> Disk -> Prop) : Prop :=
  forall w a w', P (disk w) -> m w = (Done a, w') -> Q a (disk w').

Lemma keeps_done {A} I (a : A) : keeps I (ret a). Proof. by intros w. Qed.
Lemma keeps_fail {A} I e : keeps I (@fail A e). Proof. by intros w. Qed.
Lemma keeps_bind {A B} I (m : M A) (f : A -> M B) : keeps I m -> (forall a, keeps I (f a)) -> keeps I (bind m f).
Proof. intros Hm Hf w Hw. specialize (Hm w Hw). unfold bind. destruct (m w) as [[a|e|] w']; [by apply Hf|done..]. Qed.
Lemma keeps_onFailure {A} I (m : M A) cleanup : keeps I m -> keeps I cleanup -> keeps I (onFailure m cleanup).
Proof.
  intros Hm Hc w Hw. specialize (Hm w Hw). unfold onFailure. destruct (m w) as [[a|e|] w']; [done| |done].
  specialize (Hc w' Hm). by destruct (cleanup w') as [[]].
Qed.
Lemma keeps_ignore I m : keeps I m -> keeps I (ignore m).
Proof. intros Hm w Hw. specialize (Hm w Hw). unfold ignore. by destruct (m w) as [[]]. Qed.
Lemma keeps_commitError I m : keeps I m -> keeps I (commitError m).
Proof. intros Hm w Hw. specialize (Hm w Hw). unfold commitError. by destruct (m w) as [[]]. Qed.
Lemma keeps_forM {A} I (l : list A) f : (forall x, x ∈ l -> keeps I (f x)) -> keeps I (forM l f).
Proof.
  induction l as [|x l IH]; intros Hf; [by intros w|]. apply keeps_bind; [apply Hf; left|]. intros _. apply IH. intros y Hy. apply Hf. by right.
Qed.

Lemma yields_ret {A} P (a : A) Q : (forall d, P d -> Q a d) -> yields P (ret a) Q.
Proof. intros H w a' w' Hw [= -> ->]. by apply H. Qed.
Lemma yields_bind {A B} P R Q (m : M A) (f : A -> M B) : yields P m R -> (forall a, yields (R a) (f a) Q) -> yields P (bind m f) Q.
Proof.
  intros Hm Hf w b w'. unfold bind. intros Hw. destruct (m w) as [[a|e|] w1] eqn:E; [|done..]. intros Hb.
  apply (Hf a w1); [by apply (Hm w)|done].
Qed.
Lemma yields_onFailure {A} P Q (m : M A) cleanup : yields P m Q -> yields P (onFailure m cleanup) Q.
Proof.
  intros Hm w a w' Hw. unfold onFailure. destruct (m w) as [[b|e|] w1] eqn:E; [|by destruct (cleanup w1) as [[]]|done].
  intros [= -> ->]. by apply (Hm w).
Qed.
Lemma yields_commitError P Q m : yields P m Q -> yields P (commitError m) Q.
Proof. intros Hm w a w' Hw. unfold commitError. destruct (m w) as [[b|e|] w1] eqn:E; [|done..]. intros [= -> ->]. by apply (Hm w). Qed.
Lemma yields_weaken {A} (P P' : Disk -> Prop) (Q Q' : A -> Disk -> Prop) m : (forall d, P' d -> P d) -> (forall a d, Q a d -> Q' a d) -> yields P m Q -> yields P' m Q'.
Proof. intros HP HQ Hm w a w' Hw E. eapply HQ, Hm; eauto. Qed.
Lemma yields_and {A} P P' (Q Q' : A -> Disk -> Prop) m : yields P m Q -> yields P' m Q' -> yields (fun d => P d /\ P' d) m (fun a d => Q a d /\ Q' a d).
Proof. intros H1 H2 w a w' [] E. split; [by apply (H1 w)|by apply (H2 w)]. Qed.
Lemma yields_keeps {A} I (m : M A) : keeps I m -> yields I m (fun _ => I).
Proof. intros H w a w' Hw E. specialize (H w Hw). by rewrite E in H. Qed.
(** An invariant that holds before each round and after the last. *)
Lemma yields_forM {A} (P : list A -> Disk -> Prop) f : (forall x l, yields (P (x :: l)) (f x) (fun _ => P l)) -> forall l, yields (P l) (forM l f) (fun _ => P []).
Proof. intros Hf. induction l as [|x l IH]; cbn [forM]; [by apply yields_ret|]. eapply yields_bind; [apply Hf|]. intros []. apply IH. Qed.
End rules.

Section calls.
Context (events : nat -> Event) (umask : Z).
Lemma keeps_sys {A} I (full : Disk -> result errno (A * Disk)) part :
  (forall d a d', I d -> full d = Ok (a, d') -> I d' /\ forall n, I (part n d)) -> keeps I (sys events full part).
Proof.
  intros H w Hw. unfold sys. destruct (full (disk w)) as [[a d]|e] eqn:E; [|by destruct (events _)]. destruct (H _ _ _ Hw E) as [H1 H2].
  destruct (events _); [done|apply H2..].
Qed.
Lemma yields_sys {A} P Q (full : Disk -> result errno (A * Disk)) part :
  (forall d a d', P d -> full d = Ok (a, d') -> Q a d') -> yields P (sys events full part) Q.
Proof.
  intros H w a w' Hw. unfold sys. destruct (full (disk w)) as [[b d]|e] eqn:E; [|by destruct (events _)].
  destruct (events _); [|done..]. intros [= -> <-]. by apply (H (disk w)).
Qed.
(** A call that looks at the disk. *)
Lemma keeps_look {A} I (full : Disk -> result errno (A * Disk)) : (forall d a d', full d = Ok (a, d') -> d' = d) -> keeps I (sys events full untouched).
Proof. intros H. apply keeps_sys. intros d a d' Hd ->%H. by split. Qed.
Lemma yields_look {A} P (full : Disk -> result errno (A * Disk)) part : (forall d a d', full d = Ok (a, d') -> d' = d) -> yields P (sys events full part) (fun _ => P).
Proof. intros H. apply yields_sys. intros d a d' Hd ->%H. done. Qed.
Lemma keeps_step I : keeps I (step events).
Proof. apply keeps_look. by intros ? ? ? [= _ ->]. Qed.
Lemma yields_step P : yields P (step events) (fun _ => P).
Proof. apply yields_look. by intros ? ? ? [= _ ->]. Qed.
Lemma keeps_Open I p : keeps I (Open events p).
Proof. apply keeps_look. intros d a d'. case_decide; [by intros [= _ ->]|done]. Qed.
Lemma yields_Open P p : yields P (Open events p) (fun _ => P).
Proof. apply yields_look. intros d a d'. case_decide; [by intros [= _ ->]|done]. Qed.
Lemma keeps_Walk I p : keeps I (Walk events p).
Proof. apply keeps_look. intros d a d'. destruct (nodes d !! p); [by intros [= _ ->]|done]. Qed.
Lemma keeps_Fsync I p : (forall d, I d -> I (mkDisk (nodes d) (dirty d ∖ {[p]}))) -> keeps I (Fsync events p).
Proof. intros H. apply keeps_sys. intros d a d' Hd [= _ <-]. split; [by apply H|done]. Qed.
End calls.

(** ** Paths *)

Lemma below_true dir p : below dir p = true <-> dir `prefix_of` p.
Proof. unfold below. by rewrite bool_decide_eq_true. Qed.
Lemma below_refl dir : below dir dir = true.
Proof. by apply below_true. Qed.
Lemma below_app dir r : below dir (dir ++ r) = true.
Proof. by apply below_true, prefix_app_r. Qed.
Lemma below_trans a b c : below a b = true -> below b c = true -> below a c = true.
Proof. rewrite !below_true. by intros; etrans. Qed.
Lemma parent_app dir (name : string) : parent (dir ++ [name]) = dir.
Proof. apply removelast_last. Qed.
Lemma base_app dir (name : string) : base (dir ++ [name]) = name.
Proof. apply last_last. Qed.
Lemma parent_base p : p <> [] -> p = parent p ++ [base p].
Proof. intros H. by apply app_removelast_last. Qed.
Lemma below_parent dir p : below dir p = true -> p = dir \/ below dir (parent p) = true.
Proof.
  intros [r ->]%below_true. destruct r as [|x r _] using rev_ind; [left; by rewrite app_nil_r|]. right. rewrite app_assoc, parent_app. apply below_app.
Qed.
Lemma ancestors_spec rest : forall done q, q ∈ ancestors done rest <-> done `prefix_of` q /\ q <> done /\ q `prefix_of` (done ++ rest).
Proof.
  induction rest as [|e rest IH]; intros done q; cbn [ancestors].
  - rewrite app_nil_r. split; [by intros ?%elem_of_nil|]. intros (H1 & H2 & H3). exfalso. apply H2. by apply (anti_symm prefix).
  - rewrite elem_of_cons, IH. rewrite <- app_assoc. cbn [app]. split.
    + intros [->|(H1 & H2 & H3)].
      * split_and!; [by apply prefix_app_r|intros E%(f_equal length); rewrite length_app in E; cbn in E; lia|]. apply prefix_app, prefix_cons, prefix_nil.
      * split_and!; [etrans; [|exact H1]; by apply prefix_app_r| |done]. intros ->. apply prefix_length in H1. rewrite length_app in H1. cbn in H1. lia.
    + intros ([r ->] & H2 & H3). destruct r as [|x r]; [by rewrite app_nil_r in H2|]. apply prefix_app_inv in H3.
      pose proof (prefix_cons_inv_1 _ _ _ _ H3). subst x. apply prefix_cons_inv_2 in H3.
      destruct r as [|y r]; [by left|right]. change (e :: y :: r) with ([e] ++ y :: r). rewrite (app_assoc done). split_and!.
      * by apply prefix_app_r.
      * intros E%(f_equal length). rewrite !length_app in E. cbn in E. lia.
      * change (e :: rest) with ([e] ++ rest). rewrite (app_assoc done). by apply prefix_app.
Qed.
Lemma missing_spec d p q : q ∈ missing d p <-> q `prefix_of` p /\ q <> [] /\ nodes d !! q = None.
Proof.
  unfold missing. rewrite elem_of_list_filter_b, ancestors_spec. cbn [app]. rewrite negb_true_iff, bool_decide_eq_false, <- eq_None_not_Some.
  pose proof (prefix_nil q). tauto.
Qed.

(** ** A tree that is being made *)

Section stage.
Context (stage : Path) (d0 : Disk) (stage_proper : stage <> []).
(** Only what is below the stage, and the sync of its parent, is not as it
    was. *)
Definition within (d : Disk) : Prop := forall p, below stage p = false ->
  nodes d !! p = nodes d0 !! p /\ (p <> parent stage -> (p ∈ dirty d <-> p ∈ dirty d0)).
Lemma within_set p n d : below stage p = true -> within d -> within (setNode p n d).
Proof.
  intros Hp Hd q Hq. destruct (Hd q Hq) as [H1 H2]. assert (p <> q) by congruence. cbn. rewrite lookup_insert_ne by done. split; [done|]. set_solver.
Qed.
Lemma within_touch p d : below stage p = true \/ p = parent stage -> within d -> within (touch p d).
Proof.
  intros Hp Hd q Hq. destruct (Hd q Hq) as [H1 H2]. cbn. split; [done|]. intros Hn. assert (p <> q) by (intros ->; destruct Hp; congruence). set_solver.
Qed.
Lemma within_touch_parent p d : below stage p = true -> within d -> within (touch (parent p) d).
Proof. intros Hp. apply within_touch. destruct (below_parent _ _ Hp) as [->|]; auto. Qed.
Lemma within_delete p d D : below stage p = true -> (forall q, q <> p -> q ∈ D <-> q ∈ dirty d) -> within d -> within (mkDisk (delete p (nodes d)) D).
Proof.
  intros Hp HD Hd q Hq. destruct (Hd q Hq) as [H1 H2]. assert (p <> q) by congruence. cbn. rewrite lookup_delete_ne by done. split; [done|].
  rewrite HD by done. done.
Qed.
#[local] Hint Resolve within_set within_touch_parent : core.

Context (events : nat -> Event) (umask : Z).
Lemma within_Fsync p : below stage p = true \/ p = parent stage -> keeps within (Fsync events p).
Proof.
  intros Hp. apply keeps_Fsync. intros d Hd q Hq. destruct (Hd q Hq) as [H1 H2]. cbn. split; [done|]. intros Hn.
  assert (p <> q) by (intros ->; destruct Hp; congruence). set_solver.
Qed.
Lemma within_OpenExcl p mode : below stage p = true -> keeps within (OpenExcl events umask p mode).
Proof. intros Hp. apply keeps_sys. intros d a d' Hd. case_decide; [done|]. destruct (isDir _ _); [|done]. intros [= _ <-]. auto. Qed.
Lemma within_Chmod p mode : below stage p = true -> keeps within (Chmod events p mode).
Proof. intros Hp. apply keeps_sys. intros d a d' Hd. destruct (nodes d !! p); [|done]. intros [= _ <-]. auto. Qed.
Lemma within_fill p c d : below stage p = true -> within d -> within (fill p c d).
Proof. intros Hp Hd. unfold fill. destruct (nodes d !! p) as [[]|]; auto. Qed.
Lemma within_Write p c : below stage p = true -> keeps within (Write events p c).
Proof.
  intros Hp. apply keeps_sys. intros d a d' Hd. destruct (nodes d !! p) as [[]|]; [done| |done]. intros [= _ <-]. split; [by apply within_fill|].
  intros n. by apply within_fill.
Qed.
Lemma within_Remove p : below stage p = true -> keeps within (Remove events p).
Proof.
  intros Hp. apply keeps_sys. intros d a d' Hd. destruct (nodes d !! p); [|done]. intros [= _ <-]. split; [|done].
  apply within_touch_parent; [done|]. by apply within_delete.
Qed.
Lemma within_putFile p mode c d : below stage p = true -> within d -> within (putFile p mode c d).
Proof. intros Hp Hd. unfold putFile. destruct (nodes d !! p) as [[]|]; auto. Qed.
Lemma within_WriteFile p mode c : below stage p = true -> keeps within (WriteFile events umask p mode c).
Proof.
  intros Hp. apply keeps_sys. intros d a d' Hd. destruct (nodes d !! p) as [[]|]; [done|..]; [|destruct (isDir _ _); [|done]];
    (intros [= _ <-]; split; [by apply within_putFile|intros n; by apply within_putFile]).
Qed.
Lemma within_mkdirs mode l : Forall (fun q => below stage q = true) l -> forall d, within d -> within (mkdirs mode l d).
Proof. induction 1 as [|q l Hq _ IH]; intros d Hd; cbn; [done|]. apply IH. auto. Qed.
Lemma within_removed l : Forall (fun q => below stage q = true) l -> forall d, within d -> within (removed l d).
Proof.
  induction 1 as [|q l Hq _ IH]; intros d Hd; cbn; [done|]. apply IH, within_touch_parent; [done|]. apply within_delete; [done| |done]. set_solver.
Qed.
(** The stage lies in a directory. *)
Context (on_disk : forall q, q `prefix_of` stage -> q <> [] -> q <> stage -> is_Some (nodes d0 !! q)).
Lemma within_missing p d : below stage p = true -> within d -> Forall (fun q => below stage q = true) (missing d p).
Proof.
  intros Hp Hd. apply Forall_forall. intros q (H1 & H2 & H3)%missing_spec. destruct (below stage q) eqn:E; [done|]. exfalso.
  destruct (Hd q E) as [Hn _]. rewrite Hn in H3. apply below_true in Hp. destruct (prefix_weak_total q stage p) as [Hq|Hq]; [done..| |].
  - destruct (on_disk q) as [x Hx]; [done..| |congruence]. intros ->. by rewrite below_refl in E.
  - apply below_true in Hq. congruence.
Qed.
Lemma within_MkdirAll p mode : below stage p = true -> keeps within (MkdirAll events umask p mode).
Proof.
  intros Hp. apply keeps_sys. intros d a d' Hd. destruct (forallb _ _); [|done]. intros [= _ <-]. pose proof (within_missing p d Hp Hd) as Hm. split.
  - by apply within_mkdirs.
  - intros n. apply within_mkdirs; [|done]. by apply Forall_take.
Qed.
Lemma tree_below d : Forall (fun q => below stage q = true) (deepestFirst (tree stage d).*1).
Proof.
  apply Forall_forall. intros q Hq. unfold deepestFirst in Hq. rewrite merge_sort_Permutation in Hq. apply list_elem_of_fmap in Hq as (x & -> & Hx).
  unfold tree in Hx. by apply elem_of_list_filter_b in Hx as [_ Hx].
Qed.
Lemma within_RemoveAll : keeps within (RemoveAll events stage).
Proof.
  apply keeps_sys. intros d a d' Hd [= _ <-]. split; [by apply within_removed; [apply tree_below|]|]. intros n.
  apply within_removed; [|done]. apply Forall_take, tree_below.
Qed.
Lemma within_CopyNew p src mode : below stage p = true -> keeps within (CopyNew events umask p src mode).
Proof.
  intros Hp. unfold CopyNew. repeat first [apply keeps_bind; [|intros []]|apply keeps_onFailure|apply keeps_ignore|apply keeps_step
    |apply within_OpenExcl|apply within_Chmod|apply within_Write|apply within_Fsync; left|apply within_Remove|done].
Qed.
Lemma within_syncDir p : below stage p = true \/ p = parent stage -> keeps within (syncDirWithHook events p).
Proof.
  intros Hp. unfold syncDirWithHook. repeat first [apply keeps_bind; [|intros []]|apply keeps_step|apply keeps_Open|by apply within_Fsync].
Qed.
Lemma within_RemoveTree : keeps within (RemoveTree events stage).
Proof.
  apply keeps_bind; [apply keeps_step|intros []]. apply keeps_bind; [apply within_RemoveAll|intros []]. apply within_syncDir; auto.
Qed.
Lemma tree_elem d root p n : (p, n) ∈ tree root d <-> nodes d !! p = Some n /\ below root p = true.
Proof. unfold tree. rewrite elem_of_list_filter_b, elem_of_map_to_list. done. Qed.
Lemma keeps_bind_look {A B} I (full : Disk -> result errno (A * Disk)) (f : A -> M B) :
  (forall d a d', full d = Ok (a, d') -> d' = d) -> (forall d a, I d -> full d = Ok (a, d) -> keeps I (f a)) -> keeps I (bind (sys events full untouched) f).
Proof.
  intros Hl Hf w Hw. unfold bind, sys. destruct (full (disk w)) as [[a d]|e] eqn:E; [|by destruct (events _)].
  destruct (events _); [|done..]. pose proof (Hl _ _ _ E) as ->. by apply (Hf (disk w)).
Qed.
Lemma within_SyncTree : keeps within (SyncTree events stage).
Proof.
  unfold SyncTree, Walk. apply keeps_bind_look; [intros d a d'; destruct (nodes d !! stage); [by intros [= _ ->]|done]|].
  intros d l _ Hl. assert (Hb : forall x, x ∈ l -> below stage x.1 = true).
  { destruct (nodes d !! stage); [|done]. injection Hl as <-. intros [q m] Hq%tree_elem. by destruct Hq. }
  apply keeps_bind; [|intros []]; apply keeps_forM.
  - intros x [Hx _]%elem_of_list_filter_b. repeat first [apply keeps_bind; [|intros []]|apply keeps_step|apply keeps_Open|apply within_Fsync; left; by apply Hb].
  - intros p Hp. unfold deepestFirst in Hp. rewrite merge_sort_Permutation in Hp. apply list_elem_of_fmap in Hp as (x & -> & [Hx _]%elem_of_list_filter_b).
    unfold SyncDir. repeat first [apply keeps_bind; [|intros []]|apply keeps_step|apply keeps_Open|apply within_Fsync; left; by apply Hb].
Qed.
End stage.

(** ** What a routine that is done leaves *)

Section done.
Context (events : nat -> Event) (umask : Z).
Lemma yields_Fsync (p : Path) (P : gmap Path Node -> Prop) : yields (fun d => P (nodes d)) (Fsync events p) (fun _ d => P (nodes d)).
Proof. apply yields_sys. by intros d a d' H [= _ <-]. Qed.
Lemma CopyNew_done (p : Path) (src : Content) (mode : Z) (N : gmap (list string) Node) : yields (fun d => nodes d = N) (CopyNew events umask p src mode)
  (fun _ d => N !! p = None /\ p <> [] /\ nodes d = <[p := FileNode mode src]> N).
Proof.
  unfold CopyNew. eapply yields_bind; [apply yields_step|intros []].
  eapply (yields_bind _ (fun _ d => N !! p = None /\ p <> [] /\ exists m c, nodes d = <[p := FileNode m c]> N)).
  { apply yields_sys. intros d a d' <-. case_decide as Hp; [done|]. destruct (isDir _ _); [|done]. intros [= _ <-].
    split_and!; [by apply eq_None_not_Some; intros ?; apply Hp; left|intros ->; apply Hp; by right|]. exists (perm umask mode), (Text ""). done. }
  intros []. apply yields_onFailure. eapply yields_bind; [apply yields_step|intros []].
  eapply (yields_bind _ (fun _ d => N !! p = None /\ p <> [] /\ exists c, nodes d = <[p := FileNode mode c]> N)).
  { apply yields_sys. intros d a d' (H1 & H2 & m & c & E). rewrite E, lookup_insert_eq. intros [= _ <-]. split_and!; [done..|]. exists c. cbn.
    by rewrite E, insert_insert_eq. }
  intros []. eapply yields_bind; [apply yields_step|intros []].
  eapply (yields_bind _ (fun _ d => N !! p = None /\ p <> [] /\ nodes d = <[p := FileNode mode src]> N)).
  { apply yields_sys. intros d a d' (H1 & H2 & c & E). rewrite E, lookup_insert_eq. intros [= _ <-]. unfold fill. rewrite E, lookup_insert_eq. cbn.
    by rewrite E, insert_insert_eq. }
  intros []. eapply yields_bind; [apply yields_step|intros []]. eapply yields_bind; [apply (yields_Fsync p (fun N' => N !! p = None /\ p <> [] /\ N' = <[p := FileNode mode src]> N))|intros []].
  eapply yields_bind; [apply yields_step|intros []; apply yields_step].
Qed.
Lemma WriteFile_done (p : Path) (mode : Z) (c : Content) (N : gmap (list string) Node) : yields (fun d => nodes d = N) (WriteFile events umask p mode c)
  (fun _ d => (forall m, N !! p <> Some (DirNode m)) /\ exists m, nodes d = <[p := FileNode m c]> N).
Proof.
  apply yields_sys. intros d a d' <-. destruct (nodes d !! p) as [[]|] eqn:E; [done|..]; [|destruct (isDir _ _); [|done]]; intros [= _ <-];
    (split; [done|]); unfold putFile; rewrite E; by eexists.
Qed.
Lemma mkdirs_keep (mode : Z) (l : list Path) : forall d, (forall q, q ∈ l -> nodes d !! q = None) -> forall q,
  nodes (mkdirs mode l d) !! q = if decide (q ∈ l) then Some (DirNode mode) else nodes d !! q.
Proof.
  induction l as [|x l IH] using rev_ind; intros d Hl q; [done|]. unfold mkdirs in *. rewrite foldl_app. cbn [foldl nodes setNode touch].
  destruct (decide (q = x)) as [->|Hne].
  - rewrite lookup_insert_eq, decide_True; [done|]. apply elem_of_app. right. left.
  - rewrite lookup_insert_ne by done. rewrite IH by (intros y Hy; apply Hl, elem_of_app; by left).
    apply decide_ext. rewrite elem_of_app, list_elem_of_singleton. tauto.
Qed.
(** The directories that were there stay as they are. *)
Definition grown (N N' : gmap (list string) Node) : Prop := forall q, N' !! q = N !! q \/ N !! q = None /\ exists m, N' !! q = Some (DirNode m).
Lemma MkdirAll_done (p : Path) (mode : Z) (N : gmap (list string) Node) : yields (fun d => nodes d = N) (MkdirAll events umask p mode) (fun _ d => grown N (nodes d)).
Proof.
  apply yields_sys. intros d a d' <-. destruct (forallb _ _); [|done]. intros [= _ <-] q. rewrite mkdirs_keep.
  - case_decide as H; [|by left]. right. apply missing_spec in H as (_ & _ & H). by split; [|eexists].
  - by intros x (_ & _ & H)%missing_spec.
Qed.
Lemma Lstat_done (p : Path) (N : gmap (list string) Node) : yields (fun d => nodes d = N) (Lstat events p) (fun r d => nodes d = N /\ (p <> [] -> r = N !! p)).
Proof. apply yields_sys. intros d a d' <- [= <- <-]. split; [done|]. intros Hp. by rewrite decide_False. Qed.

Definition synced (root : Path) (d : Disk) : Prop := forall p, below root p = true -> is_Some (nodes d !! p) -> p ∉ dirty d.
Lemma Fsync_clean (p : Path) (N : gmap (list string) Node) (X : gset Path) : yields (fun d => nodes d = N /\ dirty d ⊆ X) (Fsync events p) (fun _ d => nodes d = N /\ dirty d ⊆ X ∖ {[p]}).
Proof. apply yields_sys. intros d a d' [H1 H2] [= _ <-]. cbn. set_solver. Qed.
Lemma forM_clean {A} (f : A -> M unit) (key : A -> Path) (N : gmap (list string) Node) : (forall x (X : gset (list string)), yields (fun d => nodes d = N /\ dirty d ⊆ X) (f x) (fun _ d => nodes d = N /\ dirty d ⊆ X ∖ {[key x]})) ->
  forall l X, yields (fun d => nodes d = N /\ dirty d ⊆ X) (forM l f) (fun _ d => nodes d = N /\ forall q, q ∈ dirty d -> q ∈ X /\ q ∉ map key l).
Proof.
  intros Hf. induction l as [|x l IH]; intros X; cbn [forM map].
  - apply yields_ret. intros d [H1 H2]. split; [done|]. intros q Hq. split; [by apply H2|apply not_elem_of_nil].
  - eapply yields_bind; [apply Hf|intros []]. eapply yields_weaken; [| |apply (IH (X ∖ {[key x]}))]; [done|]. intros [] d [H1 H2]. split; [done|]. intros q Hq.
    apply H2 in Hq as [Hq Hl]. apply elem_of_difference in Hq as [Hq Hx]. rewrite not_elem_of_singleton in Hx. split; [done|]. by apply not_elem_of_cons.
Qed.
Lemma sync_file_done (p : Path) (N : gmap (list string) Node) (X : gset (list string)) : yields (fun d => nodes d = N /\ dirty d ⊆ X)
  (step events ;;! Open events p ;;! Fsync events p ;;! step events) (fun _ d => nodes d = N /\ dirty d ⊆ X ∖ {[p]}).
Proof.
  eapply yields_bind; [apply yields_step|intros []]. eapply yields_bind; [apply yields_Open|intros []].
  eapply yields_bind; [apply Fsync_clean|intros []]. apply yields_step.
Qed.
Lemma SyncTree_done (root : Path) (N : gmap (list string) Node) : yields (fun d => nodes d = N) (SyncTree events root) (fun _ d => nodes d = N /\ synced root d).
Proof.
  unfold SyncTree. eapply (yields_bind _ (fun l d => nodes d = N /\ forall p n, (p, n) ∈ l <-> N !! p = Some n /\ below root p = true)).
  { apply yields_sys. intros d a d' <-. destruct (nodes d !! root); [|done]. intros [= <- <-]. split; [done|]. apply tree_elem. }
  intros l w a w' [HN Hl] E. revert E. set (X := dirty (disk w)).
  apply (yields_bind (fun d => nodes d = N /\ dirty d ⊆ X) (fun _ d => nodes d = N /\ forall q, q ∈ dirty d -> q ∈ X /\ q ∉ map fst (List.filter (fun x => negb (isDirNode x.2)) l)))
    with (Q := fun _ d => nodes d = N /\ synced root d); [| |done].
  { apply (forM_clean _ fst). intros x Y. apply sync_file_done. }
  intros [] w1 a1 w2 [H1 H2] E2. apply (forM_clean _ id N) with (X := dirty (disk w1)) in E2 as [H3 H4]; [| |done].
  - split; [exact H3|]. intros p Hp [n Hn] Hd. apply H4 in Hd as [Hd Hl2]. apply H2 in Hd as [_ Hl1]. rewrite H3 in Hn.
    assert (Hin : (p, n) ∈ l) by (by apply Hl). unfold deepestFirst in Hl2. rewrite map_id, merge_sort_Permutation in Hl2. destruct (isDirNode n) eqn:En.
    + apply Hl2, list_elem_of_fmap. exists (p, n). split; [done|]. apply elem_of_list_filter_b. done.
    + apply Hl1, list_elem_of_fmap. exists (p, n). split; [done|]. apply elem_of_list_filter_b. cbn. by rewrite En.
  - intros x Y. apply sync_file_done.
Qed.
Lemma removed_lookup (l : list Path) : forall d q, nodes (removed l d) !! q = if decide (q ∈ l) then None else nodes d !! q.
Proof.
  induction l as [|x l IH]; intros d q; [done|]. change (removed (x :: l) d) with (removed l (touch (parent x) (mkDisk (delete x (nodes d)) (dirty d ∖ {[x]})))).
  rewrite IH. cbn. destruct (decide (q = x)) as [->|Hne].
  - rewrite (decide_True (P := x ∈ x :: l)) by left. rewrite lookup_delete_eq. by case_decide.
  - rewrite lookup_delete_ne by done. apply decide_ext. rewrite elem_of_cons. tauto.
Qed.
Lemma RemoveTree_done (stage : Path) : yields (fun _ => True) (RemoveTree events stage) (fun _ d => forall q, below stage q = true -> nodes d !! q = None).
Proof.
  unfold RemoveTree. eapply yields_bind; [apply yields_step|intros []].
  eapply (yields_bind _ (fun _ d => forall q, below stage q = true -> nodes d !! q = None)).
  - apply yields_sys. intros d a d' _ [= _ <-] q Hq. rewrite removed_lookup. case_decide as Hn; [done|]. destruct (nodes d !! q) as [n|] eqn:E; [|done].
    exfalso. apply Hn. unfold deepestFirst. rewrite merge_sort_Permutation. apply list_elem_of_fmap. exists (q, n). split; [done|].
    unfold tree. by rewrite elem_of_list_filter_b, elem_of_map_to_list.
  - intros []. unfold syncDirWithHook. eapply yields_bind; [apply yields_step|intros []]. eapply yields_bind; [apply yields_Open|intros []].
    eapply yields_bind; [apply yields_step|intros []].
    eapply yields_bind; [apply (yields_Fsync (parent stage) (fun N => forall q, below stage q = true -> N !! q = None))|intros []].
    eapply yields_bind; [apply yields_step|intros []]. apply yields_step.
Qed.
End done.

(** ** A tree that moves *)

Lemma strip_spec dir : forall p r, strip dir p = Some r <-> p = dir ++ r.
Proof.
  induction dir as [|a dir IH]; intros p r; cbn; [split; [by intros [= ->]|by intros ->]|]. destruct p as [|b p]; [done|].
  destruct (String.eqb_spec a b) as [->|Hne]; [rewrite IH; split; [by intros ->|by intros [= ->]]|]. split; [done|]. intros [= -> _]. done.
Qed.
Lemma strip_None dir p : strip dir p = None <-> below dir p = false.
Proof.
  rewrite <- not_true_iff_false, below_true. split.
  - intros E [r ->]. by rewrite (proj2 (strip_spec dir (dir ++ r) r) eq_refl) in E.
  - intros H. destruct (strip dir p) as [r|] eqn:E; [|done]. apply strip_spec in E as ->. exfalso. apply H. by apply prefix_app_r.
Qed.
Lemma subtree_lookup (dir : Path) (m : gmap (list string) Node) (r : Path) : subtree dir m !! r = m !! (dir ++ r).
Proof.
  unfold subtree. apply option_eq. intros n. rewrite <- elem_of_list_to_map.
  - rewrite list_elem_of_omap. setoid_rewrite elem_of_map_to_list'. split.
    + intros ([p n'] & Hp & Hr). cbn in *. destruct (strip dir p) as [r'|] eqn:E; [|done]. apply strip_spec in E as ->. by injection Hr as -> ->.
    + intros Hr. exists (dir ++ r, n). split; [done|]. cbn. by rewrite (proj2 (strip_spec dir (dir ++ r) r) eq_refl).
  - pose proof (NoDup_fst_map_to_list m) as Hnd. induction (map_to_list m) as [|[p n'] l IH]; [constructor|]. cbn in Hnd. apply NoDup_cons in Hnd as [Hp Hnd].
    cbn [omap list_omap]. cbn [fst]. destruct (strip dir p) as [r'|] eqn:E; cbn; [|by apply IH]. constructor; [|by apply IH].
    intros Hin. apply Hp. apply strip_spec in E as ->. apply list_elem_of_fmap in Hin as ([r2 n2] & -> & Hin). apply list_elem_of_omap in Hin as ([p3 n3] & Hin & Hr).
    cbn in Hr. destruct (strip dir p3) as [r3|] eqn:E3; [|done]. injection Hr as <- <-. apply strip_spec in E3 as ->. apply list_elem_of_fmap. by eexists (_, _).
Qed.
Section moved.
Context (old new : Path) (d : Disk) (free : forall q, below new q = true -> nodes d !! q = None).
Lemma moved_in r : nodes (moved old new d) !! (new ++ r) = nodes d !! (old ++ r).
Proof.
  cbn. destruct (nodes d !! (old ++ r)) as [n|] eqn:E.
  - apply lookup_union_Some_l. rewrite lookup_kmap by apply _. by rewrite subtree_lookup.
  - apply lookup_union_None. rewrite lookup_kmap by apply _. rewrite subtree_lookup. split; [done|]. apply map_lookup_filter_None. left. apply free, below_app.
Qed.
Lemma moved_out q : below new q = false -> below old q = false -> nodes (moved old new d) !! q = nodes d !! q.
Proof.
  intros Hn Ho. cbn. rewrite lookup_union_r.
  - destruct (nodes d !! q) as [n|] eqn:E; [apply map_lookup_filter_Some; by split|apply map_lookup_filter_None; by left].
  - apply lookup_kmap_None; [apply _|]. intros r ->. by rewrite below_app in Hn.
Qed.
Lemma moved_gone q : below new q = false -> below old q = true -> nodes (moved old new d) !! q = None.
Proof.
  intros Hn Ho. cbn. apply lookup_union_None. split.
  - apply lookup_kmap_None; [apply _|]. intros r ->. by rewrite below_app in Hn.
  - apply map_lookup_filter_None. right. intros n _ H. cbn in H. congruence.
Qed.
Lemma moved_dirty_out q : below new q = false -> below old q = false -> q ∈ dirty (moved old new d) <-> q ∈ dirty d.
Proof.
  intros Hn Ho. cbn. rewrite elem_of_map. unfold move. split.
  - intros (p & -> & Hp). destruct (strip old p) as [r|] eqn:E; [by rewrite below_app in Hn|done].
  - intros Hq. exists q. apply strip_None in Ho. by rewrite Ho.
Qed.
Lemma moved_synced : (forall q, below new q = true -> q ∉ dirty d) -> synced old d -> synced new (moved old new d).
Proof.
  intros Hc Hs q Hq [n Hn]. apply below_true in Hq as [r ->]. rewrite moved_in in Hn. cbn. rewrite elem_of_map. intros (p & E & Hp).
  unfold move in E. destruct (strip old p) as [r'|] eqn:Es.
  - apply strip_spec in Es as ->. apply app_inv_head in E as ->. apply (Hs (old ++ r')); [apply below_app|by eexists|done].
  - subst p. apply (Hc (new ++ r)); [apply below_app|done].
Qed.
End moved.

Section commit.
Context (events : nat -> Event).
Lemma sys_cases {A} (full : Disk -> result errno (A * Disk)) w : exists r w', sys events full untouched w = (r, w')
  /\ (disk w' = disk w /\ match r with Done _ => False | Failed e => Installed e = false | Dead => True end
      \/ exists a d, full (disk w) = Ok (a, d) /\ disk w' = d /\ r = Done a).
Proof.
  unfold sys. destruct (full (disk w)) as [[a d]|e]; [|destruct (events _); do 2 eexists; (split; [done|by left])].
  destruct (events _); do 2 eexists; (split; [done|]); [right|by left..]. by do 2 eexists.
Qed.
Lemma bind_cases {A B} (m : M A) (f : A -> M B) w : bind m f w = match m w with (Done a, w) => f a w | (Failed e, w) => (Failed e, w) | (Dead, w) => (Dead, w) end.
Proof. done. Qed.
(** The parent is synced when the rename is reported. *)
Lemma syncDir_synced (p : Path) (N : gmap (list string) Node) (X : gset (list string)) : yields (fun d => nodes d = N /\ dirty d ⊆ X) (syncDirWithHook events p) (fun _ d => p ∉ dirty d).
Proof.
  unfold syncDirWithHook. eapply yields_bind; [apply yields_step|intros []]. eapply yields_bind; [apply yields_Open|intros []].
  eapply yields_bind; [apply yields_step|intros []]. eapply yields_bind; [apply Fsync_clean|intros []].
  eapply yields_bind; [apply yields_step|intros []]. eapply yields_weaken; [intros d Hd; exact Hd| |apply yields_step]. intros [] d [_ H]. set_solver.
Qed.
Definition same_but (p : Path) (d1 d : Disk) : Prop := nodes d = nodes d1 /\ forall q, q <> p -> q ∈ dirty d <-> q ∈ dirty d1.
Lemma same_but_syncDir p d1 : keeps (same_but p d1) (step events ;;! syncDirWithHook events p).
Proof.
  unfold syncDirWithHook. repeat first [apply keeps_bind; [|intros []]|apply keeps_step|apply keeps_Open]. apply keeps_Fsync. intros d [H1 H2].
  split; [done|]. intros q Hq. cbn. rewrite <- H2 by done. set_solver.
Qed.
Lemma CommitDir_cases stage dest w : parent stage = parent dest -> exists r w', CommitDir events stage dest w = (r, w')
  /\ (disk w' = disk w /\ match r with Done _ => False | Failed e => Installed e = false | Dead => True end
      \/ nodes (disk w) !! dest = None /\ dest <> [] /\ is_Some (nodes (disk w) !! stage) /\ same_but (parent dest) (moved stage dest (disk w)) (disk w')
         /\ match r with Done _ => parent dest ∉ dirty (disk w') | Failed e => Installed e = true | Dead => True end).
Proof.
  intros Hp. unfold CommitDir. rewrite bool_decide_eq_true_2 by done. cbn [negb]. rewrite bind_cases.
  destruct (sys_cases (fun d => Ok (tt, d)) w) as (r & w1 & E & H). unfold step at 1. rewrite E. destruct H as [[H1 H2]|(a & d & [= <- <-] & H1 & ->)].
  { destruct r; [done|..]; do 2 eexists; (split; [done|by left]). }
  rewrite <- H1. clear E H1 w. rewrite bind_cases. unfold renameNoReplace.
  match goal with |- context [sys events ?full untouched w1] => destruct (sys_cases full w1) as (r & w2 & -> & H) end.
  destruct H as [[H1 H2]|(a & d & Hd & H1 & ->)].
  { destruct r; [done|..]; do 2 eexists; (split; [done|by left]). }
  case_decide as Hex; [done|]. destruct (negb _ || _) eqn:Hs; [done|]. destruct (isDir _ _); [|done]. injection Hd as <- <-.
  apply orb_false_iff in Hs as [Hs _]. apply negb_false_iff, bool_decide_eq_true in Hs.
  assert (Hfree : nodes (disk w1) !! dest = None /\ dest <> []).
  { split; [by apply eq_None_not_Some; intros ?; apply Hex; left|intros ->; apply Hex; by right]. }
  assert (Hsame : same_but (parent dest) (moved stage dest (disk w1)) (disk w2)).
  { rewrite H1. split; [done|]. intros q Hq. cbn. rewrite Hp. set_solver. }
  unfold commitError. pose proof (same_but_syncDir (parent dest) (moved stage dest (disk w1)) w2 Hsame) as Hk.
  pose proof (syncDir_synced (parent dest) (nodes (disk w2)) (dirty (disk w2))) as Hy.
  destruct ((step events ;;! syncDirWithHook events (parent dest)) w2) as [[[]|e|] w3] eqn:E; cbn in Hk; do 2 eexists; (split; [done|right; split_and!; try apply Hfree; try done]).
  rewrite bind_cases in E. destruct (sys_cases (fun d => Ok (tt, d)) w2) as (r & w4 & E4 & H). unfold step at 1 in E. rewrite E4 in E.
  destruct H as [[_ H]|(a & d & [= <- <-] & H4 & ->)]; [by destruct r|]. eapply (Hy w4); [|exact E]. by rewrite H4.
Qed.
End commit.

(** ** Replacing a file *)

(** All that a program leaves: when it is done, when it fails with an error,
    and when the process ends. *)
Definition leaves {A} (P : Disk -> Prop) (m : M A) (Q : A -> Disk -> Prop) (X : option error -> Disk -> Prop) : Prop :=
  forall w, P (disk w) -> match m w with (Done a, w') => Q a (disk w') | (Failed e, w') => X (Some e) (disk w') | (Dead, w') => X None (disk w') end.
(** Errors of calls: nothing was installed. *)
Definition plainly {A} (m : M A) : Prop := forall w, match m w with (Failed e, _) => Installed e = false | _ => True end.
Definition aborted (Z : Disk -> Prop) (o : option error) (d : Disk) : Prop := match o with Some e => Installed e = false | None => True end /\ Z d.
Lemma leaves_bind {A B} P R Q X (m : M A) (f : A -> M B) : leaves P m R X -> (forall a, leaves (R a) (f a) Q X) -> leaves P (bind m f) Q X.
Proof. intros Hm Hf w Hw. specialize (Hm w Hw). unfold bind. destruct (m w) as [[a|e|] w']; [by apply Hf|done..]. Qed.
Lemma leaves_of {A} I P Q (m : M A) : plainly m -> keeps I m -> yields P m Q -> leaves (fun d => I d /\ P d) m (fun a d => I d /\ Q a d) (aborted I).
Proof.
  intros Hp Hk Hy w [HI HP]. specialize (Hk w HI). specialize (Hy w). specialize (Hp w). destruct (m w) as [[a|e|] w']; [|done..]. split; [done|].
  by apply (Hy a w').
Qed.
Lemma leaves_onFailure {A} P Q Z (m : M A) cleanup : leaves P m Q (aborted Z) -> keeps Z cleanup -> leaves P (onFailure m cleanup) Q (aborted Z).
Proof.
  intros Hm Hc w Hw. specialize (Hm w Hw). unfold onFailure. destruct (m w) as [[a|e|] w']; [done| |done]. destruct Hm as [He HZ].
  specialize (Hc w' HZ). by destruct (cleanup w') as [[]].
Qed.
Lemma leaves_weaken {A} (P P' : Disk -> Prop) Q Q' X X' (m : M A) : leaves P m Q X -> (forall d, P' d -> P d) -> (forall a d, Q a d -> Q' a d) ->
  (forall o d, X o d -> X' o d) -> leaves P' m Q' X'.
Proof. intros Hm HP HQ HX w Hw. specialize (Hm w (HP _ Hw)). destruct (m w) as [[a|e|] w']; auto. Qed.
Lemma plainly_bind {A B} (m : M A) (f : A -> M B) : plainly m -> (forall a, plainly (f a)) -> plainly (bind m f).
Proof. intros Hm Hf w. specialize (Hm w). unfold bind. destruct (m w) as [[a|e|] w']; [apply Hf|done..]. Qed.
Lemma plainly_sys {A} events (full : Disk -> result errno (A * Disk)) part : plainly (sys events full part).
Proof. intros w. unfold sys. destruct (full (disk w)) as [[]|]; by destruct (events _). Qed.
Lemma plainly_onFailure {A} (m : M A) cleanup : plainly m -> plainly (onFailure m cleanup).
Proof. intros Hm w. specialize (Hm w). unfold onFailure. destruct (m w) as [[a|e|] w']; [done| |done]. by destruct (cleanup w') as [[]]. Qed.

Section replace.
Context (events : nat -> Event) (umask : Z) (path : Path) (data : Content) (mode : Z) (d0 : Disk) (path_proper : path <> []).
Definition tempName (q : Path) : Prop := parent q = parent path /\ exists x, base q = "." +:+ base path +:+ ".tmp-" +:+ x.
Definition replaced (d : Disk) : Prop := nodes d !! path = Some (FileNode mode data) /\ path ∉ dirty d.
Definition unreplaced (d : Disk) : Prop := nodes d !! path = nodes d0 !! path /\ (path ∈ dirty d <-> path ∈ dirty d0).
Definition beside (d : Disk) : Prop := forall q, q <> path -> (forall t, tempName t -> below t q = false) -> nodes d !! q = nodes d0 !! q.
Lemma parent_ne q : q <> [] -> q <> parent q.
Proof. intros Hq E. apply (f_equal length) in E. pose proof (f_equal length (parent_base q Hq)) as E'. rewrite length_app in E'. cbn in E'. lia. Qed.

Section temp.
Context (t : Path) (temp : tempName t) (t_proper : t <> []).
Lemma temp_ne : t <> path.
Proof. intros ->. destruct temp as (_ & x & E). apply (f_equal String.length) in E. rewrite !slen_app in E. cbn in E. lia. Qed.
Lemma temp_aside q : length q = length path -> q <> t -> below t q = false.
Proof.
  intros Hl Hq. apply not_true_iff_false. intros [r ->]%below_true. destruct temp as [Hp _]. apply Hq.
  assert (Hlt : length t = length path).
  { rewrite (parent_base t t_proper), (parent_base path path_proper), Hp, !length_app. done. }
  rewrite length_app in Hl. assert (r = []) as -> by (apply nil_length_inv; lia). by rewrite app_nil_r.
Qed.
Lemma within_unreplaced d : within t d0 d -> unreplaced d.
Proof.
  intros H. destruct (H path) as [H1 H2]; [by apply temp_aside; [|intros E; apply temp_ne]|]. split; [done|]. apply H2.
  rewrite (proj1 temp). by apply parent_ne.
Qed.
Lemma within_beside d : within t d0 d -> beside d.
Proof. intros H q _ Hq. by apply H, Hq. Qed.
(** What is in the temporary file before the rename. *)
Definition written (d : Disk) : Prop := nodes d !! t = Some (FileNode mode data) /\ t ∉ dirty d.
Lemma yields_file_step (P : Node -> Prop) : yields (fun d => exists n, nodes d !! t = Some n /\ P n) (step events) (fun _ d => exists n, nodes d !! t = Some n /\ P n).
Proof. apply yields_step. Qed.
Lemma fill_temp : yields (fun d => exists m c, nodes d !! t = Some (FileNode m c))
  (step events ;;! Chmod events t mode ;;! step events ;;! Write events t data ;;! step events ;;! Fsync events t ;;! step events ;;! step events ;;! step events)
  (fun _ => written).
Proof.
  eapply yields_bind; [apply yields_step|intros []]. eapply (yields_bind _ (fun _ d => exists c, nodes d !! t = Some (FileNode mode c))).
  { apply yields_sys. intros d a d' (m & c & E). rewrite E. intros [= _ <-]. exists c. apply lookup_insert_eq. }
  intros []. eapply yields_bind; [apply yields_step|intros []]. eapply (yields_bind _ (fun _ d => nodes d !! t = Some (FileNode mode data))).
  { apply yields_sys. intros d a d' (c & E). rewrite E. intros [= _ <-]. unfold fill. rewrite E. apply lookup_insert_eq. }
  intros []. eapply yields_bind; [apply yields_step|intros []]. eapply (yields_bind _ (fun _ => written)).
  { apply yields_sys. intros d a d' E [= _ <-]. split; [done|]. cbn. set_solver. }
  intros []. eapply yields_bind; [apply yields_step|intros []]. eapply yields_bind; [apply yields_step|intros []]. apply yields_step.
Qed.
Lemma fill_within : keeps (within t d0)
  (step events ;;! Chmod events t mode ;;! step events ;;! Write events t data ;;! step events ;;! Fsync events t ;;! step events ;;! step events ;;! step events).
Proof.
  repeat first [apply keeps_bind; [|intros []]|apply keeps_step|apply within_Chmod|apply within_Write|apply within_Fsync; [done|left]]; auto using below_refl.
Qed.
Lemma fill_plainly : plainly
  (step events ;;! Chmod events t mode ;;! step events ;;! Write events t data ;;! step events ;;! Fsync events t ;;! step events ;;! step events ;;! step events).
Proof. repeat first [apply plainly_bind; [|intros []]|apply plainly_sys]. Qed.
Lemma Rename_leaves : leaves (fun d => within t d0 d /\ written d) (Rename events t path) (fun _ d => replaced d /\ beside d) (aborted (within t d0)).
Proof.
  intros w [Hw [Hn Hd]]. unfold Rename. match goal with |- context [sys events ?full untouched w] => destruct (sys_cases events full w) as (r & w' & -> & H) end.
  destruct H as [[-> H]|(a & d & Hf & -> & ->)]; [destruct r; [done|..]; by split|].
  rewrite Hn in Hf. destruct (nodes (disk w) !! path) as [[]|]; [done|..]; (destruct (isDir _ _); [|done]); injection Hf as <- <-;
    (split; [split; cbn; [apply lookup_insert_eq|rewrite decide_False by done]|]).
  1, 3: pose proof (parent_ne path path_proper); rewrite (proj1 temp); set_solver.
  all: intros q Hq Hb; cbn; rewrite lookup_insert_ne, lookup_delete_ne by (first [done|intros ->; specialize (Hb q temp); by rewrite below_refl in Hb]);
    by apply (within_beside _ Hw).
Qed.
End temp.
(** Whatever becomes of it, the file has its old contents or, synced, the new
    ones, as the outcome says, and nothing else but a temporary file changes. *)
Lemma ReplaceWithHook_leaves suffixes : leaves (fun d => d = d0) (ReplaceWithHook events umask path data mode suffixes)
  (fun _ d => replaced d /\ beside d /\ parent path ∉ dirty d)
  (fun o d => beside d /\ match o with Some e => if Installed e then replaced d else unreplaced d | None => replaced d \/ unreplaced d end).
Proof.
  set (X := fun (o : option error) d => _).
  assert (Hab : forall t, tempName t -> t <> [] -> forall o d, aborted (within t d0) o d -> X o d).
  { intros t Ht Hne o d [He Hw]. split; [by apply (within_beside t)|]. pose proof (within_unreplaced t Ht Hne d Hw).
    destruct o as [e|]; [by rewrite He|by right]. }
  assert (H0 : forall (r : option error), match r with Some e => Installed e = false | None => True end -> X r d0).
  { intros r Hr. split; [by intros q|]. destruct r as [e|]; [by rewrite Hr|by right]. }
  unfold ReplaceWithHook. apply (leaves_bind _ (fun _ d => d = d0)).
  { intros w Hw. destruct (sys_cases events (fun d => Ok (tt, d)) w) as (r & w' & E & H). unfold step. rewrite E.
    destruct H as [[H1 H2]|(a & d & [= <- <-] & H1 & ->)]; [|congruence]. rewrite H1, Hw. destruct r; [done| |]; by apply H0. }
  intros []. apply (leaves_bind _ (fun t d => tempName t /\ t <> [] /\ within t d0 d /\ exists m c, nodes d !! t = Some (FileNode m c))).
  { intros w Hw. unfold CreateTemp. match goal with |- context [sys events ?full untouched w] => destruct (sys_cases events full w) as (r & w' & -> & H) end.
    destruct H as [[H1 H2]|(t & d & Hf & -> & ->)]; [rewrite H1, Hw; destruct r; [done| |]; by apply H0|]. rewrite Hw in Hf.
    destruct (freshName _ _ _) as [name|] eqn:En; [|done]. destruct (isDir _ _); [|done]. injection Hf as <- <-.
    unfold freshName in En. apply head_Some_elem_of, elem_of_list_filter_b in En as [En _]. apply list_elem_of_fmap in En as (x & -> & _).
    assert (Ht : tempName (parent path ++ ["." +:+ base path +:+ ".tmp-" +:+ x])) by (split; [apply parent_app|exists x; apply base_app]).
    split; [done|]. assert (Hne : parent path ++ ["." +:+ base path +:+ ".tmp-" +:+ x] <> []) by by destruct (parent path).
    split; [done|]. split; [|do 2 eexists; cbn; apply lookup_insert_eq]. apply within_touch; [done|right; by rewrite parent_app|].
    apply within_set; [done|apply below_refl|]. by intros q. }
  intros t. apply (leaves_bind _ (fun _ d => replaced d /\ beside d)).
  - intros w (Ht & Hne & Hw & Hf).
    pose proof (leaves_onFailure _ _ (within t d0) _ (ignore (step events) ;;! Remove events t)
      (leaves_bind _ _ _ _ _ (fun _ => Rename events t path) (leaves_of _ _ _ _ (fill_plainly t) (fill_within t Hne) (fill_temp t Ht Hne)) (fun _ => Rename_leaves t Ht Hne)))
      as HL. assert (Hk : keeps (within t d0) (ignore (step events) ;;! Remove events t)).
    { apply keeps_bind; [apply keeps_ignore, keeps_step|intros []]. by apply within_Remove, below_refl. }
    specialize (HL Hk w (conj Hw Hf)). destruct (onFailure _ _ w) as [[a|e|] w']; [done|..]; by apply (Hab t).
  - intros [] w [Hr Hb]. unfold commitError.
    assert (Hst : forall d, same_but (parent path) (disk w) d -> replaced d /\ beside d).
    { intros d [S1 S2]. pose proof (parent_ne path path_proper). unfold replaced, beside. rewrite S1, S2 by done. done. }
    assert (Hk : keeps (same_but (parent path) (disk w)) (syncDirWithHook events (parent path))).
    { unfold syncDirWithHook. repeat first [apply keeps_bind; [|intros []]|apply keeps_step|apply keeps_Open]. apply keeps_Fsync. intros d [H1 H2].
      split; [done|]. intros q Hq. cbn. rewrite <- H2 by done. set_solver. }
    specialize (Hk w (conj eq_refl (fun _ _ => reflexivity _))). apply Hst in Hk.
    pose proof (syncDir_synced events (parent path) (nodes (disk w)) (dirty (disk w)) w) as Hy.
    destruct (syncDirWithHook events (parent path) w) as [[[]|e|] w'] eqn:E; cbn in Hk.
    + destruct Hk. split_and!; [done..|]. by apply (Hy tt w').
    + split; [apply Hk|]. cbn. apply Hk.
    + split; [apply Hk|]. left. apply Hk.
Qed.
End replace.

(** C28: A file that is replaced has, whatever call fails or is the last one, its
    old contents or the new ones, synced, as the outcome says; nothing else
    changes but a temporary file beside it. *)
Theorem Replace_atomic events umask path data mode suffixes w : path <> [] ->
  let d0 := disk w in
  let '(r, w') := ReplaceWithHook events umask path data mode suffixes w in
  beside path d0 (disk w') /\ match r with
  | Done _ => replaced path data mode (disk w') /\ parent path ∉ dirty (disk w')
  | Failed e => if Installed e then replaced path data mode (disk w') else unreplaced path d0 (disk w')
  | Dead => replaced path data mode (disk w') \/ unreplaced path d0 (disk w')
  end.
Proof.
  intros Hp d0. pose proof (ReplaceWithHook_leaves events umask path data mode d0 Hp suffixes w eq_refl) as Hl.
  destruct (ReplaceWithHook _ _ _ _ _ _ w) as [[[]|e|] w']; [by destruct Hl as (? & ? & ?)|exact Hl..].
Qed.
