(* ===== verification/Snapshot.v ===== *)
(** * snapshot: backups of the catalog and their restore

    snapshot/restore.go with the exports of data/job.go, data/template_files.go
    and data/command_files.go, and the names of snapshot/backup.go and
    snapshot/list.go. What SQLite reads from a database file is an argument. *)
From S2P Require Import Prelude GoStrings Utils PathMatch JobTree Durable.
Open Scope Z_scope.

(** ** Paths from a backup *)

(** [path.Join] of an absolute path and a text, by its elements. *)
Definition join (dir : Path) (rel : string) : Path := rev (cleanElements true (rev dir) (Split rel slash)).
(** [filepath.Abs] *)
Definition Abs (cwd : Path) (p : string) : Path := if HasPrefix p "/" then join [] p else join cwd p.
Definition backslash : string := String (byte_of 92) "".
Definition nul : string := String (byte_of 0) "".
Definition ValidateBundlePath (rel : string) : bool :=
  if String.eqb rel "" || Contains rel nul || Contains rel backslash then false
  else if HasPrefix rel "/" then false
  else
    let clean := path_Clean rel in
    negb (negb (String.eqb clean rel) || String.eqb clean "." || String.eqb clean ".." || HasPrefix clean "../").

(** ** What a backup holds *)

Record Material := mkMaterial {
  KiveConf : string;
  KVKey : string;
  CAKey : string;
  CACrt : string;
  WorkersJSON : string;
  BucketConf : string;
  DisabledJSON : string;
  (** The JSON object as its entries, in the order a range finds them; none
      when it does not parse. *)
  BucketJobsConfs : option (list (string * string));
  KnownHosts : string;
  PromotionJSON : string;
  WebhookJSON : string;
  ClickHouseJSON : string;
}.
Record FileRow := mkFileRow { frPath : string; frContent : string; frIsDir : bool }.
(** The rows of a database: [job_files] by job in the order of [GetJobs]; a
    bundle may lack the table of commands. *)
Record Backup := mkBackup {
  material : Material;
  caTrust : string;
  schemaVersion : Z;
  jobFiles : list (string * list FileRow);
  templateFiles : list FileRow;
  commandFiles : option (list FileRow);
}.
Definition row_le (a b : FileRow) : Prop := String.le (frPath a) (frPath b).
#[export] Instance row_le_dec a b : Decision (row_le a b).
Proof. unfold row_le. apply _. Defined.
(** [ORDER BY isdir DESC] *)
Definition dirsFirst (rows : list FileRow) : list FileRow := List.filter frIsDir rows ++ List.filter (fun r => negb (frIsDir r)) rows.

Section restore.
Context `{Unicode} (events : nat -> Event) (umask : Z) (cwd : Path) (sha256 : Content -> string) (openSQLite : Content -> option Backup).
Notation step := (step events).

(** ** Exports *)

Definition exportRow (dir : Path) (row : FileRow) : M unit :=
  let dest := join dir (frPath row) in
  if frIsDir row then MkdirAll events umask dest 493
  else MkdirAll events umask (parent dest) 493 ;;! WriteFile events umask dest 420 (Text (frContent row)).
Definition exportJobRow (jobName : string) (outputPath : Path) (row : FileRow) : M unit :=
  if negb (ValidateBundlePath (frPath row)) then fail (Message "path")
  else if negb (String.eqb (frPath row) jobName) && negb (HasPrefix (frPath row) (jobName +:+ "/")) then fail (Message "outside its job root")
  else exportRow outputPath row.
Definition ExportJobFilesRaw (jobName : string) (rows : list FileRow) (outputPath : Path) : M unit :=
  forM (dirsFirst rows) (exportJobRow jobName outputPath).
Definition ExportAllJobFilesRaw (b : Backup) (jobsDir : Path) : M unit :=
  MkdirAll events umask jobsDir 493 ;;! forM (jobFiles b) (fun job => ExportJobFilesRaw job.1 job.2 jobsDir).
Definition exportBundleRow (outputDir : Path) (row : FileRow) : M unit :=
  if negb (ValidateBundlePath (frPath row)) then fail (Message "path") else exportRow outputDir row.
Definition ExportTemplateFilesRaw (b : Backup) (outputDir : Path) : M unit :=
  forM (dirsFirst (merge_sort row_le (templateFiles b))) (exportBundleRow outputDir).
Definition ExportCommandFilesRaw (b : Backup) (outputDir : Path) : M unit :=
  match commandFiles b with None => ret tt | Some rows => forM (dirsFirst (merge_sort row_le rows)) (exportBundleRow outputDir) end.

(** ** The steps of a restore *)

Definition restoreManifestName : string := ".kive-restore.json".
Definition restoreGitignore : string :=
  let nl := String (byte_of 10) "" in "data" +:+ nl +:+ "logs" +:+ nl +:+ "secrets" +:+ nl +:+ "tmp" +:+ nl +:+ ".ssh" +:+ nl.
Definition blank (s : string) : bool := String.eqb (TrimSpace s) "".
Definition validateRestoreMaterial (m : Material) : option error :=
  if blank (KiveConf m) then Some (Message "bucket.kive_conf is empty in backup")
  else if blank (KVKey m) then Some (Message "bucket.kv_key is empty in backup")
  else if blank (CAKey m) then Some (Message "bucket.ca_key is empty in backup")
  else if blank (CACrt m) then Some (Message "bucket.ca_crt is empty in backup")
  else if blank (WorkersJSON m) then Some (Message "bucket.workers_json is empty in backup")
  else None.
Definition hashFile (p : Path) : M string := let! c := ReadFile events p in ret (sha256 c).
Definition readRestorePayload (p : Path) : M Backup :=
  step ;;! let! c := ReadFile events p in match openSQLite c with Some b => step ;;! ret b | None => fail (Message "database error") end.
Definition completeExistingRestore (outputDir : Path) (sourceHash : string) : M unit :=
  let mismatch := Message "output already exists without matching completion manifest" in
  let! raw := (fun w => match ReadFile events (outputDir ++ [restoreManifestName]) w with (Failed _, w) => (Failed mismatch, w) | r => r end) in
  match raw with
  | Manifest 1 hash _ => if negb (String.eqb hash sourceHash) then fail mismatch else SyncTree events outputDir ;;! SyncDir events (parent outputDir)
  | _ => fail mismatch
  end.
Definition restoreDirectories (root : Path) : list (Path * Z) :=
  [(root ++ ["data"], 493); (root ++ ["workspace"; "jobs"], 493); (root ++ ["logs"], 493); (root ++ ["secrets"], 448); (root ++ [".ssh"], 448)].
Definition ensureRestoreDirectories (root : Path) : M unit :=
  forM (restoreDirectories root) (fun d => MkdirAll events umask d.1 d.2) ;;!
  let! gitignore := Lstat events (root ++ [".gitignore"]) in
  match gitignore with None => WriteNew events umask (root ++ [".gitignore"]) (Text restoreGitignore) 420 | Some _ => ret tt end.
Definition copyFile (src dst : Path) : M unit :=
  MkdirAll events umask (parent dst) 493 ;;! let! c := ReadFile events src in CopyNew events umask dst c 420.
(** A file that is written when there is something to write. *)
Definition optional (text : string) (m : M unit) : M unit := if blank text then ret tt else m.
Definition validJobsConfName (name : string) : bool :=
  let base := path_Base name in
  String.eqb base name && (String.eqb base "bucket.jobs.conf" || HasPrefix base "bucket.jobs." && HasSuffix base ".conf").
Definition writeJobsConf (write : Path -> Content -> Z -> M unit) (ws : Path) (file : string * string) : M unit :=
  if negb (validJobsConfName file.1) then fail (Message "invalid bucket.jobs conf name") else write (ws ++ [path_Base file.1]) (Text file.2) 420.
Definition writeBucketJobsConfs (write : Path -> Content -> Z -> M unit) (ws : Path) (encoded : option (list (string * string))) : M unit :=
  match encoded with None => fail (Message "parse bucket.jobs_confs") | Some files => forM files (writeJobsConf write ws) end.
Notation new path text mode := (WriteNew events umask path (Text text) mode).
Definition writeRestoreTree (root : Path) (m : Material) (caTrust : string) : M unit :=
  new (root ++ ["kive.conf"]) (KiveConf m) 384 ;;!
  optional (PromotionJSON m) (new (root ++ ["promotion.conf"]) (PromotionJSON m) 420) ;;!
  optional (WebhookJSON m) (new (root ++ ["webhook.conf"]) (WebhookJSON m) 384) ;;!
  optional (ClickHouseJSON m) (new (root ++ ["observe.conf"]) (ClickHouseJSON m) 384) ;;!
  new (root ++ ["secrets"; "kv.key"]) (KVKey m) 384 ;;!
  new (root ++ ["secrets"; "ca.key"]) (CAKey m) 384 ;;!
  new (root ++ ["secrets"; "ca.crt"]) (CACrt m) 420 ;;!
  new (root ++ ["secrets"; "ca-trust.crt"]) caTrust 420 ;;!
  new (root ++ [".ssh"; "known_hosts"]) (KnownHosts m) 384 ;;!
  new (root ++ ["workspace"; "workers.conf"]) (WorkersJSON m) 420 ;;!
  optional (BucketConf m) (new (root ++ ["workspace"; "bucket.conf"]) (BucketConf m) 420) ;;!
  optional (DisabledJSON m) (new (root ++ ["workspace"; "disabled.conf"]) (DisabledJSON m) 420) ;;!
  writeBucketJobsConfs (WriteNew events umask) (root ++ ["workspace"]) (BucketJobsConfs m).

(** ** A restore *)

(** The tree is made under another name and takes its own in one step. *)
Definition prepareStage (absDB stage : Path) (sourceHash : string) (payload : Backup) : M unit :=
  let trust := if blank (caTrust payload) then CACrt (material payload) else caTrust payload in
  let destDB := stage ++ ["data"; "kive.db"] in
  Chmod events stage 493 ;;! step ;;!
  ensureRestoreDirectories stage ;;!
  copyFile absDB destDB ;;!
  let! copiedHash := hashFile destDB in
  if negb (String.eqb copiedHash sourceHash) then fail (Message "source database changed during restore")
  else
    step ;;!
    writeRestoreTree stage (material payload) trust ;;!
    step ;;!
    let! live := readRestorePayload destDB in
    step ;;!
    ExportAllJobFilesRaw live (stage ++ ["workspace"; "jobs"]) ;;!
    ExportTemplateFilesRaw live (stage ++ ["templates"]) ;;!
    ExportCommandFilesRaw live (stage ++ ["workspace"; "commands"]) ;;!
    step ;;!
    WriteNew events umask (stage ++ [restoreManifestName]) (Manifest 1 sourceHash (schemaVersion payload)) 384 ;;!
    SyncTree events stage.
Definition buildStage (absDB absOut stage : Path) (sourceHash : string) (payload : Backup) : M unit :=
  prepareStage absDB stage sourceHash payload ;;! CommitDir events stage absOut.
(** The stage is removed unless it was installed. *)
Definition cleanupStage (stage : Path) (m : M unit) : M unit := fun w =>
  match m w with
  | (Failed e, w) =>
      if Installed e then (Failed e, w)
      else match RemoveTree events stage w with (Done _, w) => (Failed e, w) | (Failed c, w) => (Failed (Joined e c), w) | (Dead, w) => (Dead, w) end
  | r => r
  end.
Definition isRegular (n : option Node) : bool := match n with Some (FileNode _ _) => true | _ => false end.
Definition isDirectory (n : option Node) : bool := match n with Some (DirNode _) => true | _ => false end.
Definition Restore (dbFile outputDir : string) (suffixes : list string) : M unit :=
  let dbFile := TrimSpace dbFile in
  if String.eqb dbFile "" then fail (Message "dbfile is required")
  else if blank outputDir then fail (Message "output directory is required")
  else
    let absDB := Abs cwd dbFile in
    let absOut := Abs cwd outputDir in
    step ;;!
    let! sourceInfo := Lstat events absDB in
    if negb (isRegular sourceInfo) then fail (Message "dbfile must be a regular file")
    else
      let! parentInfo := Lstat events (parent absOut) in
      if negb (isDirectory parentInfo) then fail (Message "output parent is not a directory")
      else
        let! sourceHash := hashFile absDB in
        let! out := Lstat events absOut in
        match out with
        | Some _ => completeExistingRestore absOut sourceHash
        | None =>
            step ;;!
            let! payload := readRestorePayload absDB in
            match validateRestoreMaterial (material payload) with
            | Some e => fail e
            | None =>
                step ;;! step ;;!
                let! stage := MkdirTemp events umask (parent absOut) (map (fun x => "." +:+ base absOut +:+ ".restore-" +:+ x) suffixes) in
                cleanupStage stage (buildStage absDB absOut stage sourceHash payload)
            end
        end.

(** ** Source bundles *)

Definition MaterializeSource (b : Backup) (outputDir : Path) : M unit :=
  let m := material b in
  let put path text mode := WriteFile events umask path mode (Text text) in
  let ws := outputDir ++ ["workspace"] in
  if blank (KiveConf m) then fail (Message "bucket.kive_conf is empty")
  else if String.eqb (WorkersJSON m) "" then fail (Message "bucket.workers_json is empty")
  else
    MkdirAll events umask (ws ++ ["jobs"]) 493 ;;!
    put (outputDir ++ ["kive.conf"]) (KiveConf m) 384 ;;!
    optional (PromotionJSON m) (put (outputDir ++ ["promotion.conf"]) (PromotionJSON m) 420) ;;!
    optional (WebhookJSON m) (put (outputDir ++ ["webhook.conf"]) (WebhookJSON m) 384) ;;!
    optional (ClickHouseJSON m) (put (outputDir ++ ["observe.conf"]) (ClickHouseJSON m) 384) ;;!
    put (ws ++ ["workers.conf"]) (WorkersJSON m) 420 ;;!
    optional (BucketConf m) (put (ws ++ ["bucket.conf"]) (BucketConf m) 420) ;;!
    optional (DisabledJSON m) (put (ws ++ ["disabled.conf"]) (DisabledJSON m) 420) ;;!
    writeBucketJobsConfs (fun p c mode => WriteFile events umask p mode c) ws (BucketJobsConfs m) ;;!
    ExportAllJobFilesRaw b (ws ++ ["jobs"]) ;;!
    ExportTemplateFilesRaw b (outputDir ++ ["templates"]) ;;!
    MkdirAll events umask (ws ++ ["commands"]) 493 ;;!
    ExportCommandFilesRaw b (ws ++ ["commands"]).
End restore.
