(* ===== verification/SnapshotFacts.v ===== *)
(** * snapshot: a restore is whole or not at all

    Whatever call of a restore fails, or is the last one, its output is absent
    or complete and synced. *)
From S2P Require Import Prelude GoStrings Utils PathMatch JobTree Durable DurableFacts Snapshot.
Open Scope Z_scope.

(** ** Paths from a backup stay in their directory *)

Definition noSlash (e : string) : Prop := no_byte slash e = true.
(** What cleaning leaves: elements, and before them parents. *)
Lemma cleanElements_shape l : Forall noSlash l -> forall out, (exists a k, out = a ++ replicate k ".." /\ Forall plain a) ->
  exists a k, cleanElements false out l = a ++ replicate k ".." /\ Forall plain a.
Proof.
  induction 1 as [|e l He _ IH]; intros out Hout; cbn [cleanElements]; [done|]. apply IH. destruct Hout as (a & k & -> & Ha).
  destruct (String.eqb_spec e "") as [->|H1]; cbn [orb]; [by exists a, k|]. destruct (String.eqb_spec e ".") as [->|H2]; [by exists a, k|].
  destruct (String.eqb_spec e "..") as [->|H3].
  - destruct a as [|x a]; cbn [app].
    + destruct k as [|k]; cbn [replicate]; [by exists [], 1%nat|]. rewrite String.eqb_refl. by exists [], (S (S k)).
    + apply Forall_cons_1 in Ha as [Hx Ha]. destruct (String.eqb_spec x "..") as [->|_]; [by destruct Hx as (_ & _ & ? & _)|]. by exists a, k.
  - exists (e :: a), k. split; [done|]. constructor; [by split_and!|done].
Qed.
Lemma Split_noSlash s : Forall noSlash (Split s slash).
Proof. apply Forall_forall. intros e. apply Split_elem_no_byte. Qed.
Lemma rev_replicate k (x : string) : rev (replicate k x) = replicate k x.
Proof. rewrite rev_alt. apply reverse_replicate. Qed.
Lemma Join_dotdot l : let s := Join (".." :: l) "/" in s = ".." \/ HasPrefix s "../" = true.
Proof. destruct l as [|x l]; [by left|right]. cbn. done. Qed.
Lemma ValidateBundlePath_elements rel : ValidateBundlePath rel = true -> Forall plain (Split rel slash).
Proof.
  unfold ValidateBundlePath. destruct (_ || _) eqn:E1; [done|]. destruct (HasPrefix rel "/") eqn:E2; [done|]. cbv zeta. intros H.
  apply negb_true_iff, orb_false_iff in H as [[[H1%negb_false_iff%String.eqb_eq H2%String.eqb_neq]%orb_false_iff H3%String.eqb_neq]%orb_false_iff H4].
  apply orb_false_iff in E1 as [[E1 _]%orb_false_iff _]. destruct (cleanElements_shape (Split rel slash) (Split_noSlash rel) []) as (a & k & Ec & Ha);
    [by exists [], 0%nat|]. rewrite H1 in H2, H3, H4. unfold path_Clean in H1. rewrite E1, E2, Ec, rev_app_distr, rev_replicate in H1.
  destruct (String.eqb_spec (Join (replicate k ".." ++ rev a) "/") "") as [_|Hj]; [congruence|]. destruct k as [|k].
  - cbn [replicate app] in H1, Hj. rewrite <- H1. assert (Hr : Forall plain (rev a)) by (by apply Forall_rev). rewrite Split_plain; [done..|].
    intros E. by rewrite E in Hj.
  - exfalso. cbn [replicate app] in H1. destruct (Join_dotdot (replicate k ".." ++ rev a)) as [E|E]; cbv zeta in E; congruence.
Qed.
Lemma join_valid dir rel : ValidateBundlePath rel = true -> join dir rel = dir ++ Split rel slash.
Proof. intros H%ValidateBundlePath_elements. unfold join. by rewrite cleanElements_plain, rev_app_distr, !rev_involutive. Qed.
Lemma below_join dir rel : ValidateBundlePath rel = true -> below dir (join dir rel) = true /\ below dir (parent (join dir rel)) = true.
Proof.
  intros H. rewrite join_valid by done. split; [apply below_app|]. pose proof (Split_nonempty rel slash).
  destruct (Split rel slash) as [|x l _] using rev_ind; [done|]. rewrite app_assoc, parent_app. apply below_app.
Qed.
Lemma join_inj dir a b : ValidateBundlePath a = true -> ValidateBundlePath b = true -> join dir a = join dir b -> a = b.
Proof.
  intros Ha Hb. rewrite !join_valid by done. intros E%app_inv_head. rewrite <- (Join_Split a slash), <- (Join_Split b slash). by rewrite E.
Qed.

(** ** Nothing but the stage changes *)

Section stage.
Context `{Unicode} (events : nat -> Event) (umask : Z) (sha256 : Content -> string) (openSQLite : Content -> option Backup) (stage : Path) (d0 : Disk) (stage_proper : stage <> []).
Context (on_disk : forall q, q `prefix_of` stage -> q <> [] -> q <> stage -> is_Some (nodes d0 !! q)).
Notation W := (within stage d0).
Lemma below_stage dir p : below stage dir = true -> below dir p = true -> below stage p = true.
Proof. apply below_trans. Qed.
Lemma keeps_ReadFile I p : keeps I (ReadFile events p).
Proof. apply keeps_look. intros d a d'. destruct (nodes d !! p) as [[]|]; [done|by intros [= _ ->]|done]. Qed.
Lemma keeps_Lstat I p : keeps I (Lstat events p).
Proof. apply keeps_look. by intros d a d' [= _ ->]. Qed.
Lemma keeps_payload I p : keeps I (readRestorePayload events openSQLite p).
Proof.
  unfold readRestorePayload. apply keeps_bind; [apply keeps_step|intros []]. apply keeps_bind; [apply keeps_ReadFile|intros c].
  destruct (openSQLite c); [apply keeps_bind; [apply keeps_step|intros []; apply keeps_done]|apply keeps_fail].
Qed.
Lemma keeps_hashFile I p : keeps I (hashFile events sha256 p).
Proof. apply keeps_bind; [apply keeps_ReadFile|intros c; apply keeps_done]. Qed.
#[local] Hint Resolve below_app below_refl : core.
Lemma within_exportRow dir row : below stage dir = true -> ValidateBundlePath (frPath row) = true -> keeps W (exportRow events umask dir row).
Proof.
  intros Hd [H1 H2]%(below_join dir). unfold exportRow. destruct (frIsDir row); [apply within_MkdirAll; eauto using below_trans|].
  apply keeps_bind; [apply within_MkdirAll; eauto using below_trans|intros []]. apply within_WriteFile; eauto using below_trans.
Qed.
Lemma within_bundle dir rows : below stage dir = true -> keeps W (forM rows (exportBundleRow events umask dir)).
Proof.
  intros Hd. apply keeps_forM. intros row _. unfold exportBundleRow. destruct (ValidateBundlePath (frPath row)) eqn:E; [by apply within_exportRow|apply keeps_fail].
Qed.
Lemma within_ExportJobs b dir : below stage dir = true -> keeps W (ExportAllJobFilesRaw events umask b dir).
Proof.
  intros Hd. unfold ExportAllJobFilesRaw. apply keeps_bind; [by apply within_MkdirAll|intros []]. apply keeps_forM. intros [job rows] _.
  apply keeps_forM. intros row _. unfold exportJobRow. cbn [fst]. destruct (ValidateBundlePath (frPath row)) eqn:E; [|apply keeps_fail]. cbn [negb].
  destruct (_ && _); [apply keeps_fail|by apply within_exportRow].
Qed.
Lemma within_jobsConfs ws encoded : below stage ws = true -> keeps W (writeBucketJobsConfs (WriteNew events umask) ws encoded).
Proof.
  intros Hd. unfold writeBucketJobsConfs. destruct encoded as [files|]; [|apply keeps_fail]. apply keeps_forM. intros f _. unfold writeJobsConf.
  destruct (negb _); [apply keeps_fail|]. apply within_CopyNew; eauto using below_trans.
Qed.
Lemma within_writeRestoreTree m trust : keeps W (writeRestoreTree events umask stage m trust).
Proof.
  unfold writeRestoreTree, WriteNew, optional. repeat (apply keeps_bind; [repeat case_match; first [apply keeps_done|by apply within_CopyNew; auto]|intros []]).
  apply within_jobsConfs. apply below_app.
Qed.
Lemma within_ensureDirectories : keeps W (ensureRestoreDirectories events umask stage).
Proof.
  unfold ensureRestoreDirectories. apply keeps_bind; [|intros []].
  - apply keeps_forM. intros [p mode] Hp. apply within_MkdirAll; [done..|]. repeat (apply elem_of_cons in Hp as [[= -> ->]|Hp]; [apply below_app|]). by apply elem_of_nil in Hp.
  - apply keeps_bind; [apply keeps_Lstat|intros r]. destruct r; [apply keeps_done|]. apply within_CopyNew; auto.
Qed.
Lemma within_prepareStage absDB sourceHash payload : keeps W (prepareStage events umask sha256 openSQLite absDB stage sourceHash payload).
Proof.
  unfold prepareStage. apply keeps_bind; [apply within_Chmod; auto|intros []]. apply keeps_bind; [apply keeps_step|intros []].
  apply keeps_bind; [apply within_ensureDirectories|intros []]. apply keeps_bind; [|intros []].
  { unfold copyFile. apply keeps_bind; [|intros []].
    - apply within_MkdirAll; [done..|]. change (stage ++ ["data"; "kive.db"]) with (stage ++ ["data"] ++ ["kive.db"]). rewrite app_assoc, parent_app. apply below_app.
    - apply keeps_bind; [apply keeps_ReadFile|intros c]. apply within_CopyNew; auto. }
  apply keeps_bind; [apply keeps_hashFile|intros h]. destruct (negb _); [apply keeps_fail|]. apply keeps_bind; [apply keeps_step|intros []].
  apply keeps_bind; [apply within_writeRestoreTree|intros []]. apply keeps_bind; [apply keeps_step|intros []]. apply keeps_bind; [apply keeps_payload|intros live].
  apply keeps_bind; [apply keeps_step|intros []]. apply keeps_bind; [apply within_ExportJobs; auto|intros []].
  apply keeps_bind; [apply within_bundle; auto|intros []]. apply keeps_bind; [|intros []].
  { unfold ExportCommandFilesRaw. destruct (commandFiles live); [apply within_bundle; auto|apply keeps_done]. }
  apply keeps_bind; [apply keeps_step|intros []]. apply keeps_bind; [apply within_CopyNew; auto|intros []]. by apply within_SyncTree.
Qed.
End stage.

(** ** What a stage holds *)

Notation Tree := (gmap (list string) Node).
(** Files that stay, but for the named ones. *)
Definition kept_but (W : list Path) (N N' : Tree) : Prop := forall q mode c, q ∉ W -> N !! q = Some (FileNode mode c) -> N' !! q = Some (FileNode mode c).
Lemma kept_but_refl W N : kept_but W N N.
Proof. by intros q. Qed.
Lemma kept_but_trans W W' N1 N2 N3 : kept_but W N1 N2 -> kept_but W' N2 N3 -> kept_but (W ++ W') N1 N3.
Proof. intros H1 H2 q mode c [Hq Hq']%not_elem_of_app E. apply H2; [done|]. by apply H1. Qed.
Definition made (N : Tree) (f : Path * Node) : Prop := N !! f.1 = Some f.2.
Definition put (N : Tree) (f : Path * Content) : Prop := exists mode, N !! f.1 = Some (FileNode mode f.2).
(** A program that makes new files, and one that writes files. *)
Definition makes (fs : list (Path * Node)) {A} (m : M A) : Prop :=
  forall N, yields (fun d => nodes d = N) m (fun _ d => Forall (made (nodes d)) fs /\ kept_but [] N (nodes d)).
Definition puts (fs : list (Path * Content)) (m : M unit) : Prop :=
  NoDup fs.*1 -> forall N, yields (fun d => nodes d = N) m (fun _ d => Forall (put (nodes d)) fs /\ kept_but fs.*1 N (nodes d)).
Definition isFileEntry (f : Path * Node) : Prop := isDirNode f.2 = false.
Lemma made_kept W fs N N' : Forall isFileEntry fs -> Forall (fun f => f.1 ∉ W) fs -> kept_but W N N' -> Forall (made N) fs -> Forall (made N') fs.
Proof.
  intros Hf HW Hk. rewrite !Forall_forall. intros H f Hin. specialize (H f Hin). rewrite Forall_forall in Hf, HW. specialize (Hf f Hin). specialize (HW f Hin).
  destruct f as [p [mode|mode c]]; [done|]. by apply Hk.
Qed.
Lemma put_kept W fs N N' : Forall (fun f => f.1 ∉ W) fs -> kept_but W N N' -> Forall (put N) fs -> Forall (put N') fs.
Proof.
  intros HW Hk. rewrite !Forall_forall. intros H f Hin. destruct (H f Hin) as [mode E]. exists mode. apply Hk; [|done]. rewrite Forall_forall in HW. by apply HW.
Qed.
Lemma outside_nil {A} (fs : list (Path * A)) : Forall (fun f => f.1 ∉ []) fs.
Proof. apply Forall_forall. intros f _. apply not_elem_of_nil. Qed.
Lemma makes_bind fs fs' (m : M unit) (k : unit -> M unit) : Forall isFileEntry fs -> makes fs m -> (forall a, makes fs' (k a)) -> makes (fs ++ fs') (bind m k).
Proof.
  intros Hf Hm Hk N. eapply yields_bind; [apply Hm|]. intros a w b w' [H1 K1] E. destruct (Hk a _ w b w' eq_refl E) as [H2 K2]. split.
  - apply Forall_app. split; [|done]. by apply (made_kept [] _ _ _ Hf (outside_nil _) K2).
  - by apply (kept_but_trans [] []) with (N2 := nodes (disk w)).
Qed.
Lemma puts_bind fs fs' (m : M unit) (k : unit -> M unit) : puts fs m -> (forall a, puts fs' (k a)) -> puts (fs ++ fs') (bind m k).
Proof.
  intros Hm Hk Hnd N. rewrite fmap_app in Hnd |- *. apply NoDup_app in Hnd as (Hn1 & Hd & Hn2). eapply yields_bind; [by apply Hm|].
  intros a w b w' [H1 K1] E. destruct (Hk a Hn2 _ w b w' eq_refl E) as [H2 K2]. split.
  - apply Forall_app. split; [|done]. apply (put_kept fs'.*1 _ (nodes (disk w))); [|done..]. apply Forall_forall. intros f Hf. apply Hd. by apply list_elem_of_fmap_2.
  - by eapply kept_but_trans.
Qed.
Lemma makes_same {A} (m : M A) : (forall N : Tree, yields (fun d => nodes d = N) m (fun _ d => nodes d = N)) -> makes [] m.
Proof. intros Hm N w a w' Hw E. rewrite (Hm N w a w' Hw E). split; [constructor|apply kept_but_refl]. Qed.
Lemma makes_ret : makes [] (ret tt).
Proof. intros N. apply yields_ret. intros d ->. split; [constructor|apply kept_but_refl]. Qed.
Lemma makes_fail fs : makes fs (@fail unit (Message "")).
Proof. by intros N w a w'. Qed.
Lemma makes_forM {A} (fs : A -> list (Path * Node)) (f : A -> M unit) l : (forall x, Forall isFileEntry (fs x)) -> (forall x, makes (fs x) (f x)) ->
  makes (concat (map fs l)) (forM l f).
Proof. intros Hf Hm. induction l as [|x l IH]; cbn [map concat forM]; [apply makes_ret|]. apply makes_bind; auto. Qed.
Lemma puts_forM {A} (fs : A -> list (Path * Content)) (f : A -> M unit) l : (forall x, puts (fs x) (f x)) -> puts (concat (map fs l)) (forM l f).
Proof.
  intros Hm. induction l as [|x l IH]; cbn [map concat forM]; [|by apply puts_bind]. intros _ N. apply yields_ret. intros d ->. split; [constructor|apply kept_but_refl].
Qed.
Section routines.
Context `{Unicode} (events : nat -> Event) (umask : Z) (sha256 : Content -> string) (openSQLite : Content -> option Backup).
Lemma makes_step : makes [] (step events).
Proof. apply makes_same. intros N. apply yields_step. Qed.
Lemma makes_WriteNew p c mode : makes [(p, FileNode mode c)] (WriteNew events umask p c mode).
Proof.
  intros N. eapply yields_weaken; [intros d Hd; exact Hd| |apply CopyNew_done]. intros a d (Hn & _ & E). rewrite E. split.
  - repeat constructor. apply lookup_insert_eq.
  - intros q m' c' _ Hq. rewrite lookup_insert_ne; [done|congruence].
Qed.
Lemma grown_kept N N' : grown N N' -> kept_but [] N N'.
Proof. intros Hg q mode c _ E. destruct (Hg q) as [H1|[H1 _]]; congruence. Qed.
Lemma makes_MkdirAll p mode : makes [] (MkdirAll events umask p mode).
Proof. intros N. eapply yields_weaken; [intros d Hd; exact Hd| |apply MkdirAll_done]. intros a d Hg. split; [constructor|by apply grown_kept]. Qed.
Lemma makes_SyncTree p : makes [] (SyncTree events p).
Proof. apply makes_same. intros N. eapply yields_weaken; [intros d Hd; exact Hd| |apply SyncTree_done]. by intros a d [-> _]. Qed.
Definition rowFiles (dir : Path) (row : FileRow) : list (Path * Content) := if frIsDir row then [] else [(dir ++ Split (frPath row) slash, Text (frContent row))].
Lemma puts_exportRow dir row : ValidateBundlePath (frPath row) = true -> puts (rowFiles dir row) (exportRow events umask dir row).
Proof.
  intros Hv _ N. unfold exportRow, rowFiles. rewrite join_valid by done. destruct (frIsDir row).
  - eapply yields_weaken; [intros d Hd; exact Hd| |apply makes_MkdirAll]. intros _ d [_ K]. split; [constructor|exact K].
  - eapply yields_bind; [apply makes_MkdirAll|]. intros [] w a w' [_ K] E. destruct (WriteFile_done _ _ _ _ _ _ w a w' eq_refl E) as [_ [m' E']].
    rewrite E'. split; [repeat constructor; exists m'; apply lookup_insert_eq|]. intros q mode c Hq HN. cbn in Hq. apply not_elem_of_cons in Hq as [Hq _].
    rewrite lookup_insert_ne by done. apply K; [apply not_elem_of_nil|done].
Qed.
Definition bundleFiles (dir : Path) (rows : list FileRow) : list (Path * Content) := concat (map (rowFiles dir) rows).
Lemma puts_bundle dir rows : puts (bundleFiles dir rows) (forM rows (exportBundleRow events umask dir)).
Proof. apply puts_forM. intros row. unfold exportBundleRow. destruct (ValidateBundlePath _) eqn:E; [by apply puts_exportRow|by intros _ N w a w']. Qed.
Definition jobsFiles (dir : Path) (b : Backup) : list (Path * Content) := concat (map (fun job => bundleFiles dir (dirsFirst job.2)) (jobFiles b)).
Lemma puts_ExportJobs b dir : puts (jobsFiles dir b) (ExportAllJobFilesRaw events umask b dir).
Proof.
  unfold ExportAllJobFilesRaw. change (jobsFiles dir b) with ([] ++ jobsFiles dir b). apply puts_bind.
  - intros _ N. eapply yields_weaken; [intros d Hd; exact Hd| |apply makes_MkdirAll]. intros _ d [_ K]. split; [constructor|exact K].
  - intros _. apply puts_forM. intros [job rows]. apply puts_forM. intros row. unfold exportJobRow. cbn [fst].
    destruct (ValidateBundlePath _) eqn:E; [|by intros _ N w a w']. destruct (_ && _); [by intros _ N w a w'|by apply puts_exportRow].
Qed.
Definition commandRows (b : Backup) : list FileRow := match commandFiles b with Some rows => dirsFirst (merge_sort row_le rows) | None => [] end.
Lemma puts_ExportCommands b dir : puts (bundleFiles dir (commandRows b)) (ExportCommandFilesRaw events umask b dir).
Proof.
  unfold ExportCommandFilesRaw, commandRows. destruct (commandFiles b); [apply puts_bundle|]. intros _ N. apply yields_ret. intros d ->. split; [constructor|apply kept_but_refl].
Qed.

(** The files that the columns of the backup give. *)
Definition textFile (mode : Z) (p : Path) (text : string) : Path * Node := (p, FileNode mode (Text text)).
Definition optionalFile (mode : Z) (p : Path) (text : string) : list (Path * Node) := if blank text then [] else [textFile mode p text].
Definition confFiles (ws : Path) (encoded : option (list (string * string))) : list (Path * Node) :=
  map (fun f => textFile 420 (ws ++ [path_Base f.1]) f.2) (default [] encoded).
Definition columnFiles (root : Path) (m : Material) (trust : string) : list (Path * Node) :=
  [textFile 384 (root ++ ["kive.conf"]) (KiveConf m)] ++ optionalFile 420 (root ++ ["promotion.conf"]) (PromotionJSON m)
  ++ optionalFile 384 (root ++ ["webhook.conf"]) (WebhookJSON m) ++ optionalFile 384 (root ++ ["observe.conf"]) (ClickHouseJSON m)
  ++ [textFile 384 (root ++ ["secrets"; "kv.key"]) (KVKey m)] ++ [textFile 384 (root ++ ["secrets"; "ca.key"]) (CAKey m)]
  ++ [textFile 420 (root ++ ["secrets"; "ca.crt"]) (CACrt m)] ++ [textFile 420 (root ++ ["secrets"; "ca-trust.crt"]) trust]
  ++ [textFile 384 (root ++ [".ssh"; "known_hosts"]) (KnownHosts m)] ++ [textFile 420 (root ++ ["workspace"; "workers.conf"]) (WorkersJSON m)]
  ++ optionalFile 420 (root ++ ["workspace"; "bucket.conf"]) (BucketConf m) ++ optionalFile 420 (root ++ ["workspace"; "disabled.conf"]) (DisabledJSON m)
  ++ confFiles (root ++ ["workspace"]) (BucketJobsConfs m).
Lemma optionalFile_entry mode p text : Forall isFileEntry (optionalFile mode p text).
Proof. unfold optionalFile. destruct (blank text); by repeat constructor. Qed.
Lemma makes_optional mode p text : makes (optionalFile mode p text) (optional text (WriteNew events umask p (Text text) mode)).
Proof. unfold optionalFile, optional. destruct (blank text); [apply makes_ret|apply makes_WriteNew]. Qed.
Lemma makes_confs ws encoded : makes (confFiles ws encoded) (writeBucketJobsConfs (WriteNew events umask) ws encoded).
Proof.
  unfold writeBucketJobsConfs, confFiles. destruct encoded as [files|]; [|by intros N w a w']. cbn [default from_option Datatypes.id].
  assert (E : forall l : list (string * string), map (fun f => textFile 420 (ws ++ [path_Base f.1]) f.2) l = concat (map (fun f => [textFile 420 (ws ++ [path_Base f.1]) f.2]) l)).
  { induction l as [|f l IH]; [done|]. cbn. by rewrite IH. }
  rewrite E. apply (makes_forM (fun f : string * string => [textFile 420 (ws ++ [path_Base f.1]) f.2])); [by repeat constructor|].
  intros f. unfold writeJobsConf. destruct (negb _); [by intros N w a w'|apply makes_WriteNew].
Qed.
Lemma makes_columns root m trust : makes (columnFiles root m trust) (writeRestoreTree events umask root m trust).
Proof.
  unfold columnFiles, writeRestoreTree.
  repeat (apply makes_bind; [first [apply optionalFile_entry|by repeat constructor]|first [apply makes_optional|apply makes_WriteNew]|intros []]).
  apply makes_confs.
Qed.
Lemma makes_ensureDirectories root : makes [] (ensureRestoreDirectories events umask root).
Proof.
  unfold ensureRestoreDirectories. change (@nil (Path * Node)) with (concat (map (fun _ : Path * Z => @nil (Path * Node)) (restoreDirectories root)) ++ []).
  apply makes_bind; [repeat constructor|apply makes_forM; [constructor|intros d; apply makes_MkdirAll]|intros []].
  intros N. eapply yields_bind; [apply Lstat_done|]. intros r w a w' [Hw _]. destruct r.
  - intros [= <- <-]. rewrite Hw. split; [constructor|apply kept_but_refl].
  - intros E. destruct (makes_WriteNew _ _ _ N w a w' Hw E) as [_ K]. split; [constructor|exact K].
Qed.
End routines.

(** ** A stage that is prepared is complete *)

Lemma bind_done {A B} (m : M A) (f : A -> M B) w b w' : bind m f w = (Done b, w') -> exists a w1, m w = (Done a, w1) /\ f a w1 = (Done b, w').
Proof. unfold bind. destruct (m w) as [[a|e|] w1]; [|done..]. intros E. by exists a, w1. Qed.
Lemma keeps_run {A} I (m : M A) w r w' : keeps I m -> I (disk w) -> m w = (r, w') -> I (disk w').
Proof. intros Hk Hw E. specialize (Hk w Hw). by rewrite E in Hk. Qed.
Definition trustOf `{Unicode} (b : Backup) : string := if blank (caTrust b) then CACrt (material b) else caTrust b.
Definition madeFiles `{Unicode} (sha256 : Content -> string) (root : Path) (b : Backup) (db : Content) : list (Path * Node) :=
  [(root ++ ["data"; "kive.db"], FileNode 420 db)] ++ columnFiles root (material b) (trustOf b)
  ++ [(root ++ [restoreManifestName], FileNode 384 (Manifest 1 (sha256 db) (schemaVersion b)))].
Definition exported (root : Path) (b : Backup) : list (Path * Content) :=
  jobsFiles (root ++ ["workspace"; "jobs"]) b ++ bundleFiles (root ++ ["templates"]) (dirsFirst (merge_sort row_le (templateFiles b)))
  ++ bundleFiles (root ++ ["workspace"; "commands"]) (commandRows b).
(** No two rows name the same file. *)
Definition distinct (b : Backup) : Prop := NoDup (exported [] b).*1.
(** Everything the backup has is below the root. *)
Definition complete `{Unicode} (sha256 : Content -> string) (root : Path) (b : Backup) (db : Content) (N : Tree) : Prop :=
  Forall (made N) (madeFiles sha256 root b db) /\ Forall (put N) (exported root b).

Definition shift {A} (root : Path) (f : Path * A) : Path * A := (root ++ f.1, f.2).
Lemma bundleFiles_shift root dir rows : bundleFiles (root ++ dir) rows = map (shift root) (bundleFiles dir rows).
Proof.
  unfold bundleFiles. induction rows as [|row rows IH]; cbn; [done|]. rewrite map_app, IH. f_equal. unfold rowFiles, shift. destruct (frIsDir row); cbn; [done|].
  by rewrite <- app_assoc.
Qed.
Lemma jobsFiles_shift root dir b : jobsFiles (root ++ dir) b = map (shift root) (jobsFiles dir b).
Proof. unfold jobsFiles. induction (jobFiles b) as [|job jobs IH]; cbn; [done|]. by rewrite map_app, IH, bundleFiles_shift. Qed.
Lemma exported_shift root b : exported root b = map (shift root) (exported [] b).
Proof. unfold exported. rewrite !map_app. cbn [app]. by rewrite !(bundleFiles_shift root), (jobsFiles_shift root). Qed.
Lemma madeFiles_shift `{Unicode} sha256 root b db : madeFiles sha256 root b db = map (shift root) (madeFiles sha256 [] b db).
Proof.
  assert (Hopt : forall mode p text, optionalFile mode (root ++ p) text = map (shift root) (optionalFile mode p text)).
  { intros mode p text. unfold optionalFile. by destruct (blank text). }
  assert (Hconf : forall l, confFiles (root ++ ["workspace"]) l = map (shift root) (confFiles ["workspace"] l)).
  { intros l. unfold confFiles. rewrite map_map. apply map_ext. intros f. unfold textFile, shift. cbn. by rewrite <- app_assoc. }
  unfold madeFiles, columnFiles. rewrite !map_app, !Hopt, Hconf. done.
Qed.
Lemma distinct_at root b : distinct b -> NoDup (exported root b).*1.
Proof.
  unfold distinct. rewrite (exported_shift root). intros Hd. replace (map (shift root) (exported [] b)).*1 with (app root <$> (exported [] b).*1).
  - apply NoDup_fmap_2; [|done]. intros x y. apply app_inv_head.
  - generalize (exported [] b). intros l. induction l as [|f l IH]; [done|]. cbn. by f_equal.
Qed.
Section prepared.
Context `{Unicode} (events : nat -> Event) (umask : Z) (sha256 : Content -> string) (openSQLite : Content -> option Backup).
Lemma ReadFile_done p w c w' : ReadFile events p w = (Done c, w') -> disk w' = disk w /\ exists mode, nodes (disk w) !! p = Some (FileNode mode c).
Proof.
  unfold ReadFile, sys. destruct (nodes (disk w) !! p) as [[mode|mode c']|]; try (by destruct (events _)). destruct (events _); [|done..].
  intros [= <- <-]. split; [done|by exists mode].
Qed.
Lemma step_done w w' : step events w = (Done tt, w') -> disk w' = disk w.
Proof. unfold step, sys. destruct (events _); [|done..]. by intros [= <-]. Qed.
Lemma payload_done p w b w' : readRestorePayload events openSQLite p w = (Done b, w') ->
  disk w' = disk w /\ exists mode c, nodes (disk w) !! p = Some (FileNode mode c) /\ openSQLite c = Some b.
Proof.
  intros ([] & w1 & H1%step_done & (c & w2 & [H2 [mode E]]%ReadFile_done & H3)%bind_done)%bind_done. destruct (openSQLite c) as [b'|] eqn:Eb; [|done].
  apply bind_done in H3 as ([] & w3 & H3%step_done & [= -> <-]). rewrite H3, H2, H1. split; [done|]. exists mode, c. by rewrite <- H1.
Qed.
(** Where the files of the columns are not: where rows are exported. *)
Definition exportDir (root dir : Path) : Prop := dir = root ++ ["workspace"; "jobs"] \/ dir = root ++ ["templates"] \/ dir = root ++ ["workspace"; "commands"].
Definition columnPath (root p : Path) : Prop := (exists x, p = root ++ [x]) \/ exists x y, p = root ++ [x; y] /\ x <> "templates".
Lemma export_aside root dir p : exportDir root dir -> below dir p = true -> p <> dir -> ~ columnPath root p.
Proof.
  intros Hd [r ->]%below_true Hne Hc. assert (Hr : r <> []) by (intros ->; apply Hne; by rewrite app_nil_r).
  destruct r as [|x r]; [done|]. destruct Hd as [-> |[-> | ->]]; destruct Hc as [[y E]|(y & z & E & Hy)]; rewrite <- app_assoc in E; apply app_inv_head in E; by simplify_eq/=.
Qed.
Lemma made_columnPath root b db : Forall (fun f => columnPath root f.1) (madeFiles sha256 root b db).
Proof.
  assert (Hopt : forall mode p text, columnPath root p -> Forall (fun f => columnPath root f.1) (optionalFile mode p text)).
  { intros mode p text Hp. unfold optionalFile. destruct (blank text); [constructor|by apply Forall_singleton]. }
  unfold madeFiles, columnFiles. rewrite !Forall_app. split_and!.
  all: first [apply Hopt|rewrite Forall_singleton|idtac]; cbn [fst textFile].
  all: try by (left; eexists).
  all: try by (right; do 2 eexists; split).
  unfold confFiles. apply Forall_map, Forall_forall. intros f _. right. exists "workspace", (path_Base f.1). split; [|done]. cbn. by rewrite <- app_assoc.
Qed.
Lemma made_entries root b db : Forall isFileEntry (madeFiles sha256 root b db).
Proof.
  unfold madeFiles, columnFiles, confFiles. rewrite !Forall_app. split_and!; try apply optionalFile_entry; try by repeat constructor.
  by apply Forall_map, Forall_forall.
Qed.
Definition insideDir (dir : Path) (f : Path * Content) : Prop := below dir f.1 = true /\ f.1 <> dir.
Lemma bundle_inside dir rows : Forall (insideDir dir) (bundleFiles dir rows).
Proof.
  unfold bundleFiles. induction rows as [|row rows IH]; cbn; [constructor|]. apply Forall_app. split; [|done]. unfold rowFiles.
  destruct (frIsDir row); [constructor|]. apply Forall_singleton. split; [apply below_app|]. cbn. intros E%(f_equal length). rewrite length_app in E.
  pose proof (Split_nonempty (frPath row) slash). destruct (Split _ _); [done|]. cbn in E. lia.
Qed.
Lemma jobs_inside dir b : Forall (insideDir dir) (jobsFiles dir b).
Proof. unfold jobsFiles. induction (jobFiles b) as [|job jobs IH]; cbn; [constructor|]. apply Forall_app. split; [apply bundle_inside|done]. Qed.
Lemma exported_aside root b : Forall (fun f => ~ columnPath root f.1) (exported root b).
Proof.
  unfold exported. rewrite !Forall_app. split_and!; (eapply Forall_impl; [first [apply jobs_inside|apply bundle_inside]|]);
    intros f [Hf1 Hf2]; eapply export_aside; try eassumption; unfold exportDir; auto.
Qed.
Lemma puts_exported root b w w1 w2 w3 : distinct b ->
  ExportAllJobFilesRaw events umask b (root ++ ["workspace"; "jobs"]) w = (Done tt, w1) ->
  ExportTemplateFilesRaw events umask b (root ++ ["templates"]) w1 = (Done tt, w2) ->
  ExportCommandFilesRaw events umask b (root ++ ["workspace"; "commands"]) w2 = (Done tt, w3) ->
  Forall (put (nodes (disk w3))) (exported root b) /\ (forall f, made (nodes (disk w)) f -> isFileEntry f -> columnPath root f.1 -> made (nodes (disk w3)) f).
Proof.
  intros Hd E1 E2 E3.
  assert (Hp : puts (exported root b) (ExportAllJobFilesRaw events umask b (root ++ ["workspace"; "jobs"]) ;;!
    ExportTemplateFilesRaw events umask b (root ++ ["templates"]) ;;! ExportCommandFilesRaw events umask b (root ++ ["workspace"; "commands"]))).
  { apply puts_bind; [apply puts_ExportJobs|intros []]. apply puts_bind; [apply puts_bundle|intros []]. apply puts_ExportCommands. }
  destruct (Hp (distinct_at root b Hd) _ w tt w3 eq_refl) as [P K].
  { unfold bind. by rewrite E1, E2. }
  split; [exact P|]. intros [p [mode|mode c]] Hm He Hc; [done|]. apply K; [|done]. intros Hin.
  apply list_elem_of_fmap in Hin as (f & Ef & Hin). pose proof (exported_aside root b) as Ha. rewrite Forall_forall in Ha. apply (Ha f Hin). by rewrite <- Ef.
Qed.
Lemma makes_run fs (m : M unit) w w' : makes fs m -> m w = (Done tt, w') -> Forall (made (nodes (disk w'))) fs /\ kept_but [] (nodes (disk w)) (nodes (disk w')).
Proof. intros Hm E. exact (Hm _ w tt w' eq_refl E). Qed.
Lemma made_later fs w w' : Forall isFileEntry fs -> kept_but [] (nodes (disk w)) (nodes (disk w')) -> Forall (made (nodes (disk w))) fs -> Forall (made (nodes (disk w'))) fs.
Proof. intros Hf. apply made_kept; [done|apply outside_nil]. Qed.
(** A stage that was prepared has everything, and it is synced. *)
Lemma prepareStage_done stage d0 absDB mode0 db b w w' : stage <> [] -> (forall q, q `prefix_of` stage -> q <> [] -> q <> stage -> is_Some (nodes d0 !! q)) ->
  within stage d0 (disk w) -> nodes d0 !! absDB = Some (FileNode mode0 db) -> below stage absDB = false -> openSQLite db = Some b -> distinct b ->
  prepareStage events umask sha256 openSQLite absDB stage (sha256 db) b w = (Done tt, w') ->
  complete sha256 stage b db (nodes (disk w')) /\ synced stage (disk w').
Proof.
  intros Hne Hon Hw Hdb Hout Hopen Hdis. unfold prepareStage.
  intros ([] & w1 & E1 & ([] & w2 & E2 & ([] & w3 & E3 & ([] & w4 & E4 & (h & w5 & E5 & E)%bind_done)%bind_done)%bind_done)%bind_done)%bind_done.
  assert (H3 : within stage d0 (disk w3)).
  { eapply (keeps_run _ _ w2); [by apply within_ensureDirectories| |exact E3]. eapply (keeps_run _ _ w1); [apply keeps_step| |exact E2].
    eapply (keeps_run _ _ w); [|exact Hw|exact E1]. by apply within_Chmod, below_refl. }
  unfold copyFile in E4. apply bind_done in E4 as ([] & w31 & E31 & (c & w32 & [D32 [m32 R32]]%ReadFile_done & E33)%bind_done).
  assert (H31 : within stage d0 (disk w31)).
  { eapply (keeps_run _ _ w3); [|exact H3|exact E31]. apply within_MkdirAll; [done..|]. change (stage ++ ["data"; "kive.db"]) with (stage ++ ["data"] ++ ["kive.db"]).
    rewrite app_assoc, parent_app. apply below_app. }
  assert (c = db) as ->. { destruct (H31 absDB Hout) as [Hn _]. rewrite Hn, Hdb in R32. by injection R32. }
  apply (makes_run _ _ _ _ (makes_WriteNew _ _ _ _ _)) in E33 as [M4 _].
  apply bind_done in E5 as (c5 & w51 & [D51 [m51 R51]]%ReadFile_done & [= <- <-]). destruct (negb _); [done|]. rewrite <- D51 in M4.
  apply bind_done in E as ([] & w6 & D6%step_done & ([] & w7 & E7 & ([] & w8 & D8%step_done & (live & w9 & [D9 (m9 & c9 & R9 & O9)]%payload_done & E)%bind_done)%bind_done)%bind_done).
  rewrite <- D6 in M4. apply (makes_run _ _ _ _ (makes_columns events umask _ _ _)) in E7 as [M7 K7]. apply (made_later _ w6 w7) in M4; [|by repeat constructor|exact K7].
  assert (live = b) as ->.
  { rewrite D8 in R9. rewrite Forall_singleton in M4. unfold made in M4. cbn [fst snd] in M4. rewrite M4 in R9. injection R9 as _ <-. congruence. }
  apply bind_done in E as ([] & w10 & D10%step_done & ([] & w11 & E11 & ([] & w12 & E12 & ([] & w13 & E13 & ([] & w14 & D14%step_done & E)%bind_done)%bind_done)%bind_done)%bind_done).
  destruct (puts_exported _ _ _ _ _ _ Hdis E11 E12 E13) as (P13 & K13).
  apply bind_done in E as ([] & w15 & E15 & E16). apply (makes_run _ _ _ _ (makes_WriteNew _ _ _ _ _)) in E15 as [M15 K15].
  destruct (SyncTree_done _ _ _ w15 tt w' eq_refl E16) as [N16 S16]. split; [|exact S16]. unfold complete. rewrite N16.
  assert (HD : disk w10 = disk w7) by congruence. rewrite D14 in K15. rewrite HD in K13.
  pose proof (made_columnPath stage b db) as HC. pose proof (made_entries stage b db) as HE. unfold madeFiles in HC, HE |- *. rewrite !Forall_app in HC, HE |- *.
  destruct HC as (HC1 & HC2 & _). destruct HE as (HE1 & HE2 & _). split; [split_and!; [..|exact M15]|].
  - apply (made_kept [] _ (nodes (disk w13))); [done|apply outside_nil|done|]. rewrite Forall_forall in M4, HC1, HE1 |- *. auto.
  - apply (made_kept [] _ (nodes (disk w13))); [done|apply outside_nil|done|]. fold (trustOf b) in M7. rewrite Forall_forall in M7, HC2, HE2 |- *. auto.
  - by apply (put_kept [] _ (nodes (disk w13))); [apply outside_nil|..].
Qed.
End prepared.

(** ** A restore *)

(** A disk as an operating system keeps it: what is below a directory that is
    there, and nothing to sync where nothing is. *)
Record orderly (d : Disk) : Prop := {
  closed p q : p `prefix_of` q -> p <> [] -> is_Some (nodes d !! q) -> is_Some (nodes d !! p);
  clean p : p ∈ dirty d -> p <> [] -> is_Some (nodes d !! p);
}.
Lemma nothing_below d p q : orderly d -> p <> [] -> nodes d !! p = None -> below p q = true -> nodes d !! q = None /\ q ∉ dirty d.
Proof.
  intros [Hc Hd] Hp Hn Hq%below_true. assert (Hq0 : q <> []) by (intros ->; by apply prefix_nil_inv in Hq).
  assert (E : nodes d !! q = None) by (apply eq_None_not_Some; intros Hs; destruct (Hc p q Hq Hp Hs) as [x Hx]; congruence).
  split; [done|]. intros Hin. destruct (Hd q Hin Hq0) as [x Hx]. congruence.
Qed.
Section plainly.
Context `{Unicode} (events : nat -> Event) (umask : Z) (sha256 : Content -> string) (openSQLite : Content -> option Backup).
Lemma plainly_ret {A} (a : A) : plainly (ret a). Proof. done. Qed.
Lemma plainly_fail {A} s : plainly (@fail A (Message s)). Proof. done. Qed.
Lemma plainly_forM {A} (l : list A) f : (forall x, plainly (f x)) -> plainly (forM l f).
Proof. intros Hf. induction l as [|x l IH]; [done|]. apply plainly_bind; [apply Hf|intros _; exact IH]. Qed.
Lemma plainly_CopyNew p c mode : plainly (CopyNew events umask p c mode).
Proof.
  unfold CopyNew. apply plainly_bind; [apply plainly_sys|intros []]. apply plainly_bind; [apply plainly_sys|intros []].
  apply plainly_onFailure. repeat first [apply plainly_bind; [apply plainly_sys|intros []]|apply plainly_sys].
Qed.
Lemma plainly_row dir row : plainly (exportRow events umask dir row).
Proof. unfold exportRow. destruct (frIsDir row); [apply plainly_sys|]. apply plainly_bind; [|intros []]; apply plainly_sys. Qed.
Lemma plainly_bundle dir rows : plainly (forM rows (exportBundleRow events umask dir)).
Proof. apply plainly_forM. intros row. unfold exportBundleRow. destruct (negb _); [done|apply plainly_row]. Qed.
Lemma plainly_columns root m trust : plainly (writeRestoreTree events umask root m trust).
Proof.
  unfold writeRestoreTree, WriteNew, optional. repeat (apply plainly_bind; [repeat case_match; first [done|apply plainly_CopyNew]|intros []]).
  unfold writeBucketJobsConfs. destruct (BucketJobsConfs m); [|done]. apply plainly_forM. intros f. unfold writeJobsConf. destruct (negb _); [done|apply plainly_CopyNew].
Qed.
Lemma plainly_payload p : plainly (readRestorePayload events openSQLite p).
Proof.
  apply plainly_bind; [apply plainly_sys|intros []]. apply plainly_bind; [apply plainly_sys|intros c]. destruct (openSQLite c); [|done].
  apply plainly_bind; [apply plainly_sys|done].
Qed.
Lemma plainly_SyncTree root : plainly (SyncTree events root).
Proof.
  apply plainly_bind; [apply plainly_sys|intros l]. apply plainly_bind; [|intros []]; apply plainly_forM; intros x;
    repeat first [apply plainly_bind; [apply plainly_sys|intros []]|apply plainly_sys].
Qed.
Lemma plainly_prepareStage absDB stage h b : plainly (prepareStage events umask sha256 openSQLite absDB stage h b).
Proof.
  unfold prepareStage. apply plainly_bind; [apply plainly_sys|intros []]. apply plainly_bind; [apply plainly_sys|intros []].
  apply plainly_bind; [|intros []].
  { apply plainly_bind; [apply plainly_forM; intros x; apply plainly_sys|intros []]. apply plainly_bind; [apply plainly_sys|intros [n|]; [done|apply plainly_CopyNew]]. }
  apply plainly_bind; [|intros []].
  { apply plainly_bind; [apply plainly_sys|intros []]. apply plainly_bind; [apply plainly_sys|intros c]. apply plainly_CopyNew. }
  apply plainly_bind; [apply plainly_bind; [apply plainly_sys|done]|intros h']. destruct (negb _); [done|].
  apply plainly_bind; [apply plainly_sys|intros []]. apply plainly_bind; [apply plainly_columns|intros []]. apply plainly_bind; [apply plainly_sys|intros []].
  apply plainly_bind; [apply plainly_payload|intros live]. apply plainly_bind; [apply plainly_sys|intros []]. apply plainly_bind; [|intros []].
  { apply plainly_bind; [apply plainly_sys|intros []]. apply plainly_forM. intros job. apply plainly_forM. intros row. unfold exportJobRow.
    destruct (negb _); [done|]. destruct (_ && _); [done|apply plainly_row]. }
  apply plainly_bind; [apply plainly_bundle|intros []]. apply plainly_bind; [|intros []].
  { unfold ExportCommandFilesRaw. destruct (commandFiles live); [apply plainly_bundle|done]. }
  apply plainly_bind; [apply plainly_sys|intros []]. apply plainly_bind; [apply plainly_CopyNew|intros []]. apply plainly_SyncTree.
Qed.
Lemma plainly_RemoveTree stage : plainly (RemoveTree events stage).
Proof. unfold RemoveTree, syncDirWithHook. repeat first [apply plainly_bind; [apply plainly_sys|intros []]|apply plainly_sys]. Qed.
End plainly.

Section restore.
Context `{Unicode} (events : nat -> Event) (umask : Z) (cwd : Path) (sha256 : Content -> string) (openSQLite : Content -> option Backup).
Context (absDB absOut : Path) (d0 : Disk) (order : orderly d0) (out_proper : absOut <> []) (out_absent : nodes d0 !! absOut = None).
Context (rows_distinct : forall mode db b, nodes d0 !! absDB = Some (FileNode mode db) -> openSQLite db = Some b -> distinct b).
Definition stageName (t : Path) : Prop := parent t = parent absOut /\ exists x, base t = "." +:+ base absOut +:+ ".restore-" +:+ x.
(** Everything but the output and the stages. *)
Definition aside (d : Disk) : Prop := forall p, below absOut p = false -> (forall t, stageName t -> below t p = false) -> nodes d !! p = nodes d0 !! p.
Definition absent (d : Disk) : Prop := forall p, below absOut p = true -> nodes d !! p = None.
(** The output is the whole backup, and nothing of it waits for a sync. *)
Definition restored (d : Disk) : Prop := exists mode db b, nodes d0 !! absDB = Some (FileNode mode db) /\ openSQLite db = Some b
  /\ complete sha256 absOut b db (nodes d) /\ synced absOut d.
Lemma complete_moved stage b db d : (forall q, below absOut q = true -> nodes d !! q = None) -> complete sha256 stage b db (nodes d) ->
  complete sha256 absOut b db (nodes (moved stage absOut d)).
Proof.
  intros Hfree. unfold complete. rewrite (madeFiles_shift sha256 stage), (madeFiles_shift sha256 absOut), (exported_shift stage), (exported_shift absOut), !Forall_map.
  intros [H1 H2]. split; (eapply Forall_impl; [eassumption|]).
  - intros f. unfold made, shift. cbn [fst snd]. by rewrite moved_in.
  - intros f [mode E]. exists mode. revert E. unfold shift. cbn [fst snd]. by rewrite moved_in.
Qed.
Lemma stage_proper t : stageName t -> t <> [].
Proof. intros (_ & x & E) ->. cbn in E. discriminate E. Qed.
Lemma stage_ne t : stageName t -> t <> absOut.
Proof. intros (_ & x & E) ->. apply (f_equal String.length) in E. rewrite !slen_app in E. cbn in E. lia. Qed.
Lemma siblings_apart t p : stageName t -> below absOut p = true -> below t p = false.
Proof.
  intros Ht [r ->]%below_true. apply not_true_iff_false. intros [r' E]%below_true. pose proof (stage_ne t Ht) as Hne.
  pose proof (stage_proper t Ht) as Hnil. destruct Ht as [Hp _]. rewrite (parent_base t) in E by done. rewrite (parent_base absOut out_proper), <- !app_assoc, Hp in E. apply app_inv_head in E. cbn in E.
  injection E as E _. apply Hne. rewrite (parent_base absOut out_proper), (parent_base t), Hp, E; done.
Qed.

Section staged.
Context (stage : Path) (named : stageName stage) (fresh : nodes d0 !! stage = None) (in_dir : isDir d0 (parent stage) = true).
Context (mode0 : Z) (db : Content) (b : Backup) (source : nodes d0 !! absDB = Some (FileNode mode0 db)) (reads : openSQLite db = Some b).
Notation W := (within stage d0).
Lemma stage_on_disk q : q `prefix_of` stage -> q <> [] -> q <> stage -> is_Some (nodes d0 !! q).
Proof.
  intros Hq Hne Hqs. pose proof (stage_proper stage named) as Hs. destruct Hq as [r E]. destruct r as [|x r _] using rev_ind; [by rewrite app_nil_r in E|].
  rewrite app_assoc in E. assert (Hp : parent stage = q ++ r) by (by rewrite E, parent_app). apply (closed _ order q (parent stage)); [by exists r|done|].
  unfold isDir in in_dir. destruct (parent stage) as [|y l]; [by destruct q|]. by destruct (nodes d0 !! (y :: l)) as [[]|].
Qed.
Lemma source_aside : below stage absDB = false.
Proof.
  apply not_true_iff_false. intros Hb. destruct (nothing_below d0 stage absDB order (stage_proper _ named) fresh Hb) as [E _]. by rewrite source in E.
Qed.
Lemma within_free d : W d -> forall q, below absOut q = true -> nodes d !! q = None /\ q ∉ dirty d.
Proof.
  intros Hw q Hq. destruct (Hw q (siblings_apart stage q named Hq)) as [H1 H2]. destruct (nothing_below d0 absOut q order out_proper out_absent Hq) as [E1 E2].
  rewrite H1. split; [done|]. rewrite H2; [done|]. intros ->. apply below_true in Hq as [r E]. apply (f_equal length) in E. rewrite (proj1 named) in E.
  pose proof (f_equal length (parent_base absOut out_proper)) as E'. rewrite length_app in E, E'. cbn in E'. lia.
Qed.
Lemma within_aside d : W d -> aside d /\ absent d.
Proof. intros Hw. split; [intros p _ Hp; by apply Hw, Hp|]. intros p Hp. by apply within_free. Qed.
Definition installed {A} (r : Outcome A) (d : Disk) : Prop := restored d /\ aside d
  /\ match r with Done _ => parent absOut ∉ dirty d | Failed e => Installed e = true | Dead => True end.
Definition uninstalled {A} (r : Outcome A) : Prop := match r with Done _ => False | Failed e => Installed e = false | Dead => True end.
Lemma buildStage_cases w : W (disk w) -> exists r w', buildStage events umask sha256 openSQLite absDB absOut stage (sha256 db) b w = (r, w')
  /\ (W (disk w') /\ uninstalled r \/ installed r (disk w')).
Proof.
  intros Hw. unfold buildStage. rewrite bind_cases. pose proof (stage_proper _ named) as Hne.
  pose proof (within_prepareStage events umask sha256 openSQLite stage d0 Hne stage_on_disk absDB (sha256 db) b w Hw) as Hk.
  pose proof (plainly_prepareStage events umask sha256 openSQLite absDB stage (sha256 db) b w) as Hpl.
  destruct (prepareStage _ _ _ _ _ _ _ _ w) as [[[]|e|] w1] eqn:E; cbn in Hk; [|do 2 eexists; split; [done|by left]..].
  apply (prepareStage_done events umask sha256 openSQLite stage d0 absDB mode0 db b w w1 Hne stage_on_disk Hw source source_aside reads (rows_distinct _ _ _ source reads)) in E as [Hc Hs].
  destruct (CommitDir_cases events stage absOut w1 (proj1 named)) as (r & w2 & E2 & H2). exists r, w2. split; [exact E2|].
  destruct H2 as [[-> H2]|(_ & _ & _ & [N2 D2] & Hr)]; [by left|right]. pose proof (within_free _ Hk) as Hfree.
  split; [|split; [|exact Hr]].
  - exists mode0, db, b. rewrite N2. split_and!; [done|done|apply complete_moved; [intros q Hq; by apply Hfree|done]|].
    intros p Hp Hex. rewrite N2 in Hex. rewrite D2.
    + apply (moved_synced stage absOut (disk w1)); [intros q Hq; by apply Hfree|intros q Hq; by apply Hfree|done..].
    + intros ->. apply below_true in Hp as [l El]. apply (f_equal length) in El. pose proof (f_equal length (parent_base absOut out_proper)) as E'.
      rewrite length_app in El, E'. cbn in E'. lia.
  - intros p Hp Ht. rewrite N2, moved_out by (first [done|by apply Ht|intros q Hq; by apply Hfree]). by apply Hk, Ht.
Qed.
Lemma cleanupStage_cases w : W (disk w) -> exists r w', cleanupStage events stage (buildStage events umask sha256 openSQLite absDB absOut stage (sha256 db) b) w = (r, w')
  /\ (aside (disk w') /\ absent (disk w') /\ uninstalled r /\ (forall e, r = Failed e -> (forall x y, e <> Joined x y) -> forall p, nodes (disk w') !! p = nodes d0 !! p)
      \/ installed r (disk w')).
Proof.
  intros Hw. destruct (buildStage_cases w Hw) as (r & w1 & E & H1). unfold cleanupStage. rewrite E.
  destruct H1 as [[W1 U1]|I1]; [|exists r, w1; split; [|by right]; destruct r as [|e|]; [done| |done]; destruct I1 as (_ & _ & ->); done].
  destruct r as [a|e|]; [done| |]; [|exists Dead, w1; split; [done|left]; destruct (within_aside _ W1); by split_and!].
  cbn in U1. rewrite U1. pose proof (within_RemoveTree stage d0 (stage_proper _ named) events w1 W1) as Hk.
  pose proof (RemoveTree_done events stage w1) as Hy. destruct (RemoveTree events stage w1) as [[[]|c|] w2] eqn:E2; cbn in Hk; do 2 eexists; (split; [done|left]);
    destruct (within_aside _ Hk); split_and!; try done.
  - intros e' [= <-] _ p. destruct (below stage p) eqn:Ep; [|by apply Hk]. rewrite (Hy tt w2 I eq_refl p Ep).
    symmetry. by apply (nothing_below d0 stage p order (stage_proper _ named) fresh Ep).
  - pose proof (plainly_RemoveTree events stage w1) as Hpl. rewrite E2 in Hpl. cbn. by rewrite U1, Hpl.
  - intros e' [= <-] Hj. by destruct (Hj e c).
Qed.
End staged.

Lemma look_run {A} (m : M A) w : plainly m -> (forall I, keeps I m) -> exists r w', m w = (r, w') /\ disk w' = disk w /\ (uninstalled r \/ exists a, r = Done a).
Proof.
  intros Hp Hk. specialize (Hp w). specialize (Hk (fun d => d = disk w) w eq_refl). destruct (m w) as [[a|e|] w'] eqn:E; do 2 eexists; (split; [done|split; [exact Hk|]]); eauto.
Qed.
Definition outcome {A} (r : Outcome A) (d : Disk) : Prop := aside d /\ absent d /\ uninstalled r /\ (forall e, r = Failed e -> (forall x y, e <> Joined x y) -> forall p, nodes d !! p = nodes d0 !! p)
  \/ installed r d.
Lemma outcome_start {A} (r : Outcome A) : uninstalled r -> outcome r d0.
Proof. intros Hr. left. split_and!; [by intros p| |done|done]. intros p Hp. by apply (nothing_below d0 absOut p). Qed.
(** What a program leaves from the untouched disk. *)
Definition starts {A} (m : M A) : Prop := forall w, disk w = d0 -> outcome (m w).1 (disk (m w).2).
Lemma starts_bind {A B} (Q : A -> Prop) (m : M A) (f : A -> M B) : plainly m -> (forall I, keeps I m) ->
  (forall a w w', disk w = d0 -> m w = (Done a, w') -> Q a) -> (forall a, Q a -> starts (f a)) -> starts (bind m f).
Proof.
  intros Hp Hk HQ Hf w Hw. unfold bind. destruct (look_run m w Hp Hk) as (r & w1 & E & Hd & Hr). rewrite E. rewrite Hw in Hd. destruct r as [a|e|].
  - apply (Hf a); [by apply (HQ a w w1)|done].
  - cbn. rewrite Hd. apply outcome_start. by destruct Hr as [Hr|[a Ha]].
  - cbn. rewrite Hd. by apply outcome_start.
Qed.
Lemma starts_fail {A} s : starts (@fail A (Message s)).
Proof. intros w Hw. cbn. rewrite Hw. by apply outcome_start. Qed.
Lemma starts_invalid m e : validateRestoreMaterial m = Some e -> starts (@fail unit e).
Proof. unfold validateRestoreMaterial. repeat case_match; intros [= <-]; apply starts_fail. Qed.
Lemma starts_MkdirTemp (suffixes : list string) (f : Path -> M unit) :
  (forall t w, stageName t -> nodes d0 !! t = None -> isDir d0 (parent t) = true -> within t d0 (disk w) -> outcome (f t w).1 (disk (f t w).2)) ->
  starts (bind (MkdirTemp events umask (parent absOut) (map (fun x => "." +:+ base absOut +:+ ".restore-" +:+ x) suffixes)) f).
Proof.
  intros Hf w Hw. rewrite bind_cases. unfold MkdirTemp.
  match goal with |- context [sys events ?full untouched w] => destruct (sys_cases events full w) as (r & w1 & -> & H1) end.
  destruct H1 as [[H1 Hr]|(t & d & Hd & H1 & ->)].
  { rewrite Hw in H1. destruct r; [done|..]; cbn; rewrite H1; by apply outcome_start. }
  rewrite Hw in Hd. destruct (freshName _ _ _) as [name|] eqn:En; [|done]. destruct (isDir d0 (parent absOut)) eqn:Ei; [|done]. injection Hd as <- <-.
  unfold freshName in En. apply head_Some_elem_of, elem_of_list_filter_b in En as [En Hn]. apply list_elem_of_fmap in En as (x & -> & _).
  apply negb_true_iff, bool_decide_eq_false in Hn. apply eq_None_not_Some in Hn.
  assert (Ht : stageName (parent absOut ++ ["." +:+ base absOut +:+ ".restore-" +:+ x])) by (split; [apply parent_app|exists x; apply base_app]).
  apply Hf; [done|done|by rewrite parent_app|]. rewrite H1. pose proof (stage_proper _ Ht) as Hne. apply within_touch; [done|right; by rewrite parent_app|].
  apply within_set; [done|apply below_refl|]. by intros q.
Qed.
Lemma outcome_cases {A} (r : Outcome A) d : outcome r d -> aside d /\ match r with
  | Done _ => restored d /\ parent absOut ∉ dirty d
  | Failed e => if Installed e then restored d else absent d /\ match e with Joined _ _ => True | _ => forall p, nodes d !! p = nodes d0 !! p end
  | Dead => restored d \/ absent d
  end.
Proof.
  intros [(H1 & H2 & H3 & H4)|(H1 & H2 & H3)].
  - split; [done|]. destruct r as [a|e|]; [done| |by right]. cbn in H3. rewrite H3. split; [done|]. specialize (H4 e eq_refl).
    destruct e; try exact I; by apply H4.
  - split; [done|]. destruct r as [a|e|]; [done| |by left]. by rewrite H3.
Qed.
Lemma Restore_starts dbFile outputDir suffixes : Abs cwd (TrimSpace dbFile) = absDB -> Abs cwd outputDir = absOut ->
  starts (Restore events umask cwd sha256 openSQLite dbFile outputDir suffixes).
Proof.
  intros ED EO. unfold Restore. cbv zeta. rewrite ED, EO. destruct (String.eqb _ ""); [apply starts_fail|]. destruct (blank outputDir); [apply starts_fail|].
  apply (starts_bind (fun _ => True)); [apply plainly_sys|intros I; apply keeps_step|done|intros [] _].
  apply (starts_bind (fun _ => True)); [apply plainly_sys|intros I; apply keeps_Lstat|done|intros src _]. destruct (negb _); [apply starts_fail|].
  apply (starts_bind (fun _ => True)); [apply plainly_sys|intros I; apply keeps_Lstat|done|intros par _]. destruct (negb _); [apply starts_fail|].
  apply (starts_bind (fun h => exists mode db, nodes d0 !! absDB = Some (FileNode mode db) /\ h = sha256 db));
    [apply plainly_bind; [apply plainly_sys|done]|intros I; apply keeps_hashFile| |].
  { intros h w w' Hw (c & w1 & [_ [mode E]]%ReadFile_done & [= <- _])%bind_done. exists mode, c. by rewrite <- Hw. }
  intros h (mode0 & db & Edb & ->). apply (starts_bind (fun r => r = None)); [apply plainly_sys|intros I; apply keeps_Lstat| |].
  { intros r w w' Hw. unfold Lstat, sys. rewrite decide_False by done. rewrite Hw, out_absent. destruct (events _); [|done..]. by intros [= ->]. }
  intros r ->. apply (starts_bind (fun _ => True)); [apply plainly_sys|intros I; apply keeps_step|done|intros [] _].
  apply (starts_bind (fun b => openSQLite db = Some b)); [apply plainly_payload|intros I; apply keeps_payload| |].
  { intros b w w' Hw (_ & mode & c & E & Ho)%payload_done. rewrite Hw, Edb in E. by injection E as _ ->. }
  intros b Eb. destruct (validateRestoreMaterial _) eqn:Ev; [by apply (starts_invalid (material b))|].
  apply (starts_bind (fun _ => True)); [apply plainly_sys|intros I; apply keeps_step|done|intros [] _].
  apply (starts_bind (fun _ => True)); [apply plainly_sys|intros I; apply keeps_step|done|intros [] _].
  apply starts_MkdirTemp. intros t w Ht Hn Hi Hw. destruct (cleanupStage_cases t Ht Hn Hi mode0 db b Edb Eb w Hw) as (r & w' & -> & Hr). exact Hr.
Qed.
End restore.

(** C12: Whatever call of a restore fails or is the last one, the output is
    absent or is the whole backup, synced; nothing else changes but trees under
    names of their own, and a failure that could clean up leaves no trace. A
    restore that succeeds has synced the directory of its output too. *)
Theorem Restore_atomic `{Unicode} events umask cwd sha256 openSQLite dbFile outputDir suffixes w :
  let d0 := disk w in
  let absDB := Abs cwd (TrimSpace dbFile) in
  let absOut := Abs cwd outputDir in
  orderly d0 -> absOut <> [] -> nodes d0 !! absOut = None ->
  (forall mode db b, nodes d0 !! absDB = Some (FileNode mode db) -> openSQLite db = Some b -> distinct b) ->
  let '(r, w') := Restore events umask cwd sha256 openSQLite dbFile outputDir suffixes w in
  aside absOut d0 (disk w') /\ match r with
  | Done _ => restored sha256 openSQLite absDB absOut d0 (disk w') /\ parent absOut ∉ dirty (disk w')
  | Failed e =>
      if Installed e then restored sha256 openSQLite absDB absOut d0 (disk w')
      else absent absOut (disk w') /\ match e with Joined _ _ => True | _ => forall p, nodes (disk w') !! p = nodes d0 !! p end
  | Dead => restored sha256 openSQLite absDB absOut d0 (disk w') \/ absent absOut (disk w')
  end.
Proof.
  intros d0 absDB absOut Ho Hp Ha Hd.
  pose proof (Restore_starts events umask cwd sha256 openSQLite absDB absOut d0 Ho Hp Ha Hd dbFile outputDir suffixes eq_refl eq_refl w eq_refl) as Hs.
  destruct (Restore _ _ _ _ _ _ _ _ w) as [r w']. cbn [fst snd] in Hs. by apply outcome_cases in Hs.
Qed.

(** ** An output that is there *)

Section again.
Context `{Unicode} (events : nat -> Event) (umask : Z) (cwd : Path) (sha256 : Content -> string) (openSQLite : Content -> option Backup).
Lemma keeps_nodes_Fsync N p : keeps (fun d => nodes d = N) (Fsync events p).
Proof. by apply keeps_Fsync. Qed.
Lemma keeps_nodes_SyncTree N root : keeps (fun d => nodes d = N) (SyncTree events root).
Proof.
  unfold SyncTree. apply keeps_bind; [apply keeps_Walk|intros l]. apply keeps_bind; [|intros []]; apply keeps_forM; intros x _; unfold SyncDir;
    repeat first [apply keeps_bind; [|intros []]|apply keeps_step|apply keeps_Open|apply keeps_nodes_Fsync].
Qed.
Lemma keeps_nodes_existing N out h : keeps (fun d => nodes d = N) (completeExistingRestore events out h).
Proof.
  unfold completeExistingRestore. apply keeps_bind.
  - intros w Hw. pose proof (keeps_ReadFile events (fun d => nodes d = N) (out ++ [restoreManifestName]) w Hw) as Hk. by destruct (ReadFile _ _ w) as [[]].
  - intros c. repeat case_match; try apply keeps_fail. apply keeps_bind; [apply keeps_nodes_SyncTree|intros []]. unfold SyncDir.
    repeat first [apply keeps_bind; [|intros []]|apply keeps_step|apply keeps_Open|apply keeps_nodes_Fsync].
Qed.
Lemma existing_done out h w w' : completeExistingRestore events out h w = (Done tt, w') ->
  (exists mode schema, nodes (disk w) !! (out ++ [restoreManifestName]) = Some (FileNode mode (Manifest 1 h schema))) /\ synced out (disk w').
Proof.
  unfold completeExistingRestore. cbv zeta. intros (c & w1 & E1 & E)%bind_done. destruct (ReadFile _ _ w) as [r1 w1'] eqn:Er. destruct r1 as [c'|e|]; [|done..].
  injection E1 as -> ->. apply ReadFile_done in Er as [D1 [mode R1]]. destruct c as [s|v sh sv|]; [done| |done]. destruct v as [|[]|]; try done.
  destruct (String.eqb_spec sh h) as [->|]; [|done]. cbn [negb] in E. apply bind_done in E as ([] & w2 & E2 & E3).
  destruct (SyncTree_done _ _ _ w1 tt w2 eq_refl E2) as [N2 S2]. split; [by exists mode, sv|].
  intros p Hp Hex Hd. assert (Hk : keeps (fun d => nodes d = nodes (disk w1) /\ dirty d ⊆ dirty (disk w2)) (SyncDir events (parent out))).
  { unfold SyncDir. repeat first [apply keeps_bind; [|intros []]|apply keeps_step|apply keeps_Open]. apply keeps_Fsync. intros d [H1 H2]. split; [done|]. cbn. set_solver. }
  destruct (keeps_run _ _ w2 _ w' Hk (conj N2 (reflexivity _)) E3) as [N3 D3]. apply (S2 p Hp); [by rewrite N2, <- N3|by apply D3].
Qed.
Context (dbFile outputDir : string) (N : Tree) (n : Node) (out_proper : Abs cwd outputDir <> []) (out_there : N !! Abs cwd outputDir = Some n).
Notation absDB := (Abs cwd (TrimSpace dbFile)).
Notation absOut := (Abs cwd outputDir).
Notation I := (fun d => nodes d = N).
Notation run suffixes := (Restore events umask cwd sha256 openSQLite dbFile outputDir suffixes).
Lemma again_keeps suffixes : keeps I (run suffixes).
Proof.
  unfold Restore. cbv zeta. destruct (String.eqb _ ""); [apply keeps_fail|]. destruct (blank outputDir); [apply keeps_fail|].
  apply keeps_bind; [apply keeps_step|intros []]. apply keeps_bind; [apply keeps_Lstat|intros src]. destruct (negb _); [apply keeps_fail|].
  apply keeps_bind; [apply keeps_Lstat|intros par]. destruct (negb _); [apply keeps_fail|]. apply keeps_bind; [apply keeps_hashFile|intros h].
  unfold Lstat at 1. apply keeps_bind_look; [by intros d a d' [= _ ->]|]. intros d a Hd [= <-]. rewrite decide_False, Hd, out_there by done. apply keeps_nodes_existing.
Qed.
Lemma again_yields suffixes : yields I (run suffixes) (fun _ d => exists mode db mode' schema, N !! absDB = Some (FileNode mode db)
  /\ N !! (absOut ++ [restoreManifestName]) = Some (FileNode mode' (Manifest 1 (sha256 db) schema)) /\ synced absOut d).
Proof.
  unfold Restore. cbv zeta. destruct (String.eqb _ ""); [by intros w a w'|]. destruct (blank outputDir); [by intros w a w'|].
  eapply yields_bind; [apply yields_step|intros []]. eapply yields_bind; [apply Lstat_done|intros src]. destruct (negb _); [by intros w a w'|].
  eapply (yields_bind _ (fun _ => I)); [intros w a w' [Hw _] E; exact (proj1 (Lstat_done events _ N w a w' Hw E))|intros par]. destruct (negb _); [by intros w a w'|].
  apply (yields_bind _ (fun h d => nodes d = N /\ exists mode db, N !! absDB = Some (FileNode mode db) /\ h = sha256 db)).
  { intros w h w' Hw (c & w1 & [D1 [mode R1]]%ReadFile_done & [= <- <-])%bind_done. rewrite D1. split; [done|]. exists mode, c. by rewrite <- Hw. }
  intros h. apply (yields_bind _ (fun r d => (nodes d = N /\ exists mode db, N !! absDB = Some (FileNode mode db) /\ h = sha256 db) /\ r = Some n)).
  { apply yields_sys. intros d a d' [Hd Hh] [= <- <-]. split; [done|]. by rewrite decide_False, Hd by done. }
  intros r w a w' [[Hw (mode & db & Hdb & ->)] ->] E. destruct a. apply existing_done in E as [(mode' & schema & E) Hs]. exists mode, db, mode', schema.
  rewrite Hw in E. done.
Qed.
End again.
(** A restore whose output is there changes no file. It succeeds only when the
    output is one of a restore of the same backup, and syncs it again. *)
Theorem Restore_again `{Unicode} events umask cwd sha256 openSQLite dbFile outputDir suffixes w n :
  let absDB := Abs cwd (TrimSpace dbFile) in
  let absOut := Abs cwd outputDir in
  absOut <> [] -> nodes (disk w) !! absOut = Some n ->
  let '(r, w') := Restore events umask cwd sha256 openSQLite dbFile outputDir suffixes w in
  nodes (disk w') = nodes (disk w) /\ match r with
  | Done _ => exists mode db mode' schema, nodes (disk w) !! absDB = Some (FileNode mode db)
      /\ nodes (disk w) !! (absOut ++ [restoreManifestName]) = Some (FileNode mode' (Manifest 1 (sha256 db) schema)) /\ synced absOut (disk w')
  | _ => True
  end.
Proof.
  intros absDB absOut Hne Hn.
  pose proof (again_keeps events umask cwd sha256 openSQLite dbFile outputDir (nodes (disk w)) n Hne Hn suffixes w eq_refl) as Hk.
  pose proof (again_yields events umask cwd sha256 openSQLite dbFile outputDir (nodes (disk w)) n Hne Hn suffixes w) as Hy.
  destruct (Restore _ _ _ _ _ _ _ _ w) as [[[]|e|] w'] eqn:E; cbn in Hk; (split; [done|]); [|done..]. by apply (Hy tt w').
Qed.
