(* ===== verification/SnapshotBackup.v ===== *)
(** * snapshot: the backups on a worker

    snapshot/backup.go and snapshot/list.go: the names of backups and which of
    them are kept. A worker's directory of backups is the list of its names;
    the commands that list, copy and remove are what they do to it. *)
From S2P Require Import Prelude GoStrings Utils PathMatch Versions JobTree.
Open Scope Z_scope.

Definition backupFilePrefix : string := "kive-".
Definition backupFileSuffix : string := ".db".
Definition newline : ascii := byte_of 10.
Definition backupFileName (generation : Z) : string := backupFilePrefix +:+ Itoa generation +:+ backupFileSuffix.
Definition backupLike (base : string) : bool := HasPrefix base backupFilePrefix && HasSuffix base backupFileSuffix.
Definition parseBackupSeq (name : string) : option Z :=
  let base := path_Base name in
  if negb (backupLike base) then None
  else
    let mid := TrimSuffix (TrimPrefix base backupFilePrefix) backupFileSuffix in
    if String.eqb mid "" then None
    else if existsb (fun r => (r <? 48) || (r >? 57)) (runes mid) then None
    else Atoi mid.
(** The highest generation first, then the greater name. *)
Definition seqName : Type := Z * string.
Definition newer_eq (a b : seqName) : Prop := b.1 < a.1 \/ a.1 = b.1 /\ String.le b.2 a.2.
#[export] Instance newer_eq_dec a b : Decision (newer_eq a b).
Proof. unfold newer_eq. apply _. Defined.
Definition seqFiles (names : list string) : list seqName := omap (fun name => (fun seq => (seq, name)) <$> parseBackupSeq name) names.
Definition unnumbered (name : string) : bool := match parseBackupSeq name with Some _ => false | None => backupLike (path_Base name) end.
Definition backupFilesToDelete (names : list string) (keep : Z) : list string :=
  if keep <=? 0 then []
  else List.filter unnumbered names ++ map snd (drop (Z.to_nat keep) (merge_sort newer_eq (seqFiles names))).

Section worker.
Context `{Unicode}.
(** The backups in the output of [ls -1]. *)
Definition listRemoteBackupNames (out : string) : list string :=
  List.filter backupLike (map path_Base (List.filter nonempty_string (map TrimSpace (Split out newline)))).
(** The output of [ls -1] and what [rm -f] leaves. *)
Definition listing (files : list string) : string := foldr (fun name out => name +:+ String newline out) "" files.
Definition removeFiles (files toDelete : list string) : list string := List.filter (fun name => negb (bool_decide (name ∈ toDelete))) files.
(** [rsync] copies the snapshot over the file of that name. *)
Definition copied (name : string) (files : list string) : list string := if bool_decide (name ∈ files) then files else files ++ [name].
(** The commands on a worker; the first that fails ends its turn. *)
Inductive Action := Mkdir | Rsync | Ls | Rm.
Notation Workers := (gmap string (list string)).
(** What can go wrong on a worker: a command that fails, a copy that fails
    after it has put the file there, an [ls] whose own failure the command
    line hides, the operands that a failing [rm] has removed, and the end of
    the context before the worker's turn or after a command of it failed. *)
Record Faults := mkFaults {
  fails : string -> Action -> bool;
  torn : string -> bool;
  unreadable : string -> bool;
  gone : string -> string -> bool;
  endedBefore : string -> bool;
  endedAfter : string -> bool;
}.
Variable fs : Faults.
Definition listed (workerIP : string) (files : list string) : list string :=
  listRemoteBackupNames (if unreadable fs workerIP then "" else listing files).
Definition pruneRemoteBackups (workerIP : string) (retentionCount : Z) (files : list string) : option Action * list string :=
  if retentionCount <=? 0 then (None, files)
  else if fails fs workerIP Ls then (Some Ls, files)
  else
    let toDelete := backupFilesToDelete (listed workerIP files) retentionCount in
    if bool_decide (toDelete = []) then (None, files)
    else if fails fs workerIP Rm then (Some Rm, removeFiles files (List.filter (gone fs workerIP) toDelete))
    else (None, removeFiles files toDelete).
Definition pushAndPrune (workerIP remoteName : string) (retentionCount : Z) (files : list string) : option Action * list string :=
  if fails fs workerIP Mkdir then (Some Mkdir, files)
  else if fails fs workerIP Rsync then (Some Rsync, if torn fs workerIP then copied remoteName files else files)
  else pruneRemoteBackups workerIP retentionCount (copied remoteName files).

(** The error of the context, or the errors of the workers joined; none of
    them is success. *)
Inductive backup_result := ContextEnded | Joined (errs : list (string * Action)).
Fixpoint backupLoop (remoteName : string) (retentionCount : Z) (errs : list (string * Action)) (w : Workers) (targets : list string)
    : backup_result * Workers :=
  match targets with
  | [] => (Joined errs, w)
  | workerIP :: targets =>
      if endedBefore fs workerIP then (ContextEnded, w)
      else
        let '(err, files) := pushAndPrune workerIP remoteName retentionCount (default [] (w !! workerIP)) in
        let w := <[workerIP := files]> w in
        match err with
        | Some a =>
            if endedAfter fs workerIP then (ContextEnded, w)
            else backupLoop remoteName retentionCount (errs ++ [(workerIP, a)]) w targets
        | None => backupLoop remoteName retentionCount errs w targets
        end
  end.
Definition Backup (generation retentionCount : Z) (targets : list string) (w : Workers) : backup_result * Workers :=
  backupLoop (backupFileName generation) retentionCount [] w targets.

(** The backups that are listed, the highest generation first. *)
Record Entry := mkEntry { enWorkerIP : string; enName : string; enGeneration : Z }.
Definition entry_le (a b : Entry) : Prop :=
  enGeneration b < enGeneration a \/ enGeneration a = enGeneration b /\ (enName a <> enName b /\ String.le (enName b) (enName a) \/ enName a = enName b /\ String.le (enWorkerIP a) (enWorkerIP b)).
#[export] Instance entry_le_dec a b : Decision (entry_le a b).
Proof. unfold entry_le. apply _. Defined.
Definition entryOf (workerIP name : string) : Entry := mkEntry workerIP name (default 0 (parseBackupSeq name)).
Definition List_ (targets : list string) (w : Workers) : list Entry * list (string * Action) :=
  (merge_sort entry_le (concat (map (fun ip => if fails fs ip Ls then [] else map (entryOf ip) (listed ip (default [] (w !! ip)))) targets)),
   map (fun ip => (ip, Ls)) (List.filter (fun ip => fails fs ip Ls) targets)).
End worker.

(** ** snapshot: the backups that are kept

    A worker keeps the newest backups, as many as it is told to, and no other
    file of it is removed. *)

(** ** The first of a sorted list *)

Section rank.
Context {A} `{EqDecision A} (R : relation A) `{!forall x y, Decision (R x y)} `{!PartialOrder R} `{!Total R}.
Definition before (l : list A) (x : A) : list A := filter (fun y => R y x /\ y <> x) l.
Lemma sorted_split l1 x l2 : StronglySorted R (l1 ++ x :: l2) -> Forall (fun y => R y x) l1 /\ Forall (R x) l2.
Proof.
  induction l1 as [|y l1 IH]; cbn; intros Hs; apply StronglySorted_inv in Hs as [Hs Hy]; [by split|].
  destruct (IH Hs) as [H1 H2]. split; [|done]. constructor; [|done]. rewrite Forall_forall in Hy. apply Hy, elem_of_app. right. left.
Qed.
Lemma take_rank l k x : NoDup l -> x ∈ l -> x ∈ take k (merge_sort R l) <-> (length (before l x) < k)%nat.
Proof.
  intros Hnd Hx. pose proof (merge_sort_Permutation R l) as Hp. pose proof (StronglySorted_merge_sort R l) as Hs.
  assert (Hx' : x ∈ merge_sort R l) by (by rewrite Hp). assert (Hnd' : NoDup (merge_sort R l)) by (by rewrite Hp).
  assert (El : length (before l x) = length (before (merge_sort R l) x)) by (unfold before; by rewrite Hp). rewrite El. unfold before. clear El Hp. apply list_elem_of_split in Hx' as (l1 & l2 & E). rewrite E in Hs, Hnd' |- *. destruct (sorted_split _ _ _ Hs) as [H1 H2].
  apply NoDup_app in Hnd' as (_ & Hn1 & Hn2). apply NoDup_cons in Hn2 as [Hn2 _]. rewrite Forall_forall in H1, H2.
  assert (E1 : filter (fun y => R y x /\ y <> x) l1 = l1).
  { clear -H1 Hn1. induction l1 as [|y l1 IH]; [done|]. rewrite filter_cons_True; [f_equal; apply IH; intros z Hz; [apply Hn1|apply H1]; by right|].
    split; [apply H1; left|]. intros ->. apply (Hn1 x); left. }
  assert (E2 : filter (fun y => R y x /\ y <> x) (x :: l2) = []).
  { rewrite filter_cons_False by (by intros [_ []]). clear -H2 Hn2 PartialOrder0. induction l2 as [|y l2 IH]; [done|]. rewrite filter_cons_False.
    - apply IH; [intros Hz; apply Hn2; by right|intros z Hz; apply H2; by right].
    - intros [Hr Hy]. apply Hy, (anti_symm R); [done|]. apply H2. left. }
  rewrite filter_app, E1, E2, app_nil_r. split.
  - intros Hin. apply list_elem_of_lookup in Hin as [i Hi]. apply lookup_take_Some in Hi as [Hi Hik].
    destruct (decide (i < length l1)%nat) as [Hlt|Hge]; [|lia]. rewrite lookup_app_l in Hi by done. exfalso. apply (Hn1 x); [by eapply list_elem_of_lookup_2|left].
  - intros Hlt. apply list_elem_of_lookup. exists (length l1). rewrite lookup_take_lt by done. by rewrite lookup_app_r, Nat.sub_diag by done.
Qed.
End rank.
#[export] Instance newer_eq_po : PartialOrder newer_eq.
Proof.
  split; [split|].
  - intros [a s]. by right.
  - intros [a s] [b t] [c u] [H1|[H1 H2]] [H3|[H3 H4]]; unfold newer_eq; cbn in *; [left; lia..|]. right. split; [congruence|]. by trans t.
  - intros [a s] [b t] [H1|[H1 H2]] [H3|[H3 H4]]; cbn in *; [lia..|]. f_equal; [done|]. by apply (anti_symm String.le).
Qed.
#[export] Instance newer_eq_total : Total newer_eq.
Proof.
  intros [a s] [b t]. unfold newer_eq. cbn. destruct (Z.lt_trichotomy a b) as [?|[->|?]]; [by right; left| |by left; left].
  destruct (total String.le s t); [right|left]; by right.
Qed.

(** ** Names *)

(** A name that [ls -1] prints as it is. *)
Definition printable `{Unicode} (name : string) : Prop := plain name /\ TrimSpace name = name /\ no_byte newline name = true.
Lemma path_Base_name name : plain name -> path_Base name = name.
Proof. intros H. exact (path_Base_joined [] name H (Forall_nil_2 _)). Qed.
Lemma listing_names `{Unicode} files : Forall printable files -> listRemoteBackupNames (listing files) = List.filter backupLike files.
Proof.
  intros Hf. unfold listRemoteBackupNames. assert (Es : Split (listing files) newline = files ++ [""]).
  { induction Hf as [|n files (_ & _ & Hn) _ IH]; [done|]. cbn [listing foldr]. fold (listing files). change (String newline (listing files)) with (String newline "" +:+ listing files).
    cbn [String.app]. rewrite Split_app_sep by done. cbn [app]. by f_equal. }
  rewrite Es. f_equal. rewrite map_app. cbn [map]. rewrite List.filter_app. change (List.filter nonempty_string [TrimSpace ""]) with (@nil string).
  rewrite app_nil_r. clear Es. induction Hf as [|n files (Hp & Ht & _) _ IH]; [done|]. cbn [map List.filter]. rewrite Ht.
  assert (Hne : nonempty_string n = true). { unfold nonempty_string. apply negb_true_iff, bool_decide_eq_false, Hp. }
  rewrite Hne. cbn [map]. by rewrite path_Base_name, IH.
Qed.

Lemma backupFileName_base generation : 0 <= generation -> plain (backupFileName generation) /\ backupLike (backupFileName generation) = true.
Proof.
  intros Hg. unfold backupFileName, backupLike, backupFilePrefix, backupFileSuffix. split.
  - split_and!; [done..|]. rewrite !no_byte_app. by rewrite (all_digits_no_byte slash (Itoa generation)) by (first [done|by apply Itoa_nonneg_digits]).
  - rewrite HasPrefix_app, <- sapp_assoc. by rewrite HasSuffix_app.
Qed.
(** The generation is read back from the name. *)
Lemma parseBackupSeq_name generation : 0 <= generation -> in_int64 generation = true -> parseBackupSeq (backupFileName generation) = Some generation.
Proof.
  intros Hg Hi. destruct (backupFileName_base generation Hg) as [Hp Hl]. unfold parseBackupSeq. rewrite path_Base_name, Hl by done. cbn [negb].
  replace (TrimSuffix (TrimPrefix (backupFileName generation) backupFilePrefix) backupFileSuffix) with (Itoa generation)
    by (unfold backupFileName; by rewrite TrimPrefix_app, TrimSuffix_app).
  pose proof (Itoa_nonneg_digits generation Hg) as Hd. rewrite (proj2 (String.eqb_neq _ _) (Itoa_nonempty generation)).
  rewrite runes_ascii_only by apply Itoa_ascii. replace (existsb _ _) with false; [by apply Atoi_Itoa|]. symmetry. apply not_true_iff_false.
  rewrite existsb_exists. intros (r & Hr%list_elem_of_In & E). pose proof (all_digits_bytes _ r Hd Hr). apply orb_true_iff in E. lia.
Qed.
(** A name that is read as a generation is one of a backup. *)
Lemma parseBackupSeq_like name seq : plain name -> parseBackupSeq name = Some seq -> backupLike name = true.
Proof. intros Hp. unfold parseBackupSeq. rewrite path_Base_name by done. by destruct (backupLike name). Qed.

(** ** Retention *)

(** The backups that come before one of that generation and name. *)
Definition newerBackups (names : list string) (x : seqName) : list seqName := before newer_eq (seqFiles names) x.
Lemma elem_of_seqFiles names seq name : (seq, name) ∈ seqFiles names <-> name ∈ names /\ parseBackupSeq name = Some seq.
Proof.
  unfold seqFiles. rewrite list_elem_of_omap. split.
  - intros (n & Hn & E). destruct (parseBackupSeq n) eqn:Ep; [|done]. by injection E as -> ->.
  - intros [Hn E]. exists name. split; [done|]. by rewrite E.
Qed.
Lemma NoDup_seqFiles names : NoDup names -> NoDup (seqFiles names).
Proof.
  unfold seqFiles. induction 1 as [|n names Hn _ IH]; cbn; [constructor|]. destruct (parseBackupSeq n); cbn; [|done]. constructor; [|done].
  intros (m & Hm & E)%list_elem_of_omap. destruct (parseBackupSeq m); [|done]. injection E as _ ->. done.
Qed.
Lemma deleted_iff names keep name : NoDup names -> Forall plain names -> 0 < keep -> name ∈ names -> backupLike name = true ->
  name ∈ backupFilesToDelete names keep <-> match parseBackupSeq name with Some seq => keep <= Z.of_nat (length (newerBackups names (seq, name))) | None => True end.
Proof.
  intros Hnd Hp Hk Hin Hl. unfold backupFilesToDelete. destruct (keep <=? 0) eqn:E; [lia|]. rewrite elem_of_app, elem_of_list_filter_b. unfold unnumbered.
  pose proof (proj1 (Forall_forall _ _) Hp name Hin) as Hpn. rewrite path_Base_name, Hl by done. destruct (parseBackupSeq name) as [seq|] eqn:Es; [|tauto].
  set (s := merge_sort newer_eq (seqFiles names)). pose proof (take_rank newer_eq (seqFiles names) (Z.to_nat keep) (seq, name) (NoDup_seqFiles _ Hnd)) as Hr.
  assert (Hx : (seq, name) ∈ seqFiles names) by (by apply elem_of_seqFiles). specialize (Hr Hx). fold s in Hr. fold (newerBackups names (seq, name)) in Hr.
  assert (Hs : (seq, name) ∈ take (Z.to_nat keep) s ++ drop (Z.to_nat keep) s) by (rewrite take_drop; unfold s; by rewrite merge_sort_Permutation).
  assert (Hns : NoDup (take (Z.to_nat keep) s ++ drop (Z.to_nat keep) s)) by (rewrite take_drop; unfold s; rewrite merge_sort_Permutation; by apply NoDup_seqFiles).
  apply NoDup_app in Hns as (_ & Hns & _). rewrite elem_of_app in Hs. split.
  - intros [[_ ?]|Hd]; [done|]. apply list_elem_of_fmap in Hd as ([q m] & -> & Hd). cbn in *.
    assert (Hq : (q, m) ∈ seqFiles names). { rewrite <- (merge_sort_Permutation newer_eq), <- (take_drop (Z.to_nat keep) (merge_sort newer_eq _)). apply elem_of_app. by right. }
    apply elem_of_seqFiles in Hq as [_ Hq]. assert (q = seq) as -> by congruence. destruct (decide (length (newerBackups names (seq, m)) < Z.to_nat keep)%nat) as [Hlt|Hge]; [|lia].
    apply Hr in Hlt. by destruct (Hns _ Hlt).
  - intros Hge. right. apply list_elem_of_fmap. exists (seq, name). split; [done|]. destruct Hs as [Hs|Hs]; [|done]. apply Hr in Hs. lia.
Qed.

Section worker.
Context `{Unicode}.
(** What a worker keeps: every other file, and the newest backups. *)
Definition survives (names : list string) (keep : Z) (name : string) : Prop :=
  name ∈ names /\ (backupLike name = true -> exists seq, parseBackupSeq name = Some seq /\ Z.of_nat (length (newerBackups names (seq, name))) < keep).
Lemma seqFiles_filter names : Forall plain names -> seqFiles (List.filter backupLike names) = seqFiles names.
Proof.
  unfold seqFiles. induction 1 as [|n names Hp _ IH]; [done|]. cbn [List.filter omap list_omap]. destruct (backupLike n) eqn:El; cbn [omap list_omap]; [by rewrite IH|].
  destruct (parseBackupSeq n) eqn:Ep; [|by rewrite IH]. apply parseBackupSeq_like in Ep; [congruence|done].
Qed.
Lemma elem_of_removeFiles files l name : name ∈ removeFiles files l <-> name ∈ files /\ name ∉ l.
Proof. unfold removeFiles. rewrite elem_of_list_filter_b, negb_true_iff, bool_decide_eq_false. done. Qed.
Lemma elem_of_copied name files n : n ∈ copied name files <-> n ∈ files \/ n = name.
Proof. unfold copied. case_bool_decide; [set_solver|rewrite elem_of_app, list_elem_of_singleton; done]. Qed.
Lemma copied_ok name files : printable name -> NoDup files -> Forall printable files -> NoDup (copied name files) /\ Forall printable (copied name files).
Proof.
  intros Hp Hnd Hf. unfold copied. case_bool_decide as Hin; [done|]. split; [|by apply Forall_app; split; [|apply Forall_singleton]].
  apply NoDup_app. split_and!; [done|intros x Hx ->%list_elem_of_singleton; done|apply NoDup_singleton].
Qed.
Lemma deleted_listed files keep name : NoDup files -> Forall printable files -> 0 < keep -> name ∈ files ->
  name ∉ backupFilesToDelete (listRemoteBackupNames (listing files)) keep <-> survives files keep name.
Proof.
  intros Hnd Hf Hk Hin. rewrite listing_names by done. assert (Hp : Forall plain files) by (eapply Forall_impl; [exact Hf|]; by intros n []).
  unfold survives. destruct (backupLike name) eqn:El.
  - rewrite deleted_iff; [|by apply NoDup_filter_b|apply Forall_forall; intros n [Hn _]%elem_of_list_filter_b; by apply (proj1 (Forall_forall _ _) Hp)|done|by apply elem_of_list_filter_b|done].
    unfold newerBackups. rewrite seqFiles_filter by done. destruct (parseBackupSeq name) as [seq|]; [|naive_solver].
    split; [intros H1; split; [done|]; intros _; exists seq; split; [done|]; lia|]. intros [_ H1]. destruct (H1 eq_refl) as (s & [= <-] & H2). lia.
  - split; [intros _; by split|]. intros _ Hd. unfold backupFilesToDelete in Hd. destruct (keep <=? 0) eqn:E; [lia|]. apply elem_of_app in Hd as [Hd|Hd].
    + apply elem_of_list_filter_b in Hd as [Hd _]. apply elem_of_list_filter_b in Hd as [_ Hd]. congruence.
    + apply list_elem_of_fmap in Hd as ([q m] & -> & Hd). cbn in El. assert (Hq : (q, m) ∈ seqFiles (List.filter backupLike files)).
      { rewrite <- (merge_sort_Permutation newer_eq), <- (take_drop (Z.to_nat keep) (merge_sort newer_eq _)). apply elem_of_app. by right. }
      apply elem_of_seqFiles in Hq as [Hq _]. apply elem_of_list_filter_b in Hq as [_ Hq]. congruence.
Qed.
Lemma backupFileName_printable generation : 0 <= generation -> printable (backupFileName generation).
Proof.
  intros Hg. pose proof (Itoa_nonneg_digits generation Hg) as Hd. split; [by apply backupFileName_base|]. split.
  - apply TrimSpace_trimmed, trimmed_all. unfold backupFileName. intros r. rewrite runes_ascii_only.
    + rewrite !bytes_app, !elem_of_app. intros Hr. apply IsSpace_above. destruct Hr as [Hr|[Hr|Hr]].
      * vm_compute in Hr. repeat (apply elem_of_cons in Hr as [->|Hr]; [lia|]). by apply elem_of_nil in Hr.
      * pose proof (all_digits_bytes _ r Hd Hr). lia.
      * vm_compute in Hr. repeat (apply elem_of_cons in Hr as [->|Hr]; [lia|]). by apply elem_of_nil in Hr.
    + rewrite !ascii_only_app, Itoa_ascii. done.
  - unfold backupFileName. rewrite !no_byte_app. by rewrite (all_digits_no_byte newline (Itoa generation)) by done.
Qed.
Variable fs : Faults.

Lemma listed_unreadable keep : backupFilesToDelete (listRemoteBackupNames "") keep = [].
Proof.
  change (listRemoteBackupNames "") with (@nil string). unfold backupFilesToDelete. destruct (keep <=? 0); [done|].
  change (merge_sort newer_eq (seqFiles [])) with (@nil seqName). by rewrite drop_nil.
Qed.

(** Whatever fails, only files that do not survive are removed. *)
Lemma prune_spec ip keep files : NoDup files -> Forall printable files -> 0 < keep ->
  let '(err, files') := pruneRemoteBackups fs ip keep files in
  (forall name, name ∈ files' -> name ∈ files) /\ (forall name, survives files keep name -> name ∈ files') /\
  (err <> None -> err <> Some Rm -> files' = files) /\ (unreadable fs ip = true -> files' = files) /\
  (err = None -> unreadable fs ip = false -> forall name, name ∈ files' <-> survives files keep name).
Proof.
  intros Hnd Hf Hk. unfold pruneRemoteBackups, listed. destruct (keep <=? 0) eqn:E; [lia|].
  assert (Hin : forall name, survives files keep name -> name ∈ files) by by intros name [].
  destruct (fails fs ip Ls); [by split_and!|]. cbv zeta. destruct (unreadable fs ip).
  { rewrite listed_unreadable, bool_decide_eq_true_2 by done. by split_and!. }
  set (toDelete := backupFilesToDelete _ keep).
  assert (Hs : forall name, name ∈ files /\ name ∉ toDelete <-> survives files keep name).
  { intros name. split; [intros [H1 H2]; by apply deleted_listed|]. intros Hsv. pose proof Hsv as [H1 _]. split; [done|]. by apply deleted_listed. }
  case_bool_decide as Hd.
  { split_and!; try done. intros _ _ name. rewrite <- Hs, Hd. split; [intros H1; split; [done|apply not_elem_of_nil]|by intros []]. }
  destruct (fails fs ip Rm); split_and!; try done.
  - by intros name [? _]%elem_of_removeFiles.
  - intros name [H1 H2]%Hs. apply elem_of_removeFiles. split; [done|]. by intros [? _]%elem_of_list_filter_b.
  - by intros name [? _]%elem_of_removeFiles.
  - intros name [H1 H2]%Hs. by apply elem_of_removeFiles.
  - intros _ _ name. by rewrite elem_of_removeFiles.
Qed.

(** A worker's turn. *)
Lemma push_spec ip generation keep before : let names := copied (backupFileName generation) before in
  NoDup names -> Forall printable names -> 0 < keep ->
  let '(err, files) := pushAndPrune fs ip (backupFileName generation) keep before in
  (forall name, name ∈ files -> name ∈ names) /\ (forall name, name ∈ before -> survives names keep name -> name ∈ files) /\
  (err <> None -> err <> Some Rm -> forall name, name ∈ before -> name ∈ files) /\
  (err = None -> unreadable fs ip = false -> forall name, name ∈ files <-> survives names keep name).
Proof.
  intros names Hnd Hf Hk. unfold pushAndPrune. fold names.
  assert (Hb : forall name, name ∈ before -> name ∈ names) by (intros name Hn; apply elem_of_copied; by left).
  destruct (fails fs ip Mkdir); [by split_and!|]. destruct (fails fs ip Rsync); [destruct (torn fs ip); split_and!; try done; auto|].
  pose proof (prune_spec ip keep names Hnd Hf Hk) as Hp. destruct (pruneRemoteBackups fs ip keep names) as [err files].
  destruct Hp as (P1 & P2 & P3 & _ & P4). split_and!; [done|auto| |done]. intros H1 H2 name Hn. rewrite P3 by done. auto.
Qed.

(** A worker's files are as they were, or those after its turn; when the loop
    comes to its end every worker has had its turn. *)
Lemma backupLoop_at name keep l : NoDup l -> forall errs w, let r := backupLoop fs name keep errs w l in
  (forall ip, r.2 !! ip = w !! ip \/ ip ∈ l /\ r.2 !! ip = Some (pushAndPrune fs ip name keep (default [] (w !! ip))).2)
  /\ (forall errs', r.1 = Joined errs' ->
        (forall ip, ip ∈ l -> r.2 !! ip = Some (pushAndPrune fs ip name keep (default [] (w !! ip))).2)
        /\ forall ip a, (ip, a) ∈ errs' <-> (ip, a) ∈ errs \/ ip ∈ l /\ (pushAndPrune fs ip name keep (default [] (w !! ip))).1 = Some a).
Proof.
  induction 1 as [|x l Hx _ IH]; intros errs w; cbn [backupLoop].
  { split; [by left|]. intros errs' [= <-]. split; [by intros ip ?%elem_of_nil|]. intros ip a. split; [by left|]. intros [?|[[]%elem_of_nil _]]. done. }
  destruct (endedBefore fs x); [split; [by left|done]|].
  destruct (pushAndPrune fs x name keep (default [] (w !! x))) as [err files] eqn:E.
  assert (Hrec : forall errs1, let r := backupLoop fs name keep errs1 (<[x := files]> w) l in
    (forall ip, r.2 !! ip = w !! ip \/ ip ∈ x :: l /\ r.2 !! ip = Some (pushAndPrune fs ip name keep (default [] (w !! ip))).2)
    /\ (forall errs', r.1 = Joined errs' ->
        (forall ip, ip ∈ x :: l -> r.2 !! ip = Some (pushAndPrune fs ip name keep (default [] (w !! ip))).2)
        /\ forall ip a, (ip, a) ∈ errs' <-> (ip, a) ∈ errs1 \/ ip ∈ l /\ (pushAndPrune fs ip name keep (default [] (w !! ip))).1 = Some a)).
  { intros errs1. destruct (IH errs1 (<[x := files]> w)) as [H1 H2]. cbv zeta.
    assert (Hl : forall ip, ip ∈ l -> (<[x := files]> w) !! ip = w !! ip) by (intros ip Hip; apply lookup_insert_ne; congruence).
    assert (Hxs : (backupLoop fs name keep errs1 (<[x:=files]> w) l).2 !! x = Some files).
    { destruct (H1 x) as [->|[? _]]; [apply lookup_insert_eq|done]. }
    split.
    - intros ip. destruct (decide (ip = x)) as [->|Hne]; [right; split; [left|by rewrite E]|].
      destruct (H1 ip) as [->|[Hip ->]]; [left; by apply lookup_insert_ne|right]. split; [by right|]. by rewrite Hl.
    - intros errs' He. destruct (H2 errs' He) as [H3 H4]. split.
      + intros ip [->|Hip]%elem_of_cons; [by rewrite E|]. rewrite H3 by done. by rewrite Hl.
      + intros ip a. rewrite H4. destruct (decide (ip ∈ l)) as [Hip|]; [by rewrite (Hl ip Hip)|tauto]. }
  destruct err as [a0|].
  - destruct (endedAfter fs x).
    + split; [|done]. cbn [fst snd]. intros ip. destruct (decide (ip = x)) as [->|Hne]; [right; split; [left|by rewrite lookup_insert_eq, E]|].
      left. by apply lookup_insert_ne.
    + destruct (Hrec (errs ++ [(x, a0)])) as [H1 H2]. split; [exact H1|]. intros errs' He. destruct (H2 errs' He) as [H3 H4].
      split; [exact H3|]. intros ip a. rewrite H4, elem_of_app, list_elem_of_singleton, elem_of_cons.
      destruct (decide (ip = x)) as [->|]; [rewrite E|]; naive_solver.
  - destruct (Hrec errs) as [H1 H2]. split; [exact H1|]. intros errs' He. destruct (H2 errs' He) as [H3 H4].
    split; [exact H3|]. intros ip a. rewrite H4, elem_of_cons. destruct (decide (ip = x)) as [->|]; [rewrite E|]; naive_solver.
Qed.

Lemma newest_survives generation keep old : 0 <= generation -> in_int64 generation = true -> 0 < keep ->
  let names := copied (backupFileName generation) old in
  (forall name seq, name ∈ names -> parseBackupSeq name = Some seq -> seq < generation \/ name = backupFileName generation) ->
  survives names keep (backupFileName generation).
Proof.
  intros Hg Hi Hk names Hmax. split; [apply elem_of_copied; by right|]. intros _. exists generation. rewrite parseBackupSeq_name by done. split; [done|].
  destruct (newerBackups names (generation, backupFileName generation)) as [|[q m] l] eqn:Ef; [cbn; lia|]. exfalso.
  assert (Hq : (q, m) ∈ newerBackups names (generation, backupFileName generation)) by (rewrite Ef; left). unfold newerBackups, before in Hq.
  apply list_elem_of_filter in Hq as [[Hq Hne] [Hm Hp]%elem_of_seqFiles]. destruct (Hmax m q Hm Hp) as [Hlt| ->].
  - destruct Hq as [Hq|[Hq _]]; cbn in Hq; lia.
  - rewrite parseBackupSeq_name in Hp by done. by injection Hp as <-.
Qed.
End worker.

(** C29: A backup removes nothing but what it is to remove, whatever fails on the
    way and wherever the context ends, even when a removal stops half done: a
    worker that is no target is not touched; a target never loses a file that
    is no backup or one of the newest backups, as many as it keeps, and gains
    at most the snapshot; and a worker whose [mkdir], copy or [ls] failed has
    all its files. When the backup comes to its end, each target that it does
    not report, and whose directory can be read, holds exactly the newest
    backups and the files that are no backups, the snapshot among them when no
    backup of the worker has a higher generation. *)
Theorem Backup_keeps `{Unicode} fs generation keep targets w ip : NoDup targets -> 0 <= generation -> in_int64 generation = true -> 0 < keep ->
  NoDup (default [] (w !! ip)) -> Forall printable (default [] (w !! ip)) ->
  let '(r, w') := Backup fs generation keep targets w in
  let before := default [] (w !! ip) in
  let after := default [] (w' !! ip) in
  let names := copied (backupFileName generation) before in
  (ip ∉ targets -> w' !! ip = w !! ip) /\
  (forall name, name ∈ after -> name ∈ names) /\
  (forall name, name ∈ before -> survives names keep name -> name ∈ after) /\
  (forall errs, r = Joined errs ->
     (forall a, (ip, a) ∈ errs -> a <> Rm -> forall name, name ∈ before -> name ∈ after) /\
     (ip ∈ targets -> (forall a, (ip, a) ∉ errs) -> unreadable fs ip = false ->
        (forall name, name ∈ after <-> survives names keep name) /\
        ((forall name seq, name ∈ names -> parseBackupSeq name = Some seq -> seq < generation \/ name = backupFileName generation) ->
         backupFileName generation ∈ after))).
Proof.
  intros Hnd Hg Hi Hk Hfn Hfp. destruct (Backup _ _ _ _ _) as [r w'] eqn:E. unfold Backup in E.
  pose proof (backupLoop_at fs (backupFileName generation) keep targets Hnd [] w) as [H1 H2]. rewrite E in H1, H2. cbn [fst snd] in H1, H2. cbv zeta.
  destruct (copied_ok (backupFileName generation) (default [] (w !! ip)) (backupFileName_printable generation Hg) Hfn Hfp) as [Hc1 Hc2].
  set (before := default [] (w !! ip)) in *. set (names := copied _ before) in *.
  pose proof (push_spec fs ip generation keep before Hc1 Hc2 Hk) as Hpush. fold names in Hpush.
  destruct (pushAndPrune fs ip (backupFileName generation) keep before) as [err files] eqn:Ep. destruct Hpush as (P1 & P2 & P3 & P4).
  specialize (H1 ip). fold before in H1. rewrite Ep in H1. cbn [fst snd] in H1. split_and!.
  - intros Hni. by destruct H1 as [?|[? _]].
  - intros name. destruct H1 as [->|[_ ->]]; [|by apply P1]. intros Hn. apply elem_of_copied. by left.
  - intros name Hn Hs. destruct H1 as [->|[_ ->]]; [done|by apply P2].
  - intros errs He. destruct (H2 errs He) as [H3 H4]. specialize (H3 ip). specialize (H4 ip). fold before in H3, H4.
    rewrite Ep in H3, H4. cbn [fst snd] in H3, H4. split.
    + intros a Ha Hrm name Hn. apply H4 in Ha as [[]%elem_of_nil|[Hin ->]]. rewrite H3 by done. cbn. by apply P3; [|congruence|].
    + intros Hin Hno Hu. rewrite H3 by done. cbn. assert (err = None) as ->.
      { destruct err as [a|]; [|done]. destruct (Hno a). apply H4. by right. }
      specialize (P4 eq_refl Hu). split; [exact P4|]. intros Hmax. apply P4. by apply newest_survives.
Qed.
