(* ===== verification/SnapshotExamples.v ===== *)
(** * snapshot: a concrete backup

    A small backup, restored, interrupted and restored again, and the backups
    of a worker. *)
From S2P Require Import Prelude GoStrings Utils PathMatch JobTree Durable DurableFacts Snapshot SnapshotFacts SnapshotBackup.
Open Scope Z_scope.
#[local] Existing Instance ascii_unicode.

(** ** A restore *)

Definition toy_material : Material := mkMaterial "conf" "kv" "key" "crt" "workers" "" "" (Some [("bucket.jobs.conf", "jobs")]) "hosts" "" "" "".
Definition toy_backup : Snapshot.Backup := mkBackup toy_material "" 7
  [("web", [mkFileRow "web/job.conf" "job" false; mkFileRow "web" "" true; mkFileRow "web/bin/run" "run" false])] [mkFileRow "base.bt" "t" false] (Some []).
Definition toy_sqlite (c : Content) : option Snapshot.Backup := match c with Text "db" => Some toy_backup | _ => None end.
Definition toy_sha (c : Content) : string := match c with Text s => "sha:" +:+ s | _ => "" end.
Definition toy_disk : Disk := mkDisk {[["srv"] := DirNode 493; ["srv"; "kive.db"] := FileNode 420 (Text "db")]} ∅.
Definition toy_start : World := mkWorld toy_disk 0.
Definition all_work (n : nat) : Event := Works.
Definition toy_restore (events : nat -> Event) (w : World) := Restore events 18 ["srv"] toy_sha toy_sqlite "kive.db" "out" ["1"; "2"] w.
Definition toy_out : Path := ["srv"; "out"].
Lemma toy_orderly : orderly toy_disk.
Proof.
  split; [|by intros p ?%elem_of_empty]. intros p q [r ->] Hp [n Hn]. cbn [nodes toy_disk] in Hn |- *. apply lookup_insert_Some in Hn as [[E _]|[_ [E _]%lookup_singleton_Some]].
  - destruct p as [|x [|y p]]; [done| |by cbn in E; destruct p]. injection E as <- _. by eexists.
  - destruct p as [|x [|y p]]; [done|injection E as <- _; by eexists|]. destruct p; [|by cbn in E; destruct p]. injection E as <- <- _. by eexists.
Qed.
Lemma toy_distinct : distinct toy_backup.
Proof. unfold distinct. apply (bool_decide_unpack _). vm_compute. reflexivity. Qed.
Lemma toy_source mode db b : nodes toy_disk !! Abs ["srv"] (TrimSpace "kive.db") = Some (FileNode mode db) -> toy_sqlite db = Some b -> distinct b.
Proof. intros E Hb. vm_compute in E. injection E as _ <-. injection Hb as <-. exact toy_distinct. Qed.
(** The restore that is not disturbed, the one that ends before its 30th call,
    and the one whose rename fails. *)
Definition dies_at (k n : nat) : Event := if (n =? k)%nat then Dies 1 else Works.
Definition fails_at (k n : nat) : Event := if (n =? k)%nat then Fails 0 else Works.
Example toy_done : let '(r, w) := toy_restore all_work toy_start in
  r = Done tt /\ calls w = 254%nat /\ nodes (disk w) !! (toy_out ++ ["workspace"; "jobs"; "web"; "bin"; "run"]) = Some (FileNode 420 (Text "run")).
Proof. vm_compute. split_and!; reflexivity. Qed.
Lemma toy_whole : (toy_restore all_work toy_start).1 = Done tt.
Proof. vm_compute. reflexivity. Qed.
Lemma toy_rename_fails : (toy_restore (fails_at 246) toy_start).1 = Failed (Errno EIO).
Proof. vm_compute. reflexivity. Qed.
Lemma toy_interrupted : (toy_restore (dies_at 120) toy_start).1 = Dead
  /\ (toy_restore (dies_at 247) toy_start).1 = Dead.
Proof. vm_compute. split_and!; reflexivity. Qed.
Lemma toy_absent : nodes (disk (toy_restore (dies_at 120) toy_start).2) !! (toy_out ++ ["data"; "kive.db"]) = None /\ is_Some (nodes (disk (toy_restore (dies_at 247) toy_start).2) !! toy_out).
Proof. vm_compute. split; [reflexivity|by eexists]. Qed.
Lemma toy_out_proper : Abs ["srv"] "out" <> [].
Proof. by vm_compute. Qed.
(** The undisturbed restore is whole; the one whose rename fails leaves the
    disk as it was; after the one that ended before the rename there is no
    output. *)
Lemma Restore_atomic_witness :
  restored toy_sha toy_sqlite ["srv"; "kive.db"] toy_out toy_disk (disk (toy_restore all_work toy_start).2)
  /\ (forall p, nodes (disk (toy_restore (fails_at 246) toy_start).2) !! p = nodes toy_disk !! p)
  /\ absent toy_out (disk (toy_restore (dies_at 120) toy_start).2)
  /\ restored toy_sha toy_sqlite ["srv"; "kive.db"] toy_out toy_disk (disk (toy_restore (dies_at 247) toy_start).2).
Proof.
  pose proof (fun events => Restore_atomic events 18 ["srv"] toy_sha toy_sqlite "kive.db" "out" ["1"; "2"] toy_start toy_orderly toy_out_proper eq_refl toy_source) as R.
  split_and!.
  - specialize (R all_work). fold (toy_restore all_work toy_start) in R. pose proof toy_whole as E. destruct (toy_restore all_work toy_start) as [r w]. cbn [fst snd] in *.
    rewrite E in R. exact (proj1 (proj2 R)).
  - specialize (R (fails_at 246)). fold (toy_restore (fails_at 246) toy_start) in R. pose proof toy_rename_fails as E.
    destruct (toy_restore (fails_at 246) toy_start) as [r w]. cbn [fst snd] in *. rewrite E in R. exact (proj2 (proj2 R)).
  - specialize (R (dies_at 120)). fold (toy_restore (dies_at 120) toy_start) in R. pose proof toy_interrupted as [E _]. pose proof toy_absent as [A _].
    destruct (toy_restore (dies_at 120) toy_start) as [r w]. cbn [fst snd] in *. rewrite E in R. destruct (proj2 R) as [H|H]; [|exact H].
    destruct H as (mode & db & b & _ & _ & [Hm _] & _). exfalso. apply Forall_cons in Hm as [Hm _]. change (nodes (disk w) !! (toy_out ++ ["data"; "kive.db"]) = Some (FileNode 420 db)) in Hm. rewrite A in Hm. discriminate Hm.
  - specialize (R (dies_at 247)). fold (toy_restore (dies_at 247) toy_start) in R. pose proof toy_interrupted as [_ E]. pose proof toy_absent as [_ [n A]].
    destruct (toy_restore (dies_at 247) toy_start) as [r w]. cbn [fst snd] in *. rewrite E in R. destruct (proj2 R) as [H|H]; [exact H|].
    specialize (H toy_out (below_refl toy_out)). rewrite A in H. discriminate H.
Defined.
(** The same restore again, and the restore of a changed backup. *)
Definition toy_world : World := (toy_restore all_work toy_start).2.
Definition toy_restart : World := mkWorld (disk toy_world) 0.
Lemma toy_again : (toy_restore all_work toy_restart).1 = Done tt.
Proof. vm_compute. reflexivity. Qed.
Lemma toy_there : nodes (disk toy_restart) !! toy_out = Some (DirNode 493).
Proof. vm_compute. reflexivity. Qed.
Lemma Restore_again_witness : nodes (disk (toy_restore all_work toy_restart).2) = nodes (disk toy_restart)
  /\ synced toy_out (disk (toy_restore all_work toy_restart).2).
Proof.
  pose proof (Restore_again all_work 18 ["srv"] toy_sha toy_sqlite "kive.db" "out" ["1"; "2"] toy_restart (DirNode 493) toy_out_proper toy_there) as R.
  fold (toy_restore all_work toy_restart) in R. pose proof toy_again as E.
  destruct (toy_restore all_work toy_restart) as [r w]. cbn [fst snd] in *. rewrite E in R. destruct R as [R1 (_ & _ & _ & _ & _ & _ & R2)]. split; [exact R1|exact R2].
Defined.
(** A file that is replaced, and one whose replacement ends before the rename
    and after it. *)
Definition toy_replace (events : nat -> Event) := ReplaceWithHook events 18 ["srv"; "kive.db"] (Text "new") 384 ["a"] toy_start.
Lemma Replace_atomic_witness :
  match toy_replace all_work with (Done _, w) => replaced ["srv"; "kive.db"] (Text "new") 384 (disk w) | _ => False end
  /\ match toy_replace (fails_at 5) with (Failed e, w) => Installed e = false /\ unreplaced ["srv"; "kive.db"] toy_disk (disk w) | _ => False end.
Proof.
  assert (Hp : ["srv"; "kive.db"] <> []) by discriminate.
  pose proof (fun events => Replace_atomic events 18 ["srv"; "kive.db"] (Text "new") 384 ["a"] toy_start Hp) as R. unfold toy_replace. split.
  - specialize (R all_work). assert (E : (ReplaceWithHook all_work 18 ["srv"; "kive.db"] (Text "new") 384 ["a"] toy_start).1 = Done tt) by (vm_compute; reflexivity).
    destruct (ReplaceWithHook _ _ _ _ _ _ _) as [r w]. cbn [fst] in E. rewrite E in R |- *. exact (proj1 (proj2 R)).
  - specialize (R (fails_at 5)). assert (E : (ReplaceWithHook (fails_at 5) 18 ["srv"; "kive.db"] (Text "new") 384 ["a"] toy_start).1 = Failed (Errno EIO)) by (vm_compute; reflexivity).
    destruct (ReplaceWithHook _ _ _ _ _ _ _) as [r w]. cbn [fst] in E. rewrite E in R |- *. split; [reflexivity|exact (proj2 R)].
Defined.

(** ** Backups *)

Definition toy_workers : gmap string (list string) := {["10.0.0.1" := ["kive-7.db"; "kive-6.db"; "kive-20240101.old.db"; "notes.txt"]; "10.0.0.2" := []]}.
Definition no_fault : Faults := mkFaults (fun _ _ => false) (fun _ => false) (fun _ => false) (fun _ _ => false) (fun _ => false) (fun _ => false).
(** A removal that stops after its first operand. *)
Definition half_removed : Faults :=
  mkFaults (fun _ a => match a with Rm => true | _ => false end) (fun _ => false) (fun _ => false)
    (fun _ name => String.eqb name "kive-20240101.old.db") (fun _ => false) (fun _ => false).
Definition toy_backups := SnapshotBackup.Backup no_fault 8 2 ["10.0.0.1"] toy_workers.
Lemma toy_half : SnapshotBackup.Backup half_removed 8 2 ["10.0.0.1"] toy_workers
  = (Joined [("10.0.0.1", Rm)], <["10.0.0.1" := ["kive-7.db"; "kive-6.db"; "notes.txt"; "kive-8.db"]]> toy_workers).
Proof. vm_compute. reflexivity. Qed.
Lemma toy_backups_ok : toy_backups = (Joined [], <["10.0.0.1" := ["kive-7.db"; "notes.txt"; "kive-8.db"]]> toy_workers).
Proof. vm_compute. reflexivity. Qed.
Lemma toy_files_printable : Forall printable ["kive-7.db"; "kive-6.db"; "kive-20240101.old.db"; "notes.txt"].
Proof. repeat constructor; try discriminate; vm_compute; reflexivity. Qed.
Lemma toy_generations : forallb (fun name => match parseBackupSeq name with Some seq => (seq <? 8) || String.eqb name (backupFileName 8) | None => true end)
  (copied (backupFileName 8) (default [] (toy_workers !! "10.0.0.1"))) = true.
Proof. vm_compute. reflexivity. Qed.
Lemma Backup_keeps_witness : let after := default [] (toy_backups.2 !! "10.0.0.1") in "kive-8.db" ∈ after
  /\ ("kive-6.db" ∈ after <-> survives (copied "kive-8.db" ["kive-7.db"; "kive-6.db"; "kive-20240101.old.db"; "notes.txt"]) 2 "kive-6.db").
Proof.
  assert (Hnd : NoDup ["10.0.0.1"]) by (repeat constructor; by intros ?%elem_of_nil).
  assert (Hf : NoDup (default [] (toy_workers !! "10.0.0.1"))) by (apply (bool_decide_unpack _); vm_compute; reflexivity).
  assert (Hp : Forall printable (default [] (toy_workers !! "10.0.0.1"))) by exact toy_files_printable.
  pose proof (Backup_keeps no_fault 8 2 ["10.0.0.1"] toy_workers "10.0.0.1" Hnd ltac:(lia) eq_refl ltac:(lia) Hf Hp) as B.
  change (SnapshotBackup.Backup no_fault 8 2 ["10.0.0.1"] toy_workers) with toy_backups in B.
  assert (E1 : toy_backups.1 = Joined []) by (rewrite toy_backups_ok; reflexivity). destruct toy_backups as [r w']. cbn [fst snd] in *. rewrite E1 in B.
  cbv zeta in B. destruct B as (_ & _ & _ & B). destruct (B [] eq_refl) as [_ B3]. destruct B3 as [B1 B2].
  - left.
  - intros a Ha. by apply elem_of_nil in Ha.
  - reflexivity.
  - split; [|apply B1]. apply B2. intros name seq Hin Hs. pose proof toy_generations as Ha. rewrite forallb_forall in Ha.
    specialize (Ha name (proj1 (list_elem_of_In _ _) Hin)). rewrite Hs in Ha.
    apply orb_true_iff in Ha as [Ha|Ha]; [left; by apply Z.ltb_lt|right; by apply String.eqb_eq].
Defined.

(** A catalog that was restored from an older backup counts its generations
    from there: its own backups are removed as soon as they are copied, and
    nothing is reported. *)
Theorem older_generation_is_lost : let files := {["10.0.0.1" := ["kive-7.db"; "kive-6.db"]]} in
  SnapshotBackup.Backup no_fault 3 2 ["10.0.0.1"] files = (Joined [], files).
Proof. vm_compute. reflexivity. Qed.
