(* ===== verification/JobControl.v ===== *)
(** * jobcontrol: start, stop, restart and custom targets of running jobs

    jobcontrol/: the filters of a request, the selection of allocations, the
    runner's commands in batches of parallel workers, the job_control hooks of
    a job, and the deployed state that a stop may forget. The state is the
    allocation tables and a world [W]. The goroutines of a batch run in the
    order that a scheduler chooses; a command takes effect at one instant. The
    text of an error is left out. *)
From S2P Require BuildWorkers.
From S2P Require Import Prelude GoStrings Utils Kv Rollout Versions AllocState Catalog DeployRun.
Open Scope Z_scope.

(** ** Targets (target.go) *)

Definition TargetStart : string := "start".
Definition TargetStop : string := "stop".
Definition TargetRestart : string := "restart".
Definition TargetStatus : string := "status".
Definition builtinTargets : list string := [TargetStart; TargetStop; TargetRestart; TargetStatus].

(** [targetNameRe]: the two classes of the expression. *)
Definition targetFirst (c : ascii) : bool :=
  is_upper_ascii (byte_val c) || is_lower_ascii (byte_val c) || is_digit_ascii (byte_val c).
Definition targetRest (c : ascii) : bool :=
  targetFirst c || bool_decide (c ∈ ["_"; "."; "-"]%char).
Definition targetName (s : string) : bool :=
  match s with
  | "" => false
  | String c s => targetFirst c && forallb targetRest (String.list_ascii_of_string s)
  end.
(** [None] is the [InvalidTargetError]. *)
Definition ParseTarget `{Unicode} (raw : string) : option string :=
  let trimmed := TrimSpace raw in
  if bool_decide (trimmed = "") then None
  else
    let lower := ToLower trimmed in
    match List.filter (fun allowed => bool_decide (lower = allowed)) builtinTargets with
    | allowed :: _ => Some allowed
    | [] => if targetName trimmed then Some trimmed else None
    end.

(** ** Filters (filters.go) *)

Record Filters := mkFilters { fJobs : list string; fWorkers : list string }.

Definition parseCSV (raw : string) : list string :=
  if bool_decide (TrimSpace raw = "") then []
  else Unique (List.filter nonempty_string (map TrimSpace (Split raw ","%char))).
Definition ParseFilters (jobsCSV workersCSV : string) : Filters := mkFilters (parseCSV jobsCSV) (parseCSV workersCSV).
Definition intersect (a b : list string) : list string := Intersection a b.
(** [Some kind] is the [InvalidFilterError]. *)
Definition validateAgainst (f : Filters) (allJobs allWorkers : list string) : option string :=
  if (0 <? len (fJobs f)) && (len (intersect allJobs (fJobs f)) =? 0) then Some "jobs"
  else if (0 <? len (fWorkers f)) && (len (intersect allWorkers (fWorkers f)) =? 0) then Some "workers"
  else None.
Definition contains (values : list string) (needle : string) : bool := existsb (fun value => bool_decide (value = needle)) values.
Definition selectJobs (jobsAtSeq jobFilter : list string) : list string :=
  if (length jobFilter =? 0)%nat then jobsAtSeq else List.filter (contains jobFilter) jobsAtSeq.
Definition workerSelected (workerIP : string) (workerFilter : list string) : bool :=
  (length workerFilter =? 0)%nat || contains workerFilter workerIP.
Definition filterWorkers (workers workerFilter : list string) : list string :=
  if (length workerFilter =? 0)%nat then workers else List.filter (fun ip => workerSelected ip workerFilter) workers.

(** ** Errors (errors.go) *)

(** Why a job failed, besides its commands on workers. *)
Inductive cause (E : Type) :=
| Caused (e : E)
| DatabaseCause
| InvalidWorkerFilter (workerIP : string)
| RemovedAllocation (workerIP : string)
| DisabledAllocation (workerIP : string)
| DisabledJob
| NotForgotten (failed : list string).
Arguments Caused {E}.
Arguments DatabaseCause {E}.
Arguments InvalidWorkerFilter {E}.
Arguments RemovedAllocation {E}.
Arguments DisabledAllocation {E}.
Arguments DisabledJob {E}.
Arguments NotForgotten {E}.

(** [jrErr] is [nil] when the job failed on its workers. *)
Record JobRunError (E : Type) := mkJobRun {
  jrJob : string;
  jrTarget : string;
  jrFailures : list (string * E);
  jrErr : option (cause E);
}.
Arguments mkJobRun {E}.
Arguments jrJob {E}.
Arguments jrTarget {E}.
Arguments jrFailures {E}.
Arguments jrErr {E}.

Inductive control_error (E : Type) :=
| ForgetNeedsStop
| Plainly (e : E)
| Database
| InvalidFilter (kind : string)
| ControlError (failures : list (JobRunError E))
| AlsoCommit (err : control_error E) (e : E).
Arguments ForgetNeedsStop {E}.
Arguments Plainly {E}.
Arguments Database {E}.
Arguments InvalidFilter {E}.
Arguments ControlError {E}.
Arguments AlsoCommit {E}.

Definition newControlError {E} (failures : list (JobRunError E)) : option (control_error E) :=
  match failures with [] => None | _ => Some (ControlError failures) end.

Record Request := mkRequest {
  JobsCSV : string;
  WorkersCSV : string;
  Target : string;
  HealthCheck : bool;
  Forget : bool;
}.

(** ** The queries of a run *)

(** [data.GetMaxDeploymentSeq]: 0 without jobs. *)
Definition GetMaxDeploymentSeq (c : Catalog) : Z :=
  match map (fun j => jcDeploymentSeq (jbColumns j)) (jobs c) with
  | [] => 0
  | s :: l => foldl Z.max s l
  end.
(** [data.GetJobsByDeploymentSeq]: the jobs of a sequence that have an
    allocation which is not removed. *)
Definition atSequence (c : Catalog) (seq : Z) (job : string) : bool :=
  existsb (fun j => bool_decide (jbName j = job) && (jcDeploymentSeq (jbColumns j) =? seq)) (jobs c).
Definition GetJobsByDeploymentSeq (c : Catalog) (db : DB) (seq : Z) : list string :=
  Unique (List.filter (atSequence c seq) (map aJob (List.filter notRemoved (allocations db)))).

(** ** Allocations (allocations.go) *)

Section selection.
Context {E : Type}.

Fixpoint validateActiveWorkerFilter (db : DB) (job : string) (workerFilter : list string) : option (cause E) :=
  match workerFilter with
  | [] => None
  | workerIP :: workerFilter =>
      match IsAllocationRemoved db workerIP job with
      | None => Some (InvalidWorkerFilter workerIP)
      | Some removed =>
          if removed =? 1 then Some (RemovedAllocation workerIP)
          else
            match IsAllocationDisabled db workerIP job with
            | None => Some (InvalidWorkerFilter workerIP)
            | Some disabled =>
                if disabled =? 1 then Some (DisabledAllocation workerIP)
                else validateActiveWorkerFilter db job workerFilter
            end
      end
  end.
Definition resolveControlWorkers (db : DB) (job : string) (workerFilter : list string) : result (cause E) (list string) :=
  match validateActiveWorkerFilter db job workerFilter with
  | Some e => Err e
  | None =>
      match GetActiveAllocations db job with
      | None => Err DatabaseCause
      | Some activeWorkers => Ok (filterWorkers activeWorkers workerFilter)
      end
  end.
Definition errIfNoControlTargets (db : DB) (job : string) (workerFilter selected : list string) : option (cause E) :=
  if (0 <? len selected) || (0 <? len workerFilter) then None
  else if negb (JobHasNonRemovedAllocations db job) then None
  else
    match JobHasActiveAllocations db job with
    | None => Some DatabaseCause
    | Some hasActive => if negb hasActive then Some DisabledJob else None
    end.

(** The loop of [forgetDeployedState], with the workers it could not find. An
    UPDATE of a row that exists does not fail. *)
Fixpoint forgetWorkers (db : DB) (job : string) (workerIPs failed : list string) : DB * list string :=
  match workerIPs with
  | [] => (db, failed)
  | workerIP :: workerIPs =>
      match GetAllocationID db workerIP job with
      | None => forgetWorkers db job workerIPs (failed ++ [workerIP])
      | Some allocID => forgetWorkers (MarkAllocationStartPending db allocID) job workerIPs failed
      end
  end.
Definition forgetDeployedState (db : DB) (job : string) (workerIPs : list string) : DB * option (cause E) :=
  match forgetWorkers db job workerIPs [] with
  | (db, []) => (db, None)
  | (db, failed) => (db, Some (NotForgotten failed))
  end.
End selection.

(** ** Workers (runner.go) *)

(** What the package calls in others: cancellation of the context, a command
    on a worker, the hook scripts, the health check of a job, and the steps
    around a run. *)
Record Effects (W E : Type) := mkEffects {
  ctxErr : W -> option E;
  ExecuteCommand : string -> string -> string -> W -> W * option E;
  RunHookOnWorkers : string -> string -> list string -> Z -> list string -> W -> W * option E;
  HealthCheckWithOptions : DB -> string -> W -> W * option E;
  sessionStore : W -> option Store;
  SetupRuntime : W -> W * option E;
  LogRunBegin : W -> W * option E;
  LogRunEnd : Z -> W -> W;
  PrepareRuntime : DB -> W -> W * option E;
  ValidateBucketGeneration : list string -> W -> W * option E;
  Commit : W -> W * option E;
}.
Arguments mkEffects {W E}.
Arguments ctxErr {W E}.
Arguments ExecuteCommand {W E}.
Arguments RunHookOnWorkers {W E}.
Arguments HealthCheckWithOptions {W E}.
Arguments sessionStore {W E}.
Arguments SetupRuntime {W E}.
Arguments LogRunBegin {W E}.
Arguments LogRunEnd {W E}.
Arguments PrepareRuntime {W E}.
Arguments ValidateBucketGeneration {W E}.
Arguments Commit {W E}.

Definition andThenW {W X} (a b : W -> W * option X) : W -> W * option X :=
  fun w => match a w with (w, Some e) => (w, Some e) | (w, None) => b w end.
Definition mapErr {W X Y} (f : X -> Y) (a : W -> W * option X) : W -> W * option Y :=
  fun w => let '(w, e) := a w in (w, f <$> e).

Section control.
Context {W E : Type}.
Variable fx : Effects W E.
(** Which of the running goroutines ends before the loop goes on; [None] is
    none of them. *)
Variable scheduler : W -> list string -> option nat.
Variable c : Catalog.
Variable hookRows : list HookRow.

(** A goroutine that ends: its command took effect and a failure is recorded. *)
Definition finish (job target ip : string) (failures : list (string * E)) (w : W) : W * list (string * E) :=
  match ExecuteCommand fx job target ip w with
  | (w, None) => (w, failures)
  | (w, Some e) => (w, failures ++ [(ip, e)])
  end.
(** [runWorkerBatch]: the loop that starts a goroutine per worker, then
    [wg.Wait]. A step starts one worker, gives one up, or ends one. *)
Fixpoint batchLoop (fuel : nat) (job target : string) (waiting running : list string) (failures : list (string * E)) (w : W)
    : W * list (string * E) :=
  match fuel with
  | O => (w, failures)
  | S fuel =>
      match i ← scheduler w running; ip ← running !! i; Some (i, ip) with
      | Some (i, ip) =>
          let '(w, failures) := finish job target ip failures w in
          batchLoop fuel job target waiting (delete i running) failures w
      | None =>
          match waiting, running with
          | ip :: waiting, _ =>
              match ctxErr fx w with
              | Some e => batchLoop fuel job target waiting running (failures ++ [(ip, e)]) w
              | None => batchLoop fuel job target waiting (running ++ [ip]) failures w
              end
          | [], ip :: running =>
              let '(w, failures) := finish job target ip failures w in
              batchLoop fuel job target [] running failures w
          | [], [] => (w, failures)
          end
      end
  end.
Definition runWorkerBatch (job target : string) (workerIPs : list string) (w : W) : W * list (string * E) :=
  batchLoop (2 * length workerIPs) job target workerIPs [] [] w.

Definition jobError (job target : string) (e : cause E) : JobRunError E := mkJobRun job target [] (Some e).

(** [healthcheck.HealthCheckWithOptions] when it is asked for. *)
Definition healthCheck (asked : bool) (db : DB) (job target : string) : W -> W * option (JobRunError E) :=
  if asked then mapErr (fun e => jobError job target (Caused e)) (HealthCheckWithOptions fx db job) else fun w => (w, None).

Fixpoint runnerBatches (db : DB) (job target : string) (asked : bool) (batches : list (list string)) (w : W)
    : W * option (JobRunError E) :=
  match batches with
  | [] => (w, None)
  | batch :: batches =>
      match ctxErr fx w with
      | Some e => (w, Some (jobError job target (Caused e)))
      | None =>
          match runWorkerBatch job target batch w with
          | (w, []) => andThenW (healthCheck asked db job target) (runnerBatches db job target asked batches) w
          | (w, failures) => (w, Some (mkJobRun job target failures None))
          end
      end
  end.
Definition runRunnerTarget (db : DB) (job target : string) (asked : bool) (selected : list string) (w : W)
    : W * option (JobRunError E) :=
  if (length selected =? 0)%nat then (w, None)
  else
    match GetMaxConcurrentRestarts c job with
    | None => (w, Some (jobError job target DatabaseCause))
    | Some parallelBatchCount =>
        let parallelBatchCount := if parallelBatchCount <? 1 then 1 else parallelBatchCount in
        runnerBatches db job target asked (batchesFrom (length selected) selected parallelBatchCount 0).*2 w
    end.

(** ** Hooks (commands.go) *)

Definition jobControlEvent : string := "job_control".

Fixpoint controlHooks (job target : string) (ordered : list string) (batchSize : Z) (base : BatchContext)
    (commands : list string) (w : W) : W * option (JobRunError E) :=
  match commands with
  | [] => (w, None)
  | command :: commands =>
      match ctxErr fx w with
      | Some e => (w, Some (jobError job target (Caused e)))
      | None =>
          match RunHookInBatches (ctxErr fx) (RunHookOnWorkers fx job command) None false job ordered batchSize base
                  ["TARGET=" +:+ target] w with
          | (w, e :: _) => (w, Some (jobError job target (Caused e)))
          | (w, []) => controlHooks job target ordered batchSize base commands w
          end
      end
  end.
(** The first component says whether the hooks handled the job. *)
Definition runJobControlHooks (db : DB) (job target : string) (asked : bool) (selected : list string) (w : W)
    : bool * (W * option (JobRunError E)) :=
  match GetHooks hookRows job jobControlEvent with
  | [] => (false, (w, None))
  | commands =>
      if (length selected =? 0)%nat then (true, (w, None))
      else
        match ResolveOrder (E:=E) (Ok (GetNonRemovedAllocationsOrdered c db job)) (sessionStore fx w) job selected with
        | Err e => (false, (w, Some (jobError job target (Caused e))))
        | Ok resolved =>
            match GetMaxConcurrentRestarts c job with
            | None => (false, (w, Some (jobError job target DatabaseCause)))
            | Some batchSize =>
                (true, andThenW
                         (controlHooks job target (Ordered resolved) batchSize
                            (mkBatchContext "" jobControlEvent 0 0 [] (FullOrder resolved) (Source resolved)) commands)
                         (healthCheck asked db job target) w)
            end
        end
  end.

(** ** A run (execute.go) *)

Definition runTarget (db : DB) (job target : string) (asked : bool) (selected : list string) (w : W)
    : W * option (JobRunError E) :=
  match runJobControlHooks db job target asked selected w with
  | (_, (w, Some e)) => (w, Some e)
  | (true, (w, None)) => (w, None)
  | (false, (w, None)) => runRunnerTarget db job target asked selected w
  end.
Definition controlJob (req : Request) (workerFilter : list string) (job : string) (s : DB * W)
    : (DB * W) * option (JobRunError E) :=
  let '(db, w) := s in
  let failed e := ((db, w), Some (jobError job (Target req) e)) in
  match ctxErr fx w with
  | Some e => failed (Caused e)
  | None =>
      match resolveControlWorkers db job workerFilter with
      | Err e => failed e
      | Ok selected =>
          match errIfNoControlTargets db job workerFilter selected with
          | Some e => failed e
          | None =>
              if (length selected =? 0)%nat then (s, None)
              else
                match runTarget db job (Target req) (HealthCheck req) selected w with
                | (w, Some e) => ((db, w), Some e)
                | (w, None) =>
                    if Forget req then
                      match forgetDeployedState db job selected with
                      | (db, e) => ((db, w), jobError job (Target req) <$> e)
                      end
                    else ((db, w), None)
                end
          end
      end
  end.
(** One job after another, on the caller's goroutine. *)
Fixpoint runJobsInParallel (req : Request) (workerFilter jobs : list string) (failures : list (JobRunError E)) (s : DB * W)
    : (DB * W) * list (JobRunError E) :=
  match jobs with
  | [] => (s, failures)
  | job :: jobs =>
      match ctxErr fx s.2 with
      | Some e => (s, failures ++ [jobError job (Target req) (Caused e)])
      | None =>
          match controlJob req workerFilter job s with
          | (s, Some e) => runJobsInParallel req workerFilter jobs (failures ++ [e]) s
          | (s, None) => runJobsInParallel req workerFilter jobs failures s
          end
      end
  end.
Fixpoint sequences (req : Request) (filters : Filters) (seqs : list Z) (failures : list (JobRunError E)) (s : DB * W)
    : (DB * W) * (Z * option (control_error E)) :=
  match seqs with
  | [] =>
      match ctxErr fx s.2 with
      | Some e => (s, (1, Some (Plainly e)))
      | None =>
          let err := newControlError failures in
          (s, (match err with Some _ => 1 | None => 0 end, err))
      end
  | seq :: seqs =>
      match ctxErr fx s.2 with
      | Some e => (s, (1, Some (Plainly e)))
      | None =>
          let selectedJobs := selectJobs (GetJobsByDeploymentSeq c s.1 seq) (fJobs filters) in
          let '(s, failures) := runJobsInParallel req (fWorkers filters) selectedJobs failures s in
          sequences req filters seqs failures s
      end
  end.
(** What follows [SetupRuntime], with the exit code that the deferred
    [LogRunEnd] writes: it is set at the end of the run and by a cancellation
    only. *)
Definition runLogged (req : Request) (filters : Filters) (s : DB * W) : (DB * W) * (Z * option (control_error E)) :=
  let '(db, w) := s in
  match LogRunBegin fx w with
  | (w, Some e) => ((db, w), (0, Some (Plainly e)))
  | (w, None) =>
      match PrepareRuntime fx db w with
      | (w, Some e) => ((db, w), (0, Some (Plainly e)))
      | (w, None) =>
          match ValidateBucketGeneration fx (GetWorkers c []) w with
          | (w, Some e) => ((db, w), (0, Some (Plainly e)))
          | (w, None) => sequences req filters (seqZ 0 (GetMaxDeploymentSeq c + 1)) [] (db, w)
          end
      end
  end.
Definition runControl (req : Request) (s : DB * W) : (DB * W) * option (control_error E) :=
  let filters := ParseFilters (JobsCSV req) (WorkersCSV req) in
  match validateAgainst filters (GetDeployableJobs s.1) (BuildWorkers.GetAllWorkers c) with
  | Some kind => (s, Some (InvalidFilter kind))
  | None =>
      match SetupRuntime fx s.2 with
      | (w, Some e) => ((s.1, w), Some (Plainly e))
      | (w, None) =>
          let '((db, w), (exitCode, err)) := runLogged req filters (s.1, w) in
          ((db, LogRunEnd fx exitCode w), err)
      end
  end.
(** The tables are those that the transaction leaves: it is committed for
    [Forget] only. *)
Definition ExecuteRequestContext (req : Request) (s : DB * W) : (DB * W) * option (control_error E) :=
  match ctxErr fx s.2 with
  | Some e => (s, Some (Plainly e))
  | None =>
      if Forget req && negb (bool_decide (Target req = TargetStop)) then (s, Some ForgetNeedsStop)
      else
        let '((db, w), err) := runControl req s in
        if Forget req then
          match Commit fx w, err with
          | (w, None), _ => ((db, w), err)
          | (w, Some e), Some err => ((s.1, w), Some (AlsoCommit err e))
          | (w, Some e), None => ((s.1, w), Some (Plainly e))
          end
        else ((s.1, w), err)
  end.
End control.
