(* ===== verification/JobControlFacts.v ===== *)
(** * Facts on job control *)
From S2P Require BuildWorkers.
From S2P Require Import Prelude GoStrings Utils Kv Rollout Versions AllocState AllocStateFacts Catalog DeployRun JobControl.
Open Scope Z_scope.

(** ** Targets *)

Lemma builtin_name t : t ∈ builtinTargets -> targetName t = true.
Proof. unfold builtinTargets. intros H. repeat (apply elem_of_cons in H as [->|H]; [done|]). by apply elem_of_nil in H. Qed.
Lemma builtin_parses `{Unicode} t : t ∈ builtinTargets -> ParseTarget t = Some t.
Proof.
  unfold builtinTargets. intros Hin.
  repeat (apply elem_of_cons in Hin as [->|Hin]; [vm_compute; reflexivity|]). by apply elem_of_nil in Hin.
Qed.

(** A target that is accepted is a word of letters, digits, dots, dashes and
    underscores that does not begin with a dash, so it is one argument of the
    runner's command line and not an option; and parsing it again gives it
    back. *)
Theorem ParseTarget_canonical `{Unicode} raw t : ParseTarget raw = Some t -> targetName t = true /\ ParseTarget t = Some t.
Proof.
  unfold ParseTarget at 1. destruct (bool_decide_reflect (TrimSpace raw = "")) as [|Hne]; [done|].
  destruct (List.filter _ builtinTargets) as [|allowed l] eqn:Ef.
  - destruct (targetName (TrimSpace raw)) eqn:En; [|done]. intros [= <-]. split; [done|].
    unfold ParseTarget. rewrite TrimSpace_idem, bool_decide_eq_false_2 by done. by rewrite Ef, En.
  - intros [= <-]. assert (Hin : allowed ∈ builtinTargets).
    { assert (Ha : allowed ∈ allowed :: l) by left. rewrite <- Ef in Ha. by apply elem_of_list_filter_b in Ha as [Ha _]. }
    split; [by apply builtin_name|by apply builtin_parses].
Qed.

(** ** The state that is forgotten *)

(** The rows of an allocation are those of [db]. *)
Definition untouched (db db' : DB) (id : string) : Prop :=
  allocation_hashes db' !! id = allocation_hashes db !! id /\
  forall path, allocation_file_hashes db' !! (id, path) = allocation_file_hashes db !! (id, path).
(** The next deploy starts the allocation as a new one. *)
Definition startPending (db : DB) (id : string) : Prop :=
  (forall h, allocation_hashes db !! id = Some h -> applied_hash h = None) /\
  (forall path r, allocation_file_hashes db !! (id, path) = Some r -> f_applied r = None).

Lemma untouched_refl db id : untouched db db id.
Proof. done. Qed.
Lemma untouched_trans db1 db2 db3 id : untouched db1 db2 id -> untouched db2 db3 id -> untouched db1 db3 id.
Proof. intros [H1 H2] [H3 H4]. split; [congruence|]. intros path. by rewrite H4, H2. Qed.
Lemma startPending_untouched db db' id : untouched db db' id -> startPending db id -> startPending db' id.
Proof. intros [H1 H2] [H3 H4]. split; [intros h; rewrite H1; apply H3|intros path r; rewrite H2; apply H4]. Qed.

Lemma MarkAllocationStartPending_allocations db id : allocations (MarkAllocationStartPending db id) = allocations db.
Proof. done. Qed.
Lemma MarkAllocationStartPending_other db id id' : id' <> id -> untouched db (MarkAllocationStartPending db id) id'.
Proof.
  intros Hn. unfold MarkAllocationStartPending, clearAllocationAppliedFiles. split.
  - cbn. by apply lookup_alter_ne.
  - intros path. rewrite updateFiles_lookup, bool_decide_eq_false_2 by done.
    by destruct (allocation_file_hashes _ !! _).
Qed.
Lemma MarkAllocationStartPending_self db id : startPending (MarkAllocationStartPending db id) id.
Proof.
  unfold MarkAllocationStartPending, clearAllocationAppliedFiles. split.
  - intros h. cbn. rewrite lookup_alter_eq. destruct (_ !! id); cbn; [intros [= <-]; done|done].
  - intros path r. rewrite updateFiles_lookup, bool_decide_eq_true_2 by done. cbn.
    destruct (_ !! _) as [f|]; cbn; [|done]. case_match; [done|]. by intros [= <-].
Qed.

Lemma GetAllocationID_same db db' ip job : allocations db' = allocations db -> GetAllocationID db' ip job = GetAllocationID db ip job.
Proof. unfold GetAllocationID. by intros ->. Qed.

Lemma forgetWorkers_spec job ips : forall db failed db' failed',
  forgetWorkers db job ips failed = (db', failed') ->
  allocations db' = allocations db /\
  (forall id, untouched db db' id \/ (idsOf db job ips id /\ startPending db' id)) /\
  (failed' = [] -> forall ip, ip ∈ ips -> exists id, GetAllocationID db ip job = Some id /\ startPending db' id) /\
  (forall id, startPending db id -> startPending db' id) /\ (failed' = [] -> failed = []).
Proof.
  induction ips as [|ip ips IH]; intros db failed db' failed'; cbn [forgetWorkers].
  { intros [= <- <-]. split_and!; [done|by left|intros _ ip Hip; by apply elem_of_nil in Hip|done|done]. }
  destruct (GetAllocationID db ip job) as [i|] eqn:Ei; intros H; apply IH in H as (Ha & Hu & Hp & Hk & Hf).
  - assert (Hg : forall ip, GetAllocationID (MarkAllocationStartPending db i) ip job = GetAllocationID db ip job) by done.
    assert (Hkeep : forall id, startPending db id -> startPending (MarkAllocationStartPending db i) id).
    { intros id Hid. destruct (decide (id = i)) as [->|Hn]; [apply MarkAllocationStartPending_self|].
      eapply startPending_untouched; [by apply MarkAllocationStartPending_other|done]. }
    split_and!; [done| | |by intros id Hid; apply Hk, Hkeep|done].
    + intros id. destruct (decide (id = i)) as [->|Hn].
      { right. split; [exists ip; split; [left|done]|apply Hk, MarkAllocationStartPending_self]. }
      destruct (Hu id) as [Hid|[(ip' & Hip & Hid) Hs]].
      * left. eapply untouched_trans; [by apply MarkAllocationStartPending_other|done].
      * right. split; [exists ip'; split; [by right|done]|done].
    + intros Hnil ip' Hip. apply elem_of_cons in Hip as [->|Hip]; [|by apply Hp].
      exists i. split; [done|]. apply Hk, MarkAllocationStartPending_self.
  - split_and!; [done| | |done|].
    + intros id. destruct (Hu id) as [Hid|[(ip' & Hip & Hid) Hs]]; [by left|]. right. split; [exists ip'; split; [by right|done]|done].
    + intros Hnil. apply Hf in Hnil. by destruct failed.
    + intros Hnil. apply Hf in Hnil. by destruct failed.
Qed.

Lemma forgetDeployedState_spec {E} db job ips db' (e : option (cause E)) :
  forgetDeployedState db job ips = (db', e) ->
  allocations db' = allocations db /\
  (forall id, untouched db db' id \/ (idsOf db job ips id /\ startPending db' id)) /\
  (e = None -> forall ip, ip ∈ ips -> exists id, GetAllocationID db ip job = Some id /\ startPending db' id) /\
  (forall id, startPending db id -> startPending db' id).
Proof.
  unfold forgetDeployedState. destruct (forgetWorkers db job ips []) as [d failed] eqn:Ef.
  apply forgetWorkers_spec in Ef as (Ha & Hu & Hp & Hk & _). destruct failed; intros [= <- <-]; split_and!; try done. by intros _; apply Hp.
Qed.

(** Every worker that is selected has a row. *)
Lemma forgetWorkers_found job ips : forall db failed,
  (forall ip, ip ∈ ips -> is_Some (GetAllocationID db ip job)) -> (forgetWorkers db job ips failed).2 = failed.
Proof.
  induction ips as [|ip ips IH]; intros db failed Hid; cbn [forgetWorkers]; [done|].
  destruct (Hid ip ltac:(left)) as [i ->]. apply IH. intros ip' Hip. apply (Hid ip'). by right.
Qed.

(** ** Selection *)

Lemma contains_elem values x : contains values x = true <-> x ∈ values.
Proof.
  unfold contains. rewrite existsb_exists. split.
  - intros (y & Hy & ->%bool_decide_eq_true). by apply list_elem_of_In.
  - intros Hx. exists x. split; [by apply list_elem_of_In|by apply bool_decide_eq_true].
Qed.
(** An empty filter selects everything. *)
Definition accepts (filter : list string) (x : string) : Prop := filter = [] \/ x ∈ filter.
Lemma elem_of_selectJobs jobs f x : x ∈ selectJobs jobs f <-> x ∈ jobs /\ accepts f x.
Proof.
  unfold selectJobs, accepts. destruct f as [|y f]; cbn [length Nat.eqb]; [naive_solver|].
  rewrite elem_of_list_filter_b, contains_elem. naive_solver.
Qed.
Lemma elem_of_filterWorkers ips f x : x ∈ filterWorkers ips f <-> x ∈ ips /\ accepts f x.
Proof.
  unfold filterWorkers, accepts. destruct f as [|y f]; cbn [length Nat.eqb]; [naive_solver|].
  rewrite elem_of_list_filter_b. unfold workerSelected. cbn [length Nat.eqb orb]. rewrite contains_elem. naive_solver.
Qed.

Lemma resolveControlWorkers_elem {E} db job f selected : wf_db db ->
  resolveControlWorkers (E := E) db job f = Ok selected ->
  forall ip, ip ∈ selected <-> accepts f ip /\ exists a, a ∈ allocations db /\ aWorker a = ip /\ aJob a = job /\ isActive a = true.
Proof.
  intros Hwf. unfold resolveControlWorkers. destruct (validateActiveWorkerFilter db job f); [done|].
  rewrite GetActiveAllocations_rows by done. intros [= <-] ip. rewrite elem_of_filterWorkers, workersWhere_elem. naive_solver.
Qed.

Lemma foldl_max_ge l : forall s x, x = s \/ x ∈ l -> x <= foldl Z.max s l.
Proof.
  induction l as [|y l IH]; intros s x; cbn [foldl]; [intros [->|H]; [lia|by apply elem_of_nil in H]|].
  intros [->|[->|Hx]%elem_of_cons].
  - etrans; [|apply (IH _ _ (or_introl eq_refl))]. lia.
  - etrans; [|apply (IH _ _ (or_introl eq_refl))]. lia.
  - by apply IH; right.
Qed.
Lemma GetMaxDeploymentSeq_ge c j : j ∈ jobs c -> jcDeploymentSeq (jbColumns j) <= GetMaxDeploymentSeq c.
Proof.
  intros Hj. unfold GetMaxDeploymentSeq.
  assert (Hin : jcDeploymentSeq (jbColumns j) ∈ map (fun j => jcDeploymentSeq (jbColumns j)) (jobs c)) by (apply list_elem_of_fmap; eauto).
  destruct (map _ _) as [|s l]; [by apply elem_of_nil in Hin|]. apply foldl_max_ge. by apply elem_of_cons in Hin.
Qed.
Lemma elem_of_GetJobsByDeploymentSeq c db seq job :
  job ∈ GetJobsByDeploymentSeq c db seq <->
  (exists j, j ∈ jobs c /\ jbName j = job /\ jcDeploymentSeq (jbColumns j) = seq) /\
  exists a, a ∈ allocations db /\ aJob a = job /\ notRemoved a = true.
Proof.
  unfold GetJobsByDeploymentSeq. rewrite elem_of_Unique, elem_of_list_filter_b, list_elem_of_fmap. unfold atSequence. rewrite existsb_exists.
  setoid_rewrite elem_of_list_filter_b. split.
  - intros [(a & -> & Ha & Hr) (j & Hj%list_elem_of_In & Hp)]. bool_to_prop. eauto 10.
  - intros [(j & Hj & <- & <-) (a & Ha & Hn & Hr)]. split; [by exists a|]. exists j. split; [by apply list_elem_of_In|].
    rewrite bool_decide_eq_true_2 by done. by rewrite Z.eqb_refl.
Qed.

(** ** What has run

    [ran] is the log of the commands that succeeded on the workers: a command
    or a hook that succeeds adds its allocations, and nothing takes away. *)

Lemma ResolveOrder_complete {E} catalog store job candidates r :
  ResolveOrder (E := E) (Ok catalog) store job candidates = Ok r -> forall ip, ip ∈ candidates -> ip ∈ Ordered r.
Proof.
  unfold ResolveOrder. destruct (length candidates =? 0)%nat eqn:En; bool_to_prop.
  { destruct candidates; [|done]. intros _ ip Hip. by apply elem_of_nil in Hip. }
  cbn [rbind]. assert (Hd : forall ip, ip ∈ candidates -> ip ∈ defaultCatalogOrder catalog candidates).
  { intros ip Hip. unfold defaultCatalogOrder. rewrite (proj1 (appendMissing_spec _ _)). by right. }
  destruct (readRolloutOrderKV store job) as [raw|]; [|by intros [= <-]].
  destruct (validateRolloutOrderList (parseOrderList raw) (set_of candidates)) eqn:Ev; [by intros [= <-]|].
  apply validate_spec in Ev as [_ Hx]. intros [= <-] ip Hip. unfold orderByList. cbn [Ordered].
  apply elem_of_list_filter_b. split; [by apply Hx, elem_set_of|by apply bool_decide_eq_true, elem_set_of].
Qed.

Section ran.
Context {W E : Type}.
Variable fx : Effects W E.
Variable scheduler : W -> list string -> option nat.
Variable c : Catalog.
Variable hookRows : list HookRow.
Variable ran : W -> gset (string * string).

Definition grows {X} (f : W -> W * X) : Prop := forall w, ran w ⊆ ran (f w).1.
(** The hypotheses on the other packages. *)
Record lawful : Prop := mkLawful {
  law_command : forall job target ip w w' e, ExecuteCommand fx job target ip w = (w', e) ->
    ran w ⊆ ran w' /\ (e = None -> (job, ip) ∈ ran w');
  law_hook : forall job command ips n env w w' e, RunHookOnWorkers fx job command ips n env w = (w', e) ->
    ran w ⊆ ran w' /\ (e = None -> forall ip, ip ∈ ips -> (job, ip) ∈ ran w');
  law_health : forall db job, grows (HealthCheckWithOptions fx db job);
  law_setup : grows (SetupRuntime fx);
  law_begin : grows (LogRunBegin fx);
  law_end : forall code w, ran w ⊆ ran (LogRunEnd fx code w);
  law_prepare : forall db, grows (PrepareRuntime fx db);
  law_validate : forall ips, grows (ValidateBucketGeneration fx ips);
  law_commit : grows (Commit fx);
}.
Hypothesis law : lawful.

Lemma finish_ran job target ip failures w w' fs :
  finish fx job target ip failures w = (w', fs) ->
  ran w ⊆ ran w' /\ (fs = [] -> failures = [] /\ (job, ip) ∈ ran w').
Proof.
  unfold finish. destruct (ExecuteCommand fx job target ip w) as [w1 [e|]] eqn:Ex;
    apply (law_command law) in Ex as [Hs Hr]; intros [= <- <-].
  - split; [done|]. by destruct failures.
  - split; [done|]. intros ->. split; [done|]. by apply Hr.
Qed.

(** The loop of a batch comes to its end within its fuel, and a batch without
    a failure has run on every worker. *)
Lemma batchLoop_ran fuel job target : forall waiting running failures w w' fs,
  (2 * length waiting + length running <= fuel)%nat ->
  batchLoop fx scheduler fuel job target waiting running failures w = (w', fs) ->
  ran w ⊆ ran w' /\ (fs = [] -> failures = [] /\ forall ip, ip ∈ waiting ++ running -> (job, ip) ∈ ran w').
Proof.
  induction fuel as [|fuel IH]; intros waiting running failures w w' fs Hf; cbn [batchLoop].
  { assert (waiting = [] /\ running = []) as [-> ->] by (destruct waiting, running; cbn in Hf; split; done || lia).
    intros [= <- <-]. split; [done|]. intros ->. split; [done|]. intros ip Hip. by apply elem_of_nil in Hip. }
  destruct (i ← scheduler w running; ip ← running !! i; Some (i, ip)) as [[i ip]|] eqn:Es.
  - destruct (scheduler w running) as [k|]; [|done]. cbn in Es. destruct (running !! k) as [x|] eqn:Ek; [|done]. cbn in Es.
    injection Es as -> ->. destruct (finish fx job target ip failures w) as [w1 f1] eqn:Ex. apply finish_ran in Ex as [Hs1 Hr1].
    intros H. apply IH in H as [Hs2 Hr2]; [|pose proof (length_delete running i ltac:(eauto)); apply lookup_lt_Some in Ek; lia].
    split; [by etrans|]. intros Hnil. destruct (Hr2 Hnil) as [Hf1 Hall]. destruct (Hr1 Hf1) as [-> Hip]. split; [done|].
    intros y [Hy|Hy]%elem_of_app; [apply Hall, elem_of_app; by left|].
    rewrite (delete_Permutation running i ip Ek) in Hy. apply elem_of_cons in Hy as [->|Hy]; [by apply Hs2|].
    apply Hall, elem_of_app. by right.
  - destruct waiting as [|ip waiting].
    + destruct running as [|ip running]; [intros [= <- <-]; split; [done|]; intros ->; split; [done|]; intros ip Hip; by apply elem_of_nil in Hip|].
      destruct (finish fx job target ip failures w) as [w1 f1] eqn:Ex. apply finish_ran in Ex as [Hs1 Hr1].
      intros H. apply IH in H as [Hs2 Hr2]; [|cbn in *; lia]. split; [by etrans|]. intros Hnil.
      destruct (Hr2 Hnil) as [Hf1 Hall]. destruct (Hr1 Hf1) as [-> Hip]. split; [done|].
      intros y [->|Hy]%elem_of_cons; [by apply Hs2|by apply Hall].
    + destruct (ctxErr fx w) as [e|]; intros H; apply IH in H as [Hs Hr]; [|cbn in *; lia| |rewrite length_app; cbn in *; lia].
      * split; [done|]. intros Hnil. apply Hr in Hnil as [Hn _]. by destruct failures.
      * split; [done|]. intros Hnil. destruct (Hr Hnil) as [-> Hall]. split; [done|]. intros y Hy. apply Hall. set_solver.
Qed.
Lemma runWorkerBatch_ran job target ips w w' fs :
  runWorkerBatch fx scheduler job target ips w = (w', fs) ->
  ran w ⊆ ran w' /\ (fs = [] -> forall ip, ip ∈ ips -> (job, ip) ∈ ran w').
Proof.
  intros H. apply batchLoop_ran in H as [Hs Hr]; [|cbn; lia]. split; [done|]. intros Hnil ip Hip.
  apply (Hr Hnil). rewrite app_nil_r. done.
Qed.

(** [f] ran on the workers when it ends without an error. *)
Definition runsOn {X} (job : string) (ips : list string) (f : W -> W * option X) : Prop :=
  forall w w' e, f w = (w', e) -> ran w ⊆ ran w' /\ (e = None -> forall ip, ip ∈ ips -> (job, ip) ∈ ran w').

Lemma andThenW_runs {X} job l1 l2 (a b : W -> W * option X) : runsOn job l1 a -> runsOn job l2 b -> runsOn job (l1 ++ l2) (andThenW a b).
Proof.
  intros Ha Hb w w' e. unfold andThenW. destruct (a w) as [w1 [x|]] eqn:Ea; apply Ha in Ea as [Hs1 Hr1].
  { by intros [= <- <-]. }
  intros H. apply Hb in H as [Hs2 Hr2]. split; [by etrans|]. intros -> ip [Hip|Hip]%elem_of_app; [by apply Hs2, Hr1|by apply Hr2].
Qed.
Lemma healthCheck_runs asked db job target : runsOn job [] (healthCheck fx asked db job target).
Proof.
  intros w w' e. unfold healthCheck, mapErr. destruct asked; [|intros [= <- <-]; split; [done|]; intros _ ip Hip; by apply elem_of_nil in Hip].
  pose proof (law_health law db job w) as Hs. destruct (HealthCheckWithOptions fx db job w) as [w1 x]. intros [= <- <-].
  split; [done|]. intros _ ip Hip. by apply elem_of_nil in Hip.
Qed.
Lemma runsOn_elem {X} job l1 l2 (f : W -> W * option X) : (forall ip, ip ∈ l2 -> ip ∈ l1) -> runsOn job l1 f -> runsOn job l2 f.
Proof. intros Hl Hf w w' e H. apply Hf in H as [Hs Hr]. split; [done|]. intros He ip Hip. by apply Hr, Hl. Qed.

Lemma runnerBatches_runs db job target asked batches : runsOn job (concat batches) (runnerBatches fx scheduler db job target asked batches).
Proof.
  induction batches as [|batch batches IH]; intros w w' e; cbn [runnerBatches concat].
  { intros [= <- <-]. split; [done|]. intros _ ip Hip. by apply elem_of_nil in Hip. }
  destruct (ctxErr fx w); [by intros [= <- <-]|].
  destruct (runWorkerBatch fx scheduler job target batch w) as [w1 [|f fs]] eqn:Eb; apply runWorkerBatch_ran in Eb as [Hs Hr]; [|by intros [= <- <-]].
  intros H. apply (andThenW_runs job [] (concat batches) _ _ (healthCheck_runs asked db job target) IH) in H as [Hs2 Hr2].
  split; [by etrans|]. intros He ip [Hip|Hip]%elem_of_app; [by apply Hs2, Hr|by apply Hr2].
Qed.
Lemma runRunnerTarget_runs db job target asked selected : runsOn job selected (runRunnerTarget fx scheduler c db job target asked selected).
Proof.
  intros w w' e. unfold runRunnerTarget. destruct (length selected =? 0)%nat eqn:El.
  { bool_to_prop. destruct selected; [|done]. intros [= <- <-]. split; [done|]. intros _ ip Hip. by apply elem_of_nil in Hip. }
  destruct (GetMaxConcurrentRestarts c job) as [n|]; [|by intros [= <- <-]].
  intros H. apply runnerBatches_runs in H. rewrite batchesFrom_concat in H; [done| |lia|unfold len; lia].
  destruct (n <? 1) eqn:En; bool_to_prop; lia.
Qed.

Lemma runBatches_runs job command base extraEnv count batches : forall i w w' errs,
  runBatches (ctxErr fx) (RunHookOnWorkers fx job command) None false base job extraEnv count i batches [] w = (w', errs) ->
  ran w ⊆ ran w' /\ (errs = [] -> forall ip, ip ∈ concat batches -> (job, ip) ∈ ran w').
Proof.
  induction batches as [|ips batches IH]; intros i w w' errs; cbn [runBatches concat].
  { intros [= <- <-]. split; [done|]. intros _ ip Hip. by apply elem_of_nil in Hip. }
  destruct (ctxErr fx w); [by intros [= <- <-]|].
  destruct (RunHookOnWorkers fx job command ips _ _ w) as [w1 [e|]] eqn:Ex; apply (law_hook law) in Ex as [Hs Hr]; [by intros [= <- <-]|].
  intros H. apply IH in H as [Hs2 Hr2]. split; [by etrans|]. intros He ip [Hip|Hip]%elem_of_app; [by apply Hs2, Hr|by apply Hr2].
Qed.
Lemma controlHooks_runs job target ordered size base commands : forall w w' e,
  controlHooks fx job target ordered size base commands w = (w', e) ->
  ran w ⊆ ran w' /\ (e = None -> commands <> [] -> forall ip, ip ∈ ordered -> (job, ip) ∈ ran w').
Proof.
  induction commands as [|command commands IH]; intros w w' e; cbn [controlHooks]; [by intros [= <- <-]|].
  destruct (ctxErr fx w); [by intros [= <- <-]|].
  destruct (RunHookInBatches _ _ _ _ _ _ _ _ _ w) as [w1 errs] eqn:Ex.
  assert (ran w ⊆ ran w1 /\ (errs = [] -> forall ip, ip ∈ ordered -> (job, ip) ∈ ran w1)) as [Hs Hr].
  { unfold RunHookInBatches in Ex. destruct (length ordered =? 0)%nat eqn:El.
    { bool_to_prop. destruct ordered; [|done]. injection Ex as <- <-. split; [done|]. intros _ ip Hip. by apply elem_of_nil in Hip. }
    apply runBatches_runs in Ex. by rewrite SplitWorkerBatches_concat in Ex. }
  destruct errs as [|x errs]; [|by intros [= <- <-]]. intros H. apply IH in H as [Hs2 Hr2].
  split; [by etrans|]. intros He _ ip Hip. by apply Hs2, Hr.
Qed.
Lemma runTarget_runs db job target asked selected : runsOn job selected (runTarget fx scheduler c hookRows db job target asked selected).
Proof.
  intros w w' e. unfold runTarget, runJobControlHooks.
  destruct (GetHooks hookRows job jobControlEvent) as [|command commands] eqn:Eh; [apply runRunnerTarget_runs|].
  destruct (length selected =? 0)%nat eqn:El.
  { bool_to_prop. destruct selected; [|done]. intros [= <- <-]. split; [done|]. intros _ ip Hip. by apply elem_of_nil in Hip. }
  destruct (ResolveOrder _ _ job selected) as [resolved|x] eqn:Er; [|by intros [= <- <-]].
  destruct (GetMaxConcurrentRestarts c job) as [size|]; [|by intros [= <- <-]].
  assert (Hruns : forall base, runsOn job selected (andThenW (controlHooks fx job target (Ordered resolved) size base (command :: commands)) (healthCheck fx asked db job target))).
  { intros base. rewrite <- (app_nil_r selected). apply andThenW_runs; [|apply healthCheck_runs].
    intros v v' x H. apply controlHooks_runs in H as [Hs Hr]. split; [done|]. intros -> ip Hip.
    by apply Hr, (ResolveOrder_complete _ _ _ _ _ Er). }
  match goal with |- context [andThenW ?a ?b w] => destruct (andThenW a b w) as [w1 [x|]] eqn:Ex end;
    apply Hruns in Ex as [Hs Hr]; intros [= <- <-]; done.
Qed.

(** An error of the job's commands names the job. *)
Definition names (job : string) (r : W * option (JobRunError E)) : Prop := forall x, r.2 = Some x -> jrJob x = job.

Lemma andThenW_names job (a b : W -> W * option (JobRunError E)) w :
  names job (a w) -> (forall w, names job (b w)) -> names job (andThenW a b w).
Proof. intros Ha Hb. unfold andThenW. destruct (a w) as [w1 [e|]]; [exact Ha|apply Hb]. Qed.
Lemma healthCheck_names asked db job target w : names job (healthCheck fx asked db job target w).
Proof.
  unfold healthCheck, mapErr, names. destruct asked; [|done]. destruct (HealthCheckWithOptions fx db job w) as [w1 [e|]]; [|done].
  by intros x [= <-].
Qed.
Lemma runnerBatches_names db job target asked batches : forall w, names job (runnerBatches fx scheduler db job target asked batches w).
Proof.
  induction batches as [|batch batches IH]; intros w; cbn [runnerBatches]; [done|]. destruct (ctxErr fx w); [by intros x [= <-]|].
  destruct (runWorkerBatch fx scheduler job target batch w) as [w1 [|f fs]]; [|by intros x [= <-]].
  apply andThenW_names; [apply healthCheck_names|done].
Qed.
Lemma controlHooks_names job target ordered size base commands : forall w,
  names job (controlHooks fx job target ordered size base commands w).
Proof.
  induction commands as [|command commands IH]; intros w; cbn [controlHooks]; [done|]. destruct (ctxErr fx w); [by intros x [= <-]|].
  destruct (RunHookInBatches _ _ _ _ _ _ _ _ _ w) as [w1 [|e errs]]; [apply IH|by intros x [= <-]].
Qed.
Lemma runTarget_names db job target asked selected w : names job (runTarget fx scheduler c hookRows db job target asked selected w).
Proof.
  unfold runTarget, runJobControlHooks.
  assert (Hrun : names job (runRunnerTarget fx scheduler c db job target asked selected w)).
  { unfold runRunnerTarget. destruct (length selected =? 0)%nat; [done|].
    destruct (GetMaxConcurrentRestarts c job); [apply runnerBatches_names|by intros x [= <-]]. }
  destruct (GetHooks hookRows job jobControlEvent) as [|command commands]; [exact Hrun|].
  destruct (length selected =? 0)%nat; [done|]. destruct (ResolveOrder _ _ job selected) as [resolved|x]; [|by intros y [= <-]].
  destruct (GetMaxConcurrentRestarts c job) as [size|]; [|by intros y [= <-]].
  match goal with |- context [andThenW ?a ?b w] => assert (Hh : names job (andThenW a b w)) by
    (apply andThenW_names; [apply controlHooks_names|apply healthCheck_names]); destruct (andThenW a b w) as [w1 [x|]] end; done.
Qed.

(** ** The tables and the log over a run *)

Section run.
Variable req : Request.
Variable filters : Filters.
Notation State := (DB * W)%type.

(** A forgotten allocation: active, selected by both filters, and its command
    succeeded. *)
Definition controlled (s : State) (id : string) : Prop :=
  exists a, a ∈ allocations s.1 /\ aAllocID a = id /\ isActive a = true /\
    accepts (fJobs filters) (aJob a) /\ accepts (fWorkers filters) (aWorker a) /\
    (aJob a, aWorker a) ∈ ran s.2 /\ startPending s.1 id.
Record advance (s s' : State) : Prop := mkAdvance {
  adv_rows : allocations s'.1 = allocations s.1;
  adv_ran : ran s.2 ⊆ ran s'.2;
  adv_kept : forall id, startPending s.1 id -> startPending s'.1 id;
  adv_only : forall id, untouched s.1 s'.1 id \/ controlled s' id;
  adv_tables : Forget req = false -> s'.1 = s.1;
}.
Lemma advance_refl s w : ran s.2 ⊆ ran w -> advance s (s.1, w).
Proof. intros H. split; cbn; try done. intros id. by left. Qed.
Lemma controlled_advance s s' id : advance s s' -> controlled s id -> controlled s' id.
Proof.
  intros Ha (a & Hin & Hid & Hact & Hj & Hw & Hr & Hs). exists a. rewrite (adv_rows _ _ Ha).
  split_and!; try done; [by apply (adv_ran _ _ Ha)|by apply (adv_kept _ _ Ha)].
Qed.
Lemma advance_trans s1 s2 s3 : advance s1 s2 -> advance s2 s3 -> advance s1 s3.
Proof.
  intros H1 H2. split.
  - by rewrite (adv_rows _ _ H2), (adv_rows _ _ H1).
  - etrans; [apply (adv_ran _ _ H1)|apply (adv_ran _ _ H2)].
  - intros id Hid. by apply (adv_kept _ _ H2), (adv_kept _ _ H1).
  - intros id. destruct (adv_only _ _ H2 id) as [Hu|Hc]; [|by right].
    destruct (adv_only _ _ H1 id) as [Hu1|Hc1]; [left; by eapply untouched_trans|right; by eapply controlled_advance].
  - intros Hf. by rewrite (adv_tables _ _ H2), (adv_tables _ _ H1).
Qed.

(** Every active allocation of the job that is asked for is settled. *)
Definition settled (s : State) (job : string) : Prop :=
  forall a, a ∈ allocations s.1 -> aJob a = job -> isActive a = true -> accepts (fWorkers filters) (aWorker a) ->
    (job, aWorker a) ∈ ran s.2 /\ (Forget req = true -> startPending s.1 (aAllocID a)).
Lemma settled_advance s s' job : advance s s' -> settled s job -> settled s' job.
Proof.
  intros Ha Hs a Hin Hj Hact Hacc. rewrite (adv_rows _ _ Ha) in Hin. destruct (Hs a Hin Hj Hact Hacc) as [Hr Hf].
  split; [by apply (adv_ran _ _ Ha)|]. intros Hfr. by apply (adv_kept _ _ Ha), Hf.
Qed.

Lemma wf_db_rows db db' : allocations db' = allocations db -> wf_db db -> wf_db db'.
Proof. unfold wf_db. by intros ->. Qed.

(** Forgetting after the command succeeded on the selected workers. *)
Lemma forget_advance {X} db w job selected db' (e : option (cause X)) : wf_db db -> Forget req = true -> accepts (fJobs filters) job ->
  (forall ip, ip ∈ selected <-> accepts (fWorkers filters) ip /\ exists a, a ∈ allocations db /\ aWorker a = ip /\ aJob a = job /\ isActive a = true) ->
  (forall ip, ip ∈ selected -> (job, ip) ∈ ran w) ->
  forgetDeployedState db job selected = (db', e) ->
  advance (db, w) (db', w) /\ (e = None -> settled (db', w) job).
Proof.
  intros Hwf Hforget Hjob Hsel Hran Hf. apply forgetDeployedState_spec in Hf as (Ha & Hu & Hp & Hk). split.
  - split; cbn; try done; [|by rewrite Hforget].
    intros id. destruct (Hu id) as [Hid|[(ip & Hip & Hid) Hs]]; [by left|]. right.
    pose proof Hip as Hin. apply Hsel in Hin as [Hacc (a & Hin & <- & <- & Hact)].
    rewrite (GetAllocationID_row db a Hwf Hin) in Hid. injection Hid as <-.
    exists a. cbn. rewrite Ha. split_and!; try done. by apply Hran.
  - intros He a Hin Hj Hact Hacc. cbn in *. rewrite Ha in Hin.
    assert (Hip : aWorker a ∈ selected) by (apply Hsel; split; [done|by exists a]).
    split; [by apply Hran|]. intros _. destruct (Hp He _ Hip) as (id & Hid & Hs). subst job.
    rewrite (GetAllocationID_row db a Hwf Hin) in Hid. by injection Hid as <-.
Qed.

Lemma controlJob_spec job s s' e : wf_db s.1 -> accepts (fJobs filters) job ->
  controlJob fx scheduler c hookRows req (fWorkers filters) job s = (s', e) ->
  advance s s' /\ (e = None -> settled s' job).
Proof.
  destruct s as [db w]. cbn [fst]. intros Hwf Hjob. unfold controlJob.
  assert (Hsame : forall x, advance (db, w) (db, w) /\ (Some x = @None (JobRunError E) -> settled (db, w) job)) by (split; [by apply (advance_refl (db, w))|done]).
  destruct (ctxErr fx w); [by intros [= <- <-]|].
  destruct (resolveControlWorkers db job (fWorkers filters)) as [selected|x] eqn:Er; [|by intros [= <- <-]].
  pose proof (resolveControlWorkers_elem _ _ _ _ Hwf Er) as Hsel.
  destruct (errIfNoControlTargets db job (fWorkers filters) selected); [by intros [= <- <-]|].
  destruct (length selected =? 0)%nat eqn:El.
  { bool_to_prop. destruct selected; [|done]. intros [= <- <-]. split; [by apply (advance_refl (db, w))|].
    intros _ a Hin Hj Hact Hacc. exfalso. apply (not_elem_of_nil (aWorker a)), Hsel. split; [done|by exists a]. }
  destruct (runTarget fx scheduler c hookRows db job (Target req) (HealthCheck req) selected w) as [w1 e1] eqn:Et.
  apply runTarget_runs in Et as [Hs Hr]. pose proof (advance_refl (db, w) w1 Hs) as Hadv.
  destruct e1 as [x|]; [by intros [= <- <-]|]. destruct (Forget req) eqn:Ef.
  - destruct (forgetDeployedState db job selected) as [db' x] eqn:Eforget. intros [= <- <-].
    eapply (forget_advance _ w1) in Eforget as [Hadv2 Hset]; [|done..|by apply Hr].
    split; [by eapply advance_trans|]. intros Hx. apply Hset. by destruct x.
  - intros [= <- <-]. split; [done|]. intros _ a Hin Hj Hact Hacc. split; [|by rewrite Ef].
    apply Hr; [done|]. apply Hsel. split; [done|by exists a].
Qed.

Lemma runJobs_spec jobs : forall failures s s' fs, wf_db s.1 -> (forall job, job ∈ jobs -> accepts (fJobs filters) job) ->
  runJobsInParallel fx scheduler c hookRows req (fWorkers filters) jobs failures s = (s', fs) ->
  advance s s' /\ (fs = [] -> failures = [] /\ forall job, job ∈ jobs -> settled s' job).
Proof.
  induction jobs as [|job jobs IH]; intros failures s s' fs Hwf Hjobs; cbn [runJobsInParallel].
  { intros [= <- <-]. split; [destruct s; by apply (advance_refl (_, _))|]. intros ->. split; [done|]. intros job Hj. by apply elem_of_nil in Hj. }
  destruct (ctxErr fx s.2).
  { intros [= <- <-]. split; [destruct s; by apply (advance_refl (_, _))|]. by destruct failures. }
  destruct (controlJob fx scheduler c hookRows req (fWorkers filters) job s) as [s1 e] eqn:Ec.
  apply controlJob_spec in Ec as [Hadv Hset]; [|done|apply Hjobs; left].
  assert (Hwf1 : wf_db s1.1) by (eapply wf_db_rows; [apply (adv_rows _ _ Hadv)|done]).
  destruct e as [e|]; intros H; apply IH in H as [Hadv2 Hdone]; try done; try (intros j Hj; apply Hjobs; by right).
  - split; [by eapply advance_trans|]. intros Hnil. apply Hdone in Hnil as [Hn _]. by destruct failures.
  - split; [by eapply advance_trans|]. intros Hnil. apply Hdone in Hnil as [Hn Hall]. split; [done|].
    intros j [->|Hj]%elem_of_cons; [|by apply Hall]. by eapply settled_advance, Hset.
Qed.

(** Nothing of the job was touched. *)
Definition jobUntouched (db db' : DB) (job : string) : Prop :=
  forall a, a ∈ allocations db -> aJob a = job -> untouched db db' (aAllocID a).
Lemma jobUntouched_refl db job : jobUntouched db db job.
Proof. intros a _ _. apply untouched_refl. Qed.
Lemma jobUntouched_trans db1 db2 db3 job : allocations db2 = allocations db1 ->
  jobUntouched db1 db2 job -> jobUntouched db2 db3 job -> jobUntouched db1 db3 job.
Proof. intros Hr H1 H2 a Ha Hj. eapply untouched_trans; [by apply H1|]. apply H2; [by rewrite Hr|done]. Qed.

(** What part of a run did to the jobs it visited: the state of a job is all
    settled or all untouched, the jobs it reports are untouched, and unless
    the context has ended the jobs it does not report are settled. *)
Definition ended (w : W) : Prop := is_Some (ctxErr fx w).
Record visited (s s' : State) (jobs : list string) (new : list (JobRunError E)) : Prop := mkVisited {
  vd_other : forall job, job ∉ jobs -> jobUntouched s.1 s'.1 job;
  vd_whole : forall job, jobUntouched s.1 s'.1 job \/ settled s' job;
  vd_failed : forall job, job ∈ map jrJob new -> job ∈ jobs /\ jobUntouched s.1 s'.1 job;
  vd_done : ended s'.2 \/ forall job, job ∈ jobs -> job ∉ map jrJob new -> settled s' job;
}.

Lemma visited_nil s w : visited s (s.1, w) [] [].
Proof.
  split; cbn.
  - intros. apply jobUntouched_refl.
  - intros. left. apply jobUntouched_refl.
  - by intros job ?%elem_of_nil.
  - right. by intros job ?%elem_of_nil.
Qed.
Lemma visited_ended s jobs new : ended s.2 -> (forall job, job ∈ map jrJob new -> job ∈ jobs) -> visited s s jobs new.
Proof.
  intros He Hn. split; [intros; apply jobUntouched_refl|intros; left; apply jobUntouched_refl| |by left].
  intros job Hj. split; [by apply Hn|apply jobUntouched_refl].
Qed.
Lemma visited_app s1 s2 s3 jobs1 jobs2 new1 new2 :
  (forall job, job ∈ jobs1 -> job ∉ jobs2) -> advance s1 s2 -> advance s2 s3 -> (ended s2.2 -> ended s3.2) ->
  visited s1 s2 jobs1 new1 -> visited s2 s3 jobs2 new2 -> visited s1 s3 (jobs1 ++ jobs2) (new1 ++ new2).
Proof.
  intros Hd Ha1 Ha Hend V1 V2. pose proof (adv_rows _ _ Ha1) as Hr. split.
  - intros job Hj. rewrite elem_of_app in Hj. eapply jobUntouched_trans; [done|apply V1; tauto|apply V2; tauto].
  - intros job. destruct (decide (job ∈ jobs2)) as [H2|H2].
    + destruct (vd_whole _ _ _ _ V2 job) as [Hu|Hs]; [left|by right].
      eapply jobUntouched_trans; [done|apply V1|done]. intros H1. by apply (Hd job).
    + destruct (vd_whole _ _ _ _ V1 job) as [Hu|Hs]; [left|right; by eapply settled_advance].
      eapply jobUntouched_trans; [done|done|by apply V2].
  - intros job Hj. rewrite map_app in Hj. apply elem_of_app in Hj as [Hj|Hj].
    + destruct (vd_failed _ _ _ _ V1 job Hj) as [H1 Hu]. split; [apply elem_of_app; by left|].
      eapply jobUntouched_trans; [done|done|]. apply V2. by apply Hd.
    + destruct (vd_failed _ _ _ _ V2 job Hj) as [H2 Hu]. split; [apply elem_of_app; by right|].
      eapply jobUntouched_trans; [done|apply V1|done]. intros H1. by apply (Hd job).
  - destruct (vd_done _ _ _ _ V1) as [He|H1]; [left; by apply Hend|]. destruct (vd_done _ _ _ _ V2) as [He|H2]; [by left|right].
    intros job Hj Hn. rewrite map_app, elem_of_app in Hn. apply elem_of_app in Hj as [Hj|Hj].
    + eapply settled_advance; [done|]. apply H1; tauto.
    + apply H2; tauto.
Qed.

Lemma controlJob_visited job s s' e : wf_db s.1 -> accepts (fJobs filters) job ->
  controlJob fx scheduler c hookRows req (fWorkers filters) job s = (s', e) ->
  visited s s' [job] (match e with Some x => [x] | None => [] end).
Proof.
  intros Hwf Hjob Hc. pose proof (controlJob_spec _ _ _ _ Hwf Hjob Hc) as [Hadv Hset].
  assert ((forall x, e = Some x -> jrJob x = job /\ s'.1 = s.1) /\ forall j, j <> job -> jobUntouched s.1 s'.1 j) as [Herr Hoth].
  { revert Hc. destruct s as [db w]. cbn [fst] in *. unfold controlJob.
    assert (Hsame : forall w' (o : option (JobRunError E)), (forall x, o = Some x -> jrJob x = job) ->
      (forall x, o = Some x -> jrJob x = job /\ (db, w' : W).1 = db) /\ forall j, j <> job -> jobUntouched db (db, w' : W).1 j)
      by (intros; split; [eauto|intros; apply jobUntouched_refl]).
    destruct (ctxErr fx w); [intros [= <- <-]; apply Hsame; by intros x [= <-]|].
    destruct (resolveControlWorkers db job (fWorkers filters)) as [selected|x] eqn:Er; [|intros [= <- <-]; apply Hsame; by intros y [= <-]].
    destruct (errIfNoControlTargets db job (fWorkers filters) selected); [intros [= <- <-]; apply Hsame; by intros y [= <-]|].
    destruct (length selected =? 0)%nat; [intros [= <- <-]; by apply Hsame|].
    pose proof (runTarget_names db job (Target req) (HealthCheck req) selected w) as Hn.
    destruct (runTarget fx scheduler c hookRows db job (Target req) (HealthCheck req) selected w) as [w1 [x|]].
    { intros [= <- <-]. apply Hsame. intros y [= <-]. by apply Hn. }
    destruct (Forget req); [|intros [= <- <-]; by apply Hsame].
    assert (Hids : forall ip, ip ∈ selected -> exists a, a ∈ allocations db /\ GetAllocationID db ip job = Some (aAllocID a) /\ aJob a = job).
    { intros ip Hip. apply (resolveControlWorkers_elem _ _ _ _ Hwf Er) in Hip as [_ (a & Hin & <- & <- & _)].
      exists a. by rewrite GetAllocationID_row. }
    unfold forgetDeployedState. pose proof (forgetWorkers_found job selected db []) as Hf.
    destruct (forgetWorkers db job selected []) as [db' failed] eqn:Ew. cbn [snd] in Hf.
    rewrite Hf by (intros ip Hip; destruct (Hids ip Hip) as (a & _ & -> & _); eauto). intros [= <- <-]. split; [done|].
    apply forgetWorkers_spec in Ew as (_ & Hu & _). intros j Hj a Hin Ha. destruct (Hu (aAllocID a)) as [?|[(ip & Hip & Hid) _]]; [done|].
    destruct (Hids ip Hip) as (b & Hb & Hbid & Hbj). rewrite Hid in Hbid. injection Hbid as Hbid.
    destruct Hwf as [Hk _]. rewrite (NoDup_map_inj _ _ _ _ Hk Hin Hb Hbid) in Ha. congruence. }
  destruct s' as [db' w']. cbn [fst] in *. split; cbn.
  - intros j Hj. apply Hoth. intros ->. apply Hj. by left.
  - intros j. destruct (decide (j = job)) as [->|Hne]; [|left; by apply Hoth].
    destruct e as [x|]; [left|right; by apply Hset]. destruct (Herr x eq_refl) as [_ ->]. apply jobUntouched_refl.
  - intros j Hj. destruct e as [x|]; [|by apply elem_of_nil in Hj]. cbn in Hj. apply list_elem_of_singleton in Hj as ->.
    destruct (Herr x eq_refl) as [-> ->]. split; [by left|apply jobUntouched_refl].
  - right. intros j ->%list_elem_of_singleton Hn. destruct e as [x|]; [|by apply Hset].
    destruct Hn. cbn. destruct (Herr x eq_refl) as [-> _]. by left.
Qed.

Lemma runJobs_visited jobs : forall failures s s' fs, wf_db s.1 -> NoDup jobs -> (forall job, job ∈ jobs -> accepts (fJobs filters) job) ->
  runJobsInParallel fx scheduler c hookRows req (fWorkers filters) jobs failures s = (s', fs) ->
  (ended s.2 -> ended s'.2) /\ exists new, fs = failures ++ new /\ visited s s' jobs new.
Proof.
  induction jobs as [|job jobs IH]; intros failures s s' fs Hwf Hnd Hjobs; cbn [runJobsInParallel].
  { intros [= <- <-]. split; [done|]. exists []. rewrite app_nil_r. split; [done|]. destruct s. apply (visited_nil (_, _)). }
  apply NoDup_cons in Hnd as [Hnin Hnd]. destruct (ctxErr fx s.2) as [x|] eqn:Ec.
  { intros [= <- <-]. split; [done|]. eexists. split; [done|]. apply visited_ended; [by exists x|].
    intros j ->%list_elem_of_singleton. by left. }
  destruct (controlJob fx scheduler c hookRows req (fWorkers filters) job s) as [s1 e] eqn:Ej.
  pose proof (controlJob_spec _ _ _ _ Hwf (Hjobs job ltac:(left)) Ej) as [Hadv _].
  apply controlJob_visited in Ej; [|done|apply Hjobs; left].
  assert (Hwf1 : wf_db s1.1) by (eapply wf_db_rows; [apply (adv_rows _ _ Hadv)|done]).
  intros H. assert (exists failures1, failures1 = failures ++ (match e with Some x => [x] | None => [] end) /\
    runJobsInParallel fx scheduler c hookRows req (fWorkers filters) jobs failures1 s1 = (s', fs)) as (failures1 & -> & H1).
  { destruct e; eexists; (split; [done|]); by rewrite ?app_nil_r. }
  pose proof (runJobs_spec _ _ _ _ _ Hwf1 (fun j Hj => Hjobs j (list_elem_of_further _ _ _ Hj)) H1) as [Hadv2 _].
  apply IH in H1 as [Hend (new & -> & Hv)]; [|done|done|intros j Hj; apply Hjobs; by right].
  split; [unfold ended; rewrite Ec; by intros [? [=]]|]. eexists. split; [by rewrite <- app_assoc|].
  apply (visited_app s s1 s' [job] jobs); try done. by intros j ->%list_elem_of_singleton.
Qed.

Lemma sequences_spec seqs : forall failures s s' code err, wf_db s.1 ->
  sequences fx scheduler c hookRows req filters seqs failures s = (s', (code, err)) ->
  advance s s' /\ (err = None -> failures = [] /\ forall seq job, seq ∈ seqs ->
    job ∈ GetJobsByDeploymentSeq c s'.1 seq -> accepts (fJobs filters) job -> settled s' job).
Proof.
  induction seqs as [|seq seqs IH]; intros failures s s' code err Hwf; cbn [sequences].
  { assert (Hadv : advance s s) by (destruct s; by apply (advance_refl (_, _))).
    destruct (ctxErr fx s.2); intros [= <- <- <-]; (split; [done|]); [done|].
    intros He. split; [by destruct failures|]. intros q job Hq. by apply elem_of_nil in Hq. }
  destruct (ctxErr fx s.2); [intros [= <- <- <-]; split; [destruct s; by apply (advance_refl (_, _))|done]|].
  destruct (runJobsInParallel _ _ _ _ _ _ _ failures s) as [s1 fs] eqn:Er.
  apply runJobs_spec in Er as [Hadv Hjobs]; [|done|by intros job [_ Hj]%elem_of_selectJobs].
  intros H. apply IH in H as [Hadv2 Hall]; [|eapply wf_db_rows; [apply (adv_rows _ _ Hadv)|done]].
  split; [by eapply advance_trans|]. intros He. destruct (Hall He) as [-> Hrest]. destruct (Hjobs eq_refl) as [-> Hset].
  split; [done|]. intros q job [->|Hq]%elem_of_cons Hj Hacc; [|by apply (Hrest q)].
  eapply settled_advance; [done|]. apply Hset, elem_of_selectJobs. split; [|done].
  rewrite elem_of_GetJobsByDeploymentSeq in Hj |- *. by rewrite (adv_rows _ _ Hadv2), (adv_rows _ _ Hadv) in Hj.
Qed.

(** The jobs that the run visits at a sequence number. *)
Definition jobsAt (rows : list AllocRow) (seq : Z) : list string :=
  selectJobs (GetJobsByDeploymentSeq c (mkDB rows ∅ ∅) seq) (fJobs filters).
Hypothesis job_names : NoDup (map jbName (jobs c)).

Lemma NoDup_jobsAt rows seq : NoDup (jobsAt rows seq).
Proof.
  assert (Hn : NoDup (GetJobsByDeploymentSeq c (mkDB rows ∅ ∅) seq)) by (unfold GetJobsByDeploymentSeq, Unique; apply uniqueLoop_NoDup).
  unfold jobsAt, selectJobs. case_goal; [done|by apply NoDup_filter_b].
Qed.
Lemma jobsAt_one rows seq seq' job : job ∈ jobsAt rows seq -> job ∈ jobsAt rows seq' -> seq = seq'.
Proof.
  intros [[(j & Hj & Hn & <-) _]%elem_of_GetJobsByDeploymentSeq _]%elem_of_selectJobs.
  intros [[(k & Hk & Hm & <-) _]%elem_of_GetJobsByDeploymentSeq _]%elem_of_selectJobs.
  by rewrite (NoDup_map_inj _ _ _ _ job_names Hj Hk (eq_trans Hn (eq_sym Hm))).
Qed.

Lemma elem_of_jobsAt rows seqs job : job ∈ concat (map (jobsAt rows) seqs) <-> exists seq, seq ∈ seqs /\ job ∈ jobsAt rows seq.
Proof.
  rewrite list_elem_of_In, in_concat. setoid_rewrite in_map_iff. split.
  - intros (l & (q & <- & Hq) & Hl). exists q. by rewrite !list_elem_of_In.
  - intros (q & Hq & Hl). exists (jobsAt rows q). rewrite !list_elem_of_In in *. eauto.
Qed.

Lemma sequences_visited seqs : forall failures s s' code err, wf_db s.1 -> NoDup seqs ->
  sequences fx scheduler c hookRows req filters seqs failures s = (s', (code, err)) ->
  (ended s.2 -> ended s'.2) /\ exists new, visited s s' (concat (map (jobsAt (allocations s.1)) seqs)) new /\
    ((ended s'.2 /\ exists e, err = Some (Plainly e)) \/ (~ ended s'.2 /\ err = newControlError (failures ++ new))).
Proof.
  induction seqs as [|seq seqs IH]; intros failures s s' code err Hwf Hnd; cbn [sequences].
  { destruct (ctxErr fx s.2) as [e|] eqn:Ec; intros [= <- <- <-]; (split; [done|]); exists []; rewrite ?app_nil_r.
    - split; [apply visited_ended; [by exists e|done]|]. left. split; [by exists e|eauto].
    - split; [destruct s; apply (visited_nil (_, _))|]. right. split; [unfold ended; rewrite Ec; by intros [? [=]]|done]. }
  apply NoDup_cons in Hnd as [Hnin Hnd]. destruct (ctxErr fx s.2) as [e|] eqn:Ec.
  { intros [= <- <- <-]. split; [done|]. exists []. split; [apply visited_ended; [by exists e|by intros job ?%elem_of_nil]|].
    left. split; [by exists e|eauto]. }
  destruct (runJobsInParallel _ _ _ _ _ _ _ failures s) as [s1 fs] eqn:Er.
  change (selectJobs (GetJobsByDeploymentSeq c s.1 seq) (fJobs filters)) with (jobsAt (allocations s.1) seq) in Er.
  assert (Hacc : forall job, job ∈ jobsAt (allocations s.1) seq -> accepts (fJobs filters) job) by by intros job [_ Hj]%elem_of_selectJobs.
  pose proof (runJobs_spec _ _ _ _ _ Hwf Hacc Er) as [Hadv _].
  apply runJobs_visited in Er as [_ (new & -> & Hv)]; [|done|apply NoDup_jobsAt|done]. intros H.
  assert (Hwf1 : wf_db s1.1) by (eapply wf_db_rows; [apply (adv_rows _ _ Hadv)|done]).
  pose proof (sequences_spec _ _ _ _ _ _ Hwf1 H) as [Hadv2 _].
  apply IH in H as [Hend (new2 & Hv2 & Herr)]; [|done|done]. rewrite (adv_rows _ _ Hadv) in Hv2.
  split; [unfold ended; rewrite Ec; by intros [? [=]]|]. exists (new ++ new2). split; [|by rewrite app_assoc].
  cbn [map concat]. apply (visited_app s s1 s'); try done.
  intros job Hj (q & Hq & Hl)%elem_of_jobsAt. apply Hnin. by rewrite (jobsAt_one _ _ _ _ Hj Hl).
Qed.

(** A job that a run visits. *)
Definition sequenced (job : string) : Prop := exists j, j ∈ jobs c /\ jbName j = job /\ 0 <= jcDeploymentSeq (jbColumns j).

Lemma runLogged_spec s s' code err : wf_db s.1 ->
  runLogged fx scheduler c hookRows req filters s = (s', (code, err)) ->
  advance s s' /\ (err = None -> forall job, sequenced job -> accepts (fJobs filters) job -> settled s' job).
Proof.
  destruct s as [db w]. cbn [fst]. intros Hwf. unfold runLogged.
  pose proof (law_begin law w) as H1. destruct (LogRunBegin fx w) as [w1 [x|]]; cbn in H1; [intros [= <- <- <-]; split; [by apply (advance_refl (db, w))|done]|].
  pose proof (law_prepare law db w1) as H2. destruct (PrepareRuntime fx db w1) as [w2 [x|]]; cbn in H2;
    [intros [= <- <- <-]; split; [apply (advance_refl (db, w)); cbn; by etrans|done]|].
  pose proof (law_validate law (GetWorkers c []) w2) as H3. destruct (ValidateBucketGeneration fx (GetWorkers c []) w2) as [w3 [x|]]; cbn in H3;
    [intros [= <- <- <-]; split; [apply (advance_refl (db, w)); cbn; by do 2 etrans|done]|].
  intros H. apply sequences_spec in H as [Hadv Hall]; [|done].
  split; [eapply advance_trans; [|done]; apply (advance_refl (db, w)); cbn; by do 2 etrans|].
  intros He job (j & Hj & Hname & Hseq) Hacc a Hin Hja Hact Hw. destruct (Hall He) as [_ Hset].
  refine (Hset (jcDeploymentSeq (jbColumns j)) job _ _ Hacc a Hin Hja Hact Hw).
  - apply elem_of_seqZ. pose proof (GetMaxDeploymentSeq_ge c j Hj). lia.
  - apply elem_of_GetJobsByDeploymentSeq. split; [by exists j|]. exists a. split_and!; [done..|by apply active_notRemoved].
Qed.

(** What a run that ends in [err] did to the jobs it selects: each is all
    settled or all untouched, and the jobs that [err] reports are the
    untouched ones. *)
Definition verdicts (s s' : State) (err : option (control_error E)) : Prop :=
  (forall job, jobUntouched s.1 s'.1 job \/ settled s' job) /\
  (forall fs, err = Some (ControlError fs) -> forall job, sequenced job -> accepts (fJobs filters) job ->
     if bool_decide (job ∈ map jrJob fs) then jobUntouched s.1 s'.1 job else settled s' job).
Lemma verdicts_refl s w err : (forall fs, err <> Some (ControlError fs)) -> verdicts s (s.1, w) err.
Proof. intros He. split; [intros job; left; apply jobUntouched_refl|]. intros fs ->. by destruct (He fs). Qed.

Lemma runLogged_verdicts s s' code err : wf_db s.1 ->
  runLogged fx scheduler c hookRows req filters s = (s', (code, err)) -> verdicts s s' err.
Proof.
  destruct s as [db w]. cbn [fst]. intros Hwf. unfold runLogged.
  destruct (LogRunBegin fx w) as [w1 [x|]]; [intros [= <- <- <-]; by apply (verdicts_refl (db, w))|].
  destruct (PrepareRuntime fx db w1) as [w2 [x|]]; [intros [= <- <- <-]; by apply (verdicts_refl (db, w))|].
  destruct (ValidateBucketGeneration fx (GetWorkers c []) w2) as [w3 [x|]]; [intros [= <- <- <-]; by apply (verdicts_refl (db, w))|].
  intros H. pose proof (sequences_spec _ _ (db, w3) _ _ _ Hwf H) as [Hadv _]. pose proof (adv_rows _ _ Hadv) as Hrows. cbn [fst] in Hrows.
  apply sequences_visited in H as [_ (new & Hv & Herr)]; [|done|apply NoDup_seqZ]. cbn [fst] in *.
  split; [apply Hv|]. intros fs Hfs job (j & Hj & Hname & Hseq) Hacc.
  assert (fs = new /\ ~ ended s'.2) as [-> Hend].
  { destruct Herr as [[_ [e ->]]|[? ->]]; [done|]. cbn [app] in Hfs. unfold newControlError in Hfs. destruct new; [done|]. by injection Hfs as <-. }
  case_bool_decide as Hin; [exact (proj2 (vd_failed _ _ _ _ Hv job Hin))|].
  intros a Ha Hja Hact Hw. destruct (vd_done _ _ _ _ Hv) as [?|Hdone]; [done|].
  refine (Hdone job _ Hin a Ha Hja Hact Hw). apply elem_of_jobsAt. exists (jcDeploymentSeq (jbColumns j)). split.
  - apply elem_of_seqZ. pose proof (GetMaxDeploymentSeq_ge c j Hj). lia.
  - apply elem_of_selectJobs. split; [|done]. apply elem_of_GetJobsByDeploymentSeq. split; [by exists j|].
    exists a. cbn. split_and!; [|done|by apply active_notRemoved]. by rewrite <- Hrows.
Qed.
End run.

(** ** The request *)

Definition requested (req : Request) : Filters := ParseFilters (JobsCSV req) (WorkersCSV req).

Lemma runControl_spec req s s' err : wf_db s.1 -> runControl fx scheduler c hookRows req s = (s', err) ->
  advance req (requested req) s s' /\
  (err = None -> forall job, sequenced job -> accepts (fJobs (requested req)) job -> settled req (requested req) s' job).
Proof.
  destruct s as [db w]. cbn [fst]. intros Hwf. unfold runControl. cbn [fst snd].
  destruct (validateAgainst _ _ _); [intros [= <- <-]; split; [by apply (advance_refl _ _ (db, w))|done]|].
  pose proof (law_setup law w) as H1. destruct (SetupRuntime fx w) as [w1 [x|]]; cbn in H1; [intros [= <- <-]; split; [by apply (advance_refl _ _ (db, w))|done]|].
  destruct (runLogged _ _ _ _ _ _ _) as [[db2 w2] [code e]] eqn:Er. intros [= <- <-].
  apply runLogged_spec in Er as [Hadv Hset]; [|done].
  pose proof (advance_refl req (requested req) (db2, w2) _ (law_end law code w2)) as Hend.
  split; [|intros He job Hj Hacc; by eapply settled_advance, Hset].
  eapply advance_trans; [by apply (advance_refl _ _ (db, w) w1)|]. by eapply advance_trans.
Qed.
Lemma verdicts_later req fl db w w1 db' w2 w3 err :
  ran w2 ⊆ ran w3 -> verdicts req fl (db, w1) (db', w2) err -> verdicts req fl (db, w) (db', w3) err.
Proof.
  intros Hr [H1 H2]. pose proof (advance_refl req fl (db', w2) w3 Hr) as Ha. split.
  - intros job. destruct (H1 job); [by left|right; by eapply settled_advance].
  - intros fs Hfs job Hj Hacc. specialize (H2 fs Hfs job Hj Hacc). case_match; [done|by eapply settled_advance].
Qed.
Lemma runControl_verdicts req s s' err : NoDup (map jbName (jobs c)) -> wf_db s.1 ->
  runControl fx scheduler c hookRows req s = (s', err) -> verdicts req (requested req) s s' err.
Proof.
  destruct s as [db w]. cbn [fst]. intros Hn Hwf. unfold runControl. cbn [fst snd].
  destruct (validateAgainst _ _ _); [intros [= <- <-]; by apply (verdicts_refl _ _ (db, w))|].
  destruct (SetupRuntime fx w) as [w1 [x|]]; [intros [= <- <-]; by apply (verdicts_refl _ _ (db, w))|].
  destruct (runLogged _ _ _ _ _ _ _) as [[db2 w2] [code e]] eqn:Er. intros [= <- <-].
  apply runLogged_verdicts in Er; [|done..]. eapply verdicts_later; [apply (law_end law)|done].
Qed.

(** C26: What [kive job] leaves behind. Without --forget the allocation tables
    are those before the run. With --forget every row of an allocation is as
    it was, or else the allocation is active, matches the job and worker
    filters, the command of the run succeeded on its worker, and the next
    deploy starts it as a new one. A job is forgotten whole or not at all:
    either none of its rows changed, or the command succeeded on every active
    allocation of it that the filters select and all of them are forgotten;
    one failed worker keeps the deployed state of the others. When the run
    ends with the list of failed jobs, the jobs on the list are those that kept
    their state; when it ends without an error, every selected job was
    forgotten. *)
Theorem ExecuteRequest_forgets req db w db' w' err : wf_db db -> NoDup (map jbName (jobs c)) ->
  ExecuteRequestContext fx scheduler c hookRows req (db, w) = ((db', w'), err) ->
  (Forget req = false -> db' = db) /\
  allocations db' = allocations db /\
  (forall id, untouched db db' id \/ controlled (requested req) (db', w') id) /\
  (forall job, jobUntouched db db' job \/ settled req (requested req) (db', w') job) /\
  (forall fs, err = Some (ControlError fs) -> forall job, sequenced job -> accepts (fJobs (requested req)) job ->
     if bool_decide (job ∈ map jrJob fs) then jobUntouched db db' job else settled req (requested req) (db', w') job) /\
  (err = None -> forall job, sequenced job -> accepts (fJobs (requested req)) job -> settled req (requested req) (db', w') job).
Proof.
  intros Hwf Hn. unfold ExecuteRequestContext. cbn [fst snd].
  assert (Hstay : forall v, (Forget req = false -> db = db) /\ allocations db = allocations db /\
    (forall id, untouched db db id \/ controlled (requested req) (db, v) id) /\
    (forall job, jobUntouched db db job \/ settled req (requested req) (db, v) job))
    by (intros v; split_and!; [done|done|by left|intros job; left; apply jobUntouched_refl]).
  destruct (ctxErr fx w); [intros [= <- <- <-]; destruct (Hstay w) as (?&?&?&?); by split_and!|].
  destruct (_ && _); [intros [= <- <- <-]; destruct (Hstay w) as (?&?&?&?); by split_and!|].
  destruct (runControl fx scheduler c hookRows req (db, w)) as [[db1 w1] e1] eqn:Er.
  pose proof (runControl_verdicts req (db, w) _ _ Hn Hwf Er) as Hver. apply runControl_spec in Er as [Hadv Hset]; [|done].
  destruct (Forget req) eqn:Ef.
  - pose proof (law_commit law w1) as Hc.
    destruct (Commit fx w1) as [w2 [x|]]; cbn in Hc; [destruct e1; intros [= <- <- <-]; destruct (Hstay w2) as (?&?&?&?); by split_and!|].
    intros [= <- <- <-]. pose proof (advance_refl req (requested req) (db1, w1) w2 Hc) as Hlast.
    destruct (verdicts_later _ _ db w w db1 w1 w2 e1 Hc Hver) as [V1 V2]. split_and!; [done|apply (adv_rows _ _ _ _ Hadv)| |done|done|].
    + intros id. destruct (adv_only _ _ _ _ Hadv id) as [Hu|Hc2]; [by left|]. right. by eapply controlled_advance, Hc2.
    + intros He job Hj Hacc. eapply settled_advance; [exact Hlast|]. by apply Hset.
  - intros [= <- <- <-]. pose proof (adv_tables _ _ _ _ Hadv Ef) as Hdb. cbn in Hdb. subst db1. destruct Hver as [V1 V2]. destruct (Hstay w1) as (?&?&?&?). split_and!; done.
Qed.
End ran.

(** ** Runs of job control on two jobs *)

(** A world that logs the commands that succeeded and the exit codes; the
    second worker refuses every command. *)
Definition toy_world : Type := gset (string * string) * list Z.
Definition toy_effects (outdated : bool) : Effects toy_world string :=
  mkEffects (fun _ => None)
    (fun job _ ip w => if bool_decide (ip = "10.0.0.2") then (w, Some "refused") else (({[(job, ip)]} ∪ w.1, w.2), None))
    (fun job _ ips _ _ w => ((list_to_set (map (pair job) ips) ∪ w.1, w.2), None))
    (fun _ _ w => (w, None)) (fun _ => None) (fun w => (w, None)) (fun w => (w, None))
    (fun code w => (w.1, w.2 ++ [code])) (fun _ w => (w, None))
    (fun _ w => if outdated then (w, Some "outdated") else (w, None)) (fun w => (w, None)).
(** Goroutines end in the opposite order of their start, at the end. *)
Definition toy_scheduler (_ : toy_world) (running : list string) : option nat :=
  if (length running =? 2)%nat then Some 1%nat else None.
Definition toy_job (name : string) : JobRow := mkJobRow name name "1" "" "" "" "" "" "" 0 defaultColumns.
Definition toy_catalog : Catalog :=
  mkCatalog [mkWorkerRow "w1" "10.0.0.1" "" "" 0; mkWorkerRow "w2" "10.0.0.2" "" "" 1; mkWorkerRow "w3" "10.0.0.3" "" "" 2]
    [] [] [toy_job "web"; toy_job "api"] [] [].
Definition deployedRow : HashRow := mkHash (Some "h") (Some "h") (Some "1").
Definition toy_tables : DB :=
  mkDB [mkAlloc "a1" "10.0.0.1" "web" 0 0 None; mkAlloc "a3" "10.0.0.3" "web" 0 0 None; mkAlloc "a2" "10.0.0.2" "api" 0 0 None]
    {["a1" := deployedRow; "a2" := deployedRow; "a3" := deployedRow]} {[("a1", "run.sh") := mkFile (Some "d") (Some "d")]}.
Definition stopAll : Request := mkRequest "" "" TargetStop false true.
Definition toy_run (outdated : bool) := ExecuteRequestContext (toy_effects outdated) toy_scheduler toy_catalog [] stopAll (toy_tables, (∅, [])).

Lemma toy_tables_wf : wf_db toy_tables.
Proof. split; vm_compute; repeat constructor; set_solver. Qed.
Lemma toy_lawful outdated : lawful (toy_effects outdated) fst.
Proof.
  split; unfold grows; cbn; try done.
  - intros job target ip w w' e. case_bool_decide; intros [= <- <-]; [done|]. cbn. split; set_solver.
  - intros job command ips n env w w' e [= <- <-]. cbn. split; [set_solver|]. intros _ ip Hip.
    apply elem_of_union_l, elem_of_list_to_set, list_elem_of_fmap. by exists ip.
  - intros ips w. by destruct outdated.
Qed.

(** The job web is stopped on both workers and forgotten; the job api failed
    and keeps its deployed state. *)
Lemma toy_run_result : exists err,
  toy_run false = ((mkDB (allocations toy_tables)
     {["a1" := mkHash (Some "h") None (Some "1"); "a2" := deployedRow; "a3" := mkHash (Some "h") None (Some "1")]}
     {[("a1", "run.sh") := mkFile (Some "d") None]},
    ({[("web", "10.0.0.1"); ("web", "10.0.0.3")]}, [1])), Some err).
Proof. eexists. vm_compute. reflexivity. Qed.

Lemma toy_names : NoDup (map jbName (jobs toy_catalog)).
Proof. vm_compute. repeat constructor; set_solver. Qed.

Lemma ExecuteRequest_forgets_witness :
  (Forget stopAll = false -> (toy_run false).1.1 = toy_tables) /\
  (forall id, untouched toy_tables (toy_run false).1.1 id \/ controlled fst (requested stopAll) (toy_run false).1 id) /\
  (forall job, jobUntouched toy_tables (toy_run false).1.1 job \/ settled fst stopAll (requested stopAll) (toy_run false).1 job).
Proof.
  destruct (toy_run false) as [[db w] err] eqn:Er.
  pose proof (ExecuteRequest_forgets (toy_effects false) toy_scheduler toy_catalog [] fst (toy_lawful false)
    stopAll toy_tables (∅, []) db w err toy_tables_wf toy_names Er) as (H1 & _ & H2 & H3 & _).
  split_and!; [exact H1|exact H2|exact H3].
Defined.

(** A run that ends because a worker is of another generation returns an
    error, and its run_end event says exit 0. *)
Lemma failed_run_logs_exit_0 : exists err, toy_run true = ((toy_tables, (∅, [0])), Some err).
Proof. eexists. vm_compute. reflexivity. Qed.

(** Targets: the built-in ones in any case, others as they are spelled. *)
Lemma ParseTarget_examples :
  ParseTarget (H := ascii_unicode) " Stop " = Some "stop" /\ ParseTarget (H := ascii_unicode) "Deploy-2.x" = Some "Deploy-2.x" /\
  ParseTarget (H := ascii_unicode) "-rf" = None /\ ParseTarget (H := ascii_unicode) "a b" = None /\ ParseTarget (H := ascii_unicode) "" = None.
Proof. vm_compute. split_and!; reflexivity. Qed.

Lemma ParseTarget_canonical_witness : targetName "stop" = true /\ ParseTarget (H := ascii_unicode) "stop" = Some "stop".
Proof. apply (ParseTarget_canonical (H := ascii_unicode) " STOP "). vm_compute. reflexivity. Defined.
