(* ===== verification/LogLine.v ===== *)
(** * bucket and logs: the lines of the run log

    bucket/log_format.go writes a line per event, command or line of output,
    and logs/parse.go, logs/human.go and logs/show.go read them back. A line is
    written as key=value pairs or as JSON, whose text is Go's library's: its
    encoder and decoder are arguments. A map is walked in the order that an
    argument gives. Times are texts, a duration is in nanoseconds. *)
From S2P Require JobTree.
From S2P Require Import Prelude GoStrings Utils.
Open Scope Z_scope.

(** ** Writing a line (log_format.go) *)

Inductive LogFormat := LogFormatKV | LogFormatJSON.
Definition parseLogFormat `{Unicode} (raw : string) : LogFormat :=
  if bool_decide (ToLower (TrimSpace raw) ∈ ["json"; "jsonl"]) then LogFormatJSON else LogFormatKV.
(** [None] is a kive.conf that cannot be read. *)
Definition currentLogFormat `{Unicode} (conf : option string) : LogFormat :=
  match conf with
  | None => LogFormatKV
  | Some format => if bool_decide (format = "") then LogFormatKV else parseLogFormat format
  end.

Notation Fields := (gmap string string).
Definition dquote : string := String "034"%char "".
Definition backslash : string := String "092"%char "".
Definition kvKeys : list string :=
  ["ts"; "level"; "event"; "run"; "kive"; "generation"; "seq"; "worker"; "job"; "phase"; "action"; "cmd"; "stream"; "exit"; "duration_ms"; "reason"; "msg"].

Definition hasByte (c : ascii) (s : string) : bool := negb (no_byte c s).
Definition needsQuotes (value : string) : bool :=
  hasByte " "%char value || hasByte "009"%char value || hasByte "="%char value || hasByte "034"%char value.
Definition quoteKVValue (value : string) : string :=
  if bool_decide (value = "") then dquote +:+ dquote
  else if negb (needsQuotes value) then value
  else dquote +:+ JobTree.ReplaceAll value dquote (backslash +:+ dquote) +:+ dquote.

(** The text of one field; an empty one is left out. *)
Definition kvPart (fields : Fields) (key : string) : option string :=
  value ← fields !! key; if bool_decide (value = "") then None else Some (key +:+ "=" +:+ quoteKVValue value).
Definition seenKeys (fields : Fields) : list string := List.filter (fun key => bool_decide (is_Some (kvPart fields key))) kvKeys.
(** [rangeOver] is the order of the second loop over the map. *)
Definition formatKVLine (rangeOver : Fields -> list string) (fields : Fields) : string :=
  Join (omap (kvPart fields) kvKeys
        ++ omap (kvPart fields) (List.filter (fun key => negb (bool_decide (key ∈ seenKeys fields))) (rangeOver fields))) " ".

Inductive payload := JInt (n : Z) | JString (s : string) | JBool (b : bool) | JOther (printed : string).
Definition numericKeys : list string := ["generation"; "seq"; "exit"; "duration_ms"].
Definition jsonField (key value : string) : option payload :=
  if bool_decide (value = "") then None
  else
    match (if bool_decide (key ∈ numericKeys) then Atoi value else None) with
    | Some n => Some (JInt n)
    | None => Some (JString value)
    end.
(** [Marshal] does not fail on such values. *)
Definition formatJSONLine (Marshal : gmap string payload -> string) (fields : Fields) : string := Marshal (map_imap jsonField fields).

(** log_context.go *)
Record RunContext := mkRun { RunID : string; KiveCmd : string; Generation : Z }.
Record CommandContext := mkCommand { cJob : string; cPhase : string; cAction : string; cCmd : string; cQuiet : bool }.

Definition setIf (key value : string) (fields : Fields) : Fields := if bool_decide (value = "") then fields else <[key := value]> fields.
Definition baseLogFields (now : string) (run : RunContext) (workerIP : string) : Fields :=
  let fields : Fields := {["ts" := now; "level" := "INFO"; "run" := RunID run]} in
  let fields := setIf "kive" (KiveCmd run) fields in
  let fields := if 0 <? Generation run then <["generation" := Itoa (Generation run)]> fields else fields in
  <["worker" := if bool_decide (workerIP = "") then "-" else workerIP]> fields.
Definition commandContextFields (cmdCtx : CommandContext) : Fields :=
  setIf "cmd" (cCmd cmdCtx) (setIf "action" (cAction cmdCtx) (setIf "phase" (cPhase cmdCtx) (setIf "job" (cJob cmdCtx) ∅))).

Section lines.
Variable rangeOver : Fields -> list string.
Variable Marshal : gmap string payload -> string.

Definition formatLogLine (format : LogFormat) (fields : Fields) : string :=
  match format with
  | LogFormatJSON => formatJSONLine Marshal fields
  | LogFormatKV => formatKVLine rangeOver fields
  end.
Definition commandBeginFields (now : string) (run : RunContext) (workerIP : string) (cmdCtx : CommandContext) : Fields :=
  commandContextFields cmdCtx ∪ <["event" := "command_begin"]> (baseLogFields now run workerIP).
Definition formatCommandBegin format now run workerIP cmdCtx : string := formatLogLine format (commandBeginFields now run workerIP cmdCtx).
Definition commandEndFields (now : string) (run : RunContext) (workerIP : string) (cmdCtx : CommandContext) (exitCode duration : Z) : Fields :=
  commandContextFields cmdCtx
  ∪ <["duration_ms" := Itoa (Z.quot duration 1000000)]> (<["exit" := Itoa exitCode]> (<["event" := "command_end"]> (baseLogFields now run workerIP))).
Definition formatCommandEnd format now run workerIP cmdCtx exitCode duration : string :=
  formatLogLine format (commandEndFields now run workerIP cmdCtx exitCode duration).
Definition streamFields (now : string) (run : RunContext) (workerIP : string) (cmdCtx : CommandContext) (stream line : string) : Fields :=
  commandContextFields cmdCtx ∪ <["msg" := line]> (setIf "stream" stream (baseLogFields now run workerIP)).
Definition formatStreamLine format now run workerIP cmdCtx stream line : string :=
  formatLogLine format (streamFields now run workerIP cmdCtx stream line).
(** The loop over [extra] assigns each of its values that is not empty. *)
Definition eventFields (now : string) (run : RunContext) (workerIP event : string) (extra : Fields) : Fields :=
  filter (fun kv : string * string => kv.2 <> "") extra ∪ <["event" := event]> (baseLogFields now run workerIP).
Definition formatEventLine format now run workerIP event extra : string := formatLogLine format (eventFields now run workerIP event extra).
End lines.

Definition cliStreamTarget (workerIP job : string) : string :=
  if negb (bool_decide (workerIP = "")) && negb (bool_decide (workerIP = "-")) then
    if bool_decide (job = "") then workerIP else job +:+ "@" +:+ workerIP
  else job.
Definition formatCLIStreamLine (workerIP : string) (cmdCtx : CommandContext) (stream line : string) : string :=
  let delim := if bool_decide (stream = "stderr") then "! " else "| " in
  let prefix := cliStreamTarget workerIP (cJob cmdCtx) in
  if bool_decide (prefix = "") then delim +:+ line else prefix +:+ " " +:+ delim +:+ line.
Definition workerLogFileName (workerIP : string) : string := if bool_decide (workerIP = "") then "kive.log" else workerIP +:+ ".log".

(** ** Reading a line (parse.go) *)

Record Entry := mkEntry { Raw : string; EFields : Fields }.

(** The text before the first [c] and the text after it. *)
Fixpoint cutByte (c : ascii) (s : string) : option (string * string) :=
  match s with
  | "" => None
  | String d s => if bool_decide (d = c) then Some ("", s) else '(a, b) ← cutByte c s; Some (String d a, b)
  end.
(** The loop of [readKVValue] after the opening quote: the value, and what
    follows the closing quote. *)
Fixpoint readQuoted (escaped : bool) (s : string) : string * string :=
  match s with
  | "" => ("", "")
  | String ch s =>
      if escaped then let '(v, rest) := readQuoted false s in (String ch v, rest)
      else if bool_decide (ch = "092"%char) then readQuoted true s
      else if bool_decide (ch = "034"%char) then ("", TrimSpace s)
      else let '(v, rest) := readQuoted false s in (String ch v, rest)
  end.
Definition readKVValue (line : string) : string * string :=
  match line with
  | "" => ("", "")
  | String ch rest =>
      if bool_decide (ch = "034"%char) then readQuoted false rest
      else match cutByte " "%char line with Some vr => vr | None => (line, "") end
  end.
(** A round takes the key off the line. *)
Fixpoint parseKVLoop (fuel : nat) (line : string) (fields : Fields) : Fields :=
  match fuel with
  | O => fields
  | S fuel =>
      match cutByte "="%char line with
      | None => fields
      | Some (key, line) =>
          if bool_decide (key = "") then fields
          else let '(value, rest) := readKVValue line in parseKVLoop fuel (TrimSpace rest) (<[key := value]> fields)
      end
  end.
Definition parseKVLine (line : string) : Fields := parseKVLoop (String.length line) line ∅.

(** The text of a decoded value: a number is cut to an integer. *)
Definition payloadText (p : payload) : string :=
  match p with
  | JInt n => Itoa n
  | JString s => s
  | JBool b => if b then "true" else "false"
  | JOther printed => printed
  end.
Definition parseJSONLine (Unmarshal : string -> option (gmap string payload)) (line : string) : Entry :=
  match Unmarshal line with
  | None => mkEntry line (parseKVLine line)
  | Some p => mkEntry line (payloadText <$> p)
  end.
Definition ParseLine (Unmarshal : string -> option (gmap string payload)) (line : string) : Entry :=
  let line := TrimSpace line in
  if bool_decide (line = "") then mkEntry line ∅
  else if HasPrefix line "{" then parseJSONLine Unmarshal line
  else if HasPrefix line "! " then mkEntry line {["stream" := "stderr"; "msg" := TrimPrefix line "! "]}
  else if HasPrefix line "| " then mkEntry line {["stream" := "stdout"; "msg" := TrimPrefix line "| "]}
  else mkEntry line (parseKVLine line).
Definition field (e : Entry) (key : string) : string := default "" (EFields e !! key).
Definition shortRunID (runID : string) : string := if (String.length runID <=? 8)%nat then runID else stake 8 runID.

(** ** Filters and blocks (human.go, show.go) *)

Record ShowOptions := mkShow {
  oWorker : string; oRunID : string; oJob : string; oPhase : string; oEvent : string; oKiveCmd : string; oTail : Z }.
Definition fieldMatches (value want : string) : bool :=
  if bool_decide (value = "") then false
  else if bool_decide (value = want) || HasPrefix value want then true
  else existsb (fun part => bool_decide (TrimSpace part = want) || HasPrefix (TrimSpace part) want) (Split value ","%char).
Definition unless (want : string) (b : bool) : bool := bool_decide (want = "") || b.
Definition entryMatchesFilters (e : Entry) (opts : ShowOptions) : bool :=
  unless (oRunID opts) (fieldMatches (field e "run") (oRunID opts))
  && unless (oWorker opts) (fieldMatches (field e "worker") (oWorker opts))
  && unless (oJob opts) (fieldMatches (field e "job") (oJob opts))
  && unless (oPhase opts) (bool_decide (field e "phase" = oPhase opts))
  && unless (oEvent opts) (bool_decide (field e "event" = oEvent opts))
  && unless (oKiveCmd opts) (bool_decide (field e "kive" = oKiveCmd opts)).
Definition payloadLineMatchesOpenContext (opts : ShowOptions) : bool :=
  forallb (fun s => bool_decide (s = "")) [oEvent opts; oRunID opts; oWorker opts; oJob opts; oPhase opts; oKiveCmd opts].
Definition matchesLine (Unmarshal : string -> option (gmap string payload)) (line : string) (opts : ShowOptions) : bool :=
  let e := ParseLine Unmarshal line in
  if negb (bool_decide (field e "stream" = "")) && bool_decide (field e "event" = "") && bool_decide (field e "ts" = "")
  then payloadLineMatchesOpenContext opts else entryMatchesFilters e opts.
(** [lines[len(lines)-n:]] when there are more than [n]. *)
Definition tail {A} (n : Z) (lines : list A) : list A :=
  if (0 <? n) && (n <? len lines) then drop (Z.to_nat (len lines - n)) lines else lines.
Definition showRaw (Unmarshal : string -> option (gmap string payload)) (files : list (list string)) (opts : ShowOptions) : list string :=
  tail (oTail opts) (concat (map (List.filter (fun line => matchesLine Unmarshal line opts)) files)).

Record CommandBlock := mkBlock { Begin : Entry; Streams : list Entry; End_ : option Entry }.
Record groups := mkGroups { current : option CommandBlock; blocks : list CommandBlock; events : list Entry }.
Definition flush (g : groups) : groups :=
  match current g with None => g | Some b => mkGroups None (blocks g ++ [b]) (events g) end.
Definition addEvent (e : Entry) (g : groups) : groups := mkGroups (current g) (blocks g) (events g ++ [e]).
(** One round of the loop of [groupEntries]. *)
Definition groupEntry (g : groups) (e : Entry) : groups :=
  let event := field e "event" in
  if bool_decide (event = "command_begin") then mkGroups (Some (mkBlock e [] None)) (blocks (flush g)) (events (flush g))
  else if bool_decide (event = "command_end") then
    match current g with
    | Some b => flush (mkGroups (Some (mkBlock (Begin b) (Streams b) (Some e))) (blocks g) (events g))
    | None => addEvent e g
    end
  else if bool_decide (event = "") then
    match current g with
    | Some b =>
        if negb (bool_decide (field e "msg" = "")) || negb (bool_decide (field e "stream" = ""))
        then mkGroups (Some (mkBlock (Begin b) (Streams b ++ [e]) (End_ b))) (blocks g) (events g)
        else if bool_decide (Raw e = "") then g else addEvent e g
    | None => if bool_decide (Raw e = "") then g else addEvent e g
    end
  else addEvent e (flush g).
Definition groupEntries (entries : list Entry) : list CommandBlock * list Entry :=
  let g := flush (foldl groupEntry (mkGroups None [] []) entries) in (blocks g, events g).
Definition blockMatchesFilters (b : CommandBlock) (opts : ShowOptions) : bool := entryMatchesFilters (Begin b) opts.
