(* ===== verification/LogLineFacts.v ===== *)
(** * Facts on the lines of the run log

    Reading back what was written, and the view by commands. *)
From S2P Require JobTree.
From S2P Require Import Prelude GoStrings Utils LogLine.
Open Scope Z_scope.

(** ** Bytes *)

Lemma no_byte_multi r c : ValidRune r = true -> 128 <= r -> byte_val c < 128 -> no_byte c (EncodeRune r) = true.
Proof.
  intros Hv Hr Hc. pose proof (byte_val_range c) as Hc0.
  assert (Hb : forall z, 128 <= z < 256 -> bool_decide (byte_of z = c) = false).
  { intros z Hz. apply bool_decide_eq_false. intros E. rewrite <- E, byte_val_of in Hc by lia. lia. }
  unfold EncodeRune. rewrite Hv. unfold ValidRune, in_range in Hv. rewrite orb_true_iff, !andb_true_iff, !Z.leb_le in Hv.
  rewrite (proj2 (Z.ltb_ge r 128)) by lia.
  repeat case_goal; cbn [no_byte]; rewrite ?Hb; try done; bool_to_prop; Z.to_euclidean_division_equations; lia.
Qed.

Lemma no_byte_runes rs c : valid_runes rs = true -> byte_val c < 128 ->
  no_byte c (string_of_runes rs) = negb (bool_decide (byte_val c ∈ rs)).
Proof.
  intros Hv Hc. induction rs as [|r rs IH]; [done|]. cbn [string_of_runes foldr]. cbn [valid_runes forallb] in Hv.
  apply andb_true_iff in Hv as [Hr Hv]. fold (string_of_runes rs). rewrite no_byte_app, IH by done.
  destruct (Z.lt_ge_cases r 128) as [Hlt|Hge].
  - assert (H0 : 0 <= r < 256) by (unfold ValidRune, in_range in Hr; rewrite orb_true_iff, !andb_true_iff, !Z.leb_le in Hr; lia).
    assert (E : EncodeRune r = String (byte_of r) "").
    { rewrite <- (byte_val_of r H0) at 1. apply EncodeRune_ascii. by rewrite byte_val_of. }
    rewrite E. cbn [no_byte]. rewrite andb_true_r, <- negb_orb. f_equal. apply eq_true_iff_eq.
    rewrite orb_true_iff, !bool_decide_eq_true, elem_of_cons. split; (intros [H|H]; [left|by right]).
    + by rewrite <- H, byte_val_of.
    + by rewrite <- H, byte_of_val.
  - rewrite no_byte_multi by done. cbn [andb]. f_equal. apply bool_decide_ext. rewrite elem_of_cons. split; [by right|intros [H|H]; [lia|done]].
Qed.

Lemma string_of_runes_app a b : string_of_runes (a ++ b) = string_of_runes a +:+ string_of_runes b.
Proof. induction a as [|r a IH]; [done|]. cbn. unfold string_of_runes in IH. by rewrite IH, sapp_assoc. Qed.
Lemma valid_runes_app a b : valid_runes (a ++ b) = valid_runes a && valid_runes b.
Proof. apply forallb_app. Qed.

Lemma cutByte_app c a b : no_byte c a = true -> cutByte c (a +:+ String c b) = Some (a, b).
Proof.
  induction a as [|d a IH]; cbn [no_byte String.append cutByte].
  - intros _. by rewrite bool_decide_eq_true_2.
  - intros [Hd Ha]%andb_true_iff. apply negb_true_iff in Hd. by rewrite Hd, IH.
Qed.
Lemma cutByte_none c a : no_byte c a = true -> cutByte c a = None.
Proof.
  induction a as [|d a IH]; cbn [no_byte cutByte]; [done|]. intros [Hd Ha]%andb_true_iff. apply negb_true_iff in Hd. by rewrite Hd, IH.
Qed.

(** ** Quotes *)

(** A quote inside of the quotes is written with a backslash. *)
Fixpoint escaped (s : string) : string :=
  match s with
  | "" => ""
  | String c s => if bool_decide (c = "034"%char) then String "092"%char (String c (escaped s)) else String c (escaped s)
  end.
Lemma ReplaceAll_quotes s : JobTree.ReplaceAll s dquote (backslash +:+ dquote) = escaped s.
Proof.
  unfold JobTree.ReplaceAll. induction s as [|c s IH]; [done|].
  cbn [String.length JobTree.replaceFrom escaped]. unfold HasPrefix, dquote, backslash in *. cbn [String.append String.length sdrop] in *.
  rewrite IH. case_bool_decide as E.
  - subst c. by rewrite bool_decide_eq_true_2.
  - rewrite bool_decide_eq_false_2; [done|congruence].
Qed.
Lemma escaped_runes rs : valid_runes rs = true ->
  escaped (string_of_runes rs) = string_of_runes (flat_map (fun r => if bool_decide (r = 34) then [92; 34] else [r]) rs).
Proof.
  induction rs as [|r rs IH]; [done|]. cbn [valid_runes forallb string_of_runes foldr flat_map]. fold (string_of_runes rs).
  intros [Hr Hv]%andb_true_iff. rewrite string_of_runes_app, <- (IH Hv). clear IH.
  assert (Hesc : forall t, no_byte "034"%char t = true -> escaped (t +:+ string_of_runes rs) = t +:+ escaped (string_of_runes rs)).
  { induction t as [|d t IHt]; [done|]. cbn [no_byte String.append escaped]. intros [Hd Ht]%andb_true_iff. apply negb_true_iff in Hd.
    by rewrite Hd, IHt. }
  case_bool_decide as E; [subst r; reflexivity|].
  rewrite Hesc; [cbn [string_of_runes foldr]; by rewrite sapp_nil_r|].
  pose proof (no_byte_runes [r] "034"%char) as H. cbn [string_of_runes foldr valid_runes forallb] in H. rewrite sapp_nil_r in H.
  rewrite H by (first [by rewrite Hr|done]). apply negb_true_iff, bool_decide_eq_false. change (byte_val "034") with 34. intros Hin%list_elem_of_singleton. congruence.
Qed.
Lemma readQuoted_escaped s rest : no_byte "092"%char s = true ->
  readQuoted false (escaped s +:+ String "034"%char rest) = (s, TrimSpace rest).
Proof.
  induction s as [|c s IH]; [done|]. cbn [no_byte escaped]. intros [Hc Hs]%andb_true_iff. apply negb_true_iff in Hc.
  destruct (bool_decide_reflect (c = "034"%char)) as [E|E].
  - subst c. cbn [String.append readQuoted]. rewrite bool_decide_eq_true_2 by done. by rewrite IH.
  - cbn [String.append readQuoted]. rewrite Hc, bool_decide_eq_false_2 by done. by rewrite IH.
Qed.

(** ** Texts without spaces around them *)

Definition firstSpace (l : list rune) : bool := match l with r :: _ => IsSpace r | [] => true end.
Definition solid (s : string) : Prop :=
  exists rs, valid_runes rs = true /\ s = string_of_runes rs /\ firstSpace rs = false /\ firstSpace (rev rs) = false.

Lemma firstSpace_app a b : firstSpace a = false -> firstSpace (a ++ b) = false.
Proof. by destruct a. Qed.
Lemma solid_trim s : solid s -> TrimSpace s = s.
Proof.
  intros (rs & Hv & -> & Hf & Hl). apply TrimSpace_trimmed. unfold trimmed.
  assert (Hr : runes (string_of_runes rs) = rs) by (rewrite <- (sapp_nil_r (string_of_runes rs)), runes_string_of_runes by done; apply app_nil_r).
  rewrite Hr. destruct rs as [|r rs]; [done|]. cbn in Hf. rewrite Hf. cbn [negb andb].
  destruct (rev (r :: rs)); [done|]. cbn in Hl. by rewrite Hl.
Qed.
Lemma solid_between a t b : solid a -> valid_runes t = true -> solid b -> solid (a +:+ string_of_runes t +:+ b).
Proof.
  intros (ra & Ha & -> & Hfa & Hla) Ht (rb & Hb & -> & Hfb & Hlb). exists (ra ++ t ++ rb). split_and!.
  - by rewrite !valid_runes_app, Ha, Ht, Hb.
  - by rewrite !string_of_runes_app.
  - by apply firstSpace_app.
  - rewrite !rev_app_distr, <- app_assoc. by apply firstSpace_app.
Qed.
Lemma TrimSpace_space s : TrimSpace (String " "%char s) = TrimSpace s.
Proof. unfold TrimSpace. by rewrite chunks_ascii. Qed.

(** ** One field *)

(** A key is a word that cannot be taken for the start of a JSON line. *)
Definition lineKey (k : string) : bool :=
  negb (bool_decide (k = "")) && forallb (fun b => in_range 33 126 b && negb (b =? 61) && negb (b =? 123)) (bytes k).
(** A value is text without a backslash; one that is written without quotes
    has no other kind of space around it. *)
Definition lineValue (v : string) : Prop :=
  exists rs, valid_runes rs = true /\ v = string_of_runes rs /\ 92 ∉ rs /\
    (needsQuotes v = false -> firstSpace rs = false /\ firstSpace (rev rs) = false).

Lemma lineKey_bytes k : lineKey k = true -> k <> "" /\ forall b, b ∈ bytes k -> 33 <= b <= 126 /\ b <> 61 /\ b <> 123.
Proof.
  unfold lineKey. intros [Hne Hb]%andb_true_iff. split; [by apply negb_true_iff, bool_decide_eq_false in Hne|].
  intros b Hin. rewrite forallb_forall in Hb. specialize (Hb b (proj1 (list_elem_of_In _ _) Hin)). unfold in_range in Hb. blia.
Qed.
Lemma lineKey_ascii k : lineKey k = true -> ascii_only k = true.
Proof.
  intros [_ Hb]%lineKey_bytes. induction k as [|c k IH]; [done|]. cbn [ascii_only bytes] in *.
  apply andb_true_iff. split; [apply Z.ltb_lt; specialize (Hb (byte_val c) ltac:(left)); lia|apply IH; intros b Hin; apply Hb; by right].
Qed.
Lemma lineKey_solid k : lineKey k = true -> solid k.
Proof.
  intros Hk. pose proof (lineKey_ascii k Hk) as Ha. pose proof (lineKey_bytes k Hk) as [Hne Hb].
  exists (bytes k). split_and!; [by apply ascii_valid|by rewrite string_of_bytes| |].
  - destruct k as [|c k]; [done|]. cbn [bytes firstSpace] in *. apply IsSpace_above. specialize (Hb (byte_val c) ltac:(left)). lia.
  - assert (Hr : forall b, b ∈ rev (bytes k) -> 33 <= b <= 126).
    { intros b Hin. apply list_elem_of_In, in_rev, list_elem_of_In in Hin. by apply Hb. }
    destruct (rev (bytes k)) as [|b l] eqn:E; [|cbn; apply IsSpace_above; specialize (Hr b ltac:(left)); lia].
    apply (f_equal (@length _)) in E. rewrite length_rev in E. by destruct k.
Qed.
Lemma lineKey_no_eq k : lineKey k = true -> no_byte "="%char k = true.
Proof.
  intros Hk. pose proof (lineKey_ascii k Hk) as Ha. pose proof (lineKey_bytes k Hk) as [_ Hb].
  rewrite <- (string_of_bytes k) by done. rewrite no_byte_runes by (first [by apply ascii_valid|done]).
  apply negb_true_iff, bool_decide_eq_false. intros Hin. apply Hb in Hin as (_ & Hin & _). done.
Qed.

(** The two shapes of a written value. *)
Lemma quote_cases v : v <> "" ->
  needsQuotes v = false /\ quoteKVValue v = v \/ needsQuotes v = true /\ quoteKVValue v = dquote +:+ escaped v +:+ dquote.
Proof.
  intros Hne. unfold quoteKVValue. rewrite bool_decide_eq_false_2 by done. rewrite ReplaceAll_quotes.
  destruct (needsQuotes v); [right|left]; done.
Qed.
Lemma quote_solid v : v <> "" -> lineValue v -> solid (quoteKVValue v).
Proof.
  intros Hne (rs & Hv & -> & _ & Hs). destruct (quote_cases (string_of_runes rs) Hne) as [[Hq ->]|[Hq ->]].
  - exists rs. destruct (Hs Hq). done.
  - rewrite escaped_runes by done. assert (Hd : solid dquote) by (by exists [34]). apply solid_between; [done| |done].
    clear -Hv. induction rs as [|r rs IH]; [done|]. cbn [flat_map]. cbn [valid_runes forallb] in Hv. apply andb_true_iff in Hv as [Hr Hv].
    rewrite valid_runes_app, IH by done. rewrite andb_true_r. case_bool_decide; [done|]. cbn. by rewrite Hr.
Qed.
Lemma quote_read v tail : v <> "" -> lineValue v ->
  exists x, readKVValue (quoteKVValue v +:+ match tail with None => "" | Some t => String " "%char t end) = (v, x) /\
    TrimSpace x = TrimSpace (default "" tail).
Proof.
  intros Hne (rs & Hv & -> & Hbs & _). set (v := string_of_runes rs) in *.
  destruct (quote_cases v Hne) as [[Hq ->]|[Hq ->]].
  - unfold needsQuotes, hasByte in Hq. rewrite !orb_false_iff, !negb_false_iff in Hq. destruct Hq as [[[Hsp _] _] Hdq].
    destruct v as [|c v'] eqn:Ev; [done|]. cbn [String.append readKVValue]. cbn [no_byte] in Hdq.
    apply andb_true_iff in Hdq as [Hc _]. apply negb_true_iff in Hc. rewrite Hc.
    change (String c (v' +:+ ?t)) with (String c v' +:+ t). destruct tail as [t|].
    + change (String c (v' +:+ String " " t)) with (String c v' +:+ String " " t). rewrite cutByte_app by done. by exists t.
    + rewrite sapp_nil_r, cutByte_none by done. by exists "".
  - assert (Hnb : no_byte "092"%char v = true).
    { unfold v. rewrite no_byte_runes by done. apply negb_true_iff, bool_decide_eq_false. exact Hbs. }
    assert (E : forall r, (dquote +:+ escaped v +:+ dquote) +:+ r = String "034"%char (escaped v +:+ String "034"%char r))
      by (intros r; unfold dquote; cbn [String.append]; by rewrite sapp_assoc).
    rewrite E. cbn [readKVValue]. rewrite bool_decide_eq_true_2 by done. rewrite readQuoted_escaped by done.
    destruct tail as [t|]; cbn [default]; [rewrite TrimSpace_space|]; eexists; (split; [reflexivity|apply TrimSpace_idem]).
Qed.

(** ** A whole line *)

Definition part (kv : string * string) : string := kv.1 +:+ "=" +:+ quoteKVValue kv.2.
Definition lineField (kv : string * string) : Prop := lineKey kv.1 = true /\ kv.2 <> "" /\ lineValue kv.2.

Lemma part_solid kv : lineField kv -> solid (part kv).
Proof. intros (Hk & Hne & Hv). apply (solid_between _ [61]); [by apply lineKey_solid|done|by apply quote_solid]. Qed.
Lemma Join_cons x l : Join (x :: l) " " = x +:+ match l with [] => "" | _ => String " "%char (Join l " ") end.
Proof. destruct l; [by rewrite sapp_nil_r|done]. Qed.
Lemma Join_solid kvs : Forall lineField kvs -> kvs <> [] -> solid (Join (map part kvs) " ").
Proof.
  induction kvs as [|kv kvs IH]; intros Hall Hne; [done|]. apply Forall_cons in Hall as [Hkv Hall].
  cbn [map]. rewrite Join_cons. destruct kvs as [|kv2 kvs]; [rewrite sapp_nil_r; by apply part_solid|].
  cbn [map]. apply (solid_between _ [32]); [by apply part_solid|done|by apply IH].
Qed.
Lemma Join_trim kvs : Forall lineField kvs -> TrimSpace (Join (map part kvs) " ") = Join (map part kvs) " ".
Proof. intros Hall. destruct kvs as [|kv kvs]; [done|]. by apply solid_trim, Join_solid. Qed.

Lemma parse_parts kvs : Forall lineField kvs -> forall fuel fields, (String.length (Join (map part kvs) " ") <= fuel)%nat ->
  parseKVLoop fuel (Join (map part kvs) " ") fields = foldl (fun m kv => <[kv.1 := kv.2]> m) fields kvs.
Proof.
  induction kvs as [|[k v] kvs IH]; intros Hall fuel fields Hf; [by destruct fuel|].
  apply Forall_cons in Hall as [(Hk & Hne & Hv) Hall]. cbn [fst snd] in *.
  pose proof (quote_read v (match kvs with [] => None | _ => Some (Join (map part kvs) " ") end) Hne Hv) as (x & Hread & Htrim).
  assert (E : Join (map part ((k, v) :: kvs)) " "
    = k +:+ String "="%char (quoteKVValue v +:+ match match kvs with [] => None | _ => Some (Join (map part kvs) " ") end with None => "" | Some t => String " "%char t end)).
  { cbn [map]. rewrite Join_cons. unfold part at 1. cbn [fst snd]. rewrite !sapp_assoc. by destruct kvs. }
  rewrite E in Hf |- *. destruct fuel as [|fuel]; [rewrite slen_app in Hf; cbn in Hf; lia|]. cbn [parseKVLoop].
  rewrite cutByte_app by (by apply lineKey_no_eq). apply lineKey_bytes in Hk as [Hk _]. rewrite bool_decide_eq_false_2 by done.
  rewrite Hread, Htrim. cbn [foldl fst snd].
  assert (Ht : TrimSpace (default "" (match kvs with [] => None | _ => Some (Join (map part kvs) " ") end)) = Join (map part kvs) " ")
    by (destruct kvs; [done|by apply Join_trim]).
  rewrite Ht. apply IH; [done|]. rewrite slen_app in Hf. cbn [String.length] in Hf. rewrite slen_app in Hf.
  destruct kvs; cbn [map Join String.length] in *; lia.
Qed.

Lemma foldl_fields (kvs : list (string * string)) : forall fields : Fields, NoDup kvs.*1 ->
  foldl (fun m kv => <[kv.1 := kv.2]> m) fields kvs = list_to_map kvs ∪ fields.
Proof.
  induction kvs as [|[k v] kvs IH]; intros fields Hnd; cbn [foldl]; [by rewrite list_to_map_nil, (left_id_L ∅ (∪))|].
  apply NoDup_cons in Hnd as [Hk Hnd]. rewrite IH by done. cbn [list_to_map foldr fst snd]. rewrite <- insert_union_l.
  rewrite <- insert_union_r; [done|]. by apply not_elem_of_list_to_map.
Qed.

(** The fields that are written, in their order. *)
Definition emit (fields : Fields) (key : string) : option (string * string) :=
  value ← fields !! key; if bool_decide (value = "") then None else Some (key, value).
Lemma emit_part fields key : kvPart fields key = part <$> emit fields key.
Proof. unfold kvPart, emit. destruct (fields !! key); cbn; [|done]. by case_bool_decide. Qed.
Lemma emit_Some fields key kv : emit fields key = Some kv <-> kv.1 = key /\ kv.2 <> "" /\ fields !! key = Some kv.2.
Proof.
  unfold emit. destruct (fields !! key) as [v|]; cbn; [|split; [done|by intros (_ & _ & ?)]]. case_bool_decide as E.
  - split; [done|]. intros (_ & Hne & Hv). congruence.
  - destruct kv as [k w]. cbn. split; [by intros [= <- <-]|]. by intros (-> & _ & [= ->]).
Qed.
Lemma omap_part fields keys : omap (kvPart fields) keys = map part (omap (emit fields) keys).
Proof. induction keys as [|k keys IH]; [done|]. cbn. rewrite emit_part. destruct (emit fields k); cbn; by rewrite IH. Qed.
Lemma emit_keys fields keys :
  (omap (emit fields) keys).*1 = List.filter (fun key => match emit fields key with Some _ => true | None => false end) keys.
Proof.
  induction keys as [|k keys IH]; [done|]. cbn [omap list_omap List.filter]. destruct (emit fields k) as [kv|] eqn:E; cbn.
  - apply emit_Some in E as [<- _]. by rewrite <- IH.
  - by rewrite <- IH.
Qed.

Section line.
Variable rangeOver : Fields -> list string.
Variable Unmarshal : string -> option (gmap string payload).
(** A loop over a map meets every key once. *)
Hypothesis rangeOver_keys : forall fields, NoDup (rangeOver fields) /\ forall k, k ∈ rangeOver fields <-> is_Some (fields !! k).

Definition emitted (fields : Fields) : list (string * string) :=
  omap (emit fields) (kvKeys ++ List.filter (fun key => negb (bool_decide (key ∈ seenKeys fields))) (rangeOver fields)).
Lemma formatKVLine_parts fields : formatKVLine rangeOver fields = Join (map part (emitted fields)) " ".
Proof. unfold formatKVLine, emitted. by rewrite <- omap_part, omap_app. Qed.

Lemma emitted_NoDup fields : NoDup (emitted fields).*1.
Proof.
  unfold emitted. rewrite emit_keys, List.filter_app. apply NoDup_app. split_and!.
  - apply NoDup_filter_b. by apply (bool_decide_unpack _); vm_compute.
  - intros k [Hin Hs]%elem_of_list_filter_b [Hin2 _]%elem_of_list_filter_b. apply elem_of_list_filter_b in Hin2 as [_ Hn].
    apply negb_true_iff, bool_decide_eq_false in Hn. apply Hn, elem_of_list_filter_b. split; [done|].
    apply bool_decide_eq_true. rewrite emit_part. destruct (emit fields k) as [kv|]; [by eexists|done].
  - apply NoDup_filter_b, NoDup_filter_b, rangeOver_keys.
Qed.
Lemma emitted_elem fields kv : kv ∈ emitted fields <-> kv.2 <> "" /\ fields !! kv.1 = Some kv.2.
Proof.
  unfold emitted. rewrite list_elem_of_omap. split.
  - intros (k & _ & Hk). by apply emit_Some in Hk as (<- & Hne & Hl).
  - intros [Hne Hl]. exists kv.1. split; [|by apply emit_Some].
    destruct (decide (kv.1 ∈ kvKeys)) as [Hin|Hin]; apply elem_of_app; [by left|right].
    apply elem_of_list_filter_b. split; [apply rangeOver_keys; by rewrite Hl|].
    apply negb_true_iff, bool_decide_eq_false. intros [H _]%elem_of_list_filter_b. done.
Qed.

(** A line of the run log that is written as key=value pairs is read back
    to the fields it was written from, less the empty ones, in whatever order
    Go walks the map: keys are plain words, and values are text without a
    backslash whose only spaces are blanks, tabs or inside of quotes. *)
Theorem ParseLine_formatKVLine fields :
  (forall k v, fields !! k = Some v -> v <> "" -> lineKey k = true /\ lineValue v) ->
  ParseLine Unmarshal (formatKVLine rangeOver fields)
  = mkEntry (formatKVLine rangeOver fields) (filter (fun kv : string * string => kv.2 <> "") fields).
Proof.
  intros Hok. rewrite formatKVLine_parts.
  assert (Hall : Forall lineField (emitted fields)).
  { apply Forall_forall. intros [k v] Hkv. apply emitted_elem in Hkv as [Hne Hl]. destruct (Hok _ _ Hl Hne). by split_and!. }
  assert (Hmap : (list_to_map (emitted fields) : Fields) ∪ ∅ = filter (fun kv : string * string => kv.2 <> "") fields).
  { rewrite (right_id_L ∅ (∪)). apply map_eq. intros k. apply option_eq. intros v.
    rewrite <- elem_of_list_to_map by apply emitted_NoDup. rewrite emitted_elem, map_lookup_filter_Some. cbn. tauto. }
  pose proof (emitted_NoDup fields) as Hnd. pose proof (parse_parts (emitted fields) Hall _ ∅ (le_n _)) as Hparse.
  rewrite (foldl_fields _ _ Hnd), Hmap in Hparse. unfold ParseLine. rewrite Join_trim by done. fold (parseKVLine (Join (map part (emitted fields)) " ")) in Hparse.
  destruct (emitted fields) as [|[k v] l].
  { cbn [map Join] in *. rewrite bool_decide_eq_true_2 by done. f_equal. by rewrite <- Hparse. }
  apply Forall_cons in Hall as [(Hk & _) _]. cbn [fst] in Hk. apply lineKey_bytes in Hk as [Hne Hb].
  assert (Hline : exists c d t, Join (map part ((k, v) :: l)) " " = String c (String d t) /\ c <> "{"%char /\ d <> " "%char).
  { cbn [map]. rewrite Join_cons. unfold part at 1. cbn [fst snd]. rewrite !sapp_assoc.
    assert (Hch : forall x c, x ∈ bytes k -> byte_val c = x -> c <> "{"%char /\ c <> " "%char)
      by (intros x c Hx Hc; apply Hb in Hx as (? & ? & Hx); split; intros ->; vm_compute in Hc; lia).
    destruct k as [|c [|d k]]; [done| |]; cbn [String.append bytes] in *.
    - do 3 eexists. split; [reflexivity|]. split; [by apply (Hch (byte_val c) c); [left|]|done].
    - do 3 eexists. split; [reflexivity|]. split; [by apply (Hch (byte_val c) c); [left|]|by apply (Hch (byte_val d) d); [right; left|]]. }
  destruct Hline as (c & d & t & E & Hc & Hd). rewrite E in Hparse |- *. rewrite bool_decide_eq_false_2 by done.
  assert (Hj : HasPrefix (String c (String d t)) "{" = false) by (cbn; by rewrite bool_decide_eq_false_2).
  assert (Hs : forall x, HasPrefix (String c (String d t)) (String x " ") = false)
    by (intros x; cbn; rewrite (bool_decide_eq_false_2 (" "%char = d)) by done; apply andb_false_r).
  rewrite Hj, !Hs. f_equal. exact Hparse.
Qed.
End line.

(** ** Blocks of commands *)

Definition entriesOf (b : CommandBlock) : list Entry := Begin b :: Streams b ++ match End_ b with Some e => [e] | None => [] end.
Definition allEntries (g : groups) : list Entry := concat (map entriesOf (blocks (flush g))) ++ events g.
Definition commandBlock (b : CommandBlock) : Prop :=
  field (Begin b) "event" = "command_begin" /\ Forall (fun e => field e "event" = "") (Streams b) /\
  match End_ b with Some e => field e "event" = "command_end" | None => True end.
Definition blocksOk (g : groups) : Prop :=
  Forall commandBlock (blocks g) /\ match current g with Some b => commandBlock b /\ End_ b = None | None => True end.

Lemma flush_events g : events (flush g) = events g.
Proof. unfold flush. by destruct (current g). Qed.
Lemma flush_current g : current (flush g) = None.
Proof. unfold flush. by destruct (current g) eqn:E. Qed.
Lemma flush_ok g : blocksOk g -> blocksOk (flush g).
Proof.
  intros [Hb Hc]. unfold flush. destruct (current g) as [b|] eqn:E; [|split; [done|by rewrite E]].
  split; cbn; [|done]. apply Forall_app. split; [done|]. apply Forall_singleton. apply Hc.
Qed.
Lemma flush_flush g : flush (flush g) = flush g.
Proof. unfold flush at 1. by rewrite flush_current. Qed.
Lemma flush_all g : allEntries (flush g) = allEntries g.
Proof. unfold allEntries. by rewrite flush_flush, flush_events. Qed.
Lemma allEntries_open b bs es : allEntries (mkGroups (Some b) bs es) = (concat (map entriesOf bs) ++ entriesOf b) ++ es.
Proof. unfold allEntries, flush. cbn [current blocks events]. rewrite map_app, concat_app. cbn [map concat]. by rewrite app_nil_r. Qed.
Lemma addEvent_all e g : allEntries (addEvent e g) ≡ₚ e :: allEntries g.
Proof.
  unfold allEntries, addEvent, flush. cbn. destruct (current g); cbn; rewrite app_assoc; symmetry; apply Permutation_cons_append.
Qed.

Lemma entriesOf_end b e : End_ b = None -> entriesOf (mkBlock (Begin b) (Streams b) (Some e)) ≡ₚ e :: entriesOf b.
Proof.
  intros H. unfold entriesOf. rewrite H. cbn [Begin Streams End_]. rewrite app_nil_r, Permutation_swap. f_equiv.
  symmetry. apply Permutation_cons_append.
Qed.
Lemma entriesOf_stream b e : End_ b = None -> entriesOf (mkBlock (Begin b) (Streams b ++ [e]) (End_ b)) ≡ₚ e :: entriesOf b.
Proof.
  intros H. unfold entriesOf. rewrite H. cbn [Begin Streams End_]. rewrite !app_nil_r, Permutation_swap. f_equiv.
  symmetry. apply Permutation_cons_append.
Qed.
Lemma allEntries_grown b b' bs es e : entriesOf b' ≡ₚ e :: entriesOf b ->
  allEntries (mkGroups (Some b') bs es) ≡ₚ e :: allEntries (mkGroups (Some b) bs es).
Proof. intros H. rewrite !allEntries_open, H, <- !app_assoc. symmetry. apply Permutation_middle. Qed.

Lemma groupEntry_spec g e : Raw e <> "" -> blocksOk g ->
  blocksOk (groupEntry g e) /\ allEntries (groupEntry g e) ≡ₚ e :: allEntries g.
Proof.
  intros Hraw Hok. unfold groupEntry. pose proof Hok as [Hb Hc]. case_bool_decide as H1.
  { pose proof (flush_ok g Hok) as [Hfb _]. split; [by split|]. rewrite allEntries_open. unfold allEntries. rewrite flush_events, <- app_assoc.
    symmetry. apply Permutation_middle. }
  case_bool_decide as H2.
  { destruct g as [[b|] bs es]; cbn [current blocks events Begin Streams End_] in *; [|split; [done|apply addEvent_all]]. destruct Hc as [Hcb Hend].
    rewrite flush_all. split; [|by apply allEntries_grown, entriesOf_end].
    split; [|done]. apply Forall_app. split; [done|]. apply Forall_singleton. destruct Hcb as (? & ? & _). by split_and!. }
  case_bool_decide as H3; [|split; [by apply flush_ok in Hok as [? ?]; split|by rewrite addEvent_all, flush_all]].
  rewrite (bool_decide_eq_false_2 (Raw e = "")) by done.
  destruct g as [[b|] bs es]; cbn [current blocks events Begin Streams End_] in *; [|split; [done|apply addEvent_all]].
  destruct (_ || _); [|split; [done|apply addEvent_all]]. destruct Hc as [(Hbeg & Hst & _) Hend]. split.
  - split; [done|]. split; [|done]. cbn. split_and!; [done|apply Forall_app; split; [done|by apply Forall_singleton]|by rewrite Hend].
  - by apply allEntries_grown, entriesOf_stream.
Qed.

(** The view by commands shows every line once, in a block or by itself; a
    block begins with the beginning of a command, holds what came before
    another event, and ends with the end of a command if it has one. *)
Theorem groupEntries_partition entries : Forall (fun e => Raw e <> "") entries ->
  Forall commandBlock (groupEntries entries).1 /\
  concat (map entriesOf (groupEntries entries).1) ++ (groupEntries entries).2 ≡ₚ entries.
Proof.
  intros Hall.
  assert (Hfold : forall g, blocksOk g -> blocksOk (foldl groupEntry g entries) /\ allEntries (foldl groupEntry g entries) ≡ₚ entries ++ allEntries g).
  { induction Hall as [|e entries He Hall IH]; intros g Hg; [done|]. cbn [foldl]. destruct (groupEntry_spec g e He Hg) as [Hok Hp].
    destruct (IH _ Hok) as [Hok2 Hp2]. split; [done|]. rewrite Hp2, Hp. cbn. symmetry. apply Permutation_middle. }
  destruct (Hfold (mkGroups None [] [])) as [Hok Hp]; [done|]. change (allEntries (mkGroups None [] [])) with (@nil Entry) in Hp. rewrite app_nil_r in Hp.
  set (g := foldl groupEntry _ entries) in *. apply flush_ok in Hok as [Hb _]. unfold groupEntries. fold g. cbn [fst snd].
  split; [done|]. by rewrite flush_events.
Qed.

(** ** Lines *)

Definition toy_order (fields : Fields) : list string := (map_to_list fields).*1.
Lemma toy_order_keys fields : NoDup (toy_order fields) /\ forall k, k ∈ toy_order fields <-> is_Some (fields !! k).
Proof.
  split; [apply NoDup_fst_map_to_list|]. intros k. unfold toy_order. rewrite list_elem_of_fmap. split.
  - intros ([k' v] & -> & Hin). apply elem_of_map_to_list in Hin. by exists v.
  - intros [v Hv]. exists (k, v). split; [done|]. by apply elem_of_map_to_list.
Qed.
Definition toy_run : RunContext := mkRun "0f3a" "deploy" 7.
Definition toy_command (cmd : string) : CommandContext := mkCommand "web" "start" "ssh" cmd false.
Definition end_fields (cmd : string) : Fields := commandEndFields "2025-01-02T03:04:05.000Z" toy_run "10.0.0.1" (toy_command cmd) 1 2500000.
Definition plain_command : string := "make " +:+ dquote +:+ "a=b" +:+ dquote.
Definition runes_value (v : string) : bool :=
  ascii_only v && negb (bool_decide (92 ∈ bytes v)) && (needsQuotes v || negb (firstSpace (bytes v)) && negb (firstSpace (rev (bytes v)))).
Lemma runes_value_ok v : runes_value v = true -> lineValue v.
Proof.
  unfold runes_value. intros [[Ha Hb]%andb_true_iff Hs]%andb_true_iff. exists (bytes v). split_and!.
  - by apply ascii_valid.
  - by rewrite string_of_bytes.
  - by apply negb_true_iff, bool_decide_eq_false in Hb.
  - intros Hq. rewrite Hq in Hs. apply andb_true_iff in Hs as [H1 H2]. by rewrite negb_true_iff in H1, H2.
Qed.
Lemma end_fields_ok : forall k v, end_fields plain_command !! k = Some v -> v <> "" -> lineKey k = true /\ lineValue v.
Proof.
  assert (H : map_Forall (fun k v => lineKey k && runes_value v = true) (end_fields plain_command)) by (apply (bool_decide_unpack _); vm_compute; exact I).
  intros k v Hl _. apply H in Hl. apply andb_true_iff in Hl as [Hk Hv]. split; [exact Hk|by apply runes_value_ok].
Qed.
Lemma ParseLine_formatKVLine_witness :
  ParseLine (fun _ => None) (formatKVLine toy_order (end_fields plain_command))
  = mkEntry (formatKVLine toy_order (end_fields plain_command)) (filter (fun kv : string * string => kv.2 <> "") (end_fields plain_command)).
Proof. apply (ParseLine_formatKVLine toy_order (fun _ => None) toy_order_keys). exact end_fields_ok. Defined.

(** A backslash is written as it is and read as an escape: a command that ends
    in one takes its closing quote, and the exit code that follows is lost. *)
Definition broken_command : string := "ls C:" +:+ backslash.
Theorem backslash_swallows_the_line :
  let e := ParseLine (fun _ => None) (formatKVLine toy_order (end_fields broken_command)) in
  end_fields broken_command !! "exit" = Some "1" /\ EFields e !! "exit" = None /\ EFields e !! "cmd" <> Some broken_command.
Proof. vm_compute. split_and!; [reflexivity|reflexivity|discriminate]. Qed.

Definition toy_entries : list Entry :=
  map (ParseLine (fun _ => None)) ["event=command_begin cmd=ls"; "| one"; "event=command_end exit=0"; "event=run_end exit=0"].
Lemma groupEntries_partition_witness :
  Forall commandBlock (groupEntries toy_entries).1 /\ length (groupEntries toy_entries).1 = 1%nat.
Proof.
  split; [|vm_compute; reflexivity]. apply (groupEntries_partition toy_entries).
  repeat (apply Forall_cons; split; [vm_compute; discriminate|]). apply Forall_nil. exact I.
Defined.
